(* ===== verification/_CoqProject ===== *)
-Q . S2P
Prelude.v
GoString.v
GoConv.v
Table.v
Event.v
Utf8.v
Wire.v
Session.v
SessionStore.v
Hub.v
Connection.v
Auth.v
Paths.v
Sandbox.v
Daemon.v
Os.v
Fsops.v
FsopsSpec.v
History.v
Tools.v
WorkerPool.v
Approver.v
Dispatcher.v
Recovery.v
LspWire.v
Lsp.v
Server.v
ServerSpec.v
Intent.v
IntentSpec.v
HostTools.v
Git.v
Pool.v
PoolSpec.v
WireClient.v
MobileState.v
MobileStore.v
GoNum.v
Registry.v
Config.v
ConfigSpec.v
ConfigApi.v
ConfigApiSpec.v
AuthApi.v
Markdown.v
DocFetch.v
GoJson.v
GitHub.v
GitHubClient.v
Catalogue.v
Models.v
Service.v
SearchSyntax.v
Docker.v
AuditLog.v
Orchestrator.v
WebAuthn.v
Base64.v
Translators.v
UrlQuery.v
Onboard.v
Images.v
UserIntent.v
ConfigEditor.v
AdminClient.v
MobileApp.v
MobileAppSpec.v
Http.v
UserCommand.v
Lifecycle.v
Compactor.v
DbUtil.v
Process.v
Export.v
Commands.v
Mock.v
Screens.v
Route.v
