(* ===== verification/Prelude.v ===== *)
(** * NomadDev: a verification development of the orchestrator's core

    The program (src/, Go) is a remote-execution orchestrator.  A WebSocket
    server accepts clients whose token verifies, keeps a replay buffer per
    session, turns natural-language intents into tool calls through a language
    model, gates each call (token scopes, argument validation, audit mode, human
    approval) and runs it against a sandbox, a workspace file engine or GitHub.
    A Go client reconnects, queues intents offline and reduces the event stream
    to a screen state.

    ** Files, and the code they model

    - Prelude: results, tactics, hint databases, list lemmas, interleavings.
      GoString, GoConv: Go strings, [strings], [strconv] and [path/filepath]
      functions.  Utf8: [unicode/utf8].  Table: a table keyed by (session,
      index), the semantics of the SQL the stores use.  Paths: cleaned paths,
      and [withinRoot] of internal/fsops/engine.go.
    - Event: internal/event/event.go and redact.go (envelopes, masking of
      credentials).  Wire: internal/event/types.go (payloads), decoding of a
      payload as a class, [float64] and [int64].
    - Session: internal/session/ringbuf.go and session.go.  SessionStore:
      internal/session/sqlite.go, with its connections interleaved and its
      statements failing.  Hub: internal/hub, a step relation of the owner
      goroutine.  Connection: the read pump, [bufferAndSend] and replay of
      internal/wsserver/pumps.go.  Lifecycle: the rest of that file, a connection
      from its registration to its teardown with both pumps, over Hub (its
      register and unregister channels as queues), Daemon and Lsp.  Http: internal/wsserver/server.go, handler.go and spa.go.
    - Auth: internal/auth (token verification with secret rotation, scope
      policies, both revocation lists, which can fail, behind the class
      [RevocationList]).
    - Sandbox and Daemon: internal/sandbox/runner.go, mock.go, digest.go and
      daemon.go; [Runner] and [RunnerContract] are what a runner promises.
      Process: starting daemons and language servers, and the goroutines around
      a daemon.
    - LspWire, Lsp: internal/sandbox/lsp.go (framing and result projection; the
      request multiplexer as a step relation, queries, the server registry).
    - Os: the file system calls the code uses, over a tree with symbolic links
      and injected faults.  Fsops, FsopsSpec: internal/fsops/engine.go, run.go.
    - History: internal/history (both stores behind [HistoryStore] with
      [HistoryLaws], compaction, pinned files).  Compactor: the summarizer and
      the janitor of summarizer.go.  DbUtil: internal/dbutil and the opening of
      the four databases.
    - Tools, WorkerPool, Approver, Dispatcher, Recovery: the files of the same
      name in internal/middleware.
    - Server, ServerSpec: internal/wsserver/sandbox.go, the direct command path,
      as programs of a state monad that log their effects, with a small program
      logic ([emits]).  Intent, IntentSpec: internal/wsserver/middleware.go, the
      turn of the assistant, in the same monad; it is proved against
      [DispatchContract] and [DelegateContract].  Dispatcher's [Dispatch]
      discharges the first; the second is what HostTools
      (internal/wsserver/daemon.go, lsp.go) and Pool, PoolSpec
      (internal/wsserver/workerpool.go, over Git: internal/gitctl/git.go)
      discharge.
    - WireClient: internal/wireclient/session.go.  MobileState, MobileStore:
      internal/mobile/state/state.go and ingest.go.
    - GoNum: [strconv.ParseBool/ParseInt/ParseFloat] and [time.ParseDuration],
      over an executable float64.  Registry: internal/config/registry.go.
      Config: internal/config/config.go and override.go.  ConfigSpec: the
      registry against [Load] and [Validate].  ConfigApi, ConfigApiSpec:
      internal/wsserver/config_handlers.go.  AuthApi:
      internal/wsserver/auth_handlers.go.
    - Markdown, DocFetch: internal/docfetch (HTML to Markdown; the address
      filter, the allowlist, the exfiltration screen and [Fetch]).
    - GoJson: [json.Marshal] of the values the backends encode.  GitHub,
      GitHubClient: internal/githubmcp (rate limits, tokens per user, schemas,
      the destructive set; the client with its subprocess, retries and
      restarts).
    - Catalogue: the tool schemas of internal/middleware/tools.go and their
      conversion for the model APIs.  Models: models.go and pricing.  Service:
      service.go and factory.go, the wiring.  Base64, Translators: the Anthropic,
      OpenAI and Gemini backends, one stage of a turn at a time.
    - SearchSyntax, Docker: internal/sandbox/searchsyntax.go, docker.go and the
      factories; [Docker.docker_runner_contract] discharges [RunnerContract].
    - AuditLog: internal/audit.  WebAuthn: internal/webauthn and
      internal/wsserver/webauthn_handlers.go.
    - UrlQuery, Onboard: the onboarding link from cmd/orchestrator/main.go to
      internal/mobile/state/deeplink.go, and the credentials file (tokens.go).
    - Images, UserIntent: attachments from the phone's picker to
      internal/wsserver/images.go, and [handleUserIntent] above Intent.
      UserCommand: the user commands of middleware.go and the hello they show in.
    - ConfigEditor: internal/mobile/ui/config.go.  AdminClient:
      internal/mobile/state/admin.go, composed with ConfigApi.  MobileApp,
      MobileAppSpec: internal/mobile/ui/app.go and the taps of the other screens,
      with the goroutines the shell starts.  Screens: what each screen shows.
    - Route: [routeApproval] of internal/wsserver/sandbox.go, from a client's
      answer to the approver and the audit log.  Mock: the scripted translator.
      Export: cmd/session-export.  Commands: cmd/wsclient, cmd/sandbox,
      scripts/gen-jwt, scripts/qr-jwt and the dialing of internal/wireclient.
    - Orchestrator: cmd/orchestrator/main.go, which builds the parts.

    ** What the theorems show

    - Confinement: no tool of the file engine reads or changes anything outside
      the caller's scope ([Fsops.fsops_confined]); a patch replaces exactly the
      match; a verified patch stays only if its check succeeds; the web
      client's pages come, through the server's mux and with its security
      headers, from plain names of its bundle only
      ([Http.web_files_stay_in_the_bundle]).
    - Authority: only tokens that verify, of the right kind and known not to be
      revoked, are accepted ([Auth.parse_accepts_only_verified]; a revocation
      list that cannot be read refuses), and only they open a connection, from an
      allowed origin and without touching another session
      ([Http.websocket_upgrade_is_authorised]); a command or a model's tool call runs only with scope, valid
      arguments, outside audit-mode restrictions and after consent
      ([ServerSpec.execution_needs_scope_and_consent],
      [IntentSpec.model_calls_pass_every_gate]); a grant is always a client's
      answer ([Approver.approval_requires_signal]), which the phone gives once
      and only when the tool's name was typed into the sheet while it was for
      that tool ([MobileAppSpec.approvals_confirmed_and_answered_once]); a host process is started
      only with consent ([HostTools.daemon_needs_consent]); the arguments on an
      approval card reveal nothing of a field named like a credential
      ([Event.redact_args_noninterference]; the preview of a patch is not
      redacted), and the card shows the whole request
      ([Screens.approval_card_shows_the_request]); every consent is on record
      ([Route.consents_are_on_record]); what the token tools mint opens the
      server for just that ([Commands.minted_tokens_open_the_server]).
    - The worker pool: however the tasks interleave, a worker's calls name only
      paths of its own worktree and pass the approval gate
      ([PoolSpec.worker_calls_confined]), only checked work of disjoint scopes
      is merged ([PoolSpec.pool_merges_only_checked_work]), a refused merge is
      aborted, and no worktree outlives the call
      ([PoolSpec.pool_leaves_no_worktree]).
    - The sandbox: a container is created only from the pinned image with the
      configured limits and mounts the workspace, or the session's directory in
      it, and nothing else of the host
      ([Docker.docker_container_is_confined]); whatever the engine answers it is
      removed ([Docker.docker_container_is_reaped]); output and search results
      are faithful and capped.
    - GitHub: a call is repeated only on a rate limit or after a restart
      ([GitHubClient.github_call_is_not_repeated]), restarts are spaced, the
      cache of per-user tokens is transparent, and the service gates every
      mutating tool ([Service.service_gates_mutations]).
    - Keys: a login by security key is one the library accepted for the
      challenge begun for that subject and its stored keys, once and in time
      ([WebAuthn.key_login_is_earned]).
    - Providers: every backend streams fragments and closes once
      ([Translators.provider_stages_keep_contract]), keeps calls and results
      paired, and tells the model the same conversation; attachments arrive
      byte for byte ([Images.attachments_arrive_intact]); every message of a
      user is answered once, if the model stops asking for tools
      ([UserIntent.user_intent_answered_once]).
    - Start-up: a server that listens has a complete configuration
      ([Orchestrator.orchestrator_refuses_misconfiguration]) and closes what it
      opened; the audit log survives rotation; the phone reads from the link
      exactly what was minted.
    - Delivery: replay after a reconnect is the missed suffix of the session's
      log or an explicit stale notice
      ([Connection.reconnect_replays_what_was_missed]); one client per session; what a
      connection's channel took is written in order, hello first, and once the
      hub has taken its removal (after its registration) and both stops ran, a
      connection leaves no client, daemon or language server
      ([Lifecycle.connections_deliver_and_end_cleanly]); every request,
      tool call and turn gets exactly one terminal frame; output streams, daemon
      logs, terminal lines and the offline outbox lose and reorder nothing; the
      replay window is what was pushed and saved, also across restarts and
      failing statements ([SessionStore.replay_survives_restart]).
    - Storage: a migration that fails leaves a file of a known version and is
      finished at the next start ([DbUtil.migrations_are_resumable]); a sweep of
      the janitor compacts each session at most once; an export is exactly the
      session's rows ([Export.export_is_the_session]).
    - Processes: a start that fails leaves nothing running and nothing open; the
      lines of a daemon end with one closing frame, lost only to a full channel,
      a stop signals it, and the reaper cannot be wedged
      ([Process.daemon_output_ends_once]); a language server is handed
      over initialized or not at all.
    - Language servers: frames round-trip, every answer reaches the request it
      is for, failures come back as answers, servers end with their session.
    - Settings: every field of the configuration is what the registry says of
      the shown value ([ConfigSpec.load_follows_registry]); the validator is
      exact; the override file is replaced atomically; an update applies wholly
      or not at all and takes effect on the next start
      ([ConfigApiSpec.config_put_survives_restart]); secrets are write-only; what
      is edited on the phone is what the server stores, or the phone shows why
      not ([AdminClient.edited_settings_reach_the_server]); dangerous changes are
      sent only once acknowledged; "applied" means the restarted server greeted
      ([MobileAppSpec.applied_means_back_online]); a session's model is the last
      valid choice ([UserCommand.session_model_is_last_choice]).
      Refresh tokens rotate and a revoked token stays refused.
    - Documentation: the dialer refuses exactly the listed networks
      ([DocFetch.blocked_networks]); every connection of a fetch, redirects
      included and whatever a name resolves to at each hop, is to an allowed host
      at an address outside those networks ([DocFetch.fetch_is_contained]); the rendered page carries nothing of the
      skipped elements and no run of blank lines.
    - Bounds and termination: the ring buffer, pins, terminal, attachments and
      retry chains stay within their limits; a turn ends, and so does the wait
      for a restart ([MobileAppSpec.restart_polling_terminates]).
    - Refinement: the ring buffer against the log of everything pushed, the two
      history stores and the two revocation lists against one specification,
      the client's reducer against a fold per turn.

    ** Conventions

    A Go [(value, error)] is [result] or [option]; a channel's content is a list
    and its buffer a capacity; a goroutine's interleaving is a step relation or
    an argument that fixes the choice of a [select]; the clock, minted ids and
    injected faults are arguments.  Machine integers are [Z], with [wrap64]
    where the code can overflow; converting a float out of range gives the least
    int64, as on amd64.  Fuel appears in string scanners (the length of
    the input: each round consumes a byte), in symbolic-link resolution (the
    kernel's and the library's own limits, whose exhaustion is the error the
    code returns), and in the turn loop (one unit per stage, with theorems that
    give enough).  A worker's loop counts the stages before its deadline, which
    is what ends it in the code.  The pool's workers run as separate programs
    whose logs are merged by an arbitrary schedule, each with its own share of
    the fresh ids and its own answers from the environment.

    Third-party code is a parameter: the JWT codec, [encoding/json] between bytes
    and values, the language models' streams, the summarizer, the MCP library
    and what GitHub answers, the Docker engine's answers, git and the language
    servers, the go-webauthn library, [net/url] parsing and the HTML parser (the
    code is given parsed values), the effect of a sandboxed command.

    ** Not modelled

    Socket I/O (listening, deadlines, the WebSocket library), metrics, tracing and
    log lines, which no behaviour depends on; of the immediate-mode user
    interface, geometry and scrolling (what is shown and what a tap does is
    modelled); flag parsing and process entry points; the request fields of the
    OpenAI and Gemini backends, which only restate the configuration. *)

From Stdlib Require Export Ascii.
From stdpp Require Export base decidable option list gmap strings fin_maps fin_sets.
From Stdlib Require Export ZArith Lia.

#[global] Set Default Goal Selector "!".
#[global] Set Warnings "-clear-no-such-hyp".

Declare Scope go_scope.
Delimit Scope go_scope with go.
Open Scope go_scope.


(** ** Results: Go's [(value, error)] pairs *)

Inductive result (E A : Type) : Type :=
| Ok (a : A)
| Err (e : E).
Arguments Ok {E A} a.
Arguments Err {E A} e.

#[global] Instance result_ret E : MRet (result E) := fun A a => Ok a.
#[global] Instance result_bind E : MBind (result E) := fun A B f r =>
  match r with Ok a => f a | Err e => Err e end.

#[global] Instance result_eq_dec {E A} `{EqDecision E, EqDecision A} :
  EqDecision (result E A).
Proof. solve_decision. Defined.

Definition is_ok {E A} (r : result E A) : bool :=
  match r with Ok _ => true | Err _ => false end.

(** A guard: [if !b { return err }]. *)
Definition guard_err {E} (b : bool) (e : E) : result E unit :=
  if b then Ok tt else Err e.

(** Map over a list, stopping at the first error (a Go [for] loop that returns
    on error). *)
Fixpoint mapM_res {E A B} (f : A -> result E B) (l : list A) : result E (list B) :=
  match l with
  | [] => Ok []
  | x :: l' =>
      match f x with
      | Err e => Err e
      | Ok y => match mapM_res f l' with
                | Err e => Err e
                | Ok ys => Ok (y :: ys)
                end
      end
  end.

(** ** Tactics *)

(** Case analysis on every [match]/[if] discriminated by the hypotheses or the
    goal, keeping the equations, and closing the contradictory cases. *)
Ltac go_split :=
  repeat (case_match || case_decide || case_bool_decide; simplify_eq/=; try done).

(** Turn the boolean tests of the code into propositions. *)
Ltac boolprop :=
  repeat match goal with
  | H : (_ && _) = true |- _ => apply andb_true_iff in H as [? ?]
  | H : (_ || _) = false |- _ => apply orb_false_iff in H as [? ?]
  | H : negb _ = true |- _ => apply negb_true_iff in H
  | H : negb _ = false |- _ => apply negb_false_iff in H
  | H : (_ <? _)%Z = true |- _ => apply Z.ltb_lt in H
  | H : (_ <? _)%Z = false |- _ => apply Z.ltb_ge in H
  | H : (_ <=? _)%Z = true |- _ => apply Z.leb_le in H
  | H : (_ <=? _)%Z = false |- _ => apply Z.leb_gt in H
  | H : (_ =? _)%Z = true |- _ => apply Z.eqb_eq in H
  | H : (_ =? _)%Z = false |- _ => apply Z.eqb_neq in H
  | H : (_ <? _) = true |- _ => apply Nat.ltb_lt in H
  | H : (_ <? _) = false |- _ => apply Nat.ltb_ge in H
  | H : (_ <=? _) = true |- _ => apply Nat.leb_le in H
  | H : (_ <=? _) = false |- _ => apply Nat.leb_gt in H
  | H : bool_decide _ = true |- _ => apply bool_decide_eq_true in H
  | H : bool_decide _ = false |- _ => apply bool_decide_eq_false in H
  end.

Create HintDb go discriminated.
Create HintDb go_inv discriminated.

(** ** Lists *)

Section lists.
Context {A : Type}.
Implicit Types l : list A.

(** The longest [k] that [P] rejects is what an eviction loop drops; suffixes
    of a list are its [drop]s. *)
Lemma suffix_drop n l : drop n l `suffix_of` l.
Proof. exists (take n l). by rewrite take_drop. Qed.

Lemma last_snoc_inv l x : last l = Some x -> exists l', l = l' ++ [x].
Proof.
  intros H. exists (take (length l - 1) l).
  induction l as [|a [|b l'] IH]; simplify_eq/=; [done|].
  rewrite Nat.sub_0_r in IH. by rewrite IH at 1.
Qed.

Lemma suffix_snoc_last l k x : k ++ [x] `suffix_of` l -> last l = Some x.
Proof. intros [p ->]. by rewrite app_assoc, last_snoc. Qed.

Lemma filter_all_true (P : A -> Prop) `{!forall x, Decision (P x)} l :
  Forall P l -> filter P l = l.
Proof. induction 1; [done|]. rewrite filter_cons_True by done. by f_equal. Qed.

Lemma filter_all_false (P : A -> Prop) `{!forall x, Decision (P x)} l :
  Forall (fun x => ~ P x) l -> filter P l = [].
Proof. induction 1; [done|]. by rewrite filter_cons_False. Qed.

(** An element of an append lies in one of the parts. *)
Lemma app_eq_mid l1 l2 pre x post :
  l1 ++ l2 = pre ++ x :: post ->
  (exists k, l1 = pre ++ x :: k /\ post = k ++ l2) \/ (exists k, pre = l1 ++ k /\ l2 = k ++ x :: post).
Proof.
  revert pre. induction l1 as [|y l1 IH]; intros pre H; [right; by exists pre|].
  destruct pre as [|z pre]; injection H as -> H; [subst; left; by exists l1|].
  destruct (IH pre H) as [(k & -> & ->)|(k & -> & ->)]; [left|right]; by exists k.
Qed.
End lists.

(** ** Interleavings *)

(** Merge the lists [ls] by picking the head of list [j] for each choice [j];
    what the choices leave comes at the end. *)
Fixpoint interleave {A} (choices : list nat) (ls : list (list A)) : list A :=
  match choices with
  | [] => concat ls
  | j :: rest =>
      match ls !! j with
      | Some (x :: xs) => x :: interleave rest (<[j := xs]> ls)
      | _ => interleave rest ls
      end
  end.

Lemma concat_insert_perm {A} (ls : list (list A)) j x xs :
  ls !! j = Some (x :: xs) -> x :: concat (<[j := xs]> ls) ≡ₚ concat ls.
Proof.
  revert j. induction ls as [|l ls IH]; intros [|j] H; simplify_eq/=; [done|].
  rewrite <-(IH j H). apply Permutation_middle.
Qed.

Lemma interleave_perm {A} choices (ls : list (list A)) : interleave choices ls ≡ₚ concat ls.
Proof.
  revert ls. induction choices as [|j cs IH]; intros ls; simpl; [done|].
  destruct (ls !! j) as [[|x xs]|] eqn:E; [apply IH| |apply IH]. rewrite IH. by apply concat_insert_perm.
Qed.

Lemma sublist_concat {A} (ls : list (list A)) j l : ls !! j = Some l -> l `sublist_of` concat ls.
Proof.
  revert j. induction ls as [|k ls IH]; intros [|j] H; simplify_eq/=; [by apply sublist_inserts_r|].
  apply sublist_inserts_l. by eapply IH.
Qed.

(** Each list keeps its order. *)
Lemma interleave_sublist {A} choices (ls : list (list A)) j l : ls !! j = Some l -> l `sublist_of` interleave choices ls.
Proof.
  revert ls l. induction choices as [|i cs IH]; intros ls l H; simpl; [by eapply sublist_concat|].
  destruct (ls !! i) as [[|x xs]|] eqn:E; [by apply IH| |by apply IH].
  destruct (decide (i = j)) as [->|Hne].
  - simplify_eq. apply sublist_skip, IH. rewrite list_lookup_insert_eq; [done|]. by eapply lookup_lt_Some.
  - apply sublist_cons, IH. by rewrite list_lookup_insert_ne.
Qed.

(** Sum of a [Z]-valued measure over a list. *)
Definition sumZ {A} (f : A -> Z) (l : list A) : Z := foldr (fun x acc => f x + acc)%Z 0%Z l.

Lemma sumZ_app {A} (f : A -> Z) l k : sumZ f (l ++ k) = (sumZ f l + sumZ f k)%Z.
Proof. induction l as [|x l IH]; simpl; lia. Qed.

Lemma sumZ_nonneg {A} (f : A -> Z) l : (forall x, x ∈ l -> (0 <= f x)%Z) -> (0 <= sumZ f l)%Z.
Proof.
  induction l as [|x l IH]; simpl; intros H; [lia|].
  specialize (IH (fun y Hy => H y (list_elem_of_further _ _ _ Hy))).
  specialize (H x (list_elem_of_here _ _)). lia.
Qed.

#[export] Hint Resolve suffix_drop : go.

(** ** Results of [mapM_res] *)

Lemma mapM_res_Forall2 {E A B} (f : A -> result E B) l k :
  mapM_res f l = Ok k <-> Forall2 (fun x y => f x = Ok y) l k.
Proof.
  revert k. induction l as [|x l IH]; intros k; simpl.
  - split; [intros [= <-]; constructor|]. by inversion 1.
  - split.
    + intros H. destruct (f x) as [y|e] eqn:Hx; [|done].
      destruct (mapM_res f l) as [ys|e] eqn:Hl; [|done].
      simplify_eq. constructor; [done|]. by apply IH.
    + inversion 1 as [|? y ? ys Hx Hl]; subst. rewrite Hx.
      by rewrite (proj2 (IH ys) Hl).
Qed.
