(* ===== verification/GoString.v ===== *)
(** * Go's byte strings

    The part of the Go standard library the sources use on strings: slicing,
    [strings.HasPrefix], [HasSuffix], [Contains], [Index], [LastIndex],
    [Count], [Split], [Join], [ToLower], [TrimSpace], [TrimPrefix],
    [TrimSuffix], and [path.Clean] / [filepath.Join] on Unix.

    A Go string is a sequence of bytes: here a [string] (a list of 8-bit
    [ascii]).  [ToLower] is exact on ASCII strings; bytes from 128 up are left
    unchanged (Go lower-cases the runes they encode).  [Index] is [option nat]
    where Go returns -1. *)

From S2P Require Import Prelude.

(** ** Slicing *)

(** [s[:n]] *)
Fixpoint str_take (n : nat) (s : string) : string :=
  match n, s with
  | S n, String c s => String c (str_take n s)
  | _, _ => ""
  end.

(** [s[n:]] *)
Fixpoint str_drop (n : nat) (s : string) : string :=
  match n, s with
  | S n, String _ s => str_drop n s
  | _, _ => s
  end.

#[global] Arguments str_take !n !s / : simpl nomatch.
#[global] Arguments str_drop !n !s / : simpl nomatch.

(** [len(s)] as a Go [int]. *)
Definition zlen (s : string) : Z := Z.of_nat (String.length s).

(** ** Searching *)

Fixpoint HasPrefix (s p : string) : bool :=
  match p, s with
  | EmptyString, _ => true
  | String a p', String b s' => if Ascii.eqb a b then HasPrefix s' p' else false
  | String _ _, EmptyString => false
  end.

Definition HasSuffix (s suf : string) : bool :=
  (String.length suf <=? String.length s) &&
  String.eqb (str_drop (String.length s - String.length suf) s) suf.

Fixpoint Index (s sub : string) : option nat :=
  if HasPrefix s sub then Some 0
  else match s with
       | EmptyString => None
       | String _ s' => S <$> Index s' sub
       end.

Definition Contains (s sub : string) : bool :=
  match Index s sub with Some _ => true | None => false end.

Definition containsAny (haystack : string) (needles : list string) : bool :=
  existsb (Contains haystack) needles.

(** [strings.LastIndex(s, string(c))] *)
Fixpoint LastIndexByte (s : string) (c : ascii) : option nat :=
  match s with
  | EmptyString => None
  | String a s' =>
      match LastIndexByte s' c with
      | Some i => Some (S i)
      | None => if Ascii.eqb a c then Some 0 else None
      end
  end.

(** [strings.Count(s, sub)] for a non-empty [sub]: non-overlapping matches,
    scanning from the left. *)
Fixpoint Count_fuel (fuel : nat) (s sub : string) : nat :=
  match fuel with
  | O => O
  | S fuel =>
      match Index s sub with
      | None => O
      | Some i => S (Count_fuel fuel (str_drop (i + String.length sub) s) sub)
      end
  end.
Definition Count (s sub : string) : nat := Count_fuel (S (String.length s)) s sub.

(** ** Splitting and joining *)

(** [strings.Split(s, string(c))] *)
Fixpoint SplitByte (c : ascii) (s : string) : list string :=
  match s with
  | EmptyString => [EmptyString]
  | String a s' =>
      if Ascii.eqb a c then EmptyString :: SplitByte c s'
      else match SplitByte c s' with
           | h :: r => String a h :: r
           | [] => [String a EmptyString]
           end
  end.

(** [strings.Join(l, string(c))] *)
Fixpoint JoinByte (c : ascii) (l : list string) : string :=
  match l with
  | [] => EmptyString
  | [x] => x
  | x :: l' => x +:+ String c (JoinByte c l')
  end.

(** ** Case and trimming *)

Definition lower_byte (c : ascii) : ascii :=
  let n := Ascii.nat_of_ascii c in
  if (65 <=? n) && (n <=? 90) then Ascii.ascii_of_nat (n + 32) else c.

Fixpoint ToLower (s : string) : string :=
  match s with
  | EmptyString => EmptyString
  | String c s' => String (lower_byte c) (ToLower s')
  end.

Definition bytes_of (l : list nat) : string :=
  foldr (fun n s => String (Ascii.ascii_of_nat n) s) EmptyString l.

(** The UTF-8 encodings of [unicode.IsSpace]. *)
Definition space_runes : list string := Eval vm_compute in
  (bytes_of <$> [[9]; [10]; [11]; [12]; [13]; [32]; [194; 133]; [194; 160]; [225; 154; 128];
     [226; 128; 128]; [226; 128; 129]; [226; 128; 130]; [226; 128; 131]; [226; 128; 132];
     [226; 128; 133]; [226; 128; 134]; [226; 128; 135]; [226; 128; 136]; [226; 128; 137];
     [226; 128; 138]; [226; 128; 168]; [226; 128; 169]; [226; 128; 175]; [226; 129; 159];
     [227; 128; 128]]).

Definition TrimPrefix (s p : string) : string :=
  if HasPrefix s p then str_drop (String.length p) s else s.

Definition TrimSuffix (s p : string) : string :=
  if HasSuffix s p then str_take (String.length s - String.length p) s else s.

Fixpoint trim_left_fuel (fuel : nat) (s : string) : string :=
  match fuel with
  | O => s
  | S fuel =>
      match List.find (HasPrefix s) space_runes with
      | Some r => trim_left_fuel fuel (str_drop (String.length r) s)
      | None => s
      end
  end.

Fixpoint trim_right_fuel (fuel : nat) (s : string) : string :=
  match fuel with
  | O => s
  | S fuel =>
      match List.find (HasSuffix s) space_runes with
      | Some r => trim_right_fuel fuel (str_take (String.length s - String.length r) s)
      | None => s
      end
  end.

(** Each round removes a non-empty rune, so [length s] rounds are enough. *)
Definition TrimSpace (s : string) : string :=
  let l := trim_left_fuel (String.length s) s in
  trim_right_fuel (String.length l) l.

(** ** Lexical paths *)

(** One component of [path.Clean]'s scan; the stack holds the kept components,
    innermost first. *)
Definition clean_step (rooted : bool) (stack : list string) (comp : string) : list string :=
  if String.eqb comp "" || String.eqb comp "." then stack
  else if String.eqb comp ".." then
    match stack with
    | top :: rest => if String.eqb top ".." then comp :: stack else rest
    | [] => if rooted then [] else [comp]
    end
  else comp :: stack.

Definition is_rooted (p : string) : bool := HasPrefix p "/".

(** The kept components of a path, outermost first. *)
Definition clean_comps (p : string) : list string :=
  reverse (foldl (clean_step (is_rooted p)) [] (SplitByte "/"%char p)).

(** [path.Clean] / [filepath.Clean] on Unix. *)
Definition Clean (p : string) : string :=
  let body := JoinByte "/"%char (clean_comps p) in
  if is_rooted p then "/" +:+ body
  else if String.eqb body "" then "." else body.

(** [filepath.Join(a, b)] *)
Definition Join2 (a b : string) : string :=
  if String.eqb a "" then (if String.eqb b "" then "" else Clean b)
  else if String.eqb b "" then Clean a
  else Clean (a +:+ String "/"%char b).

(** [filepath.Dir] of a cleaned path. *)
Definition Dir (p : string) : string :=
  match LastIndexByte p "/"%char with
  | None => "."
  | Some i => Clean (str_take (S i) p)
  end.

(** ** Facts *)

Lemma str_app_nil_r s : s +:+ "" = s.
Proof. induction s as [|c s IH]; [done|]. change (String c (s +:+ "") = String c s). by rewrite IH. Qed.

Lemma str_app_cons c s t : String c s +:+ t = String c (s +:+ t).
Proof. done. Qed.

Lemma str_app_nil_l s : "" +:+ s = s.
Proof. done. Qed.

Lemma str_app_assoc a b c : a +:+ (b +:+ c) = (a +:+ b) +:+ c.
Proof. induction a as [|x a IH]; [done|]. by rewrite !str_app_cons, IH. Qed.

Lemma str_length_app a b : String.length (a +:+ b) = String.length a + String.length b.
Proof. induction a as [|x a IH]; [done|]. rewrite str_app_cons; simpl. by rewrite IH. Qed.

Lemma zlen_app a b : zlen (a +:+ b) = (zlen a + zlen b)%Z.
Proof. unfold zlen. rewrite str_length_app. lia. Qed.

Lemma zlen_nonneg s : (0 <= zlen s)%Z.
Proof. unfold zlen. lia. Qed.

Lemma str_take_drop n s : str_take n s +:+ str_drop n s = s.
Proof.
  revert s. induction n as [|n IH]; intros [|c s]; try done; simpl.
  rewrite str_app_cons. by rewrite IH.
Qed.

Lemma str_length_take n s : String.length (str_take n s) = Nat.min n (String.length s).
Proof. revert s. induction n as [|n IH]; intros [|c s]; simpl; auto. Qed.

Lemma str_length_drop n s : String.length (str_drop n s) = String.length s - n.
Proof. revert s. induction n as [|n IH]; intros [|c s]; simpl; auto. Qed.

Lemma str_take_app_length a b : str_take (String.length a) (a +:+ b) = a.
Proof. induction a as [|c a IH]; [by destruct b|]. rewrite str_app_cons; simpl. by rewrite IH. Qed.

Lemma str_drop_app_length a b : str_drop (String.length a) (a +:+ b) = b.
Proof. induction a as [|c a IH]; [by destruct b|]. rewrite str_app_cons; simpl. done. Qed.

Lemma str_drop_drop n m s : str_drop n (str_drop m s) = str_drop (m + n) s.
Proof.
  revert s. induction m as [|m IH]; intros [|c s]; simpl; auto. by destruct n.
Qed.

Lemma str_take_all n s : String.length s <= n -> str_take n s = s.
Proof. revert s. induction n as [|n IH]; intros [|c s] H; simpl in *; auto; [lia|]. rewrite IH; [done|lia]. Qed.

Lemma str_drop_all n s : String.length s <= n -> str_drop n s = "".
Proof. revert s. induction n as [|n IH]; intros [|c s] H; simpl in *; auto with lia. Qed.

Lemma HasPrefix_app s p : HasPrefix s p = true <-> exists t, s = p +:+ t.
Proof.
  split.
  - revert s. induction p as [|a p IH]; intros s H; [by exists s|].
    destruct s as [|b s]; [done|]. simpl in H.
    destruct (Ascii.eqb_spec a b) as [->|]; [|done].
    destruct (IH s H) as [t ->]. by exists t.
  - intros [t ->]. induction p as [|a p IH]; [by destruct t|].
    rewrite str_app_cons; simpl. by rewrite Ascii.eqb_refl.
Qed.

Lemma HasPrefix_refl_app p t : HasPrefix (p +:+ t) p = true.
Proof. apply HasPrefix_app. by exists t. Qed.

#[global] Arguments HasPrefix : simpl never.

Lemma HasSuffix_app s q : HasSuffix s q = true <-> exists t, s = t +:+ q.
Proof.
  unfold HasSuffix. rewrite andb_true_iff, Nat.leb_le, String.eqb_eq. split.
  - intros [Hle Heq]. exists (str_take (String.length s - String.length q) s).
    rewrite <-Heq at 2. by rewrite str_take_drop.
  - intros [t ->]. rewrite str_length_app. split; [lia|].
    replace (String.length t + String.length q - String.length q) with (String.length t) by lia.
    apply str_drop_app_length.
Qed.

Lemma Index_Some s sub i :
  Index s sub = Some i -> s = str_take i s +:+ (sub +:+ str_drop (i + String.length sub) s).
Proof.
  revert i. induction s as [|c s IH]; intros i; simpl.
  - destruct sub; [|done]. by intros [= <-].
  - case_match eqn:Hp.
    + intros [= <-]. apply HasPrefix_app in Hp as [t Ht].
      rewrite Ht. simpl str_take. rewrite str_app_nil_l. f_equal. simpl plus.
      by rewrite str_drop_app_length.
    + destruct (Index s sub) as [j|] eqn:Hj; [|done]. simpl. intros [= <-].
      simpl. rewrite str_app_cons. f_equal. by apply IH.
Qed.

Lemma Index_lt s sub i : Index s sub = Some i -> i + String.length sub <= String.length s.
Proof.
  revert i. induction s as [|c s IH]; intros i; simpl.
  - destruct sub; [|done]. by intros [= <-].
  - case_match eqn:Hp.
    + intros [= <-]. apply HasPrefix_app in Hp as [t Ht].
      apply (f_equal String.length) in Ht. rewrite str_length_app in Ht. simpl in *. lia.
    + destruct (Index s sub) as [j|]; [|done]. simpl. intros [= <-].
      specialize (IH j eq_refl). lia.
Qed.

Lemma Index_app_exists pre sub post : is_Some (Index (pre +:+ (sub +:+ post)) sub).
Proof.
  induction pre as [|c pre IH].
  - rewrite str_app_nil_l. destruct (sub +:+ post) as [|d u] eqn:E; simpl.
    + destruct sub; [|done]. by eexists.
    + rewrite <-E, HasPrefix_refl_app. by eexists.
  - rewrite str_app_cons. simpl. case_match; [by eexists|].
    destruct IH as [i ->]. by eexists.
Qed.

Lemma Contains_spec s sub : Contains s sub = true <-> exists pre post, s = pre +:+ (sub +:+ post).
Proof.
  unfold Contains. split.
  - destruct (Index s sub) as [i|] eqn:E; [|done]. intros _.
    eexists _, _. by apply Index_Some.
  - intros (pre & post & ->). destruct (Index_app_exists pre sub post) as [i ->]. done.
Qed.

Lemma SplitByte_nonempty c s : SplitByte c s <> [].
Proof. destruct s; simpl; [done|]. case_match; [done|]. by case_match. Qed.

Lemma Join_Split c s : JoinByte c (SplitByte c s) = s.
Proof.
  induction s as [|a s IH]; [done|]. simpl.
  pose proof (SplitByte_nonempty c s) as Hne.
  destruct (Ascii.eqb_spec a c) as [->|Hac].
  - destruct (SplitByte c s) as [|h r] eqn:E; [done|]. simpl in *. by rewrite IH.
  - destruct (SplitByte c s) as [|h [|h' r]] eqn:E; [done| |]; simpl in *; rewrite <-IH; done.
Qed.

(** ** Concatenation *)

Definition str_concat (l : list string) : string := foldr String.append "" l.

Lemma str_concat_cons x l : str_concat (x :: l) = x +:+ str_concat l.
Proof. done. Qed.

Lemma str_concat_app l k : str_concat (l ++ k) = str_concat l +:+ str_concat k.
Proof. induction l as [|x l IH]; [done|]. simpl. by rewrite IH, str_app_assoc. Qed.
