(* ===== verification/GoConv.v ===== *)
(** * More of Go's strings and strconv

    [strconv.Itoa] and [strconv.Atoi] (64-bit), [strings.TrimRight] and
    [strings.Fields], [filepath.Ext], and what the framing and the command-line
    parsers need about them. *)

From S2P Require Import Prelude GoString.
From Stdlib Require Import DecimalString DecimalZ DecimalFacts.

(** ** Numbers *)

(** [strconv.Itoa], and [%d] of an int. *)
Definition Itoa (z : Z) : string := NilZero.string_of_int (Z.to_int z).

(** [strconv.Atoi]: an optional sign, digits, in the range of int64. *)
Definition Atoi (s : string) : option Z :=
  let parsed := match s with
                | String c s' => if Ascii.eqb c "+" then option_map Decimal.Pos (NilZero.uint_of_string s') else NilZero.int_of_string s
                | EmptyString => None
                end in
  match parsed with
  | Some d => let z := Z.of_int d in if (- 2 ^ 63 <=? z)%Z && (z <? 2 ^ 63)%Z then Some z else None
  | None => None
  end.

(** The decimal digits. *)
Definition dec_digit (c : ascii) : bool := let n := nat_of_ascii c in (48 <=? n) && (n <=? 57).

Fixpoint str_all (f : ascii -> bool) (s : string) : bool :=
  match s with EmptyString => true | String c s' => f c && str_all f s' end.

Lemma str_all_app f a b : str_all f (a +:+ b) = str_all f a && str_all f b.
Proof. induction a as [|c a IH]; [done|]. rewrite str_app_cons. simpl. by rewrite IH, andb_assoc. Qed.

Lemma uint_digits d : str_all dec_digit (NilEmpty.string_of_uint d) = true.
Proof. induction d; simpl; rewrite ?IHd; done. Qed.

Lemma to_int_shape n : (0 <= n)%Z -> exists d, Z.to_int n = Decimal.Pos d /\ d <> Decimal.Nil.
Proof.
  intros Hn. destruct n as [|p|p]; [|  |lia]; simpl.
  - by exists (Decimal.D0 Decimal.Nil).
  - exists (Pos.to_uint p). split; [done|]. apply DecimalPos.Unsigned.to_uint_nonnil.
Qed.

Lemma Itoa_nonneg n : (0 <= n)%Z -> exists c s, Itoa n = String c s /\ str_all dec_digit (String c s) = true.
Proof.
  intros Hn. destruct (to_int_shape n Hn) as (d & Ed & Hd). unfold Itoa. rewrite Ed.
  pose proof (uint_digits d) as Hall. destruct d; try done; simpl in *; eauto.
Qed.

Lemma Atoi_Itoa n : (0 <= n < 2 ^ 63)%Z -> Atoi (Itoa n) = Some n.
Proof.
  intros Hn. destruct (Itoa_nonneg n) as (c & s & E & Hc); [lia|].
  destruct (to_int_shape n) as (d & Ed & Hd); [lia|].
  unfold Atoi. rewrite E. destruct (Ascii.eqb_spec c "+") as [->|_]; [done|].
  rewrite <-E. unfold Itoa. rewrite NilZero.isi by (rewrite Ed; congruence). rewrite of_to. 
  destruct (Z.leb_spec (- 2 ^ 63) n), (Z.ltb_spec n (2 ^ 63)); simpl; done || lia.
Qed.

(** ** Trimming *)

Fixpoint drop_while (f : ascii -> bool) (s : string) : string :=
  match s with
  | EmptyString => EmptyString
  | String c s' => if f c then drop_while f s' else s
  end.

(** [strings.TrimRight(s, cutset)], the cutset as a predicate on bytes: the
    suffix is cut when all of it is in the set. *)
Fixpoint TrimRight (f : ascii -> bool) (s : string) : string :=
  match s with
  | EmptyString => EmptyString
  | String c s' => match TrimRight f s' with
                   | EmptyString => if f c then EmptyString else String c EmptyString
                   | r => String c r
                   end
  end.

Lemma TrimRight_app f a b : str_all f b = true -> TrimRight f (a +:+ b) = TrimRight f a.
Proof.
  intros Hb. induction a as [|c a IH]; [|rewrite str_app_cons; simpl; by rewrite IH].
  rewrite str_app_nil_l. induction b as [|c b IH]; [done|]. simpl in *. apply andb_true_iff in Hb as [Hc Hb]. by rewrite (IH Hb), Hc.
Qed.

Lemma TrimRight_none f s : str_all (fun c => negb (f c)) s = true -> TrimRight f s = s.
Proof.
  induction s as [|c s IH]; [done|]. simpl. intros [Hc Hs]%andb_true_iff. rewrite (IH Hs). apply negb_true_iff in Hc.
  by destruct s; [rewrite Hc|].
Qed.

Definition CutPrefix (s p : string) : option string :=
  if HasPrefix s p then Some (str_drop (String.length p) s) else None.

Lemma CutPrefix_app p s : CutPrefix (p +:+ s) p = Some s.
Proof. unfold CutPrefix. by rewrite HasPrefix_refl_app, str_drop_app_length. Qed.

(** [TrimSpace] on a line whose ends are ASCII and not spaces. *)
Definition not_space (c : ascii) : bool :=
  let n := nat_of_ascii c in (33 <=? n) && (n <=? 127).

Fixpoint last_byte (s : string) : option ascii :=
  match s with
  | EmptyString => None
  | String c EmptyString => Some c
  | String _ s' => last_byte s'
  end.

Lemma last_byte_app a b : b <> "" -> last_byte (a +:+ b) = last_byte b.
Proof.
  intros Hb. induction a as [|c a IH]; [done|]. rewrite str_app_cons. simpl. rewrite IH.
  destruct (a +:+ b) eqn:E; [|done]. destruct a; [by rewrite str_app_nil_l in E|by rewrite str_app_cons in E].
Qed.

Lemma space_runes_last : Forall (fun r => r <> "" /\ match last_byte r with Some c => not_space c = false | None => False end) space_runes.
Proof. repeat constructor; done. Qed.

Lemma trim_left_none fuel c s : not_space c = true -> trim_left_fuel fuel (String c s) = String c s.
Proof.
  intros Hc. destruct fuel as [|fuel]; [done|]. cbn [trim_left_fuel].
  assert (List.find (HasPrefix (String c s)) space_runes = None) as ->; [|done].
  destruct c as [[] [] [] [] [] [] [] []]; vm_compute in Hc; try discriminate; reflexivity.
Qed.

Lemma trim_right_none fuel s c : last_byte s = Some c -> not_space c = true -> trim_right_fuel fuel s = s.
Proof.
  intros Hs Hc. destruct fuel as [|fuel]; [done|]. cbn [trim_right_fuel].
  destruct (List.find (HasSuffix s) space_runes) as [r|] eqn:E; [|done].
  apply List.find_some in E as [Hin Hsuf]. apply HasSuffix_app in Hsuf as [t ->].
  pose proof space_runes_last as Hall. rewrite List.Forall_forall in Hall. destruct (Hall r Hin) as [Hr Hl].
  rewrite last_byte_app in Hs by done. rewrite Hs in Hl. congruence.
Qed.

Lemma trim_left_space fuel s : trim_left_fuel (S fuel) (String " " s) = trim_left_fuel fuel s.
Proof.
  cbn [trim_left_fuel]. assert (List.find (HasPrefix (String " " s)) space_runes = Some " ") as ->.
  { by destruct s. }
  cbn. by destruct s.
Qed.

Lemma all_last f c s : str_all f (String c s) = true -> exists d, last_byte (String c s) = Some d /\ f d = true.
Proof.
  revert c. induction s as [|d s IH]; intros c H; simpl in H; apply andb_true_iff in H as [Hc Hs]; [by exists c|].
  destruct (IH d Hs) as (x & Hx & Hf). exists x. split; [|done]. simpl. simpl in Hx. done.
Qed.

Lemma digit_not_space c : dec_digit c = true -> not_space c = true.
Proof. unfold dec_digit, not_space. intros [H1%Nat.leb_le H2%Nat.leb_le]%andb_true_iff. apply andb_true_iff. split; apply Nat.leb_le; lia. Qed.

Lemma TrimSpace_number n : (0 <= n)%Z -> TrimSpace (String " " (Itoa n)) = Itoa n.
Proof.
  intros Hn. destruct (Itoa_nonneg n Hn) as (c & s & -> & Hall). unfold TrimSpace. cbn [String.length].
  rewrite trim_left_space. assert (dec_digit c = true) as Hc by (simpl in Hall; by apply andb_true_iff in Hall as [? _]).
  rewrite trim_left_none by by apply digit_not_space.
  destruct (all_last dec_digit c s Hall) as (d & Hd & Hdd). by apply (trim_right_none _ _ d); [|apply digit_not_space].
Qed.

(** ** Fields *)

(** The first field: up to the first space rune. *)
Fixpoint take_field (fuel : nat) (s : string) : string * string :=
  match fuel with
  | O => (EmptyString, s)
  | S fuel =>
      match s with
      | EmptyString => (EmptyString, EmptyString)
      | String c s' => match List.find (HasPrefix s) space_runes with
                       | Some _ => (EmptyString, s)
                       | None => let '(w, r) := take_field fuel s' in (String c w, r)
                       end
      end
  end.

Fixpoint fields_fuel (fuel : nat) (s : string) : list string :=
  match fuel with
  | O => []
  | S fuel =>
      let t := trim_left_fuel (String.length s) s in
      match t with
      | EmptyString => []
      | _ => let '(w, r) := take_field (String.length t) t in w :: fields_fuel fuel r
      end
  end.

(** [strings.Fields]: each round takes a non-empty field. *)
Definition Fields (s : string) : list string := fields_fuel (S (String.length s)) s.

(** [strings.Join(l, sep)] *)
Fixpoint StrJoin (sep : string) (l : list string) : string :=
  match l with
  | [] => EmptyString
  | [x] => x
  | x :: l' => x +:+ sep +:+ StrJoin sep l'
  end.

(** [filepath.Ext]: from the last dot of the last component. *)
Definition Ext (p : string) : string :=
  match LastIndexByte p "."%char with
  | None => ""
  | Some i => match LastIndexByte p "/"%char with
              | Some j => if j <? i then str_drop i p else ""
              | None => str_drop i p
              end
  end.
