(* ===== verification/Table.v ===== *)
(** * Tables keyed by session and index

    The SQLite stores (internal/history/sqlite.go, internal/session/sqlite.go)
    keep their rows under the primary key [(sid, idx)].  A table is a map over
    that key; the selections are what the SQL asks for. *)

From S2P Require Import Prelude.
From stdpp Require Import sorting.

Section table.
Context {V : Type}.
Implicit Types t : gmap (string * Z) V.

Definition idx_le (a b : Z * V) : Prop := (a.1 <= b.1)%Z.
#[export] Instance idx_le_dec a b : Decision (idx_le a b).
Proof. unfold idx_le. apply _. Defined.

(** [SELECT ... WHERE sid = ? ORDER BY idx ASC] *)
Definition rows_of (t : gmap (string * Z) V) (sid : string) : list (Z * V) :=
  merge_sort idx_le
    (omap (fun '((k, i), r) => if String.eqb k sid then Some (i, r) else None) (map_to_list t)).

(** [SELECT COALESCE(MAX(idx), -1) + 1] *)
Definition next_idx (t : gmap (string * Z) V) (sid : string) : Z :=
  (match last (rows_of t sid) with Some p => p.1 | None => -1 end + 1)%Z.

(** *** Sorted selections *)

Definition idx_lt (a b : Z * V) : Prop := (a.1 < b.1)%Z.

#[export] Instance idx_le_trans : Transitive idx_le.
Proof. intros a b c. unfold idx_le. lia. Qed.
#[export] Instance idx_le_total : Total idx_le.
Proof. intros a b. unfold idx_le. lia. Qed.
#[export] Instance idx_lt_antisymm : AntiSymm (=) idx_lt.
Proof. intros a b. unfold idx_lt. lia. Qed.

Lemma elem_of_rows t sid i r : (i, r) ∈ rows_of t sid <-> t !! (sid, i) = Some r.
Proof.
  unfold rows_of. rewrite merge_sort_Permutation, list_elem_of_omap. split.
  - intros ([[k j] r'] & Hin & Heq). destruct (String.eqb_spec k sid) as [->|]; simplify_eq.
    by apply elem_of_map_to_list.
  - intros Hl. exists ((sid, i), r). split; [by apply elem_of_map_to_list|]. by rewrite String.eqb_refl.
Qed.

Lemma rows_NoDup t sid : NoDup (rows_of t sid).
Proof.
  unfold rows_of. rewrite merge_sort_Permutation.
  pose proof (NoDup_map_to_list t) as Hnd. revert Hnd. generalize (map_to_list t).
  induction l as [|[[k i] r] l IH]; intros Hnd; [constructor|]. apply NoDup_cons in Hnd as [Hx Hnd].
  simpl. destruct (String.eqb_spec k sid) as [->|]; [|by apply IH].
  constructor; [|by apply IH]. intros ([[k' j] r'] & Hin & Heq)%list_elem_of_omap.
  destruct (String.eqb_spec k' sid) as [->|]; by simplify_eq.
Qed.

Lemma rows_sorted t sid : StronglySorted idx_lt (rows_of t sid).
Proof.
  assert (StronglySorted idx_le (rows_of t sid)) as Hs by (apply Sorted_StronglySorted, Sorted_merge_sort; apply _).
  pose proof (rows_NoDup t sid) as Hnd.
  assert (forall p q, p ∈ rows_of t sid -> q ∈ rows_of t sid -> p.1 = q.1 -> p = q) as Hkey.
  { intros [i r] [j r'] Hp%elem_of_rows Hq%elem_of_rows. simpl. intros ->. by simplify_eq. }
  revert Hs Hnd Hkey. generalize (rows_of t sid). induction l as [|p l IH]; intros Hs Hnd Hkey; [constructor|].
  apply StronglySorted_inv in Hs as [Hs Hall]. apply NoDup_cons in Hnd as [Hp Hnd]. constructor.
  - apply IH; [done|done|]. intros a b Ha Hb. apply Hkey; by apply list_elem_of_further.
  - apply Forall_forall. intros q Hq. rewrite Forall_forall in Hall. specialize (Hall q Hq).
    unfold idx_lt, idx_le in *. assert (p.1 <> q.1); [|lia]. intros Heq.
    apply Hp. rewrite (Hkey p q); [done|apply list_elem_of_here|by apply list_elem_of_further|done].
Qed.

(** A strictly sorted list is determined by its elements. *)
Lemma rows_unique t sid l :
  StronglySorted idx_lt l -> (forall i r, (i, r) ∈ l <-> t !! (sid, i) = Some r) -> rows_of t sid = l.
Proof.
  intros Hs Hm. assert (NoDup l) as Hnd.
  { clear Hm. induction Hs as [|p l Hs IH Hall]; constructor; [|done].
    intros Hin. rewrite Forall_forall in Hall. specialize (Hall p Hin). unfold idx_lt in Hall. lia. }
  eapply (StronglySorted_unique idx_lt); [apply rows_sorted|done|].
  apply NoDup_Permutation; [apply rows_NoDup|done|]. intros [i r]. by rewrite elem_of_rows, Hm.
Qed.

Lemma rows_other t t' sid : (forall i, t' !! (sid, i) = t !! (sid, i)) -> rows_of t' sid = rows_of t sid.
Proof. intros H. apply rows_unique; [apply rows_sorted|]. intros i r. by rewrite H, elem_of_rows. Qed.

Lemma rows_below_next t sid p : p ∈ rows_of t sid -> (p.1 < next_idx t sid)%Z.
Proof.
  intros Hin. unfold next_idx. pose proof (rows_sorted t sid) as Hs.
  destruct (last (rows_of t sid)) as [q|] eqn:Hl.
  - apply last_snoc_inv in Hl as [l Hl]. rewrite Hl in Hs, Hin.
    apply elem_of_app in Hin as [Hin| ->%list_elem_of_singleton]; [|lia].
    assert (p.1 < q.1)%Z; [|lia]. revert Hs Hin. clear. induction l as [|a l IH]; intros Hs Hin; [by apply not_elem_of_nil in Hin|].
    apply StronglySorted_inv in Hs as [Hs Hall]. apply elem_of_cons in Hin as [->|Hin]; [|by apply IH].
    rewrite Forall_forall in Hall. apply (Hall q). apply elem_of_app. right. by apply list_elem_of_singleton.
  - apply last_None in Hl. rewrite Hl in Hin. by apply not_elem_of_nil in Hin.
Qed.

Lemma sorted_snoc l p : StronglySorted idx_lt l -> Forall (fun q => q.1 < p.1)%Z l -> StronglySorted idx_lt (l ++ [p]).
Proof.
  induction 1 as [|q l Hs IH Hall]; intros Hf; simpl; [by repeat constructor|].
  apply Forall_cons in Hf as [Hq Hf]. constructor; [by apply IH|]. apply Forall_app. split; [done|]. by rewrite Forall_singleton.
Qed.

Lemma sorted_app_lt (l k : list (Z * V)) p q : StronglySorted idx_lt (l ++ k) -> p ∈ l -> q ∈ k -> (p.1 < q.1)%Z.
Proof.
  induction l as [|a l IH]; simpl; intros Hs Hp Hq; [by apply not_elem_of_nil in Hp|].
  apply StronglySorted_inv in Hs as [Hs Hall]. apply elem_of_cons in Hp as [->|Hp]; [|by apply IH].
  rewrite Forall_forall in Hall. apply (Hall q). apply elem_of_app. by right.
Qed.

Lemma rows_append t sid r :
  rows_of (<[(sid, next_idx t sid) := r]> t) sid = rows_of t sid ++ [(next_idx t sid, r)].
Proof.
  assert (Forall (fun q => q.1 < next_idx t sid)%Z (rows_of t sid)) as Hf.
  { apply Forall_forall. intros q. apply rows_below_next. }
  apply rows_unique; [by apply sorted_snoc; [apply rows_sorted|]|].
  intros i r'. rewrite elem_of_app, list_elem_of_singleton, elem_of_rows. simpl.
  rewrite lookup_insert_Some. split.
  - intros [H|[= -> ->]]; [|by left]. right. split; [|done]. intros [= <-].
    apply elem_of_rows, rows_below_next in H. simpl in H. lia.
  - intros [[[= <-] <-]|[_ ?]]; auto.
Qed.

Lemma next_idx_fresh t sid : t !! (sid, next_idx t sid) = None.
Proof.
  destruct (t !! (sid, next_idx t sid)) as [r|] eqn:E; [|done].
  apply elem_of_rows, rows_below_next in E. simpl in E. lia.
Qed.


(** *** Deleting by key *)

Lemma sorted_filter (P : Z * V -> Prop) `{!forall x, Decision (P x)} l : StronglySorted idx_lt l -> StronglySorted idx_lt (filter P l).
Proof.
  induction 1 as [|p l Hs IH Hall]; [constructor|]. destruct (decide (P p)).
  - rewrite filter_cons_True by done. constructor; [done|]. apply Forall_forall. intros q [_ Hq]%list_elem_of_filter.
    rewrite Forall_forall in Hall. by apply Hall.
  - by rewrite filter_cons_False.
Qed.

(** [DELETE ... WHERE sid = ? AND idx < ?] *)
Lemma rows_prune t sid cutoff :
  rows_of (filter (fun kv => ~ (kv.1.1 = sid /\ (kv.1.2 < cutoff)%Z)) t) sid = filter (fun p => cutoff <= p.1)%Z (rows_of t sid).
Proof.
  apply rows_unique; [apply sorted_filter, rows_sorted|]. intros i r.
  rewrite list_elem_of_filter, elem_of_rows, map_lookup_filter_Some. simpl. split.
  - intros [Hle Hi]. split; [done|]. lia.
  - intros [Hi Hn]. split; [|done]. apply Z.nlt_ge. naive_solver.
Qed.

Lemma rows_prune_other t sid sid' cutoff :
  sid' <> sid -> rows_of (filter (fun kv => ~ (kv.1.1 = sid /\ (kv.1.2 < cutoff)%Z)) t) sid' = rows_of t sid'.
Proof.
  intros Hne. apply rows_other. intros i. destruct (t !! (sid', i)) as [r|] eqn:E.
  - apply map_lookup_filter_Some. simpl. naive_solver.
  - apply map_lookup_filter_None. by left.
Qed.

(** [DELETE ... WHERE sid = ?] *)
Lemma rows_delete t sid : rows_of (filter (fun kv => kv.1.1 <> sid) t) sid = [].
Proof.
  apply rows_unique; [constructor|]. intros i r. split; [by intros ?%not_elem_of_nil|].
  intros [_ ?]%map_lookup_filter_Some. done.
Qed.

Lemma rows_delete_other t sid sid' : sid' <> sid -> rows_of (filter (fun kv => kv.1.1 <> sid) t) sid' = rows_of t sid'.
Proof.
  intros Hne. apply rows_other. intros i. destruct (t !! (sid', i)) as [r|] eqn:E.
  - by apply map_lookup_filter_Some.
  - apply map_lookup_filter_None. by left.
Qed.

Lemma rows_insert_other t sid sid' i r : sid' <> sid -> rows_of (<[(sid, i) := r]> t) sid' = rows_of t sid'.
Proof. intros Hne. apply rows_other. intros j. by rewrite lookup_insert_ne by congruence. Qed.

(** *** Rows numbered without gaps *)

Fixpoint consecutive (i : Z) (l : list (Z * V)) : Prop :=
  match l with [] => True | p :: l => p.1 = i /\ consecutive (i + 1) l end.

Lemma consecutive_snoc i l p : consecutive i l -> p.1 = (i + Z.of_nat (length l))%Z -> consecutive i (l ++ [p]).
Proof. revert i. induction l as [|q l IH]; simpl; intros i Hl Hp; [split; [lia|done]|]. destruct Hl as [Hq Hl]. split; [done|]. apply IH; [done|lia]. Qed.

Lemma consecutive_drop i l n : consecutive i l -> consecutive (i + Z.of_nat n) (drop n l).
Proof.
  revert i l. induction n as [|n IH]; intros i [|p l] Hl; simpl; try done; [by rewrite Z.add_0_r|].
  destruct Hl as [_ Hl]. replace (i + Z.of_nat (S n))%Z with (i + 1 + Z.of_nat n)%Z by lia. by apply IH.
Qed.

Lemma consecutive_filter i l cutoff : consecutive i l -> filter (fun p => cutoff <= p.1)%Z l = drop (Z.to_nat (cutoff - i)) l.
Proof.
  revert i. induction l as [|p l IH]; intros i Hl; [by rewrite drop_nil|]. destruct Hl as [Hp Hl].
  destruct (decide (cutoff <= i)%Z) as [Hc|Hc].
  - replace (Z.to_nat (cutoff - i)) with 0 by lia. rewrite filter_cons_True by lia. f_equal.
    rewrite (IH (i + 1)%Z Hl). by replace (Z.to_nat (cutoff - (i + 1))) with 0 by lia.
  - replace (Z.to_nat (cutoff - i)) with (S (Z.to_nat (cutoff - (i + 1)))) by lia. rewrite filter_cons_False by lia. by apply IH.
Qed.

Lemma next_idx_consecutive t sid i : consecutive i (rows_of t sid) -> rows_of t sid <> [] -> next_idx t sid = (i + Z.of_nat (length (rows_of t sid)))%Z.
Proof.
  unfold next_idx. generalize (rows_of t sid). intros l Hl Hne. destruct (exists_last Hne) as (l' & p & ->). rewrite last_snoc, length_app. simpl.
  assert (p.1 = i + Z.of_nat (length l'))%Z; [|lia]. revert i Hl. clear. induction l' as [|q l' IH]; simpl; intros i Hl; [lia|]. destruct Hl as [_ Hl]. apply IH in Hl. lia.
Qed.
End table.
