(* ===== verification/Event.v ===== *)
(** * Wire envelopes and argument redaction (internal/event)

    [Envelope] is the wire frame of internal/event/event.go; its payload is the
    decoded JSON value rather than the raw bytes.  [any] is Go's [any] as
    produced by [encoding/json]; a [map[string]any] is an association list with
    distinct keys.  The second half is redact.go: the masking of credentials in
    the arguments shown on an approval card. *)

From S2P Require Import Prelude GoString.
From stdpp Require Import pretty.
From Stdlib Require Import QArith.

#[local] Open Scope nat_scope.

(** ** Dynamic values *)

#[warnings="-register-all"]
Inductive any : Type :=
| ANil
| ABool (b : bool)
| AInt (z : Z)          (* a Go int / int64 *)
| AFloat (q : Q)        (* a JSON number *)
| AStr (s : string)
| AArr (l : list any)
| AMap (m : list (string * any)).

Abbreviation args := (list (string * any)).

(** Go's [int(v)] of a float64: towards zero; what it gives out of range depends
    on the machine, here the least int64, as on amd64. *)
Definition int_of_float (q : Q) : Z :=
  let z := Z.quot (Qnum q) (Z.pos (Qden q)) in
  (if (- 2 ^ 63 <=? z) && (z <? 2 ^ 63) then z else - 2 ^ 63)%Z.

Section any_ind.
Variable P : any -> Prop.
Hypothesis Hnil : P ANil.
Hypothesis Hbool : forall b, P (ABool b).
Hypothesis Hint : forall z, P (AInt z).
Hypothesis Hfloat : forall q, P (AFloat q).
Hypothesis Hstr : forall s, P (AStr s).
Hypothesis Harr : forall l, Forall P l -> P (AArr l).
Hypothesis Hmap : forall m, Forall (fun kv => P kv.2) m -> P (AMap m).

(** Induction over nested values. *)
Fixpoint any_ind_nested (v : any) : P v :=
  match v with
  | ANil => Hnil
  | ABool b => Hbool b
  | AInt z => Hint z
  | AFloat q => Hfloat q
  | AStr s => Hstr s
  | AArr l => Harr l ((fix go l : Forall P l :=
      match l with
      | [] => Forall_nil_2 P
      | x :: l' => Forall_cons_2 P x l' (any_ind_nested x) (go l')
      end) l)
  | AMap m => Hmap m ((fix go m : Forall (fun kv => P kv.2) m :=
      match m with
      | [] => Forall_nil_2 _
      | kv :: m' => Forall_cons_2 _ kv m' (any_ind_nested kv.2) (go m')
      end) m)
  end.
End any_ind.

(** [args[key]] *)
Fixpoint arg_lookup (m : args) (key : string) : option any :=
  match m with
  | [] => None
  | (k, v) :: m' => if String.eqb k key then Some v else arg_lookup m' key
  end.

(** [args[key].(string)], with "" when the assertion fails. *)
Definition arg_string_or_empty (m : args) (key : string) : string :=
  match arg_lookup m key with Some (AStr s) => s | _ => "" end.

(** ** Envelopes *)

Record Envelope := mkEnvelope {
  ID : string;
  EType : string;
  TS : Z;
  CorrelationID : string;
  Payload : option any;
}.

Inductive decode_error := ErrDecode | ErrMissingType.

(** [DecodeBytes]: [unmarshal] is [encoding/json] on the frame. *)
Definition DecodeBytes {B} (unmarshal : B -> option Envelope) (b : B) : result decode_error Envelope :=
  match unmarshal b with
  | None => Err ErrDecode
  | Some env => if String.eqb (EType env) "" then Err ErrMissingType else Ok env
  end.

(** [NewEnvelope] / [NewReply] with the minted id and the clock as arguments. *)
Definition NewEnvelope (id : string) (now : Z) (typ : string) (payload : option any) : Envelope :=
  mkEnvelope id typ now "" payload.

Definition NewReply (id : string) (now : Z) (typ inReplyTo : string) (payload : option any) : Envelope :=
  mkEnvelope id typ now inReplyTo payload.

(** ** Redaction of arguments *)

Definition redactedSentinel : string := "[REDACTED]".
Definition maxArgStringDisplay : Z := 4096.

Definition sensitiveArgKeys : list string :=
  [ "password"; "passwd"; "secret"; "token"; "apikey"; "api_key"; "auth"; "authorization";
    "credential"; "private_key"; "client_secret"; "bearer"; "pat"; "x-api-key" ].

Definition scriptKeys : list string := ["script"; "command"].

Definition isSensitiveKey (key : string) : bool :=
  existsb (Contains (ToLower key)) sensitiveArgKeys.

Definition isScriptKey (key : string) : bool :=
  if String.eqb key "" then false else existsb (Contains (ToLower key)) scriptKeys.

(** U+2026 in UTF-8. *)
Definition ellipsis : string := Eval vm_compute in bytes_of [226; 128; 166]%nat.

Definition truncateString (s : string) : string :=
  if (zlen s <=? maxArgStringDisplay)%Z then s
  else str_take (Z.to_nat maxArgStringDisplay) s +:+ ellipsis +:+ " (" +:+
       pretty (zlen s - maxArgStringDisplay)%Z +:+ " bytes truncated for display)".

(** *** The inline-assignment pattern

    An optional keyword (export or set, at a word boundary, followed by white
    space), a name (an upper-case letter, then upper-case letters, digits and
    underscores), an equals sign, and a value: a double-quoted string, a
    single-quoted string, or a run of bytes other than white space, semicolon,
    ampersand and bar.  Below,
    it is a leftmost-first matcher on bytes. *)

Definition in_range (c : ascii) (lo hi : nat) : bool :=
  let n := nat_of_ascii c in (lo <=? n) && (n <=? hi).

Definition is_upper (c : ascii) : bool := in_range c 65 90.
Definition is_lower (c : ascii) : bool := in_range c 97 122.
Definition is_digit (c : ascii) : bool := in_range c 48 57.
Definition is_name_byte (c : ascii) : bool := is_upper c || is_digit c || Ascii.eqb c "_".
Definition is_word_byte (c : ascii) : bool := is_upper c || is_lower c || is_digit c || Ascii.eqb c "_".
(** [\s] is [[\t\n\f\r ]]. *)
Definition is_re_space (c : ascii) : bool :=
  let n := nat_of_ascii c in
  (n =? 9) || (n =? 10) || (n =? 12) || (n =? 13) || (n =? 32).
Definition is_bare_byte (c : ascii) : bool :=
  negb (is_re_space c || Ascii.eqb c ";" || Ascii.eqb c "&" || Ascii.eqb c "|").

(** Length of the longest prefix of bytes satisfying [p]. *)
Fixpoint span_len (p : ascii -> bool) (s : string) : nat :=
  match s with
  | String c s' => if p c then S (span_len p s') else 0
  | EmptyString => 0
  end.

Definition double_quote : ascii := ascii_of_nat 34.
Definition single_quote : ascii := ascii_of_nat 39.

(** A quoted value [q[^q]*q]: its length when the closing quote exists. *)
Definition match_quoted (q : ascii) (s : string) : option nat :=
  match s with
  | String c s' =>
      if Ascii.eqb c q then
        let n := span_len (fun x => negb (Ascii.eqb x q)) s' in
        match str_drop n s' with
        | String _ _ => Some (S (S n))
        | EmptyString => None
        end
      else None
  | EmptyString => None
  end.

Definition match_value (s : string) : option nat :=
  match match_quoted double_quote s with
  | Some n => Some n
  | None =>
      match match_quoted single_quote s with
      | Some n => Some n
      | None => match span_len is_bare_byte s with 0 => None | n => Some n end
      end
  end.

(** [NAME=VALUE] at the start of [s]: the match length and the name. *)
Definition match_assign (s : string) : option (nat * string) :=
  match s with
  | String c _ =>
      if is_upper c then
        let n := span_len is_name_byte s in
        match str_drop n s with
        | String e rest =>
            if Ascii.eqb e "=" then
              match match_value rest with
              | Some v => Some (n + 1 + v, str_take n s)
              | None => None
              end
            else None
        | EmptyString => None
        end
      else None
  | EmptyString => None
  end.

(** The optional [\b(?:export|set)\s+] prefix. *)
Definition match_keyword (prev : option ascii) (s : string) : option nat :=
  if (match prev with Some c => is_word_byte c | None => false end) then None
  else
    let k := if HasPrefix s "export" then 6 else if HasPrefix s "set" then 3 else 0 in
    if k =? 0 then None
    else match span_len is_re_space (str_drop k s) with
         | 0 => None
         | w => Some (k + w)
         end.

Definition match_at (prev : option ascii) (s : string) : option (nat * string) :=
  let bare := match_assign s in
  match match_keyword prev s with
  | Some k => match match_assign (str_drop k s) with
              | Some (n, name) => Some (k + n, name)
              | None => bare
              end
  | None => bare
  end.

(** [FindStringSubmatch(match)[1]]: the name of the leftmost match. *)
Fixpoint find_name (prev : option ascii) (s : string) : option string :=
  match match_at prev s with
  | Some (_, name) => Some name
  | None => match s with
            | String c s' => find_name (Some c) s'
            | EmptyString => None
            end
  end.

(** The replacement callback of [redactScript]. *)
Definition redact_match (m : string) : string :=
  match find_name None m with
  | None => m
  | Some name =>
      if isSensitiveKey name then
        match Index m "=" with
        | Some eq => str_take (eq + 1) m +:+ redactedSentinel
        | None => m
        end
      else m
  end.

Fixpoint str_last (s : string) (d : option ascii) : option ascii :=
  match s with EmptyString => d | String c s' => str_last s' (Some c) end.

(** [ReplaceAllStringFunc]; every round consumes a byte, so [length s] rounds
    are enough. *)
Fixpoint redactScript_fuel (fuel : nat) (prev : option ascii) (s : string) : string :=
  match fuel with
  | 0 => s
  | S fuel =>
      match s with
      | EmptyString => EmptyString
      | String c s' =>
          match match_at prev s with
          | Some (n, _) =>
              redact_match (str_take n s) +:+
              redactScript_fuel fuel (str_last (str_take n s) prev) (str_drop n s)
          | None => String c (redactScript_fuel fuel (Some c) s')
          end
      end
  end.

Definition redactScript (s : string) : string := redactScript_fuel (String.length s) None s.

Fixpoint redactValue (key : string) (v : any) : any :=
  if isSensitiveKey key then AStr redactedSentinel
  else match v with
       | AStr x => if isScriptKey key then AStr (truncateString (redactScript x))
                   else AStr (truncateString x)
       | AMap m => AMap (List.map (fun kv => match kv with (k, x) => (k, redactValue k x) end) m)
       | AArr l => AArr (List.map (redactValue "") l)
       | _ => v
       end.

(** [RedactArgs]; a nil map stays nil. *)
Definition RedactArgs (a : option args) : option args :=
  List.map (fun kv => match kv with (k, x) => (k, redactValue k x) end) <$> a.

(** ** What redaction guarantees *)

(** Every field with a sensitive name, at any depth, holds the sentinel. *)
Fixpoint masked (v : any) : bool :=
  match v with
  | AArr l => List.forallb masked l
  | AMap m => List.forallb (fun kv => match kv with
                (k, x) => if isSensitiveKey k
                          then match x with AStr s => String.eqb s redactedSentinel | _ => false end
                          else masked x end) m
  | _ => true
  end.

(** Two values an approver may not tell apart: equal except under sensitive
    names. *)
#[warnings="-register-all"]
Inductive same_public : any -> any -> Prop :=
| sp_refl v : same_public v v
| sp_arr l l' : Forall2 same_public l l' -> same_public (AArr l) (AArr l')
| sp_map m m' :
    Forall2 (fun kv kv' => kv.1 = kv'.1 /\
               (isSensitiveKey kv.1 = true \/ same_public kv.2 kv'.2)) m m' ->
    same_public (AMap m) (AMap m').

Lemma redactValue_sensitive key v :
  isSensitiveKey key = true -> redactValue key v = AStr redactedSentinel.
Proof. intros H. destruct v; simpl; by rewrite H. Qed.

Lemma redactValue_masked v key : masked (redactValue key v) = true.
Proof.
  revert key. induction v as [| | | |s|l IH|m IH] using any_ind_nested; intros key;
    simpl; destruct (isSensitiveKey key); try done.
  - by case_match.
  - induction IH as [|x l Hx _ IHl]; [done|].
    simpl in *. by rewrite Hx, IHl.
  - induction IH as [|[k x] m Hx _ IHm]; [done|].
    simpl in *. rewrite IHm, andb_true_r. destruct (isSensitiveKey k) eqn:Hk.
    + by rewrite redactValue_sensitive.
    + apply Hx.
Qed.

Lemma redactValue_same_public v v' key :
  same_public v v' -> redactValue key v = redactValue key v'.
Proof.
  revert v' key. induction v as [| | | |s|l IH|m IH] using any_ind_nested;
    intros v' key Hs; inversion Hs as [|? l' Hl|? m' Hm]; subst; try done;
    simpl; destruct (isSensitiveKey key); try done; f_equal; clear Hs.
  - revert l' Hl. induction IH as [|x l Hx _ IHl]; intros l' Hl; inversion Hl; subst; [done|].
    simpl. f_equal; eauto.
  - revert m' Hm. induction IH as [|[k x] m Hx _ IHm]; intros m' Hm;
      inversion Hm as [|? [k' x'] ? m'' [Hk Hx'] Hm'']; simplify_eq/=; [done|].
    f_equal; [|by apply IHm]. f_equal.
    destruct Hx' as [Hk'|Hx'].
    { by rewrite (redactValue_sensitive _ x), (redactValue_sensitive _ x'). }
    by apply Hx.
Qed.

(** the redacted arguments keep the argument names in their order, and at
    every depth a field whose name looks like a credential holds the sentinel. *)
Theorem redact_args_masks_credentials (a : args) :
  exists out, RedactArgs (Some a) = Some out /\ out.*1 = a.*1 /\ masked (AMap out) = true.
Proof.
  eexists; split; [done|]. split.
  - induction a as [|[k v] a IH]; simpl; [done|]. by f_equal.
  - exact (redactValue_masked (AMap a) "").
Qed.

(** C37: the argument map shown on an approval card reveals nothing about a
    credential: two argument maps that agree outside the fields named like
    credentials, at any depth, are redacted to the same map; and the redacted
    map has the names of the original in their order, and at every depth the
    sentinel in each field named like a credential.  This is about that map
    alone: the card's preview of a patch carries the call's path and verification
    command as they are. *)
Theorem redact_args_noninterference (a b : args) :
  (same_public (AMap a) (AMap b) -> RedactArgs (Some a) = RedactArgs (Some b)) /\
  exists out, RedactArgs (Some a) = Some out /\ out.*1 = a.*1 /\ masked (AMap out) = true.
Proof.
  split; [|apply redact_args_masks_credentials]. intros H. unfold RedactArgs. simpl. f_equal.
  apply (redactValue_same_public _ _ "") in H. simpl in H. by injection H.
Qed.

Lemma redact_args_noninterference_witness :
  RedactArgs (Some [("cfg", AMap [("Token", AStr "hunter2"); ("n", AInt 3)])]) =
  RedactArgs (Some [("cfg", AMap [("Token", AInt 7); ("n", AInt 3)])]).
Proof.
  apply (redact_args_noninterference
           [("cfg", AMap [("Token", AStr "hunter2"); ("n", AInt 3)])]
           [("cfg", AMap [("Token", AInt 7); ("n", AInt 3)])]).
  constructor. constructor; [|constructor]. split; [done|]. right.
  constructor. constructor; [|constructor; [|constructor]].
  - split; [done|]. left. vm_compute. reflexivity.
  - split; [done|]. right. constructor.
Defined.

(** A file path counts as a credential: its name contains "pat". *)
Lemma path_is_masked p : RedactArgs (Some [("path", AStr p)]) = Some [("path", AStr redactedSentinel)].
Proof. reflexivity. Qed.

(** *** Inline assignments *)

Fixpoint all_bytes (p : ascii -> bool) (s : string) : bool :=
  match s with EmptyString => true | String c s' => p c && all_bytes p s' end.

Lemma span_len_app p a c b :
  all_bytes p a = true -> p c = false -> span_len p (a +:+ String c b) = String.length a.
Proof.
  induction a as [|x a IH]; intros Ha Hc; simpl in Ha.
  - rewrite str_app_nil_l; simpl. by rewrite Hc.
  - apply andb_true_iff in Ha as [Hx Ha]. rewrite str_app_cons; simpl. by rewrite Hx, IH.
Qed.

Lemma span_len_all p a : all_bytes p a = true -> span_len p a = String.length a.
Proof.
  induction a as [|x a IH]; intros Ha; simpl in *; [done|].
  apply andb_true_iff in Ha as [Hx Ha]. by rewrite Hx, IH.
Qed.

Lemma match_quoted_other q s :
  match s with String c _ => Ascii.eqb c q = false | EmptyString => True end -> match_quoted q s = None.
Proof. destruct s as [|c s]; [done|]. simpl. by intros ->. Qed.

(** A bare (unquoted) value. *)
Definition bare_value (v : string) : bool :=
  match v with
  | EmptyString => false
  | String c _ => all_bytes is_bare_byte v && negb (Ascii.eqb c double_quote) &&
                  negb (Ascii.eqb c single_quote)
  end.

Definition upper_name (n : string) : bool :=
  match n with EmptyString => false | String c _ => is_upper c && all_bytes is_name_byte n end.

Lemma match_value_bare v : bare_value v = true -> match_value v = Some (String.length v).
Proof.
  destruct v as [|c v]; [done|]. unfold bare_value. intros H.
  apply andb_true_iff in H as [H Hs]. apply andb_true_iff in H as [Hb Hd].
  apply negb_true_iff in Hs, Hd. unfold match_value.
  rewrite !match_quoted_other by done.
  rewrite span_len_all by done. done.
Qed.

Lemma match_assign_bare n v :
  upper_name n = true -> bare_value v = true ->
  match_assign (n +:+ String "=" v) = Some (String.length n + 1 + String.length v, n).
Proof.
  destruct n as [|c n]; [done|]. intros Hn Hv. simpl in Hn.
  apply andb_true_iff in Hn as [Hu Hn].
  unfold match_assign. rewrite str_app_cons, Hu, <-str_app_cons.
  rewrite span_len_app by done.
  rewrite str_drop_app_length. simpl Ascii.eqb. cbv iota.
  rewrite match_value_bare by done. by rewrite str_take_app_length.
Qed.

Lemma upper_not_keyword c n s :
  is_upper c = true -> match_keyword n (String c s) = None.
Proof.
  intros Hc. unfold match_keyword. case_match; [done|].
  assert (HasPrefix (String c s) "export" = false) as ->.
  { unfold HasPrefix. destruct (Ascii.eqb_spec "e" c) as [<-|]; [done|reflexivity]. }
  assert (HasPrefix (String c s) "set" = false) as ->.
  { unfold HasPrefix. destruct (Ascii.eqb_spec "s" c) as [<-|]; [done|reflexivity]. }
  done.
Qed.

Lemma match_at_bare p n v :
  upper_name n = true -> bare_value v = true ->
  match_at p (n +:+ String "=" v) = Some (String.length n + 1 + String.length v, n).
Proof.
  intros Hn Hv. unfold match_at. rewrite match_assign_bare by done.
  destruct n as [|c n]; [done|]. simpl in Hn. apply andb_true_iff in Hn as [Hu _].
  rewrite str_app_cons. by rewrite upper_not_keyword.
Qed.

Lemma name_no_eq n v :
  all_bytes is_name_byte n = true -> Index (n +:+ String "=" v) "=" = Some (String.length n).
Proof.
  induction n as [|c n IH]; intros Hn; [by destruct v|]. simpl in Hn.
  apply andb_true_iff in Hn as [Hc Hn]. rewrite str_app_cons. simpl.
  unfold HasPrefix. destruct (Ascii.eqb_spec "=" c) as [<-|]; [done|].
  by rewrite (IH Hn).
Qed.

(** a script that assigns a bare value to a variable whose (upper-case)
    name looks like a credential is shown with the value replaced by the
    sentinel, whatever the name and the value. *)
Theorem redact_script_masks_assignment (name value : string) :
  upper_name name = true -> isSensitiveKey name = true -> bare_value value = true ->
  redactScript (name +:+ String "=" value) = name +:+ String "=" redactedSentinel.
Proof.
  intros Hn Hs Hv. unfold redactScript.
  pose proof (match_at_bare None name value Hn Hv) as Hm.
  set (t := name +:+ String "=" value) in *.
  assert (Hlen : String.length t = String.length name + 1 + String.length value).
  { unfold t. rewrite str_length_app. simpl. lia. }
  assert (Ht : exists c u, t = String c u).
  { unfold t. destruct name; [done|]. rewrite str_app_cons. by eexists _, _. }
  destruct Ht as (c & u & Ht). rewrite <-Hlen in Hm.
  rewrite Ht at 1. simpl String.length. cbn [redactScript_fuel]. rewrite Ht, <-Ht, Hm.
  rewrite str_take_all, str_drop_all by lia.
  assert (forall f p, redactScript_fuel f p "" = "") as Hnil by (intros [|f] p; done).
  rewrite Hnil, str_app_nil_r. unfold redact_match.
  assert (find_name None t = Some name) as ->.
  { rewrite Ht. cbn [find_name]. by rewrite <-Ht, Hm. }
  rewrite Hs. unfold t. destruct name as [|c' n']; [done|].
  simpl in Hn. apply andb_true_iff in Hn as [_ Hn].
  rewrite name_no_eq by done.
  rewrite Nat.add_comm. change (1 + String.length (String c' n')) with (S (String.length (String c' n'))).
  replace (S (String.length (String c' n'))) with (String.length (String c' n' +:+ "=")).
  2:{ rewrite str_length_app. simpl. lia. }
  change (String "=" value) with ("=" +:+ value). rewrite str_app_assoc, str_take_app_length.
  by rewrite <-str_app_assoc.
Qed.

Lemma redact_script_masks_assignment_witness :
  redactScript ("GH_TOKEN" +:+ String "=" "ghp_123") = "GH_TOKEN=[REDACTED]".
Proof. apply (redact_script_masks_assignment "GH_TOKEN" "ghp_123"); vm_compute; reflexivity. Defined.
