(* ===== verification/Utf8.v ===== *)
(** * UTF-8 (the part of unicode/utf8 and strings the server uses)

    [rune_len] is the width of the rune a string starts with, [None] when its
    first byte starts no valid encoding; [ToValidUTF8] is strings.ToValidUTF8,
    which replaces each run of invalid bytes by one replacement. *)

From S2P Require Import Prelude GoString Event.

Definition is_cont (c : ascii) : bool := in_range c 128 191.

(** The range of the second byte of a multi-byte encoding, by its first. *)
Definition second_range (c : ascii) : option (nat * nat * nat) :=
  if in_range c 194 223 then Some (2, 128, 191)
  else if in_range c 224 224 then Some (3, 160, 191)
  else if in_range c 237 237 then Some (3, 128, 159)
  else if in_range c 225 239 then Some (3, 128, 191)
  else if in_range c 240 240 then Some (4, 144, 191)
  else if in_range c 241 243 then Some (4, 128, 191)
  else if in_range c 244 244 then Some (4, 128, 143)
  else None.

Definition rune_len (s : string) : option nat :=
  match s with
  | EmptyString => None
  | String c s =>
      if in_range c 0 127 then Some 1 else
      match second_range c, s with
      | Some (n, lo, hi), String c1 s1 =>
          if negb (in_range c1 lo hi) then None else
          match n, s1 with
          | 2, _ => Some 2
          | 3, String c2 _ => if is_cont c2 then Some 3 else None
          | 4, String c2 (String c3 _) => if is_cont c2 && is_cont c3 then Some 4 else None
          | _, _ => None
          end
      | _, _ => None
      end
  end.

Fixpoint to_valid (fuel : nat) (invalid : bool) (s rep : string) : string :=
  match fuel, s with
  | S fuel, String c s' =>
      match rune_len s with
      | Some n => str_take n s +:+ to_valid fuel false (str_drop n s) rep
      | None => (if invalid then "" else rep) +:+ to_valid fuel true s' rep
      end
  | _, _ => ""
  end.

(** Each round consumes at least one byte. *)
Definition ToValidUTF8 (s rep : string) : string := to_valid (String.length s) false s rep.

(** U+FFFD. *)
Definition RuneError : string := Eval vm_compute in bytes_of [239; 191; 189]%nat.

Fixpoint valid_fuel (fuel : nat) (s : string) : bool :=
  match fuel, s with
  | _, EmptyString => true
  | S fuel, _ => match rune_len s with Some n => valid_fuel fuel (str_drop n s) | None => false end
  | 0, _ => false
  end.

(** utf8.ValidString *)
Definition ValidString (s : string) : bool := valid_fuel (String.length s) s.

Definition is_ascii (c : ascii) : bool := in_range c 0 127.

Lemma rune_len_pos s n : rune_len s = Some n -> 0 < n <= String.length s.
Proof.
  unfold rune_len. destruct s as [|c s]; [done|]. destruct (in_range c 0 127); [intros [= <-]; simpl; lia|].
  destruct (second_range c) as [[[k lo] hi]|]; [|done]. destruct s as [|c1 s1]; [done|].
  destruct (negb _); [done|]. destruct k as [|[|[|[|[|k]]]]]; try done.
  - intros [= <-]. simpl. lia.
  - destruct s1 as [|c2 s2]; [done|]. destruct (is_cont c2); [|done]. intros [= <-]. simpl. lia.
  - destruct s1 as [|c2 [|c3 s3]]; try done. destruct (_ && _); [|done]. intros [= <-]. simpl. lia.
Qed.

Lemma to_valid_id fuel s rep : valid_fuel fuel s = true -> forall b, to_valid fuel b s rep = s.
Proof.
  revert s. induction fuel as [|fuel IH]; intros [|c s] H b; try done. cbn [valid_fuel to_valid] in *.
  destruct (rune_len (String c s)) as [n|]; [|done]. rewrite IH by done. apply str_take_drop.
Qed.

(** Valid text passes unchanged. *)
Lemma ToValidUTF8_valid s rep : ValidString s = true -> ToValidUTF8 s rep = s.
Proof. intros H. by apply to_valid_id. Qed.

Lemma ascii_valid s : all_bytes is_ascii s = true -> ValidString s = true.
Proof.
  unfold ValidString. induction s as [|c s IH]; [done|]. cbn [all_bytes String.length valid_fuel rune_len].
  unfold is_ascii at 1. intros [-> Hs]%andb_true_iff. simpl. by apply IH.
Qed.

Lemma all_bytes_take p n s : all_bytes p s = true -> all_bytes p (str_take n s) = true.
Proof.
  revert n. induction s as [|c s IH]; intros [|n]; simpl; try done. intros [-> Hs]%andb_true_iff. simpl. auto.
Qed.

Lemma all_bytes_drop p n s : all_bytes p s = true -> all_bytes p (str_drop n s) = true.
Proof.
  revert n. induction s as [|c s IH]; intros [|n]; simpl; try done. intros [_ Hs]%andb_true_iff. auto.
Qed.

Lemma all_bytes_app p a b : all_bytes p (a +:+ b) = all_bytes p a && all_bytes p b.
Proof. induction a as [|c a IH]; [done|]. rewrite str_app_cons. cbn [all_bytes]. by rewrite IH, andb_assoc. Qed.
