(* ===== verification/Wire.v ===== *)
(** * The event vocabulary (internal/event/types.go)

    The payload structs that travel in an [Envelope], the wire strings of the
    event types, and what the code asks of [encoding/json]: a decoder per
    payload type ([Unmarshal]).  A Go [float64] is IEEE 754 binary64 as the
    Standard Library specifies it. *)

From S2P Require Import Prelude GoString Event.
From Stdlib Require Import SpecFloat.

(** ** float64 *)

Abbreviation float64 := spec_float.
Definition fzero : float64 := S754_zero false.
Definition fadd (x y : float64) : float64 := SFadd 53 1024 x y.

(** ** Event types *)

Definition EventHello := "hello".
Definition EventClientHello := "client.hello".
Definition EventAck := "ack".
Definition EventPing := "ping".
Definition EventPong := "pong".
Definition EventError := "error".
Definition EventSessionStale := "session.stale".
Definition EventSessionReplaced := "session.replaced".
Definition EventCommandRequest := "command.request".
Definition EventCommandChunk := "command.chunk".
Definition EventCommandResult := "command.result".
Definition EventSandboxHeartbeat := "sandbox.heartbeat".
Definition EventUserIntent := "user.intent".
Definition EventAssistantChunk := "assistant.chunk".
Definition EventAssistantMessage := "assistant.message".
Definition EventToolApprovalRequest := "tool.approval.request".
Definition EventToolApprovalGranted := "tool.approval.granted".
Definition EventToolApprovalDenied := "tool.approval.denied".
Definition EventUserCommand := "user.command".
Definition EventSystemErrorReport := "system.error_report".
Definition EventWorkerUpdate := "worker.update".
Definition EventSystemLogEvent := "system.log_event".

Definition UserCommandSetModel := "set_model".
Definition UserCommandResetHistory := "reset_history".

(** ** Payloads *)

Record HelloPayload := mkHello {
  hp_SessionID : string;
  hp_ServerTime : string;
  hp_ProtocolVersion : Z;
  hp_Provider : string;
  hp_Model : string;
  hp_AvailableModels : list string;
}.

Record ClientHelloPayload := mkClientHello { ch_LastEventID : string }.
Record PingPayload := mkPing { pp_Nonce : string }.
Record ErrorPayload := mkErrorPayload { ep_Code : string; ep_Message : string }.

Record SessionStalePayload := mkStale {
  st_Reason : string;
  st_LastBufferedID : string;
  st_FirstBufferedID : string;
}.

Record CommandRequestPayload := mkRequestPayload {
  rq_Tool : string;
  rq_Args : args;
  rq_WorkingDir : string;
  rq_TimeoutMs : Z;
}.

Record CommandChunkPayload := mkChunkPayload { cc_Stream : string; cc_Seq : Z; cc_Data : string }.

Record CommandResultPayload := mkResultPayload {
  cr_ExitCode : Z;
  cr_DurationMs : Z;
  cr_Error : string;
  cr_ErrorMessage : string;
}.

Record SandboxHeartbeatPayload := mkHeartbeat { hb_ElapsedMs : Z }.
Record ImageInput := mkImage { MediaType : string; ImageData : string }.
Record AssistantChunkPayload := mkAssistantChunk { ac_Seq : Z; ac_Text : string }.

Record UsagePayload := mkUsage {
  us_PromptTokens : Z;
  us_CandidatesTokens : Z;
  us_TotalTokens : Z;
  us_CostUSD : float64;
}.

Record AssistantMessagePayload := mkAssistantMessage {
  am_Text : string;
  am_FinishReason : string;
  am_Error : string;
  am_Usage : option UsagePayload;
}.

Record ToolApprovalRequestPayload := mkApprovalPayload {
  ta_Tool : string;
  ta_Args : args;
  ta_Reason : string;
  ta_PendingCommandID : string;
  ta_TimeoutMs : Z;
  ta_Preview : option args;
}.

Record ToolApprovalDeniedPayload := mkDenied { td_Reason : string }.
Record UserCommandPayload := mkUserCommand { uc_Action : string; uc_Model : string }.

Record AckPayload := mkAck {
  ak_Action : string;
  ak_Error : string;
  ak_Message : string;
  ak_Model : string;
}.

Record SystemErrorReportPayload := mkErrorReport {
  er_Tool : string;
  er_OriginalCallID : string;
  er_ExitCode : Z;
  er_ErrorCode : string;
  er_ErrorMessage : string;
  er_Stderr : string;
  er_Attempt : Z;
  er_MaxAttempts : Z;
  er_Escalated : bool;
}.

Record WorkerUpdatePayload := mkWorkerUpdate {
  wu_PoolID : string;
  wu_TaskID : string;
  wu_Phase : string;
  wu_Branch : string;
  wu_Status : string;
  wu_Summary : string;
  wu_Error : string;
}.

Record SystemLogEventPayload := mkLogEvent {
  le_DaemonID : string;
  le_Stream : string;
  le_Seq : Z;
  le_Line : string;
  le_Closed : bool;
  le_ExitCode : Z;
  le_Reason : string;
}.

(** ** Decoding *)

(** [encoding/json] into the struct [P]; [None] is a decoding error. *)
Class Unmarshal (P : Type) := unmarshal_value : any -> option P.

(** [json.Unmarshal(env.Payload, &p)]: no payload is an error. *)
Definition json_Unmarshal {P} `{Unmarshal P} (env : Envelope) : option P :=
  match Payload env with None => None | Some v => unmarshal_value v end.

(** [env.UnmarshalPayload(&p)] on a zeroed [p]: no payload leaves it zero. *)
Definition UnmarshalPayload {P} `{Unmarshal P} (zero : P) (env : Envelope) : option P :=
  match Payload env with None => Some zero | Some v => unmarshal_value v end.

(** ** Machine integers *)

(** [int64] wrap-around. *)
Definition wrap64 (z : Z) : Z := ((z + 2 ^ 63) mod 2 ^ 64 - 2 ^ 63)%Z.

Lemma wrap64_range z : (- 2 ^ 63 <= wrap64 z < 2 ^ 63)%Z.
Proof. unfold wrap64. pose proof (Z.mod_pos_bound (z + 2 ^ 63) (2 ^ 64)). lia. Qed.

Lemma wrap64_id z : (- 2 ^ 63 <= z < 2 ^ 63)%Z -> wrap64 z = z.
Proof. intros H. unfold wrap64. rewrite Z.mod_small; lia. Qed.
