(* ===== verification/Session.v ===== *)
(** * Session replay buffers (internal/session)

    ringbuf.go: [RingBuffer], a FIFO of envelopes bounded by count and bytes,
    with [Push] and the replay query [Since].  session.go: [Session] and
    [MemoryStore]; the store holds pointers, so sessions live in a heap and the
    store maps a session id to a location.  The refinement theorem relates a
    buffer to the log of every envelope ever pushed. *)

From S2P Require Import Prelude GoString Event.
From Stdlib Require Import Sorted.

(** ** RingBuffer *)

Record entry := mkEntry { env : Envelope; esize : Z }.

Record RingBuffer := mkRingBuffer {
  cap : Z;
  maxBytes : Z;
  bytes : Z;
  items : list entry;
}.

Definition NewRingBuffer (cap maxBytes : Z) : RingBuffer :=
  let cap := if (cap <? 1)%Z then 1%Z else cap in
  let maxBytes := if (maxBytes <? 1)%Z then 1%Z else maxBytes in
  mkRingBuffer cap maxBytes 0 [].

(** The eviction loop of [Push]: drop the head while a cap is exceeded, but
    never the last entry. *)
Fixpoint evict (cap maxBytes bytes : Z) (items : list entry) : Z * list entry :=
  match items with
  | [] => (bytes, [])
  | x :: rest =>
      if (cap <? Z.of_nat (length items))%Z || (maxBytes <? bytes)%Z then
        match rest with
        | [] => (bytes, items)
        | _ => evict cap maxBytes (bytes - esize x) rest
        end
      else (bytes, items)
  end.

Definition Push (b : RingBuffer) (env : Envelope) (esize : Z) : RingBuffer :=
  let '(bytes', items') :=
    evict (cap b) (maxBytes b) (bytes b + esize) (items b ++ [mkEntry env esize]) in
  mkRingBuffer (cap b) (maxBytes b) bytes' items'.

Definition Len (b : RingBuffer) : Z := Z.of_nat (length (items b)).

Definition FirstID (b : RingBuffer) : string :=
  match items b with [] => "" | it :: _ => ID (env it) end.

Definition LastID (b : RingBuffer) : string :=
  match last (items b) with None => "" | Some it => ID (env it) end.

(** The scan of [Since]: the entries after the first one with id [lastID]. *)
Fixpoint since_scan (lastID : string) (items : list entry) : option (list Envelope) :=
  match items with
  | [] => None
  | it :: tail => if String.eqb (ID (env it)) lastID then Some (env <$> tail)
                  else since_scan lastID tail
  end.

(** [Since]: the envelopes after [lastID], and whether the client is stale. *)
Definition Since (b : RingBuffer) (lastID : string) : list Envelope * bool :=
  if String.eqb lastID "" then ([], false)
  else match items b with
       | [] => ([], true)
       | _ => if String.ltb lastID (FirstID b) then ([], true)
              else if String.ltb (LastID b) lastID then ([], true)
              else match since_scan lastID (items b) with
                   | Some out => (out, false)
                   | None => ([], true)
                   end
       end.

(** *** Invariant *)

Definition over (cap maxBytes : Z) (l : list entry) : bool :=
  (cap <? Z.of_nat (length l))%Z || (maxBytes <? sumZ esize l)%Z.

Record rb_wf (b : RingBuffer) : Prop := {
  wf_cap : (1 <= cap b)%Z;
  wf_max : (1 <= maxBytes b)%Z;
  wf_bytes : bytes b = sumZ esize (items b);
  wf_sizes : Forall (fun e => 0 <= esize e)%Z (items b);
  wf_count : (Len b <= cap b)%Z;
  wf_budget : (bytes b <= maxBytes b)%Z \/ Len b = 1%Z;
}.

Lemma NewRingBuffer_wf c m : rb_wf (NewRingBuffer c m).
Proof.
  unfold NewRingBuffer. split; unfold Len; simpl; try done; repeat case_match; boolprop;
    solve [lia | left; lia].
Qed.

(** The loop stops at the longest suffix within the caps, or at one entry. *)
Lemma evict_spec c m l :
  l <> [] -> (1 <= c)%Z ->
  exists k, evict c m (sumZ esize l) l = (sumZ esize k, k) /\ k `suffix_of` l /\ k <> [] /\
    (over c m k = false \/ length k = 1) /\
    forall k', k' `suffix_of` l -> length k < length k' -> over c m k' = true.
Proof.
  intros Hne Hc. induction l as [|x rest IH]; [done|]. cbn [evict].
  assert (Hself : forall k', k' `suffix_of` x :: rest -> length (x :: rest) < length k' -> over c m k' = true).
  { intros k' Hk Hl. apply suffix_length in Hk. lia. }
  fold (over c m (x :: rest)). destruct (over c m (x :: rest)) eqn:Ho; cbn zeta.
  - destruct rest as [|y rest'].
    + exists [x]. split_and!; try done. by right.
    + assert (sumZ esize (x :: y :: rest') - esize x = sumZ esize (y :: rest'))%Z as -> by (simpl; lia).
      destruct IH as (k & He & Hk & Hkne & Hov & Hmax); [done|].
      exists k. split_and!; try done.
      * etrans; [exact Hk|]. by apply suffix_cons_r.
      * intros [|z k'] Hk' Hl; [simpl in Hl; lia|].
        apply suffix_cons_inv in Hk' as [->|Hk']; auto.
  - exists (x :: rest). split_and!; try done. by left.
Qed.

Lemma Push_evict b e n :
  rb_wf b -> (0 <= n)%Z ->
  let l := items b ++ [mkEntry e n] in
  exists k, Push b e n = mkRingBuffer (cap b) (maxBytes b) (sumZ esize k) k /\
    k `suffix_of` l /\ k <> [] /\
    (over (cap b) (maxBytes b) k = false \/ length k = 1) /\
    forall k', k' `suffix_of` l -> length k < length k' -> over (cap b) (maxBytes b) k' = true.
Proof.
  intros Hwf Hn l. destruct Hwf as [Hcap Hmax Hbytes Hsz Hcount Hbud].
  destruct (evict_spec (cap b) (maxBytes b) l) as (k & He & Hk); [by destruct (items b)|done|].
  exists k. split; [|done]. unfold Push. fold l.
  assert (bytes b + n = sumZ esize l)%Z as ->.
  { unfold l. rewrite sumZ_app, Hbytes. simpl. lia. }
  by rewrite He.
Qed.

Lemma suffix_nonempty_last {A} (k l : list A) x :
  k `suffix_of` l ++ [x] -> k <> [] -> last k = Some x.
Proof.
  intros [p Hp] Hne. destruct (exists_last Hne) as (k' & y & ->).
  rewrite app_assoc in Hp. apply app_inj_tail in Hp as [_ <-]. by rewrite last_snoc.
Qed.

Lemma Push_wf b e n : rb_wf b -> (0 <= n)%Z -> rb_wf (Push b e n).
Proof.
  intros Hwf Hn. destruct (Push_evict b e n Hwf Hn) as (k & -> & Hk & Hne & Hov & _).
  assert (Forall (fun x => 0 <= esize x)%Z k) as Hsz.
  { destruct Hwf as [_ _ _ Hs _ _]. destruct Hk as [p Hp].
    assert (Forall (fun x => 0 <= esize x)%Z (p ++ k)) as Hf.
    { rewrite <-Hp. apply Forall_app. split; [done|]. by constructor. }
    by apply Forall_app in Hf as [_ ?]. }
  destruct Hwf. split; simpl; auto.
  - destruct Hov as [Ho|Ho]; unfold over, Len in *; simpl; [boolprop|]; lia.
  - destruct Hov as [Ho|Ho]; unfold over, Len in *; simpl in *; [boolprop; by left|right; lia].
Qed.

Lemma Push_last b e n :
  rb_wf b -> (0 <= n)%Z -> last (items (Push b e n)) = Some (mkEntry e n).
Proof.
  intros Hwf Hn. destruct (Push_evict b e n Hwf Hn) as (k & -> & Hk & Hne & _).
  by eapply suffix_nonempty_last.
Qed.

#[export] Hint Resolve NewRingBuffer_wf Push_wf : go_inv.

(** pushing an envelope keeps the buffer well formed: the byte counter is
    the sum of the entries, the count cap holds, and the byte cap holds unless
    a single oversized entry is left; the new envelope is always the newest
    entry. *)
Theorem push_preserves_invariant (b : RingBuffer) (e : Envelope) (n : Z) :
  rb_wf b -> (0 <= n)%Z ->
  rb_wf (Push b e n) /\ last (items (Push b e n)) = Some (mkEntry e n).
Proof. intros Hwf Hn. split; [by apply Push_wf|by apply Push_last]. Qed.

Definition demo_env (id : string) : Envelope := mkEnvelope id "t" 0 "" None.

Lemma push_preserves_invariant_witness :
  let b := Push (NewRingBuffer 2 10) (demo_env "a") 4 in
  rb_wf b /\ last (items b) = Some (mkEntry (demo_env "a") 4).
Proof. apply push_preserves_invariant; [apply NewRingBuffer_wf|lia]. Defined.

(** eviction is minimal: what stays after a push is a suffix of the old
    entries plus the new one, and every longer suffix would break a cap. *)
Theorem push_evicts_minimally (b : RingBuffer) (e : Envelope) (n : Z) (k : list entry) :
  rb_wf b -> (0 <= n)%Z ->
  k `suffix_of` items b ++ [mkEntry e n] -> length (items (Push b e n)) < length k ->
  items (Push b e n) `suffix_of` items b ++ [mkEntry e n] /\
  over (cap b) (maxBytes b) k = true.
Proof.
  intros Hwf Hn Hk Hl. destruct (Push_evict b e n Hwf Hn) as (k0 & Hp & Hs & _ & _ & Hmax).
  rewrite Hp in *. simpl in *. split; [done|]. by apply Hmax.
Qed.

Definition demo_buf : RingBuffer :=
  Push (Push (NewRingBuffer 2 10) (demo_env "a") 4) (demo_env "b") 5.

Lemma demo_buf_wf : rb_wf demo_buf.
Proof. repeat (apply Push_wf; [|lia]). apply NewRingBuffer_wf. Qed.

Lemma push_evicts_minimally_witness :
  items (Push demo_buf (demo_env "c") 6) `suffix_of` items demo_buf ++ [mkEntry (demo_env "c") 6] /\
  over 2 10 (items demo_buf ++ [mkEntry (demo_env "c") 6]) = true.
Proof.
  apply (push_evicts_minimally demo_buf (demo_env "c") 6 _ demo_buf_wf); [lia|done|].
  vm_compute. lia.
Defined.

(** ** Replay refines the log *)

(** Every envelope the server ever buffered for a session, oldest first. *)
Definition buffer_of (cap maxBytes : Z) (log : list entry) : RingBuffer :=
  foldl (fun b e => Push b (env e) (esize e)) (NewRingBuffer cap maxBytes) log.

Definition id_lt (a b : entry) : Prop := String.ltb (ID (env a)) (ID (env b)) = true.

(** The ids in the order they were minted. *)
Definition minted (log : list entry) : Prop :=
  StronglySorted id_lt log /\ Forall (fun e => 0 <= esize e)%Z log.

Lemma ltb_asym a b : String.ltb a b = true -> String.ltb b a = false.
Proof.
  unfold String.ltb. rewrite (String.compare_antisym a b).
  destruct (String.compare b a); simpl; done.
Qed.

Lemma ltb_irrefl a : String.ltb a a = false.
Proof.
  destruct (String.ltb a a) eqn:E; [|done]. pose proof (ltb_asym _ _ E). congruence.
Qed.

Lemma buffer_of_spec c m log :
  Forall (fun e => 0 <= esize e)%Z log ->
  rb_wf (buffer_of c m log) /\ items (buffer_of c m log) `suffix_of` log.
Proof.
  intros Hs. induction log as [|e log IH] using rev_ind.
  - split; [apply NewRingBuffer_wf|done].
  - apply Forall_app in Hs as [Hs He]. rewrite Forall_singleton in He.
    destruct (IH Hs) as [Hwf Hsuf]. unfold buffer_of. rewrite foldl_app.
    change (foldl _ _ log) with (buffer_of c m log). cbn [foldl]. split; [apply Push_wf; [exact Hwf|exact He]|].
    destruct (Push_evict (buffer_of c m log) (env e) (esize e) Hwf He) as (k & -> & Hk & _).
    destruct e as [en sz]. simpl in *. etrans; [exact Hk|]. by apply suffix_app.
Qed.

Lemma sorted_app_r p l : StronglySorted id_lt (p ++ l) -> StronglySorted id_lt l.
Proof. induction p as [|x p IH]; [done|]. intros [Hs _]%StronglySorted_inv. auto. Qed.

Lemma sorted_split_facts l1 e l2 :
  StronglySorted id_lt (l1 ++ e :: l2) ->
  Forall (fun x => id_lt x e) l1 /\ Forall (id_lt e) l2.
Proof.
  induction l1 as [|x l1 IH]; simpl; intros Hs; apply StronglySorted_inv in Hs as [Hs Hf].
  - done.
  - destruct (IH Hs) as [H1 H2]. split; [|done]. constructor; [|done].
    rewrite Forall_app, Forall_cons in Hf. tauto.
Qed.

Lemma since_scan_split id l1 e l2 :
  StronglySorted id_lt (l1 ++ e :: l2) -> ID (env e) = id ->
  since_scan id (l1 ++ e :: l2) = Some (env <$> l2).
Proof.
  intros Hs <-. destruct (sorted_split_facts _ _ _ Hs) as [H1 _]. clear Hs.
  induction H1 as [|x l1 Hx _ IH]; simpl.
  - by rewrite String.eqb_refl.
  - destruct (String.eqb_spec (ID (env x)) (ID (env e))) as [Heq|]; [|done].
    unfold id_lt in Hx. rewrite Heq, ltb_irrefl in Hx. done.
Qed.

Lemma since_scan_None id l :
  since_scan id l = None <-> Forall (fun e => ID (env e) <> id) l.
Proof.
  induction l as [|x l IH]; simpl; [done|]. rewrite Forall_cons.
  destruct (String.eqb_spec (ID (env x)) id); [|tauto]. split; [done|tauto].
Qed.

(** [Since] at the id of a buffered entry: its range checks never reject it. *)
Lemma Since_buffered b l1 e l2 :
  items b = l1 ++ e :: l2 -> StronglySorted id_lt (items b) -> ID (env e) <> "" ->
  Since b (ID (env e)) = (env <$> l2, false).
Proof.
  intros Hi Hs Hne. rewrite Hi in Hs. destruct (sorted_split_facts _ _ _ Hs) as [H1 H2].
  unfold Since. destruct (String.eqb_spec (ID (env e)) "") as [|_]; [done|].
  assert (String.ltb (ID (env e)) (FirstID b) = false) as Hfirst.
  { unfold FirstID. rewrite Hi. destruct H1 as [|x l1 Hx _]; simpl; [apply ltb_irrefl|].
    by apply ltb_asym. }
  assert (String.ltb (LastID b) (ID (env e)) = false) as Hlast.
  { unfold LastID. rewrite Hi, last_app, last_cons.
    destruct (last l2) as [y|] eqn:Hy; [|apply ltb_irrefl].
    apply last_Some_elem_of in Hy. rewrite Forall_forall in H2. by apply ltb_asym, H2. }
  rewrite Hfirst, Hlast, Hi, (since_scan_split _ l1 e l2) by done. by destruct l1.
Qed.

Lemma Since_unknown b id :
  id <> "" -> Forall (fun e => ID (env e) <> id) (items b) -> Since b id = ([], true).
Proof.
  intros Hne Hf. unfold Since. destruct (String.eqb_spec id "") as [|_]; [done|].
  apply since_scan_None in Hf. rewrite Hf. by repeat case_match.
Qed.

(** replay is gap-free: when the server does not report the client stale,
    the replayed envelopes are exactly the ones pushed after [lastID] in the
    whole history of the session, in order. *)
Theorem since_replays_log_suffix (c m : Z) (log : list entry) (lastID : string) (out : list Envelope) :
  minted log -> lastID <> "" ->
  Since (buffer_of c m log) lastID = (out, false) ->
  exists l1 e l2, log = l1 ++ e :: l2 /\ ID (env e) = lastID /\ out = env <$> l2.
Proof.
  intros [Hsort Hsz] Hne Hout. destruct (buffer_of_spec c m log Hsz) as [_ [p Hp]].
  set (b := buffer_of c m log) in *.
  destruct (since_scan lastID (items b)) eqn:Hscan.
  - assert (exists l1 e l2, items b = l1 ++ e :: l2 /\ ID (env e) = lastID) as (l1 & e & l2 & Hi & He).
    { destruct (decide (Exists (fun e => ID (env e) = lastID) (items b))) as [Hex|Hn].
      - apply Exists_exists in Hex as (e & Hin & He).
        apply list_elem_of_split in Hin as (l1 & l2 & Hi). eauto 6.
      - apply Forall_Exists_neg, since_scan_None in Hn. congruence. }
    rewrite Hp in Hsort. apply sorted_app_r in Hsort as Hsb.
    rewrite <-He in Hout. rewrite (Since_buffered b l1 e l2 Hi Hsb) in Hout by congruence.
    exists (p ++ l1), e, l2. rewrite Hp, Hi, app_assoc. split_and!; congruence.
  - apply since_scan_None in Hscan. rewrite (Since_unknown b lastID Hne Hscan) in Hout. done.
Qed.

Definition demo_log : list entry :=
  [mkEntry (demo_env "a") 4; mkEntry (demo_env "b") 5; mkEntry (demo_env "c") 1].

Lemma demo_log_minted : minted demo_log.
Proof. split; repeat constructor; simpl; lia. Qed.

Lemma since_replays_log_suffix_witness :
  exists l1 e l2, demo_log = l1 ++ e :: l2 /\ ID (env e) = "b" /\ [demo_env "c"] = env <$> l2.
Proof.
  apply (since_replays_log_suffix 2 100 demo_log "b" [demo_env "c"] demo_log_minted); [done|].
  vm_compute. reflexivity.
Defined.

(** a client whose last id is still buffered is never told to reset, and a
    client whose id was evicted (or never existed) always is. *)
Theorem since_stale_iff_not_buffered (c m : Z) (log : list entry) (lastID : string) :
  minted log -> lastID <> "" ->
  (Since (buffer_of c m log) lastID).2 = true <->
  Forall (fun e => ID (env e) <> lastID) (items (buffer_of c m log)).
Proof.
  intros [Hsort Hsz] Hne. destruct (buffer_of_spec c m log Hsz) as [_ [p Hp]].
  set (b := buffer_of c m log) in *. split; [|by intros Hf; rewrite Since_unknown].
  intros Hst. destruct (decide (Exists (fun e => ID (env e) = lastID) (items b))) as [Hex|Hn].
  2:{ by apply Forall_Exists_neg. }
  apply Exists_exists in Hex as (e & Hin & <-).
  apply list_elem_of_split in Hin as (l1 & l2 & Hi).
  rewrite Hp in Hsort. apply sorted_app_r in Hsort as Hsb.
  rewrite (Since_buffered b l1 e l2 Hi Hsb Hne) in Hst. done.
Qed.

Lemma since_stale_iff_not_buffered_witness :
  (Since (buffer_of 2 100 demo_log) "a").2 = true <->
  Forall (fun e => ID (env e) <> "a") (items (buffer_of 2 100 demo_log)).
Proof. apply (since_stale_iff_not_buffered 2 100 demo_log "a" demo_log_minted). done. Defined.

(** [Since] relies on the push order being the id order.  When the newest
    entry carries a smaller id than a buffered one, the client that last saw
    the latter is told it is stale although its position is still buffered.
    The server can produce this: an approval request is pushed under an id
    minted before the envelopes of other goroutines that are already in the
    buffer. *)
Theorem since_out_of_order_loses_position (b : RingBuffer) (l : list entry) (e1 e2 : entry) :
  items b = l ++ [e2] -> e1 ∈ l -> String.ltb (ID (env e2)) (ID (env e1)) = true ->
  Since b (ID (env e1)) = ([], true).
Proof.
  intros Hi Hin Hlt. unfold Since.
  destruct (String.eqb_spec (ID (env e1)) "") as [He|_].
  { rewrite He in Hlt. by destruct (ID (env e2)). }
  assert (LastID b = ID (env e2)) as -> by (unfold LastID; by rewrite Hi, last_snoc).
  rewrite Hlt. by repeat case_match.
Qed.

Lemma since_out_of_order_loses_position_witness :
  Since (Push (Push (NewRingBuffer 8 100) (demo_env "02") 1) (demo_env "01") 1) "02" = ([], true).
Proof.
  apply (since_out_of_order_loses_position _ [mkEntry (demo_env "02") 1]
           (mkEntry (demo_env "02") 1) (mkEntry (demo_env "01") 1)); [done| |done].
  by constructor.
Defined.

(** ** Sessions and the in-memory store *)

Record Session := mkSession {
  SID : string;
  CreatedAt : Z;
  lastSeen : Z;
  buffer : RingBuffer;
}.

Definition Touch (s : Session) (now : Z) : Session :=
  mkSession (SID s) (CreatedAt s) now (buffer s).

Definition Append (s : Session) (now : Z) (e : Envelope) (n : Z) : Session :=
  mkSession (SID s) (CreatedAt s) now (Push (buffer s) e n).

Definition EventsSince (s : Session) (lastID : string) : list Envelope * bool :=
  Since (buffer s) lastID.

Definition BufferBounds (s : Session) : string * string :=
  (FirstID (buffer s), LastID (buffer s)).

(** Sessions are shared by pointer: a connection keeps its [*Session] after the
    store dropped it. *)
Abbreviation loc := nat.

Record MemoryStore := mkMemoryStore {
  bufferSize : Z;
  storeMaxBytes : Z;
  sessions : gmap string loc;
  heap : gmap loc Session;
  next_loc : loc;
}.

Definition NewMemoryStore (bufferSize maxBytes : Z) : MemoryStore :=
  mkMemoryStore bufferSize maxBytes ∅ ∅ 0.

Definition Get (m : MemoryStore) (sid : string) : option loc := sessions m !! sid.

(** A method call through a [*Session]. *)
Definition on_session (m : MemoryStore) (l : loc) (f : Session -> Session) : MemoryStore :=
  mkMemoryStore (bufferSize m) (storeMaxBytes m) (sessions m) (alter f l (heap m)) (next_loc m).

Definition GetOrCreate (m : MemoryStore) (now : Z) (sid : string) : MemoryStore * loc :=
  match sessions m !! sid with
  | Some l => (on_session m l (fun s => Touch s now), l)
  | None =>
      let s := mkSession sid now now (NewRingBuffer (bufferSize m) (storeMaxBytes m)) in
      (mkMemoryStore (bufferSize m) (storeMaxBytes m)
         (<[sid := next_loc m]> (sessions m)) (<[next_loc m := s]> (heap m)) (S (next_loc m)),
       next_loc m)
  end.

Definition Drop (m : MemoryStore) (sid : string) : MemoryStore :=
  mkMemoryStore (bufferSize m) (storeMaxBytes m) (delete sid (sessions m)) (heap m) (next_loc m).

(** [s.LastSeen().Before(cutoff)] *)
Definition idle (m : MemoryStore) (cutoff : Z) (l : loc) : bool :=
  match heap m !! l with Some s => (lastSeen s <? cutoff)%Z | None => false end.

Definition SweepIdle (m : MemoryStore) (now ttl : Z) : MemoryStore * nat :=
  let cutoff := (now - ttl)%Z in
  let kept := filter (fun kv : string * loc => idle m cutoff kv.2 = false) (sessions m) in
  (mkMemoryStore (bufferSize m) (storeMaxBytes m) kept (heap m) (next_loc m),
   size (sessions m) - size kept).

(** Store invariant: every registered pointer is allocated, points to the
    session with that id, and no two ids share a session. *)
Record store_wf (m : MemoryStore) : Prop := {
  sw_alloc : forall l, is_Some (heap m !! l) -> l < next_loc m;
  sw_points : forall sid l, sessions m !! sid = Some l ->
      exists s, heap m !! l = Some s /\ SID s = sid /\ rb_wf (buffer s);
}.

Lemma NewMemoryStore_wf c n : store_wf (NewMemoryStore c n).
Proof. split; simpl; [intros l [? H]|intros sid l H]; by simplify_map_eq. Qed.

Lemma on_session_wf m l f :
  store_wf m -> (forall s, SID (f s) = SID s) -> (forall s, rb_wf (buffer s) -> rb_wf (buffer (f s))) ->
  store_wf (on_session m l f).
Proof.
  intros [Ha Hp] Hid Hwf. split; simpl.
  - intros l' [s Hs]. apply Ha. rewrite lookup_alter in Hs. case_decide; subst; [|by eexists].
    destruct (heap m !! l'); [by eexists|done].
  - intros sid l' Hl. destruct (Hp sid l' Hl) as (s & Hs & Hsid & Hb).
    destruct (decide (l = l')) as [->|Hne].
    + exists (f s). rewrite lookup_alter_eq, Hs. split_and!; auto. by rewrite Hid.
    + exists s. by rewrite lookup_alter_ne.
Qed.

Lemma GetOrCreate_wf m now sid : store_wf m -> store_wf (GetOrCreate m now sid).1.
Proof.
  intros Hm. unfold GetOrCreate. destruct (sessions m !! sid) as [l|] eqn:Hl; simpl.
  - by apply on_session_wf.
  - destruct Hm as [Ha Hp]. split; simpl.
    + intros l [s Hs]. rewrite lookup_insert in Hs. case_decide; [lia|].
      specialize (Ha l (ex_intro _ s Hs)). lia.
    + intros sid' l Hl'. rewrite lookup_insert in Hl'. case_decide; simplify_eq.
      * eexists. rewrite lookup_insert_eq. split_and!; [done|done|apply NewRingBuffer_wf].
      * destruct (Hp _ _ Hl') as (s & Hs & ? & ?). exists s.
        rewrite lookup_insert_ne; [done|]. specialize (Ha l (ex_intro _ s Hs)). lia.
Qed.

Lemma Drop_wf m sid : store_wf m -> store_wf (Drop m sid).
Proof. intros [Ha Hp]. split; simpl; [done|]. intros sid' l [_ Hl]%lookup_delete_Some. eauto. Qed.

Lemma SweepIdle_wf m now ttl : store_wf m -> store_wf (SweepIdle m now ttl).1.
Proof.
  intros [Ha Hp]. split; simpl; [done|]. intros sid' l [Hl _]%map_lookup_filter_Some. eauto.
Qed.

#[export] Hint Resolve NewMemoryStore_wf GetOrCreate_wf Drop_wf SweepIdle_wf : go_inv.

(** [GetOrCreate] is idempotent and isolating: a second call for the same
    id returns the same session, a call for another id returns a different one,
    and the invariant is kept. *)
Theorem get_or_create_shares_by_id (m : MemoryStore) (now now' : Z) (sid sid' : string) :
  store_wf m ->
  let '(m1, l1) := GetOrCreate m now sid in
  let '(m2, l2) := GetOrCreate m1 now' sid' in
  store_wf m2 /\ (l1 = l2 <-> sid = sid') /\ Get m2 sid = Some l1 /\ Get m2 sid' = Some l2.
Proof.
  intros Hm. pose proof (GetOrCreate_wf m now sid Hm) as Hm1.
  destruct (GetOrCreate m now sid) as [m1 l1] eqn:E1. simpl in Hm1.
  assert (Get m1 sid = Some l1) as G1.
  { unfold GetOrCreate, Get in *. case_match; simplify_eq/=; [done|]. by simplify_map_eq. }
  pose proof (GetOrCreate_wf m1 now' sid' Hm1) as Hm2.
  destruct (GetOrCreate m1 now' sid') as [m2 l2] eqn:E2. simpl in Hm2.
  assert (Get m2 sid' = Some l2) as G2.
  { unfold GetOrCreate, Get in *. case_match; simplify_eq/=; [done|]. by simplify_map_eq. }
  assert (Get m2 sid = Some l1) as G12.
  { unfold GetOrCreate, Get in *. destruct (sessions m1 !! sid') eqn:Hs; simplify_eq/=; [done|].
    rewrite lookup_insert_ne by congruence. done. }
  split_and!; try done. split; [|congruence]. intros ->.
  destruct (sw_points m2 Hm2 _ _ G12) as (s & Hs & <- & _).
  destruct (sw_points m2 Hm2 _ _ G2) as (s' & Hs' & <- & _). congruence.
Qed.

Lemma get_or_create_shares_by_id_witness :
  let '(m1, l1) := GetOrCreate (NewMemoryStore 4 100) 1 "s1" in
  let '(m2, l2) := GetOrCreate m1 2 "s2" in
  store_wf m2 /\ (l1 = l2 <-> "s1" = "s2") /\ Get m2 "s1" = Some l1 /\ Get m2 "s2" = Some l2.
Proof.
  exact (get_or_create_shares_by_id (NewMemoryStore 4 100) 1 2 "s1" "s2" (NewMemoryStore_wf 4 100)).
Defined.

(** the janitor drops exactly the sessions idle for longer than [ttl] and
    reports how many it dropped. *)
Theorem sweep_drops_exactly_idle (m : MemoryStore) (now ttl : Z) :
  let '(m', dropped) := SweepIdle m now ttl in
  (forall sid, Get m' sid =
     match Get m sid with
     | Some l => if idle m (now - ttl) l then None else Some l
     | None => None
     end) /\
  size (sessions m') + dropped = size (sessions m).
Proof.
  unfold SweepIdle, Get. simpl. split.
  - intros sid. destruct (sessions m !! sid) as [l|] eqn:Hl.
    + destruct (idle m (now - ttl) l) eqn:Hi.
      * apply map_lookup_filter_None. right. intros l' ?. simplify_eq. simpl. congruence.
      * by apply map_lookup_filter_Some.
    + apply map_lookup_filter_None. by left.
  - assert (size (filter (fun kv : string * loc => idle m (now - ttl) kv.2 = false) (sessions m)) <= size (sessions m)).
    { apply map_subseteq_size, map_filter_subseteq. }
    lia.
Qed.
