(* ===== verification/SessionStore.v ===== *)
(** * The persistent session store (internal/session/sqlite.go)

    [SQLiteStore]: the sessions of Session.v, written through to a table of
    envelopes and reloaded from it after a restart.  The tables are maps over
    their primary keys (Table.v); [dbf] says which statement fails.  JSON
    marshalling of an envelope is a parameter.

    The refinement theorem compares the store, across restarts, with the log of
    everything appended to a session. *)

From S2P Require Import Prelude GoString Event Table Session.

(** ** Tables *)

Record EventRow := mkEventRow { env_id : string; env_json : string; row_size : Z; row_ts : Z }.

(** [sessions] (created_at, last_seen) and [session_events]. *)
Record SessionDB := mkSessionDB {
  t_sessions : gmap string (Z * Z);
  t_events : gmap (string * Z) EventRow;
}.

Inductive stmt := StNext | StInsert | StTouch | StPrune | StQuery | StUpsert | StDropEvents | StDropSession | StSweep.

Record SqlSessions := mkSqlSessions {
  sq_bufferSize : Z;
  sq_maxBytes : Z;
  sq_db : SessionDB;
  sq_sessions : gmap string loc;
  sq_heap : gmap loc Session;
  sq_next : loc;
}.

Definition with_db (s : SqlSessions) (db : SessionDB) : SqlSessions :=
  mkSqlSessions (sq_bufferSize s) (sq_maxBytes s) db (sq_sessions s) (sq_heap s) (sq_next s).

Definition on_sq_session (s : SqlSessions) (l : loc) (f : Session -> Session) : SqlSessions :=
  mkSqlSessions (sq_bufferSize s) (sq_maxBytes s) (sq_db s) (sq_sessions s) (alter f l (sq_heap s)) (sq_next s).

Section store.
Variable marshal : Envelope -> option string.
Variable unmarshal : string -> option Envelope.

(** A process that opens the database [db]. *)
Definition NewSQLiteStore (db : SessionDB) (bufferSize maxBytes : Z) : SqlSessions :=
  mkSqlSessions bufferSize maxBytes db ∅ ∅ 0.

Definition sq_Get (s : SqlSessions) (sid : string) : option loc := sq_sessions s !! sid.

(** *** Writing through *)

Definition touch_row (now : Z) (r : Z * Z) : Z * Z := (r.1, now).

Definition appendRow (dbf : stmt -> bool) (bufferSize ts : Z) (sid : string) (e : Envelope) (n : Z) (db : SessionDB)
    : SessionDB * result string unit :=
  match marshal e with
  | None => (db, Err "marshal envelope")
  | Some body =>
      if dbf StNext then (db, Err "next idx") else
      let next := next_idx (t_events db) sid in
      if dbf StInsert then (db, Err "insert event") else
      let db := mkSessionDB (t_sessions db) (<[(sid, next) := mkEventRow (ID e) body n ts]> (t_events db)) in
      if dbf StTouch then (db, Err "touch session") else
      let db := mkSessionDB (alter (touch_row ts) sid (t_sessions db)) (t_events db) in
      let cutoff := (next - 2 * bufferSize)%Z in
      if (0 <? cutoff)%Z then
        if dbf StPrune then (db, Err "prune")
        else (mkSessionDB (t_sessions db) (filter (fun kv => ~ (kv.1.1 = sid /\ (kv.1.2 < cutoff)%Z)) (t_events db)), Ok tt)
      else (db, Ok tt)
  end.

(** [Session.Append]: the buffer changes under the session's mutex; the hook
    [persistFor] runs after it is released, and drops its error. *)
Definition push_env (s : SqlSessions) (l : loc) (now : Z) (e : Envelope) (n : Z) : SqlSessions :=
  on_sq_session s l (fun x => Session.Append x now e n).

Definition persistFor (dbf : stmt -> bool) (s : SqlSessions) (sid : string) (ts : Z) (e : Envelope) (n : Z) : SqlSessions :=
  with_db s (appendRow dbf (sq_bufferSize s) ts sid e n (sq_db s)).1.

Definition sq_Append (dbf : stmt -> bool) (s : SqlSessions) (l : loc) (now ts : Z) (e : Envelope) (n : Z) : SqlSessions :=
  match sq_heap s !! l with
  | None => s
  | Some sess => persistFor dbf (push_env s l now e n) (SID sess) ts e n
  end.

(** *** Reloading *)

(** [ORDER BY idx DESC LIMIT ?]; SQLite reads a negative limit as none. *)
Definition newest_rows (bufferSize : Z) (sid : string) (db : SessionDB) : list EventRow :=
  let desc := reverse (snd <$> rows_of (t_events db) sid) in
  if (bufferSize <? 0)%Z then desc else take (Z.to_nat bufferSize) desc.

Definition load_row (r : EventRow) : result string entry :=
  match unmarshal (env_json r) with Some e => Ok (mkEntry e (row_size r)) | None => Err "unmarshal" end.

Definition push_all (b : RingBuffer) (l : list entry) : RingBuffer := foldl (fun b x => Push b (env x) (esize x)) b l.

(** The query, newest first; and the pushes, under the session's mutex. *)
Definition read_window (dbf : stmt -> bool) (bufferSize : Z) (sid : string) (db : SessionDB) : result string (list entry) :=
  if dbf StQuery then Err "query" else mapM_res load_row (newest_rows bufferSize sid db).

Definition push_window (s : SqlSessions) (l : loc) (batch : list entry) : SqlSessions :=
  on_sq_session s l (fun x => mkSession (SID x) (CreatedAt x) (lastSeen x) (push_all (buffer x) (reverse batch))).

Definition rehydrate (dbf : stmt -> bool) (s : SqlSessions) (l : loc) : SqlSessions * result string unit :=
  match sq_heap s !! l with
  | None => (s, Ok tt)
  | Some sess =>
      match read_window dbf (sq_bufferSize s) (SID sess) (sq_db s) with
      | Err e => (s, Err e)
      | Ok batch => (push_window s l batch, Ok tt)
      end
  end.

Definition upsertSession (dbf : stmt -> bool) (sid : string) (ts : Z) (db : SessionDB) : SessionDB :=
  if dbf StUpsert then db
  else mkSessionDB (match t_sessions db !! sid with
                    | Some r => <[sid := touch_row ts r]> (t_sessions db)
                    | None => <[sid := (ts, ts)]> (t_sessions db)
                    end) (t_events db).

(** The part of [GetOrCreate] under the store's mutex: the session is published
    before it is reloaded; [true] when it is new. *)
Definition publish (s : SqlSessions) (now : Z) (sid : string) : SqlSessions * loc * bool :=
  match sq_sessions s !! sid with
  | Some l => (on_sq_session s l (fun x => Touch x now), l, false)
  | None =>
      let x := mkSession sid now now (NewRingBuffer (sq_bufferSize s) (sq_maxBytes s)) in
      (mkSqlSessions (sq_bufferSize s) (sq_maxBytes s) (sq_db s) (<[sid := sq_next s]> (sq_sessions s))
         (<[sq_next s := x]> (sq_heap s)) (S (sq_next s)), sq_next s, true)
  end.

Definition sq_GetOrCreate (dbf : stmt -> bool) (s : SqlSessions) (now : Z) (sid : string) : SqlSessions * loc :=
  let '(s, l, fresh) := publish s now sid in
  if fresh : bool then
    let s := (rehydrate dbf s l).1 in
    (with_db s (upsertSession dbf sid now (sq_db s)), l)
  else (s, l).

(** *** Dropping *)

Definition forget (s : SqlSessions) (sid : string) : SqlSessions :=
  mkSqlSessions (sq_bufferSize s) (sq_maxBytes s) (sq_db s) (delete sid (sq_sessions s)) (sq_heap s) (sq_next s).

Definition delete_events (dbf : stmt -> bool) (sid : string) (db : SessionDB) : SessionDB :=
  if dbf StDropEvents then db else mkSessionDB (t_sessions db) (filter (fun kv => kv.1.1 <> sid) (t_events db)).

Definition delete_session (dbf : stmt -> bool) (sid : string) (db : SessionDB) : SessionDB :=
  if dbf StDropSession then db else mkSessionDB (delete sid (t_sessions db)) (t_events db).

Definition sq_Drop (dbf : stmt -> bool) (s : SqlSessions) (sid : string) : SqlSessions :=
  with_db (forget s sid) (delete_session dbf sid (delete_events dbf sid (sq_db s))).

(** [SELECT sid FROM sessions WHERE last_seen < ?] *)
Definition stale_sids (db : SessionDB) (cutoff : Z) : list string :=
  fst <$> filter (fun kv : string * (Z * Z) => (kv.2.2 < cutoff)%Z) (map_to_list (t_sessions db)).

Definition sq_SweepIdle (dbf : stmt -> bool) (s : SqlSessions) (now ttl : Z) : SqlSessions * nat :=
  if dbf StSweep then (s, 0)
  else let stale := stale_sids (sq_db s) (now - ttl) in (foldl (sq_Drop dbf) s stale, length stale).
End store.

(** ** The window of a buffer *)

(** What a buffer holds of the log of everything pushed to it. *)
Definition window (c m : Z) (log k : list entry) : Prop :=
  k `suffix_of` log /\ (log <> [] -> k <> []) /\ (over c m k = false \/ length k <= 1) /\
  forall k', k' `suffix_of` log -> length k < length k' -> over c m k' = true.

Lemma suffix_le {A} (k1 k2 l : list A) : k1 `suffix_of` l -> k2 `suffix_of` l -> length k1 <= length k2 -> k1 `suffix_of` k2.
Proof.
  intros [p1 ->] [p2 He] Hl. assert (length p2 <= length p1) as Hp by (apply (f_equal length) in He; rewrite !length_app in He; lia).
  exists (drop (length p2) p1). apply (f_equal (drop (length p2))) in He. rewrite drop_app_le, drop_app_length in He by done. done.
Qed.

Lemma over_mono c m k l : Forall (fun e => 0 <= esize e)%Z l -> over c m k = true -> over c m (k ++ l) = true.
Proof.
  intros Hl. unfold over. rewrite length_app, sumZ_app.
  assert (0 <= sumZ esize l)%Z by (apply sumZ_nonneg; by apply Forall_forall).
  rewrite !orb_true_iff, !Z.ltb_lt. lia.
Qed.

Lemma window_unique c m log k1 k2 : window c m log k1 -> window c m log k2 -> k1 = k2.
Proof.
  assert (forall a b, window c m log a -> window c m log b -> length a < length b -> False) as Hlt.
  { intros a b (Ha & Hna & _ & Hma) (Hb & _ & Hob & _) Hl. rewrite (Hma b) in Hob by done.
    destruct Hob as [|Hb1]; [done|]. destruct a as [|x a]; [|simpl in Hl; lia]. destruct log as [|y log]; [|by destruct Hna].
    apply suffix_nil_inv in Hb as ->. simpl in Hl. lia. }
  intros H1 H2. destruct (Nat.lt_trichotomy (length k1) (length k2)) as [Hl|[Hl|Hl]]; [by destruct (Hlt k1 k2)| |by destruct (Hlt k2 k1)].
  destruct H1 as (Hs1 & _), H2 as (Hs2 & _). destruct (suffix_le k1 k2 log) as [p ->]; [done|done|lia|].
  rewrite length_app in Hl. destruct p; [done|simpl in Hl; lia].
Qed.

Lemma buffer_of_snoc c m log e : buffer_of c m (log ++ [e]) = Push (buffer_of c m log) (env e) (esize e).
Proof. unfold buffer_of. by rewrite foldl_app. Qed.

Lemma buffer_of_caps c m log : cap (buffer_of c m log) = cap (NewRingBuffer c m) /\ maxBytes (buffer_of c m log) = maxBytes (NewRingBuffer c m).
Proof.
  induction log as [|e log [IH1 IH2]] using rev_ind; [done|]. rewrite buffer_of_snoc. unfold Push. destruct (evict _ _ _ _). simpl. by rewrite IH1, IH2.
Qed.

Lemma buffer_of_window c m log :
  (1 <= c)%Z -> (1 <= m)%Z -> Forall (fun e => 0 <= esize e)%Z log -> window c m log (items (buffer_of c m log)).
Proof.
  intros Hc Hm. induction log as [|e log IH] using rev_ind; intros Hs.
  { repeat split; [done|done|right; simpl; lia|]. intros k' ->%suffix_nil_inv. simpl. lia. }
  pose proof Hs as Hs'. apply Forall_app in Hs' as [Hlog He]. rewrite Forall_singleton in He. specialize (IH Hlog) as (Hsuf & Hne & Hov & Hmax).
  destruct (buffer_of_spec c m log Hlog) as [Hwf _]. destruct (buffer_of_caps c m log) as [Ec Em].
  assert (cap (NewRingBuffer c m) = c /\ maxBytes (NewRingBuffer c m) = m) as [Ec' Em'].
  { unfold NewRingBuffer. simpl. destruct (Z.ltb_spec c 1), (Z.ltb_spec m 1); simpl; lia. }
  rewrite Ec' in Ec. rewrite Em' in Em. rewrite buffer_of_snoc.
  destruct (Push_evict (buffer_of c m log) (env e) (esize e) Hwf He) as (k & -> & Hk & Hkne & Hko & Hkm).
  rewrite Ec, Em in *. cbn [items]. destruct e as [e n]. simpl in *.
  assert (items (buffer_of c m log) ++ [mkEntry e n] `suffix_of` log ++ [mkEntry e n]) as Hs1 by by apply suffix_app.
  repeat split; [by etrans|done|destruct Hko; [by left|right; lia]|].
  intros k' Hk' Hlen. destruct (decide (length k' <= length (items (buffer_of c m log) ++ [mkEntry e n]))) as [Hle|Hgt].
  { apply Hkm; [|done]. by apply (suffix_le _ _ (log ++ [mkEntry e n])). }
  rewrite length_app in Hgt. simpl in Hgt. assert (k' <> []) as Hk'ne by (intros ->; simpl in Hgt; lia).
  destruct (exists_last Hk'ne) as (k'' & x & ->). apply suffix_snoc_inv_2 in Hk' as Hk''.
  apply suffix_snoc_inv_1 in Hk' as ->. rewrite length_app in Hgt. simpl in Hgt.
  apply over_mono; [by repeat constructor|]. apply Hmax; [done|lia].
Qed.

Lemma buffer_ext (a b : RingBuffer) : rb_wf a -> rb_wf b -> cap a = cap b -> maxBytes a = maxBytes b -> items a = items b -> a = b.
Proof.
  intros Ha Hb Hc Hm Hi. pose proof (wf_bytes _ Ha) as Ea. pose proof (wf_bytes _ Hb) as Eb. destruct a, b; simpl in *. subst. done.
Qed.

(** The last [c] entries of a log determine the buffer. *)
Lemma buffer_of_recent c m p log :
  (1 <= c)%Z -> (1 <= m)%Z -> Forall (fun e => 0 <= esize e)%Z (p ++ log) -> p = [] \/ (c <= Z.of_nat (length log))%Z ->
  buffer_of c m log = buffer_of c m (p ++ log).
Proof.
  intros Hc Hm Hs Hp. destruct Hp as [->|Hlen]; [done|]. pose proof Hs as [_ Hl]%Forall_app.
  destruct (buffer_of_window c m log Hc Hm Hl) as (Hw1 & Hw2 & Hw3 & Hw4).
  apply buffer_ext; try (by apply buffer_of_spec); try (by rewrite !(proj1 (buffer_of_caps _ _ _))); try (by rewrite !(proj2 (buffer_of_caps _ _ _))).
  apply (window_unique c m (p ++ log)); [|by apply buffer_of_window]. repeat split.
  - etrans; [exact Hw1|]. by apply suffix_app_r.
  - intros _. apply Hw2. intros ->. simpl in Hlen. lia.
  - done.
  - intros k' Hk' Hlt. destruct (decide (length k' <= length log)) as [Hle|Hgt].
    + apply Hw4; [|done]. apply (suffix_le _ _ (p ++ log)); [done|by apply suffix_app_r|done].
    + unfold over. apply orb_true_iff. left. apply Z.ltb_lt. lia.
Qed.

(** ** Restarts are invisible *)

(** What clients and operators do: open a session, buffer an envelope for an
    open one, drop one, restart the process. *)
Inductive cop :=
| OpOpen (sid : string) (now : Z)
| OpPut (sid : string) (e : Envelope) (n now ts : Z)
| OpDrop (sid : string)
| OpRestart.

(** The specification: a log per session, and which sessions are open. *)
Record spec := mkSpec { logs : gmap string (list entry); opened : gset string }.

Definition log_of (sp : spec) (sid : string) : list entry := default [] (logs sp !! sid).

Definition spec_step (sp : spec) (o : cop) : spec :=
  match o with
  | OpOpen sid _ => mkSpec (logs sp) ({[sid]} ∪ opened sp)
  | OpPut sid e n _ _ =>
      if decide (sid ∈ opened sp) then mkSpec (<[sid := log_of sp sid ++ [mkEntry e n]]> (logs sp)) (opened sp) else sp
  | OpDrop sid => mkSpec (delete sid (logs sp)) (opened sp ∖ {[sid]})
  | OpRestart => mkSpec (logs sp) ∅
  end.

Section refinement.
Variable marshal : Envelope -> option string.
Variable unmarshal : string -> option Envelope.

Definition no_db_faults (_ : stmt) : bool := false.

Definition quiet_step (s : SqlSessions) (o : cop) : SqlSessions :=
  match o with
  | OpOpen sid now => (sq_GetOrCreate unmarshal no_db_faults s now sid).1
  | OpPut sid e n now ts =>
      match sq_Get s sid with Some l => sq_Append marshal no_db_faults s l now ts e n | None => s end
  | OpDrop sid => sq_Drop no_db_faults s sid
  | OpRestart => NewSQLiteStore (sq_db s) (sq_bufferSize s) (sq_maxBytes s)
  end.

(** An envelope has a size and marshals. *)
Definition op_ok (o : cop) : Prop :=
  match o with OpPut _ e n _ _ => (0 <= n)%Z /\ is_Some (marshal e) | _ => True end.

(** What [encoding/json] does with an envelope. *)
Hypothesis json_roundtrip : forall e b, marshal e = Some b -> unmarshal b = Some e.

Variables c m : Z.
Hypothesis Hc : (1 <= c)%Z.
Hypothesis Hm : (1 <= m)%Z.

(** The table holds a recent part of the log, at least the last [c] entries. *)
Definition stored (db : SessionDB) (sid : string) (log : list entry) : Prop :=
  exists p q i, log = p ++ q /\ (p = [] \/ (c <= Z.of_nat (length q))%Z) /\
    mapM_res (load_row unmarshal) (snd <$> rows_of (t_events db) sid) = Ok q /\ consecutive i (rows_of (t_events db) sid).

Record sq_inv (s : SqlSessions) (sp : spec) : Prop := {
  inv_size : sq_bufferSize s = c;
  inv_max : sq_maxBytes s = m;
  inv_open : dom (sq_sessions s) = opened sp;
  inv_live : forall sid l, sq_sessions s !! sid = Some l -> l < sq_next s /\ exists x,
    sq_heap s !! l = Some x /\ SID x = sid /\ buffer x = buffer_of c m (log_of sp sid);
  inv_sizes : forall sid, Forall (fun e => 0 <= esize e)%Z (log_of sp sid);
  inv_stored : forall sid, stored (sq_db s) sid (log_of sp sid);
}.

Lemma mapM_res_app {E A B} (f : A -> result E B) l k ys zs :
  mapM_res f l = Ok ys -> mapM_res f k = Ok zs -> mapM_res f (l ++ k) = Ok (ys ++ zs).
Proof. rewrite !mapM_res_Forall2. apply Forall2_app. Qed.

Lemma mapM_res_drop {E A B} (f : A -> result E B) l ys n : mapM_res f l = Ok ys -> mapM_res f (drop n l) = Ok (drop n ys).
Proof. rewrite !mapM_res_Forall2. apply Forall2_drop. Qed.

(** What the table has of a session after [appendRow]: nothing new when the
    envelope does not marshal or one of the first two statements fails. *)
Definition saved_after (dbf : stmt -> bool) (e : Envelope) (n : Z) (log : list entry) : list entry :=
  match marshal e with
  | Some _ => if dbf StNext || dbf StInsert then log else log ++ [mkEntry e n]
  | None => log
  end.

(** One envelope written through. *)
Lemma appendRow_stored dbf sid e n ts db log :
  stored db sid log -> stored (appendRow marshal dbf c ts sid e n db).1 sid (saved_after dbf e n log).
Proof.
  intros Hst. unfold appendRow, saved_after. destruct (marshal e) as [b|] eqn:Hb; [|done].
  destruct (dbf StNext); [done|]. destruct (dbf StInsert); [done|]. cbn [orb]. destruct Hst as (p & q & i & -> & Hp & Hq & Hi).
  set (t := t_events db) in *. set (r := mkEventRow (ID e) b n ts).
  assert (mapM_res (load_row unmarshal) (snd <$> rows_of (<[(sid, next_idx t sid) := r]> t) sid) = Ok (q ++ [mkEntry e n])) as Hq'.
  { rewrite rows_append, fmap_app. apply mapM_res_app; [done|]. simpl. unfold load_row. simpl. by rewrite (json_roundtrip _ _ Hb). }
  assert (exists j, consecutive j (rows_of (<[(sid, next_idx t sid) := r]> t) sid) /\
    next_idx t sid = (j + Z.of_nat (length q))%Z) as (j & Hj & Hn).
  { rewrite rows_append. assert (length (rows_of t sid) = length q) as Hlen.
    { apply mapM_res_Forall2, Forall2_length in Hq. by rewrite length_fmap in Hq. }
    destruct (rows_of t sid) as [|x rows] eqn:E.
    - exists (next_idx t sid). simpl in *. split; [done|lia].
    - exists i. rewrite <-E in *. rewrite (next_idx_consecutive t sid i) by (done || by rewrite E). rewrite <-Hlen. split; [|done].
      apply consecutive_snoc; [done|done]. }
  assert (p = [] \/ (c <= Z.of_nat (length (q ++ [mkEntry e n])))%Z) as Hp' by (destruct Hp; [by left|right; rewrite length_app; simpl; lia]).
  assert (stored (mkSessionDB (t_sessions db) (<[(sid, next_idx t sid) := r]> t)) sid ((p ++ q) ++ [mkEntry e n])) as Hfull
    by (exists p, (q ++ [mkEntry e n]), j; cbn [t_events]; by rewrite <-app_assoc).
  destruct (dbf StTouch); [exact Hfull|]. destruct (Z.ltb_spec 0 (next_idx t sid - 2 * c)); [destruct (dbf StPrune); [exact Hfull|]|]; cbn [fst].
  2:{ exists p, (q ++ [mkEntry e n]), j. cbn [t_events]. by rewrite <-app_assoc. }
  set (cutoff := (next_idx t sid - 2 * c)%Z) in *. unfold stored. cbn [t_events]. rewrite rows_prune, (consecutive_filter j) by done.
  set (d := Z.to_nat (cutoff - j)).
  exists (p ++ take d (q ++ [mkEntry e n])), (drop d (q ++ [mkEntry e n])), (j + Z.of_nat d)%Z. split_and!.
  - by rewrite <-!app_assoc, take_drop.
  - destruct (decide (d = 0)) as [->|Hd]; [by rewrite take_0, app_nil_r, drop_0|right].
    rewrite length_drop, length_app. simpl. lia.
  - rewrite fmap_drop. by apply mapM_res_drop.
  - by apply consecutive_drop.
Qed.

Lemma appendRow_other dbf sid sid' e n ts db log :
  sid' <> sid -> stored db sid' log -> stored (appendRow marshal dbf c ts sid e n db).1 sid' log.
Proof.
  intros Hne Hst. unfold appendRow. destruct (marshal e); [|done].
  destruct (dbf StNext); [done|]. destruct (dbf StInsert); [done|].
  destruct (dbf StTouch); [|case_match; [destruct (dbf StPrune)|]]; unfold stored; cbn [fst t_events]; rewrite ?rows_prune_other, rows_insert_other by done; done.
Qed.

(** A read takes the newest entries, all of them or at least [c]. *)
Lemma read_recent dbf db sid log :
  stored db sid log -> dbf StQuery = false ->
  exists batch p, read_window unmarshal dbf c sid db = Ok batch /\ log = p ++ reverse batch /\ (p = [] \/ (c <= Z.of_nat (length (reverse batch)))%Z).
Proof.
  intros (p & q & i & -> & Hp & Hq & _) Hf. unfold read_window, newest_rows. rewrite Hf. destruct (Z.ltb_spec c 0); [lia|].
  exists (take (Z.to_nat c) (reverse q)), (p ++ take (length q - Z.to_nat c) q).
  assert (reverse (take (Z.to_nat c) (reverse q)) = drop (length q - Z.to_nat c) q) as -> by (by rewrite take_reverse, reverse_involutive). split_and!.
  - apply mapM_res_Forall2, Forall2_take. apply mapM_res_Forall2 in Hq. by apply Forall2_reverse.
  - by rewrite <-app_assoc, take_drop.
  - rewrite length_drop. destruct (decide (length q - Z.to_nat c = 0)) as [->|]; [|right; lia].
    rewrite take_0, app_nil_r. destruct Hp as [->|?]; [by left|right; lia].
Qed.

(** Reloading into a buffer is pushing the whole log to it. *)
Lemma push_recent log0 p k :
  Forall (fun e => 0 <= esize e)%Z log0 -> Forall (fun e => 0 <= esize e)%Z (p ++ k) -> p = [] \/ (c <= Z.of_nat (length k))%Z ->
  push_all (buffer_of c m log0) k = buffer_of c m (log0 ++ p ++ k).
Proof.
  intros H0 Hs Hp. transitivity (buffer_of c m (log0 ++ k)); [unfold push_all, buffer_of; by rewrite foldl_app|].
  destruct Hp as [->|Hk]; [done|]. pose proof Hs as [? ?]%Forall_app.
  assert (forall p', Forall (fun e => 0 <= esize e)%Z p' -> buffer_of c m (p' ++ k) = buffer_of c m k) as Hdrop.
  { intros p' Hp'. symmetry. apply buffer_of_recent; [done|done| |by right]. by apply Forall_app. }
  rewrite app_assoc, !Hdrop; [done| |done]. by apply Forall_app.
Qed.

Lemma sq_inv_open s sp sid now : sq_inv s sp -> sq_inv (quiet_step s (OpOpen sid now)) (spec_step sp (OpOpen sid now)).
Proof.
  intros [Hsz Hmx Hop Hlv Hss Hst]. simpl. unfold sq_GetOrCreate, publish. destruct (sq_sessions s !! sid) as [l|] eqn:El.
  - simpl. split; simpl; try done.
    + rewrite Hop. assert (sid ∈ dom (sq_sessions s)) by by apply elem_of_dom. set_solver.
    + intros sid' l' Hl'. destruct (Hlv _ _ Hl') as (Hlt & x & Hx & HS & Hb). split; [done|].
      destruct (decide (l' = l)) as [->|Hne]; [|exists x; by rewrite lookup_alter_ne].
      exists (Touch x now). rewrite lookup_alter_eq, Hx. done.
  - unfold rehydrate. cbn [sq_heap]. rewrite lookup_insert_eq. cbn [no_db_faults SID sq_bufferSize sq_maxBytes sq_db].
    destruct (read_recent no_db_faults (sq_db s) sid (log_of sp sid) (Hst sid) eq_refl) as (batch & p & Hb & Hlog & Hp).
    assert (push_all (NewRingBuffer c m) (reverse batch) = buffer_of c m (log_of sp sid)) as Hpush.
    { rewrite Hlog. apply (push_recent []); [done| |done]. rewrite <-Hlog. done. }
    rewrite Hsz, Hmx, Hb. cbn [fst]. split; simpl; try done.
    + rewrite dom_insert_L, Hop. set_solver.
    + intros sid' l'. destruct (decide (sid' = sid)) as [->|Hne].
      * rewrite lookup_insert_eq. intros [= <-]. split; [lia|]. rewrite lookup_alter_eq, lookup_insert_eq. simpl. eexists. split; [done|]. done.
      * rewrite lookup_insert_ne by done. intros Hl'. destruct (Hlv _ _ Hl') as (Hlt & x & Hx & HS & Hbx). split; [lia|].
        exists x. rewrite lookup_alter_ne, lookup_insert_ne by lia. done.
Qed.

Lemma sq_inv_put s sp sid e n now ts :
  op_ok (OpPut sid e n now ts) -> sq_inv s sp -> sq_inv (quiet_step s (OpPut sid e n now ts)) (spec_step sp (OpPut sid e n now ts)).
Proof.
  intros [Hn Hmar] [Hsz Hmx Hop Hlv Hss Hst]. simpl. unfold sq_Get. destruct (sq_sessions s !! sid) as [l|] eqn:El.
  2:{ rewrite decide_False by (rewrite <-Hop; by apply not_elem_of_dom). done. }
  rewrite decide_True by (rewrite <-Hop; by apply elem_of_dom).
  destruct (Hlv _ _ El) as (_ & x & Hx & HS & Hb). unfold sq_Append. rewrite Hx.
  assert (forall k, log_of (mkSpec (<[sid := log_of sp sid ++ [mkEntry e n]]> (logs sp)) (opened sp)) k =
    if decide (k = sid) then log_of sp sid ++ [mkEntry e n] else log_of sp k) as Hlog.
  { intros k. unfold log_of at 1. simpl. destruct (decide (k = sid)) as [->|]; [by rewrite lookup_insert_eq|by rewrite lookup_insert_ne]. }
  split; simpl; try done.
  - intros sid' l' Hl'. destruct (Hlv _ _ Hl') as (Hlt & y & Hy & HSy & Hby). split; [done|]. rewrite Hlog.
    destruct (decide (l' = l)) as [->|Hne].
    + rewrite lookup_alter_eq, Hx. simpl. simplify_eq. eexists. split; [done|]. split; [done|]. rewrite decide_True by done. simpl.
      by rewrite Hb, buffer_of_snoc.
    + exists y. rewrite lookup_alter_ne by done. split_and!; [done|done|]. rewrite decide_False; [done|]. intros ->. congruence.
  - intros k. rewrite Hlog. destruct (decide (k = sid)) as [->|]; [|done]. apply Forall_app. split; [done|]. by rewrite Forall_singleton.
  - intros k. rewrite Hlog, Hsz, HS. destruct (decide (k = sid)) as [->|]; [|by apply appendRow_other].
    pose proof (appendRow_stored no_db_faults sid e n ts (sq_db s) (log_of sp sid) (Hst sid)) as Ha. unfold saved_after in Ha.
    destruct Hmar as [b Eb]. by rewrite Eb in Ha.
Qed.

Lemma deleted_stored sid db : stored (mkSessionDB (t_sessions db) (filter (fun kv => kv.1.1 <> sid) (t_events db))) sid [].
Proof. exists [], [], 0%Z. simpl. rewrite rows_delete. repeat split. by left. Qed.

Lemma deleted_other sid k db log : k <> sid -> stored db k log ->
  stored (mkSessionDB (t_sessions db) (filter (fun kv => kv.1.1 <> sid) (t_events db))) k log.
Proof. intros Hne Hst. unfold stored. cbn [t_events]. by rewrite rows_delete_other. Qed.

Lemma sq_inv_drop s sp sid : sq_inv s sp -> sq_inv (quiet_step s (OpDrop sid)) (spec_step sp (OpDrop sid)).
Proof.
  intros [Hsz Hmx Hop Hlv Hss Hst].
  assert (forall k, log_of (mkSpec (delete sid (logs sp)) (opened sp ∖ {[sid]})) k = if decide (k = sid) then [] else log_of sp k) as Hlog.
  { intros k. unfold log_of at 1. simpl. destruct (decide (k = sid)) as [->|]; [by rewrite lookup_delete_eq|by rewrite lookup_delete_ne]. }
  split; simpl; try done.
  - by rewrite dom_delete_L, Hop.
  - intros sid' l' [Hne Hl']%lookup_delete_Some. rewrite Hlog, decide_False by done. by apply Hlv.
  - intros k. rewrite Hlog. by destruct (decide _).
  - intros k. rewrite Hlog. destruct (decide (k = sid)) as [->|Hne].
    + apply deleted_stored.
    + apply deleted_other; [done|apply Hst].
Qed.

Lemma sq_inv_restart s sp : sq_inv s sp -> sq_inv (quiet_step s OpRestart) (spec_step sp OpRestart).
Proof. intros [Hsz Hmx Hop Hlv Hss Hst]. split; simpl; try done. Qed.

Lemma sq_inv_step s sp o : op_ok o -> sq_inv s sp -> sq_inv (quiet_step s o) (spec_step sp o).
Proof.
  destruct o; [intros _; apply sq_inv_open|apply sq_inv_put|intros _; apply sq_inv_drop|intros _; apply sq_inv_restart].
Qed.

Lemma sq_inv_run ops s sp : Forall op_ok ops -> sq_inv s sp -> sq_inv (foldl quiet_step s ops) (foldl spec_step sp ops).
Proof. intros Hops. revert s sp. induction Hops as [|o ops Ho Hops IH]; intros s sp Hinv; [done|]. simpl. apply IH. by apply sq_inv_step. Qed.

Definition empty_db : SessionDB := mkSessionDB ∅ ∅.

Lemma sq_inv_init : sq_inv (NewSQLiteStore empty_db c m) (mkSpec ∅ ∅).
Proof.
  split; try done. intros sid. exists [], [], 0%Z. repeat split; auto.
Qed.

(** *** Steps of concurrent connections *)

(** What runs as one step in a process whose connections share the store: each
    stretch under a mutex and each statement or group of statements under the
    session's row lock.  [GetOrCreate] is [SPublish], then for a new session
    [SRead], [SLoad] and [SUpsert]; [Append] is [SPush], then [SPersist]; [Drop]
    is [SForget], [SDropEvents] and [SDropSession].  Any step may come at any
    time, so every interleaving of those sequences is a run. *)
Inductive sop :=
| SPublish (sid : string) (now : Z)
| SRead (l : loc) (dbf : stmt -> bool)
| SLoad (l : loc)
| SUpsert (sid : string) (ts : Z) (dbf : stmt -> bool)
| SPush (l : loc) (e : Envelope) (n now : Z)
| SPersist (sid : string) (e : Envelope) (n ts : Z) (dbf : stmt -> bool)
| SForget (sid : string)
| SDropEvents (sid : string) (dbf : stmt -> bool)
| SDropSession (sid : string) (dbf : stmt -> bool)
| SRestart.

(** The store, and the batches that were read and are not pushed yet. *)
Record running := mkRunning { store : SqlSessions; loading : gmap loc (list entry) }.

Definition sq_step (r : running) (o : sop) : running :=
  let s := store r in
  match o with
  | SPublish sid now => mkRunning (publish s now sid).1.1 (loading r)
  | SRead l dbf =>
      match sq_heap s !! l with
      | Some x => match read_window unmarshal dbf (sq_bufferSize s) (SID x) (sq_db s) with
                  | Ok batch => mkRunning s (<[l := batch]> (loading r))
                  | Err _ => r
                  end
      | None => r
      end
  | SLoad l =>
      match loading r !! l with
      | Some batch => mkRunning (push_window s l batch) (delete l (loading r))
      | None => r
      end
  | SUpsert sid ts dbf => mkRunning (with_db s (upsertSession dbf sid ts (sq_db s))) (loading r)
  | SPush l e n now => mkRunning (push_env s l now e n) (loading r)
  | SPersist sid e n ts dbf => mkRunning (persistFor marshal dbf s sid ts e n) (loading r)
  | SForget sid => mkRunning (forget s sid) (loading r)
  | SDropEvents sid dbf => mkRunning (with_db s (delete_events dbf sid (sq_db s))) (loading r)
  | SDropSession sid dbf => mkRunning (with_db s (delete_session dbf sid (sq_db s))) (loading r)
  | SRestart => mkRunning (NewSQLiteStore (sq_db s) (sq_bufferSize s) (sq_maxBytes s)) ∅
  end.

(** The specification of a run: the history of each session object, in the
    order in which it was filled, without any bound; the log saved per session
    id; what each reload has read of it. *)
Record history := mkHistory {
  named : gmap string loc;
  made : loc;
  pushed : gmap loc (string * list entry);
  saved : gmap string (list entry);
  reading : gmap loc (list entry);
}.

Definition saved_of (h : history) (sid : string) : list entry := default [] (saved h !! sid).

Definition history_step (h : history) (o : sop) : history :=
  match o with
  | SPublish sid _ =>
      match named h !! sid with
      | Some _ => h
      | None => mkHistory (<[sid := made h]> (named h)) (S (made h)) (<[made h := (sid, [])]> (pushed h)) (saved h) (reading h)
      end
  | SRead l dbf =>
      match pushed h !! l with
      | Some (sid, _) => if dbf StQuery then h else mkHistory (named h) (made h) (pushed h) (saved h) (<[l := saved_of h sid]> (reading h))
      | None => h
      end
  | SLoad l =>
      match reading h !! l with
      | Some k => mkHistory (named h) (made h) (alter (fun p => (p.1, p.2 ++ k)) l (pushed h)) (saved h) (delete l (reading h))
      | None => h
      end
  | SPush l e n _ => mkHistory (named h) (made h) (alter (fun p => (p.1, p.2 ++ [mkEntry e n])) l (pushed h)) (saved h) (reading h)
  | SPersist sid e n _ dbf => mkHistory (named h) (made h) (pushed h) (<[sid := saved_after dbf e n (saved_of h sid)]> (saved h)) (reading h)
  | SForget sid => mkHistory (delete sid (named h)) (made h) (pushed h) (saved h) (reading h)
  | SDropEvents sid dbf => if dbf StDropEvents then h else mkHistory (named h) (made h) (pushed h) (delete sid (saved h)) (reading h)
  | SUpsert _ _ _ | SDropSession _ _ => h
  | SRestart => mkHistory ∅ 0 ∅ (saved h) ∅
  end.

Definition sized (log : list entry) : Prop := Forall (fun e => 0 <= esize e)%Z log.

Definition sop_ok (o : sop) : Prop :=
  match o with SPush _ _ n _ | SPersist _ _ n _ _ => (0 <= n)%Z | _ => True end.

(** A live session holds the buffer of its history; a batch is a recent part of
    what was saved when it was read. *)
Definition live_ok (_ : loc) (x : Session) (p : string * list entry) : Prop :=
  SID x = p.1 /\ sized p.2 /\ buffer x = buffer_of c m p.2.

Definition batch_ok (_ : loc) (batch log : list entry) : Prop :=
  sized log /\ exists p, log = p ++ reverse batch /\ (p = [] \/ (c <= Z.of_nat (length (reverse batch)))%Z).

Record run_inv (r : running) (h : history) : Prop := {
  ri_size : sq_bufferSize (store r) = c;
  ri_max : sq_maxBytes (store r) = m;
  ri_named : sq_sessions (store r) = named h;
  ri_made : sq_next (store r) = made h;
  ri_live : map_Forall2 live_ok (sq_heap (store r)) (pushed h);
  ri_loading : map_Forall2 batch_ok (loading r) (reading h);
  ri_saved : forall sid, sized (saved_of h sid) /\ stored (sq_db (store r)) sid (saved_of h sid);
}.

Lemma map_Forall2_alter {A B} (P : loc -> A -> B -> Prop) f g l (m1 : gmap loc A) (m2 : gmap loc B) :
  (forall x y, P l x y -> P l (f x) (g y)) -> map_Forall2 P m1 m2 -> map_Forall2 P (alter f l m1) (alter g l m2).
Proof.
  intros Hf Hmm j. specialize (Hmm j). destruct (decide (j = l)) as [->|Hne]; [|by rewrite !lookup_alter_ne].
  rewrite !lookup_alter_eq. destruct Hmm; constructor; auto.
Qed.

Lemma map_Forall2_at {A B} (P : loc -> A -> B -> Prop) l (m1 : gmap loc A) (m2 : gmap loc B) :
  map_Forall2 P m1 m2 -> option_Forall2 (P l) (m1 !! l) (m2 !! l).
Proof. intros Hmm. apply Hmm. Qed.

Lemma saved_of_insert h n a b d sid log k :
  saved_of (mkHistory n a b (<[sid := log]> (saved h)) d) k = if decide (k = sid) then log else saved_of h k.
Proof. unfold saved_of. simpl. destruct (decide (k = sid)) as [->|]; [by rewrite lookup_insert_eq|by rewrite lookup_insert_ne]. Qed.

Lemma saved_of_delete h n a b d sid k :
  saved_of (mkHistory n a b (delete sid (saved h)) d) k = if decide (k = sid) then [] else saved_of h k.
Proof. unfold saved_of. simpl. destruct (decide (k = sid)) as [->|]; [by rewrite lookup_delete_eq|by rewrite lookup_delete_ne]. Qed.

Lemma sized_saved_after dbf e n log : (0 <= n)%Z -> sized log -> sized (saved_after dbf e n log).
Proof.
  intros Hn Hl. unfold saved_after. destruct (marshal e); [|done]. destruct (_ || _); [done|]. apply Forall_app. split; [done|]. by repeat constructor.
Qed.

Lemma run_inv_publish r h sid now : run_inv r h -> run_inv (sq_step r (SPublish sid now)) (history_step h (SPublish sid now)).
Proof.
  intros [Hsz Hmx Hn Hmd Hlv Hld Hsv]. simpl. unfold publish. rewrite Hn. destruct (named h !! sid) as [l|]; simpl; split; simpl; try done.
  - intros j. destruct (decide (j = l)) as [->|Hne]; [|by rewrite lookup_alter_ne]. rewrite lookup_alter_eq.
    destruct (Hlv l) as [x p Hp|]; constructor. exact Hp.
  - by rewrite Hmd.
  - by rewrite Hmd.
  - rewrite Hmd. apply map_Forall2_insert_2; [|done]. rewrite Hsz, Hmx. repeat split. constructor.
Qed.

Lemma run_inv_read r h l dbf : run_inv r h -> run_inv (sq_step r (SRead l dbf)) (history_step h (SRead l dbf)).
Proof.
  intros Hi. pose proof Hi as [Hsz Hmx Hn Hmd Hlv Hld Hsv]. simpl. destruct (map_Forall2_at _ l _ _ Hlv) as [x [sid log] (HS & _)|]; [|done].
  simpl in HS. rewrite HS, Hsz. destruct (dbf StQuery) eqn:Hq; [unfold read_window; by rewrite Hq|].
  destruct (Hsv sid) as [Hs Hst]. destruct (read_recent dbf _ sid _ Hst Hq) as (batch & p & -> & Hlog & Hp).
  split; simpl; try done. apply map_Forall2_insert_2; [|done]. split; [done|]. by exists p.
Qed.

Lemma run_inv_load r h l : run_inv r h -> run_inv (sq_step r (SLoad l)) (history_step h (SLoad l)).
Proof.
  intros Hi. pose proof Hi as [Hsz Hmx Hn Hmd Hlv Hld Hsv]. simpl.
  destruct (map_Forall2_at _ l _ _ Hld) as [batch log (Hs & p & -> & Hp)|]; [|done].
  split; simpl; try done; [|by apply map_Forall2_delete]. apply map_Forall2_alter; [|done]. intros x [sid log] (HS & Hlog & Hb). simpl in *.
  split; [done|]. split; [by apply Forall_app|]. simpl. rewrite Hb. by apply push_recent.
Qed.

Lemma run_inv_push r h l e n now : (0 <= n)%Z -> run_inv r h -> run_inv (sq_step r (SPush l e n now)) (history_step h (SPush l e n now)).
Proof.
  intros He [Hsz Hmx Hn Hmd Hlv Hld Hsv]. split; simpl; try done. apply map_Forall2_alter; [|done]. intros x [sid log] (HS & Hlog & Hb). simpl in *.
  split; [done|]. split; [apply Forall_app; split; [done|by repeat constructor]|]. simpl. by rewrite Hb, buffer_of_snoc.
Qed.

Lemma run_inv_persist r h sid e n ts dbf : (0 <= n)%Z ->
  run_inv r h -> run_inv (sq_step r (SPersist sid e n ts dbf)) (history_step h (SPersist sid e n ts dbf)).
Proof.
  intros He [Hsz Hmx Hn Hmd Hlv Hld Hsv]. split; simpl; try done. intros k. rewrite saved_of_insert, Hsz. destruct (Hsv k) as [Hs Hst].
  destruct (decide (k = sid)) as [->|Hne]; split; [by apply sized_saved_after|by apply appendRow_stored|done|by apply appendRow_other].
Qed.

Lemma run_inv_drop_events r h sid dbf : run_inv r h -> run_inv (sq_step r (SDropEvents sid dbf)) (history_step h (SDropEvents sid dbf)).
Proof.
  intros [Hsz Hmx Hn Hmd Hlv Hld Hsv]. simpl. unfold delete_events. destruct (dbf StDropEvents); [by split|]. split; simpl; try done.
  intros k. rewrite saved_of_delete. destruct (Hsv k) as [Hs Hst].
  destruct (decide (k = sid)) as [->|Hne]; split; [constructor|apply deleted_stored|done|by apply deleted_other].
Qed.

Lemma run_inv_step r h o : sop_ok o -> run_inv r h -> run_inv (sq_step r o) (history_step h o).
Proof.
  intros Ho Hi. destruct o; simpl in Ho; [by apply run_inv_publish|by apply run_inv_read|by apply run_inv_load| |by apply run_inv_push|
    by apply run_inv_persist| |by apply run_inv_drop_events| |]; destruct Hi as [Hsz Hmx Hn Hmd Hlv Hld Hsv]; split; simpl; try done.
  - unfold upsertSession. by destruct (dbf StUpsert).
  - by rewrite Hn.
  - unfold delete_session. by destruct (dbf StDropSession).
  - apply map_Forall2_empty.
  - apply map_Forall2_empty.
Qed.

Definition no_history : history := mkHistory ∅ 0 ∅ ∅ ∅.

Lemma run_inv_run ops : Forall sop_ok ops ->
  run_inv (foldl sq_step (mkRunning (NewSQLiteStore empty_db c m) ∅) ops) (foldl history_step no_history ops).
Proof.
  intros Hops. assert (run_inv (mkRunning (NewSQLiteStore empty_db c m) ∅) no_history) as Hi.
  { split; simpl; try done; [apply map_Forall2_empty..|]. intros sid. split; [constructor|]. exists [], [], 0%Z. repeat split; auto. }
  revert Hi. generalize (mkRunning (NewSQLiteStore empty_db c m) ∅) no_history.
  induction Hops as [|o ops Ho _ IH]; intros r h Hi; [done|]. simpl. by apply IH, run_inv_step.
Qed.

(** C22: what a client replays is what was pushed and what was saved, across
    restarts.  Take any interleaving of the atomic steps of opening sessions,
    buffering envelopes, dropping sessions and restarting the process, in which
    any statement of the database may fail at any time.  Every session object
    answers a replay query exactly as one buffer in memory would to which the
    envelopes of its history were pushed in order: those appended to it and, at
    the point where its reload finished, everything that had been saved for its
    id when the reload read the table (nothing if that query failed); what is
    saved are the envelopes whose insertion succeeded, since the rows were last
    deleted.  In particular, when whole operations run one after the other,
    every envelope marshals and no statement fails, an open session answers as
    if every envelope buffered for it since it was first opened (or last
    dropped) were still in memory: restarts are invisible.  Assumed are positive
    buffer limits, non-negative envelope sizes, and that JSON decodes what it
    encoded.  (Without one-after-the-other the history can have a reloaded part
    after a newer envelope: [reload_race_loses_position].) *)
Theorem replay_survives_restart (ops : list sop) (whole : list cop) (l : loc) (x : Session) (sid lastID : string) :
  (Forall sop_ok ops ->
   let r := foldl sq_step (mkRunning (NewSQLiteStore empty_db c m) ∅) ops in
   let h := foldl history_step no_history ops in
   sq_Get (store r) sid = named h !! sid /\
   (sq_heap (store r) !! l = Some x ->
    exists log, pushed h !! l = Some (SID x, log) /\ EventsSince x lastID = Since (buffer_of c m log) lastID)) /\
  (Forall op_ok whole ->
   let s := foldl quiet_step (NewSQLiteStore empty_db c m) whole in
   sq_Get s sid = Some l -> sq_heap s !! l = Some x ->
   EventsSince x lastID = Since (buffer_of c m (log_of (foldl spec_step (mkSpec ∅ ∅) whole) sid)) lastID).
Proof.
  split.
  - intros Hops r h. destruct (run_inv_run ops Hops) as [_ _ Hn _ Hlv _ _]. fold r h in Hn, Hlv. split; [unfold sq_Get; by rewrite Hn|].
    intros Hx. pose proof (map_Forall2_at _ l _ _ Hlv) as Hl. rewrite Hx in Hl. inversion Hl as [? p (HS & _ & Hb)|]; subst.
    destruct p as [k log]. exists log. simpl in *. split; [by rewrite HS|]. unfold EventsSince. by rewrite Hb.
  - intros Hops s Hl Hx. destruct (sq_inv_run whole _ _ Hops sq_inv_init) as [_ _ _ Hlv _ _].
    destruct (Hlv sid l Hl) as (_ & y & Hy & _ & Hb). fold s in Hy. simplify_eq. unfold EventsSince. by rewrite Hb.
Qed.
End refinement.

(** ** Concrete runs *)

Definition demo_marshal (e : Envelope) : option string :=
  match e with
  | mkEnvelope id t ts corr None => if String.eqb t "t" && (ts =? 0)%Z && String.eqb corr "" then Some id else None
  | _ => None
  end.
Definition demo_unmarshal (b : string) : option Envelope := Some (demo_env b).

Definition demo_ops : list cop :=
  [OpOpen "s" 0; OpPut "s" (demo_env "a") 5 1 1; OpPut "s" (demo_env "b") 5 2 2; OpPut "s" (demo_env "c") 5 3 3; OpRestart; OpOpen "s" 9].

(** Two envelopes are saved, the insertion of a third fails; after a restart a
    second connection appends to the session that is being reloaded. *)
Definition demo_steps : list sop :=
  [SPublish "s" 0; SPush 0 (demo_env "a") 5 1; SPersist "s" (demo_env "a") 5 1 no_db_faults;
   SPush 0 (demo_env "b") 5 2; SPersist "s" (demo_env "b") 5 2 no_db_faults;
   SPush 0 (demo_env "c") 5 3; SPersist "s" (demo_env "c") 5 3 (fun q => match q with StInsert => true | _ => false end);
   SRestart; SPublish "s" 9; SRead 0 no_db_faults; SPush 0 (demo_env "d") 5 9; SLoad 0].

Lemma demo_json e b : demo_marshal e = Some b -> demo_unmarshal b = Some e.
Proof.
  destruct e as [id t ts corr [p|]]; [done|]. unfold demo_marshal. destruct (String.eqb_spec t "t"), (Z.eqb_spec ts 0), (String.eqb_spec corr ""); try done.
  intros [= <-]. by subst.
Qed.

Lemma replay_survives_restart_witness :
  match sq_heap (store (foldl (sq_step demo_marshal demo_unmarshal) (mkRunning (NewSQLiteStore empty_db 8 100) ∅) demo_steps)) !! 0 with
  | Some x => EventsSince x "a" = Since (buffer_of 8 100 [mkEntry (demo_env "d") 5; mkEntry (demo_env "a") 5; mkEntry (demo_env "b") 5]) "a"
  | None => False
  end /\
  match sq_heap (foldl (quiet_step demo_marshal demo_unmarshal) (NewSQLiteStore empty_db 2 100) demo_ops) !! 0 with
  | Some x => EventsSince x "b" = ([demo_env "c"], false)
  | None => False
  end.
Proof.
  split.
  - destruct (sq_heap _ !! 0) as [x|] eqn:E; [|by vm_compute in E].
    destruct (replay_survives_restart demo_marshal demo_unmarshal demo_json 8 100 ltac:(done) ltac:(done) demo_steps [] 0 x "s" "a") as [H _].
    destruct H as [_ H]; [repeat constructor; done|]. destruct (H E) as (log & Hlog & ->). vm_compute in Hlog. by injection Hlog as _ <-.
  - destruct (sq_heap _ !! 0) as [x|] eqn:E; [|by vm_compute in E].
    destruct (replay_survives_restart demo_marshal demo_unmarshal demo_json 2 100 ltac:(done) ltac:(done) [] demo_ops 0 x "s" "b") as [_ H].
    rewrite H; [vm_compute; reflexivity| |vm_compute; reflexivity|exact E]. repeat constructor; vm_compute; eauto; done.
Defined.

(** ** What the store does not keep *)

(** [GetOrCreate] publishes a session before it reloads it: an envelope
    buffered in between by a second connection precedes, in the buffer, the
    older ones, and is there twice; a client that has seen everything is told
    it is stale. *)
Lemma reload_race_loses_position :
  let db := sq_db (foldl (quiet_step demo_marshal demo_unmarshal) (NewSQLiteStore empty_db 8 100) (take 3 demo_ops)) in
  let s0 := NewSQLiteStore db 8 100 in
  let '(s1, l, _) := publish s0 9 "s" in
  let s2 := sq_Append demo_marshal no_db_faults s1 l 9 9 (demo_env "c") 5 in
  let s3 := (rehydrate demo_unmarshal no_db_faults s2 l).1 in
  (fun x => (ID ∘ env <$> items (buffer x), EventsSince x "b")) <$> sq_heap s3 !! l
  = Some (["c"; "a"; "b"; "c"], ([], true)).
Proof. vm_compute. reflexivity. Qed.

Lemma sweep_drops s dbf sids sid : sid ∈ sids -> sq_Get (foldl (sq_Drop dbf) s sids) sid = None.
Proof.
  assert (forall l s, sq_Get s sid = None -> sq_Get (foldl (sq_Drop dbf) s l) sid = None) as Hkeep.
  { induction l as [|k l IH]; intros s' Hs; [done|]. simpl. apply IH. unfold sq_Get in *. simpl. apply lookup_delete_None. by right. }
  revert s. induction sids as [|k sids IH]; intros s Hin; [by apply not_elem_of_nil in Hin|].
  apply elem_of_cons in Hin as [->|Hin]; [|by apply IH]. simpl. apply Hkeep. unfold sq_Get. simpl. apply lookup_delete_eq.
Qed.

(** A reconnect to a live session does not reach the table: [SweepIdle] drops
    the session by the time of its last envelope, however recent the reconnect
    (the in-memory store keeps it). *)
Lemma sweep_ignores_reconnect unmarshal s now now' ttl sid l created seen :
  sq_Get s sid = Some l -> t_sessions (sq_db s) !! sid = Some (created, seen) -> (seen < now' - ttl)%Z ->
  let s1 := (sq_GetOrCreate unmarshal no_db_faults s now sid).1 in
  sq_Get (sq_SweepIdle no_db_faults s1 now' ttl).1 sid = None.
Proof.
  intros Hl Hrow Hold s1. unfold sq_SweepIdle. simpl. apply sweep_drops. unfold stale_sids.
  apply list_elem_of_fmap. exists (sid, (created, seen)). split; [done|]. apply list_elem_of_filter. split; [done|].
  apply elem_of_map_to_list. unfold s1, sq_GetOrCreate, publish. unfold sq_Get in Hl. rewrite Hl. done.
Qed.
