(* ===== verification/Hub.v ===== *)
(** * The connection registry (internal/hub)

    hub.go's owner goroutine as a state machine: one step per message received
    on [register], [unregister] and [sendBySID], plus the steps of the pumps
    that share the clients (taking from [Send], closing).  Clients are pointers
    compared by [ID], so they live in a heap keyed by id; the maps [clients] and
    [bySID] hold ids. *)

From S2P Require Import Prelude GoString Event.
From stdpp Require Import relations.

(** ** Clients (client.go) *)

Record Client := mkClient {
  cID : string;
  cSID : string;
  Sub : string;
  Scopes : list string;
  Send : list Envelope;   (* the buffered channel's content, oldest first *)
  sendBuf : nat;          (* its capacity *)
  closed : bool;
}.

Definition NewClientWithScopes (id sid sub : string) (scopes : list string) (sendBuf : nat) : Client :=
  mkClient id sid sub scopes [] sendBuf false.

(** [Close], idempotent through [sync.Once]. *)
Definition Close (c : Client) : Client :=
  mkClient (cID c) (cSID c) (Sub c) (Scopes c) (Send c) (sendBuf c) true.

Definition with_send (c : Client) (q : list Envelope) : Client :=
  mkClient (cID c) (cSID c) (Sub c) (Scopes c) q (sendBuf c) (closed c).

(** [select { case c.Send <- env: default: }]: the send and whether it took. *)
Definition try_send (c : Client) (e : Envelope) : Client * bool :=
  if length (Send c) <? sendBuf c then (with_send c (Send c ++ [e]), true) else (c, false).

(** ** The hub *)

Record Hub := mkHub {
  heap : gmap string Client;
  clients : gset string;
  bySID : gmap string string;
}.

Definition NewHub : Hub := mkHub ∅ ∅ ∅.

(** The [register] case; [replaced] is the session.replaced envelope. *)
Definition register (h : Hub) (c : Client) (replaced : Envelope) : Hub :=
  let evicted :=
    match bySID h !! cSID c with
    | Some prev => if String.eqb prev (cID c) then None else Some prev
    | None => None
    end in
  let heap1 := match evicted with
               | Some prev => alter (fun p => Close (try_send p replaced).1) prev (heap h)
               | None => heap h
               end in
  let clients1 := match evicted with Some prev => clients h ∖ {[prev]} | None => clients h end in
  mkHub (<[cID c := c]> heap1) ({[cID c]} ∪ clients1) (<[cSID c := cID c]> (bySID h)).

(** The [unregister] case for the client with this id. *)
Definition unregister (h : Hub) (id : string) : Hub :=
  match heap h !! id with
  | None => h
  | Some c =>
      if decide (id ∈ clients h) then
        mkHub (alter Close id (heap h)) (clients h ∖ {[id]})
          (if decide (bySID h !! cSID c = Some id) then delete (cSID c) (bySID h) else bySID h)
      else h
  end.

Inductive send_error := ErrUnknownSession | ErrSendBufferFull.

(** The [sendBySID] case: [SendToSession]. *)
Definition SendToSession (h : Hub) (sid : string) (e : Envelope) : Hub * result send_error unit :=
  match bySID h !! sid with
  | None => (h, Err ErrUnknownSession)
  | Some id =>
      match heap h !! id with
      | None => (h, Err ErrUnknownSession)
      | Some c =>
          let '(c', sent) := try_send c e in
          (mkHub (<[id := c']> (heap h)) (clients h) (bySID h),
           if sent then Ok tt else Err ErrSendBufferFull)
      end
  end.

(** The shutdown branch: close every registered client. *)
Definition shutdown (h : Hub) : Hub :=
  mkHub (map_imap (fun id c => Some (if decide (id ∈ clients h) then Close c else c)) (heap h))
    (clients h) (bySID h).

(** ** Steps *)

Inductive hub_step : Hub -> Hub -> Prop :=
| step_register h c e :
    heap h !! cID c = None -> closed c = false -> Send c = [] ->
    hub_step h (register h c e)
| step_unregister h id : hub_step h (unregister h id)
| step_send h sid e : hub_step h (SendToSession h sid e).1
| step_write_pump h id c e q :
    heap h !! id = Some c -> Send c = e :: q ->
    hub_step h (mkHub (<[id := with_send c q]> (heap h)) (clients h) (bySID h))
| step_close h id c :
    heap h !! id = Some c ->
    hub_step h (mkHub (<[id := Close c]> (heap h)) (clients h) (bySID h)).

(** ** Invariant *)

Record hub_wf (h : Hub) : Prop := {
  (* a routed session leads to a registered client of that session *)
  hw_routed : forall sid id, bySID h !! sid = Some id ->
      id ∈ clients h /\ exists c, heap h !! id = Some c /\ cSID c = sid;
  (* every registered client is the one its session routes to *)
  hw_current : forall id, id ∈ clients h ->
      exists c, heap h !! id = Some c /\ bySID h !! cSID c = Some id;
  (* a client that is not registered has been told to stop *)
  hw_closed : forall id c, heap h !! id = Some c -> id ∉ clients h -> closed c = true;
  (* no channel holds more than its capacity *)
  hw_bounded : forall id c, heap h !! id = Some c -> length (Send c) <= sendBuf c;
  hw_ids : forall id c, heap h !! id = Some c -> cID c = id;
}.

Lemma try_send_facts c e :
  let c' := (try_send c e).1 in
  cID c' = cID c /\ cSID c' = cSID c /\ closed c' = closed c /\ sendBuf c' = sendBuf c /\
  (length (Send c) <= sendBuf c -> length (Send c') <= sendBuf c).
Proof.
  unfold try_send. case_match eqn:E; simpl; split_and!; try done.
  boolprop. rewrite length_app. simpl. lia.
Qed.

(** Replacing the client behind an id by one with the same identity keeps the
    routing invariant. *)
Lemma hub_wf_update h id c c' :
  hub_wf h -> heap h !! id = Some c -> cID c' = cID c -> cSID c' = cSID c ->
  (id ∉ clients h -> closed c' = true) -> length (Send c') <= sendBuf c' ->
  hub_wf (mkHub (<[id := c']> (heap h)) (clients h) (bySID h)).
Proof.
  intros [Hr Hc Hcl Hb Hid] Hh H1 H2 H3 H4. split; simpl.
  - intros sid i Hi. destruct (Hr sid i Hi) as [? (x & Hx & Hs)]. split; [done|].
    destruct (decide (id = i)) as [->|]; [exists c'|exists x]; simplify_map_eq; split; congruence.
  - intros i Hi. destruct (Hc i Hi) as (x & Hx & Hs).
    destruct (decide (id = i)) as [->|]; [exists c'|exists x]; simplify_map_eq; split; congruence.
  - intros i x Hx Hi. rewrite lookup_insert in Hx. case_decide; simplify_eq; eauto.
  - intros i x Hx. rewrite lookup_insert in Hx. case_decide; simplify_eq; eauto.
  - intros i x Hx. rewrite lookup_insert in Hx. case_decide; simplify_eq; eauto.
    rewrite H1. eauto.
Qed.

Lemma unregister_wf h id : hub_wf h -> hub_wf (unregister h id).
Proof.
  intros Hh. unfold unregister. destruct (heap h !! id) as [c|] eqn:Hc; [|done].
  case_decide as Hin; [|done]. destruct Hh as [Hr Hcu Hcl Hb Hid].
  destruct (Hcu id Hin) as (c0 & Hc0 & Hs). simplify_eq.
  rewrite decide_True by done. split; simpl.
  - intros sid i [Hne Hi]%lookup_delete_Some. destruct (Hr sid i Hi) as [Hi' (x & Hx & Hxs)].
    assert (i <> id) as Hii by (intros ->; simplify_eq). split; [set_solver|].
    exists x. by rewrite lookup_alter_ne.
  - intros i [Hi Hii]%elem_of_difference. destruct (Hcu i Hi) as (x & Hx & Hxs).
    assert (i <> id) by set_solver. exists x. rewrite lookup_alter_ne by done. split; [done|].
    rewrite lookup_delete_ne; [done|]. intros Heq. rewrite Heq in Hs. simplify_eq.
  - intros i x Hx Hi. rewrite lookup_alter in Hx. case_decide; simplify_eq.
    + rewrite Hc in Hx. by simplify_eq/=.
    + eapply Hcl; [done|]. set_solver.
  - intros i x Hx. rewrite lookup_alter in Hx. case_decide; simplify_eq; eauto.
    rewrite Hc in Hx. simplify_eq/=. eauto.
  - intros i x Hx. rewrite lookup_alter in Hx. case_decide; simplify_eq; eauto.
    rewrite Hc in Hx. simplify_eq/=. eauto.
Qed.

(** What [register] evicts: the previous client of the session. *)
Lemma register_lookup h c e i x :
  heap h !! cID c = None -> heap (register h c e) !! i = Some x -> i <> cID c ->
  exists x0, heap h !! i = Some x0 /\ cID x = cID x0 /\ cSID x = cSID x0 /\
    sendBuf x = sendBuf x0 /\
    (length (Send x0) <= sendBuf x0 -> length (Send x) <= sendBuf x) /\
    (if decide (bySID h !! cSID c = Some i) then closed x = true else x = x0).
Proof.
  intros Hnew Hx Hne. unfold register in Hx. simpl in Hx.
  rewrite lookup_insert_ne in Hx by done.
  destruct (bySID h !! cSID c) as [prev|];
    [destruct (String.eqb prev (cID c)) eqn:Hp; [apply String.eqb_eq in Hp; subst prev|apply String.eqb_neq in Hp]|].
  - exists x. rewrite decide_False by congruence. by split_and!.
  - rewrite lookup_alter in Hx. case_decide as Hd; subst.
    + destruct (heap h !! i) as [x0|] eqn:E; simplify_eq/=. exists x0.
      destruct (try_send_facts x0 e) as (H1 & H2 & _ & H4 & H5). rewrite H4.
      rewrite decide_True by done. by split_and!.
    + exists x. rewrite decide_False by congruence. by split_and!.
  - exists x. rewrite decide_False by done. by split_and!.
Qed.

Lemma register_clients h c e i :
  i ∈ clients (register h c e) <->
  i = cID c \/ i ∈ clients h /\ (bySID h !! cSID c = Some i -> i = cID c).
Proof.
  unfold register. simpl. rewrite elem_of_union, elem_of_singleton.
  destruct (bySID h !! cSID c) as [prev|];
    [destruct (String.eqb prev (cID c)) eqn:Hp; [apply String.eqb_eq in Hp; subst prev|apply String.eqb_neq in Hp]|].
  - naive_solver.
  - rewrite elem_of_difference, elem_of_singleton. naive_solver.
  - naive_solver.
Qed.

Lemma register_heap_kept h c e i x0 :
  heap h !! cID c = None -> heap h !! i = Some x0 -> is_Some (heap (register h c e) !! i).
Proof.
  intros Hnew Hi. assert (i <> cID c) by congruence. unfold register. simpl.
  rewrite lookup_insert_ne by done. repeat case_match; rewrite ?lookup_alter, ?Hi; try (by exists x0).
  case_decide; subst; rewrite ?Hi; by eexists.
Qed.

Lemma register_wf h c e :
  hub_wf h -> heap h !! cID c = None -> closed c = false -> Send c = [] -> hub_wf (register h c e).
Proof.
  intros Hh Hnew Hcl Hq. pose proof Hh as [Hr Hcu Hclo Hb Hid].
  assert (heap (register h c e) !! cID c = Some c) as Hself.
  { unfold register. simpl. apply lookup_insert_eq. }
  assert (forall sid, bySID (register h c e) !! sid =
            if decide (cSID c = sid) then Some (cID c) else bySID h !! sid) as Hby.
  { intros sid. unfold register. simpl. by rewrite lookup_insert. }
  split.
  - intros sid i. rewrite Hby, register_clients. case_decide as Hs.
    + intros [= <-]. split; [by left|]. by exists c.
    + intros Hi. destruct (Hr sid i Hi) as [Hin (x0 & Hx0 & Hxs)].
      assert (i <> cID c) by congruence.
      destruct (register_heap_kept h c e i x0 Hnew Hx0) as [x Hx].
      destruct (register_lookup h c e i x Hnew Hx) as (x1 & Hx1 & _ & Hs1 & _); [done|].
      split; [|exists x; split; [done|congruence]].
      right. split; [done|]. intros Hc. destruct (Hr _ _ Hc) as [_ (y & Hy & Hys)]. congruence.
  - intros i Hi. rewrite register_clients in Hi. destruct (decide (i = cID c)) as [->|Hne].
    { exists c. split; [done|]. rewrite Hby. by rewrite decide_True. }
    destruct Hi as [->|[Hin Hcond]]; [done|]. destruct (Hcu i Hin) as (x0 & Hx0 & Hxb).
    destruct (register_heap_kept h c e i x0 Hnew Hx0) as [x Hx].
    destruct (register_lookup h c e i x Hnew Hx Hne) as (x1 & Hx1 & _ & Hs1 & _).
    exists x. split; [done|]. simplify_eq. rewrite Hs1, Hby. rewrite decide_False; [done|].
    intros Heq. rewrite <-Heq in Hxb. by apply Hne, Hcond.
  - intros i x Hx Hi. destruct (decide (i = cID c)) as [->|Hne].
    { exfalso. apply Hi, register_clients. by left. }
    destruct (register_lookup h c e i x Hnew Hx Hne) as (x0 & Hx0 & _ & _ & _ & _ & Hdec).
    case_decide as Hd; [done|]. subst. eapply Hclo; [done|]. intros Hin. apply Hi, register_clients.
    right. by split.
  - intros i x Hx. destruct (decide (i = cID c)) as [->|Hne].
    { rewrite Hself in Hx. simplify_eq. rewrite Hq. simpl. lia. }
    destruct (register_lookup h c e i x Hnew Hx Hne) as (x0 & Hx0 & _ & _ & _ & Hlen & _). eauto.
  - intros i x Hx. destruct (decide (i = cID c)) as [->|Hne]; [congruence|].
    destruct (register_lookup h c e i x Hnew Hx Hne) as (x0 & Hx0 & -> & _). eauto.
Qed.

Lemma SendToSession_wf h sid e : hub_wf h -> hub_wf (SendToSession h sid e).1.
Proof.
  intros Hh. unfold SendToSession. destruct (bySID h !! sid) as [id|] eqn:Hs; [|done].
  destruct (heap h !! id) as [c|] eqn:Hc; [|done].
  destruct (try_send_facts c e) as (H1 & H2 & H3 & H4 & H5).
  destruct (try_send c e) as [c' sent] eqn:Ht. simpl in *.
  apply (hub_wf_update h id c); try done.
  - intros Hn. destruct (hw_routed h Hh sid id Hs). done.
  - rewrite H4. apply H5. by eapply hw_bounded.
Qed.

Lemma hub_step_wf h h' : hub_wf h -> hub_step h h' -> hub_wf h'.
Proof.
  intros Hh Hs. revert Hh. destruct Hs as [h0 c e ? ? ?|h0 id|h0 sid e|h0 id c e q Hc Hq|h0 id c Hc]; intros Hh.
  - by apply register_wf.
  - by apply unregister_wf.
  - by apply SendToSession_wf.
  - apply (hub_wf_update h0 id c); try done.
    + intros Hn. simpl. by eapply (hw_closed h0 Hh).
    + pose proof (hw_bounded h0 Hh id c Hc). rewrite Hq in *. simpl in *. lia.
  - apply (hub_wf_update h0 id c); try done. simpl. by eapply hw_bounded.
Qed.

Lemma NewHub_wf : hub_wf NewHub.
Proof. split; simpl; intros *; rewrite ?lookup_empty; set_solver. Qed.

Lemma reachable_wf h : rtc hub_step NewHub h -> hub_wf h.
Proof.
  intros Hr. remember NewHub as h0 eqn:E. pose proof NewHub_wf as Hwf. rewrite <-E in Hwf. clear E.
  induction Hr as [|a b c Hab _ IH]; [done|]. apply IH. by eapply hub_step_wf.
Qed.

#[export] Hint Resolve NewHub_wf register_wf unregister_wf SendToSession_wf : go_inv.

(** in every reachable state a session has at most one registered client,
    routing leads to it, every client that lost its registration has been
    closed, and no send buffer exceeds its capacity. *)
Theorem hub_one_client_per_session (h : Hub) :
  rtc hub_step NewHub h ->
  (forall id1 id2 c1 c2, id1 ∈ clients h -> id2 ∈ clients h ->
     heap h !! id1 = Some c1 -> heap h !! id2 = Some c2 -> cSID c1 = cSID c2 -> id1 = id2) /\
  (forall id c, heap h !! id = Some c ->
     (id ∉ clients h -> closed c = true) /\ length (Send c) <= sendBuf c).
Proof.
  intros Hr. pose proof (reachable_wf h Hr) as Hh. split.
  - intros id1 id2 c1 c2 H1 H2 Hc1 Hc2 Hs.
    destruct (hw_current h Hh _ H1) as (x1 & Hx1 & Hb1).
    destruct (hw_current h Hh _ H2) as (x2 & Hx2 & Hb2). simplify_eq. congruence.
  - intros id c Hc. split; [by eapply hw_closed|by eapply hw_bounded].
Qed.

Definition demo_client (id : string) : Client := NewClientWithScopes id "sess" "alice" [] 2.
Definition demo_replaced : Envelope := mkEnvelope "r" "session.replaced" 0 "" None.

Lemma hub_one_client_per_session_witness :
  let h := register (register NewHub (demo_client "c1") demo_replaced) (demo_client "c2") demo_replaced in
  closed <$> (heap h !! "c1") = Some true /\ "c2" ∈ clients h /\
  (forall id c, heap h !! id = Some c -> (id ∉ clients h -> closed c = true) /\ length (Send c) <= sendBuf c).
Proof.
  split; [vm_compute; reflexivity|]. split; [set_solver|].
  apply hub_one_client_per_session.
  eapply rtc_l; [apply (step_register NewHub (demo_client "c1") demo_replaced); vm_compute; reflexivity|].
  eapply rtc_l; [|apply rtc_refl].
  apply step_register; vm_compute; reflexivity.
Defined.

(** a reconnect replaces the old socket: after a registration, messages
    for the session go to the new client, and a late unregistration of the
    replaced client changes nothing. *)
Theorem hub_replacement_is_stable (h : Hub) (c : Client) (repl e : Envelope) (old : string) :
  hub_wf h -> heap h !! cID c = None -> closed c = false -> Send c = [] -> 0 < sendBuf c ->
  bySID h !! cSID c = Some old ->
  let h1 := register h c repl in
  unregister h1 old = h1 /\
  (SendToSession h1 (cSID c) e).2 = Ok tt /\
  Send <$> (heap (SendToSession h1 (cSID c) e).1 !! cID c) = Some [e].
Proof.
  intros Hh Hnew Hcl Hq Hbuf Hold h1.
  destruct (hw_routed h Hh _ _ Hold) as [Hin (co & Hco & Hcs)].
  assert (old <> cID c) as Hne by congruence.
  split.
  - destruct (register_heap_kept h c repl old co Hnew Hco) as [x Hx]. unfold unregister.
    fold h1 in Hx. rewrite Hx. rewrite decide_False; [done|].
    unfold h1. rewrite register_clients. intros [?|[_ Himp]]; [done|]. by apply Hne, Himp.
  - unfold SendToSession. unfold h1, register. simpl. rewrite lookup_insert_eq.
    rewrite lookup_insert_eq. unfold try_send. rewrite Hq. simpl.
    destruct (Nat.ltb_spec 0 (sendBuf c)); [|lia]. simpl. by rewrite lookup_insert_eq.
Qed.

Lemma hub_replacement_is_stable_witness :
  let h1 := register (register NewHub (demo_client "c1") demo_replaced) (demo_client "c2") demo_replaced in
  unregister h1 "c1" = h1 /\ (SendToSession h1 "sess" demo_replaced).2 = Ok tt /\
  Send <$> (heap (SendToSession h1 "sess" demo_replaced).1 !! "c2") = Some [demo_replaced].
Proof.
  apply (hub_replacement_is_stable (register NewHub (demo_client "c1") demo_replaced)
           (demo_client "c2") demo_replaced demo_replaced "c1");
    try (vm_compute; reflexivity).
  - apply register_wf; [apply NewHub_wf|vm_compute; reflexivity..].
  - vm_compute. lia.
Defined.
