(* ===== verification/Connection.v ===== *)
(** * One connection (internal/wsserver/pumps.go)

    [bufferAndSend], the read pump's steps and [dispatch]: a session with its
    ring buffer and the client's bounded [Send] channel.  The length of an
    encoded envelope is the parameter [Bytes]; the choice a Go [select] makes
    between two ready cases, the clock and the minted ids are arguments.  The
    handlers that [dispatch] starts are actions it returns; Server.v and
    Intent.v model them.  The text of a decoding error is abbreviated. *)

From stdpp Require Import sorting.
From S2P Require Import Prelude GoString Event Wire Session Hub.

Record conn := mkConn { sess : Session; client : Client }.

(** [select { case c.Send <- env: case <-c.Done(): default: }] *)
Definition send_select (prefer_done : bool) (c : Client) (e : Envelope) : Client :=
  if closed c && prefer_done then c else (try_send c e).1.

Section connection.
Variable Bytes : Envelope -> option Z.                       (* len of env.Bytes(), if it encodes *)
Context `{Unmarshal ClientHelloPayload, Unmarshal PingPayload}.
Variable marshal_stale : SessionStalePayload -> any.
Variable marshal_ping : PingPayload -> any.
Variable marshal_error : ErrorPayload -> any.

Definition bufferAndSend (now : Z) (prefer_done : bool) (c : conn) (e : Envelope) : conn :=
  match Bytes e with
  | None => c
  | Some n => mkConn (Append (sess c) now e n) (send_select prefer_done (client c) e)
  end.

Definition replyError (now : Z) (prefer_done : bool) (id : string) (c : conn) (correlationID code message : string) : conn :=
  bufferAndSend now prefer_done c (NewReply id now EventError correlationID (Some (marshal_error (mkErrorPayload code message)))).

(** The replay loop: it does not buffer again, and stops when [Send] is full. *)
Fixpoint replay (c : Client) (l : list Envelope) : Client :=
  match l with
  | [] => c
  | e :: l' => let '(c', ok) := try_send c e in if ok then replay c' l' else c'
  end.

Inductive action :=
| ADone
| ACommandRequest
| AUserIntent
| ARouteApproval (granted : bool)
| AUserCommand.

(** [id] is the id minted for the reply, if one is sent. *)
Definition dispatch (now : Z) (prefer_done : bool) (id : string) (e : Envelope) (c : conn) : conn * action :=
  let t := EType e in
  if String.eqb t EventClientHello then
    match UnmarshalPayload (mkClientHello "") e with
    | None => (replyError now prefer_done id c (ID e) "bad_envelope" "decode", ADone)
    | Some p =>
        if String.eqb (ch_LastEventID p) "" then (c, ADone)
        else
          let '(missed, stale) := EventsSince (sess c) (ch_LastEventID p) in
          if stale then
            let '(first, last) := BufferBounds (sess c) in
            (bufferAndSend now prefer_done c
               (NewEnvelope id now EventSessionStale (Some (marshal_stale (mkStale "buffer_rolled" last first)))), ADone)
          else (mkConn (sess c) (replay (client c) missed), ADone)
    end
  else if String.eqb t EventPing then
    let p := match UnmarshalPayload (mkPing "") e with Some p => p | None => mkPing "" end in
    (bufferAndSend now prefer_done c (NewReply id now EventPong (ID e) (Some (marshal_ping p))), ADone)
  else if String.eqb t EventCommandRequest then (c, ACommandRequest)
  else if String.eqb t EventUserIntent then (c, AUserIntent)
  else if String.eqb t EventToolApprovalGranted then (c, ARouteApproval true)
  else if String.eqb t EventToolApprovalDenied then (c, ARouteApproval false)
  else if String.eqb t EventUserCommand then (c, AUserCommand)
  else (replyError now prefer_done id c (ID e) "unknown_type" ("unsupported event type: " +:+ t), ADone).

(** One round of [readPump] on a frame: [allow] is the limiter's answer,
    [true] when there is no limiter. *)
Definition read_frame {B} (unmarshal : B -> option Envelope) (now : Z) (prefer_done allow : bool) (id : string) (data : B) (c : conn)
    : conn * option (Envelope * action) :=
  let c := mkConn (Touch (sess c) now) (client c) in
  if negb allow then (replyError now prefer_done id c "" "rate_limited" "connection-level rate limit exceeded", None)
  else match DecodeBytes unmarshal data with
       | Err _ => (replyError now prefer_done id c "" "bad_envelope" "decode", None)
       | Ok e => let '(c', a) := dispatch now prefer_done id e c in (c', Some (e, a))
       end.

(** ** What is sent *)

Lemma replay_take c l :
  Send (replay c l) = Send c ++ take (sendBuf c - length (Send c)) l /\ closed (replay c l) = closed c.
Proof.
  revert c. induction l as [|e l IH]; intros c; simpl; [by rewrite take_nil, app_nil_r|].
  unfold try_send. destruct (Nat.ltb_spec (length (Send c)) (sendBuf c)).
  - destruct (IH (with_send c (Send c ++ [e]))) as [-> ->]. simpl. split; [|done].
    rewrite length_app. simpl. replace (sendBuf c - length (Send c)) with (S (sendBuf c - (length (Send c) + 1))) by lia.
    by rewrite <-app_assoc.
  - split; [|done]. replace (sendBuf c - length (Send c)) with 0 by lia. by rewrite take_0, app_nil_r.
Qed.

(** The emissions of a connection, in order: the clock, the choice of the
    [select], the envelope. *)
Definition emit_all (c : conn) (l : list (Z * bool * Envelope)) : conn :=
  foldl (fun c e => bufferAndSend e.1.1 e.1.2 c e.2) c l.

(** What the session has buffered of them, with their lengths. *)
Definition entries (l : list (Z * bool * Envelope)) : list entry :=
  omap (fun e => match Bytes e.2 with Some n => Some (mkEntry e.2 n) | None => None end) l.

Lemma emit_all_buffer c0 cap mx log l :
  buffer (sess c0) = buffer_of cap mx log -> buffer (sess (emit_all c0 l)) = buffer_of cap mx (log ++ entries l).
Proof.
  revert c0 log. induction l as [|e l IH]; intros c0 log Hb; simpl; [by rewrite app_nil_r|].
  unfold bufferAndSend. destruct (Bytes e.2) as [n|]; [|by apply IH].
  rewrite (IH _ (log ++ [mkEntry e.2 n])); [by rewrite <-app_assoc|]. simpl. rewrite Hb. unfold buffer_of. by rewrite foldl_app.
Qed.

(** The range check of [Since]: [lastID] is, as a string, between the oldest
    and the newest buffered id. *)
Definition in_range (b : RingBuffer) (lastID : string) : Prop :=
  String.ltb lastID (FirstID b) = false /\ String.ltb (LastID b) lastID = false.

Lemma Since_in_range b l1 e l2 lastID : items b = l1 ++ e :: l2 -> Forall (fun x => ID (env x) <> lastID) l1 -> ID (env e) = lastID ->
  lastID <> "" -> in_range b lastID -> Since b lastID = (env <$> l2, false).
Proof.
  intros Hi H1 He Hne [Hf Hl]. unfold Since. apply String.eqb_neq in Hne. rewrite Hne, Hf, Hl.
  assert (since_scan lastID (items b) = Some (env <$> l2)) as ->; [|by rewrite Hi; destruct l1].
  rewrite Hi. clear Hi. induction H1 as [|x l1 Hx _ IH]; simpl; [by rewrite <-He, String.eqb_refl|].
  apply String.eqb_neq in Hx. by rewrite Hx.
Qed.

Lemma Since_out_of_range b lastID : lastID <> "" -> ~ in_range b lastID -> Since b lastID = ([], true).
Proof.
  intros Hne Hr. unfold Since. apply String.eqb_neq in Hne. rewrite Hne. unfold in_range in Hr.
  destruct (items b); [done|]. destruct (String.ltb lastID (FirstID b)); [done|]. destruct (String.ltb (LastID b) lastID); [done|tauto].
Qed.

Lemma sorted_in_range b e : StronglySorted id_lt (items b) -> e ∈ items b -> in_range b (ID (env e)).
Proof.
  intros Hs Hin. apply list_elem_of_split in Hin as (l1 & l2 & Hi). rewrite Hi in Hs.
  destruct (sorted_split_facts _ _ _ Hs) as [H1 H2]. split; unfold FirstID, LastID; rewrite Hi.
  - destruct H1 as [|x l1 Hx _]; simpl; [apply ltb_irrefl|by apply ltb_asym].
  - rewrite last_app, last_cons. destruct (last l2) as [y|] eqn:Hy; [|apply ltb_irrefl].
    apply last_Some_elem_of in Hy. rewrite Forall_forall in H2. by apply ltb_asym, H2.
Qed.

Lemma entries_sizes l : (forall e n, Bytes e = Some n -> 0 <= n)%Z -> Forall (fun e => 0 <= esize e)%Z (entries l).
Proof.
  intros Hb. apply Forall_forall. intros x Hx. apply list_elem_of_omap in Hx as (e & _ & He).
  destruct (Bytes e.2) as [n|] eqn:E; simplify_eq/=. by eapply Hb.
Qed.

(** C6: a reconnect replays what was missed.  Take a session that starts with
    an empty buffer and emits any sequence of envelopes, in any order of their
    ids, and let the old connection deliver them, drop them on a full channel
    or never write them.  When a client comes back with the id of an envelope
    that is still buffered and that lies, as a string, between the oldest and
    the newest buffered id, its fresh channel receives, in order and without
    their being buffered again, exactly the envelopes the session emitted
    after that one, up to the channel's capacity.  In every other case (the id
    is no longer buffered, or is outside that range) it is told that it is
    stale, with the bounds of what is buffered.  While ids are emitted in
    increasing order every buffered id is in the range; concurrent handlers
    can emit them out of order, and then a client whose position is still
    buffered may be told it is stale.  An encoding's length is taken to be
    non-negative. *)
Theorem reconnect_replays_what_was_missed (c0 : conn) (cap mx : Z) (out : list (Z * bool * Envelope))
    (now : Z) (pd : bool) (id lastID : string) (hello : Envelope) (fresh : Client) :
  buffer (sess c0) = NewRingBuffer cap mx -> (forall e n, Bytes e = Some n -> 0 <= n)%Z -> lastID <> "" ->
  EType hello = EventClientHello -> UnmarshalPayload (mkClientHello "") hello = Some (mkClientHello lastID) ->
  let s := sess (emit_all c0 out) in
  let c' := (dispatch now pd id hello (mkConn s fresh)).1 in
  (forall l1 e after, items (buffer s) = l1 ++ e :: after -> Forall (fun x => ID (env x) <> lastID) l1 -> ID (env e) = lastID ->
     in_range (buffer s) lastID ->
     exists before, entries out = before ++ e :: after /\
       sess c' = s /\ Send (client c') = Send fresh ++ take (sendBuf fresh - length (Send fresh)) (env <$> after)) /\
  (Forall (fun e => ID (env e) <> lastID) (items (buffer s)) \/ ~ in_range (buffer s) lastID ->
     c' = bufferAndSend now pd (mkConn s fresh) (NewEnvelope id now EventSessionStale
            (Some (marshal_stale (mkStale "buffer_rolled" (LastID (buffer s)) (FirstID (buffer s))))))) /\
  (StronglySorted id_lt (entries out) -> forall e, e ∈ items (buffer s) -> in_range (buffer s) (ID (env e))).
Proof.
  intros Hb0 Hlen Hne Htype Hdec s c'.
  assert (buffer s = buffer_of cap mx (entries out)) as Hbuf by (apply (emit_all_buffer c0 cap mx [] out); done).
  destruct (buffer_of_spec cap mx (entries out) (entries_sizes out Hlen)) as [_ [pre Hpre]]. rewrite <-Hbuf in Hpre.
  unfold c', dispatch. rewrite Htype, String.eqb_refl, Hdec. cbn [ch_LastEventID]. apply String.eqb_neq in Hne as Hne'. rewrite Hne'.
  unfold EventsSince, BufferBounds. simpl. split_and!.
  - intros l1 e after Hi H1 Hid Hr. exists (pre ++ l1). split; [by rewrite Hpre, Hi, app_assoc|].
    rewrite (Since_in_range _ l1 e after lastID) by done. simpl. split; [done|]. by destruct (replay_take fresh (env <$> after)) as [-> _].
  - intros [Hf|Hr]; [by rewrite Since_unknown|by rewrite Since_out_of_range].
  - intros Hsort e. apply sorted_in_range. rewrite Hpre in Hsort. by apply sorted_app_r in Hsort.
Qed.
End connection.

(** Three envelopes reach the old client; it comes back with the id of the
    first and has room for both others. *)
Definition demo_hello : Unmarshal ClientHelloPayload := fun v =>
  match v with AMap m => Some (mkClientHello (arg_string_or_empty m "last_event_id")) | _ => None end.

Lemma reconnect_replays_what_was_missed_witness :
  let none {P} : Unmarshal P := fun _ => None in
  let c0 := mkConn (mkSession "s" 0 0 (NewRingBuffer 2 100)) (NewClientWithScopes "old" "s" "alice" [] 1) in
  let out := [(1%Z, false, demo_env "a"); (2%Z, false, demo_env "b"); (3%Z, true, demo_env "c")] in
  let hello := mkEnvelope "h" EventClientHello 0 "" (Some (AMap [("last_event_id", AStr "b")])) in
  let fresh := NewClientWithScopes "new" "s" "alice" [] 4 in
  exists before after,
    entries (fun _ => Some 4%Z) out = before ++ mkEntry (demo_env "b") 4 :: after /\
    Send (client (dispatch (H := demo_hello) (H0 := none) (fun _ => Some 4%Z) (fun _ => ANil) (fun _ => ANil) (fun _ => ANil)
      9 false "x" hello (mkConn (sess (emit_all (fun _ => Some 4%Z) c0 out)) fresh)).1) = env <$> after.
Proof.
  intros none c0 out hello fresh.
  pose proof (@reconnect_replays_what_was_missed (fun _ => Some 4%Z) demo_hello (none _) (fun _ => ANil) (fun _ => ANil) (fun _ => ANil)
    c0 2 100 out 9 false "x" "b" hello fresh eq_refl
    ltac:(intros ? ? Hn; injection Hn as <-; lia) ltac:(done) eq_refl eq_refl) as (Hin & _ & Hr).
  destruct (Hin [] (mkEntry (demo_env "b") 4) [mkEntry (demo_env "c") 4]) as (before & Hl & _ & Hs); [reflexivity|constructor|reflexivity| |].
  { apply (Hr ltac:(repeat constructor) (mkEntry (demo_env "b") 4)). vm_compute. repeat constructor. }
  exists before, [mkEntry (demo_env "c") 4]. split; [exact Hl|]. etransitivity; [exact Hs|]. reflexivity.
Defined.
