(* ===== verification/Auth.v ===== *)
(** * Authentication and authorization (internal/auth)

    scopes.go: the two-tier scope policies.  revocation.go: the revocation-list
    interface as a class, with the no-op, in-memory and SQLite lists as its
    instances.  jwt.go: the verifier with its rotation secrets and the issuer;
    the JWT library is a parameter of the section. *)

From S2P Require Import Prelude GoString Event.

(** ** Scopes *)

Definition ScopeToolsAll : string := "tools:*".
Definition ScopeToolsGitHub : string := "tools:github".
Definition scopePrefixTools : string := "tools:".
Definition ScopeConfigRead : string := "config:read".
Definition ScopeConfigWrite : string := "config:write".
Definition scopePrefixConfig : string := "config:".

Definition HasConfigScope (scopes : list string) (write : bool) : bool :=
  let hasConfigScope := existsb (fun s => HasPrefix s scopePrefixConfig) scopes in
  if negb hasConfigScope then true
  else existsb (fun s => String.eqb s ScopeConfigWrite ||
                         (negb write && String.eqb s ScopeConfigRead)) scopes.

Definition HasToolScope (scopes : list string) (tool : string) : bool :=
  if String.eqb tool "" then false
  else
    let hasAnyToolsScope := existsb (fun s => HasPrefix s scopePrefixTools) scopes in
    if negb hasAnyToolsScope then true
    else
      let want := scopePrefixTools +:+ tool in
      existsb (fun s => String.eqb s ScopeToolsAll || String.eqb s want ||
                        (String.eqb s ScopeToolsGitHub && HasPrefix tool "github_")) scopes.

Lemma existsb_In {A} (f : A -> bool) l : existsb f l = true <-> exists x, x ∈ l /\ f x = true.
Proof. rewrite existsb_exists. setoid_rewrite list_elem_of_In. done. Qed.

(** Whether any scope is in the [tools:] namespace (strict mode). *)
Definition tools_strict (scopes : list string) : Prop :=
  exists s, s ∈ scopes /\ HasPrefix s scopePrefixTools = true.

Lemma existsb_tools_strict scopes :
  existsb (fun s => HasPrefix s scopePrefixTools) scopes = false <-> ~ tools_strict scopes.
Proof. unfold tools_strict. rewrite <-existsb_In. by rewrite not_true_iff_false. Qed.

(** the tool-scope policy: a non-empty tool name is allowed exactly when
    the token names no [tools:] scope at all (legacy), or names the wildcard,
    the tool itself, or the GitHub family for a [github_] tool. *)
Theorem tool_scope_policy (scopes : list string) (tool : string) :
  HasToolScope scopes tool = true <->
  tool <> "" /\
  (~ tools_strict scopes \/ ScopeToolsAll ∈ scopes \/ scopePrefixTools +:+ tool ∈ scopes \/
   (ScopeToolsGitHub ∈ scopes /\ HasPrefix tool "github_" = true)).
Proof.
  unfold HasToolScope. destruct (String.eqb_spec tool "") as [->|Hne]; [naive_solver|].
  destruct (existsb (fun s => HasPrefix s scopePrefixTools) scopes) eqn:Hs; simpl.
  - rewrite existsb_In. split.
    + intros (s & Hin & H). split; [done|]. right.
      rewrite !orb_true_iff, andb_true_iff, !String.eqb_eq in H.
      destruct H as [[->| ->]|[-> Hp]]; auto.
    + intros [_ [Hn|[Hin|[Hin|[Hin Hp]]]]].
      * apply existsb_tools_strict in Hn. congruence.
      * exists ScopeToolsAll. split; [done|]. by rewrite String.eqb_refl.
      * eexists. split; [done|]. by rewrite String.eqb_refl, orb_true_r.
      * eexists. split; [done|]. by rewrite Hp, String.eqb_refl, !orb_true_r.
  - apply existsb_tools_strict in Hs. naive_solver.
Qed.

(** the GitHub family scope is not narrowed by per-tool GitHub scopes: a
    token with [tools:github] may call every [github_] tool, whatever other
    scopes it lists. *)
Theorem github_family_scope_wins (scopes : list string) (tool : string) :
  ScopeToolsGitHub ∈ scopes -> HasPrefix tool "github_" = true ->
  HasToolScope scopes tool = true.
Proof.
  intros Hin Hp. unfold HasToolScope. destruct (String.eqb_spec tool "") as [->|]; [done|].
  destruct (existsb (fun s => HasPrefix s scopePrefixTools) scopes); simpl; [|done].
  apply existsb_In. eexists. split; [exact Hin|]. by rewrite Hp, String.eqb_refl, !orb_true_r.
Qed.

Lemma github_family_scope_wins_witness :
  HasToolScope ["tools:github_list_issues"; "tools:github"] "github_delete_repo" = true.
Proof.
  apply (github_family_scope_wins ["tools:github_list_issues"; "tools:github"] "github_delete_repo");
    [|reflexivity].
  apply list_elem_of_further, list_elem_of_here.
Defined.

(** the config-scope policy, and that write access implies read access. *)
Theorem config_scope_policy (scopes : list string) (write : bool) :
  (HasConfigScope scopes write = true <->
   (forall s, s ∈ scopes -> HasPrefix s scopePrefixConfig = false) \/
   ScopeConfigWrite ∈ scopes \/ (write = false /\ ScopeConfigRead ∈ scopes)) /\
  (HasConfigScope scopes true = true -> HasConfigScope scopes false = true).
Proof.
  unfold HasConfigScope.
  destruct (existsb (fun s => HasPrefix s scopePrefixConfig) scopes) eqn:Hs; simpl.
  - apply existsb_In in Hs as (s0 & Hs0 & Hp0). rewrite !existsb_In. split; [split|].
    + intros (s & Hin & H). right. rewrite orb_true_iff, andb_true_iff, negb_true_iff, !String.eqb_eq in H.
      destruct H as [->|[-> ->]]; auto.
    + intros [Hn|[Hin|[-> Hin]]].
      * specialize (Hn _ Hs0). congruence.
      * eexists. split; [done|]. by rewrite String.eqb_refl.
      * eexists. split; [done|]. by rewrite String.eqb_refl, orb_true_r.
    + intros (s & Hin & H). exists s. split; [done|]. simpl in *.
      rewrite orb_false_r in H. by rewrite H.
  - split; [|done]. split; [|done]. intros _. left. intros s Hin.
    destruct (HasPrefix s scopePrefixConfig) eqn:E; [|done].
    assert (existsb (fun s => HasPrefix s scopePrefixConfig) scopes = true) by (apply existsb_In; eauto).
    congruence.
Qed.

(** ** Revocation lists *)

(** Times are nanoseconds; [None] is Go's zero [time.Time]. *)
Abbreviation gotime := (option Z).

(** Both operations can fail (the SQLite list asks its database); a failed
    [Revoke] leaves the list as it was. *)
Class RevocationList (R : Type) := {
  Revoke : R -> string -> gotime -> result string R;
  IsRevoked : R -> string -> result string bool;
}.

(** What the verifier relies on: an id that was revoked is reported as revoked,
    revoking one id changes no other's answer, and the empty id is never
    revoked. *)
Class RevocationLaws (R : Type) `{RevocationList R} := {
  revoke_hit : forall r r' jti exp, jti <> "" -> Revoke r jti exp = Ok r' -> IsRevoked r' jti = Ok true;
  revoke_other : forall r r' jti jti' exp, jti <> jti' -> Revoke r jti exp = Ok r' ->
      IsRevoked r' jti' = IsRevoked r jti';
  revoke_empty : forall r exp, Revoke r "" exp = Ok r;
  never_empty : forall r, IsRevoked r "" = Ok false;
}.

(** The list after a [Revoke] whose error is only logged. *)
Definition after_revoke {R} `{RevocationList R} (r : R) (jti : string) (exp : gotime) : R :=
  match Revoke r jti exp with Ok r' => r' | Err _ => r end.

(** *** In-memory list *)

Record MemoryRevocationList := mkMemRev { revoked : gmap string gotime }.

Definition mem_Revoke (m : MemoryRevocationList) (jti : string) (exp : gotime) : result string MemoryRevocationList :=
  if String.eqb jti "" then Ok m else Ok (mkMemRev (<[jti := exp]> (revoked m))).

Definition mem_IsRevoked (m : MemoryRevocationList) (jti : string) : result string bool :=
  if String.eqb jti "" then Ok false
  else match revoked m !! jti with Some _ => Ok true | None => Ok false end.

(** [Prune]: entries whose expiry is set and before [now] go; their count. *)
Definition mem_expired (now : Z) (exp : gotime) : bool :=
  match exp with None => false | Some e => (e <? now)%Z end.

Definition mem_Prune (m : MemoryRevocationList) (now : Z) : MemoryRevocationList * nat :=
  let kept := filter (fun kv : string * gotime => mem_expired now kv.2 = false) (revoked m) in
  (mkMemRev kept, size (revoked m) - size kept).

#[export] Instance mem_revocation : RevocationList MemoryRevocationList :=
  {| Revoke := mem_Revoke; IsRevoked := mem_IsRevoked |}.

#[export] Instance mem_revocation_laws : RevocationLaws MemoryRevocationList.
Proof.
  split; simpl; unfold mem_Revoke, mem_IsRevoked; intros *; [| |done..].
  - intros Hne. destruct (String.eqb_spec jti ""); [done|]. intros [= <-]. simpl. by rewrite lookup_insert_eq.
  - intros Hne. destruct (String.eqb_spec jti ""); intros [= <-]; [done|]. simpl. by rewrite lookup_insert_ne.
Qed.

(** *** SQLite list: the [revoked_tokens] table, expiries in Unix seconds *)

Definition second : Z := 1000000000.
Definition century : Z := (100 * 365 * 24 * 3600)%Z.

(** [db_error]: what the database answers to a statement when it cannot run
    it (a locked or unreadable file, a cancelled context), [None] while it can. *)
Record SQLiteRevocationList := mkSqlRev { revoked_tokens : gmap string Z; clock : Z; db_error : option string }.

(** [INSERT ... ON CONFLICT(jti) DO UPDATE]; a zero expiry becomes a
    far-future sentinel. *)
Definition sql_Revoke (s : SQLiteRevocationList) (jti : string) (exp : gotime) : result string SQLiteRevocationList :=
  if String.eqb jti "" then Ok s
  else
    let expUnix := match exp with
                   | Some e => (e / second)%Z
                   | None => (clock s / second + century)%Z
                   end in
    match db_error s with
    | Some e => Err ("auth: revoke jti: " +:+ e)
    | None => Ok (mkSqlRev (<[jti := expUnix]> (revoked_tokens s)) (clock s) None)
    end.

(** [sql.ErrNoRows] is the answer "not revoked"; any other error is returned. *)
Definition sql_IsRevoked (s : SQLiteRevocationList) (jti : string) : result string bool :=
  if String.eqb jti "" then Ok false
  else match db_error s with
  | Some e => Err ("auth: lookup jti: " +:+ e)
  | None => match revoked_tokens s !! jti with Some _ => Ok true | None => Ok false end
  end.

(** [DELETE FROM revoked_tokens WHERE exp_at < ?] *)
Definition sql_Prune (s : SQLiteRevocationList) (now : Z) : SQLiteRevocationList * result string nat :=
  match db_error s with
  | Some e => (s, Err ("auth: prune revocations: " +:+ e))
  | None =>
      let kept := filter (fun kv : string * Z => (kv.2 <? now / second)%Z = false) (revoked_tokens s) in
      (mkSqlRev kept (clock s) None, Ok (size (revoked_tokens s) - size kept))
  end.

#[export] Instance sql_revocation : RevocationList SQLiteRevocationList :=
  {| Revoke := sql_Revoke; IsRevoked := sql_IsRevoked |}.

#[export] Instance sql_revocation_laws : RevocationLaws SQLiteRevocationList.
Proof.
  split; simpl; unfold sql_Revoke, sql_IsRevoked; intros *.
  - intros Hne. destruct (String.eqb_spec jti ""); [done|]. destruct (db_error r) eqn:Hd; [done|].
    intros [= <-]. simpl. by rewrite lookup_insert_eq.
  - intros Hne. destruct (String.eqb_spec jti ""); [by intros [= <-]|]. destruct (db_error r) eqn:Hd; [done|].
    intros [= <-]. simpl. by rewrite lookup_insert_ne.
  - done.
  - done.
Qed.

(** *** The no-op list: nothing is ever revoked, so it has no laws *)

#[export] Instance noop_revocation : RevocationList unit :=
  {| Revoke := fun r _ _ => Ok r; IsRevoked := fun _ _ => Ok false |}.

(** pruning is safe for both lists: a revocation whose token has not
    expired at [now] is still reported afterwards, so a janitor tick never
    un-revokes a live token. *)
Theorem prune_keeps_live_revocations (m m' : MemoryRevocationList) (s s' : SQLiteRevocationList)
    (jti : string) (exp now : Z) :
  jti <> "" -> (now <= exp)%Z -> Revoke m jti (Some exp) = Ok m' -> Revoke s jti (Some exp) = Ok s' ->
  IsRevoked (mem_Prune m' now).1 jti = Ok true /\
  IsRevoked (sql_Prune s' now).1 jti = Ok true.
Proof.
  intros Hne Hle. simpl. unfold mem_IsRevoked, sql_IsRevoked, mem_Revoke, sql_Revoke, sql_Prune.
  destruct (String.eqb_spec jti ""); [done|]. intros [= <-]. destruct (db_error s); [done|]. intros [= <-]. simpl. split.
  - assert (filter (fun kv : string * gotime => mem_expired now kv.2 = false)
              (<[jti:=Some exp]> (revoked m)) !! jti = Some (Some exp)) as ->; [|done].
    apply map_lookup_filter_Some. split; [apply lookup_insert_eq|]. simpl. lia.
  - assert (filter (fun kv : string * Z => (kv.2 <? now / second)%Z = false)
              (<[jti:=(exp / second)%Z]> (revoked_tokens s)) !! jti = Some (exp / second)%Z) as ->; [|done].
    apply map_lookup_filter_Some. split; [apply lookup_insert_eq|]. simpl.
    apply Z.ltb_ge. apply Z.div_le_mono; [done|lia].
Qed.

Lemma prune_keeps_live_revocations_witness :
  IsRevoked (mem_Prune (after_revoke (mkMemRev ∅) "j" (Some 2500000000%Z)) 2400000000).1 "j" = Ok true /\
  IsRevoked (sql_Prune (after_revoke (mkSqlRev ∅ 0 None) "j" (Some 2500000000%Z)) 2400000000).1 "j" = Ok true.
Proof. apply (prune_keeps_live_revocations (mkMemRev ∅) _ (mkSqlRev ∅ 0 None) _ "j" 2500000000); [done|lia|reflexivity..]. Defined.

(** ** Tokens (jwt.go) *)

Definition Issuer : string := "nomaddev".
Definition KindAccess : string := "access".
Definition KindRefresh : string := "refresh".

Record Claims := mkClaims {
  cl_sub : string;
  cl_sid : string;
  cl_scopes : list string;
  cl_kind : string;
  cl_issuer : string;
  cl_issued_at : Z;
  cl_not_before : Z;
  cl_expires_at : Z;
  cl_id : string;
}.

Inductive auth_error :=
| ErrEmptyToken
| ErrNoSecrets
| ErrParse
| ErrMissingSid
| ErrMissingSub
| ErrRevocationLookup (err : string)
| ErrRevoked
| ErrWrongKind.

Section verifier.
(** The JWT library (HS256 with the issuer and expiration checks the parser
    is built with) and the revocation list in use. *)
Context {token R : Type} `{RevocationList R}.
Variable is_empty : token -> bool.
Variable ParseWithClaims : string -> token -> option Claims.
Variable SignedString : string -> Claims -> token.

Record Verifier := mkVerifier { secrets : list string; revoker : R }.

(** [NewVerifierWithSecrets]: empty secrets are dropped. *)
Definition NewVerifierWithSecrets (secrets : list string) (rev : R) : Verifier :=
  mkVerifier (filter (fun s => s <> "") secrets) rev.

(** The loop over the secrets: the first that parses wins. *)
Fixpoint try_secrets (secrets : list string) (t : token) : option Claims :=
  match secrets with
  | [] => None
  | s :: rest => match ParseWithClaims s t with
                 | Some c => Some c
                 | None => try_secrets rest t
                 end
  end.

Definition parseCtx (v : Verifier) (t : token) : result auth_error Claims :=
  if is_empty t then Err ErrEmptyToken
  else match secrets v with
  | [] => Err ErrNoSecrets
  | _ =>
      match try_secrets (secrets v) t with
      | None => Err ErrParse
      | Some c =>
          if String.eqb (cl_sid c) "" then Err ErrMissingSid
          else if String.eqb (cl_sub c) "" then Err ErrMissingSub
          else if negb (String.eqb (cl_id c) "") then
            match IsRevoked (revoker v) (cl_id c) with
            | Err e => Err (ErrRevocationLookup ("auth: revocation lookup: " +:+ e))
            | Ok true => Err ErrRevoked
            | Ok false => Ok c
            end
          else Ok c
      end
  end.

Definition Parse := parseCtx.

Definition ParseAccess (v : Verifier) (t : token) : result auth_error Claims :=
  match Parse v t with
  | Err e => Err e
  | Ok c => if negb (String.eqb (cl_kind c) "") && negb (String.eqb (cl_kind c) KindAccess)
            then Err ErrWrongKind else Ok c
  end.

Definition ParseRefresh (v : Verifier) (t : token) : result auth_error Claims :=
  match Parse v t with
  | Err e => Err e
  | Ok c => if negb (String.eqb (cl_kind c) KindRefresh) then Err ErrWrongKind else Ok c
  end.

Record IssuerSigner := mkIssuer { secret : string; accessTTL : Z; refreshTTL : Z }.

(** [signKind] with the clock and the minted jti as arguments. *)
Definition signKind (i : IssuerSigner) (now : Z) (jti sub sid : string) (scopes : list string)
    (kind : string) (ttl : Z) : token :=
  SignedString (secret i) (mkClaims sub sid scopes kind Issuer now now (now + ttl) jti).

Definition SignAccess i now jti sub sid scopes := signKind i now jti sub sid scopes KindAccess (accessTTL i).
Definition SignRefresh i now jti sub sid scopes := signKind i now jti sub sid scopes KindRefresh (refreshTTL i).

Lemma try_secrets_Some l t c :
  try_secrets l t = Some c -> exists s, s ∈ l /\ ParseWithClaims s t = Some c.
Proof.
  induction l as [|s l IH]; simpl; [done|]. destruct (ParseWithClaims s t) eqn:E.
  - intros [= ->]. exists s. split; [by constructor|done].
  - intros Hl. destruct (IH Hl) as (s' & Hs & Hp). exists s'. split; [by constructor|done].
Qed.

Lemma parseCtx_Ok v t c :
  parseCtx v t = Ok c ->
  (exists s, s ∈ secrets v /\ ParseWithClaims s t = Some c) /\
  cl_sid c <> "" /\ cl_sub c <> "" /\ (cl_id c <> "" -> IsRevoked (revoker v) (cl_id c) = Ok false).
Proof.
  unfold parseCtx. destruct (is_empty t); [done|].
  destruct (secrets v) as [|s0 l] eqn:Hs; [done|]. rewrite <-Hs.
  destruct (try_secrets (secrets v) t) as [c'|] eqn:Ht; [|done].
  destruct (String.eqb_spec (cl_sid c') ""); [done|].
  destruct (String.eqb_spec (cl_sub c') ""); [done|].
  destruct (String.eqb_spec (cl_id c') ""); simpl.
  - intros [= <-]. split; [by apply try_secrets_Some|]. by split_and!.
  - destruct (IsRevoked (revoker v) (cl_id c')) as [[]|] eqn:Hr; [done| |done]. intros [= <-].
    split; [by apply try_secrets_Some|]. by split_and!.
Qed.

(** Claims the parser accepts at time [at] (claim times are whole seconds):
    the expected issuer, started, not expired. *)
Definition in_force (at_ : Z) (c : Claims) : Prop :=
  cl_issuer c = Issuer /\ (cl_not_before c <= at_ < cl_expires_at c)%Z.

(** The library's documented behaviour at time [at_]: a token verifies only
    under the secret that signed it; claims in force then come back as they
    were signed, claims not in force are refused; a token is never the empty
    string. *)
Class JwtLibrary (at_ : Z) : Prop := {
  jwt_roundtrip : forall s c, in_force at_ c -> ParseWithClaims s (SignedString s c) = Some c;
  jwt_in_force : forall s c, ~ in_force at_ c -> ParseWithClaims s (SignedString s c) = None;
  jwt_unforgeable : forall s s' c, s <> s' -> ParseWithClaims s' (SignedString s c) = None;
  jwt_nonempty : forall s c, is_empty (SignedString s c) = false;
}.

Lemma try_secrets_signed at_ `{!JwtLibrary at_} l s c :
  s ∈ l -> in_force at_ c -> try_secrets l (SignedString s c) = Some c.
Proof.
  intros Hin Hi. induction l as [|s' l IH]; [by apply not_elem_of_nil in Hin|].
  simpl. destruct (decide (s = s')) as [<-|Hne].
  - by rewrite (jwt_roundtrip (at_:=at_)).
  - rewrite (jwt_unforgeable (at_:=at_)) by done. apply IH. by apply elem_of_cons in Hin as [->|].
Qed.

Lemma parseCtx_signed at_ `{!JwtLibrary at_} v s c :
  s ∈ secrets v -> in_force at_ c -> cl_sid c <> "" -> cl_sub c <> "" ->
  (cl_id c <> "" -> IsRevoked (revoker v) (cl_id c) = Ok false) ->
  parseCtx v (SignedString s c) = Ok c.
Proof.
  intros Hin Hi Hsid Hsub Hrev. unfold parseCtx. rewrite (jwt_nonempty (at_:=at_)).
  destruct (secrets v) as [|s0 l] eqn:Hs; [by apply not_elem_of_nil in Hin|].
  rewrite (try_secrets_signed at_) by done.
  destruct (String.eqb_spec (cl_sid c) ""); [done|].
  destruct (String.eqb_spec (cl_sub c) ""); [done|].
  destruct (String.eqb_spec (cl_id c) ""); [done|]. simpl. by rewrite Hrev.
Qed.
End verifier.

Arguments JwtLibrary {token} _ _ _ _.
Arguments mkVerifier {R} _ _.

(** C10: what an accepted token is: [Parse] succeeds only for a token that one
    of the configured non-empty secrets verifies, that names a session and a
    subject, and whose id, when it has one, the revocation list was asked about
    and answered "not revoked" (a lookup that fails refuses the token, it does
    not let it in); and no token is both an access and a refresh token. *)
Theorem parse_accepts_only_verified {token R : Type} `{RevocationList R}
    (is_empty : token -> bool) (pwc : string -> token -> option Claims)
    (l : list string) (rev : R) (t : token) :
  (forall c, Parse is_empty pwc (NewVerifierWithSecrets l rev) t = Ok c ->
     (exists s, s ∈ l /\ s <> "" /\ pwc s t = Some c) /\ cl_sid c <> "" /\ cl_sub c <> "" /\
     (cl_id c <> "" -> IsRevoked rev (cl_id c) = Ok false)) /\
  (forall c e, is_empty t = false -> try_secrets pwc (secrets (NewVerifierWithSecrets l rev)) t = Some c ->
     cl_sid c <> "" -> cl_sub c <> "" -> cl_id c <> "" ->
     IsRevoked rev (cl_id c) = Err e ->
     Parse is_empty pwc (NewVerifierWithSecrets l rev) t = Err (ErrRevocationLookup ("auth: revocation lookup: " +:+ e))) /\
  ~ (is_ok (ParseAccess is_empty pwc (NewVerifierWithSecrets l rev) t) = true /\
     is_ok (ParseRefresh is_empty pwc (NewVerifierWithSecrets l rev) t) = true).
Proof.
  split_and!.
  - intros c Hc. apply parseCtx_Ok in Hc as ((s & Hs & Hp) & Hsid & Hsub & Hr).
    simpl in *. apply list_elem_of_filter in Hs as [Hne Hin]. split_and!; eauto.
  - intros c e He Hp Hsid Hsub Hid Hr. unfold Parse, parseCtx. rewrite He.
    destruct (secrets _) as [|s0 l'] eqn:Hf; [done|]. rewrite Hp.
    rewrite !(proj2 (String.eqb_neq _ _)) by done. simpl. by rewrite Hr.
  - unfold ParseAccess, ParseRefresh. intros [Ha Hr].
    destruct (Parse is_empty pwc (NewVerifierWithSecrets l rev) t) as [c|e]; [|done].
    destruct (String.eqb_spec (cl_kind c) KindRefresh) as [Hk|]; [|done].
    by rewrite Hk in Ha.
Qed.

(** revocation is effective: once a token's id is revoked in any lawful
    list, no verifier over that list accepts the token, under any secret and
    whatever other ids are revoked later. *)
Theorem revoked_token_rejected {token R : Type} `{RevocationLaws R}
    (is_empty : token -> bool) (pwc : string -> token -> option Claims)
    (l : list string) (rev rev' : R) (t : token) (jti : string) (exp : gotime)
    (later : list (string * gotime)) (c : Claims) :
  jti <> "" -> cl_id c = jti -> Revoke rev jti exp = Ok rev' ->
  Parse is_empty pwc
    (NewVerifierWithSecrets l (foldl (fun r je => after_revoke r je.1 je.2) rev' later)) t
  <> Ok c.
Proof.
  intros Hne Hid Hrv Hp. apply parseCtx_Ok in Hp as (_ & _ & _ & Hr). simpl in Hr.
  rewrite Hid in Hr. specialize (Hr Hne).
  assert (forall r, IsRevoked r jti = Ok true ->
    IsRevoked (foldl (fun r je => after_revoke r je.1 je.2) r later) jti = Ok true) as Hkeep.
  { clear -H0 Hne. induction later as [|[j e] later IH]; intros r Hr; [done|]. simpl. apply IH.
    unfold after_revoke. destruct (Revoke r j e) as [r'|] eqn:Hrr; [|done].
    destruct (decide (j = jti)) as [->|Hj]; [by eapply revoke_hit|]. by erewrite revoke_other. }
  rewrite Hkeep in Hr; [done|]. by eapply revoke_hit.
Qed.

(** A toy JWT library at time 10: a token is its secret and its claims. *)
Definition toy_parse (s : string) (t : string * Claims) : option Claims :=
  if String.eqb s t.1 && String.eqb (cl_issuer t.2) Issuer &&
     (cl_not_before t.2 <=? 10)%Z && (10 <? cl_expires_at t.2)%Z then Some t.2 else None.
Definition toy_sign (s : string) (c : Claims) : string * Claims := (s, c).
Definition toy_empty (t : string * Claims) : bool := false.

Lemma toy_jwt : JwtLibrary toy_empty toy_parse toy_sign 10.
Proof.
  split; unfold toy_parse, toy_sign, in_force; simpl; intros *.
  - intros (-> & Hn & He). rewrite !String.eqb_refl. simpl.
    apply Z.leb_le in Hn. apply Z.ltb_lt in He. by rewrite Hn, He.
  - intros Hn. case_match eqn:E; [|done]. boolprop. exfalso. apply Hn.
    split; [by apply String.eqb_eq|lia].
  - intros Hne. destruct (String.eqb_spec s' s); [congruence|done].
  - done.
Qed.

Definition demo_claims : Claims := mkClaims "alice" "s1" [] KindAccess Issuer 0 0 60 "j1".

Lemma revoked_token_rejected_witness :
  Parse toy_empty toy_parse
    (NewVerifierWithSecrets ["k1"] (foldl (fun r je => after_revoke r je.1 je.2)
        (after_revoke (mkMemRev ∅) "j1" None) [("j2", None)])) (toy_sign "k1" demo_claims) <> Ok demo_claims.
Proof. apply (revoked_token_rejected toy_empty toy_parse ["k1"] (mkMemRev ∅) _ _ "j1" None); done. Defined.

(** rotation grace: a token the issuer minted under any non-empty secret
    the verifier still lists is accepted by [ParseAccess] until it expires,
    with exactly its claims, and refused by [ParseRefresh]. *)
Theorem rotated_secret_still_verifies {token R : Type} `{RevocationList R}
    (is_empty : token -> bool) (pwc : string -> token -> option Claims)
    (sign : string -> Claims -> token) (l : list string) (rev : R) (i : IssuerSigner)
    (now at_ : Z) (jti sub sid : string) (scopes : list string) :
  JwtLibrary is_empty pwc sign at_ -> (now <= at_ < now + accessTTL i)%Z -> secret i ∈ l -> secret i <> "" -> sub <> "" -> sid <> "" ->
  IsRevoked rev jti = Ok false ->
  let t := SignAccess sign i now jti sub sid scopes in
  ParseAccess is_empty pwc (NewVerifierWithSecrets l rev) t =
    Ok (mkClaims sub sid scopes KindAccess Issuer now now (now + accessTTL i) jti) /\
  ParseRefresh is_empty pwc (NewVerifierWithSecrets l rev) t = Err ErrWrongKind.
Proof.
  intros HJ Hat Hin Hne Hsub Hsid Hrev t. unfold ParseAccess, ParseRefresh, Parse, t, SignAccess, signKind.
  rewrite (parseCtx_signed is_empty pwc sign at_); simpl; try done.
  - by apply list_elem_of_filter.
Qed.

Lemma rotated_secret_still_verifies_witness :
  let t := SignAccess toy_sign (mkIssuer "old" 60 600) 5 "j" "alice" "s1" [] in
  ParseAccess toy_empty toy_parse (NewVerifierWithSecrets ["new"; "old"] tt) t =
    Ok (mkClaims "alice" "s1" [] KindAccess Issuer 5 5 65 "j") /\
  ParseRefresh toy_empty toy_parse (NewVerifierWithSecrets ["new"; "old"] tt) t = Err ErrWrongKind.
Proof.
  apply (rotated_secret_still_verifies toy_empty toy_parse toy_sign ["new"; "old"] tt
           (mkIssuer "old" 60 600) 5 10 "j" "alice" "s1" [] toy_jwt); try done.
  apply list_elem_of_further, list_elem_of_here.
Defined.
