(* ===== verification/Paths.v ===== *)
(** * Lexical paths

    Facts about [Clean], [Join2] and prefix containment that the workspace
    engine (internal/fsops) and the worker pool (internal/middleware) share:
    cleaning a relative path leaves only plain components below leading [..]
    components, and joining a clean relative path onto a clean root stays
    inside the root. *)

From S2P Require Import Prelude GoString.

Abbreviation slash := "/"%char.

(** A component without a separator. *)
Fixpoint no_byte (c : ascii) (s : string) : bool :=
  match s with EmptyString => true | String a s' => negb (Ascii.eqb a c) && no_byte c s' end.

(** A component that names a child: not empty, not [.] or [..], no slash. *)
Definition plain (s : string) : Prop :=
  s <> "" /\ s <> "." /\ s <> ".." /\ no_byte slash s = true.

(** [root] is an absolute clean path other than [/]. *)
Definition clean_root (root : string) : Prop :=
  exists cs, cs <> [] /\ Forall plain cs /\ root = "/" +:+ JoinByte slash cs.

(** [target == root || strings.HasPrefix(target+"/", root+"/")] *)
Definition withinRoot (root target : string) : bool :=
  if String.eqb target root then true
  else HasPrefix (target +:+ "/") (root +:+ "/").

(** ** Splitting and joining *)

Lemma no_byte_app c a b : no_byte c (a +:+ b) = no_byte c a && no_byte c b.
Proof. induction a as [|x a IH]; [done|]. rewrite str_app_cons. simpl. by rewrite IH, andb_assoc. Qed.

Lemma Split_no_byte c s : Forall (fun x => no_byte c x = true) (SplitByte c s).
Proof.
  induction s as [|a s IH]; simpl; [by repeat constructor|].
  destruct (Ascii.eqb_spec a c) as [->|Hne]; [by constructor|].
  destruct (SplitByte c s) as [|h r]; [by repeat constructor; simpl; destruct (Ascii.eqb_spec a c)|].
  apply Forall_cons in IH as [Hh Hr]. constructor; [|done]. simpl.
  by destruct (Ascii.eqb_spec a c).
Qed.

Lemma Split_app_sep c a b :
  no_byte c a = true -> SplitByte c (a +:+ String c b) = a :: SplitByte c b.
Proof.
  induction a as [|x a IH]; intros H; [simpl; by rewrite Ascii.eqb_refl|].
  simpl in H. apply andb_true_iff in H as [Hx Ha]. apply negb_true_iff in Hx.
  rewrite str_app_cons. simpl. rewrite Hx. by rewrite IH.
Qed.

Lemma Split_app c a b : SplitByte c (a +:+ String c b) = SplitByte c a ++ SplitByte c b.
Proof.
  induction a as [|x a IH]; [simpl; by rewrite Ascii.eqb_refl|].
  rewrite str_app_cons. simpl. rewrite IH. destruct (Ascii.eqb x c); [done|].
  by destruct (SplitByte c a) eqn:E; [by apply SplitByte_nonempty in E|].
Qed.

Lemma Split_single c a : no_byte c a = true -> SplitByte c a = [a].
Proof.
  induction a as [|x a IH]; intros H; [done|].
  simpl in *. apply andb_true_iff in H as [Hx Ha]. apply negb_true_iff in Hx.
  by rewrite Hx, IH.
Qed.

Lemma Join_cons c x l : l <> [] -> JoinByte c (x :: l) = x +:+ String c (JoinByte c l).
Proof. by destruct l. Qed.

Lemma Split_Join c l :
  l <> [] -> Forall (fun x => no_byte c x = true) l -> SplitByte c (JoinByte c l) = l.
Proof.
  intros Hne Hl. induction Hl as [|x l Hx Hl IH]; [done|].
  destruct l as [|y l]; [by apply Split_single|].
  rewrite Join_cons by done. rewrite Split_app_sep by done. by rewrite IH.
Qed.

Lemma Join_app c l k :
  l <> [] -> k <> [] -> JoinByte c (l ++ k) = JoinByte c l +:+ String c (JoinByte c k).
Proof.
  intros Hl Hk. induction l as [|x l IH]; [done|].
  destruct l as [|y l]; [by apply Join_cons|].
  change ((x :: y :: l) ++ k) with (x :: (y :: l) ++ k).
  rewrite !Join_cons by done. rewrite IH by done. by rewrite <-str_app_assoc, str_app_cons.
Qed.

(** ** The component scan *)

Lemma clean_step_plain r st x : plain x -> clean_step r st x = x :: st.
Proof.
  intros (H1 & H2 & H3 & _). unfold clean_step.
  destruct (String.eqb_spec x ""); [done|]. destruct (String.eqb_spec x "."); [done|].
  by destruct (String.eqb_spec x "..").
Qed.

Lemma foldl_plain r l st : Forall plain l -> foldl (clean_step r) st l = reverse l ++ st.
Proof.
  intros Hl. revert st. induction Hl as [|x l Hx Hl IH]; intros st; [done|].
  simpl. rewrite clean_step_plain by done. rewrite IH. by rewrite reverse_cons, <-app_assoc.
Qed.

(** The stack is plain components above [..]s. *)
Definition stack_ok (st : list string) : Prop :=
  exists ps n, st = ps ++ replicate n ".." /\ Forall plain ps.

Lemma clean_step_ok r st x : stack_ok st -> no_byte slash x = true -> stack_ok (clean_step r st x).
Proof.
  intros (ps & n & -> & Hps) Hx. unfold clean_step.
  destruct (String.eqb_spec x "") as [|H1]; [by exists ps, n|].
  destruct (String.eqb_spec x ".") as [|H2]; [by exists ps, n|]. simpl.
  destruct (String.eqb_spec x "..") as [->|H3].
  - destruct ps as [|p ps]; simpl.
    + destruct n as [|n]; simpl.
      * destruct r; [by exists [], 0|by exists [], 1].
      * by exists [], (S (S n)).
    + apply Forall_cons in Hps as [Hp Hps]. destruct (String.eqb_spec p "..") as [->|].
      * by destruct Hp as (_ & _ & ? & _).
      * by exists ps, n.
  - exists (x :: ps), n. split; [done|]. by constructor.
Qed.

Lemma foldl_clean_ok r l st :
  stack_ok st -> Forall (fun x => no_byte slash x = true) l -> stack_ok (foldl (clean_step r) st l).
Proof.
  intros Hst Hl. revert st Hst. induction Hl as [|x l Hx Hl IH]; intros st Hst; [done|].
  simpl. by apply IH, clean_step_ok.
Qed.

Lemma reverse_stack ps n : reverse (ps ++ replicate n "..") = replicate n ".." ++ reverse ps.
Proof. by rewrite reverse_app, reverse_replicate. Qed.

Lemma clean_comps_shape p :
  exists n ps, clean_comps p = replicate n ".." ++ ps /\ Forall plain ps.
Proof.
  unfold clean_comps.
  destruct (foldl_clean_ok (is_rooted p) (SplitByte slash p) []) as (ps & n & -> & Hps).
  - by exists [], 0.
  - apply Split_no_byte.
  - exists n, (reverse ps). split; [apply reverse_stack|]. by apply Forall_reverse.
Qed.

(** ** Cleaning *)

Lemma Join_empty l : Forall (fun x => x <> "") l -> JoinByte slash l = "" -> l = [].
Proof.
  intros Hl. destruct Hl as [|x l Hx Hl]; [done|]. destruct l as [|y l]; [done|].
  cbn [JoinByte]. destruct x; [done|]. by rewrite str_app_cons.
Qed.

Lemma comps_nonempty n ps : Forall plain ps -> Forall (fun x => x <> "") (replicate n ".." ++ ps).
Proof.
  intros Hps. apply Forall_app. split.
  - by apply Forall_replicate.
  - eapply Forall_impl; [exact Hps|]. by intros x (? & _).
Qed.

(** A relative path that cleans to neither [..] nor something below it consists
    of plain components. *)
Lemma Clean_relative p :
  is_rooted p = false -> Clean p <> ".." -> HasPrefix (Clean p) "../" = false ->
  exists cs, Forall plain cs /\ clean_comps p = cs /\
    Clean p = if decide (cs = []) then "." else JoinByte slash cs.
Proof.
  intros Hr Hdd Hpre. destruct (clean_comps_shape p) as (n & ps & Hc & Hps).
  assert (Hclean : Clean p = if decide (clean_comps p = []) then "." else JoinByte slash (clean_comps p)).
  { unfold Clean. rewrite Hr. destruct (String.eqb_spec (JoinByte slash (clean_comps p)) "") as [He|He].
    - rewrite decide_True; [done|]. apply Join_empty; [|done]. rewrite Hc. by apply comps_nonempty.
    - rewrite decide_False; [done|]. intros Hn. by rewrite Hn in He. }
  destruct n as [|n].
  - exists ps. rewrite Hc in *. by split_and!.
  - exfalso. rewrite Hc in Hclean. rewrite decide_False in Hclean by done.
    change (replicate (S n) ".." ++ ps) with (".." :: replicate n ".." ++ ps) in Hclean.
    destruct (replicate n ".." ++ ps) as [|y l] eqn:E.
    + by apply Hdd.
    + rewrite Hclean in Hpre. rewrite Join_cons in Hpre by done.
      change ("../") with (".." +:+ "/") in Hpre. simpl in Hpre.
      apply not_true_iff_false in Hpre. apply Hpre, HasPrefix_app. by eexists.
Qed.

Lemma is_rooted_app s : is_rooted ("/" +:+ s) = true.
Proof. unfold is_rooted. apply HasPrefix_refl_app. Qed.

(** An absolute path made of plain components is clean. *)
Lemma Clean_plain_abs cs :
  cs <> [] -> Forall plain cs -> Clean ("/" +:+ JoinByte slash cs) = "/" +:+ JoinByte slash cs.
Proof.
  intros Hne Hcs. unfold Clean. rewrite is_rooted_app. do 2 f_equal.
  unfold clean_comps. rewrite is_rooted_app.
  change ("/" +:+ JoinByte slash cs) with (String slash (JoinByte slash cs)).
  cbn [SplitByte]. rewrite Ascii.eqb_refl.
  rewrite Split_Join; [|done|].
  - cbn [foldl]. rewrite foldl_plain by done. rewrite app_nil_r. apply reverse_involutive.
  - eapply Forall_impl; [exact Hcs|]. by intros x (_ & _ & _ & ?).
Qed.

Lemma Clean_abs_app cs ds tail :
  cs <> [] -> Forall plain cs -> Forall plain ds ->
  Forall (fun x => no_byte slash x = true) tail ->
  (forall st, foldl (clean_step true) st tail = reverse ds ++ st) -> tail <> [] ->
  Clean (("/" +:+ JoinByte slash cs) +:+ String slash (JoinByte slash tail)) =
  "/" +:+ JoinByte slash (cs ++ ds).
Proof.
  intros Hne Hcs Hds Htl Hfold Htne. rewrite <-str_app_assoc.
  rewrite <-Join_app by done. unfold Clean. rewrite is_rooted_app. do 2 f_equal.
  unfold clean_comps. rewrite is_rooted_app.
  change ("/" +:+ JoinByte slash (cs ++ tail)) with (String slash (JoinByte slash (cs ++ tail))).
  cbn [SplitByte]. rewrite Ascii.eqb_refl. rewrite Split_Join.
  - cbn [foldl]. rewrite foldl_app, (foldl_plain true cs) by done. rewrite Hfold, app_nil_r.
    by rewrite <-reverse_app, reverse_involutive.
  - by destruct cs.
  - apply Forall_app. split; [|done]. eapply Forall_impl; [exact Hcs|]. by intros x (_ & _ & _ & ?).
Qed.

Lemma withinRoot_spec root t :
  withinRoot root t = true <-> t = root \/ exists s, t = root +:+ String slash s.
Proof.
  unfold withinRoot. destruct (String.eqb_spec t root) as [->|Hne]; [tauto|].
  rewrite HasPrefix_app. split.
  - intros [u Hu]. right. change ("/") with (String slash "") in Hu. revert Hne Hu.
    clear. revert t. induction root as [|c root IH]; intros [|d t] Hne Hu;
      rewrite ?str_app_nil_l, ?str_app_cons in Hu; simplify_eq/=.
    + by exists t.
    + by destruct root.
    + destruct (IH t) as [s ->]; [congruence|done|]. by exists s.
  - intros [->|[s ->]]; [done|]. exists (s +:+ "/"). change ("/") with (String slash "").
    by rewrite <-!str_app_assoc, !str_app_cons, str_app_nil_l.
Qed.

(** Joining a clean relative path onto a clean root appends its components. *)
Lemma Join2_comps cs p :
  cs <> [] -> Forall plain cs -> is_rooted p = false -> Clean p <> ".." -> HasPrefix (Clean p) "../" = false ->
  exists ds, Forall plain ds /\ Clean p = (if decide (ds = []) then "." else JoinByte slash ds) /\
    Join2 ("/" +:+ JoinByte slash cs) (Clean p) = "/" +:+ JoinByte slash (cs ++ ds).
Proof.
  intros Hne Hcs Hr Hdd Hpre.
  destruct (Clean_relative p Hr Hdd Hpre) as (ds & Hds & _ & Hcl). exists ds. split_and!; try done. rewrite Hcl.
  unfold Join2. rewrite (proj2 (String.eqb_neq _ _)) by done.
  destruct (decide (ds = [])) as [->|Hdn].
  - change (String.eqb "." "") with false. cbv iota.
    change "." with (JoinByte slash ["."]) at 1.
    by rewrite (Clean_abs_app cs [] ["."]); try done; repeat constructor.
  - assert (JoinByte slash ds <> "") as Hnz.
    { intros Hz. apply Hdn, Join_empty; [|done]. by apply (comps_nonempty 0). }
    rewrite (proj2 (String.eqb_neq _ _)) by done.
    rewrite (Clean_abs_app cs ds ds); try done.
    + eapply Forall_impl; [exact Hds|]. by intros x (_ & _ & _ & ?).
    + intros st. by apply foldl_plain.
Qed.

Lemma LastIndexByte_app a c b : no_byte c b = true -> LastIndexByte (a +:+ String c b) c = Some (String.length a).
Proof.
  intros Hb. induction a as [|x a IH].
  - simpl. assert (LastIndexByte b c = None) as ->; [|by rewrite Ascii.eqb_refl].
    induction b as [|y b IH]; [done|]. simpl in *. apply andb_true_iff in Hb as [Hy Hb].
    rewrite (IH Hb). by destruct (Ascii.eqb y c).
  - rewrite str_app_cons. simpl. by rewrite IH.
Qed.

(** The parent of an absolute clean path. *)
Lemma Dir_snoc cs c :
  cs <> [] -> Forall plain cs -> plain c ->
  Dir ("/" +:+ JoinByte slash (cs ++ [c])) = "/" +:+ JoinByte slash cs.
Proof.
  intros Hne Hcs (_ & _ & _ & Hc). rewrite Join_app by done. rewrite str_app_assoc. simpl (JoinByte slash [c]).
  unfold Dir. rewrite LastIndexByte_app by done.
  assert (str_take (S (String.length ("/" +:+ JoinByte slash cs))) (("/" +:+ JoinByte slash cs) +:+ String slash c) =
    ("/" +:+ JoinByte slash cs) +:+ String slash "") as ->.
  { generalize ("/" +:+ JoinByte slash cs). intros s. induction s as [|x s IH]; [by destruct c|].
    rewrite !str_app_cons. cbn [String.length]. by rewrite <-IH. }
  pose proof (Clean_abs_app cs [] [""]) as H. rewrite app_nil_r in H. apply H; by repeat constructor.
Qed.

(** ** Lines *)

Lemma Index_byte_None s c : Index s (String c "") = None -> no_byte c s = true.
Proof.
  induction s as [|a s IH]; simpl; [done|]. unfold HasPrefix. rewrite (Ascii.eqb_sym c a).
  destruct (Ascii.eqb a c); [by destruct s|]. simpl. destruct (Index s (String c "")); [done|]. auto.
Qed.

Lemma Index_byte_first s c i : Index s (String c "") = Some i -> no_byte c (str_take i s) = true.
Proof.
  revert i. induction s as [|a s IH]; intros i; simpl; [done|]. unfold HasPrefix. rewrite (Ascii.eqb_sym c a).
  destruct (Ascii.eqb a c) eqn:E; [destruct s; by intros [= <-]|].
  destruct (Index s (String c "")) as [j|]; [|done]. intros [= <-]. simpl. rewrite E. by apply IH.
Qed.

(** [strings.Count(s, "\n")] is one less than the number of lines. *)
Lemma Count_byte_Split s c : S (Count s (String c "")) = length (SplitByte c s).
Proof.
  unfold Count. assert (forall fuel s, String.length s < fuel -> S (Count_fuel fuel s (String c "")) = length (SplitByte c s)) as H.
  { clear s. induction fuel as [|fuel IH]; intros s Hf; [lia|]. cbn [Count_fuel].
    destruct (Index s (String c "")) as [i|] eqn:E.
    - pose proof (Index_Some _ _ _ E) as Hs. pose proof (Index_byte_first _ _ _ E) as Hn.
      pose proof (Index_lt _ _ _ E) as Hi. simpl in Hi.
      rewrite Hs at 2. rewrite str_app_cons, str_app_nil_l.
      rewrite Split_app_sep by done. cbn [length]. f_equal. apply IH.
      rewrite str_length_drop. simpl. lia.
    - by rewrite Split_single by (by apply Index_byte_None). }
  apply H. lia.
Qed.

(** The lines of a concatenation: the last of the first part and the first of
    the second join. *)
Lemma Split_concat c a b :
  exists ia la hb tb, SplitByte c a = ia ++ [la] /\ SplitByte c b = hb :: tb /\
    SplitByte c (a +:+ b) = ia ++ (la +:+ hb) :: tb.
Proof.
  induction a as [|x a (ia & la & hb & tb & Ha & Hb & Hab)].
  - destruct (SplitByte c b) as [|hb tb] eqn:E; [by apply SplitByte_nonempty in E|].
    by exists [], "", hb, tb.
  - rewrite str_app_cons. simpl. rewrite Ha, Hab. destruct (Ascii.eqb x c).
    + by exists ("" :: ia), la, hb, tb.
    + destruct ia as [|i ia]; simpl; [by exists [], (String x la), hb, tb|].
      by exists (String x i :: ia), la, hb, tb.
Qed.

(** The only match: nothing after it matches again. *)
Lemma Count_one s sub :
  sub <> "" -> Count s sub = 1 ->
  exists pre post, s = pre +:+ (sub +:+ post) /\ Index s sub = Some (String.length pre) /\ Index post sub = None.
Proof.
  intros Hne. unfold Count. cbn [Count_fuel]. destruct (Index s sub) as [i|] eqn:E; [|done].
  pose proof (Index_Some _ _ _ E) as Hs. pose proof (Index_lt _ _ _ E) as Hi. intros Hc.
  exists (str_take i s), (str_drop (i + String.length sub) s). split; [done|]. split.
  - f_equal. rewrite str_length_take. lia.
  - destruct s as [|a s]; [by destruct sub|]. cbn [String.length Count_fuel] in Hc.
    by destruct (Index (str_drop (i + String.length sub) (String a s)) sub).
Qed.
