(* ===== verification/Sandbox.v ===== *)
(** * The sandbox package (internal/sandbox)

    runner.go: the runner interface, its chunk stream contract and the session
    id sanitizer (the copy in internal/fsops/engine.go is the same loop).
    mock.go: the default runner.  digest.go: image references.  daemon.go: the
    line splitter of a daemon's output and the daemon registry.

    A stream that a runner sends on a channel is the list of its chunks; the
    point where a [select] takes the context's cancellation instead of a send
    is an argument. *)

From S2P Require Import Prelude GoString Event Paths.

(** ** Errors and chunks *)

(** What [errors.Is] can tell about an error. *)
Inductive err_kind :=
| KBadRequest | KCanceled | KOOM | KImagePull | KDeadlineExceeded | KCtxCanceled | KOther.

#[export] Instance err_kind_eq_dec : EqDecision err_kind.
Proof. solve_decision. Defined.

Record gerror := mkErr { kind : err_kind; emsg : string }.

#[export] Instance gerror_eq_dec : EqDecision gerror.
Proof. solve_decision. Defined.

Inductive stream := StreamStdout | StreamStderr | StreamExit | StreamUnknown (s : string).

#[export] Instance stream_eq_dec : EqDecision stream.
Proof. solve_decision. Defined.

Record ExecChunk := mkChunk {
  Stream : stream;
  Data : string;
  ExitCode : Z;
  ChunkErr : option gerror;
}.

Definition stdout_chunk (d : string) : ExecChunk := mkChunk StreamStdout d 0 None.
Definition stderr_chunk (d : string) : ExecChunk := mkChunk StreamStderr d 0 None.
Definition exit_chunk (code : Z) (e : option gerror) : ExecChunk := mkChunk StreamExit "" code e.

Definition is_output (c : ExecChunk) : bool :=
  match Stream c with StreamStdout | StreamStderr => true | _ => false end.
Definition is_exit (c : ExecChunk) : bool :=
  match Stream c with StreamExit => true | _ => false end.

(** The runner contract: output chunks, then exactly one exit chunk, last. *)
Definition contract (l : list ExecChunk) : Prop :=
  exists out x, l = out ++ [x] /\ is_exit x = true /\ Forall (fun c => is_output c = true) out.

Lemma contract_exit c e : contract [exit_chunk c e].
Proof. by exists [], (exit_chunk c e). Qed.

Lemma contract_snoc out x :
  Forall (fun c => is_output c = true) out -> is_exit x = true -> contract (out ++ [x]).
Proof. intros Ho Hx. by exists out, x. Qed.

Lemma contract_app out l :
  Forall (fun c => is_output c = true) out -> contract l -> contract (out ++ l).
Proof.
  intros Ho (o & x & -> & Hx & Hf). exists (out ++ o), x. rewrite app_assoc. split_and!; try done.
  by apply Forall_app.
Qed.

#[export] Hint Resolve contract_exit contract_snoc contract_app : go.

(** *** Chunking bytes: the loops of emitBytesResult, fetchDocs and the
    apply-and-verify path. *)
Fixpoint chunk_fuel (fuel n : nat) (data : string) : list string :=
  match fuel, data with
  | _, EmptyString => []
  | 0, _ => []
  | S fuel, _ => str_take n data :: chunk_fuel fuel n (str_drop n data)
  end.

(** Each round takes at least one byte. *)
Definition chunk_bytes (n : nat) (data : string) : list string := chunk_fuel (String.length data) n data.

Lemma chunk_fuel_ok fuel n data :
  0 < n -> String.length data <= fuel ->
  str_concat (chunk_fuel fuel n data) = data /\
  Forall (fun s => 0 < String.length s <= n) (chunk_fuel fuel n data).
Proof.
  intros Hn. revert data. induction fuel as [|fuel IH]; intros [|c s] Hl; simpl in Hl; try done; [lia|].
  cbn [chunk_fuel]. destruct (IH (str_drop n (String c s))) as [Hc Hf].
  { rewrite str_length_drop. simpl. lia. }
  split; [|constructor; [|done]].
  - cbn [str_concat foldr]. fold (str_concat (chunk_fuel fuel n (str_drop n (String c s)))).
    rewrite Hc. apply str_take_drop.
  - rewrite str_length_take. simpl. lia.
Qed.

Lemma chunk_bytes_ok n data :
  0 < n -> str_concat (chunk_bytes n data) = data /\
  Forall (fun s => 0 < String.length s <= n) (chunk_bytes n data).
Proof. intros Hn. by apply chunk_fuel_ok. Qed.

(** The chunk loop of a [select] over the output channel and [ctx.Done]:
    [cancel] is the index of the send the cancellation preempts. *)
Definition send_chunks (cancel : option nat) (pieces : list string)
    (on_cancel : list ExecChunk) (rest : list ExecChunk) : list ExecChunk :=
  match cancel with
  | Some k => if k <? length pieces then (stdout_chunk <$> take k pieces) ++ on_cancel
              else (stdout_chunk <$> pieces) ++ rest
  | None => (stdout_chunk <$> pieces) ++ rest
  end.

Lemma stdout_chunks_output l : Forall (fun c => is_output c = true) (stdout_chunk <$> l).
Proof. by apply Forall_fmap, Forall_true. Qed.

Lemma send_chunks_contract cancel pieces a b :
  contract a -> contract b -> contract (send_chunks cancel pieces a b).
Proof.
  intros Ha Hb. unfold send_chunks. repeat case_match; apply contract_app; auto using stdout_chunks_output.
Qed.

#[export] Hint Resolve stdout_chunks_output send_chunks_contract : go.

(** ** The runner interface *)

Record ExecRequest := mkRequest {
  rTool : string;
  rArgs : args;
  WorkingDir : string;
  Timeout : Z;
  rSessionID : string;
  MaxResultBytes : Z;
}.

Class Runner (R : Type) := Exec : R -> option nat -> ExecRequest -> result gerror (list ExecChunk).

Class RunnerContract (R : Type) `{Runner R} : Prop :=
  runner_contract : forall r cancel req l, Exec r cancel req = Ok l -> contract l.

(** *** MockRunner (mock.go) *)

Record MockRunner := mkMock { Script : list ExecChunk; FailExec : option gerror }.

Definition mock_Exec (m : MockRunner) (cancel : option nat) (req : ExecRequest) : result gerror (list ExecChunk) :=
  match FailExec m with
  | Some e => Err e
  | None =>
      let tail := if match last (Script m) with Some c => is_exit c | None => false end
                  then [] else [exit_chunk 0 None] in
      let canceled := [exit_chunk (-1) (Some (mkErr KCanceled "sandbox: canceled"))] in
      Ok (match cancel with
          | Some k => if k <? length (Script m) then take k (Script m) ++ canceled
                      else Script m ++ tail
          | None => Script m ++ tail
          end)
  end.

#[export] Instance mock_runner : Runner MockRunner := mock_Exec.

Definition MockScript (stdout stderr : string) (exitCode : Z) : list ExecChunk :=
  (if String.eqb stdout "" then [] else [stdout_chunk stdout]) ++
  (if String.eqb stderr "" then [] else [stderr_chunk stderr]) ++
  [exit_chunk exitCode None].

(** A canned script whose only exit chunk, if any, is the last. *)
Definition script_ok (l : list ExecChunk) : Prop :=
  Forall (fun c => is_output c = true) l \/ contract l.

Lemma mock_Exec_contract m cancel req l :
  script_ok (Script m) -> mock_Exec m cancel req = Ok l -> contract l.
Proof.
  unfold mock_Exec. destruct (FailExec m); [done|]. intros Hs [= <-].
  assert (Hfull : contract (Script m ++ if match last (Script m) with Some c => is_exit c | None => false end
                  then [] else [exit_chunk 0 None])).
  { destruct Hs as [Ho|(o & x & -> & Hx & Ho)].
    - destruct (last (Script m)) as [c|] eqn:Hl; [|auto with go].
      apply last_Some_elem_of in Hl. assert (is_output c = true) as Hc by by eapply Forall_forall in Ho.
      assert (is_exit c = false) as -> by (unfold is_output, is_exit in *; by destruct (Stream c)).
      by apply contract_snoc.
    - rewrite last_snoc, Hx, app_nil_r. by apply contract_snoc. }
  destruct cancel as [k|]; [|done]. destruct (k <? length (Script m)) eqn:Hk; [|done]. boolprop.
  apply contract_app; [|auto with go].
  destruct Hs as [Ho|(o & x & Hl & Hx & Ho)]; [by apply Forall_take|].
  rewrite Hl in *. rewrite length_app in Hk. simpl in Hk.
  rewrite take_app_le by lia. by apply Forall_take.
Qed.

(** ** sanitizeSID *)

Definition sid_byte_ok (c : ascii) : bool :=
  is_lower c || is_upper c || is_digit c || Ascii.eqb c "-" || Ascii.eqb c "_" || Ascii.eqb c ".".

(** One iteration; [b] is the output so far, newest byte first. *)
Definition sid_step (b : list ascii) (c : ascii) : list ascii :=
  if sid_byte_ok c then
    match b with
    | last :: b' => if Ascii.eqb c "." && Ascii.eqb last "." then "_"%char :: "_"%char :: b'
                    else c :: b
    | [] => c :: b
    end
  else "_"%char :: b.

Fixpoint sid_loop (b : list ascii) (sid : string) : list ascii :=
  match sid with
  | EmptyString => b
  | String c rest => if length b <? 64 then sid_loop (sid_step b c) rest else b
  end.

Definition string_of_rev (b : list ascii) : string := foldl (fun s c => String c s) EmptyString b.

Definition sanitizeSID (sid : string) : string := string_of_rev (sid_loop [] sid).

(** Output bytes are path-safe and never [..]. *)
Fixpoint sid_out_ok (b : list ascii) : Prop :=
  match b with
  | [] => True
  | c :: b' => sid_byte_ok c = true /\
               match b' with d :: _ => ~ (c = "."%char /\ d = "."%char) | [] => True end /\ sid_out_ok b'
  end.

Lemma sid_step_ok b c : sid_out_ok b -> sid_out_ok (sid_step b c) /\ length (sid_step b c) = S (length b).
Proof.
  unfold sid_step. intros Hb. destruct (sid_byte_ok c) eqn:Hc.
  - destruct b as [|d b]; [done|].
    destruct (Ascii.eqb_spec c ".") as [->|Hn]; simpl; [destruct (Ascii.eqb_spec d ".") as [->|Hd]|]; simpl.
    + destruct Hb as (_ & _ & Hb'). split; [|done]. split_and!; try done.
      * by intros [? _].
      * destruct b; [done|]. by intros [? _].
    + split; [|done]. split_and!; try done; [|apply Hb..]. by intros [_ ?].
    + split; [|done]. split_and!; try done; [|apply Hb..]. by intros [? _].
  - split; [|done]. split_and!; try done. destruct b; [done|]. by intros [? _].
Qed.

Lemma sid_loop_ok sid b : sid_out_ok b -> length b <= 64 ->
  sid_out_ok (sid_loop b sid) /\ length (sid_loop b sid) <= 64.
Proof.
  revert b. induction sid as [|c sid IH]; intros b Hb Hl; simpl; [done|].
  case_match eqn:E; [|done]. boolprop.
  destruct (sid_step_ok b c Hb) as [H1 H2]. apply IH; [done|lia].
Qed.

Lemma foldl_string_acc b s : foldl (fun s c => String c s) s b = string_of_rev b +:+ s.
Proof.
  revert s. induction b as [|c b IH]; intros s; [done|].
  unfold string_of_rev. simpl. rewrite IH. symmetry. rewrite IH.
  by rewrite <-str_app_assoc.
Qed.

Lemma string_of_rev_cons c b : string_of_rev (c :: b) = string_of_rev b +:+ String c "".
Proof. unfold string_of_rev at 1. simpl. apply foldl_string_acc. Qed.

Lemma string_of_rev_length b : String.length (string_of_rev b) = length b.
Proof. induction b as [|c b IH]; [done|]. rewrite string_of_rev_cons, str_length_app, IH. simpl. lia. Qed.

Lemma string_of_rev_no_slash b : sid_out_ok b -> no_byte slash (string_of_rev b) = true.
Proof.
  induction b as [|c b IH]; [done|]. intros (Hc & _ & Hb).
  rewrite string_of_rev_cons, no_byte_app, IH by done. simpl.
  destruct (Ascii.eqb_spec c slash) as [->|]; done.
Qed.

Lemma string_of_rev_not_dotdot b : sid_out_ok b -> string_of_rev b <> "..".
Proof.
  intros Hb Heq. pose proof (string_of_rev_length b) as Hl. rewrite Heq in Hl.
  destruct b as [|c [|d [|e b]]]; try done. unfold string_of_rev in Heq. simpl in Heq.
  injection Heq as -> ->. destruct Hb as (_ & Hn & _). by apply Hn.
Qed.

Lemma sid_loop_nonempty sid b : b <> [] -> sid_loop b sid <> [].
Proof.
  revert b. induction sid as [|c sid IH]; intros b Hb; simpl; [done|]. case_match; [|done].
  apply IH. unfold sid_step. repeat case_match; done.
Qed.

(** A sanitized id is empty only for the empty id, at most 64 bytes long, a
    single path component, and never [..]. *)
Lemma sanitizeSID_facts sid :
  String.length (sanitizeSID sid) <= 64 /\ no_byte slash (sanitizeSID sid) = true /\
  sanitizeSID sid <> ".." /\ (sanitizeSID sid = "" <-> sid = "").
Proof.
  unfold sanitizeSID. destruct (sid_loop_ok sid [] I) as [Hok Hlen]; [simpl; lia|].
  rewrite string_of_rev_length. split_and!; auto using string_of_rev_no_slash, string_of_rev_not_dotdot.
  split; [|by intros ->]. intros He. destruct sid as [|c sid]; [done|]. exfalso.
  apply (f_equal String.length) in He. rewrite string_of_rev_length in He. simpl in He.
  assert (sid_loop (sid_step [] c) sid <> []) as Hne.
  { apply sid_loop_nonempty. unfold sid_step. by case_match. }
  by destruct (sid_loop (sid_step [] c) sid).
Qed.

(** a session id chosen by the token's holder cannot name a path outside
    its own component: the sanitized id has no separator, is never [..], is at
    most 64 bytes long and is empty only for the empty id. *)
Theorem sanitized_sid_is_one_component (sid : string) :
  String.length (sanitizeSID sid) <= 64 /\ no_byte slash (sanitizeSID sid) = true /\
  sanitizeSID sid <> ".." /\ (sanitizeSID sid = "" <-> sid = "").
Proof. apply sanitizeSID_facts. Qed.

(** ** Image references (digest.go) *)

Definition is_hex_byte (c : ascii) : bool := is_digit c || in_range c 97 102 || in_range c 65 70.

Definition isHex (s : string) : bool := all_bytes is_hex_byte s.

Inductive image_error := ErrDigestAlgorithm | ErrDigestHex.

Definition ParseImageRef (ref : string) : result image_error (string * string * string) :=
  if String.eqb ref "" then Ok ("", "", "")
  else
    let split_digest : result image_error (string * string) :=
      match LastIndexByte ref "@" with
      | None => Ok (ref, "")
      | Some at_ =>
          let digest := str_drop (S at_) ref in
          let rest := str_take at_ ref in
          if negb (HasPrefix digest "sha256:") then Err ErrDigestAlgorithm
          else
            let hex := TrimPrefix digest "sha256:" in
            if (String.length hex <? 32) || negb (isHex hex) then Err ErrDigestHex
            else Ok (rest, digest)
      end in
    match split_digest with
    | Err e => Err e
    | Ok (rest, digest) =>
        (* the last ':' after the last '/' *)
        let base := match LastIndexByte rest "/" with Some i => S i | None => 0 end in
        match LastIndexByte (str_drop base rest) ":" with
        | Some j => Ok (str_take (base + j) rest, str_drop (S (base + j)) rest, digest)
        | None => Ok (rest, "", digest)
        end
    end.

Definition HasDigest (ref : string) : bool :=
  match ParseImageRef ref with
  | Ok (_, _, digest) => negb (String.eqb digest "")
  | Err _ => false
  end.

Definition MatchesRepoDigest (repoDigests : list string) (expected : string) : bool :=
  if String.eqb expected "" then true
  else
    let want := ToLower expected in
    existsb (fun rd => match LastIndexByte rd "@" with
                       | None => false
                       | Some at_ => String.eqb (ToLower (str_drop (S at_) rd)) want
                       end) repoDigests.

Lemma LastIndexByte_Some s c i :
  LastIndexByte s c = Some i -> s = str_take i s +:+ String c (str_drop (S i) s) /\ no_byte c (str_drop (S i) s) = true.
Proof.
  revert i. induction s as [|a s IH]; intros i; simpl; [done|].
  destruct (LastIndexByte s c) as [j|] eqn:E.
  - intros [= <-]. destruct (IH j eq_refl) as [H1 H2]. split; [|done].
    simpl. rewrite str_app_cons. by f_equal.
  - destruct (Ascii.eqb_spec a c) as [->|]; [|done]. intros [= <-]. simpl.
    split; [by destruct s|]. clear IH. assert (no_byte c s = true) as Hs.
    { revert E. induction s as [|b s IH]; simpl; [done|].
      destruct (LastIndexByte s c); [done|]. destruct (Ascii.eqb_spec b c); [done|]. auto. }
    by destruct s.
Qed.

Lemma str_take_add n m s : str_take (n + m) s = str_take n s +:+ str_take m (str_drop n s).
Proof.
  revert s. induction n as [|n IH]; intros s; [done|]. destruct s as [|c s]; simpl; [by destruct m|].
  rewrite str_app_cons. by rewrite IH.
Qed.

Lemma no_byte_drop c n s : no_byte c s = true -> no_byte c (str_drop n s) = true.
Proof.
  revert s. induction n as [|n IH]; intros [|a s] H; simpl in *; auto.
  apply andb_true_iff in H as [_ H]. auto.
Qed.

Lemma LastIndexByte_None s c : LastIndexByte s c = None -> no_byte c s = true.
Proof.
  induction s as [|a s IH]; simpl; [done|]. destruct (LastIndexByte s c); [done|].
  destruct (Ascii.eqb_spec a c); [done|]. simpl. auto.
Qed.

(** an image reference is taken apart without loss: it is the name, the
    tag behind a colon and the digest behind an at-sign; a tag never contains a
    slash (a registry port is not a tag) and a digest is [sha256:] followed by
    at least 32 hexadecimal digits. *)
Theorem image_ref_decomposes (ref name tag digest : string) :
  ParseImageRef ref = Ok (name, tag, digest) ->
  exists t d, ref = name +:+ (t +:+ d) /\
    (t = "" /\ tag = "" \/ t = String ":" tag /\ no_byte slash tag = true) /\
    (d = "" /\ digest = "" \/
     d = String "@" digest /\ exists hex, digest = "sha256:" +:+ hex /\ 32 <= String.length hex /\ isHex hex = true).
Proof.
  unfold ParseImageRef. destruct (String.eqb_spec ref "") as [->|Hne].
  { intros [= <- <- <-]. exists "", "". split; [done|]. auto. }
  intros Hparse.
  assert (exists rest d, ref = rest +:+ d /\
    (d = "" /\ digest = "" \/ d = String "@" digest /\
       exists hex, digest = "sha256:" +:+ hex /\ 32 <= String.length hex /\ isHex hex = true) /\
    (match LastIndexByte (str_drop (match LastIndexByte rest "/" with Some i => S i | None => 0 end) rest) ":" with
        | Some j => Ok (str_take (match LastIndexByte rest "/" with Some i => S i | None => 0 end + j) rest,
                        str_drop (S (match LastIndexByte rest "/" with Some i => S i | None => 0 end + j)) rest, digest)
        | None => Ok (rest, "", digest)
        end = Ok (E:=image_error) (name, tag, digest))) as (rest & d & Href & Hd & Htag).
  { destruct (LastIndexByte ref "@") as [at_|] eqn:Hat.
    - destruct (HasPrefix (str_drop (S at_) ref) "sha256:") eqn:Hp; [|done].
      destruct (_ || _) eqn:Hx in Hparse; [done|]. cbn [negb] in Hparse. boolprop.
      assert (digest = str_drop (S at_) ref) as ->
        by (destruct (LastIndexByte (str_drop _ (str_take at_ ref)) ":") in Hparse; congruence).
      exists (str_take at_ ref), (String "@" (str_drop (S at_) ref)).
      split; [by apply LastIndexByte_Some|]. split; [|done]. right. split; [done|].
      unfold TrimPrefix in *. rewrite Hp in *. apply HasPrefix_app in Hp as [hex Hhex].
      rewrite Hhex in *. rewrite str_drop_app_length in *. exists hex. split_and!; try done.
    - assert (digest = "") as ->
        by (destruct (LastIndexByte (str_drop _ ref) ":") in Hparse; congruence).
      exists ref, "". rewrite str_app_nil_r. split; [done|]. split; [by left|done]. }
  destruct (LastIndexByte (str_drop _ rest) ":") as [j|] eqn:Hj in Htag; simplify_eq.
  - set (base := match LastIndexByte rest "/" with Some i => S i | None => 0 end) in *.
    destruct (LastIndexByte_Some _ _ _ Hj) as [Hs _].
    exists (String ":" (str_drop (S (base + j)) rest)), d. split_and!; try done.
    + rewrite str_app_assoc. f_equal. rewrite str_take_add, <-str_app_assoc.
      rewrite <-(str_take_drop base rest) at 1. f_equal.
      rewrite Hs at 1. by rewrite str_drop_drop, Nat.add_succ_r.
    + right. split; [done|]. change (no_byte slash (str_drop (S (base + j)) rest) = true).
      rewrite <-Nat.add_succ_r, <-str_drop_drop. apply no_byte_drop.
      unfold base. destruct (LastIndexByte rest "/") as [i|] eqn:Hi.
      * by apply LastIndexByte_Some in Hi as [_ ?].
      * by apply LastIndexByte_None.
  - exists "", d. split_and!; try done. by left.
Qed.

Lemma image_ref_decomposes_witness :
  exists t d, "localhost:5000/foo:1.2" = "localhost:5000/foo" +:+ (t +:+ d) /\
    (t = "" /\ "1.2" = "" \/ t = String ":" "1.2" /\ no_byte slash "1.2" = true) /\
    (d = "" /\ "" = "" \/
     d = String "@" "" /\ exists hex, "" = "sha256:" +:+ hex /\ 32 <= String.length hex /\ isHex hex = true).
Proof. apply (image_ref_decomposes "localhost:5000/foo:1.2" "localhost:5000/foo" "1.2" ""). vm_compute. reflexivity. Defined.
