(* ===== verification/Daemon.v ===== *)
(** * Host daemons (internal/sandbox/daemon.go)

    The reader of a daemon's output pipe (the capped line splitter driven by a
    [bufio.Scanner], the non-blocking send) and the registry of running daemons.

    The pipe is the list of reads the scanner gets, and a daemon that was
    signalled is recorded in the registry's [signalled] list; the process itself
    (start, reaper, signals) is Process.v. *)

From S2P Require Import Prelude GoString Event Sandbox.

Definition daemonLineCap : nat := 16 * 1024.
Definition daemonScanBuf : nat := 64 * 1024.
Definition daemonChanBuf : nat := 256.

Definition LF : ascii := ascii_of_nat 10.
Definition CR : ascii := ascii_of_nat 13.

Record LogLine := mkLog {
  ll_stream : option stream;
  ll_data : string;
  ll_closed : bool;
  ll_exit : Z;
  ll_reason : string;
}.

(** [bytes.IndexByte]. *)
Fixpoint IndexByte (s : string) (c : ascii) : option nat :=
  match s with
  | EmptyString => None
  | String a s' => if Ascii.eqb a c then Some 0 else S <$> IndexByte s' c
  end.

(** [b[len(b)-1] == '\r']: strip it. *)
Fixpoint dropCR (b : string) : string :=
  match b with
  | EmptyString => EmptyString
  | String c EmptyString => if Ascii.eqb c CR then EmptyString else b
  | String c b' => String c (dropCR b')
  end.

(** [cappedSplitter.split]: [None] asks the scanner for more data; otherwise the
    advance, the token and the [capped] field left behind. *)
Definition split (max : nat) (data : string) (atEOF : bool) : option (nat * string * bool) :=
  if atEOF && (String.length data =? 0) then None
  else
    let rest :=
      if max <=? String.length data then Some (max, str_take max data, true)
      else if atEOF then Some (String.length data, dropCR data, false)
      else None in
    match IndexByte data LF with
    | Some i => if i <=? max then Some (S i, dropCR (str_take i data), false) else rest
    | None => rest
    end.

(** What one [Scan] consumed and what it yielded. *)
Record piece := mkPiece { raw : string; token : string; capped : bool }.

(** The [Scan] loop over the reads of the pipe: [ScanTooLong] is the scanner's
    ErrTooLong (the buffer is full and the splitter asks for more). *)
Inductive scan_end := ScanEOF | ScanTooLong | ScanFuel.

Fixpoint scan (fuel max bufsize : nat) (buf : string) (reads : list string) : list piece * scan_end :=
  match fuel with
  | O => ([], ScanFuel)
  | S fuel =>
      let atEOF := match reads with [] => true | _ => false end in
      match (if (String.length buf =? 0) && negb atEOF then None else split max buf atEOF) with
      | Some (adv, tok, cp) =>
          let '(ps, e) := scan fuel max bufsize (str_drop adv buf) reads in
          (mkPiece (str_take adv buf) tok cp :: ps, e)
      | None =>
          match reads with
          | [] => ([], ScanEOF)
          | r :: rs =>
              if bufsize <=? String.length buf then ([], ScanTooLong)
              else scan fuel max bufsize (buf +:+ r) rs
          end
      end
  end.

Definition scan_fuel (reads : list string) : nat :=
  S (String.length (str_concat reads) + length reads).

(** The lines [scanPipe] forwards, before the channel. *)
Definition scan_lines (st : stream) (ps : list piece) : list LogLine :=
  (fun p => mkLog (Some st) (token p) false 0 (if capped p then "line_cap" else "")) <$> ps.

(** [sendLine]: the channel's queue and the [overflowed] flag. *)
Definition sendLine (cap : nat) (lines : list LogLine) (overflowed : bool) (ll : LogLine) : list LogLine * bool :=
  if length lines <? cap then (lines ++ [ll], false)
  else if negb overflowed
       then let marker := mkLog (ll_stream ll) "" false 0 "buffer_overflow" in
            ((if length lines <? cap then lines ++ [marker] else lines), true)
       else (lines, overflowed).

(** [exitCodeOf]: the error of [cmd.Wait], an [ExitError]'s code inside. *)
Definition exitCodeOf (waitErr : option (option Z)) : Z :=
  match waitErr with
  | None => 0
  | Some (Some code) => code
  | Some None => -1
  end.

(** ** The splitter *)

Lemma IndexByte_Some s c i :
  IndexByte s c = Some i -> s = str_take i s +:+ String c (str_drop (S i) s).
Proof.
  revert i. induction s as [|a s IH]; intros i; simpl; [done|].
  destruct (Ascii.eqb_spec a c) as [->|].
  - intros [= <-]. simpl. by destruct s.
  - destruct (IndexByte s c) as [j|]; [|done]. intros [= <-]. simpl.
    rewrite str_app_cons. f_equal. by apply IH.
Qed.

Lemma dropCR_spec b : b = dropCR b \/ b = dropCR b +:+ String CR "".
Proof.
  induction b as [|c b IH]; [by left|]. destruct b as [|d b].
  - simpl. destruct (Ascii.eqb_spec c CR) as [->|]; [by right|by left].
  - change (dropCR (String c (String d b))) with (String c (dropCR (String d b))).
    destruct IH as [<-|IH]; [by left|]. right. rewrite str_app_cons. by f_equal.
Qed.

Lemma dropCR_length b : String.length (dropCR b) <= String.length b.
Proof. destruct (dropCR_spec b) as [H|H]; rewrite H at 2; rewrite ?str_length_app; lia. Qed.

(** What the consumer can rebuild of a piece. *)
Definition piece_ok (max : nat) (p : piece) : Prop :=
  String.length (token p) <= max /\
  (if capped p then raw p = token p /\ String.length (raw p) = max
   else exists cr lf, raw p = token p +:+ (cr +:+ lf) /\ cr ∈ [""; String CR ""] /\ lf ∈ [""; String LF ""]).

Lemma dropCR_ok b lf : lf ∈ [""; String LF ""] ->
  exists cr lf', b +:+ lf = dropCR b +:+ (cr +:+ lf') /\ cr ∈ [""; String CR ""] /\ lf' ∈ [""; String LF ""].
Proof.
  intros Hlf. destruct (dropCR_spec b) as [H|H].
  - exists "", lf. split; [by rewrite <-H|]. split; [set_solver|done].
  - exists (String CR ""), lf. split; [by rewrite str_app_assoc, <-H|]. split; [set_solver|done].
Qed.

Lemma split_ok max data atEOF adv tok cp :
  0 < max -> split max data atEOF = Some (adv, tok, cp) ->
  0 < adv <= String.length data /\ piece_ok max (mkPiece (str_take adv data) tok cp).
Proof.
  intros Hmax. unfold split. destruct (atEOF && _) eqn:E0; [done|].
  assert ((if max <=? String.length data then Some (max, str_take max data, true)
      else if atEOF then Some (String.length data, dropCR data, false)
      else None) = Some (adv, tok, cp) ->
      0 < adv <= String.length data /\ piece_ok max (mkPiece (str_take adv data) tok cp)) as Hrest.
  { destruct (max <=? String.length data) eqn:E1; boolprop.
    - intros [= <- <- <-]. split; [lia|]. split; simpl; rewrite str_length_take; [lia|]. split; [done|lia].
    - destruct atEOF; [|done]. simpl in E0. apply Nat.eqb_neq in E0. intros [= <- <- <-].
      split; [lia|]. split; simpl; [pose proof (dropCR_length data); lia|].
      rewrite str_take_all by lia. destruct (dropCR_ok data "") as (cr & lf & H & ?); [set_solver|].
      exists cr, lf. by rewrite str_app_nil_r in H. }
  destruct (IndexByte data LF) as [i|] eqn:Ei; [|done].
  destruct (i <=? max) eqn:E2; [|done]. boolprop. intros [= <- <- <-].
  pose proof (IndexByte_Some _ _ _ Ei) as Hd.
  assert (String.length data = i `min` String.length data + S (String.length data - S i)) as Hl.
  { rewrite Hd at 1. rewrite str_length_app, str_length_take. simpl.
    destruct data; simpl; [done|]. by rewrite str_length_drop. }
  split; [lia|]. split; simpl.
  - pose proof (dropCR_length (str_take i data)) as H. rewrite str_length_take in H. lia.
  - assert (str_take (S i) data = str_take i data +:+ String LF "") as ->.
    { rewrite Hd at 1. clear -Hl. assert (String.length (str_take i data) = i) as Hi by (rewrite str_length_take; lia).
      revert Hi. generalize (str_take i data) as a, (str_drop (S i) data) as b. clear.
      intros a b <-. induction a as [|c a IH]; [done|].
      rewrite !str_app_cons. cbn [String.length]. by rewrite <-IH. }
    apply dropCR_ok. set_solver.
Qed.

(** The splitter never starves: once [max] bytes are buffered it yields. *)
Lemma split_None max data atEOF :
  split max data atEOF = None -> String.length data < max \/ (atEOF = true /\ data = "").
Proof.
  unfold split. destruct (atEOF && _) eqn:E0.
  { boolprop. apply Nat.eqb_eq in H0. intros _. right. by destruct data. }
  destruct (IndexByte data LF) as [i|]; [destruct (i <=? max); [done|]|];
    destruct (max <=? String.length data) eqn:E1; try done; boolprop; auto.
Qed.

Lemma split_EOF max data : split max data true = None -> data = "".
Proof.
  unfold split. destruct (true && _) eqn:E0.
  { simpl in E0. apply Nat.eqb_eq in E0. by destruct data. }
  destruct (IndexByte data LF) as [i|]; [destruct (i <=? max); [done|]|];
    by destruct (max <=? String.length data).
Qed.

Lemma scan_ok fuel max bufsize buf reads :
  0 < max <= bufsize ->
  String.length buf + String.length (str_concat reads) + length reads < fuel ->
  exists ps, scan fuel max bufsize buf reads = (ps, ScanEOF) /\
    str_concat (raw <$> ps) = buf +:+ str_concat reads /\ Forall (piece_ok max) ps.
Proof.
  intros Hmax. revert buf reads. induction fuel as [|fuel IH]; intros buf reads Hf; [lia|]. simpl.
  destruct (if _ && _ then None else _) as [[[adv tok] cp]|] eqn:Hs.
  - assert (split max buf match reads with [] => true | _ => false end = Some (adv, tok, cp)) as Hsp
      by (destruct (_ && _) in Hs; done). clear Hs.
    apply split_ok in Hsp as [Hadv Hp]; [|lia].
    destruct (IH (str_drop adv buf) reads) as (ps & -> & Hraw & Hall).
    { rewrite str_length_drop. lia. }
    eexists. split; [done|]. split; [|by constructor].
    rewrite fmap_cons, str_concat_cons. cbn [raw]. rewrite Hraw, str_app_assoc, str_take_drop. done.
  - destruct reads as [|r rs]; simpl in *.
    + rewrite andb_false_r in Hs. apply split_EOF in Hs as ->. exists []. by repeat split.
    + assert (String.length buf < max) as Hlt.
      { destruct (String.length buf =? 0) eqn:E0; simpl in Hs.
        - apply Nat.eqb_eq in E0. lia.
        - by apply split_None in Hs as [?|[? _]]. }
      destruct (Nat.leb_spec bufsize (String.length buf)); [lia|].
      rewrite str_length_app in Hf.
      destruct (IH (buf +:+ r) rs) as (ps & -> & Hraw & Hall).
      { rewrite str_length_app. lia. }
      exists ps. split; [done|]. split; [|done]. by rewrite Hraw, str_app_assoc.
Qed.

(** reading a daemon's output is total and lossless: however the pipe
    splits the output into reads, the scan loop ends at end of file (never with
    ErrTooLong), the pieces it consumed concatenate to the whole output, and
    every line it yields is at most 16 KiB and equals its piece up to the
    line terminator, or is a full-length slice marked as capped. *)
Theorem daemon_output_lossless (reads : list string) :
  exists ps, scan (scan_fuel reads) daemonLineCap daemonScanBuf "" reads = (ps, ScanEOF) /\
    str_concat (raw <$> ps) = str_concat reads /\ Forall (piece_ok daemonLineCap) ps.
Proof.
  apply (scan_ok (scan_fuel reads) daemonLineCap daemonScanBuf "" reads).
  - unfold daemonLineCap, daemonScanBuf. lia.
  - unfold scan_fuel. simpl. lia.
Qed.

(** The slice boundary depends on how the pipe delivers the bytes: a line of
    exactly [max] bytes is one line when its newline arrives with it, and a
    capped slice followed by an empty line when it arrives later. *)
Example split_boundary_depends_on_reads :
  (token <$> (scan 10 3 8 "" ["abc" +:+ String LF ""]).1) = ["abc"] /\
  (token <$> (scan 10 3 8 "" ["abc"; String LF ""]).1) = ["abc"; ""].
Proof. by vm_compute. Qed.

(** ** The registry *)

Record Daemon := mkDaemon {
  d_ID : string;
  d_SessionID : string;
  d_Command : string;
  d_StartedAt : Z;
}.

Record DaemonRegistry := mkRegistry {
  daemons : gmap string Daemon;
  bySID : gmap string (gset string);
  signalled : list Daemon;          (* [Daemon.Stop] calls, oldest first *)
}.

Definition NewDaemonRegistry : DaemonRegistry := mkRegistry ∅ ∅ [].

(** [r.bySID[sid]]: the nil map reads as the empty set. *)
Definition sid_set (r : DaemonRegistry) (sid : string) : gset string := default ∅ (bySID r !! sid).

Definition Register (r : DaemonRegistry) (d : Daemon) : DaemonRegistry :=
  mkRegistry (<[d_ID d := d]> (daemons r))
    (<[d_SessionID d := {[d_ID d]} ∪ sid_set r (d_SessionID d)]> (bySID r)) (signalled r).

Definition GetDaemon (r : DaemonRegistry) (sessionID id : string) : option Daemon :=
  match daemons r !! id with
  | Some d => if String.eqb (d_SessionID d) sessionID then Some d else None
  | None => None
  end.

Definition ListDaemons (r : DaemonRegistry) (sessionID : string) : list Daemon :=
  omap (fun id => daemons r !! id) (elements (sid_set r sessionID)).

Definition stop (r : DaemonRegistry) (d : Daemon) : DaemonRegistry :=
  mkRegistry (daemons r) (bySID r) (signalled r ++ [d]).

Definition unregister (r : DaemonRegistry) (id : string) : DaemonRegistry :=
  match daemons r !! id with
  | None => r
  | Some d =>
      mkRegistry (delete id (daemons r))
        (match bySID r !! d_SessionID d with
         | None => bySID r
         | Some set =>
             let set' := set ∖ {[id]} in
             if decide (set' = ∅) then delete (d_SessionID d) (bySID r)
             else <[d_SessionID d := set']> (bySID r)
         end) (signalled r)
  end.

Definition Stop (r : DaemonRegistry) (sessionID id : string) : DaemonRegistry * bool :=
  match GetDaemon r sessionID id with
  | None => (r, false)
  | Some d => (unregister (stop r d) id, true)
  end.

Definition StopAllForSession (r : DaemonRegistry) (sessionID : string) : DaemonRegistry * nat :=
  let targets := ListDaemons r sessionID in
  (foldl (fun r d => unregister (stop r d) (d_ID d)) r targets, length targets).

(** The two indexes agree. *)
Definition reg_wf (r : DaemonRegistry) : Prop :=
  (forall id d, daemons r !! id = Some d -> d_ID d = id) /\
  (forall sid id, id ∈ sid_set r sid <-> exists d, daemons r !! id = Some d /\ d_SessionID d = sid).

Inductive reg_step : DaemonRegistry -> DaemonRegistry -> Prop :=
| RS_register r d : daemons r !! d_ID d = None -> reg_step r (Register r d)
| RS_unregister r id : reg_step r (unregister r id)
| RS_stop r sid id : reg_step r (Stop r sid id).1
| RS_stop_all r sid : reg_step r (StopAllForSession r sid).1.

Lemma unregister_daemons r id : daemons (unregister r id) = delete id (daemons r).
Proof.
  unfold unregister. destruct (daemons r !! id) eqn:E; [done|]. by rewrite delete_id.
Qed.

Lemma unregister_signalled r id : signalled (unregister r id) = signalled r.
Proof. unfold unregister. by destruct (daemons r !! id). Qed.

Lemma unregister_sid_set r id sid : reg_wf r -> sid_set (unregister r id) sid = sid_set r sid ∖ {[id]}.
Proof.
  intros [_ Hwf]. unfold unregister. destruct (daemons r !! id) as [d|] eqn:E.
  - unfold sid_set in *. cbn [bySID]. destruct (decide (d_SessionID d = sid)) as [<-|Hne].
    + destruct (bySID r !! d_SessionID d) as [set|] eqn:Es; simpl.
      * case_decide as Hd; simpl; rewrite ?lookup_delete_eq, ?lookup_insert_eq; simpl; [by rewrite Hd|done].
      * rewrite Es. set_solver.
    + assert (id ∉ default ∅ (bySID r !! sid)) as Hn.
      { intros Hin. apply Hwf in Hin as (d' & ? & ?). by simplify_eq. }
      destruct (bySID r !! d_SessionID d) as [set|] eqn:Es; simpl; [case_decide|];
        rewrite ?lookup_delete_ne, ?lookup_insert_ne by done; set_solver.
  - assert (id ∉ sid_set r sid); [|set_solver]. intros Hin. apply Hwf in Hin as (d' & ? & ?). congruence.
Qed.

Lemma stop_wf r d : reg_wf r -> reg_wf (stop r d).
Proof. done. Qed.

Lemma Register_wf r d : reg_wf r -> daemons r !! d_ID d = None -> reg_wf (Register r d).
Proof.
  intros [H1 H2] Hnew. split.
  - intros id d'. unfold Register. cbn [daemons]. rewrite lookup_insert_Some. naive_solver.
  - intros sid id. unfold Register, sid_set. cbn [daemons bySID].
    specialize (H2 sid id). unfold sid_set in *.
    destruct (decide (d_SessionID d = sid)) as [<-|Hs].
    + rewrite lookup_insert_eq. simpl. rewrite elem_of_union, elem_of_singleton, H2. split.
      * intros [->|(d' & Hd & Hsd)]; [exists d; by rewrite lookup_insert_eq|].
        exists d'. rewrite lookup_insert_ne by congruence. done.
      * intros (d' & [[<- <-]|[Hne Hd]]%lookup_insert_Some & Hsd); [by left|]. right. by exists d'.
    + rewrite lookup_insert_ne by done. rewrite H2. split.
      * intros (d' & Hd & Hsd). exists d'. rewrite lookup_insert_ne by congruence. done.
      * intros (d' & [[<- <-]|[Hne Hd]]%lookup_insert_Some & Hsd); [done|]. by exists d'.
Qed.

Lemma daemon_unregister_wf r id : reg_wf r -> reg_wf (unregister r id).
Proof.
  intros Hwf. pose proof Hwf as [H1 H2]. split.
  - intros id' d. rewrite unregister_daemons, lookup_delete_Some. naive_solver.
  - intros sid id'. rewrite unregister_sid_set by done. rewrite elem_of_difference, elem_of_singleton, H2.
    setoid_rewrite unregister_daemons. setoid_rewrite lookup_delete_Some. naive_solver.
Qed.

#[export] Hint Resolve stop_wf Register_wf daemon_unregister_wf : go_inv.

Lemma Stop_wf r sid id : reg_wf r -> reg_wf (Stop r sid id).1.
Proof. intros. unfold Stop. destruct (GetDaemon r sid id); simpl; auto with go_inv. Qed.

(** The teardown loop over a list of targets. *)
Definition stop_targets (ts : list Daemon) (r : DaemonRegistry) : DaemonRegistry :=
  foldl (fun r d => unregister (stop r d) (d_ID d)) r ts.

Lemma stop_targets_spec ts r : reg_wf r ->
  reg_wf (stop_targets ts r) /\ signalled (stop_targets ts r) = signalled r ++ ts /\
  (forall id, daemons (stop_targets ts r) !! id = if decide (id ∈ (d_ID <$> ts)) then None else daemons r !! id).
Proof.
  revert r. induction ts as [|t ts IH]; intros r Hwf; simpl.
  { rewrite app_nil_r. split_and!; try done. }
  destruct (IH (unregister (stop r t) (d_ID t))) as (H1 & H2 & H3); [auto with go_inv|].
  split; [done|]. split.
  - rewrite H2, unregister_signalled. simpl. by rewrite <-app_assoc.
  - intros id. rewrite H3, unregister_daemons. cbn [daemons stop].
    destruct (decide (id = d_ID t)) as [->|Hne].
    + rewrite lookup_delete_eq. rewrite (decide_True (P := d_ID t ∈ _ :: _)) by (apply elem_of_cons; by left).
      by case_decide.
    + rewrite lookup_delete_ne by done. apply decide_ext. rewrite elem_of_cons. naive_solver.
Qed.

Lemma ListDaemons_spec r sid d : reg_wf r ->
  d ∈ ListDaemons r sid <-> daemons r !! d_ID d = Some d /\ d_SessionID d = sid.
Proof.
  intros [H1 H2]. unfold ListDaemons. rewrite list_elem_of_omap. setoid_rewrite elem_of_elements. split.
  - intros (id & Hin & Hd). pose proof (H1 _ _ Hd) as <-. split; [done|].
    apply H2 in Hin as (d' & Hd' & <-). congruence.
  - intros [Hd Hs]. exists (d_ID d). split; [|done]. apply H2. by exists d.
Qed.

Lemma reg_step_wf r r' : reg_step r r' -> reg_wf r -> reg_wf r'.
Proof.
  destruct 1 as [| | |r sid]; intros; auto with go_inv; [by apply Stop_wf|].
  by apply (stop_targets_spec (ListDaemons r sid)).
Qed.

Lemma NewDaemonRegistry_wf : reg_wf NewDaemonRegistry.
Proof. split; [done|]. intros sid id. unfold sid_set. simpl. rewrite lookup_empty. simpl. set_solver. Qed.

Lemma reg_reachable_wf r : rtc reg_step NewDaemonRegistry r -> reg_wf r.
Proof.
  intros Hr. assert (forall a b, rtc reg_step a b -> reg_wf a -> reg_wf b) as H.
  { induction 1; eauto using reg_step_wf. }
  apply (H _ _ Hr), NewDaemonRegistry_wf.
Qed.

(** session teardown: in every reachable registry, stopping a session's
    daemons signals exactly the daemons of that session that are registered,
    removes all of them (none is left to outlive the session), reports their
    number, and leaves what every other session can reach unchanged. *)
Theorem teardown_stops_exactly_own_daemons (r : DaemonRegistry) (sid : string) :
  rtc reg_step NewDaemonRegistry r ->
  exists stopped,
    (forall d, d ∈ stopped <-> GetDaemon r sid (d_ID d) = Some d) /\
    signalled (StopAllForSession r sid).1 = signalled r ++ stopped /\
    (StopAllForSession r sid).2 = length stopped /\
    ListDaemons (StopAllForSession r sid).1 sid = [] /\
    (forall sid' id, sid' <> sid -> GetDaemon (StopAllForSession r sid).1 sid' id = GetDaemon r sid' id).
Proof.
  intros Hr%reg_reachable_wf. exists (ListDaemons r sid).
  destruct (stop_targets_spec (ListDaemons r sid) r Hr) as (Hwf & Hsig & Hd).
  change (StopAllForSession r sid).1 with (stop_targets (ListDaemons r sid) r).
  assert (forall id d, daemons r !! id = Some d -> d_SessionID d = sid <-> id ∈ d_ID <$> ListDaemons r sid) as Hmem.
  { intros id d Hd'. pose proof (proj1 Hr _ _ Hd') as <-. rewrite list_elem_of_fmap. split.
    - intros Hs. exists d. split; [done|]. by apply ListDaemons_spec.
    - intros (d' & Heq & [Hd'' Hs]%ListDaemons_spec); [|done]. rewrite <-Heq in Hd''. by simplify_eq. }
  split_and!.
  - intros d. rewrite ListDaemons_spec by done. unfold GetDaemon.
    destruct (daemons r !! d_ID d) as [d'|]; [|naive_solver].
    destruct (String.eqb_spec (d_SessionID d') sid); naive_solver.
  - done.
  - done.
  - destruct (ListDaemons (stop_targets _ r) sid) as [|d l] eqn:E; [done|]. exfalso.
    assert (d ∈ ListDaemons (stop_targets (ListDaemons r sid) r) sid) as Hin by (rewrite E; apply list_elem_of_here).
    apply ListDaemons_spec in Hin as [Hl Hs]; [|done]. rewrite Hd in Hl. case_decide as Hn; [done|].
    by apply Hn, (Hmem _ d).
  - intros sid' id Hne. unfold GetDaemon. rewrite Hd. case_decide as Hin; [|done].
    destruct (daemons r !! id) as [d|] eqn:E; [|done]. apply (Hmem _ d) in Hin as <-; [|done].
    destruct (String.eqb_spec (d_SessionID d) sid') as [He|]; congruence.
Qed.

Definition demo_daemon (id sid : string) : Daemon := mkDaemon id sid "sleep" 0.

Definition demo_registry : DaemonRegistry :=
  Register (Register NewDaemonRegistry (demo_daemon "d1" "alice")) (demo_daemon "d2" "bob").

Lemma teardown_stops_exactly_own_daemons_witness :
  exists stopped,
    (forall d, d ∈ stopped <-> GetDaemon demo_registry "alice" (d_ID d) = Some d) /\
    signalled (StopAllForSession demo_registry "alice").1 = signalled demo_registry ++ stopped /\
    (StopAllForSession demo_registry "alice").2 = length stopped /\
    ListDaemons (StopAllForSession demo_registry "alice").1 "alice" = [] /\
    (forall sid' id, sid' <> "alice" ->
       GetDaemon (StopAllForSession demo_registry "alice").1 sid' id = GetDaemon demo_registry sid' id).
Proof.
  apply (teardown_stops_exactly_own_daemons demo_registry "alice").
  eapply rtc_l; [by apply RS_register|]. apply rtc_once. by apply RS_register.
Defined.
