(* ===== verification/Os.v ===== *)
(** * The file system the workspace engine runs on

    What internal/fsops uses of Go's [os] and [path/filepath]: a store of
    nodes keyed by their canonical location, symbolic links followed during
    path resolution (with the hop limits of [filepath.EvalSymlinks] and of the
    kernel), [MkdirAll], [OpenFile] with O_CREATE/O_TRUNC/O_APPEND, writes that
    can fail half way, reads and directory listings.

    Link targets are absolute.  Failures the operating system can inject
    (permissions, a full disk, an I/O error) are the fields of [faults]. *)

From S2P Require Import Prelude GoString Paths.

Abbreviation fpath := (list string).

Inductive node :=
| File (content : string)
| DirNode
| Symlink (target : string)
| Special.

Abbreviation FS := (gmap (list string) node).

Inductive fs_err := ENotExist | ENotDir | EIsDir | ELoop | EExist | EAcces | ENoSpc | EIO.

#[export] Instance fs_err_eq_dec : EqDecision fs_err.
Proof. solve_decision. Defined.

#[export] Instance node_eq_dec : EqDecision node.
Proof. solve_decision. Defined.

Record faults := mkFaults {
  deny : fpath -> bool;             (* open refuses this location *)
  write_limit : option nat;         (* a write fails after that many bytes *)
  read_fault : option nat;          (* the n-th Read fails *)
  mkdir_denied : bool;
}.

Definition no_faults : faults := mkFaults (fun _ => false) None None false.

(** The names of an absolute path. *)
Definition comps_of (p : string) : fpath := filter (fun s => s <> "") (SplitByte slash p).
Definition path_str (cs : fpath) : string := "/" +:+ JoinByte slash cs.

(** The root directory always exists. *)
Definition node_at (fs : FS) (p : fpath) : option node :=
  match p with [] => Some DirNode | _ => fs !! p end.

(** Path resolution from the canonical directory [cur], with [hops] links left;
    with [creat] the last name may be missing. *)
Fixpoint walk (creat : bool) (fs : FS) (hops : nat) : fpath -> fpath -> result fs_err (fpath * nat) :=
  fix go cur rest :=
    match rest with
    | [] => Ok (cur, hops)
    | c :: rest' =>
        match node_at fs cur with
        | Some DirNode =>
            match node_at fs (cur ++ [c]) with
            | None => match rest' with
                      | [] => if creat then Ok (cur ++ [c], hops) else Err ENotExist
                      | _ => Err ENotExist
                      end
            | Some (Symlink t) =>
                match hops with
                | O => Err ELoop
                | S hops' => walk creat fs hops' [] (comps_of t ++ rest')
                end
            | Some _ => go (cur ++ [c]) rest'
            end
        | _ => Err ENotDir
        end
    end.

(** The hop limits of [filepath.EvalSymlinks] and of the kernel. *)
Definition eval_hops : nat := 255.
Definition kernel_hops : nat := 40.
#[global] Opaque eval_hops kernel_hops.

(** [filepath.EvalSymlinks] *)
Definition EvalSymlinks (fs : FS) (p : string) : result fs_err string :=
  match walk false fs eval_hops [] (comps_of p) with
  | Ok (q, _) => Ok (path_str q)
  | Err e => Err e
  end.

Definition Stat (fs : FS) (p : string) : result fs_err node :=
  match walk false fs kernel_hops [] (comps_of p) with
  | Ok (q, _) => match node_at fs q with Some n => Ok n | None => Err ENotExist end
  | Err e => Err e
  end.

Definition is_dir (n : node) : bool := match n with DirNode => true | _ => false end.

(** [os.MkdirAll]: outermost first, every missing prefix is created. *)
Fixpoint mkdirs (flt : faults) (fs : FS) (done todo : fpath) : FS * result fs_err unit :=
  match todo with
  | [] => (fs, Ok tt)
  | c :: todo' =>
      match walk false fs kernel_hops [] (done ++ [c]) with
      | Ok (q, _) =>
          match node_at fs q with
          | Some DirNode => mkdirs flt fs (done ++ [c]) todo'
          | _ => (fs, Err ENotDir)
          end
      | Err ENotExist =>
          match walk false fs kernel_hops [] done with
          | Err e => (fs, Err e)
          | Ok (q, _) =>
              match fs !! (q ++ [c]) with
              | Some _ => (fs, Err EExist)
              | None => if mkdir_denied flt then (fs, Err EAcces)
                        else mkdirs flt (<[q ++ [c] := DirNode]> fs) (done ++ [c]) todo'
              end
          end
      | Err e => (fs, Err e)
      end
  end.

Definition MkdirAll (flt : faults) (fs : FS) (p : string) : FS * result fs_err unit :=
  mkdirs flt fs [] (comps_of p).

(** [os.OpenFile] for writing: the new store and the location written to. *)
Definition OpenFile (flt : faults) (creat trunc : bool) (fs : FS) (p : string) : FS * result fs_err fpath :=
  match walk creat fs kernel_hops [] (comps_of p) with
  | Err e => (fs, Err e)
  | Ok (loc, _) =>
      if deny flt loc then (fs, Err EAcces)
      else match node_at fs loc with
           | None => (<[loc := File ""]> fs, Ok loc)
           | Some (File c) => ((if trunc then <[loc := File ""]> fs else fs), Ok loc)
           | Some DirNode => (fs, Err EIsDir)
           | Some _ => (fs, Err EIO)
           end
  end.

(** [f.WriteString] on a file opened for appending or just truncated. *)
Definition WriteString (flt : faults) (fs : FS) (loc : fpath) (data : string) : FS * result fs_err nat :=
  let old := match node_at fs loc with Some (File c) => c | _ => "" end in
  match write_limit flt with
  | Some k => if k <? String.length data
              then (<[loc := File (old +:+ str_take k data)]> fs, Err ENoSpc)
              else (<[loc := File (old +:+ data)]> fs, Ok (String.length data))
  | None => (<[loc := File (old +:+ data)]> fs, Ok (String.length data))
  end.

(** [os.Open] for reading, with what [f.Stat] then says. *)
Definition OpenRead (flt : faults) (fs : FS) (p : string) : result fs_err node :=
  match walk false fs kernel_hops [] (comps_of p) with
  | Err e => Err e
  | Ok (loc, _) =>
      if deny flt loc then Err EAcces
      else match node_at fs loc with Some n => Ok n | None => Err ENotExist end
  end.

(** [os.ReadFile] *)
Definition ReadFile (flt : faults) (fs : FS) (p : string) : result fs_err string :=
  match OpenRead flt fs p with
  | Err e => Err e
  | Ok (File c) => Ok c
  | Ok DirNode => Err EIsDir
  | Ok _ => Err EIO
  end.

(** [os.ReadDir]: the direct children with their own type, sorted by name. *)
Definition child_name (dir p : fpath) : option string :=
  match last p with
  | Some c => if decide (p = dir ++ [c]) then Some c else None
  | None => None
  end.

Definition name_leb (a b : string * node) : bool := String.leb a.1 b.1.

Fixpoint insert_sorted (x : string * node) (l : list (string * node)) : list (string * node) :=
  match l with
  | [] => [x]
  | y :: l' => if name_leb x y then x :: l else y :: insert_sorted x l'
  end.

Definition children (fs : FS) (dir : fpath) : list (string * node) :=
  foldr insert_sorted [] (omap (fun '(p, n) => (fun c => (c, n)) <$> child_name dir p) (map_to_list fs)).

Definition ReadDir (fs : FS) (p : string) : result fs_err (list (string * node)) :=
  match walk false fs kernel_hops [] (comps_of p) with
  | Err e => Err e
  | Ok (loc, _) => match node_at fs loc with
                   | Some DirNode => Ok (children fs loc)
                   | _ => Err ENotDir
                   end
  end.

(** ** Names *)

Definition name_ok (s : string) : Prop := s <> "" /\ no_byte slash s = true.

Lemma comps_of_ok p : Forall name_ok (comps_of p).
Proof.
  apply Forall_forall. intros x [Hx Hin]%list_elem_of_filter. split; [done|].
  by apply (proj1 (Forall_forall _ _) (Split_no_byte slash p)).
Qed.

Lemma comps_of_slash a b : comps_of (a +:+ String slash b) = comps_of a ++ comps_of b.
Proof. unfold comps_of. by rewrite Split_app, filter_app. Qed.

Lemma comps_of_path_str cs : Forall name_ok cs -> comps_of (path_str cs) = cs.
Proof.
  intros Hok. unfold path_str. change ("/" +:+ JoinByte slash cs) with ("" +:+ String slash (JoinByte slash cs)).
  rewrite comps_of_slash. change (comps_of "") with (@nil string). simpl.
  destruct cs as [|c cs]; [done|]. unfold comps_of. rewrite Split_Join; [|done|].
  - apply filter_all_true. eapply Forall_impl; [exact Hok|]. by intros x [? _].
  - eapply Forall_impl; [exact Hok|]. by intros x [_ ?].
Qed.

Lemma plain_name_ok s : plain s -> name_ok s.
Proof. by intros (? & _ & _ & ?). Qed.

(** String containment is containment of locations. *)
Lemma withinRoot_prefix root s :
  withinRoot root s = true -> comps_of root `prefix_of` comps_of s.
Proof.
  intros [->|[t ->]]%withinRoot_spec; [done|]. rewrite comps_of_slash. by eexists.
Qed.

(** ** Resolution *)

(** A canonical location: every proper prefix is a directory and no prefix is a
    link, so that resolving it takes no hop. *)
Definition canonical (fs : FS) (p : fpath) : Prop := forall h, walk false fs h [] p = Ok (p, h).

Lemma canonical_nil fs : canonical fs [].
Proof. intros h. by destruct h. Qed.

Lemma walk_app creat fs h cur a b :
  b <> [] ->
  walk creat fs h cur (a ++ b) =
  match walk false fs h cur a with
  | Ok (q, h') => walk creat fs h' q b
  | Err e => Err e
  end.
Proof.
  intros Hb. revert cur a. induction h as [|h IHh]; intros cur a; revert cur;
    (induction a as [|c a IHa]; intros cur; [by destruct b|]);
    cbn [app walk]; (destruct (node_at fs cur) as [[]|]; try done);
    (destruct (node_at fs (cur ++ [c])) as [[]|]; try done); try apply IHa.
  - destruct (a ++ b) eqn:E; [by apply app_nil in E as [_ ?]|]. by destruct a.
  - rewrite app_assoc. apply IHh.
  - destruct (a ++ b) eqn:E; [by apply app_nil in E as [_ ?]|]. by destruct a.
Qed.

(** Case analysis on one step of a resolution. *)
Ltac walk_step H :=
  cbn [walk] in H;
  repeat match type of H with
  | match ?x with _ => _ end = _ => destruct x eqn:?; try discriminate H
  end.

Lemma walk_snoc fs h cur a c q h' :
  walk false fs h cur a = Ok (q, h') -> node_at fs q = Some DirNode ->
  (forall t, node_at fs (q ++ [c]) <> Some (Symlink t)) -> node_at fs (q ++ [c]) <> None ->
  walk false fs h cur (a ++ [c]) = Ok (q ++ [c], h').
Proof.
  intros Hw Hd Hl Hn. rewrite walk_app by done. rewrite Hw. destruct h'; cbn [walk]; rewrite Hd;
    destruct (node_at fs (q ++ [c])) as [[]|] eqn:E; try done; naive_solver.
Qed.

Lemma walk_canonical fs h cur rest q h' :
  canonical fs cur -> walk false fs h cur rest = Ok (q, h') -> canonical fs q.
Proof.
  revert cur rest. induction h as [|h IHh]; intros cur rest; revert cur;
    (induction rest as [|c rest IHr]; intros cur Hc Hw; [by simplify_eq/=|]);
    cbn [walk] in Hw; (destruct (node_at fs cur) as [[]|] eqn:Hd; try done);
    (destruct (node_at fs (cur ++ [c])) as [[]|] eqn:Hn; try done);
    try (by destruct rest);
    try (eapply IHr; [|exact Hw]; intros h0; apply walk_snoc; [apply Hc|done|naive_solver|naive_solver]).
  eapply IHh; [apply canonical_nil|exact Hw].
Qed.

Lemma walk_names creat fs h cur rest q h' :
  Forall name_ok cur -> Forall name_ok rest -> walk creat fs h cur rest = Ok (q, h') -> Forall name_ok q.
Proof.
  revert cur rest. induction h as [|h IHh]; intros cur rest; revert cur;
    (induction rest as [|c rest IHr]; intros cur Hc Hr Hw; [by simplify_eq/=|]);
    apply Forall_cons in Hr as [Hc' Hr]; cbn [walk] in Hw; (destruct (node_at fs cur) as [[]|] eqn:Hd; try done);
    (assert (Forall name_ok (cur ++ [c])) as Hcc by (apply Forall_app; by rewrite Forall_singleton));
    (destruct (node_at fs (cur ++ [c])) as [[]|] eqn:Hn; try done);
    try (by destruct rest, creat; simplify_eq); try (eapply IHr; eassumption).
  eapply IHh; [constructor| |exact Hw]. apply Forall_app. split; [apply comps_of_ok|done].
Qed.

(** Links resolve the same way under any hop limit that suffices. *)
Lemma walk_det creat fs h1 h2 cur rest a b n1 n2 :
  walk false fs h1 cur rest = Ok (a, n1) -> walk creat fs h2 cur rest = Ok (b, n2) -> a = b.
Proof.
  revert h2 cur rest. induction h1 as [|h1 IHh]; intros h2 cur rest; revert cur;
    (induction rest as [|c rest IHr]; intros cur H1 H2; [by destruct h2; simplify_eq/=|]);
    cbn [walk] in H1; (destruct (node_at fs cur) as [[]|] eqn:Hd; try done);
    (destruct (node_at fs (cur ++ [c])) as [[]|] eqn:Hn; try done); try (by destruct rest);
    (destruct h2; cbn [walk] in H2; rewrite Hd, Hn in H2; try done); try (by eapply IHr).
  by eapply IHh.
Qed.

Lemma node_at_insert_ne fs p q n : p <> q -> node_at (<[p := n]> fs) q = node_at fs q.
Proof. intros. destruct q; [done|]. by apply lookup_insert_ne. Qed.

(** Creating a missing node does not disturb a resolution that succeeded. *)
Lemma walk_insert fs p n h cur rest q h' :
  fs !! p = None -> walk false fs h cur rest = Ok (q, h') -> walk false (<[p := n]> fs) h cur rest = Ok (q, h').
Proof.
  intros Hp. assert (forall x m, node_at fs x = Some m -> node_at (<[p := n]> fs) x = Some m) as Hmono.
  { intros x m Hx. destruct (decide (x = [])) as [->|Hne]; [done|].
    rewrite node_at_insert_ne; [done|]. intros ->. destruct x; [done|]. simpl in Hx. congruence. }
  revert cur rest. induction h as [|h IHh]; intros cur rest; revert cur;
    (induction rest as [|c rest IHr]; intros cur Hw; [done|]);
    cbn [walk] in *; (destruct (node_at fs cur) as [[]|] eqn:Hd; try done);
    (destruct (node_at fs (cur ++ [c])) as [[]|] eqn:Hn; try done); try (by destruct rest);
    rewrite (Hmono _ _ Hd), (Hmono _ _ Hn); try (by apply IHr).
  by apply IHh.
Qed.

Lemma walk_no_hops creat fs cur rest q h : walk creat fs 0 cur rest = Ok (q, h) -> q = cur ++ rest /\ h = 0.
Proof.
  revert cur. induction rest as [|c rest IH]; intros cur Hw.
  { rewrite app_nil_r. by simplify_eq/=. }
  cbn [walk] in Hw. destruct (node_at fs cur) as [[]|]; try done.
  replace (cur ++ c :: rest) with ((cur ++ [c]) ++ rest) by (by rewrite <-app_assoc).
  destruct (node_at fs (cur ++ [c])) as [[]|]; try done; try (by apply IH).
  destruct rest; [|done]. destruct creat; [|done]. simplify_eq. by rewrite app_nil_r.
Qed.

Lemma walk_any_hops fs h cur rest q : walk false fs 0 cur rest = Ok (q, 0) -> walk false fs h cur rest = Ok (q, h).
Proof.
  revert cur. induction rest as [|c rest IH]; intros cur Hw; [destruct h; by simplify_eq/=|].
  destruct h; [done|].
  cbn [walk] in *. destruct (node_at fs cur) as [[]|]; try done.
  destruct (node_at fs (cur ++ [c])) as [[]|]; try done; try (by apply IH). by destruct rest.
Qed.

Lemma canonical_app fs a b :
  canonical fs (a ++ b) -> canonical fs a /\ (b <> [] -> node_at fs a = Some DirNode).
Proof.
  intros Hc. destruct (decide (b = [])) as [->|Hb]; [by rewrite app_nil_r in Hc|].
  specialize (Hc 0). rewrite walk_app in Hc by done.
  destruct (walk false fs 0 [] a) as [[q h']|e] eqn:E; [|done].
  destruct (walk_no_hops _ _ _ _ _ _ E) as [-> ->]. simpl in *. split.
  - intros h. by apply walk_any_hops.
  - intros _. destruct b; [done|]. cbn [walk] in Hc. by destruct (node_at fs a) as [[]|].
Qed.

(** [MkdirAll] passes through a canonical directory without changing it. *)
Lemma mkdirs_canonical flt fs done todo more :
  canonical fs (done ++ todo) -> node_at fs (done ++ todo) = Some DirNode ->
  mkdirs flt fs done (todo ++ more) = mkdirs flt fs (done ++ todo) more.
Proof.
  revert done. induction todo as [|c todo IH]; intros done Hc Hd; [by rewrite app_nil_r|].
  assert (done ++ c :: todo = (done ++ [c]) ++ todo) as E by (by rewrite <-app_assoc).
  rewrite E in Hc, Hd |- *. destruct (canonical_app _ _ _ Hc) as [Hc1 Hd1].
  cbn [mkdirs app]. rewrite Hc1.
  assert (node_at fs (done ++ [c]) = Some DirNode) as ->; [|by apply IH].
  destruct todo; [by rewrite app_nil_r in Hd|]. by apply Hd1.
Qed.

Lemma walk_err_hops fs h1 h2 cur rest r e :
  walk false fs h1 cur rest = Ok r -> walk false fs h2 cur rest = Err e -> e = ELoop.
Proof.
  revert h2 cur rest. induction h1 as [|h1 IHh]; intros h2 cur rest; revert cur;
    (induction rest as [|c rest IHr]; intros cur H1 H2; [by destruct h2|]);
    cbn [walk] in H1; (destruct (node_at fs cur) as [[]|] eqn:Hd; try done);
    (destruct (node_at fs (cur ++ [c])) as [[]|] eqn:Hn; try done); try (by destruct rest);
    (destruct h2; cbn [walk] in H2; rewrite Hd, Hn in H2; try done); try (by eapply IHr);
    [congruence|]. by eapply IHh.
Qed.

(** The parent of a path of plain names. *)
Lemma Dir_comps cs c : Forall plain cs -> plain c -> comps_of (Dir (path_str (cs ++ [c]))) = cs.
Proof.
  intros Hcs Hc. destruct (decide (cs = [])) as [->|Hne].
  - destruct Hc as (_ & _ & _ & Hc). unfold path_str, Dir. simpl (JoinByte slash ([] ++ [c])).
    change ("/" +:+ c) with ("" +:+ String slash c). rewrite LastIndexByte_app by done.
    by destruct c.
  - unfold path_str. rewrite Dir_snoc by done. apply comps_of_path_str.
    eapply Forall_impl; [exact Hcs|]. apply plain_name_ok.
Qed.

(** [MkdirAll] of a path that resolves creates nothing. *)
Lemma mkdirs_resolves flt fs pre todo r :
  walk false fs eval_hops [] (pre ++ todo) = Ok r -> (mkdirs flt fs pre todo).1 = fs.
Proof.
  revert pre. induction todo as [|c todo IH]; intros pre Hw; [done|].
  replace (pre ++ c :: todo) with ((pre ++ [c]) ++ todo) in Hw by (by rewrite <-app_assoc).
  assert (exists r', walk false fs eval_hops [] (pre ++ [c]) = Ok r') as [r' Hr'].
  { destruct (decide (todo = [])) as [->|Hne]; [rewrite app_nil_r in Hw; eauto|].
    rewrite walk_app in Hw by done. destruct (walk false fs eval_hops [] (pre ++ [c])); [eauto|done]. }
  cbn [mkdirs]. destruct (walk false fs kernel_hops [] (pre ++ [c])) as [[q h]|x] eqn:E.
  - destruct (node_at fs q) as [[]|]; try done. by apply IH.
  - by rewrite (walk_err_hops _ _ _ _ _ _ _ Hr' E).
Qed.

Lemma canonical_lookup fs p : canonical fs p -> p <> [] -> is_Some (fs !! p).
Proof.
  intros Hc Hne. destruct p as [|c p _] using rev_ind; [done|].
  specialize (Hc 0). rewrite walk_app in Hc by done.
  destruct (walk false fs 0 [] p) as [[q h]|] eqn:E; [|done].
  destruct (walk_no_hops _ _ _ _ _ _ E) as [-> ->]. cbn [walk app] in Hc.
  destruct (node_at fs p) as [[]|]; try done.
  assert (node_at fs (p ++ [c]) = fs !! (p ++ [c])) as E' by (by destruct p). rewrite E' in Hc.
  by destruct (fs !! (p ++ [c])).
Qed.

Lemma walk_creat fs h cur rest x : walk false fs h cur rest = Ok x -> walk true fs h cur rest = Ok x.
Proof.
  revert cur rest. induction h as [|h IHh]; intros cur rest; revert cur;
    (induction rest as [|c rest IHr]; intros cur Hw; [done|]);
    cbn [walk] in *; (destruct (node_at fs cur) as [[]|] eqn:Hd; try done);
    (destruct (node_at fs (cur ++ [c])) as [[]|] eqn:Hn; try done); try (by destruct rest); try (by apply IHr).
  by apply IHh.
Qed.

(** Rewriting a file's content does not change how paths resolve. *)
Lemma walk_file_insert creat fs loc c0 c h cur rest :
  fs !! loc = Some (File c0) -> walk creat (<[loc := File c]> fs) h cur rest = walk creat fs h cur rest.
Proof.
  intros Hloc. assert (forall p, node_at (<[loc := File c]> fs) p = node_at fs p \/
    (exists x, node_at (<[loc := File c]> fs) p = Some (File x)) /\ (exists y, node_at fs p = Some (File y))) as Hn.
  { intros p. destruct (decide (loc = p)) as [<-|Hne]; [|left; by apply node_at_insert_ne].
    destruct loc; [by left|]. right. simpl. rewrite lookup_insert_eq. eauto. }
  revert cur rest. induction h as [|h IHh]; intros cur rest; revert cur;
    (induction rest as [|d rest IHr]; intros cur; [done|]); cbn [walk];
    (destruct (Hn cur) as [->|[[x ->] [y ->]]]; [|done]); (destruct (node_at fs cur) as [[]|]; try done);
    (destruct (Hn (cur ++ [d])) as [->|[[x ->] [y ->]]]; [|by apply IHr]);
    (destruct (node_at fs (cur ++ [d])) as [[]|]; try done); try (by apply IHr).
Qed.

(** [MkdirAll] of an existing directory succeeds and creates nothing. *)
Lemma mkdirs_dir flt fs pre todo q h :
  walk false fs kernel_hops [] (pre ++ todo) = Ok (q, h) -> node_at fs q = Some DirNode ->
  mkdirs flt fs pre todo = (fs, Ok tt).
Proof.
  intros Hw Hq. revert pre Hw. induction todo as [|c todo IH]; intros pre Hw; [done|].
  replace (pre ++ c :: todo) with ((pre ++ [c]) ++ todo) in Hw by (by rewrite <-app_assoc).
  cbn [mkdirs]. destruct (decide (todo = [])) as [->|Hne].
  { rewrite app_nil_r in Hw. by rewrite Hw, Hq. }
  pose proof Hw as Hw2. rewrite walk_app in Hw by done.
  destruct (walk false fs kernel_hops [] (pre ++ [c])) as [[q' h']|x]; [|done].
  assert (node_at fs q' = Some DirNode) as ->; [|by apply IH].
  destruct todo; [done|]. destruct h'; cbn [walk] in Hw; by destruct (node_at fs q') as [[]|].
Qed.
