(* ===== verification/Fsops.v ===== *)
(** * The workspace engine (internal/fsops)

    engine.go: path resolution under the workspace root.  run.go: read_file,
    list_dir, write_patch and apply_code_patch, whose results are chunk streams
    of the runner contract.

    An operation is a state transformer over the file system that can fail
    ([IO]); a handler turns the failure into its exit chunk.  [cancel] is the
    index of the send that the context's cancellation preempts.  The JSON
    encoder is a parameter. *)

From stdpp Require Import pretty.
From S2P Require Import Prelude GoString Event Paths Sandbox Os.

(** ** Operations on the store that can fail *)

Definition IO (A : Type) : Type := FS -> FS * result gerror A.

Definition io_ret {A} (a : A) : IO A := fun fs => (fs, Ok a).
Definition throw {A} (e : gerror) : IO A := fun fs => (fs, Err e).
Definition io_bind {A B} (m : IO A) (k : A -> IO B) : IO B := fun fs =>
  let '(fs', r) := m fs in
  match r with Ok a => k a fs' | Err e => (fs', Err e) end.

Notation "'let!' x := m 'in' k" := (io_bind m (fun x => k))
  (at level 10, x pattern, m at level 100, k at level 200) : go_scope.

(** A call that does not change the store; a failure is reported as [e]. *)
Definition io_get {A} (f : FS -> result fs_err A) (e : fs_err -> gerror) : IO A := fun fs =>
  (fs, match f fs with Ok a => Ok a | Err x => Err (e x) end).

(** A call that does. *)
Definition io_run {A} (f : FS -> FS * result fs_err A) (e : fs_err -> gerror) : IO A := fun fs =>
  let '(fs', r) := f fs in (fs', match r with Ok a => Ok a | Err x => Err (e x) end).

Definition lift_res {A} (r : result gerror A) : IO A := fun fs => (fs, r).

Definition badRequest (msg : string) : gerror := mkErr KBadRequest msg.
Definition other (msg : string) : gerror := mkErr KOther msg.
Definition ErrPathEscape : gerror := other "fsops: path escapes workspace root".

(** ** The engine *)

Record Engine := mkEngine { root : string; perSession : bool }.

(** [NewWithOptions]; [Abs] is [filepath.Abs] of the working directory. *)
Definition NewWithOptions (Abs : string -> string) (root : string) (perSession : bool) : result gerror Engine :=
  if String.eqb root "" then Err (other "fsops: empty root")
  else Ok (mkEngine (Abs (Clean root)) perSession).

Definition rootForCtx (flt : faults) (e : Engine) (sid : string) : IO string :=
  if negb (perSession e) then io_ret (root e)
  else
    let s := sanitizeSID sid in
    if String.eqb s "" then io_ret (root e)
    else
      let scoped := Join2 (root e) s in
      let! _ := io_run (fun fs => MkdirAll flt fs scoped) (fun _ => other "fsops: per-session mkdir") in
      io_ret scoped.

(** The lexical tests of [resolveSafe] on the cleaned path. *)
Definition has_dotdot (cleaned : string) : bool :=
  String.eqb cleaned ".." || HasPrefix cleaned "../" || Contains cleaned "/../" || HasSuffix cleaned "/..".

Definition resolveSafe (flt : faults) (e : Engine) (sid rel : string) : IO string :=
  let! scopedRoot := rootForCtx flt e sid in
  if String.eqb rel "" then throw ErrPathEscape
  else if is_rooted rel then throw ErrPathEscape
  else
    let cleaned := Clean rel in
    if has_dotdot cleaned then throw ErrPathEscape
    else
      let candidate := Join2 scopedRoot cleaned in
      fun fs =>
        match EvalSymlinks fs candidate with
        | Err ENotExist =>
            let parent := Dir candidate in
            match EvalSymlinks fs parent with
            | Err _ => (fs, Err ErrPathEscape)
            | Ok realParent =>
                if negb (withinRoot scopedRoot realParent) then (fs, Err ErrPathEscape)
                else (fs, Ok candidate)
            end
        | Err _ => (fs, Err (other "evalsymlinks"))
        | Ok real =>
            if negb (withinRoot scopedRoot real) then (fs, Err ErrPathEscape)
            else (fs, Ok real)
        end.

(** ** Arguments *)

Definition argString (a : args) (key : string) : result gerror string :=
  match arg_lookup a key with
  | None => Err (badRequest ("missing " +:+ key))
  | Some (AStr s) => if String.eqb s "" then Err (badRequest (key +:+ " must be non-empty string")) else Ok s
  | Some _ => Err (badRequest (key +:+ " must be non-empty string"))
  end.

Definition argInt (a : args) (key : string) : option Z :=
  match arg_lookup a key with
  | Some (AInt n) => Some n
  | Some (AFloat q) => Some (int_of_float q)
  | _ => None
  end.

Definition argBool (a : args) (key : string) : option bool :=
  match arg_lookup a key with Some (ABool b) => Some b | _ => None end.

Definition argStringAllowEmpty (a : args) (key : string) : result gerror string :=
  match arg_lookup a key with
  | None => Err (badRequest ("missing " +:+ key))
  | Some (AStr s) => Ok s
  | Some _ => Err (badRequest (key +:+ " must be a string"))
  end.

Record Limits := mkLimits { ReadFileMaxBytes : Z; WriteFileMaxBytes : Z }.

Definition defaultReadFileMaxBytes : Z := 256 * 1024.
Definition hardReadFileMaxBytes : Z := 4 * 1024 * 1024.
Definition defaultWriteFileMaxBytes : Z := 4 * 1024 * 1024.
Definition maxListDepth : Z := 4.
Definition defaultListDepth : Z := 1.
Definition emitChunkBytes : Z := 16 * 1024.

Definition ctxErr : gerror := mkErr KCtxCanceled "context canceled".

Definition emitBytesResult (cancel : option nat) (data : string) : list ExecChunk :=
  send_chunks cancel (chunk_bytes (Z.to_nat emitChunkBytes) data)
    [exit_chunk (-1) (Some ctxErr)] [exit_chunk 0 None].

(** [json.Marshal(v)] is [Some body], or [None] on an encoding error. *)
Definition emitJSONResult (cancel : option nat) (body : option string) : list ExecChunk :=
  match body with
  | None => [exit_chunk (-1) (Some (other "json"))]
  | Some b => emitBytesResult cancel b
  end.

(** A handler: an error becomes the exit chunk. *)
Definition handler (m : IO (list ExecChunk)) : FS -> FS * list ExecChunk := fun fs =>
  let '(fs', r) := m fs in
  (fs', match r with Ok l => l | Err e => [exit_chunk (-1) (Some e)] end).

(** ** read_file *)

(** [path] checked, then the byte cap. *)
Definition read_cap (a : args) (limits : Limits) : Z :=
  let m := match argInt a "max_bytes" with
           | Some n => if (0 <? n)%Z then n else defaultReadFileMaxBytes
           | None => defaultReadFileMaxBytes
           end in
  let m := if ((0 <? ReadFileMaxBytes limits) && (ReadFileMaxBytes limits <? m))%Z then ReadFileMaxBytes limits else m in
  if (hardReadFileMaxBytes <? m)%Z then hardReadFileMaxBytes else m.

(** The read loop: [room] is [maxBytes - total], [rest] the unread bytes, [i]
    the number of reads so far. *)
Fixpoint read_loop (flt : faults) (cancel : option nat) (fuel i : nat) (room : Z) (rest : string) : list ExecChunk :=
  match fuel with
  | O => []
  | S fuel =>
      if (room <=? 0)%Z then [exit_chunk 0 None]
      else if decide (read_fault flt = Some i) then [exit_chunk (-1) (Some (other "read"))]
      else
        let n := Z.to_nat (Z.min room emitChunkBytes) in
        let data := str_take n rest in
        if String.eqb data "" then [exit_chunk 0 None]
        else if decide (cancel = Some i) then [exit_chunk (-1) (Some ctxErr)]
        else stdout_chunk data :: read_loop flt cancel fuel (S i) (room - zlen data) (str_drop n rest)
  end.

(** [resolveSafe] with its error rewrapped as a bad request. *)
Definition resolveBad (flt : faults) (e : Engine) (sid path : string) : IO string := fun fs =>
  let '(fs', r) := resolveSafe flt e sid path fs in
  (fs', match r with Ok p => Ok p | Err x => Err (badRequest (emsg x)) end).

Definition runReadFile (flt : faults) (cancel : option nat) (e : Engine) (sid : string) (a : args) (limits : Limits)
    : FS -> FS * list ExecChunk := handler (
  let! path := lift_res (argString a "path") in
  let maxBytes := read_cap a limits in
  let! resolved := resolveBad flt e sid path in
  let! st := io_get (fun fs => OpenRead flt fs resolved) (fun _ => other "read_file open") in
  match st with
  | DirNode => throw (badRequest "is a directory")
  | File c => io_ret (read_loop flt cancel (S (String.length c)) 0 maxBytes c)
  | _ => throw (other "read")
  end).

(** ** list_dir *)

Record listEntry := mkListEntry { le_Name : string; le_Type : string; le_Size : Z }.

Definition entryType (n : node) : string :=
  match n with DirNode => "dir" | Symlink _ => "symlink" | File _ => "file" | Special => "other" end.

Definition entry_of (rel : string) (n : node) : listEntry :=
  mkListEntry rel (entryType n) (match n with File c => zlen c | _ => 0 end).

(** [walkDepthInner] (and [walkDepth], which is the empty prefix); [depth] is
    the number of levels left. *)
Fixpoint walkDepthInner (fs : FS) (depth : nat) (dir : string) (pre : option string) : result fs_err (list listEntry) :=
  match depth with
  | O => Ok []
  | S depth' =>
      match ReadDir fs dir with
      | Err e => Err e
      | Ok children =>
          (fix loop (l : list (string * node)) : result fs_err (list listEntry) :=
             match l with
             | [] => Ok []
             | (name, n) :: l' =>
                 let rel := match pre with None => name | Some p => p +:+ "/" +:+ name end in
                 match (if is_dir n then walkDepthInner fs depth' (Join2 dir name) (Some rel) else Ok []) with
                 | Err e => Err e
                 | Ok sub => match loop l' with
                             | Err e => Err e
                             | Ok more => Ok (entry_of rel n :: sub ++ more)
                             end
                 end
             end) children
      end
  end.

Definition walkDepth (fs : FS) (depth : nat) (dir : string) : result fs_err (list listEntry) :=
  walkDepthInner fs depth dir None.

Section encoders.
Variable json_list : string -> list listEntry -> option string.
Variable json_write : string -> Z -> string -> option string.

Definition list_depth (a : args) : Z :=
  let d := match argInt a "depth" with
           | Some n => if (0 <? n)%Z then n else defaultListDepth
           | None => defaultListDepth
           end in
  if (maxListDepth <? d)%Z then maxListDepth else d.

Definition runListDir (flt : faults) (cancel : option nat) (e : Engine) (sid : string) (a : args)
    : FS -> FS * list ExecChunk := handler (
  let! path := lift_res (argString a "path") in
  let! resolved := resolveBad flt e sid path in
  let! st := io_get (fun fs => Stat fs resolved) (fun _ => other "list_dir stat") in
  if negb (is_dir st) then throw (badRequest "is not a directory")
  else
    let! entries := io_get (fun fs => walkDepth fs (Z.to_nat (list_depth a)) resolved) (fun _ => other "readdir") in
    io_ret (emitJSONResult cancel (json_list path entries))).

(** ** write_patch *)

Definition write_cap (limits : Limits) : Z :=
  if (0 <? WriteFileMaxBytes limits)%Z then WriteFileMaxBytes limits else defaultWriteFileMaxBytes.

Definition write_mode (a : args) : string :=
  match arg_lookup a "mode" with Some (AStr s) => ToLower s | _ => "overwrite" end.

Definition runWritePatch (flt : faults) (cancel : option nat) (e : Engine) (sid : string) (a : args) (limits : Limits)
    : FS -> FS * list ExecChunk := handler (
  let! path := lift_res (argString a "path") in
  let! content := lift_res (argString a "content") in
  let mode := write_mode a in
  if negb (String.eqb mode "overwrite") && negb (String.eqb mode "append")
  then throw (badRequest "mode must be 'overwrite' or 'append'")
  else
    let create := default false (argBool a "create") in
    if (write_cap limits <? zlen content)%Z then throw (badRequest "content exceeds limit")
    else
      let! resolved := resolveBad flt e sid path in
      let! _ := (if create then io_run (fun fs => MkdirAll flt fs (Dir resolved)) (fun _ => other "mkdir")
                 else io_ret tt) in
      let! loc := io_run (fun fs => OpenFile flt true (negb (String.eqb mode "append")) fs resolved)
                    (fun _ => other "write_patch open") in
      let! n := io_run (fun fs => WriteString flt fs loc content) (fun _ => other "write") in
      io_ret (emitJSONResult cancel (json_write path (Z.of_nat n) mode))).
End encoders.

(** ** apply_code_patch *)

Definition LF : ascii := ascii_of_nat 10.

(** The lines of a hunk and their printing. *)
Inductive hunk_line := HCtx (s : string) | HDel (s : string) | HAdd (s : string).

Record hunk := mkHunk {
  beforeStart : Z; beforeCount : Z;
  afterStart : Z; afterCount : Z;
  hlines : list hunk_line;
}.

(** [l[i]] for [i] from [a] to [b - 1]. *)
Definition slice {A} (a b : nat) (l : list A) : list A := take (b - a) (drop a l).

Definition diff_context : nat := 3.

Definition count_lines (s : string) : nat := Count s (String LF "").

Definition compute_hunk (before after : string) (idx searchLen replaceLen : nat) : hunk :=
  let beforeLines := SplitByte LF before in
  let afterLines := SplitByte LF after in
  let firstLine := count_lines (str_take idx before) in
  let lastLine := count_lines (str_take (idx + searchLen) before) in
  let afterFirst := firstLine in
  let afterLast := count_lines (str_take (idx + replaceLen) after) in
  let startCtx := firstLine - diff_context in
  let endCtxBefore := if length beforeLines <=? lastLine + diff_context
                      then length beforeLines - 1 else lastLine + diff_context in
  let endCtxAfter := if length afterLines <=? afterLast + diff_context
                     then length afterLines - 1 else afterLast + diff_context in
  mkHunk (Z.of_nat startCtx + 1) (Z.of_nat endCtxBefore - Z.of_nat startCtx + 1)
         (Z.of_nat startCtx + 1) (Z.of_nat endCtxAfter - Z.of_nat startCtx + 1)
         ((HCtx <$> slice startCtx firstLine beforeLines) ++
          (HDel <$> slice firstLine (S lastLine) beforeLines) ++
          (HAdd <$> slice afterFirst (S afterLast) afterLines) ++
          (HCtx <$> slice (S afterLast) (S endCtxAfter) afterLines)).

Definition nl : string := String LF "".

Definition print_line (l : hunk_line) : string :=
  match l with HCtx s => " " +:+ s +:+ nl | HDel s => "-" +:+ s +:+ nl | HAdd s => "+" +:+ s +:+ nl end.

Definition renderUnifiedDiff (path before after : string) (idx searchLen replaceLen : nat) : string :=
  let h := compute_hunk before after idx searchLen replaceLen in
  "--- a/" +:+ path +:+ nl +:+ "+++ b/" +:+ path +:+ nl +:+
  "@@ -" +:+ pretty (beforeStart h) +:+ "," +:+ pretty (beforeCount h) +:+
  " +" +:+ pretty (afterStart h) +:+ "," +:+ pretty (afterCount h) +:+ " @@" +:+ nl +:+
  str_concat (print_line <$> hlines h).

Record applyCodePatchPlan := mkPlan {
  p_resolved : string;
  p_path : string;
  p_original : string;
  p_newContent : string;
  p_lineNumber : Z;
  p_unifiedDiff : string;
}.

Definition computeApplyCodePatch (flt : faults) (e : Engine) (sid : string) (a : args) (limits : Limits)
    : IO applyCodePatchPlan :=
  let! path := lift_res (argString a "file_path") in
  let! search := lift_res (argString a "search_string") in
  let! replace := lift_res (argStringAllowEmpty a "replace_string") in
  let! resolved := resolveBad flt e sid path in
  let! raw := io_get (fun fs => ReadFile flt fs resolved)
                (fun x => match x with
                          | ENotExist => badRequest "file does not exist"
                          | _ => other "apply_code_patch read"
                          end) in
  let! isdir := io_get (fun fs => match Stat fs resolved with Ok n => Ok (is_dir n) | Err _ => Ok false end) (fun _ => other "stat") in
  if isdir then throw (badRequest "is a directory")
  else
    let content := raw in
    let count := Count content search in
    if count =? 0 then throw (badRequest "search_string not found")
    else if 1 <? count then throw (badRequest "search_string matches more than once; must be unique")
    else
      let idx := default 0 (Index content search) in
      let newContent := str_take idx content +:+ (replace +:+ str_drop (idx + String.length search) content) in
      if (write_cap limits <? zlen newContent)%Z then throw (badRequest "result exceeds limit")
      else
        io_ret (mkPlan resolved path raw newContent (1 + Z.of_nat (count_lines (str_take idx content)))
          (renderUnifiedDiff path content newContent idx (String.length search) (String.length replace))).

Record ApplyCodePatchPreview := mkPreview { pv_Path : string; pv_LineNumber : Z; pv_UnifiedDiff : string }.

Definition PreviewApplyCodePatch (flt : faults) (e : Engine) (sid : string) (a : args) : IO ApplyCodePatchPreview :=
  let! plan := computeApplyCodePatch flt e sid a (mkLimits 0 0) in
  io_ret (mkPreview (p_path plan) (p_lineNumber plan) (p_unifiedDiff plan)).

Record ApplyCodePatchResult := mkPatchResult {
  ar_Path : string; ar_BytesWritten : Z; ar_LineNumber : Z; ar_UnifiedDiff : string }.

(** The snapshot, the resolved path and the result. *)
Definition applyCodePatchInner (flt : faults) (e : Engine) (sid : string) (a : args) (limits : Limits)
    : IO (string * string * ApplyCodePatchResult) :=
  let! plan := computeApplyCodePatch flt e sid a limits in
  let! loc := io_run (fun fs => OpenFile flt false true fs (p_resolved plan)) (fun _ => other "apply_code_patch open") in
  let! n := io_run (fun fs => WriteString flt fs loc (p_newContent plan)) (fun _ => other "write") in
  io_ret (p_original plan, p_resolved plan,
          mkPatchResult (p_path plan) (Z.of_nat n) (p_lineNumber plan) (p_unifiedDiff plan)).

Definition ApplyCodePatchWithSnapshot := applyCodePatchInner.

Definition runApplyCodePatch (json_patch : ApplyCodePatchResult -> option string) (flt : faults) (cancel : option nat)
    (e : Engine) (sid : string) (a : args) (limits : Limits) : FS -> FS * list ExecChunk := handler (
  let! r := applyCodePatchInner flt e sid a limits in
  io_ret (emitJSONResult cancel (json_patch r.2))).

Definition RestoreFile (flt : faults) (e : Engine) (sid resolvedPath snapshot : string) : IO unit :=
  let! scopedRoot := rootForCtx flt e sid in
  let! real := (fun fs => (fs, Ok match EvalSymlinks fs resolvedPath with Ok r => r | Err _ => resolvedPath end)) in
  if negb (withinRoot scopedRoot real) then throw ErrPathEscape
  else
    let! loc := io_run (fun fs => OpenFile flt false true fs resolvedPath) (fun _ => other "apply_code_patch restore open") in
    let! _ := io_run (fun fs => WriteString flt fs loc snapshot) (fun _ => other "apply_code_patch restore write") in
    io_ret tt.

(** ** Dispatch *)

Record encoders := mkEncoders {
  json_list : string -> list listEntry -> option string;
  json_write : string -> Z -> string -> option string;
  json_patch : ApplyCodePatchResult -> option string;
}.

Definition Run (enc : encoders) (flt : faults) (cancel : option nat) (e : Engine) (sid tool : string) (a : args)
    (limits : Limits) (fs : FS) : FS * result gerror (list ExecChunk) :=
  let ok := fun '(fs', l) => (fs', Ok l) in
  if String.eqb tool "read_file" then ok (runReadFile flt cancel e sid a limits fs)
  else if String.eqb tool "list_dir" then ok (runListDir (json_list enc) flt cancel e sid a fs)
  else if String.eqb tool "write_patch" then ok (runWritePatch (json_write enc) flt cancel e sid a limits fs)
  else if String.eqb tool "apply_code_patch" then ok (runApplyCodePatch (json_patch enc) flt cancel e sid a limits fs)
  else (fs, Err (badRequest "unknown fsops tool")).

(** ** Containment *)

(** The directory an engine works in for a session. *)
Definition scoped_root (e : Engine) (sid : string) : string :=
  if perSession e && negb (String.eqb (sanitizeSID sid) "") then Join2 (root e) (sanitizeSID sid) else root e.

Definition scope (e : Engine) (sid : string) : fpath := comps_of (scoped_root e sid).

(** The workspace root is an existing directory at its canonical location. *)
Record root_ok (e : Engine) (fs : FS) : Prop := {
  rok_clean : clean_root (root e);
  rok_canonical : canonical fs (comps_of (root e));
  rok_dir : node_at fs (comps_of (root e)) = Some DirNode;
  rok_names : forall p n, fs !! p = Some n -> Forall plain p;
}.

(** No link below [R] is broken. *)
Definition links_ok (R : fpath) (fs : FS) : Prop :=
  forall p t, R `prefix_of` p -> fs !! p = Some (Symlink t) -> exists r, walk false fs eval_hops [] (comps_of t) = Ok r.

(** The stores agree outside [R]. *)
Definition confined (R : fpath) (fs fs' : FS) : Prop :=
  forall q, ~ R `prefix_of` q -> fs' !! q = fs !! q.

Lemma confined_refl R fs : confined R fs fs.
Proof. done. Qed.

Lemma confined_trans R fs1 fs2 fs3 : confined R fs1 fs2 -> confined R fs2 fs3 -> confined R fs1 fs3.
Proof. intros H1 H2 q Hq. by rewrite H2, H1. Qed.

Lemma confined_insert R fs p n : R `prefix_of` p -> confined R fs (<[p := n]> fs).
Proof. intros Hp q Hq. rewrite lookup_insert_ne; [done|]. by intros <-. Qed.

#[export] Hint Resolve confined_refl confined_insert : go_inv.

Lemma clean_root_comps r : clean_root r -> exists cs, cs <> [] /\ Forall plain cs /\ r = path_str cs /\ comps_of r = cs.
Proof.
  intros (cs & Hne & Hcs & ->). exists cs. split_and!; try done.
  apply comps_of_path_str. eapply Forall_impl; [exact Hcs|]. apply plain_name_ok.
Qed.

Lemma plain_comps cs : Forall plain cs -> comps_of (path_str cs) = cs.
Proof. intros H. apply comps_of_path_str. eapply Forall_impl; [exact H|]. apply plain_name_ok. Qed.

(** The scoped root is the root itself or one plain component below it. *)
Lemma scoped_root_comps e sid :
  clean_root (root e) ->
  exists ss, (ss = [] \/ exists s, plain s /\ ss = [s]) /\
    scoped_root e sid = path_str (comps_of (root e) ++ ss) /\ scope e sid = comps_of (root e) ++ ss /\
    Forall plain (comps_of (root e) ++ ss).
Proof.
  intros (cs & Hne & Hcs & Hr & Hcomps)%clean_root_comps. rewrite Hcomps.
  assert (exists ss, (ss = [] \/ exists s, plain s /\ ss = [s]) /\ scoped_root e sid = path_str (cs ++ ss)
    /\ Forall plain (cs ++ ss)) as (ss & Hss & Heq & Hall).
  { unfold scoped_root. destruct (perSession e && _) eqn:E; [|exists []; rewrite app_nil_r; eauto].
    boolprop. apply String.eqb_neq in H0. destruct (sanitizeSID_facts sid) as (Hl & Hns & Hdd & _).
    set (s := sanitizeSID sid) in *. rewrite Hr. unfold Join2, path_str.
    rewrite (proj2 (String.eqb_neq _ _)) by done. rewrite (proj2 (String.eqb_neq _ _)) by done.
    destruct (decide (s = ".")) as [->|Hdot].
    - exists []. split; [by left|]. split; [|by rewrite app_nil_r].
      apply (Clean_abs_app cs [] ["."]); try done; by repeat constructor.
    - assert (plain s) as Hps by done. exists [s]. split; [eauto|]. split; [|by apply Forall_app; rewrite Forall_singleton].
      apply (Clean_abs_app cs [s] [s]); rewrite ?Forall_singleton; try done.
      intros st. by apply foldl_plain; rewrite Forall_singleton. }
  exists ss. split_and!; try done. unfold scope. rewrite Heq. by apply plain_comps.
Qed.

(** What [rootForCtx] does to the store: nothing, or it creates the session's
    directory. *)
Definition scope_made (e : Engine) (sid : string) (fs fs' : FS) : Prop :=
  fs' = fs \/ (fs !! scope e sid = None /\ fs' = <[scope e sid := DirNode]> fs).

Lemma rootForCtx_spec flt e sid fs fs' r :
  root_ok e fs -> rootForCtx flt e sid fs = (fs', r) ->
  scope_made e sid fs fs' /\ (forall s, r = Ok s -> s = scoped_root e sid).
Proof.
  intros [Hclean Hcan Hdir _] Heq.
  destruct (scoped_root_comps e sid Hclean) as (ss & Hss & Hsr & Hsc & Hall).
  unfold rootForCtx, io_bind, io_run, io_ret in Heq. unfold scoped_root in Hsr |- *.
  destruct (perSession e); simpl in *; [|simplify_eq; split; [by left|by intros ? [=]]].
  destruct (String.eqb (sanitizeSID sid) "") eqn:Es; simpl in *; [simplify_eq; split; [by left|by intros ? [=]]|].
  rewrite Hsr in Heq |- *. unfold MkdirAll in Heq. rewrite plain_comps in Heq by done.
  assert (mkdirs flt fs [] (comps_of (root e) ++ ss) = mkdirs flt fs (comps_of (root e)) ss) as Hmk
    by (by apply mkdirs_canonical).
  rewrite Hmk in Heq. unfold scope_made. rewrite Hsc.
  destruct Hss as [->|(s & Hs & ->)]; [simplify_eq/=; split; [by left|by intros ? [=]]|].
  cbn [mkdirs] in Heq. rewrite Hcan in Heq.
  destruct (walk false fs kernel_hops [] (comps_of (root e) ++ [s])) as [[q h]|[]]; simplify_eq/=;
    repeat (case_match; simplify_eq/=); (split; [first [by left|by right]|by intros ? [=]]).
Qed.

(** What survives the creation of the session directory. *)
Lemma scope_made_keeps e sid fs fs' :
  scope_made e sid fs fs' -> root_ok e fs -> links_ok (comps_of (root e)) fs ->
  confined (scope e sid) fs fs' /\ links_ok (comps_of (root e)) fs' /\
  (forall p n, fs' !! p = Some n -> Forall plain p) /\
  (forall p c, fs' !! p = Some (File c) <-> fs !! p = Some (File c)).
Proof.
  intros [->|[Hn ->]] Hok Hl; [split_and!; eauto using rok_names; done|]. split; [by auto with go_inv|]. split_and!.
  - intros p t Hp Ht. rewrite lookup_insert_Some in Ht. destruct Ht as [[_ ?]|[_ Ht]]; [done|].
    destruct (Hl p t Hp Ht) as [[q h] Hr]. eexists. by apply walk_insert.
  - intros p n [[<- _]|[_ ?]]%lookup_insert_Some; [|by eapply (rok_names e fs)].
    by destruct (scoped_root_comps e sid (rok_clean _ _ Hok)) as (ss & _ & _ & -> & ?).
  - intros p c. destruct (decide (scope e sid = p)) as [<-|Hne].
    + rewrite lookup_insert_eq. by rewrite Hn.
    + by rewrite lookup_insert_ne.
Qed.

(** Where a write through a resolved path can land. *)
Definition target_in (R : fpath) (fs : FS) (p : string) : Prop :=
  forall h loc h', walk true fs h [] (comps_of p) = Ok (loc, h') -> R `prefix_of` loc.

Lemma prefix_scope e sid : clean_root (root e) -> comps_of (root e) `prefix_of` scope e sid.
Proof. intros (ss & _ & _ & -> & _)%(scoped_root_comps e sid). by eexists. Qed.

(** The missing-file case: the parent resolves inside the scope. *)
Lemma missing_target R S ds c fs q hq h loc h' :
  canonical fs q -> R `prefix_of` S -> S `prefix_of` q -> links_ok R fs ->
  walk false fs eval_hops [] (S ++ ds) = Ok (q, hq) ->
  walk false fs eval_hops [] (S ++ ds ++ [c]) = Err ENotExist ->
  walk true fs h [] (S ++ ds ++ [c]) = Ok (loc, h') -> S `prefix_of` loc.
Proof.
  intros Hq HR HS Hl Hp Hmiss Hw. rewrite app_assoc in Hmiss, Hw.
  rewrite walk_app in Hmiss, Hw by done. rewrite Hp in Hmiss.
  destruct (walk false fs h [] (S ++ ds)) as [[q' h'']|] eqn:Hp'; [|done].
  pose proof (walk_det _ _ _ _ _ _ _ _ _ _ Hp Hp') as <-.
  assert (forall x, S `prefix_of` q ++ x) as Hpre by (intros x; by apply prefix_app_r).
  destruct hq, h''; cbn [walk] in Hw, Hmiss; (destruct (node_at fs q) as [[]|]; try done);
    (destruct (node_at fs (q ++ [c])) as [[]|] eqn:Hn; simplify_eq; try done).
  - assert (fs !! (q ++ [c]) = Some (Symlink target)) as Ht by (by destruct q).
    destruct (Hl _ _ (transitivity HR (Hpre [c])) Ht) as [r Hr].
    rewrite app_nil_r in Hmiss. by pose proof (walk_err_hops _ _ _ _ _ _ _ Hr Hmiss).
Qed.

(** The lexical checks leave a candidate below the scope. *)
Lemma candidate_comps e sid rel :
  clean_root (root e) -> is_rooted rel = false -> has_dotdot (Clean rel) = false ->
  exists ds, Forall plain (scope e sid ++ ds) /\ scope e sid <> [] /\
    Join2 (scoped_root e sid) (Clean rel) = path_str (scope e sid ++ ds).
Proof.
  intros Hclean Habs Hdd.
  destruct (scoped_root_comps e sid Hclean) as (ss & _ & Hsr & Hsc & Hall).
  assert (comps_of (root e) ++ ss <> []) as Hne.
  { destruct (clean_root_comps _ Hclean) as (cs & ? & _ & _ & ->). by destruct cs. }
  unfold has_dotdot in Hdd. boolprop. apply String.eqb_neq in H.
  destruct (Join2_comps _ rel Hne Hall Habs H H2) as (ds & Hds & _ & Hcand).
  exists ds. rewrite Hsc, Hsr. split_and!; [|done|done]. by apply Forall_app.
Qed.

Lemma missing_parent_target e sid ds fs q hq h loc h' :
  clean_root (root e) -> links_ok (comps_of (root e)) fs -> Forall plain (scope e sid ++ ds) -> scope e sid <> [] ->
  walk false fs eval_hops [] (scope e sid ++ ds) = Err ENotExist ->
  walk false fs eval_hops [] (comps_of (Dir (path_str (scope e sid ++ ds)))) = Ok (q, hq) ->
  scope e sid `prefix_of` q ->
  walk true fs h [] (scope e sid ++ ds) = Ok (loc, h') -> scope e sid `prefix_of` loc.
Proof.
  intros Hclean Hl Hcomp Hne Hw Hw' Hin Hloc.
  pose proof (walk_canonical _ _ _ _ _ _ (canonical_nil fs) Hw') as Hq.
  destruct ds as [|c ds _] using rev_ind.
  { rewrite app_nil_r in *. destruct Hin as [k ->]. apply canonical_app in Hq as [Hq _]. by rewrite Hq in Hw. }
  apply Forall_app in Hcomp as [Hs [Hds' Hc]%Forall_app]. rewrite Forall_singleton in Hc.
  rewrite app_assoc in Hw'. unfold path_str in Hw' at 1.
  rewrite Dir_snoc in Hw'; [|by destruct (scope e sid)|by apply Forall_app|done].
  fold (path_str (scope e sid ++ ds)) in Hw'. rewrite plain_comps in Hw' by (by apply Forall_app).
  eapply (missing_target (comps_of (root e)) (scope e sid) ds c fs); eauto using prefix_scope.
Qed.

Lemma canonical_parent_resolves fs q :
  canonical fs q -> q <> [] -> (forall p n, fs !! p = Some n -> Forall plain p) ->
  exists x, walk false fs eval_hops [] (comps_of (Dir (path_str q))) = Ok x.
Proof.
  intros Hq Hne Hn. destruct (canonical_lookup _ _ Hq Hne) as [n Hl]. apply Hn in Hl.
  destruct q as [|c q _] using rev_ind; [done|].
  apply Forall_app in Hl as [Hp Hc]. rewrite Forall_singleton in Hc.
  rewrite Dir_comps by done. apply canonical_app in Hq as [Hq _]. eexists. apply Hq.
Qed.

Lemma resolveSafe_spec flt e sid rel fs fs' r :
  root_ok e fs -> links_ok (comps_of (root e)) fs -> resolveSafe flt e sid rel fs = (fs', r) ->
  scope_made e sid fs fs' /\
  (forall p, r = Ok p -> target_in (scope e sid) fs' p /\
     exists x, walk false fs' eval_hops [] (comps_of (Dir p)) = Ok x).
Proof.
  intros Hok Hl Heq. unfold resolveSafe, io_bind at 1 in Heq.
  destruct (rootForCtx flt e sid fs) as [fs1 r1] eqn:Hroot.
  destruct (rootForCtx_spec _ _ _ _ _ _ Hok Hroot) as [Hmade Hr1].
  destruct r1 as [sr|x]; [|simplify_eq; split; [done|by intros ? [=]]].
  specialize (Hr1 sr eq_refl) as ->. unfold throw in Heq.
  destruct (scope_made_keeps _ _ _ _ Hmade Hok Hl) as (_ & Hl1 & Hn1 & _).
  destruct (String.eqb rel ""); [simplify_eq/=; split; [done|by intros ? [=]]|].
  destruct (is_rooted rel) eqn:Habs; [simplify_eq/=; split; [done|by intros ? [=]]|].
  destruct (has_dotdot (Clean rel)) eqn:Hdd; [simplify_eq/=; split; [done|by intros ? [=]]|].
  destruct (candidate_comps e sid rel (rok_clean _ _ Hok) Habs Hdd) as (ds & Hcomp & Hne & Hcand).
  rewrite Hcand in Heq. unfold EvalSymlinks in Heq. rewrite (plain_comps _ Hcomp) in Heq.
  destruct (walk false fs1 eval_hops [] (scope e sid ++ ds)) as [[q hq]|x] eqn:Hw.
  - pose proof (walk_canonical _ _ _ _ _ _ (canonical_nil fs1) Hw) as Hq.
    assert (Forall name_ok q) as Hnames.
    { eapply walk_names; [| |exact Hw]; [done|]. eapply Forall_impl; [exact Hcomp|]. apply plain_name_ok. }
    destruct (negb _) eqn:Hin; simplify_eq; (split; [done|]); [by intros ? [=]|].
    intros p [= <-]. boolprop. apply withinRoot_prefix in Hin. rewrite comps_of_path_str in Hin by done. split.
    + intros h loc h' Hloc. rewrite comps_of_path_str in Hloc by done.
      by rewrite <-(walk_det _ _ _ _ _ _ _ _ _ _ (Hq h) Hloc).
    + eapply canonical_parent_resolves; eauto. intros ->. by apply Hne, prefix_nil_inv.
  - destruct x; simplify_eq; try (split; [done|by intros ? [=]]).
    destruct (walk false fs1 eval_hops [] (comps_of _)) as [[q hq]|x] eqn:Hw';
      [|simplify_eq; split; [done|by intros ? [=]]].
    destruct (negb _) eqn:Hin; simplify_eq; (split; [done|]); [by intros ? [=]|].
    intros p [= <-]. split; [|eauto]. intros h loc h' Hloc. rewrite (plain_comps _ Hcomp) in Hloc.
    boolprop. apply withinRoot_prefix in Hin. rewrite comps_of_path_str in Hin
      by (eapply walk_names; [| |exact Hw']; [done|apply comps_of_ok]).
    eapply missing_parent_target; eauto using rok_clean.
Qed.

(** *** Effects of the handlers *)

Lemma io_bind_inv {A B} (m : IO A) (k : A -> IO B) fs fs' r :
  io_bind m k fs = (fs', r) ->
  (exists e, m fs = (fs', Err e) /\ r = Err e) \/
  (exists fs1 a, m fs = (fs1, Ok a) /\ k a fs1 = (fs', r)).
Proof. unfold io_bind. destruct (m fs) as [fs1 [a|e]] eqn:E; intros H; simplify_eq; eauto 6. Qed.

Lemma io_get_inv {A} (f : FS -> result fs_err A) w fs fs' r :
  io_get f w fs = (fs', r) -> fs' = fs /\ (forall a, r = Ok a -> f fs = Ok a).
Proof. unfold io_get. intros [= <- <-]. split; [done|]. intros a. by destruct (f fs); intros [= <-]. Qed.

Lemma io_run_inv {A} (f : FS -> FS * result fs_err A) w fs fs' r :
  io_run f w fs = (fs', r) -> exists r', f fs = (fs', r') /\ (forall a, r = Ok a -> r' = Ok a).
Proof.
  unfold io_run. destruct (f fs) as [fs1 r1]. intros [= <- <-]. eexists. split; [done|].
  intros a. by destruct r1; intros [= <-].
Qed.

(** Peel the first call of a handler off hypothesis [H]. *)
Ltac io_peel H x Hm :=
  apply io_bind_inv in H as [(? & Hm & ->)|(? & x & Hm & H)].

Lemma io_bind_Ok {A B} (m : IO A) (k : A -> IO B) fs fs' b :
  io_bind m k fs = (fs', Ok b) -> exists fs1 a, m fs = (fs1, Ok a) /\ k a fs1 = (fs', Ok b).
Proof. unfold io_bind. destruct (m fs) as [fs1 [a|e]] eqn:E; intros H; simplify_eq; eauto. Qed.

Ltac io_ok H x Hm :=
  apply io_bind_Ok in H as (? & x & Hm & H).

Lemma resolveBad_spec flt e sid rel fs fs' r :
  root_ok e fs -> links_ok (comps_of (root e)) fs -> resolveBad flt e sid rel fs = (fs', r) ->
  scope_made e sid fs fs' /\
  (forall p, r = Ok p -> target_in (scope e sid) fs' p /\
     exists x, walk false fs' eval_hops [] (comps_of (Dir p)) = Ok x).
Proof.
  intros Hok Hl. unfold resolveBad. destruct (resolveSafe flt e sid rel fs) as [fs1 r1] eqn:E.
  destruct (resolveSafe_spec _ _ _ _ _ _ _ Hok Hl E) as [H1 H2]. intros [= <- <-].
  split; [done|]. intros p. destruct r1; [|done]. intros [= <-]. by apply H2.
Qed.

Lemma OpenFile_spec flt creat trunc R fs p fs' r :
  target_in R fs p -> OpenFile flt creat trunc fs p = (fs', r) ->
  confined R fs fs' /\ (forall q, fs' !! q = Some DirNode -> fs !! q = Some DirNode) /\
  (forall loc, r = Ok loc -> R `prefix_of` loc /\ exists c, fs' !! loc = Some (File c)).
Proof.
  intros Ht. unfold OpenFile. destruct (walk creat fs kernel_hops [] (comps_of p)) as [[loc h]|x] eqn:E.
  2:{ intros [= <- <-]. split_and!; by auto with go_inv. }
  assert (R `prefix_of` loc) as Hp.
  { destruct creat; [by eapply Ht|]. eapply Ht. by apply walk_creat. }
  assert (forall n fs0, n <> DirNode -> fs0 = <[loc := n]> fs ->
    forall q, fs0 !! q = Some DirNode -> fs !! q = Some DirNode) as Hnd.
  { intros n fs0 Hn -> q. rewrite lookup_insert_Some. naive_solver. }
  destruct (deny flt loc); [intros [= <- <-]; split_and!; by auto with go_inv|].
  destruct (node_at fs loc) as [[c| | |]|] eqn:Hn; intros [= <- <-]; try (split_and!; by auto with go_inv).
  - assert (fs !! loc = Some (File c)) as Hf by (by destruct loc).
    destruct trunc; (split_and!; [by auto with go_inv|first [done|by eapply (Hnd (File ""))]|]); intros ? [= <-];
      rewrite ?lookup_insert_eq; eauto.
  - split_and!; [by auto with go_inv|by eapply (Hnd (File ""))|]. intros ? [= <-]. rewrite lookup_insert_eq. eauto.
Qed.

Lemma WriteString_spec flt R fs loc data fs' r :
  R `prefix_of` loc -> WriteString flt fs loc data = (fs', r) ->
  confined R fs fs' /\ (forall q, fs' !! q = Some DirNode -> fs !! q = Some DirNode) /\
  exists c, fs' = <[loc := File c]> fs.
Proof.
  intros Hp Heq. assert (exists c, fs' = <[loc := File c]> fs) as [c ->].
  { unfold WriteString in Heq. repeat case_match; simplify_eq; eauto. }
  split_and!; [by auto with go_inv| |by eauto]. intros q. rewrite lookup_insert_Some. naive_solver.
Qed.

Lemma handler_fst m fs : (handler m fs).1 = (m fs).1.
Proof. unfold handler. by destruct (m fs). Qed.

(** What every tool promises about the store: nothing changes outside the
    session's scope and no directory appears but the scope itself. *)
Definition tool_effect (e : Engine) (sid : string) (fs fs' : FS) : Prop :=
  confined (scope e sid) fs fs' /\
  (forall q, fs' !! q = Some DirNode -> fs !! q = Some DirNode \/ q = scope e sid).

Lemma scope_made_effect e sid fs fs' : scope_made e sid fs fs' -> tool_effect e sid fs fs'.
Proof.
  intros [->|[_ ->]]; [split; by auto with go_inv|]. split; [by auto with go_inv|].
  intros q. rewrite lookup_insert_Some. naive_solver.
Qed.

Lemma tool_effect_trans e sid fs1 fs2 fs3 :
  tool_effect e sid fs1 fs2 -> tool_effect e sid fs2 fs3 -> tool_effect e sid fs1 fs3.
Proof.
  intros [H1 H2] [H3 H4]. split; [by eapply confined_trans|]. intros q [Hq|Hq]%H4; [by apply H2|by right].
Qed.

Lemma tool_effect_refl e sid fs : tool_effect e sid fs fs.
Proof. split; by auto with go_inv. Qed.

#[export] Hint Resolve scope_made_effect tool_effect_refl : go_inv.

(** The write half shared by write_patch and apply_code_patch. *)
Lemma write_effect {B} flt creat trunc e sid p data w1 w2 (k : fpath -> nat -> IO B) fs fs' r :
  target_in (scope e sid) fs p -> (forall loc n fs, (k loc n fs).1 = fs) ->
  (let! loc := io_run (fun fs => OpenFile flt creat trunc fs p) w1 in
   let! n := io_run (fun fs => WriteString flt fs loc data) w2 in k loc n) fs = (fs', r) ->
  tool_effect e sid fs fs'.
Proof.
  intros Ht Hk H. io_peel H loc Hm.
  - apply io_run_inv in Hm as (r' & Hm & _). apply (OpenFile_spec _ _ _ _ _ _ _ _ Ht) in Hm as (? & Hd & _).
    split; [done|]. auto.
  - apply io_run_inv in Hm as (r' & Hm & Hr). apply (OpenFile_spec _ _ _ _ _ _ _ _ Ht) in Hm as (Hc & Hd & Hloc).
    destruct (Hloc loc (Hr _ eq_refl)) as [Hp _]. apply (tool_effect_trans _ _ _ x); [split; auto|].
    io_peel H n Hw; apply io_run_inv in Hw as (r'' & Hw & _);
      apply (WriteString_spec _ _ _ _ _ _ _ Hp) in Hw as (? & Hd' & _).
    + split; [done|auto].
    + specialize (Hk loc n x0). rewrite H in Hk. simpl in Hk. subst. split; [done|auto].
Qed.

Lemma lift_res_inv {A} (r : result gerror A) fs fs' r' : lift_res r fs = (fs', r') -> fs' = fs /\ r' = r.
Proof. by intros [= <- <-]. Qed.

Ltac io_start fs fs' r H :=
  rewrite handler_fst;
  match goal with |- context [(?m fs).1] => destruct (m fs) as [fs' r] eqn:H end; simpl.

Section effects.
Context (e : Engine) (sid : string) (fs : FS).
Hypothesis Hok : root_ok e fs.
Hypothesis Hl : links_ok (comps_of (root e)) fs.

Lemma runReadFile_made flt cancel a limits : scope_made e sid fs (runReadFile flt cancel e sid a limits fs).1.
Proof.
  unfold runReadFile. io_start fs fs' r H.
  io_peel H path Hm; apply lift_res_inv in Hm as [-> _]; [first [by left|done]|].
  cbv zeta in H. io_peel H p Hm; apply (resolveBad_spec _ _ _ _ _ _ _ Hok Hl) in Hm as [Hs _]; [first [by left|done]|].
  io_peel H st Hm; apply io_get_inv in Hm as [-> _]; [first [by left|done]|].
  destruct st; injection H as <- _; first [by left|done].
Qed.

Lemma runListDir_made js flt cancel a : scope_made e sid fs (runListDir js flt cancel e sid a fs).1.
Proof.
  unfold runListDir. io_start fs fs' r H.
  io_peel H path Hm; apply lift_res_inv in Hm as [-> _]; [first [by left|done]|].
  io_peel H p Hm; apply (resolveBad_spec _ _ _ _ _ _ _ Hok Hl) in Hm as [Hs _]; [first [by left|done]|].
  io_peel H st Hm; apply io_get_inv in Hm as [-> _]; [first [by left|done]|].
  destruct (negb (is_dir st)); [injection H as <- _; first [by left|done]|].
  io_peel H en Hm; apply io_get_inv in Hm as [-> _]; [first [by left|done]|].
  injection H as <- _; first [by left|done].
Qed.

Lemma runWritePatch_effect js flt cancel a limits :
  tool_effect e sid fs (runWritePatch js flt cancel e sid a limits fs).1.
Proof.
  unfold runWritePatch. io_start fs fs' r H.
  io_peel H path Hm; apply lift_res_inv in Hm as [-> _]; [by auto with go_inv|].
  io_peel H content Hm; apply lift_res_inv in Hm as [-> _]; [by auto with go_inv|].
  cbv zeta in H. destruct (negb _ && _); [injection H as <- _; by auto with go_inv|].
  destruct (_ <? _)%Z; [injection H as <- _; by auto with go_inv|].
  io_peel H p Hm; apply (resolveBad_spec _ _ _ _ _ _ _ Hok Hl) in Hm as [Hs Hp]; [by auto with go_inv|].
  destruct (Hp p eq_refl) as [Ht [x' Hx]].
  apply scope_made_effect in Hs. eapply tool_effect_trans; [exact Hs|].
  io_peel H u Hm.
  - destruct (default false _); [|injection Hm as <- _; by auto with go_inv].
    apply io_run_inv in Hm as (r' & Hm & _). apply (f_equal fst) in Hm.
    unfold MkdirAll in Hm. rewrite (mkdirs_resolves _ _ [] _ _ Hx) in Hm. simpl in Hm. subst. by auto with go_inv.
  - assert (x0 = x) as ->.
    { destruct (default false _); [|by injection Hm].
      apply io_run_inv in Hm as (r' & Hm & _). apply (f_equal fst) in Hm.
      unfold MkdirAll in Hm. by rewrite (mkdirs_resolves _ _ [] _ _ Hx) in Hm. }
    eapply write_effect; [exact Ht| |exact H]. done.
Qed.

Lemma compute_effect flt a limits fs' r :
  computeApplyCodePatch flt e sid a limits fs = (fs', r) ->
  scope_made e sid fs fs' /\ (forall plan, r = Ok plan -> target_in (scope e sid) fs' (p_resolved plan)).
Proof.
  intros H. unfold computeApplyCodePatch in H.
  assert (forall fs1, fs1 = fs -> scope_made e sid fs fs1) as H0 by (by left).
  io_peel H path Hm; apply lift_res_inv in Hm as [-> _]; [split; [by auto|by intros ? [=]]|].
  io_peel H search Hm; apply lift_res_inv in Hm as [-> _]; [split; [by auto|by intros ? [=]]|].
  io_peel H replace Hm; apply lift_res_inv in Hm as [-> _]; [split; [by auto|by intros ? [=]]|].
  io_peel H p Hm; apply (resolveBad_spec _ _ _ _ _ _ _ Hok Hl) in Hm as [Hs Hp]; [split; [by auto|by intros ? [=]]|].
  destruct (Hp p eq_refl) as [Ht _].
  io_peel H raw Hm; apply io_get_inv in Hm as [-> _]; [split; [by auto|by intros ? [=]]|].
  io_peel H isd Hm; apply io_get_inv in Hm as [-> _]; [split; [by auto|by intros ? [=]]|].
  cbv zeta in H. unfold throw, io_ret in H.
  repeat match type of H with (if ?b then _ else _) _ = _ => destruct b; [simplify_eq/=; split; [done|by intros ? [=]]|] end.
  simplify_eq/=. split; [done|]. by intros ? [= <-].
Qed.

Lemma inner_effect flt a limits : tool_effect e sid fs (applyCodePatchInner flt e sid a limits fs).1.
Proof.
  destruct (applyCodePatchInner flt e sid a limits fs) as [fs' r] eqn:H. simpl.
  unfold applyCodePatchInner in H. io_peel H plan Hm; apply compute_effect in Hm as [Hs Ht]; [by auto with go_inv|].
  specialize (Ht plan eq_refl). eapply tool_effect_trans; [by apply scope_made_effect|].
  eapply write_effect; [exact Ht| |exact H]. done.
Qed.

Lemma runApplyCodePatch_effect js flt cancel a limits :
  tool_effect e sid fs (runApplyCodePatch js flt cancel e sid a limits fs).1.
Proof.
  unfold runApplyCodePatch. rewrite handler_fst. pose proof (inner_effect flt a limits) as Hi.
  unfold io_bind, io_ret. by destruct (applyCodePatchInner flt e sid a limits fs) as [fs' [r|x]].
Qed.

Lemma Run_effect enc flt cancel tool a limits :
  tool_effect e sid fs (Run enc flt cancel e sid tool a limits fs).1.
Proof.
  unfold Run.
  destruct (String.eqb tool "read_file").
  { pose proof (scope_made_effect _ _ _ _ (runReadFile_made flt cancel a limits)). by destruct (runReadFile _ _ _ _ _ _ _). }
  destruct (String.eqb tool "list_dir").
  { pose proof (scope_made_effect _ _ _ _ (runListDir_made (json_list enc) flt cancel a)). by destruct (runListDir _ _ _ _ _ _ _). }
  destruct (String.eqb tool "write_patch").
  { pose proof (runWritePatch_effect (json_write enc) flt cancel a limits). by destruct (runWritePatch _ _ _ _ _ _ _ _). }
  destruct (String.eqb tool "apply_code_patch"); [|by auto with go_inv].
  pose proof (runApplyCodePatch_effect (json_patch enc) flt cancel a limits).
  by destruct (runApplyCodePatch _ _ _ _ _ _ _ _).
Qed.
End effects.

(** C1: workspace confinement: whatever tool call the engine runs, with any
    arguments, I/O failures and cancellation, no file system node outside the
    session's scope (the workspace root, or the session's directory in
    per-session mode) is created, changed or removed, and the only directory
    that can appear is the scope itself, provided the root is a real directory
    and no link below it is broken. *)
Theorem fsops_confined (enc : encoders) (flt : faults) (cancel : option nat) (e : Engine) (sid tool : string)
    (a : args) (limits : Limits) (fs : FS) :
  root_ok e fs -> links_ok (comps_of (root e)) fs ->
  let fs' := (Run enc flt cancel e sid tool a limits fs).1 in
  (forall q, ~ scope e sid `prefix_of` q -> fs' !! q = fs !! q) /\
  (forall q, fs' !! q = Some DirNode -> fs !! q = Some DirNode \/ q = scope e sid).
Proof. intros Hok Hl. by apply Run_effect. Qed.

(** ** apply_code_patch *)

(** A resolved path that can be opened is the canonical location itself. *)
Lemma resolveBad_existing flt e sid rel fs fs' p h loc h' :
  root_ok e fs -> links_ok (comps_of (root e)) fs -> resolveBad flt e sid rel fs = (fs', Ok p) ->
  walk false fs' h [] (comps_of p) = Ok (loc, h') ->
  p = path_str loc /\ comps_of p = loc /\ canonical fs' loc /\ withinRoot (scoped_root e sid) p = true.
Proof.
  intros Hok Hl Heq Hw. unfold resolveBad in Heq.
  destruct (resolveSafe flt e sid rel fs) as [fs1 [p1|]] eqn:Hres; simplify_eq.
  unfold resolveSafe, io_bind at 1 in Hres.
  destruct (rootForCtx flt e sid fs) as [fs1 r1] eqn:Hroot.
  destruct (rootForCtx_spec _ _ _ _ _ _ Hok Hroot) as [Hmade Hr1].
  destruct r1 as [sr|x]; [|done]. specialize (Hr1 sr eq_refl) as ->. unfold throw in Hres.
  destruct (String.eqb rel ""); [done|]. destruct (is_rooted rel) eqn:Habs; [done|].
  destruct (has_dotdot (Clean rel)) eqn:Hdd; [done|].
  destruct (candidate_comps e sid rel (rok_clean _ _ Hok) Habs Hdd) as (ds & Hcomp & Hne & Hcand).
  rewrite Hcand in Hres. unfold EvalSymlinks in Hres. rewrite (plain_comps _ Hcomp) in Hres.
  destruct (walk false fs1 eval_hops [] (scope e sid ++ ds)) as [[q hq]|x] eqn:Hwe.
  - pose proof (walk_canonical _ _ _ _ _ _ (canonical_nil fs1) Hwe) as Hq.
    assert (Forall name_ok q) as Hnames.
    { eapply walk_names; [| |exact Hwe]; [done|]. eapply Forall_impl; [exact Hcomp|]. apply plain_name_ok. }
    destruct (negb _) eqn:Hin; simplify_eq. rewrite comps_of_path_str in Hw |- * by done.
    rewrite <-(walk_det _ _ _ _ _ _ _ _ _ _ (Hq h) Hw). boolprop. done.
  - exfalso. destruct x; try done.
    destruct (walk false fs1 eval_hops [] (comps_of _)) as [[q hq]|x] eqn:Hw'; [|done].
    destruct (negb _); simplify_eq. rewrite (plain_comps _ Hcomp) in Hw.
    by pose proof (walk_err_hops _ _ _ _ _ _ _ Hw Hwe).
Qed.

Lemma ReadFile_inv flt fs p c :
  ReadFile flt fs p = Ok c ->
  exists loc h, walk false fs kernel_hops [] (comps_of p) = Ok (loc, h) /\ deny flt loc = false /\
    fs !! loc = Some (File c) /\ loc <> [].
Proof.
  unfold ReadFile, OpenRead. destruct (walk false fs kernel_hops [] (comps_of p)) as [[loc h]|]; [|done].
  destruct (deny flt loc) eqn:Hd; [done|]. destruct (node_at fs loc) as [[]|] eqn:Hn; try done.
  intros [= <-]. exists loc, h. split_and!; try done; by destruct loc.
Qed.

(** The plan of an accepted patch. *)
Record patch_plan (e : Engine) (sid : string) (a : args) (fs1 : FS) (plan : applyCodePatchPlan)
    (loc : fpath) (pre search replace post : string) : Prop := {
  pp_search : argString a "search_string" = Ok search;
  pp_replace : argStringAllowEmpty a "replace_string" = Ok replace;
  pp_file : fs1 !! loc = Some (File (p_original plan));
  pp_canonical : canonical fs1 loc;
  pp_nonempty : loc <> [];
  pp_resolved : p_resolved plan = path_str loc /\ comps_of (p_resolved plan) = loc;
  pp_within : withinRoot (scoped_root e sid) (p_resolved plan) = true;
  pp_original : p_original plan = pre +:+ (search +:+ post);
  pp_unique : Index post search = None;
  pp_new : p_newContent plan = pre +:+ (replace +:+ post);
  pp_line : p_lineNumber plan = Z.of_nat (length (SplitByte LF pre));
  pp_diff : p_unifiedDiff plan = renderUnifiedDiff (p_path plan) (p_original plan) (p_newContent plan)
              (String.length pre) (String.length search) (String.length replace);
}.

Lemma argString_nonempty a k s : argString a k = Ok s -> s <> "".
Proof.
  unfold argString. destruct (arg_lookup a k) as [[]|]; try done.
  destruct (String.eqb_spec s0 ""); [done|]. by intros [= <-].
Qed.

Lemma compute_plan flt e sid a limits fs fs1 plan :
  root_ok e fs -> links_ok (comps_of (root e)) fs ->
  computeApplyCodePatch flt e sid a limits fs = (fs1, Ok plan) ->
  exists loc pre search replace post, patch_plan e sid a fs1 plan loc pre search replace post /\
    deny flt loc = false /\ (zlen (p_newContent plan) <= write_cap limits)%Z.
Proof.
  intros Hok Hl H. unfold computeApplyCodePatch in H.
  io_ok H path Hm. apply lift_res_inv in Hm as [-> _].
  io_ok H search Hm. apply lift_res_inv in Hm as [-> Hsearch].
  io_ok H replace Hm. apply lift_res_inv in Hm as [-> Hreplace].
  io_ok H p Hres.
  io_ok H raw Hm. apply io_get_inv in Hm as [-> Hread]. specialize (Hread raw eq_refl).
  io_ok H isd Hm. apply io_get_inv in Hm as [-> _].
  destruct (ReadFile_inv _ _ _ _ Hread) as (loc & h & Hw & Hdeny & Hfile & Hne).
  destruct (resolveBad_existing _ _ _ _ _ _ _ _ _ _ Hok Hl Hres Hw) as (Hp & Hcp & Hcan & Hwithin).
  cbv zeta in H. destruct isd; [done|].
  destruct (Count raw search =? 0) eqn:H0; [done|]. destruct (1 <? Count raw search) eqn:H1; [done|].
  apply Nat.eqb_neq in H0. boolprop.
  destruct (Count_one raw search) as (pre & post & Hraw & Hidx & Huniq);
    [by eapply argString_nonempty|lia|]. rewrite Hidx in H. simpl in H.
  assert (str_take (String.length pre) raw = pre) as Htake by (by rewrite Hraw, str_take_app_length).
  assert (str_drop (String.length pre + String.length search) raw = post) as Hdrop.
  { by rewrite Hraw, <-str_drop_drop, !str_drop_app_length. }
  rewrite Htake, Hdrop in H. destruct (_ <? _)%Z eqn:Hcap; [done|]. boolprop. injection H as <- <-.
  exists loc, pre, search, replace, post. split; [|done].
  split; try done. simpl. rewrite <-Count_byte_Split. unfold count_lines. lia.
Qed.

Lemma node_at_lookup fs loc c : node_at fs loc = Some (File c) -> fs !! loc = Some (File c).
Proof. by destruct loc. Qed.

Lemma WriteString_ok flt fs loc data fs' n c0 :
  node_at fs loc = Some (File c0) -> WriteString flt fs loc data = (fs', Ok n) ->
  fs' = <[loc := File (c0 +:+ data)]> fs /\ n = String.length data.
Proof. intros Hf. unfold WriteString. rewrite Hf. repeat case_match; intros; by simplify_eq. Qed.

Lemma node_at_insert fs loc n : loc <> [] -> node_at (<[loc := n]> fs) loc = Some n.
Proof. destruct loc; [done|]. intros _. apply lookup_insert_eq. Qed.

(** Truncating an existing file and writing it afresh. *)
Lemma truncate_write {B} flt fs p loc c0 data w1 w2 (k : fpath -> nat -> IO B) fs' b :
  canonical fs loc -> comps_of p = loc -> fs !! loc = Some (File c0) -> loc <> [] ->
  (forall l n s s' b, k l n s = (s', Ok b) -> s' = s) ->
  (let! loc := io_run (fun fs => OpenFile flt false true fs p) w1 in
   let! n := io_run (fun fs => WriteString flt fs loc data) w2 in k loc n) fs = (fs', Ok b) ->
  fs' = <[loc := File data]> fs /\ k loc (String.length data) fs' = (fs', Ok b).
Proof.
  intros Hcan Hp Hf Hne Hk H. io_ok H l Hm. apply io_run_inv in Hm as (r' & Hm & Hr).
  rewrite (Hr l eq_refl) in Hm. unfold OpenFile in Hm. rewrite Hp, Hcan in Hm.
  destruct (deny flt loc); [done|]. assert (node_at fs loc = Some (File c0)) as Hn by (by destruct loc).
  rewrite Hn in Hm. injection Hm as <- <-.
  io_ok H n Hw. apply io_run_inv in Hw as (r'' & Hw & Hr').
  rewrite (Hr' n eq_refl) in Hw. apply (WriteString_ok _ _ _ _ _ _ "") in Hw as [-> ->]; [|by apply node_at_insert].
  rewrite str_app_nil_l, insert_insert_eq in H. by pose proof (Hk _ _ _ _ _ H) as ->.
Qed.


(** what an applied code patch is: when apply_code_patch succeeds, the
    file at the resolved location inside the session's scope was
    [pre ++ search ++ post] with no further match in [post], it now is
    [pre ++ replace ++ post] within the size limit, the reported line is that of
    the match, the returned snapshot is the old content, and nothing else in the
    store changed (the session directory may have been created first). *)
Theorem apply_code_patch_replaces_match (flt : faults) (e : Engine) (sid : string) (a : args) (limits : Limits)
    (fs fs' : FS) (snapshot resolved : string) (res : ApplyCodePatchResult) :
  root_ok e fs -> links_ok (comps_of (root e)) fs ->
  applyCodePatchInner flt e sid a limits fs = (fs', Ok (snapshot, resolved, res)) ->
  exists fs1 pre search replace post,
    argString a "search_string" = Ok search /\ argStringAllowEmpty a "replace_string" = Ok replace /\
    scope_made e sid fs fs1 /\ scope e sid `prefix_of` comps_of resolved /\
    fs1 !! comps_of resolved = Some (File snapshot) /\ snapshot = pre +:+ (search +:+ post) /\ Index post search = None /\
    fs' = <[comps_of resolved := File (pre +:+ (replace +:+ post))]> fs1 /\
    ar_BytesWritten res = zlen (pre +:+ (replace +:+ post)) /\ (ar_BytesWritten res <= write_cap limits)%Z /\
    ar_LineNumber res = Z.of_nat (length (SplitByte LF pre)).
Proof.
  intros Hok Hl H. unfold applyCodePatchInner in H. io_ok H plan Hc.
  pose proof (compute_effect e sid fs Hok Hl _ _ _ _ _ Hc) as [Hmade _].
  destruct (compute_plan _ _ _ _ _ _ _ _ Hok Hl Hc) as (loc & pre & search & replace & post & Hpp & _ & Hcap).
  destruct Hpp as [Hs Hr Hf Hcan Hne [Hres Hcomp] Hin Ho Hu Hn Hline Hd].
  apply (truncate_write _ _ _ loc (p_original plan)) in H as [-> Hk]; try done; [|by intros ? ? ? ? ? [= <-]].
  injection Hk as <- <- <-. simpl. exists x, pre, search, replace, post.
  rewrite Hcomp, <-Hn. unfold zlen in *. split_and!; try done.
  - apply withinRoot_prefix in Hin. by rewrite Hcomp in Hin.
Qed.

(** *** Rolling a patch back *)

Lemma scope_made_root_ok e sid fs fs1 : root_ok e fs -> scope_made e sid fs fs1 -> root_ok e fs1.
Proof.
  intros Hok [->|[Hn ->]]; [done|]. destruct Hok as [H1 H2 H3 H4].
  destruct (scoped_root_comps e sid H1) as (ss & _ & _ & Hsc & Hp). split; [done| | |].
  - intros h. by apply walk_insert.
  - rewrite node_at_insert_ne; [done|]. intros Heq. rewrite Heq in Hn.
    destruct (clean_root_comps _ H1) as (cs & Hne & _ & _ & Hcs). rewrite Hcs in *. destruct cs; [done|]. simpl in H3. congruence.
  - intros p n [[<- _]|[_ ?]]%lookup_insert_Some; [by rewrite Hsc|by eapply H4].
Qed.

Lemma file_insert_root_ok e fs loc c0 c :
  root_ok e fs -> fs !! loc = Some (File c0) -> root_ok e (<[loc := File c]> fs).
Proof.
  intros [H1 H2 H3 H4] Hf. split; [done| | |].
  - intros h. by rewrite (walk_file_insert _ _ _ c0).
  - rewrite node_at_insert_ne; [done|]. intros ->.
    destruct (clean_root_comps _ H1) as (cs & Hne & _ & _ & Hcs). rewrite Hcs in *. destruct cs; [done|]. simpl in H3. congruence.
  - intros p n [[<- _]|[_ ?]]%lookup_insert_Some; by eapply H4.
Qed.

(** In a store where the scope holds an existing file, [rootForCtx] changes
    nothing. *)
Lemma rootForCtx_stable flt e sid fs loc c fs' r :
  root_ok e fs -> canonical fs loc -> scope e sid `prefix_of` loc -> fs !! loc = Some (File c) ->
  rootForCtx flt e sid fs = (fs', r) -> fs' = fs /\ (forall s, r = Ok s -> s = scoped_root e sid).
Proof.
  intros Hok Hcan [k ->] Hf Hr. apply rootForCtx_spec in Hr as [[->|[Hn _]] Hs]; [done| |done].
  exfalso. apply canonical_app in Hcan as [Hcan _]. apply canonical_lookup in Hcan as [n Hn']; [congruence|].
  destruct (scoped_root_comps e sid (rok_clean _ _ Hok)) as (ss & _ & _ & -> & _).
  destruct (clean_root_comps _ (rok_clean _ _ Hok)) as (cs & Hne & _ & _ & ->). by destruct cs.
Qed.

Lemma restore_rolls_back flt flt' e sid a limits fs fs2 fs3 snapshot resolved res :
  root_ok e fs -> links_ok (comps_of (root e)) fs ->
  applyCodePatchInner flt e sid a limits fs = (fs2, Ok (snapshot, resolved, res)) ->
  RestoreFile flt' e sid resolved snapshot fs2 = (fs3, Ok tt) -> scope_made e sid fs fs3.
Proof.
  intros Hok Hl H Hrest. unfold applyCodePatchInner in H. io_ok H plan Hc.
  pose proof (compute_effect e sid fs Hok Hl _ _ _ _ _ Hc) as [Hmade _].
  destruct (compute_plan _ _ _ _ _ _ _ _ Hok Hl Hc) as (loc & pre & search & replace & post & Hpp & _ & Hcap).
  destruct Hpp as [Hs Hr Hf Hcan Hne [Hres Hcomp] Hin Ho Hu Hn Hline Hd].
  apply (truncate_write _ _ _ loc (p_original plan)) in H as [-> Hk]; try done; [|by intros ? ? ? ? ? [= <-]].
  injection Hk as <- <- <-. apply withinRoot_prefix in Hin. rewrite Hcomp in Hin. fold (scope e sid) in Hin.
  set (fs2 := <[loc := File (p_newContent plan)]> x) in *.
  assert (root_ok e fs2) as Hok2 by (eapply file_insert_root_ok; eauto using scope_made_root_ok).
  assert (canonical fs2 loc) as Hcan2 by (intros h; unfold fs2; rewrite (walk_file_insert _ _ _ _ _ _ _ _ Hf); apply Hcan).
  assert (fs2 !! loc = Some (File (p_newContent plan))) as Hf2 by (apply lookup_insert_eq).
  unfold RestoreFile in Hrest. io_ok Hrest sr Hr2.
  destruct (rootForCtx_stable _ _ _ _ _ _ _ _ Hok2 Hcan2 Hin Hf2 Hr2) as [-> Hsr]. rewrite (Hsr _ eq_refl) in Hrest.
  io_ok Hrest real Hreal. injection Hreal as <- Hreal. destruct (negb _); [done|].
  apply (truncate_write _ _ _ loc (p_newContent plan)) in Hrest as [-> _]; try done; [|by intros ? ? ? ? ? [= <-]].
  unfold fs2. rewrite insert_insert_eq, insert_id by done. done.
Qed.

(** ** The unified diff *)

(** The two sides a hunk shows. *)
Definition old_side (l : list hunk_line) : list string :=
  omap (fun h => match h with HCtx s | HDel s => Some s | HAdd _ => None end) l.
Definition new_side (l : list hunk_line) : list string :=
  omap (fun h => match h with HCtx s | HAdd s => Some s | HDel _ => None end) l.

Lemma sides_app l k : old_side (l ++ k) = old_side l ++ old_side k /\ new_side (l ++ k) = new_side l ++ new_side k.
Proof. split; apply omap_app. Qed.

Lemma sides_ctx l : old_side (HCtx <$> l) = l /\ new_side (HCtx <$> l) = l.
Proof. unfold old_side, new_side. split; induction l as [|x l IH]; csimpl; try done; by f_equal. Qed.
Lemma sides_del l : old_side (HDel <$> l) = l /\ new_side (HDel <$> l) = [].
Proof. unfold old_side, new_side. split; induction l as [|x l IH]; csimpl; try done; by f_equal. Qed.
Lemma sides_add l : old_side (HAdd <$> l) = [] /\ new_side (HAdd <$> l) = l.
Proof. unfold old_side, new_side. split; induction l as [|x l IH]; csimpl; try done; by f_equal. Qed.

(** The lines before and after an edit: a common head of [n] lines, a changed
    middle and a common tail. *)
Lemma edit_lines pre mid post :
  exists head t, 
    SplitByte LF (pre +:+ (mid +:+ post)) = head ++ t ++ drop 1 (SplitByte LF post) /\
    head = removelast (SplitByte LF pre) /\ length head = count_lines pre /\
    length head + length t = S (count_lines (pre +:+ mid)) /\ t <> [].
Proof.
  destruct (Split_concat LF pre (mid +:+ post)) as (ia & la & hb & tb & Ha & Hb & Hab).
  destruct (Split_concat LF mid post) as (im & lm & hp & tp & Hm & Hp & Hmp).
  destruct (Split_concat LF pre mid) as (ia' & la' & hm & tm & Ha' & Hm' & Ham).
  rewrite Ha in Ha'. apply app_inj_tail in Ha' as [<- <-].
  assert (length ia = count_lines pre) as Hlen.
  { pose proof (Count_byte_Split pre LF) as H. rewrite Ha, length_app in H. simpl in H. unfold count_lines. lia. }
  assert (length ia + length (SplitByte LF mid) = S (count_lines (pre +:+ mid))) as Hlen2.
  { unfold count_lines. rewrite Count_byte_Split, Ham, Hm', length_app. simpl. lia. }
  exists ia. rewrite Hab. rewrite Ha, removelast_last, Hp. rewrite Hmp in Hb.
  destruct im as [|i im]; simplify_eq/=; rewrite Hm in Hlen2; simpl in Hlen2.
  - exists [la +:+ (lm +:+ hp)]. split_and!; simpl; try done; lia.
  - exists ((la +:+ hb) :: im ++ [lm +:+ hp]). rewrite length_app in *. simpl in *. rewrite length_app. simpl.
    split_and!; try done; try lia. by rewrite <-app_assoc.
Qed.

Lemma slice_mid {A} (a b c : list A) i j : i = length a -> j = length a + length b -> slice i j (a ++ b ++ c) = b.
Proof.
  intros -> ->. unfold slice. rewrite drop_app_length.
  replace (length a + length b - length a) with (length b) by lia. apply take_app_length.
Qed.

(** the diff shown for approval is the edit: for the replacement of one
    match, the hunk's old side is a block of consecutive lines of the file, its
    new side is the block that replaces it in the edited file, everything
    around the block is equal in both, and the hunk header gives the block's
    position and its length on both sides. *)
Theorem unified_diff_is_the_edit (pre search replace post : string) :
  let before := pre +:+ (search +:+ post) in
  let after := pre +:+ (replace +:+ post) in
  let h := compute_hunk before after (String.length pre) (String.length search) (String.length replace) in
  exists front back,
    SplitByte LF before = front ++ old_side (hlines h) ++ back /\
    SplitByte LF after = front ++ new_side (hlines h) ++ back /\
    beforeStart h = (Z.of_nat (length front) + 1)%Z /\ afterStart h = beforeStart h /\
    beforeCount h = Z.of_nat (length (old_side (hlines h))) /\
    afterCount h = Z.of_nat (length (new_side (hlines h))).
Proof.
  intros before after h.
  destruct (edit_lines pre search post) as (head & tb & HB & Hh & Hn & Hlb & Hbne).
  destruct (edit_lines pre replace post) as (head' & ta & HA & Hh' & _ & Hla & Hane).
  rewrite <-Hh in Hh'. subst head'. clear Hh.
  set (tl := drop 1 (SplitByte LF post)) in *.
  assert (0 < length tb) by (destruct tb; simpl; [done|lia]).
  assert (0 < length ta) by (destruct ta; simpl; [done|lia]).
  assert (Hf : str_take (String.length pre) before = pre) by (apply str_take_app_length).
  assert (HL : str_take (String.length pre + String.length search) before = pre +:+ search).
  { unfold before. rewrite str_app_assoc, <-str_length_app. apply str_take_app_length. }
  assert (HL' : str_take (String.length pre + String.length replace) after = pre +:+ replace).
  { unfold after. rewrite str_app_assoc, <-str_length_app. apply str_take_app_length. }
  set (s := length head - diff_context). set (e := diff_context `min` length tl).
  assert (hlines h = (HCtx <$> drop s head) ++ (HDel <$> tb) ++ (HAdd <$> ta) ++ (HCtx <$> take e tl) /\
    beforeStart h = (Z.of_nat s + 1)%Z /\ afterStart h = (Z.of_nat s + 1)%Z /\
    beforeCount h = Z.of_nat (length head - s + length tb + e) /\
    afterCount h = Z.of_nat (length head - s + length ta + e)) as (Hlines & H1 & H2 & H3 & H4).
  { unfold h, compute_hunk. rewrite Hf, HL, HL'. unfold before, after. rewrite HB, HA. cbn [hlines beforeStart afterStart beforeCount afterCount].
    rewrite <-Hn. fold s. replace (count_lines (pre +:+ search)) with (length head + length tb - 1) by lia.
    replace (count_lines (pre +:+ replace)) with (length head + length ta - 1) by lia.
    rewrite !length_app.
    split_and!; try done.
    - f_equal; [|f_equal; [|f_equal]]; f_equal.
      + rewrite <-(take_drop s head) at 2. rewrite <-app_assoc. apply slice_mid; rewrite ?length_take, ?length_drop; lia.
      + apply slice_mid; lia.
      + apply slice_mid; lia.
      + rewrite <-(take_drop e tl) at 3. rewrite app_assoc. unfold e, diff_context.
        destruct (Nat.leb_spec (length head + (length ta + length tl)) (length head + length ta - 1 + 3));
          apply slice_mid; rewrite ?length_app, ?length_take; lia.
    - unfold s, e, diff_context. destruct (Nat.leb_spec (length head + (length tb + length tl)) (length head + length tb - 1 + 3)); lia.
    - unfold s, e, diff_context. destruct (Nat.leb_spec (length head + (length ta + length tl)) (length head + length ta - 1 + 3)); lia. }
  assert (old_side (hlines h) = drop s head ++ tb ++ take e tl) as Hold.
  { rewrite Hlines. rewrite !(proj1 (sides_app _ _)), !(proj1 (sides_ctx _)), (proj1 (sides_del _)), (proj1 (sides_add _)). done. }
  assert (new_side (hlines h) = drop s head ++ ta ++ take e tl) as Hnew.
  { rewrite Hlines. rewrite !(proj2 (sides_app _ _)), !(proj2 (sides_ctx _)), (proj2 (sides_del _)), (proj2 (sides_add _)). done. }
  exists (take s head), (drop e tl). unfold before, after. rewrite HB, HA, Hold, Hnew, H1, H2, H3, H4.
  rewrite !length_app, length_drop, !length_take. unfold s, e, diff_context. split_and!; try lia.
  - by rewrite <-!app_assoc, (app_assoc (take _ head)), !take_drop.
  - by rewrite <-!app_assoc, (app_assoc (take _ head)), !take_drop.
Qed.
