(* ===== verification/FsopsSpec.v ===== *)
(** * The workspace tools against their contract

    The chunk-stream contract of every tool of internal/fsops/run.go, the byte
    caps of read_file, the broken-link case that resolveSafe lets through, and
    the concrete stores that instantiate the theorems of Fsops.v. *)

From stdpp Require Import pretty.
From S2P Require Import Prelude GoString Event Paths Sandbox Os Fsops.

Lemma io_ret_inv {A} (x : A) fs fs' r : io_ret x fs = (fs', r) -> fs' = fs /\ r = Ok x.
Proof. by intros [= <- <-]. Qed.

Lemma Ok_inj {E A} (x y : A) : @Ok E A x = Ok y -> x = y.
Proof. by intros [= ->]. Qed.

(** ** Streams *)

Lemma handler_contract m fs :
  (forall fs' l, m fs = (fs', Ok l) -> contract l) -> contract (handler m fs).2.
Proof.
  intros H. unfold handler. destruct (m fs) as [fs' [l|e]]; simpl; [by eapply H|]. apply contract_exit.
Qed.

Lemma emitJSON_contract cancel b : contract (emitJSONResult cancel b).
Proof. destruct b; simpl; [unfold emitBytesResult|]; auto with go. Qed.

(** The bytes a stream carries on stdout. *)
Definition stdout_of (l : list ExecChunk) : string := str_concat (Data <$> l).

Lemma stdout_of_chunks l x : is_exit x = true -> Data x = "" -> stdout_of ((stdout_chunk <$> l) ++ [x]) = str_concat l.
Proof.
  intros _ Hx. unfold stdout_of. rewrite fmap_app, str_concat_app. simpl. rewrite Hx, !str_app_nil_r.
  f_equal. rewrite <-list_fmap_compose. by rewrite list_fmap_id.
Qed.

Lemma str_take_nil n : str_take n "" = "".
Proof. by destruct n. Qed.

Lemma read_loop_spec flt cancel fuel i room rest :
  String.length rest < fuel ->
  exists out code err, read_loop flt cancel fuel i room rest = (stdout_chunk <$> out) ++ [exit_chunk code err] /\
    (exists k, str_concat out = str_take k rest /\ (Z.of_nat k <= Z.max 0 room)%Z) /\
    (code = 0%Z -> str_concat out = str_take (Z.to_nat room) rest).
Proof.
  revert i room rest. induction fuel as [|fuel IH]; intros i room rest Hf; [lia|]. cbn [read_loop].
  destruct (Z.leb_spec room 0) as [Hr|Hr].
  { exists [], 0%Z, None. split_and!; [done| |].
    - exists 0. split; [by destruct rest|lia].
    - intros _. by replace (Z.to_nat room) with 0 by lia. }
  assert (forall code err, code <> 0%Z -> exists (out : list string) c e, [exit_chunk code err] = (stdout_chunk <$> out) ++ [exit_chunk c e] /\
    (exists k, str_concat out = str_take k rest /\ (Z.of_nat k <= Z.max 0 room)%Z) /\
    (c = 0%Z -> str_concat out = str_take (Z.to_nat room) rest)) as Herr.
  { intros code err Hc. exists [], code, err. split_and!; [done| |done]. exists 0. split; [by destruct rest|lia]. }
  case_decide; [by apply Herr|].
  set (n := Z.to_nat (Z.min room emitChunkBytes)).
  assert (0 < n) as Hn by (unfold n, emitChunkBytes; lia).
  destruct (String.eqb_spec (str_take n rest) "") as [He|He].
  { assert (rest = "") as -> by (destruct rest, n; simpl in He; done || lia).
    exists [], 0%Z, None. split_and!; [done| |].
    - exists 0. split; [done|lia].
    - intros _. by destruct (Z.to_nat room). }
  case_decide; [by apply Herr|].
  assert (String.length (str_take n rest) > 0) as Hlen by (destruct (str_take n rest); simpl; [done|lia]).
  destruct (IH (S i) (room - zlen (str_take n rest))%Z (str_drop n rest)) as (out & code & err & -> & (k & Hk & Hkr) & Hz).
  { rewrite str_length_take in Hlen. rewrite str_length_drop. lia. }
  exists (str_take n rest :: out), code, err. split; [done|]. rewrite str_concat_cons.
  assert (forall m, str_take n rest +:+ str_take m (str_drop n rest) = str_take (n + m) rest) as Hcat.
  { intros m. by rewrite str_take_add. }
  assert (zlen (str_take n rest) = Z.of_nat n \/ String.length rest <= n) as Hcase.
  { unfold zlen. rewrite str_length_take. lia. }
  assert (Z.of_nat n <= room)%Z as Hnr by (unfold n; lia).
  split.
  - destruct Hcase as [Hc|Hc].
    + exists (n + k). rewrite Hk, Hcat. split; [done|lia].
    + exists n. rewrite Hk, (str_drop_all n) by done. split; [by rewrite str_take_nil, str_app_nil_r|lia].
  - intros Hcode. rewrite (Hz Hcode). destruct Hcase as [Hc|Hc].
    + rewrite Hcat, Hc. f_equal. lia.
    + rewrite (str_drop_all n) by done. rewrite (str_take_all n), (str_take_all (Z.to_nat room)) by lia.
      by rewrite str_take_nil, str_app_nil_r.
Qed.

Lemma read_cap_bounds a limits : (0 < read_cap a limits <= hardReadFileMaxBytes)%Z.
Proof.
  unfold read_cap. unfold hardReadFileMaxBytes, defaultReadFileMaxBytes.
  destruct (argInt a "max_bytes") as [n|]; repeat case_match; boolprop; lia.
Qed.

(** read_file: the stream is a prefix of one file's content of at most
    [read_cap] bytes, which the arguments, the limits and the 4 MiB hard cap
    bound; and when the exit code is 0 it is exactly the first [read_cap] bytes
    of the file (the whole file if it is shorter). *)
Theorem read_file_streams_capped_prefix (flt : faults) (cancel : option nat) (e : Engine) (sid : string) (a : args)
    (limits : Limits) (fs : FS) :
  let '(fs', out) := runReadFile flt cancel e sid a limits fs in
  (zlen (stdout_of out) <= read_cap a limits <= hardReadFileMaxBytes)%Z /\
  exists code err, last out = Some (exit_chunk code err) /\
    (code = 0%Z -> exists loc c, fs' !! loc = Some (File c) /\
       stdout_of out = str_take (Z.to_nat (read_cap a limits)) c).
Proof.
  pose proof (read_cap_bounds a limits) as Hcap.
  assert (forall fs' e', let '(fs1, out) := (fs', [exit_chunk (-1) (Some e')]) : FS * list ExecChunk in
    (zlen (stdout_of out) <= read_cap a limits <= hardReadFileMaxBytes)%Z /\
    exists code err, last out = Some (exit_chunk code err) /\
    (code = 0%Z -> exists loc c, fs1 !! loc = Some (File c) /\
       stdout_of out = str_take (Z.to_nat (read_cap a limits)) c)) as Herr.
  { intros fs' e'. split; [change (zlen (stdout_of [exit_chunk (-1) (Some e')])) with 0%Z; lia|]. by eexists _, _. }
  unfold runReadFile, handler.
  match goal with |- context [io_bind ?m ?k fs] => destruct (io_bind m k fs) as [fs' r] eqn:H end.
  io_peel H path Hm; [apply Herr|]. apply lift_res_inv in Hm as [-> _]. cbv zeta in H.
  io_peel H p Hm; [apply Herr|]. io_peel H st Hst; [apply Herr|].
  apply io_get_inv in Hst as [-> Hst]. specialize (Hst st eq_refl).
  destruct st as [c| | |]; [|injection H as <- <-; apply Herr..].
  apply io_ret_inv in H as [-> ->].
  destruct (read_loop_spec flt cancel (S (String.length c)) 0 (read_cap a limits) c) as (out & code & err & -> & (k & Hk & Hkr) & Hz); [lia|].
  rewrite stdout_of_chunks by done. split.
  - rewrite Hk. unfold zlen. rewrite str_length_take. lia.
  - exists code, err. rewrite last_snoc. split; [done|]. intros Hc0.
    unfold OpenRead in Hst. destruct (walk _ _ _ _ _) as [[loc h]|]; [|done]. destruct (deny flt loc); [done|].
    exists loc, c. destruct (node_at _ loc) eqn:E; simplify_eq. split; [by apply node_at_lookup|by apply Hz].
Qed.

(** Every tool of the engine keeps the runner contract. *)
Lemma fsops_streams_contract (enc : encoders) (flt : faults) (cancel : option nat) (e : Engine)
    (sid tool : string) (a : args) (limits : Limits) (fs : FS) :
  match (Run enc flt cancel e sid tool a limits fs).2 with
  | Ok l => contract l
  | Err x => kind x = KBadRequest /\ (Run enc flt cancel e sid tool a limits fs).1 = fs
  end.
Proof.
  unfold Run.
  destruct (String.eqb tool "read_file").
  { assert (contract (runReadFile flt cancel e sid a limits fs).2) as H; [|by destruct (runReadFile _ _ _ _ _ _ _)].
    apply handler_contract. intros fs' l H. io_ok H p Hm. io_ok H q Hq. io_ok H st Hst.
    destruct st as [c| | |]; try done. apply io_ret_inv in H as [_ ->%Ok_inj].
    destruct (read_loop_spec flt cancel (S (String.length c)) 0 (read_cap a limits) c) as (out & code & err & -> & _); [lia|].
    by apply contract_snoc; [apply stdout_chunks_output|]. }
  destruct (String.eqb tool "list_dir").
  { assert (contract (runListDir (json_list enc) flt cancel e sid a fs).2) as H; [|by destruct (runListDir _ _ _ _ _ _ _)].
    apply handler_contract. intros fs' l H. io_ok H p Hm. io_ok H q Hq. io_ok H st Hst.
    destruct (negb (is_dir st)); [done|]. io_ok H en Hen. injection H as _ <-. apply emitJSON_contract. }
  destruct (String.eqb tool "write_patch").
  { assert (contract (runWritePatch (json_write enc) flt cancel e sid a limits fs).2) as H; [|by destruct (runWritePatch _ _ _ _ _ _ _ _)].
    apply handler_contract. intros fs' l H. io_ok H p Hm. io_ok H q Hq. cbv zeta in H.
    destruct (negb _ && _); [done|]. destruct (_ <? _)%Z; [done|]. io_ok H r Hr. io_ok H u Hu. io_ok H loc Hloc. io_ok H n Hn.
    injection H as _ <-. apply emitJSON_contract. }
  destruct (String.eqb tool "apply_code_patch"); [|done].
  assert (contract (runApplyCodePatch (json_patch enc) flt cancel e sid a limits fs).2) as H; [|by destruct (runApplyCodePatch _ _ _ _ _ _ _ _)].
  apply handler_contract. intros fs' l H. io_ok H p Hm. injection H as _ <-. apply emitJSON_contract.
Qed.

(** ** A broken link is an exit *)

Lemma argString_Ok a k s : arg_lookup a k = Some (AStr s) -> s <> "" -> argString a k = Ok s.
Proof. intros H Hs. unfold argString. rewrite H. by rewrite (proj2 (String.eqb_neq _ _)). Qed.

Lemma walk_link_snoc creat fs h R c t :
  canonical fs R -> node_at fs R = Some DirNode -> fs !! (R ++ [c]) = Some (Symlink t) ->
  walk creat fs (S h) [] (R ++ [c]) = walk creat fs h [] (comps_of t).
Proof.
  intros Hc Hd Hl. rewrite walk_app by done. rewrite Hc. cbn [walk]. rewrite Hd.
  assert (node_at fs (R ++ [c]) = Some (Symlink t)) as -> by (by destruct R). by rewrite app_nil_r.
Qed.

Lemma walk_missing creat fs h d f :
  canonical fs d -> node_at fs d = Some DirNode -> fs !! (d ++ [f]) = None ->
  walk creat fs h [] (d ++ [f]) = if creat then Ok (d ++ [f], h) else Err ENotExist.
Proof.
  intros Hc Hd Hn. rewrite walk_app by done. rewrite Hc. destruct h; cbn [walk]; rewrite Hd;
    (assert (node_at fs (d ++ [f]) = None) as -> by (by destruct d)); done.
Qed.

Lemma plain_has_no_dotdot c : plain c -> Clean c = c /\ has_dotdot c = false /\ is_rooted c = false.
Proof.
  intros Hc. pose proof Hc as (H1 & H2 & H3 & Hn).
  assert (is_rooted c = false) as Hr.
  { destruct c as [|x c]; [done|]. unfold is_rooted, HasPrefix. simpl in Hn. rewrite (Ascii.eqb_sym "/" x).
    by destruct (Ascii.eqb x "/"). }
  assert (clean_comps c = [c]) as Hcc.
  { unfold clean_comps. rewrite Split_single by done. cbn [foldl]. by rewrite clean_step_plain. }
  assert (forall u v, c <> u +:+ String slash v) as Hns.
  { intros u v ->. rewrite no_byte_app in Hn. simpl in Hn. by rewrite andb_false_r in Hn. }
  split_and!; [| |done].
  - unfold Clean. rewrite Hr, Hcc. simpl. by rewrite (proj2 (String.eqb_neq _ _)).
  - unfold has_dotdot. rewrite (proj2 (String.eqb_neq _ _)) by done. simpl.
    destruct (HasPrefix c "../") eqn:E1.
    { apply HasPrefix_app in E1 as [t Ht]. exfalso. by apply (Hns ".." t). }
    destruct (Contains c "/../") eqn:E2.
    { apply Contains_spec in E2 as (u & v & Hv). exfalso. apply (Hns u ("../" +:+ v)). by rewrite Hv. }
    destruct (HasSuffix c "/..") eqn:E3; [|done].
    apply HasSuffix_app in E3 as [u Hu]. exfalso. by apply (Hns u "..").
Qed.

(** the containment check misses a broken link: when a name directly
    below the workspace root is a link to a missing file in some existing
    directory, write_patch accepts the name and creates the file there, even if
    that directory is outside the workspace. *)
Theorem write_patch_follows_broken_link (js : string -> Z -> string -> option string) (root c t f content : string)
    (d : fpath) (fs : FS) :
  let e := mkEngine root false in
  root_ok e fs -> plain c -> content <> "" -> (zlen content <= defaultWriteFileMaxBytes)%Z ->
  fs !! (comps_of root ++ [c]) = Some (Symlink t) -> comps_of t = d ++ [f] ->
  canonical fs d -> node_at fs d = Some DirNode -> fs !! (d ++ [f]) = None ->
  (runWritePatch js no_faults None e "" [("path", AStr c); ("content", AStr content)] (mkLimits 0 0) fs).1
  = <[d ++ [f] := File content]> fs.
Proof.
  intros e Hok Hc Hne Hcap Hlink Ht Hcd Hdd Hmiss. destruct Hok as [Hcl Hcan Hdir _]. simpl in Hcl, Hcan, Hdir.
  destruct (clean_root_comps _ Hcl) as (cs & Hcsne & Hcs & Hroot & Hcomps). rewrite Hcomps in *.
  destruct (plain_has_no_dotdot c Hc) as (Hclean & Hnodd & Hrel).
  assert (Join2 root c = path_str (cs ++ [c])) as Hjoin.
  { destruct (Join2_comps cs c Hcsne Hcs Hrel) as (ds & Hds & Hcc & Hj).
    - rewrite Hclean. by destruct Hc as (_ & _ & ? & _).
    - rewrite Hclean. unfold has_dotdot in Hnodd. boolprop. done.
    - rewrite Hclean in *. rewrite Hroot. unfold path_str at 1. rewrite Hj. unfold path_str. do 3 f_equal.
      destruct (decide (ds = [])) as [->|Hdn]; [by destruct Hc as (_ & ? & _)|].
      apply (f_equal (SplitByte slash)) in Hcc. destruct Hc as (_ & _ & _ & Hcn). rewrite Split_single in Hcc by done.
      rewrite Split_Join in Hcc; [by rewrite Hcc|done|]. eapply Forall_impl; [exact Hds|]. by intros x (_ & _ & _ & ?). }
  assert (Hpl : Forall plain (cs ++ [c])) by (apply Forall_app; by rewrite Forall_singleton).
  assert (resolveBad no_faults e "" c fs = (fs, Ok (path_str (cs ++ [c])))) as Hres.
  { unfold resolveBad, resolveSafe, io_bind, rootForCtx, io_ret. cbn [perSession e negb Fsops.root].
    rewrite (proj2 (String.eqb_neq c "")) by (by destruct Hc). rewrite Hrel, Hclean, Hnodd, Hjoin.
    unfold EvalSymlinks. rewrite plain_comps by done.
    change eval_hops with (S (Nat.pred eval_hops)). rewrite (walk_link_snoc _ _ _ cs c t) by done.
    rewrite Ht, (walk_missing _ _ _ d f) by done. rewrite Dir_comps by done. rewrite Hcan.
    rewrite <-Hroot. by rewrite (proj2 (withinRoot_spec _ _)) by (by left). }
  unfold runWritePatch. rewrite handler_fst. unfold io_bind, lift_res.
  rewrite (argString_Ok _ _ c), (argString_Ok _ _ content) by (try done; by destruct Hc).
  change (write_cap (mkLimits 0 0)) with defaultWriteFileMaxBytes.
  destruct (Z.ltb_spec defaultWriteFileMaxBytes (zlen content)); [lia|]. cbn -[OpenFile WriteString resolveBad].
  rewrite Hres. unfold io_run, OpenFile, io_ret. cbn -[WriteString walk comps_of].
  rewrite plain_comps by done. change kernel_hops with (S (Nat.pred kernel_hops)).
  rewrite (walk_link_snoc _ _ _ cs c t) by done. rewrite Ht, (walk_missing _ _ _ d f) by done.
  assert (node_at fs (d ++ [f]) = None) as -> by (by destruct d). cbn -[WriteString].
  unfold WriteString. simpl. rewrite node_at_insert by (by destruct d). by rewrite insert_insert_eq.
Qed.

(** ** A concrete workspace *)

Definition demo_engine : Engine := mkEngine "/ws" false.

Definition demo_fs : FS :=
  <[["ws"; "a.txt"] := File ("one" +:+ nl +:+ "two" +:+ nl +:+ "three")]>
  (<[["ws"] := DirNode]> (<[["etc"] := DirNode]> ∅)).

(** The same store with a broken link in the workspace. *)
Definition demo_link_fs : FS := <[["ws"; "x"] := Symlink "/etc/new"]> demo_fs.

Definition demo_encoders : encoders :=
  mkEncoders (fun p _ => Some p) (fun p _ _ => Some p) (fun r => Some (ar_Path r)).

Definition demo_patch : args :=
  [("file_path", AStr "a.txt"); ("search_string", AStr "two"); ("replace_string", AStr "2")].

Lemma demo_clean : clean_root "/ws".
Proof. exists ["ws"]. split_and!; [done| |done]. rewrite Forall_singleton. by repeat split. Qed.

Lemma demo_root_ok fs :
  (fs = demo_fs \/ fs = demo_link_fs) -> root_ok demo_engine fs.
Proof.
  intros Hfs. split.
  - apply demo_clean.
  - intros h. destruct Hfs as [-> | ->]; by destruct h.
  - by destruct Hfs as [-> | ->].
  - intros p n Hp. assert (p ∈ [["ws"; "x"]; ["ws"; "a.txt"]; ["ws"]; ["etc"]]) as Hin.
    { destruct Hfs as [-> | ->]; unfold demo_link_fs, demo_fs in Hp;
        rewrite ?lookup_insert_Some, lookup_empty in Hp; set_solver. }
    rewrite !elem_of_cons in Hin. destruct Hin as [->|[->|[->|[->|Hin]]]]; [..|by apply not_elem_of_nil in Hin];
      repeat constructor; done.
Qed.

Lemma demo_links_ok : links_ok (comps_of "/ws") demo_fs.
Proof.
  intros p t _ H. unfold demo_fs in H. rewrite !lookup_insert_Some, lookup_empty in H. naive_solver.
Qed.

Lemma fsops_confined_witness :
  let fs' := (Run demo_encoders no_faults None demo_engine "s" "apply_code_patch" demo_patch (mkLimits 0 0) demo_fs).1 in
  (forall q, ~ scope demo_engine "s" `prefix_of` q -> fs' !! q = demo_fs !! q) /\
  (forall q, fs' !! q = Some DirNode -> demo_fs !! q = Some DirNode \/ q = scope demo_engine "s").
Proof.
  apply (fsops_confined demo_encoders no_faults None demo_engine "s" "apply_code_patch" demo_patch (mkLimits 0 0) demo_fs).
  - apply demo_root_ok. by left.
  - apply demo_links_ok.
Defined.

Definition demo_patched : FS :=
  <[["ws"; "a.txt"] := File ("one" +:+ nl +:+ "2" +:+ nl +:+ "three")]> demo_fs.

Definition demo_result : ApplyCodePatchResult :=
  mkPatchResult "a.txt" 11 2
    (renderUnifiedDiff "a.txt" ("one" +:+ nl +:+ "two" +:+ nl +:+ "three") ("one" +:+ nl +:+ "2" +:+ nl +:+ "three") 4 3 1).

Lemma demo_applied :
  applyCodePatchInner no_faults demo_engine "s" demo_patch (mkLimits 0 0) demo_fs
  = (demo_patched, Ok ("one" +:+ nl +:+ "two" +:+ nl +:+ "three", "/ws/a.txt", demo_result)).
Proof. vm_compute. reflexivity. Qed.

Lemma apply_code_patch_replaces_match_witness :
  exists fs1 pre search replace post,
    argString demo_patch "search_string" = Ok search /\ argStringAllowEmpty demo_patch "replace_string" = Ok replace /\
    scope_made demo_engine "s" demo_fs fs1 /\ scope demo_engine "s" `prefix_of` comps_of "/ws/a.txt" /\
    fs1 !! comps_of "/ws/a.txt" = Some (File ("one" +:+ nl +:+ "two" +:+ nl +:+ "three")) /\
    "one" +:+ nl +:+ "two" +:+ nl +:+ "three" = pre +:+ (search +:+ post) /\ Index post search = None /\
    demo_patched = <[comps_of "/ws/a.txt" := File (pre +:+ (replace +:+ post))]> fs1 /\
    ar_BytesWritten demo_result = zlen (pre +:+ (replace +:+ post)) /\
    (ar_BytesWritten demo_result <= write_cap (mkLimits 0 0))%Z /\
    ar_LineNumber demo_result = Z.of_nat (length (SplitByte LF pre)).
Proof.
  apply (apply_code_patch_replaces_match no_faults demo_engine "s" demo_patch (mkLimits 0 0) demo_fs demo_patched).
  - apply demo_root_ok. by left.
  - apply demo_links_ok.
  - apply demo_applied.
Defined.

Lemma write_patch_follows_broken_link_witness :
  (runWritePatch (fun p _ _ => Some p) no_faults None (mkEngine "/ws" false) ""
     [("path", AStr "x"); ("content", AStr "owned")] (mkLimits 0 0) demo_link_fs).1
  = <[["etc"] ++ ["new"] := File "owned"]> demo_link_fs.
Proof.
  apply (write_patch_follows_broken_link (fun p _ _ => Some p) "/ws" "x" "/etc/new" "new" "owned" ["etc"] demo_link_fs);
    try done.
  - apply (demo_root_ok demo_link_fs). by right.
  - intros h. by destruct h.
Defined.
