(* ===== verification/History.v ===== *)
(** * Conversation history (internal/history)

    store.go: turns and the store interface (class [HistoryStore]).  memory.go
    and sqlite.go: the two backends; the SQLite table is a map keyed by its
    primary key, and its queries are the sorted selections the SQL asks for.
    summarizer.go and sqlite.go: compaction; the summarizer service and the
    JSON codec of a turn's text are parameters.  pins.go: the reference buffer
    of pinned files. *)

From stdpp Require Import sorting pretty.
From S2P Require Import Prelude GoString Table.

Definition RoleUser : string := "user".
Definition RoleAssistant : string := "assistant".
Definition RoleSystemSummary : string := "system.summary".

(** [TS] is [None] for the zero time, otherwise nanoseconds. *)
Record Turn := mkTurn { SID : string; Idx : Z; Role : string; Parts : string; TTS : option Z }.

#[export] Instance turn_eq_dec : EqDecision Turn.
Proof. solve_decision. Defined.

Inductive history_error := ErrInvalidTurn | ErrSummarize | ErrInsert.

(** ** The store interface *)

Class HistoryStore (S : Type) := {
  Append : S -> Z -> Turn -> S * result history_error Z;   (* the clock's reading is an argument *)
  LoadWindow : S -> string -> Z -> list Turn;
  Reset : S -> string -> S;
  thread : S -> string -> list Turn;                       (* the whole conversation *)
}.

Definition valid_turn (t : Turn) : bool := negb (String.eqb (SID t) "") && negb (String.eqb (Role t) "").

(** What a turn keeps whatever the backend adds to it. *)
Definition content (t : Turn) : string * string * string := (SID t, Role t, Parts t).

(** The longest thread a window query can return in full. *)
Definition window_max : Z := Z.shiftl 1 30.
#[global] Opaque window_max.

Definition last_n {A} (n : Z) (l : list A) : list A :=
  if (n <=? 0)%Z || (Z.of_nat (length l) <=? n)%Z then l else drop (length l - Z.to_nat n) l.

(** A lawful store, on the states [inv] that its operations keep. *)
Class HistoryLaws (S : Type) `{HistoryStore S} (inv : S -> Prop) : Prop := {
  append_invalid s now t : valid_turn t = false -> Append s now t = (s, Err ErrInvalidTurn);
  append_inv s now t : inv s -> inv (Append s now t).1;
  append_thread s now t : inv s -> valid_turn t = true ->
    exists i ts, (Append s now t).2 = Ok i /\
      thread (Append s now t).1 (SID t) = thread s (SID t) ++ [mkTurn (SID t) i (Role t) (Parts t) ts] /\
      Forall (fun u => Idx u < i)%Z (thread s (SID t));
  append_other s now t sid : inv s -> sid <> SID t -> thread (Append s now t).1 sid = thread s sid;
  reset_inv s sid : inv s -> inv (Reset s sid);
  reset_thread s sid sid' : inv s -> thread (Reset s sid) sid' = if String.eqb sid' sid then [] else thread s sid';
  load_window s sid n : inv s -> (Z.of_nat (length (thread s sid)) <= window_max)%Z ->
    LoadWindow s sid n = last_n n (thread s sid);
}.

(** ** The memory store *)

Record MemoryStore := mkMem { mrows : gmap string (list Turn) }.

Definition NewMemoryStore : MemoryStore := mkMem ∅.

Definition mem_thread (m : MemoryStore) (sid : string) : list Turn := default [] (mrows m !! sid).

Definition mem_Append (m : MemoryStore) (t : Turn) : MemoryStore * result history_error Z :=
  if String.eqb (SID t) "" || String.eqb (Role t) "" then (m, Err ErrInvalidTurn)
  else
    let rows := mem_thread m (SID t) in
    let t' := mkTurn (SID t) (Z.of_nat (length rows)) (Role t) (Parts t) (TTS t) in
    (mkMem (<[SID t := rows ++ [t']]> (mrows m)), Ok (Idx t')).

Definition mem_LoadWindow (m : MemoryStore) (sid : string) (n : Z) : list Turn :=
  let rows := mem_thread m sid in
  if (n <=? 0)%Z || (Z.of_nat (length rows) <=? n)%Z then rows
  else drop (length rows - Z.to_nat n) rows.

Definition mem_Reset (m : MemoryStore) (sid : string) : MemoryStore := mkMem (delete sid (mrows m)).

#[export] Instance mem_store : HistoryStore MemoryStore := {|
  Append m _ t := mem_Append m t; LoadWindow := mem_LoadWindow; Reset := mem_Reset; thread := mem_thread |}.

(** Every thread is numbered from 0. *)
Definition mem_inv (m : MemoryStore) : Prop :=
  forall sid, Idx <$> mem_thread m sid = Z.of_nat <$> seq 0 (length (mem_thread m sid)).

Lemma valid_turn_false t : valid_turn t = false <-> String.eqb (SID t) "" || String.eqb (Role t) "" = true.
Proof. unfold valid_turn. destruct (String.eqb (SID t) ""), (String.eqb (Role t) ""); simpl; by split. Qed.

Lemma mem_thread_insert m sid sid' l :
  mem_thread (mkMem (<[sid := l]> (mrows m))) sid' = if String.eqb sid' sid then l else mem_thread m sid'.
Proof.
  unfold mem_thread. simpl. destruct (String.eqb_spec sid' sid) as [->|Hne].
  - by rewrite lookup_insert_eq.
  - by rewrite lookup_insert_ne.
Qed.

#[export] Instance mem_laws : HistoryLaws MemoryStore mem_inv.
Proof.
  split; simpl; unfold mem_Append.
  - intros s _ t Hv. apply valid_turn_false in Hv. by rewrite Hv.
  - intros s _ t Hinv. destruct (_ || _); [done|]. simpl. intros sid. rewrite !mem_thread_insert.
    destruct (String.eqb sid (SID t)); [|done].
    rewrite fmap_app, Hinv, length_app, seq_app, fmap_app. done.
  - intros s _ t Hinv Hv. destruct (_ || _) eqn:E; [by apply valid_turn_false in E; rewrite E in Hv|]. simpl.
    eexists _, (TTS t). split; [done|]. rewrite mem_thread_insert, String.eqb_refl. split; [done|].
    assert (Forall (fun i => i < Z.of_nat (length (mem_thread s (SID t))))%Z (Idx <$> mem_thread s (SID t))) as H.
    { rewrite Hinv. apply Forall_fmap, Forall_forall. intros k Hk%elem_of_seq. simpl. lia. }
    by apply Forall_fmap in H.
  - intros s _ t sid Hinv Hne. destruct (_ || _); [done|]. simpl. rewrite mem_thread_insert.
    by destruct (String.eqb_spec sid (SID t)).
  - intros s sid Hinv sid'. unfold mem_thread, mem_Reset. simpl. destruct (decide (sid = sid')) as [->|Hne].
    + by rewrite lookup_delete_eq.
    + rewrite lookup_delete_ne by done. apply Hinv.
  - intros s sid sid' _. unfold mem_thread, mem_Reset. simpl. destruct (String.eqb_spec sid' sid) as [->|Hne].
    + by rewrite lookup_delete_eq.
    + by rewrite lookup_delete_ne.
  - intros s sid n _ _. done.
Qed.

(** ** The SQLite store *)

Record SqlRow := mkRow { rrole : string; rparts : string; rts : Z }.

(** The [turns] table, by its primary key. *)
Record SQLiteStore := mkSql { turns : gmap (string * Z) SqlRow }.
Coercion turns : SQLiteStore >-> gmap.

Definition turn_of (sid : string) (p : Z * SqlRow) : Turn :=
  mkTurn sid p.1 (rrole p.2) (rparts p.2) (Some (rts p.2)).

Definition sql_thread (s : SQLiteStore) (sid : string) : list Turn := turn_of sid <$> rows_of s sid.

Definition sql_Append (s : SQLiteStore) (now : Z) (t : Turn) : SQLiteStore * result history_error Z :=
  if String.eqb (SID t) "" || String.eqb (Role t) "" then (s, Err ErrInvalidTurn)
  else
    let next := next_idx s (SID t) in
    match turns s !! (SID t, next) with
    | Some _ => (s, Err ErrInsert)      (* primary key conflict *)
    | None =>
        (mkSql (<[(SID t, next) := mkRow (Role t) (Parts t) (default now (TTS t))]> (turns s)), Ok next)
    end.

(** [ORDER BY turn_idx DESC LIMIT ?], then reversed. *)
Definition sql_LoadWindow (s : SQLiteStore) (sid : string) (n : Z) : list Turn :=
  let limit := if (n <=? 0)%Z then window_max else n in
  reverse (turn_of sid <$> (if (Z.of_nat (length (rows_of s sid)) <=? limit)%Z then reverse (rows_of s sid)
                            else take (Z.to_nat limit) (reverse (rows_of s sid)))).

Definition sql_Reset (s : SQLiteStore) (sid : string) : SQLiteStore :=
  mkSql (filter (fun p => p.1.1 <> sid) (turns s)).

#[export] Instance sql_store : HistoryStore SQLiteStore := {|
  Append := sql_Append; LoadWindow := sql_LoadWindow; Reset := sql_Reset; thread := sql_thread |}.

Lemma sql_load_window s sid n :
  (Z.of_nat (length (sql_thread s sid)) <= window_max)%Z -> sql_LoadWindow s sid n = last_n n (sql_thread s sid).
Proof.
  unfold sql_thread, sql_LoadWindow, last_n. rewrite length_fmap. intros Hlen.
  destruct (Z.leb_spec n 0) as [Hn|Hn]; simpl.
  - destruct (Z.leb_spec (Z.of_nat (length (rows_of s sid))) window_max); [|lia].
    by rewrite <-fmap_reverse, reverse_involutive.
  - destruct (Z.leb_spec (Z.of_nat (length (rows_of s sid))) n).
    { by rewrite <-fmap_reverse, reverse_involutive. }
    rewrite <-fmap_drop. rewrite <-fmap_reverse. f_equal. rewrite take_reverse, reverse_involutive. done.
Qed.

#[export] Instance sql_laws : HistoryLaws SQLiteStore (fun _ => True).
Proof.
  split; simpl; unfold sql_Append.
  - intros s now t Hv. apply valid_turn_false in Hv. by rewrite Hv.
  - by intros s now t _.
  - intros s now t _ Hv. destruct (_ || _) eqn:E; [by apply valid_turn_false in E; rewrite E in Hv|].
    rewrite next_idx_fresh. simpl. exists (next_idx s (SID t)), (Some (default now (TTS t))). split; [done|].
    unfold sql_thread. simpl. rewrite rows_append, fmap_app. split; [done|].
    apply Forall_fmap, Forall_forall. intros p Hp. simpl. by apply rows_below_next.
  - intros s now t sid _ Hne. destruct (_ || _); [done|]. rewrite next_idx_fresh. simpl. unfold sql_thread.
    f_equal. apply rows_other. intros i. simpl. rewrite lookup_insert_ne; [done|]. intros [= He _]. congruence.
  - by intros s sid _.
  - intros s sid sid' _. unfold sql_thread. destruct (String.eqb_spec sid' sid) as [->|Hne].
    + unfold sql_Reset. simpl. by rewrite rows_delete.
    + unfold sql_Reset. simpl. by rewrite rows_delete_other.
  - intros s sid n _. apply sql_load_window.
Qed.

(** ** Programs against the interface *)

Inductive hop := HAppend (now : Z) (t : Turn) | HReset (sid : string).

Definition hop_run {S} `{HistoryStore S} (s : S) (o : hop) : S :=
  match o with HAppend now t => (Append s now t).1 | HReset sid => Reset s sid end.

Section clients.
Context {S : Type} `{HistoryLaws S inv}.

(** The abstract conversation: the valid appended turns since the last reset. *)
Definition conversation (ops : list hop) (sid : string) : list (string * string * string) :=
  foldl (fun acc o => match o with
    | HAppend _ t => if valid_turn t && String.eqb (SID t) sid then acc ++ [content t] else acc
    | HReset sid' => if String.eqb sid sid' then [] else acc
    end) [] ops.

Lemma run_inv s ops : inv s -> inv (foldl hop_run s ops).
Proof.
  revert s. induction ops as [|o ops IH]; intros s Hs; [done|]. apply IH.
  destruct o; simpl; [by apply append_inv|by apply reset_inv].
Qed.

Lemma hop_run_content s o sid : inv s ->
  content <$> thread (hop_run s o) sid =
  match o with
  | HAppend _ t => if valid_turn t && String.eqb (SID t) sid then (content <$> thread s sid) ++ [content t]
                   else content <$> thread s sid
  | HReset sid' => if String.eqb sid sid' then [] else content <$> thread s sid
  end.
Proof.
  intros Hs. destruct o as [now t|sid']; simpl.
  - destruct (valid_turn t) eqn:Hv; simpl; [|by rewrite append_invalid].
    destruct (String.eqb_spec (SID t) sid) as [<-|Hne]; [|by rewrite append_other].
    destruct (append_thread s now t Hs Hv) as (i & ts & _ & -> & _). by rewrite fmap_app.
  - rewrite reset_thread by done. by destruct (String.eqb sid sid').
Qed.

Lemma run_conversation s ops sid : inv s -> thread s sid = [] ->
  content <$> thread (foldl hop_run s ops) sid = conversation ops sid.
Proof.
  intros Hs Hn. unfold conversation.
  assert (forall acc s, inv s -> content <$> thread s sid = acc ->
    content <$> thread (foldl hop_run s ops) sid = foldl (fun acc o => match o with
    | HAppend _ t => if valid_turn t && String.eqb (SID t) sid then acc ++ [content t] else acc
    | HReset sid' => if String.eqb sid sid' then [] else acc
    end) acc ops) as Hgen; [|apply Hgen; [done|by rewrite Hn]].
  clear s Hs Hn. induction ops as [|o ops IH]; intros acc s Hs Hacc; [done|]. simpl. apply IH.
  - destruct o; simpl; [by apply append_inv|by apply reset_inv].
  - rewrite hop_run_content by done. subst. by destruct o.
Qed.
End clients.

(** both history backends implement the conversation: after any sequence
    of appends (valid or not) and resets on empty stores, with fewer than 2^30
    operations, a window query returns the last [n] turns the sequence left for
    that session, in order, from the memory store and from the SQLite store
    alike (what differs is the time stamp of a turn appended without one). *)
Theorem history_backends_agree (ops : list hop) (sid : string) (n : Z) :
  (Z.of_nat (length ops) <= window_max)%Z ->
  let mem := foldl hop_run NewMemoryStore ops in
  let sql := foldl hop_run (mkSql ∅) ops in
  content <$> LoadWindow mem sid n = last_n n (conversation ops sid) /\
  content <$> LoadWindow sql sid n = last_n n (conversation ops sid).
Proof.
  intros Hlen mem sql.
  assert (length (conversation ops sid) <= length ops) as Hc.
  { unfold conversation. assert (forall acc : list (string * string * string),
      length (foldl (fun acc o => match o with
        | HAppend _ t => if valid_turn t && String.eqb (SID t) sid then acc ++ [content t] else acc
        | HReset sid' => if String.eqb sid sid' then [] else acc end) acc ops) <= length acc + length ops) as Hg;
      [|apply (Hg [])].
    clear. induction ops as [|o ops IH]; intros acc; simpl; [lia|].
    destruct o as [now t|sid']; case_match; etrans; try apply IH; rewrite ?length_app; simpl; lia. }
  assert (forall l : list Turn, content <$> last_n n l = last_n n (content <$> l)) as Hln.
  { intros l. unfold last_n. rewrite length_fmap. case_match; [done|]. by rewrite fmap_drop. }
  assert (Hm : mem_inv NewMemoryStore) by (by intros s).
  assert (Hm0 : thread NewMemoryStore sid = []) by done.
  assert (Hs0 : thread (mkSql ∅) sid = []) by done.
  pose proof (run_conversation NewMemoryStore ops sid Hm Hm0) as H1.
  pose proof (run_conversation (inv := fun _ => True) (mkSql ∅) ops sid I Hs0) as H2.
  fold mem in H1. fold sql in H2. split.
  - rewrite load_window; [by rewrite Hln, H1|by apply run_inv|].
    rewrite <-(length_fmap content), H1. lia.
  - rewrite (load_window (inv := fun _ => True)); [by rewrite Hln, H2|done|].
    rewrite <-(length_fmap content), H2. lia.
Qed.

Lemma history_backends_agree_witness :
  let ops := [HAppend 5 (mkTurn "s" 0 "user" "hi" None); HAppend 6 (mkTurn "s" 0 "" "bad" None);
              HAppend 7 (mkTurn "s" 0 "assistant" "hello" None)] in
  content <$> LoadWindow (foldl hop_run NewMemoryStore ops) "s" 1 = last_n 1 (conversation ops "s") /\
  content <$> LoadWindow (foldl hop_run (mkSql ∅) ops) "s" 1 = last_n 1 (conversation ops "s").
Proof. intros ops. apply (history_backends_agree ops "s" 1). vm_compute. discriminate. Defined.

(** ** Compaction *)

(** [len(strings.Fields(s))]: the maximal runs without a Unicode space. *)
Definition space_prefix (s : string) : option nat :=
  match find (fun r => HasPrefix s r) space_runes with Some r => Some (String.length r) | None => None end.

Fixpoint countWords_fuel (fuel : nat) (inword : bool) (s : string) : nat :=
  match fuel, s with
  | O, _ => 0
  | _, EmptyString => 0
  | S fuel, String _ s' =>
      match space_prefix s with
      | Some n => countWords_fuel fuel false (str_drop n s)
      | None => (if inword then 0 else 1) + countWords_fuel fuel true s'
      end
  end.

Definition countWords (s : string) : nat := countWords_fuel (String.length s) false s.

Section compaction.
(** The JSON codec of [{"text": ...}] and the summarization service. *)
Variable unmarshal_text : string -> option string.
Variable marshalText : string -> string.
Variable Summarize : list Turn -> option string.

Definition extractText (parts : string) : string :=
  if String.eqb parts "" then ""
  else match unmarshal_text parts with
       | Some t => if String.eqb t "" then parts else t
       | None => parts
       end.

Record compactionRow := mkCRow { c_idx : Z; c_role : string; c_text : string; c_ts : Z }.

Definition compactable (r : SqlRow) : bool := String.eqb (rrole r) RoleUser || String.eqb (rrole r) RoleAssistant.

(** [WHERE sid = ? AND role IN (user, assistant) ORDER BY turn_idx ASC] *)
Definition loadCompactionRows (s : SQLiteStore) (sid : string) : list compactionRow :=
  (fun p => mkCRow p.1 (rrole p.2) (extractText (rparts p.2)) (rts p.2)) <$>
  filter (fun p => compactable p.2 = true) (rows_of s sid).

(** One transaction: delete the victims, insert the summary. *)
Definition replaceWithSummary (s : SQLiteStore) (sid : string) (victims : list Z) (minIdx minTS : Z) (summary : string)
    : SQLiteStore * result history_error unit :=
  match victims with
  | [] => (s, Ok tt)
  | _ =>
      let t' := foldl (fun t v => delete (sid, v) t) (turns s) victims in
      match t' !! (sid, minIdx) with
      | Some _ => (s, Err ErrInsert)       (* primary key conflict: rolled back *)
      | None => (mkSql (<[(sid, minIdx) := mkRow RoleSystemSummary summary minTS]> t'), Ok tt)
      end
  end.

Definition Compact (s : SQLiteStore) (sid : string) (wordThreshold : Z) : SQLiteStore * result history_error nat :=
  if (wordThreshold <=? 0)%Z then (s, Ok 0)
  else
    let rows := loadCompactionRows s sid in
    if length rows <? 2 then (s, Ok 0)
    else if (Z.of_nat (sum_list (countWords ∘ c_text <$> rows)) <? wordThreshold)%Z then (s, Ok 0)
    else
      let half := length rows / 2 in
      if half =? 0 then (s, Ok 0)
      else
        let victims := take half rows in
        let ts := (fun v => mkTurn sid (c_idx v) (c_role v) (c_text v) (Some (c_ts v))) <$> victims in
        match Summarize ts, victims with
        | None, _ => (s, Err ErrSummarize)
        | Some text, v0 :: _ =>
            match replaceWithSummary s sid (c_idx <$> victims) (c_idx v0) (c_ts v0) (marshalText text) with
            | (s', Ok _) => (s', Ok (length victims))
            | (s', Err e) => (s', Err e)
            end
        | Some _, [] => (s, Ok 0)
        end.

(** The turns of a session that compaction may summarize, oldest first. *)
Definition speech (s : SQLiteStore) (sid : string) : list (Z * SqlRow) :=
  filter (fun p => compactable p.2 = true) (rows_of s sid).

Lemma speech_idxs s sid : c_idx <$> loadCompactionRows s sid = fst <$> speech s sid.
Proof. unfold loadCompactionRows. rewrite <-list_fmap_compose. done. Qed.

Lemma delete_all_lookup (t : gmap (string * Z) SqlRow) sid vs k :
  foldl (fun t v => delete (sid, v) t) t vs !! k = if decide (k.1 = sid /\ k.2 ∈ vs) then None else t !! k.
Proof.
  revert t. induction vs as [|v vs IH]; intros t; simpl.
  { rewrite decide_False; [done|]. intros [_ H]. by apply not_elem_of_nil in H. }
  rewrite IH. destruct (decide (k.1 = sid /\ k.2 ∈ vs)) as [[H1 H2]|Hn].
  { rewrite decide_True; [done|]. split; [done|]. by apply list_elem_of_further. }
  destruct (decide (k = (sid, v))) as [->|Hk].
  - rewrite lookup_delete_eq, decide_True; [done|]. split; [done|]. apply list_elem_of_here.
  - rewrite lookup_delete_ne by done. rewrite decide_False; [done|]. intros [H1 [H2|H2]%elem_of_cons]; [|by apply Hn].
    apply Hk. destruct k. simpl in *. by subst.
Qed.

(** What a compaction that collapsed [n] turns did. *)
Definition compacted (s s' : SQLiteStore) (sid : string) (n : nat) : Prop :=
  exists i0 ts0 text,
    let victims := take n (fst <$> speech s sid) in
    head victims = Some i0 /\ n = length (speech s sid) / 2 /\
    forall k, turns s' !! k =
      if decide (k = (sid, i0)) then Some (mkRow RoleSystemSummary text ts0)
      else if decide (k.1 = sid /\ k.2 ∈ victims) then None
      else turns s !! k.

Lemma Compact_spec s sid threshold s' r :
  Compact s sid threshold = (s', r) ->
  match r with
  | Ok 0 => s' = s
  | Ok n => compacted s s' sid n
  | Err e => s' = s /\ e = ErrSummarize
  end.
Proof.
  unfold Compact. destruct (_ <=? 0)%Z; [by intros [= <- <-]|].
  destruct (length (loadCompactionRows s sid) <? 2) eqn:H2; [by intros [= <- <-]|].
  destruct (_ <? threshold)%Z; [by intros [= <- <-]|].
  destruct (length (loadCompactionRows s sid) / 2 =? 0) eqn:Hh; [by intros [= <- <-]|].
  apply Nat.eqb_neq in Hh. set (half := length (loadCompactionRows s sid) / 2) in *.
  destruct (Summarize _) as [text|]; [|by intros [= <- <-]].
  destruct (take half (loadCompactionRows s sid)) as [|v0 vs] eqn:Hv; [by intros [= <- <-]|].
  assert (length (loadCompactionRows s sid) = length (speech s sid)) as Hlen.
  { pose proof (f_equal length (speech_idxs s sid)) as H. by rewrite !length_fmap in H. }
  assert (length (v0 :: vs) = half) as Hn.
  { rewrite <-Hv, length_take. unfold half. pose proof (Nat.Div0.div_le_upper_bound (length (loadCompactionRows s sid)) 2 (length (loadCompactionRows s sid))). lia. }
  assert (c_idx <$> (v0 :: vs) = take half (fst <$> speech s sid)) as Hidx.
  { by rewrite <-Hv, fmap_take, speech_idxs. }
  unfold replaceWithSummary. rewrite delete_all_lookup.
  rewrite decide_True by (split; [done|]; simpl; apply list_elem_of_here). cbn [fmap list_fmap].
  intros [<- <-]%pair_eq. cbn [length]. change (S (length vs)) with (length (v0 :: vs)). exists (c_idx v0), (c_ts v0), (marshalText text).
  rewrite Hn, <-Hidx. split; [done|]. split; [by unfold half; rewrite Hlen|].
  intros k. cbn [turns]. destruct (decide (k = (sid, c_idx v0))) as [->|Hk]; [by rewrite lookup_insert_eq|].
  rewrite lookup_insert_ne by done. rewrite (delete_all_lookup _ _ (c_idx v0 :: (c_idx <$> vs))). done.
Qed.
End compaction.

Lemma speech_sorted s sid : StronglySorted idx_lt (speech s sid).
Proof.
  unfold speech. induction (rows_sorted s sid) as [|p l Hs IH Hall]; [constructor|].
  rewrite filter_cons. case_decide; [|done]. constructor; [done|].
  apply Forall_forall. intros q [_ Hq]%list_elem_of_filter. rewrite Forall_forall in Hall. by apply Hall.
Qed.

Lemma elem_of_speech s sid i r : (i, r) ∈ speech s sid <-> turns s !! (sid, i) = Some r /\ compactable r = true.
Proof. unfold speech. rewrite list_elem_of_filter, elem_of_rows. simpl. tauto. Qed.

Lemma elem_of_victims s sid n i : i ∈ take n (fst <$> speech s sid) <-> exists r, (i, r) ∈ take n (speech s sid).
Proof.
  rewrite <-fmap_take, list_elem_of_fmap. split; [intros ([j r] & -> & H); eauto|intros [r H]; by exists (i, r)].
Qed.

(** A row that is not speech, or belongs to the newer half, is no victim. *)
Lemma kept_not_victim s sid n i r :
  turns s !! (sid, i) = Some r -> compactable r = false \/ (i, r) ∈ drop n (speech s sid) ->
  i ∉ take n (fst <$> speech s sid).
Proof.
  intros Hi Hk [r' Hv]%elem_of_victims.
  assert ((i, r') ∈ speech s sid) as [Hr' Hc]%elem_of_speech.
  { rewrite <-(take_drop n (speech s sid)). apply elem_of_app. by left. }
  destruct Hk as [Hk|Hk]; [simplify_eq; congruence|].
  pose proof (speech_sorted s sid) as Hs. rewrite <-(take_drop n (speech s sid)) in Hs.
  pose proof (sorted_app_lt _ _ _ _ Hs Hv Hk). simpl in *. lia.
Qed.

Lemma next_idx_max s sid i r :
  turns s !! (sid, i) = Some r -> (forall j r', turns s !! (sid, j) = Some r' -> (j <= i)%Z) -> next_idx s sid = (i + 1)%Z.
Proof.
  intros Hi Hmax. unfold next_idx. destruct (last (rows_of s sid)) as [[j r']|] eqn:Hl.
  - pose proof Hl as Hl'. apply last_Some_elem_of, elem_of_rows in Hl'. pose proof (Hmax _ _ Hl'). simpl.
    apply elem_of_rows, rows_below_next in Hi. unfold next_idx in Hi. rewrite Hl in Hi. simpl in Hi. lia.
  - apply last_None in Hl. apply elem_of_rows in Hi. rewrite Hl in Hi. by apply not_elem_of_nil in Hi.
Qed.

Lemma compacted_keeps s s' sid n k row :
  compacted s s' sid n -> turns s !! k = Some row ->
  k.1 <> sid \/ compactable row = false \/ (k.2, row) ∈ drop n (speech s sid) -> turns s' !! k = Some row.
Proof.
  intros (i0 & ts0 & text & Hhead & Hn & Hlook) Hk Hcase. destruct k as [k i]. rewrite Hlook. simpl in Hcase.
  assert (i0 ∈ take n (fst <$> speech s sid)) as Hi0 by (by apply head_Some_elem_of).
  destruct (decide (k = sid)) as [->|Hne].
  - assert (i ∉ take n (fst <$> speech s sid)) as Hnv by (destruct Hcase as [|Hcase]; [done|by eapply kept_not_victim]).
    rewrite decide_False by (by intros [= ->]). rewrite decide_False by (by intros [_ ?]). done.
  - rewrite decide_False by (by intros [= ->]). rewrite decide_False by (by intros [? _]). done.
Qed.

Lemma victims_nonempty s sid n i0 :
  head (take n (fst <$> speech s sid)) = Some i0 -> exists r, turns s !! (sid, i0) = Some r /\ speech s sid <> [].
Proof.
  intros H. pose proof H as [r Hr]%head_Some_elem_of%elem_of_victims.
  assert ((i0, r) ∈ speech s sid) as [Hr' _]%elem_of_speech.
  { rewrite <-(take_drop n (speech s sid)). apply elem_of_app. by left. }
  exists r. split; [done|]. intros Hn. rewrite Hn in H. by destruct n.
Qed.

(** The newest row is never a victim. *)
Lemma newest_kept s sid n m rm :
  n = length (speech s sid) / 2 -> speech s sid <> [] -> turns s !! (sid, m) = Some rm ->
  (forall j r', turns s !! (sid, j) = Some r' -> (j <= m)%Z) ->
  compactable rm = false \/ (m, rm) ∈ drop n (speech s sid).
Proof.
  intros Hn Hne Hm Hmax. destruct (compactable rm) eqn:Ecm; [right|by left].
  assert ((m, rm) ∈ speech s sid) as Hin by (by apply elem_of_speech).
  rewrite <-(take_drop n (speech s sid)) in Hin. apply elem_of_app in Hin as [Hin|Hin]; [|done]. exfalso.
  pose proof (speech_sorted s sid) as Hs. rewrite <-(take_drop n (speech s sid)) in Hs.
  destruct (drop n (speech s sid)) as [|[j rj] l] eqn:Ed.
  - apply (f_equal length) in Ed. rewrite length_drop in Ed. simpl in Ed.
    assert (0 < length (speech s sid)) by (destruct (speech s sid); simpl; [done|lia]).
    pose proof (Nat.div_lt (length (speech s sid)) 2). lia.
  - pose proof (sorted_app_lt _ _ _ _ Hs Hin (list_elem_of_here _ _)) as Hlt. simpl in Hlt.
    assert ((j, rj) ∈ speech s sid) as [Hj _]%elem_of_speech.
    { rewrite <-(take_drop n (speech s sid)), Ed. apply elem_of_app. right. apply list_elem_of_here. }
    apply Hmax in Hj. lia.
Qed.

Lemma compacted_next_idx s s' sid n : compacted s s' sid n -> next_idx s' sid = next_idx s sid.
Proof.
  intros Hc. pose proof Hc as (i0 & ts0 & text & Hhead & Hn & Hlook).
  destruct (victims_nonempty _ _ _ _ Hhead) as (r0 & Hi0 & Hne).
  destruct (last (rows_of s sid)) as [[m rm]|] eqn:Hl.
  2:{ apply last_None in Hl. apply elem_of_rows in Hi0. rewrite Hl in Hi0. by apply not_elem_of_nil in Hi0. }
  assert (forall j r', turns s !! (sid, j) = Some r' -> (j <= m)%Z) as Hmax.
  { intros j r' Hj%elem_of_rows%rows_below_next. unfold next_idx in Hj. rewrite Hl in Hj. simpl in Hj. lia. }
  apply last_Some_elem_of, elem_of_rows in Hl as Hm.
  rewrite (next_idx_max s sid m rm), (next_idx_max s' sid m rm); try done.
  - eapply compacted_keeps; [done..|]. right. by eapply newest_kept.
  - intros j r' Hj. rewrite Hlook in Hj. case_decide as Hd1; [injection Hd1 as ->; by eapply Hmax|].
    case_decide; [done|]. by eapply Hmax.
Qed.

(** compaction is conservative: whatever the summarizer returns, every row
    of other sessions, every structured row (tool calls and results, earlier
    summaries) and the newer half of the session's user and assistant turns
    survive unchanged, the older half is replaced by one summary row, the next
    turn index is what it was before, and when nothing is collapsed (threshold
    not met, or the summarizer fails) the table is unchanged. *)
Theorem compaction_keeps_recent_and_tool_turns (um : string -> option string) (mt : string -> string)
    (summarize : list Turn -> option string) (s s' : SQLiteStore) (sid : string) (threshold : Z)
    (r : result history_error nat) :
  Compact um mt summarize s sid threshold = (s', r) ->
  (forall k row, turns s !! k = Some row ->
     k.1 <> sid \/ compactable row = false \/ (k.2, row) ∈ drop (length (speech s sid) / 2) (speech s sid) ->
     turns s' !! k = Some row) /\
  next_idx s' sid = next_idx s sid /\
  match r with
  | Ok 0 => s' = s
  | Ok n => n = length (speech s sid) / 2 /\
      (forall i row, (i, row) ∈ take n (speech s sid) -> turns s' !! (sid, i) = None \/
         exists row', turns s' !! (sid, i) = Some row' /\ rrole row' = RoleSystemSummary)
  | Err e => s' = s
  end.
Proof.
  intros Hc%Compact_spec. destruct r as [[|n']|e]; [by subst| |by destruct Hc as [-> _]].
  pose proof Hc as (i0 & ts0 & text & Hhead & Hn & Hlook).
  split_and!; [|by eapply compacted_next_idx|done|].
  - rewrite <-Hn. intros k row. by eapply compacted_keeps.
  - intros i row Hin. rewrite Hlook. case_decide; [right; eauto|]. left.
    rewrite decide_True; [done|]. split; [done|]. apply elem_of_victims. eauto.
Qed.

Definition demo_turns : SQLiteStore :=
  mkSql (list_to_map [(("s", 0%Z), mkRow "user" "a b" 1); (("s", 1%Z), mkRow "tool_call" "{}" 2);
                      (("s", 2%Z), mkRow "assistant" "c d" 3)]).

Definition demo_compacted : SQLiteStore :=
  mkSql (list_to_map [(("s", 0%Z), mkRow "system.summary" "sum" 1); (("s", 1%Z), mkRow "tool_call" "{}" 2);
                      (("s", 2%Z), mkRow "assistant" "c d" 3)]).

Lemma compaction_keeps_recent_and_tool_turns_witness :
  (forall k row, turns demo_turns !! k = Some row ->
     k.1 <> "s" \/ compactable row = false \/ (k.2, row) ∈ drop (length (speech demo_turns "s") / 2) (speech demo_turns "s") ->
     turns demo_compacted !! k = Some row) /\
  next_idx demo_compacted "s" = next_idx demo_turns "s" /\
  (1 = length (speech demo_turns "s") / 2 /\
      (forall i row, (i, row) ∈ take 1 (speech demo_turns "s") -> turns demo_compacted !! ("s", i) = None \/
         exists row', turns demo_compacted !! ("s", i) = Some row' /\ rrole row' = RoleSystemSummary)).
Proof.
  apply (compaction_keeps_recent_and_tool_turns (fun _ => None) (fun t => t) (fun _ => Some "sum")
    demo_turns demo_compacted "s" 4 (Ok 1)).
  vm_compute. reflexivity.
Defined.

(** ** Pinned files *)

Definition maxPinnedFileBytes : Z := 256 * 1024.
Definition maxPinnedSessionBytes : Z := 1024 * 1024.
Definition maxPinnedFilesPerSID : nat := 32.

Record ReferenceBuffer := mkPins { files : gmap string (gmap string string) }.

Definition NewReferenceBuffer : ReferenceBuffer := mkPins ∅.

Definition pinned (b : ReferenceBuffer) (sid : string) : gmap string string := default ∅ (files b !! sid).

(** The bytes of the session's files other than [path]. *)
Definition pinned_bytes (m : gmap string string) : Z := map_fold (fun _ c acc => zlen c + acc)%Z 0%Z m.

Inductive pin_error := ErrPinCapExceeded.

Definition Pin (b : ReferenceBuffer) (sid path content : string) : ReferenceBuffer * result pin_error unit :=
  if (maxPinnedFileBytes <? zlen content)%Z then (b, Err ErrPinCapExceeded)
  else
    let sess := pinned b sid in
    if bool_decide (sess !! path = None) && (maxPinnedFilesPerSID <=? size sess) then (b, Err ErrPinCapExceeded)
    else
      let total := (zlen content + pinned_bytes (delete path sess))%Z in
      if (maxPinnedSessionBytes <? total)%Z then (b, Err ErrPinCapExceeded)
      else (mkPins (<[sid := <[path := content]> sess]> (files b)), Ok tt).

Definition Unpin (b : ReferenceBuffer) (sid path : string) : ReferenceBuffer * bool :=
  let sess := pinned b sid in
  match sess !! path with
  | None => (b, false)
  | Some _ =>
      let sess' := delete path sess in
      (mkPins (if decide (sess' = ∅) then delete sid (files b) else <[sid := sess']> (files b)), true)
  end.

Definition ResetPins (b : ReferenceBuffer) (sid : string) : ReferenceBuffer := mkPins (delete sid (files b)).

Definition pin_nl : string := String (ascii_of_nat 10) "".

Definition path_le (a b : string * string) : Prop := String.leb a.1 b.1 = true.
#[export] Instance path_le_dec a b : Decision (path_le a b).
Proof. unfold path_le. apply _. Defined.

Definition render_file (p : string * string) : string :=
  "--- pinned: " +:+ p.1 +:+ " ---" +:+ pin_nl +:+ p.2 +:+
  (if HasSuffix p.2 pin_nl then "" else pin_nl) +:+ pin_nl.

Definition Render (b : ReferenceBuffer) (sid : string) : string :=
  let sess := pinned b sid in
  if decide (sess = ∅) then ""
  else
    "=== PINNED REFERENCE FILES ===" +:+ pin_nl +:+
    "These files were pinned for this task and are always available in full," +:+ pin_nl +:+
    "regardless of conversation length." +:+ pin_nl +:+ pin_nl +:+
    foldr (fun p acc => render_file p +:+ acc) ("=== END PINNED REFERENCE FILES ===" +:+ pin_nl +:+ pin_nl)
      (merge_sort path_le (map_to_list sess)).

(** The caps hold for every session. *)
Definition pins_ok (b : ReferenceBuffer) : Prop :=
  forall sid, size (pinned b sid) <= maxPinnedFilesPerSID /\ (pinned_bytes (pinned b sid) <= maxPinnedSessionBytes)%Z /\
    map_Forall (fun _ c => zlen c <= maxPinnedFileBytes)%Z (pinned b sid).

Inductive pin_step : ReferenceBuffer -> ReferenceBuffer -> Prop :=
| PS_pin b sid path c : pin_step b (Pin b sid path c).1
| PS_unpin b sid path : pin_step b (Unpin b sid path).1
| PS_reset b sid : pin_step b (ResetPins b sid).

Lemma pinned_bytes_insert m path c : pinned_bytes (<[path := c]> m) = (zlen c + pinned_bytes (delete path m))%Z.
Proof.
  unfold pinned_bytes. rewrite <-insert_delete_eq. rewrite map_fold_insert_L; [done|intros; lia|apply lookup_delete_eq].
Qed.

Lemma pinned_bytes_delete m path : (pinned_bytes (delete path m) <= pinned_bytes m)%Z.
Proof.
  destruct (m !! path) as [c|] eqn:E; [|by rewrite delete_id].
  rewrite <-(insert_id m path c) at 2 by done. rewrite pinned_bytes_insert. pose proof (zlen_nonneg c). lia.
Qed.

Lemma pinned_update (fs : gmap string (gmap string string)) sid m sid' :
  default ∅ (<[sid := m]> fs !! sid') = if decide (sid' = sid) then m else default ∅ (fs !! sid').
Proof. case_decide as H; [subst; by rewrite lookup_insert_eq|]. by rewrite lookup_insert_ne. Qed.

Lemma Pin_ok b sid path c b' :
  Pin b sid path c = (b', Ok tt) ->
  pinned b' sid = <[path := c]> (pinned b sid) /\ (forall sid', sid' <> sid -> pinned b' sid' = pinned b sid') /\
  (zlen c <= maxPinnedFileBytes)%Z /\ size (<[path := c]> (pinned b sid)) <= maxPinnedFilesPerSID `max` size (pinned b sid) /\
  (pinned_bytes (<[path := c]> (pinned b sid)) <= maxPinnedSessionBytes)%Z.
Proof.
  unfold Pin. destruct (_ <? _)%Z eqn:E1; [done|]. destruct (_ && _) eqn:E2; [done|].
  destruct (maxPinnedSessionBytes <? _)%Z eqn:E3; [done|]. intros [= <-]. boolprop.
  unfold pinned at 1 3. cbn [files]. split_and!.
  - by rewrite pinned_update, decide_True.
  - intros sid' Hne. unfold pinned at 1. cbn [files]. by rewrite pinned_update, decide_False.
  - done.
  - destruct (pinned b sid !! path) as [c'|] eqn:El.
    + rewrite map_size_insert_Some by done. lia.
    + rewrite map_size_insert_None by done. rewrite bool_decide_eq_true_2 in E2 by done. cbn [andb] in E2. apply Nat.leb_gt in E2. lia.
  - rewrite pinned_bytes_insert. lia.
Qed.

Lemma Pin_err b sid path c b' e : Pin b sid path c = (b', Err e) -> b' = b.
Proof. unfold Pin. repeat case_match; by intros [= <-]. Qed.

Lemma shrink_ok (m : gmap string string) path :
  size m <= maxPinnedFilesPerSID -> (pinned_bytes m <= maxPinnedSessionBytes)%Z ->
  map_Forall (fun _ c => zlen c <= maxPinnedFileBytes)%Z m ->
  size (delete path m) <= maxPinnedFilesPerSID /\ (pinned_bytes (delete path m) <= maxPinnedSessionBytes)%Z /\
  map_Forall (fun _ c => zlen c <= maxPinnedFileBytes)%Z (delete path m).
Proof.
  intros H1 H2 H3. pose proof (pinned_bytes_delete m path). split_and!; [|lia|by apply map_Forall_delete].
  rewrite map_size_delete. destruct (m !! path); cbn; unfold maxPinnedFilesPerSID in *; lia.
Qed.

Lemma empty_pins_ok : size (∅ : gmap string string) <= maxPinnedFilesPerSID /\
  (pinned_bytes ∅ <= maxPinnedSessionBytes)%Z /\ map_Forall (fun _ c => zlen c <= maxPinnedFileBytes)%Z (∅ : gmap string string).
Proof.
  rewrite map_size_empty. unfold maxPinnedFilesPerSID, maxPinnedSessionBytes, pinned_bytes. rewrite map_fold_empty.
  split_and!; [lia|lia|apply map_Forall_empty].
Qed.

Lemma Unpin_pinned b sid path sid' :
  pinned (Unpin b sid path).1 sid' = if decide (sid' = sid) then delete path (pinned b sid) else pinned b sid'.
Proof.
  unfold Unpin. destruct (pinned b sid !! path) as [c|] eqn:E; cbn [fst].
  - unfold pinned at 1. cbn [files]. destruct (decide (delete path (pinned b sid) = ∅)) as [Hd|Hd].
    + destruct (decide (sid' = sid)) as [->|Hne]; [by rewrite lookup_delete_eq, Hd|by rewrite lookup_delete_ne].
    + by rewrite pinned_update.
  - case_decide; [subst|done]. by rewrite delete_id.
Qed.

Lemma pin_step_ok b b' : pin_step b b' -> pins_ok b -> pins_ok b'.
Proof.
  destruct 1 as [b sid path c|b sid path|b sid]; intros Hok sid'.
  - destruct (Pin b sid path c) as [b' [[]|e]] eqn:E; [|by apply Pin_err in E as ->; apply Hok].
    destruct (Pin_ok _ _ _ _ _ E) as (H1 & H2 & Hc & Hs & Hb). simpl.
    destruct (decide (sid' = sid)) as [->|Hne]; [|rewrite H2 by done; apply Hok]. rewrite H1.
    destruct (Hok sid) as (Hsz & _ & Hall). split_and!; [lia|done|]. by apply map_Forall_insert_2.
  - rewrite Unpin_pinned. case_decide; [|apply Hok]. destruct (Hok sid) as (H1 & H2 & H3). by apply shrink_ok.
  - unfold ResetPins. destruct (decide (sid' = sid)) as [->|Hne].
    + unfold pinned. cbn [files]. rewrite lookup_delete_eq. simpl. apply empty_pins_ok.
    + replace (pinned (mkPins _) sid') with (pinned b sid'); [apply Hok|]. unfold pinned. cbn [files].
      by rewrite lookup_delete_ne.
Qed.

Lemma Contains_app_r p s c : Contains s c = true -> Contains (p +:+ s) c = true.
Proof.
  rewrite !Contains_spec. intros (pre & post & ->). exists (p +:+ pre), post. by rewrite str_app_assoc.
Qed.

Lemma render_contains l t path c :
  (path, c) ∈ l -> exists pre post, foldr (fun p acc => render_file p +:+ acc) t l = pre +:+ (c +:+ post).
Proof.
  induction l as [|p l IH]; intros Hin; [by apply not_elem_of_nil in Hin|].
  apply elem_of_cons in Hin as [<-|Hin]; cbn [foldr].
  - unfold render_file. cbn [fst snd]. eexists ("--- pinned: " +:+ path +:+ " ---" +:+ pin_nl), _.
    by rewrite <-!str_app_assoc.
  - destruct (IH Hin) as (pre & post & ->). exists (render_file p +:+ pre), post. by rewrite str_app_assoc.
Qed.

(** the reference buffer is bounded and faithful: in every reachable
    buffer each session holds at most 32 files, 1 MiB in all and 256 KiB per
    file; a pin that is accepted is rendered into the prompt in full and leaves
    every other pin as it was, a pin that is refused changes nothing. *)
Theorem pins_bounded_and_rendered (b : ReferenceBuffer) (sid path c : string) :
  rtc pin_step NewReferenceBuffer b ->
  (forall sid', size (pinned b sid') <= maxPinnedFilesPerSID /\ (pinned_bytes (pinned b sid') <= maxPinnedSessionBytes)%Z /\
     map_Forall (fun _ x => zlen x <= maxPinnedFileBytes)%Z (pinned b sid')) /\
  match Pin b sid path c with
  | (b', Ok _) => Contains (Render b' sid) c = true /\
      (forall sid' p, (sid', p) <> (sid, path) -> pinned b' sid' !! p = pinned b sid' !! p)
  | (b', Err _) => b' = b
  end.
Proof.
  intros Hr. split.
  - assert (forall a, rtc pin_step a b -> pins_ok a -> pins_ok b) as H.
    { clear. induction 1; eauto using pin_step_ok. }
    apply (H _ Hr). intros sid'. unfold pinned. simpl. rewrite lookup_empty. apply empty_pins_ok.
  - destruct (Pin b sid path c) as [b' [[]|e]] eqn:E; [|by apply Pin_err in E].
    destruct (Pin_ok _ _ _ _ _ E) as (H1 & H2 & _). split.
    + unfold Render. rewrite H1. rewrite decide_False by apply insert_non_empty.
      do 7 apply Contains_app_r. apply Contains_spec, (render_contains _ _ path).
      rewrite merge_sort_Permutation. apply elem_of_map_to_list, lookup_insert_eq.
    + intros sid' p Hne. destruct (decide (sid' = sid)) as [->|Hs]; [|by rewrite H2].
      rewrite H1, lookup_insert_ne; [done|]. congruence.
Qed.

Lemma pins_bounded_and_rendered_witness :
  (forall sid', size (pinned NewReferenceBuffer sid') <= maxPinnedFilesPerSID /\
     (pinned_bytes (pinned NewReferenceBuffer sid') <= maxPinnedSessionBytes)%Z /\
     map_Forall (fun _ x => zlen x <= maxPinnedFileBytes)%Z (pinned NewReferenceBuffer sid')) /\
  match Pin NewReferenceBuffer "s" "a.txt" "hello" with
  | (b', Ok _) => Contains (Render b' "s") "hello" = true /\
      (forall sid' p, (sid', p) <> ("s", "a.txt") -> pinned b' sid' !! p = pinned NewReferenceBuffer sid' !! p)
  | (b', Err _) => b' = NewReferenceBuffer
  end.
Proof. apply (pins_bounded_and_rendered NewReferenceBuffer "s" "a.txt" "hello"). apply rtc_refl. Defined.
