(* ===== verification/Tools.v ===== *)
(** * The tool catalogue's checks (internal/middleware/tools.go)

    The tool names, which base tools mutate host state, and the argument
    validation every call passes before dispatch.  [url.Parse] is a parameter:
    it gives the scheme and the host of a URL it accepts. *)

From Stdlib Require Import QArith_base.
From S2P Require Import Prelude GoString Event.

Definition ToolExecuteScript : string := "execute_script".
Definition ToolReadFile : string := "read_file".
Definition ToolListDir : string := "list_dir".
Definition ToolWritePatch : string := "write_patch".
Definition ToolApplyCodePatch : string := "apply_code_patch".
Definition ToolSearchSyntax : string := "search_syntax".
Definition ToolPinFile : string := "pin_file".
Definition ToolUnpinFile : string := "unpin_file".
Definition ToolLSPQuery : string := "lsp_query".
Definition ToolFetchExternalDocs : string := "fetch_external_docs".
Definition ToolMonitorDaemon : string := "monitor_daemon".
Definition ToolStopDaemon : string := "stop_daemon".
Definition ToolListDaemons : string := "list_daemons".
Definition ToolDispatchWorkerPool : string := "dispatch_worker_pool".
Definition GitHubToolPrefix : string := "github_".
Definition ModeAudit : string := "audit".

Definition one_of (name : string) (l : list string) : bool := existsb (String.eqb name) l.

Definition IsMutatingBaseTool (name : string) : bool :=
  one_of name [ToolExecuteScript; ToolWritePatch; ToolApplyCodePatch; ToolDispatchWorkerPool;
               ToolMonitorDaemon; ToolStopDaemon].

Definition KnownTool (name : string) : bool :=
  one_of name [ToolExecuteScript; ToolReadFile; ToolListDir; ToolWritePatch; ToolApplyCodePatch;
               ToolSearchSyntax; ToolLSPQuery; ToolPinFile; ToolUnpinFile; ToolFetchExternalDocs;
               ToolDispatchWorkerPool; ToolMonitorDaemon; ToolStopDaemon; ToolListDaemons]
  || HasPrefix name GitHubToolPrefix.

(** An error wraps ErrToolValidation; the message is kept. *)
Abbreviation tool_err := string.

Definition reqString (a : args) (key : string) : result tool_err string :=
  match arg_lookup a key with
  | None => Err ("missing " +:+ key)
  | Some (AStr s) => if String.eqb s "" then Err (key +:+ " must be a non-empty string") else Ok s
  | Some _ => Err (key +:+ " must be a non-empty string")
  end.

(** [if _, err := f; err != nil { return err }] *)
Definition check {A} (r : result tool_err A) (k : result tool_err unit) : result tool_err unit :=
  match r with Ok _ => k | Err e => Err e end.

Definition KiB : Z := 1024.

Definition validateExecuteScript (a : args) : result tool_err unit :=
  match reqString a "script" with
  | Err e => Err e
  | Ok script =>
      if (64 * KiB <? zlen script)%Z then Err "script exceeds 64 KiB"
      else match arg_lookup a "shell" with
           | Some (AStr shell) =>
               if negb (String.eqb shell "bash") && negb (String.eqb shell "sh") && negb (String.eqb shell "")
               then Err "shell must be 'bash' or 'sh'" else Ok tt
           | _ => Ok tt
           end
  end.

Definition validateReadFile (a : args) : result tool_err unit := check (reqString a "path") (Ok tt).
Definition validateListDir (a : args) : result tool_err unit := check (reqString a "path") (Ok tt).
Definition validatePinFile (a : args) : result tool_err unit := check (reqString a "path") (Ok tt).
Definition validateUnpinFile (a : args) : result tool_err unit := check (reqString a "path") (Ok tt).

Definition validateFetchExternalDocs (url_Parse : string -> option (string * string)) (a : args) : result tool_err unit :=
  match reqString a "url" with
  | Err e => Err e
  | Ok rawURL =>
      if (2048 <? zlen rawURL)%Z then Err "url exceeds 2048 bytes"
      else match url_Parse (TrimSpace rawURL) with
           | None => Err "url is not parseable"
           | Some (scheme, host) =>
               if negb (one_of (ToLower scheme) ["http"; "https"]) then Err "url scheme must be http or https"
               else if String.eqb host "" then Err "url must include a host" else Ok tt
           end
  end.

Definition validateWritePatch (a : args) : result tool_err unit :=
  check (reqString a "path") (check (reqString a "content")
    match arg_lookup a "mode" with
    | None => Ok tt
    | Some v =>
        let s := match v with AStr s => s | _ => "" end in
        if one_of (ToLower s) [""; "overwrite"; "append"] then Ok tt
        else Err "mode must be 'overwrite' or 'append'"
    end).

(** The [..] screen of search_syntax and lsp_query paths. *)
Definition path_has_dotdot (s : string) : bool :=
  String.eqb s ".." || HasPrefix s "../" || Contains s "/../".

Definition check_rel_path (s : string) : result tool_err unit :=
  if HasPrefix s "/" then Err "must be relative to the workspace root"
  else if path_has_dotdot s then Err "must not contain '..'"
  else Ok tt.

Fixpoint all_alpha (s : string) : bool :=
  match s with
  | EmptyString => true
  | String c s' => (is_lower c || is_upper c) && all_alpha s'
  end.

(** [n <= 0 || n > 1000] on a JSON number. *)
Definition match_count_ok (q : Q) : bool := negb (Qle_bool q 0) && Qle_bool q 1000.

Definition globs_ok (l : list any) : result tool_err unit :=
  foldr (fun g k => match g with
                    | AStr s => if (256 <? zlen s)%Z then Err "a glob exceeds 256 bytes" else k
                    | _ => Err "globs must be a list of strings"
                    end) (Ok tt) l.

Definition validateSearchSyntax (a : args) : result tool_err unit :=
  match reqString a "pattern" with
  | Err e => Err e
  | Ok pattern =>
      if (8 * KiB <? zlen pattern)%Z then Err "pattern exceeds 8 KiB"
      else
        check (match arg_lookup a "path" with
               | None => Ok tt
               | Some (AStr s) => check_rel_path s
               | Some _ => Err "path must be a string"
               end)
        (check (match arg_lookup a "lang" with
                | None => Ok tt
                | Some (AStr s) => if (16 <? zlen s)%Z then Err "lang exceeds 16 chars"
                                   else if all_alpha s then Ok tt else Err "lang must be alphabetic"
                | Some _ => Err "lang must be a string"
                end)
        (check (match arg_lookup a "max_matches" with
                | None => Ok tt
                | Some (AInt n) => if ((n <=? 0) || (1000 <? n))%Z then Err "max_matches must be 1..1000" else Ok tt
                | Some (AFloat q) => if match_count_ok q then Ok tt else Err "max_matches must be 1..1000"
                | Some _ => Err "max_matches must be an integer"
                end)
        (match arg_lookup a "globs" with
         | None => Ok tt
         | Some (AArr l) => globs_ok l
         | Some _ => Err "globs must be a list of strings"
         end)))
  end.

Definition validatePositiveInt (a : args) (key : string) : result tool_err unit :=
  let test n := if (n <? 1)%Z then Err (key +:+ " must be >= 1 (positions are 1-based)") else Ok tt in
  match arg_lookup a key with
  | None => Err ("missing " +:+ key)
  | Some (AInt n) => test n
  | Some (AFloat q) =>
      let n := int_of_float q in
      if Z.eqb (n * Z.pos (Qden q)) (Qnum q) then test n
      else Err (key +:+ " must be a whole number")
  | Some _ => Err (key +:+ " must be an integer")
  end.

Definition validateLSPQuery (a : args) : result tool_err unit :=
  match reqString a "operation" with
  | Err e => Err e
  | Ok op =>
      if negb (one_of op ["definition"; "references"; "hover"; "implementation"; "document_symbols"; "workspace_symbols"])
      then Err "operation must be one of definition|references|hover|implementation|document_symbols|workspace_symbols"
      else
        check (if String.eqb op "workspace_symbols" then Ok tt
               else match reqString a "path" with Err e => Err e | Ok p => check_rel_path p end)
        (check (if one_of op ["definition"; "references"; "hover"; "implementation"]
                then check (validatePositiveInt a "line") (validatePositiveInt a "character")
                else if String.eqb op "workspace_symbols"
                then check (reqString a "query") (check (reqString a "lang") (Ok tt))
                else Ok tt)
        (check (match arg_lookup a "lang" with
                | None | Some (AStr _) => Ok tt
                | Some _ => Err "lang must be a string"
                end)
        (match arg_lookup a "include_declaration" with
         | None | Some (ABool _) => Ok tt
         | Some _ => Err "include_declaration must be a boolean"
         end)))
  end.

Definition validateApplyCodePatch (a : args) : result tool_err unit :=
  check (reqString a "file_path") (check (reqString a "search_string")
    match arg_lookup a "replace_string" with
    | None => Err "missing replace_string"
    | Some (AStr _) =>
        match arg_lookup a "verify_command" with
        | None => Ok tt
        | Some (AStr s) => if (8 * KiB <? zlen s)%Z then Err "verify_command exceeds 8 KiB" else Ok tt
        | Some _ => Err "verify_command must be a string"
        end
    | Some _ => Err "replace_string must be a string"
    end).

Definition validateMonitorDaemon (a : args) : result tool_err unit :=
  match reqString a "command" with
  | Err e => Err e
  | Ok command =>
      if (64 * KiB <? zlen command)%Z then Err "command exceeds 64 KiB"
      else match arg_lookup a "working_dir" with
           | None | Some (AStr _) => Ok tt
           | Some _ => Err "working_dir must be a string"
           end
  end.

Definition validateStopDaemon (a : args) : result tool_err unit := check (reqString a "daemon_id") (Ok tt).

(** [Validate]; the worker pool's checks are in WorkerPool.v. *)
Definition Validate (url_Parse : string -> option (string * string)) (validateDispatchWorkerPool : args -> result tool_err unit)
    (tool : string) (a : args) : result tool_err unit :=
  if String.eqb tool ToolExecuteScript then validateExecuteScript a
  else if String.eqb tool ToolReadFile then validateReadFile a
  else if String.eqb tool ToolListDir then validateListDir a
  else if String.eqb tool ToolWritePatch then validateWritePatch a
  else if String.eqb tool ToolApplyCodePatch then validateApplyCodePatch a
  else if String.eqb tool ToolSearchSyntax then validateSearchSyntax a
  else if String.eqb tool ToolLSPQuery then validateLSPQuery a
  else if String.eqb tool ToolPinFile then validatePinFile a
  else if String.eqb tool ToolUnpinFile then validateUnpinFile a
  else if String.eqb tool ToolFetchExternalDocs then validateFetchExternalDocs url_Parse a
  else if String.eqb tool ToolDispatchWorkerPool then validateDispatchWorkerPool a
  else if String.eqb tool ToolMonitorDaemon then validateMonitorDaemon a
  else if String.eqb tool ToolStopDaemon then validateStopDaemon a
  else if String.eqb tool ToolListDaemons then Ok tt
  else if HasPrefix tool GitHubToolPrefix then Ok tt
  else Err "unknown tool".

(** ** Facts shared with the dispatcher *)

Lemma check_Ok {A} (r : result tool_err A) k : check r k = Ok tt <-> (exists x, r = Ok x) /\ k = Ok tt.
Proof. destruct r as [x|e]; simpl; split; try naive_solver. Qed.

Lemma reqString_Ok a k s : reqString a k = Ok s <-> arg_lookup a k = Some (AStr s) /\ s <> "".
Proof.
  unfold reqString. destruct (arg_lookup a k) as [[| | | |x| |]|]; try naive_solver.
  destruct (String.eqb_spec x ""); naive_solver.
Qed.

(** A validated name is one the catalogue knows. *)
Lemma Validate_known up vw tool a : Validate up vw tool a = Ok tt -> KnownTool tool = true.
Proof.
  unfold Validate, KnownTool, one_of. intros H.
  repeat match type of H with
  | (if String.eqb ?t ?n then _ else _) = _ => destruct (String.eqb_spec t n) as [->|]; [reflexivity|]
  end.
  destruct (HasPrefix tool GitHubToolPrefix); [|done]. by rewrite orb_true_r.
Qed.
