(* ===== verification/WorkerPool.v ===== *)
(** * The worker pool's argument checks (internal/middleware/workerpool.go)

    dispatch_worker_pool splits a migration into sub-tasks that run in isolated
    worktrees and are merged back; what keeps the merge conflict-free is that
    the declared scopes are pairwise disjoint. *)

From stdpp Require Import pretty.
From S2P Require Import Prelude GoString Event Paths Tools.

Definition maxSubTaskPromptBytes : Z := 16 * 1024.

Record SubTask := mkSubTask { st_ID : string; st_Prompt : string; st_Paths : list string }.

Record WorkerPoolArgs := mkPoolArgs { Tasks : list SubTask }.

Definition cleanScopePath (p : string) : result tool_err string :=
  let p := TrimSpace p in
  if String.eqb p "" then Err "a paths entry is empty"
  else if HasPrefix p "/" then Err "path must be relative to the workspace root"
  else
    let c := Clean p in
    if String.eqb c "." || String.eqb c ".." || HasPrefix c "../"
    then Err "path must name a file or directory inside the workspace"
    else Ok c.

Definition CleanWorkspacePath (p : string) : result tool_err string :=
  let p := TrimSpace p in
  if String.eqb p "" then Err "path must not be empty"
  else if HasPrefix p "/" then Err "path must be relative to the workspace root"
  else
    let c := Clean p in
    if String.eqb c ".." || HasPrefix c "../" then Err "path escapes the workspace root"
    else Ok c.

(** The first pair of conflicting paths. *)
Definition conflict (x y : string) : bool :=
  String.eqb x y || HasPrefix y (x +:+ "/") || HasPrefix x (y +:+ "/").

Definition scopesOverlap (a b : list string) : bool := existsb (fun x => existsb (conflict x) b) a.

Definition PathInScope (p : string) (scope : list string) : bool :=
  existsb (fun s => String.eqb p s || HasPrefix p (s +:+ "/")) scope.

Definition id_byte_ok (c : ascii) : bool :=
  is_lower c || is_upper c || is_digit c || Ascii.eqb c "." || Ascii.eqb c "_" || Ascii.eqb c "-".

Definition validateTaskID (id : string) : result tool_err unit :=
  if (64 <? zlen id)%Z then Err "task id exceeds 64 chars"
  else if Contains id ".." then Err "task id must not contain '..'"
  else if all_bytes id_byte_ok id then Ok tt
  else Err "task id may only contain letters, digits, '.', '_', '-'".

Definition path_elem (v : any) : result tool_err string :=
  match v with AStr s => cleanScopePath s | _ => Err "paths must be a list of strings" end.

Definition parseTaskPaths (v : option any) : result tool_err (list string) :=
  match v with
  | Some (AArr (x :: l)) => mapM_res path_elem (x :: l)
  | _ => Err "paths must be a non-empty array"
  end.

(** The loop over the [tasks] array; [seen] are the ids so far. *)
Fixpoint parseTasks (i : nat) (seen : list string) (raw : list any) : result tool_err (list SubTask) :=
  match raw with
  | [] => Ok []
  | elem :: raw' =>
      match elem with
      | AMap m =>
          let prompt := arg_string_or_empty m "prompt" in
          if String.eqb (TrimSpace prompt) "" then Err "prompt must be a non-empty string"
          else if (maxSubTaskPromptBytes <? zlen prompt)%Z then Err "prompt exceeds the limit"
          else match parseTaskPaths (arg_lookup m "paths") with
          | Err e => Err e
          | Ok paths =>
              let id := TrimSpace (arg_string_or_empty m "id") in
              let id := if String.eqb id "" then "task" +:+ pretty (Z.of_nat (S i)) else id in
              match validateTaskID id with
              | Err e => Err e
              | Ok _ =>
                  if bool_decide (id ∈ seen) then Err "duplicate task id"
                  else match parseTasks (S i) (id :: seen) raw' with
                       | Err e => Err e
                       | Ok ts => Ok (mkSubTask id prompt paths :: ts)
                       end
              end
          end
      | _ => Err "a task must be an object"
      end
  end.

(** The two nested loops over [i < j]. *)
Fixpoint pairwise_disjoint (ts : list SubTask) : bool :=
  match ts with
  | [] => true
  | t :: ts' => forallb (fun u => negb (scopesOverlap (st_Paths t) (st_Paths u))) ts' && pairwise_disjoint ts'
  end.

Definition ParseWorkerPoolArgs (a : args) (maxTasks : Z) : result tool_err WorkerPoolArgs :=
  match arg_lookup a "tasks" with
  | Some (AArr (x :: l)) =>
      let raw := x :: l in
      if ((0 <? maxTasks) && (maxTasks <? Z.of_nat (length raw)))%Z then Err "tasks exceeds the limit"
      else match parseTasks 0 [] raw with
           | Err e => Err e
           | Ok tasks => if pairwise_disjoint tasks then Ok (mkPoolArgs tasks)
                         else Err "tasks claim overlapping paths"
           end
  | _ => Err "tasks must be a non-empty array"
  end.

Definition validateDispatchWorkerPool (a : args) : result tool_err unit :=
  match ParseWorkerPoolArgs a 0 with Ok _ => Ok tt | Err e => Err e end.

(** ** Disjointness *)

Lemma str_app_prefix a b u v : a +:+ u = b +:+ v -> String.length a <= String.length b -> exists w, b = a +:+ w.
Proof.
  revert b. induction a as [|c a IH]; intros b Heq Hl; [by exists b|].
  destruct b as [|d b]; simpl in Hl; [lia|]. rewrite !str_app_cons in Heq. injection Heq as <- Heq.
  destruct (IH b Heq) as [w ->]; [lia|]. by exists w.
Qed.

(** [p] is [s] or below it. *)
Lemma in_scope_spec p s :
  String.eqb p s || HasPrefix p (s +:+ "/") = true <-> exists t, p +:+ "/" = (s +:+ "/") +:+ t.
Proof.
  rewrite orb_true_iff, String.eqb_eq, HasPrefix_app. split.
  - intros [->|[t ->]]; [by exists ""; rewrite str_app_nil_r|]. exists (t +:+ "/"). by rewrite str_app_assoc.
  - intros [t Ht]. assert (withinRoot s p = true) as Hw.
    { unfold withinRoot. destruct (String.eqb p s); [done|]. apply HasPrefix_app. eauto. }
    apply withinRoot_spec in Hw as [->|[u ->]]; [by left|]. right. exists u.
    by rewrite <-str_app_assoc.
Qed.

(** Two scopes that share a path conflict. *)
Lemma shared_path_conflict p x y :
  String.eqb p x || HasPrefix p (x +:+ "/") = true -> String.eqb p y || HasPrefix p (y +:+ "/") = true ->
  conflict x y = true.
Proof.
  intros [t Ht]%in_scope_spec [u Hu]%in_scope_spec. rewrite Ht in Hu. unfold conflict.
  destruct (le_lt_dec (String.length (x +:+ "/")) (String.length (y +:+ "/"))) as [Hle|Hlt].
  - destruct (str_app_prefix _ _ _ _ Hu Hle) as [w Hw].
    assert (String.eqb y x || HasPrefix y (x +:+ "/") = true) as H by (apply in_scope_spec; eauto).
    apply orb_true_iff in H as [->%String.eqb_eq|H]; [by rewrite String.eqb_refl|].
    rewrite H. by rewrite orb_true_r.
  - symmetry in Hu. destruct (str_app_prefix _ _ _ _ Hu) as [w Hw]; [lia|].
    assert (String.eqb x y || HasPrefix x (y +:+ "/") = true) as H by (apply in_scope_spec; eauto).
    apply orb_true_iff in H as [->%String.eqb_eq|H]; [by rewrite String.eqb_refl|].
    rewrite H. by rewrite !orb_true_r.
Qed.

Lemma overlap_of_shared p a b : PathInScope p a = true -> PathInScope p b = true -> scopesOverlap a b = true.
Proof.
  unfold PathInScope, scopesOverlap. intros (x & Hx & Hpx)%existsb_exists (y & Hy & Hpy)%existsb_exists.
  apply existsb_exists. exists x. split; [done|]. apply existsb_exists. exists y. split; [done|].
  by eapply shared_path_conflict.
Qed.

Lemma pairwise_disjoint_lookup ts i j t u p :
  pairwise_disjoint ts = true -> ts !! i = Some t -> ts !! j = Some u -> i <> j ->
  PathInScope p (st_Paths t) = true -> PathInScope p (st_Paths u) = true -> False.
Proof.
  revert i j t u. induction ts as [|a ts IH]; intros i j t u Hd Hi Hj Hne Ht Hu; [done|].
  simpl in Hd. apply andb_true_iff in Hd as [Ha Hd]. rewrite forallb_forall in Ha.
  assert (forall k v, ts !! k = Some v -> PathInScope p (st_Paths a) = true -> PathInScope p (st_Paths v) = true -> False) as Hf.
  { intros k v Hk Hpa Hpv. apply list_elem_of_lookup_2, list_elem_of_In in Hk. apply Ha in Hk.
    by rewrite (overlap_of_shared p) in Hk. }
  destruct i as [|i], j as [|j]; simplify_eq/=; eauto.
Qed.

Lemma parseTasks_ids i seen raw ts :
  parseTasks i seen raw = Ok ts ->
  NoDup (st_ID <$> ts) /\ (forall id, id ∈ st_ID <$> ts -> id ∉ seen) /\ length ts = length raw /\
  Forall (fun t => validateTaskID (st_ID t) = Ok tt /\ st_Paths t <> [] /\
                   (0 < zlen (st_Prompt t) <= maxSubTaskPromptBytes)%Z) ts.
Proof.
  revert i seen ts. induction raw as [|elem raw IH]; intros i seen ts; cbn [parseTasks].
  { intros [= <-]. split_and!; try done; [constructor|]. by intros id ?%not_elem_of_nil. }
  destruct elem as [| | | | | |m]; try done.
  destruct (String.eqb_spec (TrimSpace (arg_string_or_empty m "prompt")) "") as [|Hp]; [done|].
  destruct (_ <? _)%Z eqn:Hlen; [done|]. destruct (parseTaskPaths (arg_lookup m "paths")) as [paths|] eqn:Hpaths; [|done].
  cbv zeta. set (id := if String.eqb _ _ then _ else _). destruct (validateTaskID id) as [[]|] eqn:Hid; [|done].
  case_bool_decide as Hseen; [done|]. destruct (parseTasks (S i) (id :: seen) raw) as [ts'|] eqn:Hrec; [|done].
  intros [= <-]. destruct (IH _ _ _ Hrec) as (Hnd & Hns & Hl & Hall). boolprop. split_and!.
  - constructor; [|done]. intros Hin. apply Hns in Hin. by apply Hin, list_elem_of_here.
  - intros x Hx. apply elem_of_cons in Hx as [->|Hx]; [done|]. apply Hns in Hx. intros Hs. by apply Hx, list_elem_of_further.
  - simpl. by rewrite Hl.
  - constructor; [|done]. split; [done|]. split; simpl.
    + unfold parseTaskPaths in Hpaths. destruct (arg_lookup m "paths") as [[| | | | |[|y l]|]|]; try done.
      intros ->. by apply mapM_res_Forall2, Forall2_nil_inv_r in Hpaths.
    + split; [|done]. destruct (arg_string_or_empty m "prompt") eqn:E; [by destruct Hp|].
      unfold zlen. simpl. lia.
Qed.

(** What acceptance means. *)
Lemma ParseWorkerPoolArgs_Ok a maxTasks w :
  ParseWorkerPoolArgs a maxTasks = Ok w ->
  exists x l, arg_lookup a "tasks" = Some (AArr (x :: l)) /\ parseTasks 0 [] (x :: l) = Ok (Tasks w) /\ pairwise_disjoint (Tasks w) = true /\
    ((0 <? maxTasks) && (maxTasks <? Z.of_nat (length (x :: l))))%Z = false.
Proof.
  unfold ParseWorkerPoolArgs. destruct (arg_lookup a "tasks") as [[| | | | |[|x l]|]|]; try done.
  destruct (_ && _) eqn:Hmax; [done|]. destruct (parseTasks 0 [] (x :: l)) as [ts|] eqn:Hts; [|done].
  destruct (pairwise_disjoint ts) eqn:Hd; [|done]. intros [= <-]. by exists x, l.
Qed.

(** the worker pool only launches conflict-free work: when the arguments
    are accepted, every task has a valid id that no other task has, a non-empty
    scope and a bounded prompt, the number of tasks is that of the request
    within the limit, and no path whatever lies in the scopes of two different
    tasks. *)
Theorem worker_scopes_disjoint (a : args) (maxTasks : Z) (w : WorkerPoolArgs) :
  ParseWorkerPoolArgs a maxTasks = Ok w ->
  (forall p i j t u, Tasks w !! i = Some t -> Tasks w !! j = Some u -> i <> j ->
     PathInScope p (st_Paths t) = true -> PathInScope p (st_Paths u) = false) /\
  NoDup (st_ID <$> Tasks w) /\
  ((0 < maxTasks)%Z -> (Z.of_nat (length (Tasks w)) <= maxTasks)%Z) /\
  Forall (fun t => validateTaskID (st_ID t) = Ok tt /\ st_Paths t <> [] /\
                   (0 < zlen (st_Prompt t) <= maxSubTaskPromptBytes)%Z) (Tasks w).
Proof.
  intros (x & l & _ & Hts & Hd & Hmax)%ParseWorkerPoolArgs_Ok.
  destruct (parseTasks_ids _ _ _ _ Hts) as (Hnd & _ & Hlen & Hall). split_and!; try done.
  - intros p i j t u Hi Hj Hne Ht. apply not_true_iff_false. intros Hu. exact (pairwise_disjoint_lookup _ i j t u p Hd Hi Hj Hne Ht Hu).
  - intros Hpos. rewrite Hlen. destruct (Z.ltb_spec 0 maxTasks); [|lia]. simpl in Hmax. boolprop. simpl. lia.
Qed.

Definition demo_pool : args :=
  [("tasks", AArr [AMap [("prompt", AStr "port a"); ("paths", AArr [AStr "src/a/"; AStr "docs/a.md"])];
                   AMap [("id", AStr "b"); ("prompt", AStr "port b"); ("paths", AArr [AStr "src/ab"])]])].

Definition demo_tasks : list SubTask :=
  [mkSubTask "task1" "port a" ["src/a"; "docs/a.md"]; mkSubTask "b" "port b" ["src/ab"]].

Lemma worker_scopes_disjoint_witness :
  (forall p i j t u, demo_tasks !! i = Some t -> demo_tasks !! j = Some u -> i <> j ->
     PathInScope p (st_Paths t) = true -> PathInScope p (st_Paths u) = false) /\
  NoDup (st_ID <$> demo_tasks) /\
  ((0 < 4)%Z -> (Z.of_nat (length demo_tasks) <= 4)%Z) /\
  Forall (fun t => validateTaskID (st_ID t) = Ok tt /\ st_Paths t <> [] /\
                   (0 < zlen (st_Prompt t) <= maxSubTaskPromptBytes)%Z) demo_tasks.
Proof. apply (worker_scopes_disjoint demo_pool 4 (mkPoolArgs demo_tasks)). vm_compute. reflexivity. Defined.
