(* ===== verification/Approver.v ===== *)
(** * Human approval (internal/middleware/approver.go)

    The policy approver: which tools need consent, and the rendezvous between
    the goroutine that awaits an answer and the router that signals it.  The
    answer channels live in a store of their own, since [Await] keeps its
    channel after [Cancel] has dropped it from the pending map; the calls
    interleave in any order ([approver_step]) and [log] records them. *)

From S2P Require Import Prelude GoString Event Tools.

Record policy := mkPolicy { requiredTools : gset string; autoGrant : bool; timeout : Z }.

Definition NewPolicyApprover (required : list string) (autoGrant : bool) (timeout : Z) : policy :=
  mkPolicy (list_to_set (filter (fun t => t <> "") required)) autoGrant
    (if (timeout <=? 0)%Z then 60 * 1000000000 else timeout)%Z.

Definition RequiresApproval (p : policy) (tool : string) : bool * string :=
  if autoGrant p then (false, "")
  else if negb (bool_decide (tool ∈ requiredTools p)) then (false, "")
  else if String.eqb tool ToolExecuteScript then (true, "runs an arbitrary shell script")
  else if String.eqb tool ToolWritePatch then (true, "writes to the host workspace")
  else if String.eqb tool ToolApplyCodePatch then (true, "edits a file via search/replace")
  else if String.eqb tool ToolMonitorDaemon then (true, "starts a long-running process on the host")
  else if HasPrefix tool GitHubToolPrefix then (true, "mutates GitHub state")
  else (true, "configured policy").

Definition AddRequired (p : policy) (names : list string) : policy :=
  mkPolicy (requiredTools p ∪ list_to_set (filter (fun n => n <> "") names)) (autoGrant p) (timeout p).

Lemma RequiresApproval_spec p tool :
  (RequiresApproval p tool).1 = true <-> autoGrant p = false /\ tool ∈ requiredTools p.
Proof.
  unfold RequiresApproval. destruct (autoGrant p); [naive_solver|].
  case_bool_decide; simpl; [|naive_solver]. repeat case_match; naive_solver.
Qed.

(** ** The rendezvous *)

Inductive await_result := Granted | ErrApprovalDenied | ErrApprovalTimeout | ErrCtx | ErrApprovalUnknownID.

#[export] Instance await_result_eq_dec : EqDecision await_result.
Proof. solve_decision. Defined.

Inductive call :=
| CRegister (id : string)
| CSignal (id : string) (granted : bool)
| CCancel (id : string)
| CAwait (id : string)
| CResult (id : string) (r : await_result).

#[export] Instance call_eq_dec : EqDecision call.
Proof. solve_decision. Defined.

(** [pending] maps an id to its channel, [chans] a channel to its buffered
    answer, [owner] records for which id a channel was made, [waits] are the
    calls blocked in [Await]'s select. *)
Record approver := mkApprover {
  pending : gmap string nat;
  chans : gmap nat (option bool);
  owner : gmap nat string;
  next : nat;
  waits : list (string * nat);
  log : list call;
}.

Definition empty_approver : approver := mkApprover ∅ ∅ ∅ 0 [] [].

Definition Register (a : approver) (id : string) : approver :=
  match pending a !! id with
  | Some _ => mkApprover (pending a) (chans a) (owner a) (next a) (waits a) (log a ++ [CRegister id])
  | None =>
      mkApprover (<[id := next a]> (pending a)) (<[next a := None]> (chans a)) (<[next a := id]> (owner a))
        (S (next a)) (waits a) (log a ++ [CRegister id])
  end.

(** A send on a channel of capacity one that does not block. *)
Definition Signal (a : approver) (id : string) (granted : bool) : approver :=
  let log' := log a ++ [CSignal id granted] in
  match pending a !! id with
  | None => mkApprover (pending a) (chans a) (owner a) (next a) (waits a) log'
  | Some ch =>
      match chans a !! ch with
      | Some None => mkApprover (pending a) (<[ch := Some granted]> (chans a)) (owner a) (next a) (waits a) log'
      | _ => mkApprover (pending a) (chans a) (owner a) (next a) (waits a) log'
      end
  end.

Definition Cancel (a : approver) (id : string) : approver :=
  mkApprover (delete id (pending a)) (chans a) (owner a) (next a) (waits a) (log a ++ [CCancel id]).

(** Entering [Await]: block on the channel, or fail at once. *)
Definition Await_enter (a : approver) (id : string) : approver :=
  match pending a !! id with
  | None => mkApprover (pending a) (chans a) (owner a) (next a) (waits a)
              (log a ++ [CAwait id; CResult id ErrApprovalUnknownID])
  | Some ch => mkApprover (pending a) (chans a) (owner a) (next a) ((id, ch) :: waits a) (log a ++ [CAwait id])
  end.

(** Leaving it: one of the three cases of the select. *)
Inductive leave := LRecv | LTimer | LCtx.

Definition Await_leave (a : approver) (k : nat) (l : leave) : option approver :=
  match (waits a !! k : option (string * nat)) with
  | None => None
  | Some (id, ch) =>
      let waits' : list (string * nat) := delete k (waits a) in
      let finish (cs : gmap nat (option bool)) (r : await_result) := mkApprover (pending a) cs (owner a) (next a) waits' (log a ++ [CResult id r]) in
      match l with
      | LRecv =>
          match (chans a !! ch : option (option bool)) with
          | Some (Some g) => Some (finish (<[ch := None]> (chans a)) (if g then Granted else ErrApprovalDenied))
          | _ => None                       (* nothing buffered: this case is not ready *)
          end
      | LTimer => Some (finish (chans a) ErrApprovalTimeout)
      | LCtx => Some (finish (chans a) ErrCtx)
      end
  end.

Inductive approver_step : approver -> approver -> Prop :=
| AS_register a id : approver_step a (Register a id)
| AS_signal a id g : approver_step a (Signal a id g)
| AS_cancel a id : approver_step a (Cancel a id)
| AS_enter a id : approver_step a (Await_enter a id)
| AS_leave a k l a' : Await_leave a k l = Some a' -> approver_step a a'.

(** [id] was registered and then signalled [g] without a cancel in between. *)
Definition signalled (log : list call) (id : string) (g : bool) : Prop :=
  exists l1 l2 l3, log = l1 ++ CRegister id :: l2 ++ CSignal id g :: l3 /\ CCancel id ∉ l2.

(** [id] was registered and not cancelled since. *)
Definition open_slot (log : list call) (id : string) : Prop :=
  exists l1 l2, log = l1 ++ CRegister id :: l2 /\ CCancel id ∉ l2.

Record approver_inv (a : approver) : Prop := {
  inv_pending id ch : pending a !! id = Some ch -> owner a !! ch = Some id /\ open_slot (log a) id;
  inv_chans ch g : chans a !! ch = Some (Some g) -> exists id, owner a !! ch = Some id /\ signalled (log a) id g;
  inv_waits id ch : (id, ch) ∈ waits a -> owner a !! ch = Some id;
  inv_fresh ch id : owner a !! ch = Some id -> ch < next a;
  inv_results id : CResult id Granted ∈ log a ->
    exists l1 l2, log a = l1 ++ CResult id Granted :: l2 /\ signalled l1 id true;
}.

Lemma signalled_app log x id g : signalled log id g -> signalled (log ++ x) id g.
Proof.
  intros (l1 & l2 & l3 & -> & Hn). exists l1, l2, (l3 ++ x). split; [|done].
  rewrite <-app_assoc. simpl. by rewrite <-app_assoc.
Qed.

Lemma open_slot_app log x id : open_slot log id -> CCancel id ∉ x -> open_slot (log ++ x) id.
Proof.
  intros (l1 & l2 & -> & Hn) Hx. exists l1, (l2 ++ x). split; [by rewrite <-app_assoc|].
  rewrite elem_of_app. tauto.
Qed.

Lemma open_slot_signal log id g : open_slot log id -> signalled (log ++ [CSignal id g]) id g.
Proof. intros (l1 & l2 & -> & Hn). exists l1, l2, []. split; [|done]. by rewrite <-app_assoc. Qed.

(** The results clause under a log extension that adds no grant. *)
Lemma results_app log x :
  (forall id, CResult id Granted ∈ log -> exists l1 l2, log = l1 ++ CResult id Granted :: l2 /\ signalled l1 id true) ->
  (forall id, CResult id Granted ∈ x -> signalled log id true /\ x = [CResult id Granted]) ->
  forall id, CResult id Granted ∈ log ++ x ->
    exists l1 l2, log ++ x = l1 ++ CResult id Granted :: l2 /\ signalled l1 id true.
Proof.
  intros Hold Hnew id [Hin|Hin]%elem_of_app.
  - destruct (Hold id Hin) as (l1 & l2 & -> & Hs). exists l1, (l2 ++ x). split; [by rewrite <-app_assoc|done].
  - destruct (Hnew id Hin) as [Hs ->]. exists log, []. done.
Qed.

Lemma no_elem_one (x y : call) : x <> y -> x ∉ [y].
Proof. intros H ?%list_elem_of_singleton. done. Qed.

Lemma step_log_plain a pending' chans' owner' next' waits' x :
  approver_inv a ->
  (forall id, CCancel id <> x) -> (forall id, CResult id Granted <> x) ->
  (forall id ch, pending' !! id = Some ch -> pending a !! id = Some ch /\ owner' !! ch = Some id \/
     (owner' !! ch = Some id /\ open_slot (log a ++ [x]) id)) ->
  (forall ch g, chans' !! ch = Some (Some g) -> chans a !! ch = Some (Some g) /\ owner' !! ch = owner a !! ch \/
     exists id, owner' !! ch = Some id /\ signalled (log a ++ [x]) id g) ->
  (forall id ch, (id, ch) ∈ waits' -> owner' !! ch = Some id) ->
  (forall ch id, owner' !! ch = Some id -> ch < next') ->
  approver_inv (mkApprover pending' chans' owner' next' waits' (log a ++ [x])).
Proof.
  intros [H1 H2 H3 H4 H5] Hxc Hxr Hp Hch Hw Hn. split; simpl; try done.
  - intros id ch Hid. destruct (Hp id ch Hid) as [[Ho Hown]|?]; [|done]. split; [done|].
    apply open_slot_app; [by apply (H1 id ch)|]. apply no_elem_one, Hxc.
  - intros ch g Hg. destruct (Hch ch g Hg) as [[Ho Hown]|?]; [|done].
    destruct (H2 ch g Ho) as (id & Hid & Hs). exists id. split; [congruence|]. by apply signalled_app.
  - apply (results_app _ _); [done|]. intros id ?%list_elem_of_singleton. by destruct (Hxr id).
Qed.

Lemma Register_inv a id : approver_inv a -> approver_inv (Register a id).
Proof.
  intros Hinv; pose proof Hinv as [H1 H2 H3 H4 H5].
  unfold Register. destruct (pending a !! id) as [ch0|] eqn:E; apply step_log_plain; try done; try (by eauto).
  - intros id' ch Hp. left. split; [done|]. by apply H1.
  - intros id' ch [[<- <-]|[Hne Hp]]%lookup_insert_Some.
    + right. rewrite lookup_insert_eq. split; [done|]. exists (log a), []. split; [done|apply not_elem_of_nil].
    + left. split; [done|]. destruct (H1 _ _ Hp) as [Ho _]. rewrite lookup_insert_ne; [done|].
      apply H4 in Ho. lia.
  - intros ch g [[<- ?]|[Hne Hc]]%lookup_insert_Some; [done|]. left. split; [done|]. by rewrite lookup_insert_ne.
  - intros id' ch Hw. apply H3 in Hw. rewrite lookup_insert_ne; [done|]. apply H4 in Hw. lia.
  - intros ch id' [[<- <-]|[_ Ho]]%lookup_insert_Some; [lia|]. apply H4 in Ho. lia.
Qed.

Lemma Signal_inv a id g : approver_inv a -> approver_inv (Signal a id g).
Proof.
  intros Hinv; pose proof Hinv as [H1 H2 H3 H4 H5].
  unfold Signal. assert (forall chans', (forall ch g', chans' !! ch = Some (Some g') -> chans a !! ch = Some (Some g') \/
      exists id', owner a !! ch = Some id' /\ signalled (log a ++ [CSignal id g]) id' g') ->
    approver_inv (mkApprover (pending a) chans' (owner a) (next a) (waits a) (log a ++ [CSignal id g]))) as Hgen.
  { intros chans' Hc. apply step_log_plain; try done.
    - intros id' ch Hp. left. split; [done|]. by apply H1.
    - intros ch g' Hg'. destruct (Hc ch g' Hg'); [by left|by right]. }
  destruct (pending a !! id) as [ch|] eqn:E; [|apply Hgen; by left].
  destruct (chans a !! ch) as [[|]|] eqn:Ec; apply Hgen; try (by left).
  intros ch' g' [[<- [= <-]]|[_ ?]]%lookup_insert_Some; [right|by left].
  destruct (H1 _ _ E) as [Ho Hop]. exists id. split; [done|]. by apply open_slot_signal.
Qed.

Lemma Cancel_inv a id : approver_inv a -> approver_inv (Cancel a id).
Proof.
  intros Hinv; pose proof Hinv as [H1 H2 H3 H4 H5].
  unfold Cancel. split; simpl; try done.
  - intros id' ch [Hne Hp]%lookup_delete_Some. destruct (H1 _ _ Hp) as [Ho Hop]. split; [done|].
    apply open_slot_app; [done|]. apply no_elem_one. congruence.
  - intros ch g Hg. destruct (H2 _ _ Hg) as (id' & Ho & Hs). exists id'. split; [done|]. by apply signalled_app.
  - apply (results_app _ _); [done|]. intros id' ?%list_elem_of_singleton. done.
Qed.

Lemma Await_enter_inv a id : approver_inv a -> approver_inv (Await_enter a id).
Proof.
  intros Hinv; pose proof Hinv as [H1 H2 H3 H4 H5].
  unfold Await_enter. destruct (pending a !! id) as [ch|] eqn:E.
  - apply step_log_plain; try done; try (by eauto).
    + intros id' ch' Hp. left. split; [done|]. by apply H1.
    + intros id' ch' [[= -> ->]|Hw]%elem_of_cons; [by apply H1|by apply H3].
  - split; simpl; try done.
    + intros id' ch Hp. destruct (H1 _ _ Hp) as [Ho Hop]. split; [done|]. apply open_slot_app; [done|].
      intros [?|?%list_elem_of_singleton]%elem_of_cons; done.
    + intros ch g Hg. destruct (H2 _ _ Hg) as (id' & Ho & Hs). exists id'. split; [done|]. by apply signalled_app.
    + apply (results_app _ _); [done|]. intros id' [?|?%list_elem_of_singleton]%elem_of_cons; done.
Qed.

Lemma Await_leave_inv a k l a' : Await_leave a k l = Some a' -> approver_inv a -> approver_inv a'.
Proof.
  intros Hl Hinv; pose proof Hinv as [H1 H2 H3 H4 H5].
  unfold Await_leave in Hl. destruct (waits a !! k) as [[id ch]|] eqn:Ew; [|done].
  pose proof (H3 _ _ (list_elem_of_lookup_2 _ _ _ Ew)) as Hown.
  assert (forall id' ch', (id', ch') ∈ delete k (waits a) -> owner a !! ch' = Some id') as Hw'.
  { intros id' ch' Hin. apply H3. by eapply (sublist_subseteq), Hin; apply sublist_delete. }
  assert (forall id' ch', pending a !! id' = Some ch' -> owner a !! ch' = Some id') as Hp'.
  { intros id' ch' Hp. by apply H1. }
  destruct l.
  2, 3: injection Hl as <-; apply step_log_plain; try done; by eauto 6.
  destruct (chans a !! ch) as [[g|]|] eqn:Ec; simplify_eq.
  assert (forall ch' g', <[ch := None]> (chans a) !! ch' = Some (Some g') -> chans a !! ch' = Some (Some g')) as Hch.
  { intros ch' g' [[_ ?]|[_ ?]]%lookup_insert_Some; done. }
  destruct g; [|apply step_log_plain; try done; by eauto 6].
  destruct (H2 _ _ Ec) as (id' & Ho & Hs). rewrite Hown in Ho. injection Ho as <-.
  split; simpl; try done.
  - intros id' ch' Hp. destruct (H1 _ _ Hp) as [Ho Hop]. split; [done|]. apply open_slot_app; [done|]. by apply no_elem_one.
  - intros ch' g' Hg. apply Hch in Hg. destruct (H2 _ _ Hg) as (id' & Ho & Hs'). exists id'. split; [done|]. by apply signalled_app.
  - apply (results_app _ _); [done|]. intros id' [= ->]%list_elem_of_singleton. done.
Qed.

Lemma approver_step_inv a a' : approver_step a a' -> approver_inv a -> approver_inv a'.
Proof.
  destruct 1; eauto using Register_inv, Signal_inv, Cancel_inv, Await_enter_inv, Await_leave_inv.
Qed.

Lemma empty_approver_inv : approver_inv empty_approver.
Proof. split; simpl; try done; intros; by try (apply not_elem_of_nil in H). Qed.

Lemma approver_reachable a : rtc approver_step empty_approver a -> approver_inv a.
Proof.
  intros Hr. assert (forall x, rtc approver_step x a -> approver_inv x -> approver_inv a) as H.
  { clear. induction 1; eauto using approver_step_inv. }
  apply (H _ Hr), empty_approver_inv.
Qed.

(** C8: consent cannot be forged: under every interleaving of registrations,
    signals, cancels, waits and time-outs, whenever a wait for a request id ends
    with a grant, that id had been registered and then signalled with a grant
    before the wait ended, with no cancel of the id between the two; and a
    signal for an id whose answer is already there changes nothing but the log
    (the first answer wins). *)
Theorem approval_requires_signal (a : approver) (id : string) :
  rtc approver_step empty_approver a ->
  (CResult id Granted ∈ log a ->
   exists l1 l2, log a = l1 ++ CResult id Granted :: l2 /\ signalled l1 id true) /\
  (forall ch g g', pending a !! id = Some ch -> chans a !! ch = Some (Some g) -> chans (Signal a id g') = chans a).
Proof.
  intros Hr%approver_reachable. split; [apply (inv_results _ Hr)|].
  intros ch g g' Hp Hc. unfold Signal. by rewrite Hp, Hc.
Qed.

Definition demo_granted : approver :=
  default empty_approver
    (Await_leave (Signal (Await_enter (Register empty_approver "r1") "r1") "r1" true) 0 LRecv).

Lemma approval_requires_signal_witness :
  (CResult "r1" Granted ∈ log demo_granted ->
   exists l1 l2, log demo_granted = l1 ++ CResult "r1" Granted :: l2 /\ signalled l1 "r1" true) /\
  (forall ch g g', pending demo_granted !! "r1" = Some ch -> chans demo_granted !! ch = Some (Some g) ->
     chans (Signal demo_granted "r1" g') = chans demo_granted).
Proof.
  apply (approval_requires_signal demo_granted "r1").
  eapply rtc_l; [apply (AS_register _ "r1")|]. eapply rtc_l; [apply (AS_enter _ "r1")|].
  eapply rtc_l; [apply (AS_signal _ "r1" true)|]. apply rtc_once. by apply (AS_leave _ 0 LRecv).
Defined.
