(* ===== verification/Dispatcher.v ===== *)
(** * Tool dispatch (internal/middleware/dispatcher.go)

    [Dispatch] routes a call to the sandbox, the workspace engine, the
    reference buffer, the documentation fetcher or GitHub;
    [applyCodePatchWithVerify] composes a patch with a verification run and
    rolls the patch back when the run fails.

    The sandbox is any runner that keeps the runner contract; what its commands
    do to the workspace is the parameter [sandbox_effect].  The documentation
    fetcher and the GitHub backend are parameters.  [cancels] says which send,
    if any, the context's cancellation preempts. *)

From stdpp Require Import pretty.
From S2P Require Import Prelude GoString Event Paths Sandbox Os Fsops FsopsSpec History Tools.

Record ToolCall := mkCall { cTool : string; cArgs : args }.

Record DispatchOptions := mkOpts {
  oWorkingDir : string;
  oTimeout : Z;
  oSessionID : string;
  oFSOpsLimits : Limits;
  oMaxResultBytes : Z;
  oMode : string;
}.

Record cancels := mkCancels { c_body : option nat; c_exec : option nat; c_stream : option nat }.

Definition no_cancel : cancels := mkCancels None None None.

Section dispatcher.
Context {R : Type} `{Runner R}.
Variable enc : encoders.
Variable flt flt_restore : faults.                        (* failures before and during a rollback *)
Variable sandbox_effect : ExecRequest -> FS -> FS.
Variable docs_Fetch : string -> result gerror (option string).  (* the JSON of the result, if it encodes *)
Variable github_Call : ToolCall -> DispatchOptions -> result gerror (list ExecChunk).

Record CompositeDispatcher := mkDispatcher {
  dSandbox : option R;
  dFSOps : option Engine;
  dHasGitHub : bool;
  dHasPins : bool;
  dHasDocs : bool;
}.

(** What dispatch can change: the workspace and the reference buffer. *)
Record dstate := mkD { d_fs : FS; d_pins : ReferenceBuffer }.

Definition verify_request (opts : DispatchOptions) (cmd : string) : ExecRequest :=
  mkRequest ToolExecuteScript [("shell", AStr "bash"); ("script", AStr cmd)]
    (oWorkingDir opts) (oTimeout opts) (oSessionID opts) (oMaxResultBytes opts).

Definition call_request (call : ToolCall) (opts : DispatchOptions) : ExecRequest :=
  mkRequest (cTool call) (cArgs call) (oWorkingDir opts) (oTimeout opts) (oSessionID opts) (oMaxResultBytes opts).

(** The last exit chunk of the verify stream and the chunks before it. *)
Definition stream_exit (l : list ExecChunk) : option ExecChunk := last (filter (fun c => is_exit c = true) l).
Definition stream_body (l : list ExecChunk) : list ExecChunk := filter (fun c => is_exit c = false) l.

Definition stderr_msg (s : string) : ExecChunk := stderr_chunk s.

(** Step 4: the exit chunk decides whether the patch stays. *)
Definition verify_decide (restore : IO unit) (path : string) (chunks : list ExecChunk) (fs1 : FS) : FS * list ExecChunk :=
  match stream_exit chunks with
  | None =>
      ((restore fs1).1,
       stream_body chunks ++ [stderr_msg ("verify_command runner closed without exit; rolled back " +:+ path);
               exit_chunk (-1) (Some (other "verify_command: runner closed without exit chunk"))])
  | Some x =>
      if bool_decide (ChunkErr x <> None) || negb (Z.eqb (ExitCode x) 0) then
        let '(fs2, r) := restore fs1 in
        let msg := match r with
                   | Err _ => "verify_command failed; rollback ALSO failed"
                   | Ok _ => "verify_command failed; rolled back " +:+ path
                   end in
        (fs2, stream_body chunks ++ [stderr_msg msg; x])
      else (fs1, stream_body chunks ++ [x])
  end.

(** Steps 2 and 3: run the command and forward its output. *)
Definition verify_run (sb : R) (cn : cancels) (req : ExecRequest) (restore : IO unit) (path : string) (fs1 : FS)
    : FS * list ExecChunk :=
  match Exec sb (c_exec cn) req with
  | Err verr =>
      let '(fs2, r) := restore fs1 in
      let msg := match r with
                 | Err _ => "verify_command dispatch failed; rollback ALSO failed"
                 | Ok _ => "verify_command dispatch failed; rolled back " +:+ path
                 end in
      (fs2, [stderr_msg msg; exit_chunk (-1) (Some verr)])
  | Ok chunks =>
      let fs1 := sandbox_effect req fs1 in
      match c_stream cn with
      | Some k => if k <? length (stream_body chunks)
                  then ((restore fs1).1, take k (stream_body chunks) ++ [exit_chunk (-1) (Some ctxErr)])
                  else verify_decide restore path chunks fs1
      | None => verify_decide restore path chunks fs1
      end
  end.

Definition applyCodePatchWithVerify (sb : R) (e : Engine) (cn : cancels) (call : ToolCall) (opts : DispatchOptions)
    (verifyCommand : string) (fs : FS) : FS * list ExecChunk :=
  let sid := oSessionID opts in
  match ApplyCodePatchWithSnapshot flt e sid (cArgs call) (oFSOpsLimits opts) fs with
  | (fs1, Err err) => (fs1, [exit_chunk (-1) (Some err)])
  | (fs1, Ok (snapshot, resolvedPath, applyResult)) =>
      let restore := RestoreFile flt_restore e sid resolvedPath snapshot in
      (* 1. the JSON result *)
      let pieces := match json_patch enc applyResult with
                    | Some body => chunk_bytes (Z.to_nat emitChunkBytes) body
                    | None => []
                    end in
      let proceed :=
        let '(fs', out) := verify_run sb cn (verify_request opts verifyCommand) restore (ar_Path applyResult) fs1 in
        (fs', (stdout_chunk <$> pieces) ++ out) in
      match c_body cn with
      | Some k => if k <? length pieces
                  then ((restore fs1).1, (stdout_chunk <$> take k pieces) ++ [exit_chunk (-1) (Some ctxErr)])
                  else proceed
      | None => proceed
      end
  end.

(** The bytes and the exit of a read_file stream. *)
Definition collect_stdout (l : list ExecChunk) : string :=
  str_concat (Data <$> filter (fun c => Stream c = StreamStdout) l).

Definition pinFile (e : Engine) (cn : cancels) (call : ToolCall) (opts : DispatchOptions) (st : dstate)
    : dstate * list ExecChunk :=
  let path := arg_string_or_empty (cArgs call) "path" in
  if String.eqb path "" then (st, [exit_chunk (-1) (Some (badRequest "pin_file requires a non-empty 'path'"))])
  else
    let '(fs', r) := Run enc flt (c_exec cn) e (oSessionID opts) "read_file" [("path", AStr path)] (oFSOpsLimits opts) (d_fs st) in
    let st1 := mkD fs' (d_pins st) in
    match r with
    | Err err => (st1, [exit_chunk (-1) (Some err)])
    | Ok l =>
        match stream_exit l with
        | None => (st1, [exit_chunk (-1) (Some (other "pin_file: read_file closed without an exit chunk"))])
        | Some x =>
            match ChunkErr x with
            | Some err => (st1, [exit_chunk (-1) (Some err)])
            | None =>
                if negb (Z.eqb (ExitCode x) 0) then (st1, [exit_chunk (-1) (Some (badRequest "read_file exited non-zero"))])
                else
                  let buf := collect_stdout l in
                  match Pin (d_pins st) (oSessionID opts) path buf with
                  | (_, Err _) => (st1, [exit_chunk (-1) (Some (badRequest "reference buffer cap exceeded"))])
                  | (pins', Ok _) =>
                      (mkD fs' pins',
                       [stdout_chunk ("pinned " +:+ path +:+ " (" +:+ pretty (zlen buf) +:+ " bytes) to the persistent reference buffer; it will stay at the top of the prompt until unpinned");
                        exit_chunk 0 None])
                  end
            end
        end
    end.

Definition unpinFile (call : ToolCall) (opts : DispatchOptions) (st : dstate) : dstate * list ExecChunk :=
  let path := arg_string_or_empty (cArgs call) "path" in
  if String.eqb path "" then (st, [exit_chunk (-1) (Some (badRequest "unpin_file requires a non-empty 'path'"))])
  else
    let '(pins', removed) := Unpin (d_pins st) (oSessionID opts) path in
    let msg : string := if removed then "unpinned " +:+ path +:+ " from the persistent reference buffer"
                        else path +:+ " was not pinned; nothing to unpin" in
    (mkD (d_fs st) pins', [stdout_chunk msg; exit_chunk 0 None]).

(** A timeout or a cancellation passes through, everything else is a bad request. *)
Definition fetchDocsErr (err : gerror) : gerror :=
  match kind err with
  | KDeadlineExceeded | KCtxCanceled => err
  | _ => badRequest (emsg err)
  end.

Definition fetchDocs (cn : cancels) (call : ToolCall) : list ExecChunk :=
  let rawURL := arg_string_or_empty (cArgs call) "url" in
  if String.eqb rawURL "" then [exit_chunk (-1) (Some (badRequest "fetch_external_docs requires a non-empty 'url'"))]
  else match docs_Fetch rawURL with
       | Err err => [exit_chunk (-1) (Some (fetchDocsErr err))]
       | Ok None => [exit_chunk (-1) (Some (other "fetch_external_docs: marshal result"))]
       | Ok (Some body) =>
           send_chunks (c_body cn) (chunk_bytes (Z.to_nat emitChunkBytes) body)
             [exit_chunk (-1) (Some ctxErr)] [exit_chunk 0 None]
       end.

Definition Dispatch (c : CompositeDispatcher) (cn : cancels) (call : ToolCall) (opts : DispatchOptions) (st : dstate)
    : dstate * result gerror (list ExecChunk) :=
  let tool := cTool call in
  let lift_fs := fun '(fs', l) => (mkD fs' (d_pins st), Ok l) in
  if String.eqb (oMode opts) ModeAudit && IsMutatingBaseTool tool
  then (st, Err (badRequest "tool is disabled in audit mode"))
  else if String.eqb tool ToolExecuteScript || String.eqb tool ToolSearchSyntax then
    match dSandbox c with
    | None => (st, Err (badRequest "sandbox runner not configured"))
    | Some sb =>
        let req := call_request call opts in
        match Exec sb (c_exec cn) req with
        | Err err => (st, Err err)
        | Ok l => (mkD (sandbox_effect req (d_fs st)) (d_pins st), Ok l)
        end
    end
  else if String.eqb tool ToolReadFile || String.eqb tool ToolListDir || String.eqb tool ToolWritePatch
          || String.eqb tool ToolApplyCodePatch then
    match dFSOps c with
    | None => (st, Err (badRequest "fsops engine not configured"))
    | Some e =>
        let vc := arg_string_or_empty (cArgs call) "verify_command" in
        if String.eqb tool ToolApplyCodePatch && negb (String.eqb vc "") then
          match dSandbox c with
          | None => (st, Err (badRequest "verify_command requires sandbox runner"))
          | Some sb => lift_fs (applyCodePatchWithVerify sb e cn call opts vc (d_fs st))
          end
        else
          let '(fs', r) := Run enc flt (c_exec cn) e (oSessionID opts) tool (cArgs call) (oFSOpsLimits opts) (d_fs st) in
          (mkD fs' (d_pins st), r)
    end
  else if String.eqb tool ToolPinFile then
    if negb (dHasPins c) then (st, Err (badRequest "reference buffer not configured"))
    else match dFSOps c with
         | None => (st, Err (badRequest "fsops engine not configured"))
         | Some e => let '(st', l) := pinFile e cn call opts st in (st', Ok l)
         end
  else if String.eqb tool ToolUnpinFile then
    if negb (dHasPins c) then (st, Err (badRequest "reference buffer not configured"))
    else let '(st', l) := unpinFile call opts st in (st', Ok l)
  else if String.eqb tool ToolFetchExternalDocs then
    if negb (dHasDocs c) then (st, Err (badRequest "doc fetcher not configured"))
    else (st, Ok (fetchDocs cn call))
  else if HasPrefix tool GitHubToolPrefix then
    if negb (dHasGitHub c) then (st, Err (badRequest "github backend not configured"))
    else (st, github_Call call opts)
  else (st, Err (badRequest "unknown tool")).
End dispatcher.

(** ** Streams *)

Lemma contract_parts l : contract l ->
  exists x, stream_exit l = Some x /\ is_exit x = true /\ last l = Some x /\
    Forall (fun c => is_output c = true) (stream_body l).
Proof.
  intros (out & x & -> & Hx & Ho). unfold stream_exit, stream_body.
  assert (Forall (fun c => is_exit c = false) out) as Hne.
  { eapply Forall_impl; [exact Ho|]. intros c. unfold is_output, is_exit. by destruct (Stream c). }
  exists x. rewrite !filter_app.
  rewrite (filter_all_false (fun c => is_exit c = true) out)
    by (eapply Forall_impl; [exact Hne|]; simpl; congruence).
  rewrite (filter_all_true (fun c => is_exit c = false) out) by done.
  rewrite filter_cons_True by done. rewrite filter_cons_False by congruence.
  rewrite !filter_nil, app_nil_r. split_and!; try done. apply last_snoc.
Qed.

Lemma contract_stderr s x : is_exit x = true -> contract [stderr_msg s; x].
Proof. intros Hx. by apply (contract_snoc [stderr_msg s]); [repeat constructor|]. Qed.

Lemma exit_is_exit c e : is_exit (exit_chunk c e) = true.
Proof. done. Qed.

#[export] Hint Resolve contract_stderr exit_is_exit : go.

Section contracts.
Context {R : Type} `{RunnerContract R}.
Variables (enc : encoders) (flt flt_restore : faults) (sandbox_effect : ExecRequest -> FS -> FS).

Lemma verify_decide_contract restore path chunks fs1 : contract chunks -> contract (verify_decide restore path chunks fs1).2.
Proof.
  intros Hc. destruct (contract_parts _ Hc) as (x & Hse & Hx & _ & Hbody). unfold verify_decide. rewrite Hse.
  destruct (_ || _); [|by apply contract_snoc].
  destruct (restore fs1) as [fs3 r0]. apply contract_app; auto with go.
Qed.

Lemma verify_run_contract sb cn req restore path fs1 :
  contract (verify_run sandbox_effect sb cn req restore path fs1).2.
Proof.
  unfold verify_run. destruct (Exec sb _ _) as [chunks|verr] eqn:Ex.
  - apply runner_contract in Ex. destruct (contract_parts _ Ex) as (x & _ & _ & _ & Hbody).
    destruct (c_stream cn) as [k|]; [destruct (k <? _)|]; try by apply verify_decide_contract.
    simpl. apply contract_app; [by apply Forall_take|apply contract_exit].
  - destruct (restore fs1) as [fs2 r0]. by apply contract_stderr.
Qed.

Lemma verify_contract sb e cn call opts vc fs :
  contract (applyCodePatchWithVerify enc flt flt_restore sandbox_effect sb e cn call opts vc fs).2.
Proof.
  unfold applyCodePatchWithVerify. destruct (ApplyCodePatchWithSnapshot _ _ _ _ _ _) as [fs1 [[[snap res] r]|err]];
    [|apply contract_exit].
  set (pieces := match json_patch enc r with Some b => _ | None => [] end).
  pose proof (verify_run_contract sb cn (verify_request opts vc) (RestoreFile flt_restore e (oSessionID opts) res snap) (ar_Path r) fs1) as Hp.
  destruct (verify_run _ _ _ _ _ _ _) as [fs' out]. simpl in Hp.
  destruct (c_body cn) as [k|]; [destruct (k <? length pieces)|]; simpl; apply contract_app; auto with go.
Qed.

Lemma pinFile_contract e cn call opts st : contract (pinFile enc flt e cn call opts st).2.
Proof.
  unfold pinFile. destruct (String.eqb _ ""); [apply contract_exit|].
  destruct (Run _ _ _ _ _ _ _ _ _) as [fs' [l|err]]; [|apply contract_exit].
  destruct (stream_exit l) as [x|]; [|apply contract_exit].
  destruct (ChunkErr x); [apply contract_exit|]. destruct (negb _); [apply contract_exit|].
  destruct (Pin _ _ _ _) as [pins' [[]|]]; [|apply contract_exit].
  simpl. apply (contract_snoc [_]); [by repeat constructor|done].
Qed.

Lemma unpinFile_contract call opts st : contract (unpinFile call opts st).2.
Proof.
  unfold unpinFile. destruct (String.eqb _ ""); [apply contract_exit|].
  destruct (Unpin _ _ _) as [pins' removed]. simpl. apply (contract_snoc [_]); [by repeat constructor|done].
Qed.

Lemma fetchDocs_contract fetch cn call : contract (fetchDocs fetch cn call).
Proof.
  unfold fetchDocs. destruct (String.eqb _ ""); [apply contract_exit|].
  destruct (fetch _) as [[b|]|err]; auto with go.
Qed.

Lemma Run_contract cn e sid tool a limits fs l :
  (Run enc flt cn e sid tool a limits fs).2 = Ok l -> contract l.
Proof.
  intros Hl. pose proof (fsops_streams_contract enc flt cn e sid tool a limits fs) as Hc. by rewrite Hl in Hc.
Qed.
End contracts.

Lemma Dispatch_contract {R : Type} `{RunnerContract R} (enc : encoders) (flt flt_restore : faults)
    (sandbox_effect : ExecRequest -> FS -> FS) (docs_Fetch : string -> result gerror (option string))
    (github_Call : ToolCall -> DispatchOptions -> result gerror (list ExecChunk))
    (c : CompositeDispatcher) (cn : cancels) (call : ToolCall) (opts : DispatchOptions) (st : dstate) (l : list ExecChunk) :
  (forall call opts l, github_Call call opts = Ok l -> contract l) ->
  (Dispatch (R := R) enc flt flt_restore sandbox_effect docs_Fetch github_Call c cn call opts st).2 = Ok l ->
  contract l.
Proof.
  intros Hgh. unfold Dispatch. destruct (_ && IsMutatingBaseTool _); [done|].
  destruct (_ || _).
  { destruct (dSandbox c) as [sb|]; [|done]. destruct (Exec _ _ _) as [l'|] eqn:E; [|done].
    intros [= <-]. by eapply runner_contract. }
  destruct (_ || _).
  { destruct (dFSOps c) as [e|]; [|done]. destruct (_ && negb _).
    - destruct (dSandbox c) as [sb|]; [|done].
      pose proof (verify_contract enc flt flt_restore sandbox_effect sb e cn call opts (arg_string_or_empty (cArgs call) "verify_command") (d_fs st)) as Hv.
      destruct (applyCodePatchWithVerify _ _ _ _ _ _ _ _ _ _ _) as [fs' out]. by intros [= <-].
    - destruct (Run _ _ _ _ _ _ _ _ _) as [fs' r] eqn:Er. simpl. intros ->.
      apply (Run_contract enc flt (c_exec cn) e (oSessionID opts) (cTool call) (cArgs call) (oFSOpsLimits opts) (d_fs st)). by rewrite Er. }
  destruct (String.eqb _ ToolPinFile).
  { destruct (negb _); [done|]. destruct (dFSOps c) as [e|]; [|done].
    pose proof (pinFile_contract enc flt e cn call opts st) as Hp. destruct (pinFile _ _ _ _ _ _ _). by intros [= <-]. }
  destruct (String.eqb _ ToolUnpinFile).
  { destruct (negb _); [done|]. pose proof (unpinFile_contract call opts st) as Hp.
    destruct (unpinFile _ _ _). by intros [= <-]. }
  destruct (String.eqb _ ToolFetchExternalDocs).
  { destruct (negb _); [done|]. intros [= <-]. apply fetchDocs_contract. }
  destruct (HasPrefix _ _); [|done]. destruct (negb _); [done|]. apply Hgh.
Qed.

(** every stream a client sees is well formed: if the sandbox keeps the
    runner contract and the GitHub backend does, then whatever tool is
    dispatched, in whatever state, with whatever failures and cancellations, the
    stream [Dispatch] returns is output chunks followed by exactly one exit
    chunk. *)
Theorem dispatch_keeps_runner_contract {R : Type} `{RunnerContract R} (enc : encoders) (flt flt_restore : faults)
    (sandbox_effect : ExecRequest -> FS -> FS) (docs_Fetch : string -> result gerror (option string))
    (github_Call : ToolCall -> DispatchOptions -> result gerror (list ExecChunk))
    (c : CompositeDispatcher) (cn : cancels) (call : ToolCall) (opts : DispatchOptions) (st : dstate) (l : list ExecChunk) :
  (forall call opts l, github_Call call opts = Ok l -> contract l) ->
  (Dispatch (R := R) enc flt flt_restore sandbox_effect docs_Fetch github_Call c cn call opts st).2 = Ok l ->
  contract l.
Proof. apply Dispatch_contract. Qed.

(** ** Audit mode *)

Lemma pinFile_files enc flt e cn call opts st :
  root_ok e (d_fs st) -> links_ok (comps_of (root e)) (d_fs st) ->
  scope_made e (oSessionID opts) (d_fs st) (d_fs (pinFile enc flt e cn call opts st).1).
Proof.
  intros Hok Hl. unfold pinFile. destruct (String.eqb _ ""); [by left|].
  pose proof (runReadFile_made e (oSessionID opts) (d_fs st) Hok Hl flt (c_exec cn)
    [("path", AStr (arg_string_or_empty (cArgs call) "path"))] (oFSOpsLimits opts)) as Hm.
  unfold Run. cbn [String.eqb Ascii.eqb Bool.eqb].
  destruct (runReadFile _ _ _ _ _ _ _) as [fs' l]. simpl in Hm.
  repeat case_match; simplify_eq; done.
Qed.

(** audit mode is read only: a call dispatched in audit mode, whatever the
    tool and its arguments, leaves the content of every file of the store as it
    is (at most the session's own directory is created), provided the sandbox
    does not write during a code search; and a mutating base tool is refused
    without touching anything. *)
Theorem audit_mode_is_read_only {R : Type} `{Runner R} (enc : encoders) (flt flt_restore : faults)
    (sandbox_effect : ExecRequest -> FS -> FS) (docs_Fetch : string -> result gerror (option string))
    (github_Call : ToolCall -> DispatchOptions -> result gerror (list ExecChunk))
    (c : CompositeDispatcher (R := R)) (e : Engine) (cn : cancels) (call : ToolCall) (opts : DispatchOptions) (st : dstate) :
  dFSOps c = Some e -> root_ok e (d_fs st) -> links_ok (comps_of (root e)) (d_fs st) ->
  (forall req fs, rTool req = ToolSearchSyntax -> sandbox_effect req fs = fs) ->
  oMode opts = ModeAudit ->
  let '(st', r) := Dispatch enc flt flt_restore sandbox_effect docs_Fetch github_Call c cn call opts st in
  scope_made e (oSessionID opts) (d_fs st) (d_fs st') /\
  (IsMutatingBaseTool (cTool call) = true -> st' = st /\ exists err, r = Err err).
Proof.
  intros He Hok Hl Hse Hmode. unfold Dispatch. rewrite Hmode, String.eqb_refl. simpl.
  destruct (IsMutatingBaseTool (cTool call)) eqn:Hmut; [split; [by left|eauto]|].
  unfold IsMutatingBaseTool, one_of in Hmut. cbn [existsb] in Hmut. boolprop. rewrite He.
  rewrite H0, H1, H2. rewrite !orb_false_l, !orb_false_r.
  destruct (String.eqb_spec (cTool call) ToolSearchSyntax) as [Hs|_].
  { destruct (dSandbox c) as [sb|]; [|by split; [left|]]. destruct (Exec _ _ _); [|by split; [left|]].
    split; [|done]. simpl. rewrite Hse by done. by left. }
  destruct (String.eqb_spec (cTool call) ToolReadFile) as [Hr|Hr]; cbn [orb andb].
  { rewrite Hr. unfold Run. rewrite String.eqb_refl.
    pose proof (runReadFile_made e (oSessionID opts) (d_fs st) Hok Hl flt (c_exec cn) (cArgs call) (oFSOpsLimits opts)) as Hm.
    destruct (runReadFile _ _ _ _ _ _ _). by split. }
  destruct (String.eqb_spec (cTool call) ToolListDir) as [Hd|Hd]; cbn [orb andb].
  { rewrite Hd. unfold Run. cbn [String.eqb Ascii.eqb Bool.eqb].
    pose proof (runListDir_made e (oSessionID opts) (d_fs st) Hok Hl (json_list enc) flt (c_exec cn) (cArgs call)) as Hm.
    change (ToolListDir =? "read_file")%string with false. change (ToolListDir =? "list_dir")%string with true. cbv iota.
    destruct (runListDir _ _ _ _ _ _ _). by split. }
  destruct (String.eqb _ ToolPinFile).
  { destruct (negb _); [by split; [left|]|].
    pose proof (pinFile_files enc flt e cn call opts st Hok Hl). by destruct (pinFile _ _ _ _ _ _ _); split. }
  destruct (String.eqb _ ToolUnpinFile).
  { destruct (negb _); [by split; [left|]|]. unfold unpinFile.
    destruct (String.eqb _ ""); [by split; [left|]|]. destruct (Unpin _ _ _). by split; [left|]. }
  destruct (String.eqb _ ToolFetchExternalDocs); [destruct (negb _); by split; [left|]|].
  destruct (HasPrefix _ _); [destruct (negb _)|]; by split; [left|].
Qed.

(** ** Patch and verify *)

(** Did the stream report success? *)
Definition succeeded (x : ExecChunk) : Prop := ChunkErr x = None /\ ExitCode x = 0%Z.

Section verified_patch.
Context {R : Type} `{RunnerContract R}.
Variables (sandbox_effect : ExecRequest -> FS -> FS) (restore : IO unit) (path : string) (fs1 : FS).
Hypothesis Hro : forall req fs, sandbox_effect req fs = fs.

(** The outcome of a verification: success keeps the store, anything else
    restores. *)
Definition outcome (r : FS * list ExecChunk) : Prop :=
  exists x, last r.2 = Some x /\ (succeeded x /\ r.1 = fs1 \/ ~ succeeded x /\ r.1 = (restore fs1).1).

Lemma outcome_cons fs' out pre : outcome (fs', out) -> outcome (fs', pre ++ out).
Proof.
  intros (x & Hl & Hx). exists x. split; [|done]. simpl in *. rewrite last_app, Hl. done.
Qed.

Lemma outcome_fail fs' pre x : ~ succeeded x -> fs' = (restore fs1).1 -> outcome (fs', pre ++ [x]).
Proof. intros Hx ->. exists x. simpl. rewrite last_snoc. split; [done|]. by right. Qed.

Lemma verify_decide_outcome chunks : contract chunks -> outcome (verify_decide restore path chunks fs1).
Proof.
  intros Hc. destruct (contract_parts _ Hc) as (x & Hse & Hx & _ & _). unfold verify_decide. rewrite Hse.
  destruct (bool_decide (ChunkErr x <> None) || negb (Z.eqb (ExitCode x) 0)) eqn:E.
  - destruct (restore fs1) as [fs2 r] eqn:Er. apply outcome_cons, (outcome_fail _ [_]); [|by rewrite Er]. intros [H1 H2]. apply orb_true_iff in E as [E|E].
    + apply bool_decide_eq_true in E. done.
    + rewrite H2 in E. done.
  - exists x. simpl. rewrite last_snoc. split; [done|]. left. split; [|done].
    apply orb_false_iff in E as [E1 E2]. apply bool_decide_eq_false in E1. split; [by destruct (ChunkErr x); [destruct E1|]|].
    apply negb_false_iff, Z.eqb_eq in E2. done.
Qed.

Lemma verify_run_outcome sb cn req : outcome (verify_run sandbox_effect sb cn req restore path fs1).
Proof.
  unfold verify_run. destruct (Exec sb _ _) as [chunks|verr] eqn:Ex.
  - apply runner_contract in Ex. rewrite Hro.
    destruct (c_stream cn) as [k|]; [destruct (k <? _)|]; try by apply verify_decide_outcome.
    apply outcome_fail; [|done]. by intros [? ?].
  - destruct (restore fs1) as [fs2 r] eqn:Er. apply (outcome_fail _ [_]); [by intros [? ?]|by rewrite Er].
Qed.
End verified_patch.

(** C5: apply-and-verify is atomic.  Suppose the workspace root is a real
    directory at its canonical location ([root_ok]), no symbolic link below it is
    broken ([links_ok]), the runner keeps its contract (a stream that ends with one
    exit chunk), the patch applies, the verification command does not
    write to the workspace itself and the rollback's own write succeeds.  Then
    the stream ends with a successful exit exactly when the patch is kept; in
    every other case (the command fails, cannot be started, times out, or the
    client disconnects at any point) the workspace is back to what it was before
    the patch, but for the session's own directory, which the call may have
    created. *)
Theorem verified_patch_kept_iff_success {R : Type} `{RunnerContract R} (enc : encoders) (flt flt_restore : faults)
    (sandbox_effect : ExecRequest -> FS -> FS) (sb : R) (e : Engine) (cn : cancels) (call : ToolCall)
    (opts : DispatchOptions) (vc : string) (fs fs1 : FS) (snapshot resolved : string) (res : ApplyCodePatchResult) :
  root_ok e fs -> links_ok (comps_of (root e)) fs ->
  (forall req fs, sandbox_effect req fs = fs) ->
  applyCodePatchInner flt e (oSessionID opts) (cArgs call) (oFSOpsLimits opts) fs = (fs1, Ok (snapshot, resolved, res)) ->
  (RestoreFile flt_restore e (oSessionID opts) resolved snapshot fs1).2 = Ok tt ->
  let r := applyCodePatchWithVerify enc flt flt_restore sandbox_effect sb e cn call opts vc fs in
  exists x, last r.2 = Some x /\
    (succeeded x /\ r.1 = fs1 \/ ~ succeeded x /\ scope_made e (oSessionID opts) fs r.1).
Proof.
  intros Hok Hl Hro Happly Hrest r.
  assert (outcome (RestoreFile flt_restore e (oSessionID opts) resolved snapshot) fs1 r) as (x & Hx & Hcase).
  { unfold r, applyCodePatchWithVerify, ApplyCodePatchWithSnapshot. rewrite Happly.
    pose proof (verify_run_outcome sandbox_effect (RestoreFile flt_restore e (oSessionID opts) resolved snapshot)
      (ar_Path res) fs1 Hro sb cn (verify_request opts vc)) as Hrun.
    destruct (verify_run _ _ _ _ _ _ _) as [fs' out].
    destruct (c_body cn) as [k|]; [destruct (k <? _)|]; try by apply outcome_cons.
    apply outcome_fail; [|done]. by intros [? ?]. }
  exists x. split; [done|]. destruct Hcase as [?|[Hs Hr]]; [by left|]. right. split; [done|]. rewrite Hr.
  destruct (RestoreFile flt_restore e (oSessionID opts) resolved snapshot fs1) as [fs3 r3] eqn:E.
  simpl in *. subst r3. by eapply restore_rolls_back.
Qed.

(** ** Concrete runs *)

Definition scripted : Type := { m : MockRunner | script_ok (Script m) }.

#[export] Instance scripted_runner : Runner scripted := fun m => mock_Exec (proj1_sig m).

#[export] Instance scripted_contract : RunnerContract scripted.
Proof. intros [m Hm] cancel req l Hl. exact (mock_Exec_contract m cancel req l Hm Hl). Qed.

Lemma failing_ok : script_ok (MockScript "checking" "2 errors" 1).
Proof. right. by apply (contract_snoc [_; _]); [repeat constructor|]. Qed.

Definition failing : scripted := exist _ (mkMock (MockScript "checking" "2 errors" 1) None) failing_ok.

Definition demo_call : ToolCall := mkCall "apply_code_patch" demo_patch.
Definition demo_opts : DispatchOptions := mkOpts "" 0 "s" (mkLimits 0 0) 0 "audit".

Lemma verified_patch_kept_iff_success_witness :
  let r := applyCodePatchWithVerify demo_encoders no_faults no_faults (fun _ fs => fs) failing demo_engine no_cancel
             demo_call demo_opts "make test" demo_fs in
  exists x, last r.2 = Some x /\
    (succeeded x /\ r.1 = demo_patched \/ ~ succeeded x /\ scope_made demo_engine "s" demo_fs r.1).
Proof.
  apply (verified_patch_kept_iff_success demo_encoders no_faults no_faults (fun _ fs => fs) failing demo_engine no_cancel
    demo_call demo_opts "make test" demo_fs demo_patched ("one" +:+ nl +:+ "two" +:+ nl +:+ "three") "/ws/a.txt" demo_result).
  - apply demo_root_ok. by left.
  - apply demo_links_ok.
  - done.
  - apply demo_applied.
  - vm_compute. reflexivity.
Defined.

Definition demo_dispatcher : CompositeDispatcher (R := scripted) := mkDispatcher (Some failing) (Some demo_engine) false true false.

Lemma dispatch_keeps_runner_contract_witness : contract (MockScript "checking" "2 errors" 1).
Proof.
  apply (dispatch_keeps_runner_contract (R := scripted) demo_encoders no_faults no_faults (fun _ fs => fs)
    (fun _ => Ok None) (fun _ _ => Err (other "off")) demo_dispatcher no_cancel
    (mkCall "execute_script" []) (mkOpts "" 0 "s" (mkLimits 0 0) 0 "") (mkD demo_fs NewReferenceBuffer)).
  - done.
  - reflexivity.
Defined.

Lemma audit_mode_is_read_only_witness :
  let '(st', r) := Dispatch (R := scripted) demo_encoders no_faults no_faults (fun _ fs => fs) (fun _ => Ok None)
    (fun _ _ => Err (other "off")) demo_dispatcher no_cancel demo_call demo_opts (mkD demo_fs NewReferenceBuffer) in
  scope_made demo_engine "s" demo_fs (d_fs st') /\
  (IsMutatingBaseTool "apply_code_patch" = true -> st' = mkD demo_fs NewReferenceBuffer /\ exists err, r = Err err).
Proof.
  apply (audit_mode_is_read_only (R := scripted) demo_encoders no_faults no_faults (fun _ fs => fs) (fun _ => Ok None)
    (fun _ _ => Err (other "off")) demo_dispatcher demo_engine no_cancel demo_call demo_opts (mkD demo_fs NewReferenceBuffer)).
  - done.
  - apply demo_root_ok. by left.
  - apply demo_links_ok.
  - done.
  - done.
Defined.
