(* ===== verification/Recovery.v ===== *)
(** * Automated error recovery (internal/middleware/recovery.go)

    Which failures are retried, the structured report fed back to the model,
    and the retry budget of one turn.  A Go [int] is kept as [Z]; the budget
    counts at most one per tool call. *)

From S2P Require Import Prelude GoString Event Wire.

Definition SandboxErrTimeout := "sandbox_timeout".
Definition SandboxErrOOM := "sandbox_oom".
Definition SandboxErrImagePull := "sandbox_image_pull".
Definition SandboxErrUnavailable := "sandbox_unavailable".
Definition SandboxErrBadRequest := "sandbox_bad_request".
Definition SandboxErrInternal := "sandbox_internal".
Definition SandboxErrCanceled := "sandbox_canceled".
Definition SandboxErrUnauthorized := "sandbox_unauthorized".

Definition MaxErrorReportStderrBytes : Z := 8 * 1024.

Definition ShouldAutoRetry (exitCode : Z) (errCode : string) : bool :=
  if String.eqb errCode "" then negb (exitCode =? 0)%Z
  else String.eqb errCode SandboxErrTimeout || String.eqb errCode SandboxErrOOM.

Definition trunc_marker : string := "...[truncated]..." +:+ String (ascii_of_nat 10) "".

(** The last [n] bytes. *)
Definition str_tail (n : Z) (s : string) : string := str_drop (Z.to_nat (zlen s - n)) s.

Definition truncStderr (src : string) (limit : Z) : string :=
  if ((limit <=? 0) || (zlen src =? 0))%Z then ""
  else if (zlen src <=? limit)%Z then src
  else if (limit <=? zlen trunc_marker)%Z then str_tail limit src
  else trunc_marker +:+ str_tail (limit - zlen trunc_marker) src.

(** [call.ID] and [call.Tool] of the failing call. *)
Definition BuildErrorReport (callID tool : string) (exitCode : Z) (errCode errMsg stderrSrc : string)
    (attempt maxAttempts : Z) : SystemErrorReportPayload :=
  mkErrorReport tool callID exitCode errCode errMsg (truncStderr stderrSrc MaxErrorReportStderrBytes) attempt maxAttempts false.

(** ** The budget *)

Record RetryBudget := mkBudget { used : Z; max : Z }.

Definition NewRetryBudget (m : Z) : RetryBudget := mkBudget 0 (if (m <? 0)%Z then 0%Z else m).
Definition Reset (b : RetryBudget) : RetryBudget := mkBudget 0 (max b).
Definition Consume (b : RetryBudget) : RetryBudget * bool :=
  if (max b <=? used b)%Z then (mkBudget (used b + 1) (max b), false) else (mkBudget (used b + 1) (max b), true).
Definition Attempt (b : RetryBudget) : Z := if (used b =? 0)%Z then 1%Z else used b.

Lemma str_tail_len n s : (0 <= n)%Z -> (zlen (str_tail n s) = Z.min n (zlen s))%Z.
Proof. intros Hn. unfold str_tail, zlen. rewrite str_length_drop. lia. Qed.

Lemma str_tail_suffix n s : exists pre, s = pre +:+ str_tail n s.
Proof. unfold str_tail. eexists. symmetry. apply str_take_drop. Qed.

(** the report's stderr is bounded and is the end of the output: it is
    never longer than the limit (8 KiB in the report), is the whole stderr
    when that fits, and otherwise, behind the truncation marker, exactly the
    last bytes of it that leave room for the marker. *)
Theorem error_report_keeps_stderr_tail (src : string) (limit : Z) :
  (zlen (truncStderr src limit) <= Z.max 0 limit)%Z /\
  ((zlen src <= limit)%Z -> truncStderr src limit = src) /\
  ((zlen trunc_marker < limit)%Z -> (limit < zlen src)%Z ->
   exists pre tail, src = pre +:+ tail /\ truncStderr src limit = trunc_marker +:+ tail /\ zlen (truncStderr src limit) = limit).
Proof.
  unfold truncStderr. pose proof (zlen_nonneg src) as Hnn. set (m := zlen trunc_marker). split_and!.
  - repeat case_match; boolprop; try (change (zlen "") with 0%Z); try lia.
    + rewrite str_tail_len; lia.
    + rewrite zlen_app, str_tail_len; unfold m in *; lia.
  - intros Hle. destruct ((limit <=? 0) || (zlen src =? 0))%Z eqn:E.
    + assert (zlen src = 0)%Z as Hz by (apply orb_true_iff in E as [E|E]; boolprop; lia). unfold zlen in Hz. by destruct src.
    + by apply Z.leb_le in Hle as ->.
  - intros Hm Hlt. unfold m in *. assert (zlen trunc_marker = 18)%Z as E by reflexivity.
    replace ((limit <=? 0) || (zlen src =? 0))%Z with false by (symmetry; apply orb_false_iff; split; apply Z.leb_gt || apply Z.eqb_neq; lia).
    replace (zlen src <=? limit)%Z with false by (symmetry; apply Z.leb_gt; lia).
    replace (limit <=? zlen trunc_marker)%Z with false by (symmetry; apply Z.leb_gt; lia).
    destruct (str_tail_suffix (limit - zlen trunc_marker) src) as [pre Hpre].
    exists pre, (str_tail (limit - zlen trunc_marker) src). split_and!; try done. rewrite zlen_app, str_tail_len; lia.
Qed.

(** *** Chains of failures *)

(** What the loop of a turn does with the outcome of a tool call: [None] when
    it escalates. *)
Definition after_call (b : RetryBudget) (exitCode : Z) (errCode : string) : option RetryBudget :=
  if ShouldAutoRetry exitCode errCode
  then let '(b', ok) := Consume b in if ok then Some b' else None
  else Some (Reset b).

(** The calls of a turn, in order, until the loop escalates. *)
Fixpoint run_calls (b : RetryBudget) (outcomes : list (Z * string)) : option RetryBudget :=
  match outcomes with
  | [] => Some b
  | (x, e) :: rest => match after_call b x e with None => None | Some b' => run_calls b' rest end
  end.

(** Failures since the last success. *)
Fixpoint streak (n : Z) (outcomes : list (Z * string)) : Z :=
  match outcomes with
  | [] => n
  | (x, e) :: rest => streak (if ShouldAutoRetry x e then n + 1 else 0) rest
  end.

Lemma run_calls_streak b outcomes b' :
  (0 <= used b <= max b)%Z -> run_calls b outcomes = Some b' ->
  used b' = streak (used b) outcomes /\ max b' = max b /\ (0 <= used b' <= max b)%Z.
Proof.
  revert b. induction outcomes as [|[x e] rest IH]; intros b Hb; simpl; [by intros [= <-]|].
  unfold after_call, Consume. destruct (ShouldAutoRetry x e).
  - destruct (Z.leb_spec (max b) (used b)); [done|]. intros H'. apply IH in H'; simpl in *; [done|lia].
  - intros H'. apply IH in H'; simpl in *; [done|lia].
Qed.

(** the auto-retry budget: a turn goes on exactly as long as no more than
    [max] retryable failures follow one another; the next failure in a row
    escalates, and any success or non-retryable failure starts the count
    again, so a chain of failures makes at most [max + 1] attempts. *)
Theorem retry_chain_is_bounded (m : Z) (outcomes : list (Z * string)) (x : Z) (e : string) (b : RetryBudget) :
  run_calls (NewRetryBudget m) outcomes = Some b ->
  (0 <= streak 0 outcomes <= Z.max 0 m)%Z /\
  (after_call b x e = None <-> ShouldAutoRetry x e = true /\ streak 0 outcomes = Z.max 0 m).
Proof.
  intros Hrun. unfold NewRetryBudget in Hrun.
  replace (if (m <? 0)%Z then 0%Z else m) with (Z.max 0 m) in Hrun by (destruct (Z.ltb_spec m 0); lia).
  apply run_calls_streak in Hrun as (Hu & Hm & Hr); [|simpl; lia]. simpl in *. rewrite <-Hu. split; [lia|].
  unfold after_call, Consume. destruct (ShouldAutoRetry x e); [|naive_solver].
  rewrite Hm. destruct (Z.leb_spec (Z.max 0 m) (used b)); split; try done; [intros _; split; [done|lia]|intros [_ ?]; lia].
Qed.

Lemma retry_chain_is_bounded_witness :
  after_call (mkBudget 2 2) 1 "" = None /\ (0 <= streak 0 [(1, ""); (0, ""); (2, ""); (1, "")]%Z <= 2)%Z.
Proof.
  pose proof (retry_chain_is_bounded 2 [(1, ""); (0, ""); (2, ""); (1, "")]%Z 1 "" (mkBudget 2 2) eq_refl) as [H1 H2].
  split; [apply H2; split; reflexivity|exact H1].
Defined.
