(* ===== verification/LspWire.v ===== *)
(** * The language-server wire format (internal/sandbox/lsp.go, first part)

    Content-Length framing ([writeLSPFrame], [readLSPFrame]), the projection of
    results onto the tool's envelope ([parseLocations], [parseHover],
    [parseSymbols]) and the size cap of [marshalLSPResult].

    A frame body is a byte string; [encoding/json] between bytes and values is a
    parameter, as are [net/url]'s parser and the length of a marshalled result.
    [make] with a length above [maxAlloc] panics, as the Go runtime does. *)

From S2P Require Import Prelude GoString GoConv Event Wire.

(** ** Framing *)

Definition nl_byte : ascii := ascii_of_nat 10.
Definition cr_byte : ascii := ascii_of_nat 13.
Definition crlf : string := String cr_byte (String nl_byte "").

Definition writeLSPFrame (body : string) : string :=
  "Content-Length: " +:+ Itoa (zlen body) +:+ crlf +:+ crlf +:+ body.

(** What reading a frame from the rest of the stream ends in. *)
Inductive frame :=
| Frame (body rest : string)
| FrameErr (e : string)
| FramePanic.

(** The runtime's limit on one allocation (linux/amd64). *)
Definition maxAlloc : Z := 2 ^ 48.

Definition is_eol (c : ascii) : bool := Ascii.eqb c cr_byte || Ascii.eqb c nl_byte.

(** [r.ReadString('\n')] without its terminator; [None] is io.EOF. *)
Fixpoint ReadLine (s : string) : option (string * string) :=
  match s with
  | EmptyString => None
  | String c s' => if Ascii.eqb c nl_byte then Some ("", s')
                   else match ReadLine s' with Some (l, r) => Some (String c l, r) | None => None end
  end.

(** The header block; every line consumes a byte of input. *)
Fixpoint read_header (fuel : nat) (contentLength : Z) (s : string) : result string (Z * string) :=
  match fuel with
  | O => Err "unexpected EOF"
  | S fuel =>
      match ReadLine s with
      | None => Err "unexpected EOF"
      | Some (line, rest) =>
          let line := TrimRight is_eol line in
          if String.eqb line "" then Ok (contentLength, rest)
          else match CutPrefix line "Content-Length:" with
               | Some v => match Atoi (TrimSpace v) with
                           | None => Err "lsp: bad Content-Length"
                           | Some n => read_header fuel n rest
                           end
               | None => read_header fuel contentLength rest
               end
      end
  end.

Definition readLSPFrame (s : string) : frame :=
  match read_header (S (String.length s)) (-1) s with
  | Err e => FrameErr e
  | Ok (n, rest) =>
      if (n <? 0)%Z then FrameErr "lsp: frame missing Content-Length header"
      else if (maxAlloc <? n)%Z then FramePanic
      else if (zlen rest <? n)%Z then FrameErr "unexpected EOF"
      else Frame (str_take (Z.to_nat n) rest) (str_drop (Z.to_nat n) rest)
  end.

(** The bodies [readLoop] reads until the stream ends; [None] when it panics. *)
Fixpoint read_frames (fuel : nat) (s : string) : option (list string) :=
  match fuel with
  | O => Some []
  | S fuel =>
      match readLSPFrame s with
      | Frame body rest => match read_frames fuel rest with Some l => Some (body :: l) | None => None end
      | FrameErr _ => Some []
      | FramePanic => None
      end
  end.

Lemma ReadLine_line line rest :
  str_all (fun c => negb (Ascii.eqb c nl_byte)) line = true -> ReadLine (line +:+ String nl_byte rest) = Some (line, rest).
Proof.
  induction line as [|c line IH]; [done|]. cbn [str_all]. intros [Hc Hl]%andb_true_iff. rewrite str_app_cons. cbn [ReadLine].
  apply negb_true_iff in Hc. by rewrite Hc, IH.
Qed.

Lemma digit_no_eol c : dec_digit c = true -> negb (is_eol c) = true /\ negb (Ascii.eqb c nl_byte) = true.
Proof. destruct c as [[] [] [] [] [] [] [] []]; vm_compute; done. Qed.

Lemma str_all_impl (f g : ascii -> bool) s : (forall c, f c = true -> g c = true) -> str_all f s = true -> str_all g s = true.
Proof. intros Hfg. induction s as [|c s IH]; [done|]. simpl. intros [Hc Hs]%andb_true_iff. by rewrite Hfg, IH. Qed.

Lemma read_header_frame fuel n rest :
  (0 <= n < 2 ^ 63)%Z -> 2 <= fuel ->
  read_header fuel (-1) ("Content-Length: " +:+ Itoa n +:+ crlf +:+ crlf +:+ rest) = Ok (n, rest).
Proof.
  intros Hn Hf. destruct fuel as [|[|fuel]]; [lia|lia|].
  destruct (Itoa_nonneg n) as (c & s & E & Hd); [lia|].
  assert (str_all dec_digit (Itoa n) = true) as Hd' by by rewrite E.
  set (line := "Content-Length: " +:+ Itoa n +:+ String cr_byte "").
  assert ("Content-Length: " +:+ Itoa n +:+ crlf +:+ crlf +:+ rest = line +:+ String nl_byte (crlf +:+ rest)) as ->.
  { unfold line, crlf. rewrite <-!str_app_assoc. done. }
  assert (str_all (fun c => negb (Ascii.eqb c nl_byte)) line = true) as Hline.
  { unfold line. rewrite !str_all_app. rewrite (str_all_impl _ _ _ (fun c H => proj2 (digit_no_eol c H)) Hd'). done. }
  cbn [read_header]. rewrite ReadLine_line by done.
  assert (TrimRight is_eol line = "Content-Length: " +:+ Itoa n) as ->.
  { unfold line. rewrite str_app_assoc, TrimRight_app by done. apply TrimRight_none. rewrite str_all_app.
    rewrite (str_all_impl _ _ _ (fun c H => proj1 (digit_no_eol c H)) Hd'). done. }
  change ("Content-Length: " +:+ Itoa n) with ("Content-Length:" +:+ (" " +:+ Itoa n)) at 2.
  rewrite CutPrefix_app. change (" " +:+ Itoa n) with (String " " (Itoa n)).
  rewrite TrimSpace_number, Atoi_Itoa by lia. reflexivity.
Qed.

Lemma readLSPFrame_write body rest : (zlen body <= maxAlloc)%Z -> readLSPFrame (writeLSPFrame body +:+ rest) = Frame body rest.
Proof.
  intros Hb. pose proof (zlen_nonneg body) as H0. unfold readLSPFrame, writeLSPFrame.
  assert (("Content-Length: " +:+ Itoa (zlen body) +:+ crlf +:+ crlf +:+ body) +:+ rest
    = "Content-Length: " +:+ Itoa (zlen body) +:+ crlf +:+ crlf +:+ (body +:+ rest)) as -> by by rewrite <-!str_app_assoc.
  rewrite read_header_frame.
  - destruct (Z.ltb_spec (zlen body) 0); [lia|]. destruct (Z.ltb_spec maxAlloc (zlen body)); [lia|].
    destruct (Z.ltb_spec (zlen (body +:+ rest)) (zlen body)) as [Hl|_].
    { rewrite zlen_app in Hl. pose proof (zlen_nonneg rest). lia. }
    replace (Z.to_nat (zlen body)) with (String.length body) by (unfold zlen; lia). by rewrite str_take_app_length, str_drop_app_length.
  - unfold maxAlloc in *. lia.
  - rewrite str_length_app. simpl. lia.
Qed.

(** C40: framing loses and mixes nothing: whatever bytes the messages hold
    (line breaks and header-like text included), reading the stream of their
    frames gives back exactly the messages, in order. *)
Theorem lsp_frames_roundtrip (bodies : list string) :
  Forall (fun b => zlen b <= maxAlloc)%Z bodies ->
  read_frames (S (length bodies)) (str_concat (writeLSPFrame <$> bodies)) = Some bodies.
Proof.
  induction 1 as [|b bodies Hb _ IH]; [done|]. revert IH. cbn [length]. generalize (S (length bodies)). intros fuel IH.
  rewrite fmap_cons, str_concat_cons. cbn [read_frames]. by rewrite readLSPFrame_write, IH.
Qed.

Lemma lsp_frames_roundtrip_witness :
  read_frames 3 (str_concat (writeLSPFrame <$> ["{a}"; "Content-Length: 2"])) = Some ["{a}"; "Content-Length: 2"].
Proof. apply (lsp_frames_roundtrip ["{a}"; "Content-Length: 2"]). repeat constructor; vm_compute; discriminate. Defined.

(** A server that announces more than the runtime can allocate stops the whole
    process: [make] panics in the reader's goroutine. *)
Lemma huge_content_length_panics rest n :
  (maxAlloc < n < 2 ^ 63)%Z -> readLSPFrame ("Content-Length: " +:+ Itoa n +:+ crlf +:+ crlf +:+ rest) = FramePanic.
Proof.
  intros Hn. unfold readLSPFrame. rewrite read_header_frame; [|unfold maxAlloc in *; lia|rewrite str_length_app; simpl; lia].
  destruct (Z.ltb_spec n 0); [unfold maxAlloc in *; lia|]. destruct (Z.ltb_spec maxAlloc n); [done|lia].
Qed.

(** ** Results *)

Record lspLocation := mkLocation { ll_File : string; ll_Line : Z; ll_Column : Z; ll_EndLine : Z; ll_EndColumn : Z }.
Record lspSymbol := mkSymbol { ls_Name : string; ls_Kind : string; ls_File : string; ls_Line : Z; ls_Column : Z; ls_Container : string }.

Record lspQueryResult := mkQueryResult {
  qr_Operation : string;
  qr_Locations : list lspLocation;
  qr_Symbols : list lspSymbol;
  qr_Hover : string;
  qr_Total : Z;
  qr_Returned : Z;
  qr_Truncated : bool;
  qr_Error : string;
}.

Record rawPos := mkRawPos { rp_Line : Z; rp_Character : Z }.
Record rawRange := mkRawRange { rr_Start : rawPos; rr_End : rawPos }.
Record rawLocation := mkRawLocation { rl_URI : string; rl_Range : rawRange; rl_TargetURI : string; rl_TargetRange : rawRange }.

#[warnings="-register-all"]
Inductive rawSymbol := mkRawSymbol {
  rs_Name : string;
  rs_Kind : Z;
  rs_ContainerName : string;
  rs_Location : option (string * rawRange);
  rs_Range : option rawRange;
  rs_SelectionRange : option rawRange;
  rs_Children : list rawSymbol;
}.

(** The one-field structs of the hover decoders. *)
Record hoverContents := mkHoverContents { hc_Contents : option any }.
Record hoverValue := mkHoverValue { hv_Value : string }.

Definition symbol_kinds : list string :=
  [""; "file"; "module"; "namespace"; "package"; "class"; "method"; "property"; "field"; "constructor"; "enum"; "interface";
   "function"; "variable"; "constant"; "string"; "number"; "boolean"; "array"; "object"; "key"; "null"; "enum_member"; "struct";
   "event"; "operator"; "type_parameter"].

Definition symbolKindName (kind : Z) : string :=
  if (1 <=? kind)%Z && (kind <? Z.of_nat (length symbol_kinds))%Z then nth (Z.to_nat kind) symbol_kinds "" else "unknown".

Definition languageIDForPath (path : string) : string :=
  let e := ToLower (Ext path) in
  if String.eqb e ".go" then "go"
  else if String.eqb e ".ts" || String.eqb e ".mts" || String.eqb e ".cts" then "typescript"
  else if String.eqb e ".tsx" then "typescriptreact"
  else if String.eqb e ".js" || String.eqb e ".mjs" || String.eqb e ".cjs" then "javascript"
  else if String.eqb e ".jsx" then "javascriptreact"
  else if String.eqb e ".py" || String.eqb e ".pyi" then "python"
  else "".

Definition LangFromPath (path : string) : string :=
  let e := ToLower (Ext path) in
  if String.eqb e ".go" then "go"
  else if String.eqb e ".ts" || String.eqb e ".tsx" || String.eqb e ".mts" || String.eqb e ".cts" then "typescript"
  else if String.eqb e ".js" || String.eqb e ".jsx" || String.eqb e ".mjs" || String.eqb e ".cjs" then "javascript"
  else if String.eqb e ".py" || String.eqb e ".pyi" then "python"
  else "".

(** [filepath.Rel] of two cleaned absolute paths: drop the common components,
    climb out of what is left of the base. *)
Fixpoint strip_common (a b : list string) : list string * list string :=
  match a, b with
  | x :: a', y :: b' => if String.eqb x y then strip_common a' b' else (a, b)
  | _, _ => (a, b)
  end.

Definition Rel (base target : string) : string :=
  let '(up, down) := strip_common (clean_comps base) (clean_comps target) in
  match up, down with
  | [], [] => "."
  | _, _ => JoinByte "/"%char (((fun _ => "..") <$> up) ++ down)
  end.

Definition relPath (root abs : string) : string :=
  if is_rooted root && is_rooted abs then
    let rel := Rel root abs in
    if String.eqb rel ".." || HasPrefix rel "../" then abs else rel
  else abs.

Section projection.
Variable url_Path : string -> option string.            (* net/url: the path of a parsed URI *)
Context `{!Unmarshal rawLocation, !Unmarshal (list rawSymbol), !Unmarshal hoverContents, !Unmarshal hoverValue}.

Definition uriToPath (uri : string) : string :=
  match url_Path uri with
  | Some p => if String.eqb p "" then TrimPrefix uri "file://" else p
  | None => TrimPrefix uri "file://"
  end.

Definition project_location (root : string) (it : any) : option lspLocation :=
  match unmarshal_value it with
  | None => None
  | Some rl =>
      let '(uri, rng) := if String.eqb (rl_URI rl) "" then (rl_TargetURI rl, rl_TargetRange rl) else (rl_URI rl, rl_Range rl) in
      if String.eqb uri "" then None
      else Some (mkLocation (relPath root (uriToPath uri)) (rp_Line (rr_Start rng) + 1) (rp_Character (rr_Start rng) + 1)
                   (rp_Line (rr_End rng) + 1) (rp_Character (rr_End rng) + 1))
  end.

(** [raw] is the result value; [None] when the field is absent. *)
Definition parseLocations (raw : option any) (root : string) : list lspLocation :=
  match raw with
  | None | Some ANil => []
  | Some (AArr items) => omap (project_location root) items
  | Some v => omap (project_location root) [v]
  end.

Fixpoint flattenHoverContents (v : any) : string :=
  match v with
  | AStr s => s
  | AMap _ => match unmarshal_value v with Some h => hv_Value h | None => "" end
  | AArr l => JoinByte nl_byte (List.filter (fun s => negb (String.eqb s "")) (map flattenHoverContents l))
  | _ => ""
  end.

Definition parseHover (raw : option any) : string :=
  match raw with
  | None | Some ANil => ""
  | Some v => match unmarshal_value v with
              | Some (mkHoverContents (Some c)) => flattenHoverContents c
              | _ => ""
              end
  end.

(** One entry of [walk]; the file is the queried one unless the symbol has a
    location of its own. *)
Definition project_symbol (root queried container : string) (s : rawSymbol) : lspSymbol :=
  let at_pos (r : rawRange) := ((rp_Line (rr_Start r) + 1)%Z, (rp_Character (rr_Start r) + 1)%Z) in
  let '(file, (line, col)) :=
    match rs_Location s with
    | Some (uri, r) => (relPath root (uriToPath uri), at_pos r)
    | None => (relPath root queried,
               match rs_SelectionRange s with
               | Some r => at_pos r
               | None => match rs_Range s with Some r => at_pos r | None => (0%Z, 0%Z) end
               end)
    end in
  mkSymbol (rs_Name s) (symbolKindName (rs_Kind s)) file line col
    (if String.eqb (rs_ContainerName s) "" then container else rs_ContainerName s).

Fixpoint walk_symbol (root queried container : string) (s : rawSymbol) : list lspSymbol :=
  project_symbol root queried container s :: concat (map (walk_symbol root queried (rs_Name s)) (rs_Children s)).

Definition parseSymbols (raw : option any) (root queried : string) : list lspSymbol :=
  match raw with
  | Some (AArr l) => match unmarshal_value (AArr l) with
                     | Some items => concat (map (walk_symbol root queried "") items)
                     | None => []
                     end
  | _ => []
  end.
End projection.

(** ** The size cap *)

Section cap.
Variable size : lspQueryResult -> Z.        (* len(json.Marshal(res)) *)

Definition with_entries (r : lspQueryResult) (locs : list lspLocation) (syms : list lspSymbol) : lspQueryResult :=
  mkQueryResult (qr_Operation r) locs syms (qr_Hover r) (qr_Total r) (Z.of_nat (length locs) + Z.of_nat (length syms)) true (qr_Error r).

(** The loop; each round drops an entry. *)
Fixpoint shrink (fuel : nat) (maxBytes : Z) (r : lspQueryResult) : lspQueryResult :=
  if (size r <=? maxBytes)%Z then r
  else match fuel with
       | O => r
       | S fuel =>
           match qr_Symbols r, qr_Locations r with
           | [], [] => r
           | [], locs => shrink fuel maxBytes (with_entries r (removelast locs) [])
           | syms, locs => shrink fuel maxBytes (with_entries r locs (removelast syms))
           end
       end.

Definition marshalLSPResult (r : lspQueryResult) (maxBytes : Z) : lspQueryResult :=
  if (maxBytes <=? 0)%Z || (size r <=? maxBytes)%Z then r
  else match qr_Symbols r, qr_Locations r with
       | [], [] => r               (* the body was marshalled before the flag was set *)
       | [], locs => shrink (length locs) maxBytes (with_entries r (removelast locs) [])
       | syms, locs => shrink (length syms + length locs) maxBytes (with_entries r locs (removelast syms))
       end.

Lemma removelast_take {A} (l : list A) : removelast l = take (pred (length l)) l.
Proof. apply removelast_firstn_len. Qed.

(** [r'] keeps a prefix of the entries of [r], symbols dropped first. *)
Definition trimmed (r r' : lspQueryResult) : Prop :=
  exists i j, qr_Symbols r' = take i (qr_Symbols r) /\ qr_Locations r' = take j (qr_Locations r) /\
    (qr_Locations r' = qr_Locations r \/ qr_Symbols r' = []) /\
    qr_Operation r' = qr_Operation r /\ qr_Hover r' = qr_Hover r /\ qr_Total r' = qr_Total r /\ qr_Error r' = qr_Error r.

Lemma trimmed_trans r1 r2 r3 : trimmed r1 r2 -> trimmed r2 r3 -> trimmed r1 r3.
Proof.
  intros (i & j & Hs & Hl & Hd & Ho & Hh & Ht & He) (i' & j' & Hs' & Hl' & Hd' & Ho' & Hh' & Ht' & He').
  exists (i' `min` i), (j' `min` j). rewrite Hs', Hl', Hs, Hl, !take_take. split_and!; try done; try congruence.
  destruct Hd' as [E|E]; [|right; by rewrite <-take_take, <-Hs, <-Hs'].
  destruct Hd as [E2|E2]; [left; rewrite <-take_take, <-Hl; congruence|]. right. by rewrite <-take_take, <-Hs, E2, take_nil.
Qed.

Lemma with_entries_symbols r n : trimmed r (with_entries r (qr_Locations r) (take n (qr_Symbols r))).
Proof. exists n, (length (qr_Locations r)). simpl. rewrite firstn_all. split_and!; auto. Qed.

Lemma with_entries_locations r n : qr_Symbols r = [] -> trimmed r (with_entries r (take n (qr_Locations r)) []).
Proof. intros E. exists 0, n. simpl. rewrite E. split_and!; auto. Qed.

Definition counted (r : lspQueryResult) : Prop :=
  qr_Truncated r = true /\ qr_Returned r = (Z.of_nat (length (qr_Locations r)) + Z.of_nat (length (qr_Symbols r)))%Z.

Lemma shrink_spec fuel maxBytes r :
  length (qr_Symbols r) + length (qr_Locations r) <= fuel -> counted r ->
  let r' := shrink fuel maxBytes r in
  trimmed r r' /\ counted r' /\ ((size r' <= maxBytes)%Z \/ (qr_Symbols r' = [] /\ qr_Locations r' = [])).
Proof.
  assert (forall r, trimmed r r) as Hrefl.
  { intros r0. exists (length (qr_Symbols r0)), (length (qr_Locations r0)). rewrite !firstn_all. split_and!; auto. }
  revert r. induction fuel as [|fuel IH]; intros r Hf Hc; cbn [shrink]; destruct (Z.leb_spec (size r) maxBytes); try (by split_and!; auto).
  - assert (qr_Symbols r = [] /\ qr_Locations r = []) as Hn by (destruct (qr_Symbols r), (qr_Locations r); simpl in Hf; lia || done).
    by split_and!; auto.
  - destruct (qr_Symbols r) as [|y ys] eqn:Es; [destruct (qr_Locations r) as [|x xs] eqn:El; [by split_and!; auto|]|].
    + rewrite <-El, removelast_take in *. destruct (IH (with_entries r (take (pred (length (qr_Locations r))) (qr_Locations r)) [])) as (Ht & Hk & Hz).
      { simpl. rewrite length_take, El. simpl in *. rewrite El in Hf. simpl in Hf. lia. }
      { done. }
      split_and!; [|done|done]. eapply trimmed_trans; [by apply with_entries_locations|done].
    + rewrite <-Es, removelast_take in *. destruct (IH (with_entries r (qr_Locations r) (take (pred (length (qr_Symbols r))) (qr_Symbols r)))) as (Ht & Hk & Hz).
      { simpl. rewrite length_take. rewrite Es in *. simpl in *. lia. }
      { done. }
      split_and!; [|done|done]. eapply trimmed_trans; [apply with_entries_symbols|done].
Qed.

(** a language-server answer is cut to the cap from its end: symbols go
    before locations, what is kept is a prefix, the counters say how much is
    kept and how much there was, and the answer fits unless nothing is left to
    drop. *)
Theorem lsp_result_fits_cap (r : lspQueryResult) (maxBytes : Z) :
  (0 < maxBytes)%Z -> (maxBytes < size r)%Z ->
  let r' := marshalLSPResult r maxBytes in
  trimmed r r' /\
  ((size r' <= maxBytes)%Z \/ (qr_Symbols r' = [] /\ qr_Locations r' = [])) /\
  (qr_Symbols r <> [] \/ qr_Locations r <> [] -> counted r').
Proof.
  intros Hm Hs. unfold marshalLSPResult. destruct (Z.leb_spec maxBytes 0); [lia|]. destruct (Z.leb_spec (size r) maxBytes); [lia|]. cbn [orb].
  destruct (qr_Symbols r) as [|y ys] eqn:Es; [destruct (qr_Locations r) as [|x xs] eqn:El|].
  - split_and!; [|by right|by intros [?|?]]. exists 0, 0. rewrite Es, El. split_and!; auto.
  - rewrite <-El, removelast_take. destruct (shrink_spec (length (qr_Locations r)) maxBytes (with_entries r (take (pred (length (qr_Locations r))) (qr_Locations r)) [])) as (Ht & Hk & Hz).
    { simpl. rewrite length_take. lia. }
    { done. }
    split_and!; [|done|done]. eapply trimmed_trans; [by apply with_entries_locations|done].
  - rewrite <-Es, removelast_take. destruct (shrink_spec (length (qr_Symbols r) + length (qr_Locations r)) maxBytes (with_entries r (qr_Locations r) (take (pred (length (qr_Symbols r))) (qr_Symbols r)))) as (Ht & Hk & Hz).
    { simpl. rewrite length_take. lia. }
    { done. }
    split_and!; [|done|done]. eapply trimmed_trans; [apply with_entries_symbols|done].
Qed.
End cap.

Definition demo_symbol (n : string) : lspSymbol := mkSymbol n "function" "a.go" 1 1 "".
Definition demo_result : lspQueryResult := mkQueryResult "document_symbols" [] [demo_symbol "f"; demo_symbol "g"; demo_symbol "h"] "" 3 3 false "".

(** Three symbols of 100 bytes and a cap of 250. *)
Lemma lsp_result_fits_cap_witness :
  let size r := (50 + 100 * Z.of_nat (length (qr_Symbols r)))%Z in
  let r' := marshalLSPResult size demo_result 250 in
  trimmed demo_result r' /\ qr_Symbols r' = [demo_symbol "f"; demo_symbol "g"] /\ counted r'.
Proof.
  intros size r'. destruct (lsp_result_fits_cap size demo_result 250) as (Ht & _ & Hc); [lia|vm_compute; reflexivity|].
  split; [exact Ht|]. split; [vm_compute; reflexivity|]. apply Hc. by left.
Defined.
