(* ===== verification/Lsp.v ===== *)
(** * Language servers (internal/sandbox/lsp.go, second part)

    [LSPServer]: requests multiplexed over one pipe, a step relation whose
    threads are the calls of [Request] and whose environment is the server
    process; [replyToServerRequest], [ensureOpen], [execute] and [Query].
    [LSPRegistry]: one server per session and language, started on demand,
    stopped at teardown and when idle; its operations are cut where they release
    a mutex, so that they can interleave. *)

From S2P Require Import Prelude GoString GoConv Event Paths Wire Sandbox Os Fsops LspWire.

(** ** Messages *)

(** A JSON-RPC id as it is read back: our ids are numbers, a server may use
    anything; [null] decodes to the zero of an int64. *)
Inductive rpc_id := IdInt (z : Z) | IdNull | IdOther (raw : string).

Record lspMessage := mkMessage {
  m_ID : option rpc_id;
  m_Method : string;
  m_Params : option any;
  m_Result : option any;
  m_Error : option (Z * string);
}.

Inductive out_frame :=
| ORequest (id : Z) (method : string) (params : any)
| ONotify (method : string) (params : any)
| OReply (id : rpc_id) (result : any).

(** ** The multiplexer *)

(** A call of [Request]. *)
Inductive req_end :=
| Answered (msg : lspMessage)
| WriteFailed
| CtxDone
| ServerExited.

Inductive req_state := Writing (method : string) (params : any) | Waiting | Returned (e : req_end).

Record LSPServer := mkServer {
  nextID : Z;
  pending : gset Z;
  chans : gmap Z lspMessage;            (* the buffered message of a request's channel *)
  closed : bool;
  threads : gmap Z req_state;
  written : list out_frame;
  inbound : list lspMessage;            (* the responses read so far *)
}.

Definition new_server : LSPServer := mkServer 0 ∅ ∅ false ∅ [] [].

(** [Request] up to the unlock; [None] when the server is not running. *)
Definition request_start (s : LSPServer) (method : string) (params : any) : option LSPServer :=
  if closed s then None
  else let id := (nextID s + 1)%Z in
       Some (mkServer id ({[id]} ∪ pending s) (chans s) (closed s) (<[id := Writing method params]> (threads s)) (written s) (inbound s)).

(** [cleanup], and the return of the call. *)
Definition request_end (s : LSPServer) (id : Z) (e : req_end) : LSPServer :=
  mkServer (nextID s) (match e with Answered _ => pending s | _ => pending s ∖ {[id]} end) (chans s) (closed s)
    (<[id := Returned e]> (threads s)) (written s) (inbound s).

Definition request_write (s : LSPServer) (id : Z) (method : string) (params : any) : LSPServer :=
  mkServer (nextID s) (pending s) (chans s) (closed s) (<[id := Waiting]> (threads s)) (written s ++ [ORequest id method params]) (inbound s).

(** [json.Unmarshal(msg.ID, &id)] *)
Definition response_id (msg : lspMessage) : option Z :=
  match m_ID msg with
  | Some (IdInt z) => Some z
  | Some IdNull => Some 0%Z
  | _ => None
  end.

Definition routeResponse (s : LSPServer) (msg : lspMessage) : LSPServer :=
  let inb := inbound s ++ [msg] in
  match response_id msg with
  | None => mkServer (nextID s) (pending s) (chans s) (closed s) (threads s) (written s) inb
  | Some id =>
      if decide (id ∈ pending s) then
        mkServer (nextID s) (pending s ∖ {[id]}) (<[id := msg]> (chans s)) (closed s) (threads s) (written s) inb
      else mkServer (nextID s) (pending s) (chans s) (closed s) (threads s) (written s) inb
  end.

(** [workspace/configuration] is answered with as many nulls as it has items. *)
Definition replyToServerRequest (items_of : option any -> nat) (msg : lspMessage) (id : rpc_id) : out_frame :=
  OReply id (if String.eqb (m_Method msg) "workspace/configuration" then AArr (replicate (items_of (m_Params msg)) ANil) else ANil).

(** One frame of [readLoop]. *)
Definition read_frame (items_of : option any -> nat) (s : LSPServer) (msg : lspMessage) : LSPServer :=
  match m_ID msg with
  | Some id => if negb (String.eqb (m_Method msg) "")
               then mkServer (nextID s) (pending s) (chans s) (closed s) (threads s) (written s ++ [replyToServerRequest items_of msg id]) (inbound s)
               else routeResponse s msg
  | None => s
  end.

Definition closeDone (s : LSPServer) : LSPServer :=
  mkServer (nextID s) (pending s) (chans s) true (threads s) (written s) (inbound s).

Section steps.
Variable items_of : option any -> nat.

Inductive lsp_step : LSPServer -> LSPServer -> Prop :=
| step_start s s' method params : request_start s method params = Some s' -> lsp_step s s'
| step_write s id method params : threads s !! id = Some (Writing method params) -> lsp_step s (request_write s id method params)
| step_write_fails s id method params : threads s !! id = Some (Writing method params) -> lsp_step s (request_end s id WriteFailed)
| step_ctx s id : threads s !! id = Some Waiting -> lsp_step s (request_end s id CtxDone)
| step_dead s id : threads s !! id = Some Waiting -> closed s = true -> lsp_step s (request_end s id ServerExited)
| step_answer s id msg : threads s !! id = Some Waiting -> chans s !! id = Some msg -> lsp_step s (request_end s id (Answered msg))
| step_read s msg : lsp_step s (read_frame items_of s msg)
| step_close s : lsp_step s (closeDone s).

Definition reachable (s : LSPServer) : Prop := rtc lsp_step new_server s.

(** *** Invariant *)

Definition answers (msg : lspMessage) (id : Z) : Prop := response_id msg = Some id /\ m_Method msg = "".

Record mux_inv (s : LSPServer) : Prop := {
  mi_next : (0 <= nextID s)%Z;
  mi_threads : forall id, is_Some (threads s !! id) <-> (1 <= id <= nextID s)%Z;
  mi_pending : forall id, id ∈ pending s -> chans s !! id = None /\
    exists st, threads s !! id = Some st /\ (st = Waiting \/ exists m p, st = Writing m p);
  mi_writing : forall id m p, threads s !! id = Some (Writing m p) -> id ∈ pending s \/ is_Some (chans s !! id);
  mi_waiting : forall id, threads s !! id = Some Waiting -> id ∈ pending s \/ is_Some (chans s !! id);
  mi_chans : forall id msg, chans s !! id = Some msg -> msg ∈ inbound s /\ answers msg id /\ is_Some (threads s !! id);
  mi_answered : forall id msg, threads s !! id = Some (Returned (Answered msg)) -> chans s !! id = Some msg;
  mi_written : forall id, threads s !! id = Some Waiting \/ (exists msg, threads s !! id = Some (Returned (Answered msg))) ->
    exists m p, ORequest id m p ∈ written s;
}.

Lemma mux_inv_new : mux_inv new_server.
Proof.
  split; simpl; try done; try (intros; by simplify_map_eq).
  - intros id. split; [by intros [? ?]|lia].
  - by intros id [|[? ?]].
Qed.

Lemma mux_inv_start s s' m p : mux_inv s -> request_start s m p = Some s' -> mux_inv s'.
Proof.
  intros [Hn Ht Hp Hwr Hwt Hc Ha Hw] Hs. unfold request_start in Hs. destruct (closed s); [done|]. simplify_eq. set (id0 := (nextID s + 1)%Z).
  assert (threads s !! id0 = None) as Hfresh.
  { destruct (threads s !! id0) eqn:E; [|done]. assert (1 <= id0 <= nextID s)%Z; [apply Ht; by eexists|lia]. }
  assert (chans s !! id0 = None) as Hcf.
  { destruct (chans s !! id0) eqn:E; [|done]. destruct (Hc _ _ E) as (_ & _ & [? ?]). congruence. }
  split; simpl; try lia.
  - intros id. rewrite lookup_insert_is_Some', Ht. unfold id0. lia.
  - intros id [->%elem_of_singleton|Hin]%elem_of_union; [rewrite lookup_insert_eq; split; [done|]; eexists; split; [done|]; right; by eexists _, _|].
    destruct (Hp id Hin) as (? & st & Hst & ?). split; [done|]. exists st. rewrite lookup_insert_ne; [done|]. intros <-. congruence.
  - intros id m' p' [[<- _]|[_ H]]%lookup_insert_Some; [set_solver|]. destruct (Hwr _ _ _ H); [set_solver|by right].
  - intros id [[_ [=]]|[_ H]]%lookup_insert_Some. destruct (Hwt _ H); [set_solver|by right].
  - intros id msg H. destruct (Hc _ _ H) as (? & ? & ?). split_and!; try done. rewrite lookup_insert_is_Some'. by right.
  - intros id msg [[_ [=]]|[_ H]]%lookup_insert_Some. auto.
  - intros id [[[_ [=]]|[_ H]]%lookup_insert_Some|(msg & [[_ [=]]|[_ H]]%lookup_insert_Some)]; apply Hw; eauto.
Qed.

(** A step of a call that leaves its channel alone. *)
Lemma mux_inv_thread s id st0 st pend wr :
  mux_inv s -> threads s !! id = Some st0 ->
  pend ⊆ pending s -> written s `prefix_of` wr -> (forall j, j <> id -> j ∈ pending s -> j ∈ pend) ->
  (id ∈ pend -> st = Waiting) -> (st = Waiting -> id ∈ pend \/ is_Some (chans s !! id)) -> (forall m p, st <> Writing m p) ->
  (forall msg, st = Returned (Answered msg) -> chans s !! id = Some msg) ->
  (st = Waiting \/ (exists msg, st = Returned (Answered msg)) -> exists m p, ORequest id m p ∈ wr) ->
  mux_inv (mkServer (nextID s) pend (chans s) (closed s) (<[id := st]> (threads s)) wr (inbound s)).
Proof.
  intros [Hn Ht Hp Hwr Hwt Hc Ha Hw] Hid Hsub [wr' ->] Hkeep Hpend Hwait Hnw Hans Hreq. split; simpl; try done.
  - intros j. rewrite lookup_insert_is_Some', Ht. split; [|by right]. intros [<-|?]; [apply Ht; by eexists|done].
  - intros j Hj. destruct (Hp j (Hsub j Hj)) as (? & st1 & ? & ?). split; [done|].
    destruct (decide (j = id)) as [->|]; [rewrite lookup_insert_eq; eauto|rewrite lookup_insert_ne by done; eauto].
  - intros j m p [[_ E]|[Hne H]]%lookup_insert_Some; [by destruct (Hnw m p)|]. destruct (Hwr _ _ _ H); [left; apply Hkeep; congruence|by right].
  - intros j [[<- ->]|[Hne H]]%lookup_insert_Some; [by apply Hwait|]. destruct (Hwt _ H); [left; apply Hkeep; congruence|by right].
  - intros j msg H. destruct (Hc _ _ H) as (? & ? & ?). split_and!; try done. rewrite lookup_insert_is_Some'. by right.
  - intros j msg [[<- ->]|[_ H]]%lookup_insert_Some; [by apply Hans|auto].
  - intros j Hj. destruct (decide (j = id)) as [->|Hne].
    + rewrite lookup_insert_eq in Hj. apply Hreq. destruct Hj as [[= ->]|(msg & [= ->])]; eauto.
    + rewrite lookup_insert_ne in Hj by done. destruct (Hw j Hj) as (m & p & ?). exists m, p. apply elem_of_app. by left.
Qed.

Lemma mux_inv_route s msg : m_Method msg = "" -> mux_inv s -> mux_inv (routeResponse s msg).
Proof.
  intros Hm [Hn Ht Hp Hwr Hwt Hc Ha Hw]. unfold routeResponse.
  assert (forall inb, mux_inv (mkServer (nextID s) (pending s) (chans s) (closed s) (threads s) (written s) (inbound s ++ inb))) as Hdrop.
  { intros inb. split; simpl; try done. intros id m H. destruct (Hc _ _ H) as (? & ? & ?). split_and!; try done. apply elem_of_app. by left. }
  destruct (response_id msg) as [id|] eqn:Hid; [|apply Hdrop]. case_decide as Hin; [|apply Hdrop].
  destruct (Hp id Hin) as (Hcid & st & Hst & Hcase). split; simpl; try done.
  - intros j [Hj Hne]%elem_of_difference. destruct (Hp j Hj) as (? & st' & ? & ?). split; [rewrite lookup_insert_ne; [done|set_solver]|eauto].
  - intros j m p H. destruct (decide (j = id)) as [->|Hne]; [right; rewrite lookup_insert_eq; by eexists|].
    destruct (Hwr _ _ _ H) as [|[x Hx]]; [left; set_solver|right; rewrite lookup_insert_ne by done; by eexists].
  - intros j H. destruct (decide (j = id)) as [->|Hne]; [right; rewrite lookup_insert_eq; by eexists|].
    destruct (Hwt _ H) as [|[x Hx]]; [left; set_solver|right; rewrite lookup_insert_ne by done; by eexists].
  - intros j m [[<- <-]|[Hne H]]%lookup_insert_Some.
    + split_and!; [apply elem_of_app; right; by apply list_elem_of_singleton|done|by eexists].
    + destruct (Hc _ _ H) as (? & ? & ?). split_and!; try done. apply elem_of_app. by left.
  - intros j m H. pose proof (Ha _ _ H) as Hj. rewrite lookup_insert_ne; [done|]. intros ->. congruence.
Qed.

Lemma mux_inv_step s s' : lsp_step s s' -> mux_inv s -> mux_inv s'.
Proof.
  intros Hstep Hinv. destruct Hstep as [s s' m p Hs|s id m p Hs|s id m p Hs|s id Hs|s id Hs Hcl|s id msg Hs Hch|s msg|s].
  - by eapply mux_inv_start.
  - unfold request_write. eapply mux_inv_thread; try done; [by eexists|intros _; by eapply mi_writing|].
    intros _. exists m, p. apply elem_of_app. right. by apply list_elem_of_singleton.
  - unfold request_end. eapply mux_inv_thread; try done; [set_solver|set_solver|set_solver|]. by intros [|[? ?]].
  - unfold request_end. eapply mux_inv_thread; try done; [set_solver|set_solver|set_solver|]. by intros [|[? ?]].
  - unfold request_end. eapply mux_inv_thread; try done; [set_solver|set_solver|set_solver|]. by intros [|[? ?]].
  - unfold request_end. eapply mux_inv_thread; try done.
    + intros Hin. destruct (mi_pending _ Hinv _ Hin). congruence.
    + by intros msg' [= <-].
    + intros _. apply (mi_written _ Hinv). by left.
  - unfold read_frame. destruct (m_ID msg); [|done]. destruct (String.eqb_spec (m_Method msg) "") as [Hm|Hm]; simpl; [by apply mux_inv_route|].
    destruct Hinv as [Hn Ht Hp Hwr Hwt Hc Ha Hw]. split; simpl; try done.
    intros j Hj. destruct (Hw j Hj) as (m & p & ?). exists m, p. apply elem_of_app. by left.
  - destruct Hinv. by split.
Qed.

Lemma steps_inv s s' : rtc lsp_step s s' -> mux_inv s -> mux_inv s'.
Proof. induction 1; eauto using mux_inv_step. Qed.

Lemma reachable_inv s : reachable s -> mux_inv s.
Proof. intros Hr. by eapply steps_inv, mux_inv_new. Qed.

(** requests share one pipe without mixing: in every interleaving of
    calls, answers, time-outs and a dying server, a call that returns an answer
    had sent its request, returns a response the server sent for its own id, and
    shares it with no other call; a call still waiting either has its answer
    ready or will get the next response with its id; and no call that has
    returned leaves an entry behind. *)
Theorem lsp_answers_are_correlated (s : LSPServer) :
  reachable s ->
  (forall id msg, threads s !! id = Some (Returned (Answered msg)) ->
     msg ∈ inbound s /\ answers msg id /\ (exists m p, ORequest id m p ∈ written s) /\
     forall id' msg', threads s !! id' = Some (Returned (Answered msg')) -> id' <> id -> msg' <> msg) /\
  (forall id, threads s !! id = Some Waiting ->
     is_Some (chans s !! id) \/ forall msg, m_ID msg = Some (IdInt id) -> m_Method msg = "" -> chans (read_frame items_of s msg) !! id = Some msg) /\
  (forall id e, threads s !! id = Some (Returned e) -> id ∉ pending s).
Proof.
  intros Hinv%reachable_inv. split_and!.
  - intros id msg H. pose proof (mi_answered _ Hinv _ _ H) as Hch. destruct (mi_chans _ Hinv _ _ Hch) as (? & [Hid ?] & _). split_and!; try done.
    + apply (mi_written _ Hinv). eauto.
    + intros id' msg' H' Hne ->. pose proof (mi_answered _ Hinv _ _ H') as Hch'. destruct (mi_chans _ Hinv _ _ Hch') as (_ & [Hid' _] & _). congruence.
  - intros id H. destruct (mi_waiting _ Hinv _ H) as [Hin|]; [right|by left]. intros msg Hid Hm.
    unfold read_frame, routeResponse, response_id. rewrite Hid, Hm. simpl. rewrite decide_True by done. simpl. apply lookup_insert_eq.
  - intros id e H Hin. destruct (mi_pending _ Hinv _ Hin) as (_ & st & Hst & [->|(m & p & ->)]); congruence.
Qed.
End steps.

(** Two requests answered out of order. *)
Definition demo_answer (id : Z) : lspMessage := mkMessage (Some (IdInt id)) "" None (Some (AInt (10 * id))) None.

Definition demo_mux : LSPServer :=
  let s1 := default new_server (request_start new_server "hover" ANil) in
  let s2 := request_write (default s1 (request_start s1 "definition" ANil)) 2 "definition" ANil in
  let s3 := read_frame (fun _ => 0) (request_write s2 1 "hover" ANil) (demo_answer 2) in
  request_end (request_end (read_frame (fun _ => 0) s3 (demo_answer 1)) 1 (Answered (demo_answer 1))) 2 (Answered (demo_answer 2)).

Lemma lsp_answers_are_correlated_witness :
  threads demo_mux !! 1%Z = Some (Returned (Answered (demo_answer 1))) /\ answers (demo_answer 1) 1 /\ demo_answer 2 <> demo_answer 1.
Proof.
  destruct (lsp_answers_are_correlated (fun _ => 0) demo_mux) as (H & _).
  - eapply rtc_l; [by apply (step_start _ _ _ "hover" ANil)|]. eapply rtc_l; [by apply (step_start _ _ _ "definition" ANil)|].
    eapply rtc_l; [by apply (step_write _ _ 2 "definition" ANil)|]. eapply rtc_l; [by apply (step_write _ _ 1 "hover" ANil)|].
    eapply rtc_l; [by apply (step_read _ _ (demo_answer 2))|]. eapply rtc_l; [by apply (step_read _ _ (demo_answer 1))|].
    eapply rtc_l; [by apply (step_answer _ _ 1 (demo_answer 1))|]. eapply rtc_l; [by apply (step_answer _ _ 2 (demo_answer 2))|]. apply rtc_refl.
  - destruct (H 1%Z (demo_answer 1) eq_refl) as (_ & Ha & _ & Hne). split; [done|]. split; [exact Ha|]. by apply (Hne 2%Z).
Defined.

(** ** Queries *)

Record LSPQuery := mkQuery {
  q_Operation : string;
  q_AbsPath : string;
  q_Line : Z;
  q_Character : Z;
  q_Symbol : string;
  q_IncludeDeclaration : bool;
}.

Section queries.
Variable pathToURI : string -> string.                              (* net/url's String *)
Variable ReadFile : string -> result string string.
Variable Notify_ok : string -> any -> bool.                         (* the pipe accepts the frame *)
Variable Request : string -> any -> result gerror (option any).

(** [textDocument/didOpen] is sent the first time a document is queried. *)
Definition ensureOpen (lang absPath : string) (openDocs : gset string) : gset string * list (string * any) * result gerror unit :=
  let uri := pathToURI absPath in
  if decide (uri ∈ openDocs) then (openDocs, [], Ok tt)
  else match ReadFile absPath with
       | Err e => (openDocs, [], Err (other e))
       | Ok content =>
           let langID := let l := languageIDForPath absPath in if String.eqb l "" then lang else l in
           let msg := AMap [("textDocument", AMap [("uri", AStr uri); ("languageId", AStr langID); ("version", AInt 1); ("text", AStr content)])] in
           if Notify_ok "textDocument/didOpen" msg then ({[uri]} ∪ openDocs, [("textDocument/didOpen", msg)], Ok tt)
           else (openDocs, [], Err (other "write |1: broken pipe"))
       end.

(** 1-based coordinates to 0-based positions. *)
Definition posParams (q : LSPQuery) : args :=
  [("textDocument", AMap [("uri", AStr (pathToURI (q_AbsPath q)))]);
   ("position", AMap [("line", AInt (q_Line q - 1)); ("character", AInt (q_Character q - 1))])].

(** The request of an operation. *)
Definition lsp_request (q : LSPQuery) : option (string * any) :=
  let op := q_Operation q in
  if String.eqb op "definition" then Some ("textDocument/definition", AMap (posParams q))
  else if String.eqb op "implementation" then Some ("textDocument/implementation", AMap (posParams q))
  else if String.eqb op "hover" then Some ("textDocument/hover", AMap (posParams q))
  else if String.eqb op "references" then
    Some ("textDocument/references", AMap (posParams q ++ [("context", AMap [("includeDeclaration", ABool (q_IncludeDeclaration q))])]))
  else if String.eqb op "document_symbols" then
    Some ("textDocument/documentSymbol", AMap [("textDocument", AMap [("uri", AStr (pathToURI (q_AbsPath q)))])])
  else if String.eqb op "workspace_symbols" then Some ("workspace/symbol", AMap [("query", AStr (q_Symbol q))])
  else None.

Definition execute (lang : string) (q : LSPQuery) (openDocs : gset string) : gset string * result gerror (option any) :=
  let '(docs, _, opened) := if String.eqb (q_AbsPath q) "" then (openDocs, [], Ok tt) else ensureOpen lang (q_AbsPath q) openDocs in
  match opened with
  | Err e => (docs, Err e)
  | Ok _ => (docs, match lsp_request q with
                   | Some (method, params) => Request method params
                   | None => Err (badRequest ("unknown lsp operation " +:+ q_Operation q))
                   end)
  end.

Variable url_Path : string -> option string.
Context `{!Unmarshal rawLocation, !Unmarshal (list rawSymbol), !Unmarshal hoverContents, !Unmarshal hoverValue}.
Variable size : lspQueryResult -> Z.

Definition is_location_op (op : string) : bool := String.eqb op "definition" || String.eqb op "implementation" || String.eqb op "references".
Definition is_symbol_op (op : string) : bool := String.eqb op "document_symbols" || String.eqb op "workspace_symbols".

(** A time-out is an error of the call; any other failure is folded into the
    answer. *)
Definition Query (rootDir lang : string) (q : LSPQuery) (maxBytes : Z) (openDocs : gset string) : gset string * result gerror lspQueryResult :=
  let op := q_Operation q in
  let '(docs, r) := execute lang q openDocs in
  (docs, match r with
         | Err e => match kind e with
                    | KDeadlineExceeded | KCtxCanceled => Err e
                    | _ => Ok (marshalLSPResult size (mkQueryResult op [] [] "" 0 0 false (emsg e)) maxBytes)
                    end
         | Ok raw =>
             let locs := if is_location_op op then parseLocations url_Path raw rootDir else [] in
             let hov := if String.eqb op "hover" then parseHover raw else "" in
             let syms := if is_symbol_op op then parseSymbols url_Path raw rootDir (q_AbsPath q) else [] in
             let n := (Z.of_nat (length locs) + Z.of_nat (length syms))%Z in
             Ok (marshalLSPResult size (mkQueryResult op locs syms hov n n false "") maxBytes)
         end).

(** A document is sent once: whatever the file holds by then, a later query
    sends nothing. *)
Lemma ensureOpen_once lang absPath docs docs' out r :
  ensureOpen lang absPath docs = (docs', out, Ok r) -> ensureOpen lang absPath docs' = (docs', [], Ok tt).
Proof.
  unfold ensureOpen. case_decide as Hin; [intros [= <- _ _]; by rewrite decide_True|].
  destruct (ReadFile absPath); [|done]. destruct (Notify_ok _ _); [|done]. intros [= <- _ _]. by rewrite decide_True by set_solver.
Qed.

(** a query fails as a call only when its request timed out or was
    cancelled: any other failure (an unreadable file, an unknown operation, an
    error of the server, a dead server) comes back as an answer that names it
    and has no entries. *)
Theorem lsp_query_folds_errors (rootDir lang : string) (q : LSPQuery) (maxBytes : Z) (docs : gset string) (e : gerror) :
  (execute lang q docs).2 = Err e ->
  (Query rootDir lang q maxBytes docs).2 = Err e /\ (kind e = KDeadlineExceeded \/ kind e = KCtxCanceled) \/
  exists r, (Query rootDir lang q maxBytes docs).2 = Ok r /\ qr_Error r = emsg e /\ qr_Locations r = [] /\ qr_Symbols r = [].
Proof.
  intros He. unfold Query. destruct (execute lang q docs) as [docs' r']. simpl in He. subst r'.
  destruct (kind e) eqn:Ek; simpl; eauto; right; eexists; (split; [done|]); unfold marshalLSPResult; destruct (_ || _); done.
Qed.
End queries.

(** ** The registry *)

(** A server process: the session and language it was started for, whether it
    is dead or shut down, and when it was last used. *)
Record proc := mkProc { p_sid : string; p_lang : string; p_closed : bool; p_lastUsed : Z }.

Record lspEntry := mkLspEntry { e_sessionID : string; e_server : option nat }.

(** [entries] maps a key to an entry, shared by pointer. *)
Record LSPRegistry := mkRegistry {
  g_servers : gmap string (list string);
  g_workspaceDir : string;
  g_perSession : bool;
  g_idleTimeout : Z;
  g_entries : gmap string nat;
  g_heap : gmap nat lspEntry;
  g_procs : gmap nat proc;
  g_next : nat;
}.

Definition lspIdleDefault : Z := 5 * 60 * 1000000000.

(** [NewLSPRegistry]; an empty command line configures nothing. *)
Definition NewLSPRegistry (servers : gmap string string) (absWS : string) (perSession : bool) (idle : Z) : LSPRegistry :=
  mkRegistry (omap (fun cmd => match Fields cmd with [] => None | argv => Some argv end) servers) absWS perSession
    (if (idle <=? 0)%Z then lspIdleDefault else idle) ∅ ∅ ∅ 0.

Definition rootFor (g : LSPRegistry) (sid : string) : string :=
  if g_perSession g && negb (String.eqb sid "") then Join2 (g_workspaceDir g) (sanitizeSID sid) else g_workspaceDir g.

Definition ResolvePath (g : LSPRegistry) (sid rel : string) : result gerror string :=
  if String.eqb rel "" then Err (badRequest "empty path")
  else if is_rooted rel then Err (badRequest "path must be relative to the workspace root")
  else let clean := Clean rel in
       if String.eqb clean ".." || HasPrefix clean "../" then Err (badRequest "path must not contain '..'")
       else Ok (Join2 (rootFor g sid) clean).

Definition entry_key (sid lang : string) : string := sid +:+ String (ascii_of_nat 0) lang.

Definition with_state (g : LSPRegistry) (entries : gmap string nat) (heap : gmap nat lspEntry) (procs : gmap nat proc) (next : nat) : LSPRegistry :=
  mkRegistry (g_servers g) (g_workspaceDir g) (g_perSession g) (g_idleTimeout g) entries heap procs next.

(** [GetOrStart] under [r.mu]: find or create the entry. *)
Definition get_entry (g : LSPRegistry) (sid lang : string) : LSPRegistry * nat :=
  match g_entries g !! entry_key sid lang with
  | Some e => (g, e)
  | None => (with_state g (<[entry_key sid lang := g_next g]> (g_entries g)) (<[g_next g := mkLspEntry sid None]> (g_heap g)) (g_procs g) (S (g_next g)),
             g_next g)
  end.

Definition running (g : LSPRegistry) (p : nat) : bool :=
  match g_procs g !! p with Some pr => negb (p_closed pr) | None => false end.

(** [GetOrStart] under [e.mu]; [started] is whether [StartLSPServer] succeeds. *)
Definition start_entry (g : LSPRegistry) (e : nat) (sid lang : string) (now : Z) (started : bool) : LSPRegistry * result string nat :=
  match g_heap g !! e with
  | None => (g, Err "no entry")
  | Some en =>
      let fresh :=
        if started then
          let p := g_next g in
          (with_state g (g_entries g) (<[e := mkLspEntry (e_sessionID en) (Some p)]> (g_heap g))
             (<[p := mkProc sid lang false now]> (g_procs g)) (S p), Ok p)
        else (g, Err "sandbox: language server unavailable") in
      match e_server en with
      | Some p => if running g p then (g, Ok p) else fresh
      | None => fresh
      end
  end.

Definition GetOrStart (g : LSPRegistry) (sid lang : string) (now : Z) (started : bool) : LSPRegistry * result string nat :=
  match g_servers g !! lang with
  | None => (g, Err "no language server configured")
  | Some _ => let '(g, e) := get_entry g sid lang in start_entry g e sid lang now started
  end.

Definition close_proc (pr : proc) : proc := mkProc (p_sid pr) (p_lang pr) true (p_lastUsed pr).

(** Under [e.mu]: shut the server of an entry down; [true] if there was one. *)
Definition stop_entry (g : LSPRegistry) (e : nat) : LSPRegistry * bool :=
  match g_heap g !! e with
  | Some (mkLspEntry sid (Some p)) =>
      (with_state g (g_entries g) (<[e := mkLspEntry sid None]> (g_heap g)) (alter close_proc p (g_procs g)) (g_next g), true)
  | _ => (g, false)
  end.

Definition entry_of_session (g : LSPRegistry) (sid : string) (e : nat) : bool :=
  match g_heap g !! e with Some en => String.eqb (e_sessionID en) sid | None => false end.

(** [StopAllForSession] under [r.mu]: take the session's entries out. *)
Definition collect (g : LSPRegistry) (sid : string) : LSPRegistry * list nat :=
  let own := filter (fun kv : string * nat => entry_of_session g sid kv.2 = true) (g_entries g) in
  (with_state g (filter (fun kv : string * nat => entry_of_session g sid kv.2 <> true) (g_entries g)) (g_heap g) (g_procs g) (g_next g),
   (map_to_list own).*2).

Fixpoint stop_all (g : LSPRegistry) (l : list nat) : LSPRegistry * nat :=
  match l with
  | [] => (g, 0)
  | e :: l => let '(g, b) := stop_entry g e in
              let '(g, n) := stop_all g l in (g, if b : bool then S n else n)
  end.

Definition StopAllForSession (g : LSPRegistry) (sid : string) : LSPRegistry * nat :=
  let '(g, l) := collect g sid in stop_all g l.

Definition lsp_Close (g : LSPRegistry) : LSPRegistry :=
  (stop_all (with_state g ∅ (g_heap g) (g_procs g) (g_next g)) (map_to_list (g_entries g)).*2).1.

(** One entry of [reapIdle]: stop it if it is dead or idle, then forget it. *)
Definition reap_entry (now : Z) (g : LSPRegistry) (kv : string * nat) : LSPRegistry :=
  match g_heap g !! kv.2 with
  | Some (mkLspEntry _ (Some p)) =>
      match g_procs g !! p with
      | Some pr =>
          if p_closed pr || (g_idleTimeout g <? now - p_lastUsed pr)%Z then
            let g := (stop_entry g kv.2).1 in
            if decide (g_entries g !! kv.1 = Some kv.2)
            then with_state g (delete kv.1 (g_entries g)) (g_heap g) (g_procs g) (g_next g) else g
          else g
      | None => g
      end
  | _ => g
  end.

Definition reapIdle (g : LSPRegistry) (now : Z) : LSPRegistry := foldl (reap_entry now) g (map_to_list (g_entries g)).

(** *** Paths *)

Lemma rootFor_scoped g sid : rootFor g sid = scoped_root (mkEngine (g_workspaceDir g) (g_perSession g)) sid.
Proof.
  unfold rootFor, scoped_root. simpl. destruct (sanitizeSID_facts sid) as (_ & _ & _ & He). destruct (g_perSession g); [|done]. simpl.
  destruct (String.eqb_spec sid ""), (String.eqb_spec (sanitizeSID sid) ""); naive_solver.
Qed.

Lemma path_str_within cs ds : cs <> [] -> withinRoot (path_str cs) (path_str (cs ++ ds)) = true.
Proof.
  intros Hc. apply withinRoot_spec. destruct ds as [|d ds]; [rewrite app_nil_r; by left|right].
  exists (JoinByte slash (d :: ds)). unfold path_str. rewrite Join_app by done. by rewrite str_app_assoc.
Qed.

(** A path the registry resolves is inside the session's root, and that root is
    inside the workspace. *)
Lemma ResolvePath_within g sid rel p :
  clean_root (g_workspaceDir g) -> ResolvePath g sid rel = Ok p ->
  withinRoot (rootFor g sid) p = true /\ withinRoot (g_workspaceDir g) (rootFor g sid) = true.
Proof.
  intros Hroot Hres. unfold ResolvePath in Hres. destruct (String.eqb rel ""); [done|]. destruct (is_rooted rel) eqn:Hr; [done|].
  destruct (String.eqb (Clean rel) ".." || HasPrefix (Clean rel) "../") eqn:Hd; [done|]. injection Hres as <-.
  apply orb_false_iff in Hd as [Hd1 Hd2]. apply String.eqb_neq in Hd1.
  destruct (scoped_root_comps (mkEngine (g_workspaceDir g) (g_perSession g)) sid Hroot) as (ss & _ & Hsr & _ & Hall). simpl in *.
  destruct (clean_root_comps _ Hroot) as (cs & Hne & Hcs & Hws & Hcomps). rewrite Hcomps in *.
  assert (cs ++ ss <> []) as Hne' by by destruct cs. rewrite rootFor_scoped, Hsr. split.
  - destruct (Join2_comps (cs ++ ss) rel Hne' Hall Hr Hd1 Hd2) as (ds & _ & _ & Hj). unfold path_str at 2. rewrite Hj. by apply (path_str_within (cs ++ ss) ds).
  - rewrite Hws. by apply path_str_within.
Qed.

(** *** Keys *)

Definition nul : ascii := ascii_of_nat 0.

Lemma entry_key_inj s l s' l' : no_byte nul l = true -> no_byte nul l' = true -> entry_key s l = entry_key s' l' -> s = s' /\ l = l'.
Proof.
  intros Hl Hl' He. unfold entry_key in He.
  assert (String.length s = String.length s') as Hlen.
  { apply (f_equal (fun x => LastIndexByte x nul)) in He. rewrite !LastIndexByte_app in He by done. by simplify_eq. }
  pose proof (f_equal (str_take (String.length s)) He) as Ht. rewrite str_take_app_length, Hlen, str_take_app_length in Ht. subst s'.
  split; [done|]. apply (f_equal (str_drop (String.length s))) in He. rewrite !str_drop_app_length in He. by simplify_eq.
Qed.

(** *** Invariant of the operations, one at a time *)

Section registry_inv.
(** [l]: entries taken out of the map and not stopped yet. *)
Record reg_inv (l : list nat) (g : LSPRegistry) : Prop := {
  ri_langs : forall lang, is_Some (g_servers g !! lang) -> no_byte nul lang = true;
  ri_heap : forall e, is_Some (g_heap g !! e) -> e < g_next g;
  ri_procs : forall p, is_Some (g_procs g !! p) -> p < g_next g;
  ri_server : forall e en p, g_heap g !! e = Some en -> e_server en = Some p ->
    exists pr, g_procs g !! p = Some pr /\ p_sid pr = e_sessionID en;
  ri_entry : forall k e, g_entries g !! k = Some e -> exists en lang,
    g_heap g !! e = Some en /\ k = entry_key (e_sessionID en) lang /\ no_byte nul lang = true /\
    forall p pr, e_server en = Some p -> g_procs g !! p = Some pr -> p_lang pr = lang;
  ri_inj : forall k k' e, g_entries g !! k = Some e -> g_entries g !! k' = Some e -> k = k';
  ri_run : forall p pr, g_procs g !! p = Some pr -> p_closed pr = false -> exists e en,
    g_heap g !! e = Some en /\ e_server en = Some p /\ (g_entries g !! entry_key (p_sid pr) (p_lang pr) = Some e \/ e ∈ l);
}.

Lemma reg_inv_new servers ws per idle :
  (forall lang, is_Some (servers !! lang) -> no_byte nul lang = true) -> reg_inv [] (NewLSPRegistry servers ws per idle).
Proof.
  intros Hl. split; simpl; try done; try (intros ? [? ?]; done).
  intros lang [x Hx]. apply Hl. rewrite lookup_omap in Hx. destruct (servers !! lang); [by eexists|done].
Qed.

Lemma stop_entry_inv e l g : reg_inv (e :: l) g -> reg_inv l (stop_entry g e).1.
Proof.
  intros [H1 H2 H3 H4 H5 Hinj H6]. unfold stop_entry. destruct (g_heap g !! e) as [[sid [p|]]|] eqn:He; cbn [fst].
  2,3: split; try done; intros p pr Hp Hc; destruct (H6 p pr Hp Hc) as (e' & en & Hen & Hs & Hk); exists e', en; (split_and!; [done|done|]);
    destruct Hk as [|Hin]; [by left|]; apply elem_of_cons in Hin as [->|Hin]; [by simplify_eq/=|by right].
  split; simpl; try done.
  - intros e' [? [[<- _]|[_ ?]]%lookup_insert_Some]; apply H2; by eexists.
  - intros p' [x Hx]. apply H3. destruct (decide (p' = p)) as [->|]; [rewrite lookup_alter_eq in Hx; destruct (g_procs g !! p); [by eexists|done]|].
    rewrite lookup_alter_ne in Hx by done. by eexists.
  - intros e' en p' [[<- <-]|[Hne Hen]]%lookup_insert_Some Hs; [done|]. destruct (H4 _ _ _ Hen Hs) as (pr & Hpr & Hsid).
    destruct (decide (p' = p)) as [->|]; [rewrite lookup_alter_eq, Hpr; eexists; by split|rewrite lookup_alter_ne by done; eauto].
  - intros k e' Hk. destruct (H5 k e' Hk) as (en & lang & Hen & Hkey & Hl & Hlang). destruct (decide (e' = e)) as [->|Hne].
    + simplify_eq. exists (mkLspEntry sid None), lang. rewrite lookup_insert_eq. by split_and!.
    + exists en, lang. rewrite lookup_insert_ne by done. split_and!; try done. intros p' pr Hs Hp.
      destruct (decide (p' = p)) as [->|]; [|rewrite lookup_alter_ne in Hp by done; eauto].
      rewrite lookup_alter_eq in Hp. destruct (g_procs g !! p) eqn:Hg; [|done]. simplify_eq/=. eauto.
  - intros p' pr Hp Hc. destruct (decide (p' = p)) as [->|Hne].
    { rewrite lookup_alter_eq in Hp. by destruct (g_procs g !! p); simplify_eq/=. }
    rewrite lookup_alter_ne in Hp by done. destruct (H6 p' pr Hp Hc) as (e' & en & Hen & Hs & Hk).
    assert (e' <> e) as Hee by (intros ->; by simplify_eq/=). exists e', en. rewrite lookup_insert_ne by done. split_and!; try done.
    destruct Hk as [|Hin]; [by left|]. apply elem_of_cons in Hin as [|]; [done|by right].
Qed.

Lemma stop_all_inv l g : reg_inv l g -> reg_inv [] (stop_all g l).1.
Proof.
  revert g. induction l as [|e l IH]; intros g Hg; [done|]. simpl. pose proof (stop_entry_inv e l g Hg) as Hg'.
  destruct (stop_entry g e) as [g1 b]. simpl in Hg'. specialize (IH g1 Hg'). by destruct (stop_all g1 l).
Qed.

Lemma get_entry_inv g sid lang : reg_inv [] g -> is_Some (g_servers g !! lang) ->
  reg_inv [] (get_entry g sid lang).1 /\
  g_entries (get_entry g sid lang).1 !! entry_key sid lang = Some (get_entry g sid lang).2 /\
  exists en, g_heap (get_entry g sid lang).1 !! (get_entry g sid lang).2 = Some en /\ e_sessionID en = sid /\
    forall p pr, e_server en = Some p -> g_procs (get_entry g sid lang).1 !! p = Some pr -> p_lang pr = lang.
Proof.
  intros Hinv Hlang. pose proof Hinv as [H1 H2 H3 H4 H5 Hinj H6]. unfold get_entry. destruct (g_entries g !! entry_key sid lang) as [e|] eqn:He; simpl.
  - split_and!; [done|done|]. destruct (H5 _ _ He) as (en & l & Hen & Hk & Hl & Hp).
    apply entry_key_inj in Hk as [-> ->]; [|by apply H1|done]. by exists en.
  - assert (g_heap g !! g_next g = None) as Hfresh.
    { destruct (g_heap g !! g_next g) eqn:E; [|done]. assert (g_next g < g_next g); [apply H2; by eexists|lia]. }
    rewrite !lookup_insert_eq. split_and!; [|done|by exists (mkLspEntry sid None)]. split; simpl; try done.
    + intros e [? [[<- _]|[_ ?]]%lookup_insert_Some]; [lia|]. assert (e < g_next g); [apply H2; by eexists|lia].
    + intros q Hq. specialize (H3 q Hq). lia.
    + intros e en p [[<- <-]|[_ Hen]]%lookup_insert_Some Hs; [done|eauto].
    + intros k e [[<- <-]|[Hne Hk]]%lookup_insert_Some.
      * exists (mkLspEntry sid None), lang. rewrite lookup_insert_eq. by split_and!; [|done|apply H1|].
      * destruct (H5 _ _ Hk) as (en & l & Hen & ?). exists en, l. rewrite lookup_insert_ne; [done|]. intros <-. congruence.
    + assert (forall k, g_entries g !! k <> Some (g_next g)) as Hno by (intros k Hk; destruct (H5 _ _ Hk) as (? & ? & ? & _); congruence).
      intros k k' e [[<- <-]|[Hne Hk]]%lookup_insert_Some [[<- E]|[Hne' Hk']]%lookup_insert_Some; subst; try done; [by destruct (Hno k')|by destruct (Hno k)|eauto].
    + intros q pr Hq Hc. destruct (H6 q pr Hq Hc) as (e & en & Hen & Hs & [Hk|Hin]); [|by apply not_elem_of_nil in Hin].
      exists e, en. rewrite !lookup_insert_ne by congruence. auto.
Qed.

(** A fresh server in a registered entry that has no running one. *)
Lemma place_inv g e en lang now :
  reg_inv [] g -> no_byte nul lang = true -> g_entries g !! entry_key (e_sessionID en) lang = Some e -> g_heap g !! e = Some en ->
  (forall p, e_server en = Some p -> running g p = false) ->
  reg_inv [] (with_state g (g_entries g) (<[e := mkLspEntry (e_sessionID en) (Some (g_next g))]> (g_heap g))
    (<[g_next g := mkProc (e_sessionID en) lang false now]> (g_procs g)) (S (g_next g))).
Proof.
  intros Hinv Hlang He Hen Hdead. pose proof Hinv as [H1 H2 H3 H4 H5 Hinj H6].
  assert (g_procs g !! g_next g = None) as Hnew.
  { destruct (g_procs g !! g_next g) eqn:E; [|done]. assert (g_next g < g_next g); [apply H3; by eexists|lia]. }
  split; simpl; try done.
  - intros e' [? [[<- _]|[_ ?]]%lookup_insert_Some]; [assert (e < g_next g); [apply H2; by eexists|lia]|]. assert (e' < g_next g); [apply H2; by eexists|lia].
  - intros q [? [[<- _]|[_ ?]]%lookup_insert_Some]; [lia|]. assert (q < g_next g); [apply H3; by eexists|lia].
  - intros e' en' p [[<- <-]|[_ Hen']]%lookup_insert_Some Hs; simpl in *; [simplify_eq; rewrite lookup_insert_eq; eauto|].
    destruct (H4 _ _ _ Hen' Hs) as (pr & Hpr & ?). exists pr. rewrite lookup_insert_ne; [done|]. intros <-. congruence.
  - intros k e' Hk'. destruct (decide (e' = e)) as [->|Hne].
    + assert (k = entry_key (e_sessionID en) lang) as -> by by apply (Hinj _ _ e).
      exists (mkLspEntry (e_sessionID en) (Some (g_next g))), lang. rewrite lookup_insert_eq. split_and!; try done.
      intros p pr Hs Hpp. simplify_eq/=. rewrite lookup_insert_eq in Hpp. by simplify_eq/=.
    + destruct (H5 _ _ Hk') as (en' & l' & Hen' & Hkk & Hl' & Hp'). exists en', l'. rewrite lookup_insert_ne by done. split_and!; try done.
      intros p pr Hs [[<- _]|[_ Hpp]]%lookup_insert_Some; [|eauto]. destruct (H4 _ _ _ Hen' Hs) as (pr' & Hpr' & _). congruence.
  - intros q pr [[<- <-]|[Hne Hq]]%lookup_insert_Some Hc.
    + exists e, (mkLspEntry (e_sessionID en) (Some (g_next g))). rewrite lookup_insert_eq. by split_and!; [| |left].
    + destruct (H6 q pr Hq Hc) as (e' & en' & Hen' & Hs & [Hk|Hin]); [|by apply not_elem_of_nil in Hin].
      exists e', en'. rewrite lookup_insert_ne; [by split_and!; [| |left]|]. intros <-. simplify_eq.
      specialize (Hdead q Hs). unfold running in Hdead. rewrite Hq, Hc in Hdead. done.
Qed.

Lemma GetOrStart_inv g sid lang now ok : reg_inv [] g -> reg_inv [] (GetOrStart g sid lang now ok).1.
Proof.
  intros Hinv. unfold GetOrStart. destruct (g_servers g !! lang) eqn:Hl; [|done].
  destruct (get_entry_inv g sid lang Hinv) as (Hinv' & He & en & Hen & <- & _); [by eexists|].
  assert (no_byte nul lang = true) as Hnul by (eapply ri_langs; [exact Hinv|by eexists]).
  destruct (get_entry g (e_sessionID en) lang) as [g' e]. simpl in *. unfold start_entry. rewrite Hen.
  destruct (e_server en) as [p|] eqn:Hs.
  - destruct (running g' p) eqn:Hr; [done|]. destruct ok; [|done]. simpl. apply place_inv; try done. intros p' ?. by simplify_eq.
  - destruct ok; [|done]. simpl. apply place_inv; try done. intros p' ?. by simplify_eq.
Qed.

Lemma collect_inv g sid : reg_inv [] g -> reg_inv (collect g sid).2 (collect g sid).1.
Proof.
  intros [H1 H2 H3 H4 H5 Hinj H6]. split; simpl; try done.
  - intros k e [Hk _]%map_lookup_filter_Some. eauto.
  - intros k k' e [Hk _]%map_lookup_filter_Some [Hk' _]%map_lookup_filter_Some. eauto.
  - intros p pr Hp Hc. destruct (H6 p pr Hp Hc) as (e & en & Hen & Hs & [Hk|Hin]); [|by apply not_elem_of_nil in Hin].
    exists e, en. split_and!; try done. destruct (entry_of_session g sid e) eqn:Eo.
    + right. apply list_elem_of_fmap. exists (entry_key (p_sid pr) (p_lang pr), e). split; [done|]. apply elem_of_map_to_list. by apply map_lookup_filter_Some.
    + left. apply map_lookup_filter_Some. split; [done|]. simpl. congruence.
Qed.

Lemma lsp_Close_inv g : reg_inv [] g -> reg_inv [] (lsp_Close g).
Proof.
  intros [H1 H2 H3 H4 H5 Hinj H6]. apply stop_all_inv. split; simpl; try done.
  intros p pr Hp Hc. destruct (H6 p pr Hp Hc) as (e & en & Hen & Hs & [Hk|Hin]); [|by apply not_elem_of_nil in Hin].
  exists e, en. split_and!; try done. right. apply list_elem_of_fmap. eexists (_, e). split; [done|]. by apply elem_of_map_to_list.
Qed.

Lemma reg_inv_weaken l g : reg_inv [] g -> reg_inv l g.
Proof.
  intros [H1 H2 H3 H4 H5 Hinj H6]. split; try done. intros p pr Hp Hc. destruct (H6 p pr Hp Hc) as (e & en & ? & ? & [Hk|Hin]); [|by apply not_elem_of_nil in Hin].
  exists e, en. auto.
Qed.

(** Forgetting an entry that has no server. *)
Lemma forget_inv g k e sid :
  reg_inv [] g -> g_heap g !! e = Some (mkLspEntry sid None) -> g_entries g !! k = Some e ->
  reg_inv [] (with_state g (delete k (g_entries g)) (g_heap g) (g_procs g) (g_next g)).
Proof.
  intros [H1 H2 H3 H4 H5 Hinj H6] Hen Hk. split; simpl; try done.
  - intros k' e' [_ Hk']%lookup_delete_Some. eauto.
  - intros k1 k2 e' [_ ?]%lookup_delete_Some [_ ?]%lookup_delete_Some. eauto.
  - intros p pr Hp Hc. destruct (H6 p pr Hp Hc) as (e' & en & ? & ? & [Hk'|Hin]); [|by apply not_elem_of_nil in Hin].
    exists e', en. split_and!; try done. left. rewrite lookup_delete_ne; [done|]. intros ->. by simplify_eq/=.
Qed.

Lemma reap_entry_inv now g kv : reg_inv [] g -> reg_inv [] (reap_entry now g kv).
Proof.
  intros Hinv. unfold reap_entry. destruct (g_heap g !! kv.2) as [[sid [p|]]|] eqn:He; try done.
  destruct (g_procs g !! p) as [pr|]; [|done]. destruct (_ || _); [|done].
  pose proof (stop_entry_inv kv.2 [] g (reg_inv_weaken _ _ Hinv)) as Hs. unfold stop_entry in *. rewrite He in *. cbn [fst] in *.
  case_decide as Hk; [|done]. eapply forget_inv; [exact Hs| |exact Hk]. simpl. apply lookup_insert_eq.
Qed.

Lemma reapIdle_inv g now : reg_inv [] g -> reg_inv [] (reapIdle g now).
Proof.
  intros Hinv. unfold reapIdle. revert Hinv. generalize (map_to_list (g_entries g)). intros l. revert g.
  induction l as [|kv l IH]; intros g Hinv; [done|]. simpl. by apply IH, reap_entry_inv.
Qed.

(** A server process dies, or is used. *)
Definition update_proc (g : LSPRegistry) (p : nat) (f : proc -> proc) : LSPRegistry :=
  with_state g (g_entries g) (g_heap g) (alter f p (g_procs g)) (g_next g).

Definition touch_proc (now : Z) (pr : proc) : proc := mkProc (p_sid pr) (p_lang pr) (p_closed pr) now.

Lemma lookup_update_proc g p f q pr :
  g_procs (update_proc g p f) !! q = Some pr -> exists pr0, g_procs g !! q = Some pr0 /\ (pr = pr0 \/ pr = f pr0).
Proof.
  simpl. destruct (decide (q = p)) as [->|]; [rewrite lookup_alter_eq|rewrite lookup_alter_ne by done; eauto].
  destruct (g_procs g !! p) as [x|]; [|done]. intros [= <-]. eauto.
Qed.

Lemma update_proc_inv g p f :
  (forall pr, p_sid (f pr) = p_sid pr /\ p_lang (f pr) = p_lang pr /\ (p_closed (f pr) = false -> p_closed pr = false)) ->
  reg_inv [] g -> reg_inv [] (update_proc g p f).
Proof.
  intros Hf [H1 H2 H3 H4 H5 Hinj H6].
  assert (forall q pr, g_procs (update_proc g p f) !! q = Some pr -> exists pr0, g_procs g !! q = Some pr0 /\
    p_sid pr = p_sid pr0 /\ p_lang pr = p_lang pr0 /\ (p_closed pr = false -> p_closed pr0 = false)) as Hback.
  { intros q pr Hq. destruct (lookup_update_proc _ _ _ _ _ Hq) as (pr0 & ? & [->| ->]); exists pr0; [done|]. split; [done|]. apply Hf. }
  split; try done.
  - intros q [pr Hq]. destruct (Hback q pr Hq) as (pr0 & ? & _). apply H3. by eexists.
  - intros e en q Hen Hs. destruct (H4 _ _ _ Hen Hs) as (pr0 & Hq & Hsid). simpl.
    destruct (decide (q = p)) as [->|]; [rewrite lookup_alter_eq, Hq|rewrite lookup_alter_ne by done; eauto].
    exists (f pr0). split; [done|]. by rewrite (proj1 (Hf pr0)).
  - intros k e Hk. destruct (H5 _ _ Hk) as (en & l & ? & ? & ? & Hp). exists en, l. split_and!; try done.
    intros q pr Hs Hq. destruct (Hback q pr Hq) as (pr0 & ? & _ & -> & _). eauto.
  - intros q pr Hq Hc. destruct (Hback q pr Hq) as (pr0 & Hq0 & Hsid & Hlang & Hcl). rewrite Hsid, Hlang. simpl. apply (H6 q pr0); auto.
Qed.
End registry_inv.

Inductive reg_op :=
| RGet (sid lang : string) (now : Z) (started : bool)
| RStop (sid : string)
| RReap (now : Z)
| RClose
| RDie (p : nat)
| RUse (p : nat) (now : Z).

Definition reg_step (g : LSPRegistry) (o : reg_op) : LSPRegistry :=
  match o with
  | RGet sid lang now started => (GetOrStart g sid lang now started).1
  | RStop sid => (StopAllForSession g sid).1
  | RReap now => reapIdle g now
  | RClose => lsp_Close g
  | RDie p => update_proc g p close_proc
  | RUse p now => update_proc g p (touch_proc now)
  end.

Lemma StopAll_inv g sid : reg_inv [] g -> reg_inv [] (StopAllForSession g sid).1.
Proof. intros Hinv. unfold StopAllForSession. pose proof (collect_inv g sid Hinv) as Hc. destruct (collect g sid) as [g' l]. by apply stop_all_inv. Qed.

Lemma reg_step_inv g o : reg_inv [] g -> reg_inv [] (reg_step g o).
Proof.
  intros Hinv. destruct o; simpl.
  - by apply GetOrStart_inv.
  - by apply StopAll_inv.
  - by apply reapIdle_inv.
  - by apply lsp_Close_inv.
  - by apply update_proc_inv.
  - by apply update_proc_inv.
Qed.

Lemma reg_run_inv ops g : reg_inv [] g -> reg_inv [] (foldl reg_step g ops).
Proof. revert g. induction ops as [|o ops IH]; intros g Hinv; [done|]. simpl. by apply IH, reg_step_inv. Qed.

(** What [stop_all] leaves: the map of entries, the owners of entries, and every
    process of another session. *)
Lemma stop_all_frame l g sid :
  reg_inv l g -> Forall (fun e => entry_of_session g sid e = true) l ->
  g_entries (stop_all g l).1 = g_entries g /\
  (forall e, entry_of_session (stop_all g l).1 sid e = entry_of_session g sid e) /\
  (forall p pr, g_procs g !! p = Some pr -> p_sid pr <> sid -> g_procs (stop_all g l).1 !! p = Some pr).
Proof.
  revert g. induction l as [|e l IH]; intros g Hinv Hl; [done|]. apply Forall_cons in Hl as [He Hl].
  pose proof (stop_entry_inv e l g Hinv) as Hinv1.
  assert (g_entries (stop_entry g e).1 = g_entries g /\ (forall x, entry_of_session (stop_entry g e).1 sid x = entry_of_session g sid x) /\
    (forall p pr, g_procs g !! p = Some pr -> p_sid pr <> sid -> g_procs (stop_entry g e).1 !! p = Some pr)) as (Ee & Es & Ep).
  { unfold stop_entry, entry_of_session in *. destruct (g_heap g !! e) as [[s [p|]]|] eqn:Hen; try done. simpl. split_and!; [done| |].
    - intros x. destruct (decide (x = e)) as [->|]; [by rewrite lookup_insert_eq, Hen|by rewrite lookup_insert_ne].
    - intros q pr Hq Hsid. rewrite lookup_alter_ne; [done|]. intros <-. destruct (ri_server _ _ Hinv _ _ _ Hen eq_refl) as (pr' & Hpr' & Hs).
      apply String.eqb_eq in He. simpl in *. congruence. }
  simpl. destruct (stop_entry g e) as [g1 b]. simpl in *. destruct (IH g1 Hinv1) as (E1 & E2 & E3).
  { eapply Forall_impl; [exact Hl|]. intros x Hx. simpl in Hx. by rewrite Es. }
  destruct (stop_all g1 l) as [g2 n]. simpl in *. split_and!; [congruence|intros x; by rewrite E2, Es|eauto].
Qed.

Lemma StopAll_frame g sid :
  reg_inv [] g ->
  let g' := (StopAllForSession g sid).1 in
  (forall k e, g_entries g' !! k = Some e -> entry_of_session g' sid e = false) /\
  (forall p pr, g_procs g !! p = Some pr -> p_sid pr <> sid -> g_procs g' !! p = Some pr).
Proof.
  intros Hinv g'. pose proof (collect_inv g sid Hinv) as Hci.
  assert (Forall (fun e => entry_of_session (collect g sid).1 sid e = true) (collect g sid).2) as Hall.
  { apply Forall_forall. intros x ([k x'] & -> & Hx)%list_elem_of_fmap. apply elem_of_map_to_list, map_lookup_filter_Some in Hx as [_ Hx]. done. }
  destruct (stop_all_frame _ _ sid Hci Hall) as (E1 & E2 & E3).
  assert (g' = (stop_all (collect g sid).1 (collect g sid).2).1) as -> by (unfold g', StopAllForSession; by destruct (collect g sid)).
  split; [|exact E3]. intros k e. rewrite E1, E2. simpl. intros [_ Hne]%map_lookup_filter_Some. simpl in Hne.
  unfold entry_of_session in *. simpl. by apply not_true_is_false.
Qed.

Lemma StopAll_closed g sid : reg_inv [] g ->
  forall p pr, g_procs (StopAllForSession g sid).1 !! p = Some pr -> p_sid pr = sid -> p_closed pr = true.
Proof.
  intros Hinv p pr Hp Hsid. pose proof (StopAll_inv g sid Hinv) as Hinv'. destruct (p_closed pr) eqn:Hc; [done|exfalso].
  destruct (ri_run _ _ Hinv' p pr Hp Hc) as (e & en & Hen & Hsv & [Hk|Hin]); [|by apply not_elem_of_nil in Hin].
  destruct (ri_server _ _ Hinv' _ _ _ Hen Hsv) as (pr' & Hpr' & Hs). simplify_eq.
  pose proof (proj1 (StopAll_frame g (p_sid pr) Hinv) _ _ Hk) as Hno. unfold entry_of_session in Hno. rewrite Hen in Hno.
  apply String.eqb_neq in Hno. congruence.
Qed.

(** language servers follow their sessions: whatever operations came
    before, one at a time, at most one server runs per session and language;
    and when a session ends, every server it started is shut down while those
    of other sessions are untouched. *)
Theorem lsp_servers_follow_sessions (servers : gmap string string) (ws : string) (per : bool) (idle : Z) (ops : list reg_op) (sid : string) :
  (forall lang, is_Some (servers !! lang) -> no_byte nul lang = true) ->
  let g := foldl reg_step (NewLSPRegistry servers ws per idle) ops in
  let g' := (StopAllForSession g sid).1 in
  (forall p q pr qr, g_procs g !! p = Some pr -> g_procs g !! q = Some qr -> p_closed pr = false -> p_closed qr = false ->
     p_sid pr = p_sid qr -> p_lang pr = p_lang qr -> p = q) /\
  (forall p pr, g_procs g' !! p = Some pr -> p_sid pr = sid -> p_closed pr = true) /\
  (forall p pr, g_procs g !! p = Some pr -> p_sid pr <> sid -> g_procs g' !! p = Some pr).
Proof.
  intros Hl g g'. assert (reg_inv [] g) as Hinv by (by apply reg_run_inv, reg_inv_new). split_and!.
  - intros p q pr qr Hp Hq Hcp Hcq Hs Hla. destruct (ri_run _ _ Hinv p pr Hp Hcp) as (e & en & Hen & Hsv & [Hk|Hin]); [|by apply not_elem_of_nil in Hin].
    destruct (ri_run _ _ Hinv q qr Hq Hcq) as (e' & en' & Hen' & Hsv' & [Hk'|Hin]); [|by apply not_elem_of_nil in Hin].
    rewrite Hs, Hla in Hk. simplify_eq. congruence.
  - by apply StopAll_closed.
  - by apply StopAll_frame.
Qed.

Definition demo_servers : gmap string string := {["go" := "gopls"; "python" := "pylsp"]}.

Lemma demo_servers_plain lang : is_Some (demo_servers !! lang) -> no_byte nul lang = true.
Proof.
  unfold demo_servers. intros [x Hx]. apply lookup_insert_Some in Hx as [[<- _]|[_ Hx]]; [done|].
  apply lookup_singleton_Some in Hx as [<- _]. done.
Qed.

Lemma lsp_servers_follow_sessions_witness :
  let g := foldl reg_step (NewLSPRegistry demo_servers "/w" false 0) [RGet "a" "go" 1 true; RGet "b" "go" 2 true; RGet "a" "go" 3 true] in
  let g' := (StopAllForSession g "a").1 in
  g_procs g' !! 1 = Some (mkProc "a" "go" true 1) /\ g_procs g' !! 3 = Some (mkProc "b" "go" false 2).
Proof.
  intros g g'. destruct (lsp_servers_follow_sessions demo_servers "/w" false 0
    [RGet "a" "go" 1 true; RGet "b" "go" 2 true; RGet "a" "go" 3 true] "a" demo_servers_plain) as (_ & _ & H3).
  split; [vm_compute; reflexivity|]. apply H3; [vm_compute; reflexivity|discriminate].
Defined.

(** [GetOrStart] releases the registry's mutex before it takes the entry's: a
    session that ends in between has its entry taken out while it is empty, and
    the server started next belongs to nobody; no later teardown stops it. *)
Lemma start_races_teardown :
  let g0 := NewLSPRegistry demo_servers "/w" false 0 in
  let '(g1, e) := get_entry g0 "a" "go" in
  let g2 := (StopAllForSession g1 "a").1 in
  let g3 := (start_entry g2 e "a" "go" 1 true).1 in
  g_procs (reapIdle (StopAllForSession g3 "a").1 (10 ^ 15)) !! 1 = Some (mkProc "a" "go" false 1).
Proof. vm_compute. reflexivity. Qed.

Lemma lsp_query_folds_errors_witness :
  exists r, (Query (fun p => p) (fun _ => Err "missing") (fun _ _ => true) (fun _ _ => Ok None) (fun _ => None) (Unmarshal0 := fun _ => None) (Unmarshal1 := fun _ => None)
    (Unmarshal2 := fun _ => None) (Unmarshal3 := fun _ => None) (fun _ => 0%Z) "/w" "go" (mkQuery "hover" "/w/a.go" 1 1 "" false) 10 ∅).2 = Ok r /\ qr_Error r = "missing".
Proof.
  destruct (lsp_query_folds_errors (fun p => p) (fun _ => Err "missing") (fun _ _ => true) (fun _ _ => Ok None) (fun _ => None) (Unmarshal0 := fun _ => None) (Unmarshal1 := fun _ => None)
    (Unmarshal2 := fun _ => None) (Unmarshal3 := fun _ => None) (fun _ => 0%Z) "/w" "go" (mkQuery "hover" "/w/a.go" 1 1 "" false) 10 ∅ (other "missing"))
    as [[_ [?|?]]|(r & Hr & He & _)]; [vm_compute; reflexivity|done|done|]. exists r. split; [exact Hr|exact He].
Defined.
