(* ===== verification/Server.v ===== *)
(** * Tool calls over the wire (internal/wsserver/sandbox.go)

    The direct command.request path: scope check, capacity, approval gate, and
    the loop that turns a runner's chunks into envelopes.  A handler is a
    program in a small state monad over [world]: the ids minted so far, the
    free execution slots and the log of what it did, in order ([effect]).  The
    frames of the log go through [bufferAndSend] (Connection.v).

    The approver's answer is the parameter [answer] (Approver.v proves that a
    grant is always a client's), the workspace engine's preview is Fsops.v's,
    and [elapsed] and [ticks] are the clock and the heartbeat timer. *)

From S2P Require Import Prelude GoString Event Paths Wire Utf8 Auth Sandbox Os Fsops Tools Approver Recovery.

(** ** Frames and effects *)

Inductive body :=
| BError (p : ErrorPayload)
| BRequest (p : CommandRequestPayload)
| BChunk (p : CommandChunkPayload)
| BResult (p : CommandResultPayload)
| BHeartbeat (p : SandboxHeartbeatPayload)
| BApproval (p : ToolApprovalRequestPayload)
| BText (p : AssistantChunkPayload)
| BThinking (p : AssistantChunkPayload)
| BMessage (p : AssistantMessagePayload)
| BReport (p : SystemErrorReportPayload)
| BAck (p : AckPayload)
| BWorker (p : WorkerUpdatePayload)
| BLog (p : SystemLogEventPayload).

Definition type_of (b : body) : string :=
  match b with
  | BError _ => EventError | BRequest _ => EventCommandRequest | BChunk _ => EventCommandChunk
  | BResult _ => EventCommandResult | BHeartbeat _ => EventSandboxHeartbeat
  | BApproval _ => EventToolApprovalRequest | BText _ => EventAssistantChunk | BThinking _ => "assistant.thinking"
  | BMessage _ => EventAssistantMessage | BReport _ => EventSystemErrorReport | BAck _ => EventAck
  | BWorker _ => EventWorkerUpdate | BLog _ => EventSystemLogEvent
  end.

(** A reply: its type is [type_of] its body. *)
Record frame := mkFrame { f_ID : string; f_Corr : string; f_Body : body }.

(** What the other handlers do on the host. *)
Inductive host_op :=
| GitRun (dir : string) (argv : list string)
| MakeDir (path : string)
| StartDaemon (id sid command workingDir : string)
| StopDaemon (sid id : string)
| LspQueryOp (sid lang operation path : string)
| WorkerDispatch (tool : string) (a : args) (workingDir : string).

Inductive effect :=
| Emit (f : frame)
| Execute (req : ExecRequest)             (* runner.Exec *)
| Dispatched (tool : string) (a : args)   (* Dispatcher.Dispatch *)
| Delegate (tool reqID : string)          (* the daemon, language-server and worker-pool handlers *)
| History (role : string) (callID tool : string) (a : option args) (errCode : string)
| AuditDeny (tool : string)
| Host (op : host_op).

Record world := mkWorld { minted_ids : nat; slots : option nat; elog : list effect }.

(** ** The monad *)

Definition M (A : Type) : Type := world -> world * A.

#[export] Instance M_ret : MRet M := fun A a w => (w, a).
#[export] Instance M_bind : MBind M := fun A B f m w => let '(w', a) := m w in f a w'.

Definition perform (e : effect) : M unit := fun w => (mkWorld (minted_ids w) (slots w) (elog w ++ [e]), tt).

(** The semaphore [s.sem]; [None] is no cap. *)
Definition acquire : M bool := fun w =>
  match slots w with
  | None => (w, true)
  | Some 0 => (w, false)
  | Some (S n) => (mkWorld (minted_ids w) (Some n) (elog w), true)
  end.

Definition release : M unit := fun w =>
  (mkWorld (minted_ids w) (match slots w with Some n => Some (S n) | None => None end) (elog w), tt).

Fixpoint mapM_ {A} (f : A -> M unit) (l : list A) : M unit :=
  match l with [] => mret tt | x :: l' => f x ≫= fun _ => mapM_ f l' end.

(** ** Pure parts *)

Definition maxChunkSize : nat := 16 * 1024.

Definition stream_name (s : stream) : string :=
  match s with StreamStdout => "stdout" | StreamStderr => "stderr" | StreamExit => "exit" | StreamUnknown s => s end.

(** The two sequence counters. *)
Record seqs := mkSeqs { q_out : nat; q_err : nat }.

Definition seq_of (q : seqs) (s : stream) : nat := match s with StreamStderr => q_err q | _ => q_out q end.
Definition seq_add (q : seqs) (s : stream) (n : nat) : seqs :=
  match s with StreamStderr => mkSeqs (q_out q) (q_err q + n) | _ => mkSeqs (q_out q + n) (q_err q) end.

(** The payloads of one output chunk. *)
Definition chunk_payloads (q : seqs) (c : ExecChunk) : list CommandChunkPayload :=
  imap (fun i d => mkChunkPayload (stream_name (Stream c)) (Z.of_nat (seq_of q (Stream c) + i)) (ToValidUTF8 d RuneError))
    (chunk_bytes maxChunkSize (Data c)).

Definition classifyExit (c : ExecChunk) : Z * string * string :=
  match ChunkErr c with
  | None => (ExitCode c, "", "")
  | Some e =>
      match kind e with
      | KDeadlineExceeded => (-1, SandboxErrTimeout, "exec timed out")
      | KCtxCanceled | KCanceled => (-1, SandboxErrCanceled, "client disconnected")
      | KBadRequest => (-1, SandboxErrBadRequest, emsg e)
      | KOOM => (-1, SandboxErrOOM, emsg e)
      | KImagePull => (-1, SandboxErrImagePull, emsg e)
      | KOther => (-1, SandboxErrInternal, emsg e)
      end
  end%Z.

(** [None] is the grant. *)
Definition classifyApprovalErr (r : await_result) : string * string :=
  match r with
  | ErrApprovalDenied => (SandboxErrUnauthorized, "approval denied")
  | ErrApprovalTimeout => (SandboxErrUnauthorized, "approval timed out")
  | ErrCtx => (SandboxErrCanceled, "client disconnected")
  | _ => (SandboxErrUnauthorized, "approval failed")
  end.

(** The code of an error returned by [Exec] or [Dispatch]. *)
Definition dispatch_code (e : gerror) : string :=
  match kind e with KBadRequest => SandboxErrBadRequest | _ => SandboxErrInternal end.

Definition sandboxOutcome (errCode : string) : string :=
  if String.eqb errCode "" then "ok"
  else if String.eqb errCode SandboxErrTimeout then "timeout"
  else if String.eqb errCode SandboxErrCanceled then "canceled"
  else if String.eqb errCode SandboxErrOOM then "oom"
  else if String.eqb errCode SandboxErrBadRequest then "bad_request"
  else if String.eqb errCode SandboxErrImagePull then "image_pull"
  else if String.eqb errCode SandboxErrUnauthorized then "unauthorized"
  else if String.eqb errCode SandboxErrUnavailable then "unavailable"
  else "internal".

(** ** The server *)

Record server_config := mkServerConfig {
  cf_DefaultTimeout : Z;
  cf_Heartbeat : Z;
  cf_ApprovalTimeoutMs : Z;
  cf_MaxResultBytes : Z;
}.

Section server.
Context {R : Type} `{Runner R}.
Variable NewID : nat -> string.
Variable elapsed : nat -> Z.                    (* milliseconds since the start, at the n-th effect *)
Variable ticks : nat -> nat.                    (* heartbeats due before the n-th receive *)
Variable answer : string -> await_result.       (* Approver.Await *)
Variable flt : faults.
Variable cf : server_config.

Definition new_id : M string := fun w => (mkWorld (S (minted_ids w)) (slots w) (elog w), NewID (minted_ids w)).

Definition clock : M Z := fun w => (w, elapsed (length (elog w))).

(** [NewReply] and [bufferAndSend]. *)
Definition reply (corr : string) (b : body) : M unit := id ← new_id; perform (Emit (mkFrame id corr b)).

Definition emitResult (reqID : string) (exitCode : Z) (errCode errMsg : string) : M unit :=
  dur ← clock; reply reqID (BResult (mkResultPayload exitCode dur errCode errMsg)).

Definition emitHeartbeat (reqID : string) : M unit :=
  ms ← clock; reply reqID (BHeartbeat (mkHeartbeat ms)).

Definition emitChunk (reqID : string) (c : ExecChunk) (q : seqs) : M seqs :=
  _ ← mapM_ (fun p => reply reqID (BChunk p)) (chunk_payloads q c);
  mret (seq_add q (Stream c) (length (chunk_payloads q c))).

Definition replyError (corr code message : string) : M unit := reply corr (BError (mkErrorPayload code message)).

(** *** Running a command *)

Fixpoint heartbeats (reqID : string) (n : nat) : M unit :=
  match n with 0 => mret tt | S n => _ ← emitHeartbeat reqID; heartbeats reqID n end.

(** The loop over the channel and the ticker; [i] counts the receives. *)
Fixpoint exec_loop (reqID : string) (i : nat) (q : seqs) (ch : list ExecChunk) : M unit :=
  _ ← (if (0 <? cf_Heartbeat cf)%Z then heartbeats reqID (ticks i) else mret tt);
  match ch with
  | [] => emitResult reqID (-1) SandboxErrInternal "runner closed channel without exit"
  | c :: rest =>
      match Stream c with
      | StreamStdout | StreamStderr => q' ← emitChunk reqID c q; exec_loop reqID (S i) q' rest
      | StreamExit => let '(code, errCode, errMsg) := classifyExit c in emitResult reqID code errCode errMsg
      | StreamUnknown _ => exec_loop reqID (S i) q rest
      end
  end.

Definition direct_request (sid : string) (p : CommandRequestPayload) : ExecRequest :=
  let t := wrap64 (rq_TimeoutMs p * 1000000) in
  mkRequest (rq_Tool p) (rq_Args p) (rq_WorkingDir p) (if (t <=? 0)%Z then cf_DefaultTimeout cf else t) sid (cf_MaxResultBytes cf).

Definition runExec (runner : R) (cancel : option nat) (sid reqID : string) (p : CommandRequestPayload) : M unit :=
  let req := direct_request sid p in
  _ ← perform (Execute req);
  match Exec runner cancel req with
  | Err e => emitResult reqID (-1) (dispatch_code e) (emsg e)
  | Ok ch => exec_loop reqID 0 (mkSeqs 0 0) ch
  end.

(** *** The approval gate *)

(** [buildApprovalPreview]; the engine is asked without a session id. *)
Definition buildApprovalPreview (fsops : option Engine) (fs : FS) (tool : string) (a : args) : result gerror (option args) :=
  match fsops with
  | None => Ok None
  | Some e =>
      if negb (String.eqb tool ToolApplyCodePatch) then Ok None
      else match (PreviewApplyCodePatch flt e "" a fs).2 with
           | Err err => Err err
           | Ok pv =>
               let base := [("path", AStr (pv_Path pv)); ("line_number", AInt (pv_LineNumber pv)); ("unified_diff", AStr (pv_UnifiedDiff pv))] in
               let vc := arg_string_or_empty a "verify_command" in
               Ok (Some (if String.eqb vc "" then base else base ++ [("verify_command", AStr vc)]))
           end
  end.

(** The part of the gate that the direct path and the translator's path share:
    [None] when the call may go on, otherwise the code, the message and whether
    the context was canceled. *)
Definition requestApproval (pol : policy) (fsops : option Engine) (fs : FS) (pendingCmdID tool : string) (a : args)
    : M (option (string * string * bool)) :=
  let '(required, reason) := RequiresApproval pol tool in
  if negb required then mret None
  else match buildApprovalPreview fsops fs tool a with
       | Err e => mret (Some (SandboxErrBadRequest, emsg e, false))
       | Ok preview =>
           approvalID ← new_id;
           _ ← new_id;                                       (* NewReply's own id, replaced by approvalID *)
           _ ← perform (Emit (mkFrame approvalID pendingCmdID (BApproval
                 (mkApprovalPayload tool (default [] (RedactArgs (Some a))) reason pendingCmdID (cf_ApprovalTimeoutMs cf) preview))));
           match answer approvalID with
           | Granted => mret None
           | r => let '(code, msg) := classifyApprovalErr r in mret (Some (code, msg, bool_decide (r = ErrCtx)))
           end
       end.

(** [gateDirectCommand]: true when the dispatch proceeds. *)
Definition gateDirectCommand (pol : policy) (fsops : option Engine) (fs : FS) (reqID : string) (p : CommandRequestPayload) : M bool :=
  r ← requestApproval pol fsops fs reqID (rq_Tool p) (rq_Args p);
  match r with
  | None => mret true
  | Some (code, msg, _) => _ ← emitResult reqID (-1) code msg; mret false
  end.

(** *** The handler *)

(** The middleware as the direct path sees it: the gate switch, the policy and
    the workspace engine. *)
Record gate := mkGate { g_GateDirect : bool; g_policy : policy; g_FSOps : option Engine }.

Definition is_daemon_tool (tool : string) : bool :=
  String.eqb tool ToolMonitorDaemon || String.eqb tool ToolStopDaemon || String.eqb tool ToolListDaemons.

(** The daemon and language-server handlers. *)
Variable delegated : string -> CommandRequestPayload -> M unit.

(** [handleCommandRequest] with the goroutine it starts, run to its end. *)
Definition handleCommandRequest `{Unmarshal CommandRequestPayload} (runner : option R) (mw : option gate) (fs : FS)
    (cancel : option nat) (sid : string) (scopes : list string) (e : Envelope) : M unit :=
  match UnmarshalPayload (mkRequestPayload "" [] "" 0) e with
  | None => replyError (ID e) "bad_envelope" "decode"
  | Some p =>
      if String.eqb (rq_Tool p) "" then emitResult (ID e) (-1) SandboxErrBadRequest "missing tool"
      else if negb (HasToolScope scopes (rq_Tool p)) then
        _ ← perform (AuditDeny (rq_Tool p));
        emitResult (ID e) (-1) SandboxErrUnauthorized ("token lacks tools:" +:+ rq_Tool p +:+ " scope")
      else if is_daemon_tool (rq_Tool p) || String.eqb (rq_Tool p) ToolLSPQuery then
        _ ← perform (Delegate (rq_Tool p) (ID e)); delegated (ID e) p
      else match runner with
           | None => replyError (ID e) "not_implemented" "sandbox runner not configured"
           | Some r =>
               ok ← acquire;
               if negb (ok : bool) then emitResult (ID e) (-1) SandboxErrUnavailable "sandbox at capacity"
               else
                 go ← (match mw with
                       | Some g => if g_GateDirect g then gateDirectCommand (g_policy g) (g_FSOps g) fs (ID e) p else mret true
                       | None => mret true
                       end);
                 _ ← (if go : bool then runExec r cancel sid (ID e) p else mret tt);
                 release
           end
  end.
End server.
