(* ===== verification/ServerSpec.v ===== *)
(** * What the direct command path guarantees

    A small program logic for the handlers of Server.v: [emits m Q] says that
    running [m] only appends effects to the log, leaves the free slots alone,
    and relates the appended effects and the result by [Q].  On top of it: one
    terminal frame per request, no execution without scope and consent, and
    the faithfulness of the output stream. *)

From S2P Require Import Prelude GoString Event Paths Wire Utf8 Auth Sandbox Os Fsops Tools Approver Recovery Server.

(** ** The logic *)

Definition emits {A} (m : M A) (Q : list effect -> A -> Prop) : Prop :=
  forall w, exists n l, minted_ids w <= n /\ (m w).1 = mkWorld n (slots w) (elog w ++ l) /\ Q l (m w).2.

Lemma emits_ret {A} (a : A) (Q : list effect -> A -> Prop) : Q [] a -> emits (mret a) Q.
Proof. intros HQ w. exists (minted_ids w), []. rewrite app_nil_r. by destruct w. Qed.

Lemma emits_bind {A B} (m : M A) (f : A -> M B) Q1 (Q : list effect -> B -> Prop) :
  emits m Q1 -> (forall l1 a, Q1 l1 a -> emits (f a) (fun l2 b => Q (l1 ++ l2) b)) -> emits (m ≫= f) Q.
Proof.
  intros Hm Hf w. destruct (Hm w) as (n1 & l1 & Hn1 & E1 & HQ1). unfold mbind, M_bind. destruct (m w) as [w1 a]. simpl in *. subst w1.
  destruct (Hf l1 a HQ1 (mkWorld n1 (slots w) (elog w ++ l1))) as (n2 & l2 & Hn2 & E2 & HQ2). simpl in *.
  exists n2, (l1 ++ l2). rewrite app_assoc. split_and!; [lia|done|done].
Qed.

Lemma emits_impl {A} (m : M A) (Q Q' : list effect -> A -> Prop) :
  emits m Q -> (forall l a, Q l a -> Q' l a) -> emits m Q'.
Proof. intros Hm Hi w. destruct (Hm w) as (n & l & Hn & E & HQ). eauto 6. Qed.

Lemma emits_perform e (Q : list effect -> unit -> Prop) : Q [e] tt -> emits (perform e) Q.
Proof. intros HQ w. exists (minted_ids w), [e]. done. Qed.

(** The same from the log [l0], for programs whose answers depend on it. *)
Definition emits_at {A} (l0 : list effect) (m : M A) (Q : list effect -> A -> Prop) : Prop :=
  forall w, elog w = l0 -> exists n l, minted_ids w <= n /\ (m w).1 = mkWorld n (slots w) (l0 ++ l) /\ Q l (m w).2.

Lemma emits_emits_at {A} (m : M A) Q : emits m Q <-> forall l0, emits_at l0 m Q.
Proof. split; [intros Hm l0 w <-; apply Hm|intros Hm w; by apply Hm]. Qed.

Lemma emits_at_ret {A} l0 (a : A) (Q : list effect -> A -> Prop) : Q [] a -> emits_at l0 (mret a) Q.
Proof. intros HQ. by apply emits_emits_at, emits_ret. Qed.

Lemma emits_at_bind {A B} l0 (m : M A) (f : A -> M B) Q1 (Q : list effect -> B -> Prop) :
  emits_at l0 m Q1 -> (forall l1 a, Q1 l1 a -> emits_at (l0 ++ l1) (f a) (fun l2 b => Q (l1 ++ l2) b)) -> emits_at l0 (m ≫= f) Q.
Proof.
  intros Hm Hf w Hw. destruct (Hm w Hw) as (n1 & l1 & Hn1 & E1 & HQ1). unfold mbind, M_bind. destruct (m w) as [w1 a]. simpl in *. subst w1.
  destruct (Hf l1 a HQ1 (mkWorld n1 (slots w) (l0 ++ l1)) eq_refl) as (n2 & l2 & Hn2 & E2 & HQ2). simpl in *.
  exists n2, (l1 ++ l2). rewrite app_assoc. split_and!; [lia|done|done].
Qed.

Lemma emits_at_impl {A} l0 (m : M A) (Q Q' : list effect -> A -> Prop) :
  emits_at l0 m Q -> (forall l a, Q l a -> Q' l a) -> emits_at l0 m Q'.
Proof. intros Hm Hi w Hw. destruct (Hm w Hw) as (n & l & Hn & E & HQ). eauto 6. Qed.

Definition host_only (e : effect) : Prop := exists op, e = Host op.

(** Programs all of whose effects satisfy [P]. *)
Definition all_effects {A} (P : effect -> Prop) (m : M A) : Prop := emits m (fun l _ => Forall P l).

Lemma all_effects_ret {A} P (a : A) : all_effects P (mret a).
Proof. by apply emits_ret. Qed.

Lemma all_effects_bind {A B} P (m : M A) (f : A -> M B) :
  all_effects P m -> (forall a, all_effects P (f a)) -> all_effects P (m ≫= f).
Proof. intros Hm Hf. eapply emits_bind; [exact Hm|]. intros l1 a H1. eapply emits_impl; [apply Hf|]. intros l2 b H2. by apply Forall_app. Qed.

Lemma all_effects_impl {A} (P P' : effect -> Prop) (m : M A) : all_effects P m -> (forall e, P e -> P' e) -> all_effects P' m.
Proof. intros Hm Hi. eapply emits_impl; [exact Hm|]. intros l a Hl. eapply Forall_impl; [exact Hl|exact Hi]. Qed.

Lemma all_effects_mapM {A} P (f : A -> M unit) l : (forall x, all_effects P (f x)) -> all_effects P (mapM_ f l).
Proof. intros Hf. induction l as [|x l IH]; [apply all_effects_ret|]. apply all_effects_bind; [apply Hf|intros _; exact IH]. Qed.

(** ** Facts about the pure parts *)

Definition chunk_of (e : effect) : option CommandChunkPayload :=
  match e with Emit (mkFrame _ _ (BChunk p)) => Some p | _ => None end.

(** A terminal frame for the request. *)
Definition terminal (reqID : string) (e : effect) : Prop :=
  exists id, (exists p, e = Emit (mkFrame id reqID (BResult p))) \/ (exists p, e = Emit (mkFrame id reqID (BError p))).

(** Progress frames of the request. *)
Definition progress (reqID : string) (e : effect) : Prop :=
  exists id, (exists p, e = Emit (mkFrame id reqID (BChunk p))) \/ (exists p, e = Emit (mkFrame id reqID (BHeartbeat p))).

(** The output a runner sends up to its exit. *)
Fixpoint output_before_exit (ch : list ExecChunk) : list ExecChunk :=
  match ch with
  | [] => []
  | c :: rest => match Stream c with
                 | StreamStdout | StreamStderr => c :: output_before_exit rest
                 | StreamExit => []
                 | StreamUnknown _ => output_before_exit rest
                 end
  end.

Fixpoint all_payloads (q : seqs) (l : list ExecChunk) : list CommandChunkPayload :=
  match l with
  | [] => []
  | c :: rest => chunk_payloads q c ++ all_payloads (seq_add q (Stream c) (length (chunk_payloads q c))) rest
  end.

Section logic.
Context {R : Type} `{Runner R}.
Variable NewID : nat -> string.
Variable elapsed : nat -> Z.
Variable ticks : nat -> nat.
Variable answer : string -> await_result.
Variable flt : faults.
Variable cf : server_config.

Lemma emits_new_id (Q : list effect -> string -> Prop) : (forall n, Q [] (NewID n)) -> emits (new_id NewID) Q.
Proof. intros HQ w. eexists (S (minted_ids w)), []. rewrite app_nil_r. split_and!; [lia|reflexivity|apply HQ]. Qed.

Lemma emits_clock (Q : list effect -> Z -> Prop) : (forall z, Q [] z) -> emits (clock elapsed) Q.
Proof. intros HQ w. exists (minted_ids w), []. rewrite app_nil_r. by destruct w. Qed.

Lemma emits_reply corr b (Q : list effect -> unit -> Prop) :
  (forall id, Q [Emit (mkFrame id corr b)] tt) -> emits (reply NewID corr b) Q.
Proof.
  intros HQ. eapply emits_bind; [by apply (emits_new_id (fun l _ => l = []))|].
  intros l1 id ->. apply emits_perform, HQ.
Qed.

Lemma emits_result reqID code ec em (Q : list effect -> unit -> Prop) :
  (forall id dur, Q [Emit (mkFrame id reqID (BResult (mkResultPayload code dur ec em)))] tt) ->
  emits (emitResult NewID elapsed reqID code ec em) Q.
Proof.
  intros HQ. eapply emits_bind; [by apply (emits_clock (fun l _ => l = []))|].
  intros l1 dur ->. apply emits_reply. intros id. apply HQ.
Qed.

Lemma emits_heartbeats reqID n :
  emits (heartbeats NewID elapsed reqID n) (fun l _ => Forall (progress reqID) l /\ omap chunk_of l = []).
Proof.
  induction n as [|n IH]; [by apply emits_ret|]. simpl.
  apply (emits_bind _ _ (fun l _ => exists id p, l = [Emit (mkFrame id reqID (BHeartbeat p))])).
  - eapply emits_bind; [by apply (emits_clock (fun l _ => l = []))|]. intros l1 ms ->. apply emits_reply. eauto.
  - intros l1 [] (id & p & ->). eapply emits_impl; [exact IH|]. intros l2 a [H1 H2]. split; [|done].
    constructor; [|done]. exists id. right. eauto.
Qed.

Lemma emits_chunks reqID ps :
  emits (mapM_ (fun p => reply NewID reqID (BChunk p)) ps) (fun l _ => Forall (progress reqID) l /\ omap chunk_of l = ps).
Proof.
  induction ps as [|p ps IH]; [by apply emits_ret|]. simpl.
  apply (emits_bind _ _ (fun l _ => exists id, l = [Emit (mkFrame id reqID (BChunk p))])); [apply emits_reply; eauto|].
  intros l1 [] [id ->]. eapply emits_impl; [exact IH|]. intros l2 a [H1 H2]. split; [|by rewrite <-H2].
  constructor; [|done]. exists id. left. eauto.
Qed.

(** The loop: progress frames that carry exactly the output, then the result. *)
Definition loop_post (reqID : string) (q : seqs) (ch : list ExecChunk) (l : list effect) : Prop :=
  exists pre id p, l = pre ++ [Emit (mkFrame id reqID (BResult p))] /\ Forall (progress reqID) pre /\
    omap chunk_of pre = all_payloads q (output_before_exit ch) /\
    ((exists c, c ∈ ch /\ is_exit c = true /\ (cr_ExitCode p, cr_Error p, cr_ErrorMessage p) = classifyExit c) \/
     cr_ExitCode p = (-1)%Z /\ cr_Error p = SandboxErrInternal).

Lemma loop_post_cons reqID q ch l l0 :
  Forall (progress reqID) l0 -> omap chunk_of l0 = [] -> loop_post reqID q ch l -> loop_post reqID q ch (l0 ++ l).
Proof.
  intros H0 Hc (pre & id & p & -> & Hp & Ho & Hr). exists (l0 ++ pre), id, p. rewrite app_assoc. split_and!; try done.
  - by apply Forall_app.
  - by rewrite omap_app, Hc.
Qed.

Lemma emits_chunk reqID c q :
  emits (emitChunk NewID reqID c q) (fun l q' => Forall (progress reqID) l /\ omap chunk_of l = chunk_payloads q c /\
    q' = seq_add q (Stream c) (length (chunk_payloads q c))).
Proof.
  eapply emits_bind; [apply emits_chunks|]. intros l1 [] [? ?]. apply emits_ret. by rewrite app_nil_r.
Qed.

Lemma loop_post_output reqID q c ch l1 l :
  is_output c = true -> Forall (progress reqID) l1 -> omap chunk_of l1 = chunk_payloads q c ->
  loop_post reqID (seq_add q (Stream c) (length (chunk_payloads q c))) ch l -> loop_post reqID q (c :: ch) (l1 ++ l).
Proof.
  intros Hout H1 Hc (pre & id & p & -> & Hp & Ho & Hr). exists (l1 ++ pre), id, p. rewrite app_assoc. split_and!; try done.
  - by apply Forall_app.
  - rewrite omap_app, Hc, Ho. unfold is_output in Hout. cbn [output_before_exit]. by destruct (Stream c) eqn:E; simpl; rewrite ?E.
  - destruct Hr as [(c' & Hin & Hx)|Hr]; [left; exists c'; split; [by apply list_elem_of_further|done]|by right].
Qed.

Lemma exec_loop_spec reqID i q ch :
  emits (exec_loop NewID elapsed ticks cf reqID i q ch) (fun l _ => loop_post reqID q ch l).
Proof.
  revert i q. induction ch as [|c ch IH]; intros i q; cbn [exec_loop].
  all: eapply (emits_bind _ _ (fun l _ => Forall (progress reqID) l /\ omap chunk_of l = []));
    [destruct (0 <? cf_Heartbeat cf)%Z; [apply emits_heartbeats|by apply emits_ret]|].
  all: intros l0 [] [H0 Hc0].
  - apply emits_result. intros id dur. apply loop_post_cons; [done|done|]. eexists [], id, _. split_and!; try done. by right.
  - destruct (Stream c) as [| | |u] eqn:Es.
    1, 2: eapply emits_bind; [apply emits_chunk|]; intros l1 q' (H1 & Hc1 & ->);
      eapply emits_impl; [apply IH|]; intros l2 [] Hl2; apply loop_post_cons; [done|done|];
      apply loop_post_output; try done; unfold is_output; by rewrite Es.
    + destruct (classifyExit c) as [[code ec] em] eqn:Ex. apply emits_result. intros id dur. apply loop_post_cons; [done|done|].
      eexists [], id, _. split_and!; try done; [simpl; by rewrite Es|]. left. exists c. split; [by constructor|].
      unfold is_exit. rewrite Es. split; [done|]. by rewrite Ex.
    + eapply emits_impl; [apply IH|]. intros l2 [] (pre & id & p & -> & Hp & Ho & Hr).
      apply loop_post_cons; [done|done|]. exists pre, id, p. split_and!; try done; [simpl; by rewrite Es|].
      destruct Hr as [(c' & Hin & Hx)|Hr]; [left; exists c'; split; [by apply list_elem_of_further|done]|by right].
Qed.

(** *** The gate *)

Definition asked (pend tool : string) (a : args) (id : string) (l : list effect) : Prop :=
  exists pl, l = [Emit (mkFrame id pend (BApproval pl))] /\ ta_Tool pl = tool /\ ta_Args pl = default [] (RedactArgs (Some a)).

(** Let through: not required, or asked and granted. *)
Definition let_through (pol : policy) (pend tool : string) (a : args) (l : list effect) : Prop :=
  ((RequiresApproval pol tool).1 = false /\ l = []) \/ exists id, asked pend tool a id l /\ answer id = Granted.

Definition turned_away (pend tool : string) (a : args) (l : list effect) : Prop :=
  l = [] \/ exists id, asked pend tool a id l /\ answer id <> Granted.

Lemma requestApproval_spec pol fsops fs pend tool a :
  emits (requestApproval NewID answer flt cf pol fsops fs pend tool a) (fun l r =>
    match r with None => let_through pol pend tool a l | Some _ => turned_away pend tool a l end).
Proof.
  unfold requestApproval. destruct (RequiresApproval pol tool) as [required reason] eqn:Er.
  destruct required; simpl; [|apply emits_ret; left; by rewrite Er].
  destruct (buildApprovalPreview _ _ _ _ _) as [preview|e]; [|apply emits_ret; by left].
  eapply emits_bind; [by apply (emits_new_id (fun l _ => l = []))|]. intros l1 id ->.
  eapply emits_bind; [by apply (emits_new_id (fun l _ => l = []))|]. intros l2 id2 ->.
  set (pl := mkApprovalPayload _ _ _ _ _ _).
  apply (emits_bind _ _ (fun l _ => l = [Emit (mkFrame id pend (BApproval pl))])); [by apply emits_perform|].
  intros l3 [] ->. assert (asked pend tool a id [Emit (mkFrame id pend (BApproval pl))]) as Hasked by (by exists pl).
  destruct (answer id) eqn:Ea.
  1: apply emits_ret; right; exists id; split; [exact Hasked|exact Ea].
  all: apply emits_ret; right; exists id; split; [exact Hasked|by rewrite Ea].
Qed.

(** *** Running the command *)

Definition exec_post (req : ExecRequest) (reqID : string) (l : list effect) : Prop :=
  exists pre id p, l = Execute req :: pre ++ [Emit (mkFrame id reqID (BResult p))] /\ Forall (progress reqID) pre.

Lemma runExec_spec runner cancel sid reqID p :
  emits (runExec NewID elapsed ticks cf runner cancel sid reqID p) (fun l _ => exec_post (direct_request cf sid p) reqID l).
Proof.
  unfold runExec. set (req := direct_request cf sid p).
  apply (emits_bind _ _ (fun l _ => l = [Execute req])); [by apply emits_perform|]. intros l0 [] ->.
  destruct (Exec runner cancel req) as [ch|e].
  - eapply emits_impl; [apply exec_loop_spec|]. intros l [] (pre & id & r & -> & Hp & _). by exists pre, id, r.
  - apply emits_result. intros id dur. by eexists [], id, _.
Qed.

(** *** The handler, branch by branch *)

Definition gate_of (mw : option gate) : option policy :=
  match mw with Some g => if g_GateDirect g then Some (g_policy g) else None | None => None end.

(** What the daemon and language-server handlers promise: one terminal frame,
    and nothing handed to the sandbox. *)
Definition direct_post (reqID : string) (l : list effect) : Prop :=
  exists pre t, l = pre ++ [t] /\ terminal reqID t /\ Forall (fun x => ~ terminal reqID x) pre /\ Forall (fun x => forall r, x <> Execute r) pre.

Variable delegated : string -> CommandRequestPayload -> M unit.
Hypothesis delegated_contract : forall reqID p, emits (delegated reqID p) (fun l _ => direct_post reqID l).

Inductive handled (scopes : list string) (mw : option gate) (sid : string) (e : Envelope) (dec : option CommandRequestPayload)
    : list effect -> Prop :=
| h_refused t : terminal (ID e) t -> handled scopes mw sid e dec [t]
| h_scope p t : dec = Some p -> HasToolScope scopes (rq_Tool p) = false -> terminal (ID e) t ->
    handled scopes mw sid e dec [AuditDeny (rq_Tool p); t]
| h_delegated p l : dec = Some p -> HasToolScope scopes (rq_Tool p) = true -> direct_post (ID e) l ->
    handled scopes mw sid e dec (Delegate (rq_Tool p) (ID e) :: l)
| h_denied p l t : dec = Some p -> turned_away (ID e) (rq_Tool p) (rq_Args p) l -> terminal (ID e) t ->
    handled scopes mw sid e dec (l ++ [t])
| h_ran p lg l : dec = Some p -> HasToolScope scopes (rq_Tool p) = true ->
    match gate_of mw with Some pol => let_through pol (ID e) (rq_Tool p) (rq_Args p) lg | None => lg = [] end ->
    exec_post (direct_request cf sid p) (ID e) l ->
    handled scopes mw sid e dec (lg ++ l).

Lemma terminal_result id reqID p : terminal reqID (Emit (mkFrame id reqID (BResult p))).
Proof. exists id. left. eauto. Qed.

Lemma terminal_error id reqID p : terminal reqID (Emit (mkFrame id reqID (BError p))).
Proof. exists id. right. eauto. Qed.

(** Running [m] between [acquire] and [release] restores the slots. *)
Lemma with_slot {A B} (m : M A) (f : A -> M B) (refused : M unit) Q :
  emits refused Q -> emits (m ≫= f) (fun l _ => Q l tt) ->
  emits (ok ← acquire; if negb (ok : bool) then refused else m ≫= fun a => f a ≫= fun _ => release) Q.
Proof.
  intros Hr Hm w. unfold acquire. unfold mbind, M_bind in *. destruct w as [n s lg]. simpl. destruct s as [[|k]|]; simpl.
  - apply (Hr (mkWorld n (Some 0) lg)).
  - destruct (Hm (mkWorld n (Some k) lg)) as (n' & l & Hn & E & HQ). destruct (m _) as [w' a]. destruct (f a w') as [w'' b].
    simpl in *. subst w''. eauto 6.
  - destruct (Hm (mkWorld n None lg)) as (n' & l & Hn & E & HQ). destruct (m _) as [w' a]. destruct (f a w') as [w'' b].
    simpl in *. subst w''. eauto 6.
Qed.

Lemma handleCommandRequest_spec `{Unmarshal CommandRequestPayload} runner mw fs cancel sid scopes e :
  emits (handleCommandRequest NewID elapsed ticks answer flt cf delegated runner mw fs cancel sid scopes e)
    (fun l _ => handled scopes mw sid e (UnmarshalPayload (mkRequestPayload "" [] "" 0) e) l).
Proof.
  unfold handleCommandRequest. destruct (UnmarshalPayload _ e) as [p|].
  2:{ apply emits_reply. intros id. apply h_refused, terminal_error. }
  destruct (String.eqb (rq_Tool p) ""); [apply emits_result; intros; apply h_refused, terminal_result|].
  destruct (HasToolScope scopes (rq_Tool p)) eqn:Hscope; cbn [negb].
  2:{ eapply (emits_bind _ _ (fun l _ => l = [AuditDeny (rq_Tool p)])); [by apply emits_perform|]. intros l [] ->.
      apply emits_result. intros. apply h_scope; [done|done|apply terminal_result]. }
  destruct (_ || String.eqb (rq_Tool p) ToolLSPQuery); 
    [eapply (emits_bind _ _ (fun l _ => l = [Delegate (rq_Tool p) (ID e)])); [by apply emits_perform|]; intros l [] ->;
     eapply emits_impl; [apply delegated_contract|]; intros l [] Hl; by apply (h_delegated _ _ _ _ _ p l)|].
  destruct runner as [r|]; [|apply emits_reply; intros; apply h_refused, terminal_error].
  match goal with |- emits (acquire ≫= ?f) ?Q => set (QQ := Q) end.
  assert (forall go lg, (if go : bool then match gate_of mw with Some pol => let_through pol (ID e) (rq_Tool p) (rq_Args p) lg | None => lg = [] end
                        else QQ lg tt) ->
    emits (if go : bool then runExec NewID elapsed ticks cf r cancel sid (ID e) p else mret tt) (fun l _ => QQ (lg ++ l) tt)) as Hrun.
  { intros [] lg Hlg; [|apply emits_ret; by rewrite app_nil_r]. eapply emits_impl; [apply runExec_spec|].
    intros l [] Hl. by apply (h_ran scopes mw sid e (Some p) p lg l). }
  apply with_slot; [apply emits_result; intros; apply h_refused, terminal_result|].
  eapply (emits_bind _ _ (fun lg go => if go : bool then match gate_of mw with Some pol => let_through pol (ID e) (rq_Tool p) (rq_Args p) lg | None => lg = [] end
                        else QQ lg tt)); [|by intros lg go Hlg; apply Hrun].
  unfold gate_of. destruct mw as [g|]; [|by apply emits_ret]. destruct (g_GateDirect g) eqn:Eg; [|by apply emits_ret].
  unfold gateDirectCommand. eapply emits_bind; [apply requestApproval_spec|].
  intros lg [[[code msg] cx]|] Hlg; [|apply emits_ret; by rewrite app_nil_r].
  eapply (emits_bind _ _ (fun l _ => exists t, l = [t] /\ terminal (ID e) t)).
  { apply emits_result. intros id dur. eexists. split; [done|apply terminal_result]. }
  intros l [] (t & -> & Ht). apply emits_ret. rewrite app_nil_r. by apply (h_denied _ _ _ _ _ p).
Qed.

(** ** The claims *)

Lemma asked_not_terminal pend tool a id l e : asked pend tool a id l -> Forall (fun x => ~ terminal e x) l.
Proof. intros (pl & -> & _). repeat constructor. intros (i & [[? [=]]|[? [=]]]). Qed.

Lemma progress_not_terminal reqID e l : Forall (progress reqID) l -> Forall (fun x => ~ terminal e x) l.
Proof.
  intros Hl. eapply Forall_impl; [exact Hl|]. intros x (i & [[p ->]|[p ->]]) (j & [[? [=]]|[? [=]]]).
Qed.

(** C15: every command.request is answered exactly once: on every path,
    decoding failure, missing tool, scope, capacity, denied or timed-out
    approval, a runner that fails, streams, or breaks its contract by closing
    without an exit, the handler's log ends with one terminal frame (a
    command.result or an error) correlated to the request and holds no other,
    provided the daemon and language-server handlers do so for the calls handed
    to them; and the execution slot it took is free again. *)
Theorem command_request_answered_once `{Unmarshal CommandRequestPayload} (runner : option R) (mw : option gate) (fs : FS)
    (cancel : option nat) (sid : string) (scopes : list string) (e : Envelope) (w : world) :
  let w' := (handleCommandRequest NewID elapsed ticks answer flt cf delegated runner mw fs cancel sid scopes e w).1 in
  slots w' = slots w /\
  exists pre t, elog w' = elog w ++ pre ++ [t] /\ terminal (ID e) t /\ Forall (fun x => ~ terminal (ID e) x) pre.
Proof.
  intros w'. destruct (handleCommandRequest_spec runner mw fs cancel sid scopes e w) as (n & l & _ & E & Hh).
  unfold w'. rewrite E. simpl. split; [done|].
  assert (exists pre t, l = pre ++ [t] /\ terminal (ID e) t /\ Forall (fun x => ~ terminal (ID e) x) pre) as (pre & t & -> & Ht & Hf); [|by exists pre, t].
  destruct Hh as [t Ht|p t _ _ Ht|p l _ _ (pre & t & -> & Ht & Hf & _)|p l t _ Hl Ht|p lg l _ _ Hg (pre & id & r & -> & Hp)].
  - by exists [], t.
  - exists [AuditDeny (rq_Tool p)], t. split_and!; [done|done|]. repeat constructor. intros (i & [[? [=]]|[? [=]]]).
  - exists (Delegate (rq_Tool p) (ID e) :: pre), t. split_and!; [done|done|]. constructor; [|done]. intros (i & [[? [=]]|[? [=]]]).
  - exists l, t. split_and!; try done. destruct Hl as [->|(id & Hask & _)]; [done|by eapply asked_not_terminal].
  - exists (lg ++ Execute (direct_request cf sid p) :: pre), (Emit (mkFrame id (ID e) (BResult r))).
    split_and!; [by rewrite <-app_assoc|apply terminal_result|]. apply Forall_app. split.
    + destruct (gate_of mw) as [pol|]; [|by subst]. destruct Hg as [[_ ->]|(i & Hask & _)]; [done|by eapply asked_not_terminal].
    + constructor; [intros (i & [[? [=]]|[? [=]]])|by eapply progress_not_terminal].
Qed.

(** C2: nothing runs without scope and consent: whenever the direct path
    reaches the runner, the request it runs is the one the client sent, the
    client's token allows its tool, and, if the gate is on and the policy
    names the tool, the frame just before is an approval request for this very
    command, with its arguments redacted, that was granted. *)
Theorem execution_needs_scope_and_consent `{Unmarshal CommandRequestPayload} (runner : option R) (mw : option gate) (fs : FS)
    (cancel : option nat) (sid : string) (scopes : list string) (e : Envelope) (w : world) (l : list effect) (req : ExecRequest) :
  elog (handleCommandRequest NewID elapsed ticks answer flt cf delegated runner mw fs cancel sid scopes e w).1 = elog w ++ l ->
  Execute req ∈ l ->
  exists p, UnmarshalPayload (mkRequestPayload "" [] "" 0) e = Some p /\ req = direct_request cf sid p /\
    HasToolScope scopes (rq_Tool p) = true /\
    forall g, mw = Some g -> g_GateDirect g = true -> (RequiresApproval (g_policy g) (rq_Tool p)).1 = true ->
      exists id pl rest, l = Emit (mkFrame id (ID e) (BApproval pl)) :: Execute req :: rest /\ answer id = Granted /\
        ta_Tool pl = rq_Tool p /\ ta_Args pl = default [] (RedactArgs (Some (rq_Args p))).
Proof.
  intros El Hin. destruct (handleCommandRequest_spec runner mw fs cancel sid scopes e w) as (n & l' & _ & E & Hh).
  rewrite E in El. simpl in El. apply app_inv_head in El as ->.
  assert (forall pre, Execute req ∈ pre -> Forall (fun x => match x with Execute _ => False | _ => True end) pre -> False) as Hno.
  { intros pre Hp Hf. rewrite Forall_forall in Hf. apply (Hf _ Hp). }
  assert (forall t, terminal (ID e) t -> Execute req <> t) as Hnt by (by intros t (i & [[? ->]|[? ->]])).
  destruct Hh as [t Ht|p t Hd Hs Ht|p l Hd Hs (pre & t & -> & Ht & _ & Hx)|p lg t Hd Hl Ht|p lg l2 Hd Hs Hg (pre & id & r & -> & Hp)].
  - apply list_elem_of_singleton in Hin. by apply Hnt in Ht.
  - apply elem_of_cons in Hin as [|Hin%list_elem_of_singleton]; [done|]. by apply Hnt in Ht.
  - apply elem_of_cons in Hin as [|Hin]; [done|]. apply elem_of_app in Hin as [Hin|Hin%list_elem_of_singleton]; [|by apply Hnt in Ht].
    rewrite Forall_forall in Hx. by destruct (Hx _ Hin req).
  - apply elem_of_app in Hin as [Hin|Hin%list_elem_of_singleton]; [|by apply Hnt in Ht].
    destruct Hl as [->|(id & (pl & -> & _) & _)]; [by apply elem_of_nil in Hin|by apply list_elem_of_singleton in Hin].
  - exists p. split; [done|]. assert (req = direct_request cf sid p) as ->.
    { apply elem_of_app in Hin as [Hin|Hin].
      - destruct (gate_of mw) as [pol|]; [|subst lg; by apply elem_of_nil in Hin].
        destruct Hg as [[_ ->]|(i & (pl & -> & _) & _)]; [by apply elem_of_nil in Hin|by apply list_elem_of_singleton in Hin].
      - apply elem_of_cons in Hin as [[= ->]|Hin]; [done|]. exfalso. apply elem_of_app in Hin as [Hin|Hin%list_elem_of_singleton]; [|done].
        rewrite Forall_forall in Hp. destruct (Hp _ Hin) as (i & [[? [=]]|[? [=]]]). }
    split; [done|]. split; [done|]. intros g -> Hgd Hreq. unfold gate_of in Hg. rewrite Hgd in Hg.
    destruct Hg as [[Hf _]|(i & (pl & -> & Ht & Ha) & Hans)]; [congruence|]. exists i, pl. by eexists.
Qed.
End logic.

(** ** The output stream *)

Definition on_stream (st : stream) (l : list CommandChunkPayload) : list CommandChunkPayload :=
  filter (fun p => cc_Stream p = stream_name st) l.

(** The bytes a runner wrote to a stream. *)
Definition written (st : stream) (l : list ExecChunk) : string := str_concat (Data <$> filter (fun c => Stream c = st) l).

Lemma filter_imap_true {A B} (P : B -> Prop) `{!forall x, Decision (P x)} (f : nat -> A -> B) l :
  (forall i x, P (f i x)) -> filter P (imap f l) = imap f l.
Proof. intros Hf. apply filter_all_true. apply Forall_forall. intros x. rewrite elem_of_lookup_imap. by intros (i & y & -> & _). Qed.

Lemma filter_imap_false {A B} (P : B -> Prop) `{!forall x, Decision (P x)} (f : nat -> A -> B) l :
  (forall i x, ~ P (f i x)) -> filter P (imap f l) = [].
Proof. intros Hf. apply filter_all_false. apply Forall_forall. intros x. rewrite elem_of_lookup_imap. by intros (i & y & -> & _). Qed.

Lemma on_stream_payloads st q c :
  is_output c = true -> st = StreamStdout \/ st = StreamStderr ->
  on_stream st (chunk_payloads q c) = if decide (Stream c = st) then chunk_payloads q c else [].
Proof.
  intros Hc Hst. unfold on_stream, chunk_payloads. unfold is_output in Hc. destruct (decide (Stream c = st)) as [->|Hne].
  - by apply filter_imap_true.
  - apply filter_imap_false. intros i x. simpl. destruct Hst as [->| ->], (Stream c); done.
Qed.

Lemma imap_seq {A} (f : A -> string) st n (l : list A) :
  cc_Seq <$> imap (fun i d => mkChunkPayload st (Z.of_nat (n + i)) (f d)) l = Z.of_nat <$> seq n (length l).
Proof.
  revert n. induction l as [|x l IH]; intros n; [done|]. cbn [imap fmap list_fmap length seq cc_Seq]. rewrite Nat.add_0_r. f_equal.
  rewrite <-IH. f_equal. apply imap_ext. intros i y _. simpl. do 2 f_equal. lia.
Qed.

Lemma output_all ch : Forall (fun c => is_output c = true) (output_before_exit ch).
Proof. induction ch as [|c ch IH]; simpl; [constructor|]. destruct (Stream c) eqn:E; try done; constructor; try done; unfold is_output; by rewrite E. Qed.

(** Every slice the sender cuts is valid text. *)
Definition slices_valid (c : ExecChunk) : Prop := Forall (fun d => ValidString d = true) (chunk_bytes maxChunkSize (Data c)).

Lemma chunk_payloads_data q c : slices_valid c -> str_concat (cc_Data <$> chunk_payloads q c) = Data c.
Proof.
  intros Hv. rewrite <-(proj1 (chunk_bytes_ok maxChunkSize (Data c) ltac:(unfold maxChunkSize; lia))) at 1. unfold chunk_payloads.
  f_equal. rewrite fmap_imap. unfold compose. simpl. unfold slices_valid in Hv. revert Hv. generalize (chunk_bytes maxChunkSize (Data c)).
  intros l. induction 1 as [|d l Hd _ IH]; [done|]. cbn [imap]. f_equal; [by apply ToValidUTF8_valid|exact IH].
Qed.

Lemma stream_spec st q l :
  st = StreamStdout \/ st = StreamStderr -> Forall (fun c => is_output c = true) l ->
  let ps := on_stream st (all_payloads q l) in
  cc_Seq <$> ps = Z.of_nat <$> seq (seq_of q st) (length ps) /\
  (Forall slices_valid l -> str_concat (cc_Data <$> ps) = written st l).
Proof.
  intros Hst. revert q. induction l as [|c l IH]; intros q Hl ps; [done|].
  apply Forall_cons in Hl as [Hc Hl]. unfold ps. cbn [all_payloads]. unfold on_stream. rewrite filter_app.
  change (filter _ (chunk_payloads q c)) with (on_stream st (chunk_payloads q c)). rewrite on_stream_payloads by done.
  destruct (IH (seq_add q (Stream c) (length (chunk_payloads q c))) Hl) as [IH1 IH2].
  change (filter _ (all_payloads ?a l)) with (on_stream st (all_payloads a l)).
  unfold written. rewrite filter_cons. destruct (decide (Stream c = st)) as [Heq|Hne].
  - split.
    + rewrite fmap_app, IH1. unfold chunk_payloads at 1. rewrite imap_seq, length_app, seq_app, fmap_app. f_equal.
      * rewrite Heq. unfold chunk_payloads. by rewrite length_imap.
      * do 2 f_equal. rewrite Heq. by destruct Hst as [->| ->].
    + intros [Hv Hvl]%Forall_cons. rewrite fmap_app, str_concat_app, chunk_payloads_data by done. simpl. f_equal. by apply IH2.
  - split; [|intros [Hv Hvl]%Forall_cons; by apply IH2].
    replace (seq_of q st) with (seq_of (seq_add q (Stream c) (length (chunk_payloads q c))) st); [exact IH1|].
    destruct Hst as [->| ->]; unfold is_output in Hc; by destruct (Stream c).
Qed.

(** the output stream is faithful: while a command runs, the command.chunk
    frames of each stream carry the consecutive sequence numbers 0, 1, 2, ...
    and, as long as no 16 KiB slice of the output cuts a UTF-8 sequence, their
    data put together is exactly what the runner wrote to that stream before
    its exit; the result that follows reports that exit, or an internal error
    when there was none. *)
Theorem command_output_is_faithful {R : Type} `{Runner R} (NewID : nat -> string) (elapsed : nat -> Z) (ticks : nat -> nat)
    (cf : server_config) (runner : R) (cancel : option nat) (sid reqID : string) (p : CommandRequestPayload) (ch : list ExecChunk) (w : world) :
  Exec runner cancel (direct_request cf sid p) = Ok ch ->
  exists l id r, elog (runExec NewID elapsed ticks cf runner cancel sid reqID p w).1 = elog w ++ l ++ [Emit (mkFrame id reqID (BResult r))] /\
    ((exists c, c ∈ ch /\ is_exit c = true /\ (cr_ExitCode r, cr_Error r, cr_ErrorMessage r) = classifyExit c) \/
     cr_ExitCode r = (-1)%Z /\ cr_Error r = SandboxErrInternal) /\
    forall st, st = StreamStdout \/ st = StreamStderr ->
      let ps := on_stream st (omap chunk_of l) in
      cc_Seq <$> ps = Z.of_nat <$> seq 0 (length ps) /\
      (Forall slices_valid (output_before_exit ch) -> str_concat (cc_Data <$> ps) = written st (output_before_exit ch)).
Proof.
  intros Hex.
  assert (emits (runExec NewID elapsed ticks cf runner cancel sid reqID p)
    (fun l _ => exists l', l = Execute (direct_request cf sid p) :: l' /\ loop_post reqID (mkSeqs 0 0) ch l')) as Hrun.
  { unfold runExec. apply (emits_bind _ _ (fun l _ => l = [Execute (direct_request cf sid p)])); [by apply emits_perform|].
    intros l0 [] ->. rewrite Hex. eapply emits_impl; [apply exec_loop_spec|]. intros l [] Hl. by exists l. }
  destruct (Hrun w) as (n & l & _ & E & l' & -> & (pre & id & r & -> & _ & Ho & Hr)). rewrite E.
  exists (Execute (direct_request cf sid p) :: pre), id, r. split; [done|]. split; [done|].
  intros st Hst. change (omap chunk_of (Execute (direct_request cf sid p) :: pre)) with (omap chunk_of pre). rewrite Ho.
  destruct (stream_spec st (mkSeqs 0 0) (output_before_exit ch) Hst (output_all ch)) as [H1 H2].
  split; [|exact H2]. destruct Hst as [->| ->]; exact H1.
Qed.

Lemma command_output_is_faithful_witness :
  let cf := mkServerConfig 30 0 60000 0 in
  let p := mkRequestPayload "execute_script" [] "" 0 in
  let w := (runExec (fun _ => "id") (fun _ => 0%Z) (fun _ => 0) cf (mkMock (MockScript "hi" "" 0) None) None "s" "req" p (mkWorld 0 None [])).1 in
  exists l id r, elog w = l ++ [Emit (mkFrame id "req" (BResult r))] /\
    str_concat (cc_Data <$> on_stream StreamStdout (omap chunk_of l)) = "hi".
Proof.
  intros cf p w.
  assert (Exec (mkMock (MockScript "hi" "" 0) None) None (direct_request cf "s" p) = Ok (MockScript "hi" "" 0)) as Hex by (vm_compute; reflexivity).
  destruct (command_output_is_faithful (fun _ => "id") (fun _ => 0%Z) (fun _ => 0) cf (mkMock (MockScript "hi" "" 0) None) None "s" "req" p
    (MockScript "hi" "" 0) (mkWorld 0 None []) Hex) as (l & id & r & El & _ & Hst).
  exists l, id, r. split; [exact El|]. destruct (Hst StreamStdout (or_introl eq_refl)) as [_ Hd].
  rewrite Hd; [vm_compute; reflexivity|]. repeat constructor.
Defined.

(** A chunk of valid UTF-8 whose two-byte character straddles the 16 KiB
    boundary. *)
Definition straddling : string :=
  str_concat (replicate (maxChunkSize - 1) "a") +:+ bytes_of [195; 169].

(** What the approval card previews of a patch is not redacted: the verification
    command is on it as the model wrote it, while the card's arguments mask an
    inline assignment in the same field. *)
Lemma preview_shows_the_command flt e fs a vc m : arg_string_or_empty a "verify_command" = vc -> vc <> "" ->
  buildApprovalPreview flt (Some e) fs ToolApplyCodePatch a = Ok (Some m) -> arg_lookup m "verify_command" = Some (AStr vc).
Proof.
  intros <- Hne. unfold buildApprovalPreview. rewrite String.eqb_refl. cbn [negb]. destruct (PreviewApplyCodePatch _ _ _ _ _).2 as [pv|]; [|done].
  apply String.eqb_neq in Hne. rewrite Hne. intros [= <-]. reflexivity.
Qed.

Example preview_leak : RedactArgs (Some [("verify_command", AStr "TOKEN=abc123 make")]) = Some [("verify_command", AStr "TOKEN=[REDACTED] make")].
Proof. vm_compute. reflexivity. Qed.

(** cutting at a byte offset corrupts text: there is valid UTF-8 output,
    one character across the 16 KiB boundary, whose delivered chunks do not
    put together to it; both halves of the character are replaced. *)
Theorem slicing_corrupts_straddling_rune :
  ValidString straddling = true /\
  str_concat (cc_Data <$> chunk_payloads (mkSeqs 0 0) (stdout_chunk straddling)) =
    str_concat (replicate (maxChunkSize - 1) "a") +:+ (RuneError +:+ RuneError) /\
  str_concat (cc_Data <$> chunk_payloads (mkSeqs 0 0) (stdout_chunk straddling)) <> straddling.
Proof.
  split; [vm_compute; reflexivity|].
  assert (str_concat (cc_Data <$> chunk_payloads (mkSeqs 0 0) (stdout_chunk straddling)) =
    str_concat (replicate (maxChunkSize - 1) "a") +:+ (RuneError +:+ RuneError)) as ->; [vm_compute; reflexivity|].
  split; [reflexivity|]. intros E. apply (f_equal String.length) in E. vm_compute in E. done.
Qed.

(** A request that needs consent, granted: the run of the whole handler. *)
Definition demo_request : Unmarshal CommandRequestPayload := fun v =>
  match v with AMap m => Some (mkRequestPayload (arg_string_or_empty m "tool") [] "" 0) | _ => None end.

Definition demo_delegated (reqID : string) (_ : CommandRequestPayload) : M unit := emitResult (fun _ => "id") (fun _ => 0%Z) reqID 0 "" "".

Lemma demo_delegated_contract reqID p : emits (demo_delegated reqID p) (fun l _ => direct_post reqID l).
Proof. apply emits_result. intros id dur. eexists [], _. split_and!; [done|apply terminal_result|constructor|constructor]. Qed.

Lemma execution_needs_scope_and_consent_witness :
  let cf := mkServerConfig 30 0 60000 0 in
  let mw := Some (mkGate true (NewPolicyApprover ["execute_script"] false 0) None) in
  let e := mkEnvelope "req" EventCommandRequest 0 "" (Some (AMap [("tool", AStr "execute_script")])) in
  let w := (handleCommandRequest (H0 := demo_request) (fun _ => "id") (fun _ => 0%Z) (fun _ => 0) (fun _ => Granted) no_faults cf demo_delegated
    (Some (mkMock (MockScript "hi" "" 0) None)) mw ∅ None "s" ["tools:*"] e (mkWorld 0 (Some 1) [])).1 in
  exists id pl rest req, elog w = Emit (mkFrame id "req" (BApproval pl)) :: Execute req :: rest /\ rTool req = "execute_script".
Proof.
  intros cf mw e w.
  pose proof (execution_needs_scope_and_consent (H0 := demo_request) (fun _ => "id") (fun _ => 0%Z) (fun _ => 0) (fun _ => Granted) no_faults cf demo_delegated demo_delegated_contract
    (Some (mkMock (MockScript "hi" "" 0) None)) mw ∅ None "s" ["tools:*"] e (mkWorld 0 (Some 1) []) (elog w)
    (direct_request cf "s" (mkRequestPayload "execute_script" [] "" 0)) eq_refl) as Hc.
  destruct Hc as (p & Hp & Hreq & _ & Hg); [vm_compute; apply list_elem_of_further, list_elem_of_here|].
  destruct (Hg _ eq_refl eq_refl) as (id & pl & rest & El & _ & _); [vm_compute in Hp; simplify_eq; vm_compute; reflexivity|].
  exists id, pl, rest. eexists. split; [exact El|reflexivity].
Defined.
