(* ===== verification/Intent.v ===== *)
(** * One turn of the assistant (internal/wsserver/middleware.go)

    [runToolCall] (scope, validation, audit mode, approval, dispatch, history),
    [consumeStage] (the events of one translator stage) and [runIntent] (the
    loop over stages with its retry budget), in the monad of Server.v; and
    service.go's tool catalogue.

    The translator is third-party: its first stage is a list of events and
    [resume] gives the next stage from the tool results so far.  The dispatcher
    is the parameter [Dispatch], which may depend on everything done so far;
    IntentSpec.v instantiates it with the one of Dispatcher.v.  The daemon,
    language-server and worker-pool handlers are delegated to. *)

From S2P Require Import Prelude GoString Event Paths Wire Utf8 Auth Sandbox Os Fsops Tools WorkerPool Approver Recovery Server.

(** ** Data (translator.go) *)

Record Usage := mkUsageCount { u_Prompt : Z; u_Candidates : Z; u_Total : Z }.
Definition no_usage : Usage := mkUsageCount 0 0 0.

Record FinalMessage := mkFinal { fm_Text : string; fm_FinishReason : string; fm_Usage : Usage }.
Record Call := mkToolCall { call_ID : string; call_Tool : string; call_Args : args }.

Record AssistantEvent := mkEvent {
  ev_Text : string;
  ev_Thinking : string;
  ev_ToolCall : option Call;
  ev_Final : option FinalMessage;
  ev_Usage : option Usage;
  ev_Err : option string;
}.

Record ToolResult := mkToolResult {
  tr_CallID : string;
  tr_Tool : string;
  tr_Output : option args;
  tr_Report : option SystemErrorReportPayload;      (* Output["error_report"] *)
  tr_Error : string;
}.

(** The five results of [runToolCall]. *)
Record outcome := mkOutcome { o_result : ToolResult; o_stderr : string; o_exit : Z; o_msg : string; o_ok : bool }.

Definition accumulateUsage (turn stage : Usage) : Usage :=
  if ((u_Prompt stage =? 0) && (u_Candidates stage =? 0) && (u_Total stage =? 0))%Z then turn
  else mkUsageCount (wrap64 (u_Prompt turn + u_Prompt stage)) (wrap64 (u_Candidates turn + u_Candidates stage))
         (wrap64 (u_Total turn + u_Total stage)).

(** ** The tool catalogue (service.go) *)

Definition IsMutatingTool (destructive : option (string -> bool)) (name : string) : bool :=
  if IsMutatingBaseTool name then true
  else match destructive with Some f => if HasPrefix name GitHubToolPrefix then f name else false | None => false end.

Definition AvailableToolsFor (destructive : option (string -> bool)) (all : list string) (mode : string) : list string :=
  if negb (String.eqb mode ModeAudit) then all
  else List.filter (fun t => negb (IsMutatingTool destructive t)) all.

Definition audit_instruction : string :=
  "Audit mode: the tool catalogue has been restricted to read-only operations. " +:+
  "Do not attempt to mutate the workspace, the host, or remote services. " +:+
  "Use read_file, list_dir, search_syntax, and read-only github tools to analyze " +:+
  "the codebase, and reply with a markdown report.".

Definition appendAuditInstruction (base : string) : string :=
  if String.eqb base "" then audit_instruction
  else base +:+ String (ascii_of_nat 10) (String (ascii_of_nat 10) "") +:+ audit_instruction.

(** The prompt of a turn: pinned files first, the audit line last. *)
Definition turn_prompt (base pinned mode : string) : string :=
  let p := if String.eqb pinned "" then base else pinned +:+ base in
  if String.eqb mode ModeAudit then appendAuditInstruction p else p.

Definition effectiveModel (overrides : gmap string string) (serverModel sid : string) : string :=
  match overrides !! sid with Some m => if String.eqb m "" then serverModel else m | None => serverModel end.

Record turn_config := mkTurnConfig {
  tc_policy : policy;
  tc_FSOps : option Engine;
  tc_destructive : option (string -> bool);
  tc_Scopes : list string;
  tc_MaxAutoRetries : Z;
}.

Section intent.
Variable NewID : nat -> string.
Variable elapsed : nat -> Z.
Variable answer : string -> await_result.
Variable flt : faults.
Variable cf : server_config.
Variable fs : FS.                                                    (* the workspace a preview reads *)
Variable tc : turn_config.
Variable url_Parse : string -> option (string * string).             (* net/url *)
Variable Dispatch : list effect -> Call -> string -> result gerror (list ExecChunk).
Variable delegate : string -> string -> Call -> M outcome.          (* the daemon, language-server and worker-pool handlers *)
Variable history_ok : list effect -> bool.                           (* the history store accepts an append *)
Variable cost : Usage -> float64.                                    (* pricing.EstimateCostUSD *)

Definition the_log : M (list effect) := fun w => (w, elog w).

(** ** One tool call *)

Definition history_append (role : string) (c : Call) (a : option args) (errCode : string) : M bool :=
  l ← the_log;
  if history_ok l then _ ← perform (History role (call_ID c) (call_Tool c) a errCode); mret true else mret false.

Definition appendToolTurns (c : Call) (output : option args) (errCode : string) : M unit :=
  ok ← history_append "tool_call" c (Some (call_Args c)) "";
  if ok : bool then _ ← history_append "tool_result" c output errCode; mret tt else mret tt.

(** The early returns: result frame, history, outcome. *)
Definition refuse (cmdID : string) (c : Call) (code msg : string) (ok : bool) : M outcome :=
  _ ← emitResult NewID elapsed cmdID (-1) code msg;
  _ ← appendToolTurns c None code;
  mret (mkOutcome (mkToolResult (call_ID c) (call_Tool c) None None code) "" (-1) msg ok).

(** Step 5: the chunks go to the wire, and are collected for the translator. *)
Record collected := mkCollected { k_out : string; k_err : string; k_exit : Z; k_code : string; k_msg : string }.

Fixpoint tool_loop (cmdID : string) (q : seqs) (k : collected) (ch : list ExecChunk) : M collected :=
  match ch with
  | [] => mret k
  | c :: rest =>
      match Stream c with
      | StreamStdout =>
          q' ← emitChunk NewID cmdID c q;
          tool_loop cmdID q' (mkCollected (k_out k +:+ Data c) (k_err k) (k_exit k) (k_code k) (k_msg k)) rest
      | StreamStderr =>
          q' ← emitChunk NewID cmdID c q;
          tool_loop cmdID q' (mkCollected (k_out k) (k_err k +:+ Data c) (k_exit k) (k_code k) (k_msg k)) rest
      | StreamExit =>
          let '(code, errCode, errMsg) := classifyExit c in
          _ ← emitResult NewID elapsed cmdID code errCode errMsg;
          tool_loop cmdID q (mkCollected (k_out k) (k_err k) code errCode errMsg) rest
      | StreamUnknown _ => tool_loop cmdID q k rest
      end
  end.

Definition tool_output (k : collected) : args :=
  ("exit_code", AInt (k_exit k)) ::
  (if (0 <? zlen (k_out k))%Z then [("stdout", AStr (k_out k))] else []) ++
  (if (0 <? zlen (k_err k))%Z then [("stderr", AStr (k_err k))] else []).

Definition is_delegated (tool : string) : bool :=
  String.eqb tool ToolDispatchWorkerPool || is_daemon_tool tool || String.eqb tool ToolLSPQuery.

Definition runToolCall (intentID : string) (c : Call) (mode : string) : M outcome :=
  cmdID ← new_id NewID;
  _ ← perform (Emit (mkFrame cmdID intentID (BRequest
        (mkRequestPayload (call_Tool c) (default [] (RedactArgs (Some (call_Args c)))) "" 0))));
  if negb (HasToolScope (tc_Scopes tc) (call_Tool c)) then
    _ ← perform (AuditDeny (call_Tool c));
    refuse cmdID c SandboxErrUnauthorized ("token lacks tools:" +:+ call_Tool c +:+ " scope") true
  else match Validate url_Parse validateDispatchWorkerPool (call_Tool c) (call_Args c) with
  | Err msg => refuse cmdID c SandboxErrBadRequest msg true
  | Ok _ =>
      if String.eqb mode ModeAudit && IsMutatingTool (tc_destructive tc) (call_Tool c) then
        refuse cmdID c SandboxErrUnauthorized ("tool " +:+ call_Tool c +:+ " is disabled in audit mode") true
      else
        verdict ← requestApproval NewID answer flt cf (tc_policy tc) (tc_FSOps tc) fs cmdID (call_Tool c) (call_Args c);
        match verdict with
        | Some (code, msg, canceled) => refuse cmdID c code msg (negb canceled)
        | None =>
            if is_delegated (call_Tool c) then
              _ ← perform (Delegate (call_Tool c) cmdID);
              delegate intentID cmdID c
            else
              l ← the_log;
              _ ← perform (Dispatched (call_Tool c) (call_Args c));
              match Dispatch l c mode with
              | Err e => refuse cmdID c (dispatch_code e) (emsg e) true
              | Ok ch =>
                  k ← tool_loop cmdID (mkSeqs 0 0) (mkCollected "" "" 0 "" "") ch;
                  _ ← appendToolTurns c (Some (tool_output k)) (k_code k);
                  mret (mkOutcome (mkToolResult (call_ID c) (call_Tool c) (Some (tool_output k)) None (k_code k))
                          (k_err k) (k_exit k) (k_msg k) true)
              end
        end
  end.

(** ** One stage *)

Record turn_state := mkTurnState {
  t_seq : nat;
  t_think : nat;
  t_usage : Usage;
  t_budget : RetryBudget;
  t_results : list ToolResult;      (* handed to resume so far *)
}.

Definition with_seq (s : turn_state) (n : nat) : turn_state := mkTurnState n (t_think s) (t_usage s) (t_budget s) (t_results s).
Definition with_think (s : turn_state) (n : nat) : turn_state := mkTurnState (t_seq s) n (t_usage s) (t_budget s) (t_results s).
Definition with_usage (s : turn_state) (u : Usage) : turn_state := mkTurnState (t_seq s) (t_think s) u (t_budget s) (t_results s).

Inductive stage_end :=
| Terminal (m : FinalMessage)
| NextStage (events : list AssistantEvent)
| ChannelClosed.

Variable resume : list ToolResult -> option (list AssistantEvent).   (* [None]: resume failed *)

Definition final_error (text : string) : FinalMessage := mkFinal text "error" no_usage.

Definition with_report (r : ToolResult) (rep : SystemErrorReportPayload) : ToolResult :=
  mkToolResult (tr_CallID r) (tr_Tool r) (Some (default [] (tr_Output r))) (Some rep) (tr_Error r).

(** The tool-call case of [consumeStage]. *)
Definition tool_stage (intentID mode : string) (s : turn_state) (c : Call) : M (turn_state * stage_end) :=
  o ← runToolCall intentID c mode;
  if negb (o_ok o) then mret (s, Terminal (final_error ""))
  else
    let go (b : RetryBudget) (r : ToolResult) : M (turn_state * stage_end) :=
      let s' := mkTurnState (t_seq s) (t_think s) (t_usage s) b (t_results s ++ [r]) in
      mret (s', match resume (t_results s ++ [r]) with Some events => NextStage events | None => Terminal (final_error "") end) in
    if ShouldAutoRetry (o_exit o) (tr_Error (o_result o)) then
      let '(b, remaining) := Consume (t_budget s) in
      let report := BuildErrorReport (call_ID c) (call_Tool c) (o_exit o) (tr_Error (o_result o)) (o_msg o) (o_stderr o) (Attempt b) (max b + 1) in
      let s' := mkTurnState (t_seq s) (t_think s) (t_usage s) b (t_results s) in
      if negb remaining then
        _ ← reply NewID intentID (BReport (mkErrorReport (er_Tool report) (er_OriginalCallID report) (er_ExitCode report) (er_ErrorCode report)
              (er_ErrorMessage report) (er_Stderr report) (er_Attempt report) (er_MaxAttempts report) true));
        mret (s', Terminal (final_error "exceeded NOMADDEV_MAX_AUTORETRIES; escalated to operator"))
      else go b (with_report (o_result o) report)
    else go (Reset (t_budget s)) (o_result o).

Fixpoint consumeStage (intentID mode : string) (s : turn_state) (events : list AssistantEvent) : M (turn_state * stage_end) :=
  match events with
  | [] => mret (s, ChannelClosed)
  | ev :: rest =>
      match ev_Err ev with
      | Some _ => mret (s, Terminal (final_error ""))
      | None =>
          if negb (String.eqb (ev_Text ev) "") then
            _ ← reply NewID intentID (BText (mkAssistantChunk (Z.of_nat (t_seq s)) (ev_Text ev)));
            consumeStage intentID mode (with_seq s (S (t_seq s))) rest
          else if negb (String.eqb (ev_Thinking ev) "") then
            _ ← reply NewID intentID (BThinking (mkAssistantChunk (Z.of_nat (t_think s)) (ev_Thinking ev)));
            consumeStage intentID mode (with_think s (S (t_think s))) rest
          else match ev_Usage ev with
          | Some u => consumeStage intentID mode (with_usage s (accumulateUsage (t_usage s) u)) rest
          | None =>
              match ev_ToolCall ev with
              | Some c => tool_stage intentID mode s c
              | None =>
                  match ev_Final ev with
                  | Some m => mret (with_usage s (accumulateUsage (t_usage s) (fm_Usage m)), Terminal m)
                  | None => consumeStage intentID mode s rest
                  end
              end
          end
      end
  end.

(** ** The turn *)

Definition emitAssistantMessage (intentID text finishReason errMsg : string) (u : Usage) : M unit :=
  let reason := if String.eqb finishReason "" then "stop" else finishReason in
  let usage := if ((u_Prompt u =? 0) && (u_Candidates u =? 0) && (u_Total u =? 0))%Z then None
               else Some (mkUsage (u_Prompt u) (u_Candidates u) (u_Total u) (cost u)) in
  reply NewID intentID (BMessage (mkAssistantMessage text reason errMsg usage)).

(** The assistant's text goes to history after the terminal frame. *)
Definition finish_turn (intentID : string) (m : FinalMessage) (u : Usage) : M unit :=
  _ ← emitAssistantMessage intentID (fm_Text m) (fm_FinishReason m) "" u;
  if String.eqb (fm_Text m) "" then mret tt
  else l ← the_log; if history_ok l then perform (History "assistant" "" (fm_Text m) None "") else mret tt.

(** The loop over stages; [None] is the fuel running out. *)
Fixpoint turn_loop (fuel : nat) (intentID mode : string) (s : turn_state) (events : list AssistantEvent) : M (option unit) :=
  match fuel with
  | 0 => mret None
  | S fuel =>
      r ← consumeStage intentID mode s events;
      match r.2 with
      | Terminal m => _ ← finish_turn intentID m (t_usage r.1); mret (Some tt)
      | ChannelClosed =>
          _ ← emitAssistantMessage intentID "" "error" "translator closed without final message" (t_usage r.1); mret (Some tt)
      | NextStage events' => turn_loop fuel intentID mode r.1 events'
      end
  end.

(** [runIntent]: [window] and [stream] are the answers of the history store
    and of the translator. *)
Definition runIntent (fuel : nat) (intentID userText mode : string) (window : option string)
    (stream : result string (list AssistantEvent)) : M (option unit) :=
  l ← the_log;
  if negb (history_ok l) then _ ← emitAssistantMessage intentID "" "error" "history" no_usage; mret (Some tt)
  else
    _ ← perform (History "user" "" userText None "");
    match window with
    | Some err => _ ← emitAssistantMessage intentID "" "error" err no_usage; mret (Some tt)
    | None =>
        match stream with
        | Err err => _ ← emitAssistantMessage intentID "" "error" err no_usage; mret (Some tt)
        | Ok events =>
            turn_loop fuel intentID mode (mkTurnState 0 0 no_usage (NewRetryBudget (tc_MaxAutoRetries tc)) []) events
        end
    end.
End intent.
