(* ===== verification/IntentSpec.v ===== *)
(** * What a turn guarantees

    Theorems about Intent.v in the logic of ServerSpec.v: a tool call is
    announced with redacted arguments and answered by one result, reaches the
    dispatcher only through every gate, and a turn ends with one terminal frame
    and in bounded time when its tool calls keep failing. *)

From S2P Require Import Prelude GoString Event Paths Wire Utf8 Auth Sandbox Os Fsops FsopsSpec History Tools WorkerPool Approver Recovery Server ServerSpec Dispatcher Intent.

(** ** Kinds of effects *)

Definition is_history (e : effect) : Prop := match e with History _ _ _ _ _ => True | _ => False end.

(** What may follow the result of a call: its history, and a worker pool
    removing its worktrees. *)
Definition is_after (e : effect) : Prop :=
  match e with History _ _ _ _ _ | Host (GitRun _ _) => True | _ => False end.

Lemma history_after l : Forall is_history l -> Forall is_after l.
Proof. intros Hl. eapply Forall_impl; [exact Hl|]. by intros []. Qed.

Definition result_of (cmdID : string) (e : effect) : Prop := exists id p, e = Emit (mkFrame id cmdID (BResult p)).

(** What a tool call may do: anything but speak for the assistant. *)
Definition tool_effect (e : effect) : Prop :=
  match e with
  | Emit f => match f_Body f with BText _ | BThinking _ | BMessage _ | BReport _ => False | _ => True end
  | _ => True
  end.

Definition text_of (e : effect) : option AssistantChunkPayload :=
  match e with Emit (mkFrame _ _ (BText p)) => Some p | _ => None end.

Definition is_message (e : effect) : bool := match e with Emit (mkFrame _ _ (BMessage _)) => true | _ => false end.

Lemma progress_tool cmdID l : Forall (progress cmdID) l -> Forall tool_effect l.
Proof. intros Hl. eapply Forall_impl; [exact Hl|]. by intros x (i & [[p ->]|[p ->]]). Qed.

Lemma history_tool l : Forall is_history l -> Forall tool_effect l.
Proof. intros Hl. eapply Forall_impl; [exact Hl|]. by intros []. Qed.

Lemma after_tool l : Forall is_after l -> Forall tool_effect l.
Proof. intros Hl. eapply Forall_impl; [exact Hl|]. by intros []. Qed.

Lemma history_no_result cmdID l : Forall is_history l -> Forall (fun x => ~ result_of cmdID x) l.
Proof. intros Hl. eapply Forall_impl; [exact Hl|]. intros x Hx (i & p & ->). done. Qed.

Lemma progress_no_result cmdID l : Forall (progress cmdID) l -> Forall (fun x => ~ result_of cmdID x) l.
Proof. intros Hl. eapply Forall_impl; [exact Hl|]. intros x (i & [[p ->]|[p ->]]) (j & r & [=]). Qed.

Lemma tool_no_text l : Forall tool_effect l -> omap text_of l = [] /\ Forall (fun x => is_message x = false) l.
Proof.
  induction 1 as [|x l Hx _ [IH1 IH2]]; [done|]. destruct x as [[i c b]| | | | | |]; simpl in *; try (split; [done|by constructor]).
  destruct b; try done; (split; [done|by constructor]).
Qed.

(** ** The dispatcher *)

(** What a turn relies on: the dispatcher keeps the runner contract. *)
Class DispatchContract (D : list effect -> Call -> string -> result gerror (list ExecChunk)) : Prop :=
  dispatch_contract : forall l c mode ch, D l c mode = Ok ch -> contract ch.

Section composite.
Context {R : Type} `{RunnerContract R}.
Variable enc : encoders.
Variables flt flt_restore : faults.
Variable sandbox_effect : ExecRequest -> FS -> FS.
Variable docs_Fetch : string -> result gerror (option string).
Variable github_Call : ToolCall -> DispatchOptions -> result gerror (list ExecChunk).
Variable d : CompositeDispatcher (R := R).
Variables timeout maxResult : Z.
Variable sid : string.
Variable at_ : list effect -> dstate * cancels.

(** Step 4 of [runToolCall]: the options it builds.  [at_] is the workspace, the
    reference buffer and the cancellation the call meets. *)
Definition composite_dispatch (l : list effect) (c : Call) (mode : string) : result gerror (list ExecChunk) :=
  (Dispatcher.Dispatch enc flt flt_restore sandbox_effect docs_Fetch github_Call d (at_ l).2 (mkCall (call_Tool c) (call_Args c))
     (mkOpts "" timeout sid (mkLimits 0 0) maxResult mode) (at_ l).1).2.

(** The composite dispatcher discharges what a turn relies on. *)
#[export] Instance composite_contract :
  (forall call opts l, github_Call call opts = Ok l -> contract l) -> DispatchContract composite_dispatch.
Proof. intros Hgh l c mode ch. by apply Dispatch_contract. Qed.
End composite.

(** ** The other handlers *)

(** A call starts when it reaches the dispatcher or one of the other handlers. *)
Definition is_start (e : effect) : Prop := match e with Dispatched _ _ | Delegate _ _ => True | _ => False end.

(** What happens between the start of command [cmdID] and its result. *)
Definition quiet (cmdID : string) (e : effect) : Prop := tool_effect e /\ ~ result_of cmdID e /\ ~ is_start e.

(** The run of a handler: one result, then history and cleanup. *)
Definition handler_run (cmdID : string) (l : list effect) : Prop :=
  exists pre t hist, l = pre ++ t :: hist /\ Forall (quiet cmdID) pre /\ result_of cmdID t /\ Forall is_after hist.

(** [cmdID] was minted before. *)
Definition older (NewID : nat -> string) (cmdID : string) (w : world) : Prop := exists k, k < minted_ids w /\ cmdID = NewID k.

(** [emits] from the worlds where [cmdID] is not fresh. *)
Definition emits_older {A} (NewID : nat -> string) (cmdID : string) (m : M A) (Q : list effect -> A -> Prop) : Prop :=
  forall w, older NewID cmdID w -> exists n l, minted_ids w <= n /\ (m w).1 = mkWorld n (slots w) (elog w ++ l) /\ Q l (m w).2.

Lemma emits_emits_older {A} NewID cmdID (m : M A) Q : emits m Q -> emits_older NewID cmdID m Q.
Proof. intros Hm w _. apply Hm. Qed.

Lemma emits_older_bind {A B} NewID cmdID (m : M A) (f : A -> M B) Q1 (Q : list effect -> B -> Prop) :
  emits_older NewID cmdID m Q1 -> (forall l1 a, Q1 l1 a -> emits_older NewID cmdID (f a) (fun l2 b => Q (l1 ++ l2) b)) ->
  emits_older NewID cmdID (m ≫= f) Q.
Proof.
  intros Hm Hf w Hw. destruct (Hm w Hw) as (n1 & l1 & Hn1 & E1 & HQ1). unfold mbind, M_bind. destruct (m w) as [w1 a]. simpl in *. subst w1.
  destruct (Hf l1 a HQ1 (mkWorld n1 (slots w) (elog w ++ l1))) as (n2 & l2 & Hn2 & E2 & HQ2).
  { destruct Hw as (k & Hk & ->). exists k. simpl. split; [lia|done]. }
  simpl in *. exists n2, (l1 ++ l2). rewrite app_assoc. split_and!; [lia|done|done].
Qed.

Lemma emits_older_impl {A} NewID cmdID (m : M A) (Q Q' : list effect -> A -> Prop) :
  emits_older NewID cmdID m Q -> (forall l a, Q l a -> Q' l a) -> emits_older NewID cmdID m Q'.
Proof. intros Hm Hi w Hw. destruct (Hm w Hw) as (n & l & Hn & E & HQ). eauto 6. Qed.

(** A fresh id is old from then on. *)
Lemma emits_mint {A} NewID (f : string -> M A) Q :
  (forall cmdID, emits_older NewID cmdID (f cmdID) Q) -> emits (new_id NewID ≫= f) Q.
Proof.
  intros Hf w. unfold mbind, M_bind, new_id. destruct (Hf (NewID (minted_ids w)) (mkWorld (S (minted_ids w)) (slots w) (elog w))) as (n & l & Hn & E & HQ).
  { exists (minted_ids w). simpl. split; [lia|done]. }
  simpl in *. exists n, l. split_and!; [lia|done|done].
Qed.

(** What a turn relies on: the handlers answer for the calls delegated to them. *)
Class DelegateContract (NewID : nat -> string) (D : string -> string -> Call -> M outcome) : Prop :=
  delegate_contract : forall intentID cmdID c, emits_older NewID cmdID (D intentID cmdID c) (fun l _ => handler_run cmdID l).

Section turn.
Variable NewID : nat -> string.
Variable elapsed : nat -> Z.
Variable answer : string -> await_result.
Variable flt : faults.
Variable cf : server_config.
Variable fs : FS.
Variable tc : turn_config.
Variable url_Parse : string -> option (string * string).
Variable Dispatch : list effect -> Call -> string -> result gerror (list ExecChunk).
Variable delegate : string -> string -> Call -> M outcome.
Variable history_ok : list effect -> bool.
Variable cost : Usage -> float64.

(** ** Pieces of a tool call *)

Lemma emits_log (Q : list effect -> list effect -> Prop) : (forall l, Q [] l) -> emits the_log Q.
Proof. intros HQ w. exists (minted_ids w), []. rewrite app_nil_r. by destruct w. Qed.

Lemma history_append_spec role c a code :
  emits (history_append history_ok role c a code) (fun l _ => Forall is_history l).
Proof.
  eapply emits_bind; [by apply (emits_log (fun l _ => l = []))|]. intros l0 lg ->.
  destruct (history_ok lg); [|by apply emits_ret].
  eapply (emits_bind _ _ (fun l _ => Forall is_history l)); [apply emits_perform; by repeat constructor|].
  intros l1 [] Hl1. apply emits_ret. simpl. by rewrite app_nil_r.
Qed.

Lemma appendToolTurns_spec c out code :
  emits (appendToolTurns history_ok c out code) (fun l _ => Forall is_history l).
Proof.
  eapply emits_bind; [apply history_append_spec|]. intros l1 [] Hl1; [|apply emits_ret; by rewrite app_nil_r].
  eapply (emits_bind _ _ (fun l _ => Forall is_history l)); [apply history_append_spec|].
  intros l2 b Hl2. apply emits_ret. rewrite app_nil_r. by apply Forall_app.
Qed.

Lemma refuse_spec cmdID c code msg ok :
  emits (refuse NewID elapsed history_ok cmdID c code msg ok) (fun l o =>
    exists t hist, l = t :: hist /\ result_of cmdID t /\ Forall is_history hist /\ o_ok o = ok /\ tr_Error (o_result o) = code /\ o_exit o = (-1)%Z).
Proof.
  eapply (emits_bind _ _ (fun l _ => exists t, l = [t] /\ result_of cmdID t)).
  { apply emits_result. intros id dur. eexists. split; [done|]. by eexists _, _. }
  intros l1 [] (t & -> & Ht). eapply emits_bind; [apply appendToolTurns_spec|]. intros hist [] Hh.
  apply emits_ret. exists t, hist. by rewrite app_nil_r.
Qed.

(** A stream that keeps the runner contract. *)
Lemma tool_loop_spec cmdID q k out x :
  Forall (fun c => is_output c = true) out -> is_exit x = true ->
  emits (tool_loop NewID elapsed cmdID q k (out ++ [x])) (fun l k' =>
    exists pre t, l = pre ++ [t] /\ Forall (progress cmdID) pre /\ result_of cmdID t /\ (k_exit k', k_code k', k_msg k') = classifyExit x).
Proof.
  intros Ho Hx. revert q k. induction Ho as [|c out Hc _ IH]; intros q k; simpl.
  - unfold is_exit in Hx. destruct (Stream x); try done. destruct (classifyExit x) as [[code ec] em] eqn:Ex.
    eapply (emits_bind _ _ (fun l _ => exists t, l = [t] /\ result_of cmdID t)).
    { apply emits_result. intros id dur. eexists. split; [done|]. by eexists _, _. }
    intros l [] (t & -> & Ht). apply emits_ret. exists [], t. done.
  - unfold is_output in Hc. destruct (Stream c) eqn:Es; try done.
    all: eapply emits_bind; [apply emits_chunk|]; intros l1 q' (H1 & _ & _);
      eapply emits_impl; [apply IH|]; intros l2 k' (pre & t & -> & Hp & Ht & Hk);
      exists (l1 ++ pre), t; rewrite app_assoc; split_and!; try done; by apply Forall_app.
Qed.

(** ** The shape of a tool call *)

(** The effect that starts the call. *)
Definition starts (cmdID : string) (c : Call) (x : effect) : Prop :=
  x = Dispatched (call_Tool c) (call_Args c) \/ x = Delegate (call_Tool c) cmdID.

(** What follows the announcement of command [cmdID]. *)
Inductive call_run (c : Call) (mode cmdID : string) : list effect -> Prop :=
| cr_refused pre t hist :
    (pre = [] \/ pre = [AuditDeny (call_Tool c)] \/ turned_away answer cmdID (call_Tool c) (call_Args c) pre) ->
    result_of cmdID t -> Forall is_history hist -> call_run c mode cmdID (pre ++ t :: hist)
| cr_started lg x run :
    HasToolScope (tc_Scopes tc) (call_Tool c) = true -> is_ok (Validate url_Parse validateDispatchWorkerPool (call_Tool c) (call_Args c)) = true ->
    String.eqb mode ModeAudit && IsMutatingTool (tc_destructive tc) (call_Tool c) = false ->
    let_through answer (tc_policy tc) cmdID (call_Tool c) (call_Args c) lg ->
    starts cmdID c x -> handler_run cmdID run ->
    call_run c mode cmdID (lg ++ x :: run).

Definition announces (intentID cmdID : string) (c : Call) (e : effect) : Prop :=
  e = Emit (mkFrame cmdID intentID (BRequest (mkRequestPayload (call_Tool c) (default [] (RedactArgs (Some (call_Args c)))) "" 0))).

Context `{Hdispatch : !DispatchContract Dispatch, Hdelegate : !DelegateContract NewID delegate}.

Lemma progress_quiet cmdID l : Forall (progress cmdID) l -> Forall (quiet cmdID) l.
Proof.
  intros Hl. eapply Forall_impl; [exact Hl|]. intros x (i & [[p ->]|[p ->]]); (split_and!; [done|by intros (? & ? & [=])|by intros []]).
Qed.

(** The calls that go through the dispatcher. *)
Lemma dispatch_run cmdID c mode :
  emits (l ← the_log;
         _ ← perform (Dispatched (call_Tool c) (call_Args c));
         match Dispatch l c mode with
         | Err e => refuse NewID elapsed history_ok cmdID c (dispatch_code e) (emsg e) true
         | Ok ch =>
             k ← tool_loop NewID elapsed cmdID (mkSeqs 0 0) (mkCollected "" "" 0 "" "") ch;
             _ ← appendToolTurns history_ok c (Some (tool_output k)) (k_code k);
             mret (mkOutcome (mkToolResult (call_ID c) (call_Tool c) (Some (tool_output k)) None (k_code k)) (k_err k) (k_exit k) (k_msg k) true)
         end)
    (fun l _ => exists run, l = Dispatched (call_Tool c) (call_Args c) :: run /\ handler_run cmdID run).
Proof.
  eapply emits_bind; [by apply (emits_log (fun l _ => l = []))|]. intros l2 lg2 ->.
  eapply (emits_bind _ _ (fun l _ => l = [Dispatched (call_Tool c) (call_Args c)])); [by apply emits_perform|]. intros l [] ->. simpl.
  destruct (Dispatch lg2 c mode) as [ch|er] eqn:Hdis.
  - destruct (dispatch_contract _ _ _ _ Hdis) as (out & x & -> & Hx & Ho).
    eapply emits_bind; [by apply tool_loop_spec|]. intros lb k (pre & t & -> & Hp & Ht & _).
    eapply emits_bind; [apply appendToolTurns_spec|]. intros hist [] Hh. apply emits_ret.
    rewrite app_nil_r, <-!app_assoc. eexists. split; [done|]. exists pre, t, hist. split_and!; [done|by apply progress_quiet|done|by apply history_after].
  - eapply emits_impl; [apply refuse_spec|]. intros l o (t & hist & -> & Ht & Hh & _). eexists. split; [done|]. exists [], t, hist. split_and!; [done..|by apply history_after].
Qed.

Lemma runToolCall_spec intentID c mode :
  emits (runToolCall NewID elapsed answer flt cf fs tc url_Parse Dispatch delegate history_ok intentID c mode) (fun l _ =>
    exists cmdID e rest, l = e :: rest /\ announces intentID cmdID c e /\ call_run c mode cmdID rest).
Proof.
  unfold runToolCall. apply emits_mint. intros cmdID.
  eapply (emits_older_bind _ _ _ _ (fun l _ => exists e, l = [e] /\ announces intentID cmdID c e)); [apply emits_emits_older, emits_perform; by eexists|].
  intros l1 [] (e & -> & He). simpl.
  assert (forall A (m : M A) pre, emits_older NewID cmdID m (fun l _ => call_run c mode cmdID (pre ++ l)) ->
    emits_older NewID cmdID m (fun l _ => exists cmdID' e0 rest, e :: pre ++ l = e0 :: rest /\ announces intentID cmdID' c e0 /\ call_run c mode cmdID' rest)) as Hwrap.
  { intros A m pre Hm. eapply emits_older_impl; [exact Hm|]. intros l a Hl. by exists cmdID, e, (pre ++ l). }
  assert (forall pre code msg ok, (pre = [] \/ pre = [AuditDeny (call_Tool c)] \/ turned_away answer cmdID (call_Tool c) (call_Args c) pre) ->
    emits_older NewID cmdID (refuse NewID elapsed history_ok cmdID c code msg ok) (fun l _ => call_run c mode cmdID (pre ++ l))) as Hrefuse.
  { intros pre code msg ok Hpre. apply emits_emits_older. eapply emits_impl; [apply refuse_spec|]. intros l o (t & hist & -> & Ht & Hh & _). by apply cr_refused. }
  apply (Hwrap _ _ []). destruct (HasToolScope (tc_Scopes tc) (call_Tool c)) eqn:Hscope; cbn [negb].
  2:{ eapply (emits_older_bind _ _ _ _ (fun l _ => l = [AuditDeny (call_Tool c)])); [by apply emits_emits_older, emits_perform|]. intros l [] ->.
      apply (Hrefuse [AuditDeny (call_Tool c)]); auto. }
  destruct (Validate url_Parse validateDispatchWorkerPool (call_Tool c) (call_Args c)) as [?|msg] eqn:Hval; [|apply (Hrefuse []); auto].
  destruct (String.eqb mode ModeAudit && _) eqn:Haudit; [apply (Hrefuse []); auto|].
  eapply emits_older_bind; [apply emits_emits_older, requestApproval_spec|]. intros lg [[[code msg] cx]|] Hlg; [apply (Hrefuse lg); auto|].
  destruct (is_delegated (call_Tool c)) eqn:Hd.
  - eapply (emits_older_bind _ _ _ _ (fun l _ => l = [Delegate (call_Tool c) cmdID])); [by apply emits_emits_older, emits_perform|]. intros l [] ->.
    eapply emits_older_impl; [apply delegate_contract|]. intros run o Hrun. simpl. apply cr_started; try done; [by rewrite Hval|by right].
  - apply emits_emits_older. eapply emits_impl; [apply dispatch_run|]. intros l o (run & -> & Hrun). apply cr_started; try done; [by rewrite Hval|by left].
Qed.

Lemma let_through_not (P : effect -> Prop) cmdID tool a lg :
  (forall id p, ~ P (Emit (mkFrame id cmdID (BApproval p)))) -> let_through answer (tc_policy tc) cmdID tool a lg -> Forall (fun x => ~ P x) lg.
Proof. intros HP [[_ ->]|(id & (pl & -> & _) & _)]; [done|]. repeat constructor. apply HP. Qed.

Lemma refused_not (P : effect -> Prop) cmdID tool a pre :
  (forall id p, ~ P (Emit (mkFrame id cmdID (BApproval p)))) -> ~ P (AuditDeny tool) ->
  (pre = [] \/ pre = [AuditDeny tool] \/ turned_away answer cmdID tool a pre) -> Forall (fun x => ~ P x) pre.
Proof. intros HP Hd [->|[->|[->|(id & (pl & -> & _) & _)]]]; [done|by repeat constructor|done|repeat constructor; apply HP]. Qed.

Lemma handler_run_not_start cmdID run x : handler_run cmdID run -> x ∈ run -> ~ is_start x.
Proof.
  intros (pre & t & hist & -> & Hp & (i & p & ->) & Hh) [Hin|[->|Hin]%elem_of_cons]%elem_of_app; [|simpl; tauto|].
  - rewrite Forall_forall in Hp. by apply Hp.
  - rewrite Forall_forall in Hh. specialize (Hh _ Hin). destruct x as [| | | | | |[]]; simpl in *; tauto.
Qed.

(** C3: the model's tool calls pass every gate: whatever the translator asks
    for, a call that reaches the dispatcher or the daemon, language-server and
    worker-pool handlers is the call it announced to the client (with its
    arguments redacted on the wire and intact in dispatch), for a tool the
    client's token allows, with arguments that validate, not a mutating tool in
    audit mode, and, if the policy names the tool, right after an approval
    request for this command that was granted. *)
Theorem model_calls_pass_every_gate (intentID : string) (c : Call) (mode : string) (w : world) (l : list effect) (x : effect) :
  elog (runToolCall NewID elapsed answer flt cf fs tc url_Parse Dispatch delegate history_ok intentID c mode w).1 = elog w ++ l ->
  x ∈ l -> is_start x ->
  HasToolScope (tc_Scopes tc) (call_Tool c) = true /\ is_ok (Validate url_Parse validateDispatchWorkerPool (call_Tool c) (call_Args c)) = true /\
  (mode = ModeAudit -> IsMutatingTool (tc_destructive tc) (call_Tool c) = false) /\
  exists cmdID e rest, l = e :: rest /\ announces intentID cmdID c e /\ starts cmdID c x /\
    ((RequiresApproval (tc_policy tc) (call_Tool c)).1 = true -> exists id pl after,
       rest = Emit (mkFrame id cmdID (BApproval pl)) :: x :: after /\ answer id = Granted /\
       ta_Args pl = default [] (RedactArgs (Some (call_Args c)))).
Proof.
  intros El Hin Hx. destruct (runToolCall_spec intentID c mode w) as (n & l' & _ & E & cmdID & e & rest & -> & He & Hrun).
  rewrite E in El. simpl in El. apply app_inv_head in El as <-.
  apply elem_of_cons in Hin as [->|Hin]; [by rewrite He in Hx|].
  destruct Hrun as [pre y hist Hpre Hy Hh|lg y run Hs Hv Ha Hlg Hst Hrun].
  - exfalso. apply elem_of_app in Hin as [Hin|[->|Hin]%elem_of_cons].
    + apply (refused_not is_start) in Hpre; [|by intros ? ? []|by intros []]. rewrite Forall_forall in Hpre. by apply (Hpre x).
    + destruct Hy as (? & ? & ->). done.
    + rewrite Forall_forall in Hh. specialize (Hh _ Hin). by destruct x.
  - assert (x = y) as ->.
    { apply elem_of_app in Hin as [Hin|[->|Hin]%elem_of_cons]; [|done|by apply handler_run_not_start with (x := x) in Hrun].
      apply (let_through_not is_start) in Hlg; [|by intros ? ? []]. rewrite Forall_forall in Hlg. by destruct (Hlg x Hin). }
    split_and!; try done; [intros ->; simpl in Ha; exact Ha|]. exists cmdID, e. eexists. split_and!; try done. intros Hreq.
    destruct Hlg as [[Hf _]|(id & (pl & -> & _ & Hargs) & Hans)]; [congruence|]. exists id, pl. eexists. done.
Qed.

(** every announced tool call is answered once: after its command.request
    the log holds exactly one command.result for it, whichever gate refused it,
    dispatch failed, the tool ran to its end or another handler took it, the
    tool was only ever started before that result, and after it come only history
    entries and a worker pool's cleanup. *)
Theorem model_call_has_one_result (intentID : string) (c : Call) (mode : string) (w : world) :
  exists cmdID e before r hist,
    elog (runToolCall NewID elapsed answer flt cf fs tc url_Parse Dispatch delegate history_ok intentID c mode w).1 = elog w ++ e :: before ++ r :: hist /\
    announces intentID cmdID c e /\ result_of cmdID r /\
    Forall (fun x => ~ result_of cmdID x) before /\ Forall is_after hist.
Proof.
  destruct (runToolCall_spec intentID c mode w) as (n & l & _ & E & cmdID & e & rest & -> & He & Hrun). rewrite E. simpl.
  destruct Hrun as [pre x hist Hpre Hx Hh|lg x run Hs Hv Ha Hlg Hst (pre & t & hist & -> & Hp & Ht & Hh)].
  - exists cmdID, e, pre, x, hist. split_and!; try done; [|by apply history_after].
    eapply refused_not; [| |exact Hpre]; intros; intros (? & ? & [=]).
  - exists cmdID, e, (lg ++ x :: pre), t, hist. rewrite <-app_assoc. split_and!; try done.
    apply Forall_app. split; [eapply let_through_not; [|exact Hlg]; intros; intros (? & ? & [=])|].
    constructor; [destruct Hst as [->| ->]; intros (? & ? & [=])|]. eapply Forall_impl; [exact Hp|]. by intros y (_ & ? & _).
Qed.

(** ** Stages and turns *)

Lemma call_run_tool c mode cmdID rest : call_run c mode cmdID rest -> Forall tool_effect rest.
Proof.
  assert (forall id tool a lg, asked cmdID tool a id lg -> Forall tool_effect lg) as Hasked.
  { intros id tool a lg (pl & -> & _). by repeat constructor. }
  assert (forall x, result_of cmdID x -> tool_effect x) as Hres by (by intros x (i & p & ->)).
  intros [pre x hist Hpre Hx Hh|lg x run Hs Hv Ha Hlg Hst (pre & t & hist & -> & Hp & Ht & Hh)].
  - apply Forall_app. split; [|constructor; [auto|by apply history_tool]].
    destruct Hpre as [->|[->|[->|(id & Hask & _)]]]; try done; [by repeat constructor|by eapply Hasked].
  - apply Forall_app. split; [destruct Hlg as [[_ ->]|(id & Hask & _)]; [done|by eapply Hasked]|].
    constructor; [by destruct Hst as [->| ->]|]. apply Forall_app. split; [eapply Forall_impl; [exact Hp|]; by intros y (? & _)|].
    constructor; [auto|by apply after_tool].
Qed.

Lemma runToolCall_tool intentID c mode :
  emits (runToolCall NewID elapsed answer flt cf fs tc url_Parse Dispatch delegate history_ok intentID c mode) (fun l _ => Forall tool_effect l).
Proof.
  eapply emits_impl; [apply runToolCall_spec|]. intros l o (cmdID & e & rest & -> & He & Hrun).
  constructor; [unfold announces in He; by subst e|by eapply call_run_tool].
Qed.

Variable resume : list ToolResult -> option (list AssistantEvent).

(** The text frames of a stage continue the turn's numbering. *)
Definition numbered (from : nat) (l : list effect) (upto : nat) : Prop :=
  exists n, ac_Seq <$> omap text_of l = Z.of_nat <$> seq from n /\ upto = from + n.

Lemma numbered_nil n l : omap text_of l = [] -> numbered n l n.
Proof. intros E. exists 0. rewrite E. split; [done|lia]. Qed.

Lemma numbered_app a l b k c : numbered a l b -> numbered b k c -> numbered a (l ++ k) c.
Proof.
  intros (n & H1 & ->) (m & H2 & ->). exists (n + m). split; [|lia]. by rewrite omap_app, fmap_app, H1, H2, seq_app, fmap_app.
Qed.

Definition stage_post (s : turn_state) (l : list effect) (r : turn_state * stage_end) : Prop :=
  numbered (t_seq s) l (t_seq r.1) /\ Forall (fun x => is_message x = false) l.

Lemma tool_stage_spec intentID mode s c :
  emits (tool_stage NewID elapsed answer flt cf fs tc url_Parse Dispatch delegate history_ok resume intentID mode s c) (stage_post s).
Proof.
  eapply emits_bind; [apply runToolCall_tool|]. intros l o [H1 H2]%tool_no_text.
  assert (forall r, t_seq r.1 = t_seq s -> stage_post s (l ++ []) r) as Hret.
  { intros r Hr. rewrite app_nil_r. split; [|done]. rewrite Hr. by apply numbered_nil. }
  destruct (negb (o_ok o)); [by apply emits_ret, Hret|].
  destruct (ShouldAutoRetry _ _); [|by apply emits_ret, Hret].
  destruct (Consume (t_budget s)) as [b remaining]. destruct (negb remaining); [|by apply emits_ret, Hret].
  cbv zeta. match goal with |- context [BReport ?p] => set (rep := p) end.
  eapply (emits_bind _ _ (fun l _ => exists id, l = [Emit (mkFrame id intentID (BReport rep))])); [apply emits_reply; eauto|].
  intros l2 [] (id & ->). apply emits_ret. rewrite app_nil_r. split.
  - apply numbered_nil. by rewrite omap_app, H1.
  - apply Forall_app. split; [done|by repeat constructor].
Qed.

Lemma stage_post_cons s s' e l r n :
  numbered (t_seq s) [e] n -> t_seq s' = n -> is_message e = false -> stage_post s' l r -> stage_post s (e :: l) r.
Proof.
  intros Hn Hs He [H1 H2]. split; [|by constructor]. change (e :: l) with ([e] ++ l). eapply numbered_app; [exact Hn|]. by rewrite <-Hs.
Qed.

Lemma consumeStage_spec intentID mode s events :
  emits (consumeStage NewID elapsed answer flt cf fs tc url_Parse Dispatch delegate history_ok resume intentID mode s events) (stage_post s).
Proof.
  revert s. induction events as [|ev rest IH]; intros s; cbn [consumeStage].
  { apply emits_ret. split; [by apply numbered_nil|done]. }
  destruct (ev_Err ev); [apply emits_ret; split; [by apply numbered_nil|done]|].
  destruct (negb (String.eqb (ev_Text ev) "")).
  { eapply (emits_bind _ _ (fun l _ => exists id, l = [Emit (mkFrame id intentID (BText (mkAssistantChunk (Z.of_nat (t_seq s)) (ev_Text ev))))]));
      [apply emits_reply; eauto|].
    intros l [] (id & ->). eapply emits_impl; [apply IH|]. intros l2 r H2. simpl.
    eapply (stage_post_cons s (with_seq s (S (t_seq s)))); [exists 1; split; [done|reflexivity]|simpl; lia|done|done]. }
  destruct (negb (String.eqb (ev_Thinking ev) "")).
  { eapply (emits_bind _ _ (fun l _ => exists id, l = [Emit (mkFrame id intentID (BThinking (mkAssistantChunk (Z.of_nat (t_think s)) (ev_Thinking ev))))]));
      [apply emits_reply; eauto|].
    intros l [] (id & ->). eapply emits_impl; [apply IH|]. intros l2 r H2. simpl.
    eapply (stage_post_cons s (with_think s (S (t_think s)))); [by apply numbered_nil|done|done|done]. }
  destruct (ev_Usage ev) as [u|]; [eapply emits_impl; [apply IH|]; done|].
  destruct (ev_ToolCall ev) as [c|]; [apply tool_stage_spec|].
  destruct (ev_Final ev) as [m|]; [apply emits_ret; split; [by apply numbered_nil|done]|apply IH].
Qed.

(** One terminal frame, after everything else of the turn. *)
Definition closed_turn (intentID : string) (l : list effect) : Prop :=
  exists pre id p hist, l = pre ++ Emit (mkFrame id intentID (BMessage p)) :: hist /\
    Forall (fun x => is_message x = false) pre /\ Forall is_history hist.

Lemma emits_message intentID text reason err u :
  emits (emitAssistantMessage NewID cost intentID text reason err u) (fun l _ => exists id p, l = [Emit (mkFrame id intentID (BMessage p))]).
Proof. apply emits_reply. eauto. Qed.

Lemma turn_loop_spec fuel intentID mode s events :
  emits (turn_loop NewID elapsed answer flt cf fs tc url_Parse Dispatch delegate history_ok cost resume fuel intentID mode s events) (fun l r =>
    (exists m, numbered (t_seq s) l m) /\ (r = Some tt -> closed_turn intentID l)).
Proof.
  revert s events. induction fuel as [|fuel IH]; intros s events; cbn [turn_loop].
  { apply emits_ret. split; [exists (t_seq s); by apply numbered_nil|done]. }
  eapply emits_bind; [apply consumeStage_spec|]. intros l [s' en] [Hn Hm]. simpl.
  destruct en as [m|events'|].
  - eapply (emits_bind _ _ (fun k _ => exists id p hist, k = Emit (mkFrame id intentID (BMessage p)) :: hist /\ Forall is_history hist)).
    { unfold finish_turn. eapply emits_bind; [apply emits_message|]. intros k [] (id & p & ->).
      destruct (String.eqb (fm_Text m) ""); [apply emits_ret; by exists id, p, []|].
      eapply emits_bind; [by apply (emits_log (fun l _ => l = []))|]. intros k lg ->.
      destruct (history_ok lg); [apply emits_perform; exists id, p; eexists; split; [done|by repeat constructor]|].
      apply emits_ret. by exists id, p, []. }
    intros k [] (id & p & hist & -> & Hh). apply emits_ret. rewrite app_nil_r. split; [|intros _; by exists l, id, p, hist].
    exists (t_seq s'). eapply numbered_app; [exact Hn|]. apply numbered_nil. simpl. by destruct (tool_no_text hist (history_tool hist Hh)).
  - eapply emits_impl; [apply IH|]. intros k r [[m Hk] Hc]. split; [exists m; by eapply numbered_app|].
    intros Hr. destruct (Hc Hr) as (pre & id & p & hist & -> & Hp & Hh). exists (l ++ pre), id, p, hist. rewrite app_assoc.
    split_and!; try done. by apply Forall_app.
  - eapply emits_bind; [apply emits_message|]. intros k [] (id & p & ->). apply emits_ret. rewrite app_nil_r.
    split; [exists (t_seq s'); eapply numbered_app; [exact Hn|by apply numbered_nil]|]. intros _. by exists l, id, p, [].
Qed.

Ltac monad_step := unfold mbind, M_bind.

Definition no_calls (events : list AssistantEvent) : Prop := Forall (fun ev => ev_ToolCall ev = None) events.

(** A stage is followed by another only after a tool call whose result went to
    [resume]. *)
Lemma stage_next intentID mode s events w s' next :
  (consumeStage NewID elapsed answer flt cf fs tc url_Parse Dispatch delegate history_ok resume intentID mode s events w).2 = (s', NextStage next) ->
  ~ no_calls events /\ exists r, t_results s' = t_results s ++ [r] /\ resume (t_results s') = Some next.
Proof.
  revert s w. induction events as [|ev rest IH]; intros s w; cbn [consumeStage]; [done|].
  assert (forall s1 w1, t_results s1 = t_results s ->
    (consumeStage NewID elapsed answer flt cf fs tc url_Parse Dispatch delegate history_ok resume intentID mode s1 rest w1).2 = (s', NextStage next) ->
    ~ no_calls (ev :: rest) /\ exists r, t_results s' = t_results s ++ [r] /\ resume (t_results s') = Some next) as Hrest.
  { intros s1 w1 E Hr. destruct (IH s1 w1 Hr) as [Hn Hres]. rewrite E in Hres. split; [|done]. intros Hc. apply Forall_cons in Hc as [_ Hc]. done. }
  destruct (ev_Err ev); [done|].
  destruct (negb (String.eqb (ev_Text ev) "")); [monad_step; destruct (reply _ _ _ w) as [w' []]; by apply Hrest|].
  destruct (negb (String.eqb (ev_Thinking ev) "")); [monad_step; destruct (reply _ _ _ w) as [w' []]; by apply Hrest|].
  destruct (ev_Usage ev) as [u|]; [by apply Hrest|].
  destruct (ev_ToolCall ev) as [c|] eqn:Ec; [|destruct (ev_Final ev); [done|by apply Hrest]].
  intros Hr. split; [intros Hc; apply Forall_cons in Hc as [Hc _]; congruence|]. revert Hr.
  unfold tool_stage. monad_step. destruct (runToolCall _ _ _ _ _ _ _ _ _ _ _ _ _ _ w) as [w' o].
  destruct (o_ok o); [|done]. cbn [negb]. destruct (ShouldAutoRetry _ _).
  - unfold Consume. destruct (max (t_budget s) <=? used (t_budget s))%Z; simpl; [done|]. destruct (resume (t_results s ++ _)) eqn:Er; [|done].
    intros [= <- <-]. eexists. split; [reflexivity|exact Er].
  - simpl. destruct (resume (t_results s ++ _)) eqn:Er; [|done]. intros [= <- <-]. eexists. split; [reflexivity|exact Er].
Qed.

Lemma turn_loop_total N fuel intentID mode s events w :
  (forall rs evs, N <= length rs -> resume rs = Some evs -> no_calls evs) ->
  0 < fuel -> N < fuel + length (t_results s) -> (N <= length (t_results s) -> no_calls events) ->
  (turn_loop NewID elapsed answer flt cf fs tc url_Parse Dispatch delegate history_ok cost resume fuel intentID mode s events w).2 = Some tt.
Proof.
  intros Hstop. revert s events w. induction fuel as [|fuel IH]; intros s events w Hf Hlen Hev; [lia|]. cbn [turn_loop].
  pose proof (stage_next intentID mode s events w) as Hstage. monad_step.
  destruct (consumeStage _ _ _ _ _ _ _ _ _ _ _ _ _ _ _ _ w) as [w' [s' en]]. simpl in *. destruct en as [m|next|].
  - by destruct (finish_turn _ _ _ _ _ _ w') as [w'' []].
  - destruct (Hstage s' next eq_refl) as (Hc & r & Hres & Hnext).
    destruct (decide (N <= length (t_results s))) as [Hle|Hgt]; [by destruct (Hc (Hev Hle))|].
    assert (length (t_results s') = S (length (t_results s))) as El by (rewrite Hres, length_app; simpl; lia).
    apply IH; [lia|lia|]. intros Hle. by apply (Hstop (t_results s')).
  - done.
Qed.

Lemma runIntent_spec fuel intentID userText mode window stream :
  emits (runIntent NewID elapsed answer flt cf fs tc url_Parse Dispatch delegate history_ok cost resume fuel intentID userText mode window stream)
    (fun l r => (exists m, numbered 0 l m) /\ (r = Some tt -> closed_turn intentID l)).
Proof.
  unfold runIntent. eapply emits_bind; [by apply (emits_log (fun l _ => l = []))|]. intros l lg ->. simpl.
  assert (forall err, emits (emitAssistantMessage NewID cost intentID "" "error" err no_usage ≫= fun _ => mret (Some tt))
    (fun l r => (exists m, numbered 0 l m) /\ (r = Some tt -> closed_turn intentID l))) as Herr.
  { intros err. eapply emits_bind; [apply emits_message|]. intros l [] (id & p & ->). apply emits_ret.
    split; [exists 0; by apply numbered_nil|]. intros _. by exists [], id, p, []. }
  destruct (negb (history_ok lg)); [apply Herr|].
  eapply (emits_bind _ _ (fun l _ => l = [History "user" "" userText None ""])); [by apply emits_perform|]. intros l [] ->.
  assert (forall (m : M (option unit)), emits m (fun l r => (exists m, numbered 0 l m) /\ (r = Some tt -> closed_turn intentID l)) ->
    emits m (fun l r => (exists m, numbered 0 ([History "user" "" userText None ""] ++ l) m) /\ (r = Some tt -> closed_turn intentID ([History "user" "" userText None ""] ++ l)))) as Hpre.
  { intros m Hm. eapply emits_impl; [exact Hm|]. intros l o [[n Hn] Hc]. split; [exists n; eapply numbered_app; [by apply numbered_nil|done]|].
    intros Ho. destruct (Hc Ho) as (pre & id & p & hist & -> & Hp & Hh). eexists (_ :: pre), id, p, hist. split_and!; try done. by constructor. }
  apply Hpre. destruct window; [apply Herr|]. destruct stream; [|apply Herr]. eapply emits_impl; [apply turn_loop_spec|]. done.
Qed.

Lemma runIntent_total (N : nat) (intentID userText mode : string) (window : option string) (stream : result string (list AssistantEvent)) (w : world) :
  (forall rs evs, N < length rs -> resume rs = Some evs -> no_calls evs) ->
  (runIntent NewID elapsed answer flt cf fs tc url_Parse Dispatch delegate history_ok cost resume (S (S N)) intentID userText mode window stream w).2 = Some tt.
Proof.
  intros Hstop. assert (S N < S (S N)) as Hf by lia. revert Hf. generalize (S (S N)). intros fuel Hf. unfold runIntent. monad_step. simpl.
  destruct (negb (history_ok (elog w))); [done|]. destruct window; [done|]. destruct stream; [|done].
  apply (turn_loop_total (S N)); [|lia|simpl; lia|simpl; lia]. intros rs evs Hle. apply Hstop. lia.
Qed.

(** C13: a turn ends, and closes exactly once: with a translator that asks for
    no more tools once it has more than [N] results, whatever else it streams
    and however its tool calls end, the turn is over after at most [N + 2]
    stages, and then its log holds exactly one assistant.message, correlated to
    the intent and followed by history entries only, and its assistant.chunk
    frames are numbered 0, 1, 2, ... across all its stages. *)
Theorem turn_closes_exactly_once (N : nat) (intentID userText mode : string) (window : option string)
    (stream : result string (list AssistantEvent)) (w : world) :
  (forall rs evs, N < length rs -> resume rs = Some evs -> no_calls evs) ->
  let r := runIntent NewID elapsed answer flt cf fs tc url_Parse Dispatch delegate history_ok cost resume (S (S N)) intentID userText mode window stream w in
  r.2 = Some tt /\
  exists l, elog r.1 = elog w ++ l /\ closed_turn intentID l /\ exists n, ac_Seq <$> omap text_of l = Z.of_nat <$> seq 0 n.
Proof.
  intros Hstop r. assert (r.2 = Some tt) as Hr by (by apply runIntent_total).
  split; [done|]. destruct (runIntent_spec (S (S N)) intentID userText mode window stream w) as (n & l & _ & E & (m & k & Hk & _) & Hc).
  exists l. unfold r in *. rewrite E. split; [done|]. split; [by apply Hc|]. by exists k.
Qed.

(** *** A turn whose tools keep failing *)

(** The calls a translator asks for. *)
Variable asks : Call -> Prop.

Definition only_asks (events : list AssistantEvent) : Prop := Forall (fun ev => forall c, ev_ToolCall ev = Some c -> asks c) events.

(** Each of them is aborted or fails in a way that is retried. *)
Definition always_fails (intentID mode : string) : Prop := forall c w, asks c ->
  let o := (runToolCall NewID elapsed answer flt cf fs tc url_Parse Dispatch delegate history_ok intentID c mode w).2 in
  o_ok o = true -> ShouldAutoRetry (o_exit o) (tr_Error (o_result o)) = true.

Hypothesis resume_asks : forall rs events, resume rs = Some events -> only_asks events.

(** A stage that is followed by another one has used up one attempt. *)
Lemma stage_consumes intentID mode s events w s' next :
  always_fails intentID mode -> only_asks events ->
  (consumeStage NewID elapsed answer flt cf fs tc url_Parse Dispatch delegate history_ok resume intentID mode s events w).2 = (s', NextStage next) ->
  ((used (t_budget s) < max (t_budget s))%Z /\ used (t_budget s') = (used (t_budget s) + 1)%Z /\ max (t_budget s') = max (t_budget s)) /\ only_asks next.
Proof.
  intros Hfail. revert s w. induction events as [|ev rest IH]; intros s w Hasks; cbn [consumeStage]; [done|].
  apply Forall_cons in Hasks as [Hev Hasks].
  destruct (ev_Err ev); [done|].
  destruct (negb (String.eqb (ev_Text ev) "")).
  { monad_step. destruct (reply _ _ _ w) as [w' []]. intros Hr. exact (IH _ _ Hasks Hr). }
  destruct (negb (String.eqb (ev_Thinking ev) "")).
  { monad_step. destruct (reply _ _ _ w) as [w' []]. intros Hr. exact (IH _ _ Hasks Hr). }
  destruct (ev_Usage ev) as [u|]; [intros Hr; exact (IH _ _ Hasks Hr)|].
  destruct (ev_ToolCall ev) as [c|]; [|destruct (ev_Final ev); [done|intros Hr; exact (IH _ _ Hasks Hr)]].
  unfold tool_stage. specialize (Hfail c w (Hev c eq_refl)). monad_step.
  destruct (runToolCall _ _ _ _ _ _ _ _ _ _ _ _ _ _ w) as [w' o]. simpl in Hfail.
  destruct (o_ok o); [|done]. rewrite Hfail by done. simpl. unfold Consume.
  destruct (Z.leb_spec (max (t_budget s)) (used (t_budget s))); simpl.
  - done.
  - destruct (resume _) as [evs|] eqn:Er; [|done]. intros [= <- <-]. split; [simpl; split_and!; [done|lia|done]|by eapply resume_asks].
Qed.

Lemma failing_loop fuel intentID mode s events w :
  always_fails intentID mode -> only_asks events ->
  (max (t_budget s) - used (t_budget s) < Z.of_nat fuel)%Z -> (used (t_budget s) <= max (t_budget s))%Z ->
  (turn_loop NewID elapsed answer flt cf fs tc url_Parse Dispatch delegate history_ok cost resume fuel intentID mode s events w).2 = Some tt.
Proof.
  intros Hfail. revert s events w. induction fuel as [|fuel IH]; intros s events w Hasks Hlt Hle; [lia|]. cbn [turn_loop].
  pose proof (stage_consumes intentID mode s events w) as Hstage. monad_step.
  destruct (consumeStage _ _ _ _ _ _ _ _ _ _ _ _ _ _ _ _ w) as [w' [s' en]]. simpl in *. destruct en as [m|next|].
  - monad_step. by destruct (finish_turn _ _ _ _ _ _ w') as [w'' []].
  - destruct (Hstage s' next Hfail Hasks eq_refl) as ((H1 & H2 & H3) & Hn). apply IH; [done|lia|lia].
  - done.
Qed.

(** C25: auto-recovery cannot loop: if every tool call the translator asks for
    is aborted or fails in a way that is retried, the turn ends after at most
    [MaxAutoRetries + 1] stages, however often it asks again. *)
Theorem failing_turn_terminates (intentID userText mode : string) (window : option string)
    (stream : result string (list AssistantEvent)) (w : world) :
  always_fails intentID mode -> (forall events, stream = Ok events -> only_asks events) ->
  (runIntent NewID elapsed answer flt cf fs tc url_Parse Dispatch delegate history_ok cost resume
     (S (Z.to_nat (Z.max 0 (tc_MaxAutoRetries tc)))) intentID userText mode window stream w).2 = Some tt.
Proof.
  intros Hfail Hs.
  assert (Z.max 0 (tc_MaxAutoRetries tc) < Z.of_nat (S (Z.to_nat (Z.max 0 (tc_MaxAutoRetries tc)))))%Z as Hf by lia.
  revert Hf. generalize (S (Z.to_nat (Z.max 0 (tc_MaxAutoRetries tc)))). intros fuel Hf. unfold runIntent. monad_step. simpl. destruct (negb (history_ok (elog w))).
  { done. }
  monad_step. simpl. destruct window; [done|].
  destruct stream; [|done].
  apply failing_loop; [done|by apply Hs| |]; simpl; destruct (Z.ltb_spec (tc_MaxAutoRetries tc) 0); lia.
Qed.
End turn.

(** ** Concrete runs *)

Definition demo_ids (n : nat) : string := str_concat (replicate (S n) "i").

(** A translator that asks for a script again and again. *)
Definition demo_call : Call := mkToolCall "c1" "execute_script" [("script", AStr "API_KEY=abc make"); ("token", AStr "t")].
Definition ask : AssistantEvent := mkEvent "" "" (Some demo_call) None None None.
Definition say (s : string) : AssistantEvent := mkEvent s "" None None None None.
Definition stubborn (_ : list ToolResult) : option (list AssistantEvent) := Some [say "again"; ask].

Definition demo_tc : turn_config := mkTurnConfig (NewPolicyApprover ["execute_script"] false 0) None None ["tools:execute_script"] 2.

(** The composite dispatcher over a sandbox whose scripts fail. *)
Definition no_url (_ : string) : option (string * string) := None.
Definition demo_dispatch : list effect -> Call -> string -> result gerror (list ExecChunk) :=
  composite_dispatch (R := scripted) demo_encoders no_faults no_faults (fun _ fs => fs) (fun _ => Ok None) (fun _ _ => Err (other "off"))
    demo_dispatcher 0 0 "s" (fun _ => (mkD demo_fs NewReferenceBuffer, no_cancel)).
Definition demo_delegate (_ cmdID : string) (c : Call) : M outcome :=
  refuse demo_ids (fun _ => 0%Z) (fun _ => true) cmdID c SandboxErrBadRequest "not enabled" true.
Definition demo_cf : server_config := mkServerConfig 30 0 60000 0.

Abbreviation demo_run f := (f demo_ids (fun _ => 0%Z) (fun _ => Granted) no_faults demo_cf (∅ : FS) demo_tc no_url demo_dispatch demo_delegate (fun _ => true)).

#[export] Instance demo_delegate_contract : DelegateContract demo_ids demo_delegate.
Proof.
  intros intentID cmdID c. apply emits_emits_older. eapply emits_impl; [apply refuse_spec|].
  intros l o (t & hist & -> & Ht & Hh & _). exists [], t, hist; split_and!; [done..|by apply history_after].
Qed.

#[export] Instance demo_contract : DispatchContract demo_dispatch.
Proof. by apply composite_contract. Qed.

Lemma model_calls_pass_every_gate_witness :
  let w := (demo_run runToolCall "intent" demo_call "" (mkWorld 0 None [])).1 in
  exists id cmdID e pl after, elog w = e :: Emit (mkFrame id cmdID (BApproval pl)) :: Dispatched "execute_script" (call_Args demo_call) :: after /\
    announces "intent" cmdID demo_call e.
Proof.
  intros w.
  destruct (model_calls_pass_every_gate demo_ids (fun _ => 0%Z) (fun _ => Granted) no_faults demo_cf (∅ : FS) demo_tc no_url demo_dispatch demo_delegate (fun _ => true)
    "intent" demo_call "" (mkWorld 0 None []) (elog w) (Dispatched "execute_script" (call_Args demo_call)) eq_refl)
    as (_ & _ & _ & cmdID & e & rest & El & He & _ & Hg).
  { vm_compute. apply list_elem_of_further, list_elem_of_further, list_elem_of_here. }
  { done. }
  destruct (Hg ltac:(vm_compute; reflexivity)) as (id & pl & after & -> & _). exists id, cmdID, e, pl, after. split; [exact El|exact He].
Defined.

(** A translator that fixes its script after the first failure. *)
Definition learns (rs : list ToolResult) : option (list AssistantEvent) :=
  match rs with [_] => Some [say "again"; ask] | _ => Some [say "done"; mkEvent "" "" None (Some (mkFinal "done" "stop" no_usage)) None None] end.

Lemma turn_closes_exactly_once_witness :
  exists l n, elog (demo_run runIntent (fun _ => fzero) learns 3 "intent" "hello" "" None (Ok [say "ok"; ask]) (mkWorld 0 None [])).1 = l /\
    closed_turn "intent" l /\ ac_Seq <$> omap text_of l = Z.of_nat <$> seq 0 n.
Proof.
  destruct (turn_closes_exactly_once demo_ids (fun _ => 0%Z) (fun _ => Granted) no_faults demo_cf (∅ : FS) demo_tc no_url demo_dispatch demo_delegate (fun _ => true)
    (fun _ => fzero) learns 1 "intent" "hello" "" None (Ok [say "ok"; ask]) (mkWorld 0 None [])) as (_ & l & El & Hc & n & Hn).
  { intros [|r1 [|r2 rs]] evs Hlen; simpl in Hlen; try lia. intros [= <-]. by repeat constructor. }
  exists l, n. split; [exact El|]. split; [exact Hc|exact Hn].
Defined.

Lemma failing_turn_terminates_witness :
  (demo_run runIntent (fun _ => fzero) stubborn 3 "intent" "hello" "" None (Ok [say "ok"; ask]) (mkWorld 0 None [])).2 = Some tt.
Proof.
  apply (failing_turn_terminates demo_ids (fun _ => 0%Z) (fun _ => Granted) no_faults demo_cf (∅ : FS) demo_tc no_url demo_dispatch demo_delegate (fun _ => true)
    (fun _ => fzero) stubborn (fun c => c = demo_call)).
  - intros rs events [= <-]. repeat constructor; by intros c [= <-].
  - intros c w -> o Ho. destruct w as [n s lg]. reflexivity.
  - intros events [= <-]. repeat constructor; by intros c [= <-].
Defined.
