(* ===== verification/HostTools.v ===== *)
(** * Daemon and language-server calls (internal/wsserver/daemon.go, lsp.go)

    The tools that bypass the sandbox and the dispatcher, for a client's direct
    command.request and for a model's tool call, as programs of Server.v's
    monad.  The daemon registry and the language servers answer through
    parameters that may depend on everything done so far (Daemon.v and Lsp.v
    model them); the effects [Host (StartDaemon ...)], [Host (StopDaemon ...)]
    and [Host (LspQueryOp ...)] record what was asked of them.

    The contracts that ServerSpec.v and IntentSpec.v require of these handlers
    are proved here. *)

From S2P Require Import Prelude GoString Event Paths Wire Utf8 Auth Sandbox Daemon Os Fsops Tools WorkerPool Approver Recovery LspWire Lsp Server ServerSpec Intent IntentSpec.

Definition nl_str : string := String (ascii_of_nat 10) "".

(** [args[key].(string)] with the other assertions of lsp.go. *)
Definition lspIntArg (a : args) (key : string) : Z := default 0%Z (argInt a key).

Definition daemonWorkingDir (p : CommandRequestPayload) : string :=
  let wd := arg_string_or_empty (rq_Args p) "working_dir" in
  if String.eqb wd "" then rq_WorkingDir p else wd.

(** ** The stream of a daemon *)

Definition stream_key (s : option stream) : string := match s with Some st => stream_name st | None => "" end.

(** The system.log_event payloads of a daemon's lines, numbered per stream. *)
Fixpoint log_events (daemonID : string) (q : gmap string nat) (lines : list LogLine) : list SystemLogEventPayload :=
  match lines with
  | [] => []
  | l :: rest =>
      let k := stream_key (ll_stream l) in
      let n := default 0 (q !! k) in
      mkLogEvent daemonID k (Z.of_nat n) (ToValidUTF8 (ll_data l) RuneError) (ll_closed l) (ll_exit l) (ll_reason l)
        :: log_events daemonID (<[k := S n]> q) rest
  end.

(** Per stream, the events are numbered without gaps and carry the lines. *)
Lemma log_events_spec daemonID q lines k :
  let mine := filter (fun p => le_Stream p = k) (log_events daemonID q lines) in
  le_Seq <$> mine = Z.of_nat <$> seq (default 0 (q !! k)) (length mine) /\
  le_Line <$> mine = (fun l => ToValidUTF8 (ll_data l) RuneError) <$> filter (fun l => stream_key (ll_stream l) = k) lines.
Proof.
  revert q. induction lines as [|l lines IH]; intros q; [done|]. cbn [log_events].
  destruct (decide (stream_key (ll_stream l) = k)) as [Hk|Hk].
  - rewrite !filter_cons_True by done. destruct (IH (<[stream_key (ll_stream l) := S (default 0 (q !! stream_key (ll_stream l)))]> q)) as [H1 H2].
    rewrite Hk in *. rewrite lookup_insert_eq in H1. simpl in *. split; [by f_equal|by f_equal].
  - rewrite !filter_cons_False by done. destruct (IH (<[stream_key (ll_stream l) := S (default 0 (q !! stream_key (ll_stream l)))]> q)) as [H1 H2].
    by rewrite lookup_insert_ne in H1.
Qed.

Section handlers.
Variable NewID : nat -> string.
Variable elapsed : nat -> Z.
Variable answer : string -> await_result.
Variable flt : faults.
Variable cf : server_config.
Variable fs : FS.
Variable url_Parse : string -> option (string * string).
Variable history_ok : list effect -> bool.
Variable sid : string.

(** [s.daemons], [s.lsp] and [s.mw]; [None] when not configured. *)
Variable daemons_on : bool.
Variable lsp : option LSPRegistry.
Variable gated : option (policy * option Engine).

Variable daemon_start : list effect -> string -> string -> string -> result gerror unit.
Variable daemon_stop : list effect -> string -> bool.
Variable daemon_list : list effect -> list any.
Variable json_Marshal : any -> option string.
Variable json_object : string -> option args.               (* json.Unmarshal into a map *)
Variable lsp_GetOrStart : list effect -> string -> result string unit.
Variable lsp_Query : list effect -> string -> LSPQuery -> result gerror string.

(** *** Shared pieces *)

Definition emitStdoutChunk (reqID text : string) : M unit :=
  _ ← emitChunk NewID reqID (stdout_chunk text) (mkSeqs 0 0); mret tt.

(** The slot is held only across the spawn. *)
Definition startDaemonAndStream (command workingDir : string) : M (result (string * string) string) :=
  ok ← acquire;
  if negb (ok : bool) then mret (Err (SandboxErrUnavailable, "sandbox at capacity"))
  else
    r ← (daemonID ← new_id NewID;
         l ← the_log;
         _ ← perform (Host (StartDaemon daemonID sid command workingDir));
         mret (match daemon_start l daemonID command workingDir with
               | Err e => Err (dispatch_code e, emsg e)
               | Ok _ => Ok daemonID
               end));
    _ ← release;
    mret r.

Definition daemons_json (l : list any) : any := AMap [("daemons", AArr l)].

(** *** A client's command.request *)

Definition handleListDaemons (reqID : string) : M unit :=
  l ← the_log;
  match json_Marshal (daemons_json (daemon_list l)) with
  | None => emitResult NewID elapsed reqID (-1) SandboxErrInternal "json"
  | Some body => _ ← emitStdoutChunk reqID body; emitResult NewID elapsed reqID 0 "" ""
  end.

Definition stop_daemon (id : string) : M bool :=
  l ← the_log; _ ← perform (Host (StopDaemon sid id)); mret (daemon_stop l id).

Definition handleStopDaemon (reqID : string) (p : CommandRequestPayload) : M unit :=
  let id := arg_string_or_empty (rq_Args p) "daemon_id" in
  stopped ← stop_daemon id;
  if negb (stopped : bool) then emitResult NewID elapsed reqID (-1) SandboxErrBadRequest ("no such daemon for this session: " +:+ id)
  else _ ← emitStdoutChunk reqID ("daemon stopped: " +:+ id +:+ nl_str); emitResult NewID elapsed reqID 0 "" "".

Definition handleMonitorDaemon (reqID : string) (p : CommandRequestPayload) : M unit :=
  match gated with
  | None => emitResult NewID elapsed reqID (-1) SandboxErrUnauthorized "monitor_daemon requires the approval gate; middleware is not configured"
  | Some (pol, fsops) =>
      verdict ← requestApproval NewID answer flt cf pol fsops fs reqID ToolMonitorDaemon (rq_Args p);
      match verdict with
      | Some (code, msg, _) => emitResult NewID elapsed reqID (-1) code msg
      | None =>
          r ← startDaemonAndStream (arg_string_or_empty (rq_Args p) "command") (daemonWorkingDir p);
          match r with
          | Err (code, msg) => emitResult NewID elapsed reqID (-1) code msg
          | Ok id => _ ← emitStdoutChunk reqID ("daemon started: " +:+ id +:+ nl_str); emitResult NewID elapsed reqID 0 "" ""
          end
      end
  end.

(** With the goroutine it starts, run to its end. *)
Definition handleDaemonCommand (reqID : string) (p : CommandRequestPayload) : M unit :=
  if negb daemons_on then
    emitResult NewID elapsed reqID (-1) SandboxErrBadRequest "monitor_daemon is not enabled; set NOMADDEV_DAEMON_MONITOR_ENABLED=true"
  else match Validate url_Parse validateDispatchWorkerPool (rq_Tool p) (rq_Args p) with
       | Err e => emitResult NewID elapsed reqID (-1) SandboxErrBadRequest e
       | Ok _ =>
           if String.eqb (rq_Tool p) ToolListDaemons then handleListDaemons reqID
           else if String.eqb (rq_Tool p) ToolStopDaemon then handleStopDaemon reqID p
           else handleMonitorDaemon reqID p
       end.

(** *** Language-server queries *)

Definition lsp_query_of (a : args) (absPath : string) : LSPQuery :=
  mkQuery (arg_string_or_empty a "operation") absPath (lspIntArg a "line") (lspIntArg a "character")
    (arg_string_or_empty a "query") (default false (argBool a "include_declaration")).

Definition executeLSPQuery (g : LSPRegistry) (a : args) : M (result (string * string) string) :=
  let path := arg_string_or_empty a "path" in
  let lang := let l := arg_string_or_empty a "lang" in if String.eqb l "" && negb (String.eqb path "") then LangFromPath path else l in
  if String.eqb lang "" then mret (Err (SandboxErrBadRequest, "could not determine the language from the path; pass an explicit 'lang'"))
  else match (if String.eqb path "" then Ok "" else ResolvePath g sid path) with
       | Err e => mret (Err (SandboxErrBadRequest, emsg e))
       | Ok absPath =>
           l ← the_log;
           match lsp_GetOrStart l lang with
           | Err e => mret (Err (SandboxErrBadRequest, e))
           | Ok _ =>
               let q := lsp_query_of a absPath in
               _ ← perform (Host (LspQueryOp sid lang (q_Operation q) absPath));
               mret (match lsp_Query l lang q with
                     | Ok out => Ok out
                     | Err e => match kind e with
                                | KDeadlineExceeded => Err (SandboxErrTimeout, "lsp_query timed out")
                                | KCtxCanceled => Err (SandboxErrCanceled, "client disconnected")
                                | _ => Err (SandboxErrInternal, emsg e)
                                end
                     end)
           end
       end.

Definition handleLSPCommand (reqID : string) (p : CommandRequestPayload) : M unit :=
  match Validate url_Parse validateDispatchWorkerPool (rq_Tool p) (rq_Args p) with
  | Err e => emitResult NewID elapsed reqID (-1) SandboxErrBadRequest e
  | Ok _ =>
      match lsp with
      | None => emitResult NewID elapsed reqID (-1) SandboxErrBadRequest "lsp_query is not available: no workspace is configured"
      | Some g =>
          r ← executeLSPQuery g (rq_Args p);
          match r with
          | Err (code, msg) => emitResult NewID elapsed reqID (-1) code msg
          | Ok body => _ ← emitStdoutChunk reqID body; emitResult NewID elapsed reqID 0 "" ""
          end
      end
  end.

(** The two branches of [handleCommandRequest]. *)
Definition handleDelegated (reqID : string) (p : CommandRequestPayload) : M unit :=
  if is_daemon_tool (rq_Tool p) then handleDaemonCommand reqID p else handleLSPCommand reqID p.

(** *** A model's tool call *)

Definition host_fail (cmdID : string) (c : Call) (code msg : string) : M outcome :=
  _ ← emitResult NewID elapsed cmdID (-1) code msg;
  let output := [("error_message", AStr msg)] in
  _ ← appendToolTurns history_ok c (Some output) code;
  mret (mkOutcome (mkToolResult (call_ID c) (call_Tool c) (Some output) None code) "" (-1) msg true).

Definition host_ok (cmdID : string) (c : Call) (output : args) : M outcome :=
  _ ← emitResult NewID elapsed cmdID 0 "" "";
  _ ← appendToolTurns history_ok c (Some output) "";
  mret (mkOutcome (mkToolResult (call_ID c) (call_Tool c) (Some output) None "") "" 0 "" true).

Definition runDaemonToolCall (cmdID : string) (c : Call) : M outcome :=
  if negb daemons_on then host_fail cmdID c SandboxErrBadRequest "monitor_daemon is not enabled; set NOMADDEV_DAEMON_MONITOR_ENABLED=true"
  else if String.eqb (call_Tool c) ToolListDaemons then
    l ← the_log;
    _ ← (match json_Marshal (daemons_json (daemon_list l)) with Some body => emitStdoutChunk cmdID body | None => mret tt end);
    host_ok cmdID c [("exit_code", AInt 0); ("daemons", AArr (daemon_list l))]
  else if String.eqb (call_Tool c) ToolStopDaemon then
    let id := arg_string_or_empty (call_Args c) "daemon_id" in
    stopped ← stop_daemon id;
    if negb (stopped : bool) then host_fail cmdID c SandboxErrBadRequest ("no such daemon for this session: " +:+ id)
    else _ ← emitStdoutChunk cmdID ("daemon stopped: " +:+ id +:+ nl_str);
         host_ok cmdID c [("exit_code", AInt 0); ("daemon_id", AStr id); ("status", AStr "stopped")]
  else if String.eqb (call_Tool c) ToolMonitorDaemon then
    r ← startDaemonAndStream (arg_string_or_empty (call_Args c) "command") (arg_string_or_empty (call_Args c) "working_dir");
    match r with
    | Err (code, msg) => host_fail cmdID c code msg
    | Ok id => _ ← emitStdoutChunk cmdID ("daemon started: " +:+ id +:+ nl_str);
               host_ok cmdID c [("exit_code", AInt 0); ("daemon_id", AStr id); ("status", AStr "started")]
    end
  else host_fail cmdID c SandboxErrBadRequest ("unknown daemon tool: " +:+ call_Tool c).

(** [output[k] = v] for every field of the answer. *)
Definition merge_args (base extra : args) : args :=
  filter (fun kv => arg_lookup extra kv.1 = None) base ++ extra.

Definition runLSPToolCall (cmdID : string) (c : Call) : M outcome :=
  match lsp with
  | None => host_fail cmdID c SandboxErrBadRequest "lsp_query is not available: no workspace is configured"
  | Some g =>
      r ← executeLSPQuery g (call_Args c);
      match r with
      | Err (code, msg) => host_fail cmdID c code msg
      | Ok body =>
          _ ← emitStdoutChunk cmdID body;
          host_ok cmdID c (match json_object body with Some parsed => merge_args [("exit_code", AInt 0)] parsed | None => [("exit_code", AInt 0)] end)
      end
  end.

(** ** Contracts *)

(** Running [m] in a slot. *)
Lemma with_slot_ret {A} (m : M A) (refused : A) Q :
  Q [] refused -> emits m Q ->
  emits (ok ← acquire; if negb (ok : bool) then mret refused else r ← m; _ ← release; mret r) Q.
Proof.
  intros Hr Hm [n s lg]. unfold acquire, mbind, M_bind. simpl. destruct s as [[|k]|]; simpl.
  - exists n, []. by rewrite app_nil_r.
  - destruct (Hm (mkWorld n (Some k) lg)) as (n' & l & Hn & E & HQ). destruct (m _) as [w' a]. simpl in *. subst w'. simpl. eauto 6.
  - destruct (Hm (mkWorld n None lg)) as (n' & l & Hn & E & HQ). destruct (m _) as [w' a]. simpl in *. subst w'. simpl. eauto 6.
Qed.

Lemma emits_the_log (Q : list effect -> list effect -> Prop) : (forall l, Q [] l) -> emits the_log Q.
Proof. intros HQ w. exists (minted_ids w), []. rewrite app_nil_r. by destruct w. Qed.

Lemma startDaemon_shape command wd :
  emits (startDaemonAndStream command wd) (fun l _ => l = [] \/ exists id, l = [Host (StartDaemon id sid command wd)]).
Proof.
  unfold startDaemonAndStream. apply with_slot_ret; [by left|].
  eapply emits_bind; [by apply (emits_new_id NewID (fun l _ => l = []))|]. intros l0 id ->.
  eapply emits_bind; [by apply (emits_the_log (fun l _ => l = []))|]. intros l1 lg ->.
  eapply (emits_bind _ _ (fun l _ => l = [Host (StartDaemon id sid command wd)])); [by apply emits_perform|].
  intros l2 [] ->. apply emits_ret. right. by exists id.
Qed.

Lemma startDaemon_spec command wd : emits (startDaemonAndStream command wd) (fun l _ => Forall host_only l).
Proof.
  eapply emits_impl; [apply startDaemon_shape|]. intros l r [->|[id ->]]; [done|]. repeat constructor. by eexists.
Qed.

Lemma stop_daemon_spec id : emits (stop_daemon id) (fun l _ => Forall host_only l).
Proof.
  eapply emits_bind; [by apply (emits_the_log (fun l _ => l = []))|]. intros l1 lg ->.
  eapply (emits_bind _ _ (fun l _ => Forall host_only l)); [apply emits_perform; repeat constructor; by eexists|].
  intros l2 [] Hl. apply emits_ret. by rewrite app_nil_r.
Qed.

Lemma executeLSPQuery_spec g a : emits (executeLSPQuery g a) (fun l _ => Forall host_only l).
Proof.
  unfold executeLSPQuery. destruct (String.eqb _ ""); [by apply emits_ret|]. destruct (if String.eqb _ "" then _ else _); [|by apply emits_ret].
  eapply emits_bind; [by apply (emits_the_log (fun l _ => l = []))|]. intros l1 lg ->.
  destruct (lsp_GetOrStart _ _); [|by apply emits_ret].
  eapply (emits_bind _ _ (fun l _ => Forall host_only l)); [apply emits_perform; repeat constructor; by eexists|].
  intros l2 [] Hl. apply emits_ret. by rewrite app_nil_r.
Qed.

Lemma emitStdoutChunk_spec reqID text : emits (emitStdoutChunk reqID text) (fun l _ => Forall (progress reqID) l).
Proof. eapply emits_bind; [apply emits_chunk|]. intros l q (Hl & _). apply emits_ret. by rewrite app_nil_r. Qed.

(** *** The direct path *)

(** Effects that may precede the result of [reqID]. *)
Definition before_result (reqID : string) (e : effect) : Prop := ~ terminal reqID e /\ forall r, e <> Execute r.

Lemma host_before reqID l : Forall host_only l -> Forall (before_result reqID) l.
Proof. intros Hl. eapply Forall_impl; [exact Hl|]. intros x [op ->]. split; [intros (i & [[? [=]]|[? [=]]])|done]. Qed.

Lemma progress_before reqID l : Forall (progress reqID) l -> Forall (before_result reqID) l.
Proof.
  intros Hl. eapply Forall_impl; [exact Hl|]. intros x (i & [[p ->]|[p ->]]); (split; [intros (j & [[? [=]]|[? [=]]])|done]).
Qed.

Lemma asked_before pend tool a id reqID l : asked pend tool a id l -> Forall (before_result reqID) l.
Proof. intros (pl & -> & _). repeat constructor; [intros (i & [[? [=]]|[? [=]]])|done]. Qed.

Lemma direct_result reqID code ec em : emits (emitResult NewID elapsed reqID code ec em) (fun l _ => direct_post reqID l).
Proof. apply emits_result. intros id dur. eexists [], _. split_and!; [done|apply terminal_result|constructor|constructor]. Qed.

Lemma direct_bind {A} (m : M A) (f : A -> M unit) reqID :
  emits m (fun l _ => Forall (before_result reqID) l) -> (forall a, emits (f a) (fun l _ => direct_post reqID l)) ->
  emits (m ≫= f) (fun l _ => direct_post reqID l).
Proof.
  intros Hm Hf. eapply emits_bind; [exact Hm|]. intros l1 a Hl1. eapply emits_impl; [apply Hf|].
  intros l2 [] (pre & t & -> & Ht & H1 & H2). exists (l1 ++ pre), t. rewrite app_assoc. split_and!; try done; apply Forall_app; (split; [|done]);
    eapply Forall_impl; try exact Hl1; by intros x [? ?].
Qed.

Lemma direct_chunk reqID text : emits (_ ← emitStdoutChunk reqID text; emitResult NewID elapsed reqID 0 "" "") (fun l _ => direct_post reqID l).
Proof.
  apply direct_bind; [|intros _; apply direct_result]. eapply emits_impl; [apply emitStdoutChunk_spec|]. intros l [] Hl. by apply progress_before.
Qed.

Lemma host_bind {A} (m : M A) (f : A -> M unit) reqID :
  emits m (fun l _ => Forall host_only l) -> (forall a, emits (f a) (fun l _ => direct_post reqID l)) -> emits (m ≫= f) (fun l _ => direct_post reqID l).
Proof. intros Hm. apply direct_bind. eapply emits_impl; [exact Hm|]. intros l a. apply host_before. Qed.

Lemma handleDelegated_contract reqID p : emits (handleDelegated reqID p) (fun l _ => direct_post reqID l).
Proof.
  unfold handleDelegated. destruct (is_daemon_tool _).
  - unfold handleDaemonCommand. destruct daemons_on; [|apply direct_result]. simpl.
    destruct (Validate _ _ _ _); [|apply direct_result]. destruct (String.eqb _ ToolListDaemons); [|destruct (String.eqb _ ToolStopDaemon)].
    + unfold handleListDaemons. apply host_bind; [by apply emits_the_log|]. intros l. destruct (json_Marshal _); [apply direct_chunk|apply direct_result].
    + unfold handleStopDaemon. apply host_bind; [apply stop_daemon_spec|]. intros []; [apply direct_chunk|apply direct_result].
    + unfold handleMonitorDaemon. destruct gated as [[pol fsops]|]; [|apply direct_result]. apply direct_bind.
      * eapply emits_impl; [apply requestApproval_spec|]. intros l [[[? ?] ?]|] Hl.
        -- destruct Hl as [->|(id & Hask & _)]; [done|by eapply asked_before].
        -- destruct Hl as [[_ ->]|(id & Hask & _)]; [done|by eapply asked_before].
      * intros [[[code msg] cx]|]; [apply direct_result|]. apply host_bind; [apply startDaemon_spec|].
        intros [id|[code msg]]; [apply direct_chunk|apply direct_result].
  - unfold handleLSPCommand. destruct (Validate _ _ _ _); [|apply direct_result]. destruct lsp as [g|]; [|apply direct_result].
    apply host_bind; [apply executeLSPQuery_spec|]. intros [body|[code msg]]; [apply direct_chunk|apply direct_result].
Qed.

(** *** The translator's path *)

Definition host_run (cmdID : string) (l : list effect) : Prop :=
  exists pre t hist, l = pre ++ t :: hist /\ Forall (fun x => host_only x \/ progress cmdID x) pre /\ result_of cmdID t /\ Forall is_history hist.

Lemma host_run_handler cmdID l : host_run cmdID l -> handler_run cmdID l.
Proof.
  intros (pre & t & hist & -> & Hp & Ht & Hh). exists pre, t, hist. split_and!; try done; [|by apply history_after]. eapply Forall_impl; [exact Hp|].
  intros x [[op ->]|Hx]; [split_and!; [done|by intros (? & ? & [=])|by intros []]|].
  assert (Forall (quiet cmdID) [x]) as [? _]%Forall_cons; [|done]. apply progress_quiet. by constructor.
Qed.

Lemma host_end (m : M outcome) cmdID :
  emits m (fun l _ => exists t hist, l = t :: hist /\ result_of cmdID t /\ Forall is_history hist) -> emits m (fun l _ => host_run cmdID l).
Proof. intros Hm. eapply emits_impl; [exact Hm|]. intros l o (t & hist & -> & ? & ?). by exists [], t, hist. Qed.

Lemma result_turns cmdID c out code ec em (o : outcome) ec' :
  emits (_ ← emitResult NewID elapsed cmdID code ec em; _ ← appendToolTurns history_ok c out ec'; mret o)
    (fun l _ => exists t hist, l = t :: hist /\ result_of cmdID t /\ Forall is_history hist).
Proof.
  eapply (emits_bind _ _ (fun l _ => exists t, l = [t] /\ result_of cmdID t)).
  { apply emits_result. intros id dur. eexists. split; [done|]. by eexists _, _. }
  intros l1 [] (t & -> & Ht). eapply emits_bind; [apply appendToolTurns_spec|]. intros hist [] Hh. apply emits_ret. exists t, hist. by rewrite app_nil_r.
Qed.

Lemma host_fail_run cmdID c code msg : emits (host_fail cmdID c code msg) (fun l _ => host_run cmdID l).
Proof. apply host_end, result_turns. Qed.

Lemma host_ok_run cmdID c out : emits (host_ok cmdID c out) (fun l _ => host_run cmdID l).
Proof. apply host_end, result_turns. Qed.

Lemma run_bind {A} (m : M A) (f : A -> M outcome) cmdID :
  emits m (fun l _ => Forall (fun x => host_only x \/ progress cmdID x) l) -> (forall a, emits (f a) (fun l _ => host_run cmdID l)) ->
  emits (m ≫= f) (fun l _ => host_run cmdID l).
Proof.
  intros Hm Hf. eapply emits_bind; [exact Hm|]. intros l1 a Hl1. eapply emits_impl; [apply Hf|].
  intros l2 o (pre & t & hist & -> & Hp & ?). exists (l1 ++ pre), t, hist. rewrite app_assoc. split_and!; try done; try apply H. by apply Forall_app.
Qed.

Lemma run_host {A} (m : M A) (f : A -> M outcome) cmdID :
  emits m (fun l _ => Forall host_only l) -> (forall a, emits (f a) (fun l _ => host_run cmdID l)) -> emits (m ≫= f) (fun l _ => host_run cmdID l).
Proof. intros Hm. apply run_bind. eapply emits_impl; [exact Hm|]. intros l a Hl. eapply Forall_impl; [exact Hl|]. by left. Qed.

Lemma run_chunk (f : M outcome) cmdID text :
  emits f (fun l _ => host_run cmdID l) -> emits (_ ← emitStdoutChunk cmdID text; f) (fun l _ => host_run cmdID l).
Proof. intros Hf. apply run_bind; [|done]. eapply emits_impl; [apply emitStdoutChunk_spec|]. intros l [] Hl. eapply Forall_impl; [exact Hl|]. by right. Qed.

Lemma runDaemonToolCall_run cmdID c : emits (runDaemonToolCall cmdID c) (fun l _ => host_run cmdID l).
Proof.
  unfold runDaemonToolCall. destruct daemons_on; [|apply host_fail_run]. simpl.
  destruct (String.eqb _ ToolListDaemons); [|destruct (String.eqb _ ToolStopDaemon); [|destruct (String.eqb _ ToolMonitorDaemon); [|apply host_fail_run]]].
  - apply run_host; [by apply emits_the_log|]. intros l. destruct (json_Marshal _); [apply run_chunk, host_ok_run|].
    apply run_host; [by apply emits_ret|]. intros []. apply host_ok_run.
  - apply run_host; [apply stop_daemon_spec|]. intros []; [apply run_chunk, host_ok_run|apply host_fail_run].
  - apply run_host; [apply startDaemon_spec|]. intros [id|[code msg]]; [apply run_chunk, host_ok_run|apply host_fail_run].
Qed.

Lemma runLSPToolCall_run cmdID c : emits (runLSPToolCall cmdID c) (fun l _ => host_run cmdID l).
Proof.
  unfold runLSPToolCall. destruct lsp as [g|]; [|apply host_fail_run].
  apply run_host; [apply executeLSPQuery_spec|]. intros [body|[code msg]]; [apply run_chunk, host_ok_run|apply host_fail_run].
Qed.

(** *** Consent for host processes *)

Definition spawns (e : effect) : Prop := exists id s cmd wd, e = Host (StartDaemon id s cmd wd).

(** A handler that starts no daemon. *)
Lemma no_spawn_result reqID code ec em : emits (emitResult NewID elapsed reqID code ec em) (fun l _ => Forall (fun x => ~ spawns x) l).
Proof. apply emits_result. intros id dur. repeat constructor. by intros (? & ? & ? & ? & [=]). Qed.

Lemma no_spawn_bind {A B} (m : M A) (f : A -> M B) :
  emits m (fun l _ => Forall (fun x => ~ spawns x) l) -> (forall a, emits (f a) (fun l _ => Forall (fun x => ~ spawns x) l)) ->
  emits (m ≫= f) (fun l _ => Forall (fun x => ~ spawns x) l).
Proof. intros Hm Hf. eapply emits_bind; [exact Hm|]. intros l1 a H1. eapply emits_impl; [apply Hf|]. intros l2 b H2. by apply Forall_app. Qed.

Lemma no_spawn_chunk reqID text : emits (_ ← emitStdoutChunk reqID text; emitResult NewID elapsed reqID 0 "" "") (fun l _ => Forall (fun x => ~ spawns x) l).
Proof.
  apply no_spawn_bind; [|intros; apply no_spawn_result]. eapply emits_impl; [apply emitStdoutChunk_spec|]. intros l [] Hl.
  eapply Forall_impl; [exact Hl|]. intros x (i & [[p ->]|[p ->]]); by intros (? & ? & ? & ? & [=]).
Qed.

(** What precedes a spawn: the verdict on this very command. *)
Definition consented (reqID : string) (p : CommandRequestPayload) (l : list effect) : Prop :=
  forall x, x ∈ l -> spawns x ->
    exists pol fsops lg id rest, gated = Some (pol, fsops) /\ let_through answer pol reqID ToolMonitorDaemon (rq_Args p) lg /\
      l = lg ++ x :: rest /\ x = Host (StartDaemon id sid (arg_string_or_empty (rq_Args p) "command") (daemonWorkingDir p)).

Lemma consented_none reqID p l : Forall (fun x => ~ spawns x) l -> consented reqID p l.
Proof. intros Hl x Hin Hs. rewrite Forall_forall in Hl. by destruct (Hl x Hin). Qed.

Lemma monitor_consented reqID p : emits (handleMonitorDaemon reqID p) (fun l _ => consented reqID p l).
Proof.
  unfold handleMonitorDaemon. destruct gated as [[pol fsops]|] eqn:Eg.
  2:{ eapply emits_impl; [apply no_spawn_result|]. intros l []. apply consented_none. }
  assert (forall lg, (lg = [] \/ exists i q, lg = [Emit (mkFrame i reqID (BApproval q))]) -> Forall (fun x => ~ spawns x) lg) as Hlgn.
  { intros lg [->|(i & q & ->)]; repeat constructor. by intros (? & ? & ? & ? & [=]). }
  eapply emits_bind; [apply requestApproval_spec|]. intros lg [[[code msg] cx]|] Hlg.
  { eapply emits_impl; [apply no_spawn_result|]. intros l [] Hl. apply consented_none, Forall_app. split; [|done]. apply Hlgn.
    destruct Hlg as [->|(i & (q & -> & _) & _)]; eauto. }
  assert (Forall (fun x => ~ spawns x) lg) as Hlg' by (apply Hlgn; destruct Hlg as [[_ ->]|(i & (q & -> & _) & _)]; eauto).
  eapply emits_bind; [apply startDaemon_shape|]. intros l1 r Hl1.
  assert (emits (match r with Err (code, msg) => emitResult NewID elapsed reqID (-1) code msg
                 | Ok id => _ ← emitStdoutChunk reqID ("daemon started: " +:+ id +:+ nl_str); emitResult NewID elapsed reqID 0 "" "" end)
    (fun l _ => Forall (fun x => ~ spawns x) l)) as Hend by (destruct r as [|[? ?]]; [apply no_spawn_chunk|apply no_spawn_result]).
  eapply emits_impl; [exact Hend|]. intros l2 [] Hl2 x Hin Hs.
  apply elem_of_app in Hin as [Hin|Hin]; [rewrite Forall_forall in Hlg'; by destruct (Hlg' x Hin)|].
  apply elem_of_app in Hin as [Hin|Hin]; [|rewrite Forall_forall in Hl2; by destruct (Hl2 x Hin)].
  destruct Hl1 as [->|[id ->]]; [by apply not_elem_of_nil in Hin|]. apply list_elem_of_singleton in Hin as ->.
  exists pol, fsops, lg, id, l2. done.
Qed.

Lemma no_spawn_left {A} (m : M A) (P : list effect -> Prop) :
  emits m (fun l _ => Forall (fun x => ~ spawns x) l) -> emits m (fun l _ => Forall (fun x => ~ spawns x) l \/ P l).
Proof. intros Hm. eapply emits_impl; [exact Hm|]. by left. Qed.

Lemma delegated_consented reqID p : emits (handleDelegated reqID p) (fun l _ =>
  Forall (fun x => ~ spawns x) l \/ is_ok (Validate url_Parse validateDispatchWorkerPool (rq_Tool p) (rq_Args p)) = true /\ daemons_on = true /\ consented reqID p l).
Proof.
  unfold handleDelegated. destruct (is_daemon_tool _).
  - unfold handleDaemonCommand. destruct daemons_on; simpl.
    2:{ apply no_spawn_left, no_spawn_result. }
    destruct (Validate _ _ _ _); [|apply no_spawn_left, no_spawn_result].
    destruct (String.eqb _ ToolListDaemons); [|destruct (String.eqb _ ToolStopDaemon)].
    + apply no_spawn_left. unfold handleListDaemons. apply no_spawn_bind; [by apply emits_the_log|]. intros l.
      destruct (json_Marshal _); [apply no_spawn_chunk|apply no_spawn_result].
    + apply no_spawn_left. unfold handleStopDaemon. apply no_spawn_bind.
      * eapply emits_bind; [by apply (emits_the_log (fun l _ => l = []))|]. intros l lg ->.
        eapply (emits_bind _ _ (fun l _ => Forall (fun x => ~ spawns x) l)); [apply emits_perform; repeat constructor; by intros (? & ? & ? & ? & [=])|].
        intros l2 [] Hl2. apply emits_ret. by rewrite app_nil_r.
      * intros []; [apply no_spawn_chunk|apply no_spawn_result].
    + eapply emits_impl; [apply monitor_consented|]. auto.
  - apply no_spawn_left. unfold handleLSPCommand. destruct (Validate _ _ _ _); [|apply no_spawn_result]. destruct lsp as [g|]; [|apply no_spawn_result].
    apply no_spawn_bind; [|intros [body|[code msg]]; [apply no_spawn_chunk|apply no_spawn_result]].
    unfold executeLSPQuery. destruct (String.eqb _ ""); [by apply emits_ret|]. destruct (if String.eqb _ "" then _ else _); [|by apply emits_ret].
    eapply emits_bind; [by apply (emits_the_log (fun l _ => l = []))|]. intros l1 lg ->.
    destruct (lsp_GetOrStart _ _); [|by apply emits_ret].
    eapply (emits_bind _ _ (fun l _ => Forall (fun x => ~ spawns x) l)); [apply emits_perform; repeat constructor; by intros (? & ? & ? & ? & [=])|].
    intros l2 [] Hl. apply emits_ret. by rewrite app_nil_r.
Qed.

(** C24: a host process needs consent: whenever a client's daemon command
    starts a process on the host, daemons are enabled, the arguments validate,
    the process is the client's own command for its own session, and, if the
    policy names monitor_daemon, the frame just before is an approval request
    for this command that was granted. *)
Theorem daemon_needs_consent (reqID : string) (p : CommandRequestPayload) (w : world) (l : list effect) (id s cmd wd : string) :
  elog (handleDelegated reqID p w).1 = elog w ++ l -> Host (StartDaemon id s cmd wd) ∈ l ->
  daemons_on = true /\ is_ok (Validate url_Parse validateDispatchWorkerPool (rq_Tool p) (rq_Args p)) = true /\
  s = sid /\ cmd = arg_string_or_empty (rq_Args p) "command" /\
  exists pol fsops, gated = Some (pol, fsops) /\
    ((RequiresApproval pol ToolMonitorDaemon).1 = true -> exists aid pl rest,
       l = Emit (mkFrame aid reqID (BApproval pl)) :: Host (StartDaemon id s cmd wd) :: rest /\ answer aid = Granted /\ ta_Tool pl = ToolMonitorDaemon).
Proof.
  intros El Hin. destruct (delegated_consented reqID p w) as (n & l' & _ & E & Hc). rewrite E in El. simpl in El. apply app_inv_head in El as <-.
  assert (spawns (Host (StartDaemon id s cmd wd))) as Hs by by eexists _, _, _, _.
  destruct Hc as [Hc|(Hv & Hd & Hc)]; [rewrite Forall_forall in Hc; by destruct (Hc _ Hin)|].
  destruct (Hc _ Hin Hs) as (pol & fsops & lg & id' & rest & Hg & Hlg & Hl & Hx). injection Hx as -> -> -> ->.
  split_and!; try done. exists pol, fsops. split; [done|]. intros Hreq.
  destruct Hlg as [[Hf _]|(aid & (pl & -> & Htool & _) & Hans)]; [congruence|]. exists aid, pl, rest. by rewrite Hl.
Qed.
End handlers.

(** ** Concrete runs *)

Definition demo_daemon_request : CommandRequestPayload := mkRequestPayload "monitor_daemon" [("command", AStr "npm run dev")] "" 0.

Abbreviation demo_host f := (f demo_ids (fun _ => 0%Z) (fun _ => Granted) no_faults demo_cf (∅ : FS) no_url "s" true (@None LSPRegistry)
  (Some (NewPolicyApprover ["monitor_daemon"] false 0, @None Engine)) (fun _ _ _ _ => Ok tt) (fun _ _ => true) (fun _ => []) (fun _ => Some "{}")
  (fun _ _ => Ok tt) (fun _ _ _ => Ok "{}")).

Lemma daemon_needs_consent_witness :
  let w := (demo_host handleDelegated "req" demo_daemon_request (mkWorld 0 (Some 1) [])).1 in
  exists aid pl rest id, elog w = Emit (mkFrame aid "req" (BApproval pl)) :: Host (StartDaemon id "s" "npm run dev" "") :: rest.
Proof.
  intros w.
  destruct (daemon_needs_consent demo_ids (fun _ => 0%Z) (fun _ => Granted) no_faults demo_cf (∅ : FS) no_url "s" true (@None LSPRegistry)
    (Some (NewPolicyApprover ["monitor_daemon"] false 0, @None Engine)) (fun _ _ _ _ => Ok tt) (fun _ _ => true) (fun _ => []) (fun _ => Some "{}")
    (fun _ _ => Ok tt) (fun _ _ _ => Ok "{}") "req" demo_daemon_request (mkWorld 0 (Some 1) []) (elog w) (demo_ids 2) "s" "npm run dev" "" eq_refl)
    as (_ & _ & _ & _ & pol & fsops & Hg & Ha).
  { vm_compute. apply list_elem_of_further, list_elem_of_here. }
  destruct Ha as (aid & pl & rest & El & _).
  { injection Hg as <- <-. vm_compute. reflexivity. }
  exists aid, pl, rest, (demo_ids 2). exact El.
Defined.

(** The direct command path with these handlers, on a daemon command. *)
Definition demo_daemon_payload : Unmarshal CommandRequestPayload := fun _ => Some demo_daemon_request.

Lemma command_request_answered_once_witness :
  let e := mkEnvelope "req" EventCommandRequest 0 "" (Some ANil) in
  let h := demo_host handleDelegated in
  let w' := (handleCommandRequest (R := MockRunner) (H0 := demo_daemon_payload) demo_ids (fun _ => 0%Z) (fun _ => 0) (fun _ => Granted) no_faults demo_cf h
    None None ∅ None "s" ["tools:*"] e (mkWorld 0 (Some 1) [])).1 in
  exists pre t, elog w' = pre ++ [t] /\ terminal "req" t /\ Forall (fun x => ~ terminal "req" x) pre.
Proof.
  intros e h w'.
  destruct (command_request_answered_once (R := MockRunner) (H0 := demo_daemon_payload) demo_ids (fun _ => 0%Z) (fun _ => 0) (fun _ => Granted) no_faults demo_cf h
    (fun reqID p => ltac:(apply handleDelegated_contract)) None None ∅ None "s" ["tools:*"] e (mkWorld 0 (Some 1) [])) as (_ & pre & t & El & Ht & Hf).
  exists pre, t. split; [exact El|]. split; [exact Ht|exact Hf].
Defined.
