(* ===== verification/Git.v ===== *)
(** * Git worktrees (internal/gitctl/git.go)

    [Repo]'s operations as programs of Server.v's monad: each runs git with the
    hardening flags, which the effect [Host (GitRun dir argv)] records.  What git
    answers is the parameter [git], which may depend on everything done before;
    so are the checks of [Open] and [os.MkdirAll]. *)

From S2P Require Import Prelude GoString GoConv Event Paths Sandbox Os Fsops Server ServerSpec Intent.

(** ** Pure parts *)

Definition worktreesDir : string := ".nomaddev-worktrees".

Definition hardened : list string :=
  ["-c"; "core.hooksPath=/dev/null"; "-c"; "user.name=nomaddev"; "-c"; "user.email=nomaddev@localhost"].

Inductive git_error := ErrNotARepo | ErrGitMissing | ErrMergeConflict | ErrGit (msg : string).

Definition git_msg (e : git_error) : string :=
  match e with
  | ErrNotARepo => "gitctl: workspace is not a git repository"
  | ErrGitMissing => "gitctl: git binary not found on PATH"
  | ErrMergeConflict => "gitctl: merge produced conflicts"
  | ErrGit m => m
  end.

Record Repo := mkRepo { r_root : string }.
Record Worktree := mkWorktree { wt_ID : string; wt_Path : string; wt_Branch : string }.
Record MergeResult := mkMerge { MergedSHA : string; Conflicted : bool; ConflictPaths : list string }.

Definition validID (id : string) : result git_error unit :=
  if String.eqb id "" then Err (ErrGit "gitctl: worktree id must not be empty")
  else if Contains id "/" || Contains id "\" || Contains id ".." then Err (ErrGit "gitctl: unsafe worktree id")
  else Ok tt.

Definition isMissingWorktree (stderr : string) : bool :=
  containsAny (ToLower stderr) ["is not a working tree"; "no such file or directory"; "not a valid path"].

Definition isMissingBranch (stderr : string) : bool := containsAny (ToLower stderr) ["not found"; "couldn't look up"].

Definition newline : ascii := ascii_of_nat 10.

Definition splitLines (s : string) : list string :=
  List.filter (fun l => negb (String.eqb l "")) (map TrimSpace (SplitByte newline s)).

(** The cutset of [strings.TrimRight(_, " \t\r\n")]. *)
Definition is_blank (c : ascii) : bool :=
  let n := nat_of_ascii c in (n =? 32) || (n =? 9) || (n =? 13) || (n =? 10).

(** The argument lists that matter below. *)
Definition add_cmd (branch path baseRef : string) : list string := ["worktree"; "add"; "-b"; branch; path; baseRef].
Definition remove_cmd (path : string) : list string := ["worktree"; "remove"; "--force"; path].
Definition diff_cmd (baseRef branch : string) : list string := ["diff"; "--name-only"; baseRef +:+ ".." +:+ branch].
Definition merge_cmd (branch msg : string) : list string := ["merge"; "--no-ff"; "--no-edit"; "-m"; msg; branch].
Definition conflicts_cmd : list string := ["diff"; "--name-only"; "--diff-filter=U"].
Definition abort_cmd : list string := ["merge"; "--abort"].
Definition head_cmd : list string := ["rev-parse"; "HEAD"].

(** Reading the log: the path a run of git adds a worktree at, the branch it
    merges. *)
Definition git_argv (e : effect) : option (list string) :=
  match e with Host (GitRun _ argv) => Some (drop (length hardened) argv) | _ => None end.

Definition add_path (e : effect) : option string :=
  match git_argv e with
  | Some [a; b; c; _; path; _] => if bool_decide ([a; b; c] = ["worktree"; "add"; "-b"]) then Some path else None
  | _ => None
  end.

Definition merge_branch (e : effect) : option string :=
  match git_argv e with
  | Some [a; b; c; d; _; br] => if bool_decide ([a; b; c; d] = ["merge"; "--no-ff"; "--no-edit"; "-m"]) then Some br else None
  | _ => None
  end.

(** What one run of git gives back. *)
Record git_out := mkGitOut { go_stdout : string; go_stderr : string; go_err : option string }.

Section git.
Variable git : list effect -> string -> list string -> git_out.
Variable getwd : result string string.              (* os.Getwd *)
Variable lookPath_ok : bool.                        (* exec.LookPath finds git *)
Variable has_dot_git : bool.                        (* os.Stat of root/.git *)
Variable mkdir_ok : list effect -> bool.            (* os.MkdirAll *)

(** [filepath.Abs] *)
Definition Abs (path : string) : result string string :=
  if is_rooted path then Ok (Clean path)
  else match getwd with Ok wd => Ok (Join2 wd path) | Err e => Err e end.

Definition Open (root : string) : result git_error Repo :=
  match Abs root with
  | Err e => Err (ErrGit ("gitctl: resolve root " +:+ root +:+ ": " +:+ e))
  | Ok abs =>
      if negb lookPath_ok then Err ErrGitMissing
      else if negb has_dot_git then Err ErrNotARepo
      else Ok (mkRepo abs)
  end.

Section repo.
Variable r : Repo.

(** [run]: trimmed output, trimmed error output, and the error. *)
Definition run (dir : string) (argv : list string) : M (string * string * option git_error) :=
  let dir := if String.eqb dir "" then r_root r else dir in
  l ← the_log;
  _ ← perform (Host (GitRun dir (hardened ++ argv)));
  let o := git l dir argv in
  let stderr := TrimRight is_blank (go_stderr o) in
  mret (TrimRight is_blank (go_stdout o), stderr,
        match go_err o with
        | None => None
        | Some e => Some (ErrGit ("gitctl: git " +:+ hd "git" argv +:+ ": " +:+ e +:+ ": " +:+ stderr))
        end).

Definition run_out (dir : string) (argv : list string) : M (result git_error string) :=
  x ← run dir argv; mret (match x with (_, _, Some e) => Err e | (out, _, None) => Ok out end).

Definition CurrentBranch : M (result git_error string) := run_out (r_root r) ["rev-parse"; "--abbrev-ref"; "HEAD"].
Definition HeadSHA (ref : string) : M (result git_error string) := run_out (r_root r) ["rev-parse"; ref].

Definition worktree_path (id : string) : string := Join2 (Join2 (r_root r) worktreesDir) id.

Definition AddWorktree (id branch baseRef : string) : M (result git_error Worktree) :=
  match validID id with
  | Err e => mret (Err e)
  | Ok _ =>
      l ← the_log;
      _ ← perform (Host (MakeDir (Join2 (r_root r) worktreesDir)));
      if negb (mkdir_ok l) then mret (Err (ErrGit "gitctl: create worktrees dir"))
      else
        let path := worktree_path id in
        x ← run_out (r_root r) (add_cmd branch path baseRef);
        mret (match x with Err e => Err e | Ok _ => Ok (mkWorktree id path branch) end)
  end.

Definition RemoveWorktree (wt : Worktree) (keepBranch : bool) : M (result git_error unit) :=
  x ← run (r_root r) (remove_cmd (wt_Path wt));
  match (match x with (_, stderr, Some e) => if isMissingWorktree stderr then Ok tt else Err e | _ => Ok tt end) with
  | Err e => mret (Err e)
  | Ok _ =>
      y ← run_out (r_root r) ["worktree"; "prune"];
      match y with
      | Err e => mret (Err e)
      | Ok _ =>
          if negb keepBranch && negb (String.eqb (wt_Branch wt) "") then
            z ← run (r_root r) ["branch"; "-D"; wt_Branch wt];
            mret (match z with (_, stderr, Some e) => if isMissingBranch stderr then Ok tt else Err e | _ => Ok tt end)
          else mret (Ok tt)
      end
  end.

Definition CommitAll (wt : Worktree) (msg : string) : M (result git_error bool) :=
  a ← run_out (wt_Path wt) ["add"; "-A"];
  match a with
  | Err e => mret (Err e)
  | Ok _ =>
      st ← run_out (wt_Path wt) ["status"; "--porcelain"];
      match st with
      | Err e => mret (Err e)
      | Ok status =>
          if String.eqb (TrimSpace status) "" then mret (Ok false)
          else c ← run_out (wt_Path wt) ["commit"; "-m"; msg];
               mret (match c with Err e => Err e | Ok _ => Ok true end)
      end
  end.

Definition ChangedFiles (wt : Worktree) (baseRef : string) : M (result git_error (list string)) :=
  d ← run_out (wt_Path wt) (diff_cmd baseRef (wt_Branch wt));
  mret (match d with Err e => Err e | Ok out => Ok (splitLines out) end).

Definition Merge (branch msg : string) : M (MergeResult * option git_error) :=
  m ← run (r_root r) (merge_cmd branch msg);
  match m with
  | (_, _, Some mergeErr) =>
      u ← run (r_root r) conflicts_cmd;
      let conflictPaths := splitLines u.1.1 in
      a ← run (r_root r) abort_cmd;
      match conflictPaths with
      | [] => mret (mkMerge "" false [], Some mergeErr)
      | _ => mret (mkMerge "" true conflictPaths,
                   Some (match a.2 with Some e => ErrGit (git_msg ErrMergeConflict +:+ " (and abort failed: " +:+ git_msg e +:+ ")") | None => ErrMergeConflict end))
      end
  | (_, _, None) =>
      s ← run_out (r_root r) head_cmd;
      mret (match s with Err e => (mkMerge "" false [], Some e) | Ok sha => (mkMerge sha false [], None) end)
  end.

(** ** What the operations run *)

(** One run of git, as the log records it. *)
Definition gitcmd (dir : string) (argv : list string) : effect := Host (GitRun dir (hardened ++ argv)).

Definition run_dir (dir : string) : string := if String.eqb dir "" then r_root r else dir.

Definition git_answer (o : git_out) (argv : list string) : string * string * option git_error :=
  let stderr := TrimRight is_blank (go_stderr o) in
  (TrimRight is_blank (go_stdout o), stderr,
   match go_err o with
   | None => None
   | Some e => Some (ErrGit ("gitctl: git " +:+ hd "git" argv +:+ ": " +:+ e +:+ ": " +:+ stderr))
   end).

Lemma run_at l0 dir argv :
  emits_at l0 (run dir argv) (fun l x => l = [gitcmd (run_dir dir) argv] /\ x = git_answer (git l0 (run_dir dir) argv) argv).
Proof. intros w <-. exists (minted_ids w), [gitcmd (run_dir dir) argv]. done. Qed.

Lemma run_out_at l0 dir argv :
  emits_at l0 (run_out dir argv) (fun l x => l = [gitcmd (run_dir dir) argv] /\
    match x with
    | Ok out => go_err (git l0 (run_dir dir) argv) = None /\ out = TrimRight is_blank (go_stdout (git l0 (run_dir dir) argv))
    | Err _ => go_err (git l0 (run_dir dir) argv) <> None
    end).
Proof.
  eapply emits_at_bind; [apply run_at|]. intros l x [-> ->]. apply emits_at_ret. rewrite app_nil_r. split; [done|].
  unfold git_answer. by destruct (go_err _).
Qed.

Lemma run_dir_root : run_dir (r_root r) = r_root r.
Proof. unfold run_dir. by destruct (String.eqb _ _). Qed.

(** What the operations do on the host. *)
Definition repo_op (e : effect) : Prop := match e with Host (GitRun _ _) | Host (MakeDir _) => True | _ => False end.

(** A run of git that neither adds a worktree nor merges. *)
Definition git_other (e : effect) : Prop := (exists dir argv, e = gitcmd dir argv) /\ add_path e = None /\ merge_branch e = None.

Lemma run_other dir argv : (forall d, add_path (gitcmd d argv) = None) -> (forall d, merge_branch (gitcmd d argv) = None) -> all_effects git_other (run dir argv).
Proof.
  intros Ha Hm. apply emits_emits_at. intros l0. eapply emits_at_impl; [apply run_at|]. intros l x [-> _]. repeat constructor; eauto.
Qed.

Lemma run_out_other dir argv : (forall d, add_path (gitcmd d argv) = None) -> (forall d, merge_branch (gitcmd d argv) = None) -> all_effects git_other (run_out dir argv).
Proof. intros Ha Hm. apply all_effects_bind; [by apply run_other|]. intros x. apply all_effects_ret. Qed.

Lemma CommitAll_other wt msg : all_effects git_other (CommitAll wt msg).
Proof.
  unfold CommitAll. apply all_effects_bind; [by apply run_out_other|]. intros [?|e]; [|apply all_effects_ret].
  apply all_effects_bind; [by apply run_out_other|]. intros [st|e]; [|apply all_effects_ret].
  destruct (String.eqb _ _); [apply all_effects_ret|]. apply all_effects_bind; [by apply run_out_other|]. intros [?|e]; apply all_effects_ret.
Qed.

(** Removing a worktree starts with [git worktree remove]. *)
Lemma RemoveWorktree_spec wt keep :
  emits (RemoveWorktree wt keep) (fun l _ => gitcmd (r_root r) (remove_cmd (wt_Path wt)) ∈ l /\ Forall git_other l).
Proof.
  unfold RemoveWorktree. apply emits_emits_at. intros l0. eapply emits_at_bind; [apply run_at|]. intros l1 x [-> ->]. rewrite run_dir_root.
  match goal with |- emits_at _ ?m _ => assert (all_effects git_other m) as Hm end.
  { destruct (git_answer _ _) as [[out err] oe]. destruct (match oe with Some _ => _ | None => _ end); [|apply all_effects_ret].
    apply all_effects_bind; [by apply run_out_other|]. intros [?|e]; [|apply all_effects_ret].
    destruct (negb keep && _); [|apply all_effects_ret]. apply all_effects_bind; [by apply run_other|]. intros y. apply all_effects_ret. }
  eapply emits_at_impl; [exact (proj1 (emits_emits_at _ _) Hm _)|]. intros l2 a Hl2. split; [by apply list_elem_of_here|].
  constructor; [|done]. split; [by exists (r_root r), (remove_cmd (wt_Path wt))|done].
Qed.

(** Listing the changes is one [git diff]. *)
Lemma ChangedFiles_at l0 wt baseRef :
  emits_at l0 (ChangedFiles wt baseRef) (fun l x => l = [gitcmd (run_dir (wt_Path wt)) (diff_cmd baseRef (wt_Branch wt))] /\
    match x with
    | Ok files => let o := git l0 (run_dir (wt_Path wt)) (diff_cmd baseRef (wt_Branch wt)) in
        go_err o = None /\ files = splitLines (TrimRight is_blank (go_stdout o))
    | Err _ => True
    end).
Proof.
  eapply emits_at_bind; [apply run_out_at|]. intros l x [-> Hx]. apply emits_at_ret. rewrite app_nil_r. split; [done|].
  destruct x as [out|e]; [|done]. destruct Hx as [? ->]. done.
Qed.

Lemma Merge_spec branch msg :
  emits (Merge branch msg) (fun l _ => exists rest, l = gitcmd (r_root r) (merge_cmd branch msg) :: rest /\ Forall git_other rest).
Proof.
  unfold Merge. apply emits_emits_at. intros l0. eapply emits_at_bind; [apply run_at|]. intros l1 x [-> ->]. rewrite run_dir_root.
  match goal with |- emits_at _ ?m _ => assert (all_effects git_other m) as Hm end.
  { destruct (git_answer _ _) as [[out err] [e|]].
    - apply all_effects_bind; [by apply run_other|]. intros u. apply all_effects_bind; [by apply run_other|]. intros a.
      destruct (splitLines _); apply all_effects_ret.
    - apply all_effects_bind; [by apply run_out_other|]. intros y. apply all_effects_ret. }
  eapply emits_at_impl; [exact (proj1 (emits_emits_at _ _) Hm _)|]. eauto.
Qed.

(** a failed merge leaves nothing behind: git is asked to merge once; if it
    refuses, the conflicting paths are read and the merge is aborted, in that
    order and nothing else, and the caller gets an error that names the
    conflict exactly when git listed unmerged paths; if it succeeds, the result
    is the new head, and it is an error only when that cannot be read. *)
Theorem failed_merge_is_aborted (branch msg : string) (w : world) :
  let root := r_root r in
  let l := elog w in
  let m := gitcmd root (merge_cmd branch msg) in
  let u := gitcmd root conflicts_cmd in
  let '(w', (res, err)) := Merge branch msg w in
  match go_err (git l root (merge_cmd branch msg)) with
  | Some _ =>
      let unmerged := splitLines (TrimRight is_blank (go_stdout (git (l ++ [m]) root conflicts_cmd))) in
      elog w' = l ++ [m; u; gitcmd root abort_cmd] /\ MergedSHA res = "" /\
      ConflictPaths res = unmerged /\ Conflicted res = negb (bool_decide (unmerged = [])) /\
      (unmerged <> [] -> go_err (git (l ++ [m; u]) root abort_cmd) = None -> err = Some ErrMergeConflict) /\ is_Some err
  | None =>
      let head := git (l ++ [m]) root head_cmd in
      elog w' = l ++ [m; gitcmd root head_cmd] /\ Conflicted res = false /\ ConflictPaths res = [] /\
      match go_err head with
      | None => err = None /\ MergedSHA res = TrimRight is_blank (go_stdout head)
      | Some _ => is_Some err /\ MergedSHA res = ""
      end
  end.
Proof.
  unfold Merge, run_out, run, the_log, perform. unfold mbind, M_bind, mret, M_ret. cbn [elog minted_ids slots].
  rewrite (run_dir_root : (if String.eqb (r_root r) "" then r_root r else r_root r) = r_root r).
  destruct (go_err (git (elog w) _ _)) as [e|] eqn:Em.
  - cbn [elog minted_ids slots fst snd]. fold (gitcmd (r_root r) (merge_cmd branch msg)).
    fold (gitcmd (r_root r) conflicts_cmd). fold (gitcmd (r_root r) abort_cmd). rewrite <-!app_assoc. cbn [app].
    destruct (splitLines _) as [|p ps] eqn:Es; cbn [snd fst elog]; rewrite <-?app_assoc; cbn [app]; split_and!; try done; try by eexists.
    intros _ Ha. cbn [app] in Ha. by rewrite Ha.
  - cbn [elog minted_ids slots fst snd]. fold (gitcmd (r_root r) (merge_cmd branch msg)). rewrite <-!app_assoc.
    destruct (go_err (git (elog w ++ _) _ head_cmd)) eqn:Eh; simpl; split_and!; try done; by eexists.
Qed.

(** ** Worktrees that are still there *)

(** Git accepted the run [e], made when the log was [lg]. *)
Definition git_ok (lg : list effect) (e : effect) : Prop :=
  match e with Host (GitRun dir argv) => go_err (git lg dir (drop (length hardened) argv)) = None | _ => False end.

(** In the run [l] from the log [l0], every worktree added at a path outside
    [P] is removed later. *)
Definition pending (l0 l : list effect) (P : list string) : Prop :=
  forall pre x post path, l = pre ++ x :: post -> add_path x = Some path -> git_ok (l0 ++ pre) x ->
    gitcmd (r_root r) (remove_cmd path) ∈ post \/ path ∈ P.

Lemma pending_none l0 l P : Forall (fun x => add_path x = None) l -> pending l0 l P.
Proof. intros Hl pre x post path -> Hx. apply Forall_app in Hl as [_ [? _]%Forall_cons]. congruence. Qed.

Lemma pending_app l0 l1 l2 P1 P2 :
  pending l0 l1 P1 -> pending (l0 ++ l1) l2 P2 ->
  (forall path, path ∈ P1 -> gitcmd (r_root r) (remove_cmd path) ∈ l2 \/ path ∈ P2) -> pending l0 (l1 ++ l2) P2.
Proof.
  intros H1 H2 HP pre x post path [(k & E1 & ->)|(k & -> & E2)]%app_eq_mid Hx Hg.
  - destruct (H1 pre x k path E1 Hx Hg) as [Hin|Hin]; [left; by apply elem_of_app; left|].
    destruct (HP path Hin); [left; by apply elem_of_app; right|by right].
  - rewrite app_assoc in Hg. by eapply H2.
Qed.

Lemma AddWorktree_at l0 id branch baseRef :
  emits_at l0 (AddWorktree id branch baseRef) (fun l x => Forall repo_op l /\ Forall (fun e => merge_branch e = None) l /\
    match x with
    | Ok wt => wt = mkWorktree id (worktree_path id) branch /\ validID id = Ok tt /\ pending l0 l [wt_Path wt]
    | Err _ => pending l0 l []
    end).
Proof.
  unfold AddWorktree. destruct (validID id) as [[]|e]; [|by apply emits_at_ret; split_and!; try done; apply pending_none].
  set (mk := Host (MakeDir _)).
  assert (pending l0 [mk] [] /\ repo_op mk /\ merge_branch mk = None) as (Hp0 & Hh0 & Hm0) by (split_and!; [by apply pending_none; constructor|done|done]).
  eapply (emits_at_bind _ _ _ (fun l lg => l = [])); [by intros w <-; exists (minted_ids w), []; destruct w; rewrite app_nil_r|]. intros l1 lg ->.
  eapply (emits_at_bind _ _ _ (fun l _ => l = [mk])); [by apply emits_emits_at, emits_perform|]. intros l2 [] ->. simpl.
  destruct (mkdir_ok lg); [|apply emits_at_ret; split_and!; [by repeat constructor|by repeat constructor|done]]. simpl.
  eapply emits_at_bind; [apply run_out_at|]. rewrite run_dir_root. intros l3 x [-> Hx]. apply emits_at_ret. rewrite app_nil_r.
  split; [|split]; [by repeat constructor|by repeat constructor|]. rewrite app_nil_r in Hx.
  destruct x as [out|e]; [split_and!; [done|done|]|].
  - eapply (pending_app _ [mk]); [exact Hp0| |by intros ? ?%not_elem_of_nil]. intros pre x post path E Hadd _. right. simpl.
    destruct pre as [|y pre]; [|by destruct pre]. injection E as <- <-. unfold add_path in Hadd. simpl in Hadd. injection Hadd as <-. by apply list_elem_of_here.
  - eapply (pending_app _ [mk]); [exact Hp0| |by intros ? ?%not_elem_of_nil]. intros pre x post path E Hadd Hg. exfalso.
    destruct pre as [|y pre]; [|by destruct pre]. injection E as <- <-. rewrite app_nil_r in Hg. by apply Hx.
Qed.
End repo.
End git.
