(* ===== verification/Pool.v ===== *)
(** * The worker pool (internal/wsserver/workerpool.go)

    [runWorkerPool] creates one worktree per sub-task, runs a headless turn loop
    in each ([dispatchOneTask]), checks and merges the branches back one after
    the other, and removes the worktrees on every exit; a program of Server.v's
    monad over Git.v.

    The tasks run in parallel: each is a program of its own, started in the
    world its siblings started in, with its own stream of fresh ids; the log
    receives an arbitrary interleaving of what they did, chosen by the
    parameter [sched].  What the translator, the dispatcher and the deadline
    give task number [j] are parameters indexed by [j], so they may depend on
    its siblings in any way. *)

From S2P Require Import Prelude GoString GoConv Event Paths Wire Utf8 Auth Sandbox Daemon Os Fsops History Tools WorkerPool Approver Recovery LspWire Lsp Server ServerSpec Intent IntentSpec HostTools Git.

(** ** Data (middleware/workerpool.go, translator.go) *)

Definition WorkerStatusSuccess : string := "success".
Definition WorkerStatusFailed : string := "failed".
Definition WorkerStatusScopeViolation : string := "scope_violation".
Definition WorkerStatusCanceled : string := "canceled".

Record WorkerTaskResult := mkTaskResult {
  wr_TaskID : string;
  wr_Branch : string;
  wr_Status : string;
  wr_Summary : string;
  wr_MergeStatus : string;
  wr_MergedSHA : string;
  wr_Usage : Usage;
  wr_Error : string;
}.

Record WorkerPoolResult := mkPoolResult { BaseSHA : string; PrimaryRef : string; pr_Tasks : list WorkerTaskResult }.

Record TurnInput := mkTurnInput {
  ti_SID : string;
  ti_UserText : string;
  ti_History : list Turn;
  ti_SystemPrompt : string;
  ti_Tools : list string;
  ti_Mode : string;
  ti_Model : string;
}.

Definition SubDispatcherTools (all : list string) : list string :=
  List.filter (fun t => negb (String.eqb t ToolDispatchWorkerPool)) all.

(** ** Pure parts *)

Definition ModeNormal : string := "".

Definition worktreePrefix : string := ".nomaddev-worktrees".

(** The copy of the map with one key changed. *)
Definition arg_set (a : args) (key : string) (v : any) : args :=
  (key, v) :: List.filter (fun kv => negb (String.eqb kv.1 key)) a.

Definition rewrite_arg (a : args) (prefix : string) (task : SubTask) (key : string) (enforceScope : bool) : result tool_err args :=
  match CleanWorkspacePath (arg_string_or_empty a key) with
  | Err e => Err e
  | Ok cleaned =>
      if enforceScope && negb (PathInScope cleaned (st_Paths task)) then Err (key +:+ " is outside this sub-task's declared scope")
      else Ok (arg_set a key (AStr (prefix +:+ "/" +:+ cleaned)))
  end.

Definition scopeWorkerCall (tool : string) (a : args) (wtID : string) (task : SubTask) : result tool_err (args * string) :=
  let prefix := worktreePrefix +:+ "/" +:+ wtID in
  let in_root (x : result tool_err args) := match x with Ok m => Ok (m, "") | Err e => Err e end in
  if existsb (String.eqb tool) [ToolReadFile; ToolListDir; ToolPinFile; ToolUnpinFile] then in_root (rewrite_arg a prefix task "path" false)
  else if String.eqb tool ToolWritePatch then in_root (rewrite_arg a prefix task "path" true)
  else if String.eqb tool ToolApplyCodePatch then in_root (rewrite_arg a prefix task "file_path" true)
  else if String.eqb tool ToolExecuteScript || String.eqb tool ToolSearchSyntax then Ok (a, prefix)
  else Ok (a, "").

Definition workerSystemPrompt (base : string) (task : SubTask) : string :=
  let steer := "You are a NomadDev worker-pool sub-dispatcher running headlessly inside an " +:+
    "isolated git worktree. Complete ONLY this sub-task. You may modify only these " +:+
    "paths: " +:+ StrJoin ", " (st_Paths task) +:+ ". Editing any file outside that set " +:+
    "will cause your work to be rejected. Do not assume changes made by other workers " +:+
    "are visible. When finished, reply with a concise summary of what you changed." in
  if String.eqb base "" then steer else base +:+ nl_str +:+ nl_str +:+ steer.

Definition outOfScope (changed scope : list string) : list string := List.filter (fun f => negb (PathInScope f scope)) changed.

Definition workerKeepBranch (r : WorkerTaskResult) : bool :=
  if negb (String.eqb (wr_Status r) WorkerStatusSuccess) then true else String.eqb (wr_MergeStatus r) "conflict".

Definition poolOutcome (rs : list WorkerTaskResult) : string :=
  let ok := length (List.filter (fun r => String.eqb (wr_Status r) WorkerStatusSuccess) rs) in
  let bad := length (List.filter (fun r => negb (String.eqb (wr_Status r) WorkerStatusSuccess)) rs) in
  if bad =? 0 then "ok" else if ok =? 0 then "failed" else "partial".

Definition shortSHA (sha : string) : string := if (8 <? zlen sha)%Z then str_take 8 sha else sha.

Definition oneLine (s : string) : string := StrJoin " " (Fields s).

Definition truncateStr (s : string) (n : Z) : string :=
  if ((n <=? 0) || (zlen s <=? n))%Z then s
  else if (n <=? 3)%Z then str_take (Z.to_nat n) s
  else str_take (Z.to_nat (n - 3)) s +:+ "...".

Definition em_dash : string := bytes_of [226; 128; 148].

Definition render_task (t : WorkerTaskResult) : string :=
  "  [" +:+ wr_TaskID t +:+ "] status=" +:+ wr_Status t +:+ " merge=" +:+ wr_MergeStatus t +:+
  (if String.eqb (wr_MergedSHA t) "" then "" else " (" +:+ shortSHA (wr_MergedSHA t) +:+ ")") +:+
  (if String.eqb (wr_Error t) "" then "" else " " +:+ em_dash +:+ " " +:+ wr_Error t) +:+ nl_str +:+
  (if String.eqb (wr_Summary t) "" then "" else "      " +:+ truncateStr (oneLine (wr_Summary t)) 300 +:+ nl_str).

Definition renderWorkerPoolSummary (r : WorkerPoolResult) : string :=
  let n := length (pr_Tasks r) in
  let merged := length (List.filter (fun t => String.eqb (wr_MergeStatus t) "merged") (pr_Tasks r)) in
  TrimRight (Ascii.eqb newline)
    ("worker pool: " +:+ Itoa (Z.of_nat n) +:+ " sub-task(s) on " +:+ PrimaryRef r +:+ " (base " +:+ shortSHA (BaseSHA r) +:+ "); " +:+
     Itoa (Z.of_nat merged) +:+ " merged, " +:+ Itoa (Z.of_nat (n - merged)) +:+ " not merged." +:+ nl_str +:+
     str_concat (map render_task (pr_Tasks r))).

(** The aggregate as the tool output carries it, by its JSON tags. *)
Definition opt_field (k v : string) : args := if String.eqb v "" then [] else [(k, AStr v)].

Definition task_any (r : WorkerTaskResult) : any :=
  AMap ([("task_id", AStr (wr_TaskID r)); ("branch", AStr (wr_Branch r)); ("status", AStr (wr_Status r))] ++
        opt_field "summary" (wr_Summary r) ++ [("merge_status", AStr (wr_MergeStatus r))] ++ opt_field "merged_sha" (wr_MergedSHA r) ++
        [("usage", AMap [("PromptTokens", AInt (u_Prompt (wr_Usage r))); ("CandidatesTokens", AInt (u_Candidates (wr_Usage r)));
                         ("TotalTokens", AInt (u_Total (wr_Usage r)))])] ++ opt_field "error" (wr_Error r)).

Definition pool_output (r : WorkerPoolResult) : args :=
  [("worker_pool", AMap [("base_sha", AStr (BaseSHA r)); ("primary_ref", AStr (PrimaryRef r)); ("tasks", AArr (map task_any (pr_Tasks r)))]);
   ("summary", AStr (renderWorkerPoolSummary r))].

(** ** One worker *)

(** What a stage of the sub-dispatcher leaves. *)
Record stage := mkStage { sg_err : bool; sg_text : string; sg_usage : Usage; sg_call : option Call; sg_final : bool }.

Definition add_usage (a b : Usage) : Usage :=
  mkUsageCount (wrap64 (u_Prompt a + u_Prompt b)) (wrap64 (u_Candidates a + u_Candidates b)) (wrap64 (u_Total a + u_Total b)).

Definition absorb (s : stage) (ev : AssistantEvent) : stage :=
  match ev_Err ev with
  | Some _ => mkStage true (sg_text s) (sg_usage s) (sg_call s) (sg_final s)
  | None =>
      if negb (String.eqb (ev_Text ev) "") then mkStage (sg_err s) (sg_text s +:+ ev_Text ev) (sg_usage s) (sg_call s) (sg_final s)
      else match ev_Usage ev with
      | Some u => mkStage (sg_err s) (sg_text s) (add_usage (sg_usage s) u) (sg_call s) (sg_final s)
      | None =>
          match ev_ToolCall ev with
          | Some c => mkStage (sg_err s) (sg_text s) (sg_usage s) (Some c) (sg_final s)
          | None =>
              match ev_Final ev with
              | Some m => mkStage (sg_err s) (sg_text s) (add_usage (sg_usage s) (fm_Usage m)) (sg_call s) true
              | None => s
              end
          end
      end
  end.

Section worker.
Variable NewID : nat -> string.
Variable elapsed : nat -> Z.
Variable answer : string -> await_result.
Variable flt : faults.
Variable cf : server_config.
Variable fs : FS.
Variable url_Parse : string -> option (string * string).
Variable pol : policy.
Variable fsops : option Engine.
Variable Dispatch : list effect -> Call -> string -> result gerror (list ExecChunk).

Definition toolErr (cmdID : string) (c : Call) (code msg : string) : M ToolResult :=
  _ ← emitResult NewID elapsed cmdID (-1) code msg;
  mret (mkToolResult (call_ID c) (call_Tool c) (Some [("error_message", AStr msg)]) None code).

Definition runWorkerToolCall (workerIntentID : string) (c : Call) (wt : Worktree) (task : SubTask) : M ToolResult :=
  cmdID ← new_id NewID;
  _ ← perform (Emit (mkFrame cmdID workerIntentID (BRequest
        (mkRequestPayload (call_Tool c) (default [] (RedactArgs (Some (call_Args c)))) "" 0))));
  match Validate url_Parse validateDispatchWorkerPool (call_Tool c) (call_Args c) with
  | Err msg => toolErr cmdID c SandboxErrBadRequest msg
  | Ok _ =>
      match scopeWorkerCall (call_Tool c) (call_Args c) (wt_ID wt) task with
      | Err msg => toolErr cmdID c SandboxErrBadRequest msg
      | Ok (scopedArgs, workingDir) =>
          verdict ← requestApproval NewID answer flt cf pol fsops fs cmdID (call_Tool c) scopedArgs;
          match verdict with
          | Some (code, msg, _) => toolErr cmdID c code msg
          | None =>
              l ← the_log;
              _ ← perform (Host (WorkerDispatch (call_Tool c) scopedArgs workingDir));
              match Dispatch l (mkToolCall (call_ID c) (call_Tool c) scopedArgs) workingDir with
              | Err e => toolErr cmdID c (dispatch_code e) (emsg e)
              | Ok ch =>
                  k ← tool_loop NewID elapsed cmdID (mkSeqs 0 0) (mkCollected "" "" 0 "" "") ch;
                  mret (mkToolResult (call_ID c) (call_Tool c) (Some (tool_output k)) None (k_code k))
              end
          end
      end
  end.

(** The loop over stages.  [n] stages end before the task's deadline: the check
    of [ctx.Err] after stage [n] sees it expired. *)
Variable task : SubTask.
Variable wt : Worktree.

Definition task_result (status summary : string) (u : Usage) (err : string) : WorkerTaskResult :=
  mkTaskResult (st_ID task) (wt_Branch wt) status summary "not_attempted" "" u err.

Fixpoint task_loop (n : nat) (workerIntentID : string) (resume : list ToolResult -> result string (list AssistantEvent))
    (done : list ToolResult) (summary : string) (u : Usage) (events : list AssistantEvent) : M WorkerTaskResult :=
  let s := foldl absorb (mkStage false summary u None false) events in
  if sg_err s then mret (task_result WorkerStatusFailed "" (sg_usage s) "translator reported a fatal turn error")
  else match n with
  | 0 => mret (task_result WorkerStatusCanceled "" (sg_usage s) SandboxErrCanceled)
  | S n =>
      if sg_final s then mret (task_result WorkerStatusSuccess (TrimSpace (sg_text s)) (sg_usage s) "")
      else match sg_call s with
      | None => mret (task_result WorkerStatusFailed "" (sg_usage s) "translator closed without a final message or tool call")
      | Some c =>
          r ← runWorkerToolCall workerIntentID c wt task;
          match resume (done ++ [r]) with
          | Err e => mret (task_result WorkerStatusFailed (TrimSpace (sg_text s)) (sg_usage s) ("translator resume: " +:+ e))
          | Ok next => task_loop n workerIntentID resume (done ++ [r]) (sg_text s) (sg_usage s) next
          end
      end
  end.

Definition dispatchOneTask (deadline : nat)
    (Stream : TurnInput -> result string (list AssistantEvent * (list ToolResult -> result string (list AssistantEvent))))
    (parentHistory : list Turn) (baseSystemPrompt : string) (sid model : string) (tools : list string) : M WorkerTaskResult :=
  match Stream (mkTurnInput sid (st_Prompt task) parentHistory (workerSystemPrompt baseSystemPrompt task) (SubDispatcherTools tools) ModeNormal model) with
  | Err e => mret (task_result WorkerStatusFailed "" no_usage ("translator stream: " +:+ e))
  | Ok (events, resume) =>
      workerIntentID ← new_id NewID;
      task_loop deadline workerIntentID resume [] "" no_usage events
  end.

Definition emitWorkerUpdate (poolID taskID phase branch status summary errMsg : string) : M unit :=
  reply NewID poolID (BWorker (mkWorkerUpdate poolID taskID phase branch status (truncateStr (oneLine summary) 2000) errMsg)).
End worker.

(** ** The pool *)

(** The ids task [j] of [n] mints: every [n]-th one from [base]. *)
Definition strided (NewID : nat -> string) (base n j : nat) (i : nat) : string := NewID (base + j + i * n).

(** The [sync.WaitGroup] over goroutines: program [j] starts in the current
    world; the log gets an interleaving of what the programs did. *)
Definition par {A} (NewID : nat -> string) (sched : list nat) (fs : list ((nat -> string) -> M A)) : M (list A) := fun w =>
  let n := length fs in
  let runs := imap (fun j (f : (nat -> string) -> M A) => f (strided NewID (minted_ids w) n j) (mkWorld 0 None (elog w))) fs in
  let logs := (fun r : world * A => drop (length (elog w)) (elog r.1)) <$> runs in
  (mkWorld (minted_ids w + n * max_list ((fun r : world * A => minted_ids r.1) <$> runs)) (slots w) (elog w ++ interleave sched logs),
   (fun r : world * A => r.2) <$> runs).

Record pool_config := mkPoolConfig {
  pc_Enabled : bool;                       (* workerPoolSem <> nil *)
  pc_PerSessionWorkspace : bool;
  pc_WorkspaceDir : string;
  pc_MaxTasks : Z;
  pc_SystemPrompt : string;
  pc_Tools : list string;                  (* AvailableToolsFor(ModeNormal) *)
  pc_Model : string;
}.

Section pool.
Variable NewID : nat -> string.
Variable elapsed : nat -> Z.
Variable answer : string -> await_result.
Variable flt : faults.
Variable cf : server_config.
Variable fs : FS.
Variable url_Parse : string -> option (string * string).
Variable history_ok : list effect -> bool.
Variable sid : string.
Variable pol : policy.
Variable fsops : option Engine.
Variable pc : pool_config.

Variable git : list effect -> string -> list string -> git_out.
Variable getwd : result string string.
Variable lookPath_ok has_dot_git : bool.
Variable mkdir_ok : list effect -> bool.
Variable load_window : result string (list Turn).

Variable sched : list nat.
Variable admitted : nat -> bool.           (* a pool slot before the context ends *)
Variable deadline : nat -> nat.
Variable Stream : nat -> TurnInput -> result string (list AssistantEvent * (list ToolResult -> result string (list AssistantEvent))).
Variable Dispatch : nat -> list effect -> Call -> string -> result gerror (list ExecChunk).

Section run.
Variable repo : Repo.
Variable intentID baseSHA : string.

Definition worktree_id (t : SubTask) : string := intentID +:+ "-" +:+ st_ID t.
Definition branch_of (t : SubTask) : string := "nomaddev/wp-" +:+ intentID +:+ "-" +:+ st_ID t.

Definition remove_worktree (x : Worktree * bool) : M unit := _ ← RemoveWorktree git repo x.1 x.2; mret tt.

(** One worktree per task; a failure removes those created so far. *)
Fixpoint add_worktrees (done : list Worktree) (ts : list SubTask) : M (result string (list Worktree)) :=
  match ts with
  | [] => mret (Ok done)
  | t :: ts' =>
      x ← AddWorktree git mkdir_ok repo (worktree_id t) (branch_of t) baseSHA;
      match x with
      | Ok wt => add_worktrees (done ++ [wt]) ts'
      | Err e =>
          _ ← mapM_ remove_worktree ((fun wt => (wt, false)) <$> done);
          mret (Err ("worker pool: create worktree for " +:+ st_ID t +:+ ": " +:+ git_msg e))
      end
  end.

(** The goroutine of task [j]. *)
Definition worker (parentHistory : list Turn) (j : nat) (x : SubTask * Worktree) (NewIDj : nat -> string) : M WorkerTaskResult :=
  let '(t, wt) := x in
  if negb (admitted j) then mret (mkTaskResult (st_ID t) (wt_Branch wt) WorkerStatusCanceled "" "not_attempted" "" no_usage SandboxErrCanceled)
  else
    _ ← emitWorkerUpdate NewIDj intentID (st_ID t) "started" (wt_Branch wt) "" "" "";
    r ← dispatchOneTask NewIDj elapsed answer flt cf fs url_Parse pol fsops (Dispatch j) t wt (deadline j) (Stream j)
          parentHistory (pc_SystemPrompt pc) sid (pc_Model pc) (pc_Tools pc);
    _ ← emitWorkerUpdate NewIDj intentID (st_ID t) "finished" (wt_Branch wt) (wr_Status r) (wr_Summary r) (wr_Error r);
    mret r.

Definition set_merge (r : WorkerTaskResult) (status merge sha err : string) : WorkerTaskResult :=
  mkTaskResult (wr_TaskID r) (wr_Branch r) status (wr_Summary r) merge sha (wr_Usage r) err.

(** Commit, check the scope, merge: one task of the sequential phase. *)
Definition merge_task (x : SubTask * Worktree * WorkerTaskResult) : M WorkerTaskResult :=
  let '(t, wt, r) := x in
  if negb (String.eqb (wr_Status r) WorkerStatusSuccess) then mret (set_merge r (wr_Status r) "skipped" (wr_MergedSHA r) (wr_Error r))
  else
    committed ← CommitAll git repo wt ("nomaddev worker-pool task " +:+ st_ID t);
    match committed with
    | Err e => mret (set_merge r WorkerStatusFailed "skipped" (wr_MergedSHA r) ("commit failed: " +:+ git_msg e))
    | Ok false => mret (set_merge r (wr_Status r) "skipped" (wr_MergedSHA r) (wr_Error r))
    | Ok true =>
        changed ← ChangedFiles git repo wt baseSHA;
        match changed with
        | Err e => mret (set_merge r WorkerStatusFailed "skipped" (wr_MergedSHA r) ("scope check failed: " +:+ git_msg e))
        | Ok files =>
            match outOfScope files (st_Paths t) with
            | [] =>
                m ← Merge git repo (wt_Branch wt) ("Merge worker-pool task " +:+ st_ID t);
                match m with
                | (_, Some e) => mret (set_merge r (wr_Status r) "conflict" (wr_MergedSHA r) (git_msg e))
                | (mr, None) =>
                    _ ← emitWorkerUpdate NewID intentID (wr_TaskID r) "merged" (wt_Branch wt) (wr_Status r) "" "";
                    mret (set_merge r (wr_Status r) "merged" (MergedSHA mr) (wr_Error r))
                end
            | bad =>
                let err := "modified files outside the declared scope: " +:+ StrJoin ", " bad in
                _ ← emitWorkerUpdate NewID intentID (wr_TaskID r) "scope_violation" (wt_Branch wt) WorkerStatusScopeViolation "" err;
                mret (set_merge r WorkerStatusScopeViolation "skipped" (wr_MergedSHA r) err)
            end
        end
    end.

Fixpoint merge_tasks (l : list (SubTask * Worktree * WorkerTaskResult)) : M (list WorkerTaskResult) :=
  match l with
  | [] => mret []
  | x :: l' => r ← merge_task x; rs ← merge_tasks l'; mret (r :: rs)
  end.

(** What follows the creation of the worktrees, with the deferred cleanup. *)
Definition run_tasks (cmdID : string) (c : Call) (primaryRef : string) (parentHistory : list Turn) (tasks : list SubTask) (wts : list Worktree) : M outcome :=
  results ← par NewID sched (imap (worker parentHistory) (zip tasks wts));
  results ← merge_tasks (zip (zip tasks wts) results);
  o ← host_ok NewID elapsed history_ok cmdID c (pool_output (mkPoolResult baseSHA primaryRef results));
  _ ← mapM_ remove_worktree (zip wts (workerKeepBranch <$> results));
  mret o.
End run.

Definition runWorkerPool (intentID cmdID : string) (c : Call) : M outcome :=
  let fail := host_fail NewID elapsed history_ok cmdID c in
  if negb (pc_Enabled pc) then fail SandboxErrBadRequest "dispatch_worker_pool is not enabled; set NOMADDEV_WORKER_POOL_ENABLED=true"
  else if pc_PerSessionWorkspace pc then fail SandboxErrBadRequest "dispatch_worker_pool requires NOMADDEV_SANDBOX_PER_SESSION_WORKSPACE=false"
  else match ParseWorkerPoolArgs (call_Args c) (pc_MaxTasks pc) with
  | Err e => fail SandboxErrBadRequest e
  | Ok a =>
      match Open getwd lookPath_ok has_dot_git (pc_WorkspaceDir pc) with
      | Err e => fail SandboxErrBadRequest ("worker pool: " +:+ git_msg e)
      | Ok repo =>
          base ← HeadSHA git repo "HEAD";
          match base with
          | Err e => fail SandboxErrInternal ("worker pool: read HEAD: " +:+ git_msg e)
          | Ok baseSHA =>
              ref ← CurrentBranch git repo;
              match ref with
              | Err e => fail SandboxErrInternal ("worker pool: read current branch: " +:+ git_msg e)
              | Ok primaryRef =>
                  match load_window with
                  | Err e => fail SandboxErrInternal ("worker pool: load history: " +:+ e)
                  | Ok parentHistory =>
                      added ← add_worktrees repo intentID baseSHA [] (Tasks a);
                      match added with
                      | Err msg => fail SandboxErrInternal msg
                      | Ok wts => run_tasks repo intentID baseSHA cmdID c primaryRef parentHistory (Tasks a) wts
                      end
                  end
              end
          end
      end
  end.
End pool.
