(* ===== verification/PoolSpec.v ===== *)
(** * What the worker pool guarantees

    Theorems about Pool.v: however the tasks interleave, the pool answers its
    call once, its workers' calls stay in their worktrees and pass the approval
    gate, only checked work is merged, and no worktree outlives the call. *)

From S2P Require Import Prelude GoString GoConv Event Paths Wire Utf8 Auth Sandbox Daemon Os Fsops FsopsSpec History Tools WorkerPool Approver Recovery LspWire Lsp Server ServerSpec Dispatcher Intent IntentSpec HostTools Git Pool.

(** ** Running in parallel *)

Lemma par_run {A} NewID sched (fs : list ((nat -> string) -> M A)) (Q : nat -> list effect -> A -> Prop) w :
  (forall j f, fs !! j = Some f -> emits (f (strided NewID (minted_ids w) (length fs) j)) (Q j)) ->
  exists n logs, minted_ids w <= n /\ (par NewID sched fs w).1 = mkWorld n (slots w) (elog w ++ interleave sched logs) /\
    length (par NewID sched fs w).2 = length fs /\ length logs = length fs /\
    forall j l r, logs !! j = Some l -> (par NewID sched fs w).2 !! j = Some r -> Q j l r.
Proof.
  intros HQ. eexists _, _. split; [|split; [reflexivity|]]; [lia|]. unfold par. cbn [fst snd]. rewrite !length_fmap, length_imap. split_and!; [done|done|]. intros j l r Hl Hr.
  rewrite list_lookup_fmap, list_lookup_imap in Hl. rewrite list_lookup_fmap, list_lookup_imap in Hr. destruct (fs !! j) as [f|] eqn:Ef; simpl in *; [|discriminate]. injection Hl as <-. injection Hr as <-.
  destruct (HQ j f Ef (mkWorld 0 None (elog w))) as (n & l & _ & E & Hq). rewrite E. simpl. by rewrite drop_app_length.
Qed.

Lemma interleave_Forall {A} (P : A -> Prop) sched (logs : list (list A)) : (forall j l, logs !! j = Some l -> Forall P l) -> Forall P (interleave sched logs).
Proof.
  intros HP. rewrite interleave_perm. apply Forall_concat, Forall_forall. intros l (j & Hj)%list_elem_of_lookup. by eapply HP.
Qed.

Lemma interleave_elem {A} (x : A) sched logs : x ∈ interleave sched logs -> exists j l, logs !! j = Some l /\ x ∈ l.
Proof.
  rewrite interleave_perm, list_elem_of_In. intros (l & Hl%list_elem_of_In & Hx%list_elem_of_In)%in_concat.
  apply list_elem_of_lookup in Hl as [j Hj]. eauto.
Qed.

(** ** What a worker does *)

(** Its effects: never a start of the parent's commands, never a run of git,
    and results only for commands it minted. *)
Definition worker_effect (NewID : nat -> string) (e : effect) : Prop :=
  tool_effect e /\ ~ is_start e /\ git_argv e = None /\ forall cmdID, result_of cmdID e -> exists i, cmdID = NewID i.

Definition pool_update (intentID : string) (e : effect) : Prop := exists id p, e = Emit (mkFrame id intentID (BWorker p)).

Section worker.
Variable NewID : nat -> string.
Variable elapsed : nat -> Z.
Variable answer : string -> await_result.
Variable flt : faults.
Variable cf : server_config.
Variable fs : FS.
Variable url_Parse : string -> option (string * string).
Variable pol : policy.
Variable fsops : option Engine.
Variable Dispatch : list effect -> Call -> string -> result gerror (list ExecChunk).

(** A dispatch that passed the checks of [runWorkerToolCall] for [task] in
    worktree [wtID]. *)
Definition worker_call (wtID : string) (task : SubTask) (tool : string) (a : args) (wd : string) : Prop :=
  exists orig, is_ok (Validate url_Parse validateDispatchWorkerPool tool orig) = true /\ scopeWorkerCall tool orig wtID task = Ok (a, wd).

(** Right before it, when the policy asks for it, a granted request. *)
Definition gated_call (tool : string) (a : args) (x : effect) (l : list effect) : Prop :=
  (RequiresApproval pol tool).1 = true -> exists id cmdID pl, [Emit (mkFrame id cmdID (BApproval pl)); x] `sublist_of` l /\
    answer id = Granted /\ ta_Tool pl = tool /\ ta_Args pl = default [] (RedactArgs (Some a)).

Definition calls_ok (wtID : string) (task : SubTask) (l : list effect) : Prop :=
  forall tool a wd, Host (WorkerDispatch tool a wd) ∈ l ->
    worker_call wtID task tool a wd /\ gated_call tool a (Host (WorkerDispatch tool a wd)) l.

Definition no_call (e : effect) : Prop := forall tool a wd, e <> Host (WorkerDispatch tool a wd).

Lemma calls_ok_none wtID task l : Forall no_call l -> calls_ok wtID task l.
Proof. intros Hl tool a wd Hin. rewrite Forall_forall in Hl. by destruct (Hl _ Hin tool a wd). Qed.

Lemma calls_ok_app wtID task l k : calls_ok wtID task l -> calls_ok wtID task k -> calls_ok wtID task (l ++ k).
Proof.
  intros Hl Hk tool a wd [Hin|Hin]%elem_of_app; [destruct (Hl _ _ _ Hin) as [? Hg]|destruct (Hk _ _ _ Hin) as [? Hg]]; (split; [done|]);
    intros Hreq; destruct (Hg Hreq) as (id & cmdID & pl & Hs & ?); exists id, cmdID, pl; (split; [|done]).
  - by apply sublist_inserts_r.
  - by apply sublist_inserts_l.
Qed.

(** The postcondition of every piece of a worker. *)
Definition worker_post (wtID : string) (task : SubTask) (l : list effect) : Prop :=
  Forall (worker_effect NewID) l /\ calls_ok wtID task l.

Lemma worker_post_app wtID task l k : worker_post wtID task l -> worker_post wtID task k -> worker_post wtID task (l ++ k).
Proof. intros [? ?] [? ?]. split; [by apply Forall_app|by apply calls_ok_app]. Qed.

Lemma worker_post_nil wtID task : worker_post wtID task [].
Proof. split; [done|]. by apply calls_ok_none. Qed.

Lemma worker_bind {A B} wtID task (m : M A) (f : A -> M B) :
  emits m (fun l _ => worker_post wtID task l) -> (forall a, emits (f a) (fun l _ => worker_post wtID task l)) ->
  emits (m ≫= f) (fun l _ => worker_post wtID task l).
Proof. intros Hm Hf. eapply emits_bind; [exact Hm|]. intros l1 a H1. eapply emits_impl; [apply Hf|]. intros l2 b H2. by apply worker_post_app. Qed.

Lemma plain_post wtID task l : Forall (fun e => worker_effect NewID e /\ no_call e) l -> worker_post wtID task l.
Proof.
  intros Hl. split; [eapply Forall_impl; [exact Hl|]; by intros x [? ?]|]. apply calls_ok_none. eapply Forall_impl; [exact Hl|]. by intros x [? ?].
Qed.

(** Frames that are not results. *)
Lemma frame_ok id corr b : tool_effect (Emit (mkFrame id corr b)) -> (forall p, b <> BResult p) ->
  worker_effect NewID (Emit (mkFrame id corr b)) /\ no_call (Emit (mkFrame id corr b)).
Proof. intros Ht Hb. split; [|done]. split_and!; [done|by intros []|done|]. intros cmdID (i & p & [= -> -> ->]). by destruct (Hb p). Qed.

Lemma result_ok id i p : worker_effect NewID (Emit (mkFrame id (NewID i) (BResult p))) /\ no_call (Emit (mkFrame id (NewID i) (BResult p))).
Proof. split; [|done]. split_and!; [done|by intros []|done|]. intros cmdID (j & q & [= -> <- ->]). by exists i. Qed.

Lemma progress_ok cmdID l : Forall (progress cmdID) l -> Forall (fun e => worker_effect NewID e /\ no_call e) l.
Proof. intros Hl. eapply Forall_impl; [exact Hl|]. intros x (i & [[p ->]|[p ->]]); by apply frame_ok. Qed.

Lemma toolErr_post wtID task i c code msg : emits (toolErr NewID elapsed (NewID i) c code msg) (fun l _ => worker_post wtID task l).
Proof.
  eapply worker_bind; [|intros []; apply emits_ret, worker_post_nil]. apply emits_result. intros id dur. apply plain_post. repeat constructor; apply result_ok.
Qed.

Lemma tool_loop_post wtID task i q k ch : emits (tool_loop NewID elapsed (NewID i) q k ch) (fun l _ => worker_post wtID task l).
Proof.
  revert q k. induction ch as [|c ch IH]; intros q k; simpl; [apply emits_ret, worker_post_nil|].
  assert (emits (emitChunk NewID (NewID i) c q) (fun l _ => worker_post wtID task l)) as Hc.
  { eapply emits_impl; [apply emits_chunk|]. intros l q' (Hl & _). by eapply plain_post, progress_ok. }
  destruct (Stream c); [by apply worker_bind..| |apply IH]. destruct (classifyExit c) as [[code ec] em].
  apply worker_bind; [|intros []; apply IH]. apply emits_result. intros id dur. apply plain_post. repeat constructor; apply result_ok.
Qed.

Lemma asked_post wtID task pend tool a id l : asked pend tool a id l -> worker_post wtID task l.
Proof. intros (pl & -> & _). apply plain_post. repeat constructor; by apply frame_ok. Qed.

(** The gate and the dispatch. *)
Lemma dispatched_post wtID task tool a wd pend lg :
  worker_call wtID task tool a wd -> let_through answer pol pend tool a lg -> worker_post wtID task (lg ++ [Host (WorkerDispatch tool a wd)]).
Proof.
  intros Hcall Hlg. set (x := Host (WorkerDispatch tool a wd)).
  assert (worker_effect NewID x) as Hx by (split_and!; [done|by intros []|done|by intros ? (? & ? & [=])]).
  assert (worker_post wtID task lg) as [Hlg1 Hlg2] by (destruct Hlg as [[_ ->]|(id & Hask & _)]; [apply worker_post_nil|by eapply asked_post]).
  split; [apply Forall_app; split; [done|constructor; [exact Hx|constructor]]|]. intros tool' a' wd' [Hin|Hin]%elem_of_app.
  { destruct (Hlg2 _ _ _ Hin) as [? Hg]. split; [done|]. intros Hreq. destruct (Hg Hreq) as (id & cmdID & pl & Hs & ?). exists id, cmdID, pl.
    split; [by apply sublist_inserts_r|done]. }
  apply list_elem_of_singleton in Hin as [= -> -> ->]. split; [done|]. intros Hreq.
  destruct Hlg as [[Hf _]|(id & (pl & -> & Ht & Ha) & Hans)]; [congruence|]. exists id, pend, pl. by rewrite Ht.
Qed.

Lemma runWorkerToolCall_post workerIntentID c wt task :
  emits (runWorkerToolCall NewID elapsed answer flt cf fs url_Parse pol fsops Dispatch workerIntentID c wt task) (fun l _ => worker_post (wt_ID wt) task l).
Proof.
  eapply (emits_bind _ _ (fun l id => l = [] /\ exists i, id = NewID i)); [apply emits_new_id; eauto|]. intros l0 cmdID [-> [i ->]].
  eapply worker_bind; [apply emits_perform, plain_post; repeat constructor; by apply frame_ok|]. intros [].
  destruct (Validate _ _ _ _) eqn:Hval; [|apply toolErr_post].
  destruct (scopeWorkerCall _ _ _ _) as [[sa wd]|msg] eqn:Hsc; [|apply toolErr_post].
  eapply emits_bind; [apply requestApproval_spec|]. intros lg [[[code msg] cx]|] Hlg.
  { eapply emits_impl; [apply (toolErr_post (wt_ID wt) task)|]. intros l r Hl. apply worker_post_app; [|exact Hl].
    destruct Hlg as [->|(id & Hask & _)]; [apply worker_post_nil|by eapply asked_post]. }
  eapply emits_bind; [by apply (emits_log (fun l _ => l = []))|]. intros l1 lg' ->.
  eapply (emits_bind _ _ (fun l _ => l = [Host (WorkerDispatch (call_Tool c) sa wd)])); [by apply emits_perform|]. intros l2 [] ->.
  match goal with |- emits ?m _ => assert (emits m (fun l _ => worker_post (wt_ID wt) task l)) as Hm end.
  { destruct (Dispatch _ _ _); [|apply toolErr_post]. apply worker_bind; [apply tool_loop_post|]. intros k. apply emits_ret, worker_post_nil. }
  eapply emits_impl; [exact Hm|]. intros l r Hl. rewrite app_nil_l, app_assoc. apply worker_post_app; [|exact Hl].
  eapply dispatched_post; [|exact Hlg]. exists (call_Args c). by rewrite Hval.
Qed.

Lemma task_loop_post task wt n workerIntentID resume done summary u events :
  emits (task_loop NewID elapsed answer flt cf fs url_Parse pol fsops Dispatch task wt n workerIntentID resume done summary u events)
    (fun l _ => worker_post (wt_ID wt) task l).
Proof.
  revert done summary u events. induction n as [|n IH]; intros done summary u events; simpl; (destruct (sg_err _); [apply emits_ret, worker_post_nil|]);
    [apply emits_ret, worker_post_nil|].
  destruct (sg_final _); [apply emits_ret, worker_post_nil|]. destruct (sg_call _) as [c|]; [|apply emits_ret, worker_post_nil].
  apply worker_bind; [apply runWorkerToolCall_post|]. intros r. destruct (resume _); [apply IH|apply emits_ret, worker_post_nil].
Qed.

Lemma dispatchOneTask_post task wt deadline Stream parentHistory prompt sid model tools :
  emits (dispatchOneTask NewID elapsed answer flt cf fs url_Parse pol fsops Dispatch task wt deadline Stream parentHistory prompt sid model tools)
    (fun l _ => worker_post (wt_ID wt) task l).
Proof.
  unfold dispatchOneTask. destruct (Stream _) as [[events resume]|e]; [|apply emits_ret, worker_post_nil].
  apply worker_bind; [apply emits_new_id; intros; apply worker_post_nil|]. intros id. apply task_loop_post.
Qed.
End worker.

(** ** Confinement *)

(** [Forall] over an explicit list. *)
Ltac each := repeat first [apply Forall_nil_2|apply Forall_cons_2; [done|]].

Lemma join_child cs x : cs <> [] -> Forall plain cs -> plain x -> Join2 ("/" +:+ JoinByte slash cs) x = "/" +:+ JoinByte slash (cs ++ [x]).
Proof.
  intros Hne Hcs Hx. unfold Join2. rewrite (proj2 (String.eqb_neq _ _)) by done. rewrite (proj2 (String.eqb_neq x _)) by apply Hx.
  apply (Clean_abs_app cs [x] [x]); try done; [by each|apply Forall_cons_2; [apply Hx|done]|]. intros st. apply foldl_plain. by each.
Qed.

Lemma within_comps cs ds : cs <> [] -> withinRoot ("/" +:+ JoinByte slash cs) ("/" +:+ JoinByte slash (cs ++ ds)) = true.
Proof.
  intros Hne. apply withinRoot_spec. destruct (decide (ds = [])) as [->|Hd]; [left; by rewrite app_nil_r|right].
  exists (JoinByte slash ds). by rewrite Join_app, str_app_assoc by done.
Qed.

Lemma CleanWorkspacePath_Ok raw c : CleanWorkspacePath raw = Ok c -> exists ds, Forall plain ds /\ c = if decide (ds = []) then "." else JoinByte slash ds.
Proof.
  unfold CleanWorkspacePath. destruct (String.eqb _ ""); [done|]. destruct (HasPrefix (TrimSpace raw) "/") eqn:Hr; [done|].
  destruct (String.eqb_spec (Clean (TrimSpace raw)) "..") as [|Hdd]; [done|]. destruct (HasPrefix _ "../") eqn:Hp; [done|]. intros [= <-].
  destruct (Clean_relative _ Hr Hdd Hp) as (ds & Hds & _ & E). eauto.
Qed.

(** A path under the worktree's prefix resolves inside the worktree. *)
Lemma prefixed_within root wtID raw c :
  clean_root root -> plain wtID -> CleanWorkspacePath raw = Ok c ->
  withinRoot (Join2 (Join2 root worktreesDir) wtID) (Join2 root (worktreePrefix +:+ "/" +:+ wtID +:+ "/" +:+ c)) = true.
Proof.
  intros (cs & Hne & Hcs & ->) Hid (ds & Hds & ->)%CleanWorkspacePath_Ok.
  assert (plain worktreesDir) as Hwd by done. rewrite (join_child cs worktreesDir), (join_child (cs ++ [worktreesDir]) wtID) by (first [done|by destruct cs|apply Forall_app; split; by each]).
  rewrite <-app_assoc. cbn [app].
  set (tail := if decide (ds = []) then ["."] else ds).
  assert (tail <> []) as Htn by (unfold tail; by case_decide).
  assert (worktreePrefix +:+ "/" +:+ wtID +:+ "/" +:+ (if decide (ds = []) then "." else JoinByte slash ds) = JoinByte slash ([worktreesDir; wtID] ++ tail)) as ->.
  { rewrite Join_app by done. cbn [JoinByte]. rewrite <-!str_app_assoc. unfold tail. by case_decide. }
  assert (Join2 ("/" +:+ JoinByte slash cs) (JoinByte slash ([worktreesDir; wtID] ++ tail)) = "/" +:+ JoinByte slash (cs ++ [worktreesDir; wtID] ++ ds)) as ->.
  2:{ rewrite app_assoc. apply within_comps. by destruct cs. }
  unfold Join2. rewrite (proj2 (String.eqb_neq _ _)) by done. rewrite (proj2 (String.eqb_neq (JoinByte _ _) _)) by by rewrite Join_app.
  apply Clean_abs_app; try done.
  - apply Forall_app. split; [by each|done].
  - apply Forall_app. split; [apply Forall_cons_2; [done|]; apply Forall_cons_2; [apply Hid|done]|]. unfold tail. case_decide; [by each|]. eapply Forall_impl; [exact Hds|]. by intros x (_ & _ & _ & ?).
  - intros st. rewrite foldl_app, reverse_app, <-app_assoc. rewrite (foldl_plain true [worktreesDir; wtID]) by by each.
    unfold tail. case_decide as Hd; [by rewrite Hd|]. by apply foldl_plain.
Qed.

(** The argument that names a file, for the tools whose files are confined. *)
Definition path_key (tool : string) : option string :=
  if existsb (String.eqb tool) [ToolReadFile; ToolListDir; ToolPinFile; ToolUnpinFile; ToolWritePatch] then Some "path"
  else if String.eqb tool ToolApplyCodePatch then Some "file_path" else None.

Definition writes_file (tool : string) : bool := String.eqb tool ToolWritePatch || String.eqb tool ToolApplyCodePatch.

Definition confined (root : string) (wtID : string) (task : SubTask) (tool : string) (a : args) (wd : string) : Prop :=
  let dir := Join2 (Join2 root worktreesDir) wtID in
  (forall key, path_key tool = Some key -> exists rel, let p := worktreePrefix +:+ "/" +:+ wtID +:+ "/" +:+ rel in
     arg_lookup a key = Some (AStr p) /\ withinRoot dir (Join2 root p) = true /\ (writes_file tool = true -> PathInScope rel (st_Paths task) = true)) /\
  (tool = ToolExecuteScript \/ tool = ToolSearchSyntax -> Join2 root wd = dir).

Lemma rewrite_arg_Ok root a wtID task key enforce a' :
  clean_root root -> plain wtID -> rewrite_arg a (worktreePrefix +:+ "/" +:+ wtID) task key enforce = Ok a' ->
  exists rel, let p := worktreePrefix +:+ "/" +:+ wtID +:+ "/" +:+ rel in
    arg_lookup a' key = Some (AStr p) /\ withinRoot (Join2 (Join2 root worktreesDir) wtID) (Join2 root p) = true /\ (enforce = true -> PathInScope rel (st_Paths task) = true).
Proof.
  intros Hroot Hid. unfold rewrite_arg. destruct (CleanWorkspacePath _) as [c|e] eqn:Ec; [|done].
  destruct (enforce && negb _) eqn:Hs; [done|]. intros [= <-]. exists c. cbv zeta. simpl. rewrite String.eqb_refl. split_and!.
  - done.
  - by eapply prefixed_within.
  - intros ->. simpl in Hs. by apply negb_false_iff in Hs.
Qed.

Lemma scopeWorkerCall_confined root tool orig wtID task a wd :
  clean_root root -> plain wtID -> scopeWorkerCall tool orig wtID task = Ok (a, wd) -> confined root wtID task tool a wd.
Proof.
  intros Hroot Hid Hsc. pose proof (rewrite_arg_Ok root orig wtID task) as Hrw. unfold confined. cbv zeta.
  assert (Join2 root (worktreePrefix +:+ "/" +:+ wtID) = Join2 (Join2 root worktreesDir) wtID) as Hdir.
  { destruct Hroot as (cs & Hne & Hcs & ->). assert (plain worktreesDir) as Hwd by done.
    rewrite (join_child cs worktreesDir), (join_child (cs ++ [worktreesDir]) wtID) by (first [done|by destruct cs|apply Forall_app; split; by each]).
    rewrite <-app_assoc. change (worktreePrefix +:+ "/" +:+ wtID) with (JoinByte slash [worktreesDir; wtID]).
    unfold Join2. rewrite (proj2 (String.eqb_neq _ _)) by done. rewrite (proj2 (String.eqb_neq (JoinByte _ _) _)) by done.
    apply Clean_abs_app; try done; [by each|apply Forall_cons_2; [done|]; apply Forall_cons_2; [apply Hid|done]|]. intros st. apply foldl_plain. by each. }
  unfold scopeWorkerCall in Hsc. unfold path_key, writes_file.
  destruct (existsb (String.eqb tool) [ToolReadFile; ToolListDir; ToolPinFile; ToolUnpinFile]) eqn:Hr.
  { apply existsb_exists in Hr as (y & Hin & ->%String.eqb_eq). destruct (rewrite_arg _ _ _ _ _) as [m|e] eqn:Hm; [|done]. injection Hsc as <- <-.
    destruct (Hrw "path" false m Hroot Hid Hm) as (rel & H1 & H2 & _).
    assert (existsb (String.eqb y) [ToolReadFile; ToolListDir; ToolPinFile; ToolUnpinFile; ToolWritePatch] = true) as -> by (simpl in Hin; by decompose [or] Hin; subst).
    split; [intros key [= <-]; exists rel; split_and!; try done; simpl in Hin; decompose [or] Hin; by subst|simpl in Hin; intros [-> | ->]; by decompose [or] Hin]. }
  destruct (String.eqb_spec tool ToolWritePatch) as [->|Hw].
  { destruct (rewrite_arg _ _ _ _ _) as [m|e] eqn:Hm; [|done]. injection Hsc as <- <-. destruct (Hrw "path" true m Hroot Hid Hm) as (rel & H1 & H2 & H3).
    split; [intros key [= <-]; by exists rel|by intros [|]]. }
  destruct (String.eqb_spec tool ToolApplyCodePatch) as [->|Ha].
  { destruct (rewrite_arg _ _ _ _ _) as [m|e] eqn:Hm; [|done]. injection Hsc as <- <-. destruct (Hrw "file_path" true m Hroot Hid Hm) as (rel & H1 & H2 & H3).
    split; [intros key [= <-]; by exists rel|by intros [|]]. }
  split.
  - intros key. replace (existsb _ _) with false; [done|]. symmetry. simpl in *. rewrite !orb_false_iff in *. rewrite (proj2 (String.eqb_neq tool _) Hw). tauto.
  - intros Ht. destruct (String.eqb tool ToolExecuteScript || String.eqb tool ToolSearchSyntax) eqn:Es; [by injection Hsc as <- <-|].
    apply orb_false_iff in Es as [E1%String.eqb_neq E2%String.eqb_neq]. by destruct Ht.
Qed.

(** ** The pool *)

Lemma omap_none {A B} (f : A -> option B) l : Forall (fun x => f x = None) l -> omap f l = [].
Proof. induction 1 as [|x l Hx _ IH]; [done|]. simpl. by rewrite Hx. Qed.

Lemma git_other_split l : Forall git_other l -> Forall repo_op l /\ Forall (fun e => add_path e = None) l /\ Forall (fun e => merge_branch e = None) l.
Proof.
  intros Hl. split_and!; (eapply Forall_impl; [exact Hl|]); by intros x ((dir & argv & ->) & ? & ?).
Qed.

Section pool.
Variable NewID : nat -> string.
Variable elapsed : nat -> Z.
Variable answer : string -> await_result.
Variable flt : faults.
Variable cf : server_config.
Variable fs : FS.
Variable url_Parse : string -> option (string * string).
Variable history_ok : list effect -> bool.
Variable sid : string.
Variable pol : policy.
Variable fsops : option Engine.
Variable pc : pool_config.
Variable git : list effect -> string -> list string -> git_out.
Variable getwd : result string string.
Variable lookPath_ok has_dot_git : bool.
Variable mkdir_ok : list effect -> bool.
Variable load_window : result string (list Turn).
Variable sched : list nat.
Variable admitted : nat -> bool.
Variable deadline : nat -> nat.
Variable Stream : nat -> TurnInput -> result string (list AssistantEvent * (list ToolResult -> result string (list AssistantEvent))).
Variable Dispatch : nat -> list effect -> Call -> string -> result gerror (list ExecChunk).

Section run.
Variable repo : Repo.
Variable intentID baseSHA : string.

Abbreviation removal path := (gitcmd (r_root repo) (remove_cmd path)).
Abbreviation pend := (pending git repo).

(** The worktree of a task. *)
Definition worktree_of (t : SubTask) : Worktree :=
  mkWorktree (worktree_id intentID t) (worktree_path repo (worktree_id intentID t)) (branch_of intentID t).

Lemma removals_spec xs :
  emits (mapM_ (remove_worktree git repo) xs) (fun l _ => Forall git_other l /\ forall x, x ∈ xs -> removal (wt_Path x.1) ∈ l).
Proof.
  induction xs as [|x xs IH]; simpl; [apply emits_ret; split; [done|by intros x ?%not_elem_of_nil]|].
  eapply (emits_bind _ _ (fun l _ => removal (wt_Path x.1) ∈ l /\ Forall git_other l)).
  { eapply emits_bind; [apply RemoveWorktree_spec|]. intros l a [Hin Hl]. apply emits_ret. by rewrite app_nil_r. }
  intros l1 [] [Hin Hl1]. eapply emits_impl; [exact IH|]. intros l2 [] [Hl2 Hall]. split; [by apply Forall_app|].
  intros y [->|Hy]%elem_of_cons; apply elem_of_app; auto.
Qed.

Lemma pending_mono l0 l P P' : pend l0 l P -> P ⊆ P' -> pend l0 l P'.
Proof. intros H HP pre x post path E Hx Hg. destruct (H pre x post path E Hx Hg); auto. Qed.

Lemma add_worktrees_at l0 wts ts :
  emits_at l0 (add_worktrees git mkdir_ok repo intentID baseSHA wts ts) (fun l x => Forall repo_op l /\ Forall (fun e => merge_branch e = None) l /\
    match x with
    | Ok out => out = wts ++ (worktree_of <$> ts) /\ Forall (fun t => validID (worktree_id intentID t) = Ok tt) ts /\
                pend l0 l (wt_Path ∘ worktree_of <$> ts)
    | Err _ => pend l0 l [] /\ forall wt, wt ∈ wts -> removal (wt_Path wt) ∈ l
    end).
Proof.
  revert l0 wts. induction ts as [|t ts IH]; intros l0 wts; simpl.
  { apply emits_at_ret. rewrite app_nil_r. split_and!; try done. by apply pending_none. }
  eapply emits_at_bind; [apply AddWorktree_at|]. intros l1 [wt|e] (Hh1 & Hm1 & Hx).
  - destruct Hx as (-> & Hid & Hp1). fold (worktree_of t) in *. eapply emits_at_impl; [apply IH|].
    intros l2 x (Hh2 & Hm2 & Hx2). split; [by apply Forall_app|]. split; [by apply Forall_app|]. destruct x as [out|e].
    + destruct Hx2 as (-> & Hids & Hp2). rewrite <-app_assoc. split_and!; [done|by constructor|].
      eapply pending_app; [exact Hp1|eapply pending_mono; [exact Hp2|set_solver]|]. intros path Hin. right. set_solver.
    + destruct Hx2 as (Hp2 & Hrem). split.
      * eapply pending_app; [exact Hp1|exact Hp2|]. intros path ->%list_elem_of_singleton. left. apply Hrem. set_solver.
      * intros wt Hin. apply elem_of_app. right. apply Hrem. set_solver.
  - eapply emits_at_bind; [exact (proj1 (emits_emits_at _ _) (removals_spec _) _)|]. intros l2 [] [Hl2 Hall]. apply emits_at_ret. rewrite app_nil_r.
    apply git_other_split in Hl2 as (? & ? & ?). split_and!; [by apply Forall_app|by apply Forall_app| |].
    + eapply pending_app; [exact Hx|by apply pending_none|by intros ? ?%not_elem_of_nil].
    + intros wt Hin. apply elem_of_app. right. apply (Hall (wt, false)). apply list_elem_of_fmap. eauto.
Qed.

(** *** The workers *)

(** The frame that reports the task's success. *)
Definition finished_ok (t : SubTask) (e : effect) : Prop :=
  exists id p, e = Emit (mkFrame id intentID (BWorker p)) /\ wu_TaskID p = st_ID t /\ wu_Phase p = "finished" /\ wu_Status p = WorkerStatusSuccess.

Definition worker_done (NewIDj : nat -> string) (t : SubTask) (l : list effect) (r : WorkerTaskResult) : Prop :=
  worker_post NewIDj answer url_Parse pol (worktree_id intentID t) t l /\
  (wr_Status r = WorkerStatusSuccess -> exists e, e ∈ l /\ finished_ok t e).

Lemma update_post NewIDj wtID t taskID phase branch status summary err :
  emits (emitWorkerUpdate NewIDj intentID taskID phase branch status summary err) (fun l _ =>
    worker_post NewIDj answer url_Parse pol wtID t l /\ exists id p, l = [Emit (mkFrame id intentID (BWorker p))] /\
      wu_TaskID p = taskID /\ wu_Phase p = phase /\ wu_Status p = status).
Proof.
  apply emits_reply. intros id. split; [apply plain_post; repeat constructor; by apply frame_ok|]. by eexists id, _.
Qed.

Lemma worker_spec parentHistory j t NewIDj :
  emits (worker elapsed answer flt cf fs url_Parse sid pol fsops pc admitted deadline Stream Dispatch intentID parentHistory j (t, worktree_of t) NewIDj)
    (worker_done NewIDj t).
Proof.
  unfold worker. destruct (admitted j); simpl; [|by apply emits_ret; split; [apply worker_post_nil|]].
  eapply emits_bind; [apply (update_post NewIDj (worktree_id intentID t) t)|]. intros l1 [] (H1 & _).
  eapply emits_bind; [apply dispatchOneTask_post|]. intros l2 r H2.
  eapply emits_bind; [apply (update_post NewIDj (worktree_id intentID t) t)|]. intros l3 [] (H3 & id & p & -> & Hp).
  apply emits_ret. rewrite app_nil_r. split; [by repeat apply worker_post_app|].
  intros Hs. eexists. split; [do 2 (apply elem_of_app; right); by apply list_elem_of_here|]. exists id, p. split; [done|]. by rewrite <-Hs.
Qed.

(** *** The merges *)

(** The last thing before a merge is the scope check of that branch, and git
    listed only files in scope. *)
Definition merge_checked (l0 pre : list effect) (t : SubTask) : Prop :=
  exists pre', let dir := run_dir repo (wt_Path (worktree_of t)) in let cmd := diff_cmd baseSHA (branch_of intentID t) in
    pre = pre' ++ [gitcmd dir cmd] /\ go_err (git (l0 ++ pre') dir cmd) = None /\
    Forall (fun f => PathInScope f (st_Paths t) = true) (splitLines (TrimRight is_blank (go_stdout (git (l0 ++ pre') dir cmd)))).

Lemma merge_checked_app l0 l1 pre t : merge_checked (l0 ++ l1) pre t -> merge_checked l0 (l1 ++ pre) t.
Proof. intros (pre' & -> & Hg & Hf). exists (l1 ++ pre'). rewrite !app_assoc in *. done. Qed.

(** The merges of a run over the tasks [xs]. *)
Definition merges_ok (l0 l : list effect) (xs : list (SubTask * WorkerTaskResult)) : Prop :=
  omap merge_branch l `sublist_of` (branch_of intentID ∘ fst <$> xs) /\
  forall pre e post b, l = pre ++ e :: post -> merge_branch e = Some b ->
    exists t r, (t, r) ∈ xs /\ b = branch_of intentID t /\ wr_Status r = WorkerStatusSuccess /\ merge_checked l0 pre t.

Lemma merges_none l0 l xs : Forall (fun e => merge_branch e = None) l -> merges_ok l0 l xs.
Proof.
  intros Hl. split; [rewrite omap_none by done; apply sublist_nil_l|].
  intros pre e post b -> He. apply Forall_app in Hl as [_ [? _]%Forall_cons]. congruence.
Qed.

Lemma merges_app l0 l1 l2 xs ys : merges_ok l0 l1 xs -> merges_ok (l0 ++ l1) l2 ys -> merges_ok l0 (l1 ++ l2) (xs ++ ys).
Proof.
  intros [Hs1 H1] [Hs2 H2]. split; [rewrite omap_app, fmap_app; by apply sublist_app|].
  intros pre e post b [(k & E & ->)|(k & -> & E)]%app_eq_mid He.
  - destruct (H1 _ _ _ _ E He) as (t & r & Hin & ?). exists t, r. split; [set_solver|done].
  - destruct (H2 _ _ _ _ E He) as (t & r & Hin & ? & ? & ?). exists t, r. split_and!; [set_solver|done|done|]. by apply merge_checked_app.
Qed.

Lemma merges_one l0 pre m rest t r :
  wr_Status r = WorkerStatusSuccess -> merge_checked l0 pre t -> Forall (fun e => merge_branch e = None) pre -> Forall (fun e => merge_branch e = None) rest ->
  merges_ok l0 (pre ++ gitcmd (r_root repo) (merge_cmd (branch_of intentID t) m) :: rest) [(t, r)].
Proof.
  intros Hs Hc Hpre Hrest. set (x := gitcmd _ _). assert (merge_branch x = Some (branch_of intentID t)) as Hx by done. clearbody x. split.
  - rewrite omap_app. simpl. rewrite Hx. rewrite !omap_none by done. done.
  - intros pre' e post b E He. exists t, r. apply app_eq_mid in E as [(k & -> & _)|(k & -> & E)].
    + apply Forall_app in Hpre as [_ [? _]%Forall_cons]. congruence.
    + destruct k as [|y k]; [|injection E as <- ->; apply Forall_app in Hrest as [_ [? _]%Forall_cons]; congruence].
      injection E as <- ->. rewrite app_nil_r. assert (b = branch_of intentID t) by congruence. split_and!; try done. by apply list_elem_of_here.
Qed.

Definition merge_effect (e : effect) : Prop := repo_op e \/ pool_update intentID e.

(** What a piece of the merge phase leaves in the log. *)
Definition merge_post (l0 l : list effect) (xs : list (SubTask * WorkerTaskResult)) : Prop :=
  Forall merge_effect l /\ Forall (fun e => add_path e = None) l /\ merges_ok l0 l xs.

Lemma others_post l0 l xs : Forall git_other l -> merge_post l0 l xs.
Proof.
  intros (H1 & H2 & H3)%git_other_split. split_and!; [|done|by apply merges_none]. eapply Forall_impl; [exact H1|]. by left.
Qed.

Lemma update_merge_post l0 xs taskID phase branch status summary err :
  emits (emitWorkerUpdate NewID intentID taskID phase branch status summary err) (fun l _ => merge_post l0 l xs).
Proof.
  apply emits_reply. intros id. split_and!; [|by repeat constructor|apply merges_none; by repeat constructor]. constructor; [right; by eexists _, _|constructor].
Qed.

Lemma merge_post_app l0 l1 l2 xs ys : merge_post l0 l1 xs -> merge_post (l0 ++ l1) l2 ys -> merge_post l0 (l1 ++ l2) (xs ++ ys).
Proof. intros (? & ? & ?) (? & ? & ?). split_and!; [by apply Forall_app|by apply Forall_app|by apply merges_app]. Qed.

Lemma merge_task_at l0 t r :
  emits_at l0 (merge_task NewID git repo intentID baseSHA (t, worktree_of t, r)) (fun l _ => merge_post l0 l [(t, r)]).
Proof.
  unfold merge_task. destruct (String.eqb_spec (wr_Status r) WorkerStatusSuccess) as [Hs|]; simpl; [|apply emits_at_ret; by apply others_post].
  eapply emits_at_bind; [exact (proj1 (emits_emits_at _ _) (CommitAll_other git repo (worktree_of t) _) _)|]. intros l1 [[|]|e] H1.
  2, 3: apply emits_at_ret; rewrite app_nil_r; by apply others_post.
  eapply emits_at_bind; [apply ChangedFiles_at|]. intros l2 x [-> Hx].
  assert (git_other (gitcmd (run_dir repo (wt_Path (worktree_of t))) (diff_cmd baseSHA (wt_Branch (worktree_of t))))) as Hd.
  { split; [by exists (run_dir repo (wt_Path (worktree_of t))), (diff_cmd baseSHA (wt_Branch (worktree_of t)))|done]. }
  set (d := gitcmd _ _) in *. assert (Forall git_other (l1 ++ [d])) as H2 by (apply Forall_app; split; [done|by constructor]).
  destruct x as [files|e]; [|apply emits_at_ret; rewrite app_nil_r; by apply others_post].
  destruct Hx as [Hg Hfiles]. destruct (outOfScope files (st_Paths t)) as [|bad bads] eqn:Hout.
  2:{ eapply emits_at_bind; [exact (proj1 (emits_emits_at _ _) (update_merge_post ((l0 ++ l1) ++ [d]) [(t, r)] _ _ _ _ _ _) _)|].
      intros l3 [] H3. apply emits_at_ret. rewrite app_nil_r, app_assoc. apply (merge_post_app _ _ _ [] [(t, r)]); [by apply others_post|].
      by rewrite app_assoc. }
  assert (merge_checked l0 (l1 ++ [d]) t) as Hc.
  { exists l1. split_and!; [done|exact Hg|]. change (wt_Branch (worktree_of t)) with (branch_of intentID t) in Hfiles. rewrite <-Hfiles. apply Forall_forall. intros f Hf.
    destruct (PathInScope f (st_Paths t)) eqn:E; [done|]. exfalso. apply (not_elem_of_nil f). rewrite <-Hout. unfold outOfScope.
    apply list_elem_of_In, filter_In. split; [by apply list_elem_of_In|by rewrite E]. }
  destruct (git_other_split _ H2) as (Hh2 & Ha2 & Hm2).
  eapply emits_at_bind; [exact (proj1 (emits_emits_at _ _) (Merge_spec git repo (wt_Branch (worktree_of t)) _) _)|].
  intros l3 m (rest & -> & Hr). destruct (git_other_split _ Hr) as (Hh3 & Ha3 & Hm3).
  assert (merge_post l0 ((l1 ++ [d]) ++ gitcmd (r_root repo) (merge_cmd (branch_of intentID t) ("Merge worker-pool task " +:+ st_ID t)) :: rest) [(t, r)]) as Hpost.
  { split_and!; [apply Forall_app; split; [eapply Forall_impl; [exact Hh2|by left]|constructor; [by left|eapply Forall_impl; [exact Hh3|by left]]]| |by apply merges_one].
    apply Forall_app. split; [done|]. by constructor. }
  destruct m as [mr [e|]]; [apply emits_at_ret; by rewrite app_nil_r, app_assoc|].
  set (l3 := gitcmd _ _ :: rest) in *.
  eapply emits_at_bind; [exact (proj1 (emits_emits_at _ _) (update_merge_post (l0 ++ (l1 ++ [d]) ++ l3) [] _ _ _ _ _ _) _)|].
  intros l4 [] H4. apply emits_at_ret. rewrite app_nil_r. replace (l1 ++ [d] ++ l3 ++ l4) with (((l1 ++ [d]) ++ l3) ++ l4) by by rewrite <-!app_assoc.
  by apply (merge_post_app _ _ _ [(t, r)] []).
Qed.

Lemma merge_tasks_at l0 xs :
  emits_at l0 (merge_tasks NewID git repo intentID baseSHA ((fun x => (x.1, worktree_of x.1, x.2)) <$> xs)) (fun l out => merge_post l0 l xs /\ length out = length xs).
Proof.
  revert l0. induction xs as [|[t r] xs IH]; intros l0; simpl; [apply emits_at_ret; split; [by apply others_post|done]|].
  eapply emits_at_bind; [apply merge_task_at|]. intros l1 r' H1. eapply emits_at_bind; [apply IH|]. intros l2 rs [H2 Hlen].
  apply emits_at_ret. rewrite app_nil_r. split; [by apply (merge_post_app _ _ _ [(t, r)])|]. simpl. by rewrite Hlen.
Qed.

(** *** From the worktrees to the end *)

Lemma zip_worktrees ts : zip ts (worktree_of <$> ts) = (fun t => (t, worktree_of t)) <$> ts.
Proof. induction ts as [|t ts IH]; [done|]. simpl. by f_equal. Qed.

Lemma zip_results ts (rs : list WorkerTaskResult) :
  zip (zip ts (worktree_of <$> ts)) rs = (fun x => (x.1, worktree_of x.1, x.2)) <$> zip ts rs.
Proof. revert rs. induction ts as [|t ts IH]; intros [|r rs]; [done..|]. simpl. by f_equal. Qed.

Definition tasks_post (w : world) (cmdID : string) (ts : list SubTask) (l : list effect) : Prop :=
  exists logs rs lm lr lc,
    l = interleave sched logs ++ lm ++ lr ++ lc /\
    length logs = length ts /\ length rs = length ts /\
    (forall j t lj r, ts !! j = Some t -> logs !! j = Some lj -> rs !! j = Some r -> worker_done (strided NewID (minted_ids w) (length ts) j) t lj r) /\
    merge_post (elog w ++ interleave sched logs) lm (zip ts rs) /\
    (exists t hist, lr = t :: hist /\ result_of cmdID t /\ Forall is_history hist) /\
    Forall git_other lc /\ forall t, t ∈ ts -> removal (wt_Path (worktree_of t)) ∈ lc.

Lemma run_tasks_at cmdID c primaryRef parentHistory ts w :
  let m := run_tasks NewID elapsed answer flt cf fs url_Parse history_ok sid pol fsops pc git sched admitted deadline Stream Dispatch
             repo intentID baseSHA cmdID c primaryRef parentHistory ts (worktree_of <$> ts) w in
  exists n l, minted_ids w <= n /\ m.1 = mkWorld n (slots w) (elog w ++ l) /\ tasks_post w cmdID ts l.
Proof.
  unfold run_tasks. rewrite zip_worktrees.
  set (prog := imap _ ((fun t => (t, worktree_of t)) <$> ts)). assert (length prog = length ts) as Hlp by (unfold prog; by rewrite length_imap, length_fmap).
  destruct (par_run NewID sched prog (fun j l r => forall t, ts !! j = Some t -> worker_done (strided NewID (minted_ids w) (length ts) j) t l r) w)
    as (n1 & logs & Hn1 & E1 & Hlr & Hll & HQ).
  { intros j f Hf. unfold prog in Hf. rewrite list_lookup_imap, list_lookup_fmap in Hf. destruct (ts !! j) as [t|] eqn:Et; [|discriminate].
    injection Hf as <-. rewrite Hlp. eapply emits_impl; [apply worker_spec|]. intros l r Hw t' [= <-]. exact Hw. }
  unfold mbind at 1, M_bind. destruct (par NewID sched prog w) as [w1 rs]. simpl in E1, Hlr, HQ. subst w1. rewrite Hlp in *.
  rewrite <-zip_worktrees, zip_results. set (l1 := interleave sched logs) in *.
  match goal with |- context [(?prog (mkWorld n1 (slots w) (elog w ++ l1))).1] => assert (emits_at (elog w ++ l1) prog (fun l _ => exists lm lr lc, l = lm ++ lr ++ lc /\
    merge_post (elog w ++ l1) lm (zip ts rs) /\ (exists t hist, lr = t :: hist /\ result_of cmdID t /\ Forall is_history hist) /\
    Forall git_other lc /\ forall t, t ∈ ts -> removal (wt_Path (worktree_of t)) ∈ lc)) as Hrest end.
  { eapply emits_at_bind; [apply merge_tasks_at|]. intros lm out [Hm Hout].
    eapply emits_at_bind; [exact (proj1 (emits_emits_at _ _) (result_turns NewID elapsed history_ok cmdID c _ _ _ _ _ _) _)|]. intros lr o Hlr'.
    eapply emits_at_bind; [exact (proj1 (emits_emits_at _ _) (removals_spec _) _)|]. intros lc [] [Hc Hall]. apply emits_at_ret. rewrite app_nil_r.
    exists lm, lr, lc. split_and!; try done. intros t [j Hj]%list_elem_of_lookup.
    destruct (lookup_lt_is_Some_2 (workerKeepBranch <$> out) j) as [b Hb].
    { rewrite length_fmap, Hout, length_zip_with. apply lookup_lt_Some in Hj. lia. }
    apply (Hall (worktree_of t, b)). apply list_elem_of_lookup. exists j. apply lookup_zip_with_Some. exists (worktree_of t), b.
    split_and!; [done| |done]. by rewrite list_lookup_fmap, Hj. }
  destruct (Hrest (mkWorld n1 (slots w) (elog w ++ l1)) eq_refl) as (n2 & l2 & Hn2 & E2 & lm & lr & lc & -> & Hm & Hres & Hc & Hall). simpl in *.
  exists n2, (l1 ++ lm ++ lr ++ lc). split_and!; [lia|rewrite app_assoc; exact E2|]. exists logs, rs, lm, lr, lc. split_and!; try done.
  intros j t lj r Ht Hl Hr. exact (HQ j lj r Hl Hr t Ht).
Qed.
End run.

(** *** The whole call *)

(** The repository the call opens: the workspace directory, made absolute. *)
Definition pool_repo : Repo :=
  mkRepo (match Abs getwd (pc_WorkspaceDir pc) with Ok abs => abs | Err _ => "" end).

(** Before any worktree is created, only git's queries. *)
Definition setup_ok (l0 l : list effect) (P : list string) : Prop :=
  Forall repo_op l /\ Forall (fun e => merge_branch e = None) l /\ pending git pool_repo l0 l P.

Inductive pool_run (w : world) (intentID cmdID : string) (c : Call) : list effect -> Prop :=
| pr_refused lp t hist :
    setup_ok (elog w) lp [] -> result_of cmdID t -> Forall is_history hist -> pool_run w intentID cmdID c (lp ++ t :: hist)
| pr_ran pa baseSHA w' lp lt :
    ParseWorkerPoolArgs (call_Args c) (pc_MaxTasks pc) = Ok pa ->
    Forall (fun t => validID (worktree_id intentID t) = Ok tt) (Tasks pa) ->
    setup_ok (elog w) lp (wt_Path ∘ worktree_of pool_repo intentID <$> Tasks pa) ->
    elog w' = elog w ++ lp -> minted_ids w <= minted_ids w' ->
    tasks_post pool_repo intentID baseSHA w' cmdID (Tasks pa) lt ->
    pool_run w intentID cmdID c (lp ++ lt).

Definition pool_ends (w0 : world) (intentID cmdID : string) (c : Call) (lp : list effect) (m : M outcome) : Prop :=
  forall w, elog w = elog w0 ++ lp -> minted_ids w0 <= minted_ids w -> slots w = slots w0 ->
    exists n l, minted_ids w0 <= n /\ (m w).1 = mkWorld n (slots w0) (elog w0 ++ l) /\ pool_run w0 intentID cmdID c l.

Lemma pool_fail w0 intentID cmdID c lp code msg :
  setup_ok (elog w0) lp [] -> pool_ends w0 intentID cmdID c lp (host_fail NewID elapsed history_ok cmdID c code msg).
Proof.
  intros Hs w Ew Hn Hsl. destruct (result_turns NewID elapsed history_ok cmdID c (Some [("error_message", AStr msg)]) (-1) code msg
    (mkOutcome (mkToolResult (call_ID c) (call_Tool c) (Some [("error_message", AStr msg)]) None code) "" (-1) msg true) code w) as (n & l & Hn2 & E & t & hist & -> & Ht & Hh).
  exists n, (lp ++ t :: hist). split; [lia|]. split; [|by apply pr_refused]. unfold host_fail. rewrite E, Hsl, Ew. by rewrite <-app_assoc.
Qed.

(** One step of the setup. *)
Lemma pool_bind {A} w0 intentID cmdID c lp (m : M A) (f : A -> M outcome) Q :
  emits_at (elog w0 ++ lp) m Q -> (forall l a, Q l a -> pool_ends w0 intentID cmdID c (lp ++ l) (f a)) -> pool_ends w0 intentID cmdID c lp (m ≫= f).
Proof.
  intros Hm Hf w Ew Hn Hsl. destruct (Hm w Ew) as (n1 & l1 & Hn1 & E1 & HQ). unfold mbind, M_bind. destruct (m w) as [w1 a]. simpl in *. subst w1.
  apply (Hf l1 a HQ); simpl; [by rewrite app_assoc|lia|done].
Qed.

Lemma setup_query l0 lp e P : setup_ok l0 lp P -> git_other e -> setup_ok l0 (lp ++ [e]) P.
Proof.
  intros (H1 & H2 & H3) He. assert (Forall git_other [e]) as (H4 & H5 & H6)%git_other_split by by constructor.
  split_and!; [by apply Forall_app|by apply Forall_app|]. eapply pending_app; [exact H3|by apply pending_none|auto].
Qed.

Lemma runWorkerPool_spec intentID cmdID c w :
  let m := runWorkerPool NewID elapsed answer flt cf fs url_Parse history_ok sid pol fsops pc git getwd lookPath_ok has_dot_git mkdir_ok load_window
             sched admitted deadline Stream Dispatch intentID cmdID c w in
  exists n l, minted_ids w <= n /\ m.1 = mkWorld n (slots w) (elog w ++ l) /\ pool_run w intentID cmdID c l.
Proof.
  assert (setup_ok (elog w) [] []) as H0 by (split_and!; [done|done|by apply pending_none]).
  enough (pool_ends w intentID cmdID c [] (runWorkerPool NewID elapsed answer flt cf fs url_Parse history_ok sid pol fsops pc git getwd lookPath_ok has_dot_git mkdir_ok
    load_window sched admitted deadline Stream Dispatch intentID cmdID c)) as Hgo by (apply Hgo; [by rewrite app_nil_r|lia|done]).
  unfold runWorkerPool. destruct (pc_Enabled pc); [|by apply pool_fail]. simpl. destruct (pc_PerSessionWorkspace pc); [by apply pool_fail|].
  destruct (ParseWorkerPoolArgs _ _) as [pa|e] eqn:Hpa; [|by apply pool_fail].
  unfold Open. destruct (Abs getwd (pc_WorkspaceDir pc)) as [abs|e] eqn:Habs; [|by apply pool_fail].
  destruct lookPath_ok; [|by apply pool_fail]. destruct has_dot_git; [|by apply pool_fail]. simpl.
  assert (mkRepo abs = pool_repo) as -> by (unfold pool_repo; by rewrite Habs).
  assert (forall argv (f : result git_error string -> M outcome) lp, setup_ok (elog w) lp [] ->
    (forall d, add_path (gitcmd d argv) = None) -> (forall d, merge_branch (gitcmd d argv) = None) ->
    (forall a lp', setup_ok (elog w) lp' [] -> pool_ends w intentID cmdID c lp' (f a)) ->
    pool_ends w intentID cmdID c lp (run_out git pool_repo (r_root pool_repo) argv ≫= f)) as Hquery.
  { intros argv f lp Hs Ha Hm Hf. eapply pool_bind; [apply run_out_at|]. intros l a [-> _]. apply Hf, setup_query; [done|]. split; [by eexists _, _|done]. }
  apply Hquery; [done..|]. intros [baseSHA|e] lp1 H1; [|by apply pool_fail].
  apply Hquery; [done..|]. intros [ref|e] lp2 H2; [|by apply pool_fail].
  destruct load_window as [hist|e]; [|by apply pool_fail].
  eapply pool_bind; [apply add_worktrees_at|]. intros l3 x (Hh3 & Hm3 & Hx). destruct H2 as (Hh2 & Hm2 & Hp2). destruct x as [wts|msg].
  - destruct Hx as (-> & Hids & Hp3). intros w' Ew Hn Hsl. simpl.
    destruct (run_tasks_at pool_repo intentID baseSHA cmdID c ref hist (Tasks pa) w') as (n & l & Hn' & E & Hpost).
    exists n, ((lp2 ++ l3) ++ l). split; [lia|]. split; [rewrite <-Hsl, (app_assoc (elog w)), <-Ew; exact E|].
    apply (pr_ran _ _ _ _ pa baseSHA w'); try done. split_and!; [by apply Forall_app|by apply Forall_app|].
    eapply pending_app; [exact Hp2|exact Hp3|by intros ? ?%not_elem_of_nil].
  - destruct Hx as [Hp3 _]. apply pool_fail. split_and!; [by apply Forall_app|by apply Forall_app|].
    eapply pending_app; [exact Hp2|exact Hp3|by intros ? ?%not_elem_of_nil].
Qed.

(** *** The contract of the call *)

Lemma repo_op_quiet cmdID l : Forall repo_op l -> Forall (quiet cmdID) l.
Proof.
  intros Hl. eapply Forall_impl; [exact Hl|]. intros [| | | | | |op] Hx; try done. destruct op; try done; (split_and!; [done|by intros (? & ? & [=])|by intros []]).
Qed.

Lemma merge_effect_quiet intentID cmdID l : Forall (merge_effect intentID) l -> Forall (quiet cmdID) l.
Proof.
  intros Hl. eapply Forall_impl; [exact Hl|]. intros x [Hx|(id & p & ->)]; [|split_and!; [done|by intros (? & ? & [=])|by intros []]].
  assert (Forall (quiet cmdID) [x]) as [? _]%Forall_cons; [|done]. apply repo_op_quiet. by constructor.
Qed.

Lemma worker_effect_quiet `{!Inj (=) (=) NewID} base n j k l :
  k < base -> Forall (worker_effect (strided NewID base n j)) l -> Forall (quiet (NewID k)) l.
Proof.
  intros Hk Hl. eapply Forall_impl; [exact Hl|]. intros x (Ht & Hs & _ & Hr). split_and!; [done| |done].
  intros [i Hi]%Hr. unfold strided in Hi. apply (inj NewID) in Hi. lia.
Qed.

(** Everything the workers and the merges did. *)
Lemma tasks_interleaved repo intentID baseSHA w cmdID ts l :
  tasks_post repo intentID baseSHA w cmdID ts l -> exists logs lm lr lc,
    l = interleave sched logs ++ lm ++ lr ++ lc /\
    (forall j lj, logs !! j = Some lj -> exists t, ts !! j = Some t /\
       worker_post (strided NewID (minted_ids w) (length ts) j) answer url_Parse pol (worktree_id intentID t) t lj) /\
    Forall (merge_effect intentID) lm /\ Forall (fun e => add_path e = None) lm /\
    (exists t hist, lr = t :: hist /\ result_of cmdID t /\ Forall is_history hist) /\
    Forall git_other lc /\ forall t, t ∈ ts -> gitcmd (r_root repo) (remove_cmd (wt_Path (worktree_of repo intentID t))) ∈ lc.
Proof.
  intros (logs & rs & lm & lr & lc & -> & Hl1 & Hl2 & Hw & (Hm1 & Hm2 & _) & Hrest). exists logs, lm, lr, lc. split_and!; try done; [|apply Hrest..].
  intros j lj Hj. pose proof (lookup_lt_Some _ _ _ Hj) as Hlt.
  destruct (lookup_lt_is_Some_2 ts j) as [t Ht]; [lia|]. destruct (lookup_lt_is_Some_2 rs j) as [r Hr]; [lia|]. exists t. split; [done|].
  by destruct (Hw j t lj r Ht Hj Hr).
Qed.

(** The pool answers its call once, whatever its workers do. *)
Lemma runWorkerPool_contract `{!Inj (=) (=) NewID} intentID cmdID c :
  emits_older NewID cmdID (runWorkerPool NewID elapsed answer flt cf fs url_Parse history_ok sid pol fsops pc git getwd lookPath_ok has_dot_git mkdir_ok load_window
    sched admitted deadline Stream Dispatch intentID cmdID c) (fun l _ => handler_run cmdID l).
Proof.
  intros w (k & Hk & ->). destruct (runWorkerPool_spec intentID (NewID k) c w) as (n & l & Hn & E & Hrun). exists n, l. split_and!; [done|exact E|].
  destruct Hrun as [lp t hist (Hs & _) Ht Hh|pa baseSHA w' lp lt Hpa Hids (Hs & _) Ew Hmint Hpost].
  - exists lp, t, hist. split_and!; [done|by apply repo_op_quiet|done|by apply history_after].
  - apply tasks_interleaved in Hpost as (logs & lm & lr & lc & -> & Hw & Hm & _ & (t & hist & -> & Ht & Hh) & Hc & _).
    exists (lp ++ interleave sched logs ++ lm), t, (hist ++ lc). split_and!; [by rewrite <-!app_assoc| |done|].
    + apply Forall_app. split; [by apply repo_op_quiet|]. apply Forall_app. split; [|by eapply merge_effect_quiet].
      apply interleave_Forall. intros j lj Hj. destruct (Hw j lj Hj) as (u & _ & Hwp & _). eapply worker_effect_quiet; [|exact Hwp]. lia.
    + apply Forall_app. split; [by apply history_after|]. eapply Forall_impl; [exact Hc|]. by intros x ((d & a & ->) & _).
Qed.

(** *** Claims *)

(** no worktree outlives the call: whenever git accepted a "worktree add"
    during a call of the pool, the pool later asks git to remove that worktree,
    on every way out: a later worktree that cannot be created, failed or
    canceled tasks, refused merges or success. *)
Theorem pool_leaves_no_worktree (intentID cmdID : string) (c : Call) (w : world) (l pre post : list effect) (x : effect) (path : string) :
  elog (runWorkerPool NewID elapsed answer flt cf fs url_Parse history_ok sid pol fsops pc git getwd lookPath_ok has_dot_git mkdir_ok load_window
    sched admitted deadline Stream Dispatch intentID cmdID c w).1 = elog w ++ l ->
  l = pre ++ x :: post -> add_path x = Some path -> git_ok git (elog w ++ pre) x ->
  gitcmd (r_root pool_repo) (remove_cmd path) ∈ post.
Proof.
  intros El Hsplit Hadd Hgit. destruct (runWorkerPool_spec intentID cmdID c w) as (n & l' & _ & E & Hrun). rewrite E in El. simpl in El. apply app_inv_head in El as <-.
  assert (pending git pool_repo (elog w) l' []) as Hp; [|by destruct (Hp pre x post path Hsplit Hadd Hgit) as [?|?%not_elem_of_nil]].
  clear Hsplit Hadd Hgit E. destruct Hrun as [lp t hist (_ & _ & Hp) (i & p & ->) Hh|pa baseSHA w' lp lt Hpa Hids (_ & _ & Hp) Ew Hmint Hpost].
  - eapply pending_app; [exact Hp| |by intros ? ?%not_elem_of_nil]. apply pending_none. constructor; [done|]. eapply Forall_impl; [exact Hh|]. by intros [].
  - apply tasks_interleaved in Hpost as (logs & lm & lr & lc & -> & Hw & _ & Hm & (t & hist & -> & (i & p & ->) & Hh) & Hc & Hrem).
    eapply pending_app; [exact Hp|apply pending_none|].
    + repeat (apply Forall_app; split); [|done|constructor; [done|]; eapply Forall_impl; [exact Hh|]; by intros []|by apply git_other_split in Hc as (_ & ? & _)].
      apply interleave_Forall. intros j lj Hj. destruct (Hw j lj Hj) as (u & _ & Hwp & _). eapply Forall_impl; [exact Hwp|].
      intros y (_ & _ & Hy & _). unfold add_path. by rewrite Hy.
    + intros q (t & -> & Ht)%list_elem_of_fmap. left. rewrite !elem_of_app. do 3 right. by apply Hrem.
Qed.

Lemma sublist_nodup {A} (l k : list A) : l `sublist_of` k -> NoDup k -> NoDup l.
Proof. intros Hs. induction Hs as [|x l k Hs IH|x l k Hs IH]; intros Hk; [constructor|..]; apply NoDup_cons in Hk as [Hx Hk]; [|auto].
  constructor; [|auto]. intros Hin. apply Hx. by eapply elem_of_sublist.
Qed.

Lemma branch_of_inj intentID t u : branch_of intentID t = branch_of intentID u -> st_ID t = st_ID u.
Proof.
  unfold branch_of. intros H. apply (f_equal (str_drop (String.length ("nomaddev/wp-" +:+ intentID +:+ "-")))) in H.
  by rewrite !(str_app_assoc intentID), !(str_app_assoc "nomaddev/wp-"), !str_drop_app_length in H.
Qed.

Lemma branches_nodup intentID ts : NoDup (st_ID <$> ts) -> NoDup (branch_of intentID <$> ts).
Proof.
  induction ts as [|t ts IH]; simpl; [constructor|]. intros [Hn Hnd]%NoDup_cons. constructor; [|auto].
  intros (u & E & Hu)%list_elem_of_fmap. apply Hn, list_elem_of_fmap. exists u. split; [by apply branch_of_inj in E|done].
Qed.

(** The merges of the whole call. *)
Lemma pool_merges intentID cmdID c w l : pool_run w intentID cmdID c l ->
  forall pre x post b, l = pre ++ x :: post -> merge_branch x = Some b ->
  exists pa baseSHA t, ParseWorkerPoolArgs (call_Args c) (pc_MaxTasks pc) = Ok pa /\ t ∈ Tasks pa /\ b = branch_of intentID t /\
    (exists e, e ∈ pre /\ finished_ok intentID t e) /\ merge_checked pool_repo intentID baseSHA (elog w) pre t /\
    omap merge_branch l `sublist_of` (branch_of intentID <$> Tasks pa).
Proof.
  assert (forall k l' pre x post b, k ++ l' = pre ++ x :: post -> Forall (fun e => merge_branch e = None) k -> merge_branch x = Some b ->
    exists pre', pre = k ++ pre' /\ l' = pre' ++ x :: post) as Hskip.
  { intros k l' pre x post b [(q & -> & _)|(q & -> & ->)]%app_eq_mid Hk Hx; [|eauto]. apply Forall_app in Hk as [_ [? _]%Forall_cons]. congruence. }
  intros Hrun pre x post b El Hx. destruct Hrun as [lp t hist (_ & Hs & _) (i & p & ->) Hh|pa baseSHA w' lp lt Hpa Hids (_ & Hs & _) Ew Hmint Hpost].
  - exfalso. assert (Forall (fun e => merge_branch e = None) (lp ++ Emit (mkFrame i cmdID (BResult p)) :: hist)) as Hall.
    { apply Forall_app. split; [done|]. constructor; [done|]. eapply Forall_impl; [exact Hh|]. by intros []. }
    rewrite El in Hall. apply Forall_app in Hall as [_ [? _]%Forall_cons]. congruence.
  - destruct Hpost as (logs & rs & lm & lr & lc & -> & Hl1 & Hl2 & Hw & (_ & _ & Hsub & Hm) & (t0 & hist & -> & (i & p & ->) & Hh) & Hc & _).
    set (li := interleave sched logs) in *.
    assert (Forall (fun e => merge_branch e = None) li) as Hli.
    { apply interleave_Forall. intros j lj Hj. pose proof (lookup_lt_Some _ _ _ Hj). destruct (lookup_lt_is_Some_2 (Tasks pa) j) as [t Ht]; [lia|].
      destruct (lookup_lt_is_Some_2 rs j) as [r Hr]; [lia|]. destruct (Hw j t lj r Ht Hj Hr) as ((Hwp & _) & _). eapply Forall_impl; [exact Hwp|].
      intros y (_ & _ & Hy & _). unfold merge_branch. by rewrite Hy. }
    assert (Forall (fun e => merge_branch e = None) ((Emit (mkFrame i cmdID (BResult p)) :: hist) ++ lc)) as Hend.
    { apply Forall_app. split; [constructor; [done|]; eapply Forall_impl; [exact Hh|]; by intros []|by apply git_other_split in Hc as (_ & _ & ?)]. }
    destruct (Hskip _ _ _ _ _ _ El Hs Hx) as (k1 & -> & El1). destruct (Hskip _ _ _ _ _ _ El1 Hli Hx) as (k2 & -> & El2).
    apply app_eq_mid in El2 as [(k3 & El3 & ->)|(k3 & -> & E3)].
    2:{ exfalso. rewrite E3 in Hend. apply Forall_app in Hend as [_ [? _]%Forall_cons]. congruence. }
    destruct (Hm _ _ _ _ El3 Hx) as (t & r & [j (Ht & Hr)%lookup_zip_Some]%list_elem_of_lookup & -> & Hst & Hck).
    exists pa, baseSHA, t. split_and!; try done; [by eapply list_elem_of_lookup_2| | |].
    + pose proof (lookup_lt_Some _ _ _ Ht). destruct (lookup_lt_is_Some_2 logs j) as [lj Hj]; [lia|].
      destruct (Hw j t lj r Ht Hj Hr) as (_ & Hfin). destruct (Hfin Hst) as (e & He & Hf). exists e. split; [|done].
      rewrite !elem_of_app. right. left. eapply elem_of_sublist; [exact He|]. by apply interleave_sublist with (j := j).
    + apply merge_checked_app, merge_checked_app. by rewrite <-Ew.
    + rewrite (omap_app _ lp), (omap_app _ li), (omap_app _ lm), (omap_none _ lp), (omap_none _ li), (omap_none merge_branch (_ ++ lc)), app_nil_r by done. simpl.
      etrans; [exact Hsub|]. rewrite list_fmap_compose. by rewrite fst_zip by lia.
Qed.

(** C17: only checked work is merged: every "git merge" of the pool is for the
    branch of one of the call's tasks, whose worker had reported success; the
    run just before it is git's list of that branch's changes, which git
    answered, and every file of the list lies in the task's declared scope and
    in no other task's; and no branch is merged twice. *)
Theorem pool_merges_only_checked_work (intentID cmdID : string) (c : Call) (w : world) (l pre post : list effect) (x : effect) (b : string) :
  elog (runWorkerPool NewID elapsed answer flt cf fs url_Parse history_ok sid pol fsops pc git getwd lookPath_ok has_dot_git mkdir_ok load_window
    sched admitted deadline Stream Dispatch intentID cmdID c w).1 = elog w ++ l ->
  l = pre ++ x :: post -> merge_branch x = Some b ->
  exists pa baseSHA t pre', ParseWorkerPoolArgs (call_Args c) (pc_MaxTasks pc) = Ok pa /\ t ∈ Tasks pa /\ b = branch_of intentID t /\
    (exists e, e ∈ pre /\ finished_ok intentID t e) /\ (b ∉ omap merge_branch pre) /\
    let dir := run_dir pool_repo (worktree_path pool_repo (worktree_id intentID t)) in
    let o := git (elog w ++ pre') dir (diff_cmd baseSHA b) in
    pre = pre' ++ [gitcmd dir (diff_cmd baseSHA b)] /\ go_err o = None /\
    Forall (fun f => PathInScope f (st_Paths t) = true /\ forall u, u ∈ Tasks pa -> u <> t -> PathInScope f (st_Paths u) = false)
      (splitLines (TrimRight is_blank (go_stdout o))).
Proof.
  intros El Hsplit Hx. destruct (runWorkerPool_spec intentID cmdID c w) as (n & l' & _ & E & Hrun). rewrite E in El. simpl in El. apply app_inv_head in El as <-.
  destruct (pool_merges _ _ _ _ _ Hrun _ _ _ _ Hsplit Hx) as (pa & baseSHA & t & Hpa & Ht & -> & Hfin & (pre' & Hpre & Hg & Hf) & Hsub).
  destruct (ParseWorkerPoolArgs_Ok _ _ _ Hpa) as (y & ys & _ & Hts & Hdis & _). destruct (parseTasks_ids _ _ _ _ Hts) as (Hnd & _).
  exists pa, baseSHA, t, pre'. split_and!; try done.
  - pose proof (sublist_nodup _ _ Hsub (branches_nodup _ _ Hnd)) as Hnd'. rewrite Hsplit, omap_app in Hnd'. simpl in Hnd'. rewrite Hx in Hnd'.
    apply NoDup_app in Hnd' as (_ & Hn & _). intros Hin. apply (Hn _ Hin), list_elem_of_here.
  - split; [exact Hpre|]. split; [exact Hg|]. eapply Forall_impl; [exact Hf|]. intros f Hft. split; [done|]. intros u Hu Hne. apply not_true_iff_false. intros Hfu.
    apply list_elem_of_lookup in Ht as [i Hi]. apply list_elem_of_lookup in Hu as [j Hj].
    apply (pairwise_disjoint_lookup _ i j t u f Hdis Hi Hj); [|done|done]. intros ->. congruence.
Qed.

Lemma worktree_id_plain intentID t : validID (worktree_id intentID t) = Ok tt -> plain (worktree_id intentID t).
Proof.
  intros Hv. unfold validID in Hv. destruct (String.eqb_spec (worktree_id intentID t) "") as [|Hne]; [done|].
  destruct (Contains _ "/") eqn:Hs; [done|].
  assert (forall u, Contains u "-" = false -> worktree_id intentID t <> u) as Hshort.
  { intros u Hu E. apply not_true_iff_false in Hu. apply Hu, Contains_spec. exists intentID, (st_ID t). by rewrite <-E. }
  split_and!; [done|by apply Hshort|by apply Hshort|].
  apply Index_byte_None. unfold Contains in Hs. by destruct (Index _ _).
Qed.

Lemma gated_sublist tool a x l k : gated_call answer pol tool a x l -> l `sublist_of` k -> gated_call answer pol tool a x k.
Proof. intros Hg Hs Hreq. destruct (Hg Hreq) as (id & cmdID & pl & Hl & ?). exists id, cmdID, pl. split; [by etrans|done]. Qed.

(** C18: the workers are confined by name.  Let the configured workspace
    directory be a clean absolute path.  Every tool call a worker dispatches is
    for one of the call's tasks, with arguments that validate; a file tool's path
    is rewritten to one that lies, component by component, below that task's own
    worktree, and for the tools that write it also lies in the task's declared
    scope; scripts and searches run with that worktree as their directory; and,
    if the policy names the tool, an approval request for exactly these arguments
    was granted before.  This is about the names only: a symbolic link inside a
    worktree can still lead a file tool elsewhere in the workspace, whose root is
    what the file engine confines it to. *)
Theorem worker_calls_confined (intentID cmdID : string) (c : Call) (w : world) (l : list effect) (tool : string) (a : args) (wd : string) :
  clean_root (pc_WorkspaceDir pc) ->
  elog (runWorkerPool NewID elapsed answer flt cf fs url_Parse history_ok sid pol fsops pc git getwd lookPath_ok has_dot_git mkdir_ok load_window
    sched admitted deadline Stream Dispatch intentID cmdID c w).1 = elog w ++ l ->
  Host (WorkerDispatch tool a wd) ∈ l ->
  exists pa t, ParseWorkerPoolArgs (call_Args c) (pc_MaxTasks pc) = Ok pa /\ t ∈ Tasks pa /\
    worker_call url_Parse (worktree_id intentID t) t tool a wd /\
    confined (pc_WorkspaceDir pc) (worktree_id intentID t) t tool a wd /\
    gated_call answer pol tool a (Host (WorkerDispatch tool a wd)) l.
Proof.
  intros Hroot El Hin. destruct (runWorkerPool_spec intentID cmdID c w) as (n & l' & _ & E & Hrun). rewrite E in El. simpl in El. apply app_inv_head in El as <-.
  assert (forall k, Forall repo_op k -> Host (WorkerDispatch tool a wd) ∉ k) as Hrepo.
  { intros k Hk Hx. rewrite Forall_forall in Hk. by apply (Hk _ Hx). }
  assert (forall k, Forall is_history k -> Host (WorkerDispatch tool a wd) ∉ k) as Hhist.
  { intros k Hk Hx. rewrite Forall_forall in Hk. by apply (Hk _ Hx). }
  destruct Hrun as [lp t hist (Hs & _) (i & p & ->) Hh|pa baseSHA w' lp lt Hpa Hids (Hs & _) Ew Hmint Hpost].
  { exfalso. rewrite elem_of_app, elem_of_cons in Hin. destruct Hin as [Hin|[[=]|Hin]]; [by eapply Hrepo|by eapply Hhist]. }
  apply tasks_interleaved in Hpost as (logs & lm & lr & lc & -> & Hw & Hm & _ & (t0 & hist & -> & (i & p & ->) & Hh) & Hc & _).
  rewrite !elem_of_app, elem_of_cons in Hin. destruct Hin as [Hin|[Hin|[Hin|[[[=]|Hin]|Hin]]]].
  - by destruct (Hrepo _ Hs).
  - apply interleave_elem in Hin as (j & lj & Hj & Hin). destruct (Hw j lj Hj) as (t & Ht & _ & Hcalls). destruct (Hcalls _ _ _ Hin) as [Hcall Hg].
    exists pa, t. split_and!; [done|by eapply list_elem_of_lookup_2|done| |].
    + destruct Hcall as (orig & _ & Hsc). eapply scopeWorkerCall_confined; [done| |exact Hsc]. apply worktree_id_plain.
      rewrite Forall_forall in Hids. apply Hids. by eapply list_elem_of_lookup_2.
    + eapply gated_sublist; [exact Hg|]. apply sublist_inserts_l, sublist_inserts_r. by apply interleave_sublist with (j := j).
  - rewrite Forall_forall in Hm. by destruct (Hm _ Hin) as [?|(? & ? & [=])].
  - by destruct (Hhist _ Hh).
  - apply git_other_split in Hc as (Hc & _). by destruct (Hrepo _ Hc).
Qed.
End pool.

(** ** The delegated calls together *)

Section delegated.
Variable NewID : nat -> string.
Context `{!Inj (=) (=) NewID}.
Variable elapsed : nat -> Z.
Variable history_ok : list effect -> bool.
Variables pool daemon lsp : string -> string -> Call -> M outcome.

(** The branches 3b to 3d of [runToolCall]. *)
Definition runDelegated (intentID cmdID : string) (c : Call) : M outcome :=
  if String.eqb (call_Tool c) ToolDispatchWorkerPool then pool intentID cmdID c
  else if is_daemon_tool (call_Tool c) then daemon intentID cmdID c
  else lsp intentID cmdID c.

#[export] Instance runDelegated_contract :
  DelegateContract NewID pool -> DelegateContract NewID daemon -> DelegateContract NewID lsp -> DelegateContract NewID runDelegated.
Proof.
  intros Hp Hd Hl intentID cmdID c. unfold runDelegated. destruct (String.eqb _ _); [apply Hp|]. destruct (is_daemon_tool _); [apply Hd|apply Hl].
Qed.
End delegated.

(** ** Concrete runs *)

#[export] Instance demo_ids_inj : Inj (=) (=) demo_ids.
Proof.
  assert (forall n, String.length (demo_ids n) = S n) as Hl.
  { intros n. unfold demo_ids. induction (S n) as [|m IH]; [done|]. simpl replicate. by rewrite str_concat_cons, str_length_app, IH. }
  intros n m E. apply (f_equal String.length) in E. rewrite !Hl in E. lia.
Qed.

Definition demo_pool_call : Call := mkToolCall "c1" "dispatch_worker_pool" demo_pool.

(** Git accepts everything; each branch changed one file of its scope. *)
Definition demo_git (_ : list effect) (dir : string) (argv : list string) : git_out :=
  match argv with
  | ["status"; _] => mkGitOut " M x" "" None
  | ["diff"; _; _] => mkGitOut (if HasSuffix dir "task1" then "src/a/x.go" else "src/ab/y.go") "" None
  | ["rev-parse"; _] => mkGitOut "0123456789" "" None
  | _ => mkGitOut "" "" None
  end.

Definition demo_patch (path : string) : AssistantEvent :=
  mkEvent "" "" (Some (mkToolCall "w" "write_patch" [("path", AStr path); ("content", AStr "x")])) None None None.
Definition demo_final : AssistantEvent := mkEvent "" "" None (Some (mkFinal "done" "stop" no_usage)) None None.
Definition demo_stream (j : nat) (_ : TurnInput) : result string (list AssistantEvent * (list ToolResult -> result string (list AssistantEvent))) :=
  Ok ([demo_patch (if j =? 0 then "src/a/x.go" else "src/ab/y.go")], fun _ => Ok [demo_final]).

Definition demo_pool_config : pool_config := mkPoolConfig true false "/ws" 4 "" [] "m".

Abbreviation demo_workers f := (f demo_ids (fun _ => 0%Z) (fun _ => Granted) no_faults demo_cf (∅ : FS) no_url (fun _ => true) "s"
  (NewPolicyApprover ["write_patch"] false 0) (@None Engine) demo_pool_config demo_git (Ok "/") true true (fun _ => true) (Ok [])
  [1; 0; 1; 1] (fun _ => true) (fun _ => 5) demo_stream (fun _ _ _ _ => Ok [mkChunk StreamExit "" 0 None])).

Definition demo_pool_log : list effect := elog (demo_workers runWorkerPool "in" "cmd" demo_pool_call (mkWorld 5 None [])).1.

Lemma pool_leaves_no_worktree_witness :
  gitcmd "/ws" (remove_cmd "/ws/.nomaddev-worktrees/in-task1") ∈ drop 4 demo_pool_log.
Proof.
  apply (demo_workers pool_leaves_no_worktree "in" "cmd" demo_pool_call (mkWorld 5 None []) demo_pool_log (take 3 demo_pool_log) (drop 4 demo_pool_log)
    (gitcmd "/ws" (add_cmd "nomaddev/wp-in-task1" "/ws/.nomaddev-worktrees/in-task1" "0123456789"))).
  all: vm_compute; reflexivity.
Defined.

Lemma pool_merges_only_checked_work_witness :
  exists t, t ∈ demo_tasks /\ branch_of "in" t = "nomaddev/wp-in-task1" /\ exists e, e ∈ take 22 demo_pool_log /\ finished_ok "in" t e.
Proof.
  destruct (demo_workers pool_merges_only_checked_work "in" "cmd" demo_pool_call (mkWorld 5 None []) demo_pool_log (take 22 demo_pool_log) (drop 23 demo_pool_log)
    (gitcmd "/ws" (merge_cmd "nomaddev/wp-in-task1" "Merge worker-pool task task1")) "nomaddev/wp-in-task1") as (pa & base & t & pre' & Hpa & Ht & Hb & Hf & _);
    [vm_compute; reflexivity..|].
  exists t. split; [|split; [symmetry; exact Hb|exact Hf]]. vm_compute in Hpa. injection Hpa as <-. exact Ht.
Defined.

Lemma worker_calls_confined_witness :
  let a := [("path", AStr ".nomaddev-worktrees/in-task1/src/a/x.go"); ("content", AStr "x")] in
  exists t, t ∈ demo_tasks /\ confined "/ws" (worktree_id "in" t) t "write_patch" a "" /\
    exists id cmdID pl, [Emit (mkFrame id cmdID (BApproval pl)); Host (WorkerDispatch "write_patch" a "")] `sublist_of` demo_pool_log.
Proof.
  intros a.
  destruct (demo_workers worker_calls_confined "in" "cmd" demo_pool_call (mkWorld 5 None []) demo_pool_log "write_patch" a "") as (pa & t & Hpa & Ht & _ & Hc & Hg).
  - exists ["ws"]. split_and!; [done|by each|done].
  - vm_compute. reflexivity.
  - apply (list_elem_of_lookup_2 _ 12). vm_compute. reflexivity.
  - exists t. split; [vm_compute in Hpa; injection Hpa as <-; exact Ht|]. split; [exact Hc|].
    destruct Hg as (id & cmdID & pl & Hs & _); [vm_compute; reflexivity|]. exists id, cmdID, pl. exact Hs.
Defined.

(** A turn's call of the pool, with the daemon and language-server handlers of
    HostTools.v beside it. *)
Definition demo_delegated : string -> string -> Call -> M outcome :=
  runDelegated (demo_workers runWorkerPool)
    (fun _ => runDaemonToolCall demo_ids (fun _ => 0%Z) (fun _ => true) "s" true (fun _ _ _ _ => Ok tt) (fun _ _ => true) (fun _ => []) (fun _ => Some "{}"))
    (fun _ => runLSPToolCall demo_ids (fun _ => 0%Z) (fun _ => true) "s" None (fun _ => None) (fun _ _ => Ok tt) (fun _ _ _ => Ok "{}")).

Definition demo_pool_tc : turn_config := mkTurnConfig (NewPolicyApprover ["dispatch_worker_pool"] false 0) None None ["tools:*"] 2.

Lemma model_call_has_one_result_witness :
  exists cmdID e rest,
    elog (runToolCall demo_ids (fun _ => 0%Z) (fun _ => Granted) no_faults demo_cf (∅ : FS) demo_pool_tc no_url demo_dispatch demo_delegated (fun _ => true)
      "in" demo_pool_call "" (mkWorld 0 None [])).1 = e :: rest /\ announces "in" cmdID demo_pool_call e.
Proof.
  assert (DelegateContract demo_ids demo_delegated) as Hd.
  { apply runDelegated_contract; intros intentID cmdID c; [apply runWorkerPool_contract; exact demo_ids_inj|..]; apply emits_emits_older; (eapply emits_impl;
      [first [apply runDaemonToolCall_run|apply runLSPToolCall_run]|]); intros l o; apply host_run_handler. }
  destruct (model_call_has_one_result demo_ids (fun _ => 0%Z) (fun _ => Granted) no_faults demo_cf (∅ : FS) demo_pool_tc no_url demo_dispatch demo_delegated (fun _ => true)
    "in" demo_pool_call "" (mkWorld 0 None [])) as (cmdID & e & before & r & hist & El & He & _).
  exists cmdID, e, (before ++ r :: hist). split; [exact El|exact He].
Defined.
