(* ===== verification/WireClient.v ===== *)
(** * The reconnecting client (internal/wireclient/session.go)

    [Session] with its offline outbox, the hello/resume handshake, the outbox
    drain and the reconnect loop.  Sending and the loop's steps interleave under
    the session's mutex; what the peer receives is [wire], and whether a write
    succeeds is an argument. *)

From S2P Require Import Prelude GoString Event Wire.

Definition StatusIdle := "idle".
Definition StatusConnecting := "connecting".
Definition StatusOpen := "open".
Definition StatusClosed := "closed".
Definition StatusUnauthorized := "unauthorized".

Record Session := mkSession {
  conn : bool;                  (* s.conn != nil *)
  closed : bool;
  outbox : list Envelope;
  lastEvent : string;
  statusVal : string;
  wire : list (bool * Envelope); (* written to the peer, over all connections; [true]: by the drain *)
}.

Record SessionConfig := mkConfig { OutboxCap : Z; ReconnectBase : Z; ReconnectCap : Z }.

(** Durations are nanoseconds. *)
Definition NewSession (cfg : SessionConfig) (lastEventID : string) : SessionConfig * Session :=
  (mkConfig (if (OutboxCap cfg <=? 0)%Z then 64 else OutboxCap cfg)
     (if (ReconnectBase cfg <=? 0)%Z then 1000000000 else ReconnectBase cfg)
     (if (ReconnectCap cfg <=? 0)%Z then 30 * 1000000000 else ReconnectCap cfg),
   mkSession false false [] lastEventID StatusIdle [])%Z.

Inductive send_error := ErrClosed | ErrOffline | ErrWrite.

Definition with_outbox (s : Session) (o : list Envelope) : Session := mkSession (conn s) (closed s) o (lastEvent s) (statusVal s) (wire s).
Definition with_conn (s : Session) (c : bool) : Session := mkSession c (closed s) (outbox s) (lastEvent s) (statusVal s) (wire s).

(** [conn.WriteEnvelope]; [ok] is whether the write succeeds. *)
Definition write (by_drain ok : bool) (s : Session) (e : Envelope) : Session :=
  if ok then mkSession (conn s) (closed s) (outbox s) (lastEvent s) (statusVal s) (wire s ++ [(by_drain, e)]) else s.

Definition setStatus (s : Session) (st : string) : Session :=
  if String.eqb (statusVal s) st then s else mkSession (conn s) (closed s) (outbox s) (lastEvent s) st (wire s).

Definition Send (cfg : SessionConfig) (ok : bool) (s : Session) (e : Envelope) : Session * option send_error :=
  if closed s then (s, Some ErrClosed)
  else if conn s && String.eqb (statusVal s) StatusOpen then
    (if ok then (write false true s e, None) else (s, Some ErrWrite))
  else if negb (String.eqb (EType e) EventUserIntent) then (s, Some ErrOffline)
  else
    let o := if (OutboxCap cfg <=? Z.of_nat (length (outbox s)))%Z then drop 1 (outbox s) else outbox s in
    (with_outbox s (o ++ [e]), None).

Definition Close (s : Session) : Session := mkSession false true (outbox s) (lastEvent s) (statusVal s) (wire s).

Definition observe (s : Session) (e : Envelope) : Session :=
  mkSession (conn s) (closed s) (outbox s) (ID e) (statusVal s) (wire s).

(** What happens while [drainOutbox] runs without the mutex: a write of the next
    queued envelope, or a [Send] of another goroutine. *)
Inductive dstep := DWrite (ok : bool) | DSend (e : Envelope) (ok : bool).

(** The write loop; what was not written goes back in front of the outbox. *)
Fixpoint drain_write (cfg : SessionConfig) (sched : list dstep) (s : Session) (pending : list Envelope) {struct sched} : Session * bool :=
  match sched with
  | DSend e ok :: sched' => drain_write cfg sched' (Send cfg ok s e).1 pending
  | DWrite true :: sched' =>
      match pending with
      | [] => drain_write cfg sched' s []
      | e :: rest => drain_write cfg sched' (write true true s e) rest
      end
  | _ =>
      match pending with
      | [] => (s, true)
      | _ => (with_outbox s (pending ++ outbox s), false)
      end
  end.

(** [drainOutbox] takes the queue under the mutex and writes it. *)
Definition drainOutbox (cfg : SessionConfig) (sched : list dstep) (s : Session) : Session * bool :=
  if negb (conn s) then (with_outbox s [], false)
  else drain_write cfg sched (with_outbox s []) (outbox s).

(** [readHelloAndResume] once the hello [e] has been read; [ch] is the
    client.hello built for an id. *)
Definition readHelloAndResume (ok : bool) (ch : string -> Envelope) (s : Session) (e : Envelope) : Session * bool :=
  let s := observe s e in
  let lastID := lastEvent s in
  if negb (String.eqb lastID "") && negb (String.eqb lastID (ID e))
  then (write false ok s (ch lastID), ok)
  else (s, true).

Definition nextBackoff (cur ceiling : Z) : Z :=
  let n := wrap64 (cur * 2) in if (ceiling <? n)%Z then ceiling else n.

Definition isUnauthorized (msg : string) : bool := Contains msg "status=401" || Contains msg "status=403".

(** ** The loop *)

(** One round of [Run] after the checks of the context and of [closed]: the
    dial's outcome, then the handshake, the drain and the read loop. *)
Inductive dial := DialFailed (msg : string) | Dialed.
Inductive round_end := Stop | Sleep (backoff : Z) | Again.

Definition run_dial (cfg : SessionConfig) (backoff : Z) (s : Session) (d : dial) : Session * (option (round_end * Z)) :=
  let s := setStatus s StatusConnecting in
  match d with
  | DialFailed msg =>
      if isUnauthorized msg then (setStatus s StatusUnauthorized, Some (Stop, backoff))
      else (setStatus s StatusClosed, Some (Sleep backoff, nextBackoff backoff (ReconnectCap cfg)))
  | Dialed => (with_conn s true, None)
  end.

(** [hello]: [None] when the read failed. *)
Definition run_handshake (cfg : SessionConfig) (backoff : Z) (ok : bool) (ch : string -> Envelope) (s : Session) (hello : option Envelope)
    : Session * option (round_end * Z) :=
  let '(s', good) := match hello with None => (s, false) | Some e => readHelloAndResume ok ch s e end in
  if good then (setStatus s' StatusOpen, None)
  else (setStatus (with_conn s' false) StatusClosed, Some (Sleep backoff, nextBackoff backoff (ReconnectCap cfg))).

(** After the handshake the backoff starts again. *)
Definition run_disconnect (s : Session) : Session := setStatus (with_conn s false) StatusClosed.

(** ** What the peer gets *)

(** the client never resumes: after any handshake no client.hello has been
    written, whatever event id the session remembered from before, because the
    hello it has just read overwrites that id before it is compared. *)
Theorem handshake_never_resumes (ok : bool) (ch : string -> Envelope) (s : Session) (hello : Envelope) :
  readHelloAndResume ok ch s hello = (observe s hello, true) /\ wire (readHelloAndResume ok ch s hello).1 = wire s.
Proof. unfold readHelloAndResume, observe. simpl. rewrite String.eqb_refl, andb_false_r. done. Qed.

(** *** The outbox *)

(** The life of a session: user sends, connections, drains and losses. *)
Inductive event :=
| USend (e : Envelope) (ok : bool)
| UOpen                               (* dialed, hello read, status open *)
| UDrain (sched : list dstep)
| ULost.

Definition apply_event (cfg : SessionConfig) (s : Session) (ev : event) : Session :=
  match ev with
  | USend e ok => (Send cfg ok s e).1
  | UOpen => setStatus (with_conn s true) StatusOpen
  | UDrain sched => if conn s then (drainOutbox cfg sched s).1 else s
  | ULost => run_disconnect s
  end.

(** The ledger: the intents [Send] accepted into the outbox, in order.  A send
    while open writes directly. *)
Definition is_open (s : Session) : bool := conn s && String.eqb (statusVal s) StatusOpen.

Definition queued (s : Session) (e : Envelope) : list Envelope :=
  if closed s || is_open s || negb (String.eqb (EType e) EventUserIntent) then [] else [e].

Definition drained (s : Session) : list Envelope := (filter (fun x => x.1 = true) (wire s)).*2.

Lemma Send_effect cfg ok s e :
  (Z.of_nat (length (outbox s) + length (queued s e)) <= OutboxCap cfg)%Z ->
  outbox (Send cfg ok s e).1 = outbox s ++ queued s e /\ drained (Send cfg ok s e).1 = drained s /\
  is_open (Send cfg ok s e).1 = is_open s /\ closed (Send cfg ok s e).1 = closed s /\ conn (Send cfg ok s e).1 = conn s.
Proof.
  unfold queued, Send, is_open. destruct (closed s) eqn:Ec; simpl; [by rewrite app_nil_r, Ec|].
  destruct (conn s && String.eqb (statusVal s) StatusOpen) eqn:Eo; simpl.
  - destruct ok; simpl; rewrite ?app_nil_r, ?Ec; [|done]. unfold drained. simpl. by rewrite filter_app, app_nil_r.
  - destruct (negb (String.eqb (EType e) EventUserIntent)); simpl; [by rewrite app_nil_r, Ec|]. intros Hl.
    replace (OutboxCap cfg <=? Z.of_nat (length (outbox s)))%Z with false by (symmetry; apply Z.leb_gt; lia). by rewrite Ec.
Qed.

(** While the connection is open nothing new is queued, so the drain empties
    the outbox or puts the rest back where it was. *)
Lemma drain_write_spec cfg sched s pending :
  is_open s = true -> outbox s = [] -> closed s = false -> (0 <= OutboxCap cfg)%Z ->
  let s' := (drain_write cfg sched s pending).1 in
  drained s' ++ outbox s' = drained s ++ pending /\ length (outbox s') <= length pending /\ closed s' = false.
Proof.
  intros Ho Hb Hc Hcap. revert s pending Ho Hb Hc. induction sched as [|[ok|e ok] sched IH]; intros s pending Ho Hb Hc; cbn [drain_write].
  - destruct pending; simpl; rewrite ?Hb, ?app_nil_r; done.
  - destruct ok; [destruct pending as [|e rest]|].
    + by apply (IH s []).
    + destruct (IH (write true true s e) rest Ho Hb Hc) as (H1 & H2 & H3). split_and!; [|etrans; [exact H2|simpl; lia]|done].
      rewrite H1. unfold drained, write. simpl. rewrite filter_app. simpl. by rewrite fmap_app, <-app_assoc.
    + destruct pending; simpl; rewrite ?Hb, ?app_nil_r; done.
  - destruct (Send_effect cfg ok s e) as (S1 & S2 & S3 & S4 & _).
    { unfold queued. rewrite Ho, orb_true_r, Hb. simpl. lia. }
    unfold queued in S1. rewrite Ho, orb_true_r in S1. simpl in S1. rewrite app_nil_r in S1.
    rewrite <-S2. apply IH; congruence.
Qed.

(** The intents queued during a run, and the reached state. *)
Fixpoint run_events (cfg : SessionConfig) (s : Session) (evs : list event) : Session * list Envelope :=
  match evs with
  | [] => (s, [])
  | ev :: evs' =>
      let q := match ev with USend e _ => queued s e | _ => [] end in
      let '(s', l) := run_events cfg (apply_event cfg s ev) evs' in (s', q ++ l)
  end.

(** A drain runs on an open connection. *)
Fixpoint drains_when_open (cfg : SessionConfig) (s : Session) (evs : list event) : bool :=
  match evs with
  | [] => true
  | ev :: evs' => (match ev with UDrain _ => is_open s | _ => true end) && drains_when_open cfg (apply_event cfg s ev) evs'
  end.

Lemma setStatus_fields s st : outbox (setStatus s st) = outbox s /\ wire (setStatus s st) = wire s /\ closed (setStatus s st) = closed s.
Proof. unfold setStatus. by case_match. Qed.

(** intents sent offline are delivered once each and in order: however
    often the connection drops in the middle of a drain, whatever is written
    directly while it is open and whatever the user queues in between, the
    intents the drains have written followed by those still queued are exactly
    the intents accepted into the outbox, in the order they were sent, as long
    as no more than the outbox cap are queued in all. *)
Theorem outbox_delivers_in_order (cfg : SessionConfig) (s : Session) (evs : list event) :
  closed s = false -> outbox s = [] -> wire s = [] ->
  drains_when_open cfg s evs = true ->
  (Z.of_nat (length (run_events cfg s evs).2) <= OutboxCap cfg)%Z ->
  drained (run_events cfg s evs).1 ++ outbox (run_events cfg s evs).1 = (run_events cfg s evs).2.
Proof.
  intros Hc Hb Hw Hopen Hcap.
  assert (drained (run_events cfg s evs).1 ++ outbox (run_events cfg s evs).1 = (drained s ++ outbox s) ++ (run_events cfg s evs).2) as ->;
    [|unfold drained; by rewrite Hb, Hw].
  assert (Z.of_nat (length (outbox s) + length (run_events cfg s evs).2) <= OutboxCap cfg)%Z as Hle by (rewrite Hb; simpl; lia).
  clear Hb Hw Hcap. revert s Hc Hopen Hle. induction evs as [|ev evs IH]; intros s Hc Hopen Hle; [simpl; by rewrite app_nil_r|].
  cbn [run_events drains_when_open] in *. destruct (run_events cfg (apply_event cfg s ev) evs) as [s' l] eqn:Er.
  specialize (IH (apply_event cfg s ev)). rewrite Er in IH. simpl in *. apply andb_true_iff in Hopen as [Ho Hopen]. rewrite length_app in Hle.
  destruct ev as [e ok| |sched|]; simpl in *.
  - destruct (Send_effect cfg ok s e) as (S1 & S2 & _ & S4 & _); [lia|].
    rewrite IH; [by rewrite S1, S2, <-!app_assoc|congruence|done|rewrite S1, length_app; lia].
  - destruct (setStatus_fields (with_conn s true) StatusOpen) as (E1 & E2 & E3).
    rewrite IH; unfold drained; rewrite ?E1, ?E2, ?E3; done.
  - assert (conn s = true) as Hconn by (unfold is_open in Ho; by destruct (conn s)). unfold drainOutbox in *. rewrite Hconn in *. simpl in *.
    destruct (drain_write_spec cfg sched (with_outbox s []) (outbox s) Ho eq_refl Hc ltac:(lia)) as (D1 & D2 & D3).
    rewrite IH; [by rewrite D1|done|done|lia].
  - destruct (setStatus_fields (with_conn s false) StatusClosed) as (E1 & E2 & E3). unfold run_disconnect in *.
    rewrite IH; unfold drained; rewrite ?E1, ?E2, ?E3; done.
Qed.

(** Two intents are queued offline; the first drain fails after one write, and
    a third intent is queued before the second. *)
Definition demo_events : list event :=
  let e id := mkEnvelope id EventUserIntent 0 "" None in
  [USend (e "a") true; USend (e "b") true; UOpen; UDrain [DWrite true; DSend (e "x") true; DWrite false]; ULost;
   USend (e "c") true; UOpen; UDrain [DWrite true; DWrite true]].

Lemma outbox_delivers_in_order_witness :
  let cfg := mkConfig 4 0 0 in
  let r := run_events cfg (NewSession cfg "").2 demo_events in
  drained r.1 ++ outbox r.1 = r.2 /\ ID <$> r.2 = ["a"; "b"; "c"].
Proof.
  intros cfg r. split; [|vm_compute; reflexivity].
  apply (outbox_delivers_in_order cfg (NewSession cfg "").2 demo_events); vm_compute; try reflexivity; discriminate.
Defined.

(** The status is open before the queue is drained, so an intent sent in
    between overtakes the queued ones. *)
Example direct_send_overtakes_queue :
  let cfg := mkConfig 4 0 0 in
  let e id := mkEnvelope id EventUserIntent 0 "" None in
  let s := foldl (apply_event cfg) (NewSession cfg "").2 [USend (e "a") true; UOpen; USend (e "b") true; UDrain [DWrite true]] in
  ID <$> (wire s).*2 = ["b"; "a"].
Proof. reflexivity. Qed.

(** *** The backoff *)

Fixpoint backoffs (n : nat) (cfg : SessionConfig) (cur : Z) : Z :=
  match n with 0 => cur | S n => backoffs n cfg (nextBackoff cur (ReconnectCap cfg)) end.

(** the reconnect delay after [n] failures in a row is the base doubled
    [n] times, capped: it never wraps around, shrinks or passes the ceiling. *)
Theorem reconnect_backoff_is_capped_doubling (cfg : SessionConfig) (n : nat) :
  (0 < ReconnectBase cfg <= ReconnectCap cfg)%Z -> (ReconnectCap cfg < 2 ^ 62)%Z ->
  backoffs n cfg (ReconnectBase cfg) = Z.min (ReconnectCap cfg) (ReconnectBase cfg * 2 ^ Z.of_nat n).
Proof.
  intros Hb Hc. assert (forall cur, (0 < cur <= ReconnectCap cfg)%Z -> backoffs n cfg cur = Z.min (ReconnectCap cfg) (cur * 2 ^ Z.of_nat n)) as Hgen; [|by apply Hgen].
  induction n as [|n IH]; intros cur Hcur; cbn [backoffs]; [simpl; lia|].
  rewrite Nat2Z.inj_succ, Z.pow_succ_r by lia. pose proof (Z.pow_pos_nonneg 2 (Z.of_nat n)).
  assert (nextBackoff cur (ReconnectCap cfg) = Z.min (ReconnectCap cfg) (cur * 2)) as ->.
  { unfold nextBackoff. rewrite wrap64_id by lia. destruct (Z.ltb_spec (ReconnectCap cfg) (cur * 2)); lia. }
  rewrite IH by lia. destruct (Z.le_gt_cases (ReconnectCap cfg) (cur * 2)).
  - rewrite (Z.min_l (ReconnectCap cfg) (cur * 2)) by lia. rewrite !Z.min_l; nia.
  - rewrite (Z.min_r (ReconnectCap cfg) (cur * 2)) by lia. f_equal. lia.
Qed.

Lemma reconnect_backoff_is_capped_doubling_witness :
  backoffs 5 (NewSession (mkConfig 0 0 0) "").1 1000000000 = 30000000000%Z.
Proof.
  etransitivity; [exact (reconnect_backoff_is_capped_doubling (NewSession (mkConfig 0 0 0) "").1 5 ltac:(vm_compute; split; congruence) ltac:(vm_compute; reflexivity))|].
  vm_compute. reflexivity.
Defined.
