(* ===== verification/MobileState.v ===== *)
(** * The mobile client's store (internal/mobile/state)

    state.go: the store's fields and its setters, the attachment queue and the
    approval queue.  ingest.go: the reducer of inbound envelopes, with the
    line assembly of tool output.

    JSON decoding of a payload is the class [Unmarshal]; the clock is an
    argument.  A pointer into the turn list is an update of the first match. *)

From S2P Require Import Prelude GoString Event Paths Wire.
From Stdlib Require Import QArith.

#[local] Open Scope nat_scope.

Definition TerminalLineCap : nat := 2000.
Definition PartialLineCap : Z := 64 * 1024.
Definition MaxImageCount : nat := 4.
Definition MaxImageBytes : Z := 5 * 1024 * 1024.

Inductive out_stream := Stdout | Stderr.

#[export] Instance out_stream_eq_dec : EqDecision out_stream.
Proof. solve_decision. Defined.

Record TerminalLine := mkLine { tl_Stream : out_stream; tl_Text : string; tl_Seq : nat }.

Record ToolCall := mkToolCall {
  CommandID : string;
  tc_Tool : string;
  tc_Args : args;
  Lines : list TerminalLine;
  LineCount : nat;
  StdoutPartial : string;
  StderrPartial : string;
  ElapsedMs : Z;
  Result : option CommandResultPayload;
  AwaitingApproval : bool;
}.

Record Turn := mkTurn {
  IntentID : string;
  UserText : string;
  UserImages : list ImageInput;
  AssistantText : string;
  ToolCalls : list ToolCall;
  Finished : bool;
  FinishReason : string;
  TurnError : string;
}.

Record ApprovalPreview := mkPreview { pv_Path : string; pv_LineNumber : Z; pv_UnifiedDiff : string; pv_VerifyCommand : string }.

Record ApprovalRequest := mkApproval {
  EnvelopeID : string;
  PendingCommandID : string;
  ar_Tool : string;
  ar_Args : args;
  ar_Reason : string;
  DeadlineUnixMs : Z;
  ar_Preview : option ApprovalPreview;
}.

(** ** Assembling output lines *)

Definition LF : ascii := ascii_of_nat 10.

Definition number (st : out_stream) (n : nat) (texts : list string) : list TerminalLine :=
  imap (fun i t => mkLine st t (n + i)) texts.

Definition roll (merged : list TerminalLine) : list TerminalLine :=
  if TerminalLineCap <? length merged then drop (length merged - TerminalLineCap) merged else merged.

Definition with_output (c : ToolCall) (lines : list TerminalLine) (n : nat) (outp errp : string) : ToolCall :=
  mkToolCall (CommandID c) (tc_Tool c) (tc_Args c) lines n outp errp (ElapsedMs c) (Result c) (AwaitingApproval c).

Definition MergeChunkIntoToolCall (c : ToolCall) (p : CommandChunkPayload) : ToolCall :=
  let st := if String.eqb (cc_Stream p) "stderr" then Stderr else Stdout in
  let carry := match st with Stderr => StderrPartial c | Stdout => StdoutPartial c end in
  let buf := carry +:+ cc_Data p in
  let parts := SplitByte LF buf in
  let completed := removelast parts in
  let nextPartial := List.last parts "" in
  let flush := (PartialLineCap <? zlen nextPartial)%Z in
  let additions := number st (LineCount c) (completed ++ if flush then [nextPartial] else []) in
  let lineCount := LineCount c + length additions in
  let nextPartial := if flush then "" else nextPartial in
  let lines := match additions with [] => Lines c | _ => roll (Lines c ++ additions) end in
  with_output c lines lineCount
    (match st with Stdout => nextPartial | Stderr => StdoutPartial c end)
    (match st with Stderr => nextPartial | Stdout => StderrPartial c end).

(** A tool call's output is bounded, and its lines are the last ones of the
    whole output, in order. *)
Record call_ok (c : ToolCall) : Prop := {
  ok_lines : length (Lines c) <= TerminalLineCap;
  ok_seq : tl_Seq <$> Lines c = seq (LineCount c - length (Lines c)) (length (Lines c));
  ok_count : length (Lines c) <= LineCount c;
  ok_out : (zlen (StdoutPartial c) <= PartialLineCap)%Z;
  ok_err : (zlen (StderrPartial c) <= PartialLineCap)%Z;
}.

Lemma number_seq st n l : tl_Seq <$> number st n l = seq n (length l).
Proof.
  unfold number. revert n. induction l as [|t l IH]; intros n; [done|]. cbn [imap fmap list_fmap length seq tl_Seq].
  rewrite Nat.add_0_r. f_equal. rewrite <-IH. f_equal. apply imap_ext. intros i x _. simpl. by rewrite Nat.add_succ_r.
Qed.

Lemma number_length st n l : length (number st n l) = length l.
Proof. apply length_imap. Qed.

Lemma roll_spec l : length (roll l) = length l `min` TerminalLineCap /\ roll l = drop (length l - TerminalLineCap) l.
Proof.
  unfold roll. destruct (Nat.ltb_spec TerminalLineCap (length l)).
  - rewrite length_drop. split; [lia|done].
  - replace (length l - TerminalLineCap) with 0 by lia. split; [lia|by rewrite drop_0].
Qed.

Lemma Merge_ok c p : call_ok c -> call_ok (MergeChunkIntoToolCall c p).
Proof.
  intros [H1 H2 H3 H4 H5]. unfold MergeChunkIntoToolCall.
  set (st := if String.eqb _ _ then Stderr else Stdout).
  set (parts := SplitByte LF _). set (flush := (PartialLineCap <? _)%Z).
  set (adds := number st (LineCount c) _).
  assert (zlen (if flush then "" else List.last parts "") <= PartialLineCap)%Z as Hpart.
  { unfold flush. destruct (Z.ltb_spec PartialLineCap (zlen (List.last parts ""))); [done|lia]. }
  assert (tl_Seq <$> Lines c ++ adds = seq (LineCount c - length (Lines c)) (length (Lines c ++ adds))) as Hseq.
  { rewrite fmap_app, H2. unfold adds. rewrite number_seq, (length_app (Lines c)), number_length, seq_app. f_equal.
    f_equal. lia. }
  split; cbn [Lines LineCount StdoutPartial StderrPartial with_output].
  - destruct adds as [|a adds']; [done|]. destruct (roll_spec (Lines c ++ a :: adds')) as [-> _]. lia.
  - destruct adds as [|a adds'] eqn:Ea.
    { simpl. rewrite Nat.add_0_r. done. }
    destruct (roll_spec (Lines c ++ a :: adds')) as [Hl Hr]. rewrite Hl, Hr, fmap_drop, Hseq.
    rewrite drop_seq. rewrite length_app in *. f_equal; lia.
  - destruct adds as [|a adds'] eqn:Ea; [simpl; lia|].
    destruct (roll_spec (Lines c ++ a :: adds')) as [-> _]. rewrite length_app. lia.
  - by destruct st.
  - by destruct st.
Qed.

(** *** No output is lost *)

Definition texts (st : out_stream) (l : list TerminalLine) : list string := tl_Text <$> filter (fun t => tl_Stream t = st) l.

Definition stream_of (p : CommandChunkPayload) : out_stream := if String.eqb (cc_Stream p) "stderr" then Stderr else Stdout.

Definition partial (st : out_stream) (c : ToolCall) : string :=
  match st with Stdout => StdoutPartial c | Stderr => StderrPartial c end.

(** The bytes the chunks carried on a stream. *)
Definition sent (st : out_stream) (ps : list CommandChunkPayload) : string :=
  foldr (fun p s => (if decide (stream_of p = st) then cc_Data p else "") +:+ s) "" ps.

Lemma sent_app st a b : sent st (a ++ b) = sent st a +:+ sent st b.
Proof. induction a as [|p a IH]; [done|]. cbn [sent foldr app]. fold (sent st (a ++ b)). by rewrite IH, str_app_assoc. Qed.

Lemma sent_one st p : sent st [p] = if decide (stream_of p = st) then cc_Data p else "".
Proof. simpl. by rewrite str_app_nil_r. Qed.

Lemma texts_app st a b : texts st (a ++ b) = texts st a ++ texts st b.
Proof. unfold texts. by rewrite filter_app, fmap_app. Qed.

Lemma texts_number st st' n l : texts st (number st' n l) = if decide (st' = st) then l else [].
Proof.
  unfold texts, number. revert n. induction l as [|t l IH]; intros n; [by case_decide|]. cbn [imap].
  rewrite filter_cons. cbn [tl_Stream].
  assert (imap (fun i t => mkLine st' t (n + S i)) l = imap (fun i t => mkLine st' t (S n + i)) l) as E
    by (apply imap_ext; intros; f_equal; simpl; lia).
  unfold compose. rewrite E. specialize (IH (S n)). destruct (decide (st' = st)) as [Heq|Hne]; [|done].
  cbn [fmap list_fmap tl_Text]. by f_equal.
Qed.

Lemma drop_roll l k :
  roll (drop (length l - TerminalLineCap) l ++ k) = drop (length (l ++ k) - TerminalLineCap) (l ++ k).
Proof.
  destruct (roll_spec (drop (length l - TerminalLineCap) l ++ k)) as [_ ->].
  rewrite !length_app, length_drop, !drop_app, drop_drop, length_drop. f_equal; f_equal; lia.
Qed.

(** One chunk, seen against the unbounded log. *)
Lemma Merge_log c p all :
  Lines c = drop (length all - TerminalLineCap) all -> LineCount c = length all ->
  (zlen (partial (stream_of p) c) + zlen (cc_Data p) <= PartialLineCap)%Z ->
  let c' := MergeChunkIntoToolCall c p in
  exists adds, Lines c' = drop (length (all ++ adds) - TerminalLineCap) (all ++ adds) /\
    LineCount c' = length (all ++ adds) /\
    forall st, texts st adds ++ [partial st c'] =
      if decide (stream_of p = st) then SplitByte LF (partial st c +:+ cc_Data p) else [partial st c].
Proof.
  intros HL HC Hcap. unfold MergeChunkIntoToolCall. fold (stream_of p).
  replace (match stream_of p with Stderr => StderrPartial c | Stdout => StdoutPartial c end) with (partial (stream_of p) c) by (by destruct (stream_of p)).
  set (parts := SplitByte LF (partial (stream_of p) c +:+ cc_Data p)).
  assert (parts = removelast parts ++ [List.last parts ""]) as Hparts by (apply app_removelast_last, SplitByte_nonempty).
  assert ((PartialLineCap <? zlen (List.last parts ""))%Z = false) as ->.
  { apply Z.ltb_ge. assert (zlen (List.last parts "") <= zlen (partial (stream_of p) c +:+ cc_Data p))%Z as Hle.
    { rewrite <-(Join_Split LF (partial (stream_of p) c +:+ cc_Data p)). fold parts. rewrite Hparts at 2.
      destruct (decide (removelast parts = [])) as [->|Hne]; [done|].
      rewrite Join_app by done. rewrite zlen_app. simpl. unfold zlen. simpl. lia. }
    rewrite zlen_app in Hle. lia. }
  rewrite app_nil_r. set (adds := number (stream_of p) (LineCount c) (removelast parts)). exists adds.
  cbn [Lines LineCount with_output]. split_and!.
  - destruct adds as [|a adds'] eqn:Ea; [by rewrite app_nil_r|]. rewrite HL. apply drop_roll.
  - by rewrite HC, length_app.
  - intros st. unfold adds. rewrite texts_number. destruct (decide (stream_of p = st)) as [<-|Hne].
    + fold parts. rewrite Hparts at 3. f_equal. f_equal. by destruct (stream_of p).
    + simpl. f_equal. by destruct (stream_of p), st.
Qed.

Lemma join_extend T carry data :
  JoinByte LF (T ++ SplitByte LF (carry +:+ data)) = JoinByte LF (T ++ [carry]) +:+ data.
Proof.
  destruct (decide (T = [])) as [->|Hne]; [apply Join_Split|].
  rewrite !Join_app; try done; [|apply SplitByte_nonempty]. rewrite Join_Split. simpl.
  by rewrite <-str_app_assoc, str_app_cons.
Qed.

Definition fresh_call (id tool : string) (a : args) : ToolCall := mkToolCall id tool a [] 0 "" "" 0 None false.

(** the mobile terminal loses nothing and stays bounded: after any
    sequence of output chunks, split anywhere and interleaved across the two
    streams, a tool call keeps at most 2000 lines and 64 KiB of unfinished line
    per stream, with consecutive sequence numbers that count from the first
    line ever seen; and as long as the output is at most 64 KiB, the lines ever
    seen are a log whose newest 2000 are kept and whose text on each stream,
    with the unfinished line, is exactly the bytes received on that stream. *)
Theorem terminal_output_lossless (id tool : string) (a : args) (ps : list CommandChunkPayload) :
  let c := foldl MergeChunkIntoToolCall (fresh_call id tool a) ps in
  (length (Lines c) <= TerminalLineCap /\
   tl_Seq <$> Lines c = seq (LineCount c - length (Lines c)) (length (Lines c)) /\
   (zlen (StdoutPartial c) <= PartialLineCap)%Z /\ (zlen (StderrPartial c) <= PartialLineCap)%Z) /\
  ((sumZ (fun p => zlen (cc_Data p)) ps <= PartialLineCap)%Z ->
   exists all, Lines c = drop (length all - TerminalLineCap) all /\ LineCount c = length all /\
     forall st, JoinByte LF (texts st all ++ [partial st c]) = sent st ps).
Proof.
  intros c. split.
  - assert (call_ok c) as [? ? ? ? ?]; [|done].
    unfold c. assert (forall c0, call_ok c0 -> call_ok (foldl MergeChunkIntoToolCall c0 ps)) as H.
    { clear. induction ps as [|p ps IH]; intros c0 H0; [done|]. apply IH. by apply Merge_ok. }
    apply H. split; simpl; try done; unfold TerminalLineCap; lia.
  - unfold c. clear c. induction ps as [|p ps IH] using rev_ind; intros Hsum.
    { exists []. split_and!; try done. by intros []. }
    rewrite sumZ_app in Hsum. change (sumZ (fun p => zlen (cc_Data p)) [p]) with (zlen (cc_Data p) + 0)%Z in Hsum.
    pose proof (zlen_nonneg (cc_Data p)) as Hnn.
    destruct IH as (all & HL & HC & HJ); [lia|]. rewrite foldl_app. simpl.
    set (c := foldl MergeChunkIntoToolCall (fresh_call id tool a) ps) in *.
    destruct (Merge_log c p all HL HC) as (adds & HL' & HC' & Hadds).
    { assert (zlen (partial (stream_of p) c) <= sumZ (fun p => zlen (cc_Data p)) ps)%Z; [|lia].
      assert (zlen (partial (stream_of p) c) <= zlen (sent (stream_of p) ps))%Z as H1.
      { rewrite <-HJ. destruct (decide (texts (stream_of p) all = [])) as [->|Hne]; [done|].
        rewrite Join_app by done. rewrite zlen_app. unfold zlen. simpl. lia. }
      assert (zlen (sent (stream_of p) ps) <= sumZ (fun p => zlen (cc_Data p)) ps)%Z as H2; [|lia].
      clear. generalize (stream_of p) as st. intros st. induction ps as [|q ps IH]; [done|]. cbn [sent foldr sumZ].
      fold (sent st ps). fold (sumZ (fun p => zlen (cc_Data p)) ps). rewrite zlen_app.
      pose proof (zlen_nonneg (cc_Data q)). change (zlen "") with 0%Z. case_decide; [lia|change (zlen "") with 0%Z; lia]. }
    exists (all ++ adds). split_and!; [done|done|]. intros st. rewrite texts_app, <-app_assoc, Hadds, sent_app, sent_one.
    destruct (decide (stream_of p = st)) as [Heq|Hne]; [by rewrite join_extend, HJ|].
    by rewrite HJ, str_app_nil_r.
Qed.
