(* ===== verification/MobileStore.v ===== *)
(** * The mobile client's store and reducer (internal/mobile/state)

    state.go: the store, its setters, the attachment and the approval queue and
    the subscriber notifications.  ingest.go: the reducer of inbound envelopes.
    A Go pointer into the turn list ([findTurn], [findToolCall]) is an update of
    the first match.  A subscriber's channel of capacity one is a flag. *)

From S2P Require Import Prelude GoString Event Paths Wire MobileState.
From Stdlib Require Import QArith.

#[local] Open Scope nat_scope.

(** ** State *)

Record SessionTokens := mkTokens { Prompt : Z; Candidates : Z; Total : Z; CostUSD : float64 }.

Definition zero_tokens : SessionTokens := mkTokens 0 0 0 fzero.

Definition StatusIdle := "idle".
Definition ScreenChat := "chat".

Record State := mkState {
  ServerURL : string;
  Token : string;
  SessionID : string;
  Status : string;
  Screen : string;
  Turns : list Turn;
  PendingApprovals : list ApprovalRequest;
  PendingImages : list ImageInput;
  Provider : string;
  Model : string;
  AvailableModels : list string;
  Tokens : SessionTokens;
  LastEventID : string;
  LastError : string;
  RestartPending : bool;
}.

Definition init_state : State := mkState "" "" "" StatusIdle ScreenChat [] [] [] "" "" [] zero_tokens "" "" false.

Definition set_session (s : State) url tok sid status ev : State :=
  mkState url tok sid status (Screen s) (Turns s) (PendingApprovals s) (PendingImages s) (Provider s) (Model s) (AvailableModels s) (Tokens s) ev (LastError s) (RestartPending s).
Definition set_screen (s : State) v : State :=
  mkState (ServerURL s) (Token s) (SessionID s) (Status s) v (Turns s) (PendingApprovals s) (PendingImages s) (Provider s) (Model s) (AvailableModels s) (Tokens s) (LastEventID s) (LastError s) (RestartPending s).
Definition set_turns (s : State) v : State :=
  mkState (ServerURL s) (Token s) (SessionID s) (Status s) (Screen s) v (PendingApprovals s) (PendingImages s) (Provider s) (Model s) (AvailableModels s) (Tokens s) (LastEventID s) (LastError s) (RestartPending s).
Definition set_approvals (s : State) v : State :=
  mkState (ServerURL s) (Token s) (SessionID s) (Status s) (Screen s) (Turns s) v (PendingImages s) (Provider s) (Model s) (AvailableModels s) (Tokens s) (LastEventID s) (LastError s) (RestartPending s).
Definition set_images (s : State) v : State :=
  mkState (ServerURL s) (Token s) (SessionID s) (Status s) (Screen s) (Turns s) (PendingApprovals s) v (Provider s) (Model s) (AvailableModels s) (Tokens s) (LastEventID s) (LastError s) (RestartPending s).
Definition set_catalogue (s : State) p m a : State :=
  mkState (ServerURL s) (Token s) (SessionID s) (Status s) (Screen s) (Turns s) (PendingApprovals s) (PendingImages s) p m a (Tokens s) (LastEventID s) (LastError s) (RestartPending s).
Definition set_tokens (s : State) v : State :=
  mkState (ServerURL s) (Token s) (SessionID s) (Status s) (Screen s) (Turns s) (PendingApprovals s) (PendingImages s) (Provider s) (Model s) (AvailableModels s) v (LastEventID s) (LastError s) (RestartPending s).
Definition set_error (s : State) v : State :=
  mkState (ServerURL s) (Token s) (SessionID s) (Status s) (Screen s) (Turns s) (PendingApprovals s) (PendingImages s) (Provider s) (Model s) (AvailableModels s) (Tokens s) (LastEventID s) v (RestartPending s).
Definition set_restart (s : State) v : State :=
  mkState (ServerURL s) (Token s) (SessionID s) (Status s) (Screen s) (Turns s) (PendingApprovals s) (PendingImages s) (Provider s) (Model s) (AvailableModels s) (Tokens s) (LastEventID s) (LastError s) v.

(** ** Setters: the functions [Store.Update] runs *)

Definition SetCredentials (serverURL token : string) (s : State) : State :=
  if String.eqb token "" then set_images (set_approvals (set_turns (set_session s serverURL token "" StatusIdle "") []) []) []
  else set_session s serverURL token (SessionID s) (Status s) (LastEventID s).

Definition SetScreen (v : string) (s : State) : State := set_screen s v.
Definition SetRestartPending (v : bool) (s : State) : State := set_restart s v.
Definition SetStatus (v : string) (s : State) : State := set_session s (ServerURL s) (Token s) (SessionID s) v (LastEventID s).
Definition SetLastError (v : string) (s : State) : State := set_error s v.

Definition ResetTurns (s : State) : State := set_tokens (set_approvals (set_turns s []) []) zero_tokens.

Definition RecordSentIntent (intentID text : string) (images : list ImageInput) (s : State) : State :=
  set_turns s (Turns s ++ [mkTurn intentID text images "" [] false "" ""]).

(** ** Attachments *)

Definition isAcceptedImageMIME (mt : string) : bool :=
  String.eqb mt "image/jpeg" || String.eqb mt "image/png" || String.eqb mt "image/gif" || String.eqb mt "image/webp".

Inductive ImageAttachmentError := ErrImageTooLarge | ErrTooManyImages | ErrUnsupportedMimeType.

Definition AddPendingImage (img : ImageInput) (decodedBytes : Z) (s : State) : State * option ImageAttachmentError :=
  if negb (isAcceptedImageMIME (MediaType img)) then (s, Some ErrUnsupportedMimeType)
  else if (MaxImageBytes <? decodedBytes)%Z then (s, Some ErrImageTooLarge)
  else if MaxImageCount <=? length (PendingImages s) then (s, Some ErrTooManyImages)
  else (set_images s (PendingImages s ++ [img]), None).

Definition RemovePendingImage (idx : Z) (s : State) : State :=
  if ((idx <? 0) || (Z.of_nat (length (PendingImages s)) <=? idx))%Z then s
  else set_images s (take (Z.to_nat idx) (PendingImages s) ++ drop (S (Z.to_nat idx)) (PendingImages s)).

Definition TakePendingImages (s : State) : State * list ImageInput := (set_images s [], PendingImages s).

(** ** Approvals *)

Fixpoint remove_approval (id : string) (l : list ApprovalRequest) : option (ApprovalRequest * list ApprovalRequest) :=
  match l with
  | [] => None
  | a :: l' => if String.eqb (EnvelopeID a) id then Some (a, l')
               else match remove_approval id l' with None => None | Some (x, r) => Some (x, a :: r) end
  end.

Definition PopApproval (envelopeID : string) (s : State) : State * option ApprovalRequest :=
  match remove_approval envelopeID (PendingApprovals s) with
  | Some (a, rest) => (set_approvals s rest, Some a)
  | None => (s, None)
  end.

(** ** The reducer *)

(** Update the first element that satisfies [p]. *)
Fixpoint upd_first {A} (p : A -> bool) (f : A -> A) (l : list A) : list A :=
  match l with
  | [] => []
  | x :: l' => if p x then f x :: l' else x :: upd_first p f l'
  end.

Definition is_turn (correlationID : string) (t : Turn) : bool := String.eqb (IntentID t) correlationID.
Definition is_call (commandID : string) (c : ToolCall) : bool := String.eqb (CommandID c) commandID.

Definition findTurn (s : State) (correlationID : string) : option Turn :=
  if String.eqb correlationID "" then None else List.find (is_turn correlationID) (Turns s).

Definition with_turn (s : State) (correlationID : string) (f : Turn -> Turn) : State :=
  if String.eqb correlationID "" then s else set_turns s (upd_first (is_turn correlationID) f (Turns s)).

Definition with_calls (t : Turn) (l : list ToolCall) : Turn :=
  mkTurn (IntentID t) (UserText t) (UserImages t) (AssistantText t) l (Finished t) (FinishReason t) (TurnError t).

(** [findToolCall] walks every turn; the first match is updated. *)
Definition with_call (s : State) (commandID : string) (f : ToolCall -> ToolCall) : State :=
  if String.eqb commandID "" then s
  else set_turns s (upd_first (fun t => existsb (is_call commandID) (ToolCalls t))
                      (fun t => with_calls t (upd_first (is_call commandID) f (ToolCalls t))) (Turns s)).

Section reducer.
Context `{Unmarshal HelloPayload, Unmarshal AssistantChunkPayload, Unmarshal AssistantMessagePayload}.
Context `{Unmarshal CommandRequestPayload, Unmarshal CommandChunkPayload, Unmarshal CommandResultPayload}.
Context `{Unmarshal SandboxHeartbeatPayload, Unmarshal ToolApprovalRequestPayload, Unmarshal ErrorPayload, Unmarshal AckPayload}.

Definition or_else (v old : string) : string := if String.eqb v "" then old else v.

Definition applyHello (s : State) (env : Envelope) : State :=
  match json_Unmarshal env with
  | None => s
  | Some p =>
      let s := set_session s (ServerURL s) (Token s) (hp_SessionID p) (Status s) (LastEventID s) in
      let s := set_catalogue s (or_else (hp_Provider p) (Provider s)) (or_else (hp_Model p) (Model s))
                 (match hp_AvailableModels p with [] => AvailableModels s | l => l end) in
      set_restart (set_error s "") false
  end.

Definition append_text (t : Turn) (text : string) : Turn :=
  mkTurn (IntentID t) (UserText t) (UserImages t) (AssistantText t +:+ text) (ToolCalls t) (Finished t) (FinishReason t) (TurnError t).

Definition applyAssistantChunk (s : State) (env : Envelope) : State :=
  match json_Unmarshal env with
  | None => s
  | Some p => with_turn s (CorrelationID env) (fun t => append_text t (ac_Text p))
  end.

Definition close_turn (p : AssistantMessagePayload) (t : Turn) : Turn :=
  mkTurn (IntentID t) (UserText t) (UserImages t) (or_else (am_Text p) (AssistantText t)) (ToolCalls t) true
    (or_else (am_FinishReason p) (FinishReason t))
    (if String.eqb (am_FinishReason p) "error" || negb (String.eqb (am_Error p) "")
     then or_else (am_Error p) "assistant returned an error frame" else TurnError t).

Definition add_usage (k : SessionTokens) (u : UsagePayload) : SessionTokens :=
  mkTokens (wrap64 (Prompt k + us_PromptTokens u)) (wrap64 (Candidates k + us_CandidatesTokens u))
    (wrap64 (Total k + us_TotalTokens u)) (fadd (CostUSD k) (us_CostUSD u)).

Definition applyAssistantMessage (s : State) (env : Envelope) : State :=
  match findTurn s (CorrelationID env), json_Unmarshal env with
  | Some _, Some p =>
      let s' := with_turn s (CorrelationID env) (close_turn p) in
      match am_Usage p with Some u => set_tokens s' (add_usage (Tokens s') u) | None => s' end
  | _, _ => s
  end.

Definition applyCommandRequest (s : State) (env : Envelope) : State :=
  match json_Unmarshal env with
  | None => s
  | Some p => with_turn s (CorrelationID env) (fun t => with_calls t (ToolCalls t ++ [fresh_call (ID env) (rq_Tool p) (rq_Args p)]))
  end.

Definition applyCommandChunk (s : State) (env : Envelope) : State :=
  match json_Unmarshal env with
  | None => s
  | Some p => with_call s (CorrelationID env) (fun c => MergeChunkIntoToolCall c p)
  end.

Definition finish_call (p : CommandResultPayload) (c : ToolCall) : ToolCall :=
  mkToolCall (CommandID c) (tc_Tool c) (tc_Args c) (Lines c) (LineCount c) (StdoutPartial c) (StderrPartial c) (ElapsedMs c) (Some p) false.

Definition applyCommandResult (s : State) (env : Envelope) : State :=
  match json_Unmarshal env with
  | None => s
  | Some p => with_call s (CorrelationID env) (finish_call p)
  end.

Definition beat_call (ms : Z) (c : ToolCall) : ToolCall :=
  mkToolCall (CommandID c) (tc_Tool c) (tc_Args c) (Lines c) (LineCount c) (StdoutPartial c) (StderrPartial c) ms (Result c) (AwaitingApproval c).

Definition applySandboxHeartbeat (s : State) (env : Envelope) : State :=
  match json_Unmarshal env with
  | None => s
  | Some p => with_call s (CorrelationID env) (beat_call (hb_ElapsedMs p))
  end.

Definition int_of_any (v : option any) : Z :=
  match v with
  | Some (AFloat q) => int_of_float q
  | Some (AInt n) => n
  | _ => 0
  end.

Definition extractPreview (raw : option args) : option ApprovalPreview :=
  match raw with
  | None => None
  | Some raw =>
      let p := mkPreview (arg_string_or_empty raw "path") (int_of_any (arg_lookup raw "line_number"))
                 (arg_string_or_empty raw "unified_diff") (arg_string_or_empty raw "verify_command") in
      if String.eqb (pv_Path p) "" && String.eqb (pv_UnifiedDiff p) "" && String.eqb (pv_VerifyCommand p) "" && (pv_LineNumber p =? 0)%Z
      then None else Some p
  end.

Definition await_call (c : ToolCall) : ToolCall :=
  mkToolCall (CommandID c) (tc_Tool c) (tc_Args c) (Lines c) (LineCount c) (StdoutPartial c) (StderrPartial c) (ElapsedMs c) (Result c) true.

(** [now] is [time.Now().UnixMilli()]. *)
Definition applyToolApprovalRequest (now : Z) (s : State) (env : Envelope) : State :=
  match json_Unmarshal env with
  | None => s
  | Some p =>
      let timeoutMs := if (ta_TimeoutMs p <=? 0)%Z then 60000%Z else ta_TimeoutMs p in
      let req := mkApproval (ID env) (ta_PendingCommandID p) (ta_Tool p) (ta_Args p) (ta_Reason p)
                   (wrap64 (now + timeoutMs)) (extractPreview (ta_Preview p)) in
      with_call (set_approvals s (PendingApprovals s ++ [req])) (ta_PendingCommandID p) await_call
  end.

Definition applyError (s : State) (env : Envelope) : State :=
  match json_Unmarshal env with None => s | Some p => set_error s (ep_Message p) end.

Definition applyAck (s : State) (env : Envelope) : State :=
  match json_Unmarshal env with
  | None => s
  | Some p =>
      if String.eqb (ak_Action p) UserCommandSetModel && String.eqb (ak_Error p) "" && negb (String.eqb (ak_Model p) "")
      then set_catalogue s (Provider s) (ak_Model p) (AvailableModels s) else s
  end.

Definition Ingest (now : Z) (env : Envelope) (s0 : State) : State :=
  let s := set_session s0 (ServerURL s0) (Token s0) (SessionID s0) (Status s0) (ID env) in
  let t := EType env in
  if String.eqb t EventHello then applyHello s env
  else if String.eqb t EventAssistantChunk then applyAssistantChunk s env
  else if String.eqb t EventAssistantMessage then applyAssistantMessage s env
  else if String.eqb t EventCommandRequest then applyCommandRequest s env
  else if String.eqb t EventCommandChunk then applyCommandChunk s env
  else if String.eqb t EventCommandResult then applyCommandResult s env
  else if String.eqb t EventSandboxHeartbeat then applySandboxHeartbeat s env
  else if String.eqb t EventToolApprovalRequest then applyToolApprovalRequest now s env
  else if String.eqb t EventError then applyError s env
  else if String.eqb t EventAck then applyAck s env
  else s.
End reducer.

(** ** The operations of the store *)

Inductive state_op :=
| OpIngest (now : Z) (env : Envelope)
| OpCredentials (serverURL token : string)
| OpScreen (v : string)
| OpRestart (v : bool)
| OpStatus (v : string)
| OpLastError (v : string)
| OpResetTurns
| OpSent (intentID text : string) (images : list ImageInput)
| OpAddImage (img : ImageInput) (decodedBytes : Z)
| OpRemoveImage (idx : Z)
| OpTakeImages
| OpPop (envelopeID : string).

Section ops.
Context `{Unmarshal HelloPayload, Unmarshal AssistantChunkPayload, Unmarshal AssistantMessagePayload}.
Context `{Unmarshal CommandRequestPayload, Unmarshal CommandChunkPayload, Unmarshal CommandResultPayload}.
Context `{Unmarshal SandboxHeartbeatPayload, Unmarshal ToolApprovalRequestPayload, Unmarshal ErrorPayload, Unmarshal AckPayload}.

Definition apply_op (o : state_op) (s : State) : State :=
  match o with
  | OpIngest now env => Ingest now env s
  | OpCredentials u t => SetCredentials u t s
  | OpScreen v => SetScreen v s
  | OpRestart v => SetRestartPending v s
  | OpStatus v => SetStatus v s
  | OpLastError v => SetLastError v s
  | OpResetTurns => ResetTurns s
  | OpSent i t imgs => RecordSentIntent i t imgs s
  | OpAddImage img n => (AddPendingImage img n s).1
  | OpRemoveImage i => RemovePendingImage i s
  | OpTakeImages => (TakePendingImages s).1
  | OpPop id => (PopApproval id s).1
  end.

(** *** The invariant *)

Record state_ok (s : State) : Prop := {
  ok_calls : Forall (fun t => Forall call_ok (ToolCalls t)) (Turns s);
  ok_images : length (PendingImages s) <= MaxImageCount;
  ok_mime : Forall (fun i => isAcceptedImageMIME (MediaType i) = true) (PendingImages s);
}.

Lemma upd_first_Forall {A} (P : A -> Prop) p f l :
  (forall x, P x -> P (f x)) -> Forall P l -> Forall P (upd_first p f l).
Proof. intros Hf. induction 1 as [|x l Hx Hl IH]; simpl; [done|]. destruct (p x); constructor; auto. Qed.

Lemma fresh_call_ok id tool a : call_ok (fresh_call id tool a).
Proof. split; simpl; try done; unfold TerminalLineCap; lia. Qed.

Lemma with_turn_ok s cid f :
  (forall t, Forall call_ok (ToolCalls t) -> Forall call_ok (ToolCalls (f t))) -> state_ok s -> state_ok (with_turn s cid f).
Proof. intros Hf [Hc Hi Hm]. unfold with_turn. case_match; split; try done. by apply upd_first_Forall. Qed.

Lemma with_call_ok s cid f :
  (forall c, call_ok c -> call_ok (f c)) -> state_ok s -> state_ok (with_call s cid f).
Proof.
  intros Hf [Hc Hi Hm]. unfold with_call. case_match; split; try done. apply upd_first_Forall; [|done].
  intros t Ht. simpl. by apply upd_first_Forall.
Qed.

(** The invariant only reads three fields. *)
Lemma state_ok_proper s s' :
  Turns s' = Turns s -> PendingImages s' = PendingImages s -> state_ok s -> state_ok s'.
Proof. intros E1 E2 [? ? ?]. split; by rewrite ?E1, ?E2. Qed.

Ltac frame := match goal with H : state_ok ?s |- state_ok ?s' => apply (state_ok_proper s s'); [done|done|exact H] end.

Lemma Ingest_ok now env s0 : state_ok s0 -> state_ok (Ingest now env s0).
Proof.
  intros Hs0. unfold Ingest.
  assert (state_ok (set_session s0 (ServerURL s0) (Token s0) (SessionID s0) (Status s0) (ID env))) as Hs by frame.
  set (s := set_session s0 _ _ _ _ _) in *. clearbody s. clear Hs0.
  repeat case_match; try frame.
  - unfold applyHello. case_match; frame.
  - unfold applyAssistantChunk. case_match; [|frame]. by apply with_turn_ok.
  - unfold applyAssistantMessage. case_match; [|frame]. case_match; [|frame].
    match goal with |- context [with_turn s ?c ?f] => assert (state_ok (with_turn s c f)) by (by apply with_turn_ok) end.
    case_match; frame.
  - unfold applyCommandRequest. case_match; [|frame]. apply with_turn_ok; [|done].
    intros t Ht. simpl. apply Forall_app. split; [done|]. constructor; [apply fresh_call_ok|done].
  - unfold applyCommandChunk. case_match; [|frame]. apply with_call_ok; [|done]. intros ?. apply Merge_ok.
  - unfold applyCommandResult. case_match; [|frame]. apply with_call_ok; [|done]. by intros ? [].
  - unfold applySandboxHeartbeat. case_match; [|frame]. apply with_call_ok; [|done]. by intros ? [].
  - unfold applyToolApprovalRequest. case_match; [|frame]. apply with_call_ok; [|frame]. by intros ? [].
  - unfold applyError. case_match; frame.
  - unfold applyAck. case_match; [|frame]. case_match; frame.
Qed.

Lemma apply_op_ok o s : state_ok s -> state_ok (apply_op o s).
Proof.
  intros H'. destruct o; cbn [apply_op]; try frame.
  - by apply Ingest_ok.
  - unfold SetCredentials. case_match; [|frame]. split; simpl; [done|unfold MaxImageCount; lia|done].
  - destruct H'. split; done.
  - destruct H' as [? ? ?]. split; simpl; try done. apply Forall_app. split; [done|]. by constructor.
  - unfold AddPendingImage. destruct H' as [Hc Hi Hm]. repeat case_match; simpl; try done. boolprop. split; simpl; [done| |].
    + rewrite length_app. simpl. lia.
    + apply Forall_app. split; [done|]. by constructor.
  - unfold RemovePendingImage. case_match; [done|]. destruct H' as [Hc Hi Hm]. boolprop. split; simpl; [done| |].
    + rewrite length_app, length_take, length_drop. lia.
    + apply Forall_app. split; [by apply Forall_take|by apply Forall_drop].
  - destruct H'. split; simpl; [done|unfold MaxImageCount; lia|done].
  - unfold PopApproval. repeat case_match; frame.
Qed.

(** C39: the mobile store stays bounded and well formed: from the initial
    state, after any sequence of user actions and inbound envelopes in any
    order, every tool call of every turn keeps at most 2000 output lines with
    consecutive sequence numbers and at most 64 KiB of unfinished line per
    stream, and the composer queues at most four attachments, all of an
    accepted image type. *)
Theorem mobile_store_invariant (ops : list state_op) :
  let s := foldl (fun s o => apply_op o s) init_state ops in
  Forall (fun t => Forall call_ok (ToolCalls t)) (Turns s) /\
  length (PendingImages s) <= MaxImageCount /\
  Forall (fun i => isAcceptedImageMIME (MediaType i) = true) (PendingImages s).
Proof.
  assert (forall s0, state_ok s0 -> state_ok (foldl (fun s o => apply_op o s) s0 ops)) as Hok.
  { induction ops as [|o l IH]; intros s0 Hs; [done|]. simpl. by apply IH, apply_op_ok. }
  destruct (Hok init_state) as [Hc Hi Hm]; [|done].
  split; simpl; [done|unfold MaxImageCount; lia|done].
Qed.

(** *** The reply of a turn *)

(** What one envelope does to the reply text of turn [id]: a chunk appends, a
    non-empty terminal message replaces. *)
Definition text_step (id : string) (text : string) (env : Envelope) : string :=
  if String.eqb (CorrelationID env) id then
    if String.eqb (EType env) EventAssistantChunk then
      match json_Unmarshal (P := AssistantChunkPayload) env with Some p => text +:+ ac_Text p | None => text end
    else if String.eqb (EType env) EventAssistantMessage then
      match json_Unmarshal (P := AssistantMessagePayload) env with Some p => or_else (am_Text p) text | None => text end
    else text
  else text.

(** A terminal message for turn [id]. *)
Definition closes (id : string) (env : Envelope) : bool :=
  String.eqb (CorrelationID env) id && String.eqb (EType env) EventAssistantMessage &&
  match json_Unmarshal (P := AssistantMessagePayload) env with Some _ => true | None => false end.

(** The user's side of the conversation, and the reply of each turn. *)
Definition sent_part (t : Turn) : string * string * list ImageInput := (IntentID t, UserText t, UserImages t).

Lemma upd_first_map {A B} (g : A -> B) p f l : (forall x, g (f x) = g x) -> g <$> upd_first p f l = g <$> l.
Proof.
  intros Hg. induction l as [|x l IH]; simpl; [done|]. destruct (p x); cbn; f_equal; auto.
Qed.

Lemma find_upd_first_same {A} (p : A -> bool) f l x :
  (forall x, p (f x) = p x) -> List.find p l = Some x -> List.find p (upd_first p f l) = Some (f x).
Proof.
  intros Hp. induction l as [|y l IH]; simpl; [done|]. destruct (p y) eqn:Hy; simpl.
  - intros [= ->]. by rewrite Hp, Hy.
  - rewrite Hy. done.
Qed.

Lemma find_upd_first_other {A} (p q : A -> bool) f l x :
  (forall x, p (f x) = p x) -> List.find p l = Some x ->
  exists x', List.find p (upd_first q f l) = Some x' /\ (x' = x \/ q x = true /\ x' = f x).
Proof.
  intros Hp. induction l as [|y l IH]; simpl; [done|]. destruct (p y) eqn:Hy; simpl.
  - intros [= ->]. destruct (q x) eqn:Hq; simpl; rewrite ?Hp, Hy; eauto.
  - intros Hl. destruct (q y); simpl; rewrite ?Hp, ?Hy; eauto.
Qed.

(** The turn that one envelope leaves at [id], by the kind of the envelope. *)
Lemma with_turn_find s cid f id t :
  (forall t, IntentID (f t) = IntentID t) -> id <> "" -> findTurn s id = Some t ->
  findTurn (with_turn s cid f) id = Some (if String.eqb cid id then f t else t).
Proof.
  intros Hf Hid. unfold findTurn, with_turn. apply String.eqb_neq in Hid. rewrite Hid. intros Ht.
  destruct (String.eqb_spec cid "") as [->|Hc]; [destruct (String.eqb_spec "" id); [by subst|done]|].
  cbn [Turns set_turns]. destruct (String.eqb_spec cid id) as [->|Hne].
  - apply find_upd_first_same; [|done]. intros x. unfold is_turn. by rewrite Hf.
  - destruct (find_upd_first_other (is_turn id) (is_turn cid) f (Turns s) t) as (t' & -> & [->|[Hq _]]); try done.
    + intros x. unfold is_turn. by rewrite Hf.
    + apply find_some in Ht as [_ Ht]. unfold is_turn in *. apply String.eqb_eq in Ht, Hq. congruence.
Qed.

Lemma with_call_find s cid f id t :
  findTurn s id = Some t ->
  exists t', findTurn (with_call s cid f) id = Some t' /\ AssistantText t' = AssistantText t /\ Finished t' = Finished t.
Proof.
  unfold findTurn, with_call. destruct (String.eqb id ""); [done|]. intros Ht.
  destruct (String.eqb cid ""); [eauto|]. cbn [Turns set_turns].
  edestruct (find_upd_first_other (is_turn id) (fun t => existsb (is_call cid) (ToolCalls t))
    (fun t => with_calls t (upd_first (is_call cid) f (ToolCalls t))) (Turns s) t) as (t' & -> & [->|[_ ->]]); eauto.
Qed.

Lemma findTurn_proper s s' id : Turns s' = Turns s -> findTurn s' id = findTurn s id.
Proof. unfold findTurn. by intros ->. Qed.

(** Evaluate the comparisons of two event names. *)
Ltac eval_types :=
  repeat match goal with
  | |- context [String.eqb ?a ?b] =>
      let r := eval vm_compute in (String.eqb a b) in
      match r with true => idtac | false => idtac end; change (String.eqb a b) with r
  end; cbn [andb orb].

Lemma Ingest_turn now env s id t :
  id <> "" -> findTurn s id = Some t ->
  exists t', findTurn (Ingest now env s) id = Some t' /\
    AssistantText t' = text_step id (AssistantText t) env /\ Finished t' = Finished t || closes id env.
Proof.
  intros Hid Ht. unfold Ingest.
  assert (findTurn (set_session s (ServerURL s) (Token s) (SessionID s) (Status s) (ID env)) id = Some t) as Hs by done.
  set (s1 := set_session s _ _ _ _ _) in *. clearbody s1. clear Ht s. unfold text_step, closes.
  destruct (String.eqb_spec (EType env) EventAssistantChunk) as [E|Hc].
  { rewrite E. eval_types. rewrite andb_false_r, orb_false_r. unfold applyAssistantChunk.
    destruct (json_Unmarshal env) as [p|]; [|exists t; split_and!; try done; by case_match].
    rewrite (with_turn_find _ _ _ _ t) by done. eexists. split; [done|]. by destruct (String.eqb _ id). }
  destruct (String.eqb_spec (EType env) EventAssistantMessage) as [E|Hm].
  { rewrite E. eval_types. rewrite andb_true_r. unfold applyAssistantMessage.
    destruct (String.eqb_spec (CorrelationID env) id) as [->|Hne]; cbn [andb].
    - rewrite Hs. destruct (json_Unmarshal env) as [p|]; [|exists t; split_and!; [done|done|by rewrite orb_false_r]].
      pose proof (with_turn_find s1 id (close_turn p) id t (fun _ => eq_refl) Hid Hs) as Hw. rewrite String.eqb_refl in Hw.
      exists (close_turn p t). split; [by destruct (am_Usage p)|]. split; [done|]. by rewrite orb_true_r.
    - exists t. rewrite orb_false_r. split; [|done]. case_match; [|done]. destruct (json_Unmarshal env) as [p|]; [|done].
      pose proof (with_turn_find s1 (CorrelationID env) (close_turn p) id t (fun _ => eq_refl) Hid Hs) as Hw.
      apply String.eqb_neq in Hne. rewrite Hne in Hw. by destruct (am_Usage p). }
  rewrite andb_false_r, orb_false_r. cbn [andb].
  replace (if String.eqb (CorrelationID env) id then AssistantText t else AssistantText t) with (AssistantText t) by (by case_match).
  assert (exists t', findTurn s1 id = Some t' /\ AssistantText t' = AssistantText t /\ Finished t' = Finished t) as Hsame by eauto.
  repeat case_match; try done.
  - unfold applyHello. by case_match.
  - unfold applyCommandRequest. destruct (json_Unmarshal env) as [p|]; [|done].
    rewrite (with_turn_find _ _ _ _ t) by done. eexists. split; [done|]. by case_match.
  - unfold applyCommandChunk. case_match; [|done]. by apply with_call_find.
  - unfold applyCommandResult. case_match; [|done]. by apply with_call_find.
  - unfold applySandboxHeartbeat. case_match; [|done]. by apply with_call_find.
  - unfold applyToolApprovalRequest. case_match; [|done]. by apply with_call_find.
  - unfold applyError. by case_match.
  - unfold applyAck. case_match; [|done]. by case_match.
Qed.

Lemma Ingest_sent now env s : sent_part <$> Turns (Ingest now env s) = sent_part <$> Turns s.
Proof.
  unfold Ingest. set (s1 := set_session s _ _ _ _ _). change (Turns s) with (Turns s1). clearbody s1.
  assert (forall cid f, (forall t, sent_part (f t) = sent_part t) -> sent_part <$> Turns (with_turn s1 cid f) = sent_part <$> Turns s1) as Ht.
  { intros cid f Hf. unfold with_turn. case_match; [done|]. by apply upd_first_map. }
  assert (forall s2 cid f, Turns s2 = Turns s1 -> sent_part <$> Turns (with_call s2 cid f) = sent_part <$> Turns s1) as Hcall.
  { intros s2 cid f E. unfold with_call. rewrite <-E. case_match; [done|]. by apply upd_first_map. }
  repeat case_match; try done.
  - unfold applyHello. by case_match.
  - unfold applyAssistantChunk. case_match; [|done]. by apply Ht.
  - unfold applyAssistantMessage. case_match; [|done]. case_match; [|done]. case_match; by apply Ht.
  - unfold applyCommandRequest. case_match; [|done]. by apply Ht.
  - unfold applyCommandChunk. case_match; [|done]. by apply Hcall.
  - unfold applyCommandResult. case_match; [|done]. by apply Hcall.
  - unfold applySandboxHeartbeat. case_match; [|done]. by apply Hcall.
  - unfold applyToolApprovalRequest. case_match; [|done]. by apply Hcall.
  - unfold applyError. by case_match.
  - unfold applyAck. case_match; [|done]. by case_match.
Qed.

(** C38: a turn is rebuilt from its own envelopes: from the moment an intent
    is recorded under an id not used before, any stream of inbound envelopes,
    those of other turns, tools and approvals interleaved anywhere, leaves its
    reply as the fold of the assistant chunks and messages that carry its id
    alone, and finished exactly when a terminal message for it has arrived;
    no stream adds, drops, reorders or edits what the user sent. *)
Theorem turn_rebuilt_from_its_envelopes (s : State) (id text : string) (imgs : list ImageInput) (stream : list (Z * Envelope)) :
  id <> "" -> findTurn s id = None ->
  let s0 := RecordSentIntent id text imgs s in
  let s' := foldl (fun s e => Ingest e.1 e.2 s) s0 stream in
  sent_part <$> Turns s' = (sent_part <$> Turns s) ++ [(id, text, imgs)] /\
  exists t, findTurn s' id = Some t /\
    AssistantText t = foldl (text_step id) "" stream.*2 /\
    Finished t = existsb (closes id) stream.*2.
Proof.
  intros Hid Hnone s0 s'. split.
  - unfold s'. assert (sent_part <$> Turns s0 = (sent_part <$> Turns s) ++ [(id, text, imgs)]) as <-.
    { unfold s0, RecordSentIntent. cbn [Turns set_turns]. by rewrite fmap_app. }
    clear s'. generalize s0. induction stream as [|e l IH]; intros s1; [done|]. simpl. rewrite IH. apply Ingest_sent.
  - assert (findTurn s0 id = Some (mkTurn id text imgs "" [] false "" "")) as H0'.
    { unfold findTurn, s0, RecordSentIntent in *. cbn [Turns set_turns]. apply String.eqb_neq in Hid. rewrite Hid in *.
      induction (Turns s) as [|x l IH]; simpl in *; [unfold is_turn; by rewrite String.eqb_refl|].
      destruct (is_turn id x); [done|by apply IH]. }
    unfold s'. clear s' Hnone. generalize dependent s0.
    assert (forall l s1 t, findTurn s1 id = Some t -> exists t', findTurn (foldl (fun s e => Ingest e.1 e.2 s) s1 l) id = Some t' /\
       AssistantText t' = foldl (text_step id) (AssistantText t) (l : list (Z * Envelope)).*2 /\ Finished t' = Finished t || existsb (closes id) l.*2) as HI.
    { intros l. induction l as [|e l IH]; intros s1 t Ht; [exists t; by rewrite orb_false_r|]. simpl.
      destruct (Ingest_turn e.1 e.2 s1 id t Hid Ht) as (t1 & Ht1 & <- & Hf).
      destruct (IH _ t1 Ht1) as (t2 & ? & ? & Hf2). exists t2. split_and!; try done. by rewrite Hf2, Hf, orb_assoc. }
    intros s0 Hs0. by destruct (HI stream s0 _ Hs0) as (t & ? & ? & ?); exists t.
Qed.
End ops.

(** A decoder of flat payload objects, for the concrete runs. *)
Definition demo_chunk : Unmarshal AssistantChunkPayload := fun v =>
  match v with AMap m => Some (mkAssistantChunk (int_of_any (arg_lookup m "seq")) (arg_string_or_empty m "text")) | _ => None end.
Definition demo_message : Unmarshal AssistantMessagePayload := fun v =>
  match v with
  | AMap m => Some (mkAssistantMessage (arg_string_or_empty m "text") (arg_string_or_empty m "finish_reason") (arg_string_or_empty m "error") None)
  | _ => None
  end.

Definition demo_stream : list (Z * Envelope) :=
  let env typ corr text := mkEnvelope "e" typ 0 corr (Some (AMap [("text", AStr text)])) in
  [(1%Z, env EventAssistantChunk "i2" "he"); (2%Z, env EventAssistantChunk "i1" "other"); (3%Z, env EventAssistantChunk "i2" "llo");
   (4%Z, env EventAssistantMessage "i2" "")].

Lemma turn_rebuilt_from_its_envelopes_witness :
  let none {P} : Unmarshal P := fun _ => None in
  let s := RecordSentIntent "i1" "first" [] init_state in
  exists t, findTurn (foldl (fun s e => Ingest (H := none) (H0 := demo_chunk) (H1 := demo_message) (H2 := none) (H3 := none) (H4 := none)
      (H5 := none) (H6 := none) (H7 := none) (H8 := none) e.1 e.2 s) (RecordSentIntent "i2" "second" [] s) demo_stream) "i2" = Some t /\
    AssistantText t = "hello" /\ Finished t = true.
Proof.
  intros none s.
  pose proof (@turn_rebuilt_from_its_envelopes (none _) demo_chunk demo_message (none _) (none _) (none _) (none _) (none _) (none _) (none _) s "i2" "second" []
    demo_stream ltac:(done) ltac:(vm_compute; reflexivity)) as [_ (t & Ht & Htext & Hfin)].
  exists t. split; [exact Ht|]. split; [rewrite Htext; vm_compute; reflexivity|rewrite Hfin; vm_compute; reflexivity].
Defined.

(** ** Subscribers

    [Update] changes the state and copies the subscriber set under the mutex,
    then unlocks and sends; another goroutine may run in between.  A channel of
    capacity one is a flag; [sending] are the sends still to be made by updates
    that have released the mutex. *)

Record Store := mkStore {
  state : State;
  subs : gset nat;
  chans : gmap nat bool;
  sending : list nat;
}.

Definition New : Store := mkStore init_state ∅ ∅ [].

Definition Subscribe (s : Store) (ch : nat) : Store :=
  mkStore (state s) ({[ch]} ∪ subs s) (<[ch := false]> (chans s)) (sending s).
Definition Unsubscribe (s : Store) (ch : nat) : Store :=
  mkStore (state s) (subs s ∖ {[ch]}) (chans s) (sending s).
Definition Snapshot (s : Store) : State := state s.

Definition Update_commit (s : Store) (fn : State -> State) : Store :=
  mkStore (fn (state s)) (subs s) (chans s) (sending s ++ elements (subs s)).

(** One non-blocking send: a full channel drops it. *)
Definition Update_send (s : Store) : Store :=
  match sending s with
  | [] => s
  | ch :: rest => mkStore (state s) (subs s) (<[ch := true]> (chans s)) rest
  end.

(** The receive of a signal, enabled when the buffer is full. *)
Definition Receive (s : Store) (ch : nat) : Store :=
  mkStore (state s) (subs s) (<[ch := false]> (chans s)) (sending s).

(** A subscriber and what it has seen: [Subscribe] hands it the first
    snapshot, and it takes a new one after each signal. *)
Inductive sub_step : Store * gmap nat State -> Store * gmap nat State -> Prop :=
| step_subscribe s seen ch :
    chans s !! ch = None -> sub_step (s, seen) (Subscribe s ch, <[ch := Snapshot (Subscribe s ch)]> seen)
| step_unsubscribe s seen ch : sub_step (s, seen) (Unsubscribe s ch, seen)
| step_commit s seen fn : sub_step (s, seen) (Update_commit s fn, seen)
| step_send s seen : sub_step (s, seen) (Update_send s, seen)
| step_receive s seen ch :
    chans s !! ch = Some true -> sub_step (s, seen) (Receive s ch, <[ch := Snapshot (Receive s ch)]> seen).

(** An empty channel with nothing on its way has seen the latest state. *)
Definition no_lost_signal (σ : Store * gmap nat State) : Prop :=
  (forall ch, ch ∈ subs σ.1 -> is_Some (chans σ.1 !! ch)) /\
  (forall ch, ch ∈ sending σ.1 -> is_Some (chans σ.1 !! ch)) /\
  forall ch, ch ∈ subs σ.1 -> chans σ.1 !! ch = Some false -> ch ∉ sending σ.1 -> σ.2 !! ch = Some (state σ.1).

Lemma sub_step_inv σ σ' : sub_step σ σ' -> no_lost_signal σ -> no_lost_signal σ'.
Proof.
  intros Hstep (Hdom & Hsend & Hseen). inversion Hstep as [s seen ch Hnew|s seen ch|s seen fn|s seen|s seen ch Hfull]; subst; unfold no_lost_signal; simpl in *.
  - split_and!.
    + intros c [->%elem_of_singleton|Hc]%elem_of_union; [rewrite lookup_insert_eq; eauto|].
      destruct (decide (c = ch)) as [->|]; [rewrite lookup_insert_eq; eauto|rewrite lookup_insert_ne by done; auto].
    + intros c Hc. destruct (decide (c = ch)) as [->|]; [rewrite lookup_insert_eq; eauto|rewrite lookup_insert_ne by done; auto].
    + intros c Hc Hfalse Hs. destruct (decide (c = ch)) as [->|Hne]; [by rewrite lookup_insert_eq|].
      rewrite lookup_insert_ne in Hfalse by done. rewrite lookup_insert_ne by done. apply Hseen; try done. by apply elem_of_union in Hc as [->%elem_of_singleton|].
  - split_and!; [|done|]; intros c [Hc _]%elem_of_difference; auto.
  - split_and!; [done| |].
    + intros c [Hc|Hc%elem_of_elements]%elem_of_app; auto.
    + intros c Hc _ [_ []]%not_elem_of_app. by apply elem_of_elements.
  - unfold Update_send. destruct (sending s) as [|ch rest] eqn:Es; simpl; [rewrite Es; done|]. split_and!.
    + intros c Hc. destruct (decide (c = ch)) as [->|]; [rewrite lookup_insert_eq; eauto|rewrite lookup_insert_ne by done; auto].
    + intros c Hc. destruct (decide (c = ch)) as [->|]; [rewrite lookup_insert_eq; eauto|rewrite lookup_insert_ne by done].
      apply Hsend. by apply list_elem_of_further.
    + intros c Hc Hfalse Hs. destruct (decide (c = ch)) as [->|Hne]; [by rewrite lookup_insert_eq in Hfalse|].
      rewrite lookup_insert_ne in Hfalse by done. apply Hseen; try done. by apply not_elem_of_cons.
  - split_and!.
    + intros c Hc. destruct (decide (c = ch)) as [->|]; [rewrite lookup_insert_eq; eauto|rewrite lookup_insert_ne by done; auto].
    + intros c Hc. destruct (decide (c = ch)) as [->|]; [rewrite lookup_insert_eq; eauto|rewrite lookup_insert_ne by done; auto].
    + intros c Hc Hfalse Hs. destruct (decide (c = ch)) as [->|Hne]; [by rewrite lookup_insert_eq|].
      rewrite lookup_insert_ne in Hfalse by done. rewrite lookup_insert_ne by done. auto.
Qed.

(** a subscriber never misses the last change: however commits, sends,
    receives and (un)subscriptions interleave, once no send is outstanding a
    subscriber whose channel is empty has seen the current state, so one that
    waits on its channel is never left with an old screen; redundant signals
    are the only ones a full channel drops. *)
Theorem subscriber_sees_last_state (s : Store) (seen : gmap nat State) (ch : nat) :
  rtc sub_step (New, ∅) (s, seen) ->
  ch ∈ subs s -> sending s = [] -> chans s !! ch = Some false ->
  seen !! ch = Some (state s).
Proof.
  intros Hrun Hch Hidle Hempty.
  assert (no_lost_signal (s, seen)) as (_ & _ & Hseen).
  { refine (rtc_ind_r _ (New, ∅) _ _ (s, seen) Hrun).
    - unfold no_lost_signal, New. simpl. split_and!; intros c Hc; [set_solver|by apply not_elem_of_nil in Hc|set_solver].
    - intros σ σ' _ Hstep IH. by apply (sub_step_inv σ). }
  apply Hseen; [done|done|]. simpl. rewrite Hidle. apply not_elem_of_nil.
Qed.

Lemma subscriber_sees_last_state_witness :
  let s1 := Update_commit (Subscribe New 7) (SetLastError "boom") in
  let s2 := Receive (Update_send s1) 7 in
  (<[7 := Snapshot s2]> (<[7 := init_state]> ∅) : gmap nat State) !! 7 = Some (state s2).
Proof.
  intros s1 s2. apply (subscriber_sees_last_state s2 _ 7); [|vm_compute; reflexivity..|vm_compute; reflexivity].
  eapply rtc_l; [apply (step_subscribe New ∅ 7); reflexivity|].
  eapply rtc_l; [apply (step_commit _ _ (SetLastError "boom"))|].
  eapply rtc_l; [apply step_send|].
  eapply rtc_l; [apply (step_receive _ _ 7); vm_compute; reflexivity|]. apply rtc_refl.
Defined.
