(* ===== verification/GoNum.v ===== *)
(** * Go's number parsers

    What internal/config uses of [strconv] and [time]: [ParseBool], [ParseInt]
    (base 10, 64 bits), [ParseFloat] and [ParseDuration], with the float64
    arithmetic they do.  A float64 is a sign, an integral significand and a
    binary exponent, rounded to nearest even from an exact quotient; comparison
    is exact. *)

From S2P Require Import Prelude GoString GoConv.

#[local] Open Scope Z_scope.

(** ** float64 *)

Inductive f64 :=
| FNaN
| FInf (neg : bool)
| FNum (neg : bool) (m e : Z).      (* (-1)^neg * m * 2^e *)

#[export] Instance f64_eq_dec : EqDecision f64.
Proof. solve_decision. Defined.

Definition emin : Z := -1074.
Definition emax : Z := 971.

(** [num / (den * 2^e)] as a fraction of integers. *)
Definition scale_num (num e : Z) : Z := if e <? 0 then num * 2 ^ (- e) else num.
Definition scale_den (den e : Z) : Z := if e <? 0 then den else den * 2 ^ e.

Definition half_even (n d : Z) : Z :=
  let q := n / d in
  let r := n mod d in
  if (d <? 2 * r) || ((d =? 2 * r) && Z.odd q) then q + 1 else q.

(** The exponent of the binade of [num / den]: 53 significant bits, or the
    subnormal exponent. *)
Definition pick_exp (num den : Z) : Z :=
  let e0 := Z.log2 num - Z.log2 den - 52 in
  let e1 := if scale_num num e0 / scale_den den e0 <? 2 ^ 52 then e0 - 1 else e0 in
  Z.max emin e1.

(** The float64 nearest to [(-1)^neg * num / den]. *)
Definition f64_round (neg : bool) (num den : Z) : f64 :=
  if num =? 0 then FNum neg 0 emin
  else let e := pick_exp num den in
       let m := half_even (scale_num num e) (scale_den den e) in
       let '(m, e) := if m =? 2 ^ 53 then (2 ^ 52, e + 1) else (m, e) in
       if emax <? e then FInf neg else FNum neg m e.

(** [float64(n)] *)
Definition f64_of_Z (n : Z) : f64 := f64_round (n <? 0) (Z.abs n) 1.

Definition signed (neg : bool) (m : Z) : Z := if neg then - m else m.

(** [m1 * 2^e1 < m2 * 2^e2] *)
Definition dyadic_ltb (m1 e1 m2 e2 : Z) : bool :=
  let e := Z.min e1 e2 in m1 * 2 ^ (e1 - e) <? m2 * 2 ^ (e2 - e).

(** [a < b] on float64: false when either is not a number. *)
Definition f64_ltb (a b : f64) : bool :=
  match a, b with
  | FNaN, _ | _, FNaN => false
  | FInf na, FInf nb => na && negb nb
  | FInf na, _ => na
  | _, FInf nb => negb nb
  | FNum na ma ea, FNum nb mb eb => dyadic_ltb (signed na ma) ea (signed nb mb) eb
  end.

(** Product and quotient of non-negative finite numbers, all that
    [ParseDuration] multiplies. *)
Definition f64_mul (a b : f64) : f64 :=
  match a, b with
  | FNum na ma ea, FNum nb mb eb => f64_round (xorb na nb) (scale_den (ma * mb) (ea + eb)) (scale_num 1 (ea + eb))
  | _, _ => FNaN
  end.

Definition f64_div (a b : f64) : f64 :=
  match a, b with
  | FNum na ma ea, FNum nb mb eb =>
      if mb =? 0 then FNaN
      else f64_round (xorb na nb) (scale_den ma (ea - eb)) (scale_num mb (ea - eb))
  | _, _ => FNaN
  end.

(** [uint64(f)] of a non-negative finite number. *)
Definition f64_trunc (a : f64) : Z :=
  match a with
  | FNum _ m e => scale_den m e / scale_num 1 e
  | _ => 0
  end.

(** ** strconv *)

Definition ParseBool (s : string) : option bool :=
  if bool_decide (s ∈ ["1"; "t"; "T"; "true"; "TRUE"; "True"]) then Some true
  else if bool_decide (s ∈ ["0"; "f"; "F"; "false"; "FALSE"; "False"]) then Some false
  else None.

(** [strconv.ParseInt(s, 10, 64)], which is [Atoi] where int has 64 bits. *)
Definition ParseInt (s : string) : option Z := Atoi s.

Definition digit_val (c : ascii) : option Z :=
  if dec_digit c then Some (Z.of_nat (nat_of_ascii c) - 48) else None.

Definition hex_val (c : ascii) : option Z :=
  match digit_val c with
  | Some d => Some d
  | None => let n := Z.of_nat (nat_of_ascii (lower_byte c)) in
            if (97 <=? n) && (n <=? 102) then Some (n - 87) else None
  end.

(** [underscoreOK]: an underscore stands between digits, or between the base
    prefix and a digit. *)
Inductive seen := SBegin | SDigit | SUnder | SOther.

Fixpoint underscore_scan (hex : bool) (i : seen) (s : string) : bool :=
  match s with
  | EmptyString => match i with SUnder => false | _ => true end
  | String c s' =>
      if dec_digit c || (hex && match hex_val c with Some _ => true | None => false end)
      then underscore_scan hex SDigit s'
      else if Ascii.eqb c "_" then match i with SDigit => underscore_scan hex SUnder s' | _ => false end
      else match i with SUnder => false | _ => underscore_scan hex SOther s' end
  end.

Definition strip_sign (s : string) : bool * string :=
  match s with
  | String c s' => if Ascii.eqb c "-" then (true, s') else if Ascii.eqb c "+" then (false, s') else (false, s)
  | EmptyString => (false, s)
  end.

Definition underscoreOK (s : string) : bool :=
  let s := (strip_sign s).2 in
  match s with
  | String z (String x s') =>
      if Ascii.eqb z "0" && existsb (Ascii.eqb (lower_byte x)) ["b"; "o"; "x"]%char
      then underscore_scan (Ascii.eqb (lower_byte x) "x") SDigit s'
      else underscore_scan false SBegin s
  | _ => underscore_scan false SBegin s
  end.

(** The mantissa loop of [readFloat]: the digits read so far, how many of them
    follow the point, and whether a point, a digit or an underscore was seen. *)
Record mantissa := mkMantissa { mant : Z; frac : Z; sawdot : bool; sawdigits : bool; underscores : bool }.

Fixpoint read_mantissa (base : Z) (a : mantissa) (s : string) : mantissa * string :=
  match s with
  | EmptyString => (a, s)
  | String c s' =>
      if Ascii.eqb c "_" then read_mantissa base (mkMantissa (mant a) (frac a) (sawdot a) (sawdigits a) true) s'
      else if Ascii.eqb c "." then
        if sawdot a then (a, s) else read_mantissa base (mkMantissa (mant a) (frac a) true (sawdigits a) (underscores a)) s'
      else match (if base =? 16 then hex_val c else digit_val c) with
           | Some d => read_mantissa base
                         (mkMantissa (mant a * base + d) (if sawdot a then frac a + 1 else frac a) (sawdot a) true (underscores a)) s'
           | None => (a, s)
           end
  end.

(** The exponent loop: digits beyond 10000 no longer count. *)
Fixpoint read_exp (e : Z) (us : bool) (s : string) : Z * bool * string :=
  match s with
  | EmptyString => (e, us, s)
  | String c s' =>
      if Ascii.eqb c "_" then read_exp e true s'
      else match digit_val c with
           | Some d => read_exp (if e <? 10000 then e * 10 + d else e) us s'
           | None => (e, us, s)
           end
  end.

(** [(-1)^neg * m * base^exp]; out of range is an error. *)
Definition scaled_float (neg : bool) (m base exp : Z) : option f64 :=
  let f := if m =? 0 then f64_round neg 0 1
           else if exp <? 0 then f64_round neg m (base ^ (- exp))
           else f64_round neg (m * base ^ exp) 1 in
  match f with FInf _ => None | _ => Some f end.

(** [readFloat] and the conversion, for a string that is wholly a number. *)
Definition read_float (s0 : string) : option f64 :=
  let '(neg, s) := strip_sign s0 in
  let '(base, s) := match s with
                    | String z (String x (String c r)) =>
                        if Ascii.eqb z "0" && Ascii.eqb (lower_byte x) "x" then (16, String c r) else (10, s)
                    | _ => (10, s)
                    end in
  let '(a, s) := read_mantissa base (mkMantissa 0 0 false false false) s in
  if negb (sawdigits a) then None
  else
    let exp_char := if base =? 16 then "p"%char else "e"%char in
    let tail := match s with
                | String c s' =>
                    if Ascii.eqb (lower_byte c) exp_char then
                      let '(eneg, s') := strip_sign s' in
                      match s' with
                      | String d _ => if dec_digit d then
                                        let '(e, us, s'') := read_exp 0 (underscores a) s' in Some (signed eneg e, us, s'')
                                      else None
                      | EmptyString => None
                      end
                    else if base =? 16 then None else Some (0, underscores a, s)
                | EmptyString => if base =? 16 then None else Some (0, underscores a, s)
                end in
    match tail with
    | Some (e, us, EmptyString) =>
        if us && negb (underscoreOK s0) then None
        else if base =? 16 then scaled_float neg (mant a) 2 (e - 4 * frac a)
        else scaled_float neg (mant a) 10 (e - frac a)
    | _ => None
    end.

(** [strconv.ParseFloat(s, 64)] *)
Definition ParseFloat (s : string) : option f64 :=
  let '(neg, body) := strip_sign s in
  if bool_decide (ToLower body ∈ ["inf"; "infinity"]) then Some (FInf neg)
  else if bool_decide (ToLower s = "nan") then Some FNaN
  else read_float s.

(** ** time.ParseDuration *)

Definition two63 : Z := 2 ^ 63.

(** [leadingInt] with its overflow checks. *)
Fixpoint leadingInt (x : Z) (s : string) : option (Z * string) :=
  match s with
  | EmptyString => Some (x, s)
  | String c s' =>
      match digit_val c with
      | None => Some (x, s)
      | Some d => if two63 / 10 <? x then None
                  else let x := x * 10 + d in
                       if two63 <? x then None else leadingInt x s'
      end
  end.

(** [leadingFraction]: digits past the precision are dropped. *)
Fixpoint leadingFraction (x : Z) (scale : f64) (overflow : bool) (s : string) : Z * f64 * string :=
  match s with
  | EmptyString => (x, scale, s)
  | String c s' =>
      match digit_val c with
      | None => (x, scale, s)
      | Some d =>
          if overflow then leadingFraction x scale true s'
          else if (two63 - 1) / 10 <? x then leadingFraction x scale true s'
          else let y := x * 10 + d in
               if two63 <? y then leadingFraction x scale true s'
               else leadingFraction y (f64_mul scale (f64_of_Z 10)) false s'
      end
  end.

Definition micro_sign : string := Eval vm_compute in bytes_of [194; 181; 115]%nat.   (* U+00B5 s *)
Definition greek_mu : string := Eval vm_compute in bytes_of [206; 188; 115]%nat.     (* U+03BC s *)

Definition unitMap (u : string) : option Z :=
  if String.eqb u "ns" then Some 1
  else if String.eqb u "us" || String.eqb u micro_sign || String.eqb u greek_mu then Some 1000
  else if String.eqb u "ms" then Some 1000000
  else if String.eqb u "s" then Some 1000000000
  else if String.eqb u "m" then Some 60000000000
  else if String.eqb u "h" then Some 3600000000000
  else None.

Definition unit_byte (c : ascii) : bool := negb (Ascii.eqb c "." || dec_digit c).

Fixpoint take_while (f : ascii -> bool) (s : string) : string :=
  match s with
  | EmptyString => EmptyString
  | String c s' => if f c then String c (take_while f s') else EmptyString
  end.

(** What follows the integer: a point and digits, and whether there are digits. *)
Definition fraction_part (s1 : string) : Z * f64 * string * bool :=
  match s1 with
  | String d s' => if Ascii.eqb d "." then
                     let '(f, scale, s2) := leadingFraction 0 (f64_of_Z 1) false s' in
                     (f, scale, s2, negb (Nat.eqb (String.length s2) (String.length s')))
                   else (0, f64_of_Z 1, s1, false)
  | EmptyString => (0, f64_of_Z 1, s1, false)
  end.

(** One round of the loop: a number with its unit, in nanoseconds. *)
Definition duration_part (s : string) : option (Z * string) :=
  match s with
  | EmptyString => None
  | String c _ =>
      if unit_byte c then None
      else match leadingInt 0 s with
      | None => None
      | Some (v, s1) =>
          let pre := negb (Nat.eqb (String.length s1) (String.length s)) in
          let '(f, scale, s2, post) := fraction_part s1 in
          if negb pre && negb post then None
          else
            let u := take_while unit_byte s2 in
            let rest := drop_while unit_byte s2 in
            match unitMap u with
            | None => None
            | Some unit =>
                if two63 / unit <? v then None
                else let v := v * unit in
                     if 0 <? f then
                       let v := v + f64_trunc (f64_mul (f64_of_Z f) (f64_div (f64_of_Z unit) scale)) in
                       if two63 <? v then None else Some (v, rest)
                     else Some (v, rest)
            end
      end
  end.

Fixpoint duration_loop (fuel : nat) (d : Z) (s : string) : option Z :=
  match s with
  | EmptyString => Some d
  | _ =>
      match fuel with
      | O => None
      | S fuel =>
          match duration_part s with
          | None => None
          | Some (v, rest) => if two63 <? d + v then None else duration_loop fuel (d + v) rest
          end
      end
  end.

(** [time.ParseDuration], in nanoseconds; each round consumes at least its unit. *)
Definition ParseDuration (s : string) : option Z :=
  let '(neg, s) := strip_sign s in
  if String.eqb s "0" then Some 0
  else if String.eqb s "" then None
  else match duration_loop (String.length s) 0 s with
       | None => None
       | Some d => if neg then Some (- d) else if two63 - 1 <? d then None else Some d
       end.

(** ** Enough fuel *)

Lemma drop_while_length f s : (String.length (drop_while f s) <= String.length s)%nat.
Proof. induction s as [|c s IH]; simpl; [lia|]. destruct (f c); simpl; lia. Qed.

Lemma leadingInt_length x s v r : leadingInt x s = Some (v, r) -> (String.length r <= String.length s)%nat.
Proof.
  revert x. induction s as [|c s IH]; intros x; simpl; [by intros [= _ <-]|].
  destruct (digit_val c); [|by intros [= _ <-]]. repeat case_match; try done. intros Hr%IH. lia.
Qed.

Lemma leadingFraction_length x sc o s v sc' r :
  leadingFraction x sc o s = (v, sc', r) -> (String.length r <= String.length s)%nat.
Proof.
  revert x sc o. induction s as [|c s IH]; intros x sc o; simpl; [by intros [= _ _ <-]|].
  destruct (digit_val c); [|by intros [= _ _ <-]]. repeat case_match; intros Hr%IH; lia.
Qed.

Lemma unitMap_nonempty u n : unitMap u = Some n -> u <> "" /\ 0 < n.
Proof.
  unfold unitMap. intros H. split; [by intros ->|]. repeat case_match; simplify_eq; lia.
Qed.

Lemma drop_while_lt f s : take_while f s <> "" -> (String.length (drop_while f s) < String.length s)%nat.
Proof.
  destruct s as [|c s]; simpl; [done|]. destruct (f c); [|done]. pose proof (drop_while_length f s). lia.
Qed.

Lemma duration_part_shrinks s v r : duration_part s = Some (v, r) -> (String.length r < String.length s)%nat.
Proof.
  unfold duration_part. destruct s as [|c s0] eqn:Es; [done|]. rewrite <-Es in *. clear Es.
  destruct (unit_byte c); [done|]. destruct (leadingInt 0 s) as [[v1 s1]|] eqn:E1; [|done].
  apply leadingInt_length in E1.
  destruct (fraction_part s1) as [[[f sc] s2] post] eqn:E2.
  assert (String.length s2 <= String.length s1)%nat as Hs2.
  { unfold fraction_part in E2. destruct s1 as [|d s1']; [by simplify_eq|]. destruct (Ascii.eqb d "."); [|by simplify_eq].
    destruct (leadingFraction 0 (f64_of_Z 1) false s1') as [[f' sc'] s2'] eqn:E3. apply leadingFraction_length in E3. simplify_eq. simpl. lia. }
  destruct (negb _ && negb post); [done|]. destruct (unitMap (take_while unit_byte s2)) as [u|] eqn:Eu; [|done].
  apply unitMap_nonempty in Eu as [Hu _]. apply drop_while_lt in Hu.
  repeat case_match; intros; simplify_eq; lia.
Qed.

(** The loop never runs out: more rounds than bytes change nothing. *)
Lemma duration_loop_fuel n k d s :
  (String.length s <= n)%nat -> duration_loop (n + k) d s = duration_loop n d s.
Proof.
  revert d s. induction n as [|n IH]; intros d s Hn.
  - destruct s; [by destruct k|simpl in Hn; lia].
  - destruct s as [|c s0]; [done|]. cbn [Nat.add duration_loop].
    destruct (duration_part (String c s0)) as [[v r]|] eqn:E; [|done]. apply duration_part_shrinks in E.
    destruct (two63 <? d + v); [done|]. apply IH. lia.
Qed.

(** ** Ranges *)

Lemma ParseInt_range s n : ParseInt s = Some n -> - two63 <= n < two63.
Proof.
  unfold ParseInt, Atoi. intros H. repeat case_match; simplify_eq; apply andb_true_iff in H1 as [H1%Z.leb_le H2%Z.ltb_lt]; unfold two63; lia.
Qed.

Lemma digit_val_range c d : digit_val c = Some d -> 0 <= d <= 9.
Proof.
  unfold digit_val, dec_digit. destruct (_ && _) eqn:E; [|done]. intros [= <-].
  apply andb_true_iff in E as [H1%Nat.leb_le H2%Nat.leb_le]. lia.
Qed.

Lemma half_even_ge n d : n / d <= half_even n d.
Proof. unfold half_even. case_match; lia. Qed.

Lemma half_even_nonneg n d : 0 <= n -> 0 < d -> 0 <= half_even n d.
Proof. intros Hn Hd. pose proof (half_even_ge n d). pose proof (Z.div_pos n d). lia. Qed.

(** A common denominator for the comparison of finite numbers. *)
Definition dval (m e : Z) : Z := m * 2 ^ (e + 1100).

Lemma dyadic_ltb_spec m1 e1 m2 e2 :
  -1100 <= e1 -> -1100 <= e2 -> dyadic_ltb m1 e1 m2 e2 = true <-> dval m1 e1 < dval m2 e2.
Proof.
  intros H1 H2. unfold dyadic_ltb, dval. rewrite Z.ltb_lt. set (e := Z.min e1 e2).
  replace (e1 + 1100) with ((e1 - e) + (e + 1100)) by lia. replace (e2 + 1100) with ((e2 - e) + (e + 1100)) by lia.
  rewrite (Z.pow_add_r 2 (e1 - e)), (Z.pow_add_r 2 (e2 - e)), !Z.mul_assoc by lia.
  apply Z.mul_lt_mono_pos_r. apply Z.pow_pos_nonneg; lia.
Qed.

(** Rounding an integer of int64 keeps it at least one. *)
Lemma f64_round_int neg n : 1 <= n <= two63 ->
  exists m e, f64_round neg n 1 = FNum neg m e /\ -1074 <= e /\ dval 1 0 <= dval m e.
Proof.
  intros Hn. unfold f64_round. destruct (Z.eqb_spec n 0); [lia|].
  assert (0 <= Z.log2 n <= 63) as Hlog.
  { split; [apply Z.log2_nonneg|]. change 63 with (Z.log2 two63). apply Z.log2_le_mono. lia. }
  set (e := pick_exp n 1). set (m := half_even (scale_num n e) (scale_den 1 e)).
  assert (emin <= e <= Z.log2 n - 52) as He.
  { subst e. unfold pick_exp. change (Z.log2 1) with 0. unfold emin. case_match; lia. }
  unfold emin in He.
  assert (dval 1 0 <= dval m e) as Hm.
  { pose proof (half_even_ge (scale_num n e) (scale_den 1 e)) as Hge. fold m in Hge. unfold dval.
    unfold scale_num, scale_den in Hge. destruct (Z.ltb_spec e 0) as [He0|He0].
    - rewrite Z.div_1_r in Hge. replace (0 + 1100) with (- e + (e + 1100)) by lia. rewrite Z.pow_add_r, Z.mul_1_l by lia.
      assert (0 < 2 ^ (- e)) by (apply Z.pow_pos_nonneg; lia).
      apply Z.mul_le_mono_nonneg_r; [apply Z.pow_nonneg; lia|]. nia.
    - assert (2 ^ e <= n) as Hle.
      { etrans; [apply (Z.pow_le_mono_r 2 e (Z.log2 n)); lia|]. apply Z.log2_spec. lia. }
      assert (0 < 2 ^ e) by (apply Z.pow_pos_nonneg; lia).
      assert (1 <= n / (1 * 2 ^ e)) by (apply Z.div_le_lower_bound; lia).
      apply Z.mul_le_mono_nonneg; [lia|lia|apply Z.pow_nonneg; lia|apply Z.pow_le_mono_r; lia]. }
  destruct (Z.eqb_spec m (2 ^ 53)) as [E|E].
  - destruct (Z.ltb_spec emax (e + 1)) as [?|_]; [unfold emax in *; lia|]. eexists _, _. split; [done|]. split; [lia|].
    rewrite E in Hm. unfold dval in *. replace (e + 1 + 1100) with (1 + (e + 1100)) by lia.
    rewrite (Z.pow_add_r 2 1) by lia. lia.
  - destruct (Z.ltb_spec emax e) as [?|_]; [unfold emax in *; lia|]. eexists _, _. split; [done|]. split; [lia|done].
Qed.

Lemma dval_0 e : dval 0 e = 0.
Proof. done. Qed.

(** Comparing [float64(n)] with the bounds of the registry is comparing [n]. *)
Lemma f64_below_zero n : - two63 <= n < two63 -> f64_ltb (f64_of_Z n) (f64_of_Z 0) = (n <? 0).
Proof.
  intros Hn. unfold f64_of_Z at 1. change (f64_of_Z 0) with (FNum false 0 emin).
  destruct (Z.ltb_spec n 0) as [H0|H0]; [|destruct (decide (n = 0)) as [->|Hne]; [done|]].
  - destruct (f64_round_int true (Z.abs n)) as (m & e & -> & He & Hm); [lia|]. cbn [f64_ltb].
    apply dyadic_ltb_spec; [unfold emin; lia..|]. cbn [signed]. rewrite dval_0. unfold dval in *. lia.
  - destruct (f64_round_int false (Z.abs n)) as (m & e & -> & He & Hm); [lia|]. cbn [f64_ltb].
    apply not_true_is_false. rewrite dyadic_ltb_spec by (unfold emin; lia). cbn [signed]. rewrite dval_0. unfold dval in *. lia.
Qed.

Lemma f64_below_one n : - two63 <= n < two63 -> f64_ltb (f64_of_Z n) (f64_of_Z 1) = (n <? 1).
Proof.
  intros Hn. unfold f64_of_Z at 1. change (f64_of_Z 1) with (FNum false (2 ^ 52) (-52)).
  destruct (Z.ltb_spec n 0) as [H0|H0]; [|destruct (decide (n = 0)) as [->|Hne]; [done|]].
  - destruct (f64_round_int true (Z.abs n)) as (m & e & -> & He & Hm); [lia|]. cbn [f64_ltb].
    destruct (Z.ltb_spec n 1); [|lia]. apply dyadic_ltb_spec; [lia..|]. cbn [signed]. unfold dval in *.
    change (2 ^ (-52 + 1100)) with (2 ^ 1048). change (2 ^ (0 + 1100)) with (2 ^ 1100) in Hm. lia.
  - destruct (f64_round_int false (Z.abs n)) as (m & e & -> & He & Hm); [lia|]. cbn [f64_ltb].
    destruct (Z.ltb_spec n 1); [lia|]. apply not_true_is_false. rewrite dyadic_ltb_spec by lia. cbn [signed].
    replace (dval (2 ^ 52) (-52)) with (dval 1 0) by done. lia.
Qed.

(** Significands are never negative. *)
Definition f64_nn (a : f64) : Prop := match a with FNum _ m _ => 0 <= m | _ => True end.

Lemma scale_pos x e : (0 < x -> 0 < scale_num x e /\ 0 < scale_den x e) /\ (0 <= x -> 0 <= scale_num x e /\ 0 <= scale_den x e).
Proof.
  unfold scale_num, scale_den. destruct (Z.ltb_spec e 0).
  - assert (0 < 2 ^ (- e)) by (apply Z.pow_pos_nonneg; lia). nia.
  - assert (0 < 2 ^ e) by (apply Z.pow_pos_nonneg; lia). nia.
Qed.

Lemma f64_round_nn neg num den : 0 <= num -> 0 < den -> f64_nn (f64_round neg num den).
Proof.
  intros Hn Hd. unfold f64_round. destruct (num =? 0); [done|].
  pose proof (half_even_nonneg (scale_num num (pick_exp num den)) (scale_den den (pick_exp num den))
    ltac:(by apply scale_pos) ltac:(by apply scale_pos)) as Hm.
  destruct (_ =? 2 ^ 53); destruct (_ <? _); simpl; done || lia.
Qed.

Lemma f64_of_Z_nn n : f64_nn (f64_of_Z n).
Proof. apply f64_round_nn; lia. Qed.

Lemma f64_mul_nn a b : f64_nn a -> f64_nn b -> f64_nn (f64_mul a b).
Proof.
  destruct a, b; simpl; try done. intros. apply f64_round_nn; apply scale_pos; [nia|lia].
Qed.

Lemma f64_div_nn a b : f64_nn a -> f64_nn b -> f64_nn (f64_div a b).
Proof.
  destruct a, b; simpl; try done. intros. destruct (Z.eqb_spec m0 0); [done|]. apply f64_round_nn; apply scale_pos; lia.
Qed.

Lemma f64_trunc_nn a : f64_nn a -> 0 <= f64_trunc a.
Proof. destruct a; simpl; try done. intros. apply Z.div_pos; apply scale_pos; lia. Qed.

Lemma leadingInt_nn x s v r : 0 <= x -> leadingInt x s = Some (v, r) -> 0 <= v.
Proof.
  revert x. induction s as [|c s IH]; intros x Hx; simpl; [by intros [= <- _]|].
  destruct (digit_val c) as [d|] eqn:Ed; [|by intros [= <- _]]. apply digit_val_range in Ed.
  repeat case_match; try done. apply IH. lia.
Qed.

Lemma leadingFraction_nn x sc o s v sc' r : f64_nn sc -> leadingFraction x sc o s = (v, sc', r) -> f64_nn sc'.
Proof.
  revert x sc o. induction s as [|c s IH]; intros x sc o Hs; simpl; [by intros [= _ <- _]|].
  destruct (digit_val c) as [d|]; [|by intros [= _ <- _]]. repeat case_match; apply IH; try done.
  apply f64_mul_nn; [done|apply f64_of_Z_nn].
Qed.

Lemma fraction_part_nn s f sc s2 p : fraction_part s = (f, sc, s2, p) -> f64_nn sc.
Proof.
  unfold fraction_part. pose proof (f64_of_Z_nn 1) as H1. destruct s as [|c s]; [by intros [= _ <- _ _]|].
  destruct (Ascii.eqb c "."); [|by intros [= _ <- _ _]].
  destruct (leadingFraction 0 (f64_of_Z 1) false s) as [[f' sc'] s'] eqn:E. intros [= _ <- _ _].
  by apply leadingFraction_nn in E.
Qed.

Lemma duration_part_nn s v r : duration_part s = Some (v, r) -> 0 <= v.
Proof.
  unfold duration_part. destruct s as [|c s0]; [done|]. destruct (unit_byte c); [done|].
  destruct (leadingInt 0 (String c s0)) as [[v1 s1]|] eqn:E1; [|done]. apply leadingInt_nn in E1; [|done].
  destruct (fraction_part s1) as [[[f sc] s2] post] eqn:E2. apply fraction_part_nn in E2.
  destruct (negb _ && negb post); [done|]. destruct (unitMap (take_while unit_byte s2)) as [u|] eqn:Eu; [|done].
  apply unitMap_nonempty in Eu as [_ Hu].
  pose proof (f64_trunc_nn _ (f64_mul_nn _ _ (f64_of_Z_nn f) (f64_div_nn _ _ (f64_of_Z_nn u) E2))).
  repeat case_match; intros; simplify_eq; nia.
Qed.

Lemma duration_loop_range fuel d s r : 0 <= d <= two63 -> duration_loop fuel d s = Some r -> 0 <= r <= two63.
Proof.
  revert d s. induction fuel as [|fuel IH]; intros d s Hd; destruct s as [|c s]; cbn [duration_loop]; [by intros [= <-]|done|by intros [= <-]|].
  destruct (duration_part (String c s)) as [[v rest]|] eqn:E; [|done]. apply duration_part_nn in E.
  destruct (Z.ltb_spec two63 (d + v)); [done|]. apply IH. lia.
Qed.

Lemma ParseDuration_range s d : ParseDuration s = Some d -> - two63 <= d < two63.
Proof.
  unfold ParseDuration. destruct (strip_sign s) as [neg s']. destruct (String.eqb s' "0"); [intros [= <-]; by vm_compute|].
  destruct (String.eqb s' ""); [done|]. destruct (duration_loop _ 0 s') as [r|] eqn:E; [|done].
  apply duration_loop_range in E; [|by vm_compute]. destruct neg; [intros [= <-]; unfold two63 in *; lia|].
  destruct (Z.ltb_spec (two63 - 1) r); [done|]. intros [= <-]. lia.
Qed.
