(* ===== verification/Registry.v ===== *)
(** * The settings registry (internal/config/registry.go)

    The table of every NOMADDEV_* setting with its type, default, bounds and
    flags, [Lookup], [Categories], and the validation of a raw value against
    its entry ([Setting.Validate], [checkBounds]).  What the table says about
    [config.Load] is proved in ConfigSpec.v. *)

From S2P Require Import Prelude GoString GoConv GoNum.

(** ** Entries *)

Inductive SettingType :=
| TypeString | TypeInt | TypeInt64 | TypeBool | TypeFloat | TypeDuration | TypeCSV | TypeEnum.

#[export] Instance SettingType_eq_dec : EqDecision SettingType.
Proof. solve_decision. Defined.

Record Setting := mkSetting {
  EnvVar : string;
  SType : SettingType;
  Category : string;
  Default : string;
  Secret : bool;
  Enum : list string;
  Min : option f64;
  Max : option f64;
  Description : string;
  Dangerous : bool;
  ReadOnly : bool;
}.

#[export] Instance Setting_eq_dec : EqDecision Setting.
Proof. solve_decision. Defined.

Definition numPtr (n : Z) : option f64 := Some (f64_of_Z n).

Definition defaultOverridePath : string := "/var/lib/nomaddev/config-override.json".

(** The double quote, in a few descriptions. *)
Definition dq : string := Eval vm_compute in bytes_of [34]%nat.

(** ** The table *)

Definition Registry_Server : list Setting := [
  mkSetting "NOMADDEV_LISTEN_ADDR" TypeString "Server" ":8080" false [] None None
    "HTTP listen address. Read-only — the systemd unit pins it via the -listen flag and changing it risks locking the daemon out." false true;
  mkSetting "NOMADDEV_LOG_LEVEL" TypeEnum "Server" "info" false ["debug"; "info"; "warn"; "error"] None None
    "Structured-log verbosity." false false;
  mkSetting "NOMADDEV_JWT_SECRET" TypeString "Server" "" true [] None None
    "Primary JWT signing key (>=32 bytes, base64/hex/raw). Changing it signs out every client, including this session." true false;
  mkSetting "NOMADDEV_JWT_PREV_SECRETS" TypeCSV "Server" "" true [] None None
    "Previous JWT signing keys accepted during a rotation grace window. Comma-separated, each >=32 bytes." true false;
  mkSetting "NOMADDEV_CONFIG_OVERRIDE_PATH" TypeString "Server" defaultOverridePath false [] None None
    "Path to the persisted config-override file. Read-only — it is the file this editor itself writes." false true].

Definition Registry_WebSocket : list Setting := [
  mkSetting "NOMADDEV_WS_MAX_MESSAGE_BYTES" TypeInt64 "WebSocket" "262144" false [] (numPtr 0) None
    "Max inbound WebSocket frame size; larger frames get a 1009 close. 0 = unlimited." false false;
  mkSetting "NOMADDEV_WS_RATE_LIMIT" TypeFloat "WebSocket" "50" false [] (numPtr 0) None
    "Steady-state envelope-per-second cap per connection. 0 = no limit." false false;
  mkSetting "NOMADDEV_WS_RATE_BURST" TypeInt "WebSocket" "100" false [] (numPtr 0) None
    "Token-bucket size for the WebSocket rate limit." false false;
  mkSetting "NOMADDEV_WS_ALLOWED_ORIGINS" TypeCSV "WebSocket" "" false [] None None
    "CSRF Origin allowlist for the /ws upgrade. Empty accepts any origin." false false;
  mkSetting "NOMADDEV_READ_TIMEOUT" TypeDuration "WebSocket" "1m0s" false [] (numPtr 0) None
    "WebSocket read timeout." false false;
  mkSetting "NOMADDEV_WRITE_TIMEOUT" TypeDuration "WebSocket" "10s" false [] (numPtr 0) None
    "WebSocket write timeout." false false;
  mkSetting "NOMADDEV_PING_INTERVAL" TypeDuration "WebSocket" "30s" false [] (numPtr 0) None
    "WebSocket keep-alive ping interval." false false].

Definition Registry_Auth : list Setting := [
  mkSetting "NOMADDEV_AUTH_ACCESS_TTL" TypeDuration "Auth" "1h0m0s" false [] (numPtr 0) None
    "Access-token lifetime — presented at /ws on every connect." false false;
  mkSetting "NOMADDEV_AUTH_REFRESH_TTL" TypeDuration "Auth" "720h0m0s" false [] (numPtr 0) None
    "Refresh-token lifetime — exchanged at /auth/refresh for a fresh pair." false false;
  mkSetting "NOMADDEV_AUTH_REVOCATION_BACKEND" TypeEnum "Auth" "sqlite" false ["none"; "memory"; "sqlite"] None None
    "JTI revocation-list backing store." false false;
  mkSetting "NOMADDEV_AUTH_REVOCATION_PATH" TypeString "Auth" "/var/lib/nomaddev/revocations.db" false [] None None
    "SQLite file for the revocation list. Must stay under /var/lib/nomaddev on systemd deploys." true false;
  mkSetting "NOMADDEV_AUTH_REVOCATION_JANITOR_INTERVAL" TypeDuration "Auth" "5m0s" false [] (numPtr 0) None
    "How often expired JTIs are dropped from the revocation list." false false].

Definition Registry_Audit : list Setting := [
  mkSetting "NOMADDEV_AUDIT_BACKEND" TypeEnum "Audit" "stderr" false ["none"; "stderr"; "stdout"; "file"] None None
    "Structured security-event sink." false false;
  mkSetting "NOMADDEV_AUDIT_PATH" TypeString "Audit" "/var/lib/nomaddev/audit.log" false [] None None
    ("Audit-log file path when the backend is " +:+ dq +:+ "file" +:+ dq +:+ ". Must stay under /var/lib/nomaddev on systemd deploys.") true false].

Definition Registry_Tracing : list Setting := [
  mkSetting "NOMADDEV_OTEL_ENABLED" TypeBool "Tracing" "false" false [] None None
    "Enable OpenTelemetry tracing." false false;
  mkSetting "NOMADDEV_OTEL_OTLP_ENDPOINT" TypeString "Tracing" "" false [] None None
    "OTLP/HTTP collector URL." false false;
  mkSetting "NOMADDEV_OTEL_SERVICE_NAME" TypeString "Tracing" "nomaddev-orchestrator" false [] None None
    "Service name resource attribute in traces." false false;
  mkSetting "NOMADDEV_OTEL_SERVICE_VERSION" TypeString "Tracing" "" false [] None None
    "Service version resource attribute; defaults to the build version." false false;
  mkSetting "NOMADDEV_OTEL_SAMPLE_RATIO" TypeFloat "Tracing" "1" false [] (numPtr 0) (numPtr 1)
    "Trace sampling ratio, 0.0-1.0." false false;
  mkSetting "NOMADDEV_OTEL_INSECURE" TypeBool "Tracing" "true" false [] None None
    "Use plain-HTTP OTLP (no TLS) — fine for a same-tailnet collector." false false].

Definition Registry_WebAuthn : list Setting := [
  mkSetting "NOMADDEV_WEBAUTHN_ENABLED" TypeBool "WebAuthn" "false" false [] None None
    "Enable WebAuthn security-key auth. Requires the SPA over HTTPS or localhost." false false;
  mkSetting "NOMADDEV_WEBAUTHN_RPID" TypeString "WebAuthn" "" false [] None None
    "Relying-party ID (bare hostname). Changing it invalidates existing keys." false false;
  mkSetting "NOMADDEV_WEBAUTHN_RP_DISPLAY_NAME" TypeString "WebAuthn" "NomadDev" false [] None None
    "Friendly name shown in the browser's security-key prompt." false false;
  mkSetting "NOMADDEV_WEBAUTHN_ORIGINS" TypeCSV "WebAuthn" "" false [] None None
    "Allowed origins for WebAuthn ceremonies, e.g. https://host:port." false false;
  mkSetting "NOMADDEV_WEBAUTHN_STORE_PATH" TypeString "WebAuthn" "/var/lib/nomaddev/webauthn.db" false [] None None
    "SQLite file for the WebAuthn credential store. Must stay under /var/lib/nomaddev on systemd deploys." true false].

Definition Registry_Session : list Setting := [
  mkSetting "NOMADDEV_SESSION_BACKEND" TypeEnum "Session" "sqlite" false ["memory"; "sqlite"] None None
    "Session replay-buffer backing store." false false;
  mkSetting "NOMADDEV_SESSION_PATH" TypeString "Session" "/var/lib/nomaddev/sessions.db" false [] None None
    "SQLite file for the session store. Must stay under /var/lib/nomaddev on systemd deploys." true false;
  mkSetting "NOMADDEV_SESSION_BUFFER_SIZE" TypeInt "Session" "256" false [] (numPtr 1) None
    "Per-session reconnect-replay ring-buffer capacity (envelopes)." false false;
  mkSetting "NOMADDEV_SESSION_MAX_BYTES" TypeInt "Session" "1048576" false [] (numPtr 1) None
    "Max per-session buffer size in bytes." false false;
  mkSetting "NOMADDEV_SESSION_IDLE_TTL" TypeDuration "Session" "30m0s" false [] (numPtr 0) None
    "Idle timeout before a session is reaped." false false;
  mkSetting "NOMADDEV_SESSION_JANITOR_INTERVAL" TypeDuration "Session" "5m0s" false [] (numPtr 0) None
    "How often the session reaper runs." false false].

Definition Registry_Sandbox : list Setting := [
  mkSetting "NOMADDEV_SANDBOX_RUNTIME" TypeEnum "Sandbox" "mock" false ["mock"; "docker"; "none"] None None
    ("Container runner backend. " +:+ dq +:+ "docker" +:+ dq +:+ " grants real host container-exec and needs a -tags docker build.") true false;
  mkSetting "NOMADDEV_SANDBOX_IMAGE" TypeString "Sandbox" "alpine:3.20" false [] None None
    "Sandbox container image. Production deploys should pin by @sha256: digest." false false;
  mkSetting "NOMADDEV_SANDBOX_REQUIRE_DIGEST" TypeBool "Sandbox" "false" false [] None None
    "Refuse to boot unless the sandbox image carries an @sha256: digest." false false;
  mkSetting "NOMADDEV_SANDBOX_WORKSPACE_DIR" TypeString "Sandbox" "/var/lib/nomaddev/work" false [] None None
    "Host directory bind-mounted at /work. Must stay under /var/lib/nomaddev on systemd deploys." true false;
  mkSetting "NOMADDEV_SANDBOX_NETWORK" TypeEnum "Sandbox" "none" false ["none"; "bridge"] None None
    "Sandbox container network mode." false false;
  mkSetting "NOMADDEV_SANDBOX_DEFAULT_TIMEOUT" TypeDuration "Sandbox" "30s" false [] (numPtr 0) None
    "Default command timeout when the request omits one." false false;
  mkSetting "NOMADDEV_SANDBOX_MAX_CONCURRENT" TypeInt "Sandbox" "4" false [] (numPtr 0) None
    "Concurrent sandbox-exec cap. 0 = unlimited." false false;
  mkSetting "NOMADDEV_SANDBOX_MEMORY" TypeInt64 "Sandbox" "268435456" false [] (numPtr 0) None
    "Per-container memory limit in bytes. 0 = unset." false false;
  mkSetting "NOMADDEV_SANDBOX_NANOCPUS" TypeInt64 "Sandbox" "1000000000" false [] (numPtr 0) None
    "Per-container CPU limit in nanoCPUs (1e9 = 1 CPU). 0 = unset." false false;
  mkSetting "NOMADDEV_SANDBOX_PIDS_LIMIT" TypeInt64 "Sandbox" "256" false [] (numPtr 0) None
    "Per-container max PIDs. 0 = unset." false false;
  mkSetting "NOMADDEV_SANDBOX_READONLY_ROOTFS" TypeBool "Sandbox" "true" false [] None None
    "Mount the sandbox container root filesystem read-only." false false;
  mkSetting "NOMADDEV_SANDBOX_PREFER_RUNSC" TypeBool "Sandbox" "true" false [] None None
    "Prefer the gVisor (runsc) runtime when available." false false;
  mkSetting "NOMADDEV_SANDBOX_PER_SESSION_WORKSPACE" TypeBool "Sandbox" "false" false [] None None
    "Scope the /work bind-mount to a per-session subdirectory." false false;
  mkSetting "NOMADDEV_SANDBOX_HEARTBEAT_INTERVAL" TypeDuration "Sandbox" "5s" false [] (numPtr 0) None
    "How often a sandbox.heartbeat is emitted during stdout/stderr silence. 0 disables heartbeats." false false;
  mkSetting "NOMADDEV_DAEMON_MONITOR_ENABLED" TypeBool "Sandbox" "false" false [] None None
    "Enable monitor_daemon/stop_daemon/list_daemons — runs detached commands on the host." true false;
  mkSetting "NOMADDEV_LSP_SERVERS" TypeString "Sandbox" "" false [] None None
    "Language-server command overrides, comma-separated lang=cmd pairs (e.g. go=gopls,python=pylsp)." false false;
  mkSetting "NOMADDEV_LSP_IDLE_TIMEOUT" TypeDuration "Sandbox" "5m0s" false [] (numPtr 0) None
    "Idle timeout before a language server is reclaimed." false false;
  mkSetting "NOMADDEV_LSP_REQUEST_TIMEOUT" TypeDuration "Sandbox" "30s" false [] (numPtr 0) None
    "Per-lsp_query operation timeout." false false].

Definition Registry_Middleware : list Setting := [
  mkSetting "NOMADDEV_MIDDLEWARE_RUNTIME" TypeEnum "Middleware" "mock" false ["mock"; "gemini"; "openai"; "anthropic"; "deepseek"; "none"] None None
    "Active LLM translator runtime. Non-mock runtimes need the matching build tag and API key." false false;
  mkSetting "NOMADDEV_MIDDLEWARE_SYSTEM_PROMPT" TypeString "Middleware" "" false [] None None
    "Inline system-prompt override for the translator." false false;
  mkSetting "NOMADDEV_MIDDLEWARE_SYSTEM_PROMPT_PATH" TypeString "Middleware" "" false [] None None
    "System-prompt file path; takes precedence over the inline prompt." false false;
  mkSetting "NOMADDEV_MIDDLEWARE_MAX_CONCURRENT" TypeInt "Middleware" "4" false [] (numPtr 0) None
    "Per-server cap on concurrent user.intent turns. 0 = unlimited." false false;
  mkSetting "NOMADDEV_MAX_AUTORETRIES" TypeInt "Middleware" "2" false [] (numPtr 0) None
    "Consecutive failed tool-call dispatches tolerated within one turn before escalating." false false;
  mkSetting "NOMADDEV_LLM_MAX_RETRIES" TypeInt "Middleware" "2" false [] (numPtr 0) None
    "Transport-level retry budget for the active LLM SDK. 0 keeps the SDK default." false false].

Definition Registry_Gemini : list Setting := [
  mkSetting "NOMADDEV_GEMINI_API_KEY" TypeString "Gemini" "" true [] None None
    "Google GenAI API key." false false;
  mkSetting "NOMADDEV_GEMINI_MODEL" TypeString "Gemini" "gemini-2.0-flash" false [] None None
    "Default Gemini model." false false;
  mkSetting "NOMADDEV_GEMINI_TEMPERATURE" TypeFloat "Gemini" "0.2" false [] (numPtr 0) (numPtr 1)
    "Sampling temperature for the active runtime, 0.0-1.0." false false;
  mkSetting "NOMADDEV_GEMINI_MAX_TOKENS" TypeInt "Gemini" "4096" false [] (numPtr 1) None
    "Max output tokens for the active runtime." false false].

Definition Registry_OpenAI : list Setting := [
  mkSetting "NOMADDEV_OPENAI_API_KEY" TypeString "OpenAI" "" true [] None None
    "OpenAI API key." false false;
  mkSetting "NOMADDEV_OPENAI_MODEL" TypeString "OpenAI" "gpt-4o-mini" false [] None None
    "Default OpenAI model." false false;
  mkSetting "NOMADDEV_OPENAI_BASE_URL" TypeString "OpenAI" "" false [] None None
    "Custom OpenAI base URL (Azure, proxy). Empty uses the SDK default." false false].

Definition Registry_Anthropic : list Setting := [
  mkSetting "NOMADDEV_ANTHROPIC_API_KEY" TypeString "Anthropic" "" true [] None None
    "Anthropic API key." false false;
  mkSetting "NOMADDEV_ANTHROPIC_MODEL" TypeString "Anthropic" "claude-sonnet-4-5" false [] None None
    "Default Anthropic model." false false;
  mkSetting "NOMADDEV_ANTHROPIC_THINKING_BUDGET" TypeInt64 "Anthropic" "0" false [] (numPtr 0) None
    "Anthropic extended-thinking token budget. 0 disables it; otherwise must be >=1024 and below the model's max tokens." false false].

Definition Registry_DeepSeek : list Setting := [
  mkSetting "NOMADDEV_DEEPSEEK_API_KEY" TypeString "DeepSeek" "" true [] None None
    "DeepSeek API key." false false;
  mkSetting "NOMADDEV_DEEPSEEK_MODEL" TypeString "DeepSeek" "deepseek-chat" false [] None None
    "Default DeepSeek model. Set deepseek-vl2 for vision." false false].

Definition Registry_Images : list Setting := [
  mkSetting "NOMADDEV_USER_INTENT_MAX_IMAGES" TypeInt "Images" "4" false [] (numPtr 0) None
    "Max image attachments per user.intent. 0 refuses all images." false false;
  mkSetting "NOMADDEV_USER_INTENT_MAX_IMAGE_BYTES" TypeInt "Images" "5242880" false [] (numPtr 0) None
    "Max decoded size of a single image attachment in bytes. 0 refuses all images." false false].

Definition Registry_History : list Setting := [
  mkSetting "NOMADDEV_HISTORY_BACKEND" TypeEnum "History" "sqlite" false ["memory"; "sqlite"] None None
    "Conversation-history backing store." false false;
  mkSetting "NOMADDEV_HISTORY_PATH" TypeString "History" "/var/lib/nomaddev/history.db" false [] None None
    "SQLite file for the history store. Must stay under /var/lib/nomaddev on systemd deploys." true false;
  mkSetting "NOMADDEV_HISTORY_WINDOW_TURNS" TypeInt "History" "20" false [] (numPtr 0) None
    "Number of recent turns sent to the LLM as context." false false;
  mkSetting "NOMADDEV_HISTORY_SUMMARY_ENABLED" TypeBool "History" "false" false [] None None
    "Enable the background history-summarization janitor (sqlite backend only)." false false;
  mkSetting "NOMADDEV_HISTORY_SUMMARY_URL" TypeString "History" "" false [] None None
    "POST endpoint for history summarization." false false;
  mkSetting "NOMADDEV_HISTORY_SUMMARY_AUTH_HEADER" TypeString "History" "" true [] None None
    "Authorization header value sent to the summarization endpoint." false false;
  mkSetting "NOMADDEV_HISTORY_SUMMARY_WORD_THRESHOLD" TypeInt "History" "15000" false [] (numPtr 0) None
    "Cumulative word count that triggers a session summary." false false;
  mkSetting "NOMADDEV_HISTORY_SUMMARY_INTERVAL" TypeDuration "History" "5m0s" false [] (numPtr 0) None
    "How often the summarization janitor runs." false false;
  mkSetting "NOMADDEV_HISTORY_SUMMARY_TIMEOUT" TypeDuration "History" "30s" false [] (numPtr 0) None
    "Per-request timeout for a summarization call." false false].

Definition Registry_Approval : list Setting := [
  mkSetting "NOMADDEV_APPROVAL_REQUIRED_TOOLS" TypeCSV "Approval" "execute_script,write_patch,apply_code_patch" false [] None None
    "Tool names that require human approval before running." false false;
  mkSetting "NOMADDEV_APPROVAL_TIMEOUT" TypeDuration "Approval" "1m0s" false [] (numPtr 0) None
    "How long the orchestrator waits for an approval grant/deny." false false;
  mkSetting "NOMADDEV_APPROVAL_AUTO_GRANT" TypeBool "Approval" "false" false [] None None
    "Bypass the human-in-the-loop gate entirely. Dev escape hatch — disables all approval prompts." true false;
  mkSetting "NOMADDEV_APPROVAL_GATE_DIRECT_COMMANDS" TypeBool "Approval" "true" false [] None None
    "Also gate the legacy command.request path through the approval flow." false false].

Definition Registry_Worker_pool : list Setting := [
  mkSetting "NOMADDEV_WORKER_POOL_ENABLED" TypeBool "Worker pool" "false" false [] None None
    "Enable dispatch_worker_pool — shells out to the host git binary outside the sandbox boundary." true false;
  mkSetting "NOMADDEV_WORKER_POOL_MAX" TypeInt "Worker pool" "4" false [] (numPtr 1) None
    "Server-wide cap on concurrent headless sub-dispatchers." false false;
  mkSetting "NOMADDEV_WORKER_POOL_MAX_TASKS" TypeInt "Worker pool" "8" false [] (numPtr 1) None
    "Cap on the tasks array length in a single dispatch_worker_pool call." false false;
  mkSetting "NOMADDEV_WORKER_POOL_TASK_TIMEOUT" TypeDuration "Worker pool" "10m0s" false [] (numPtr 0) None
    "Per-sub-dispatcher wall-clock timeout." false false].

Definition Registry_Doc_fetch : list Setting := [
  mkSetting "NOMADDEV_DOC_FETCH_ALLOWED_DOMAINS" TypeCSV "Doc fetch" "" false [] None None
    "Allowlist for fetch_external_docs. Empty permits any public host." false false].

Definition Registry_SPA : list Setting := [
  mkSetting "NOMADDEV_SPA_ENABLED" TypeBool "SPA" "true" false [] None None
    ("Serve the embedded web UI at " +:+ dq +:+ "/" +:+ dq +:+ ". Disabling it makes this editor unreachable.") true false;
  mkSetting "NOMADDEV_SPA_DIR" TypeString "SPA" "" false [] None None
    "Serve the SPA from a host directory instead of the embedded copy." false false].

Definition Registry_GitHub : list Setting := [
  mkSetting "NOMADDEV_GITHUB_TOKEN" TypeString "GitHub" "" true [] None None
    "GitHub fine-grained PAT. Empty disables all github_* tools." false false;
  mkSetting "NOMADDEV_GITHUB_USER_TOKENS_PATH" TypeString "GitHub" "" false [] None None
    "JSON file mapping JWT sub -> PAT for per-user GitHub token routing." false false;
  mkSetting "NOMADDEV_GITHUB_MCP_BIN" TypeString "GitHub" "" false [] None None
    "Path to the github-mcp-server binary. Empty looks it up on PATH." false false;
  mkSetting "NOMADDEV_GITHUB_TOOLSETS" TypeCSV "GitHub" "all" false [] None None
    "Enabled GitHub MCP tool categories." false false;
  mkSetting "NOMADDEV_GITHUB_READ_ONLY" TypeBool "GitHub" "false" false [] None None
    "Disable mutating GitHub tools." false false;
  mkSetting "NOMADDEV_GITHUB_HOST" TypeString "GitHub" "" false [] None None
    "GitHub Enterprise Server host. Empty uses github.com." false false;
  mkSetting "NOMADDEV_GITHUB_LOCKDOWN" TypeBool "GitHub" "false" false [] None None
    "GitHub MCP lockdown mode (read-only)." false false;
  mkSetting "NOMADDEV_GITHUB_START_TIMEOUT" TypeDuration "GitHub" "15s" false [] (numPtr 0) None
    "Timeout for the github-mcp-server initialize handshake." false false;
  mkSetting "NOMADDEV_GITHUB_MAX_ARG_BYTES" TypeInt "GitHub" "262144" false [] (numPtr 0) None
    "Cap on a single GitHub tool call's JSON args. 0 = unlimited." false false;
  mkSetting "NOMADDEV_GITHUB_MAX_RESULT_BYTES" TypeInt "GitHub" "1048576" false [] (numPtr 0) None
    "Cap on the JSON result payload returned to the model. 0 = unlimited." false false;
  mkSetting "NOMADDEV_GITHUB_RATE_LIMIT_RETRIES" TypeInt "GitHub" "3" false [] (numPtr 0) None
    "Retries when GitHub reports a rate-limit error. 0 disables retry." false false;
  mkSetting "NOMADDEV_GITHUB_RATE_LIMIT_BASE_BACKOFF" TypeDuration "GitHub" "1s" false [] (numPtr 0) None
    "Base of the exponential backoff schedule for GitHub rate-limit retries." false false].

Definition Registry : list Setting :=
  Registry_Server ++ Registry_WebSocket ++ Registry_Auth ++ Registry_Audit ++ Registry_Tracing ++ Registry_WebAuthn ++ Registry_Session ++ Registry_Sandbox ++ Registry_Middleware ++ Registry_Gemini ++ Registry_OpenAI ++ Registry_Anthropic ++ Registry_DeepSeek ++ Registry_Images ++ Registry_History ++ Registry_Approval ++ Registry_Worker_pool ++ Registry_Doc_fetch ++ Registry_SPA ++ Registry_GitHub.

(** [registryIndex] and [Lookup]. *)
Definition registryIndex : gmap string Setting :=
  foldl (fun m s => <[EnvVar s := s]> m) ∅ Registry.

Definition Lookup (envVar : string) : option Setting := registryIndex !! envVar.

(** [Categories]: the distinct categories in registry order. *)
Definition Categories : list string :=
  (foldl (fun '(seen, out) s =>
            if bool_decide (Category s ∈ seen) then (seen, out)
            else ({[Category s]} ∪ seen, out ++ [Category s]))
         (∅ : gset string, []) Registry).2.

(** ** Validation *)

Inductive invalid :=
| NotBoolean (envVar raw : string)
| NotInteger (envVar raw : string)
| NotNumber (envVar raw : string)
| NotDuration (envVar raw : string)
| NotOneOf (envVar raw : string) (enum : list string)
| BelowMinimum (envVar : string) (min : f64)
| AboveMaximum (envVar : string) (max : f64).

#[export] Instance invalid_eq_dec : EqDecision invalid.
Proof. solve_decision. Defined.

Definition checkBounds (s : Setting) (v : f64) : result invalid unit :=
  _ ← match Min s with Some min => guard_err (negb (f64_ltb v min)) (BelowMinimum (EnvVar s) min) | None => Ok tt end;
  match Max s with Some max => guard_err (negb (f64_ltb max v)) (AboveMaximum (EnvVar s) max) | None => Ok tt end.

Definition Validate (s : Setting) (raw : string) : result invalid unit :=
  match SType s with
  | TypeString | TypeCSV => Ok tt
  | TypeBool => match ParseBool raw with Some _ => Ok tt | None => Err (NotBoolean (EnvVar s) raw) end
  | TypeInt | TypeInt64 => match ParseInt raw with
                           | Some n => checkBounds s (f64_of_Z n)
                           | None => Err (NotInteger (EnvVar s) raw)
                           end
  | TypeFloat => match ParseFloat raw with
                 | Some f => checkBounds s f
                 | None => Err (NotNumber (EnvVar s) raw)
                 end
  | TypeDuration => match ParseDuration raw with
                    | Some d => checkBounds s (f64_of_Z d)
                    | None => Err (NotDuration (EnvVar s) raw)
                    end
  | TypeEnum => if bool_decide (raw ∈ Enum s) then Ok tt else Err (NotOneOf (EnvVar s) raw (Enum s))
  end.
