(* ===== verification/Config.v ===== *)
(** * Configuration (internal/config, internal/log.ParseLevel)

    The process environment, the typed readers of config.go, the decoding of
    the JWT secrets, the override file (read, layered under the environment,
    written through a temporary file) and [config.Load].

    The environment is a map of the variables that are set.  [encoding/json] on
    the override file is the class [JsonMap]; the operating system's refusals
    are fields of [os_faults].  Durations are nanoseconds, [slog.Level]s their
    integer values. *)

From S2P Require Import Prelude GoString GoConv Event Utf8 GoNum Registry.

(** ** The process environment *)

Abbreviation environ := (gmap string string).

Definition Getenv (env : environ) (k : string) : string := default "" (env !! k).
Definition LookupEnv (env : environ) (k : string) : option string := env !! k.

Definition nul : ascii := ascii_of_nat 0.

Fixpoint has_byte (c : ascii) (s : string) : bool :=
  match s with EmptyString => false | String d s' => Ascii.eqb d c || has_byte c s' end.

(** What [os.Setenv] accepts. *)
Definition setenv_ok (k v : string) : bool :=
  negb (String.eqb k "") && negb (has_byte "=" k) && negb (has_byte nul k) && negb (has_byte nul v).

Definition Setenv (env : environ) (k v : string) : environ :=
  if setenv_ok k v then <[k := v]> env else env.

(** ** Typed readers *)

Section readers.
Variable env : environ.

Definition envOr (key fallback : string) : string :=
  let v := Getenv env key in if String.eqb v "" then fallback else v.

(** A reader falls back on an unset variable and on a parse error alike. *)
Definition env_parsed {A} (parse : string -> option A) (key : string) (fallback : A) : A :=
  let v := Getenv env key in
  if String.eqb v "" then fallback else match parse v with Some x => x | None => fallback end.

Definition envInt (key : string) (fallback : Z) : Z := env_parsed Atoi key fallback.
Definition envDuration (key : string) (fallback : Z) : Z := env_parsed ParseDuration key fallback.
Definition envInt64 (key : string) (fallback : Z) : Z := env_parsed ParseInt key fallback.
Definition envBool (key : string) (fallback : bool) : bool := env_parsed ParseBool key fallback.
Definition envFloat (key : string) (fallback : f64) : f64 := env_parsed ParseFloat key fallback.

(** The trimmed non-empty parts of a comma-separated value. *)
Definition csv_parts (v : string) : list string :=
  filter (fun p => p <> "") (TrimSpace <$> SplitByte "," v).

Definition envCSV (key : string) (fallback : list string) : list string :=
  let v := Getenv env key in
  if String.eqb v "" then fallback
  else match csv_parts v with [] => fallback | out => out end.
End readers.

(** [strings.Cut(s, "=")] *)
Definition CutEq (s : string) : option (string * string) :=
  match Index s "=" with
  | Some i => Some (str_take i s, str_drop (S i) s)
  | None => None
  end.

(** [sandbox.DefaultLSPServers] *)
Definition DefaultLSPServers : gmap string string :=
  <["go" := "gopls"]>
  (<["typescript" := "typescript-language-server --stdio"]>
  (<["javascript" := "typescript-language-server --stdio"]>
  (<["python" := "pylsp"]> ∅))).

(** The loop body of [envLSPServers]: a bad pair is skipped. *)
Definition lsp_pair (out : gmap string string) (pair : string) : gmap string string :=
  let pair := TrimSpace pair in
  if String.eqb pair "" then out
  else match CutEq pair with
       | None => out
       | Some (lang, cmdline) =>
           let lang := TrimSpace lang in
           let cmdline := TrimSpace cmdline in
           if negb (String.eqb lang "") && negb (String.eqb cmdline "") then <[lang := cmdline]> out else out
       end.

Definition parse_lsp_servers (v : string) : gmap string string :=
  if String.eqb v "" then DefaultLSPServers else foldl lsp_pair DefaultLSPServers (SplitByte "," v).

Definition envLSPServers (env : environ) (key : string) : gmap string string :=
  parse_lsp_servers (Getenv env key).

(** ** Log levels *)

Definition LevelDebug : Z := -4.
Definition LevelInfo : Z := 0.
Definition LevelWarn : Z := 4.
Definition LevelError : Z := 8.

Definition ParseLevel (s : string) : Z :=
  if bool_decide (s ∈ ["debug"; "DEBUG"]) then LevelDebug
  else if bool_decide (s ∈ ["warn"; "WARN"; "warning"]) then LevelWarn
  else if bool_decide (s ∈ ["error"; "ERROR"]) then LevelError
  else LevelInfo.

(** ** Secrets *)

(** [encoding/base64]: the value of a character in the standard or the URL
    alphabet. *)
Definition b64_val (url : bool) (c : ascii) : option Z :=
  let n := Z.of_nat (nat_of_ascii c) in
  if ((65 <=? n) && (n <=? 90))%Z then Some (n - 65)%Z
  else if ((97 <=? n) && (n <=? 122))%Z then Some (n - 71)%Z
  else if ((48 <=? n) && (n <=? 57))%Z then Some (n + 4)%Z
  else if Ascii.eqb c (if url then "-" else "+") then Some 62%Z
  else if Ascii.eqb c (if url then "_" else "/") then Some 63%Z
  else None.

Definition byte_of (z : Z) : ascii := ascii_of_nat (Z.to_nat (z mod 256)).

(** A quantum of two, three or four characters: the bits past the last whole
    byte are ignored. *)
Definition quantum (url : bool) (cs : list ascii) : option (list ascii) :=
  match mapM (b64_val url) cs with
  | Some [a; b] => Some [byte_of (a * 4 + b / 16)]
  | Some [a; b; c] => Some [byte_of (a * 4 + b / 16); byte_of (b * 16 + c / 4)]
  | Some [a; b; c; d] => Some [byte_of (a * 4 + b / 16); byte_of (b * 16 + c / 4); byte_of (c * 64 + d)]
  | _ => None
  end%Z.

Fixpoint b64_quanta (url padded : bool) (l : list ascii) : option (list ascii) :=
  match l with
  | [] => Some []
  | a :: b :: c :: d :: rest =>
      if padded && Ascii.eqb d "=" then
        match rest with
        | [] => if Ascii.eqb c "=" then quantum url [a; b] else quantum url [a; b; c]
        | _ => None
        end
      else match quantum url [a; b; c; d], b64_quanta url padded rest with
           | Some x, Some y => Some (x ++ y)
           | _, _ => None
           end
  | [a; b; c] => if padded then None else quantum url [a; b; c]
  | [a; b] => if padded then None else quantum url [a; b]
  | [_] => None
  end.

(** [DecodeString] of the four encodings; line breaks are skipped. *)
Definition b64_decode (url padded : bool) (s : string) : option string :=
  let cs := filter (fun c => c <> ascii_of_nat 10 /\ c <> ascii_of_nat 13) (String.list_ascii_of_string s) in
  option_map String.string_of_list_ascii (b64_quanta url padded cs).

Fixpoint hex_pairs (l : list ascii) : option (list ascii) :=
  match l with
  | [] => Some []
  | a :: b :: rest => match hex_val a, hex_val b, hex_pairs rest with
                      | Some x, Some y, Some r => Some (byte_of (x * 16 + y) :: r)
                      | _, _, _ => None
                      end
  | [_] => None
  end.

(** [hex.DecodeString] *)
Definition hex_decode (s : string) : option string :=
  option_map String.string_of_list_ascii (hex_pairs (String.list_ascii_of_string s)).

Definition MinSecretBytes : Z := 32.

Inductive load_error :=
| ErrMissingSecret
| ErrShortSecret (got : Z)
| ErrPrevSecret (i : nat) (e : load_error).

Definition decoders : list (string -> option string) :=
  [b64_decode false true; b64_decode false false; b64_decode true true; b64_decode true false; hex_decode].

(** The first decoding that is long enough. *)
Fixpoint try_decoders (ds : list (string -> option string)) (raw : string) : option string :=
  match ds with
  | [] => None
  | d :: ds' => match d raw with
                | Some b => if (MinSecretBytes <=? zlen b)%Z then Some b else try_decoders ds' raw
                | None => try_decoders ds' raw
                end
  end.

Definition loadSecret (raw : string) : result load_error string :=
  if String.eqb raw "" then Err ErrMissingSecret
  else match try_decoders decoders raw with
       | Some b => Ok b
       | None => if (MinSecretBytes <=? zlen raw)%Z then Ok raw else Err (ErrShortSecret (zlen raw))
       end.

(** The loop over the parts; [i] counts the empty ones too. *)
Fixpoint prev_secrets (i : nat) (parts : list string) : result load_error (list string) :=
  match parts with
  | [] => Ok []
  | p :: rest =>
      let p := TrimSpace p in
      if String.eqb p "" then prev_secrets (S i) rest
      else match loadSecret p with
           | Err e => Err (ErrPrevSecret i e)
           | Ok s => match prev_secrets (S i) rest with Ok out => Ok (s :: out) | Err e => Err e end
           end
  end.

Definition loadPrevSecrets (raw : string) : result load_error (list string) :=
  let raw := TrimSpace raw in
  if String.eqb raw "" then Ok [] else prev_secrets 0 (SplitByte "," raw).

(** [ValidateJWTSecret] (registry.go) *)
Definition ValidateJWTSecret (raw : string) : result load_error unit :=
  match loadSecret raw with Ok _ => Ok tt | Err e => Err e end.

(** ** The configuration *)

Record WebAuthnConfig := mkWebAuthnConfig {
  wa_Enabled : bool;
  wa_RPID : string;
  wa_RPDisplayName : string;
  wa_Origins : list string;
  wa_StorePath : string;
}.

Record TracingConfig := mkTracingConfig {
  tr_Enabled : bool;
  tr_Endpoint : string;
  tr_ServiceName : string;
  tr_ServiceVersion : string;
  tr_SampleRatio : f64;
  tr_Insecure : bool;
}.

Record AuditConfig := mkAuditConfig {
  au_Backend : string;
  au_Path : string;
}.

Record RevocationConfig := mkRevocationConfig {
  rv_Backend : string;
  rv_Path : string;
  rv_JanitorInterval : Z;
}.

Record AuthConfig := mkAuthConfig {
  at_AccessTTL : Z;
  at_RefreshTTL : Z;
  at_Revocation : RevocationConfig;
}.

Record SessionConfig := mkSessionConfig {
  se_Backend : string;
  se_Path : string;
  se_BufferSize : Z;
  se_MaxBytes : Z;
  se_IdleTTL : Z;
  se_JanitorInterval : Z;
}.

Record SandboxConfig := mkSandboxConfig {
  sb_Runtime : string;
  sb_Image : string;
  sb_WorkspaceDir : string;
  sb_Network : string;
  sb_DefaultTimeout : Z;
  sb_MaxConcurrent : Z;
  sb_Memory : Z;
  sb_NanoCPUs : Z;
  sb_PidsLimit : Z;
  sb_ReadOnlyRootfs : bool;
  sb_PreferRunsc : bool;
  sb_RequireDigest : bool;
  sb_PerSessionWorkspace : bool;
  sb_HeartbeatInterval : Z;
  sb_DaemonEnabled : bool;
  sb_LSPServers : gmap string string;
  sb_LSPIdleTimeout : Z;
  sb_LSPRequestTimeout : Z;
}.

Record MiddlewareConfig := mkMiddlewareConfig {
  mw_Runtime : string;
  mw_APIKey : string;
  mw_Model : string;
  mw_Temperature : f64;
  mw_MaxTokens : Z;
  mw_SystemPrompt : string;
  mw_SystemPromptPath : string;
  mw_MaxConcurrent : Z;
  mw_OpenAIAPIKey : string;
  mw_OpenAIBaseURL : string;
  mw_OpenAIModel : string;
  mw_AnthropicAPIKey : string;
  mw_AnthropicModel : string;
  mw_DeepSeekAPIKey : string;
  mw_DeepSeekModel : string;
  mw_LLMMaxRetries : Z;
  mw_AnthropicThinkingBudget : Z;
  mw_MaxImagesPerIntent : Z;
  mw_MaxImageBytes : Z;
  mw_MaxAutoRetries : Z;
  mw_WorkerPoolEnabled : bool;
  mw_WorkerPoolMaxConcurrent : Z;
  mw_WorkerPoolMaxTasks : Z;
  mw_WorkerPoolTaskTimeout : Z;
  mw_DocFetchAllowedDomains : list string;
}.

Record HistorySummaryConfig := mkHistorySummaryConfig {
  hs_Enabled : bool;
  hs_URL : string;
  hs_AuthHeader : string;
  hs_WordThreshold : Z;
  hs_Interval : Z;
  hs_Timeout : Z;
}.

Record HistoryConfig := mkHistoryConfig {
  hi_Backend : string;
  hi_Path : string;
  hi_WindowTurns : Z;
  hi_Summary : HistorySummaryConfig;
}.

Record ApprovalConfig := mkApprovalConfig {
  ap_RequiredTools : list string;
  ap_Timeout : Z;
  ap_AutoGrant : bool;
  ap_GateDirectCommands : bool;
}.

Record SPAConfig := mkSPAConfig {
  spa_Enabled : bool;
  spa_Dir : string;
}.

Record GitHubConfig := mkGitHubConfig {
  gh_Token : string;
  gh_UserTokensPath : string;
  gh_BinaryPath : string;
  gh_Toolsets : list string;
  gh_ReadOnly : bool;
  gh_Host : string;
  gh_LockdownMode : bool;
  gh_StartTimeout : Z;
  gh_MaxArgBytes : Z;
  gh_MaxResultBytes : Z;
  gh_RateLimitRetries : Z;
  gh_RateLimitBaseBackoff : Z;
}.

Record Config := mkConfig {
  cf_ListenAddr : string;
  cf_JWTSecret : string;
  cf_JWTPrevSecrets : list string;
  cf_LogLevel : Z;
  cf_Auth : AuthConfig;
  cf_Audit : AuditConfig;
  cf_Tracing : TracingConfig;
  cf_WebAuthn : WebAuthnConfig;
  cf_Session : SessionConfig;
  cf_Sandbox : SandboxConfig;
  cf_Middleware : MiddlewareConfig;
  cf_History : HistoryConfig;
  cf_Approval : ApprovalConfig;
  cf_SPA : SPAConfig;
  cf_GitHub : GitHubConfig;
  cf_ReadTimeout : Z;
  cf_WriteTimeout : Z;
  cf_PingInterval : Z;
  cf_MaxMessageBytes : Z;
  cf_RateLimit : f64;
  cf_RateBurst : Z;
  cf_AllowedOrigins : list string;
}.

(** ** Reading the environment *)

Definition Second : Z := 1000000000.
Definition Minute : Z := 60 * Second.
Definition Hour : Z := 60 * Minute.

#[local] Open Scope Z_scope.

Definition Load_Revocation (env : environ) : RevocationConfig := {|
  rv_Backend := envOr env "NOMADDEV_AUTH_REVOCATION_BACKEND" "sqlite";
  rv_Path := envOr env "NOMADDEV_AUTH_REVOCATION_PATH" "/var/lib/nomaddev/revocations.db";
  rv_JanitorInterval := envDuration env "NOMADDEV_AUTH_REVOCATION_JANITOR_INTERVAL" (5 * Minute);
|}.

Definition Load_Auth (env : environ) : AuthConfig := {|
  at_AccessTTL := envDuration env "NOMADDEV_AUTH_ACCESS_TTL" Hour;
  at_RefreshTTL := envDuration env "NOMADDEV_AUTH_REFRESH_TTL" (30 * 24 * Hour);
  at_Revocation := Load_Revocation env;
|}.

Definition Load_Audit (env : environ) : AuditConfig := {|
  au_Backend := envOr env "NOMADDEV_AUDIT_BACKEND" "stderr";
  au_Path := envOr env "NOMADDEV_AUDIT_PATH" "/var/lib/nomaddev/audit.log";
|}.

Definition Load_Tracing (env : environ) : TracingConfig := {|
  tr_Enabled := envBool env "NOMADDEV_OTEL_ENABLED" false;
  tr_Endpoint := Getenv env "NOMADDEV_OTEL_OTLP_ENDPOINT";
  tr_ServiceName := envOr env "NOMADDEV_OTEL_SERVICE_NAME" "nomaddev-orchestrator";
  tr_ServiceVersion := Getenv env "NOMADDEV_OTEL_SERVICE_VERSION";
  tr_SampleRatio := envFloat env "NOMADDEV_OTEL_SAMPLE_RATIO" (f64_round false 1 1);
  tr_Insecure := envBool env "NOMADDEV_OTEL_INSECURE" true;
|}.

Definition Load_WebAuthn (env : environ) : WebAuthnConfig := {|
  wa_Enabled := envBool env "NOMADDEV_WEBAUTHN_ENABLED" false;
  wa_RPID := Getenv env "NOMADDEV_WEBAUTHN_RPID";
  wa_RPDisplayName := envOr env "NOMADDEV_WEBAUTHN_RP_DISPLAY_NAME" "NomadDev";
  wa_Origins := envCSV env "NOMADDEV_WEBAUTHN_ORIGINS" [];
  wa_StorePath := envOr env "NOMADDEV_WEBAUTHN_STORE_PATH" "/var/lib/nomaddev/webauthn.db";
|}.

Definition Load_Session (env : environ) : SessionConfig := {|
  se_Backend := envOr env "NOMADDEV_SESSION_BACKEND" "sqlite";
  se_Path := envOr env "NOMADDEV_SESSION_PATH" "/var/lib/nomaddev/sessions.db";
  se_BufferSize := envInt env "NOMADDEV_SESSION_BUFFER_SIZE" 256;
  se_MaxBytes := envInt env "NOMADDEV_SESSION_MAX_BYTES" (Z.shiftl 1 20);
  se_IdleTTL := envDuration env "NOMADDEV_SESSION_IDLE_TTL" (30 * Minute);
  se_JanitorInterval := envDuration env "NOMADDEV_SESSION_JANITOR_INTERVAL" (5 * Minute);
|}.

Definition Load_Sandbox (env : environ) : SandboxConfig := {|
  sb_Runtime := envOr env "NOMADDEV_SANDBOX_RUNTIME" "mock";
  sb_Image := envOr env "NOMADDEV_SANDBOX_IMAGE" "alpine:3.20";
  sb_WorkspaceDir := envOr env "NOMADDEV_SANDBOX_WORKSPACE_DIR" "/var/lib/nomaddev/work";
  sb_Network := envOr env "NOMADDEV_SANDBOX_NETWORK" "none";
  sb_DefaultTimeout := envDuration env "NOMADDEV_SANDBOX_DEFAULT_TIMEOUT" (30 * Second);
  sb_MaxConcurrent := envInt env "NOMADDEV_SANDBOX_MAX_CONCURRENT" 4;
  sb_Memory := envInt64 env "NOMADDEV_SANDBOX_MEMORY" (Z.shiftl 256 20);
  sb_NanoCPUs := envInt64 env "NOMADDEV_SANDBOX_NANOCPUS" 1000000000;
  sb_PidsLimit := envInt64 env "NOMADDEV_SANDBOX_PIDS_LIMIT" 256;
  sb_ReadOnlyRootfs := envBool env "NOMADDEV_SANDBOX_READONLY_ROOTFS" true;
  sb_PreferRunsc := envBool env "NOMADDEV_SANDBOX_PREFER_RUNSC" true;
  sb_RequireDigest := envBool env "NOMADDEV_SANDBOX_REQUIRE_DIGEST" false;
  sb_PerSessionWorkspace := envBool env "NOMADDEV_SANDBOX_PER_SESSION_WORKSPACE" false;
  sb_HeartbeatInterval := envDuration env "NOMADDEV_SANDBOX_HEARTBEAT_INTERVAL" (5 * Second);
  sb_DaemonEnabled := envBool env "NOMADDEV_DAEMON_MONITOR_ENABLED" false;
  sb_LSPServers := envLSPServers env "NOMADDEV_LSP_SERVERS";
  sb_LSPIdleTimeout := envDuration env "NOMADDEV_LSP_IDLE_TIMEOUT" (5 * Minute);
  sb_LSPRequestTimeout := envDuration env "NOMADDEV_LSP_REQUEST_TIMEOUT" (30 * Second);
|}.

Definition Load_Middleware (env : environ) : MiddlewareConfig := {|
  mw_Runtime := envOr env "NOMADDEV_MIDDLEWARE_RUNTIME" "mock";
  mw_APIKey := Getenv env "NOMADDEV_GEMINI_API_KEY";
  mw_Model := envOr env "NOMADDEV_GEMINI_MODEL" "gemini-2.0-flash";
  mw_Temperature := envFloat env "NOMADDEV_GEMINI_TEMPERATURE" (f64_round false 2 10);
  mw_MaxTokens := envInt env "NOMADDEV_GEMINI_MAX_TOKENS" 4096;
  mw_SystemPrompt := Getenv env "NOMADDEV_MIDDLEWARE_SYSTEM_PROMPT";
  mw_SystemPromptPath := Getenv env "NOMADDEV_MIDDLEWARE_SYSTEM_PROMPT_PATH";
  mw_MaxConcurrent := envInt env "NOMADDEV_MIDDLEWARE_MAX_CONCURRENT" 4;
  mw_OpenAIAPIKey := Getenv env "NOMADDEV_OPENAI_API_KEY";
  mw_OpenAIBaseURL := Getenv env "NOMADDEV_OPENAI_BASE_URL";
  mw_OpenAIModel := envOr env "NOMADDEV_OPENAI_MODEL" "gpt-4o-mini";
  mw_AnthropicAPIKey := Getenv env "NOMADDEV_ANTHROPIC_API_KEY";
  mw_AnthropicModel := envOr env "NOMADDEV_ANTHROPIC_MODEL" "claude-sonnet-4-5";
  mw_DeepSeekAPIKey := Getenv env "NOMADDEV_DEEPSEEK_API_KEY";
  mw_DeepSeekModel := envOr env "NOMADDEV_DEEPSEEK_MODEL" "deepseek-chat";
  mw_LLMMaxRetries := envInt env "NOMADDEV_LLM_MAX_RETRIES" 2;
  mw_AnthropicThinkingBudget := envInt64 env "NOMADDEV_ANTHROPIC_THINKING_BUDGET" 0;
  mw_MaxImagesPerIntent := envInt env "NOMADDEV_USER_INTENT_MAX_IMAGES" 4;
  mw_MaxImageBytes := envInt env "NOMADDEV_USER_INTENT_MAX_IMAGE_BYTES" (5 * 1024 * 1024);
  mw_MaxAutoRetries := envInt env "NOMADDEV_MAX_AUTORETRIES" 2;
  mw_WorkerPoolEnabled := envBool env "NOMADDEV_WORKER_POOL_ENABLED" false;
  mw_WorkerPoolMaxConcurrent := envInt env "NOMADDEV_WORKER_POOL_MAX" 4;
  mw_WorkerPoolMaxTasks := envInt env "NOMADDEV_WORKER_POOL_MAX_TASKS" 8;
  mw_WorkerPoolTaskTimeout := envDuration env "NOMADDEV_WORKER_POOL_TASK_TIMEOUT" (10 * Minute);
  mw_DocFetchAllowedDomains := envCSV env "NOMADDEV_DOC_FETCH_ALLOWED_DOMAINS" [];
|}.

Definition Load_Summary (env : environ) : HistorySummaryConfig := {|
  hs_Enabled := envBool env "NOMADDEV_HISTORY_SUMMARY_ENABLED" false;
  hs_URL := Getenv env "NOMADDEV_HISTORY_SUMMARY_URL";
  hs_AuthHeader := Getenv env "NOMADDEV_HISTORY_SUMMARY_AUTH_HEADER";
  hs_WordThreshold := envInt env "NOMADDEV_HISTORY_SUMMARY_WORD_THRESHOLD" 15000;
  hs_Interval := envDuration env "NOMADDEV_HISTORY_SUMMARY_INTERVAL" (5 * Minute);
  hs_Timeout := envDuration env "NOMADDEV_HISTORY_SUMMARY_TIMEOUT" (30 * Second);
|}.

Definition Load_History (env : environ) : HistoryConfig := {|
  hi_Backend := envOr env "NOMADDEV_HISTORY_BACKEND" "sqlite";
  hi_Path := envOr env "NOMADDEV_HISTORY_PATH" "/var/lib/nomaddev/history.db";
  hi_WindowTurns := envInt env "NOMADDEV_HISTORY_WINDOW_TURNS" 20;
  hi_Summary := Load_Summary env;
|}.

Definition Load_Approval (env : environ) : ApprovalConfig := {|
  ap_RequiredTools := envCSV env "NOMADDEV_APPROVAL_REQUIRED_TOOLS" ["execute_script"; "write_patch"; "apply_code_patch"];
  ap_Timeout := envDuration env "NOMADDEV_APPROVAL_TIMEOUT" (60 * Second);
  ap_AutoGrant := envBool env "NOMADDEV_APPROVAL_AUTO_GRANT" false;
  ap_GateDirectCommands := envBool env "NOMADDEV_APPROVAL_GATE_DIRECT_COMMANDS" true;
|}.

Definition Load_SPA (env : environ) : SPAConfig := {|
  spa_Enabled := envBool env "NOMADDEV_SPA_ENABLED" true;
  spa_Dir := Getenv env "NOMADDEV_SPA_DIR";
|}.

Definition Load_GitHub (env : environ) : GitHubConfig := {|
  gh_Token := Getenv env "NOMADDEV_GITHUB_TOKEN";
  gh_UserTokensPath := Getenv env "NOMADDEV_GITHUB_USER_TOKENS_PATH";
  gh_BinaryPath := Getenv env "NOMADDEV_GITHUB_MCP_BIN";
  gh_Toolsets := envCSV env "NOMADDEV_GITHUB_TOOLSETS" ["all"];
  gh_ReadOnly := envBool env "NOMADDEV_GITHUB_READ_ONLY" false;
  gh_Host := Getenv env "NOMADDEV_GITHUB_HOST";
  gh_LockdownMode := envBool env "NOMADDEV_GITHUB_LOCKDOWN" false;
  gh_StartTimeout := envDuration env "NOMADDEV_GITHUB_START_TIMEOUT" (15 * Second);
  gh_MaxArgBytes := envInt env "NOMADDEV_GITHUB_MAX_ARG_BYTES" (256 * 1024);
  gh_MaxResultBytes := envInt env "NOMADDEV_GITHUB_MAX_RESULT_BYTES" (1024 * 1024);
  gh_RateLimitRetries := envInt env "NOMADDEV_GITHUB_RATE_LIMIT_RETRIES" 3;
  gh_RateLimitBaseBackoff := envDuration env "NOMADDEV_GITHUB_RATE_LIMIT_BASE_BACKOFF" Second;
|}.

Definition Load_config (env : environ) (secret : string) (prev : list string) : Config := {|
  cf_ListenAddr := envOr env "NOMADDEV_LISTEN_ADDR" ":8080";
  cf_JWTSecret := secret;
  cf_JWTPrevSecrets := prev;
  cf_LogLevel := ParseLevel (envOr env "NOMADDEV_LOG_LEVEL" "info");
  cf_Auth := Load_Auth env;
  cf_Audit := Load_Audit env;
  cf_Tracing := Load_Tracing env;
  cf_WebAuthn := Load_WebAuthn env;
  cf_Session := Load_Session env;
  cf_Sandbox := Load_Sandbox env;
  cf_Middleware := Load_Middleware env;
  cf_History := Load_History env;
  cf_Approval := Load_Approval env;
  cf_SPA := Load_SPA env;
  cf_GitHub := Load_GitHub env;
  cf_ReadTimeout := envDuration env "NOMADDEV_READ_TIMEOUT" (60 * Second);
  cf_WriteTimeout := envDuration env "NOMADDEV_WRITE_TIMEOUT" (10 * Second);
  cf_PingInterval := envDuration env "NOMADDEV_PING_INTERVAL" (30 * Second);
  cf_MaxMessageBytes := envInt64 env "NOMADDEV_WS_MAX_MESSAGE_BYTES" (256 * 1024);
  cf_RateLimit := envFloat env "NOMADDEV_WS_RATE_LIMIT" (f64_round false 50 1);
  cf_RateBurst := envInt env "NOMADDEV_WS_RATE_BURST" 100;
  cf_AllowedOrigins := envCSV env "NOMADDEV_WS_ALLOWED_ORIGINS" [];
|}.

#[local] Close Scope Z_scope.

(** ** The override file *)

(** What the code asks of [encoding/json] for a [map[string]string]. *)
Class JsonMap := {
  json_marshal : gmap string string -> string;
  json_unmarshal : string -> option (gmap string string);
}.

(** The documented round trip: strings that are valid UTF-8 come back as they
    were, and a decoded string is valid UTF-8. *)
Definition valid_pair (kv : string * string) : Prop := ValidString kv.1 = true /\ ValidString kv.2 = true.
Definition valid_map (m : gmap string string) : Prop := map_Forall (fun k v => valid_pair (k, v)) m.

Class JsonMapLaws `{JsonMap} : Prop := {
  json_nonempty m : json_marshal m <> "";
  json_roundtrip m : valid_map m -> json_unmarshal (json_marshal m) = Some m;
  json_decodes_valid b m : json_unmarshal b = Some m -> valid_map m;
}.

(** A file has its bytes and its permission bits; the disk maps paths to files. *)
Record ofile := mkFile { of_data : string; of_mode : Z }.
Abbreviation disk := (gmap string ofile).

#[export] Instance ofile_eq_dec : EqDecision ofile.
Proof. solve_decision. Defined.

(** The calls the operating system may refuse: reading, each step of the write
    (a failed write may leave a prefix), and the name [os.CreateTemp] picks. *)
Record os_faults := mkOsFaults {
  read_denied : bool;
  mkdir_fails : bool;
  create_fails : bool;
  chmod_fails : bool;
  write_fails : option nat;
  sync_fails : bool;
  close_fails : bool;
  rename_fails : bool;
  temp_name : string;
}.

Inductive override_error := EReadOverride | EParseOverride | EWriteOverride (step : string).

Section override.
Context `{JsonMap}.

Definition OverridePath (env : environ) : string :=
  let p := Getenv env "NOMADDEV_CONFIG_OVERRIDE_PATH" in
  if String.eqb p "" then defaultOverridePath else p.

(** [LoadOverride]: no file and an empty file are no overrides. *)
Definition LoadOverride (flt : os_faults) (d : disk) (path : string) : result override_error (gmap string string) :=
  match d !! path with
  | None => Ok ∅
  | Some f =>
      if read_denied flt then Err EReadOverride
      else if String.eqb (of_data f) "" then Ok ∅
      else match json_unmarshal (of_data f) with
           | Some ov => Ok ov
           | None => Err EParseOverride
           end
  end.

Definition apply_one (env : environ) (kv : string * string) : environ :=
  match LookupEnv env kv.1 with
  | Some _ => env
  | None => Setenv env kv.1 kv.2
  end.

(** [applyOverride], the map's entries in some order. *)
Definition applyOverride (env : environ) (entries : list (string * string)) : environ :=
  foldl apply_one env entries.

(** [WriteOverride]: the disks after each system call, the last one being the
    state the call leaves, and its error.  The deferred [os.Remove] runs on
    every path past [CreateTemp]. *)
Definition WriteOverride (flt : os_faults) (d : disk) (path : string) (ov : gmap string string) :
    list disk * result override_error unit :=
  if mkdir_fails flt then ([d], Err (EWriteOverride "mkdir"))
  else
    let b := json_marshal ov in
    if create_fails flt then ([d], Err (EWriteOverride "create"))
    else
      let tmp := temp_name flt in
      let d1 := <[tmp := mkFile "" 384]> d in                     (* CreateTemp: 0o600 *)
      let removed d' := delete tmp d' in
      if chmod_fails flt then ([d1; removed d1], Err (EWriteOverride "chmod"))
      else match write_fails flt with
      | Some n =>
          let d2 := <[tmp := mkFile (str_take n b) 384]> d1 in
          ([d1; d2; removed d2], Err (EWriteOverride "write"))
      | None =>
          let d2 := <[tmp := mkFile b 384]> d1 in
          if sync_fails flt then ([d1; d2; removed d2], Err (EWriteOverride "sync"))
          else if close_fails flt then ([d1; d2; removed d2], Err (EWriteOverride "close"))
          else if rename_fails flt then ([d1; d2; removed d2], Err (EWriteOverride "rename"))
          else
            let d3 := <[path := mkFile b 384]> (delete tmp d2) in
            ([d1; d2; d3; removed d3], Ok tt)
      end.

(** [EffectiveValue] *)
Definition EffectiveValue (env : environ) (s : Setting) : string :=
  let v := Getenv env (EnvVar s) in if String.eqb v "" then Default s else v.

(** ** Load *)

(** The environment [Load] leaves, and the configuration or the error. *)
Definition Load (flt : os_faults) (d : disk) (env : environ) : environ * result load_error Config :=
  let env := match LoadOverride flt d (OverridePath env) with
             | Ok ov => applyOverride env (map_to_list ov)
             | Err _ => env
             end in
  (env,
   match loadSecret (Getenv env "NOMADDEV_JWT_SECRET") with
   | Err e => Err e
   | Ok secret =>
       match loadPrevSecrets (Getenv env "NOMADDEV_JWT_PREV_SECRETS") with
       | Err e => Err e
       | Ok prev => Ok (Load_config env secret prev)
       end
   end).
End override.
