(* ===== verification/ConfigSpec.v ===== *)
(** * What the registry promises about the configuration

    The value a raw string stands for under a registry entry ([setting_value]),
    the configuration as a table of such values ([config_fields]), and the
    theorems that tie them to [Load] and to [Validate]. *)

From S2P Require Import Prelude GoString GoConv Event Utf8 GoNum Registry Config.

(** ** Values *)

Inductive cvalue :=
| VStr (s : string)
| VInt (n : Z)
| VBool (b : bool)
| VFloat (f : f64)
| VDur (ns : Z)
| VList (l : list string)
| VLevel (l : Z)
| VServers (m : gmap string string).

(** [parse raw], or the parsed default of the entry. *)
Definition or_default {A} (parse : string -> option A) (mk : A -> cvalue) (s : Setting) (raw : string) : option cvalue :=
  match parse raw with
  | Some x => Some (mk x)
  | None => mk <$> parse (Default s)
  end.

Definition setting_value (s : Setting) (raw : string) : option cvalue :=
  if String.eqb (EnvVar s) "NOMADDEV_LOG_LEVEL" then Some (VLevel (ParseLevel raw))
  else if String.eqb (EnvVar s) "NOMADDEV_LSP_SERVERS" then Some (VServers (parse_lsp_servers raw))
  else match SType s with
       | TypeString | TypeEnum => Some (VStr raw)
       | TypeInt | TypeInt64 => or_default ParseInt VInt s raw
       | TypeBool => or_default ParseBool VBool s raw
       | TypeFloat => or_default ParseFloat VFloat s raw
       | TypeDuration => or_default ParseDuration VDur s raw
       | TypeCSV => Some (VList (match csv_parts raw with [] => csv_parts (Default s) | l => l end))
       end.

(** The configuration by variable, for every field that is read from one. *)
Definition config_fields (c : Config) : list (string * cvalue) := [
  ("NOMADDEV_LISTEN_ADDR", VStr (cf_ListenAddr c));
  ("NOMADDEV_LOG_LEVEL", VLevel (cf_LogLevel c));
  ("NOMADDEV_AUTH_ACCESS_TTL", VDur (at_AccessTTL (cf_Auth c)));
  ("NOMADDEV_AUTH_REFRESH_TTL", VDur (at_RefreshTTL (cf_Auth c)));
  ("NOMADDEV_AUTH_REVOCATION_BACKEND", VStr (rv_Backend (at_Revocation (cf_Auth c))));
  ("NOMADDEV_AUTH_REVOCATION_PATH", VStr (rv_Path (at_Revocation (cf_Auth c))));
  ("NOMADDEV_AUTH_REVOCATION_JANITOR_INTERVAL", VDur (rv_JanitorInterval (at_Revocation (cf_Auth c))));
  ("NOMADDEV_AUDIT_BACKEND", VStr (au_Backend (cf_Audit c)));
  ("NOMADDEV_AUDIT_PATH", VStr (au_Path (cf_Audit c)));
  ("NOMADDEV_OTEL_ENABLED", VBool (tr_Enabled (cf_Tracing c)));
  ("NOMADDEV_OTEL_OTLP_ENDPOINT", VStr (tr_Endpoint (cf_Tracing c)));
  ("NOMADDEV_OTEL_SERVICE_NAME", VStr (tr_ServiceName (cf_Tracing c)));
  ("NOMADDEV_OTEL_SERVICE_VERSION", VStr (tr_ServiceVersion (cf_Tracing c)));
  ("NOMADDEV_OTEL_SAMPLE_RATIO", VFloat (tr_SampleRatio (cf_Tracing c)));
  ("NOMADDEV_OTEL_INSECURE", VBool (tr_Insecure (cf_Tracing c)));
  ("NOMADDEV_WEBAUTHN_ENABLED", VBool (wa_Enabled (cf_WebAuthn c)));
  ("NOMADDEV_WEBAUTHN_RPID", VStr (wa_RPID (cf_WebAuthn c)));
  ("NOMADDEV_WEBAUTHN_RP_DISPLAY_NAME", VStr (wa_RPDisplayName (cf_WebAuthn c)));
  ("NOMADDEV_WEBAUTHN_ORIGINS", VList (wa_Origins (cf_WebAuthn c)));
  ("NOMADDEV_WEBAUTHN_STORE_PATH", VStr (wa_StorePath (cf_WebAuthn c)));
  ("NOMADDEV_SESSION_BACKEND", VStr (se_Backend (cf_Session c)));
  ("NOMADDEV_SESSION_PATH", VStr (se_Path (cf_Session c)));
  ("NOMADDEV_SESSION_BUFFER_SIZE", VInt (se_BufferSize (cf_Session c)));
  ("NOMADDEV_SESSION_MAX_BYTES", VInt (se_MaxBytes (cf_Session c)));
  ("NOMADDEV_SESSION_IDLE_TTL", VDur (se_IdleTTL (cf_Session c)));
  ("NOMADDEV_SESSION_JANITOR_INTERVAL", VDur (se_JanitorInterval (cf_Session c)));
  ("NOMADDEV_SANDBOX_RUNTIME", VStr (sb_Runtime (cf_Sandbox c)));
  ("NOMADDEV_SANDBOX_IMAGE", VStr (sb_Image (cf_Sandbox c)));
  ("NOMADDEV_SANDBOX_WORKSPACE_DIR", VStr (sb_WorkspaceDir (cf_Sandbox c)));
  ("NOMADDEV_SANDBOX_NETWORK", VStr (sb_Network (cf_Sandbox c)));
  ("NOMADDEV_SANDBOX_DEFAULT_TIMEOUT", VDur (sb_DefaultTimeout (cf_Sandbox c)));
  ("NOMADDEV_SANDBOX_MAX_CONCURRENT", VInt (sb_MaxConcurrent (cf_Sandbox c)));
  ("NOMADDEV_SANDBOX_MEMORY", VInt (sb_Memory (cf_Sandbox c)));
  ("NOMADDEV_SANDBOX_NANOCPUS", VInt (sb_NanoCPUs (cf_Sandbox c)));
  ("NOMADDEV_SANDBOX_PIDS_LIMIT", VInt (sb_PidsLimit (cf_Sandbox c)));
  ("NOMADDEV_SANDBOX_READONLY_ROOTFS", VBool (sb_ReadOnlyRootfs (cf_Sandbox c)));
  ("NOMADDEV_SANDBOX_PREFER_RUNSC", VBool (sb_PreferRunsc (cf_Sandbox c)));
  ("NOMADDEV_SANDBOX_REQUIRE_DIGEST", VBool (sb_RequireDigest (cf_Sandbox c)));
  ("NOMADDEV_SANDBOX_PER_SESSION_WORKSPACE", VBool (sb_PerSessionWorkspace (cf_Sandbox c)));
  ("NOMADDEV_SANDBOX_HEARTBEAT_INTERVAL", VDur (sb_HeartbeatInterval (cf_Sandbox c)));
  ("NOMADDEV_DAEMON_MONITOR_ENABLED", VBool (sb_DaemonEnabled (cf_Sandbox c)));
  ("NOMADDEV_LSP_SERVERS", VServers (sb_LSPServers (cf_Sandbox c)));
  ("NOMADDEV_LSP_IDLE_TIMEOUT", VDur (sb_LSPIdleTimeout (cf_Sandbox c)));
  ("NOMADDEV_LSP_REQUEST_TIMEOUT", VDur (sb_LSPRequestTimeout (cf_Sandbox c)));
  ("NOMADDEV_MIDDLEWARE_RUNTIME", VStr (mw_Runtime (cf_Middleware c)));
  ("NOMADDEV_GEMINI_API_KEY", VStr (mw_APIKey (cf_Middleware c)));
  ("NOMADDEV_GEMINI_MODEL", VStr (mw_Model (cf_Middleware c)));
  ("NOMADDEV_GEMINI_TEMPERATURE", VFloat (mw_Temperature (cf_Middleware c)));
  ("NOMADDEV_GEMINI_MAX_TOKENS", VInt (mw_MaxTokens (cf_Middleware c)));
  ("NOMADDEV_MIDDLEWARE_SYSTEM_PROMPT", VStr (mw_SystemPrompt (cf_Middleware c)));
  ("NOMADDEV_MIDDLEWARE_SYSTEM_PROMPT_PATH", VStr (mw_SystemPromptPath (cf_Middleware c)));
  ("NOMADDEV_MIDDLEWARE_MAX_CONCURRENT", VInt (mw_MaxConcurrent (cf_Middleware c)));
  ("NOMADDEV_OPENAI_API_KEY", VStr (mw_OpenAIAPIKey (cf_Middleware c)));
  ("NOMADDEV_OPENAI_BASE_URL", VStr (mw_OpenAIBaseURL (cf_Middleware c)));
  ("NOMADDEV_OPENAI_MODEL", VStr (mw_OpenAIModel (cf_Middleware c)));
  ("NOMADDEV_ANTHROPIC_API_KEY", VStr (mw_AnthropicAPIKey (cf_Middleware c)));
  ("NOMADDEV_ANTHROPIC_MODEL", VStr (mw_AnthropicModel (cf_Middleware c)));
  ("NOMADDEV_DEEPSEEK_API_KEY", VStr (mw_DeepSeekAPIKey (cf_Middleware c)));
  ("NOMADDEV_DEEPSEEK_MODEL", VStr (mw_DeepSeekModel (cf_Middleware c)));
  ("NOMADDEV_LLM_MAX_RETRIES", VInt (mw_LLMMaxRetries (cf_Middleware c)));
  ("NOMADDEV_ANTHROPIC_THINKING_BUDGET", VInt (mw_AnthropicThinkingBudget (cf_Middleware c)));
  ("NOMADDEV_USER_INTENT_MAX_IMAGES", VInt (mw_MaxImagesPerIntent (cf_Middleware c)));
  ("NOMADDEV_USER_INTENT_MAX_IMAGE_BYTES", VInt (mw_MaxImageBytes (cf_Middleware c)));
  ("NOMADDEV_MAX_AUTORETRIES", VInt (mw_MaxAutoRetries (cf_Middleware c)));
  ("NOMADDEV_WORKER_POOL_ENABLED", VBool (mw_WorkerPoolEnabled (cf_Middleware c)));
  ("NOMADDEV_WORKER_POOL_MAX", VInt (mw_WorkerPoolMaxConcurrent (cf_Middleware c)));
  ("NOMADDEV_WORKER_POOL_MAX_TASKS", VInt (mw_WorkerPoolMaxTasks (cf_Middleware c)));
  ("NOMADDEV_WORKER_POOL_TASK_TIMEOUT", VDur (mw_WorkerPoolTaskTimeout (cf_Middleware c)));
  ("NOMADDEV_DOC_FETCH_ALLOWED_DOMAINS", VList (mw_DocFetchAllowedDomains (cf_Middleware c)));
  ("NOMADDEV_HISTORY_BACKEND", VStr (hi_Backend (cf_History c)));
  ("NOMADDEV_HISTORY_PATH", VStr (hi_Path (cf_History c)));
  ("NOMADDEV_HISTORY_WINDOW_TURNS", VInt (hi_WindowTurns (cf_History c)));
  ("NOMADDEV_HISTORY_SUMMARY_ENABLED", VBool (hs_Enabled (hi_Summary (cf_History c))));
  ("NOMADDEV_HISTORY_SUMMARY_URL", VStr (hs_URL (hi_Summary (cf_History c))));
  ("NOMADDEV_HISTORY_SUMMARY_AUTH_HEADER", VStr (hs_AuthHeader (hi_Summary (cf_History c))));
  ("NOMADDEV_HISTORY_SUMMARY_WORD_THRESHOLD", VInt (hs_WordThreshold (hi_Summary (cf_History c))));
  ("NOMADDEV_HISTORY_SUMMARY_INTERVAL", VDur (hs_Interval (hi_Summary (cf_History c))));
  ("NOMADDEV_HISTORY_SUMMARY_TIMEOUT", VDur (hs_Timeout (hi_Summary (cf_History c))));
  ("NOMADDEV_APPROVAL_REQUIRED_TOOLS", VList (ap_RequiredTools (cf_Approval c)));
  ("NOMADDEV_APPROVAL_TIMEOUT", VDur (ap_Timeout (cf_Approval c)));
  ("NOMADDEV_APPROVAL_AUTO_GRANT", VBool (ap_AutoGrant (cf_Approval c)));
  ("NOMADDEV_APPROVAL_GATE_DIRECT_COMMANDS", VBool (ap_GateDirectCommands (cf_Approval c)));
  ("NOMADDEV_SPA_ENABLED", VBool (spa_Enabled (cf_SPA c)));
  ("NOMADDEV_SPA_DIR", VStr (spa_Dir (cf_SPA c)));
  ("NOMADDEV_GITHUB_TOKEN", VStr (gh_Token (cf_GitHub c)));
  ("NOMADDEV_GITHUB_USER_TOKENS_PATH", VStr (gh_UserTokensPath (cf_GitHub c)));
  ("NOMADDEV_GITHUB_MCP_BIN", VStr (gh_BinaryPath (cf_GitHub c)));
  ("NOMADDEV_GITHUB_TOOLSETS", VList (gh_Toolsets (cf_GitHub c)));
  ("NOMADDEV_GITHUB_READ_ONLY", VBool (gh_ReadOnly (cf_GitHub c)));
  ("NOMADDEV_GITHUB_HOST", VStr (gh_Host (cf_GitHub c)));
  ("NOMADDEV_GITHUB_LOCKDOWN", VBool (gh_LockdownMode (cf_GitHub c)));
  ("NOMADDEV_GITHUB_START_TIMEOUT", VDur (gh_StartTimeout (cf_GitHub c)));
  ("NOMADDEV_GITHUB_MAX_ARG_BYTES", VInt (gh_MaxArgBytes (cf_GitHub c)));
  ("NOMADDEV_GITHUB_MAX_RESULT_BYTES", VInt (gh_MaxResultBytes (cf_GitHub c)));
  ("NOMADDEV_GITHUB_RATE_LIMIT_RETRIES", VInt (gh_RateLimitRetries (cf_GitHub c)));
  ("NOMADDEV_GITHUB_RATE_LIMIT_BASE_BACKOFF", VDur (gh_RateLimitBaseBackoff (cf_GitHub c)));
  ("NOMADDEV_READ_TIMEOUT", VDur (cf_ReadTimeout c));
  ("NOMADDEV_WRITE_TIMEOUT", VDur (cf_WriteTimeout c));
  ("NOMADDEV_PING_INTERVAL", VDur (cf_PingInterval c));
  ("NOMADDEV_WS_MAX_MESSAGE_BYTES", VInt (cf_MaxMessageBytes c));
  ("NOMADDEV_WS_RATE_LIMIT", VFloat (cf_RateLimit c));
  ("NOMADDEV_WS_RATE_BURST", VInt (cf_RateBurst c));
  ("NOMADDEV_WS_ALLOWED_ORIGINS", VList (cf_AllowedOrigins c))].

Definition config_field (c : Config) (k : string) : option cvalue :=
  snd <$> List.find (fun kv => String.eqb kv.1 k) (config_fields c).

(** The settings that are no field of their own type: the two secrets are
    decoded, the override path is read before the override file. *)
Definition special_settings : list string :=
  ["NOMADDEV_JWT_SECRET"; "NOMADDEV_JWT_PREV_SECRETS"; "NOMADDEV_CONFIG_OVERRIDE_PATH"].

(** ** The readers and the registry agree *)

Section readers_agree.
Context (env : environ) (s : Setting).

(** The two variables that are strings with a meaning of their own. *)
Definition plain_setting : bool :=
  negb (String.eqb (EnvVar s) "NOMADDEV_LOG_LEVEL") && negb (String.eqb (EnvVar s) "NOMADDEV_LSP_SERVERS").

Lemma plain_setting_value raw : plain_setting = true ->
  setting_value s raw =
  match SType s with
  | TypeString | TypeEnum => Some (VStr raw)
  | TypeInt | TypeInt64 => or_default ParseInt VInt s raw
  | TypeBool => or_default ParseBool VBool s raw
  | TypeFloat => or_default ParseFloat VFloat s raw
  | TypeDuration => or_default ParseDuration VDur s raw
  | TypeCSV => Some (VList (match csv_parts raw with [] => csv_parts (Default s) | l => l end))
  end.
Proof. unfold plain_setting, setting_value. intros [->%negb_true_iff ->%negb_true_iff]%andb_true_iff. done. Qed.

Lemma env_parsed_value {A} (parse : string -> option A) (mk : A -> cvalue) fb :
  parse (Default s) = Some fb ->
  Some (mk (env_parsed env parse (EnvVar s) fb)) = or_default parse mk s (EffectiveValue env s).
Proof.
  intros Hd. unfold env_parsed, or_default, EffectiveValue. destruct (String.eqb _ ""); [by rewrite Hd|].
  destruct (parse (Getenv _ _)); [done|]. by rewrite Hd.
Qed.

Lemma Getenv_value : Default s = "" -> Getenv env (EnvVar s) = EffectiveValue env s.
Proof. intros Hd. unfold EffectiveValue. destruct (String.eqb_spec (Getenv env (EnvVar s)) "") as [->|_]; [|done]. by rewrite Hd. Qed.

(** What [Load] puts in the field of [s], by the reader it uses. *)
Definition reader_matches (v : cvalue) : Prop :=
  match SType s, v with
  | (TypeString | TypeEnum), VStr x => x = EffectiveValue env s
  | (TypeInt | TypeInt64), VInt n => exists fb, ParseInt (Default s) = Some fb /\ n = env_parsed env ParseInt (EnvVar s) fb
  | TypeBool, VBool b => exists fb, ParseBool (Default s) = Some fb /\ b = env_parsed env ParseBool (EnvVar s) fb
  | TypeFloat, VFloat f => exists fb, ParseFloat (Default s) = Some fb /\ f = env_parsed env ParseFloat (EnvVar s) fb
  | TypeDuration, VDur d => exists fb, ParseDuration (Default s) = Some fb /\ d = env_parsed env ParseDuration (EnvVar s) fb
  | TypeCSV, VList l => l = envCSV env (EnvVar s) (csv_parts (Default s))
  | _, _ => False
  end.

Lemma reader_value v : plain_setting = true -> reader_matches v -> Some v = setting_value s (EffectiveValue env s).
Proof.
  intros Hp. rewrite plain_setting_value by done. unfold reader_matches.
  destruct (SType s), v; try done; try (intros (fb & Hfb & ->); by apply env_parsed_value); [by intros ->| |by intros ->].
  intros ->. unfold envCSV, EffectiveValue. destruct (String.eqb _ ""); [|done]. by destruct (csv_parts (Default s)).
Qed.
End readers_agree.

(** One setting of the table against its field. *)
Definition field_agrees (env : environ) (c : Config) (s : Setting) : Prop :=
  EnvVar s ∈ special_settings \/ config_field c (EnvVar s) = setting_value s (EffectiveValue env s).

Ltac reader_case env s :=
  match goal with
  | |- reader_matches _ _ (VStr (Getenv _ _)) => exact (Getenv_value env s eq_refl)
  | |- reader_matches _ _ (VStr _) => reflexivity
  | |- reader_matches _ _ (VList _) => reflexivity
  | |- reader_matches _ _ (_ (_ _ _ ?fb)) => exists fb; split; [vm_compute; reflexivity|reflexivity]
  end.

Ltac field_case :=
  match goal with |- field_agrees ?env _ ?s =>
    first
    [ left; apply (bool_decide_eq_true_1 _); vm_compute; reflexivity
    | right; unfold config_field; simpl;
      match goal with
      | |- Some (VLevel _) = _ => reflexivity
      | |- Some (VServers _) = _ => exact (f_equal (fun v => Some (VServers (parse_lsp_servers v))) (Getenv_value env s eq_refl))
      | |- _ => refine (reader_value env s _ eq_refl _); reader_case env s
      end ]
  end.

Ltac fields_case := repeat (apply Forall_cons_2; [field_case|]); apply Forall_nil_2.

Lemma registry_agrees env secret prev : Forall (field_agrees env (Load_config env secret prev)) Registry.
Proof. unfold Registry. rewrite !Forall_app. repeat split; fields_case. Qed.

Lemma config_field_names c : Forall (fun kv => is_Some (Lookup kv.1)) (config_fields c).
Proof. repeat (apply Forall_cons_2; [eexists; vm_compute; reflexivity|]). apply Forall_nil_2. Qed.

(** ** Validation *)

(** What an acceptable raw value is, in terms of the integers it stands for. *)
Definition valid_raw (s : Setting) (raw : string) : Prop :=
  match SType s with
  | TypeString | TypeCSV => True
  | TypeBool => is_Some (ParseBool raw)
  | TypeInt | TypeInt64 => exists n, ParseInt raw = Some n /\ forall lo, f64_trunc <$> Min s = Some lo -> (lo <= n)%Z
  | TypeDuration => exists d, ParseDuration raw = Some d /\ forall lo, f64_trunc <$> Min s = Some lo -> (lo <= d)%Z
  | TypeFloat => exists f, ParseFloat raw = Some f /\ (forall lo, Min s = Some lo -> f64_ltb f lo = false) /\
                           (forall hi, Max s = Some hi -> f64_ltb hi f = false)
  | TypeEnum => raw ∈ Enum s
  end.

(** The bounds of the integral settings: a minimum of 0 or 1, no maximum. *)
Definition small_bounds (s : Setting) : bool :=
  match SType s with
  | TypeInt | TypeInt64 | TypeDuration =>
      bool_decide (Max s = None) && bool_decide (Min s ∈ [None; numPtr 0; numPtr 1])
  | _ => true
  end.

Lemma registry_small_bounds : Forall (fun s => small_bounds s = true) Registry.
Proof. apply (bool_decide_eq_true_1 _). vm_compute. reflexivity. Qed.

Lemma lower_guard n k (e : invalid) :
  (_ ← guard_err (negb (n <? k)%Z) e; Ok tt) = Ok tt <-> forall lo, Some k = Some lo -> (lo <= n)%Z.
Proof.
  destruct (Z.ltb_spec n k); cbn; split; try done.
  - intros H'. specialize (H' k eq_refl). lia.
  - by intros _ lo [= <-].
Qed.

Lemma checkBounds_int s n :
  Max s = None -> Min s ∈ [None; numPtr 0; numPtr 1] -> (- two63 <= n < two63)%Z ->
  checkBounds s (f64_of_Z n) = Ok tt <-> forall lo, f64_trunc <$> Min s = Some lo -> (lo <= n)%Z.
Proof.
  intros Hmax Hmin Hn. unfold checkBounds. rewrite Hmax. rewrite !elem_of_cons in Hmin.
  destruct Hmin as [E|[E|[E|[]%elem_of_nil]]]; rewrite E; unfold numPtr.
  - split; [intros _ lo; discriminate|reflexivity].
  - rewrite f64_below_zero by done. apply lower_guard.
  - rewrite f64_below_one by done. apply lower_guard.
Qed.

Lemma opt_guard (o : option f64) (test : f64 -> bool) (mk : f64 -> invalid) (r : result invalid unit) :
  (_ ← match o with Some x => guard_err (negb (test x)) (mk x) | None => Ok tt end; r) = Ok tt <->
  (forall x, o = Some x -> test x = false) /\ r = Ok tt.
Proof.
  destruct o as [x|]; [|naive_solver]. destruct (test x) eqn:E; cbn; [|naive_solver].
  split; [done|]. intros [Hx _]. specialize (Hx x eq_refl). congruence.
Qed.

Lemma checkBounds_Ok s f :
  checkBounds s f = Ok tt <-> (forall lo, Min s = Some lo -> f64_ltb f lo = false) /\ (forall hi, Max s = Some hi -> f64_ltb hi f = false).
Proof.
  unfold checkBounds. rewrite (opt_guard (Min s) (fun lo => f64_ltb f lo) (BelowMinimum (EnvVar s))).
  pose proof (opt_guard (Max s) (fun hi => f64_ltb hi f) (AboveMaximum (EnvVar s)) (Ok tt)) as Hm.
  destruct (Max s) as [hi|]; [|naive_solver]. destruct (guard_err _ _) as [[]|]; naive_solver.
Qed.

Lemma registry_defaults_valid : Forall (fun s => Validate s (Default s) = Ok tt) Registry.
Proof. apply (bool_decide_eq_true_1 _). vm_compute. reflexivity. Qed.

(** what the validator accepts.  For every setting of the registry and
    every raw string, [Validate] accepts exactly the strings that parse to a
    value within the documented bounds: integers and durations compared as
    integers (the detour through float64 loses nothing), floats as float64s,
    enumerations by membership.  Every default of the registry is accepted. *)
Theorem validate_exact (s : Setting) :
  s ∈ Registry -> (forall raw, Validate s raw = Ok tt <-> valid_raw s raw) /\ Validate s (Default s) = Ok tt.
Proof.
  intros Hs. split.
  - intros raw. pose proof registry_small_bounds as Hb. rewrite Forall_forall in Hb. specialize (Hb s Hs).
    unfold small_bounds in Hb. unfold Validate, valid_raw. destruct (SType s); try apply andb_true_iff in Hb as [Hmax%bool_decide_eq_true Hmin%bool_decide_eq_true].
    + done.
    + destruct (ParseInt raw) as [n|] eqn:E; [|naive_solver]. rewrite checkBounds_int by eauto using ParseInt_range. naive_solver.
    + destruct (ParseInt raw) as [n|] eqn:E; [|naive_solver]. rewrite checkBounds_int by eauto using ParseInt_range. naive_solver.
    + destruct (ParseBool raw); [by split; eauto|]. split; [done|by intros []].
    + destruct (ParseFloat raw); [rewrite checkBounds_Ok|]; naive_solver.
    + destruct (ParseDuration raw) as [n|] eqn:E; [|naive_solver]. rewrite checkBounds_int by eauto using ParseDuration_range. naive_solver.
    + done.
    + case_bool_decide; split; done.
  - pose proof registry_defaults_valid as Hd. rewrite Forall_forall in Hd. by apply Hd.
Qed.

(** Every default parses, so every raw value has a meaning. *)
Lemma registered_value s raw : s ∈ Registry -> is_Some (setting_value s raw).
Proof.
  intros Hs. pose proof registry_defaults_valid as Hall. rewrite Forall_forall in Hall. specialize (Hall s Hs).
  unfold Validate in Hall. unfold setting_value, or_default.
  destruct (String.eqb _ "NOMADDEV_LOG_LEVEL"); [by eexists|]. destruct (String.eqb _ "NOMADDEV_LSP_SERVERS"); [by eexists|].
  destruct (SType s); try by eexists.
  - destruct (ParseInt raw); [by eexists|]. destruct (ParseInt (Default s)); [by eexists|done].
  - destruct (ParseInt raw); [by eexists|]. destruct (ParseInt (Default s)); [by eexists|done].
  - destruct (ParseBool raw); [by eexists|]. destruct (ParseBool (Default s)); [by eexists|done].
  - destruct (ParseFloat raw); [by eexists|]. destruct (ParseFloat (Default s)); [by eexists|done].
  - destruct (ParseDuration raw); [by eexists|]. destruct (ParseDuration (Default s)); [by eexists|done].
Qed.

(** What [Load] returns, by cases. *)
Lemma Load_Ok `{JsonMap} flt d env env' cfg :
  Load flt d env = (env', Ok cfg) ->
  exists secret prev, loadSecret (Getenv env' "NOMADDEV_JWT_SECRET") = Ok secret /\
    loadPrevSecrets (Getenv env' "NOMADDEV_JWT_PREV_SECRETS") = Ok prev /\ cfg = Load_config env' secret prev.
Proof.
  unfold Load. intros [= -> Hr]. destruct (loadSecret _) as [secret|]; [|done].
  destruct (loadPrevSecrets _) as [prev|]; [|done]. simplify_eq. eauto.
Qed.

(** C31: the registry describes the configuration.  When [Load] returns a
    configuration, the field of every registered setting (the two JWT secrets
    and the override path aside, which are no plain fields) holds exactly the
    value that the registry entry assigns to the string the settings API shows
    for it ([EffectiveValue]): parsed by the entry's type, or the entry's
    default when the string does not parse.  Conversely every variable a field
    is read from is registered.  So the editor's view is the value in force, and
    the 103 defaults written in config.go are those of registry.go. *)
Theorem load_follows_registry `{JsonMap} (flt : os_faults) (d : disk) (env env' : environ) (cfg : Config) :
  Load flt d env = (env', Ok cfg) ->
  (forall s, s ∈ Registry -> EnvVar s ∉ special_settings ->
     config_field cfg (EnvVar s) = setting_value s (EffectiveValue env' s) /\ is_Some (config_field cfg (EnvVar s))) /\
  (forall k v, (k, v) ∈ config_fields cfg -> is_Some (Lookup k)).
Proof.
  intros (secret & prev & _ & _ & ->)%Load_Ok. split.
  - intros s Hs Hn. pose proof (registry_agrees env' secret prev) as Hall. rewrite Forall_forall in Hall.
    destruct (Hall s Hs) as [?|E]; [done|]. split; [done|]. rewrite E. by apply registered_value.
  - intros k v Hkv. pose proof (config_field_names (Load_config env' secret prev)) as Hall. rewrite Forall_forall in Hall.
    by apply (Hall (k, v)).
Qed.

(** ** A concrete start *)

(** A codec of string maps: the binary code of the map, one character a bit. *)
Fixpoint pos_str (p : positive) : string :=
  match p with xH => "." | xO p => String "0" (pos_str p) | xI p => String "1" (pos_str p) end.

Fixpoint str_pos (s : string) : option positive :=
  match s with
  | EmptyString => None
  | String c s' => if Ascii.eqb c "." then (if String.eqb s' "" then Some xH else None)
                   else if Ascii.eqb c "0" then xO <$> str_pos s' else xI <$> str_pos s'
  end.

Lemma str_pos_str p : str_pos (pos_str p) = Some p.
Proof. induction p as [p IH|p IH|]; simpl; rewrite ?IH; done. Qed.

#[export] Instance valid_pair_dec kv : Decision (valid_pair kv).
Proof. unfold valid_pair. apply _. Defined.
#[export] Instance valid_map_dec m : Decision (valid_map m).
Proof. unfold valid_map. apply _. Defined.

Definition toy_json : JsonMap := {|
  json_marshal m := pos_str (encode m);
  json_unmarshal s := p ← str_pos s; m ← decode p; if decide (valid_map m) then Some m else None;
|}.

#[local] Existing Instance toy_json.

Lemma toy_json_laws : JsonMapLaws.
Proof.
  split; simpl.
  - intros m. by destruct (encode m).
  - intros m Hm. rewrite str_pos_str. simpl. rewrite decode_encode. simpl. by rewrite decide_True.
  - intros b m. destruct (str_pos b); [|done]. simpl. destruct (decode _); [|done]. simpl. case_decide; [|done]. by intros [= <-].
Qed.

Definition demo_faults : os_faults := mkOsFaults false false false false None false false false "/var/lib/nomaddev/.config-override-1.tmp".
Definition demo_boot : environ := {["NOMADDEV_JWT_SECRET" := "0123456789abcdef0123456789abcdef!"]}.
Definition demo_level : Setting :=
  mkSetting "NOMADDEV_LOG_LEVEL" TypeEnum "Server" "info" false ["debug"; "info"; "warn"; "error"] None None
    "Structured-log verbosity." false false.

Lemma validate_exact_witness :
  Validate demo_level "warn" = Ok tt /\ ~ Validate demo_level "verbose" = Ok tt.
Proof.
  assert (demo_level ∈ Registry) as Hin by (apply (bool_decide_eq_true_1 _); vm_compute; reflexivity).
  destruct (validate_exact demo_level Hin) as [Hv _]. rewrite !Hv. unfold valid_raw. cbn [SType Enum demo_level].
  split; [|intros Hbad]; [|revert Hbad; apply (bool_decide_eq_false_1 _)]; [apply (bool_decide_eq_true_1 _)|]; vm_compute; reflexivity.
Defined.

Lemma load_follows_registry_witness :
  let cfg := Load_config demo_boot "0123456789abcdef0123456789abcdef!" [] in
  Load demo_faults ∅ demo_boot = (demo_boot, Ok cfg) /\
  config_field cfg "NOMADDEV_LOG_LEVEL" = setting_value demo_level (EffectiveValue demo_boot demo_level).
Proof.
  assert (Load demo_faults ∅ demo_boot = (demo_boot, Ok (Load_config demo_boot "0123456789abcdef0123456789abcdef!" []))) as Hl by reflexivity.
  split; [exact Hl|]. apply (proj1 (load_follows_registry _ _ _ _ _ Hl) demo_level); apply (bool_decide_eq_true_1 _); vm_compute; reflexivity.
Defined.
