(* ===== verification/ConfigApi.v ===== *)
(** * The settings API (internal/wsserver/config_handlers.go)

    GET, PUT and restart on /admin/config: the bearer token and its config
    scope, the listing with secrets withheld, the all-or-nothing update of the
    override file with its cross-field rule, and the restart signal.

    A JSON body is decoded by the caller ([None]: malformed or over the size
    limit); the entries of [req.Changes] come in the order the map is iterated
    in.  Log lines are not modelled, audit events are. *)

From stdpp Require Import sorting.
From S2P Require Import Prelude GoString GoConv GoNum Registry Config ConfigSpec Event Auth.

(** ** Data *)

Record configSetting := mkConfigSetting {
  cs_EnvVar : string;
  cs_Type : SettingType;
  cs_Category : string;
  cs_Description : string;
  cs_Default : string;
  cs_Enum : list string;
  cs_Min : option f64;
  cs_Max : option f64;
  cs_Secret : bool;
  cs_Dangerous : bool;
  cs_ReadOnly : bool;
  cs_RequiresRestart : bool;
  cs_Overridden : bool;
  cs_Value : string;
  cs_ValueState : string;
}.

Record configPutRequest := mkPut { Changes : list (string * string); Reset : list string }.

Inductive admin_msg :=
| MMissingToken
| MInvalidToken
| MLacksScope (need : string)
| MUnreadable (e : override_error)
| MBadBody
| MNoChanges
| MUnknownSetting
| MReadOnly
| MInvalid (e : invalid)
| MBadSecret (e : load_error)
| MTTLOrder
| MNotPersisted (e : override_error)
| MNoRestart.

Inductive admin_response :=
| RError (code : Z) (msg : admin_msg) (env_var : string)
| RMethodNotAllowed (allow : string)
| RConfig (categories : list string) (settings : list configSetting)
| RPut (applied : Z) (requires_restart : bool)
| RRestarting.

(** The audit events of this component; the change event names keys, never values. *)
Inductive admin_audit :=
| AConfigChange (sub remote : string) (changed reset : list string)
| ARestartRequested (sub remote : string).

Record http_request := mkHttp { hr_Method : string; hr_Authorization : string; hr_Remote : string }.

(** The part of the server these handlers use: the verifier, the process
    environment, the disk with the override file, the audit sink, and the
    restart channel of capacity one ([None]: nil; [Some true]: a signal waits). *)
Record admin (R : Type) := mkAdmin {
  ad_verifier : @Verifier R;
  ad_env : environ;
  ad_disk : disk;
  ad_path : string;
  ad_audit : list admin_audit;
  ad_restart : option bool;
}.
Arguments mkAdmin {R}. Arguments ad_verifier {R}. Arguments ad_env {R}. Arguments ad_disk {R}.
Arguments ad_path {R}. Arguments ad_audit {R}. Arguments ad_restart {R}.

(** ** Sorting the audited keys *)

Definition str_le (a b : string) : Prop := String.leb a b = true.
#[export] Instance str_le_dec : RelDecision str_le.
Proof. intros a b. unfold str_le. apply _. Defined.

Definition sort_Strings (l : list string) : list string := merge_sort str_le l.

(** [extractAccessToken] (auth_handlers.go) *)
Definition extractAccessToken (h : string) : string :=
  if String.eqb h "" then ""
  else if negb (HasPrefix (ToLower h) "bearer ") then ""
  else TrimSpace (str_drop (String.length "Bearer ") h).

Section handlers.
Context {R : Type} `{RevocationList R} `{JsonMap}.
(** The JWT library, at the time of the request. *)
Variable ParseWithClaims : string -> string -> option Claims.

Definition ParseCtx (v : @Verifier R) (t : string) : result auth_error Claims :=
  parseCtx (fun t => String.eqb t "") ParseWithClaims v t.

(** [authConfigRequest] *)
Definition authConfigRequest (a : admin R) (r : http_request) (write : bool) : result admin_response Claims :=
  let token := extractAccessToken (hr_Authorization r) in
  if String.eqb token "" then Err (RError 401 MMissingToken "")
  else match ParseCtx (ad_verifier a) token with
       | Err _ => Err (RError 401 MInvalidToken "")
       | Ok claims =>
           if negb (HasConfigScope (cl_scopes claims) write)
           then Err (RError 403 (MLacksScope (if write then ScopeConfigWrite else ScopeConfigRead)) "")
           else Ok claims
       end.

(** ** GET *)

Definition config_setting (env : environ) (override : gmap string string) (def : Setting) : configSetting :=
  let live := EffectiveValue env def in
  mkConfigSetting (EnvVar def) (SType def) (Category def) (Description def) (Default def) (Enum def)
    (Min def) (Max def) (Secret def) (Dangerous def) (ReadOnly def) true
    (match override !! EnvVar def with Some _ => true | None => false end)
    (if Secret def then "" else live)
    (if Secret def then (if String.eqb live "" then "unset" else "set") else "").

Definition handleConfigGet (flt : os_faults) (a : admin R) (r : http_request) : admin_response :=
  match authConfigRequest a r false with
  | Err resp => resp
  | Ok _ =>
      match LoadOverride flt (ad_disk a) (ad_path a) with
      | Err e => RError 500 (MUnreadable e) ""
      | Ok override => RConfig Categories (config_setting (ad_env a) override <$> Registry)
      end
  end.

(** ** PUT *)

(** The reset loop: every name must be known and writable. *)
Fixpoint apply_resets (merged : gmap string string) (l : list string) : result admin_response (gmap string string) :=
  match l with
  | [] => Ok merged
  | envVar :: l' =>
      match Lookup envVar with
      | None => Err (RError 400 MUnknownSetting envVar)
      | Some def => if ReadOnly def then Err (RError 400 MReadOnly envVar)
                    else apply_resets (delete envVar merged) l'
      end
  end.

(** The changes loop: one bad entry refuses the whole request; an empty secret
    is left unchanged. *)
Fixpoint apply_changes (merged : gmap string string) (changed : list string) (l : list (string * string)) :
    result admin_response (gmap string string * list string) :=
  match l with
  | [] => Ok (merged, changed)
  | (envVar, value) :: l' =>
      match Lookup envVar with
      | None => Err (RError 400 MUnknownSetting envVar)
      | Some def =>
          if ReadOnly def then Err (RError 400 MReadOnly envVar)
          else if Secret def && String.eqb value "" then apply_changes merged changed l'
          else match Validate def value with
          | Err e => Err (RError 400 (MInvalid e) envVar)
          | Ok _ =>
              match (if String.eqb envVar "NOMADDEV_JWT_SECRET" then ValidateJWTSecret value else Ok tt) with
              | Err e => Err (RError 400 (MBadSecret e) envVar)
              | Ok _ => apply_changes (<[envVar := value]> merged) (changed ++ [envVar]) l'
              end
          end
      end
  end.

(** [resolveConfigValue] *)
Definition resolveConfigValue (env : environ) (envVar : string) (merged : gmap string string) : string :=
  match merged !! envVar with
  | Some v => v
  | None =>
      let v := Getenv env envVar in
      if negb (String.eqb v "") then v
      else match Lookup envVar with Some def => Default def | None => "" end
  end.

(** [validateConfigCrossFields]: a value that does not parse is not its business. *)
Definition validateConfigCrossFields (env : environ) (merged : gmap string string) : bool :=
  match ParseDuration (resolveConfigValue env "NOMADDEV_AUTH_ACCESS_TTL" merged),
        ParseDuration (resolveConfigValue env "NOMADDEV_AUTH_REFRESH_TTL" merged) with
  | Some access, Some refresh => negb (refresh <=? access)%Z
  | _, _ => true
  end.

Definition merge_request (a : admin R) (override : gmap string string) (req : configPutRequest) :
    result admin_response (gmap string string * list string) :=
  merged ← apply_resets override (Reset req);
  '(merged, changed) ← apply_changes merged [] (Changes req);
  _ ← guard_err (validateConfigCrossFields (ad_env a) merged) (RError 400 MTTLOrder "");
  Ok (merged, changed).

(** [handleConfigPut] *)
Definition handleConfigPut (flt : os_faults) (a : admin R) (r : http_request) (body : option configPutRequest) :
    admin R * admin_response :=
  match authConfigRequest a r true with
  | Err resp => (a, resp)
  | Ok claims =>
      match body with
      | None => (a, RError 400 MBadBody "")
      | Some req =>
          if Nat.eqb (length (Changes req)) 0 && Nat.eqb (length (Reset req)) 0 then (a, RError 400 MNoChanges "")
          else match LoadOverride flt (ad_disk a) (ad_path a) with
          | Err e => (a, RError 500 (MUnreadable e) "")
          | Ok override =>
              match merge_request a override req with
              | Err resp => (a, resp)
              | Ok (merged, changed) =>
                  let '(ds, wr) := WriteOverride flt (ad_disk a) (ad_path a) merged in
                  let d' := default (ad_disk a) (last ds) in
                  match wr with
                  | Err e => (mkAdmin (ad_verifier a) (ad_env a) d' (ad_path a) (ad_audit a) (ad_restart a),
                              RError 500 (MNotPersisted e) "")
                  | Ok _ =>
                      (mkAdmin (ad_verifier a) (ad_env a) d' (ad_path a)
                         (ad_audit a ++ [AConfigChange (cl_sub claims) (hr_Remote r) (sort_Strings changed) (sort_Strings (Reset req))])
                         (ad_restart a),
                       RPut (Z.of_nat (length changed + length (Reset req))) true)
                  end
              end
          end
      end
  end.

(** ** Restart *)

(** The goroutine's non-blocking send. *)
Definition signal_restart (a : admin R) : admin R :=
  match ad_restart a with
  | Some _ => mkAdmin (ad_verifier a) (ad_env a) (ad_disk a) (ad_path a) (ad_audit a) (Some true)
  | None => a
  end.

(** [restartHandler]: the state when the response is sent, the response, and
    whether the signalling goroutine was started. *)
Definition restartHandler (a : admin R) (r : http_request) : admin R * admin_response * bool :=
  if negb (String.eqb (hr_Method r) "POST") then (a, RMethodNotAllowed "POST", false)
  else match authConfigRequest a r true with
  | Err resp => (a, resp, false)
  | Ok claims =>
      match ad_restart a with
      | None => (a, RError 503 MNoRestart "", false)
      | Some _ => (mkAdmin (ad_verifier a) (ad_env a) (ad_disk a) (ad_path a)
                     (ad_audit a ++ [ARestartRequested (cl_sub claims) (hr_Remote r)]) (ad_restart a),
                   RRestarting, true)
      end
  end.

(** [configHandler] *)
Definition configHandler (flt : os_faults) (a : admin R) (r : http_request) (body : option configPutRequest) :
    admin R * admin_response :=
  if String.eqb (hr_Method r) "GET" then (a, handleConfigGet flt a r)
  else if String.eqb (hr_Method r) "PUT" then handleConfigPut flt a r body
  else (a, RMethodNotAllowed "GET, PUT").
End handlers.
