(* ===== verification/ConfigApiSpec.v ===== *)
(** * What the settings API promises

    The override file is replaced atomically; a PUT applies as a whole or not
    at all; after a restart the configuration shows exactly the changes that
    the environment does not pin; a GET tells nothing about a secret but whether
    it is set. *)

From stdpp Require Import sorting.
From S2P Require Import Prelude GoString GoConv Event Utf8 GoNum Registry Config ConfigSpec Auth ConfigApi.

(** The table is compared, never unfolded. *)
#[local] Opaque Lookup Registry Validate.

(** ** The override file *)

(** The file a successful write leaves. *)
Definition override_file `{JsonMap} (ov : gmap string string) : ofile := mkFile (json_marshal ov) 384.

Lemma delete_temp (d : disk) tmp f : d !! tmp = None -> delete tmp (<[tmp := f]> d) = d.
Proof. intros. by rewrite delete_insert_eq, delete_id. Qed.

Lemma delete_temp2 (d : disk) tmp f g : d !! tmp = None -> delete tmp (<[tmp := f]> (<[tmp := g]> d)) = d.
Proof. intros. by rewrite insert_insert_eq, delete_temp. Qed.

(** the override file is replaced atomically.  Whatever system call fails,
    in every state the disk goes through the override file is either what it was
    or the complete new file with mode 0600; a write that reports an error leaves
    the disk exactly as it found it (no temporary file, no partial content), and
    one that succeeds changes the override file and nothing else. *)
Theorem override_write_is_atomic `{JsonMap} (flt : os_faults) (d : disk) (path : string) (ov : gmap string string) :
  temp_name flt <> path -> d !! temp_name flt = None ->
  let '(ds, r) := WriteOverride flt d path ov in
  (forall d', d' ∈ ds -> d' !! path = d !! path \/ d' !! path = Some (override_file ov)) /\
  last ds = Some (match r with Ok _ => <[path := override_file ov]> d | Err _ => d end).
Proof.
  intros Hne Hfresh. unfold WriteOverride.
  assert (forall f, (<[temp_name flt := f]> d) !! path = d !! path) as H1 by (intros; by rewrite lookup_insert_ne).
  assert (forall f g, (<[temp_name flt := f]> (<[temp_name flt := g]> d)) !! path = d !! path) as H2
    by (intros; by rewrite !lookup_insert_ne).
  repeat case_match; simplify_eq; simpl; rewrite ?delete_temp2, ?delete_temp by done; (split; [|try done]);
    try (intros d' Hd'; rewrite !elem_of_cons, elem_of_nil in Hd';
         repeat destruct Hd' as [->|Hd']; try done; rewrite ?H1, ?H2; by left).
  all: rewrite ?(delete_id (<[path := _]> d)) by (by rewrite lookup_insert_ne).
  2: done.
  intros d' Hd'. rewrite !elem_of_cons, elem_of_nil in Hd'.
  destruct Hd' as [->|[->|[->|[->|[]]]]]; rewrite ?H1, ?H2, ?lookup_insert_eq; auto.
Qed.

(** ** Layering *)

(** What the environment and an override map give a variable. *)
Definition layered (env : environ) (ov : gmap string string) (k : string) : option string :=
  match env !! k with
  | Some v => Some v
  | None => match ov !! k with Some v => if setenv_ok k v then Some v else None | None => None end
  end.

Lemma applyOverride_list env l k :
  NoDup (fst <$> l) -> applyOverride env l !! k = layered env (list_to_map l) k.
Proof.
  revert env. induction l as [|[k0 v0] l IH]; intros env Hnd; cbn [applyOverride foldl].
  { unfold layered. simpl. rewrite lookup_empty. by destruct (env !! k). }
  apply NoDup_cons in Hnd as [Hk0 Hnd]. fold (applyOverride (apply_one env (k0, v0)) l). rewrite IH by done.
  unfold layered, apply_one, LookupEnv, Setenv. simpl. destruct (decide (k = k0)) as [->|Hk].
  - apply (not_elem_of_list_to_map (M:=gmap string)) in Hk0. simpl in Hk0. rewrite lookup_insert_eq, Hk0.
    destruct (env !! k0) eqn:E; [by rewrite E|]. destruct (setenv_ok k0 v0); [by rewrite lookup_insert_eq|by rewrite E].
  - rewrite (lookup_insert_ne (list_to_map l)) by done.
    destruct (env !! k0); [done|]. destruct (setenv_ok k0 v0); [by rewrite lookup_insert_ne|done].
Qed.

(** The order in which the map is iterated does not matter. *)
Lemma applyOverride_lookup env ov k : applyOverride env (map_to_list ov) !! k = layered env ov k.
Proof. rewrite applyOverride_list by apply NoDup_fst_map_to_list. by rewrite list_to_map_to_list. Qed.

(** ** Merging a request *)

(** An entry that the changes loop leaves alone: an empty secret. *)
Definition change_skipped (kv : string * string) : bool :=
  match Lookup kv.1 with Some def => Secret def && String.eqb kv.2 "" | None => false end.

Definition effective (l : list (string * string)) : list (string * string) :=
  filter (fun kv => change_skipped kv = false) l.

Definition writable (k : string) : Prop := exists def, Lookup k = Some def /\ ReadOnly def = false.

Lemma writable_intro k def : Lookup k = Some def -> ReadOnly def = false -> writable k.
Proof. intros H1 H2. exists def. exact (conj H1 H2). Qed.

Definition change_ok (kv : string * string) : Prop :=
  writable kv.1 /\
  (change_skipped kv = false ->
   (exists def, Lookup kv.1 = Some def /\ Validate def kv.2 = Ok tt) /\
   (kv.1 = "NOMADDEV_JWT_SECRET" -> exists b, loadSecret kv.2 = Ok b)).

(** The override map after a request: its changes over the old map less its resets. *)
Definition put_target (old : gmap string string) (req : configPutRequest) : gmap string string :=
  list_to_map (effective (Changes req)) ∪ filter (fun kv => kv.1 ∉ Reset req) old.

Lemma apply_resets_Ok merged l merged' :
  apply_resets merged l = Ok merged' -> merged' = filter (fun kv => kv.1 ∉ l) merged /\ Forall writable l.
Proof.
  revert merged. induction l as [|k l IH]; intros merged; simpl.
  - intros [= <-]. split; [|done]. symmetry. apply map_filter_id. intros k v _ ?%elem_of_nil. done.
  - destruct (Lookup k) as [def|] eqn:E; [|done]. destruct (ReadOnly def) eqn:Er; [done|].
    intros [-> Hl]%IH. split; [|apply Forall_cons; split; [by eapply writable_intro|exact Hl]].
    apply map_eq. intros k'. apply option_eq. intros v. rewrite !map_lookup_filter_Some, lookup_delete_Some, not_elem_of_cons.
    clear. naive_solver.
Qed.


Lemma apply_changes_Ok l merged changed merged' changed' :
  NoDup (fst <$> l) -> apply_changes merged changed l = Ok (merged', changed') ->
  merged' = list_to_map (effective l) ∪ merged /\ changed' = changed ++ (fst <$> effective l) /\ Forall change_ok l.
Proof.
  revert merged changed. induction l as [|[k v] l IH]; intros merged changed Hnd; simpl.
  { intros [= <- <-]. rewrite app_nil_r. by rewrite (left_id_L ∅ (∪)). }
  apply NoDup_cons in Hnd as [Hk Hnd]. destruct (Lookup k) as [def|] eqn:E; [|done].
  destruct (ReadOnly def) eqn:Er; [done|]. unfold effective. rewrite filter_cons.
  assert (change_skipped (k, v) = Secret def && String.eqb v "") as Hskip by (unfold change_skipped; simpl; by rewrite E).
  destruct (Secret def && String.eqb v "") eqn:Es.
  - rewrite decide_False by (rewrite Hskip; done). intros (-> & -> & Hl)%IH; [|done].
    split_and!; [done|done|]. apply Forall_cons; split; [|exact Hl]. split; [by eapply writable_intro|]. intros Hf. rewrite Hskip in Hf. discriminate Hf.
  - rewrite decide_True by done. destruct (Validate def v) as [[]|] eqn:Ev; [|done].
    destruct (if String.eqb k _ then _ else _) as [[]|] eqn:Ej; [|done]. intros (-> & -> & Hl)%IH; [|done].
    split_and!.
    + fold (effective l). cbn [list_to_map foldr]. rewrite <-insert_union_r, insert_union_l; [done|].
      apply not_elem_of_list_to_map. intros (kv & -> & Hin)%list_elem_of_fmap. apply Hk. apply list_elem_of_fmap.
      exists kv. split; [done|]. by apply list_elem_of_filter in Hin as [_ ?].
    + by rewrite <-app_assoc.
    + apply Forall_cons; split; [|exact Hl]. split; [by eapply writable_intro|]. intros _. split; [exists def; exact (conj E Ev)|].
      simpl. intros ->. rewrite String.eqb_refl in Ej. unfold ValidateJWTSecret in Ej. destruct (loadSecret v); [eauto|done].
Qed.

(** ** Requests *)

Section api.
Context {R : Type} `{RevocationList R} `{JsonMap}.
Variable ParseWithClaims : string -> string -> option Claims.

(** The caller of a request: a token that verifies and carries the scope. *)
Definition authorised (a : admin R) (r : http_request) (write : bool) (c : Claims) : Prop :=
  ParseCtx ParseWithClaims (ad_verifier a) (extractAccessToken (hr_Authorization r)) = Ok c /\
  HasConfigScope (cl_scopes c) write = true.

Lemma authConfigRequest_spec (a : admin R) r write :
  match authConfigRequest ParseWithClaims a r write with
  | Ok c => authorised a r write c
  | Err resp => exists code msg, resp = RError code msg ""
  end.
Proof.
  unfold authConfigRequest, authorised. destruct (String.eqb _ ""); [by eexists _, _|].
  destruct (ParseCtx _ _ _) as [c|e]; [|by eexists _, _]. destruct (HasConfigScope _ _) eqn:E; [done|by eexists _, _].
Qed.

Lemma merge_request_Ok (a : admin R) old req merged changed :
  NoDup (fst <$> Changes req) -> merge_request a old req = Ok (merged, changed) ->
  merged = put_target old req /\ changed = fst <$> effective (Changes req) /\
  Forall writable (Reset req) /\ Forall change_ok (Changes req) /\
  validateConfigCrossFields (ad_env a) merged = true.
Proof.
  intros Hnd. unfold merge_request. destruct (apply_resets old (Reset req)) as [m1|] eqn:E1; [|done].
  apply apply_resets_Ok in E1 as [-> Hr]. cbn [mbind result_bind].
  destruct (apply_changes _ [] (Changes req)) as [[m2 ch]|] eqn:E2; [|done]. apply apply_changes_Ok in E2 as (-> & -> & Hc); [|done].
  cbn [mbind result_bind]. fold (put_target old req).
  destruct (validateConfigCrossFields (ad_env a) (put_target old req)) eqn:Ex; [|done]. intros [= <- <-].
  exact (conj eq_refl (conj eq_refl (conj Hr (conj Hc Ex)))).
Qed.

Definition is_error (resp : admin_response) : Prop := exists code msg k, resp = RError code msg k.

Lemma apply_resets_Err merged l resp : apply_resets merged l = Err resp -> is_error resp.
Proof.
  revert merged. induction l as [|k l IH]; intros merged; simpl; [done|].
  destruct (Lookup k) as [def|]; [|intros [= <-]; by eexists _, _, _].
  destruct (ReadOnly def); [intros [= <-]; by eexists _, _, _|apply IH].
Qed.

Lemma apply_changes_Err merged changed l resp : apply_changes merged changed l = Err resp -> is_error resp.
Proof.
  revert merged changed. induction l as [|[k v] l IH]; intros merged changed; simpl; [done|].
  destruct (Lookup k) as [def|]; [|intros [= <-]; by eexists _, _, _].
  destruct (ReadOnly def); [intros [= <-]; by eexists _, _, _|].
  destruct (Secret def && _); [apply IH|].
  destruct (Validate def v); [|intros [= <-]; by eexists _, _, _].
  destruct (if String.eqb k _ then _ else _); [apply IH|intros [= <-]; by eexists _, _, _].
Qed.

Lemma merge_request_Err (a : admin R) old req resp : merge_request a old req = Err resp -> is_error resp.
Proof.
  unfold merge_request. destruct (apply_resets old (Reset req)) as [m1|] eqn:E1; [|intros [= <-]; by apply apply_resets_Err in E1].
  cbn [mbind result_bind]. destruct (apply_changes _ [] (Changes req)) as [[m2 ch]|] eqn:E2; [|intros [= <-]; by apply apply_changes_Err in E2].
  cbn [mbind result_bind]. destruct (validateConfigCrossFields _ _); [done|]. intros [= <-]. by eexists _, _, _.
Qed.

(** The state a successful PUT leaves. *)
Definition after_put (a : admin R) (r : http_request) (c : Claims) (old : gmap string string) (req : configPutRequest) : admin R :=
  mkAdmin (ad_verifier a) (ad_env a) (<[ad_path a := override_file (put_target old req)]> (ad_disk a)) (ad_path a)
    (ad_audit a ++ [AConfigChange (cl_sub c) (hr_Remote r) (sort_Strings (fst <$> effective (Changes req))) (sort_Strings (Reset req))])
    (ad_restart a).

(** Everything that must hold of a PUT that changed something. *)
Definition put_accepted (flt : os_faults) (a : admin R) (r : http_request) (c : Claims)
    (old : gmap string string) (req : configPutRequest) : Prop :=
  authorised a r true c /\ LoadOverride flt (ad_disk a) (ad_path a) = Ok old /\
  Forall writable (Reset req) /\ Forall change_ok (Changes req) /\
  validateConfigCrossFields (ad_env a) (put_target old req) = true.

Lemma WriteOverride_last flt d path ov :
  temp_name flt <> path -> d !! temp_name flt = None ->
  exists ds r, WriteOverride flt d path ov = (ds, r) /\
    last ds = Some (match r with Ok _ => <[path := override_file ov]> d | Err _ => d end).
Proof.
  intros Hne Hfresh. unfold WriteOverride. repeat case_match; eexists _, _; (split; [done|]); simpl; try done;
    rewrite ?delete_temp2, ?delete_temp by done; try done. rewrite delete_id by (by rewrite lookup_insert_ne). done.
Qed.

Lemma handleConfigPut_cases flt (a : admin R) r body a' resp :
  temp_name flt <> ad_path a -> ad_disk a !! temp_name flt = None ->
  (forall req, body = Some req -> NoDup (fst <$> Changes req)) ->
  handleConfigPut ParseWithClaims flt a r body = (a', resp) ->
  (a' = a /\ is_error resp) \/
  exists c old req, body = Some req /\ put_accepted flt a r c old req /\ a' = after_put a r c old req /\
    resp = RPut (Z.of_nat (length (effective (Changes req)) + length (Reset req))) true.
Proof.
  intros Hne Hfresh Hnd. unfold handleConfigPut. pose proof (authConfigRequest_spec a r true) as Hauth.
  destruct (authConfigRequest ParseWithClaims a r true) as [c|e].
  2: { intros [= <- <-]. left. destruct Hauth as (code & msg & ->). split; [done|by eexists _, _, _]. }
  destruct body as [req|]; [|intros [= <- <-]; left; split; [done|by eexists _, _, _]].
  destruct (_ && _); [intros [= <- <-]; left; split; [done|by eexists _, _, _]|].
  destruct (LoadOverride flt _ _) as [old|e] eqn:El; [|intros [= <- <-]; left; split; [done|by eexists _, _, _]].
  destruct (merge_request a old req) as [[merged changed]|e] eqn:Em.
  2: { intros [= <- <-]. left. split; [done|]. by apply merge_request_Err in Em. }
  apply merge_request_Ok in Em as (-> & -> & Hr & Hc & Hx); [|by apply Hnd].
  destruct (WriteOverride_last flt (ad_disk a) (ad_path a) (put_target old req)) as (ds & wr & -> & ->); [done..|].
  cbn [default from_option]. destruct wr as [[]|e].
  - intros [= <- <-]. right. exists c, old, req. rewrite length_fmap.
    exact (conj eq_refl (conj (conj Hauth (conj El (conj Hr (conj Hc Hx)))) (conj eq_refl eq_refl))).
  - intros [= <- <-]. left. split; [by destruct a|by eexists _, _, _].
Qed.
End api.

(** C27: a settings update is authorised and all-or-nothing.  A PUT on
    /admin/config either reports an error and leaves the server, its disk and
    its audit log exactly as they were, or it answers 200 and then: the token
    verified and carries the config-write scope; every reset and every change
    names a registered setting that is not read-only, every applied value passes
    its validation (and the JWT secret decodes to 32 bytes or more); the override
    file holds the request's changes over the old overrides less the resets, and
    nothing else on the disk changed; and one audit event names the changed keys. *)
Theorem config_put_all_or_nothing {R : Type} `{RevocationList R} `{JsonMap}
    (parse : string -> string -> option Claims) (flt : os_faults) (a a' : admin R) (r : http_request)
    (body : option configPutRequest) (resp : admin_response) :
  temp_name flt <> ad_path a -> ad_disk a !! temp_name flt = None ->
  (forall req, body = Some req -> NoDup (fst <$> Changes req)) ->
  handleConfigPut parse flt a r body = (a', resp) ->
  (a' = a /\ is_error resp) \/
  exists c old req, body = Some req /\ put_accepted parse flt a r c old req /\ a' = after_put a r c old req /\
    resp = RPut (Z.of_nat (length (effective (Changes req)) + length (Reset req))) true.
Proof. apply handleConfigPut_cases. Qed.

(** ** Across a restart *)

Section restart.
Context `{JsonMapLaws}.

Lemma LoadOverride_boot flt flt0 d path ov :
  read_denied flt0 = false -> LoadOverride flt d path = Ok ov -> LoadOverride flt0 d path = Ok ov.
Proof.
  intros Hr. unfold LoadOverride. destruct (d !! path); [|done]. rewrite Hr. by destruct (read_denied flt).
Qed.

Lemma LoadOverride_valid flt d path ov : LoadOverride flt d path = Ok ov -> valid_map ov.
Proof.
  unfold LoadOverride. destruct (d !! path); [|intros [= <-]; apply map_Forall_empty].
  destruct (read_denied flt); [done|]. destruct (String.eqb _ ""); [intros [= <-]; apply map_Forall_empty|].
  destruct (json_unmarshal _) eqn:E; [|done]. intros [= <-]. by apply json_decodes_valid in E.
Qed.

Lemma LoadOverride_written flt d path ov :
  read_denied flt = false -> valid_map ov -> LoadOverride flt (<[path := override_file ov]> d) path = Ok ov.
Proof.
  intros Hr Hv. unfold LoadOverride. rewrite lookup_insert_eq, Hr. simpl.
  destruct (String.eqb_spec (json_marshal ov) "") as [E|_]; [by apply json_nonempty in E|]. by rewrite json_roundtrip.
Qed.

Lemma put_target_valid old req : valid_map old -> Forall valid_pair (Changes req) -> valid_map (put_target old req).
Proof.
  intros Ho Hc k v [Hk|[_ Hk]]%lookup_union_Some_raw.
  - apply elem_of_list_to_map_2, list_elem_of_filter in Hk as [_ Hk]. rewrite Forall_forall in Hc. by apply Hc.
  - apply map_lookup_filter_Some in Hk as [Hk _]. by apply Ho.
Qed.

Lemma put_target_lookup old req k :
  put_target old req !! k =
  match (list_to_map (effective (Changes req)) : gmap string string) !! k with
  | Some v => Some v
  | None => if decide (k ∈ Reset req) then None else old !! k
  end.
Proof.
  unfold put_target. rewrite lookup_union. destruct (list_to_map _ !! k) as [v|] eqn:E.
  - by rewrite union_Some_l.
  - rewrite (left_id_L None (∪)). case_decide as Hk.
    + apply map_lookup_filter_None. right. intros v _ Hn. done.
    + destruct (old !! k) as [v|] eqn:Eo; [by apply map_lookup_filter_Some|]. apply map_lookup_filter_None. by left.
Qed.

(** The environment [Load] works on, when the override file reads as [ov]. *)
Lemma Load_env flt d env ov :
  LoadOverride flt d (OverridePath env) = Ok ov ->
  exists e, (Load flt d env).1 = e /\ forall k, e !! k = layered env ov k.
Proof. intros Hl. unfold Load. rewrite Hl. eexists. split; [done|]. intros k. apply applyOverride_lookup. Qed.

Lemma Load_succeeds flt d env e secret prev :
  (Load flt d env).1 = e -> loadSecret (Getenv e "NOMADDEV_JWT_SECRET") = Ok secret ->
  loadPrevSecrets (Getenv e "NOMADDEV_JWT_PREV_SECRETS") = Ok prev -> Load flt d env = (e, Ok (Load_config e secret prev)).
Proof. unfold Load. cbn [fst]. intros -> -> ->. done. Qed.

Lemma Load_config_field e secret prev s :
  s ∈ Registry -> EnvVar s ∉ special_settings ->
  config_field (Load_config e secret prev) (EnvVar s) = setting_value s (EffectiveValue e s).
Proof.
  intros Hs Hn. pose proof (registry_agrees e secret prev) as Hall. rewrite Forall_forall in Hall.
  by destruct (Hall s Hs).
Qed.

Definition or_default_str (s : Setting) (v : string) : string := if String.eqb v "" then Default s else v.

Lemma EffectiveValue_lookup e s : EffectiveValue e s = or_default_str s (default "" (e !! EnvVar s)).
Proof. done. Qed.
End restart.

(** A variable of the next boot, by the three sources of its value. *)
Lemma layered_put env0 old req k :
  Forall (fun kv => setenv_ok kv.1 kv.2 = true) (Changes req) ->
  layered env0 (put_target old req) k =
  match env0 !! k with
  | Some v => Some v
  | None => match (list_to_map (effective (Changes req)) : gmap string string) !! k with
            | Some v => Some v
            | None => if decide (k ∈ Reset req) then None else layered env0 old k
            end
  end.
Proof.
  intros Hok. unfold layered. destruct (env0 !! k) as [v|]; [done|]. rewrite put_target_lookup.
  destruct (list_to_map _ !! k) as [v|] eqn:E; [|by case_decide].
  apply elem_of_list_to_map_2, list_elem_of_filter in E as [_ E]. rewrite Forall_forall in Hok.
  specialize (Hok _ E). simpl in Hok. by rewrite Hok.
Qed.

(** The secret the next boot reads decodes. *)
Lemma next_secret_ok env0 old req e secret :
  Forall (fun kv => setenv_ok kv.1 kv.2 = true) (Changes req) -> Forall change_ok (Changes req) ->
  "NOMADDEV_JWT_SECRET" ∉ Reset req ->
  loadSecret (default "" (layered env0 old "NOMADDEV_JWT_SECRET")) = Ok secret ->
  e !! "NOMADDEV_JWT_SECRET" = layered env0 (put_target old req) "NOMADDEV_JWT_SECRET" ->
  exists secret', loadSecret (Getenv e "NOMADDEV_JWT_SECRET") = Ok secret'.
Proof.
  intros Hok Hc Hn Hs He. unfold Getenv. rewrite He, layered_put by done.
  destruct (env0 !! _) as [v|] eqn:E0; [unfold layered in Hs; rewrite E0 in Hs; eauto|].
  destruct (list_to_map _ !! _) as [v|] eqn:E; [|rewrite decide_False by done; eauto].
  apply elem_of_list_to_map_2, list_elem_of_filter in E as [Hsk E]. rewrite Forall_forall in Hc.
  destruct (Hc _ E) as [_ Hv]. destruct (Hv Hsk) as [_ Hj]. by apply Hj.
Qed.

Lemma next_prev_ok env0 old req e prev :
  Forall (fun kv => setenv_ok kv.1 kv.2 = true) (Changes req) ->
  "NOMADDEV_JWT_PREV_SECRETS" ∉ fst <$> effective (Changes req) ->
  loadPrevSecrets (default "" (layered env0 old "NOMADDEV_JWT_PREV_SECRETS")) = Ok prev ->
  e !! "NOMADDEV_JWT_PREV_SECRETS" = layered env0 (put_target old req) "NOMADDEV_JWT_PREV_SECRETS" ->
  exists prev', loadPrevSecrets (Getenv e "NOMADDEV_JWT_PREV_SECRETS") = Ok prev'.
Proof.
  intros Hok Hn Hs He. unfold Getenv. rewrite He, layered_put by done.
  destruct (env0 !! _) as [v|] eqn:E0; [unfold layered in Hs; rewrite E0 in Hs; eauto|].
  apply (not_elem_of_list_to_map (M:=gmap string)) in Hn. rewrite Hn.
  case_decide; [by exists []|eauto].
Qed.

(** C28: a settings update takes effect on the next start.  Suppose a PUT was
    answered 200, it names each setting once, no value it sent has a NUL byte
    (the server answers 200 to such a value too, and it never takes effect) or is
    invalid UTF-8, the temporary file's name was free, and the process is started
    again from the environment [env0] from which it would start with the old
    override file, and which names the same override file that the server wrote,
    readable then.  Then [Load] succeeds again, unless the request replaced
    NOMADDEV_JWT_PREV_SECRETS (which is not validated) or reset
    NOMADDEV_JWT_SECRET, and every registered setting but the three with readers
    of their own has: its old value where [env0] pins it; else the value the
    request gave it (the default for an empty string); else its default when the
    request reset it; else its old value. *)
Theorem config_put_survives_restart {R : Type} `{RevocationList R} `{JsonMapLaws}
    (parse : string -> string -> option Claims) (flt flt0 : os_faults) (a a' : admin R) (r : http_request)
    (req : configPutRequest) (n : Z) (env0 e0 : environ) (cfg0 : Config) :
  temp_name flt <> ad_path a -> ad_disk a !! temp_name flt = None ->
  NoDup (fst <$> Changes req) -> Forall valid_pair (Changes req) ->
  Forall (fun kv => setenv_ok kv.1 kv.2 = true) (Changes req) ->
  handleConfigPut parse flt a r (Some req) = (a', RPut n true) ->
  "NOMADDEV_JWT_SECRET" ∉ Reset req -> "NOMADDEV_JWT_PREV_SECRETS" ∉ fst <$> effective (Changes req) ->
  OverridePath env0 = ad_path a -> read_denied flt0 = false ->
  Load flt0 (ad_disk a) env0 = (e0, Ok cfg0) ->
  exists e1 cfg1, Load flt0 (ad_disk a') env0 = (e1, Ok cfg1) /\
    forall s, s ∈ Registry -> EnvVar s ∉ special_settings ->
      config_field cfg1 (EnvVar s) =
      match env0 !! EnvVar s with
      | Some _ => config_field cfg0 (EnvVar s)
      | None => match (list_to_map (effective (Changes req)) : gmap string string) !! EnvVar s with
                | Some v => setting_value s (or_default_str s v)
                | None => if decide (EnvVar s ∈ Reset req) then setting_value s (Default s)
                          else config_field cfg0 (EnvVar s)
                end
      end.
Proof.
  intros Hne Hfresh Hnd Hval Hok Hput Hns Hnp Hpath Hread Hload.
  destruct (handleConfigPut_cases parse flt a r (Some req) a' (RPut n true) Hne Hfresh) as
    [[_ (? & ? & ? & [=])]|(c & old & req' & [= <-] & Hacc & -> & _)]; [by intros ? [= <-]|done|].
  destruct Hacc as (_ & Hold & _ & Hc & _).
  pose proof (LoadOverride_boot _ flt0 _ _ _ Hread Hold) as Hold0. rewrite <-Hpath in Hold0.
  destruct (Load_env flt0 (ad_disk a) env0 old Hold0) as (e0' & He0 & Hlk0). rewrite Hload in He0. simpl in He0. subst e0'.
  apply Load_Ok in Hload as (secret & prev & Hsec & Hprev & ->).
  assert (LoadOverride flt0 (ad_disk (after_put a r c old req)) (OverridePath env0) = Ok (put_target old req)) as Hnew.
  { rewrite Hpath. apply LoadOverride_written; [done|]. apply put_target_valid; [|done]. by eapply LoadOverride_valid. }
  destruct (Load_env flt0 _ env0 _ Hnew) as (e1 & He1 & Hlk1).
  unfold Getenv in Hsec, Hprev. rewrite Hlk0 in Hsec, Hprev.
  destruct (next_secret_ok env0 old req e1 secret) as [secret' Hsec']; [done..|].
  destruct (next_prev_ok env0 old req e1 prev) as [prev' Hprev']; [done..|].
  exists e1, (Load_config e1 secret' prev'). split; [by apply Load_succeeds|].
  intros s Hs Hn. rewrite !Load_config_field by done. rewrite !EffectiveValue_lookup, Hlk0, Hlk1, layered_put by done.
  destruct (env0 !! EnvVar s) as [v|] eqn:E0; [unfold layered; by rewrite E0|].
  destruct (list_to_map _ !! EnvVar s); [done|]. by case_decide.
Qed.

(** ** What a GET tells *)

(** Two environments a reader of the settings may not distinguish: they agree on
    every setting that is not secret, and on which secrets are set. *)
Definition same_public_env (e1 e2 : environ) : Prop :=
  forall s, s ∈ Registry ->
    if Secret s then String.eqb (EffectiveValue e1 s) "" = String.eqb (EffectiveValue e2 s) ""
    else EffectiveValue e1 s = EffectiveValue e2 s.

(** C29: secrets are write-only.  Two servers whose environments differ only in
    the values of secrets that are set in both, and whose override files have
    the same keys, answer every GET on /admin/config with the same bytes: no
    secret value, from the environment or from the override file, reaches the
    response. *)
Theorem config_get_hides_secrets {R : Type} `{RevocationList R} `{JsonMap}
    (parse : string -> string -> option Claims) (flt : os_faults) (a b : admin R) (r : http_request)
    (ova ovb : gmap string string) :
  ad_verifier a = ad_verifier b ->
  LoadOverride flt (ad_disk a) (ad_path a) = Ok ova -> LoadOverride flt (ad_disk b) (ad_path b) = Ok ovb ->
  dom ova = dom ovb -> same_public_env (ad_env a) (ad_env b) ->
  handleConfigGet parse flt a r = handleConfigGet parse flt b r.
Proof.
  intros Hv Ha Hb Hdom Henv. unfold handleConfigGet, authConfigRequest. rewrite Hv, Ha, Hb.
  destruct (String.eqb (extractAccessToken _) ""); [done|]. destruct (ParseCtx _ _ _) as [c|]; [|done].
  destruct (negb _); [done|]. f_equal. apply list_fmap_ext. intros i s Hs%list_elem_of_lookup_2.
  specialize (Henv s Hs). unfold config_setting.
  assert ((match ova !! EnvVar s with Some _ => true | None => false end) =
          (match ovb !! EnvVar s with Some _ => true | None => false end)) as ->.
  { assert (is_Some (ova !! EnvVar s) <-> is_Some (ovb !! EnvVar s)) as Hiff by (by rewrite <-!elem_of_dom, Hdom).
    destruct (ova !! EnvVar s), (ovb !! EnvVar s); try done; exfalso;
      [destruct (proj1 Hiff ltac:(by eexists)) as [? [=]]|destruct (proj2 Hiff ltac:(by eexists)) as [? [=]]]. }
  destruct (Secret s); by rewrite Henv.
Qed.

(** ** Divergences *)

(** The token kind is not checked: a refresh token with the scope is accepted
    on /admin/config. *)
Lemma config_api_accepts_refresh_token {R : Type} `{RevocationList R}
    (parse : string -> string -> option Claims) (a : admin R) (r : http_request) (c : Claims) (write : bool) :
  extractAccessToken (hr_Authorization r) <> "" ->
  ParseRefresh (fun t => String.eqb t "") parse (ad_verifier a) (extractAccessToken (hr_Authorization r)) = Ok c ->
  HasConfigScope (cl_scopes c) write = true ->
  cl_kind c = KindRefresh /\ authConfigRequest parse a r write = Ok c.
Proof.
  intros Ht Hp Hs. unfold ParseRefresh, Parse in Hp. unfold authConfigRequest, ParseCtx.
  destruct (String.eqb_spec (extractAccessToken (hr_Authorization r)) ""); [done|].
  destruct (parseCtx _ _ _ _) as [c'|]; [|done]. destruct (negb _) eqn:E; [done|]. simplify_eq. rewrite Hs.
  apply negb_false_iff, String.eqb_eq in E. done.
Qed.

(** The previous secrets are not validated: a value the editor accepts stops
    the next start. *)
Lemma bad_prev_secrets_accepted :
  apply_changes ∅ [] [("NOMADDEV_JWT_PREV_SECRETS", "short")] =
    Ok ({["NOMADDEV_JWT_PREV_SECRETS" := "short"]}, ["NOMADDEV_JWT_PREV_SECRETS"]) /\
  loadPrevSecrets "short" = Err (ErrPrevSecret 0 (ErrShortSecret 5)).
Proof. split; vm_compute; reflexivity. Qed.

(** The cross-field rule looks at the override first, [applyOverride] at the
    environment first: with a pinned access TTL the rule accepts a pair that the
    next start does not run with. *)
Lemma cross_field_uses_other_order :
  let env := {["NOMADDEV_AUTH_ACCESS_TTL" := "10h"]} : environ in
  let ov := <["NOMADDEV_AUTH_ACCESS_TTL" := "1h"]> {["NOMADDEV_AUTH_REFRESH_TTL" := "2h"]} in
  validateConfigCrossFields env ov = true /\
  layered env ov "NOMADDEV_AUTH_ACCESS_TTL" = Some "10h" /\ layered env ov "NOMADDEV_AUTH_REFRESH_TTL" = Some "2h".
Proof. vm_compute. done. Qed.

(** A float setting accepts NaN, whatever its bounds. *)
Lemma nan_is_in_bounds (s : Setting) : SType s = TypeFloat -> Validate s "NaN" = Ok tt.
Proof.
  intros Hs. assert (ParseFloat "NaN" = Some FNaN) as E by (vm_compute; reflexivity). with_strategy transparent [Validate] unfold Validate.
  rewrite Hs, E. apply checkBounds_Ok. split; intros [] _; done.
Qed.

(** The override file can move itself: a key for its own path is applied like
    any other, and the editor then writes elsewhere than [Load] reads. *)
Lemma override_file_moves_itself `{JsonMap} flt d env ov :
  env !! "NOMADDEV_CONFIG_OVERRIDE_PATH" = None ->
  LoadOverride flt d (OverridePath env) = Ok ov -> ov !! "NOMADDEV_CONFIG_OVERRIDE_PATH" = Some "/tmp/other.json" ->
  OverridePath env = defaultOverridePath /\ OverridePath (Load flt d env).1 = "/tmp/other.json".
Proof.
  intros He Hl Hov. split; [unfold OverridePath, Getenv; by rewrite He|].
  destruct (Load_env flt d env ov Hl) as (e & -> & Hk). unfold OverridePath, Getenv. rewrite Hk. unfold layered. by rewrite He, Hov.
Qed.

(** ** A concrete server *)

#[local] Existing Instance toy_json.
#[local] Existing Instance toy_json_laws.

Definition demo_parse (k t : string) : option Claims :=
  if String.eqb t "tok" then Some (mkClaims "alice" "s1" ["config:write"] KindAccess Issuer 0 0 60 "j1") else None.
Definition demo_admin : admin MemoryRevocationList :=
  mkAdmin (mkVerifier ["k"] (mkMemRev ∅)) demo_boot ∅ defaultOverridePath [] (Some false).
Definition demo_put : http_request := mkHttp "PUT" "Bearer tok" "10.0.0.1".
Definition demo_req : configPutRequest := mkPut [("NOMADDEV_LOG_LEVEL", "debug"); ("NOMADDEV_GITHUB_TOKEN", "")] ["NOMADDEV_SPA_DIR"].
Definition demo_result : admin MemoryRevocationList * admin_response :=
  handleConfigPut demo_parse demo_faults demo_admin demo_put (Some demo_req).

Lemma override_write_is_atomic_witness :
  temp_name demo_faults <> defaultOverridePath /\
  let '(ds, r) := WriteOverride demo_faults ∅ defaultOverridePath ∅ in
  r = Ok tt /\ last ds = Some (<[defaultOverridePath := override_file ∅]> ∅).
Proof.
  split; [done|].
  pose proof (override_write_is_atomic demo_faults ∅ defaultOverridePath ∅ ltac:(done) ltac:(done)) as Hw.
  cbn in Hw |- *. split; [done|]. exact (proj2 Hw).
Defined.

Lemma config_put_all_or_nothing_witness :
  demo_result.2 = RPut 2 true /\
  exists c old, put_accepted demo_parse demo_faults demo_admin demo_put c old demo_req /\
                demo_result.1 = after_put demo_admin demo_put c old demo_req.
Proof.
  assert (demo_result.2 = RPut 2 true) as E by (vm_compute; reflexivity). split; [exact E|].
  destruct (config_put_all_or_nothing demo_parse demo_faults demo_admin demo_result.1 demo_put (Some demo_req) demo_result.2)
    as [[_ (? & ? & ? & Hr)]|(c & old & req & [= <-] & Hacc & Ha & _)].
  - discriminate.
  - reflexivity.
  - intros req [= <-]. apply (bool_decide_eq_true_1 _). vm_compute. reflexivity.
  - apply surjective_pairing.
  - rewrite E in Hr. discriminate.
  - exists c, old. exact (conj Hacc Ha).
Defined.

Lemma config_put_survives_restart_witness :
  exists e1 cfg1, Load demo_faults (ad_disk demo_result.1) demo_boot = (e1, Ok cfg1) /\
    config_field cfg1 "NOMADDEV_LOG_LEVEL" = Some (VLevel LevelDebug).
Proof.
  destruct (config_put_survives_restart demo_parse demo_faults demo_faults demo_admin demo_result.1 demo_put demo_req 2
              demo_boot (Load demo_faults ∅ demo_boot).1 (Load_config (Load demo_faults ∅ demo_boot).1 "0123456789abcdef0123456789abcdef!" []))
    as (e1 & cfg1 & Hl & Hf).
  - discriminate.
  - reflexivity.
  - apply (bool_decide_eq_true_1 _). vm_compute. reflexivity.
  - apply (bool_decide_eq_true_1 _). vm_compute. reflexivity.
  - apply (bool_decide_eq_true_1 _). vm_compute. reflexivity.
  - unfold demo_result. vm_compute. reflexivity.
  - apply (bool_decide_eq_true_1 _). vm_compute. reflexivity.
  - apply (bool_decide_eq_true_1 _). vm_compute. reflexivity.
  - vm_compute. reflexivity.
  - reflexivity.
  - apply Load_succeeds; [reflexivity|vm_compute; reflexivity..].
  - exists e1, cfg1. split; [exact Hl|].
    etransitivity; [apply (Hf demo_level); apply (bool_decide_eq_true_1 _); vm_compute; reflexivity|].
    vm_compute. reflexivity.
Defined.

(** The same server with another JWT secret. *)
Definition other_admin : admin MemoryRevocationList :=
  mkAdmin (mkVerifier ["k"] (mkMemRev ∅)) (<["NOMADDEV_JWT_SECRET" := "fedcba9876543210fedcba9876543210!"]> demo_boot)
    ∅ defaultOverridePath [] (Some false).

Lemma config_get_hides_secrets_witness :
  handleConfigGet demo_parse demo_faults demo_admin demo_put = handleConfigGet demo_parse demo_faults other_admin demo_put.
Proof.
  apply (config_get_hides_secrets demo_parse demo_faults demo_admin other_admin demo_put ∅ ∅).
  - reflexivity.
  - reflexivity.
  - reflexivity.
  - reflexivity.
  - intros s Hs. unfold EffectiveValue. destruct (decide (EnvVar s = "NOMADDEV_JWT_SECRET")) as [E|E].
    + assert (Forall (fun s => EnvVar s = "NOMADDEV_JWT_SECRET" -> Secret s = true) Registry) as Hall
        by (apply (bool_decide_eq_true_1 _); vm_compute; reflexivity).
      rewrite Forall_forall in Hall. rewrite (Hall s Hs E), E. vm_compute. reflexivity.
    + assert (Getenv (ad_env demo_admin) (EnvVar s) = Getenv (ad_env other_admin) (EnvVar s)) as ->.
      { unfold Getenv. simpl. by rewrite lookup_insert_ne. }
      by destruct (Secret s).
Defined.
