(* ===== verification/AuthApi.v ===== *)
(** * Token refresh and revocation over HTTP (internal/wsserver/auth_handlers.go)

    POST /auth/refresh exchanges a refresh token for a new pair and revokes the
    old one; POST /auth/revoke revokes the presented token.  The server's
    revocation list is the verifier's: one list, revoked through one and read
    through the other.  Signing can fail ([sign_fails]) and so can the list;
    claim times are whole seconds, the clock and the fresh ids are arguments. *)

From S2P Require Import Prelude GoString GoConv Event Auth GoNum Registry Config ConfigSpec ConfigApi.

Inductive auth_audit :=
| AAuthRefresh (sub sid remote jti : string)
| AAuthRevoke (sub sid remote jti kind : string).

(** [s.issuer], [s.revoker != nil], the verifier and the audit sink. *)
Record auth_server (R : Type) := mkAuthServer {
  sv_issuer : option IssuerSigner;
  sv_has_revoker : bool;
  sv_verifier : @Verifier R;
  sv_audit : list auth_audit;
}.
Arguments mkAuthServer {R}. Arguments sv_issuer {R}. Arguments sv_has_revoker {R}.
Arguments sv_verifier {R}. Arguments sv_audit {R}.

(** A request: the parsed form's field ([None]: ParseForm failed), and the
    [refresh_token] of a JSON body that decodes. *)
Record auth_request := mkAuthRequest {
  ar_Method : string;
  ar_Authorization : string;
  ar_Remote : string;
  ar_form : option string;
  ar_ContentType : string;
  ar_json : option string;
}.

Record refreshResponse := mkRefreshResponse {
  AccessToken : string;
  RefreshToken : string;
  AccessExpiresIn : Z;
  RefreshExpiresIn : Z;
  TokenType : string;
}.

Inductive auth_response :=
| AHttpError (code : Z) (msg : string)
| ATokens (r : refreshResponse)
| ANoContent.

(** [extractRefreshToken] *)
Definition extractRefreshToken (r : auth_request) : string :=
  let t := extractAccessToken (ar_Authorization r) in
  if negb (String.eqb t "") then t
  else
    let f := match ar_form r with Some v => TrimSpace v | None => "" end in
    if negb (String.eqb f "") then f
    else if HasPrefix (ar_ContentType r) "application/json"
         then match ar_json r with Some v => TrimSpace v | None => "" end
         else "".

Section handlers.
Context {R : Type} `{RevocationList R}.
Variable ParseWithClaims : string -> string -> option Claims.
Variable SignedString : string -> Claims -> string.

#[local] Abbreviation no_token := (fun t => String.eqb t "").

(** [s.revoker.Revoke] on the shared list. *)
Definition revoke_jti (s : auth_server R) (c : Claims) : result string (auth_server R) :=
  match Revoke (revoker (sv_verifier s)) (cl_id c) (Some (cl_expires_at c * second)%Z) with
  | Err e => Err e
  | Ok rev => Ok (mkAuthServer (sv_issuer s) (sv_has_revoker s) (mkVerifier (secrets (sv_verifier s)) rev) (sv_audit s))
  end.

Definition audit (s : auth_server R) (e : auth_audit) : auth_server R :=
  mkAuthServer (sv_issuer s) (sv_has_revoker s) (sv_verifier s) (sv_audit s ++ [e]).

(** [refreshHandler]; [ids] are the ids of the access and the refresh token. *)
Definition refreshHandler (sign_fails : bool) (now : Z) (ids : string * string) (s : auth_server R) (r : auth_request) :
    auth_server R * auth_response :=
  if negb (String.eqb (ar_Method r) "POST") then (s, AHttpError 405 "method not allowed")
  else match sv_issuer s with
  | None => (s, AHttpError 503 "refresh not configured")
  | Some issuer =>
      let token := extractRefreshToken r in
      if String.eqb token "" then (s, AHttpError 401 "missing refresh token")
      else match ParseRefresh no_token ParseWithClaims (sv_verifier s) token with
      | Err _ => (s, AHttpError 401 "invalid refresh token")
      | Ok claims =>
          if sign_fails then (s, AHttpError 500 "internal error")
          else
            let access := SignAccess SignedString issuer now ids.1 (cl_sub claims) (cl_sid claims) (cl_scopes claims) in
            let refresh := SignRefresh SignedString issuer now ids.2 (cl_sub claims) (cl_sid claims) (cl_scopes claims) in
            let s := if sv_has_revoker s && negb (String.eqb (cl_id claims) "")
                     then match revoke_jti s claims with Ok s' => s' | Err _ => s end else s in
            (audit s (AAuthRefresh (cl_sub claims) (cl_sid claims) (ar_Remote r) (cl_id claims)),
             ATokens (mkRefreshResponse access refresh (accessTTL issuer) (refreshTTL issuer) "Bearer"))
      end
  end.

(** [revokeHandler] *)
Definition revokeHandler (s : auth_server R) (r : auth_request) : auth_server R * auth_response :=
  if negb (String.eqb (ar_Method r) "POST") then (s, AHttpError 405 "method not allowed")
  else if negb (sv_has_revoker s) then (s, AHttpError 503 "revocation not configured")
  else
    let token := extractAccessToken (ar_Authorization r) in
    if String.eqb token "" then (s, AHttpError 401 "missing token")
    else match parseCtx no_token ParseWithClaims (sv_verifier s) token with
    | Err ErrRevoked => (s, ANoContent)
    | Err _ => (s, AHttpError 401 "invalid token")
    | Ok claims =>
        if String.eqb (cl_id claims) "" then (s, AHttpError 409 "token has no jti")
        else match revoke_jti s claims with
        | Err _ => (s, AHttpError 500 "internal error")
        | Ok s' => (audit s' (AAuthRevoke (cl_sub claims) (cl_sid claims) (ar_Remote r) (cl_id claims) (cl_kind claims)), ANoContent)
        end
    end.

(** ** Lemmas *)

(** What a successful [revoke_jti] leaves: the same secrets, the same rest of
    the server, and a list that reports the id. *)
Lemma revoke_jti_Ok `{!RevocationLaws R} s s' c : cl_id c <> "" -> revoke_jti s c = Ok s' ->
  secrets (sv_verifier s') = secrets (sv_verifier s) /\ sv_issuer s' = sv_issuer s /\ sv_has_revoker s' = sv_has_revoker s /\
  IsRevoked (revoker (sv_verifier s')) (cl_id c) = Ok true /\
  (forall jti, jti <> cl_id c -> IsRevoked (revoker (sv_verifier s')) jti = IsRevoked (revoker (sv_verifier s)) jti).
Proof.
  intros Hid. unfold revoke_jti. destruct (Revoke _ _ _) as [rev|] eqn:Hr; [|done]. intros [= <-]. simpl.
  split_and!; [done..|by eapply revoke_hit|]. intros jti Hne. by eapply revoke_other.
Qed.

(** A token whose id is revoked parses to [ErrRevoked]. *)
Lemma parse_after_revoke `{!RevocationLaws R} s s' c t :
  cl_id c <> "" -> parseCtx no_token ParseWithClaims (sv_verifier s) t = Ok c -> revoke_jti s c = Ok s' ->
  parseCtx no_token ParseWithClaims (sv_verifier s') t = Err ErrRevoked.
Proof.
  intros Hid Hp Hr. destruct (revoke_jti_Ok _ _ _ Hid Hr) as (Hs & _ & _ & Hr' & _). revert Hp. unfold parseCtx. rewrite Hs.
  destruct (String.eqb t ""); [done|]. destruct (secrets (sv_verifier s)); [done|]. destruct (try_secrets _ _ _) as [c1|]; [|done].
  destruct (String.eqb (cl_sid c1) ""); [done|]. destruct (String.eqb (cl_sub c1) ""); [done|].
  destruct (String.eqb_spec (cl_id c1) ""); simpl; [by intros [= <-]|].
  destruct (IsRevoked (revoker (sv_verifier s)) _) as [[]|]; [done| |done]. intros [= ->]. by rewrite Hr'.
Qed.

Lemma revokeHandler_204 `{!RevocationLaws R} s r s' :
  revokeHandler s r = (s', ANoContent) ->
  let token := extractAccessToken (ar_Authorization r) in
  parseCtx no_token ParseWithClaims (sv_verifier s') token = Err ErrRevoked /\ token <> "" /\ sv_has_revoker s' = true /\ ar_Method r = "POST".
Proof.
  unfold revokeHandler. destruct (String.eqb_spec (ar_Method r) "POST"); [|done]. destruct (sv_has_revoker s) eqn:Er; [|done]. simpl.
  destruct (String.eqb_spec (extractAccessToken (ar_Authorization r)) ""); [done|].
  destruct (parseCtx _ _ _ _) as [c|err] eqn:Ep.
  - destruct (String.eqb_spec (cl_id c) ""); [done|]. destruct (revoke_jti s c) as [s1|] eqn:Hr; [|done]. intros [= <-]. simpl.
    destruct (revoke_jti_Ok _ _ _ n0 Hr) as (_ & _ & Hh & _). split_and!; [|done|congruence|done]. by eapply parse_after_revoke.
  - destruct err; try done. intros [= <-]. done.
Qed.

(** A token freshly signed by an issuer whose secret the verifier has. *)
Lemma fresh_token_parses at_ `{!JwtLibrary no_token ParseWithClaims SignedString at_} v i ids sub sid scopes kind ttl :
  secret i ∈ secrets v -> sub <> "" -> sid <> "" -> (0 < ttl)%Z -> (ids <> "" -> IsRevoked (revoker v) ids = Ok false) ->
  parseCtx no_token ParseWithClaims v (signKind SignedString i at_ ids sub sid scopes kind ttl) =
    Ok (mkClaims sub sid scopes kind Issuer at_ at_ (at_ + ttl) ids).
Proof.
  intros Hs Hsub Hsid Httl Hr. unfold signKind. apply (parseCtx_signed _ _ _ at_); [done| |done..].
  split; simpl; [done|lia].
Qed.
End handlers.

(** refresh tokens are rotated.  When POST /auth/refresh answers with
    tokens, the presented token was a valid refresh token, and, with a working
    revocation list and a signing secret the verifier knows: the new access and
    refresh tokens verify, for the same subject, session and scopes and each with
    its own kind; and presenting the old token again, at any later time, is
    answered 401 and changes nothing. *)
Theorem refresh_rotates {R : Type} `{RevocationLaws R}
    (parse later : string -> string -> option Claims) (sign : string -> Claims -> string) (now : Z)
    `{!JwtLibrary (fun t => String.eqb t "") parse sign now}
    (flt flt' : bool) (ids ids' : string * string) (now' : Z) (s s1 s' : auth_server R) (i : IssuerSigner)
    (r r' : auth_request) (resp : refreshResponse) (c : Claims) :
  sv_issuer s = Some i -> secret i ∈ secrets (sv_verifier s) -> (0 < accessTTL i)%Z -> (0 < refreshTTL i)%Z ->
  sv_has_revoker s = true -> revoke_jti s c = Ok s1 ->
  refreshHandler parse sign flt now ids s r = (s', ATokens resp) ->
  (forall k c', parse k (extractRefreshToken r) = Some c' -> c' = c) -> cl_id c <> "" ->
  ids.1 <> cl_id c -> ids.2 <> cl_id c ->
  IsRevoked (revoker (sv_verifier s)) ids.1 = Ok false -> IsRevoked (revoker (sv_verifier s)) ids.2 = Ok false ->
  (exists ca, ParseAccess (fun t => String.eqb t "") parse (sv_verifier s') (AccessToken resp) = Ok ca /\
     cl_sub ca = cl_sub c /\ cl_sid ca = cl_sid c /\ cl_scopes ca = cl_scopes c) /\
  (exists cr, ParseRefresh (fun t => String.eqb t "") parse (sv_verifier s') (RefreshToken resp) = Ok cr /\
     cl_sub cr = cl_sub c /\ cl_sid cr = cl_sid c /\ cl_scopes cr = cl_scopes c) /\
  (extractRefreshToken r' = extractRefreshToken r -> ar_Method r' = "POST" ->
   (forall k, later k (extractRefreshToken r) = parse k (extractRefreshToken r) \/ later k (extractRefreshToken r) = None) ->
   refreshHandler later sign flt' now' ids' s' r' = (s', AHttpError 401 "invalid refresh token")).
Proof.
  intros Hi Hsec Hat Hrt Hrev Hrf Hh Hc Hid Hne1 Hne2 Hr1 Hr2. unfold refreshHandler in Hh. rewrite Hi, Hrev in Hh.
  destruct (revoke_jti_Ok _ _ _ Hid Hrf) as (Hsecs & Hiss & _ & Hhit & Hoth).
  destruct (negb (String.eqb (ar_Method r) "POST")); [done|].
  destruct (String.eqb_spec (extractRefreshToken r) "") as [|Htok]; [done|].
  destruct (ParseRefresh _ parse (sv_verifier s) _) as [c1|] eqn:Ep; [|done].
  unfold ParseRefresh, Parse in Ep. destruct (parseCtx _ parse _ _) as [c2|] eqn:Ep2; [|done].
  destruct (negb _); [done|]. injection Ep as ->.
  destruct (parseCtx_Ok _ _ _ _ _ Ep2) as ((k & _ & Hk) & Hsid & Hsub & _). apply Hc in Hk as ->.
  destruct flt; [done|]. rewrite (proj2 (String.eqb_neq _ _) Hid), Hrf in Hh. simpl in Hh. injection Hh as <- <-.
  rewrite <- Hsecs in Hsec. simpl. split_and!.
  - unfold ParseAccess, Parse, SignAccess. erewrite fresh_token_parses; [eexists; by split_and!|done..|].
    intros _. by rewrite Hoth.
  - unfold ParseRefresh, Parse, SignRefresh. erewrite fresh_token_parses; [eexists; by split_and!|done..|].
    intros _. by rewrite Hoth.
  - intros Heq Hpost Hlater. unfold refreshHandler. rewrite Hpost, Heq. simpl. rewrite Hiss, Hi.
    rewrite (proj2 (String.eqb_neq _ _) Htok).
    destruct (ParseRefresh _ later _ _) as [c3|] eqn:Ep3; [|done]. exfalso.
    unfold ParseRefresh, Parse in Ep3. destruct (parseCtx _ later _ _) as [c4|] eqn:Ep4; [|done].
    destruct (parseCtx_Ok _ _ _ _ _ Ep4) as ((k' & _ & Hk') & _ & _ & Hnr). simpl in Hnr.
    assert (c4 = c) as -> by (destruct (Hlater k') as [E|E]; rewrite E in Hk'; [by apply Hc in Hk'|done]).
    rewrite Hhit in Hnr. by specialize (Hnr Hid).
Qed.

(** revocation is effective and idempotent.  When POST /auth/revoke
    answers 204, the presented token (access or refresh) is refused by every
    later verification against the same list, and presenting it again is
    answered 204 and changes nothing. *)
Theorem revoke_is_effective {R : Type} `{RevocationLaws R}
    (parse : string -> string -> option Claims) (s s' : auth_server R) (r : auth_request) :
  revokeHandler parse s r = (s', ANoContent) ->
  let token := extractAccessToken (ar_Authorization r) in
  parseCtx (fun t => String.eqb t "") parse (sv_verifier s') token = Err ErrRevoked /\
  ParseAccess (fun t => String.eqb t "") parse (sv_verifier s') token = Err ErrRevoked /\
  ParseRefresh (fun t => String.eqb t "") parse (sv_verifier s') token = Err ErrRevoked /\
  revokeHandler parse s' r = (s', ANoContent).
Proof.
  intros Hr. apply revokeHandler_204 in Hr as (Hp & Ht & Hrev & Hpost); [|done].
  unfold ParseAccess, ParseRefresh, Parse. split_and!; [done|by rewrite Hp..|].
  unfold revokeHandler. rewrite Hpost, Hrev, Hp. simpl. by rewrite (proj2 (String.eqb_neq _ _) Ht).
Qed.

(** A failed revocation is only logged: the refresh token is accepted again. *)
Lemma unrevoked_refresh_is_replayable {R : Type} `{RevocationList R} parse sign flt now ids ids' (s s' : auth_server R) r resp :
  (forall jti exp, is_ok (Revoke (revoker (sv_verifier s)) jti exp) = false) -> refreshHandler parse sign flt now ids s r = (s', ATokens resp) ->
  exists resp', (refreshHandler parse sign flt now ids' s' r).2 = ATokens resp'.
Proof.
  intros Hf. unfold refreshHandler. destruct (negb (String.eqb (ar_Method r) "POST")); [done|].
  destruct (sv_issuer s) as [i|] eqn:Ei; [|done]. destruct (String.eqb (extractRefreshToken r) "") eqn:Et; [done|].
  destruct (ParseRefresh _ parse (sv_verifier s) _) as [c|] eqn:Ep; [|done]. destruct flt; [done|].
  assert (revoke_jti s c = Err (match Revoke (revoker (sv_verifier s)) (cl_id c) (Some (cl_expires_at c * second)%Z) with Err e => e | Ok _ => "" end)) as ->
    by (unfold revoke_jti; specialize (Hf (cl_id c) (Some (cl_expires_at c * second)%Z)); by destruct (Revoke _ _ _)).
  intros [= <- <-]. destruct (sv_has_revoker s && _); simpl; rewrite Ei, Ep; by eexists.
Qed.

(** ** A concrete library *)

Definition claims_code (c : Claims) :=
  (cl_sub c, cl_sid c, cl_scopes c, cl_kind c, (cl_issuer c, cl_issued_at c, cl_not_before c, cl_expires_at c, cl_id c)).

Definition claims_uncode (x : string * string * list string * string * (string * Z * Z * Z * string)) : Claims :=
  let '(sub, sid, scopes, kind, (iss, iat, nbf, exp, id)) := x in mkClaims sub sid scopes kind iss iat nbf exp id.

#[local] Instance in_force_dec at_ c : Decision (in_force at_ c).
Proof. unfold in_force. apply _. Defined.

(** Tokens that carry their secret and claims in clear, for examples only. *)
Definition demo_sign (s : string) (c : Claims) : string := pos_str (encode (s, claims_code c)).

Definition demo_verify (at_ : Z) (s t : string) : option Claims :=
  p ← str_pos t;
  '(s', x) ← (decode p : option (string * (string * string * list string * string * (string * Z * Z * Z * string))));
  if decide (s' = s /\ in_force at_ (claims_uncode x)) then Some (claims_uncode x) else None.

Lemma demo_verify_sign at_ s s' c :
  demo_verify at_ s' (demo_sign s c) = if decide (s = s' /\ in_force at_ c) then Some c else None.
Proof.
  unfold demo_verify, demo_sign. rewrite str_pos_str. cbn [mbind option_bind]. rewrite decode_encode. cbn [mbind option_bind].
  replace (claims_uncode (claims_code c)) with c by (by destruct c). done.
Qed.

Lemma demo_jwt at_ : JwtLibrary (fun t => String.eqb t "") (demo_verify at_) demo_sign at_.
Proof.
  split; intros *; rewrite ?demo_verify_sign.
  - intros Hi. by rewrite decide_True.
  - intros Hi. rewrite decide_False; [done|by intros [_ ?]].
  - intros Hne. rewrite decide_False; [done|by intros [? _]].
  - unfold demo_sign. by destruct (encode _).
Qed.

Definition demo_refresh : Claims := mkClaims "alice" "s1" ["tools:*"] KindRefresh Issuer 0 0 60 "j1".
Definition demo_authserver : auth_server MemoryRevocationList :=
  mkAuthServer (Some (mkIssuer "k" 60 3600)) true (mkVerifier ["k"] (mkMemRev ∅)) [].
Definition demo_token : string := Eval vm_compute in demo_sign "k" demo_refresh.
Definition demo_post : auth_request := mkAuthRequest "POST" ("Bearer " +:+ demo_token) "10.0.0.1" None "" None.
Definition demo_exchange : auth_server MemoryRevocationList * auth_response :=
  refreshHandler (demo_verify 10) demo_sign false 10 ("j2", "j3") demo_authserver demo_post.
Definition demo_tokens : refreshResponse :=
  mkRefreshResponse (demo_sign "k" (mkClaims "alice" "s1" ["tools:*"] KindAccess Issuer 10 10 70 "j2"))
    (demo_sign "k" (mkClaims "alice" "s1" ["tools:*"] KindRefresh Issuer 10 10 3610 "j3")) 60 3600 "Bearer".

Lemma refresh_rotates_witness :
  demo_exchange.2 = ATokens demo_tokens /\
  refreshHandler (demo_verify 20) demo_sign false 20 ("j4", "j5") demo_exchange.1 demo_post =
    (demo_exchange.1, AHttpError 401 "invalid refresh token").
Proof.
  assert (demo_exchange.2 = ATokens demo_tokens) as E by (vm_compute; reflexivity). split; [exact E|].
  assert (extractRefreshToken demo_post = demo_sign "k" demo_refresh) as Et by (vm_compute; reflexivity).
  eapply (@refresh_rotates _ _ _ (demo_verify 10) (demo_verify 20) demo_sign 10 (demo_jwt 10) false false
           ("j2", "j3") ("j4", "j5") 20 demo_authserver (mkAuthServer (Some (mkIssuer "k" 60 3600)) true (mkVerifier ["k"] (after_revoke (mkMemRev ∅) "j1" (Some (60 * second)%Z))) []) demo_exchange.1 (mkIssuer "k" 60 3600) demo_post demo_post demo_tokens demo_refresh).
  all: try (vm_compute; reflexivity).
  - apply elem_of_cons. by left.
  - rewrite Et. intros k c'. rewrite demo_verify_sign. case_decide; [|done]. by intros [= <-].
  - discriminate.
  - discriminate.
  - discriminate.
  - intros k. rewrite Et, !demo_verify_sign. case_decide as H20; [|by right]. left. by rewrite decide_True.
Defined.

Lemma revoke_is_effective_witness :
  let r := revokeHandler (demo_verify 10) demo_authserver demo_post in
  r.2 = ANoContent /\ revokeHandler (demo_verify 10) r.1 demo_post = (r.1, ANoContent).
Proof.
  assert (revokeHandler (demo_verify 10) demo_authserver demo_post =
          ((revokeHandler (demo_verify 10) demo_authserver demo_post).1, ANoContent)) as E
    by (vm_compute; reflexivity).
  split; [vm_compute; reflexivity|].
  exact (proj2 (proj2 (proj2 (revoke_is_effective _ _ _ _ E)))).
Defined.

(** A list that cannot be asked refuses every token that has an id. *)
Example unreadable_list_refuses :
  parseCtx (fun t => String.eqb t "") (demo_verify 10) (mkVerifier ["k"] (mkSqlRev ∅ 0 (Some "disk I/O error"))) demo_token
  = Err (ErrRevocationLookup "auth: revocation lookup: auth: lookup jti: disk I/O error").
Proof. vm_compute. reflexivity. Qed.
