(* ===== verification/Markdown.v ===== *)
(** * HTML to markdown (internal/docfetch/markdown.go)

    The walk over a parsed document ([golang.org/x/net/html] builds the tree),
    white-space collapsing and the final clean-up.  An element's [DataAtom] is
    its tag name, empty for a name the library does not know. *)

From S2P Require Import Prelude GoString GoConv Event Utf8.

(** ** Documents *)

#[warnings="-register-all"]
Inductive hnode :=
| HText (data : string)
| HComment (data : string)
| HDoctype (data : string)
| HDocument (children : list hnode)
| HElement (atom : string) (attrs : list (string * string)) (children : list hnode)
| HOther.

Section hnode_ind.
Variable P : hnode -> Prop.
Hypothesis Htext : forall s, P (HText s).
Hypothesis Hcomment : forall s, P (HComment s).
Hypothesis Hdoctype : forall s, P (HDoctype s).
Hypothesis Hdoc : forall l, Forall P l -> P (HDocument l).
Hypothesis Helem : forall a attrs l, Forall P l -> P (HElement a attrs l).
Hypothesis Hother : P HOther.

(** Induction over a document tree. *)
Fixpoint hnode_ind_nested (n : hnode) : P n :=
  let go := fix go (l : list hnode) : Forall P l :=
    match l with
    | [] => Forall_nil_2 P
    | x :: l' => Forall_cons_2 P x l' (hnode_ind_nested x) (go l')
    end in
  match n with
  | HText s => Htext s
  | HComment s => Hcomment s
  | HDoctype s => Hdoctype s
  | HDocument l => Hdoc l (go l)
  | HElement a attrs l => Helem a attrs l (go l)
  | HOther => Hother
  end.
End hnode_ind.

Definition skipElements : list string :=
  ["script"; "style"; "head"; "noscript"; "template"; "svg"; "iframe"; "form"; "nav"; "footer"; "aside"; "button"].

Definition nlc : ascii := ascii_of_nat 10.
Definition nls : string := String nlc "".
Definition nl2 : string := String nlc nls.

(** ** White space *)

Definition isASCIISpace (c : ascii) : bool :=
  let n := nat_of_ascii c in (n =? 32) || ((9 <=? n) && (n <=? 13)).

(** The rune loop of [collapseWS]: an invalid byte is written as U+FFFD. *)
Fixpoint collapse_loop (fuel : nat) (pendingSpace started : bool) (s : string) : string :=
  match fuel with
  | O => ""
  | S fuel =>
      match s with
      | EmptyString => if pendingSpace then " " else ""
      | String c s' =>
          if isASCIISpace c then collapse_loop fuel true started s'
          else
            let '(r, rest) := match rune_len s with
                              | Some n => (str_take n s, str_drop n s)
                              | None => (RuneError, s')
                              end in
            (if pendingSpace && started then " " else "") +:+ r +:+ collapse_loop fuel false true rest
      end
  end.

Definition collapseWS (s : string) : string :=
  if String.eqb (TrimSpace s) "" then (if String.eqb s "" then "" else " ")
  else (match s with String c _ => if isASCIISpace c then " " else "" | EmptyString => "" end) +:+
       collapse_loop (S (String.length s)) false false s.

(** [oneLine] *)
Definition oneLine (s : string) : string := StrJoin " " (Fields s).

Fixpoint collapse_blank (newlines : nat) (s : string) : string :=
  match s with
  | EmptyString => ""
  | String c s' =>
      if Ascii.eqb c nlc then
        if Nat.leb (S newlines) 2 then String c (collapse_blank (S newlines) s') else collapse_blank (S newlines) s'
      else String c (collapse_blank 0 s')
  end.

Definition collapseBlankLines (s : string) : string := collapse_blank 0 s.

Definition is_blank (c : ascii) : bool := Ascii.eqb c " " || Ascii.eqb c (ascii_of_nat 9).

(** [cleanup] *)
Definition cleanup (s : string) : string :=
  TrimSpace (collapseBlankLines (JoinByte nlc (TrimRight is_blank <$> SplitByte nlc s))).

(** ** The output buffer *)

Record mdBuf := mkBuf { sb : string; last_b : ascii }.
Definition new_buf : mdBuf := mkBuf "" (ascii_of_nat 0).

Definition writeRaw (m : mdBuf) (s : string) : mdBuf :=
  match last_byte s with None => m | Some c => mkBuf (sb m +:+ s) c end.

Definition writeText (m : mdBuf) (s : string) : mdBuf :=
  if String.eqb s "" then m
  else if Ascii.eqb (last_b m) (ascii_of_nat 0) || Ascii.eqb (last_b m) nlc
       then writeRaw m (drop_while (Ascii.eqb " ") s)
       else writeRaw m s.

(** ** Elements *)

Definition headingLevel (atom : string) : nat :=
  if String.eqb atom "h1" then 1 else if String.eqb atom "h2" then 2 else if String.eqb atom "h3" then 3
  else if String.eqb atom "h4" then 4 else if String.eqb atom "h5" then 5 else 6.

Definition getAttr (attrs : list (string * string)) (key : string) : string :=
  match List.find (fun kv => String.eqb (ToLower kv.1) (ToLower key)) attrs with Some kv => kv.2 | None => "" end.

Fixpoint Repeat (s : string) (n : nat) : string :=
  match n with O => "" | S n => s +:+ Repeat s n end.

(** [strings.Trim] of newlines. *)
Definition trim_newlines (s : string) : string := TrimRight (Ascii.eqb nlc) (drop_while (Ascii.eqb nlc) s).

Definition block_atoms : list string :=
  ["p"; "div"; "section"; "article"; "main"; "header"; "dl"; "dt"; "dd"; "figure"; "figcaption"; "address"].

Definition quote_lines (inner : string) : string :=
  str_concat ((fun line => "> " +:+ line +:+ nls) <$> SplitByte nlc inner).

(** [m.writeRaw] of a wrapped inner text, when there is one. *)
Definition write_wrapped (m : mdBuf) (pre inner post : string) : mdBuf :=
  if String.eqb inner "" then m else writeRaw m (pre +:+ inner +:+ post).

(** What an element writes, given what its children write into a buffer
    ([kids], as [renderChildren] with the given mode and depth) and the
    table cells among them. *)
Definition element (atom : string) (attrs : list (string * string)) (inPre : bool) (depth : nat)
    (kids : bool -> nat -> mdBuf -> mdBuf) (cells : list string) (m : mdBuf) : mdBuf :=
  let childrenString pre := sb (kids pre depth new_buf) in
  if bool_decide (atom ∈ ["h1"; "h2"; "h3"; "h4"; "h5"; "h6"]) then
    let inner := TrimSpace (childrenString false) in
    if String.eqb inner "" then m
    else writeRaw m (nl2 +:+ Repeat "#" (headingLevel atom) +:+ " " +:+ oneLine inner +:+ nl2)
  else if bool_decide (atom ∈ block_atoms) then
    writeRaw (kids inPre depth (writeRaw m nl2)) nl2
  else if String.eqb atom "br" then writeRaw m nls
  else if String.eqb atom "hr" then writeRaw m (nl2 +:+ "---" +:+ nl2)
  else if String.eqb atom "a" then
    let inner := TrimSpace (childrenString inPre) in
    let href := TrimSpace (getAttr attrs "href") in
    if String.eqb inner "" then m
    else if String.eqb href "" || HasPrefix href "#" || HasPrefix (ToLower href) "javascript:" then writeText m inner
    else writeRaw m ("[" +:+ oneLine inner +:+ "](" +:+ href +:+ ")")
  else if bool_decide (atom ∈ ["ul"; "ol"]) then
    writeRaw (kids inPre (S depth) (writeRaw m nl2)) nl2
  else if String.eqb atom "li" then
    let inner := TrimSpace (childrenString inPre) in
    let indent := if Nat.ltb 1 depth then Repeat "  " (depth - 1) else "" in
    write_wrapped m (nls +:+ indent +:+ "- ") inner nls
  else if String.eqb atom "pre" then
    write_wrapped m (nl2 +:+ "```" +:+ nls) (trim_newlines (childrenString true)) (nls +:+ "```" +:+ nl2)
  else if bool_decide (atom ∈ ["code"; "kbd"; "samp"]) then
    if inPre then kids inPre depth m
    else write_wrapped m "`" (TrimSpace (oneLine (childrenString false))) "`"
  else if String.eqb atom "blockquote" then
    let inner := TrimSpace (childrenString inPre) in
    if String.eqb inner "" then m else writeRaw m (nl2 +:+ quote_lines inner +:+ nls)
  else if bool_decide (atom ∈ ["strong"; "b"]) then
    let inner := TrimSpace (childrenString inPre) in
    if String.eqb inner "" then m else writeRaw m ("**" +:+ oneLine inner +:+ "**")
  else if bool_decide (atom ∈ ["em"; "i"]) then
    let inner := TrimSpace (childrenString inPre) in
    if String.eqb inner "" then m else writeRaw m ("*" +:+ oneLine inner +:+ "*")
  else if String.eqb atom "table" then
    writeRaw (kids inPre depth (writeRaw m nl2)) nl2
  else if String.eqb atom "tr" then
    match cells with
    | [] => m
    | _ => writeRaw m (nls +:+ "| " +:+ StrJoin " | " cells +:+ " |" +:+ nls)
    end
  else kids inPre depth m.

Definition is_cell (atom : string) : bool := String.eqb atom "td" || String.eqb atom "th".

(** [render], with [renderChildren] and the cell loop of a table row as its
    inner loops. *)
Fixpoint render (n : hnode) (inPre : bool) (depth : nat) (m : mdBuf) {struct n} : mdBuf :=
  let renderChildren := fix go (l : list hnode) (inPre : bool) (depth : nat) (m : mdBuf) : mdBuf :=
    match l with [] => m | c :: l' => go l' inPre depth (render c inPre depth m) end in
  let cells := fix go (l : list hnode) : list string :=
    match l with
    | [] => []
    | c :: l' =>
        match c with
        | HElement a _ cs => if is_cell a then oneLine (TrimSpace (sb (renderChildren cs inPre depth new_buf))) :: go l' else go l'
        | _ => go l'
        end
    end in
  match n with
  | HComment _ | HDoctype _ | HOther => m
  | HText data => if inPre then writeRaw m data else writeText m (collapseWS data)
  | HDocument l => renderChildren l inPre depth m
  | HElement atom attrs l =>
      if bool_decide (atom ∈ skipElements) then m
      else element atom attrs inPre depth (fun pre d m => renderChildren l pre d m) (cells l) m
  end.

Fixpoint renderChildren (l : list hnode) (inPre : bool) (depth : nat) (m : mdBuf) : mdBuf :=
  match l with [] => m | c :: l' => renderChildren l' inPre depth (render c inPre depth m) end.

Definition childrenString (l : list hnode) (inPre : bool) (depth : nat) : string := sb (renderChildren l inPre depth new_buf).

(** [htmlToMarkdown], after [html.Parse]. *)
Definition htmlToMarkdown (root : hnode) : string := cleanup (sb (render root false 0 new_buf)).

(** ** Lemmas *)

(** The cells of a table row. *)
Fixpoint row_cells (l : list hnode) (inPre : bool) (depth : nat) : list string :=
  match l with
  | [] => []
  | HElement a _ cs :: l' =>
      if is_cell a then oneLine (TrimSpace (childrenString cs inPre depth)) :: row_cells l' inPre depth else row_cells l' inPre depth
  | _ :: l' => row_cells l' inPre depth
  end.

Lemma render_document l inPre depth m : render (HDocument l) inPre depth m = renderChildren l inPre depth m.
Proof. revert inPre depth m. induction l as [|c l IH]; intros; [done|]. apply IH. Qed.

Lemma render_element a attrs l inPre depth m :
  render (HElement a attrs l) inPre depth m =
  if bool_decide (a ∈ skipElements) then m
  else element a attrs inPre depth (renderChildren l) (row_cells l inPre depth) m.
Proof.
  cbn [render]. destruct (bool_decide (a ∈ skipElements)); [done|].
  f_equal. induction l as [|c l IH]; [done|]. cbn [row_cells]. rewrite <-IH. by destruct c.
Qed.

(** ** Chrome is invisible *)

Definition keep (n : hnode) : bool :=
  match n with
  | HComment _ | HDoctype _ | HOther => false
  | HElement a _ _ => negb (bool_decide (a ∈ skipElements))
  | _ => true
  end.

(** The document without comments, doctypes and skipped elements, at every depth. *)
Fixpoint prune (n : hnode) : hnode :=
  let go := fix go (l : list hnode) : list hnode :=
    match l with [] => [] | c :: l' => if keep c then prune c :: go l' else go l' end in
  match n with
  | HDocument l => HDocument (go l)
  | HElement a attrs l => HElement a attrs (go l)
  | _ => n
  end.

Fixpoint prune_list (l : list hnode) : list hnode :=
  match l with [] => [] | c :: l' => if keep c then prune c :: prune_list l' else prune_list l' end.

Lemma prune_document l : prune (HDocument l) = HDocument (prune_list l).
Proof. reflexivity. Qed.

Lemma prune_element a attrs l : prune (HElement a attrs l) = HElement a attrs (prune_list l).
Proof. reflexivity. Qed.

Definition kids (n : hnode) : list hnode :=
  match n with HDocument l | HElement _ _ l => l | _ => [] end.

(** A node and its children render the same after pruning. *)
Definition prunes (n : hnode) : Prop :=
  (forall inPre depth m, render (prune n) inPre depth m = render n inPre depth m) /\
  (forall inPre depth m, renderChildren (prune_list (kids n)) inPre depth m = renderChildren (kids n) inPre depth m).

Lemma render_dropped n inPre depth m : keep n = false -> render n inPre depth m = m.
Proof.
  destruct n as [| | | |a attrs l|]; try done. simpl keep. intros Hk%negb_false_iff. by rewrite render_element, Hk.
Qed.

Lemma children_prune l : Forall prunes l ->
  forall inPre depth m, renderChildren (prune_list l) inPre depth m = renderChildren l inPre depth m.
Proof.
  induction 1 as [|c l [Hc _] _ IH]; intros inPre depth m; [done|]. simpl. destruct (keep c) eqn:Ek; simpl.
  - by rewrite Hc, IH.
  - by rewrite (render_dropped c), IH.
Qed.

Lemma cell_kept a attrs l : is_cell a = true -> keep (HElement a attrs l) = true.
Proof. unfold is_cell. intros [E|E]%orb_true_iff; apply String.eqb_eq in E as ->; done. Qed.

Lemma cells_prune l inPre depth : Forall prunes l -> row_cells (prune_list l) inPre depth = row_cells l inPre depth.
Proof.
  induction 1 as [|c l [_ Hc] _ IH]; [done|]. cbn [prune_list]. destruct c as [| | |l0|a attrs cs|]; try done.
  destruct (is_cell a) eqn:Ea.
  - rewrite cell_kept, prune_element by done. cbn [row_cells]. rewrite Ea, IH. unfold childrenString. by rewrite Hc.
  - destruct (keep (HElement a attrs cs)).
    + rewrite prune_element. cbn [row_cells]. by rewrite Ea.
    + cbn [row_cells]. by rewrite Ea.
Qed.

Lemma element_ext a attrs inPre depth k1 k2 cells m :
  (forall p d b, k1 p d b = k2 p d b) -> element a attrs inPre depth k1 cells m = element a attrs inPre depth k2 cells m.
Proof. intros Hk. unfold element, write_wrapped. by rewrite !Hk. Qed.

Lemma all_prune n : prunes n.
Proof.
  induction n as [s|s|s|l IH|a attrs l IH|] using hnode_ind_nested; try done; (split; [intros|by apply children_prune]).
  - rewrite prune_document, !render_document. by apply children_prune.
  - rewrite prune_element, !render_element. destruct (bool_decide (a ∈ skipElements)); [done|].
    rewrite cells_prune by done. apply element_ext. by apply children_prune.
Qed.

(** No descendant is a comment, a doctype or a skipped element. *)
Fixpoint no_chrome (n : hnode) : bool :=
  let go := fix go (l : list hnode) : bool :=
    match l with [] => true | c :: l' => keep c && no_chrome c && go l' end in
  match n with HDocument l | HElement _ _ l => go l | _ => true end.

Lemma keep_prune n : keep (prune n) = keep n.
Proof. by destruct n. Qed.

Lemma no_chrome_prune n : no_chrome (prune n) = true.
Proof.
  assert (forall l, Forall (fun n => no_chrome (prune n) = true) l -> no_chrome (HDocument (prune_list l)) = true) as Hl.
  { induction 1 as [|c l Hc _ IH]; [done|]. cbn [prune_list]. destruct (keep c) eqn:Ek; [|done].
    cbn [no_chrome] in *. by rewrite keep_prune, Ek, Hc. }
  induction n as [s|s|s|l IH|a attrs l IH|] using hnode_ind_nested; try done.
  - rewrite prune_document. by apply Hl.
  - rewrite prune_element. by apply (Hl l).
Qed.

(** ** Runs of newlines *)

(** No run of more than two newlines, [k] of them just before [s]. *)
Fixpoint runs_ok (k : nat) (s : string) : Prop :=
  match s with
  | EmptyString => True
  | String c s' => if Ascii.eqb c nlc then S k <= 2 /\ runs_ok (S k) s' else runs_ok 0 s'
  end.

Lemma collapse_runs k s : runs_ok (k `min` 2) (collapse_blank k s).
Proof.
  revert k. induction s as [|c s IH]; intros k; [done|]. cbn [collapse_blank].
  destruct (Ascii.eqb c nlc) eqn:Ec; [|cbn; rewrite Ec; apply (IH 0)].
  destruct (Nat.leb_spec (S k) 2) as [Hk|Hk].
  - cbn [runs_ok]. rewrite Ec. specialize (IH (S k)). rewrite !Nat.min_l in * by lia. split; [lia|done].
  - specialize (IH (S k)). rewrite !Nat.min_r in * by lia. done.
Qed.

Lemma runs_suffix a b k : runs_ok k (a +:+ b) -> exists k', runs_ok k' b.
Proof.
  revert k. induction a as [|c a IH]; intros k; [by eauto|]. rewrite str_app_cons. cbn [runs_ok].
  destruct (Ascii.eqb c nlc); [intros [_ H]|intros H]; by apply IH in H.
Qed.

Lemma runs_prefix a b k : runs_ok k (a +:+ b) -> runs_ok k a.
Proof.
  revert k. induction a as [|c a IH]; intros k; [done|]. rewrite str_app_cons. cbn [runs_ok].
  destruct (Ascii.eqb c nlc); [intros [Hk H]; split; [done|]; by apply IH|apply IH].
Qed.

Lemma trim_left_suffix fuel s : exists a, s = a +:+ trim_left_fuel fuel s.
Proof.
  revert s. induction fuel as [|fuel IH]; intros s; [by exists ""|]. cbn [trim_left_fuel].
  destruct (List.find (HasPrefix s) space_runes) as [r|]; [|by exists ""].
  destruct (IH (str_drop (String.length r) s)) as [a Ha].
  exists (str_take (String.length r) s +:+ a). rewrite <-str_app_assoc, <-Ha. by rewrite str_take_drop.
Qed.

Lemma trim_right_prefix fuel s : exists b, s = trim_right_fuel fuel s +:+ b.
Proof.
  revert s. induction fuel as [|fuel IH]; intros s; [exists ""; by rewrite str_app_nil_r|]. cbn [trim_right_fuel].
  destruct (List.find (HasSuffix s) space_runes) as [r|]; [|exists ""; by rewrite str_app_nil_r].
  match goal with |- context [trim_right_fuel fuel (str_take ?n s)] =>
    destruct (IH (str_take n s)) as [b Hb]; exists (b +:+ str_drop n s) end.
  rewrite str_app_assoc, <-Hb. by rewrite str_take_drop.
Qed.

Lemma TrimSpace_infix s : exists a b, s = a +:+ (TrimSpace s +:+ b).
Proof.
  unfold TrimSpace. destruct (trim_left_suffix (String.length s) s) as [a Ha].
  destruct (trim_right_prefix (String.length (trim_left_fuel (String.length s) s)) (trim_left_fuel (String.length s) s)) as [b Hb].
  exists a, b. rewrite <-Hb. exact Ha.
Qed.

(** Three newlines in a row. *)
Definition nl3 : string := String nlc nl2.

Lemma runs_no_triple k s : runs_ok k s -> Contains s nl3 = false.
Proof.
  intros H. apply not_true_is_false. intros (pre & post & ->)%Contains_spec. apply runs_suffix in H as [k' H].
  unfold nl3, nl2, nls in H. rewrite !str_app_cons in H. simpl in H. lia.
Qed.

(** the fetched text is the readable document and nothing else.  Scripts,
    styles, forms, navigation and comments, wherever they stand in the tree,
    have no influence on the markdown: it is the markdown of the document with
    all of them removed; and it never has more than one blank line in a row. *)
Theorem markdown_is_clean (root : hnode) :
  htmlToMarkdown root = htmlToMarkdown (prune root) /\ no_chrome (prune root) = true /\
  Contains (htmlToMarkdown root) nl3 = false.
Proof.
  split_and!.
  - unfold htmlToMarkdown. by rewrite (proj1 (all_prune root)).
  - apply no_chrome_prune.
  - unfold htmlToMarkdown, cleanup. set (t := collapseBlankLines _).
    destruct (TrimSpace_infix t) as (a & b & Ht).
    assert (runs_ok 0 t) as Hr by apply (collapse_runs 0). rewrite Ht in Hr.
    apply runs_suffix in Hr as [k Hr]. apply runs_prefix in Hr. by eapply runs_no_triple.
Qed.
