(* ===== verification/DocFetch.v ===== *)
(** * The documentation fetcher (internal/docfetch/docfetch.go, exfil.go)

    The address filter of the dialer hook, the domain allowlist, the screen
    against exfiltration, and [Fetch] over an HTTP client that follows
    redirects.  [net/url] hands over parsed URLs ([URL], with the decoded query
    in the order its map is iterated in); what the network answers is the
    parameter [net]; HTML rendering is Markdown.v. *)

From S2P Require Import Prelude GoString GoConv Event Utf8 Markdown.

#[local] Open Scope Z_scope.

(** ** Addresses *)

(** A [net.IP]: 4 or 16 bytes. *)
Abbreviation IP := (list Z).

Definition v4InV6Prefix : list Z := [0; 0; 0; 0; 0; 0; 0; 0; 0; 0; 255; 255].

(** [ip.To4()] *)
Definition To4 (ip : IP) : option (Z * Z * Z * Z) :=
  match ip with
  | [a; b; c; d] => Some (a, b, c, d)
  | [_; _; _; _; _; _; _; _; _; _; _; _; a; b; c; d] => if bool_decide (take 12 ip = v4InV6Prefix) then Some (a, b, c, d) else None
  | _ => None
  end.

(** [ip.Equal] against a 16-byte address that is not a mapped one. *)
Definition equal16 (ip : IP) (x : list Z) : bool := bool_decide (ip = x).

Definition IPv6unspecified : IP := replicate 16 0.
Definition IPv6loopback : IP := replicate 15 0 ++ [1].

Definition IsUnspecified (ip : IP) : bool :=
  match To4 ip with Some q => bool_decide (q = (0, 0, 0, 0)) | None => equal16 ip IPv6unspecified end.

Definition IsLoopback (ip : IP) : bool :=
  match To4 ip with Some (a, _, _, _) => a =? 127 | None => equal16 ip IPv6loopback end.

(** The first two bytes of a 16-byte address. *)
Definition head16 (ip : IP) : option (Z * Z) :=
  if Nat.eqb (length ip) 16 then match ip with a :: b :: _ => Some (a, b) | _ => None end else None.

Definition IsPrivate (ip : IP) : bool :=
  match To4 ip with
  | Some (a, b, _, _) => (a =? 10) || ((a =? 172) && (Z.land b 240 =? 16)) || ((a =? 192) && (b =? 168))
  | None => match head16 ip with Some (a, _) => Z.land a 254 =? 252 | None => false end
  end.

Definition IsMulticast (ip : IP) : bool :=
  match To4 ip with
  | Some (a, _, _, _) => Z.land a 240 =? 224
  | None => match head16 ip with Some (a, _) => a =? 255 | None => false end
  end.

Definition IsInterfaceLocalMulticast (ip : IP) : bool :=
  match head16 ip with Some (a, b) => (a =? 255) && (Z.land b 15 =? 1) | None => false end.

Definition IsLinkLocalMulticast (ip : IP) : bool :=
  match To4 ip with
  | Some (a, b, c, _) => (a =? 224) && (b =? 0) && (c =? 0)
  | None => match head16 ip with Some (a, b) => (a =? 255) && (Z.land b 15 =? 2) | None => false end
  end.

Definition IsLinkLocalUnicast (ip : IP) : bool :=
  match To4 ip with
  | Some (a, b, _, _) => (a =? 169) && (b =? 254)
  | None => match head16 ip with Some (a, b) => (a =? 254) && (Z.land b 192 =? 128) | None => false end
  end.

(** [isNonPublicIP] *)
Definition isNonPublicIP (ip : IP) : bool :=
  if IsUnspecified ip || IsLinkLocalUnicast ip || IsLinkLocalMulticast ip || IsMulticast ip || IsInterfaceLocalMulticast ip
  then true
  else if IsPrivate ip then true
  else match To4 ip with
       | Some (a, b, _, _) => (a =? 100) && (Z.land b 192 =? 64)
       | None => false
       end.

(** ** The fetcher *)

Record Fetcher := mkFetcher { allowedDomains : list string; allowLoopback : bool }.

(** One entry of an allowlist, lower-cased and without wildcard or final dot. *)
Definition normalizeDomain (d : string) : string :=
  let d := ToLower (TrimSpace d) in
  let d := TrimPrefix d "*." in
  TrimSuffix d ".".

Definition normalizeDomains (l : list string) : list string :=
  filter (fun d => d <> ""%string) (normalizeDomain <$> l).

(** [newFetcher] and [New]. *)
Definition newFetcher (loopback : bool) (domains : list string) : Fetcher := mkFetcher (normalizeDomains domains) loopback.
Definition New (domains : list string) : Fetcher := newFetcher false domains.

Definition isBlockedIP (f : Fetcher) (ip : IP) : bool :=
  if IsLoopback ip then negb (allowLoopback f) else isNonPublicIP ip.

Definition hostAllowed (host : string) (allowed : list string) : bool :=
  existsb (fun d => let d := normalizeDomain d in
                    negb (String.eqb d "") && (String.eqb host d || HasSuffix host ("." +:+ d))) allowed.

Definition isHTTPScheme (scheme : string) : bool :=
  let s := ToLower scheme in String.eqb s "http" || String.eqb s "https".

(** A parsed URL: what the code reads of [url.URL]. *)
Record URL := mkURL {
  Scheme : string;
  Host : string;
  Hostname : string;
  User : bool;                          (* u.User != nil *)
  UPath : string;
  Query : list (string * list string);
  Fragment : string;
}.

(** ** The exfiltration screen *)

Inductive fetch_error :=
| ErrInvalidURL
| ErrBadScheme
| ErrNoHost
| ErrDomainNotAllowed
| ErrSuspiciousURL (why : string)
| ErrBlockedTarget
| ErrTooManyRedirects
| ErrHTTPStatus (code : Z)
| ErrUnsupportedType
| ErrTransport (timeout : bool)
| ErrParseHTML.

(** The patterns are sequences of character classes with repetition bounds. *)
Record item := mkItem { cls : ascii -> bool; lo : nat; hi : option nat }.

Definition lit (s : string) : list item := (fun c => mkItem (Ascii.eqb c) 1 (Some 1%nat)) <$> String.list_ascii_of_string s.
Definition one_of (s : string) (c : ascii) : bool := existsb (Ascii.eqb c) (String.list_ascii_of_string s).
Definition is_alnum (c : ascii) : bool := is_upper c || is_lower c || is_digit c.
Definition rep (f : ascii -> bool) (n : nat) : list item := [mkItem f n (Some n)].
Definition at_least (f : ascii -> bool) (n : nat) : list item := [mkItem f n None].

(** [count]: the repetitions of the first item so far. *)
Fixpoint match_here (fuel : nat) (count : nat) (l : list item) (s : string) : bool :=
  match fuel with
  | O => false
  | S fuel =>
      match l with
      | [] => true
      | it :: l' =>
          if (if Nat.leb (lo it) count then match_here fuel 0 l' s else false) then true
          else if match hi it with Some h => Nat.ltb count h | None => true end then
            match s with
            | String c s' => if cls it c then match_here fuel (S count) l s' else false
            | EmptyString => false
            end
          else false
      end
  end.

(** [MatchString]: a match somewhere; each step consumes a byte or an item. *)
Fixpoint match_string (l : list item) (s : string) : bool :=
  if match_here (S (String.length s + length l)) 0 l s then true
  else match s with String _ s' => match_string l s' | EmptyString => false end.

Definition secretPatterns : list (list item) := [
  lit "A" ++ rep (one_of "KS") 1 ++ lit "IA" ++ rep (fun c => is_digit c || is_upper c) 16;
  lit "gh" ++ rep (one_of "pousr") 1 ++ lit "_" ++ at_least is_alnum 36;
  lit "github_pat_" ++ at_least (fun c => is_alnum c || one_of "_" c) 40;
  lit "AIza" ++ rep (fun c => is_alnum c || one_of "_-" c) 35;
  lit "xox" ++ rep (one_of "baprs") 1 ++ lit "-" ++ at_least (fun c => is_alnum c || one_of "-" c) 10;
  lit "sk-" ++ at_least is_alnum 32;
  lit "eyJ" ++ at_least (fun c => is_alnum c || one_of "_-" c) 10 ++ lit ".eyJ" ++ at_least (fun c => is_alnum c || one_of "_-" c) 10 ++
    lit "." ++ at_least (fun c => is_alnum c || one_of "._-" c) 10;
  lit "-----BEGIN " ++ at_least (fun c => is_upper c || one_of " " c) 0 ++ lit "PRIVATE KEY-----"].

Definition sensitiveParamNames : list string :=
  ["api_key"; "apikey"; "api-key"; "key"; "access_token"; "accesstoken"; "auth_token"; "auth"; "token"; "secret";
   "client_secret"; "password"; "passwd"; "pwd"; "credential"; "credentials"; "private_key"].

Definition isTokenCharset (s : string) : bool := str_all (fun c => is_alnum c || one_of "+/=-_." c) s.

Definition count_byte (f : ascii -> bool) (s : string) : Z :=
  Z.of_nat (length (filter (fun c => f c = true) (String.list_ascii_of_string s))).

(** [shannonEntropy(s) >= 3.5]: with counts [c] of the distinct bytes, the
    entropy is [log2 n - (sum c log2 c) / n], so the test is
    [n^(2n) >= 2^(7n) * prod c^(2c)], which is decided exactly. *)
Definition entropy_high (s : string) : bool :=
  let n := zlen s in
  let counts := (fun k => count_byte (Ascii.eqb (ascii_of_nat k)) s) <$> seq 0 256 in
  (2 ^ (7 * n) * foldr (fun c acc => c ^ (2 * c) * acc) 1 counts <=? n ^ (2 * n)).

(** [looksLikeSecretToken]; [seps / len >= 0.08] is [25 seps >= 2 len]. *)
Definition looksLikeSecretToken (s : string) : bool :=
  if (zlen s <? 40) || negb (isTokenCharset s) then false
  else if 2 * zlen s <=? 25 * count_byte (one_of "-_.") s then false
  else entropy_high s.

Definition nl : string := Eval vm_compute in bytes_of [10]%nat.

Definition decodedSurface (u : URL) : string :=
  Hostname u +:+ nl +:+ UPath u +:+ nl +:+
  foldr (fun '(name, vals) acc => name +:+ foldr (fun v acc => "=" +:+ v +:+ nl +:+ acc) acc vals) "" (Query u) +:+
  Fragment u.

Definition guard_url (b : bool) (why : string) : result fetch_error unit := guard_err (negb b) (ErrSuspiciousURL why).

(** [screenURL] *)
Definition screenURL (u : URL) (allowed : list string) : result fetch_error unit :=
  let host := ToLower (TrimSuffix (Hostname u) ".") in
  if negb (Nat.eqb (length allowed) 0) then guard_err (hostAllowed host allowed) ErrDomainNotAllowed
  else
    _ ← guard_url (User u) "userinfo";
    _ ← guard_url (existsb (fun re => match_string re (decodedSurface u)) secretPatterns) "secret format";
    _ ← guard_url (existsb (fun '(name, vals) => bool_decide (ToLower name ∈ sensitiveParamNames) &&
                              existsb (fun v => 8 <=? zlen v) vals) (Query u)) "parameter";
    _ ← guard_url (existsb looksLikeSecretToken (SplitByte "/" (UPath u))) "path";
    _ ← guard_url (existsb (fun '(_, vals) => existsb looksLikeSecretToken vals) (Query u)) "query";
    guard_url (looksLikeSecretToken (Fragment u)) "fragment".

(** ** Fetching *)

Definition MaxBodyBytes : Z := Z.shiftl 2 20.
Definition maxRedirects : nat := 5.

(** A response as the client hands it over: the bytes its body yields and
    whether reading then fails. *)
Record response := mkResponse { StatusCode : Z; ContentType : string; body : string; body_fails : option bool }.

Inductive answer :=
| Redirect (to : URL)
| Response (r : response)
| Broken (timeout : bool).

(** What a name resolves to at one hop, as [net.Dialer] uses it: the addresses
    of the first family and of the other one, whether the second is raced before
    the first has failed, and which of two connections is then taken.  An address
    that [net.ParseIP] does not take (one with a zone) is [None]. *)
Record resolution := mkResolution {
  primaries : list (option IP);
  fallbacks : list (option IP);
  raced : bool;
  fallback_first : bool;
}.

(** What the network does at the n-th request of a fetch, so that a name may
    resolve, connect and answer differently each time it is asked. *)
Record network := mkNetwork {
  resolve : nat -> URL -> resolution;
  connects : nat -> URL -> IP -> bool;
  answers : nat -> URL -> IP -> answer;
}.

Inductive contentKind := contentOther | contentHTML | contentText.

Definition classifyContentType (header : string) : contentKind :=
  let mediaType := match Index header ";" with Some i => str_take i header | None => header end in
  let mediaType := ToLower (TrimSpace mediaType) in
  if bool_decide (mediaType ∈ ["text/html"; "application/xhtml+xml"]) then contentHTML
  else if String.eqb mediaType "" then contentHTML
  else if HasPrefix mediaType "text/" then contentText
  else contentOther.

Record fetch_result := mkResult {
  res_URL : string;
  res_FinalURL : URL;
  res_ContentType : string;
  res_Markdown : string;
  res_Truncated : bool;
}.

Section fetch.
Variable f : Fetcher.
Variable net : network.
(** [html.Parse]; it fails only when its reader does. *)
Variable html_Parse : string -> option hnode.

(** [dialControl], the hook that every connection attempt passes first. *)
Definition dialControl (address : option IP) : result fetch_error IP :=
  match address with
  | None => Err ErrBlockedTarget
  | Some ip => if isBlockedIP f ip then Err ErrBlockedTarget else Ok ip
  end.

(** [net.Dialer] on one family: the addresses in turn, until one connects; the
    error is that of the first. *)
Fixpoint dial_serial (hop : nat) (u : URL) (l : list (option IP)) : result fetch_error IP :=
  match l with
  | [] => Err (ErrTransport false)
  | address :: l' =>
      let attempt := match dialControl address with
                     | Ok ip => if connects net hop u ip then Ok ip else Err (ErrTransport false)
                     | Err e => Err e
                     end in
      match attempt with
      | Ok ip => Ok ip
      | Err e => match dial_serial hop u l' with Ok ip' => Ok ip' | Err _ => Err e end
      end
  end.

(** The dialer of [buildClient] on both families: the connections it opens, and
    the one that is used.  The other family is dialled when the first has failed
    or the race was started; the loser of a race is closed. *)
Definition dial (hop : nat) (u : URL) : list IP * result fetch_error IP :=
  let r := resolve net hop u in
  let p := dial_serial hop u (primaries r) in
  let q := dial_serial hop u (fallbacks r) in
  match fallbacks r with
  | [] => match p with Ok ip => ([ip], Ok ip) | Err e => ([], Err e) end
  | _ =>
      match p, q with
      | Ok ip, Ok ip' => if raced r then ([ip; ip'], Ok (if fallback_first r then ip' else ip)) else ([ip], Ok ip)
      | Ok ip, Err _ => ([ip], Ok ip)
      | Err _, Ok ip' => ([ip'], Ok ip')
      | Err e, Err _ => ([], Err e)
      end
  end.

(** [CheckRedirect] of [buildClient], the count aside. *)
Definition CheckRedirect (to : URL) : result fetch_error unit :=
  _ ← guard_err (isHTTPScheme (Scheme to)) ErrBadScheme;
  guard_err (Nat.eqb (length (allowedDomains f)) 0 || hostAllowed (ToLower (Hostname to)) (allowedDomains f)) ErrDomainNotAllowed.

(** [client.Do] with [left] requests left: for each request its URL and the
    connections opened for it, then the final URL and its response, or the error. *)
Fixpoint client_Do (left hop : nat) (u : URL) : list (URL * list IP) * result fetch_error (URL * response) :=
  match left with
  | O => ([], Err ErrTooManyRedirects)
  | S left' =>
      match dial hop u with
      | (opened, Err e) => ([], Err e)
      | (opened, Ok ip) =>
          match answers net hop u ip with
          | Broken t => ([(u, opened)], Err (ErrTransport t))
          | Response r => ([(u, opened)], Ok (u, r))
          | Redirect to =>
              if Nat.eqb left' 0 then ([(u, opened)], Err ErrTooManyRedirects)
              else match CheckRedirect to with
                   | Err e => ([(u, opened)], Err e)
                   | Ok _ => let '(log, r) := client_Do left' (S hop) to in ((u, opened) :: log, r)
                   end
          end
      end
  end.

(** [io.ReadAll(io.LimitReader(body, MaxBodyBytes+1))] *)
Definition read_capped (r : response) : result fetch_error string :=
  if MaxBodyBytes <? zlen (body r) then Ok (str_take (Z.to_nat (MaxBodyBytes + 1)) (body r))
  else match body_fails r with Some t => Err (ErrTransport t) | None => Ok (body r) end.

(** What becomes of the response. *)
Definition finish (rawURL : string) (u : URL) (r : response) : result fetch_error fetch_result :=
  if (StatusCode r <? 200) || (300 <=? StatusCode r) then Err (ErrHTTPStatus (StatusCode r))
  else match classifyContentType (ContentType r) with
  | contentOther => Err ErrUnsupportedType
  | kind =>
      data ← read_capped r;
      let truncated := MaxBodyBytes <? zlen data in
      let data := if truncated then str_take (Z.to_nat MaxBodyBytes) data else data in
      match kind with
      | contentHTML => match html_Parse data with
                       | Some root => Ok (mkResult rawURL u (ContentType r) (htmlToMarkdown root) truncated)
                       | None => Err ErrParseHTML
                       end
      | _ => Ok (mkResult rawURL u (ContentType r) (TrimSpace data) truncated)
      end
  end.

(** [Fetch]; [parsed] is [url.Parse] of the trimmed argument. *)
Definition Fetch (rawURL : string) (parsed : option URL) : list (URL * list IP) * result fetch_error fetch_result :=
  match parsed with
  | None => ([], Err ErrInvalidURL)
  | Some u =>
      if negb (isHTTPScheme (Scheme u)) then ([], Err ErrBadScheme)
      else if String.eqb (Host u) "" then ([], Err ErrNoHost)
      else match screenURL u (allowedDomains f) with
      | Err e => ([], Err e)
      | Ok _ =>
          let '(log, r) := client_Do maxRedirects 0 u in
          (log, '(final, resp) ← r; finish rawURL final resp)
      end
  end.
End fetch.

(** ** The blocked addresses *)

Definition byte (b : Z) : Prop := 0 <= b < 256.

#[export] Instance byte_dec b : Decision (byte b).
Proof. unfold byte. apply _. Defined.

(** The number of an address, most significant byte first. *)
Definition ipnum (l : list Z) : Z := foldl (fun acc b => acc * 256 + b) 0 l.

(** Membership in [net/len] among addresses of [bits] bits. *)
Definition in_cidr (bits x : Z) (c : Z * Z) : bool := x / 2 ^ (bits - c.2) =? c.1 / 2 ^ (bits - c.2).

Definition blocked4 : list (Z * Z) := [
  (ipnum [0; 0; 0; 0], 32); (ipnum [10; 0; 0; 0], 8); (ipnum [100; 64; 0; 0], 10); (ipnum [127; 0; 0; 0], 8);
  (ipnum [169; 254; 0; 0], 16); (ipnum [172; 16; 0; 0], 12); (ipnum [192; 168; 0; 0], 16); (ipnum [224; 0; 0; 0], 4)].

Definition blocked6 : list (Z * Z) := [
  (0, 128); (1, 128); (Z.shiftl 252 120, 7); (Z.shiftl 65152 112, 10); (Z.shiftl 255 120, 8)].

Lemma byte_all (P : Z -> bool) b : forallb P (seqZ 0 256) = true -> byte b -> P b = true.
Proof.
  intros H Hb. rewrite forallb_forall in H. apply H. apply list_elem_of_In, elem_of_seqZ. unfold byte in Hb. lia.
Qed.

Lemma land_nibble b k v : byte b -> forallb (fun b => eqb (Z.land b k =? v) (b / (256 - k) =? v / (256 - k))) (seqZ 0 256) = true ->
  (Z.land b k =? v) = (b / (256 - k) =? v / (256 - k)).
Proof. intros Hb H. apply eqb_prop. exact (byte_all _ b H Hb). Qed.

Lemma ipnum_app l k : ipnum (l ++ k) = ipnum l * 256 ^ Z.of_nat (length k) + ipnum k.
Proof.
  unfold ipnum. rewrite foldl_app. generalize (foldl (fun acc b => acc * 256 + b) 0 l) as n.
  induction k as [|b k IH] using rev_ind; intros n; [simpl; lia|].
  rewrite !foldl_app, length_app, IH, Nat2Z.inj_add, Z.pow_add_r by lia. change (Z.of_nat (length [b])) with 1. rewrite Z.pow_1_r. cbn [foldl]. ring.
Qed.

Lemma ipnum_range l : Forall byte l -> 0 <= ipnum l < 256 ^ Z.of_nat (length l).
Proof.
  induction l as [|b l IH] using rev_ind; [done|]. intros [Hl Hb]%Forall_app. apply Forall_cons in Hb as [Hb _]. specialize (IH Hl).
  rewrite ipnum_app, length_app, Nat2Z.inj_add, Z.pow_add_r by lia. unfold byte in Hb. change (ipnum [b]) with (0 * 256 + b).
  change (Z.of_nat (length [b])) with 1. rewrite Z.pow_1_r. lia.
Qed.

(** The leading bits of an address are those of its leading bytes. *)
Lemma ipnum_div l k len : Forall byte k -> (0 <= len <= 8 * Z.of_nat (length l)) ->
  ipnum (l ++ k) / 2 ^ (8 * Z.of_nat (length (l ++ k)) - len) = ipnum l / 2 ^ (8 * Z.of_nat (length l) - len).
Proof.
  intros Hk Hlen. apply ipnum_range in Hk. rewrite ipnum_app, length_app, Nat2Z.inj_add.
  replace (8 * (Z.of_nat (length l) + Z.of_nat (length k)) - len) with (8 * Z.of_nat (length k) + (8 * Z.of_nat (length l) - len)) by lia.
  rewrite Z.pow_add_r by lia. rewrite (Z.pow_mul_r 2 8) by lia. change (2 ^ 8) with 256.
  rewrite <-Z.div_div by lia. f_equal. rewrite Z.div_add_l by lia. rewrite Z.div_small by lia. lia.
Qed.

Lemma ipnum_inj l k : Forall byte l -> Forall byte k -> length l = length k -> ipnum l = ipnum k -> l = k.
Proof.
  revert k. induction l as [|b l IH] using rev_ind; intros k Hl Hk Hlen Heq.
  { by destruct k. }
  destruct k as [|c k _] using rev_ind; [rewrite length_app in Hlen; simpl in Hlen; lia|].
  apply Forall_app in Hl as [Hl [Hb _]%Forall_cons], Hk as [Hk [Hc _]%Forall_cons]. rewrite !length_app in Hlen. simpl in Hlen.
  rewrite !ipnum_app in Heq. change (Z.of_nat (length [b])) with 1 in Heq. change (Z.of_nat (length [c])) with 1 in Heq.
  rewrite Z.pow_1_r in Heq. change (ipnum [b]) with b in Heq. change (ipnum [c]) with c in Heq. unfold byte in Hb, Hc.
  rewrite (IH k) by (done || lia). by replace c with b by lia.
Qed.

(** Division of a two-byte prefix. *)
Lemma prefix2_div a b k : 0 < k -> (256 mod k = 0) -> (a * 256 + b) / k = a * (256 / k) + b / k.
Proof.
  intros Hk Hm. apply Z.div_exact in Hm; [|lia]. rewrite Hm at 1. replace (a * (k * (256 / k)) + b) with (a * (256 / k) * k + b) by ring.
  by rewrite Z.div_add_l by lia.
Qed.

Section ranges.
Variables a b c d : Z.
Hypothesis Ha : byte a.
Hypothesis Hb : byte b.
Hypothesis Hc : byte c.
Hypothesis Hd : byte d.

Definition blocked4_bytes : bool :=
  bool_decide ((a, b, c, d) = (0, 0, 0, 0)) || (a =? 10) || ((a =? 100) && (Z.land b 192 =? 64)) || (a =? 127) ||
  ((a =? 169) && (b =? 254)) || ((a =? 172) && (Z.land b 240 =? 16)) || ((a =? 192) && (b =? 168)) || (Z.land a 240 =? 224).

Lemma in_blocked4 : existsb (in_cidr 32 (ipnum [a; b; c; d])) blocked4 = blocked4_bytes.
Proof.
  assert (Forall byte [b; c; d]) as H3 by (repeat (apply Forall_cons_2; [assumption|]); apply Forall_nil_2).
  assert (Forall byte [c; d]) as H2 by (repeat (apply Forall_cons_2; [assumption|]); apply Forall_nil_2).
  unfold byte in Ha, Hb, Hc, Hd.
  assert (ipnum [a; b; c; d] / 2 ^ 24 = a) as E8.
  { etransitivity; [exact (ipnum_div [a] [b; c; d] 8 H3 ltac:(simpl; lia))|]. change (2 ^ (8 * Z.of_nat (length [a]) - 8)) with 1. apply Z.div_1_r. }
  assert (ipnum [a; b; c; d] / 2 ^ 28 = a / 16) as E4 by exact (ipnum_div [a] [b; c; d] 4 H3 ltac:(simpl; lia)).
  assert (ipnum [a; b; c; d] / 2 ^ 22 = a * 4 + b / 64) as E10.
  { etransitivity; [exact (ipnum_div [a; b] [c; d] 10 H2 ltac:(simpl; lia))|]. exact (prefix2_div a b 64 ltac:(lia) eq_refl). }
  assert (ipnum [a; b; c; d] / 2 ^ 20 = a * 16 + b / 16) as E12.
  { etransitivity; [exact (ipnum_div [a; b] [c; d] 12 H2 ltac:(simpl; lia))|]. exact (prefix2_div a b 16 ltac:(lia) eq_refl). }
  assert (ipnum [a; b; c; d] / 2 ^ 16 = a * 256 + b) as E16.
  { etransitivity; [exact (ipnum_div [a; b] [c; d] 16 H2 ltac:(simpl; lia))|]. change (2 ^ (8 * Z.of_nat (length [a; b]) - 16)) with 1. apply Z.div_1_r. }
  assert (ipnum [a; b; c; d] / 2 ^ 0 = ((a * 256 + b) * 256 + c) * 256 + d) as E32 by (rewrite Z.div_1_r; unfold ipnum; simpl; lia).
  unfold blocked4, in_cidr. cbn [existsb fst snd].
  change (32 - 32) with 0. change (32 - 8) with 24. change (32 - 10) with 22. change (32 - 16) with 16. change (32 - 12) with 20. change (32 - 4) with 28.
  rewrite E8, E4, E10, E12, E16, E32. unfold blocked4_bytes.
  rewrite (land_nibble b 192 64 Hb), (land_nibble b 240 16 Hb), (land_nibble a 240 224 Ha) by (vm_compute; reflexivity).
  change (256 - 192) with 64. change (256 - 240) with 16.
  pose proof (Z.div_pos b 64 ltac:(lia) ltac:(lia)). pose proof (Z.div_lt_upper_bound b 64 4 ltac:(lia) ltac:(lia)).
  pose proof (Z.div_pos b 16 ltac:(lia) ltac:(lia)). pose proof (Z.div_lt_upper_bound b 16 16 ltac:(lia) ltac:(lia)).
  apply eq_true_iff_eq. rewrite !orb_true_iff, !andb_true_iff, !Z.eqb_eq, bool_decide_eq_true.
  vm_compute (ipnum [0; 0; 0; 0] / 2 ^ 0). vm_compute (ipnum [10; 0; 0; 0] / 2 ^ 24). vm_compute (ipnum [100; 64; 0; 0] / 2 ^ 22).
  vm_compute (ipnum [127; 0; 0; 0] / 2 ^ 24). vm_compute (ipnum [169; 254; 0; 0] / 2 ^ 16). vm_compute (ipnum [172; 16; 0; 0] / 2 ^ 20).
  vm_compute (ipnum [192; 168; 0; 0] / 2 ^ 16). vm_compute (ipnum [224; 0; 0; 0] / 2 ^ 28).
  change (64 / 64) with 1. change (16 / 16) with 1. change (224 / 16) with 14.
  generalize dependent (b / 64). intros x E10 Hx1 Hx2. generalize dependent (b / 16). intros y E12 Hy1 Hy2.
  generalize dependent (a / 16). intros z E4. clear E4 E8 E10 E12 E16 E32 H2 H3.
  rewrite !pair_equal_spec.
  assert (a * 4 + x = 401 <-> a = 100 /\ x = 1) as -> by lia. assert (a * 16 + y = 2753 <-> a = 172 /\ y = 1) as -> by lia.
  assert (a * 256 + b = 43518 <-> a = 169 /\ b = 254) as -> by lia. assert (a * 256 + b = 49320 <-> a = 192 /\ b = 168) as -> by lia.
  assert (((a * 256 + b) * 256 + c) * 256 + d = 0 <-> ((a = 0 /\ b = 0) /\ c = 0) /\ d = 0) as -> by lia.
  assert (false = true <-> False) as -> by done. tauto.
Qed.
End ranges.

Definition blocked6_bytes (ip : IP) : bool :=
  equal16 ip IPv6unspecified || equal16 ip IPv6loopback ||
  match ip with a :: b :: _ => (Z.land a 254 =? 252) || ((a =? 254) && (Z.land b 192 =? 128)) || (a =? 255) | _ => false end.

Lemma in_blocked6 (ip : IP) : length ip = 16%nat -> Forall byte ip ->
  existsb (in_cidr 128 (ipnum ip)) blocked6 = blocked6_bytes ip.
Proof.
  intros Hlen Hip. destruct ip as [|a [|b k]]; try done.
  assert (Z.of_nat (length k) = 14) as Hk by (simpl in Hlen; lia).
  pose proof Hip as [Ha [Hb H2]%Forall_cons]%Forall_cons. pose proof (Forall_cons_2 _ _ _ Hb H2) as H1.
  assert (forall x, Forall byte x -> length x = 16%nat -> equal16 (a :: b :: k) x = (ipnum (a :: b :: k) =? ipnum x)) as Heq.
  { intros x Hx Hlx. unfold equal16. apply eq_true_iff_eq. rewrite bool_decide_eq_true, Z.eqb_eq.
    split; [by intros ->|]. intros E. apply ipnum_inj; [done|done|congruence|done]. }
  assert (ipnum (a :: b :: k) / 2 ^ 120 = a) as E8.
  { pose proof (ipnum_div [a] (b :: k) 8 H1 ltac:(simpl; lia)) as E. rewrite length_app in E. cbn [length app] in E.
    rewrite Nat2Z.inj_add, !Nat2Z.inj_succ, Hk in E. change (2 ^ (8 * (Z.succ (Z.of_nat 0) + Z.succ 14) - 8)) with (2 ^ 120) in E.
    rewrite E. apply Z.div_1_r. }
  assert (ipnum (a :: b :: k) / 2 ^ 121 = a / 2) as E7.
  { change (2 ^ 121) with (2 ^ 120 * 2). by rewrite <-Z.div_div, E8 by lia. }
  assert (ipnum (a :: b :: k) / 2 ^ 118 = a * 4 + b / 64) as E10.
  { pose proof (ipnum_div [a; b] k 10 H2 ltac:(simpl; lia)) as E. rewrite length_app in E. cbn [length app] in E.
    rewrite Nat2Z.inj_add, Hk in E. change (2 ^ (8 * (Z.of_nat 2 + 14) - 10)) with (2 ^ 118) in E.
    rewrite E. exact (prefix2_div a b 64 ltac:(lia) eq_refl). }
  unfold blocked6_bytes. rewrite !Heq; [|apply (bool_decide_eq_true_1 _); vm_compute; reflexivity..].
  unfold blocked6, in_cidr. cbn [existsb fst snd].
  change (128 - 128) with 0. change (128 - 7) with 121. change (128 - 10) with 118. change (128 - 8) with 120.
  rewrite E7, E8, E10, !Z.div_1_r. rewrite (land_nibble a 254 252 Ha), (land_nibble b 192 128 Hb) by (vm_compute; reflexivity).
  change (256 - 254) with 2. change (256 - 192) with 64. unfold byte in Ha, Hb.
  pose proof (Z.div_pos b 64 ltac:(lia) ltac:(lia)). pose proof (Z.div_lt_upper_bound b 64 4 ltac:(lia) ltac:(lia)).
  apply eq_true_iff_eq. rewrite !orb_true_iff, !andb_true_iff, !Z.eqb_eq.
  vm_compute (ipnum IPv6unspecified). vm_compute (ipnum IPv6loopback). vm_compute (Z.shiftl 252 120 / 2 ^ 121).
  vm_compute (Z.shiftl 65152 112 / 2 ^ 118). vm_compute (Z.shiftl 255 120 / 2 ^ 120). change (252 / 2) with 126. change (128 / 64) with 2.
  assert (a * 4 + b / 64 = 1018 <-> a = 254 /\ b / 64 = 2) as -> by lia. assert (false = true <-> False) as -> by done. tauto.
Qed.

Lemma To4_bytes ip q : To4 ip = Some q -> Forall byte ip ->
  exists a b c d, q = (a, b, c, d) /\ byte a /\ byte b /\ byte c /\ byte d /\
    match head16 ip with Some (x, _) => x = 0 | None => True end.
Proof.
  intros Hq Hip. unfold To4 in Hq. repeat (destruct ip as [|? ip]; try discriminate Hq).
  - injection Hq as <-. rewrite !Forall_cons in Hip. destruct Hip as (?&?&?&?&_). by eexists _, _, _, _.
  - case_bool_decide as Hp; [|done]. injection Hq as <-. injection Hp. intros. subst.
    rewrite !Forall_cons in Hip. destruct Hip as (?&?&?&?&?&?&?&?&?&?&?&?&?&?&?&?&_). by eexists _, _, _, _.
Qed.

(** the address filter as a list of networks.  An IPv4 address (also in its
    mapped IPv6 form) is refused exactly when it lies in 0.0.0.0/32, 10/8,
    100.64/10, 127/8, 169.254/16, 172.16/12, 192.168/16 or 224/4; an IPv6 address
    exactly when it lies in ::/128, ::1/128, fc00::/7, fe80::/10 or ff00::/8. *)
Theorem blocked_networks (domains : list string) (ip : IP) :
  Forall byte ip -> (length ip = 4 \/ length ip = 16)%nat ->
  isBlockedIP (New domains) ip =
  match To4 ip with
  | Some (a, b, c, d) => existsb (in_cidr 32 (ipnum [a; b; c; d])) blocked4
  | None => existsb (in_cidr 128 (ipnum ip)) blocked6
  end.
Proof.
  intros Hip Hlen. unfold isBlockedIP, isNonPublicIP, IsLoopback, IsUnspecified, IsLinkLocalUnicast, IsLinkLocalMulticast,
    IsMulticast, IsInterfaceLocalMulticast, IsPrivate. cbn [New newFetcher allowLoopback negb].
  destruct (To4 ip) as [q|] eqn:E4.
  - destruct (To4_bytes ip q E4 Hip) as (a & b & c & d & -> & Ha & Hb & Hc & Hd & Hh).
    rewrite in_blocked4 by done. unfold blocked4_bytes.
    assert (match head16 ip with Some (x, y) => (x =? 255) && (Z.land y 15 =? 1) | None => false end = false) as ->
      by (destruct (head16 ip) as [[x y]|]; [by subst|done]).
    assert ((a =? 224) && (b =? 0) && (c =? 0) = true -> (Z.land a 240 =? 224) = true) as Hm.
    { intros [[Ea _]%andb_true_iff _]%andb_true_iff. apply Z.eqb_eq in Ea as ->. done. }
    generalize dependent (Z.land a 240 =? 224). generalize ((a =? 224) && (b =? 0) && (c =? 0)).
    generalize (bool_decide ((a, b, c, d) = (0, 0, 0, 0))). intros u m z Hm.
    destruct (a =? 127), u, (a =? 10), ((a =? 100) && _), ((a =? 169) && _), ((a =? 172) && _), ((a =? 192) && _), m, z; try done;
      by specialize (Hm eq_refl).
  - assert (length ip = 16%nat) as H16 by (destruct Hlen as [H4|]; [|done]; do 5 (destruct ip as [|? ip]; try done)).
    rewrite in_blocked6 by done. unfold blocked6_bytes, head16. rewrite H16. cbn [Nat.eqb].
    destruct ip as [|a [|b k]]; try done.
    destruct (equal16 _ IPv6unspecified), (equal16 _ IPv6loopback), (Z.land a 254 =? 252), ((a =? 254) && _), (a =? 255), (Z.land b 15 =? 1), (Z.land b 15 =? 2); done.
Qed.

(** ** A fetch *)

Section contained.
Variable f : Fetcher.
Variable net : network.

(** The hosts the allowlist permits: a listed domain or a subdomain of one. *)
Definition host_listed (host : string) : Prop :=
  exists d, d ∈ allowedDomains f /\ let d := normalizeDomain d in
    d <> ""%string /\ (host = d \/ exists p, host = p +:+ ("." +:+ d)).

Lemma hostAllowed_listed host : hostAllowed host (allowedDomains f) = true <-> host_listed host.
Proof.
  unfold hostAllowed, host_listed. rewrite existsb_exists. setoid_rewrite andb_true_iff. setoid_rewrite orb_true_iff.
  setoid_rewrite negb_true_iff. setoid_rewrite String.eqb_eq. setoid_rewrite String.eqb_neq. setoid_rewrite HasSuffix_app.
  setoid_rewrite list_elem_of_In. done.
Qed.

Lemma dialControl_Ok address ip : dialControl f address = Ok ip -> isBlockedIP f ip = false.
Proof. unfold dialControl. destruct address as [x|]; [|done]. destruct (isBlockedIP f x) eqn:E; [done|]. by intros [= <-]. Qed.

Lemma dial_serial_permitted hop u l ip : dial_serial f net hop u l = Ok ip -> isBlockedIP f ip = false.
Proof.
  induction l as [|x l IH]; simpl; [done|]. destruct (dialControl f x) as [y|] eqn:Ex.
  - destruct (connects net hop u y); [intros [= <-]; by eapply dialControl_Ok|]. destruct (dial_serial f net hop u l); [|done]. intros [= ->]. by apply IH.
  - destruct (dial_serial f net hop u l); [|done]. intros [= ->]. by apply IH.
Qed.

(** At most two connections are opened for a request, each to a permitted
    address, and the request uses one of them. *)
Lemma dial_permitted hop u opened ip : dial f net hop u = (opened, Ok ip) ->
  (1 <= length opened <= 2)%nat /\ ip ∈ opened /\ Forall (fun x => isBlockedIP f x = false) opened.
Proof.
  unfold dial. pose proof (dial_serial_permitted hop u (primaries (resolve net hop u))) as Hp.
  pose proof (dial_serial_permitted hop u (fallbacks (resolve net hop u))) as Hq.
  destruct (dial_serial f net hop u (primaries _)) as [x|]; destruct (dial_serial f net hop u (fallbacks _)) as [y|];
    destruct (fallbacks _); try destruct (raced _); try destruct (fallback_first _); intros [= <- <-];
    (split; [simpl; lia|]); (split; [apply list_elem_of_In; simpl; auto|]); repeat (apply Forall_cons_2; [auto|]); apply Forall_nil_2.
Qed.

Definition may_request (u : URL) : Prop :=
  isHTTPScheme (Scheme u) = true /\
  (allowedDomains f <> [] -> host_listed (ToLower (Hostname u)) \/ host_listed (ToLower (TrimSuffix (Hostname u) "."))).

Lemma CheckRedirect_may to : CheckRedirect f to = Ok tt -> may_request to.
Proof.
  unfold CheckRedirect. destruct (isHTTPScheme (Scheme to)) eqn:Es; [|done]. cbn [guard_err mbind result_bind].
  destruct (_ || _) eqn:Eh; [|done]. intros _. split; [done|]. intros Hne. left. apply hostAllowed_listed.
  apply orb_true_iff in Eh as [Eh|Eh]; [|done]. by destruct (allowedDomains f).
Qed.

Lemma screen_may u : isHTTPScheme (Scheme u) = true -> screenURL u (allowedDomains f) = Ok tt -> may_request u.
Proof.
  intros Hs Hu. split; [done|]. intros Hne. right. apply hostAllowed_listed. unfold screenURL in Hu.
  destruct (allowedDomains f) as [|d l]; [done|]. cbn [length Nat.eqb negb] in Hu. by destruct (hostAllowed _ _).
Qed.

(** What is known of a request: its URL and the connections opened for it. *)
Definition contained_request (c : URL * list IP) : Prop :=
  may_request c.1 /\ (1 <= length c.2 <= 2)%nat /\ Forall (fun x => isBlockedIP f x = false) c.2.

Lemma client_Do_contained left hop u log r :
  may_request u -> client_Do f net left hop u = (log, r) ->
  Forall contained_request log /\ (length log <= left)%nat /\ (log = [] \/ exists ips rest, log = (u, ips) :: rest).
Proof.
  revert hop u log r. induction left as [|left IH]; intros hop u log r Hu; simpl; [intros [= <- <-]; by eauto|].
  destruct (dial f net hop u) as [opened [ip|e]] eqn:Ed; [|intros [= <- <-]; split_and!; [done|simpl; lia|by left]].
  apply dial_permitted in Ed as (Hl & _ & Hb).
  assert (contained_request (u, opened)) as Hp by (exact (conj Hu (conj Hl Hb))).
  assert (Forall contained_request [(u, opened)]) as H1 by (apply Forall_cons_2; [exact Hp|apply Forall_nil_2]).
  destruct (answers net hop u ip) as [to|resp|t].
  - destruct (Nat.eqb left 0); [intros [= <- <-]; split_and!; [exact H1|simpl; lia|by eauto]|].
    destruct (CheckRedirect f to) as [[]|e] eqn:Ec; [|intros [= <- <-]; split_and!; [exact H1|simpl; lia|by eauto]].
    apply CheckRedirect_may in Ec. destruct (client_Do f net left (S hop) to) as [log' r'] eqn:El.
    apply IH in El as (Hall & Hlen & _); [|done]. intros [= <- <-]. split_and!; [by apply Forall_cons_2|simpl; lia|by eauto].
  - intros [= <- <-]. split_and!; [exact H1|simpl; lia|by eauto].
  - intros [= <- <-]. split_and!; [exact H1|simpl; lia|by eauto].
Qed.
End contained.

Lemma Fetch_contained f net html_Parse rawURL parsed : let log := (Fetch f net html_Parse rawURL parsed).1 in
  Forall (contained_request f) log /\ (length log <= 5)%nat /\
  (log = [] \/ exists u ips rest, parsed = Some u /\ screenURL u (allowedDomains f) = Ok tt /\ log = (u, ips) :: rest).
Proof.
  unfold Fetch. destruct parsed as [u|]; [|simpl; split_and!; [apply Forall_nil_2|lia|by left]].
  destruct (isHTTPScheme (Scheme u)) eqn:Es; cbn [negb]; [|split_and!; [apply Forall_nil_2|simpl; lia|by left]].
  destruct (String.eqb (Host u) ""); [simpl; split_and!; [apply Forall_nil_2|lia|by left]|].
  destruct (screenURL u (allowedDomains f)) as [[]|e] eqn:Eu; [|simpl; split_and!; [apply Forall_nil_2|lia|by left]].
  destruct (client_Do f net maxRedirects 0 u) as [log r] eqn:Ec. cbn [fst].
  apply client_Do_contained in Ec as (Hall & Hlen & Hhd); [|by apply screen_may]. split_and!; [done|done|].
  destruct Hhd as [->|(ips & rest & ->)]; [by left|right]. by exists u, ips, rest.
Qed.

(** An address outside the networks that a fetch must not reach; IPv4 addresses
    count in their mapped IPv6 form too. *)
Definition outside_blocked_networks (ip : IP) : Prop :=
  match To4 ip with
  | Some (a, b, c, d) => forall n, n ∈ [([0; 0; 0; 0], 32); ([10; 0; 0; 0], 8); ([100; 64; 0; 0], 10); ([127; 0; 0; 0], 8);
        ([169; 254; 0; 0], 16); ([172; 16; 0; 0], 12); ([192; 168; 0; 0], 16); ([224; 0; 0; 0], 4)] ->
      in_cidr 32 (ipnum [a; b; c; d]) (ipnum n.1, n.2) = false
  | None => forall n, n ∈ [([0; 0], 128); ([0; 1], 128); ([252; 0], 7); ([254; 128], 10); ([255; 0], 8)] ->
      (* the first byte pair of the prefix; of ::/128 and ::1/128 the last *)
      in_cidr 128 (ipnum ip) (if n.2 =? 128 then ipnum n.1 else Z.shiftl (ipnum n.1) 112, n.2) = false
  end.

Lemma unblocked_is_outside domains ip : Forall byte ip -> (length ip = 4 \/ length ip = 16)%nat ->
  isBlockedIP (New domains) ip = false -> outside_blocked_networks ip.
Proof.
  intros Hb Hl. rewrite blocked_networks by done. unfold outside_blocked_networks.
  assert (forall bits x (l : list (Z * Z)) c, existsb (in_cidr bits x) l = false -> In c l -> in_cidr bits x c = false) as Hex.
  { intros bits x l c He Hin. destruct (in_cidr bits x c) eqn:E; [|done]. exfalso. apply not_true_iff_false in He. apply He, existsb_exists. eauto. }
  destruct (To4 ip) as [[[[a b] c] d]|]; intros He n Hn; apply list_elem_of_In in Hn; (eapply Hex; [exact He|]);
    cbn [In] in Hn; repeat (destruct Hn as [<-|Hn]; [vm_compute; tauto|]); done.
Qed.

(** C35: a fetch is contained.  Whatever the network answers, also when a name
    resolves differently at every hop, a fetch makes at most five requests, each
    for an http or https URL and over one of at most two connections; every
    connection it opens, for redirects too, goes to an address outside 0.0.0.0,
    10/8, 100.64/10, 127/8, 169.254/16, 172.16/12, 192.168/16 and 224/4 (in their
    mapped IPv6 form too) and outside ::, ::1, fc00::/7, fe80::/10 and ff00::/8
    (other special ranges, such as 240/4, 198.18/15 or NAT64, are not refused);
    with an allowlist every requested host is a listed domain or a subdomain of
    one; and if anything is requested, the first request is for the given URL and
    that URL passed the exfiltration screen. *)
Theorem fetch_is_contained (domains : list string) (net : network) (html_Parse : string -> option hnode)
    (rawURL : string) (parsed : option URL) :
  let f := New domains in
  let log := (Fetch f net html_Parse rawURL parsed).1 in
  (length log <= 5)%nat /\
  Forall (fun c : URL * list IP => isHTTPScheme (Scheme c.1) = true /\ (1 <= length c.2 <= 2)%nat /\
    (forall ip, ip ∈ c.2 -> Forall byte ip -> (length ip = 4 \/ length ip = 16)%nat -> outside_blocked_networks ip) /\
    (normalizeDomains domains <> [] -> host_listed f (ToLower (Hostname c.1)) \/ host_listed f (ToLower (TrimSuffix (Hostname c.1) ".")))) log /\
  (log = [] \/ exists u ips rest, parsed = Some u /\ screenURL u (normalizeDomains domains) = Ok tt /\ log = (u, ips) :: rest).
Proof.
  intros f log. destruct (Fetch_contained f net html_Parse rawURL parsed) as (Hc & Hl & Hs). split; [exact Hl|]. split; [|exact Hs].
  eapply Forall_impl; [exact Hc|]. intros [u ips] ((Hu & Hh) & Hn & Hf). cbn [fst snd] in *. split_and!; try done; try lia.
  intros ip Hin Hb H4. rewrite Forall_forall in Hf. by apply (unblocked_is_outside domains), Hf.
Qed.

(** ** Bounds *)

Lemma str_take_zlen n s : 0 <= n -> zlen (str_take (Z.to_nat n) s) <= n.
Proof. intros Hn. unfold zlen. rewrite str_length_take. lia. Qed.

Lemma str_take_take_le n m s : (n <= m)%nat -> str_take n (str_take m s) = str_take n s.
Proof.
  revert n m. induction s as [|c s IH]; intros [|n] [|m] Hn; try done; try lia. simpl. rewrite IH by lia. done.
Qed.

(** the text of a response is bounded: what is handed to the renderer is a
    prefix of the body of at most 2 MiB, all of it unless the result says it was
    truncated, and it is truncated exactly when the body is longer than that. *)
Theorem fetch_body_is_capped (html_Parse : string -> option hnode)
    (rawURL : string) (u : URL) (r : response) (res : fetch_result) :
  finish html_Parse rawURL u r = Ok res ->
  exists data rest, body r = data +:+ rest /\ zlen data <= MaxBodyBytes /\
    (res_Truncated res = true <-> MaxBodyBytes < zlen (body r)) /\ (res_Truncated res = false -> rest = ""%string) /\
    (res_Markdown res = TrimSpace data \/ exists root, html_Parse data = Some root /\ res_Markdown res = htmlToMarkdown root).
Proof.
  unfold finish. destruct (_ || _); [done|].
  pose proof (eq_refl : MaxBodyBytes = 2097152) as EM. set (cap := Z.to_nat MaxBodyBytes). set (t := MaxBodyBytes <? zlen (body r)).
  assert (forall d, read_capped r = Ok d -> (MaxBodyBytes <? zlen d) = t /\
            (if MaxBodyBytes <? zlen d then str_take cap d else d) = if t then str_take cap (body r) else body r) as Hread.
  { unfold read_capped, t. intros d. destruct (Z.ltb_spec MaxBodyBytes (zlen (body r))) as [Hb|Hb].
    - intros [= <-]. assert (zlen (str_take (Z.to_nat (MaxBodyBytes + 1)) (body r)) = MaxBodyBytes + 1) as E.
      { unfold zlen in *. rewrite str_length_take. lia. }
      rewrite E. destruct (Z.ltb_spec MaxBodyBytes (MaxBodyBytes + 1)); [|lia]. split; [done|]. unfold cap. apply str_take_take_le. lia.
    - destruct (body_fails r); [done|]. intros [= <-]. destruct (Z.ltb_spec MaxBodyBytes (zlen (body r))); [lia|done]. }
  assert (exists data rest, body r = data +:+ rest /\ zlen data <= MaxBodyBytes /\
            (t = true <-> MaxBodyBytes < zlen (body r)) /\ (t = false -> rest = ""%string) /\
            data = (if t then str_take cap (body r) else body r)) as (data & rest & Hd & Hz & Ht & Hr & Hdata).
  { unfold t. destruct (Z.ltb_spec MaxBodyBytes (zlen (body r))) as [Hb|Hb].
    - exists (str_take cap (body r)), (str_drop cap (body r)). rewrite str_take_drop.
      split_and!; [done|by apply str_take_zlen|done|done|done].
    - exists (body r), ""%string. rewrite str_app_nil_r. split_and!; done || lia. }
  destruct (classifyContentType (ContentType r)); [done|..]; destruct (read_capped r) as [d|e] eqn:Er; try done; cbn [mbind result_bind];
    destruct (Hread d eq_refl) as [E1 E2]; fold cap; rewrite E2, E1, <-Hdata.
  - destruct (html_Parse data) as [root|] eqn:Ep; [|done]. intros [= <-]. exists data, rest. simpl. split_and!; try done. right. by exists root.
  - intros [= <-]. exists data, rest. simpl. split_and!; try done. by left.
Qed.

(** ** Examples and divergences *)

Lemma blocked_networks_witness :
  isBlockedIP (New []) [172; 31; 255; 255] = existsb (in_cidr 32 (ipnum [172; 31; 255; 255])) blocked4 /\
  isBlockedIP (New []) [172; 31; 255; 255] = true.
Proof.
  split; [|vm_compute; reflexivity].
  exact (blocked_networks [] [172; 31; 255; 255] ltac:(apply (bool_decide_eq_true_1 _); vm_compute; reflexivity) ltac:(by left)).
Defined.

Lemma fetch_body_is_capped_witness :
  exists data rest, "hello "%string = data +:+ rest /\ zlen data <= MaxBodyBytes.
Proof.
  destruct (fetch_body_is_capped (fun _ => None) "u" (mkURL "https" "h" "h" false "/" [] "") (mkResponse 200 "text/plain" "hello " None)
              (mkResult "u" (mkURL "https" "h" "h" false "/" [] "") "text/plain" "hello" false))
    as (data & rest & Hd & Hz & _).
  - vm_compute. reflexivity.
  - by exists data, rest.
Defined.

(** Addresses that are not public and are not blocked: reserved space, benchmark
    space, and IPv6 forms that embed a private or loopback IPv4 address (NAT64,
    6to4, IPv4-compatible). *)
Lemma unblocked_special_addresses :
  forallb (fun ip => negb (isBlockedIP (New []) ip))
    [[0; 0; 0; 1]; [192; 0; 0; 8]; [198; 18; 0; 1]; [240; 0; 0; 1]; [255; 255; 255; 255];
     [0; 100; 255; 155; 0; 0; 0; 0; 0; 0; 0; 0; 10; 0; 0; 1]; [32; 2; 10; 0; 0; 1; 0; 0; 0; 0; 0; 0; 0; 0; 0; 0];
     [0; 0; 0; 0; 0; 0; 0; 0; 0; 0; 0; 0; 127; 0; 0; 1]] = true.
Proof. vm_compute. reflexivity. Qed.

(** A redirect is not screened for secrets, only the first URL is. *)
Lemma redirect_is_not_screened :
  let u := mkURL "https" "evil.example" "evil.example" false "/" [("token", ["abcdef123456"])] "" in
  screenURL u [] = Err (ErrSuspiciousURL "parameter") /\ CheckRedirect (New []) u = Ok tt.
Proof. split; vm_compute; reflexivity. Qed.

(** The final dot of a host name is dropped in the first URL and kept in a
    redirect, so the same host is permitted in one place and refused in the other. *)
Lemma redirect_keeps_final_dot :
  let u := mkURL "https" "example.com." "example.com." false "/" [] "" in
  let f := New ["example.com"] in
  screenURL u (allowedDomains f) = Ok tt /\ CheckRedirect f u = Err ErrDomainNotAllowed.
Proof. split; vm_compute; reflexivity. Qed.
