(* ===== verification/GoJson.v ===== *)
(** * The output of encoding/json for strings and flat structs

    [Marshal] escapes HTML characters and replaces invalid UTF-8; it is needed
    where the code reasons about the size of what it encodes. *)

From Stdlib Require Import DecimalFacts DecimalString DecimalPos.
From S2P Require Import Prelude GoString GoConv Event Utf8.

Definition dq : string := Eval vm_compute in bytes_of [34].
Definition backslash : string := Eval vm_compute in bytes_of [92].

Definition hex_digit (n : nat) : ascii := ascii_of_nat (if n <? 10 then 48 + n else 87 + n).

(** The escape of one ASCII byte. *)
Definition escape_byte (c : ascii) : string :=
  let n := nat_of_ascii c in
  if (n =? 34) || (n =? 92) then backslash +:+ String c ""
  else if n =? 8 then backslash +:+ "b"
  else if n =? 12 then backslash +:+ "f"
  else if n =? 10 then backslash +:+ "n"
  else if n =? 13 then backslash +:+ "r"
  else if n =? 9 then backslash +:+ "t"
  else if (n <? 32) || (n =? 60) || (n =? 62) || (n =? 38)
  then backslash +:+ "u00" +:+ String (hex_digit (n / 16)) (String (hex_digit (n mod 16)) "")
  else String c "".

Definition line_sep : string := Eval vm_compute in bytes_of [226; 128; 168].
Definition para_sep : string := Eval vm_compute in bytes_of [226; 128; 169].

Fixpoint escape_fuel (fuel : nat) (s : string) : string :=
  match fuel, s with
  | S fuel, String c s' =>
      match rune_len s with
      | None => backslash +:+ "ufffd" +:+ escape_fuel fuel s'
      | Some 1 => escape_byte c +:+ escape_fuel fuel s'
      | Some n =>
          (if HasPrefix s line_sep then backslash +:+ "u2028"
           else if HasPrefix s para_sep then backslash +:+ "u2029"
           else str_take n s) +:+ escape_fuel fuel (str_drop n s)
      end
  | _, _ => ""
  end.

(** Each round consumes at least one byte. *)
Definition escape (s : string) : string := escape_fuel (String.length s) s.
Definition json_string (s : string) : string := dq +:+ escape s +:+ dq.

(** A struct: the fields that are not omitted, in order. *)
Definition json_object (fields : list (option (string * string))) : string :=
  "{" +:+ StrJoin "," ((fun kv => json_string kv.1 +:+ ":" +:+ kv.2) <$> omap id fields) +:+ "}".

(** A slice; nil is [null]. *)
Definition json_array (l : list string) : string :=
  match l with [] => "null" | _ => "[" +:+ StrJoin "," l +:+ "]" end.

Lemma escape_byte_len c : String.length (escape_byte c) <= 6.
Proof. unfold escape_byte. repeat case_match; simpl; lia. Qed.

Lemma escape_fuel_len fuel s : String.length s <= fuel -> String.length (escape_fuel fuel s) <= 6 * String.length s.
Proof.
  revert s. induction fuel as [|fuel IH]; intros [|c s] Hl; cbn [escape_fuel String.length] in *; try lia.
  destruct (rune_len (String c s)) as [[|[|n]]|] eqn:Er.
  - apply rune_len_pos in Er. lia.
  - rewrite str_length_app. pose proof (escape_byte_len c). pose proof (IH s). lia.
  - pose proof (rune_len_pos _ _ Er) as [_ Hn]. cbn [String.length] in Hn. set (n2 := S (S n)) in *.
    rewrite str_length_app. pose proof (IH (str_drop n2 (String c s))) as Hd. rewrite str_length_drop in Hd. cbn [String.length] in Hd.
    assert (String.length (if HasPrefix (String c s) line_sep then backslash +:+ "u2028"
       else if HasPrefix (String c s) para_sep then backslash +:+ "u2029" else str_take n2 (String c s)) <= 6 * n2) as Hh.
    { destruct (HasPrefix _ line_sep); [transitivity 6; [apply Nat.leb_le; reflexivity|lia]|].
      destruct (HasPrefix _ para_sep); [transitivity 6; [apply Nat.leb_le; reflexivity|lia]|]. rewrite str_length_take. lia. }
    lia.
  - rewrite !str_length_app. pose proof (IH s). cbn [String.length] in *. unfold backslash. cbn [String.length]. lia.
Qed.

(** Encoding a string makes it at most six times as long. *)
Lemma json_string_len s : String.length (json_string s) <= 6 * String.length s + 2.
Proof.
  unfold json_string, escape. rewrite !str_length_app. pose proof (escape_fuel_len _ s (le_n _)).
  change (String.length dq) with 1. lia.
Qed.

(** ** Sizes of numbers and structs *)

Lemma string_of_uint_usize d : N.of_nat (String.length (NilEmpty.string_of_uint d)) = DecimalPos.Unsigned.usize d.
Proof. induction d; cbn [NilEmpty.string_of_uint String.length DecimalPos.Unsigned.usize]; rewrite ?Nat2N.inj_succ, ?IHd; done. Qed.

Lemma of_uint_acc_pow d acc : (10 ^ DecimalPos.Unsigned.usize d <= N.pos (Pos.of_uint_acc d acc))%N.
Proof. rewrite DecimalPos.Unsigned.of_uint_acc_rev. nia. Qed.

Lemma to_uint_head p d : Pos.to_uint p <> Decimal.D0 d.
Proof.
  intros H. pose proof (DecimalPos.Unsigned.to_of (Pos.to_uint p)) as Hu. rewrite DecimalPos.Unsigned.of_to in Hu. cbn in Hu.
  unfold Decimal.unorm in Hu. pose proof (nzhead_nonzero (Pos.to_uint p)) as Hz.
  pose proof (DecimalPos.Unsigned.to_uint_nonzero p) as Hp.
  destruct (Decimal.nzhead (Pos.to_uint p)) eqn:E; try congruence.
Qed.

(** The digits of a number. *)
Lemma Itoa_length n k : (0 <= n < 10 ^ Z.of_nat k)%Z -> 0 < k -> String.length (Itoa n) <= k.
Proof.
  intros [H0 Hn] Hk. destruct n as [|p|p]; [cbn; lia| |lia]. unfold Itoa. cbn [Z.to_int NilZero.string_of_int].
  pose proof (DecimalPos.Unsigned.of_to p) as Hof. pose proof (to_uint_head p) as Hh.
  assert (forall d acc, N.pos p = N.pos (Pos.of_uint_acc d acc) -> S (String.length (NilEmpty.string_of_uint d)) <= k) as Hd.
  { intros d acc He. pose proof (of_uint_acc_pow d acc) as Hp. rewrite <-He in Hp. rewrite <-string_of_uint_usize in Hp.
    destruct (Nat.le_gt_cases (S (String.length (NilEmpty.string_of_uint d))) k) as [|Hgt]; [done|exfalso].
    assert (10 ^ N.of_nat k <= 10 ^ N.of_nat (String.length (NilEmpty.string_of_uint d)))%N by (apply N.pow_le_mono_r; lia).
    assert (Z.of_N (10 ^ N.of_nat k) = 10 ^ Z.of_nat k)%Z by (rewrite N2Z.inj_pow; f_equal; lia). lia. }
  destruct (Pos.to_uint p) as [|d|d|d|d|d|d|d|d|d|d] eqn:E; cbn [NilZero.string_of_uint NilEmpty.string_of_uint String.length Pos.of_uint] in *;
    [by cbn in Hof|by destruct (Hh d)|..]; by eapply Hd.
Qed.

Definition field_bytes (l : list string) : nat := list_sum ((fun x => S (String.length x)) <$> l).

Lemma field_bytes_cons x l : field_bytes (x :: l) = S (String.length x) + field_bytes l.
Proof. done. Qed.

Lemma StrJoin_length l : String.length (StrJoin "," l) = field_bytes l - 1.
Proof.
  induction l as [|x l IH]; [done|]. destruct l as [|y l]; [rewrite field_bytes_cons; cbn; lia|].
  change (StrJoin "," (x :: y :: l)) with (x +:+ "," +:+ StrJoin "," (y :: l)). rewrite !str_length_app, IH.
  rewrite !field_bytes_cons. cbn [String.length]. lia.
Qed.

Lemma field_bytes_app a b : field_bytes (a ++ b) = field_bytes a + field_bytes b.
Proof. unfold field_bytes. rewrite fmap_app. apply list_sum_app. Qed.

Definition field (kv : string * string) : string := json_string kv.1 +:+ ":" +:+ kv.2.

(** A further field costs its own bytes and a comma. *)
Lemma json_object_insert a kv b :
  String.length (json_object (a ++ Some kv :: b)) <= String.length (json_object (a ++ None :: b)) + S (String.length (field kv)).
Proof.
  unfold json_object. rewrite !str_length_app, !StrJoin_length. fold field. rewrite !omap_app, !fmap_app, !field_bytes_app.
  cbn [omap list_omap id fmap list_fmap].
  rewrite field_bytes_cons. lia.
Qed.
