(* ===== verification/GitHub.v ===== *)
(** * The GitHub package, apart from its client (internal/githubmcp)

    schema.go: tool names and the conversion of an upstream JSON Schema.
    destructive.go: which tools write.  userctx.go, token.go, peruser.go: the
    identity in the context and the credential sources.  ratelimit.go: the
    rate-limit markers, the Retry-After hint and the backoff.

    [encoding/json] is a parameter where it decodes ([decode], [unquote],
    [unmarshal]); the environment, the tokens file and the random draws are
    arguments. *)

From S2P Require Import Prelude GoString GoConv Event Utf8 Wire GoNum.

#[local] Open Scope Z_scope.

(** ** Tool names (schema.go) *)

Definition ToolPrefix : string := "github_".

Definition PrefixedName (mcpName : string) : string :=
  if HasPrefix mcpName ToolPrefix then mcpName else ToolPrefix +:+ mcpName.

Definition UnprefixedName (prefixedName : string) : string := TrimPrefix prefixedName ToolPrefix.

Definition IsGitHubTool (name : string) : bool := HasPrefix name ToolPrefix.

(** ** Schemas (schema.go; [Schema] of internal/middleware/tools.go) *)

(** A JSON object decoded to a Go map is an association list without
    duplicate keys; [null] decodes to the nil pointer. *)
Inductive rawSchema := mkRaw {
  raw_Type : string;
  raw_Description : string;
  raw_Properties : list (string * option rawSchema);
  raw_Required : list string;
  raw_Enum : list string;             (* json.RawMessage *)
  raw_Items : option rawSchema;
  raw_Minimum : option f64;
  raw_Maximum : option f64;
}.

Inductive Schema := mkSchema {
  sc_Type : string;
  sc_Description : string;
  sc_Properties : list (string * Schema);
  sc_Required : list string;
  sc_Enum : list string;
  sc_Items : option Schema;
  sc_Minimum : option f64;
  sc_Maximum : option f64;
}.

Definition schema_types : list string := ["object"; "string"; "integer"; "number"; "boolean"; "array"].

Definition normalizeType (t : string) : string :=
  if existsb (String.eqb (ToLower t)) schema_types then ToLower t
  else if String.eqb (ToLower t) "" then "object"
  else "string".

Definition dquote : ascii := ascii_of_nat 34.

Section convert.
(** [json.Unmarshal] of a raw value into a string. *)
Variable unquote : string -> option string.

Definition quoted (s : string) : bool :=
  (2 <=? zlen s) && match s with String c _ => Ascii.eqb c dquote | _ => false end &&
  match last_byte s with Some c => Ascii.eqb c dquote | None => false end.

Definition enum_string (v : string) : string :=
  if quoted v then match unquote v with Some s => s | None => v end else v.

Definition enumToStrings (raw : list string) : list string := enum_string <$> raw.

(** [convert] of a schema that is not nil. *)
Fixpoint convert (r : rawSchema) : Schema :=
  let fix properties (l : list (string * option rawSchema)) : list (string * Schema) :=
    match l with
    | [] => []
    | (k, None) :: l' => properties l'
    | (k, Some v) :: l' => (k, convert v) :: properties l'
    end in
  mkSchema (normalizeType (raw_Type r)) (raw_Description r) (properties (raw_Properties r)) (raw_Required r)
    (enumToStrings (raw_Enum r))
    (match raw_Items r with Some i => Some (convert i) | None => None end)
    (raw_Minimum r) (raw_Maximum r).

Definition empty_schema (description : string) : Schema := mkSchema "object" description [] [] [] None None None.

(** [json.Unmarshal] into a [rawSchema]; a JSON [null] leaves the zero value. *)
Variable decode : string -> option rawSchema.

Definition ConvertSchema (raw : string) : Schema * bool :=
  if String.eqb raw "" then (empty_schema "", true)
  else match decode raw with
       | None => (empty_schema "schema unavailable (parse failed); see upstream docs", false)
       | Some r => (convert r, true)
       end.
End convert.

(** ** Which tools write (destructive.go) *)

Definition destructiveVerbs : list string :=
  ["create_"; "update_"; "delete_"; "merge_"; "push_"; "add_"; "enable_"; "disable_"; "fork_"; "resolve_"; "unresolve_";
   "request_"; "run_"; "cancel_"; "approve_"; "dismiss_"; "set_"; "remove_"].

Definition destructiveExact : list string := ["sub_issue_write"; "issue_write"; "pull_request_review_write"].

Definition IsDestructiveTool (name : string) : bool :=
  let bare := TrimPrefix name ToolPrefix in
  existsb (String.eqb bare) destructiveExact || existsb (HasPrefix bare) destructiveVerbs || HasSuffix bare "_write".

(** ** Identity and credentials (userctx.go, token.go, peruser.go) *)

(** What a context carries under [userSubKey]. *)
Record Ctx := mkCtx { ctx_id : nat; user_sub : option string }.

Definition WithUserSub (ctx : Ctx) (sub : string) : Ctx :=
  if String.eqb sub "" then ctx else mkCtx (ctx_id ctx) (Some sub).

Definition UserSubFromContext (ctx : Ctx) : string := default "" (user_sub ctx).

Inductive token_error := ErrNoToken | ErrTokensFile (step : string).

#[export] Instance token_error_eq_dec : EqDecision token_error.
Proof. solve_decision. Defined.

(** The interface [TokenSource], its context the argument. *)
Abbreviation TokenSource := (Ctx -> result token_error string).

Definition Getenv (env : gmap string string) (name : string) : string := default "" (env !! name).

Definition EnvTokenSource (env : gmap string string) (var : string) : TokenSource := fun _ =>
  let v := Getenv env (if String.eqb var "" then "NOMADDEV_GITHUB_TOKEN" else var) in
  if String.eqb v "" then Err ErrNoToken else Ok v.

Definition StaticTokenSource (value : string) : TokenSource := fun _ =>
  if String.eqb value "" then Err ErrNoToken else Ok value.

Record PerUserTokenSource := mkPerUser {
  Path : string;
  Fallback : option TokenSource;
  lastMod : Z;
  cached : option (gmap string string);       (* nil or a map *)
}.

(** The tokens file as one call sees it: its modification time, and its
    bytes; [None] where the system call fails. *)
Record fileview := mkView { fv_stat : option Z; fv_read : option string }.

Section per_user.
(** [json.Unmarshal] into a [map[string]string]; [null] gives the nil map. *)
Variable unmarshal : string -> option (option (gmap string string)).

Definition load (s : PerUserTokenSource) (v : fileview) : PerUserTokenSource * result token_error (option (gmap string string)) :=
  if String.eqb (Path s) "" then (s, Err ErrNoToken)
  else match fv_stat v with
  | None => (s, Err (ErrTokensFile "stat"))
  | Some mtime =>
      if bool_decide (cached s <> None) && (mtime =? lastMod s) then (s, Ok (cached s))
      else match fv_read v with
      | None => (s, Err (ErrTokensFile "read"))
      | Some raw =>
          match unmarshal raw with
          | None => (s, Err (ErrTokensFile "parse"))
          | Some parsed => (mkPerUser (Path s) (Fallback s) mtime parsed, Ok parsed)
          end
      end
  end.

Definition fallbackToken (s : PerUserTokenSource) (ctx : Ctx) : result token_error string :=
  match Fallback s with None => Err ErrNoToken | Some f => f ctx end.

Definition Token (s : PerUserTokenSource) (ctx : Ctx) (v : fileview) : PerUserTokenSource * result token_error string :=
  let sub := UserSubFromContext ctx in
  if String.eqb sub "" then (s, fallbackToken s ctx)
  else match load s v with
  | (s', Err _) => (s', fallbackToken s' ctx)
  | (s', Ok tokens) =>
      match tokens ≫= lookup sub with
      | Some tok => if negb (String.eqb tok "") then (s', Ok tok) else (s', fallbackToken s' ctx)
      | None => (s', fallbackToken s' ctx)
      end
  end.

(** A sequence of calls of one source. *)
Fixpoint tokens_run (s : PerUserTokenSource) (l : list (Ctx * fileview)) : list (result token_error string) :=
  match l with
  | [] => []
  | (ctx, v) :: l' => let '(s', r) := Token s ctx v in r :: tokens_run s' l'
  end.
End per_user.

(** ** Rate limits (ratelimit.go) *)

Definition Second : Z := 1000000000.

Definition rateLimitMarkers : list string :=
  ["api rate limit exceeded"; "secondary rate limit"; "abuse detection"; "have exceeded a rate limit"; "403 forbidden";
   "rate limit reset at"].

Definition looksLikeRateLimitText (text : string) : bool :=
  if String.eqb text "" then false else containsAny (ToLower text) rateLimitMarkers.

(** *** [retryAfterRE]

    Matching at one position is deterministic: the run of non-digits and the
    digits are each as long as possible, and taking an optional part of
    [reset(?:s)?(?: in)?] only shortens that run. *)

(** One letter under [(?i)]: U+017F also folds to [s]. *)
Definition long_s : string := Eval vm_compute in bytes_of [197; 191]%nat.

Definition eat (c : ascii) (s : string) : option string :=
  match s with
  | String d s' => if Ascii.eqb (lower_byte d) c then Some s'
                   else if Ascii.eqb c "s" then CutPrefix s long_s else None
  | EmptyString => None
  end.

Fixpoint eats (w s : string) : option string :=
  match w with
  | EmptyString => Some s
  | String c w' => eat c s ≫= eats w'
  end.

Definition opt_eats (w s : string) : string := default s (eats w s).

(** [(?:retry[\- ]after|wait|reset(?:s)?(?: in)?)] *)
Definition hint_phrase (s : string) : option string :=
  match eats "retry after" s with
  | Some r => Some r
  | None => match eats "retry-after" s with
  | Some r => Some r
  | None => match eats "wait" s with
  | Some r => Some r
  | None => (fun r => opt_eats " in" (opt_eats "s" r)) <$> eats "reset" s
  end end end.

(** [[^0-9]{0,16}] up to the first digit; it counts runes. *)
Fixpoint skip_nondigits (n : nat) (s : string) : option string :=
  match s with
  | EmptyString => None
  | String c _ =>
      if dec_digit c then Some s
      else match n with
           | O => None
           | S n' => skip_nondigits n' (str_drop (default 1%nat (rune_len s)) s)
           end
  end.

Fixpoint digits_of (s : string) : string * string :=
  match s with
  | String c s' => if dec_digit c then let '(d, r) := digits_of s' in (String c d, r) else ("", s)
  | EmptyString => ("", "")
  end.

Definition re_space (c : ascii) : bool := existsb (Nat.eqb (nat_of_ascii c)) [9; 10; 12; 13; 32]%nat.
Definition word_byte (c : ascii) : bool := is_upper c || is_lower c || dec_digit c || Ascii.eqb c "_".

(** [\b] at [rest], after the byte that ends [s] there. *)
Definition boundary (s rest : string) : bool :=
  negb (eqb (match last_byte (str_take (String.length s - String.length rest) s) with Some c => word_byte c | None => false end)
            (match rest with String c _ => word_byte c | EmptyString => false end)).

(** [(?:s|sec|seconds?)\b] *)
Definition unit_matches (s : string) : bool :=
  existsb (fun w => match eats w s with Some rest => boundary s rest | None => false end) ["s"; "sec"; "second"; "seconds"].

Definition hint_here (s : string) : option string :=
  r ← hint_phrase s;
  r ← skip_nondigits 16 r;
  let '(digits, r) := digits_of r in
  if unit_matches (drop_while re_space r) then Some digits else None.

(** [FindStringSubmatch], group 1 of the leftmost match. *)
Fixpoint retryAfterRE (s : string) : option string :=
  match hint_here s with
  | Some d => Some d
  | None => match s with String _ s' => retryAfterRE s' | EmptyString => None end
  end.

Definition maxHint : Z := 300 * Second.

Definition parseRetryAfter (text : string) : Z :=
  match retryAfterRE text with
  | None => 0
  | Some digits =>
      match Atoi digits with
      | None => 0
      | Some secs =>
          if secs <=? 0 then 0
          else let d := wrap64 (secs * Second) in
               if maxHint <? d then maxHint else d
      end
  end.

(** [rng.Int63n(n)] is the accepted draw modulo [n]. *)
Definition jitter (maxAbs : Z) (draw : option Z) : Z :=
  match draw with
  | Some v => if maxAbs <=? 0 then 0 else v mod maxAbs
  | None => 0
  end.

Definition maxBackoff : Z := 30 * Second.

Definition nextBackoff (attempt base hint : Z) (draw : option Z) : Z :=
  if 0 <? hint then hint + jitter (Z.quot hint 4) draw
  else
    let attempt := if attempt <? 1 then 1 else attempt in
    let d := wrap64 (Z.shiftl base (attempt - 1)) in
    let d := if maxBackoff <? d then maxBackoff else d in
    d + jitter (Z.quot d 4) draw.

(** ** Names: theorems *)

Lemma TrimPrefix_app p s : TrimPrefix (p +:+ s) p = s.
Proof. unfold TrimPrefix. by rewrite HasPrefix_refl_app, str_drop_app_length. Qed.

Lemma TrimPrefix_none p s : HasPrefix s p = false -> TrimPrefix s p = s.
Proof. unfold TrimPrefix. by intros ->. Qed.

Lemma prefixed_is_github n : IsGitHubTool (PrefixedName n) = true.
Proof. unfold IsGitHubTool, PrefixedName. destruct (HasPrefix n ToolPrefix) eqn:E; [done|apply HasPrefix_refl_app]. Qed.

Lemma prefix_idempotent n : PrefixedName (PrefixedName n) = PrefixedName n.
Proof. unfold PrefixedName at 1. fold (IsGitHubTool (PrefixedName n)). by rewrite prefixed_is_github. Qed.

Lemma unprefix_prefix n : HasPrefix n ToolPrefix = false -> UnprefixedName (PrefixedName n) = n.
Proof. intros H. unfold UnprefixedName, PrefixedName. rewrite H. apply TrimPrefix_app. Qed.

(** An upstream tool whose own name starts with the prefix is called under
    another name, and stripping twice strips twice. *)
Lemma unprefix_loses_own_prefix :
  UnprefixedName (PrefixedName "github_support_docs_search") = "support_docs_search" /\
  UnprefixedName (UnprefixedName "github_github_x") <> UnprefixedName "github_github_x".
Proof. split; [reflexivity|discriminate]. Qed.

(** The heuristic reads the bare and the prefixed name alike. *)
Lemma destructive_prefixed n : IsDestructiveTool (PrefixedName n) = IsDestructiveTool n.
Proof.
  unfold PrefixedName. destruct (HasPrefix n ToolPrefix) eqn:E; [done|]. unfold IsDestructiveTool.
  by rewrite TrimPrefix_app, (TrimPrefix_none _ _ E).
Qed.

(** ** Schemas: theorems *)

(** A place in a schema: from a node to a property or to the items. *)
Inductive place := InProperty (k : string) | InItems.

(** The first property of that name that is not null. *)
Fixpoint raw_property (k : string) (l : list (string * option rawSchema)) : option rawSchema :=
  match l with
  | [] => None
  | (k', Some v) :: l' => if String.eqb k k' then Some v else raw_property k l'
  | (_, None) :: l' => raw_property k l'
  end.

Fixpoint property (k : string) (l : list (string * Schema)) : option Schema :=
  match l with
  | [] => None
  | (k', v) :: l' => if String.eqb k k' then Some v else property k l'
  end.

Fixpoint raw_at (p : list place) (r : rawSchema) : option rawSchema :=
  match p with
  | [] => Some r
  | InProperty k :: p' => raw_property k (raw_Properties r) ≫= raw_at p'
  | InItems :: p' => raw_Items r ≫= raw_at p'
  end.

Fixpoint schema_at (p : list place) (s : Schema) : option Schema :=
  match p with
  | [] => Some s
  | InProperty k :: p' => property k (sc_Properties s) ≫= schema_at p'
  | InItems :: p' => sc_Items s ≫= schema_at p'
  end.

Lemma convert_property u k r : property k (sc_Properties (convert u r)) = convert u <$> raw_property k (raw_Properties r).
Proof.
  destruct r as [ty d props req en it mn mx]. cbn [convert sc_Properties raw_Properties].
  induction props as [|[k' [v|]] props IH]; [done| |exact IH].
  cbn [raw_property property]. destruct (String.eqb k k'); [done|exact IH].
Qed.

Lemma convert_items u r : sc_Items (convert u r) = convert u <$> raw_Items r.
Proof. by destruct r as [? ? ? ? ? [?|] ? ?]. Qed.

Lemma convert_at u p r : schema_at p (convert u r) = convert u <$> raw_at p r.
Proof.
  revert r. induction p as [|[k|] p IH]; intros r; [done| |]; cbn [schema_at raw_at].
  - rewrite convert_property. destruct (raw_property k (raw_Properties r)) as [v|]; [apply IH|done].
  - rewrite convert_items. destruct (raw_Items r) as [v|]; [apply IH|done].
Qed.

Lemma normalizeType_known t : normalizeType t ∈ schema_types.
Proof.
  unfold normalizeType. destruct (existsb _ _) eqn:E.
  - apply existsb_exists in E as (x & Hx & Heq). apply String.eqb_eq in Heq as ->. by apply list_elem_of_In.
  - destruct (String.eqb _ _); by set_solver.
Qed.

Lemma empty_schema_at d p s : schema_at p (empty_schema d) = Some s -> sc_Type s ∈ schema_types.
Proof. destruct p as [|[k|] p]; [intros [= <-]; by left|done|done]. Qed.

(** the conversion of an upstream schema keeps its shape.  Whatever the
    upstream declares, every node of the converted schema has one of the six
    types the model accepts; and where the schema decodes, the node at each
    place, through any nesting of properties and items, is the conversion of
    the upstream node at the same place, so that none is dropped, added or
    moved, and its required list, description and bounds are the upstream's. *)
Theorem schema_conversion_is_faithful (unquote : string -> option string) (decode : string -> option rawSchema) (raw : string) :
  let s := (ConvertSchema unquote decode raw).1 in
  (forall p n, schema_at p s = Some n -> sc_Type n ∈ schema_types) /\
  (forall r p n, raw <> "" -> decode raw = Some r -> schema_at p s = Some n <->
     exists m, raw_at p r = Some m /\ n = convert unquote m /\
       (sc_Description n, sc_Required n, sc_Minimum n, sc_Maximum n) =
       (raw_Description m, raw_Required m, raw_Minimum m, raw_Maximum m)).
Proof.
  unfold ConvertSchema. split.
  - intros p n. destruct (String.eqb raw ""); [apply empty_schema_at|].
    destruct (decode raw) as [r|]; [|apply empty_schema_at]. cbn [fst]. rewrite convert_at.
    intros (m & _ & ->)%fmap_Some. destruct m. apply normalizeType_known.
  - intros r p n Hr Hd. destruct (String.eqb_spec raw ""); [done|]. rewrite Hd. cbn [fst]. rewrite convert_at, fmap_Some.
    split; [intros (m & Hm & ->)|intros (m & Hm & -> & _)]; exists m; [|done]. by destruct m.
Qed.

(** A property the upstream describes only by [oneOf] has no type, and becomes
    an object. *)
Lemma untyped_becomes_object : normalizeType "" = "object" /\ normalizeType "null" = "string".
Proof. done. Qed.

(** ** Credentials: theorems *)

Section per_user_spec.
Variable unmarshal : string -> option (option (gmap string string)).

(** The documented behaviour: read the file, take the user's entry. *)
Definition token_spec (path : string) (fallback : option TokenSource) (ctx : Ctx) (v : fileview) : result token_error string :=
  let shared := match fallback with None => Err ErrNoToken | Some f => f ctx end in
  let file := if String.eqb path "" then None else (_ ← fv_stat v; raw ← fv_read v; unmarshal raw) in
  let sub := UserSubFromContext ctx in
  if String.eqb sub "" then shared
  else match (m ← file; tokens ← m; lookup sub tokens) with
       | Some tok => if String.eqb tok "" then shared else Ok tok
       | None => shared
       end.

(** What is cached was read at the modification time recorded with it. *)
Definition coherent (seen : list fileview) (s : PerUserTokenSource) : Prop :=
  cached s = None \/ exists v, v ∈ seen /\ fv_stat v = Some (lastMod s) /\ (raw ← fv_read v; unmarshal raw) = Some (cached s).

Definition stable (l : list fileview) : Prop :=
  forall v w, v ∈ l -> w ∈ l -> fv_stat v = fv_stat w -> fv_read v = fv_read w.

Lemma coherent_more seen seen' s : coherent seen s -> seen ⊆ seen' -> coherent seen' s.
Proof. intros [H|(v & Hv & H)] Hs; [by left|right; exists v; by auto]. Qed.

(** What [load] leaves and returns. *)
Lemma load_spec s seen v :
  coherent seen s -> stable (v :: seen) ->
  let '(s', r) := load unmarshal s v in
  Path s' = Path s /\ Fallback s' = Fallback s /\ coherent (v :: seen) s' /\
  match r with
  | Ok m => (if String.eqb (Path s) "" then None else (_ ← fv_stat v; raw ← fv_read v; unmarshal raw)) = Some m
  | Err _ => (if String.eqb (Path s) "" then None else (_ ← fv_stat v; raw ← fv_read v; unmarshal raw)) = None
  end.
Proof.
  intros Hc Hst. pose proof (coherent_more seen (v :: seen) s Hc ltac:(set_solver)) as Hc'. unfold load.
  destruct (String.eqb (Path s) ""); [done|]. destruct (fv_stat v) as [mtime|] eqn:Es; [|done].
  destruct (_ && _) eqn:Eb.
  - boolprop. subst mtime. split_and!; [done..|]. destruct Hc as [?|(w & Hw & Hws & Hwr)]; [done|].
    cbn. rewrite (Hst v w) by (set_solver || congruence). exact Hwr.
  - destruct (fv_read v) as [raw|] eqn:Er; [|done]. destruct (unmarshal raw) as [parsed|] eqn:Eu; [|by cbn; rewrite Eu].
    split_and!; [done..| |by cbn; rewrite Eu].
    right. exists v. split; [by left|]. cbn. by rewrite Er, Es.
Qed.

Lemma Token_spec s seen ctx v :
  coherent seen s -> stable (v :: seen) ->
  let '(s', r) := Token unmarshal s ctx v in
  Path s' = Path s /\ Fallback s' = Fallback s /\ coherent (v :: seen) s' /\ r = token_spec (Path s) (Fallback s) ctx v.
Proof.
  intros Hc Hst. unfold Token, token_spec. destruct (String.eqb (UserSubFromContext ctx) "").
  { split_and!; [done..| |done]. eapply coherent_more; [done|set_solver]. }
  pose proof (load_spec s seen v Hc Hst) as Hl. destruct (load unmarshal s v) as [s' [m|e]]; destruct Hl as (Hp & Hf & Hc' & Hr); rewrite Hr.
  - unfold fallbackToken. destruct m as [tokens|]; cbn; [|by rewrite Hf].
    destruct (tokens !! UserSubFromContext ctx) as [tok|]; [|by rewrite Hf].
    destruct (String.eqb tok ""); cbn; by rewrite ?Hf.
  - unfold fallbackToken. by rewrite Hf.
Qed.

Lemma tokens_run_spec s seen l :
  coherent seen s -> stable ((snd <$> l) ++ seen) ->
  tokens_run unmarshal s l = (fun cv => token_spec (Path s) (Fallback s) cv.1 cv.2) <$> l.
Proof.
  revert s seen. induction l as [|[ctx v] l IH]; intros s seen Hc Hst; [done|]. cbn [tokens_run].
  pose proof (Token_spec s seen ctx v Hc) as Ht. destruct (Token unmarshal s ctx v) as [s' r].
  destruct Ht as (Hp & Hf & Hc' & ->). { intros a b Ha Hb. apply Hst; set_solver. }
  rewrite fmap_cons. f_equal. rewrite <-Hp, <-Hf. apply (IH s' (v :: seen)); [done|].
  intros a b Ha Hb. apply Hst; set_solver.
Qed.
End per_user_spec.

(** the cache of the per-user tokens is transparent.  Over any sequence of
    calls for any users, if the file's bytes change only together with its
    modification time, each call gets what reading the file anew would give it:
    the non-empty entry of the calling user, and of no other user, or else what
    the shared source gives. *)
Theorem token_cache_is_transparent (unmarshal : string -> option (option (gmap string string)))
    (path : string) (fallback : option TokenSource) (calls : list (Ctx * fileview)) :
  (forall v w, v ∈ calls.*2 -> w ∈ calls.*2 -> fv_stat v = fv_stat w -> fv_read v = fv_read w) ->
  tokens_run unmarshal (mkPerUser path fallback 0 None) calls =
  (fun cv => token_spec unmarshal path fallback cv.1 cv.2) <$> calls.
Proof.
  intros Hst. apply (tokens_run_spec unmarshal (mkPerUser path fallback 0 None) []); [by left|]. by rewrite app_nil_r.
Qed.

(** While the file cannot be parsed, a user who has an entry of their own, also
    one already cached, acts with the shared credential. *)
Lemma mid_edit_falls_back (unmarshal : string -> option (option (gmap string string))) (s : PerUserTokenSource) (ctx : Ctx) (t : Z) (raw : string) :
  unmarshal raw = None -> t <> lastMod s -> (Token unmarshal s ctx (mkView (Some t) (Some raw))).2 = fallbackToken s ctx.
Proof.
  intros Hu Ht. unfold Token, load. destruct (String.eqb (UserSubFromContext ctx) ""); [done|].
  destruct (String.eqb (Path s) ""); [done|]. cbn [fv_stat fv_read].
  replace (t =? lastMod s) with false by lia. rewrite andb_false_r, Hu. done.
Qed.

(** ** Rate limits: theorems *)

Lemma parseRetryAfter_le text : parseRetryAfter text <= maxHint.
Proof.
  unfold parseRetryAfter, maxHint, Second. repeat case_match; boolprop; lia.
Qed.

Lemma jitter_bounds m draw : 0 <= jitter m draw <= Z.max 0 m.
Proof.
  unfold jitter. destruct draw as [v|]; [|lia]. destruct (m <=? 0) eqn:E; boolprop; [lia|].
  pose proof (Z.mod_pos_bound v m). lia.
Qed.

Lemma wrap64_small z : - 2 ^ 63 <= z < 2 ^ 63 -> wrap64 z = z.
Proof. intros H. unfold wrap64. rewrite Z.mod_small by lia. lia. Qed.

Lemma quarter_bounds d m : d <= 4 * m -> 0 <= m -> Z.max 0 (Z.quot d 4) <= m.
Proof.
  intros Hd Hm. destruct (Z.le_gt_cases 0 d) as [Hp|Hn].
  - rewrite Z.quot_div_nonneg by lia. pose proof (Z.mul_div_le d 4). lia.
  - pose proof (Z.quot_opp_l d 4 ltac:(lia)). pose proof (Z.quot_pos (- d) 4). lia.
Qed.

Lemma nextBackoff_le attempt base hint draw : 0 < base -> hint <= maxHint -> nextBackoff attempt base hint draw <= 375 * Second.
Proof.
  intros Hb Hh. unfold nextBackoff. destruct (0 <? hint) eqn:E; boolprop.
  - pose proof (jitter_bounds (Z.quot hint 4) draw). pose proof (quarter_bounds hint (75 * Second)). unfold maxHint, Second in *. lia.
  - cbv zeta. match goal with |- ?x + _ <= _ => remember x as d eqn:Ed0 end.
    assert (d <= maxBackoff) as Hd by (rewrite Ed0; case_match; boolprop; lia). clear Ed0.
    pose proof (jitter_bounds (Z.quot d 4) draw). pose proof (quarter_bounds d 7500000000 Hd ltac:(lia)).
    unfold maxBackoff, Second in *. lia.
Qed.

(** a rate-limited call waits within bounds.  Whatever the upstream's
    message says and whatever base is configured, no single wait exceeds 375
    seconds, and none without a hint exceeds 37.5 seconds; a hint is honoured
    in full; and without one the wait is at least the exponential schedule,
    capped at 30 seconds, as long as that schedule fits a 64-bit duration. *)
Theorem backoff_is_bounded (attempt base : Z) (text : string) (draw : option Z) :
  0 < base ->
  let hint := parseRetryAfter text in
  let wait := nextBackoff attempt base hint draw in
  wait <= 375 * Second /\
  (hint <= 0 -> wait <= 37 * Second + 500000000) /\
  (0 < hint -> hint <= wait) /\
  (hint <= 0 -> 1 <= attempt -> base * 2 ^ (attempt - 1) < 2 ^ 63 -> Z.min (base * 2 ^ (attempt - 1)) maxBackoff <= wait).
Proof.
  intros Hb hint wait. subst wait. pose proof (parseRetryAfter_le text) as Hh. fold hint in Hh. clearbody hint. unfold nextBackoff.
  destruct (0 <? hint) eqn:E; boolprop.
  - pose proof (jitter_bounds (Z.quot hint 4) draw). pose proof (quarter_bounds hint (75 * Second)).
    unfold maxHint, Second in *. split_and!; [lia|lia|lia|intros; lia].
  - cbv zeta. set (a := if attempt <? 1 then 1 else attempt). remember (if maxBackoff <? wrap64 (Z.shiftl base (a - 1)) then maxBackoff else wrap64 (Z.shiftl base (a - 1))) as d eqn:Ed0.
    assert (d <= maxBackoff) as Hd by (rewrite Ed0; destruct (maxBackoff <? wrap64 _) eqn:Ed; boolprop; lia).
    pose proof (jitter_bounds (Z.quot d 4) draw) as Hj.
    pose proof (quarter_bounds d 7500000000 Hd ltac:(lia)) as Hq.
    unfold maxBackoff, Second in *. split_and!; [clear Ed0; lia|clear Ed0; lia|lia|]. intros _ Ha Hs.
    assert (d <= d + jitter (Z.quot d 4) draw) as Hle by (clear Ed0; lia). etrans; [|exact Hle]. clear Hle Hj Hq Hd. subst d a. replace (attempt <? 1) with false in * by lia.
    rewrite Z.shiftl_mul_pow2 in * by lia. pose proof (Z.mul_pos_pos base (2 ^ (attempt - 1)) Hb ltac:(apply Z.pow_pos_nonneg; lia)).
    rewrite wrap64_small in * by lia. destruct (30 * 1000000000 <? _) eqn:Ed; boolprop; lia.
Qed.

(** With the default base of one second the 35th wait is negative, that is, none. *)
Lemma backoff_overflows : nextBackoff 35 Second 0 (Some 12345) < 0.
Proof. done. Qed.

(** A hint that overflows a duration is no hint, or a far shorter one. *)
Lemma hint_overflows :
  parseRetryAfter "retry after 9223372037 seconds" < 0 /\ parseRetryAfter "retry after 18446744074 seconds" = 290448384.
Proof. split; vm_compute; done. Qed.

(** ** Witnesses *)

Definition sample_raw : rawSchema :=
  mkRaw "Object" "d" [("page", Some (mkRaw "integer" "" [] [] [] None None None)); ("gone", None)] ["page"] [] None None None.

Lemma schema_conversion_is_faithful_witness :
  exists n, schema_at [InProperty "page"] (ConvertSchema (fun _ => None) (fun _ => Some sample_raw) "{}").1 = Some n /\ sc_Type n = "integer".
Proof.
  destruct (schema_conversion_is_faithful (fun _ => None) (fun _ => Some sample_raw) "{}") as [_ H].
  exists (convert (fun _ => None) (mkRaw "integer" "" [] [] [] None None None)). split; [|reflexivity].
  apply (H sample_raw [InProperty "page"]); [discriminate|reflexivity|].
  eexists. split_and!; reflexivity.
Defined.

Definition two_users (s : string) : option (option (gmap string string)) :=
  if String.eqb s "v1" then Some (Some {["alice" := "ghp_a"]}) else if String.eqb s "v2" then Some (Some {["bob" := "ghp_b"]}) else None.

Lemma token_cache_is_transparent_witness :
  tokens_run two_users (mkPerUser "tokens.json" (Some (StaticTokenSource "shared")) 0 None)
    [(mkCtx 0 (Some "alice"), mkView (Some 1) (Some "v1")); (mkCtx 1 (Some "bob"), mkView (Some 1) (Some "v1"));
     (mkCtx 2 (Some "bob"), mkView (Some 2) (Some "v2"))] = [Ok "ghp_a"; Ok "shared"; Ok "ghp_b"].
Proof.
  rewrite (token_cache_is_transparent two_users "tokens.json" (Some (StaticTokenSource "shared"))); [vm_compute; reflexivity|].
  intros v w Hv Hw. cbn in Hv, Hw. rewrite !elem_of_cons, elem_of_nil in Hv, Hw.
  destruct Hv as [->|[->|[->|[]]]], Hw as [->|[->|[->|[]]]]; simpl; congruence.
Defined.

Lemma backoff_is_bounded_witness : Second * 4 <= nextBackoff 3 Second (parseRetryAfter "API rate limit exceeded") (Some 7) <= 375 * Second.
Proof.
  destruct (backoff_is_bounded 3 Second "API rate limit exceeded" (Some 7)) as (H1 & _ & _ & H4); [reflexivity|].
  split; [|exact H1]. apply H4; vm_compute; discriminate || reflexivity.
Defined.
