(* ===== verification/GitHubClient.v ===== *)
(** * The GitHub client (internal/githubmcp/client.go, caller.go)

    The subprocess and its MCP session with respawn and cooldown, the tool
    catalogue, and [Call]: the argument cap, the upstream call with one retry on
    a fresh subprocess, the rate-limit retries and the result cap.

    The MCP library and the subprocess are parameters: [call_env] holds what
    each upstream call, spawn and [select] of one [Call] answers.  [Call] holds
    [callMu] throughout, so calls are sequential; [Close] can come in between.
    The operations log the upstream calls, waits and restarts they make. *)

From S2P Require Import Prelude GoString GoConv Event Utf8 Wire GoNum GoJson Paths Sandbox Os Fsops FsopsSpec History Tools Dispatcher GitHub.

#[local] Open Scope Z_scope.

(** ** The catalogue the upstream announces *)

Record ToolAnnotations := mkAnn { DestructiveHint : option bool; ReadOnlyHint : bool }.

Record Tool := mkTool {
  t_Name : string;
  t_Description : string;
  t_InputSchema : option (option string);      (* nil, or what json.Marshal gives *)
  t_Annotations : option ToolAnnotations;
}.

Record ToolSpec := mkSpec { ts_Name : string; ts_Description : string; ts_Parameters : Schema }.

Definition isDestructiveTool (t : Tool) : bool :=
  match t_Annotations t with
  | Some a => match DestructiveHint a with
              | Some b => b
              | None => if ReadOnlyHint a then false else IsDestructiveTool (t_Name t)
              end
  | None => IsDestructiveTool (t_Name t)
  end.

Section catalogue.
Variable unquote : string -> option string.
Variable decode : string -> option rawSchema.

Definition tool_spec (t : Tool) : ToolSpec :=
  mkSpec (PrefixedName (t_Name t)) (t_Description t)
    (match t_InputSchema t with
     | Some (Some raw) => (ConvertSchema unquote decode raw).1
     | _ => empty_schema ""
     end).

Definition buildToolList (tools : list (option Tool)) : list ToolSpec * gset string :=
  let ts := omap id tools in
  (tool_spec <$> ts, list_to_set ((fun t => PrefixedName (t_Name t)) <$> filter (fun t => isDestructiveTool t = true) ts)).
End catalogue.

(** ** The client *)

Record Options := mkOptions {
  BinaryPath : string;
  Toolsets : list string;
  ReadOnly : bool;
  Host : string;
  LockdownMode : bool;
  MaxArgBytes : Z;
  MaxResultBytes : Z;
  RateLimitRetries : Z;
  RateLimitBaseBackoff : Z;
}.

(** The subprocess: [exec.CommandContext] ties it to a context. *)
Record Command := mkCommand { cmd_path : string; cmd_args : list string; cmd_env : list string; cmd_ctx : nat }.

Record ClientSession := mkSession { ss_id : nat; ss_cmd : Command }.

Record Client := mkClient {
  c_opts : Options;
  c_cmd : option Command;
  c_session : option ClientSession;
  c_tools : option (list ToolSpec);
  c_destrSet : gset string;
  c_stderrDone : bool;
  c_lastRestart : option Z;                    (* the zero time is [None] *)
}.

Definition restartCooldown : Z := 5 * Second.

(** The first candidate that [exec.LookPath] finds. *)
Fixpoint find_binary (LookPath : string -> option string) (candidates : list string) : option string :=
  match candidates with
  | [] => None
  | c :: l => if String.eqb c "" then find_binary LookPath l
              else match LookPath c with Some path => Some path | None => find_binary LookPath l end
  end.

Definition resolveBinary (LookPath : string -> option string) (env : gmap string string) (explicit : string) : result gerror string :=
  match find_binary LookPath [explicit; Getenv env "NOMADDEV_GITHUB_MCP_BIN"; "github-mcp-server"] with
  | Some path => Ok path
  | None => Err (other "githubmcp: github-mcp-server binary not found (set NOMADDEV_GITHUB_MCP_BIN or install on PATH)")
  end.

Definition buildArgs (o : Options) : list string :=
  ["stdio"] ++
  (if negb (Nat.eqb (length (Toolsets o)) 0) && negb (bool_decide (Toolsets o = ["all"]))
   then ["--toolsets"; StrJoin "," (Toolsets o)] else []) ++
  (if ReadOnly o then ["--read-only"] else []) ++
  (if LockdownMode o then ["--lockdown-mode"] else []) ++
  (if negb (String.eqb (Host o) "") then ["--gh-host"; Host o] else []).

Definition buildEnv (environ : list string) (token : string) (o : Options) : list string :=
  environ ++ ["GITHUB_PERSONAL_ACCESS_TOKEN=" +:+ token] ++
  (if negb (String.eqb (Host o) "") then ["GITHUB_HOST=" +:+ Host o] else []).

(** [fmt.Errorf("...: %w", err)] keeps what [errors.Is] sees. *)
Definition wrapErr (pre : string) (e : gerror) : gerror := mkErr (kind e) (pre +:+ emsg e).

(** What one spawn meets. *)
Record spawn_env := mkSpawn {
  sp_token : TokenSource;
  sp_env : gmap string string;
  sp_environ : list string;
  sp_LookPath : string -> option string;
  sp_pipe : option gerror;
  sp_connect : result gerror nat;
  sp_list : result gerror (list (option Tool));
}.

Definition with_session (c : Client) (cmd : Command) (s : ClientSession) (tools : list ToolSpec) (destr : gset string) : Client :=
  mkClient (c_opts c) (Some cmd) (Some s) (Some tools) destr true (c_lastRestart c).

Section client.
Variable unquote : string -> option string.
Variable decode : string -> option rawSchema.
(** [json.Marshal] of a call's arguments. *)
Variable marshal_args : args -> option string.

Definition spawn (c : Client) (ctx : Ctx) (e : spawn_env) : Client * result gerror unit :=
  match sp_token e ctx with
  | Err _ => (c, Err (other "githubmcp: token"))
  | Ok token =>
      match resolveBinary (sp_LookPath e) (sp_env e) (BinaryPath (c_opts c)) with
      | Err x => (c, Err x)
      | Ok bin =>
          let cmd := mkCommand bin (buildArgs (c_opts c)) (buildEnv (sp_environ e) token (c_opts c)) (ctx_id ctx) in
          match sp_pipe e, sp_connect e with
          | Some x, _ => (c, Err (wrapErr "githubmcp: stderr pipe: " x))
          | None, Err x => (c, Err (wrapErr "githubmcp: connect: " x))
          | None, Ok sid =>
              let s := mkSession sid cmd in
              match c_tools c, sp_list e with
              | Some tools, _ => (with_session c cmd s tools (c_destrSet c), Ok tt)
              | None, Err x => (c, Err (wrapErr "githubmcp: list tools: " x))
              | None, Ok l => let '(tools, destr) := buildToolList unquote decode l in
                              (with_session c cmd s tools destr, Ok tt)
              end
          end
      end
  end.

Definition New (o : Options) (has_token : bool) (ctx : Ctx) (e : spawn_env) : result gerror Client :=
  if negb has_token then Err (other "githubmcp: Options.Token is required")
  else match spawn (mkClient o None None None ∅ false None) ctx e with
       | (_, Err x) => Err x
       | (c, Ok _) => Ok c
       end.

Definition teardown (c : Client) : Client :=
  mkClient (c_opts c) None None (c_tools c) (c_destrSet c) false (c_lastRestart c).

(** [Close]; [close_err] is what closing the session answers. *)
Definition Close (c : Client) (close_err : option gerror) : Client * option gerror :=
  (teardown c, if bool_decide (c_session c = None) then None else close_err).

Definition ListTools (c : Client) : list ToolSpec := default [] (c_tools c).
Definition IsDestructive (c : Client) (name : string) : bool := bool_decide (name ∈ c_destrSet c).

(** ** Upstream calls *)

Inductive content := TextContent (text : string) | OtherContent (raw : option string).

Record CallToolResult := mkToolResult {
  r_Content : list content;
  r_Structured : option (option string);       (* nil, or what json.Marshal gives *)
  r_IsError : bool;
}.

Inductive answer := Answered (r : CallToolResult) | Failed (e : gerror).

Inductive gevent :=
| ECall (s : ClientSession) (name : string) (a : args) (ans : answer)
| EWait (d : Z)
| ERestart (t : Z).

Definition shouldRetryRateLimit (r : CallToolResult) : bool :=
  r_IsError r && existsb (fun c => match c with TextContent t => looksLikeRateLimitText t | _ => false end) (r_Content r).

Fixpoint first_hint (l : list content) : Z :=
  match l with
  | [] => 0
  | TextContent t :: l' => if 0 <? parseRetryAfter t then parseRetryAfter t else first_hint l'
  | _ :: l' => first_hint l'
  end.

Definition retryHintFromResult (r : CallToolResult) : Z := first_hint (r_Content r).

(** One round of the retry loop: whether the timer fires before the context
    ends, the random draw, and the upstream's answer. *)
Record retry_env := mkRetry { timer_first : bool; draw : Z; retry_answer : answer }.

Section retry.
Variable session : ClientSession.
Variable name : string.
Variable a : args.
Variable base : Z.
Variable rounds : nat -> retry_env.

Fixpoint retry_loop (left : nat) (k : nat) (result : CallToolResult) : list gevent * CallToolResult :=
  match left with
  | O => ([], result)
  | S left' =>
      let wait := nextBackoff (Z.of_nat k + 1) base (retryHintFromResult result) (Some (draw (rounds k))) in
      if negb (timer_first (rounds k)) then ([], result)
      else
        let ans := retry_answer (rounds k) in
        match ans with
        | Failed _ => ([EWait wait; ECall session name a ans], result)
        | Answered next =>
            if negb (shouldRetryRateLimit next) then ([EWait wait; ECall session name a ans], next)
            else let '(l, r) := retry_loop left' (S k) next in (EWait wait :: ECall session name a ans :: l, r)
        end
  end.
End retry.

Definition callWithRateLimitRetry (o : Options) (session : ClientSession) (name : string) (a : args)
    (rounds : nat -> retry_env) (first : CallToolResult) : list gevent * CallToolResult :=
  if negb (shouldRetryRateLimit first) then ([], first)
  else
    let base := if RateLimitBaseBackoff o <=? 0 then Second else RateLimitBaseBackoff o in
    retry_loop session name a base rounds (Z.to_nat (RateLimitRetries o)) 0 first.

(** ** Results *)

Definition content_entry (c : content) : option string :=
  let entry ty text := json_object [Some ("type", json_string ty); if String.eqb text "" then None else Some ("text", json_string text)] in
  match c with
  | TextContent t => Some (entry "text" t)
  | OtherContent (Some raw) => Some (entry "raw" raw)
  | OtherContent None => None
  end.

Definition is_error_field (b : bool) : option (string * string) := if b then Some ("is_error", "true") else None.

Definition encodeResult (r : CallToolResult) : option string :=
  let fields structured := json_object [Some ("content", json_array (omap content_entry (r_Content r))); structured; is_error_field (r_IsError r)] in
  match r_Structured r with
  | None => Some (fields None)
  | Some (Some raw) => Some (fields (Some ("structured", raw)))
  | Some None => None
  end.

Definition truncatePayload (payload : string) (maxBytes : Z) (wasError : bool) : string :=
  let previewMax := Z.max 256 (maxBytes - 512) in
  let preview := str_take (Z.to_nat previewMax) payload in
  let text := "[githubmcp: result truncated — original " +:+ Itoa (zlen payload) +:+ " bytes, preview " +:+ Itoa (zlen preview) +:+
    " bytes; retry with a narrower query (smaller page, specific path) for a complete response]" +:+
    String (ascii_of_nat 10) (String (ascii_of_nat 10) preview) in
  json_object [Some ("content", json_array [json_object [Some ("text", json_string text); Some ("type", json_string "text")]]);
    is_error_field wasError; Some ("truncated", "true");
    Some ("original_bytes", Itoa (zlen payload)); Some ("preview_bytes", Itoa (zlen preview))].

Definition errorChunk (msg : string) : list ExecChunk := [exit_chunk 0 (Some (other ("githubmcp: " +:+ msg)))].
Definition contextErrorChunk (e : gerror) : list ExecChunk := [exit_chunk 0 (Some e)].
Definition errorChunkBadRequest (msg : string) : list ExecChunk := [exit_chunk 0 (Some (badRequest ("githubmcp: " +:+ msg)))].

(** The chunks of an answered call. *)
Definition cap_payload (o : Options) (r : CallToolResult) (payload : string) : string :=
  if (0 <? MaxResultBytes o) && (MaxResultBytes o <? zlen payload) then truncatePayload payload (MaxResultBytes o) (r_IsError r) else payload.

Definition result_chunks (o : Options) (r : CallToolResult) : list ExecChunk :=
  match encodeResult r with
  | None => errorChunk "json: unsupported value"
  | Some payload => [stdout_chunk (cap_payload o r payload); exit_chunk (if r_IsError r then 1 else 0) None]
  end.

(** ** Call *)

Record call_env := mkEnv {
  e_first : answer;                   (* the first upstream call *)
  e_dead : bool;                      (* the probes of the subprocess find it gone *)
  e_now : Z;                          (* the clock at the restart *)
  e_spawn : spawn_env;
  e_closed : bool;                    (* [Close] runs between the restart and the next read of the session *)
  e_again : answer;                   (* the call on the fresh subprocess *)
  e_rounds : nat -> retry_env;
}.

Definition is_ctx_err (e : gerror) : bool :=
  match kind e with KDeadlineExceeded | KCtxCanceled => true | _ => false end.

Definition subprocessDied (c : Client) (probe : bool) : bool :=
  match c_cmd c with None => true | Some _ => probe end.

Definition respawn (c : Client) (ctx : Ctx) (now : Z) (e : spawn_env) : Client * list gevent * result gerror unit :=
  if match c_lastRestart c with Some t => now - t <? restartCooldown | None => false end
  then (c, [], Err (other "githubmcp: subprocess restart cooldown active"))
  else
    let c1 := mkClient (c_opts c) (c_cmd c) (c_session c) (c_tools c) (c_destrSet c) (c_stderrDone c) (Some now) in
    let '(c2, r) := spawn (teardown c1) ctx e in
    (c2, [ERestart now], r).

Definition args_too_big (o : Options) (a : args) : bool :=
  (0 <? MaxArgBytes o) && match marshal_args a with Some b => MaxArgBytes o <? zlen b | None => false end.

(** From the first answered result on. *)
Definition finish_call (c : Client) (s : ClientSession) (name : string) (a : args) (rounds : nat -> retry_env)
    (l : list gevent) (r : CallToolResult) : Client * list gevent * result gerror (list ExecChunk) :=
  let '(l2, r') := if 0 <? RateLimitRetries (c_opts c) then callWithRateLimitRetry (c_opts c) s name a rounds r else ([], r) in
  (c, l ++ l2, Ok (result_chunks (c_opts c) r')).

Definition Call (c : Client) (ctx : Ctx) (e : call_env) (call : ToolCall) : Client * list gevent * result gerror (list ExecChunk) :=
  match c_session c with
  | None => (c, [], Err (badRequest "github session not open"))
  | Some s =>
      if args_too_big (c_opts c) (cArgs call) then (c, [], Ok (errorChunkBadRequest "arguments exceed cap"))
      else
        let bare := UnprefixedName (cTool call) in
        let l := [ECall s bare (cArgs call) (e_first e)] in
        match e_first e with
        | Answered r => finish_call c s bare (cArgs call) (e_rounds e) l r
        | Failed x =>
            if is_ctx_err x then (c, l, Ok (contextErrorChunk x))
            else if negb (subprocessDied c (e_dead e)) then (c, l, Ok (errorChunk (emsg x)))
            else
              let '(c1, l1, res) := respawn c ctx (e_now e) (e_spawn e) in
              match res with
              | Err rerr => (c1, l ++ l1, Ok (errorChunk ("upstream subprocess died and respawn failed: " +:+ emsg rerr)))
              | Ok _ =>
                  let c2 := if e_closed e then teardown c1 else c1 in
                  match c_session c2 with
                  | None => (c2, l ++ l1, Ok (errorChunk "upstream subprocess died and respawn left no session"))
                  | Some s2 =>
                      let l2 := (l ++ l1) ++ [ECall s2 bare (cArgs call) (e_again e)] in
                      match e_again e with
                      | Failed y => (c2, l2, Ok (if is_ctx_err y then contextErrorChunk y else errorChunk (emsg y)))
                      | Answered r => finish_call c2 s2 bare (cArgs call) (e_rounds e) l2 r
                      end
                  end
              end
        end
  end.
End client.

(** ** What a log says *)

Definition is_call (ev : gevent) : bool := match ev with ECall _ _ _ _ => true | _ => false end.
Definition has_call (l : list gevent) : bool := existsb is_call l.
Definition n_calls (l : list gevent) : nat := length (filter (fun ev => is_call ev = true) l).

Definition answered_of (ev : gevent) : option CallToolResult :=
  match ev with ECall _ _ _ (Answered r) => Some r | _ => None end.
Definition last_answer (l : list gevent) : option CallToolResult := last (omap answered_of l).

Definition restarts (l : list gevent) : list Z := omap (fun ev => match ev with ERestart t => Some t | _ => None end) l.
Definition waited (ev : gevent) : Z := match ev with EWait d => Z.max 0 d | _ => 0 end.

(** An upstream call may be followed by another one. *)
Definition may_resend (ans : answer) (post : list gevent) : Prop :=
  match ans with
  | Answered r => shouldRetryRateLimit r = true
  | Failed x => is_ctx_err x = false /\ exists t post', post = ERestart t :: post'
  end.

Fixpoint resent_ok (l : list gevent) : Prop :=
  match l with
  | [] => True
  | ev :: l' => (match ev with ECall _ _ _ ans => has_call l' = true -> may_resend ans l' | _ => True end) /\ resent_ok l'
  end.



Lemma n_calls_cons ev l : n_calls (ev :: l) = ((if is_call ev then 1 else 0) + n_calls l)%nat.
Proof. unfold n_calls. rewrite filter_cons. destruct (is_call ev); [by rewrite decide_True|by rewrite decide_False]. Qed.

Lemma no_calls l : n_calls l = 0%nat -> has_call l = false.
Proof.
  induction l as [|ev l IH]; [done|]. rewrite n_calls_cons. cbn [has_call existsb]. destruct (is_call ev); [lia|]. intros H. by apply IH.
Qed.

Lemma last_answer_cons_call s n a r l : last_answer (ECall s n a (Answered r) :: l) = Some (default r (last_answer l)).
Proof.
  unfold last_answer. cbn [omap list_omap answered_of]. rewrite last_cons.
  by destruct (last (omap answered_of l)).
Qed.

Lemma first_hint_le l : first_hint l <= maxHint.
Proof.
  induction l as [|[t|raw] l IH]; cbn [first_hint]; [done| |done].
  destruct (0 <? parseRetryAfter t); [apply parseRetryAfter_le|done].
Qed.

Lemma wait_le k base r d : 0 < base -> nextBackoff k base (retryHintFromResult r) d <= 375 * Second.
Proof. intros Hb. apply nextBackoff_le; [done|apply first_hint_le]. Qed.

(** The calls of a log are all the same call. *)
Definition only_call (name : string) (a : args) (ev : gevent) : Prop :=
  match ev with ECall _ n b _ => n = name /\ b = a | _ => True end.

Record retry_facts (name : string) (a : args) (bound : nat) (first last_result : CallToolResult) (l : list gevent) : Prop := {
  rf_calls : (n_calls l <= bound)%nat;
  rf_same : Forall (only_call name a) l;
  rf_restarts : restarts l = [];
  rf_last : last_result = default first (last_answer l);
  rf_resent : resent_ok l;
  rf_waits : sumZ waited l <= Z.of_nat bound * (375 * Second);
}.

Lemma retry_nil name a n r : retry_facts name a n r r [].
Proof. split; try done; cbn; unfold Second; lia. Qed.

Lemma retry_last name a n s d ans r r' :
  d <= 375 * Second -> r' = match ans with Answered x => x | Failed _ => r end ->
  retry_facts name a (S n) r r' [EWait d; ECall s name a ans].
Proof.
  intros Hd ->. split; [rewrite !n_calls_cons; cbn; lia|by repeat constructor|done|by destruct ans|done|cbn; unfold Second in *; lia].
Qed.

Lemma retry_more name a n s d r next r' l :
  d <= 375 * Second -> shouldRetryRateLimit next = true -> retry_facts name a n next r' l ->
  retry_facts name a (S n) r r' (EWait d :: ECall s name a (Answered next) :: l).
Proof.
  intros Hd Hs [H1 H2 H3 H4 H5 H6]. split.
  - rewrite !n_calls_cons. cbn [is_call]. lia.
  - by repeat constructor.
  - done.
  - change (last_answer (EWait d :: ?x)) with (last_answer x). rewrite last_answer_cons_call. done.
  - cbn. done.
  - cbn [sumZ foldr waited]. unfold sumZ in H6. unfold Second in *. lia.
Qed.

Lemma retry_loop_facts s name a base rounds left k r :
  0 < base -> let '(l, r') := retry_loop s name a base rounds left k r in retry_facts name a left r r' l.
Proof.
  intros Hb. revert k r. induction left as [|left IH]; intros k r; [apply retry_nil|]. cbn [retry_loop].
  destruct (timer_first (rounds k)); cbn [negb]; [|apply retry_nil].
  destruct (retry_answer (rounds k)) as [next|x]; [|by apply retry_last; [apply wait_le|]].
  destruct (shouldRetryRateLimit next) eqn:Es; cbn [negb]; [|by apply retry_last; [apply wait_le|]].
  specialize (IH (S k) next). destruct (retry_loop _ _ _ _ _ left (S k) next) as [l r'].
  by apply retry_more; [apply wait_le| |].
Qed.

Lemma call_retry_facts o s name a rounds r :
  let '(l, r') := if 0 <? RateLimitRetries o then callWithRateLimitRetry o s name a rounds r else ([], r) in
  retry_facts name a (Z.to_nat (RateLimitRetries o)) r r' l /\ (has_call l = true -> shouldRetryRateLimit r = true).
Proof.
  destruct (0 <? RateLimitRetries o); [|split; [apply retry_nil|done]]. unfold callWithRateLimitRetry.
  destruct (shouldRetryRateLimit r) eqn:Es; cbn [negb]; [|split; [apply retry_nil|done]].
  set (base := if _ <=? 0 then _ else _). assert (0 < base) as Hb by (subst base; destruct (_ <=? 0) eqn:E; boolprop; [done|lia]).
  pose proof (retry_loop_facts s name a base rounds (Z.to_nat (RateLimitRetries o)) 0 r Hb) as H.
  by destruct (retry_loop _ _ _ _ _ _ _ _) as [l r'].
Qed.

(** ** The shapes of a call *)

Section shapes.
Variable o : Options.
Variable name : string.
Variable a : args.

(** What precedes the deciding upstream call: nothing, or a call on a dead
    subprocess and its restart. *)
Inductive prefix_log : list gevent -> Prop :=
| PNone : prefix_log []
| PRestart s x t : is_ctx_err x = false -> prefix_log [ECall s name a (Failed x); ERestart t].

Inductive call_shape : list gevent -> result gerror (list ExecChunk) -> Prop :=
| CNoSession e : call_shape [] (Err e)
| CTooBig msg : call_shape [] (Ok (errorChunkBadRequest msg))
| CAnswered pre s r l r' :
    prefix_log pre -> retry_facts name a (Z.to_nat (RateLimitRetries o)) r r' l -> (has_call l = true -> shouldRetryRateLimit r = true) ->
    call_shape (pre ++ ECall s name a (Answered r) :: l) (Ok (result_chunks o r'))
| CFailed pre s x e : prefix_log pre -> call_shape (pre ++ [ECall s name a (Failed x)]) (Ok [exit_chunk 0 (Some e)])
| CLost s x t e : is_ctx_err x = false -> call_shape [ECall s name a (Failed x); ERestart t] (Ok [exit_chunk 0 (Some e)]).
End shapes.

Section call_spec.
Variable unquote : string -> option string.
Variable decode : string -> option rawSchema.
Variable marshal_args : args -> option string.
Abbreviation Call := (Call unquote decode marshal_args).
Abbreviation respawn := (respawn unquote decode).
Abbreviation spawn := (spawn unquote decode).

Lemma spawn_opts c ctx e : c_opts (spawn c ctx e).1 = c_opts c /\ c_lastRestart (spawn c ctx e).1 = c_lastRestart c.
Proof. unfold spawn, GitHubClient.spawn. repeat case_match; done. Qed.

Lemma respawn_log c ctx now e :
  let '(c1, l1, r) := respawn c ctx now e in
  c_opts c1 = c_opts c /\
  ((l1 = [] /\ c1 = c /\ exists x, r = Err x) \/
   (l1 = [ERestart now] /\ c_lastRestart c1 = Some now /\ forall t, c_lastRestart c = Some t -> t + restartCooldown <= now)).
Proof.
  unfold respawn, GitHubClient.respawn. destruct (c_lastRestart c) as [t|] eqn:El.
  - destruct (now - t <? restartCooldown) eqn:E; [by eauto 10|].
    match goal with |- context [spawn ?c1 ctx e] => pose proof (spawn_opts c1 ctx e) as [H1 H2]; destruct (spawn c1 ctx e) as [c2 r] end.
    split; [done|right]. split_and!; [done|done|]. intros t' [= <-]. boolprop. lia.
  - match goal with |- context [spawn ?c1 ctx e] => pose proof (spawn_opts c1 ctx e) as [H1 H2]; destruct (spawn c1 ctx e) as [c2 r] end.
    split; [done|right]. split_and!; done.
Qed.

Lemma finish_call_shape c s name a rounds pre r :
  prefix_log name a pre ->
  let '(c', l, res) := finish_call c s name a rounds (pre ++ [ECall s name a (Answered r)]) r in
  c' = c /\ restarts l = restarts pre /\ call_shape (c_opts c) name a l res.
Proof.
  intros Hp. unfold finish_call. pose proof (call_retry_facts (c_opts c) s name a rounds r) as H.
  destruct (if 0 <? _ then _ else _) as [l2 r']. destruct H as [Hf Hh]. split; [done|]. rewrite <-app_assoc. split.
  - unfold restarts. rewrite !omap_app. fold (restarts l2). rewrite (rf_restarts _ _ _ _ _ _ Hf). by rewrite app_nil_r.
  - by apply CAnswered.
Qed.

(** Everything about one call: its shape, and what it does to the restarts. *)
Lemma Call_spec c ctx e call :
  let '(c', l, res) := Call c ctx e call in
  c_opts c' = c_opts c /\ call_shape (c_opts c) (UnprefixedName (cTool call)) (cArgs call) l res /\
  ((restarts l = [] /\ c_lastRestart c' = c_lastRestart c) \/
   (restarts l = [e_now e] /\ c_lastRestart c' = Some (e_now e) /\ forall t, c_lastRestart c = Some t -> t + restartCooldown <= e_now e)) /\
  ((c_session c = None \/ args_too_big marshal_args (c_opts c) (cArgs call) = true) -> l = []).
Proof.
  unfold Call, GitHubClient.Call. destruct (c_session c) as [s|]; [|split_and!; [done|constructor|by left|done]].
  destruct (args_too_big _ _ _) eqn:Ea; [split_and!; [done|constructor|by left|done]|].
  assert (forall l : list gevent, ((Some s = None \/ false = true) -> l = [])) as Hvac by (intros ? [|]; done).
  set (name := UnprefixedName _). set (a := cArgs call).
  destruct (e_first e) as [r|x].
  { pose proof (finish_call_shape c s name a (e_rounds e) [] r (PNone _ _)) as H.
    destruct (finish_call _ _ _ _ _ _ _) as [[c' l] res]. destruct H as (-> & Hr & Hs). split_and!; [done|done|by left|apply Hvac]. }
  destruct (is_ctx_err x) eqn:Ex; [split_and!; [done|apply (CFailed _ _ _ []); constructor|by left|apply Hvac]|].
  destruct (subprocessDied c (e_dead e)); cbn [negb]; [|split_and!; [done|apply (CFailed _ _ _ []); constructor|by left|apply Hvac]].
  pose proof (respawn_log c ctx (e_now e) (e_spawn e)) as Hr. destruct (respawn c ctx (e_now e) (e_spawn e)) as [[c1 l1] res].
  destruct Hr as (Ho & [(-> & -> & y & ->)|(-> & Hl & Hcool)]).
  { split_and!; [done|apply (CFailed _ _ _ []); constructor|by left|apply Hvac]. }
  destruct res as [[]|rerr]; [|split_and!; [done|by apply CLost|by right|apply Hvac]].
  set (c2 := if e_closed e then teardown c1 else c1).
  assert (c_opts c2 = c_opts c /\ c_lastRestart c2 = Some (e_now e)) as [Ho2 Hl2] by (subst c2; by destruct (e_closed e)). clearbody c2.
  destruct (c_session c2) as [s2|]; [|split_and!; [done|by apply CLost|by right|apply Hvac]].
  assert (prefix_log name a [ECall s name a (Failed x); ERestart (e_now e)]) as Hp by by constructor.
  destruct (e_again e) as [r|y].
  - pose proof (finish_call_shape c2 s2 name a (e_rounds e) _ r Hp) as H.
    destruct (finish_call _ _ _ _ _ _ _) as [[c' l] res]. rewrite Ho2 in H. destruct H as (-> & Hr & Hs).
    split_and!; [done|done|right; by rewrite Hr|apply Hvac].
  - split_and!; [done| |by right|apply Hvac]. destruct (is_ctx_err y); by apply CFailed.
Qed.

Lemma result_chunks_contract o r : contract (result_chunks o r).
Proof.
  unfold result_chunks. destruct (encodeResult r) as [p|]; [|apply contract_exit].
  apply (contract_snoc [stdout_chunk (cap_payload o r p)]); [by repeat constructor|done].
Qed.

Lemma Call_contract c ctx e call l : (Call c ctx e call).2 = Ok l -> contract l.
Proof.
  pose proof (Call_spec c ctx e call) as H. destruct (Call c ctx e call) as [[c' log] res]. destruct H as (_ & Hs & _). simpl. intros ->.
  inversion Hs; subst; [apply contract_exit|apply result_chunks_contract|apply contract_exit|apply contract_exit].
Qed.
End call_spec.

Lemma last_answer_prefix name a pre l : prefix_log name a pre -> last_answer (pre ++ l) = last_answer l.
Proof. by intros []. Qed.







Lemma shape_reports o name a l res : call_shape o name a l res ->
  match last_answer l with
  | Some r => res = Ok (result_chunks o r)
  | None => (l = [] /\ ((exists e, res = Err e) \/ exists msg, res = Ok (errorChunkBadRequest msg))) \/ (l <> [] /\ exists e, res = Ok [exit_chunk 0 (Some e)])
  end.
Proof.
  intros [e|msg|pre s r l2 r' Hp [_ _ _ Hl _ _] Hh|pre s x e Hp|s x t e Hx].
  - left. eauto.
  - left. eauto.
  - rewrite (last_answer_prefix name a) by done. rewrite last_answer_cons_call. by rewrite Hl.
  - rewrite (last_answer_prefix name a) by done. cbn. right. split; [by destruct pre|by eauto].
  - cbn. right. by eauto.
Qed.

Section claims.
Variable unquote : string -> option string.
Variable decode : string -> option rawSchema.
Variable marshal_args : args -> option string.

(** One operation on the client after [New]. *)
Inductive op := OpCall (ctx : Ctx) (e : call_env) (call : ToolCall) | OpClose.

Definition step (c : Client) (x : op) : Client * list gevent * option (result gerror (list ExecChunk)) :=
  match x with
  | OpCall ctx e call => let '(c', l, r) := Call unquote decode marshal_args c ctx e call in (c', l, Some r)
  | OpClose => (teardown c, [], None)
  end.

Fixpoint run (c : Client) (ops : list op) : list gevent :=
  match ops with
  | [] => []
  | x :: ops' => let '(c', l, _) := step c x in l ++ run c' ops'
  end.

(** Restart times, each at least the cooldown after the one before. *)
Fixpoint spaced (prev : option Z) (l : list Z) : Prop :=
  match l with
  | [] => True
  | t :: l' => (forall p, prev = Some p -> p + restartCooldown <= t) /\ spaced (Some t) l'
  end.

Lemma run_spaced c ops : spaced (c_lastRestart c) (restarts (run c ops)).
Proof.
  revert c. induction ops as [|[ctx e call|] ops IH]; intros c; [done| |]; cbn [run step].
  - pose proof (Call_spec unquote decode marshal_args c ctx e call) as H.
    destruct (Call _ _ _ c ctx e call) as [[c' l] res]. destruct H as (_ & _ & H & _).
    unfold restarts. rewrite omap_app. fold (restarts l). fold (restarts (run c' ops)).
    destruct H as [[-> Hl]|(-> & Hl & Hc)]; [rewrite <-Hl; apply IH|]. split; [done|]. rewrite <-Hl. apply IH.
  - apply (IH (teardown c)).
Qed.

Lemma spaced_pair prev pre t1 t2 post : spaced prev (pre ++ t1 :: t2 :: post) -> t1 + restartCooldown <= t2.
Proof. revert prev. induction pre as [|t pre IH]; intros prev; [intros (_ & H & _); by apply H|]. intros [_ H]. by eapply IH. Qed.

(** After a restart that could not spawn, or after [Close], the client is dead:
    nothing ever opens a session again. *)
Lemma dead_client c ops : c_session c = None -> run c ops = [] /\
  (forall ctx e call, (Call unquote decode marshal_args c ctx e call).2 = Err (badRequest "github session not open")).
Proof.
  revert c. induction ops as [|[ctx e call|] ops IH]; intros c Hc; (split; [|by intros; unfold Call; rewrite Hc]); [done| |].
  - cbn [run step]. unfold Call. rewrite Hc. by apply (IH c).
  - cbn [run step]. by apply (IH (teardown c)).
Qed.

Lemma failed_spawn_stays_down c ctx e : is_ok (spawn unquote decode c ctx e).2 = false -> (spawn unquote decode c ctx e).1 = c.
Proof. unfold spawn. repeat case_match; done. Qed.

Lemma failed_respawn_is_final c ctx now e ops :
  let '(c', l, r) := respawn unquote decode c ctx now e in
  l = [ERestart now] -> is_ok r = false -> run c' ops = [].
Proof.
  unfold respawn. destruct (if c_lastRestart c is Some t then _ else _); [done|].
  match goal with |- context [spawn unquote decode ?c1 ctx e] => pose proof (failed_spawn_stays_down c1 ctx e) as H; destruct (spawn unquote decode c1 ctx e) as [c2 r] end.
  intros _ Hr. simpl in H. rewrite (H Hr). by apply (dead_client _ ops).
Qed.

(** The credential and the context of the subprocess are those of the call
    that restarted it. *)
Lemma respawn_uses_callers_credential c ctx now e c' l token :
  respawn unquote decode c ctx now e = (c', l, Ok tt) -> sp_token e ctx = Ok token ->
  exists s, c_session c' = Some s /\ cmd_ctx (ss_cmd s) = ctx_id ctx /\ cmd_env (ss_cmd s) = buildEnv (sp_environ e) token (c_opts c).
Proof.
  unfold respawn, spawn. intros H Ht. rewrite Ht in H. cbn [teardown c_opts c_tools] in H.
  repeat case_match; simplify_eq/=; by eauto.
Qed.

(** Calls of whatever user go to that one session. *)
Lemma calls_ignore_the_user c s ctx e call r :
  c_session c = Some s -> args_too_big marshal_args (c_opts c) (cArgs call) = false -> e_first e = Answered r ->
  exists l, (Call unquote decode marshal_args c ctx e call).1.2 = ECall s (UnprefixedName (cTool call)) (cArgs call) (Answered r) :: l.
Proof.
  intros Hs Ha Hf. unfold Call. rewrite Hs, Ha, Hf. unfold finish_call.
  destruct (if 0 <? _ then _ else _) as [l2 r']. cbn. by eauto.
Qed.
End claims.

(** ** Theorems *)

(** a call reports what the upstream answered, and nothing else.  If any
    upstream call of a [Call] was answered, its stream is the encoding of the
    last answer, with exit code 1 exactly when that answer is an error;
    otherwise it is a single exit chunk with an error, or the call was refused
    before anything was sent.  The stream always keeps the runner contract, so
    the backend discharges what the dispatcher assumes of it. *)
Theorem github_call_reports_last_answer (unquote : string -> option string) (decode : string -> option rawSchema)
    (marshal_args : args -> option string) (c : Client) (ctx : Ctx) (e : call_env) (call : ToolCall) :
  let '(_, log, res) := Call unquote decode marshal_args c ctx e call in
  match last_answer log with
  | Some r => res = Ok (result_chunks (c_opts c) r)
  | None => (log = [] /\ ((exists e, res = Err e) \/ exists msg, res = Ok (errorChunkBadRequest msg))) \/
            (log <> [] /\ exists e, res = Ok [exit_chunk 0 (Some e)])
  end /\ (forall l, res = Ok l -> contract l).
Proof.
  pose proof (Call_contract unquote decode marshal_args c ctx e call) as Hc.
  pose proof (Call_spec unquote decode marshal_args c ctx e call) as H.
  destruct (Call _ _ _ c ctx e call) as [[c' log] res]. destruct H as (_ & Hs & _). split; [by eapply shape_reports|exact Hc].
Qed.


(** Restarts are throttled: over any sequence of calls and closes, whatever the
    subprocess does, two consecutive restarts are at least five seconds apart,
    also with a successful call between them (the comment on [lastRestart] says
    such a call resets the window; the code never does). *)
Lemma github_restarts_are_spaced (unquote : string -> option string) (decode : string -> option rawSchema)
    (marshal_args : args -> option string) (c : Client) (ops : list op) (pre post : list Z) (t1 t2 : Z) :
  restarts (run unquote decode marshal_args c ops) = pre ++ t1 :: t2 :: post -> t1 + 5 * Second <= t2.
Proof.
  intros H. pose proof (run_spaced unquote decode marshal_args c ops) as Hs. rewrite H in Hs. by eapply spaced_pair.
Qed.

Lemma destr_set_spec unquote decode l name :
  name ∈ (buildToolList unquote decode l).2 <-> exists t, Some t ∈ l /\ name = PrefixedName (t_Name t) /\ isDestructiveTool t = true.
Proof.
  unfold buildToolList. cbn [snd]. rewrite elem_of_list_to_set, list_elem_of_fmap. split.
  - intros (t & -> & [Hd Ht]%list_elem_of_filter). apply list_elem_of_omap in Ht as (x & Hx & Hid). simpl in Hid. subst x. by eauto.
  - intros (t & Hin & -> & Hd). exists t. split; [done|]. apply list_elem_of_filter. split; [done|]. apply list_elem_of_omap. by exists (Some t).
Qed.

Lemma New_tools unquote decode o b ctx e c : New unquote decode o b ctx e = Ok c ->
  exists l, sp_list e = Ok l /\ c_tools c = Some (buildToolList unquote decode l).1 /\ c_destrSet c = (buildToolList unquote decode l).2.
Proof.
  unfold New, spawn. destruct (negb b); [done|]. cbn [c_tools c_opts].
  destruct (sp_token e ctx); [|done]. destruct (resolveBinary _ _ _); [|done]. destruct (sp_pipe e); [done|]. destruct (sp_connect e); [|done].
  destruct (sp_list e) as [l|]; [|done]. destruct (buildToolList unquote decode l) as [tools destr] eqn:El. intros [= <-]. exists l. by rewrite El.
Qed.

(** A tool annotated as not destructive is not in the set, whatever its name. *)
Lemma additive_hint_skips_gate : isDestructiveTool (mkTool "create_issue" "" None (Some (mkAnn (Some false) false))) = false.
Proof. done. Qed.

(** ** The result cap *)

Definition quotes : string := Eval vm_compute in Nat.iter 700 (String (ascii_of_nat 34)) "".
Definition quoted_result : CallToolResult := mkToolResult [TextContent quotes] None false.

(** The truncated envelope is longer than the cap it is meant to fit. *)
Lemma truncation_overshoots :
  match encodeResult quoted_result with
  | Some p => 1024 <? zlen (cap_payload (mkOptions "" [] false "" false 0 1024 0 0) quoted_result p)
  | None => false
  end = true.
Proof. vm_compute. reflexivity. Qed.

(** ** Witnesses *)

Definition demo_opts : Options := mkOptions "" ["all"] false "" false 0 0 1 0.
Definition demo_spawn (n : nat) : spawn_env :=
  mkSpawn (StaticTokenSource "t") ∅ [] Some None (Ok n) (Ok [Some (mkTool "get_me" "" None None)]).
Definition demo_env (t : Z) : call_env :=
  mkEnv (Failed (other "EOF")) true t (demo_spawn 1) false (Failed (other "EOF")) (fun _ => mkRetry true 0 (Failed (other "EOF"))).
Definition demo_client : Client := mkClient demo_opts None (Some (mkSession 0 (mkCommand "" [] [] 0))) (Some []) ∅ true None.
Definition demo_call (t : Z) : op := OpCall (mkCtx 0 None) (demo_env t) (mkCall "github_get_me" []).

Lemma github_restarts_are_spaced_witness :
  restarts (run (fun _ => None) (fun _ => None) (fun _ => None) demo_client [demo_call 0; demo_call (2 * Second); demo_call (6 * Second)])
    = [0; 6 * Second] /\ 0 + 5 * Second <= 6 * Second.
Proof.
  split; [vm_compute; reflexivity|].
  apply (github_restarts_are_spaced (fun _ => None) (fun _ => None) (fun _ => None) demo_client
    [demo_call 0; demo_call (2 * Second); demo_call (6 * Second)] [] []). vm_compute. reflexivity.
Defined.


