(* ===== verification/Catalogue.v ===== *)
(** * The tool catalogue (internal/middleware/tools.go, workerpool.go) and its
    renderings for the language models

    [DefaultTools], [DaemonToolSpecs] and [WorkerPoolSpec] with their parameter
    schemas; schema_jsonmap.go, openai_tools.go, anthropic_tools.go and
    gemini_tools.go turn a schema into what each model API takes.  A Go map
    literal is the list of its entries in source order. *)

From Stdlib Require Import QArith_base.
From S2P Require Import Prelude GoString GoConv Event Utf8 Wire GoNum Tools WorkerPool GitHub GitHubClient.

(** ** The catalogue *)

Definition DefaultTools : list ToolSpec := [
  mkSpec ToolExecuteScript
    "Run a shell script inside the ephemeral sandbox container. Returns stdout, stderr, and the script's exit code. Requires human approval before running."
    (mkSchema "object" "" [
      ("shell", mkSchema "string" "shell to run the script (default bash)" [] [] ["bash"; "sh"] None None None);
      ("script", mkSchema "string" "the shell script to execute" [] [] [] None None None)] ["script"] [] None None None);
  mkSpec ToolReadFile
    "Read the contents of a UTF-8 text file inside the orchestrator's workspace. Paths are relative to the workspace root; '..' is not allowed."
    (mkSchema "object" "" [
      ("path", mkSchema "string" "file path relative to the workspace root" [] [] [] None None None);
      ("max_bytes", mkSchema "integer" "byte cap on the response (default 256 KiB, hard cap 4 MiB)" [] [] [] None None None)] ["path"] [] None None None);
  mkSpec ToolListDir
    "List the contents of a directory inside the workspace. Returns entries with name, type ('file'|'dir'|'symlink'), and size."
    (mkSchema "object" "" [
      ("path", mkSchema "string" "directory path relative to the workspace root" [] [] [] None None None);
      ("depth", mkSchema "integer" "recursion depth (default 1, max 4)" [] [] [] None None None)] ["path"] [] None None None);
  mkSpec ToolWritePatch
    "Create, overwrite, or append to a UTF-8 text file inside the workspace. Requires human approval before running."
    (mkSchema "object" "" [
      ("path", mkSchema "string" "file path relative to the workspace root" [] [] [] None None None);
      ("content", mkSchema "string" "UTF-8 text content to write" [] [] [] None None None);
      ("mode", mkSchema "string" "default 'overwrite'" [] [] ["overwrite"; "append"] None None None);
      ("create", mkSchema "boolean" "create intermediate directories if missing" [] [] [] None None None)] ["path"; "content"] [] None None None);
  mkSpec ToolApplyCodePatch
    "Apply a single search/replace edit to a UTF-8 text file inside the workspace. search_string must occur exactly once in the target file. Requires human approval; a unified-diff preview is rendered in the ApprovalSheet before the write. When verify_command is set, the orchestrator runs that shell command in the ephemeral sandbox immediately after the write; a non-zero exit rolls the file back to its pre-edit contents and surfaces the verify command's stderr as the tool result, which feeds the automated-recovery loop the same way any retryable failure does."
    (mkSchema "object" "" [
      ("file_path", mkSchema "string" "file path relative to the workspace root" [] [] [] None None None);
      ("search_string", mkSchema "string" "anchor that must occur exactly once in the file" [] [] [] None None None);
      ("replace_string", mkSchema "string" "replacement text; may be empty for pure deletion" [] [] [] None None None);
      ("verify_command", mkSchema "string" "optional shell command run in the sandbox after the patch lands; non-zero exit triggers automatic rollback (e.g. 'go build ./...' or 'golangci-lint run')" [] [] [] None None None)] ["file_path"; "search_string"; "replace_string"] [] None None None);
  mkSpec ToolSearchSyntax
    "Run a structural ast-grep query against the workspace. Use AST patterns (e.g. 'fn $F($_: context.Context)') instead of regex; meta-variables: $VAR (single node), $$$VAR (multi-node), $_ (anonymous). Returns matches with file, line, column, and a code snippet. Read-only; does not require approval."
    (mkSchema "object" "" [
      ("pattern", mkSchema "string" "ast-grep pattern" [] [] [] None None None);
      ("lang", mkSchema "string" "language hint (go, ts, tsx, js, py, rs, java, …). Inferred from extensions when omitted." [] [] [] None None None);
      ("path", mkSchema "string" "subdirectory to search relative to the workspace root; defaults to the whole tree" [] [] [] None None None);
      ("max_matches", mkSchema "integer" "soft cap on matches returned (default 100, max 1000)" [] [] [] None None None);
      ("globs", mkSchema "array" "optional glob filters, forwarded as --globs" [] [] [] (Some (mkSchema "string" "" [] [] [] None None None)) None None)] ["pattern"] [] None None None);
  mkSpec ToolLSPQuery
    "Query a language server (gopls, typescript-language-server, pylsp) for semantic code navigation — far more precise than text search on complex projects. operation is one of: 'definition' (jump to where a symbol is defined), 'references' (every use of a symbol), 'hover' (its type and doc comment), 'implementation' (concrete implementations of an interface), 'document_symbols' (every symbol declared in one file), 'workspace_symbols' (find a symbol by name across the whole repo). line and character are 1-based. The language is inferred from the file extension; pass 'lang' to override. Returns JSON with workspace-relative paths and 1-based positions. Read-only; does not require approval."
    (mkSchema "object" "" [
      ("operation", mkSchema "string" "the LSP operation to run" [] [] ["definition"; "references"; "hover"; "implementation"; "document_symbols"; "workspace_symbols"] None None None);
      ("path", mkSchema "string" "file path relative to the workspace root; required for every operation except workspace_symbols" [] [] [] None None None);
      ("line", mkSchema "integer" "1-based line number; required for definition/references/hover/implementation" [] [] [] None None None);
      ("character", mkSchema "integer" "1-based column number; required for definition/references/hover/implementation" [] [] [] None None None);
      ("lang", mkSchema "string" "language override (go, typescript, javascript, python); inferred from the file extension when omitted; required for workspace_symbols" [] [] [] None None None);
      ("query", mkSchema "string" "symbol name to search for; required for workspace_symbols" [] [] [] None None None);
      ("include_declaration", mkSchema "boolean" "for references: include the declaration itself in the results (default false)" [] [] [] None None None)] ["operation"] [] None None None);
  mkSpec ToolPinFile
    "Pin the current contents of a UTF-8 text file into the persistent reference buffer. Pinned files are injected at the top of the system prompt on every turn and survive history compaction, so use this to keep critical architectural files in context during long, multi-step tasks. Paths are relative to the workspace root; '..' is not allowed. Re-pinning the same path refreshes its stored contents. A file larger than the read cap (256 KiB) is pinned truncated. Read-only; does not require approval. Release a pin with unpin_file."
    (mkSchema "object" "" [
      ("path", mkSchema "string" "file path relative to the workspace root" [] [] [] None None None)] ["path"] [] None None None);
  mkSpec ToolUnpinFile
    "Remove a file from the persistent reference buffer once it is no longer needed for the current task, freeing the memory and prompt space it occupied. Paths are relative to the workspace root. Unpinning a file that is not pinned is a no-op, not an error. Read-only; does not require approval."
    (mkSchema "object" "" [
      ("path", mkSchema "string" "file path relative to the workspace root" [] [] [] None None None)] ["path"] [] None None None);
  mkSpec ToolFetchExternalDocs
    "Fetch a documentation page from an external http(s) URL and return it as plain markdown text. The orchestrator issues a single GET request, strips all HTML, CSS, scripts and navigation chrome, and returns just the readable text — use this to re-check an external API's current schema when a script is failing against it. Requests to private, loopback or link-local addresses are refused; the response is capped at 2 MB and the request times out after 10 seconds. Read-only; does not require approval."
    (mkSchema "object" "" [
      ("url", mkSchema "string" "absolute http(s) URL of the documentation page to fetch" [] [] [] None None None)] ["url"] [] None None None)].

Definition DaemonToolSpecs : list ToolSpec := [
  mkSpec ToolMonitorDaemon
    "Start a long-running daemon process — a dev server, file watcher, or log tailer — as a detached process on the orchestrator host. The call returns immediately; the daemon keeps running in the background and its stdout/stderr stream back afterward as system.log_event envelopes. Each daemon gets an id: use stop_daemon to terminate it and list_daemons to see what is running. Requires human approval."
    (mkSchema "object" "" [
      ("command", mkSchema "string" "the shell command to run as a background daemon" [] [] [] None None None);
      ("working_dir", mkSchema "string" "optional working directory for the daemon process" [] [] [] None None None)] ["command"] [] None None None);
  mkSpec ToolStopDaemon
    "Stop a daemon previously started with monitor_daemon, terminating its whole process group."
    (mkSchema "object" "" [
      ("daemon_id", mkSchema "string" "the daemon id returned by monitor_daemon" [] [] [] None None None)] ["daemon_id"] [] None None None);
  mkSpec ToolListDaemons
    "List the daemons currently running for this session, each with its id, command, and uptime. Read-only; does not require approval."
    (mkSchema "object" "" [] [] [] None None None)].

Definition WorkerPoolSpec : ToolSpec :=
  mkSpec ToolDispatchWorkerPool
    "Run several code-migration sub-tasks concurrently to speed up a large migration. Each sub-task executes headlessly in its own isolated git worktree and temporary branch, seeded with the current conversation context; the finished branches are then merged back into the primary branch. Every sub-task must declare in 'paths' the files or directories it will modify, and those scopes must be disjoint — two sub-tasks may never touch the same file. Each sub-task's edits still require human approval. Requires human approval to launch."
    (mkSchema "object" "" [
      ("tasks", mkSchema "array" "the sub-tasks to run in parallel" [] [] [] (Some (mkSchema "object" "" [
              ("id", mkSchema "string" "optional stable id for the sub-task" [] [] [] None None None);
              ("prompt", mkSchema "string" "the instruction this sub-task's headless dispatcher will execute" [] [] [] None None None);
              ("paths", mkSchema "array" "files/directories this sub-task may modify, relative to the workspace root; must be disjoint from every other sub-task" [] [] [] (Some (mkSchema "string" "" [] [] [] None None None)) None None)] ["prompt"; "paths"] [] None None None)) None None)] ["tasks"] [] None None None).

(** ** JSON Schema maps (schema_jsonmap.go, openai_tools.go) *)

(** A finite float64 as a number; JSON has no others. *)
Definition f64_any (x : f64) : any :=
  match x with
  | FNum neg m e => AFloat (if (e <? 0)%Z then Qmake (signed neg m) (Z.to_pos (2 ^ (- e))) else inject_Z (signed neg m * 2 ^ e))
  | _ => ANil
  end.

Definition opt_field {A} (k : string) (f : A -> any) (v : option A) : args := match v with Some x => [(k, f x)] | None => [] end.
Definition strings_any (l : list string) : any := AArr (AStr <$> l).
Definition strings_field (k : string) (l : list string) : args := match l with [] => [] | _ => [(k, strings_any l)] end.
Definition text_field (k s : string) : args := if String.eqb s "" then [] else [(k, AStr s)].

Fixpoint schemaToJSONMap (s : Schema) : args :=
  let fix props (l : list (string * Schema)) : args :=
    match l with [] => [] | (k, v) :: l' => (k, AMap (schemaToJSONMap v)) :: props l' end in
  if String.eqb (sc_Type s) "" && Nat.eqb (length (sc_Properties s)) 0 && negb (match sc_Items s with Some _ => true | None => false end)
  then [("type", AStr "object"); ("properties", AMap [])]
  else
    [("type", AStr (if String.eqb (sc_Type s) "" then "object" else sc_Type s))] ++ text_field "description" (sc_Description s) ++
    (match sc_Properties s with [] => [] | _ => [("properties", AMap (props (sc_Properties s)))] end) ++
    strings_field "required" (sc_Required s) ++ strings_field "enum" (sc_Enum s) ++
    (match sc_Items s with Some i => [("items", AMap (schemaToJSONMap i))] | None => [] end) ++
    opt_field "minimum" f64_any (sc_Minimum s) ++ opt_field "maximum" f64_any (sc_Maximum s).

(** The properties alone. *)
Definition properties_map (l : list (string * Schema)) : args := (fun kv => (kv.1, AMap (schemaToJSONMap kv.2))) <$> l.

(** What each API takes as a tool: name, description unless empty, schema. *)
Record api_tool := mkApiTool { at_Name : string; at_Description : option string; at_Schema : args }.

Definition api_description (s : string) : option string := if String.eqb s "" then None else Some s.

Definition toOpenAITools (specs : list ToolSpec) : list api_tool :=
  (fun s => mkApiTool (ts_Name s) (api_description (ts_Description s)) (schemaToJSONMap (ts_Parameters s))) <$> specs.

(** ** Anthropic (anthropic_tools.go): the type is fixed by the API *)

Definition toAnthropicInputSchema (s : Schema) : args :=
  (match sc_Properties s with [] => [] | _ => [("properties", AMap (properties_map (sc_Properties s)))] end) ++
  strings_field "required" (sc_Required s).

Definition toAnthropicTools (specs : list ToolSpec) : list api_tool :=
  (fun s => mkApiTool (ts_Name s) (api_description (ts_Description s)) (toAnthropicInputSchema (ts_Parameters s))) <$> specs.

(** ** Gemini (gemini_tools.go) *)

Inductive genai_Type := TypeObject | TypeString | TypeInteger | TypeNumber | TypeBoolean | TypeArray.

#[export] Instance genai_Type_eq_dec : EqDecision genai_Type.
Proof. solve_decision. Defined.

Definition geminiType (t : string) : genai_Type :=
  if String.eqb t "object" then TypeObject
  else if String.eqb t "string" then TypeString
  else if String.eqb t "integer" then TypeInteger
  else if String.eqb t "number" then TypeNumber
  else if String.eqb t "boolean" then TypeBoolean
  else if String.eqb t "array" then TypeArray
  else TypeObject.

#[warnings="-register-all"]
Inductive genai_Schema := mkGenai {
  g_Type : genai_Type;
  g_Description : string;
  g_Properties : list (string * genai_Schema);
  g_Required : list string;
  g_Enum : list string;
  g_Items : option genai_Schema;
  g_Minimum : option f64;
  g_Maximum : option f64;
}.

Fixpoint toGeminiSchema (s : Schema) : genai_Schema :=
  let fix props (l : list (string * Schema)) : list (string * genai_Schema) :=
    match l with [] => [] | (k, v) :: l' => (k, toGeminiSchema v) :: props l' end in
  mkGenai (geminiType (sc_Type s)) (sc_Description s) (props (sc_Properties s)) (sc_Required s) (sc_Enum s)
    (match sc_Items s with Some i => Some (toGeminiSchema i) | None => None end) (sc_Minimum s) (sc_Maximum s).

Definition toGeminiTools (specs : list ToolSpec) : list (string * string * genai_Schema) :=
  (fun s => (ts_Name s, ts_Description s, toGeminiSchema (ts_Parameters s))) <$> specs.

(** ** The catalogue against the validators *)

Definition all_tools : list ToolSpec := DefaultTools ++ [WorkerPoolSpec] ++ DaemonToolSpecs.

Fixpoint schema_known (s : Schema) : bool :=
  let fix props (l : list (string * Schema)) : bool := match l with [] => true | (_, v) :: l' => schema_known v && props l' end in
  existsb (String.eqb (sc_Type s)) schema_types && props (sc_Properties s) &&
  forallb (fun k => existsb (fun kv => String.eqb k kv.1) (sc_Properties s)) (sc_Required s) &&
  match sc_Items s with Some i => schema_known i | None => true end.

Lemma catalogue_well_formed :
  NoDup (ts_Name <$> all_tools) /\ Forall (fun t => KnownTool (ts_Name t) = true /\ schema_known (ts_Parameters t) = true) all_tools.
Proof.
  split; [apply (bool_decide_unpack _); vm_compute; exact I|].
  assert (forallb (fun t => KnownTool (ts_Name t) && schema_known (ts_Parameters t)) all_tools = true) as H by (vm_compute; reflexivity).
  apply Forall_forall. intros t Ht. apply (forallb_forall _ _) with (x := t) in H; [|by apply list_elem_of_In]. by apply andb_true_iff.
Qed.

Lemma reqString_missing a k : arg_lookup a k = None -> reqString a k = Err ("missing " +:+ k).
Proof. unfold reqString. by intros ->. Qed.

Lemma check_err {A} (r : result tool_err A) k : (exists e, k = Err e) -> exists e, check r k = Err e.
Proof. intros [e ->]. destruct r; simpl; eauto. Qed.

(** Each required argument is one the tool's own validator demands. *)
Definition demands (up : string -> option (string * string)) (t : ToolSpec) (k : string) : Prop :=
  forall a, arg_lookup a k = None -> exists e, Validate up validateDispatchWorkerPool (ts_Name t) a = Err e.

(** The validator of the tool's own name, then every case of the missing
    argument. *)
Ltac missing :=
  intros a Hk; unfold Validate; cbn [ts_Name]; cbn [String.eqb Ascii.eqb Bool.eqb];
  rewrite ?orb_false_l;
  unfold validateExecuteScript, validateReadFile, validateListDir, validateWritePatch, validateApplyCodePatch, validateSearchSyntax,
    validateLSPQuery, validatePinFile, validateUnpinFile, validateFetchExternalDocs, validateDispatchWorkerPool, ParseWorkerPoolArgs,
    validateMonitorDaemon, validateStopDaemon;
  rewrite ?(reqString_missing _ _ Hk), ?Hk; cbn [check];
  repeat first [by eauto | apply check_err].

Lemma required_are_demanded up : Forall (fun t => Forall (demands up t) (sc_Required (ts_Parameters t))) all_tools.
Proof.
  unfold all_tools, DefaultTools, DaemonToolSpecs, WorkerPoolSpec. cbn [app].
  repeat apply Forall_cons_2; try apply Forall_nil_2; cbn [ts_Parameters sc_Required]; repeat apply Forall_cons_2; try apply Forall_nil_2.
  all: missing.
Qed.

(** the catalogue the model sees and the validators agree.  Every tool of
    the catalogue has a name of its own that the dispatcher knows, only types
    the models accept, and declares the arguments it requires; and each argument
    declared as required is one whose absence the tool's validator refuses, so a
    call that lacks it never reaches the dispatcher. *)
Theorem catalogue_matches_validators (url_Parse : string -> option (string * string)) :
  NoDup (ts_Name <$> all_tools) /\
  forall t, t ∈ all_tools -> KnownTool (ts_Name t) = true /\ schema_known (ts_Parameters t) = true /\
    forall k a, k ∈ sc_Required (ts_Parameters t) -> arg_lookup a k = None ->
      exists e, Validate url_Parse validateDispatchWorkerPool (ts_Name t) a = Err e.
Proof.
  destruct catalogue_well_formed as [Hn Hf]. split; [exact Hn|]. intros t Ht.
  rewrite Forall_forall in Hf. destruct (Hf t Ht) as [H1 H2]. split_and!; [exact H1|exact H2|].
  intros k a Hk Ha. pose proof (required_are_demanded url_Parse) as Hr. rewrite Forall_forall in Hr.
  specialize (Hr t Ht). rewrite Forall_forall in Hr. exact (Hr k Hk a Ha).
Qed.

(** ** The renderings *)

(** The node of a JSON Schema map at a place. *)
Fixpoint json_at (p : list place) (v : any) : option any :=
  match p, v with
  | [], _ => Some v
  | InProperty k :: p', AMap m => match arg_lookup m "properties" with
                                  | Some (AMap ps) => arg_lookup ps k ≫= json_at p'
                                  | _ => None
                                  end
  | InItems :: p', AMap m => arg_lookup m "items" ≫= json_at p'
  | _, _ => None
  end.

Fixpoint gemini_property (k : string) (l : list (string * genai_Schema)) : option genai_Schema :=
  match l with [] => None | (k', v) :: l' => if String.eqb k k' then Some v else gemini_property k l' end.

Fixpoint gemini_at (p : list place) (g : genai_Schema) : option genai_Schema :=
  match p with
  | [] => Some g
  | InProperty k :: p' => gemini_property k (g_Properties g) ≫= gemini_at p'
  | InItems :: p' => g_Items g ≫= gemini_at p'
  end.

Lemma gemini_at_spec p s : gemini_at p (toGeminiSchema s) = toGeminiSchema <$> schema_at p s.
Proof.
  revert s. induction p as [|[k|] p IH]; intros [ty d props req en it mn mx]; [done| |]; cbn [gemini_at schema_at toGeminiSchema g_Properties g_Items sc_Properties sc_Items].
  - assert (gemini_property k ((fix props l := match l with [] => [] | (k, v) :: l' => (k, toGeminiSchema v) :: props l' end) props) =
            toGeminiSchema <$> property k props) as ->.
    { induction props as [|[k' v] props IHp]; [done|]. cbn [gemini_property property]. by destruct (String.eqb k k'). }
    destruct (property k props) as [v|]; [apply IH|done].
  - destruct it as [v|]; [apply IH|done].
Qed.

Lemma arg_lookup_properties k l : arg_lookup (properties_map l) k = (fun s => AMap (schemaToJSONMap s)) <$> property k l.
Proof. induction l as [|[k' v] l IH]; [done|]. cbn. rewrite String.eqb_sym. by destruct (String.eqb k k'). Qed.

Lemma arg_lookup_app m1 m2 k : arg_lookup (m1 ++ m2) k = match arg_lookup m1 k with Some v => Some v | None => arg_lookup m2 k end.
Proof. induction m1 as [|[k' v] m1 IH]; [done|]. cbn. by destruct (String.eqb k' k). Qed.

Lemma text_field_other k s k' : String.eqb k k' = false -> arg_lookup (text_field k s) k' = None.
Proof. unfold text_field. destruct (String.eqb s ""); [done|]. cbn. by intros ->. Qed.

Lemma strings_field_other k l k' : String.eqb k k' = false -> arg_lookup (strings_field k l) k' = None.
Proof. unfold strings_field. destruct l; [done|]. cbn. by intros ->. Qed.

Lemma opt_field_other {A} k (f : A -> any) v k' : String.eqb k k' = false -> arg_lookup (opt_field k f v) k' = None.
Proof. unfold opt_field. destruct v; [|done]. cbn. by intros ->. Qed.

Create Rewrite HintDb fields.
#[local] Hint Rewrite arg_lookup_app : fields.
#[local] Hint Rewrite text_field_other strings_field_other @opt_field_other using reflexivity : fields.

Lemma props_map l :
  (fix props (l : list (string * Schema)) : args := match l with [] => [] | (k, v) :: l' => (k, AMap (schemaToJSONMap v)) :: props l' end) l
  = properties_map l.
Proof. induction l as [|[k v] l IH]; [done|]. cbn. by rewrite IH. Qed.

Definition is_empty_schema (s : Schema) : bool :=
  String.eqb (sc_Type s) "" && Nat.eqb (length (sc_Properties s)) 0 && negb (match sc_Items s with Some _ => true | None => false end).

Lemma schemaToJSONMap_unfold s :
  schemaToJSONMap s =
  if is_empty_schema s then [("type", AStr "object"); ("properties", AMap [])]
  else
    [("type", AStr (if String.eqb (sc_Type s) "" then "object" else sc_Type s))] ++ text_field "description" (sc_Description s) ++
    (match sc_Properties s with [] => [] | l => [("properties", AMap (properties_map l))] end) ++
    strings_field "required" (sc_Required s) ++ strings_field "enum" (sc_Enum s) ++
    (match sc_Items s with Some i => [("items", AMap (schemaToJSONMap i))] | None => [] end) ++
    opt_field "minimum" f64_any (sc_Minimum s) ++ opt_field "maximum" f64_any (sc_Maximum s).
Proof. destruct s as [ty d props req en it mn mx]. cbn [schemaToJSONMap sc_Properties]. rewrite props_map. by destruct props. Qed.

Lemma json_properties s k :
  match arg_lookup (schemaToJSONMap s) "properties" with Some (AMap ps) => arg_lookup ps k | _ => None end =
  (fun v => AMap (schemaToJSONMap v)) <$> property k (sc_Properties s).
Proof.
  rewrite schemaToJSONMap_unfold. destruct (is_empty_schema s) eqn:E.
  - unfold is_empty_schema in E. boolprop. by destruct (sc_Properties s).
  - autorewrite with fields. cbn [arg_lookup String.eqb Ascii.eqb Bool.eqb].
    destruct (sc_Properties s) as [|kv l]; [|rewrite <-arg_lookup_properties; done]. cbn [arg_lookup]. by destruct (sc_Items s).
Qed.

Lemma json_items s : arg_lookup (schemaToJSONMap s) "items" = (fun v => AMap (schemaToJSONMap v)) <$> sc_Items s.
Proof.
  rewrite schemaToJSONMap_unfold. destruct (is_empty_schema s) eqn:E.
  - unfold is_empty_schema in E. boolprop. by destruct (sc_Items s).
  - autorewrite with fields. cbn [arg_lookup String.eqb Ascii.eqb Bool.eqb].
    assert (arg_lookup match sc_Properties s with [] => [] | l => [("properties", AMap (properties_map l))] end "items" = None) as -> by by destruct (sc_Properties s).
    by destruct (sc_Items s).
Qed.

Lemma json_at_spec p s : json_at p (AMap (schemaToJSONMap s)) = (fun n => AMap (schemaToJSONMap n)) <$> schema_at p s.
Proof.
  revert s. induction p as [|[k|] p IH]; intros s; [done| |]; cbn [json_at schema_at].
  - pose proof (json_properties s k) as H.
    destruct (property k (sc_Properties s)) as [v|]; destruct (arg_lookup (schemaToJSONMap s) "properties") as [[| | | | | |ps]|]; try done.
    + rewrite H. apply IH.
    + by rewrite H.
  - rewrite json_items. destruct (sc_Items s) as [v|]; [apply IH|done].
Qed.

(** The six types stay distinct. *)
Lemma geminiType_inj t u : t ∈ schema_types -> u ∈ schema_types -> geminiType t = geminiType u -> t = u.
Proof.
  assert (forallb (fun t => forallb (fun u => implb (bool_decide (geminiType t = geminiType u)) (String.eqb t u)) schema_types) schema_types = true) as H
    by (vm_compute; reflexivity).
  intros Ht Hu He. rewrite forallb_forall in H. specialize (H t ltac:(by apply list_elem_of_In)). rewrite forallb_forall in H.
  specialize (H u ltac:(by apply list_elem_of_In)). rewrite bool_decide_eq_true_2 in H by done. by apply String.eqb_eq.
Qed.

(** the model APIs are given the same schema.  At every place, through any
    nesting of properties and items, the node of the JSON Schema map (OpenAI,
    and Anthropic below the top) and of the Gemini schema is the rendering of
    the schema's node there, and none has a node where the schema has none; the
    Gemini rendering keeps the six types apart. *)
Theorem renderings_agree (s : Schema) (p : list place) :
  json_at p (AMap (schemaToJSONMap s)) = (fun n => AMap (schemaToJSONMap n)) <$> schema_at p s /\
  (p <> [] -> head p <> Some InItems -> json_at p (AMap (toAnthropicInputSchema s)) = (fun n => AMap (schemaToJSONMap n)) <$> schema_at p s) /\
  gemini_at p (toGeminiSchema s) = toGeminiSchema <$> schema_at p s /\
  (forall t u, t ∈ schema_types -> u ∈ schema_types -> geminiType t = geminiType u -> t = u).
Proof.
  split_and!; [apply json_at_spec| |apply gemini_at_spec|apply geminiType_inj].
  intros Hp Hh. destruct p as [|[k|] p]; [done| |done]. cbn [json_at schema_at]. unfold toAnthropicInputSchema.
  autorewrite with fields. destruct (sc_Properties s) as [|kv l]; [done|]. cbn [arg_lookup String.eqb Ascii.eqb Bool.eqb].
  rewrite arg_lookup_properties. destruct (property k (kv :: l)) as [v|]; [apply json_at_spec|done].
Qed.

(** ** Witnesses *)

Lemma renderings_agree_witness :
  exists n, json_at [InProperty "globs"; InItems] (AMap (toAnthropicInputSchema
    (mkSchema "object" "" [("globs", mkSchema "array" "" [] [] [] (Some (mkSchema "string" "" [] [] [] None None None)) None None)] [] [] None None None))) = Some n.
Proof.
  eexists.
  rewrite (proj1 (proj2 (renderings_agree (mkSchema "object" "" [("globs", mkSchema "array" "" [] [] [] (Some (mkSchema "string" "" [] [] [] None None None)) None None)] [] [] None None None)
    [InProperty "globs"; InItems]))); [reflexivity|discriminate|discriminate].
Defined.

Lemma catalogue_matches_validators_witness :
  exists e, Validate (fun _ => None) validateDispatchWorkerPool "read_file" [] = Err e.
Proof.
  destruct (catalogue_matches_validators (fun _ => None)) as [_ H].
  refine (proj2 (proj2 (H (nth 1 DefaultTools WorkerPoolSpec) _)) "path" [] _ _); [right; left|left|reflexivity].
Defined.
