(* ===== verification/Models.v ===== *)
(** * Models and prices (internal/middleware/models.go, pricing/) *)

From Stdlib Require Import SpecFloat.
From stdpp Require Import sorting.
From S2P Require Import Prelude GoString Wire.

(** ** Runtimes (factory.go) *)

Definition RuntimeNone : string := "none".
Definition RuntimeMock : string := "mock".
Definition RuntimeGemini : string := "gemini".
Definition RuntimeOpenAI : string := "openai".
Definition RuntimeAnthropic : string := "anthropic".
Definition RuntimeDeepSeek : string := "deepseek".

Definition deepSeekDefaultBaseURL : string := "https://api.deepseek.com/v1".
Definition deepSeekDefaultModel : string := "deepseek-chat".

Definition defaultModelFor (runtime : string) : string :=
  if String.eqb runtime RuntimeOpenAI then "gpt-4o-mini"
  else if String.eqb runtime RuntimeAnthropic then "claude-sonnet-4-5"
  else if String.eqb runtime RuntimeGemini then "gemini-2.0-flash"
  else if String.eqb runtime RuntimeDeepSeek then deepSeekDefaultModel
  else "".

Definition effectiveDefaultModel (runtime configured : string) : string :=
  if negb (String.eqb configured "") then configured else defaultModelFor runtime.

(** ** The catalogue of models (models.go) *)

Definition KnownModels : list (string * list string) := [
  (RuntimeOpenAI, ["gpt-4o"; "gpt-4o-mini"; "o3-mini"]);
  (RuntimeAnthropic, ["claude-3-5-haiku-latest"; "claude-3-5-sonnet-latest"; "claude-opus-4-5"; "claude-sonnet-4-5"]);
  (RuntimeGemini, ["gemini-1.5-flash"; "gemini-1.5-pro"; "gemini-2.0-flash"]);
  (RuntimeDeepSeek, ["deepseek-chat"; "deepseek-coder"])].

Fixpoint assoc {A} (k : string) (l : list (string * A)) : option A :=
  match l with [] => None | (k', v) :: l' => if String.eqb k k' then Some v else assoc k l' end.

(** The order of [sort.Strings]: by bytes. *)
Definition str_le (a b : string) : Prop := String.leb a b = true.
#[export] Instance str_le_dec : RelDecision str_le.
Proof. intros a b. unfold str_le. apply _. Defined.

Definition ModelsForProvider (provider : string) : list string :=
  match assoc provider KnownModels with None => [] | Some models => merge_sort str_le models end.

Definition IsKnownModel (provider model : string) : bool :=
  if String.eqb provider "" || String.eqb model "" then false
  else existsb (String.eqb model) (default [] (assoc provider KnownModels)).

(** ** Capabilities (pricing/capabilities.go) *)

Definition textOnlyModels : list string := ["openai/o3-mini"; "deepseek/deepseek-chat"; "deepseek/deepseek-reasoner"].

Definition SupportsVision (provider model : string) : bool :=
  if String.eqb provider "" || String.eqb model "" then true
  else negb (existsb (String.eqb (provider +:+ "/" +:+ model)) textOnlyModels).

(** ** Prices (pricing/pricing.go) *)

Definition f64z (z : Z) : float64 := binary_normalize 53 1024 z 0 false.
Definition fmul (x y : float64) : float64 := SFmul 53 1024 x y.
(** A decimal constant [n/d], rounded once. *)
Definition fconst (n d : Z) : float64 := SFdiv 53 1024 (f64z n) (f64z d).

Record Price := mkPrice { InputUSDPerMillion : float64; OutputUSDPerMillion : float64 }.

(** Prices in thousandths of a dollar. *)
Definition price (i o : Z) : Price := mkPrice (fconst i 1000) (fconst o 1000).

Definition prices : list (string * list (string * Price)) := [
  ("openai", [("gpt-4o-mini", price 150 600); ("gpt-4o", price 2500 10000); ("gpt-4.1", price 2000 8000);
              ("gpt-4.1-mini", price 400 1600); ("o3-mini", price 1100 4400)]);
  ("anthropic", [("claude-sonnet-4-5", price 3000 15000); ("claude-opus-4-5", price 15000 75000); ("claude-haiku-4-5", price 1000 5000)]);
  ("deepseek", [("deepseek-chat", price 270 1100); ("deepseek-reasoner", price 550 2190); ("deepseek-vl2", price 270 1100)]);
  ("gemini", [("gemini-2.0-flash", price 100 400); ("gemini-2.0-flash-lite", price 75 300)])].

Definition lookup_price (provider model : string) : option Price := models ← assoc provider prices; assoc model models.

Definition perToken : float64 := fconst 1 1000000.

Definition EstimateCostUSD (provider model : string) (prompt completion : Z) : float64 :=
  match lookup_price provider model with
  | None => fzero
  | Some p => fadd (fmul (fmul (f64z prompt) (InputUSDPerMillion p)) perToken) (fmul (fmul (f64z completion) (OutputUSDPerMillion p)) perToken)
  end.

(** [WarnOnUnknownOnce]: the pairs already warned about, and whether it warns. *)
Definition WarnOnUnknownOnce (warned : gset string) (provider model : string) : gset string * bool :=
  if String.eqb provider "" || String.eqb model "" then (warned, false)
  else match lookup_price provider model with
  | Some _ => (warned, false)
  | None => let key := provider +:+ "/" +:+ model in
            if bool_decide (key ∈ warned) then (warned, false) else ({[key]} ∪ warned, true)
  end.

(** ** Facts *)

(** The picker's list, the check of set_model and the default agree. *)
Lemma models_agree provider model :
  provider <> "" -> model <> "" -> (IsKnownModel provider model = true <-> model ∈ ModelsForProvider provider).
Proof.
  intros Hp Hm. unfold IsKnownModel, ModelsForProvider.
  destruct (String.eqb_spec provider ""); [done|]. destruct (String.eqb_spec model ""); [done|]. cbn [orb].
  destruct (assoc provider KnownModels) as [l|]; cbn [default]; [|split; [done|by intros ?%not_elem_of_nil]].
  rewrite (merge_sort_Permutation str_le l), existsb_exists. split.
  - intros (x & Hx & ->%String.eqb_eq). by apply list_elem_of_In.
  - intros Hx. exists model. rewrite String.eqb_refl. split; [by apply list_elem_of_In|done].
Qed.

Lemma defaults_are_known : Forall (fun r => IsKnownModel r (effectiveDefaultModel r "") = true) [RuntimeOpenAI; RuntimeAnthropic; RuntimeGemini; RuntimeDeepSeek].
Proof. repeat constructor. Qed.

(** A pair is warned about at most once. *)
Lemma warned_once warned provider model :
  (WarnOnUnknownOnce (WarnOnUnknownOnce warned provider model).1 provider model).2 = false.
Proof.
  unfold WarnOnUnknownOnce at 2. destruct (_ || _) eqn:E; [unfold WarnOnUnknownOnce; by rewrite E|].
  destruct (lookup_price provider model) eqn:El; [unfold WarnOnUnknownOnce; by rewrite E, El|].
  case_bool_decide; cbn [fst]; unfold WarnOnUnknownOnce; rewrite E, El; rewrite bool_decide_eq_true_2; done || set_solver.
Qed.

(** Models the picker offers and the table does not price: their turns report
    no cost. *)
Lemma unpriced_known_models :
  Forall (fun pm => IsKnownModel pm.1 pm.2 = true /\ EstimateCostUSD pm.1 pm.2 1000000 1000000 = fzero)
    [("anthropic", "claude-3-5-haiku-latest"); ("anthropic", "claude-3-5-sonnet-latest"); ("gemini", "gemini-1.5-flash");
     ("gemini", "gemini-1.5-pro"); ("deepseek", "deepseek-coder")].
Proof. repeat constructor. Qed.

Lemma cost_example : EstimateCostUSD "openai" "gpt-4o-mini" 1000000 1000000 = fconst 75 100.
Proof. vm_compute. reflexivity. Qed.
