(* ===== verification/Service.v ===== *)
(** * The middleware service (internal/middleware/factory.go, service.go)

    [NewService] wires the translator, the dispatcher, the approver and the tool
    catalogue from a configuration.  The translator backends are parameters. *)

From S2P Require Import Prelude GoString GoConv Event Utf8 Wire GoNum Paths Sandbox Os Fsops FsopsSpec History Tools WorkerPool Approver Dispatcher GitHub GitHubClient Catalogue Models Recovery Server Intent.

Record ResourceLimits := mkRes { CPUNanos : Z; MemoryBytes : Z; PidsLimit : Z }.

Record RuntimeConfig := mkRuntime {
  rc_SystemPrompt : string;
  rc_WindowTurns : Z;
  rc_MaxConcurrent : Z;
  rc_DefaultTimeout : Z;
  rc_SandboxLimits : ResourceLimits;
  rc_Provider : string;
  rc_Model : string;
  rc_GateDirectCommands : bool;
  rc_MaxAutoRetries : Z;
  rc_MaxResultBytes : Z;
  rc_WorkerPoolEnabled : bool;
  rc_WorkerPoolMaxConcurrent : Z;
  rc_WorkerPoolMaxTasks : Z;
  rc_WorkerPoolTaskTimeout : Z;
  rc_DaemonMonitorEnabled : bool;
}.

Section service.
Context {R T H : Type}.                    (* runners, translators, history stores *)

Record FactoryConfig := mkFactory {
  fc_Runtime : string;
  fc_APIKey : string;
  fc_Model : string;
  fc_Temperature : f64;
  fc_MaxTokens : Z;
  fc_OpenAIBaseURL : string;
  fc_MaxRetries : Z;
  fc_AnthropicThinkingBudget : Z;
  fc_SystemPrompt : string;
  fc_WindowTurns : Z;
  fc_MaxConcurrent : Z;
  fc_DefaultTimeout : Z;
  fc_SandboxLimits : ResourceLimits;
  fc_GateDirectCommands : bool;
  fc_MaxAutoRetries : Z;
  fc_MaxResultBytes : Z;
  fc_WorkerPoolEnabled : bool;
  fc_WorkerPoolMaxConcurrent : Z;
  fc_WorkerPoolMaxTasks : Z;
  fc_WorkerPoolTaskTimeout : Z;
  fc_DaemonMonitorEnabled : bool;
  fc_DocFetchAllowedDomains : list string;
  fc_Sandbox : option R;
  fc_FSOps : option Engine;
  fc_History : option H;
  fc_ApprovalRequiredTools : list string;
  fc_ApprovalAutoGrant : bool;
  fc_ApprovalTimeout : Z;
  fc_GitHub : bool;                        (* GitHub is not nil *)
  fc_GitHubTools : list ToolSpec;
  fc_IsDestructiveGitHubTool : option (string -> bool);
}.

Record Service := mkService {
  sv_Translator : T;
  sv_Dispatcher : CompositeDispatcher (R := R);
  sv_DocDomains : list string;             (* the documentation fetcher of the dispatcher *)
  sv_Approver : policy;
  sv_History : H;
  sv_Tools : list ToolSpec;
  sv_FSOps : option Engine;
  sv_IsDestructiveGitHubTool : option (string -> bool);
  sv_Config : RuntimeConfig;
}.

(** The constructors behind the build tags. *)
Record backends := mkBackends {
  b_mock : T;
  b_gemini : FactoryConfig -> result string T;
  b_openai : FactoryConfig -> result string T;
  b_anthropic : FactoryConfig -> result string T;
}.

(** DeepSeek is OpenAI with other defaults. *)
Definition with_deepseek (c : FactoryConfig) : FactoryConfig :=
  mkFactory (fc_Runtime c) (fc_APIKey c) (if String.eqb (fc_Model c) "" then deepSeekDefaultModel else fc_Model c) (fc_Temperature c)
    (fc_MaxTokens c) (if String.eqb (fc_OpenAIBaseURL c) "" then deepSeekDefaultBaseURL else fc_OpenAIBaseURL c) (fc_MaxRetries c)
    (fc_AnthropicThinkingBudget c) (fc_SystemPrompt c) (fc_WindowTurns c) (fc_MaxConcurrent c) (fc_DefaultTimeout c) (fc_SandboxLimits c)
    (fc_GateDirectCommands c) (fc_MaxAutoRetries c) (fc_MaxResultBytes c) (fc_WorkerPoolEnabled c) (fc_WorkerPoolMaxConcurrent c)
    (fc_WorkerPoolMaxTasks c) (fc_WorkerPoolTaskTimeout c) (fc_DaemonMonitorEnabled c) (fc_DocFetchAllowedDomains c) (fc_Sandbox c)
    (fc_FSOps c) (fc_History c) (fc_ApprovalRequiredTools c) (fc_ApprovalAutoGrant c) (fc_ApprovalTimeout c) (fc_GitHub c)
    (fc_GitHubTools c) (fc_IsDestructiveGitHubTool c).

(** The switch over the runtime: no service, an error, or a translator and the
    configuration with its defaults filled in. *)
Definition select_translator (b : backends) (c : FactoryConfig) : result string (option (T * FactoryConfig)) :=
  let built (r : result string T) (c : FactoryConfig) := match r with Ok t => Ok (Some (t, c)) | Err e => Err e end in
  let rt := fc_Runtime c in
  if String.eqb rt "" || String.eqb rt RuntimeNone then Ok None
  else if String.eqb rt RuntimeMock then Ok (Some (b_mock b, c))
  else if String.eqb rt RuntimeGemini then built (b_gemini b c) c
  else if String.eqb rt RuntimeOpenAI then built (b_openai b c) c
  else if String.eqb rt RuntimeDeepSeek then built (b_openai b (with_deepseek c)) (with_deepseek c)
  else if String.eqb rt RuntimeAnthropic then built (b_anthropic b c) c
  else Err ("middleware: unknown runtime " +:+ rt).

(** The approver with what the optional features add to its list. *)
Definition wire_approver (c : FactoryConfig) : policy :=
  let p := NewPolicyApprover (fc_ApprovalRequiredTools c) (fc_ApprovalAutoGrant c) (fc_ApprovalTimeout c) in
  let p := if fc_WorkerPoolEnabled c then AddRequired p [ToolDispatchWorkerPool] else p in
  let p := if fc_DaemonMonitorEnabled c then AddRequired p [ToolMonitorDaemon] else p in
  match fc_GitHub c, fc_IsDestructiveGitHubTool c with
  | true, Some f => AddRequired p (ts_Name <$> List.filter (fun t => f (ts_Name t)) (fc_GitHubTools c))
  | _, _ => p
  end.

Definition wire_tools (c : FactoryConfig) : list ToolSpec :=
  DefaultTools ++ (if fc_WorkerPoolEnabled c then [WorkerPoolSpec] else []) ++ (if fc_DaemonMonitorEnabled c then DaemonToolSpecs else []) ++
  (if fc_GitHub c then fc_GitHubTools c else []).

Definition runtime_config (c : FactoryConfig) : RuntimeConfig :=
  mkRuntime (fc_SystemPrompt c) (fc_WindowTurns c) (fc_MaxConcurrent c) (fc_DefaultTimeout c) (fc_SandboxLimits c) (fc_Runtime c)
    (effectiveDefaultModel (fc_Runtime c) (fc_Model c)) (fc_GateDirectCommands c) (fc_MaxAutoRetries c) (fc_MaxResultBytes c)
    (fc_WorkerPoolEnabled c) (fc_WorkerPoolMaxConcurrent c) (fc_WorkerPoolMaxTasks c) (fc_WorkerPoolTaskTimeout c) (fc_DaemonMonitorEnabled c).

Definition NewService (b : backends) (c : FactoryConfig) : result string (option Service) :=
  match select_translator b c with
  | Err e => Err e
  | Ok None => Ok None
  | Ok (Some (tr, c)) =>
      match fc_History c with
      | None => Err "middleware: history store is required"
      | Some h =>
          Ok (Some (mkService tr (mkDispatcher (fc_Sandbox c) (fc_FSOps c) (fc_GitHub c) true true) (fc_DocFetchAllowedDomains c)
            (wire_approver c) h (wire_tools c) (fc_FSOps c) (fc_IsDestructiveGitHubTool c) (runtime_config c)))
      end
  end.

(** ** The catalogue of a turn (service.go) *)

Definition AvailableTools (s : Service) : list ToolSpec := if Nat.eqb (length (sv_Tools s)) 0 then DefaultTools else sv_Tools s.

Definition tools_for (s : Service) (mode : string) : list ToolSpec :=
  if negb (String.eqb mode ModeAudit) then AvailableTools s
  else List.filter (fun t => negb (IsMutatingTool (sv_IsDestructiveGitHubTool s) (ts_Name t))) (AvailableTools s).

(** ** What the wiring guarantees *)

Lemma select_fields b c tr c' :
  select_translator b c = Ok (Some (tr, c')) ->
  wire_approver c' = wire_approver c /\ wire_tools c' = wire_tools c /\ fc_IsDestructiveGitHubTool c' = fc_IsDestructiveGitHubTool c /\
  fc_Runtime c' = fc_Runtime c.
Proof. unfold select_translator. intros Hs. repeat case_match; simplify_eq/=; done. Qed.

Lemma NewService_spec b c s : NewService b c = Ok (Some s) ->
  sv_Approver s = wire_approver c /\ sv_Tools s = wire_tools c /\ sv_IsDestructiveGitHubTool s = fc_IsDestructiveGitHubTool c.
Proof.
  unfold NewService. intros Hs. destruct (select_translator b c) as [[[tr c']|]|] eqn:E; [|done|done].
  apply select_fields in E as (<- & <- & <- & _). destruct (fc_History c'); [|done]. by injection Hs as <-.
Qed.

Lemma AddRequired_required p l n : n ∈ requiredTools (AddRequired p l) <-> n ∈ requiredTools p \/ (n ∈ l /\ n <> "").
Proof. unfold AddRequired. cbn. rewrite elem_of_union, elem_of_list_to_set, list_elem_of_filter. naive_solver. Qed.

Lemma AddRequired_grant p l : autoGrant (AddRequired p l) = autoGrant p.
Proof. done. Qed.

Lemma wire_approver_grant c : autoGrant (wire_approver c) = fc_ApprovalAutoGrant c.
Proof. unfold wire_approver. repeat case_match; done. Qed.

(** What needs consent after the wiring. *)
Lemma wire_approver_required c n :
  n ∈ requiredTools (wire_approver c) <->
  n <> "" /\ (n ∈ fc_ApprovalRequiredTools c \/ (fc_WorkerPoolEnabled c = true /\ n = ToolDispatchWorkerPool) \/
   (fc_DaemonMonitorEnabled c = true /\ n = ToolMonitorDaemon) \/
   (fc_GitHub c = true /\ exists f t, fc_IsDestructiveGitHubTool c = Some f /\ t ∈ fc_GitHubTools c /\ ts_Name t = n /\ f n = true)).
Proof.
  unfold wire_approver.
  set (p0 := NewPolicyApprover _ _ _). set (p1 := if fc_WorkerPoolEnabled c then _ else _). set (p2 := if fc_DaemonMonitorEnabled c then _ else _).
  assert (n ∈ requiredTools p0 <-> n ∈ fc_ApprovalRequiredTools c /\ n <> "") as H0.
  { subst p0. unfold NewPolicyApprover. cbn. rewrite elem_of_list_to_set, list_elem_of_filter. naive_solver. }
  assert (n ∈ requiredTools p1 <-> n ∈ requiredTools p0 \/ (fc_WorkerPoolEnabled c = true /\ n = ToolDispatchWorkerPool)) as H1.
  { subst p1. destruct (fc_WorkerPoolEnabled c); [|naive_solver]. rewrite AddRequired_required, list_elem_of_singleton. naive_solver. }
  assert (n ∈ requiredTools p2 <-> n ∈ requiredTools p1 \/ (fc_DaemonMonitorEnabled c = true /\ n = ToolMonitorDaemon)) as H2.
  { subst p2. destruct (fc_DaemonMonitorEnabled c); [|naive_solver]. rewrite AddRequired_required, list_elem_of_singleton. naive_solver. }
  assert (forall f, n ∈ ts_Name <$> List.filter (fun t => f (ts_Name t)) (fc_GitHubTools c) <-> exists t, t ∈ fc_GitHubTools c /\ ts_Name t = n /\ f n = true) as Hf.
  { intros f. rewrite list_elem_of_fmap. split.
    - intros (t & -> & Ht). apply list_elem_of_In, filter_In in Ht as [Ht Hft]. exists t. by rewrite list_elem_of_In.
    - intros (t & Ht & <- & Hft). exists t. split; [done|]. apply list_elem_of_In, filter_In. by rewrite <-list_elem_of_In. }
  assert (ToolDispatchWorkerPool <> "" /\ ToolMonitorDaemon <> "") as [Hw Hd] by done.
  destruct (fc_GitHub c), (fc_IsDestructiveGitHubTool c) as [f|]; rewrite ?AddRequired_required, ?Hf, H2, H1, H0; clear -Hw Hd; naive_solver.
Qed.
End service.

Section gates.
Context {R T H : Type}.
Variable unquote : string -> option string.
Variable decode : string -> option rawSchema.

Lemma ListTools_spec o b ctx e cl : New unquote decode o b ctx e = Ok cl -> exists l, sp_list e = Ok l /\
  ListTools cl = (buildToolList unquote decode l).1 /\ forall n, IsDestructive cl n = true <-> exists t, Some t ∈ l /\ n = PrefixedName (t_Name t) /\ isDestructiveTool t = true.
Proof.
  intros (l & Hl & Ht & Hd)%New_tools. exists l. split_and!; [done|by unfold ListTools; rewrite Ht|].
  intros n. unfold IsDestructive. rewrite bool_decide_eq_true, Hd. apply destr_set_spec.
Qed.

Lemma listed_tool l t : Some t ∈ l -> tool_spec unquote decode t ∈ (buildToolList unquote decode l).1.
Proof. intros Ht. unfold buildToolList. cbn [fst]. apply list_elem_of_fmap_2, list_elem_of_omap. by exists (Some t). Qed.

Lemma listed_names l s : s ∈ (buildToolList unquote decode l).1 -> IsGitHubTool (ts_Name s) = true.
Proof. unfold buildToolList. cbn [fst]. intros (t & -> & _)%list_elem_of_fmap. apply prefixed_is_github. Qed.

Lemma wired_known_or_github (c : FactoryConfig (R := R) (H := H)) t :
  t ∈ wire_tools c -> KnownTool (ts_Name t) = true \/ fc_GitHub c = true /\ t ∈ fc_GitHubTools c.
Proof.
  intros Ht. destruct catalogue_well_formed as [_ Hall]. rewrite Forall_forall in Hall.
  assert (t ∈ all_tools \/ fc_GitHub c = true /\ t ∈ fc_GitHubTools c) as [Ha|Ha]; [|left; by apply Hall|by right].
  unfold wire_tools in Ht. unfold all_tools. rewrite !elem_of_app.
  destruct (fc_WorkerPoolEnabled c), (fc_DaemonMonitorEnabled c), (fc_GitHub c); rewrite ?elem_of_app, ?elem_of_nil in Ht; tauto.
Qed.

Lemma wired_known (c : FactoryConfig (R := R) (H := H)) t :
  (forall t, t ∈ fc_GitHubTools c -> IsGitHubTool (ts_Name t) = true) -> t ∈ wire_tools c -> KnownTool (ts_Name t) = true.
Proof.
  intros Hg Ht. destruct (wired_known_or_github c t Ht) as [|[_ Ha]]; [done|]. unfold KnownTool. apply orb_true_iff. right. by apply Hg.
Qed.

Lemma audit_tools_read_only (s : Service (R := R) (T := T) (H := H)) t : t ∈ tools_for s ModeAudit -> IsMutatingTool (sv_IsDestructiveGitHubTool s) (ts_Name t) = false.
Proof. unfold tools_for. cbn [negb String.eqb]. rewrite String.eqb_refl. cbn [negb]. intros [_ Hf]%list_elem_of_In%filter_In. by apply negb_true_iff. Qed.
End gates.

(** C32: what needs consent, exactly.  For every service that is built, a tool
    needs consent exactly when approvals are not granted automatically and it is
    on the operator's list, or is the worker pool or the daemon monitor and that
    is enabled, or is one of the GitHub tools the wired predicate calls
    destructive; so the mutating tools of the catalogue (scripts, patches) are
    gated by the operator's list alone.  Every offered tool is one the dispatcher
    knows or comes from the GitHub backend; none offered in audit mode is one of
    the catalogue's mutating tools or a destructive GitHub tool.  And when the
    GitHub backend is wired with its own client, every tool its server announces
    as destructive needs consent (unless approvals are granted automatically)
    under the name the model calls it by, is offered, and counts as mutating, and
    every offered tool is known. *)
Theorem service_gates_mutations {R T H : Type} (unquote : string -> option string) (decode : string -> option rawSchema)
    (b : backends (R := R) (T := T) (H := H)) (c : FactoryConfig) (s : Service) :
  NewService b c = Ok (Some s) ->
  (forall n, (RequiresApproval (sv_Approver s) n).1 = true <-> fc_ApprovalAutoGrant c = false /\ n <> "" /\
     (n ∈ fc_ApprovalRequiredTools c \/ (fc_WorkerPoolEnabled c = true /\ n = ToolDispatchWorkerPool) \/
      (fc_DaemonMonitorEnabled c = true /\ n = ToolMonitorDaemon) \/
      (fc_GitHub c = true /\ exists f t, fc_IsDestructiveGitHubTool c = Some f /\ t ∈ fc_GitHubTools c /\ ts_Name t = n /\ f n = true))) /\
  (forall t, t ∈ sv_Tools s -> KnownTool (ts_Name t) = true \/ fc_GitHub c = true /\ t ∈ fc_GitHubTools c) /\
  (forall t, t ∈ tools_for s ModeAudit ->
     ts_Name t ∉ [ToolExecuteScript; ToolWritePatch; ToolApplyCodePatch; ToolMonitorDaemon; ToolStopDaemon; ToolDispatchWorkerPool] /\
     forall f, fc_IsDestructiveGitHubTool c = Some f -> HasPrefix (ts_Name t) "github_" = true -> f (ts_Name t) = false) /\
  (forall o ctx e cl l, New unquote decode o true ctx e = Ok cl -> sp_list e = Ok l ->
     fc_GitHub c = true -> fc_GitHubTools c = ListTools cl -> fc_IsDestructiveGitHubTool c = Some (IsDestructive cl) ->
     (forall t, Some t ∈ l -> isDestructiveTool t = true ->
        (fc_ApprovalAutoGrant c = false -> (RequiresApproval (sv_Approver s) (PrefixedName (t_Name t))).1 = true) /\
        tool_spec unquote decode t ∈ sv_Tools s /\ IsMutatingTool (sv_IsDestructiveGitHubTool s) (PrefixedName (t_Name t)) = true) /\
     (forall t, t ∈ sv_Tools s -> KnownTool (ts_Name t) = true)).
Proof.
  intros Hs. apply NewService_spec in Hs as (Ha & Hto & Hi).
  assert (forall n, (RequiresApproval (sv_Approver s) n).1 = true <-> fc_ApprovalAutoGrant c = false /\ n ∈ requiredTools (wire_approver c)) as Hr
    by (intros n; by rewrite RequiresApproval_spec, Ha, wire_approver_grant).
  split_and!.
  - intros n. rewrite Hr, wire_approver_required. done.
  - intros t Hin. rewrite Hto in Hin. by apply wired_known_or_github.
  - intros t Hin. pose proof (audit_tools_read_only s t Hin) as Hm. rewrite Hi in Hm. unfold IsMutatingTool in Hm. destruct (IsMutatingBaseTool (ts_Name t)) eqn:Hb; [done|]. split.
    + intros Hx. apply list_elem_of_In in Hx. cbn [In] in Hx. repeat (destruct Hx as [Hx|Hx]; [rewrite <-Hx in Hb; discriminate Hb|]). done.
    + intros f Hf Hp. rewrite Hf in Hm. change GitHubToolPrefix with "github_" in Hm. by rewrite Hp in Hm.
  - intros o ctx e cl l Hn Hl Hgh Ht Hd. apply ListTools_spec in Hn as (l' & Hl' & Hlt & Hdl). rewrite Hl in Hl'. injection Hl' as <-. split.
    + intros t Hin Hdt. assert (IsDestructive cl (PrefixedName (t_Name t)) = true) as Hdes by (apply Hdl; by exists t). split_and!.
      * intros Hg. rewrite Hr, wire_approver_required. split; [done|]. split; [unfold PrefixedName; case_match; [by destruct (t_Name t)|done]|].
        right; right; right. split; [done|]. exists (IsDestructive cl), (tool_spec unquote decode t). split_and!; [done| |done|done].
        rewrite Ht, Hlt. by apply listed_tool.
      * rewrite Hto. unfold wire_tools. rewrite Hgh, Ht, Hlt, !elem_of_app. do 3 right. by apply listed_tool.
      * rewrite Hi, Hd. unfold IsMutatingTool. destruct (IsMutatingBaseTool _); [done|].
        change GitHubToolPrefix with ToolPrefix. by rewrite (prefixed_is_github (t_Name t) : HasPrefix _ _ = true).
    + intros t Hin. rewrite Hto in Hin. eapply wired_known; [|done]. intros u Hu. rewrite Ht, Hlt in Hu. by eapply listed_names.
Qed.

(** ** Witnesses *)

Definition demo_backends : backends (R := MockRunner) (T := unit) (H := unit) :=
  mkBackends tt (fun _ => Err "no gemini") (fun _ => Ok tt) (fun _ => Ok tt).

Definition demo_up : list (option Tool) := [Some (mkTool "create_issue" "" None None); None; Some (mkTool "get_me" "" None None)].
Definition demo_up_spawn : spawn_env := mkSpawn (StaticTokenSource "t") ∅ [] Some None (Ok 0) (Ok demo_up).
Definition demo_unquote (_ : string) : option string := None.
Definition demo_decode (_ : string) : option rawSchema := None.

Definition demo_cl : Client :=
  Eval vm_compute in match New demo_unquote demo_decode demo_opts true (mkCtx 0 None) demo_up_spawn with Ok c => c | Err _ => demo_client end.

Definition demo_factory : FactoryConfig (R := MockRunner) (H := unit) :=
  mkFactory "deepseek" "k" "" (f64_of_Z 0) 0 "" 0 0 "" 0 0 0 (mkRes 0 0 0) true 0 0 true 0 0 0 true [] None None (Some tt)
    ["execute_script"] false 0 true (ListTools demo_cl) (Some (IsDestructive demo_cl)).

Lemma service_gates_mutations_witness :
  exists s, NewService demo_backends demo_factory = Ok (Some s) /\ rc_Model (sv_Config s) = "deepseek-chat" /\
  (RequiresApproval (sv_Approver s) "github_create_issue").1 = true.
Proof.
  destruct (NewService demo_backends demo_factory) as [[s|]|] eqn:E; [|discriminate E|discriminate E].
  exists s. split; [reflexivity|]. split; [injection E as <-; reflexivity|].
  destruct (service_gates_mutations demo_unquote demo_decode demo_backends demo_factory s E) as (_ & _ & _ & Hg).
  refine (proj1 (proj1 (Hg demo_opts (mkCtx 0 None) demo_up_spawn demo_cl demo_up _ _ _ _ _) (mkTool "create_issue" "" None None) _ _) _); try reflexivity.
  left.
Defined.
