(* ===== verification/SearchSyntax.v ===== *)
(** * Structural search (internal/sandbox/searchsyntax.go)

    The argument vector for ast-grep, and the envelope its output becomes.
    Decoding of ast-grep's JSON is a parameter; the envelope is encoded by
    GoJson. *)

From Stdlib Require Import QArith_base.
From S2P Require Import Prelude GoString GoConv Event Utf8 Wire GoJson Sandbox Tools.

#[local] Open Scope Z_scope.

Definition defaultSearchMaxMatches : Z := 100.
Definition hardSearchMaxMatches : Z := 1000.
Definition maxSearchPatternBytes : Z := 8 * 1024.
Definition maxSearchLangBytes : Z := 16.
Definition maxSearchGlobBytes : Z := 256.
Definition searchEnvelopeOverhead : Z := 512.

Record sgMatch := mkMatch { File : string; Line : Z; Column : Z; EndLine : Z; EndColumn : Z; Snippet : string }.

Record searchSyntaxResult := mkSearch {
  Matches : list sgMatch;
  TotalMatches : Z;
  ReturnedMatches : Z;
  Truncated : bool;
  OriginalBytes : Z;
  PreviewBytes : Z;
  SearchError : string;
}.

Record sgRawPos := mkPos { p_Line : Z; p_Column : Z }.
Record sgRawMatch := mkRawMatch { raw_File : string; raw_Text : string; raw_Lines : string; raw_Start : sgRawPos; raw_End : sgRawPos }.

(** ** The argument vector *)

Definition bad (msg : string) : gerror := mkErr KBadRequest msg.

Definition coerceInt (v : any) : option Z :=
  match v with
  | AInt n => Some n
  | AFloat q => Some (int_of_float q)
  | _ => None
  end.

Definition glob_strings (l : list any) : result gerror (list string) :=
  mapM_res (fun g => match g with
                     | AStr s => if maxSearchGlobBytes <? zlen s then Err (bad "a glob in 'globs' exceeds 256 bytes") else Ok s
                     | _ => Err (bad "'globs' must be a list of strings")
                     end) l.

Definition search_max (a : args) : result gerror Z :=
  match arg_lookup a "max_matches" with
  | None => Ok defaultSearchMaxMatches
  | Some v => match coerceInt v with
              | Some n => if n <=? 0 then Err (bad "'max_matches' must be a positive integer") else Ok n
              | None => Err (bad "'max_matches' must be a positive integer")
              end
  end.

Definition check_lang (lang : string) : result gerror unit :=
  if String.eqb lang "" then Ok tt
  else _ ← guard_err (negb (maxSearchLangBytes <? zlen lang)) (bad "'lang' exceeds 16 chars");
       guard_err (all_alpha lang) (bad "'lang' must be alphabetic").

Definition check_search_path (path : string) : result gerror unit :=
  if String.eqb path "" then Ok tt
  else _ ← guard_err (negb (HasPrefix path "/")) (bad "'path' must be relative to the workspace root");
       let cleaned := Clean path in
       guard_err (negb (String.eqb cleaned ".." || HasPrefix cleaned "../" || Contains cleaned "/../")) (bad "'path' must not contain '..'").

Definition buildSearchSyntaxCmd (a : args) : result gerror (list string * Z) :=
  let pattern := arg_string_or_empty a "pattern" in
  let lang := arg_string_or_empty a "lang" in
  let path := arg_string_or_empty a "path" in
  _ ← guard_err (negb (String.eqb pattern "")) (bad "missing or empty 'pattern' arg");
  _ ← guard_err (negb (maxSearchPatternBytes <? zlen pattern)) (bad "'pattern' exceeds 8192 bytes");
  _ ← check_lang lang;
  _ ← check_search_path path;
  n ← search_max a;
  globs ← match arg_lookup a "globs" with
          | None => Ok []
          | Some (AArr l) => glob_strings l
          | Some _ => Err (bad "'globs' must be a list of strings")
          end;
  mret (["sg"; "run"; "--json=compact"; "--pattern"; pattern] ++ (if String.eqb lang "" then [] else ["--lang"; lang]) ++
        concat ((fun g => ["--globs"; g]) <$> globs) ++ [if String.eqb path "" then "." else path],
        if hardSearchMaxMatches <? n then hardSearchMaxMatches else n).

(** ** The envelope *)

Definition projectMatch (m : sgRawMatch) : sgMatch :=
  mkMatch (raw_File m) (wrap64 (p_Line (raw_Start m) + 1)) (wrap64 (p_Column (raw_Start m) + 1)) (wrap64 (p_Line (raw_End m) + 1))
    (wrap64 (p_Column (raw_End m) + 1)) (if String.eqb (raw_Text m) "" then raw_Lines m else raw_Text m).

Definition is_space4 (c : ascii) : bool := existsb (Nat.eqb (nat_of_ascii c)) [32; 9; 10; 13]%nat.
Definition trimLeadingSpace (b : string) : string := drop_while is_space4 b.

Definition ellipsis : string := Eval vm_compute in bytes_of [226; 128; 166]%nat.

Definition truncateForError (s : string) (max : nat) : string :=
  if Nat.leb (String.length s) max then s else str_take max s +:+ ellipsis.

Definition int_field (k : string) (z : Z) : option (string * string) := if z =? 0 then None else Some (k, Itoa z).
Definition json_bool (b : bool) : string := if b then "true" else "false".

Definition marshal_match (m : sgMatch) : string :=
  json_object [Some ("file", json_string (File m)); Some ("line", Itoa (Line m)); Some ("column", Itoa (Column m));
    int_field "end_line" (EndLine m); int_field "end_column" (EndColumn m); Some ("snippet", json_string (Snippet m))].

(** The slice is never nil. *)
Definition marshal_matches (l : list sgMatch) : string := "[" +:+ StrJoin "," (marshal_match <$> l) +:+ "]".

Definition marshal_result (r : searchSyntaxResult) : string :=
  json_object [Some ("matches", marshal_matches (Matches r)); Some ("total_matches", Itoa (TotalMatches r));
    Some ("returned_matches", Itoa (ReturnedMatches r)); Some ("truncated", json_bool (Truncated r));
    int_field "original_bytes" (OriginalBytes r); int_field "preview_bytes" (PreviewBytes r);
    if String.eqb (SearchError r) "" then None else Some ("error", json_string (SearchError r))].

Section reshape.
(** [json.Unmarshal] of the array and of one line; the message on failure. *)
Variable decode_array : string -> result string (list sgRawMatch).
Variable decode_line : string -> result string sgRawMatch.

(** The per-line layout: matches, and the first error. *)
Fixpoint parse_lines (lines : list string) (acc : list sgMatch) (err : string) : list sgMatch * string :=
  match lines with
  | [] => (acc, err)
  | line :: rest =>
      let line := TrimSpace line in
      if String.eqb line "" then parse_lines rest acc err
      else match decode_line line with
           | Ok m => parse_lines rest (acc ++ [projectMatch m]) err
           | Err e => parse_lines rest acc (if String.eqb err "" then "ast-grep emitted a malformed JSON line: " +:+ e else err)
           end
  end.

Definition parse_output (rawStdout rawStderr : string) : list sgMatch * string :=
  if String.eqb rawStdout "" then ([], "")
  else
    let trimmed := trimLeadingSpace rawStdout in
    if HasPrefix trimmed "[" then
      match decode_array trimmed with
      | Ok raw => (projectMatch <$> raw, "")
      | Err e => let msg := TrimSpace rawStderr in
                 ([], "ast-grep returned unparseable JSON: " +:+ e +:+
                      (if String.eqb msg "" then "" else " | stderr: " +:+ truncateForError msg 512))
      end
    else parse_lines (SplitByte (ascii_of_nat 10) rawStdout) [] "".

(** Drop matches from the end until the envelope fits the budget. *)
Fixpoint shrink_matches (fuel : nat) (budget : Z) (r : searchSyntaxResult) : searchSyntaxResult :=
  match fuel with
  | O => r
  | S fuel' =>
      if Nat.eqb (length (Matches r)) 0 then r
      else if zlen (marshal_result r) <=? budget then r
      else let ms := removelast (Matches r) in
           shrink_matches fuel' budget
             (mkSearch ms (TotalMatches r) (Z.of_nat (length ms)) (Truncated r) (OriginalBytes r) (PreviewBytes r) (SearchError r))
  end.

Definition with_preview (r : searchSyntaxResult) : searchSyntaxResult :=
  mkSearch (Matches r) (TotalMatches r) (ReturnedMatches r) (Truncated r) (OriginalBytes r) (zlen (marshal_result r)) (SearchError r).

(** What [reshapeMatches] marshals. *)
Definition reshaped (rawStdout rawStderr : string) (softMaxMatches maxBytes : Z) : searchSyntaxResult :=
  let '(ms, err) := parse_output rawStdout rawStderr in
  let err := if Nat.eqb (length ms) 0 && String.eqb err "" then truncateForError (TrimSpace rawStderr) 512 else err in
  let total := Z.of_nat (length ms) in
  let ms := if (0 <? softMaxMatches) && (softMaxMatches <? total) then take (Z.to_nat softMaxMatches) ms else ms in
  let out := mkSearch ms total (Z.of_nat (length ms)) false 0 0 err in
  let body := marshal_result out in
  if (maxBytes <=? 0) || (zlen body <=? maxBytes) then out
  else
    let budget := Z.max 256 (maxBytes - searchEnvelopeOverhead) in
    with_preview (shrink_matches (length ms) budget (mkSearch ms total (Z.of_nat (length ms)) true (zlen body) 0 err)).

Definition reshapeMatches (rawStdout rawStderr : string) (softMaxMatches maxBytes : Z) : string :=
  marshal_result (reshaped rawStdout rawStderr softMaxMatches maxBytes).
End reshape.

(** ** The bounded buffer *)

Record boundedBuffer := mkBounded { bb_bytes : string; bb_cap : Z }.

Definition bb_Write (b : boundedBuffer) (p : string) : boundedBuffer :=
  let room := bb_cap b - zlen (bb_bytes b) in
  if room <=? 0 then b
  else if room <? zlen p then mkBounded (bb_bytes b +:+ str_take (Z.to_nat room) p) (bb_cap b)
  else mkBounded (bb_bytes b +:+ p) (bb_cap b).

Lemma str_take_app_add a k b : str_take (String.length a + k) (a +:+ b) = a +:+ str_take k b.
Proof. by rewrite str_take_add, str_take_app_length, str_drop_app_length. Qed.

Lemma str_take_app_le k a b : (k <= String.length a)%nat -> str_take k (a +:+ b) = str_take k a.
Proof.
  revert a. induction k as [|k IH]; intros [|c a] H; simpl in H; try done; [lia|]. rewrite str_app_cons. cbn [str_take]. f_equal. apply IH. lia.
Qed.

(** The buffer holds the first [cap] bytes of all that was written. *)
Lemma bb_writes b ps : 0 <= bb_cap b -> zlen (bb_bytes b) <= bb_cap b ->
  bb_bytes (foldl bb_Write b ps) = str_take (Z.to_nat (bb_cap b)) (bb_bytes b +:+ str_concat ps).
Proof.
  revert b. induction ps as [|p ps IH]; intros b Hc Hl.
  - cbn. rewrite str_app_nil_r, str_take_all; [done|]. unfold zlen in Hl. lia.
  - cbn [foldl str_concat foldr]. fold (str_concat ps). rewrite str_app_assoc. unfold bb_Write at 2.
    destruct (_ <=? 0) eqn:E1; [|destruct (_ <? zlen p) eqn:E2]; boolprop.
    + rewrite IH by done. unfold zlen in *. assert (String.length (bb_bytes b) = Z.to_nat (bb_cap b)) as Hn by lia.
      rewrite <-Hn, !str_take_app_length. rewrite <-str_app_assoc. by rewrite str_take_app_length.
    + rewrite IH by (cbn; rewrite ?zlen_app; unfold zlen in *; rewrite ?str_length_take; lia). cbn [bb_bytes bb_cap].
      unfold zlen in *. set (k := Z.to_nat (bb_cap b - Z.of_nat (String.length (bb_bytes b)))).
      assert (Z.to_nat (bb_cap b) = (String.length (bb_bytes b) + k)%nat) as -> by lia.
      rewrite <-!str_app_assoc, !str_take_app_add. f_equal.
      rewrite str_take_app_le by (rewrite str_length_take; lia). rewrite (str_take_app_le k p) by lia.
      apply str_take_all. rewrite str_length_take. lia.
    + rewrite IH by (cbn; rewrite ?zlen_app; lia). cbn [bb_bytes bb_cap]. by rewrite <-str_app_assoc.
Qed.

(** ** Properties *)

Lemma removelast_prefix {A} (l : list A) : removelast l `prefix_of` l.
Proof.
  destruct l as [|x l] using rev_ind; [done|]. rewrite removelast_last. by exists [x].
Qed.

Lemma removelast_length {A} (l : list A) : length (removelast l) = (length l - 1)%nat.
Proof. destruct l as [|x l] using rev_ind; [done|]. rewrite removelast_last, length_app. cbn. lia. Qed.

(** The loop only drops matches, keeps the count right, and ends under the
    budget or with nothing left. *)
Lemma search_shrink_spec fuel budget r : (length (Matches r) <= fuel)%nat -> ReturnedMatches r = Z.of_nat (length (Matches r)) ->
  let r' := shrink_matches fuel budget r in
  Matches r' `prefix_of` Matches r /\ ReturnedMatches r' = Z.of_nat (length (Matches r')) /\
  (TotalMatches r', Truncated r', OriginalBytes r', PreviewBytes r') = (TotalMatches r, Truncated r, OriginalBytes r, PreviewBytes r) /\
  (Matches r' = [] \/ zlen (marshal_result r') <= budget).
Proof.
  revert r. induction fuel as [|fuel IH]; intros r Hf Hr; cbn [shrink_matches].
  - assert (Matches r = []) as E by (apply nil_length_inv; lia). rewrite E in *. auto.
  - destruct (Nat.eqb (length (Matches r)) 0) eqn:E0.
    { apply Nat.eqb_eq, nil_length_inv in E0. rewrite E0 in *. auto. }
    apply Nat.eqb_neq in E0. destruct (zlen (marshal_result r) <=? budget) eqn:Eb; boolprop; [auto|].
    match goal with |- context [shrink_matches fuel budget ?x] => set (r1 := x) end.
    destruct (IH r1) as (H1 & H2 & H3 & H4); [cbn; rewrite removelast_length; lia|done|]. cbn [Matches r1] in *.
    repeat split; [etransitivity; [exact H1|apply removelast_prefix]|done|done|done].
Qed.

Lemma preview_cost r : PreviewBytes r = 0 -> zlen (marshal_result r) < 2 ^ 62 ->
  zlen (marshal_result (with_preview r)) <= zlen (marshal_result r) + 40.
Proof.
  intros Hp Hl. unfold with_preview. unfold marshal_result at 1. cbn [Matches TotalMatches ReturnedMatches Truncated OriginalBytes PreviewBytes SearchError].
  assert (forall (a : list (option (string * string))) n b, 0 <= n < 2 ^ 62 ->
    zlen (json_object (a ++ int_field "preview_bytes" n :: b)) <= zlen (json_object (a ++ None :: b)) + 40) as Hk.
  { intros a n b Hn. unfold int_field. destruct (n =? 0); [lia|].
    pose proof (json_object_insert a ("preview_bytes", Itoa n) b) as Hi. unfold field, zlen in *. cbn [fst snd] in Hi.
    rewrite !str_length_app in Hi. change (String.length (json_string "preview_bytes")) with 15%nat in Hi. cbn [String.length] in Hi.
    pose proof (Itoa_length n 19 ltac:(lia) ltac:(lia)). lia. }
  specialize (Hk [Some ("matches", marshal_matches (Matches r)); Some ("total_matches", Itoa (TotalMatches r));
    Some ("returned_matches", Itoa (ReturnedMatches r)); Some ("truncated", json_bool (Truncated r));
    int_field "original_bytes" (OriginalBytes r)] (zlen (marshal_result r))
    [if String.eqb (SearchError r) "" then None else Some ("error", json_string (SearchError r))]).
  cbn [app] in Hk. etransitivity; [apply Hk; unfold zlen in *; lia|]. unfold marshal_result. rewrite Hp. cbn. lia.
Qed.

Section capped.
Variable decode_array : string -> result string (list sgRawMatch).
Variable decode_line : string -> result string sgRawMatch.

(** The envelope returned for a structural search counts every match ast-grep reported, carries an initial segment of them of the length it states and no longer than the caller's limit, and fits the byte cap: outright when it is not marked truncated, and, for a cap of 768 bytes and more, also when it is marked truncated and any match is left. *)
Theorem search_result_is_capped so se soft maxB : maxB < 2 ^ 62 ->
  let ms := (parse_output decode_array decode_line so se).1 in
  let out := reshaped decode_array decode_line so se soft maxB in
  let body := reshapeMatches decode_array decode_line so se soft maxB in
  Matches out `prefix_of` ms /\ TotalMatches out = Z.of_nat (length ms) /\ ReturnedMatches out = Z.of_nat (length (Matches out)) /\
  (0 < soft -> ReturnedMatches out <= soft) /\
  (Truncated out = false -> Matches out = take (Z.to_nat (if 0 <? soft then soft else TotalMatches out)) ms /\ (0 < maxB -> zlen body <= maxB)) /\
  (Truncated out = true -> 0 < maxB < OriginalBytes out /\ (768 <= maxB -> Matches out <> [] -> zlen body <= maxB)).
Proof.
  intros Hm. unfold reshapeMatches, reshaped. destruct (parse_output _ _ so se) as [ms err]. cbn [fst].
  set (err' := if _ && _ then _ else err).
  set (kept := if (0 <? soft) && (soft <? Z.of_nat (length ms)) then take (Z.to_nat soft) ms else ms).
  assert (kept = take (Z.to_nat (if 0 <? soft then soft else Z.of_nat (length ms))) ms) as Hk.
  { subst kept. destruct (0 <? soft) eqn:E1; cbn [andb]; [destruct (soft <? _) eqn:E2; [done|]|];
      boolprop; symmetry; apply take_ge; lia. }
  assert (kept `prefix_of` ms) as Hp by (rewrite Hk; apply prefix_take).
  assert (0 < soft -> Z.of_nat (length kept) <= soft) as Hs.
  { intros Hs. rewrite Hk, length_take. destruct (0 <? soft) eqn:E; boolprop; lia. }
  destruct ((maxB <=? 0) || _) eqn:Ec; cbn zeta.
  - cbn [Matches TotalMatches ReturnedMatches Truncated OriginalBytes]. repeat split; try done.
    intros. apply orb_true_iff in Ec. destruct Ec; boolprop; lia.
  - apply orb_false_iff in Ec as [E1 E2]. boolprop.
    set (big := mkSearch kept _ _ true _ 0 err'). set (bud := Z.max 256 (maxB - searchEnvelopeOverhead)).
    destruct (search_shrink_spec (length kept) bud big (le_n _) eq_refl) as (H1 & H2 & H3 & H4).
    set (r := shrink_matches (length kept) bud big) in *. injection H3 as Htot Ht Ho Hp0.
    change (Matches (with_preview r)) with (Matches r). change (TotalMatches (with_preview r)) with (TotalMatches r).
    change (ReturnedMatches (with_preview r)) with (ReturnedMatches r). change (Truncated (with_preview r)) with (Truncated r).
    change (OriginalBytes (with_preview r)) with (OriginalBytes r). rewrite Ht, Ho, Htot, H2. cbn [Matches big] in H1.
    assert (length (Matches r) <= length kept)%nat by by apply prefix_length.
    split; [by etransitivity|]. split; [done|]. split; [done|]. split; [intros H0; specialize (Hs H0); lia|]. split; [done|].
    intros _. split; [unfold big; cbn [OriginalBytes]; lia|]. intros Hb Hne. destruct H4 as [|H4]; [done|]. unfold bud, searchEnvelopeOverhead in H4.
    pose proof (preview_cost r Hp0). lia.
Qed.
End capped.

Lemma search_result_is_capped_witness :
  let dec := fun _ => Ok (replicate 40 (mkRawMatch "main.go" "func main() {}" "" (mkPos 0 0) (mkPos 0 14))) in
  let line := fun _ => Err "unused" in
  let out := reshaped dec line "[" "" 30 1024 in
  TotalMatches out = 40 /\ Truncated out = true /\ ReturnedMatches out = 4 /\ zlen (reshapeMatches dec line "[" "" 30 1024) <= 1024.
Proof.
  cbn zeta. repeat split; [vm_compute; reflexivity..|].
  eapply (search_result_is_capped (fun _ => Ok (replicate 40 (mkRawMatch "main.go" "func main() {}" "" (mkPos 0 0) (mkPos 0 14))))
    (fun _ => Err "unused") "[" "" 30 1024); [lia|vm_compute; reflexivity|lia|vm_compute; discriminate].
Defined.

(** A search path that begins with a dash passes every check, and reaches
    ast-grep as an option. *)
Lemma search_path_can_be_a_flag :
  let a := [("pattern", AStr "x"); ("path", AStr "--update-all")] in
  validateSearchSyntax a = Ok tt /\
  buildSearchSyntaxCmd a = Ok (["sg"; "run"; "--json=compact"; "--pattern"; "x"; "--update-all"], 100).
Proof. split; vm_compute; reflexivity. Qed.
