(* ===== verification/Docker.v ===== *)
(** * The Docker runner (internal/sandbox/docker.go, factory.go)

    Each request runs in a container of its own.  The engine is third-party
    code: its answers to one request are a record ([answers]), and a run yields
    the operations it asked of the engine, in order, and the chunks it sent.
    [runSearchSyntax] repeats the container plumbing of [runOne]; the helpers
    here are that plumbing, shared.  Error texts omit quoted operands. *)

From S2P Require Import Prelude GoString GoConv Event Utf8 Wire GoJson Paths Sandbox Tools GitHub Service SearchSyntax.

Definition searchSyntaxStdoutCap : Z := 16 * 1024 * 1024.
Definition chunkSliceBytes : nat := Eval vm_compute in 16 * 1024.

Record DockerRunner := mkDocker {
  d_image : string;
  d_expectedDigest : string;
  d_workspaceDir : string;
  d_perSessionWS : bool;
  d_defaultTimeout : Z;
  d_limits : ResourceLimits;
  d_readonlyRoot : bool;
  d_network : string;
  d_runtime : string;
}.

Record DockerRunnerOptions := mkOptions {
  o_Image : string;
  o_WorkspaceDir : string;
  o_DefaultTimeout : Z;
  o_Limits : ResourceLimits;
  o_ReadonlyRoot : bool;
  o_Network : string;
  o_PreferRunsc : bool;
  o_RequireDigest : bool;
  o_PerSessionWorkspace : bool;
}.

(** ** The container's configuration *)

Record Config := mkCfg { c_Image : string; c_Cmd : list string; c_WorkingDir : string; c_AttachStdout : bool; c_AttachStderr : bool; c_Tty : bool }.

Inductive Mount := TmpfsMount (target : string) (size : Z) | BindMount (source target : string).

Record HostConfig := mkHost {
  h_AutoRemove : bool;
  h_NetworkMode : string;
  h_ReadonlyRootfs : bool;
  h_Runtime : string;
  h_Memory : Z;
  h_NanoCPUs : Z;
  h_PidsLimit : Z;
  h_Mounts : list Mount;
}.

Definition cleanWorkdir (rel : string) : string :=
  if String.eqb rel "" then ""
  else let c := TrimPrefix (Clean ("/" +:+ rel)) "/" in
       if String.eqb c "" || HasPrefix c ".." then "" else c.

Definition working_dir (req : ExecRequest) : string :=
  let rel := cleanWorkdir (WorkingDir req) in if String.eqb rel "" then "/work" else Join2 "/work" rel.

Definition container_config (r : DockerRunner) (req : ExecRequest) (cmd : list string) : Config :=
  mkCfg (d_image r) cmd (working_dir req) true true false.

Definition host_config (r : DockerRunner) (work : list Mount) : HostConfig :=
  mkHost false (d_network r) (d_readonlyRoot r) (d_runtime r) (MemoryBytes (d_limits r)) (CPUNanos (d_limits r)) (PidsLimit (d_limits r))
    (TmpfsMount "/tmp" (Z.shiftl 64 20) :: work).

(** ** The engine *)

Inductive op :=
| OWithTimeout (d : Z)
| OImageInspect (image : string)
| OImagePull (image : string)
| OMkdirAll (path : string) (mode : Z)
| OCreate (c : Config) (h : HostConfig)
| OAttach (id : string)
| OStart (id : string)
| OWait (id : string)
| OKill (id : string)
| ODrain                                   (* the wait for the output's end *)
| OContainerInspect (id : string)
| OCloseAttach
| ORemove (id : string).

(** Which case the [select] over the context and the wait took. *)
Inductive wait_outcome :=
| CtxDone (parent_canceled : bool)
| WaitFailed (e : gerror)
| Exited (code : Z) (msg : option string).

Record answers := mkAnswers {
  a_inspect : result gerror (list string);   (* the image's RepoDigests *)
  a_pull : option gerror;
  a_reinspect : result gerror (list string);
  a_mkdir : option gerror;
  a_create : result gerror string;
  a_attach : option gerror;
  a_start : option gerror;
  a_frames : list (bool * string);           (* is it stderr, and the bytes *)
  a_wait : wait_outcome;
  a_state : result gerror (option bool);     (* State, and its OOMKilled *)
  a_ctx_err : gerror;                        (* ctx.Err() once it is done *)
}.

(** Operations, then a value or the exit chunk of an early return. *)
Definition Eng (A : Type) : Type := list op * result ExecChunk A.

#[export] Instance Eng_ret : MRet Eng := fun A a => ([], Ok a).
#[export] Instance Eng_bind : MBind Eng := fun A B f m =>
  match m with
  | (log, Ok a) => let '(log', res) := f a in (log ++ log', res)
  | (log, Err e) => (log, Err e)
  end.

Definition ask (o : op) (fail : option gerror) : Eng unit :=
  ([o], match fail with None => Ok tt | Some e => Err (exit_chunk (-1) (Some e)) end).

(** [fmt.Errorf("prefix: %w", e)] *)
Definition wrap_err (prefix : string) (e : gerror) : gerror := mkErr (kind e) (prefix +:+ ": " +:+ emsg e).

Definition ensure_image (r : DockerRunner) (a : answers) : Eng unit :=
  _ ← (match a_inspect a with
       | Ok _ => ([OImageInspect (d_image r)], Ok tt)
       | Err _ => _ ← ask (OImageInspect (d_image r)) None;
                  ask (OImagePull (d_image r)) ((fun e => mkErr KImagePull ("sandbox: image pull failed: " +:+ emsg e)) <$> a_pull a)
       end : Eng unit);
  if String.eqb (d_expectedDigest r) "" then mret tt
  else match a_reinspect a with
       | Err e => ask (OImageInspect (d_image r)) (Some (wrap_err "sandbox: post-pull inspect" e))
       | Ok rds => ask (OImageInspect (d_image r))
                     (if MatchesRepoDigest rds (d_expectedDigest r) then None else Some (mkErr KOther "sandbox: image digest mismatch"))
       end.

(** The host directory mounted at /work. *)
Definition mount_source (r : DockerRunner) (req : ExecRequest) : option string :=
  if String.eqb (d_workspaceDir r) "" then None
  else Some (if d_perSessionWS r && negb (String.eqb (rSessionID req) "") then Join2 (d_workspaceDir r) (sanitizeSID (rSessionID req))
             else d_workspaceDir r).

Definition work_mounts (r : DockerRunner) (a : answers) (req : ExecRequest) : Eng (list Mount) :=
  match mount_source r req with
  | None => mret []
  | Some src =>
      _ ← (if d_perSessionWS r && negb (String.eqb (rSessionID req) "")
           then ask (OMkdirAll src 448) (wrap_err "per-session workspace mkdir" <$> a_mkdir a) else mret tt);
      mret [BindMount src "/work"]
  end.

(** Everything up to the container: the image, the mounts, the creation. *)
Definition create_container (r : DockerRunner) (a : answers) (req : ExecRequest) (cmd : list string) : Eng string :=
  _ ← ensure_image r a;
  work ← work_mounts r a req;
  match a_create a with
  | Ok id => ([OCreate (container_config r req cmd) (host_config r work)], Ok id)
  | Err e => ([OCreate (container_config r req cmd) (host_config r work)], Err (exit_chunk (-1) (Some (wrap_err "container create" e))))
  end.

Definition launch (a : answers) (id : string) : Eng unit :=
  _ ← ask (OAttach id) (wrap_err "container attach" <$> a_attach a);
  match a_start a with
  | None => ([OStart id], Ok tt)
  | Some e => ([OStart id; OCloseAttach], Err (exit_chunk (-1) (Some (wrap_err "container start" e))))
  end.

(** The [select], and what it makes of its case.  [ODrain] is [<-copyDone]: the
    copy goroutine ends with the attached stream, and the model is of the runs
    in which the engine closes it. *)
Definition await (a : answers) (id : string) : list op * (Z * option gerror) :=
  match a_wait a with
  | CtxDone parent_canceled =>
      ([OWait id; OKill id; ODrain],
       (-1, Some (if parent_canceled then mkErr KCanceled "sandbox: canceled" else a_ctx_err a)))%Z
  | WaitFailed e => ([OWait id; ODrain], (-1, Some e))%Z
  | Exited code msg =>
      let e := mkErr KOther <$> msg in
      if (code =? 137)%Z then
        ([OWait id; ODrain; OContainerInspect id],
         (code, match a_state a with Ok (Some true) => Some (mkErr KOOM "sandbox: out of memory") | _ => e end))
      else ([OWait id; ODrain], (code, e))
  end.

(** The deferred calls around the body that runs once the container is up. *)
Definition with_container (r : DockerRunner) (a : answers) (req : ExecRequest) (cmd : list string) (timeout : Z)
    (body : string -> list op * list ExecChunk) : list op * list ExecChunk :=
  match create_container r a req cmd with
  | (log, Err x) => (OWithTimeout timeout :: log, [x])
  | (log, Ok id) =>
      match launch a id with
      | (log', Err x) => (OWithTimeout timeout :: log ++ log' ++ [ORemove id], [x])
      | (log', Ok _) => let '(log'', chunks) := body id in
                        (OWithTimeout timeout :: log ++ log' ++ log'' ++ [OCloseAttach; ORemove id], chunks)
      end
  end.

(** ** Running a script *)

(** [chunkWriter.Write], frame by frame. *)
Definition frame_chunks (f : bool * string) : list ExecChunk :=
  (if f.1 then stderr_chunk else stdout_chunk) <$> chunk_bytes chunkSliceBytes f.2.

(** [StdCopy] stops at the first send that the context's end preempts. *)
Definition copy_chunks (cancel : option nat) (frames : list (bool * string)) : list ExecChunk :=
  let all := concat (frame_chunks <$> frames) in
  match cancel with Some k => take k all | None => all end.

Definition runOne (r : DockerRunner) (a : answers) (cancel : option nat) (req : ExecRequest) (shell script : string) (timeout : Z) : list op * list ExecChunk :=
  with_container r a req [shell; "-c"; script] timeout (fun id =>
    let '(log, (code, e)) := await a id in
    (log, copy_chunks cancel (a_frames a) ++ [exit_chunk code e])).

(** ** Running a search *)

Section search.
Variable decode_array : string -> result string (list sgRawMatch).
Variable decode_line : string -> result string sgRawMatch.

Definition frames_of (err : bool) (frames : list (bool * string)) : list string :=
  omap (fun f => if Bool.eqb f.1 err then Some f.2 else None) frames.

Definition buffered (err : bool) (frames : list (bool * string)) : string :=
  bb_bytes (foldl bb_Write (mkBounded "" searchSyntaxStdoutCap) (frames_of err frames)).

Definition runSearchSyntax (r : DockerRunner) (a : answers) (cancel : option nat) (req : ExecRequest) (argv : list string) (softMaxMatches timeout : Z) : list op * list ExecChunk :=
  with_container r a req argv timeout (fun id =>
    let '(log, (code, e)) := await a id in
    (log,
     match e with
     | Some _ => [exit_chunk code e]
     | None =>
         let envelope := reshapeMatches decode_array decode_line (buffered false (a_frames a)) (buffered true (a_frames a)) softMaxMatches (MaxResultBytes req) in
         send_chunks cancel (chunk_bytes chunkSliceBytes envelope) [exit_chunk (-1) (Some (a_ctx_err a))] [exit_chunk code None]
     end)).

(** ** Exec *)

Definition exec_timeout (r : DockerRunner) (req : ExecRequest) : Z :=
  (let t := if Timeout req <=? 0 then d_defaultTimeout r else Timeout req in
   if t <=? 0 then 30 * 1000000000 else t)%Z.

Definition docker_Exec (r : DockerRunner) (a : answers) (cancel : option nat) (req : ExecRequest) : result gerror (list op * list ExecChunk) :=
  let timeout := exec_timeout r req in
  if String.eqb (rTool req) ToolExecuteScript then
    let shell := arg_string_or_empty (rArgs req) "shell" in
    let shell := if String.eqb shell "" then "bash" else shell in
    let script := arg_string_or_empty (rArgs req) "script" in
    if String.eqb script "" then Err (mkErr KBadRequest "missing or empty 'script' arg")
    else Ok (runOne r a cancel req shell script timeout)
  else if String.eqb (rTool req) ToolSearchSyntax then
    '(argv, softMax) ← buildSearchSyntaxCmd (rArgs req);
    Ok (runSearchSyntax r a cancel req argv softMax timeout)
  else Err (mkErr KBadRequest "unknown tool").
End search.

(** ** Construction *)

Inductive docker_error := DockerImage (e : image_error) | DockerDigestRequired | DockerClient (e : gerror) | DockerNotBuilt | UnknownRuntime.

Definition daemonHasRuntime (info : result gerror (list string)) (name : string) : bool :=
  match info with Ok rs => existsb (String.eqb name) rs | Err _ => false end.

(** [client] is the failure of the client library's constructor, [info] the
    daemon's list of runtimes. *)
Definition NewDockerRunner (client : option gerror) (info : result gerror (list string)) (opts : DockerRunnerOptions) : result docker_error DockerRunner :=
  match ParseImageRef (o_Image opts) with
  | Err e => Err (DockerImage e)
  | Ok (_, _, digest) =>
      if o_RequireDigest opts && String.eqb digest "" then Err DockerDigestRequired
      else match client with
           | Some e => Err (DockerClient e)
           | None =>
               Ok (mkDocker (o_Image opts) digest (o_WorkspaceDir opts) (o_PerSessionWorkspace opts) (o_DefaultTimeout opts) (o_Limits opts)
                     (o_ReadonlyRoot opts) (if String.eqb (o_Network opts) "" then "none" else o_Network opts)
                     (if o_PreferRunsc opts && daemonHasRuntime info "runsc" then "runsc" else ""))
           end
  end.

Inductive runner := ROff | RMock (m : MockRunner) | RDocker (d : DockerRunner).

Definition newline : string := Eval vm_compute in bytes_of [10].

(** [docker_build]: the binary was built with the docker tag. *)
Definition newDockerRunner (docker_build : bool) (client : option gerror) (info : result gerror (list string)) (c : DockerRunnerOptions) : result docker_error runner :=
  if docker_build then (d ← NewDockerRunner client info c; Ok (RDocker d)) else Err DockerNotBuilt.

Definition NewRunner (docker_build : bool) (client : option gerror) (info : result gerror (list string)) (Runtime : string) (c : DockerRunnerOptions) : result docker_error runner :=
  if String.eqb Runtime "" || String.eqb Runtime "none" then Ok ROff
  else if String.eqb Runtime "mock" then Ok (RMock (mkMock (MockScript ("hello from mock sandbox" +:+ newline) "" 0) None))
  else if String.eqb Runtime "docker" then newDockerRunner docker_build client info c
  else Err UnknownRuntime.

(** ** The working directory *)

Lemma Join2_plain cs ds : cs <> [] -> ds <> [] -> Forall plain cs -> Forall plain ds ->
  Join2 ("/" +:+ JoinByte slash cs) (JoinByte slash ds) = "/" +:+ JoinByte slash (cs ++ ds).
Proof.
  intros Hc Hd Hcs Hds. unfold Join2. rewrite (proj2 (String.eqb_neq ("/" +:+ _) "")) by done.
  assert (JoinByte slash ds <> "") as Hnz by (intros Hz; apply Hd, Join_empty; [by apply (comps_nonempty 0)|done]).
  rewrite (proj2 (String.eqb_neq _ _)) by done. rewrite (Clean_abs_app cs ds ds); try done.
  - eapply Forall_impl; [exact Hds|]. by intros x (_ & _ & _ & ?).
  - intros st. by apply foldl_plain.
Qed.

Lemma cleanWorkdir_comps rel : cleanWorkdir rel = "" \/ exists ds, ds <> [] /\ Forall plain ds /\ cleanWorkdir rel = JoinByte slash ds.
Proof.
  unfold cleanWorkdir. destruct (String.eqb rel ""); [auto|].
  assert (TrimPrefix (Clean ("/" +:+ rel)) "/" = JoinByte slash (clean_comps ("/" +:+ rel))) as ->.
  { unfold Clean. rewrite is_rooted_app. apply TrimPrefix_app. }
  destruct (_ || _) eqn:E; [auto|]. apply orb_false_iff in E as [E1 E2]. right. apply String.eqb_neq in E1.
  destruct (clean_comps_shape ("/" +:+ rel)) as (n & ps & Hc & Hps). rewrite Hc in *. destruct n as [|n]; cbn [replicate app] in *.
  - exists ps. split_and!; [by intros ->|done..].
  - exfalso. apply not_true_iff_false in E2. apply E2. apply HasPrefix_app. destruct (replicate n ".." ++ ps) as [|y l]; [by exists ""|].
    rewrite Join_cons by done. by eexists.
Qed.

(** The container starts in /work or below it. *)
Lemma working_dir_ok req : exists cs, Forall plain cs /\ working_dir req = "/" +:+ JoinByte slash ("work" :: cs).
Proof.
  unfold working_dir. destruct (cleanWorkdir_comps (WorkingDir req)) as [->|(ds & Hd & Hp & ->)]; [by exists []|].
  assert (JoinByte slash ds <> "") as Hnz by (intros Hz; apply Hd, Join_empty; [by apply (comps_nonempty 0)|done]).
  rewrite (proj2 (String.eqb_neq _ _)) by done. exists ds. split; [done|].
  apply (Join2_plain ["work"] ds); try done. by constructor.
Qed.

(** ** What a run asks of the engine *)

Definition pre_op (o : op) : Prop :=
  match o with OImageInspect _ | OImagePull _ | OMkdirAll _ _ => True | _ => False end.

Definition bind_mounts (r : DockerRunner) (req : ExecRequest) : list Mount :=
  match mount_source r req with None => [] | Some src => [BindMount src "/work"] end.

Definition digest_ok (r : DockerRunner) (a : answers) : Prop :=
  d_expectedDigest r = "" \/ exists rds, a_reinspect a = Ok rds /\ MatchesRepoDigest rds (d_expectedDigest r) = true.

Lemma ensure_image_spec r a :
  Forall pre_op (ensure_image r a).1 /\
  match (ensure_image r a).2 with Ok _ => digest_ok r a | Err x => is_exit x = true end.
Proof.
  unfold ensure_image, digest_ok, ask. destruct (a_inspect a) as [i|e], (a_pull a) as [pe|], (String.eqb_spec (d_expectedDigest r) "") as [Hd|Hd],
    (a_reinspect a) as [rds|re]; try destruct (MatchesRepoDigest rds _) eqn:Em; cbn; split; solve [repeat constructor; done | right; eauto].
Qed.

Lemma work_mounts_spec r a req :
  Forall pre_op (work_mounts r a req).1 /\
  match (work_mounts r a req).2 with Ok ms => ms = bind_mounts r req | Err x => is_exit x = true end.
Proof.
  unfold work_mounts, bind_mounts. destruct (mount_source r req) as [src|]; [|split; constructor].
  destruct (_ && _), (a_mkdir a); cbn; split; repeat constructor.
Qed.

(** The creation is the last of the preparations, and happens only when they
    all succeeded. *)
Lemma create_spec r a req cmd log res : create_container r a req cmd = (log, res) ->
  (Forall pre_op log /\ exists x, res = Err x /\ is_exit x = true) \/
  (digest_ok r a /\ (exists pre, Forall pre_op pre /\ log = pre ++ [OCreate (container_config r req cmd) (host_config r (bind_mounts r req))]) /\
   match a_create a with Ok id => res = Ok id | Err _ => exists x, res = Err x /\ is_exit x = true end).
Proof.
  pose proof (ensure_image_spec r a) as [He1 He2]. pose proof (work_mounts_spec r a req) as [Hw1 Hw2].
  unfold create_container, mbind, Eng_bind. destruct (ensure_image r a) as [l1 [?|x]], (work_mounts r a req) as [l2 [ms|x']]; cbn [fst snd] in *;
    try subst ms.
  - destruct (a_create a) as [id|e]; intros [= <- <-]; right; (split; [done|]); split;
      try (exists (l1 ++ l2); split; [by apply Forall_app|by rewrite app_assoc]); eauto.
  - intros [= <- <-]. left. split; [by apply Forall_app|eauto].
  - intros [= <- <-]. left. eauto.
  - intros [= <- <-]. left. eauto.
Qed.

Definition run_op (id : string) (o : op) : Prop :=
  match o with OAttach i | OStart i | OWait i | OKill i | OContainerInspect i => i = id | ODrain | OCloseAttach => True | _ => False end.

Lemma launch_spec a id : Forall (run_op id) (launch a id).1 /\
  match (launch a id).2 with Ok _ => (launch a id).1 = [OAttach id; OStart id] | Err x => is_exit x = true end.
Proof. unfold launch, ask. destruct (a_attach a), (a_start a); cbn; split; repeat constructor. Qed.

Lemma await_spec a id : Forall (run_op id) (await a id).1.
Proof. unfold await. destruct (a_wait a); [..|case_match]; repeat constructor. Qed.

(** The shape of every run: no container, or one that is removed last. *)
Lemma with_container_spec r a req cmd t body log chunks :
  (forall id, Forall (run_op id) (body id).1) -> with_container r a req cmd t body = (log, chunks) ->
  (exists pre x, log = OWithTimeout t :: pre /\ chunks = [x] /\ is_exit x = true /\
     (Forall pre_op pre \/ digest_ok r a /\ (exists e, a_create a = Err e) /\
        exists pre', Forall pre_op pre' /\ pre = pre' ++ [OCreate (container_config r req cmd) (host_config r (bind_mounts r req))])) \/
  (digest_ok r a /\ exists pre mid id, a_create a = Ok id /\ Forall pre_op pre /\ Forall (run_op id) mid /\
     log = OWithTimeout t :: pre ++ OCreate (container_config r req cmd) (host_config r (bind_mounts r req)) :: mid ++ [ORemove id] /\
     ((exists x, (launch a id).2 = Err x /\ mid = (launch a id).1 /\ chunks = [x] /\ is_exit x = true) \/
      (mid = [OAttach id; OStart id] ++ (body id).1 ++ [OCloseAttach] /\ chunks = (body id).2))).
Proof.
  intros Hb. unfold with_container. destruct (create_container r a req cmd) as [l res] eqn:Ec. apply create_spec in Ec. intros Hlog.
  destruct Ec as [[Hpre (x & -> & Hx)]|(Hd & (pre & Hpre & ->) & Hc)].
  { injection Hlog as <- <-. left. exists l, x. auto. }
  destruct (a_create a) as [id|e] eqn:Ea.
  - subst res. right. split; [done|]. destruct (launch_spec a id) as [Hl1 Hl2]. destruct (launch a id) as [l' [?|x]] eqn:El; cbn [fst snd] in *.
    + subst l'. destruct (body id) as [l'' ch] eqn:Eb. injection Hlog as <- <-. exists pre, ([OAttach id; OStart id] ++ l'' ++ [OCloseAttach]), id. rewrite El, Eb.
      specialize (Hb id). rewrite Eb in Hb. split_and!; try done; [|by rewrite <-!app_assoc|by right].
      repeat first [apply Forall_app; split | done | constructor].
    + injection Hlog as <- <-. exists pre, l', id. rewrite El. split_and!; try done; [by rewrite <-!app_assoc|]. left. eauto.
  - destruct Hc as (x & -> & Hx). injection Hlog as <- <-. left. eexists _, x. split_and!; try done. right. split_and!; eauto.
Qed.

Section runs.
Variable decode_array : string -> result string (list sgRawMatch).
Variable decode_line : string -> result string sgRawMatch.
#[local] Abbreviation exec := (docker_Exec decode_array decode_line).

Lemma frames_output frames cancel : Forall (fun c => is_output c = true) (copy_chunks cancel frames).
Proof.
  assert (Forall (fun c => is_output c = true) (concat (frame_chunks <$> frames))) as Ha.
  { induction frames as [|[e p] fs IH]; [constructor|]. cbn [fmap list_fmap concat]. apply Forall_app. split; [|done].
    unfold frame_chunks. cbn. destruct e; apply Forall_fmap, Forall_true; done. }
  unfold copy_chunks. destruct cancel; [by apply Forall_take|done].
Qed.

(** Either tool is the container plumbing around a body that waits once. *)
Lemma docker_Exec_inv r a cancel req log chunks : exec r a cancel req = Ok (log, chunks) ->
  exists cmd body, with_container r a req cmd (exec_timeout r req) body = (log, chunks) /\
    (forall id, (body id).1 = (await a id).1) /\ forall id, contract (body id).2.
Proof.
  unfold docker_Exec. destruct (String.eqb (rTool req) _).
  - destruct (String.eqb _ ""); [done|]. intros [= H]. eexists _, _. split; [exact H|]. split; intros id; destruct (await a id) as [l [code e]]; [done|].
    apply contract_snoc; [apply frames_output|done].
  - destruct (String.eqb (rTool req) _); [|done]. destruct (buildSearchSyntaxCmd (rArgs req)) as [[argv n]|e]; [|done]. intros [= H].
    eexists _, _. split; [exact H|]. split; intros id; destruct (await a id) as [l [code e]]; [done|].
    destruct e; [apply contract_exit|]. apply send_chunks_contract; apply contract_exit.
Qed.

(** The runner's side of the chunk stream contract. *)
Lemma docker_contract r a cancel req log chunks : exec r a cancel req = Ok (log, chunks) -> contract chunks.
Proof.
  intros H. apply docker_Exec_inv in H as (cmd & body & H & Hb & Hc).
  apply with_container_spec in H; [|intros id; rewrite Hb; apply await_spec].
  destruct H as [(pre & x & _ & -> & Hx & _)|(_ & pre & mid & id & _ & _ & _ & _ & [(x & _ & _ & -> & Hx)|[_ ->]])];
    [by exists [], x..|apply Hc].
Qed.

(** The one creation in a log. *)
Lemma creation_inv r a cancel req log chunks c h : exec r a cancel req = Ok (log, chunks) -> In (OCreate c h) log ->
  digest_ok r a /\ (exists cmd, c = container_config r req cmd) /\ h = host_config r (bind_mounts r req) /\
  forall id, a_create a = Ok id -> exists pre mid, Forall pre_op pre /\ Forall (run_op id) mid /\
    log = OWithTimeout (exec_timeout r req) :: pre ++ OCreate c h :: mid ++ [ORemove id] /\
    ((launch a id).2 = Ok tt -> mid = [OAttach id; OStart id] ++ (await a id).1 ++ [OCloseAttach]).
Proof.
  intros H Hin. apply docker_Exec_inv in H as (cmd & body & H & Hb & _).
  apply with_container_spec in H; [|intros id; rewrite Hb; apply await_spec].
  assert (forall P, (forall o, P o -> match o with OCreate _ _ => False | _ => True end) -> forall l, Forall P l -> ~ In (OCreate c h) l) as Hno.
  { intros P HP l Hl Hi. apply list_elem_of_In in Hi. eapply Forall_forall in Hl; [|exact Hi]. by apply HP in Hl. }
  assert (forall l, Forall pre_op l -> ~ In (OCreate c h) l) as Hnp by (apply Hno; by intros []).
  destruct H as [(pre & x & -> & _ & _ & [Hp|(Hd & [e He] & pre' & Hp & ->)])|(Hd & pre & mid & id & Hc & Hp & Hm & -> & Hk)].
  - destruct Hin as [|Hin]; [done|]. by apply Hnp in Hin.
  - destruct Hin as [|Hin]; [done|]. apply in_app_iff in Hin as [Hin|[[= <- <-]|[]]]; [by apply Hnp in Hin|].
    split_and!; eauto. by rewrite He.
  - assert (~ In (OCreate c h) mid) as Hnm by (apply (Hno (run_op id)); [by intros []|done]).
    destruct Hin as [|Hin]; [done|]. apply in_app_iff in Hin as [Hin|[[= <- <-]|Hin]]; [by apply Hnp in Hin| |].
    + split_and!; eauto. rewrite Hc. intros ? [= <-]. exists pre, mid. split_and!; try done.
      intros Hl. destruct Hk as [(x & Hx & _)|[-> _]]; [congruence|]. by rewrite Hb.
    + apply in_app_iff in Hin as [Hin|[|[]]]; done.
Qed.

(** C4: A container is created only from the configured image, and only after the local image was seen to carry the pinned digest when one is pinned, as it must be when the operator requires it; the container has the configured network (none unless set), root file system, memory, CPU and process limits, sees of the host nothing when no workspace is configured and otherwise exactly one directory, at /work: the configured workspace directory when the workspace is shared or the request names no session, and when workspaces are per session the directory of the sanitized session id below it (joined lexically, so for an absolute clean workspace path a direct child of it, unless the sanitized id is a single dot); and it starts in /work or below. *)
Theorem docker_container_is_confined client info opts r a cancel req log chunks c h :
  NewDockerRunner client info opts = Ok r -> exec r a cancel req = Ok (log, chunks) -> In (OCreate c h) log ->
  c_Image c = o_Image opts /\
  (exists name tag digest, ParseImageRef (o_Image opts) = Ok (name, tag, digest) /\ (o_RequireDigest opts = true -> digest <> "") /\
     (digest <> "" -> exists rds, a_reinspect a = Ok rds /\ MatchesRepoDigest rds digest = true)) /\
  h_NetworkMode h = (if String.eqb (o_Network opts) "" then "none" else o_Network opts) /\ h_ReadonlyRootfs h = o_ReadonlyRoot opts /\
  mkRes (h_NanoCPUs h) (h_Memory h) (h_PidsLimit h) = o_Limits opts /\
  (exists work, h_Mounts h = TmpfsMount "/tmp" (64 * 1024 * 1024) :: work /\
     (o_WorkspaceDir opts = "" -> work = []) /\
     (o_WorkspaceDir opts <> "" -> o_PerSessionWorkspace opts = false \/ rSessionID req = "" -> work = [BindMount (o_WorkspaceDir opts) "/work"]) /\
     (o_WorkspaceDir opts <> "" -> o_PerSessionWorkspace opts = true -> rSessionID req <> "" ->
      work = [BindMount (Join2 (o_WorkspaceDir opts) (sanitizeSID (rSessionID req))) "/work"]) /\
     (o_PerSessionWorkspace opts = true -> clean_root (o_WorkspaceDir opts) -> rSessionID req <> "" -> sanitizeSID (rSessionID req) <> "." ->
      work = [BindMount (o_WorkspaceDir opts +:+ "/" +:+ sanitizeSID (rSessionID req)) "/work"])) /\
  exists cs, Forall plain cs /\ c_WorkingDir c = "/" +:+ JoinByte slash ("work" :: cs).
Proof.
  intros Hn He Hin. destruct (creation_inv _ _ _ _ _ _ _ _ He Hin) as (Hd & [cmd ->] & -> & _). clear He Hin.
  unfold NewDockerRunner in Hn. destruct (ParseImageRef _) as [[[name tag] digest]|] eqn:Ep; [|done].
  destruct (_ && _) eqn:Er; [done|]. destruct client; [done|]. injection Hn as <-. unfold digest_ok in Hd.
  cbn [d_expectedDigest c_Image container_config h_NetworkMode host_config d_network h_ReadonlyRootfs d_readonlyRoot h_NanoCPUs h_Memory
    h_PidsLimit d_limits h_Mounts d_image c_WorkingDir] in *.
  split; [done|]. split.
  { exists name, tag, digest. split; [done|]. split; [intros Hq; rewrite Hq in Er; cbn in Er; by apply String.eqb_neq|]. by destruct Hd. }
  do 2 (split; [done|]). split; [by destruct (o_Limits opts)|]. split; [|apply working_dir_ok].
  eexists. split; [reflexivity|]. unfold bind_mounts, mount_source. cbn [d_workspaceDir d_perSessionWS].
  split; [by intros ->|]. split; [intros Hw [->| ->]; rewrite (proj2 (String.eqb_neq _ _) Hw); cbn; by rewrite ?andb_false_r|].
  split; [intros Hw -> Hsid; by rewrite !(proj2 (String.eqb_neq _ _)) by done|].
  intros Hps (cs & Hne & Hcs & Hw) Hsid Hdot. rewrite Hw, Hps.
  rewrite (proj2 (String.eqb_neq ("/" +:+ _) "")) by done. rewrite (proj2 (String.eqb_neq (rSessionID req) "")) by done. cbn [andb negb].
  destruct (sanitizeSID_facts (rSessionID req)) as (_ & Hs1 & Hs2 & Hs3).
  assert (plain (sanitizeSID (rSessionID req))) as Hpl by (split_and!; try done; intros H0; by apply Hs3 in H0).
  change (sanitizeSID (rSessionID req)) with (JoinByte slash [sanitizeSID (rSessionID req)]) at 1.
  rewrite Join2_plain by (done || by constructor). rewrite Join_app by done. by rewrite <-str_app_assoc.
Qed.

(** C20: Whatever the engine answers, a created container is removed, as the last operation of the run, and between creation and removal only that container is touched; a container is started or removed only if it was created; and when the run's context ends first the container is killed before its output is awaited. *)
Theorem docker_container_is_reaped r a cancel req log chunks : exec r a cancel req = Ok (log, chunks) ->
  (forall id, In (OStart id) log \/ In (ORemove id) log -> a_create a = Ok id /\ exists c h, In (OCreate c h) log) /\
  forall c h id, In (OCreate c h) log -> a_create a = Ok id ->
    exists before mid, log = before ++ OCreate c h :: mid ++ [ORemove id] /\ Forall (run_op id) mid /\
      ((launch a id).2 = Ok tt -> forall pc, a_wait a = CtxDone pc -> mid = [OAttach id; OStart id; OWait id; OKill id; ODrain; OCloseAttach]).
Proof.
  intros He. split.
  - intros id Hin. pose proof He as H. apply docker_Exec_inv in H as (cmd & body & H & Hb & _).
    apply with_container_spec in H; [|intros i; rewrite Hb; apply await_spec].
    assert (forall l, Forall pre_op l -> ~ (In (OStart id) l \/ In (ORemove id) l)) as Hnp.
    { intros l Hl [Hi|Hi]; apply list_elem_of_In in Hi; rewrite Forall_forall in Hl; by apply Hl in Hi. }
    destruct H as [(pre & x & -> & _ & _ & [Hp|(Hd & _ & pre' & Hp & ->)])|(Hd & pre & mid & i & Hc & Hp & Hm & -> & Hk)].
    + exfalso. apply (Hnp _ Hp). destruct Hin as [[|]|[|]]; auto; done.
    + exfalso. apply (Hnp _ Hp). cbn [In] in Hin. rewrite !in_app_iff in Hin. cbn [In] in Hin. intuition (try done).
    + assert (i = id) as <-; [|split; [done|]; eexists _, _; right; apply in_app_iff; right; by left].
      rewrite Forall_forall in Hm. destruct Hin as [[|Hin]|[|Hin]]; try done; apply in_app_iff in Hin as [Hin|[|Hin]]; try done;
        try (exfalso; apply (Hnp _ Hp); by auto); apply in_app_iff in Hin as [Hin|[Hin|[]]]; simplify_eq; try done;
        apply list_elem_of_In, Hm in Hin; by cbn in Hin.
  - intros c h id Hin Hc. destruct (creation_inv _ _ _ _ _ _ _ _ He Hin) as (_ & _ & _ & Hk).
    destruct (Hk id Hc) as (pre & mid & _ & Hm & -> & Hl). exists (OWithTimeout (exec_timeout r req) :: pre), mid.
    split_and!; try done. intros H1 pc Hw. rewrite (Hl H1). unfold await. by rewrite Hw.
Qed.
End runs.

(** ** The runner interface *)

(** A runner with the engine's answers to each request and the decoders. *)
Record docker := mkDockerEnv {
  de_runner : DockerRunner;
  de_answers : ExecRequest -> answers;
  de_array : string -> result string (list sgRawMatch);
  de_line : string -> result string sgRawMatch;
}.

#[export] Instance docker_runner : Runner docker := fun d cancel req =>
  '(_, chunks) ← docker_Exec (de_array d) (de_line d) (de_runner d) (de_answers d req) cancel req; Ok chunks.

#[export] Instance docker_runner_contract : RunnerContract docker.
Proof.
  intros d cancel req l H. unfold Exec, docker_runner in H.
  destruct (docker_Exec _ _ _ _ _ _) as [[log chunks]|e] eqn:He; [|done]. injection H as <-. by eapply docker_contract.
Qed.

(** ** The output *)

Definition data_of (s : stream) (chunks : list ExecChunk) : string :=
  str_concat (omap (fun c => if decide (Stream c = s) then Some (Data c) else None) chunks).

Lemma data_of_app s a b : data_of s (a ++ b) = data_of s a +:+ data_of s b.
Proof. unfold data_of. by rewrite omap_app, str_concat_app. Qed.

Lemma data_of_pieces s (mk : string -> ExecChunk) l : (forall d, Data (mk d) = d) -> (forall d d', Stream (mk d) = Stream (mk d')) ->
  data_of s (mk <$> l) = if decide (Stream (mk "") = s) then str_concat l else "".
Proof.
  intros Hd Hs. unfold data_of. induction l as [|x l IH]; [by case_decide|]. cbn [fmap list_fmap omap list_omap].
  rewrite (Hs x ""). case_decide; [|done]. cbn [str_concat foldr]. fold (str_concat (omap (fun c => if decide (Stream c = s) then Some (Data c) else None) (mk <$> l))).
  by rewrite Hd, IH.
Qed.

Lemma frame_data (e : bool) f : data_of (if e then StreamStderr else StreamStdout) (frame_chunks f) = if Bool.eqb f.1 e then f.2 else "".
Proof.
  unfold frame_chunks. destruct f as [b p]. cbn [fst snd]. rewrite data_of_pieces by (intros; by destruct b).
  destruct (chunk_bytes_ok chunkSliceBytes p) as [Hc _]; [unfold chunkSliceBytes; lia|]. rewrite Hc. by destruct b, e.
Qed.

Lemma frames_data (e : bool) frames :
  data_of (if e then StreamStderr else StreamStdout) (concat (frame_chunks <$> frames)) = str_concat (frames_of e frames).
Proof.
  induction frames as [|f fs IH]; [done|]. cbn [fmap list_fmap concat]. rewrite data_of_app, frame_data, IH.
  unfold frames_of. cbn [omap list_omap]. by destruct (Bool.eqb f.1 e).
Qed.

Lemma frames_small frames : Forall (fun c => 0 < String.length (Data c) <= chunkSliceBytes) (concat (frame_chunks <$> frames)).
Proof.
  induction frames as [|[b p] fs IH]; [constructor|]. cbn [fmap list_fmap concat]. apply Forall_app. split; [|done].
  unfold frame_chunks. cbn [fst snd]. apply Forall_fmap.
  destruct (chunk_bytes_ok chunkSliceBytes p) as [_ Hf]; [unfold chunkSliceBytes; lia|]. by destruct b.
Qed.

(** A script whose container came up reports every byte it wrote, stream by stream and in order, in pieces of at most 16 KiB, and then its exit; when the run's context preempts a send, what was reported is an initial part of it. *)
Theorem script_output_is_faithful r a cancel req shell script t log chunks id :
  runOne r a cancel req shell script t = (log, chunks) -> In (OWait id) log ->
  exists out, chunks = out ++ [exit_chunk (await a id).2.1 (await a id).2.2] /\
    Forall (fun c => 0 < String.length (Data c) <= 16 * 1024) out /\
    forall e : bool, let s := if e then StreamStderr else StreamStdout in
      HasPrefix (str_concat (frames_of e (a_frames a))) (data_of s out) = true /\
      (cancel = None -> data_of s out = str_concat (frames_of e (a_frames a))).
Proof.
  unfold runOne. intros H Hin. apply with_container_spec in H; [|intros i; pose proof (await_spec a i); by destruct (await a i) as [? [? ?]]].
  assert (forall l, Forall pre_op l -> ~ In (OWait id) l) as Hnp.
  { intros l Hl Hi. rewrite Forall_forall in Hl. by apply list_elem_of_In, Hl in Hi. }
  assert (forall i, ~ In (OWait id) (launch a i).1) as Hnl by (intros i; unfold launch, ask; destruct (a_attach a), (a_start a); cbn; intuition done).
  destruct H as [(pre & x & -> & _ & _ & [Hp|(_ & _ & pre' & Hp & ->)])|(_ & pre & mid & i & _ & Hp & Hm & -> & Hk)].
  - destruct Hin as [|Hin]; [done|]. by apply Hnp in Hin.
  - destruct Hin as [|Hin]; [done|]. apply in_app_iff in Hin as [Hin|[|[]]]; [by apply Hnp in Hin|done].
  - destruct Hin as [|Hin]; [done|]. apply in_app_iff in Hin as [Hin|[|Hin]]; [by apply Hnp in Hin|done|].
    apply in_app_iff in Hin as [Hin|[|[]]]; [|done]. assert (i = id) as ->.
    { rewrite Forall_forall in Hm. by apply list_elem_of_In, Hm in Hin. }
    destruct Hk as [(x & _ & -> & _)|[_ ->]]; [by apply Hnl in Hin|]. destruct (await a id) as [l [code e]]. cbn [fst snd].
    exists (copy_chunks cancel (a_frames a)). split; [done|]. pose proof (frames_small (a_frames a)) as Hs.
    unfold copy_chunks. split; [destruct cancel; [by apply Forall_take|done]|]. intros b. cbn zeta. rewrite <-frames_data.
    destruct cancel as [k|]; [|split; [by apply HasPrefix_app; exists ""; rewrite str_app_nil_r|done]]. split; [|done].
    apply HasPrefix_app. set (all := concat _). exists (data_of (if b then StreamStderr else StreamStdout) (drop k all)). by rewrite <-data_of_app, take_drop.
Qed.

(** What a search keeps of the process's output: its first 16 MiB. *)
Lemma buffered_is_prefix e frames : buffered e frames = str_take (Z.to_nat searchSyntaxStdoutCap) (str_concat (frames_of e frames)).
Proof. unfold buffered. rewrite bb_writes; [by rewrite str_app_nil_l|cbn [bb_cap]..]; unfold searchSyntaxStdoutCap; [lia|]. unfold zlen. cbn. lia. Qed.

(** ** On a concrete engine *)

Definition demo_digest : string := "sha256:0123456789abcdef0123456789abcdef".
Definition demo_opts : DockerRunnerOptions :=
  mkOptions ("alpine:3.20@" +:+ demo_digest) "/srv/ws" 0 (mkRes 1000000000 268435456 128) true "" true true true.
Definition demo_runner : DockerRunner :=
  mkDocker ("alpine:3.20@" +:+ demo_digest) demo_digest "/srv/ws" true 0 (mkRes 1000000000 268435456 128) true "none" "".
Definition demo_answers (w : wait_outcome) : answers :=
  mkAnswers (Err (mkErr KOther "no such image")) None (Ok ["alpine@" +:+ demo_digest]) None (Ok "c1") None None
    [(false, "out"); (true, "err")] w (Ok (Some true)) (mkErr KDeadlineExceeded "context deadline exceeded").
Definition demo_req : ExecRequest := mkRequest ToolExecuteScript [("script", AStr "make")] "../etc" 0 "s1" 0.

Definition no_array (_ : string) : result string (list sgRawMatch) := Err "unused".
Definition no_line (_ : string) : result string sgRawMatch := Err "unused".

Definition demo_create : op :=
  OCreate (mkCfg ("alpine:3.20@" +:+ demo_digest) ["bash"; "-c"; "make"] "/work/etc" true true false)
    (mkHost false "none" true "" 268435456 1000000000 128 [TmpfsMount "/tmp" 67108864; BindMount "/srv/ws/s1" "/work"]).

Definition demo_log (tail : list op) : list op :=
  [OWithTimeout 30000000000; OImageInspect ("alpine:3.20@" +:+ demo_digest); OImagePull ("alpine:3.20@" +:+ demo_digest);
   OImageInspect ("alpine:3.20@" +:+ demo_digest); OMkdirAll "/srv/ws/s1" 448; demo_create; OAttach "c1"; OStart "c1"] ++ tail.

Lemma docker_container_is_confined_witness :
  NewDockerRunner None (Err (mkErr KOther "")) demo_opts = Ok demo_runner /\
  [TmpfsMount "/tmp" 67108864; BindMount "/srv/ws/s1" "/work"] = TmpfsMount "/tmp" (64 * 1024 * 1024) :: [BindMount (Join2 "/srv/ws" "s1") "/work"] /\
  exists cs, Forall plain cs /\ "/work/etc" = "/" +:+ JoinByte slash ("work" :: cs).
Proof.
  split; [vm_compute; reflexivity|].
  pose proof (docker_container_is_confined no_array no_line None (Err (mkErr KOther "")) demo_opts demo_runner (demo_answers (Exited 0 None)) None demo_req
    (demo_log [OWait "c1"; ODrain; OCloseAttach; ORemove "c1"]) [stdout_chunk "out"; stderr_chunk "err"; exit_chunk 0 None] _ _
    ltac:(vm_compute; reflexivity) ltac:(vm_compute; reflexivity) ltac:(do 5 right; left; reflexivity)) as (_ & _ & _ & _ & _ & (work & Hm & _ & _ & Hw & _) & H).
  split; [|exact H]. rewrite (Hw ltac:(discriminate) eq_refl ltac:(discriminate)) in Hm. exact Hm.
Defined.

Lemma docker_container_is_reaped_witness : exists before mid,
  demo_log [OWait "c1"; OKill "c1"; ODrain; OCloseAttach; ORemove "c1"] = before ++ demo_create :: mid ++ [ORemove "c1"] /\ Forall (run_op "c1") mid.
Proof.
  destruct (docker_container_is_reaped no_array no_line demo_runner (demo_answers (CtxDone false)) None demo_req
    (demo_log [OWait "c1"; OKill "c1"; ODrain; OCloseAttach; ORemove "c1"])
    [stdout_chunk "out"; stderr_chunk "err"; exit_chunk (-1) (Some (mkErr KDeadlineExceeded "context deadline exceeded"))]) as [_ H];
    [vm_compute; reflexivity|].
  destruct (H _ _ "c1" ltac:(do 5 right; left; reflexivity) eq_refl) as (b & m & Hl & Hm & _). by exists b, m.
Defined.

Lemma script_output_is_faithful_witness : exists out,
  [stdout_chunk "out"; stderr_chunk "err"; exit_chunk 137 (Some (mkErr KOOM "sandbox: out of memory"))] =
  out ++ [exit_chunk 137 (Some (mkErr KOOM "sandbox: out of memory"))].
Proof.
  destruct (script_output_is_faithful demo_runner (demo_answers (Exited 137 None)) None demo_req "bash" "make" 30000000000
    (demo_log [OWait "c1"; ODrain; OContainerInspect "c1"; OCloseAttach; ORemove "c1"])
    [stdout_chunk "out"; stderr_chunk "err"; exit_chunk 137 (Some (mkErr KOOM "sandbox: out of memory"))] "c1") as (out & H & _).
  - vm_compute. reflexivity.
  - do 8 right. left. reflexivity.
  - exists out. exact H.
Defined.

(** A wait that fails, as it does when its own request is cut by the expired
    context, leaves the container running while its output is awaited. *)
Lemma failed_wait_does_not_kill e :
  docker_Exec no_array no_line demo_runner (demo_answers (WaitFailed e)) None demo_req =
  Ok (demo_log [OWait "c1"; ODrain; OCloseAttach; ORemove "c1"], [stdout_chunk "out"; stderr_chunk "err"; exit_chunk (-1) (Some e)]).
Proof. vm_compute. reflexivity. Qed.

(** Waiting for the copy does not save trailing output: once the context has
    ended, a send may be given up. *)
Lemma timeout_can_drop_output :
  (runOne demo_runner (demo_answers (CtxDone false)) (Some 0) demo_req "bash" "make" 1).2 =
  [exit_chunk (-1) (Some (mkErr KDeadlineExceeded "context deadline exceeded"))].
Proof. vm_compute. reflexivity. Qed.

(** Absolute and climbing working directories are rebased, not rejected, and a
    directory whose name starts with two dots is replaced by the root. *)
Lemma workdir_is_rebased : cleanWorkdir "/etc" = "etc" /\ cleanWorkdir "../../etc" = "etc" /\ cleanWorkdir "..cache/x" = "".
Proof. split_and!; vm_compute; reflexivity. Qed.

(** The session named with a dot is mounted the shared workspace. *)
Lemma dot_session_mounts_shared_root :
  mount_source demo_runner (mkRequest ToolExecuteScript [] "" 0 "." 0) = Some "/srv/ws".
Proof. vm_compute. reflexivity. Qed.
