(* ===== verification/AuditLog.v ===== *)
(** * The audit log (internal/audit/audit.go)

    Sinks over a small file system: directory entries name inodes, descriptors
    hold them open, so a renamed file still receives what is written through a
    descriptor.  The encodings of a time and of the open-ended extras are
    parameters. *)

From S2P Require Import Prelude GoString GoConv Event Utf8 GoJson.

(** ** Files *)

Record world := mkWorld {
  inodes : gmap nat string;
  names : gmap string nat;
  fds : gmap nat nat;
  w_next : nat;
}.

Definition os_stdout : nat := 1.
Definition os_stderr : nat := 2.

(** [O_APPEND|O_CREATE|O_WRONLY] *)
Definition open_append (w : world) (path : string) : world * nat :=
  match names w !! path with
  | Some i => (mkWorld (inodes w) (names w) (<[w_next w := i]> (fds w)) (S (w_next w)), w_next w)
  | None => (mkWorld (<[w_next w := ""]> (inodes w)) (<[path := w_next w]> (names w)) (<[w_next w := w_next w]> (fds w)) (S (w_next w)), w_next w)
  end.

(** [None]: the descriptor is closed. *)
Definition write_fd (w : world) (fd : nat) (data : string) : option world :=
  i ← fds w !! fd;
  Some (mkWorld (<[i := default "" (inodes w !! i) +:+ data]> (inodes w)) (names w) (fds w) (w_next w)).

Definition close_fd (w : world) (fd : nat) : world := mkWorld (inodes w) (names w) (delete fd (fds w)) (w_next w).

(** The rename logrotate does; it fails when [a] is missing. *)
Definition rename_file (w : world) (a b : string) : world :=
  match names w !! a with
  | Some i => mkWorld (inodes w) (<[b := i]> (delete a (names w))) (fds w) (w_next w)
  | None => w
  end.

Definition content (w : world) (name : string) : string := default "" (i ← names w !! name; inodes w !! i).

(** ** Events and sinks *)

Record AuditEvent := mkAudit {
  e_Time : option Z;                       (* the zero time is None *)
  e_Kind : string;
  e_Outcome : string;
  e_Sub : string;
  e_Sid : string;
  e_Tool : string;
  e_Remote : string;
  e_JTI : string;
  e_Message : string;
  e_Extras : list (string * any);
}.

Inductive Sink := NoopSink | JSONSink (w : nat) (closer : option nat) (path : string).

Section sinks.
Variable marshal_time : Z -> option string.
Variable marshal_extras : list (string * any) -> option string.

Definition str_field (k v : string) : option (string * string) := if String.eqb v "" then None else Some (k, json_string v).

Definition marshal_event (t : Z) (e : AuditEvent) : option string :=
  tm ← marshal_time t;
  ex ← (if Nat.eqb (length (e_Extras e)) 0 then Some None else x ← marshal_extras (e_Extras e); Some (Some ("extras", x)));
  Some (json_object [Some ("time", tm); Some ("kind", json_string (e_Kind e)); str_field "outcome" (e_Outcome e); str_field "sub" (e_Sub e);
    str_field "sid" (e_Sid e); str_field "tool" (e_Tool e); str_field "remote" (e_Remote e); str_field "jti" (e_JTI e);
    str_field "message" (e_Message e); ex]).

Definition nl : ascii := ascii_of_nat 10.

(** The record [Log] writes, at the time [now]. *)
Definition audit_line (now : Z) (e : AuditEvent) : option string :=
  b ← marshal_event (default now (e_Time e)) e; Some (b +:+ String nl "").

(** Every failure is logged and dropped. *)
Definition Log (now : Z) (w : world) (s : Sink) (e : AuditEvent) : world :=
  match s with
  | NoopSink => w
  | JSONSink fd _ _ => match audit_line now e with
                       | None => w
                       | Some line => default w (write_fd w fd line)
                       end
  end.

(** Every writer the program passes is an [os.File], which is a Closer. *)
Definition NewJSONSink (fd : nat) : Sink := JSONSink fd (Some fd) "".

Definition CloseSink (w : world) (s : Sink) : world * option string :=
  match s with
  | JSONSink _ (Some fd) _ => (close_fd w fd, if bool_decide (fds w !! fd = None) then Some "file already closed" else None)
  | _ => (w, None)
  end.

(** [open_err] is what [os.OpenFile] answers. *)
Definition Reopen (open_err : option string) (w : world) (s : Sink) : world * Sink * option string :=
  match s with
  | NoopSink => (w, s, None)               (* not a Reopener *)
  | JSONSink fd closer path =>
      if String.eqb path "" then (w, s, None)
      else
        let w := match closer with Some c => close_fd w c | None => w end in
        match open_err with
        | Some e => (w, s, Some ("audit: reopen: " +:+ e))
        | None => let '(w, fd') := open_append w path in (w, JSONSink fd' (Some fd') path, None)
        end
  end.

Definition OpenSink (mkdir_err open_err : option string) (w : world) (backend path : string) : world * result string Sink :=
  if String.eqb backend "" || String.eqb backend "none" then (w, Ok NoopSink)
  else if String.eqb backend "stderr" then (w, Ok (NewJSONSink os_stderr))
  else if String.eqb backend "stdout" then (w, Ok (NewJSONSink os_stdout))
  else if String.eqb backend "file" then
    if String.eqb path "" then (w, Err "audit: backend=file requires NOMADDEV_AUDIT_PATH")
    else match mkdir_err, open_err with
         | Some e, _ => (w, Err ("audit: mkdir: " +:+ e))
         | None, Some e => (w, Err ("audit: open: " +:+ e))
         | None, None => let '(w, fd) := open_append w path in (w, Ok (JSONSink fd (Some fd) path))
         end
  else (w, Err "audit: unknown backend").

(** ** One line per event *)

Definition is_high (c : ascii) : bool := 128 <=? nat_of_ascii c.

Lemma in_range_high c lo hi : in_range c lo hi = true -> 128 <= lo -> is_high c = true.
Proof. unfold in_range, is_high. intros [H1 H2]%andb_true_iff Hl. apply Nat.leb_le in H1. apply Nat.leb_le. lia. Qed.

Lemma second_range_high c n lo hi : second_range c = Some (n, lo, hi) -> is_high c = true /\ 128 <= lo.
Proof.
  unfold second_range. intros H. repeat case_match; simplify_eq;
    match goal with E : in_range _ _ _ = true |- _ => split; [by eapply in_range_high; [exact E|lia]|lia] end.
Qed.

(** The bytes of a rune of several bytes are no ASCII bytes. *)
Lemma rune_high s n : rune_len s = Some (S (S n)) -> all_bytes is_high (str_take (S (S n)) s) = true.
Proof.
  unfold rune_len. destruct s as [|c s]; [done|]. destruct (in_range c 0 127); [done|].
  destruct (second_range c) as [[[k lo] hi]|] eqn:Es; [|done]. apply second_range_high in Es as [Hc Hlo]. destruct s as [|c1 s1]; [done|].
  destruct (in_range c1 lo hi) eqn:E1; [|done]. cbn [negb]. apply in_range_high in E1; [|done].
  assert (forall c, is_cont c = true -> is_high c = true) as Hk by (intros x Hx; by eapply in_range_high).
  destruct k as [|[|[|[|[|k]]]]]; try done.
  - intros [= <-]. cbn [str_take all_bytes]. by rewrite Hc, E1.
  - destruct s1 as [|c2 s2]; [done|]. destruct (is_cont c2) eqn:E2; [|done]. intros [= <-]. cbn [str_take all_bytes]. by rewrite Hc, E1, (Hk c2).
  - destruct s1 as [|c2 [|c3 s3]]; [done..|]. destruct (is_cont c2) eqn:E2, (is_cont c3) eqn:E3; try done. intros [= <-].
    cbn [str_take all_bytes]. by rewrite Hc, E1, (Hk c2), (Hk c3).
Qed.

Definition not_nl (c : ascii) : bool := negb (Ascii.eqb c nl).
#[local] Abbreviation one_line s := (all_bytes not_nl s = true).

Lemma escape_byte_one_line c : one_line (escape_byte c).
Proof. destruct c as [[] [] [] [] [] [] [] []]; vm_compute; reflexivity. Qed.

Lemma all_bytes_imp p q s : (forall c, p c = true -> q c = true) -> all_bytes p s = true -> all_bytes q s = true.
Proof. intros H. induction s as [|c s IH]; [done|]. cbn. intros [H1 H2]%andb_true_iff. by rewrite (H c), IH. Qed.

Lemma high_not_nl c : is_high c = true -> not_nl c = true.
Proof. destruct c as [[] [] [] [] [] [] [] []]; vm_compute; congruence. Qed.

Lemma escape_fuel_one_line fuel s : one_line (escape_fuel fuel s).
Proof.
  revert s. induction fuel as [|fuel IH]; intros [|c s]; try done. cbn [escape_fuel].
  destruct (rune_len (String c s)) as [[|[|n]]|] eqn:Er; rewrite ?all_bytes_app, ?IH, ?andb_true_r.
  - apply rune_len_pos in Er. lia.
  - apply escape_byte_one_line.
  - destruct (HasPrefix _ line_sep); [done|]. destruct (HasPrefix _ para_sep); [done|].
    eapply all_bytes_imp; [apply high_not_nl|by apply rune_high].
  - done.
Qed.

Lemma json_string_one_line s : one_line (json_string s).
Proof. unfold json_string, escape. by rewrite !all_bytes_app, escape_fuel_one_line. Qed.

Lemma StrJoin_all_bytes p sep l : all_bytes p sep = true -> Forall (fun s => all_bytes p s = true) l -> all_bytes p (StrJoin sep l) = true.
Proof.
  intros Hs. induction 1 as [|x l Hx Hl IH]; [done|]. destruct l as [|y l]; [done|].
  change (StrJoin sep (x :: y :: l)) with (x +:+ sep +:+ StrJoin sep (y :: l)). by rewrite !all_bytes_app, Hx, Hs, IH.
Qed.

Lemma json_object_one_line fields : Forall (fun f => match f with Some kv => one_line kv.2 | None => True end) fields -> one_line (json_object fields).
Proof.
  intros Hf. unfold json_object. rewrite !all_bytes_app. change (all_bytes not_nl "{") with true. change (all_bytes not_nl "}") with true.
  rewrite andb_true_r. cbn [andb]. apply StrJoin_all_bytes; [done|]. apply Forall_fmap. induction Hf as [|[kv|] l Hx Hl IH]; [constructor| |done].
  constructor; [|done]. cbn. by rewrite !all_bytes_app, json_string_one_line, Hx.
Qed.

(** Marshalled times and extras contain no line break. *)
Definition encoders_ok : Prop :=
  (forall t x, marshal_time t = Some x -> one_line x) /\ (forall l x, marshal_extras l = Some x -> one_line x).

Lemma audit_line_shape now e line : encoders_ok -> audit_line now e = Some line -> exists b, line = b +:+ String nl "" /\ one_line b.
Proof.
  intros [Ht Hx]. unfold audit_line, marshal_event. destruct (marshal_time _) as [tm|] eqn:Et; [|done]. cbn [mbind option_bind].
  assert (forall k v, match str_field k v with Some kv => one_line kv.2 | None => True end) as Hf.
  { intros k v. unfold str_field. destruct (String.eqb v ""); cbn; [done|apply json_string_one_line]. }
  destruct (Nat.eqb _ _); [|destruct (marshal_extras _) as [x|] eqn:Ee; [|done]]; cbn [mbind option_bind]; intros [= <-]; eexists; (split; [reflexivity|]);
    apply json_object_one_line; repeat constructor; cbn [snd]; try apply json_string_one_line; try apply Hf; eauto.
Qed.

(** ** Rotation *)

Inductive astep := ALog (now : Z) (e : AuditEvent) | ARename (archive : string) | AHup.

Definition audit_step (path : string) (st : world * Sink) (a : astep) : world * Sink :=
  match a with
  | ALog now e => (Log now st.1 st.2 e, st.2)
  | ARename archive => (rename_file st.1 path archive, st.2)
  | AHup => (Reopen None st.1 st.2).1
  end.

Definition step_line (a : astep) : option string := match a with ALog now e => audit_line now e | _ => None end.
Definition step_archive (a : astep) : option string := match a with ARename n => Some n | _ => None end.

Definition world_ok (w : world) : Prop :=
  (forall n i, names w !! n = Some i -> i < w_next w /\ is_Some (inodes w !! i)) /\
  (forall n m i, names w !! n = Some i -> names w !! m = Some i -> n = m).

Definition total (w : world) (l : list string) : string := str_concat (content w <$> l).

Lemma total_app w a b : total w (a ++ b) = total w a +:+ total w b.
Proof.
  unfold total. rewrite fmap_app. induction (content w <$> a) as [|x k IH]; [done|]. cbn [app str_concat foldr]. fold (str_concat (k ++ (content w <$> b))) (str_concat k).
  by rewrite IH, str_app_assoc.
Qed.

Lemma total_same w w' l : Forall (fun n => content w' n = content w n) l -> total w' l = total w l.
Proof. intros H. unfold total. f_equal. induction H as [|x l Hx _ IH]; [done|]. cbn. by rewrite Hx, IH. Qed.

Lemma total_missing w l : Forall (fun n => names w !! n = None) l -> total w l = "".
Proof. induction 1 as [|x l Hx _ IH]; [done|]. unfold total in *. cbn [fmap list_fmap str_concat foldr]. unfold content at 1. rewrite Hx. exact IH. Qed.

(** The sink's descriptor holds the last file of the sequence that exists. *)
Definition sink_inv (path : string) (w : world) (s : Sink) (done todo : list string) : Prop :=
  world_ok w /\ Forall (fun a => names w !! a = None) todo /\ NoDup (done ++ todo ++ [path]) /\
  exists fd i pre nm post, s = JSONSink fd (Some fd) path /\ fds w !! fd = Some i /\ done ++ [path] = pre ++ nm :: post /\
    names w !! nm = Some i /\ Forall (fun a => names w !! a = None) post.

Lemma write_content w fd i data : fds w !! fd = Some i -> exists w', write_fd w fd data = Some w' /\ names w' = names w /\ fds w' = fds w /\ w_next w' = w_next w /\
  (world_ok w -> world_ok w' /\ forall n, content w' n = if decide (names w !! n = Some i) then content w n +:+ data else content w n).
Proof.
  intros Hf. unfold write_fd. rewrite Hf. cbn [mbind option_bind]. eexists. split_and!; try reflexivity. intros [Hok Hinj]. split.
  - split; [|exact Hinj]. cbn. intros n j Hn. destruct (Hok n j Hn) as [H1 H2]. split; [done|]. destruct (decide (j = i)) as [->|];
      [rewrite lookup_insert_eq|rewrite lookup_insert_ne by done]; eauto.
  - intros n. unfold content. cbn [names inodes]. destruct (names w !! n) as [j|] eqn:En; cbn [mbind option_bind];
      [|by rewrite decide_False by done]. destruct (decide (j = i)) as [->|Hj].
    + by rewrite decide_True, lookup_insert_eq by done.
    + rewrite lookup_insert_ne by done. by rewrite decide_False by congruence.
Qed.

Lemma nodup_drop_mid (a b c : list string) : NoDup (a ++ b ++ c) -> NoDup (a ++ c).
Proof. rewrite !NoDup_app. intros (H1 & H2 & _ & _ & H3). split_and!; try done. intros x Hx Hc. apply (H2 x Hx). apply elem_of_app. by right. Qed.

(** The name of the live log, if it exists, is the file the sink holds. *)
Lemma path_is_live path w done pre nm post i j : done ++ [path] = pre ++ nm :: post -> names w !! nm = Some i ->
  Forall (fun a => names w !! a = None) post -> names w !! path = Some j -> pre = done /\ nm = path /\ post = [] /\ j = i.
Proof.
  intros Hseq Hnm Hpost Hp. destruct post as [|x post] using rev_ind.
  - apply app_inj_tail in Hseq as [-> ->]. split_and!; try done. congruence.
  - clear IHpost. rewrite app_comm_cons, app_assoc in Hseq. apply app_inj_tail in Hseq as [_ ->]. apply Forall_app in Hpost as [_ Hx].
    rewrite Forall_forall in Hx. by rewrite (Hx x ltac:(by left)) in Hp.
Qed.

Lemma inv_log path w s done todo now e : sink_inv path w s done todo ->
  sink_inv path (Log now w s e) s done todo /\ total (Log now w s e) (done ++ [path]) = total w (done ++ [path]) +:+ default "" (audit_line now e).
Proof.
  intros (Hok & Htd & Hnd & fd & i & pre & nm & post & -> & Hfd & Hseq & Hnm & Hpost). cbn [Log].
  destruct (audit_line now e) as [line|]; cbn [default id]; [|split; [|by rewrite str_app_nil_r]; split_and!; try done; eauto 10].
  destruct (write_content w fd i line Hfd) as (w' & -> & Hn & Hf & Hx & Hc). cbn [default id]. destruct (Hc Hok) as [Hok' Hc']. split.
  - split_and!; try done; [by rewrite Hn|]. exists fd, i, pre, nm, post. rewrite Hn, Hf. by split_and!.
  - rewrite Hseq. rewrite !total_app. change (nm :: post) with ([nm] ++ post). rewrite !total_app.
    rewrite (total_missing w post), (total_missing w' post) by (by rewrite ?Hn). rewrite !str_app_nil_r.
    rewrite (total_same w w' pre).
    + unfold total. cbn [fmap list_fmap str_concat foldr]. rewrite Hc', decide_True by done. by rewrite !str_app_nil_r, str_app_assoc.
    + apply Forall_forall. intros n Hin. rewrite Hc', decide_False; [done|]. intros Hn'. assert (n = nm) as -> by (eapply (proj2 Hok); done).
      pose proof (nodup_drop_mid _ _ _ Hnd) as Hnd2. rewrite Hseq in Hnd2. apply NoDup_app in Hnd2 as (_ & Hnd3 & _). apply (Hnd3 nm Hin). by left.
Qed.

Lemma total_missing_snoc w l : names w !! l = None -> total w [l] = "".
Proof. intros H. apply total_missing. by constructor. Qed.

Lemma inv_rename path w s done a todo : sink_inv path w s done (a :: todo) ->
  sink_inv path (rename_file w path a) s (done ++ [a]) todo /\ total (rename_file w path a) ((done ++ [a]) ++ [path]) = total w (done ++ [path]).
Proof.
  intros (Hok & Htd & Hnd & fd & i & pre & nm & post & -> & Hfd & Hseq & Hnm & Hpost). apply Forall_cons in Htd as [Ha Htd].
  assert (NoDup ((done ++ [a]) ++ todo ++ [path])) as Hnd' by (by rewrite <-app_assoc). unfold rename_file.
  assert (a <> path) as Hap. { intros ->. apply NoDup_app in Hnd as (_ & _ & Hnd). apply NoDup_cons in Hnd as [Hni _]. apply Hni, elem_of_app. right. by left. }
  destruct (names w !! path) as [j|] eqn:Hp.
  - destruct (path_is_live path w done pre nm post i j Hseq Hnm Hpost Hp) as (-> & -> & -> & ->). split.
    + split_and!; try done.
      * destruct Hok as [H1 H2]. split; cbn [names inodes w_next].
        -- intros n k. rewrite lookup_insert_Some, lookup_delete_Some. intros [[-> <-]|(_ & _ & Hn)]; eauto.
        -- intros n m k. rewrite !lookup_insert_Some, !lookup_delete_Some.
           intros [[<- <-]|(Hn1 & Hn2 & Hn)] [[<- ?]|(Hm1 & Hm2 & Hm)]; subst; try done; [by destruct Hm2; eapply H2|by destruct Hn2; eapply H2|by eapply H2].
      * cbn [names]. rewrite Forall_forall in *. intros x Hx. rewrite lookup_insert_ne; [apply lookup_delete_None; auto|]. intros <-.
        apply NoDup_app in Hnd as (_ & _ & Hnd). apply NoDup_cons in Hnd as [Hni _]. apply Hni, elem_of_app. by left.
      * exists fd, i, done, a, [path]. cbn [names fds]. split_and!; try done; [by rewrite <-app_assoc|by rewrite lookup_insert_eq|]. constructor; [|constructor].
        rewrite lookup_insert_ne by done. apply lookup_delete_eq.
    + rewrite <-app_assoc, !total_app. f_equal; [apply total_same, Forall_forall|].
      * intros n Hn. unfold content. cbn [names inodes]. assert (n <> a /\ n <> path) as [Hna Hnp].
        { apply NoDup_app in Hnd as (_ & Hdisj & _). split; intros ->; apply (Hdisj _ Hn);
            [by left|right; apply elem_of_app; right; by left]. }
        by rewrite lookup_insert_ne, lookup_delete_ne by done.
      * rewrite (total_missing_snoc _ path) by (cbn [names]; rewrite lookup_insert_ne by done; apply lookup_delete_eq). rewrite str_app_nil_r.
        unfold total, content. cbn [fmap list_fmap names inodes]. by rewrite lookup_insert_eq, Hp.
  - split; [split_and!; try done|].
    + destruct post as [|x post] using rev_ind; [apply app_inj_tail in Hseq as [_ <-]; congruence|]. clear IHpost.
      rewrite app_comm_cons, app_assoc in Hseq. apply app_inj_tail in Hseq as [-> <-]. apply Forall_app in Hpost as [Hp1 Hp2].
      exists fd, i, pre, nm, (post ++ [a; path]). split_and!; try done; [by rewrite <-!app_assoc|]. apply Forall_app. split; [done|]. by repeat constructor.
    + rewrite <-app_assoc, !total_app. by rewrite (total_missing_snoc w a), str_app_nil_l by done.
Qed.

(** Opening keeps the directory sound, empties nothing, and holds the file. *)
Lemma open_append_spec w path : world_ok w -> let '(w', fd) := open_append w path in
  world_ok w' /\ (exists i, fds w' !! fd = Some i /\ names w' !! path = Some i) /\
  (forall n, n <> path -> names w' !! n = names w !! n) /\ (forall n, content w' n = content w n).
Proof.
  intros [H1 H2]. unfold open_append. destruct (names w !! path) as [i|] eqn:Hp.
  - split_and!; try done.
    + split; [|exact H2]. cbn. intros n j Hn. destruct (H1 n j Hn). split; [lia|done].
    + exists i. cbn. by rewrite lookup_insert_eq.
  - assert (forall n j, names w !! n = Some j -> j <> w_next w) as Hfresh by (intros n j Hn ->; apply H1 in Hn as [Hn _]; lia). split_and!.
    + split; cbn.
      * intros n j. rewrite lookup_insert_Some. intros [[<- <-]|[Hne Hn]]; [split; [lia|by rewrite lookup_insert_eq]|].
        destruct (H1 n j Hn). split; [lia|]. by rewrite lookup_insert_ne by (by apply not_eq_sym, (Hfresh n)).
      * intros n m j. rewrite !lookup_insert_Some. intros [[<- <-]|[Hn1 Hn]] [[<- Hj]|[Hm1 Hm]]; try done; try by eapply H2.
        -- by destruct (Hfresh m _ Hm).
        -- subst j. by destruct (Hfresh n _ Hn).
    + exists (w_next w). cbn. by rewrite !lookup_insert_eq.
    + intros n Hn. cbn. by rewrite lookup_insert_ne.
    + intros n. unfold content. cbn. destruct (decide (n = path)) as [->|Hn].
      * rewrite lookup_insert_eq, Hp. cbn. by rewrite lookup_insert_eq.
      * rewrite lookup_insert_ne by done. destruct (names w !! n) as [j|] eqn:En; [|done]. cbn. by rewrite lookup_insert_ne by (by apply not_eq_sym, (Hfresh n)).
Qed.

Lemma inv_open path w done todo : path <> "" -> world_ok w -> NoDup (done ++ todo ++ [path]) -> Forall (fun a => names w !! a = None) todo ->
  (forall fd, (open_append w path).2 = fd -> sink_inv path (open_append w path).1 (JSONSink fd (Some fd) path) done todo) /\
  total (open_append w path).1 (done ++ [path]) = total w (done ++ [path]).
Proof.
  intros Hpe Hok Hnd Htd. pose proof (open_append_spec w path Hok) as Ho. destruct (open_append w path) as [w' fd']. cbn [fst snd].
  destruct Ho as (Hok' & (i & Hfd & Hp) & Hn & Hc). split; [intros fd <-|by apply total_same, Forall_true].
  split_and!; try done.
  - rewrite Forall_forall in *. intros a Ha. rewrite Hn; [auto|]. intros ->. apply NoDup_app in Hnd as (_ & _ & Hnd). apply NoDup_app in Hnd as (_ & Hd & _).
    apply (Hd _ Ha). by left.
  - exists fd', i, done, path, []. by split_and!.
Qed.

Lemma inv_hup path w s done todo : path <> "" -> sink_inv path w s done todo ->
  sink_inv path (audit_step path (w, s) AHup).1 (audit_step path (w, s) AHup).2 done todo /\
  total (audit_step path (w, s) AHup).1 (done ++ [path]) = total w (done ++ [path]).
Proof.
  intros Hpe (Hok & Htd & Hnd & fd & i & pre & nm & post & -> & _). cbn [audit_step Reopen fst snd]. rewrite (proj2 (String.eqb_neq path "")) by done.
  destruct (inv_open path (close_fd w fd) done todo Hpe Hok Hnd Htd) as [Hi Ht]. specialize (Hi _ eq_refl).
  destruct (open_append (close_fd w fd) path) as [w' fd']. cbn [fst snd] in *. split; [exact Hi|]. rewrite Ht. by apply total_same, Forall_true.
Qed.

Lemma run_steps path steps w s done : path <> "" -> sink_inv path w s done (omap step_archive steps) ->
  total (foldl (audit_step path) (w, s) steps).1 ((done ++ omap step_archive steps) ++ [path]) =
  total w (done ++ [path]) +:+ str_concat (omap step_line steps).
Proof.
  intros Hpe. revert w s done. induction steps as [|a steps IH]; intros w s done Hi.
  - cbn. by rewrite app_nil_r, str_app_nil_r.
  - cbn [foldl]. destruct a as [now e|arch|].
    + cbn [omap list_omap step_archive step_line] in *. destruct (inv_log path w s done _ now e Hi) as [Hi' Ht].
      change (audit_step path (w, s) (ALog now e)) with (Log now w s e, s). rewrite (IH _ _ _ Hi'), Ht.
      destruct (audit_line now e) as [line|]; cbn [default id]; [symmetry; apply str_app_assoc|by rewrite str_app_nil_r].
    + cbn [omap list_omap step_archive step_line] in *. destruct (inv_rename path w s done arch _ Hi) as [Hi' Ht].
      change (audit_step path (w, s) (ARename arch)) with (rename_file w path arch, s). rewrite <-Ht, <-(IH _ _ _ Hi'). by rewrite <-!app_assoc.
    + cbn [omap list_omap step_archive step_line] in *. destruct (inv_hup path w s done _ Hpe Hi) as [Hi' Ht].
      destruct (audit_step path (w, s) AHup) as [w' s']. cbn [fst snd] in *. by rewrite (IH _ _ _ Hi'), Ht.
Qed.

(** The audit file survives rotation: however event records, renames of the log by the rotation tool and hang-up signals interleave, provided each reopening succeeds and no archive name is reused, the archives in order followed by the live file hold the original contents and then every record, whole and in the order it was logged, each on one line. *)
Theorem audit_survives_rotation w0 path steps w1 s : encoders_ok -> world_ok w0 -> NoDup (omap step_archive steps ++ [path]) ->
  Forall (fun a => names w0 !! a = None) (omap step_archive steps) -> OpenSink None None w0 "file" path = (w1, Ok s) ->
  total (foldl (audit_step path) (w1, s) steps).1 (omap step_archive steps ++ [path]) = content w0 path +:+ str_concat (omap step_line steps) /\
  Forall (fun line => exists b, line = b +:+ String nl "" /\ one_line b) (omap step_line steps).
Proof.
  intros He Hok Hnd Ha Ho. unfold OpenSink in Ho. cbn [String.eqb orb] in Ho. destruct (String.eqb_spec path "") as [|Hpe]; [done|].
  destruct (inv_open path w0 [] (omap step_archive steps) Hpe Hok Hnd Ha) as [Hi Ht]. specialize (Hi _ eq_refl). split.
  - destruct (open_append w0 path) as [w fd]. cbn [fst snd] in *. injection Ho as <- <-.
    rewrite <-(app_nil_l (omap step_archive steps)), (run_steps path steps w _ [] Hpe Hi), Ht. unfold total. cbn. by rewrite str_app_nil_r.
  - apply Forall_forall. intros line (a & _ & Hl)%list_elem_of_omap. destruct a; try done. by eapply audit_line_shape.
Qed.
End sinks.

(** ** On concrete files *)

Definition demo_time (_ : Z) : option string := Some (json_string "2026-01-01T00:00:00Z").
Definition demo_extras (_ : list (string * any)) : option string := None.
Definition demo_event (k : string) : AuditEvent := mkAudit None k "ok" "u" "" "" "" "" "" [].
Definition boot_world : world := mkWorld {[1 := ""; 2 := ""]} ∅ {[os_stdout := 1; os_stderr := 2]} 3.
Definition demo_steps : list astep :=
  [ALog 0 (demo_event "a"); ARename "audit.log.1"; ALog 0 (demo_event "b"); AHup; ALog 0 (demo_event "c")].

Lemma audit_survives_rotation_witness :
  total (foldl (audit_step demo_time demo_extras "audit.log") ((open_append boot_world "audit.log").1, JSONSink 3 (Some 3) "audit.log") demo_steps).1
    ["audit.log.1"; "audit.log"] = str_concat (omap (step_line demo_time demo_extras) demo_steps).
Proof.
  apply (audit_survives_rotation demo_time demo_extras boot_world "audit.log" demo_steps _ (JSONSink 3 (Some 3) "audit.log")).
  - split; [intros t x [= <-]; vm_compute; reflexivity|by intros].
  - split; cbn; intros *; by rewrite lookup_empty.
  - apply (bool_decide_unpack _). vm_compute. exact I.
  - repeat constructor.
  - vm_compute. reflexivity.
Defined.

(** Closing a sink on the standard error closes the process's standard error. *)
Lemma stderr_sink_closes_stderr :
  fds (CloseSink boot_world (NewJSONSink os_stderr)).1 !! os_stderr = None.
Proof. vm_compute. reflexivity. Qed.

(** A reopening that fails has closed the old file already: what is logged
    afterwards is lost. *)
Lemma failed_reopen_drops_events :
  let '(w, s) := ((open_append boot_world "audit.log").1, JSONSink 3 (Some 3) "audit.log") in
  let '(w', s', e) := Reopen (Some "too many open files") w s in
  e <> None /\ Log demo_time demo_extras 0 w' s' (demo_event "x") = w'.
Proof. split; [done|]. vm_compute. reflexivity. Qed.
