(* ===== verification/Orchestrator.v ===== *)
(** * The orchestrator's main program (cmd/orchestrator/main.go)

    What is built from the configuration, in which order, what happens when a
    part fails, and what is closed on the way out.  The operating system, the
    databases, the engine's daemon and the MCP server are a record of their
    answers ([host]); a run yields the operations it did in order.  The QR
    command and log lines other than the warnings of a fallback are left out. *)

From S2P Require Import Prelude GoString GoConv Event Utf8 Wire GoNum Paths Sandbox Auth Os Fsops History Tools Registry Config Approver GitHub GitHubClient Catalogue Models Service SearchSyntax Docker GoJson AuditLog.

Inductive resource := ResTracing | ResAudit | ResRevocation | ResGitHub | ResWebAuthn.

#[export] Instance resource_eq_dec : EqDecision resource.
Proof. solve_decision. Defined.

Inductive bop :=
| BWarn (what : string)
| BMkdirAll (path : string) (mode : Z)
| BJanitor (what : string)                 (* a background goroutine is started *)
| BOpen (r : resource)
| BClose (r : resource)
| BServe
| BShutdown.

(** ** The environment *)

Inductive session_store := SessMemory (bufferSize maxBytes : Z) | SessSQLite (path : string) (bufferSize maxBytes : Z).
Inductive revocation_store := RevNoop | RevMemory | RevSQLite (path : string).
Inductive history_store := HistMemory | HistSQLite (path : string).
Inductive github_tokens := TokEnv (var : string) | TokPerUser (path var : string).

Record host := mkHostEnv {
  h_mkdir : string -> option string;
  h_session_db : option string;
  h_revocation_db : option string;
  h_history_db : option string;
  h_webauthn_db : option string;
  h_webauthn : option string;              (* webauthn.New *)
  h_stat : string -> option Z;             (* the permission bits *)
  h_read : string -> result string string;
  h_tracing : TracingConfig -> option string;
  h_audit_mkdir : option string;
  h_audit_open : option string;
  h_docker_build : bool;
  h_docker_client : option gerror;
  h_docker_info : result gerror (list string);
  h_spawn : github_tokens -> spawn_env;
  h_ctx : Ctx;
  h_abs : string -> string;
}.

Definition firstNonEmpty (l : list string) : string := default "" (list_find (fun v => v <> "") l ≫= fun p => Some p.2).

(** Whether it warns. *)
Definition warnIfLoosePerms (h : host) (path : string) : list bop :=
  match h_stat h path with
  | None => []
  | Some perm => if (Z.land perm 63 =? 0)%Z then [] else [BWarn "orchestrator: secrets file is group/world-accessible"]
  end.

(** ** The stores *)

Definition buildSessionStore (h : host) (c : SessionConfig) : list bop * session_store :=
  let mem := SessMemory (se_BufferSize c) (se_MaxBytes c) in
  let dir := Dir (se_Path c) in
  if String.eqb (se_Backend c) "memory" then ([BJanitor "session"], mem)
  else if String.eqb (se_Backend c) "" || String.eqb (se_Backend c) "sqlite" then
    match h_mkdir h dir with
    | Some _ => ([BMkdirAll dir 448; BWarn "session: cannot create dir, falling back to memory"; BJanitor "session"], mem)
    | None =>
        match h_session_db h with
        | Some _ => ([BMkdirAll dir 448; BWarn "session: sqlite open failed, falling back to memory"; BJanitor "session"], mem)
        | None => ([BMkdirAll dir 448; BJanitor "session"], SessSQLite (se_Path c) (se_BufferSize c) (se_MaxBytes c))
        end
    end
  else ([BWarn "session: unknown backend, falling back to memory"; BJanitor "session"], mem).

Definition buildRevocationList (h : host) (c : RevocationConfig) : list bop * revocation_store :=
  let dir := Dir (rv_Path c) in
  if String.eqb (rv_Backend c) "none" then ([], RevNoop)
  else if String.eqb (rv_Backend c) "memory" then ([BJanitor "revocation"], RevMemory)
  else if String.eqb (rv_Backend c) "" || String.eqb (rv_Backend c) "sqlite" then
    match h_mkdir h dir with
    | Some _ => ([BMkdirAll dir 448; BWarn "auth: cannot create revocation dir, falling back to memory"; BJanitor "revocation"], RevMemory)
    | None =>
        match h_revocation_db h with
        | Some _ => ([BMkdirAll dir 448; BWarn "auth: sqlite revocation open failed, falling back to memory"; BJanitor "revocation"], RevMemory)
        | None => ([BMkdirAll dir 448; BJanitor "revocation"], RevSQLite (rv_Path c))
        end
    end
  else ([BWarn "auth: unknown revocation backend, disabling"], RevNoop).

(** ** The GitHub backend *)

Definition buildGitHubTokenSource (h : host) (c : GitHubConfig) : result string github_tokens :=
  if String.eqb (gh_UserTokensPath c) "" then Ok (TokEnv "NOMADDEV_GITHUB_TOKEN")
  else match h_stat h (gh_UserTokensPath c) with
       | None => Err "per-user tokens file"
       | Some _ => Ok (TokPerUser (gh_UserTokensPath c) "NOMADDEV_GITHUB_TOKEN")
       end.

Definition github_options (c : GitHubConfig) : GitHubClient.Options :=
  GitHubClient.mkOptions (gh_BinaryPath c) (gh_Toolsets c) (gh_ReadOnly c) (gh_Host c) (gh_LockdownMode c) (gh_MaxArgBytes c) (gh_MaxResultBytes c)
    (gh_RateLimitRetries c) (gh_RateLimitBaseBackoff c).

Section main.
Context `{JsonMap} {T : Type}.
Variable unquote : string -> option string.
Variable decode : string -> option rawSchema.
Variable b : backends (R := runner) (T := T) (H := history_store).

Definition buildGitHub (h : host) (c : GitHubConfig) : list bop * result string (option Client) :=
  if String.eqb (gh_Token c) "" then ([], Ok None)
  else match buildGitHubTokenSource h c with
       | Err e => ([], Err e)
       | Ok src =>
           match New unquote decode (github_options c) true (h_ctx h) (h_spawn h src) with
           | Err e => ([], Err (emsg e))
           | Ok cl => (if Nat.eqb (length (ListTools cl)) 0 then [BWarn "orchestrator: github backend started but exposes ZERO tools"] else [], Ok (Some cl))
           end
       end.

(** ** The middleware *)

Definition history_of (h : host) (c : HistoryConfig) : list bop * result string history_store :=
  if String.eqb (hi_Backend c) "memory" then ([], Ok HistMemory)
  else if String.eqb (hi_Backend c) "" || String.eqb (hi_Backend c) "sqlite" then
    let dir := Dir (hi_Path c) in
    match h_mkdir h dir with
    | Some e => ([BMkdirAll dir 448], Err ("history dir: " +:+ e))
    | None =>
        match h_history_db h with
        | Some e => ([BMkdirAll dir 448], Err e)
        | None => (BMkdirAll dir 448 :: (if hs_Enabled (hi_Summary c) && negb (String.eqb (hs_URL (hi_Summary c)) "") then [BJanitor "history compactor"] else []),
                   Ok (HistSQLite (hi_Path c)))
        end
    end
  else ([], Err "unknown history backend").

Definition provider_key (c : MiddlewareConfig) : string :=
  if String.eqb (mw_Runtime c) RuntimeOpenAI then mw_OpenAIAPIKey c
  else if String.eqb (mw_Runtime c) RuntimeAnthropic then mw_AnthropicAPIKey c
  else if String.eqb (mw_Runtime c) RuntimeDeepSeek then mw_DeepSeekAPIKey c
  else mw_APIKey c.

Definition provider_model (c : MiddlewareConfig) : string :=
  if String.eqb (mw_Runtime c) RuntimeOpenAI then mw_OpenAIModel c
  else if String.eqb (mw_Runtime c) RuntimeAnthropic then mw_AnthropicModel c
  else if String.eqb (mw_Runtime c) RuntimeDeepSeek then mw_DeepSeekModel c
  else mw_Model c.

Definition is_llm_runtime (rt : string) : bool :=
  String.eqb rt RuntimeGemini || String.eqb rt RuntimeOpenAI || String.eqb rt RuntimeAnthropic || String.eqb rt RuntimeDeepSeek.

Definition sandbox_limits (c : SandboxConfig) : ResourceLimits := mkRes (sb_NanoCPUs c) (sb_Memory c) (sb_PidsLimit c).

Definition factory_config (c : Config.Config) (run : runner) (gh : option Client) (fs : Engine) (hist : history_store) (prompt : string) :
    FactoryConfig (R := runner) (H := history_store) :=
  let m := cf_Middleware c in
  mkFactory (mw_Runtime m) (provider_key m) (provider_model m) (mw_Temperature m) (mw_MaxTokens m) (mw_OpenAIBaseURL m) (mw_LLMMaxRetries m)
    (mw_AnthropicThinkingBudget m) prompt (hi_WindowTurns (cf_History c)) (mw_MaxConcurrent m) (sb_DefaultTimeout (cf_Sandbox c))
    (sandbox_limits (cf_Sandbox c)) (ap_GateDirectCommands (cf_Approval c)) (mw_MaxAutoRetries m) (gh_MaxResultBytes (cf_GitHub c))
    (mw_WorkerPoolEnabled m) (mw_WorkerPoolMaxConcurrent m) (mw_WorkerPoolMaxTasks m) (mw_WorkerPoolTaskTimeout m) (sb_DaemonEnabled (cf_Sandbox c))
    (mw_DocFetchAllowedDomains m) (match run with ROff => None | r => Some r end) (Some fs) (Some hist) (ap_RequiredTools (cf_Approval c))
    (ap_AutoGrant (cf_Approval c)) (ap_Timeout (cf_Approval c)) (bool_decide (is_Some gh)) (default [] (ListTools <$> gh))
    (IsDestructive <$> gh).

Definition system_prompt (h : host) (c : MiddlewareConfig) : result string string :=
  if String.eqb (mw_SystemPromptPath c) "" then Ok (mw_SystemPrompt c)
  else match h_read h (mw_SystemPromptPath c) with Ok s => Ok s | Err e => Err ("system prompt: " +:+ e) end.

Definition buildMiddleware (h : host) (c : Config.Config) (run : runner) (gh : option Client) :
    list bop * result string (option (Service (R := runner) (T := T) (H := history_store))) :=
  let m := cf_Middleware c in
  let ws := sb_WorkspaceDir (cf_Sandbox c) in
  if String.eqb (mw_Runtime m) "" || String.eqb (mw_Runtime m) RuntimeNone then ([], Ok None)
  else
    let '(log, hist) := history_of h (cf_History c) in
    match hist with
    | Err e => (log, Err e)
    | Ok hist =>
        let log := log ++ [BMkdirAll ws 493] in
        match h_mkdir h ws with
        | Some e => (log, Err ("workspace dir: " +:+ e))
        | None =>
            match NewWithOptions (h_abs h) ws (sb_PerSessionWorkspace (cf_Sandbox c)), system_prompt h m with
            | Err e, _ => (log, Err ("fsops: " +:+ emsg e))
            | Ok _, Err e => (log, Err e)
            | Ok fs, Ok prompt =>
                if is_llm_runtime (mw_Runtime m) && String.eqb (provider_key m) ""
                then (log, Err "middleware runtime is selected but its API key is empty")
                else (log, NewService b (factory_config c run gh fs hist prompt))
            end
        end
    end.

(** ** WebAuthn and readiness *)

(** Whether a service is built. *)
Definition buildWebAuthn (h : host) (c : WebAuthnConfig) : list bop * result string bool :=
  if negb (wa_Enabled c) then ([], Ok false)
  else
    let dir := Dir (wa_StorePath c) in
    ([BMkdirAll dir 448],
     match h_mkdir h dir, h_webauthn_db h, h_webauthn h with
     | Some e, _, _ => Err ("webauthn dir: " +:+ e)
     | None, Some e, _ => Err e
     | None, None, Some e => Err e          (* the store is closed again *)
     | None, None, None => Ok true
     end).

Definition buildReadinessProbes (sess : session_store) (hist : option history_store) (rev : revocation_store) : list string :=
  (match sess with SessSQLite _ _ _ => ["session_db"] | _ => [] end) ++
  (match hist with Some (HistSQLite _) => ["history_db"] | _ => [] end) ++
  (match rev with RevSQLite _ => ["revocation_db"] | _ => [] end).

(** ** run *)

Inductive run_outcome := RunOk | RunRestart | RunErr (msg : string).

(** Which case of the final [select] is taken. *)
Inductive wake := Signalled | RestartAsked | ServerDone (e : option string).

Definition serve (w : wake) : list bop * run_outcome :=
  match w with
  | ServerDone (Some e) => ([BServe], RunErr e)
  | ServerDone None | Signalled => ([BServe; BShutdown], RunOk)
  | RestartAsked => ([BServe; BShutdown], RunRestart)
  end.

(** A resource and the rest of the function, whose deferred call closes it. *)
Definition deferred (r : resource) (rest : list bop * run_outcome) : list bop * run_outcome := (BOpen r :: rest.1 ++ [BClose r], rest.2).

Definition prefixed (l : list bop) (rest : list bop * run_outcome) : list bop * run_outcome := (l ++ rest.1, rest.2).

Definition tracing_config (c : TracingConfig) (version : string) : TracingConfig :=
  mkTracingConfig (tr_Enabled c) (tr_Endpoint c) (tr_ServiceName c) (firstNonEmpty [tr_ServiceVersion c; version]) (tr_SampleRatio c) (tr_Insecure c).

Definition runner_options (c : SandboxConfig) : DockerRunnerOptions :=
  Docker.mkOptions (sb_Image c) (sb_WorkspaceDir c) (sb_DefaultTimeout c) (sandbox_limits c) (sb_ReadOnlyRootfs c) (sb_Network c) (sb_PreferRunsc c)
    (sb_RequireDigest c) (sb_PerSessionWorkspace c).

Definition build_runner (h : host) (c : SandboxConfig) : result docker_error runner :=
  NewRunner (h_docker_build h) (h_docker_client h) (h_docker_info h) (sb_Runtime c) (runner_options c).

(** From the sandbox to the end, inside the audit and revocation defers. *)
Definition run_services (h : host) (c : Config.Config) (w : wake) : list bop * run_outcome :=
  match build_runner h (cf_Sandbox c) with
  | Err _ => ([], RunErr "sandbox")
  | Ok run =>
      let pin := if String.eqb (sb_Runtime (cf_Sandbox c)) "docker" && negb (sb_RequireDigest (cf_Sandbox c)) && negb (Contains (sb_Image (cf_Sandbox c)) "@sha256:")
                 then [BWarn "orchestrator: sandbox image is not digest-pinned"] else [] in
      prefixed pin
        (let '(l, gh) := buildGitHub h (cf_GitHub c) in
         prefixed l
           match gh with
           | Err e => ([], RunErr ("github: " +:+ e))
           | Ok gh =>
               (match gh with Some _ => deferred ResGitHub | None => id end)
                 (let '(l, mw) := buildMiddleware h c run gh in
                  prefixed l
                    match mw with
                    | Err e => ([], RunErr ("middleware: " +:+ e))
                    | Ok _ =>
                        let '(l, wa) := buildWebAuthn h (cf_WebAuthn c) in
                        prefixed l
                          match wa with
                          | Err e => ([], RunErr ("webauthn: " +:+ e))
                          | Ok enabled => (if enabled then deferred ResWebAuthn else id) (serve w)
                          end
                    end)
           end)
  end.

(** The whole of [run]; the file descriptors are those of the audit sink. *)
Definition run (h : host) (flt : os_faults) (d : disk) (env : environ) (version : string) (fw : world) (w : wake) : world * (list bop * run_outcome) :=
  match Load flt d env with
  | (_, Err _) => (fw, ([], RunErr "config"))
  | (env, Ok c) =>
      let pre := warnIfLoosePerms h (OverridePath env) ++ warnIfLoosePerms h "/etc/nomaddev/env" ++ (buildSessionStore h (cf_Session c)).1 in
      match h_tracing h (tracing_config (cf_Tracing c) version) with
      | Some e => (fw, (pre, RunErr ("tracing: " +:+ e)))
      | None =>
          match OpenSink (h_audit_mkdir h) (h_audit_open h) fw (au_Backend (cf_Audit c)) (au_Path (cf_Audit c)) with
          | (fw, Err e) => (fw, prefixed pre (deferred ResTracing ([], RunErr ("audit: " +:+ e))))
          | (fw, Ok sink) =>
              ((CloseSink fw sink).1,
               prefixed pre (deferred ResTracing (deferred ResAudit
                 (prefixed (buildRevocationList h (at_Revocation (cf_Auth c))).1 (deferred ResRevocation (run_services h c w))))))
          end
      end
  end.

(** [main] without its other modes: the exit status, and what is printed on the
    standard error if that is still open. *)
Definition main (h : host) (flt : os_faults) (d : disk) (env : environ) (version : string) (fw : world) (w : wake) : Z * option string :=
  let '(fw, (_, out)) := run h flt d env version fw w in
  match out with
  | RunOk | RunRestart => (0%Z, None)
  | RunErr e => (1%Z, if bool_decide (is_Some (fds fw !! os_stderr)) then Some ("orchestrator: " +:+ e) else None)
  end.
End main.

(** [runHealthcheck]; the argument is the answer to the GET. *)
Definition runHealthcheck (resp : result string Z) : Z :=
  match resp with
  | Err _ => 1
  | Ok status => if (status <? 200)%Z || (300 <=? status)%Z then 1 else 0
  end.

(** ** What is opened is closed *)

Fixpoint balance (st : list resource) (l : list bop) : option (list resource) :=
  match l with
  | [] => Some st
  | BOpen r :: l => balance (r :: st) l
  | BClose r :: l => match st with
                     | r' :: st => if decide (r = r') then balance st l else None
                     | [] => None
                     end
  | _ :: l => balance st l
  end.

Definition balanced (l : list bop) : Prop := forall st, balance st l = Some st.

Definition flat_op (o : bop) : bool := match o with BOpen _ | BClose _ | BServe => false | _ => true end.

Lemma balance_app st l k : balance st (l ++ k) = (balance st l ≫= fun st' => balance st' k).
Proof. revert st. induction l as [|o l IH]; intros st; [done|]. destruct o; cbn; rewrite ?IH; try done. destruct st as [|r' st]; [done|]. case_decide; [apply IH|done]. Qed.

Lemma balanced_app l k : balanced l -> balanced k -> balanced (l ++ k).
Proof. intros Hl Hk st. rewrite balance_app, Hl. apply Hk. Qed.

Lemma balanced_flat l : Forall (fun o => flat_op o = true) l -> balanced l.
Proof. intros Hl st. induction Hl as [|o l Ho _ IH]; [done|]. by destruct o. Qed.

Lemma balanced_deferred r x : balanced x.1 -> balanced (deferred r x).1.
Proof. intros Hx st. cbn [deferred fst balance]. rewrite balance_app, Hx. cbn [mbind option_bind balance]. by rewrite decide_True. Qed.

Lemma balanced_prefixed l x : Forall (fun o => flat_op o = true) l -> balanced x.1 -> balanced (prefixed l x).1.
Proof. intros Hl Hx. apply balanced_app; [by apply balanced_flat|done]. Qed.

Create HintDb boot.
#[export] Hint Resolve balanced_deferred balanced_prefixed balanced_flat balanced_app : boot.
#[export] Hint Extern 1 (Forall _ _) => solve [repeat constructor] : boot.

Section facts.
Context `{JsonMap} {T : Type}.
Variable unquote : string -> option string.
Variable decode : string -> option rawSchema.
Variable b : backends (R := runner) (T := T) (H := history_store).

Lemma session_log_flat h c : Forall (fun o => flat_op o = true) (buildSessionStore h c).1.
Proof. unfold buildSessionStore. repeat case_match; cbn; auto with boot. Qed.

Lemma revocation_log_flat h c : Forall (fun o => flat_op o = true) (buildRevocationList h c).1.
Proof. unfold buildRevocationList. repeat case_match; cbn; auto with boot. Qed.

Lemma perms_flat h p : Forall (fun o => flat_op o = true) (warnIfLoosePerms h p).
Proof. unfold warnIfLoosePerms. repeat case_match; auto with boot. Qed.

Lemma github_log_flat h c : Forall (fun o => flat_op o = true) (buildGitHub unquote decode h c).1.
Proof. unfold buildGitHub. repeat case_match; cbn; auto with boot. Qed.

Lemma history_log_flat h c : Forall (fun o => flat_op o = true) (history_of h c).1.
Proof. unfold history_of. repeat case_match; cbn; auto with boot. Qed.

Lemma middleware_log_flat h c run gh : Forall (fun o => flat_op o = true) (buildMiddleware b h c run gh).1.
Proof.
  pose proof (history_log_flat h (cf_History c)) as Hh. unfold buildMiddleware. destruct (_ || _); [constructor|].
  destruct (history_of h (cf_History c)) as [l [hist|e]]; cbn [fst] in *; [|done].
  repeat case_match; cbn; apply Forall_app; auto with boot.
Qed.

Lemma webauthn_log_flat h c : Forall (fun o => flat_op o = true) (buildWebAuthn h c).1.
Proof. unfold buildWebAuthn. repeat case_match; cbn; auto with boot. Qed.

Lemma serve_balanced w : balanced (serve w).1.
Proof. by destruct w as [| |[]]. Qed.

Lemma services_balanced h c w : balanced (run_services unquote decode b h c w).1.
Proof.
  unfold run_services. destruct (build_runner h (cf_Sandbox c)) as [rn|]; [|by cbn; auto with boot].
  apply balanced_prefixed; [case_match; auto with boot|].
  pose proof (github_log_flat h (cf_GitHub c)) as Hg. destruct (buildGitHub unquote decode h (cf_GitHub c)) as [lg [gh|e]];
    (apply balanced_prefixed; [exact Hg|]); [|by cbn; auto with boot].
  assert (forall x, balanced x.1 -> balanced ((match gh with Some _ => deferred ResGitHub | None => id end) x).1) as Hd by (destruct gh; auto with boot).
  apply Hd. pose proof (middleware_log_flat h c rn gh) as Hm. destruct (buildMiddleware b h c rn gh) as [lm [mw|e]];
    (apply balanced_prefixed; [exact Hm|]); [|by cbn; auto with boot].
  pose proof (webauthn_log_flat h (cf_WebAuthn c)) as Hw. destruct (buildWebAuthn h (cf_WebAuthn c)) as [lw [en|e]];
    (apply balanced_prefixed; [exact Hw|]); [|by cbn; auto with boot].
  destruct en; [apply balanced_deferred|]; apply serve_balanced.
Qed.

(** However the orchestrator's run ends (a failure of any part during start-up, a signal, a restart request or the server's own end), every resource it opened (tracing, audit sink, revocation list, GitHub backend, WebAuthn store) is closed once, after everything opened later. *)
Theorem orchestrator_closes_what_it_opens h flt d env version fw w :
  balance [] (run unquote decode b h flt d env version fw w).2.1 = Some [].
Proof.
  revert d env. enough (forall d env, balanced (run unquote decode b h flt d env version fw w).2.1) as Hb by (intros; apply Hb).
  intros d env. unfold run. destruct (Load flt d env) as [env' [c|e]]; [|by cbn; auto with boot].
  assert (Forall (fun o => flat_op o = true) (warnIfLoosePerms h (OverridePath env') ++ warnIfLoosePerms h "/etc/nomaddev/env" ++ (buildSessionStore h (cf_Session c)).1)) as Hp
    by (repeat (apply Forall_app; split); auto using perms_flat, session_log_flat).
  destruct (h_tracing h _); [by apply balanced_flat|]. destruct (OpenSink _ _ _ _ _) as [fw' [sink|e]]; cbn [snd]; (apply balanced_prefixed; [exact Hp|]);
    apply balanced_deferred; [|by cbn; auto with boot]. apply balanced_deferred, balanced_prefixed; [apply revocation_log_flat|].
  apply balanced_deferred, services_balanced.
Qed.

(** ** What a serving orchestrator has *)

Lemma flat_no_serve l : Forall (fun o => flat_op o = true) l -> ~ In BServe l.
Proof. intros Hl Hi. rewrite Forall_forall in Hl. by apply list_elem_of_In, Hl in Hi. Qed.

Lemma in_prefixed o l x : In o (prefixed l x).1 <-> In o l \/ In o x.1.
Proof. apply in_app_iff. Qed.

Lemma in_deferred o r x : o <> BOpen r -> o <> BClose r -> In o (deferred r x).1 <-> In o x.1.
Proof. intros H1 H2. cbn. rewrite in_app_iff. cbn. split; [intros [|[|[|[]]]]; congruence|auto]. Qed.

Lemma in_flat_prefixed l x : Forall (fun o => flat_op o = true) l -> In BServe (prefixed l x).1 -> In BServe x.1.
Proof. intros Hl [Hi|Hi]%in_prefixed; [by apply flat_no_serve in Hi|done]. Qed.

(** Every stage before the serving one has succeeded. *)
Lemma serving_stages h c w : In BServe (run_services unquote decode b h c w).1 ->
  exists rn lg gh lm mw, build_runner h (cf_Sandbox c) = Ok rn /\ buildGitHub unquote decode h (cf_GitHub c) = (lg, Ok gh) /\
    buildMiddleware b h c rn gh = (lm, Ok mw).
Proof.
  unfold run_services. destruct (build_runner h (cf_Sandbox c)) as [rn|]; [|done]. intros Hi. apply in_flat_prefixed in Hi; [|case_match; auto with boot].
  pose proof (github_log_flat h (cf_GitHub c)) as Hg. destruct (buildGitHub unquote decode h (cf_GitHub c)) as [lg [gh|e]]; apply in_flat_prefixed in Hi; try done.
  assert (In BServe (let '(l, mw) := buildMiddleware b h c rn gh in prefixed l
      match mw with
      | Err e => ([], RunErr ("middleware: " +:+ e))
      | Ok _ => let '(l, wa) := buildWebAuthn h (cf_WebAuthn c) in prefixed l
          match wa with Err e => ([], RunErr ("webauthn: " +:+ e)) | Ok enabled => (if enabled then deferred ResWebAuthn else id) (serve w) end
      end).1) as Hi' by (destruct gh; [by apply in_deferred in Hi|done]). clear Hi.
  pose proof (middleware_log_flat h c rn gh) as Hm. destruct (buildMiddleware b h c rn gh) as [lm [mw|e]] eqn:Em; apply in_flat_prefixed in Hi'; try done.
  exists rn, lg, gh, lm, mw. by split_and!.
Qed.

(** A runner that could be built: a known runtime, and for Docker a binary with
    Docker support, a client, and an image reference that parses, with a digest
    when one is required. *)
Lemma runner_checks h c rn : build_runner h c = Ok rn ->
  In (sb_Runtime c) [""; "none"; "mock"; "docker"] /\
  (sb_Runtime c = "docker" -> h_docker_build h = true /\ h_docker_client h = None /\
     exists name tag digest, ParseImageRef (sb_Image c) = Ok (name, tag, digest) /\ (sb_RequireDigest c = true -> digest <> "")).
Proof.
  unfold build_runner, NewRunner. destruct (String.eqb_spec (sb_Runtime c) "") as [->|]; [split; [by left|done]|].
  destruct (String.eqb_spec (sb_Runtime c) "none") as [->|]; [split; [by right; left|done]|].
  destruct (String.eqb_spec (sb_Runtime c) "mock") as [->|]; [split; [by do 2 right; left|done]|].
  destruct (String.eqb_spec (sb_Runtime c) "docker") as [->|]; [|done]. cbn [orb]. intros Hr. split; [by do 3 right; left|]. intros _.
  unfold newDockerRunner in Hr. destruct (h_docker_build h); [|done]. split; [done|].
  unfold NewDockerRunner in Hr. cbn [o_Image runner_options o_RequireDigest] in Hr. destruct (ParseImageRef _) as [[[nm tg] dg]|]; [|done].
  destruct (sb_RequireDigest c && String.eqb dg "") eqn:Hq; [done|]. destruct (h_docker_client h); [done|]. split; [done|]. exists nm, tg, dg. split; [done|].
  intros Hd. rewrite Hd in Hq. by apply String.eqb_neq.
Qed.

Lemma history_checks h c l hist : history_of h c = (l, Ok hist) -> In (hi_Backend c) ["memory"; ""; "sqlite"].
Proof.
  unfold history_of. destruct (String.eqb_spec (hi_Backend c) "memory") as [->|]; [by left|].
  destruct (String.eqb_spec (hi_Backend c) "") as [->|]; [by right; left|]. destruct (String.eqb_spec (hi_Backend c) "sqlite") as [->|]; [by do 2 right; left|done].
Qed.

Lemma service_runtime c s : NewService b c = Ok s -> In (fc_Runtime c) [""; RuntimeNone; RuntimeMock; RuntimeGemini; RuntimeOpenAI; RuntimeDeepSeek; RuntimeAnthropic].
Proof.
  unfold NewService, select_translator.
  repeat (match goal with |- context [String.eqb (fc_Runtime c) ?x] => destruct (String.eqb_spec (fc_Runtime c) x) as [->|]; [intros _; cbn; tauto|] end). done.
Qed.

Lemma middleware_checks h c rn gh lm mw : buildMiddleware b h c rn gh = (lm, Ok mw) -> mw_Runtime (cf_Middleware c) <> "" -> mw_Runtime (cf_Middleware c) <> RuntimeNone ->
  In (mw_Runtime (cf_Middleware c)) [RuntimeMock; RuntimeGemini; RuntimeOpenAI; RuntimeDeepSeek; RuntimeAnthropic] /\
  In (hi_Backend (cf_History c)) ["memory"; ""; "sqlite"] /\ (is_llm_runtime (mw_Runtime (cf_Middleware c)) = true -> provider_key (cf_Middleware c) <> "").
Proof.
  intros Hb H1 H2. unfold buildMiddleware in Hb. rewrite (proj2 (String.eqb_neq _ _) H1), (proj2 (String.eqb_neq _ _) H2) in Hb. cbn [orb] in Hb.
  destruct (history_of h (cf_History c)) as [l [hist|e]] eqn:Eh; [|done]. apply history_checks in Eh. destruct (h_mkdir h _); [done|].
  destruct (NewWithOptions _ _ _) as [fs|]; [|done]. destruct (system_prompt _ _) as [prompt|]; [|done].
  destruct (is_llm_runtime _ && _) eqn:Hk; [done|]. injection Hb as _ Hs. apply service_runtime in Hs. cbn [fc_Runtime factory_config] in Hs. split_and!.
  - destruct Hs as [Hs|[Hs|Hs]]; [by destruct H1|by destruct H2|done].
  - done.
  - intros Hl. rewrite Hl in Hk. by apply String.eqb_neq.
Qed.

(** C21: The orchestrator serves only a sound configuration: its configuration loaded, its tracing and audit sink could be set up, with a known audit backend, and its sandbox runner was built: the sandbox runtime is off, mock or docker, and for docker the binary has docker support, the client could be made and the image reference parses, with a digest when one is required; the GitHub backend, if a token is set, and the middleware were built, so that, unless the middleware is off, its runtime and the history backend are known ones and a real model provider has an API key. *)
Theorem orchestrator_refuses_misconfiguration h flt d env version fw w : In BServe (run unquote decode b h flt d env version fw w).2.1 ->
  exists env' c, Load flt d env = (env', Ok c) /\ h_tracing h (tracing_config (cf_Tracing c) version) = None /\
    In (au_Backend (cf_Audit c)) [""; "none"; "stderr"; "stdout"; "file"] /\
    is_ok (OpenSink (h_audit_mkdir h) (h_audit_open h) fw (au_Backend (cf_Audit c)) (au_Path (cf_Audit c))).2 = true /\
    In (sb_Runtime (cf_Sandbox c)) [""; "none"; "mock"; "docker"] /\
    (sb_Runtime (cf_Sandbox c) = "docker" -> h_docker_build h = true /\ h_docker_client h = None /\
       exists name tag digest, ParseImageRef (sb_Image (cf_Sandbox c)) = Ok (name, tag, digest) /\ (sb_RequireDigest (cf_Sandbox c) = true -> digest <> "")) /\
    is_ok (buildGitHub unquote decode h (cf_GitHub c)).2 = true /\
    (mw_Runtime (cf_Middleware c) <> "" -> mw_Runtime (cf_Middleware c) <> RuntimeNone ->
       In (mw_Runtime (cf_Middleware c)) [RuntimeMock; RuntimeGemini; RuntimeOpenAI; RuntimeDeepSeek; RuntimeAnthropic] /\
       In (hi_Backend (cf_History c)) ["memory"; ""; "sqlite"] /\
       (is_llm_runtime (mw_Runtime (cf_Middleware c)) = true -> provider_key (cf_Middleware c) <> "")).
Proof.
  unfold run. destruct (Load flt d env) as [env' [c|e]]; [|done]. intros Hi. exists env', c. split; [done|].
  assert (Forall (fun o => flat_op o = true) (warnIfLoosePerms h (OverridePath env') ++ warnIfLoosePerms h "/etc/nomaddev/env" ++ (buildSessionStore h (cf_Session c)).1)) as Hp
    by (repeat (apply Forall_app; split); auto using perms_flat, session_log_flat).
  destruct (h_tracing h _); [by apply flat_no_serve in Hi|]. split; [done|]. destruct (OpenSink _ _ _ _ _) as [fw' [sink|e]] eqn:Eo; cbn [snd] in Hi;
    apply in_flat_prefixed in Hi; try done; apply in_deferred in Hi; try done.
  apply in_deferred, in_flat_prefixed, in_deferred in Hi; try done; [|apply revocation_log_flat].
  apply serving_stages in Hi as (rn & lg & gh & lm & mw & Hr & Hg & Hm). destruct (runner_checks _ _ _ Hr) as [R1 R2]. split_and!; try done.
  - unfold OpenSink in Eo. destruct (String.eqb_spec (au_Backend (cf_Audit c)) "") as [->|]; [by left|].
    destruct (String.eqb_spec (au_Backend (cf_Audit c)) "none") as [->|]; [by right; left|].
    destruct (String.eqb_spec (au_Backend (cf_Audit c)) "stderr") as [->|]; [by do 2 right; left|].
    destruct (String.eqb_spec (au_Backend (cf_Audit c)) "stdout") as [->|]; [by do 3 right; left|].
    destruct (String.eqb_spec (au_Backend (cf_Audit c)) "file") as [->|]; [by do 4 right; left|done].
  - by rewrite Hg.
  - intros H1 H2. by eapply middleware_checks.
Qed.
End facts.

(** ** On a concrete host *)

Definition quiet_host : host :=
  mkHostEnv (fun _ => None) None None None None None (fun _ => None) (fun _ => Ok "") (fun _ => None) None None true None (Ok [])
    (fun _ => demo_up_spawn) (mkCtx 0 None) id.

Definition no_json : JsonMap := {| json_marshal _ := ""; json_unmarshal _ := None |}.
Definition boot_faults : os_faults := mkOsFaults false false false false None false false false "tmp".

Definition boot_env_with (sandbox runtime : string) : environ :=
  {["NOMADDEV_JWT_SECRET" := "0123456789abcdef0123456789abcdef!"; "NOMADDEV_MIDDLEWARE_RUNTIME" := runtime; "NOMADDEV_SANDBOX_RUNTIME" := sandbox]}.
Definition boot_env : string -> environ := boot_env_with "mock".

Definition boot_backends : backends (R := runner) (T := unit) (H := history_store) :=
  mkBackends tt (fun _ => Ok tt) (fun _ => Ok tt) (fun _ => Ok tt).

Definition boot (runtime : string) (w : wake) : world * (list bop * run_outcome) :=
  run (H := no_json) demo_unquote demo_decode boot_backends quiet_host boot_faults ∅ (boot_env runtime) "dev" boot_world w.

Lemma orchestrator_refuses_misconfiguration_witness :
  exists env' c, Load (H := no_json) boot_faults ∅ (boot_env_with "docker" "mock") = (env', Ok c) /\ sb_Runtime (cf_Sandbox c) = "docker" /\
    exists name tag digest, ParseImageRef (sb_Image (cf_Sandbox c)) = Ok (name, tag, digest).
Proof.
  destruct (orchestrator_refuses_misconfiguration (H := no_json) demo_unquote demo_decode boot_backends quiet_host boot_faults ∅ (boot_env_with "docker" "mock") "dev" boot_world RestartAsked)
    as (env' & c & Hl & _ & _ & _ & _ & Hd & _).
  - vm_compute. repeat first [left; reflexivity | right].
  - exists env', c. split; [exact Hl|]. assert (sb_Runtime (cf_Sandbox c) = "docker") as E; [|split; [exact E|]; destruct (Hd E) as (_ & _ & nm & tg & dg & Hp & _); by exists nm, tg, dg].
    assert ((Load (H := no_json) boot_faults ∅ (boot_env_with "docker" "mock")).2 = Ok c) as E2 by (by rewrite Hl).
    vm_compute in E2. injection E2 as <-. reflexivity.
Defined.

(** The same host refuses to start with an unknown sandbox runtime and starts
    with a known one. *)
Lemma unsound_sandboxes_are_refused :
  (run (H := no_json) demo_unquote demo_decode boot_backends quiet_host boot_faults ∅ (boot_env_with "podman" "mock") "dev" boot_world Signalled).2.2 = RunErr "sandbox" /\
  (boot "mock" RestartAsked).2.2 = RunRestart.
Proof. split; vm_compute; reflexivity. Qed.

(** The default audit sink is the standard error, and closing it closes that
    stream: the reason for a failed start is never printed. *)
Lemma startup_error_is_swallowed :
  (boot "openai" Signalled).2.2 = RunErr "middleware: middleware runtime is selected but its API key is empty" /\
  main (H := no_json) demo_unquote demo_decode boot_backends quiet_host boot_faults ∅ (boot_env "openai") "dev" boot_world Signalled = (1%Z, None).
Proof. split; vm_compute; reflexivity. Qed.

(** A misspelt revocation backend is a warning, and revocation is off. *)
Lemma misspelt_backend_disables_revocation h p t :
  buildRevocationList h (mkRevocationConfig "sqlite3" p t) = ([BWarn "auth: unknown revocation backend, disabling"], RevNoop).
Proof. reflexivity. Qed.
