(* ===== verification/WebAuthn.v ===== *)
(** * Security keys (internal/webauthn/, internal/wsserver/webauthn_handlers.go)

    The credential store, the cache of ceremonies in flight, the two ceremonies
    and the four HTTP handlers.  The go-webauthn library and the encoding of its
    session data are a record of functions ([library]); the clock, the random
    session tokens and the database's refusals are arguments. *)

From S2P Require Import Prelude GoString GoConv Event Auth GoNum Registry Config ConfigSpec ConfigApi AuthApi.

#[local] Open Scope Z_scope.

(** ** Credentials (store.go) *)

Record Credential := mkCred {
  cr_Sub : string;
  cr_ID : string;
  cr_PublicKey : string;
  cr_SignCount : Z;
  cr_Transport : string;
  cr_AttestType : string;
  cr_CreatedAt : option Z;                 (* seconds; the zero time is None *)
}.

(** auth.ScopeConnect *)
Definition ScopeConnect : string := "orchestrator:connect".

(** The table in insertion order; its primary key is (sub, credential id). *)
Definition same_key (sub id : string) (c : Credential) : bool := String.eqb (cr_Sub c) sub && String.eqb (cr_ID c) id.

Definition Insert (db : option string) (now : Z) (t : list Credential) (c : Credential) : list Credential * option string :=
  if String.eqb (cr_Sub c) "" || String.eqb (cr_ID c) "" then (t, Some "webauthn: Credential.Sub and ID required")
  else match db with
       | Some e => (t, Some ("webauthn: insert: " +:+ e))
       | None =>
           if existsb (same_key (cr_Sub c) (cr_ID c)) t then (t, Some "webauthn: insert: UNIQUE constraint failed")
           else (t ++ [mkCred (cr_Sub c) (cr_ID c) (cr_PublicKey c) (cr_SignCount c) (cr_Transport c) (cr_AttestType c) (Some (default now (cr_CreatedAt c)))], None)
       end.

Definition ListBySub (db : option string) (t : list Credential) (sub : string) : result string (list Credential) :=
  match db with Some e => Err e | None => Ok (List.filter (fun c => String.eqb (cr_Sub c) sub) t) end.

Definition GetByID (db : option string) (t : list Credential) (sub id : string) : result string (option Credential) :=
  match db with Some e => Err e | None => Ok (List.find (same_key sub id) t) end.

Definition UpdateSignCount (db : option string) (t : list Credential) (sub id : string) (count : Z) : list Credential * option string :=
  match db with
  | Some e => (t, Some e)
  | None => ((fun c => if same_key sub id c then mkCred (cr_Sub c) (cr_ID c) (cr_PublicKey c) count (cr_Transport c) (cr_AttestType c) (cr_CreatedAt c) else c) <$> t, None)
  end.

(** ** The user adapter *)

Record User := mkUser { u_Sub : string; u_DisplayName : string; u_Creds : list Credential }.

Fixpoint zeros (n : nat) : string := match n with O => "" | S n => String (ascii_of_nat 0) (zeros n) end.

(** Zero-padded or cut to 64 bytes. *)
Definition WebAuthnID (u : User) : string := str_take 64 (u_Sub u +:+ zeros 64).

Definition WebAuthnDisplayName (u : User) : string := if String.eqb (u_DisplayName u) "" then u_Sub u else u_DisplayName u.

Record waCredential := mkWa { wc_ID : string; wc_PublicKey : string; wc_AttestationType : string; wc_SignCount : Z }.

Definition WebAuthnCredentials (u : User) : list waCredential :=
  (fun c => mkWa (cr_ID c) (cr_PublicKey c) (cr_AttestType c) (cr_SignCount c)) <$> u_Creds u.

(** ** Ceremonies in flight *)

Record sessionData := mkSessionData { sd_UserID : string; sd_Data : string; sd_ExpiresAt : Z }.
Record SessionCache := mkCache { sc_data : gmap string sessionData; sc_ttl : Z }.

Definition NewSessionCache (ttl : Z) : SessionCache := mkCache ∅ (if ttl <=? 0 then 5 * Minute else ttl).

Definition prune (now : Z) (c : SessionCache) : SessionCache :=
  mkCache (filter (fun kv : string * sessionData => now <= sd_ExpiresAt kv.2) (sc_data c)) (sc_ttl c).

Definition Put (now : Z) (c : SessionCache) (token sub data : string) : SessionCache :=
  let c := prune now c in mkCache (<[token := mkSessionData sub data (now + sc_ttl c)]> (sc_data c)) (sc_ttl c).

Definition Take (now : Z) (c : SessionCache) (token : string) : SessionCache * option (string * string) :=
  let c := prune now c in
  match sc_data c !! token with
  | None => (c, None)
  | Some d => (mkCache (delete token (sc_data c)) (sc_ttl c), Some (sd_UserID d, sd_Data d))
  end.

(** ** The service (service.go) *)

Section service.
(** The library's session data, and a finish request's body. *)
Context {SD Body : Type}.

Record library := mkLibrary {
  lb_BeginRegistration : User -> result string (string * SD);
  lb_FinishRegistration : User -> SD -> Body -> result string waCredential;
  lb_BeginLogin : User -> result string (string * SD);
  lb_FinishLogin : User -> SD -> Body -> result string waCredential;
  lb_marshal : SD -> result string string;
  lb_unmarshal : string -> result string SD;
}.

Variable lib : library.

Record Service := mkWebAuthn { s_store : list Credential; s_sessions : SessionCache }.

(** [New]; [wa] is the library's constructor. *)
Definition New (has_store : bool) (wa : option string) (RPID : string) (origins : list string) (store : list Credential) : result string Service :=
  if negb has_store then Err "webauthn: store required"
  else if String.eqb RPID "" then Err "webauthn: RPID required"
  else if Nat.eqb (length origins) 0 then Err "webauthn: at least one origin required"
  else match wa with Some e => Err ("webauthn: " +:+ e) | None => Ok (mkWebAuthn store (NewSessionCache 0)) end.

(** What one call meets: the clock, the database at the call's read and write,
    the random token, and the encoding of the browser's options. *)
Record call_env := mkEnv {
  ce_now : Z;
  ce_read : option string;
  ce_write : option string;
  ce_token : result string string;
  ce_encode : option string;
}.

(** The shared end of both begin functions. *)
Definition begin_ceremony (e : call_env) (s : Service) (sub : string) (started : result string (string * SD)) (what : string) : Service * result string (string * string) :=
  match started with
  | Err x => (s, Err (what +:+ x))
  | Ok (options, sd) =>
      match lb_marshal lib sd, ce_token e with
      | Err x, _ => (s, Err x)
      | Ok _, Err x => (s, Err x)
      | Ok raw, Ok tok =>
          (mkWebAuthn (s_store s) (Put (ce_now e) (s_sessions s) tok sub raw),
           match ce_encode e with Some x => Err x | None => Ok (tok, options) end)
      end
  end.

Definition BeginRegistration (e : call_env) (s : Service) (sub displayName : string) : Service * result string (string * string) :=
  if String.eqb sub "" then (s, Err "webauthn: empty sub")
  else match ListBySub (ce_read e) (s_store s) sub with
       | Err x => (s, Err x)
       | Ok existing => begin_ceremony e s sub (lb_BeginRegistration lib (mkUser sub displayName existing)) "webauthn: begin registration: "
       end.

Definition FinishRegistration (e : call_env) (s : Service) (sessionToken : string) (body : Body) : Service * option string :=
  let '(cache, taken) := Take (ce_now e) (s_sessions s) sessionToken in
  let s := mkWebAuthn (s_store s) cache in
  match taken with
  | None => (s, Some "webauthn: unknown or expired session_token")
  | Some (sub, raw) =>
      match lb_unmarshal lib raw with
      | Err x => (s, Some ("webauthn: session restore: " +:+ x))
      | Ok session =>
          match ListBySub (ce_read e) (s_store s) sub with
          | Err x => (s, Some x)
          | Ok existing =>
              match lb_FinishRegistration lib (mkUser sub "" existing) session body with
              | Err x => (s, Some ("webauthn: finish registration: " +:+ x))
              | Ok cred =>
                  let '(t, err) := Insert (ce_write e) (ce_now e / Second) (s_store s)
                    (mkCred sub (wc_ID cred) (wc_PublicKey cred) (wc_SignCount cred) "" (wc_AttestationType cred) None) in
                  (mkWebAuthn t cache, err)
              end
          end
      end
  end.

Definition BeginLogin (e : call_env) (s : Service) (sub : string) : Service * result string (string * string) :=
  match ListBySub (ce_read e) (s_store s) sub with
  | Err x => (s, Err x)
  | Ok creds =>
      if Nat.eqb (length creds) 0 then (s, Err "webauthn: no credentials registered")
      else begin_ceremony e s sub (lb_BeginLogin lib (mkUser sub "" creds)) "webauthn: begin login: "
  end.

Definition FinishLogin (e : call_env) (s : Service) (sessionToken : string) (body : Body) : Service * result string string :=
  let '(cache, taken) := Take (ce_now e) (s_sessions s) sessionToken in
  let s := mkWebAuthn (s_store s) cache in
  match taken with
  | None => (s, Err "webauthn: unknown or expired session_token")
  | Some (sub, raw) =>
      match lb_unmarshal lib raw with
      | Err x => (s, Err ("webauthn: session restore: " +:+ x))
      | Ok session =>
          match ListBySub (ce_read e) (s_store s) sub with
          | Err x => (s, Err x)
          | Ok creds =>
              match lb_FinishLogin lib (mkUser sub "" creds) session body with
              | Err x => (s, Err ("webauthn: finish login: " +:+ x))
              | Ok cred =>
                  let '(t, err) := UpdateSignCount (ce_write e) (s_store s) sub (wc_ID cred) (wc_SignCount cred) in
                  (mkWebAuthn t cache, match err with Some x => Err x | None => Ok sub end)
              end
          end
      end
  end.

(** ** The handlers (webauthn_handlers.go) *)

Context {R : Type} `{RevocationList R}.
Variable ParseWithClaims : string -> string -> option Claims.
Variable SignedString : string -> Claims -> string.

#[local] Abbreviation no_token := (fun t => String.eqb t "").

Record wa_audit := mkWaAudit { wa_sub : string; wa_remote : string; wa_message : string }.

Record server := mkServer {
  sv_webauthn : option Service;
  sv_issuer : option IssuerSigner;
  sv_verifier : @Verifier R;
  sv_audit : list wa_audit;
}.

Record request := mkReq {
  rq_Method : string;
  rq_Authorization : string;
  rq_Remote : string;
  rq_session : string;                     (* X-WebAuthn-Session-Token *)
  rq_display : option string;              (* display_name of a body that decodes *)
  rq_sub : option string;                  (* sub of a body that decodes *)
  rq_body : Body;
}.

Inductive response :=
| WError (code : Z) (msg : string)
| WBegin (session_token options : string)
| WNoContent
| WTokens (access refresh : string) (accessTTL refreshTTL : Z) (sub : string).

Definition with_service (s : server) (w : Service) : server := mkServer (Some w) (sv_issuer s) (sv_verifier s) (sv_audit s).
Definition with_audit (s : server) (a : wa_audit) : server := mkServer (sv_webauthn s) (sv_issuer s) (sv_verifier s) (sv_audit s ++ [a]).

(** The checks in front of both registration handlers. *)
Definition registration_claims (s : server) (r : request) : result response (Service * Claims) :=
  match sv_webauthn s with
  | None => Err (WError 503 "webauthn not configured")
  | Some w =>
      if negb (String.eqb (rq_Method r) "POST") then Err (WError 405 "method not allowed")
      else
        let token := extractAccessToken (rq_Authorization r) in
        if String.eqb token "" then Err (WError 401 "missing token")
        else match ParseAccess no_token ParseWithClaims (sv_verifier s) token with
             | Err _ => Err (WError 401 "invalid token")
             | Ok claims => Ok (w, claims)
             end
  end.

Definition webauthnRegisterBeginHandler (e : call_env) (s : server) (r : request) : server * response :=
  match registration_claims s r with
  | Err resp => (s, resp)
  | Ok (w, claims) =>
      let '(w, res) := BeginRegistration e w (cl_sub claims) (default "" (rq_display r)) in
      (with_service s w, match res with Err x => WError 500 x | Ok (tok, opts) => WBegin tok opts end)
  end.

Definition webauthnRegisterFinishHandler (e : call_env) (s : server) (r : request) : server * response :=
  match registration_claims s r with
  | Err resp => (s, resp)
  | Ok (w, claims) =>
      if String.eqb (rq_session r) "" then (s, WError 400 "missing X-WebAuthn-Session-Token")
      else
        let '(w, err) := FinishRegistration e w (rq_session r) (rq_body r) in
        match err with
        | Some x => (with_service s w, WError 400 x)
        | None => (with_audit (with_service s w) (mkWaAudit (cl_sub claims) (rq_Remote r) "webauthn registration"), WNoContent)
        end
  end.

Definition webauthnLoginBeginHandler (e : call_env) (s : server) (r : request) : server * response :=
  match sv_webauthn s with
  | None => (s, WError 503 "webauthn not configured")
  | Some w =>
      if negb (String.eqb (rq_Method r) "POST") then (s, WError 405 "method not allowed")
      else
        let sub := default "" (rq_sub r) in
        if String.eqb sub "" then (s, WError 400 "request body must be {sub}")
        else
          let '(w, res) := BeginLogin e w sub in
          (with_service s w, match res with Err _ => WError 401 "no security key registered for that account" | Ok (tok, opts) => WBegin tok opts end)
  end.

(** [ids] are the minted token ids; [sign_fails]: the signing library refused. *)
Definition webauthnLoginFinishHandler (e : call_env) (ids : string * string) (sign_fails : bool) (s : server) (r : request) : server * response :=
  match sv_webauthn s, sv_issuer s with
  | Some w, Some issuer =>
      if negb (String.eqb (rq_Method r) "POST") then (s, WError 405 "method not allowed")
      else if String.eqb (rq_session r) "" then (s, WError 400 "missing X-WebAuthn-Session-Token")
      else
        let '(w, res) := FinishLogin e w (rq_session r) (rq_body r) in
        let s := with_service s w in
        match res with
        | Err _ => (s, WError 401 "authentication failed")
        | Ok sub =>
            if sign_fails then (s, WError 500 "internal error")
            else
              let now := ce_now e / Second in
              let access := SignAccess SignedString issuer now ids.1 sub ("sess-" +:+ sub) [ScopeConnect] in
              let refresh := SignRefresh SignedString issuer now ids.2 sub ("sess-" +:+ sub) [ScopeConnect] in
              (with_audit s (mkWaAudit sub (rq_Remote r) "webauthn login"), WTokens access refresh (accessTTL issuer) (refreshTTL issuer) sub)
        end
  | _, _ => (s, WError 503 "webauthn not configured")
  end.
End service.
Arguments mkEnv _ _ _ _ _ : clear implicits.

(** ** A ceremony is used once, within five minutes *)

Inductive cop := CPut (t : Z) (token sub data : string) | CTake (t : Z) (token : string).

Definition cop_time (o : cop) : Z := match o with CPut t _ _ _ | CTake t _ => t end.
Definition cop_put (o : cop) : option string := match o with CPut _ tok _ _ => Some tok | _ => None end.

Definition cache_step (c : SessionCache) (o : cop) : SessionCache :=
  match o with CPut t tok sub data => Put t c tok sub data | CTake t tok => (Take t c tok).1 end.

(** The token was put and neither used nor outlived since. *)
Definition in_flight (ttl : Z) (ops : list cop) (tok : string) (d : sessionData) : Prop :=
  exists pre t sub data post, ops = pre ++ CPut t tok sub data :: post /\ d = mkSessionData sub data (t + ttl) /\
    Forall (fun o => cop_time o <= t + ttl /\ forall t', o <> CTake t' tok) post.

Lemma snoc_split {A} (l : list A) o pre x post :
  l ++ [o] = pre ++ x :: post <-> (post = [] /\ o = x /\ l = pre) \/ exists post', post = post' ++ [o] /\ l = pre ++ x :: post'.
Proof.
  split.
  - intros H. destruct post as [|y post] using rev_ind.
    + apply app_inj_tail in H as [-> ->]. by left.
    + clear IHpost. rewrite app_comm_cons, app_assoc in H. apply app_inj_tail in H as [-> ->]. right. eauto.
  - intros [(-> & -> & ->)|(post' & -> & ->)]; [done|]. by rewrite <-app_assoc.
Qed.

Lemma prune_lookup now c tok d : sc_data (prune now c) !! tok = Some d <-> sc_data c !! tok = Some d /\ now <= sd_ExpiresAt d.
Proof. cbn. by rewrite map_lookup_filter_Some. Qed.

(** The cache holds exactly the ceremonies in flight. *)
Lemma cache_spec ttl ops tok d : NoDup (omap cop_put ops) ->
  sc_data (foldl cache_step (mkCache ∅ ttl) ops) !! tok = Some d <-> in_flight ttl ops tok d.
Proof.
  revert tok d. induction ops as [|o ops IH] using rev_ind; intros tok d Hn.
  { cbn. rewrite lookup_empty. split; [done|]. intros (pre & t & sub & data & post & H & _). by destruct pre. }
  rewrite omap_app in Hn. pose proof Hn as Hn0. apply NoDup_app in Hn0 as (Hn1 & Hn2 & _). rewrite foldl_app. cbn [foldl].
  set (c := foldl cache_step (mkCache ∅ ttl) ops) in *. assert (sc_ttl c = ttl) as Hc.
  { subst c. clear. induction ops as [|o ops IH] using rev_ind; [done|]. rewrite foldl_app. cbn [foldl]. destruct o; cbn; [done|].
    unfold Take. by case_match. }
  assert (in_flight ttl (ops ++ [o]) tok d <-> (exists t sub data, o = CPut t tok sub data /\ d = mkSessionData sub data (t + ttl)) \/
    (in_flight ttl ops tok d /\ cop_time o <= sd_ExpiresAt d /\ forall t', o <> CTake t' tok)) as ->.
  { unfold in_flight. split.
    - intros (pre & t & sub & data & post & H & -> & Hf). apply snoc_split in H as [(-> & -> & ->)|(post' & -> & ->)]; [left; eauto|].
      right. apply Forall_app in Hf as [Hf [[H1 H2] _]%Forall_cons]. split_and!; [eauto 10|done|done].
    - intros [(t & sub & data & -> & ->)|((pre & t & sub & data & post & -> & -> & Hf) & H1 & H2)].
      + exists ops, t, sub, data, []. split_and!; [done|done|constructor].
      + exists pre, t, sub, data, (post ++ [o]). split_and!; [by rewrite <-app_assoc|done|]. apply Forall_app. split; [done|]. by constructor. }
  destruct o as [t tok' sub data|t tok']; cbn [cache_step cop_time].
  - unfold Put. cbn [sc_data sc_ttl prune]. rewrite Hc, lookup_insert_Some. fold (prune t c). rewrite (prune_lookup t c), IH by done.
    split; [intros [[<- <-]|[Hne [H1 H2]]]; [left; eauto|right; split_and!; [done|done|done]]|].
    intros [(t0 & s0 & d0 & [= -> -> -> ->] & ->)|(H1 & H2 & _)]; [by left|]. right. split; [|done]. intros ->.
    destruct H1 as (pre & t1 & s1 & d1 & post & -> & _). apply (Hn2 tok); [|by left]. rewrite omap_app. apply elem_of_app. right. by left.
  - unfold Take. pose proof (prune_lookup t c) as Hp. destruct (sc_data (prune t c) !! tok') as [d'|] eqn:E; cbn [fst sc_data].
    + rewrite lookup_delete_Some. rewrite Hp, IH by done. split; [intros (Hne & H1 & H2); right; split_and!; [done|done|congruence]|].
      intros [(? & ? & ? & ? & _)|(H1 & H2 & H3)]; [done|]. split; [|done]. intros ->. by destruct (H3 t).
    + rewrite Hp, IH by done. split; [intros [H1 H2]; right; split_and!; try done; intros t' [= <- ->]|].
      * apply IH in H1; [|done]. assert (sc_data (prune t c) !! tok = Some d) by (by apply Hp). congruence.
      * intros [(? & ? & ? & ? & _)|(H1 & H2 & H3)]; [done|done].
Qed.

(** ** Sequences of requests *)

Section traces.
Context {SD Body R : Type} `{RevocationList R}.
Variable lib : library (SD := SD) (Body := Body).
Variable ParseWithClaims : string -> string -> option Claims.
Variable SignedString : string -> Claims -> string.

#[local] Abbreviation srv := (server (R := R)).
#[local] Abbreviation req := (request (Body := Body)).
#[local] Abbreviation finish_login := (webauthnLoginFinishHandler lib SignedString).

Inductive hcall :=
| HRegBegin (e : call_env) (r : req)
| HRegFinish (e : call_env) (r : req)
| HLoginBegin (e : call_env) (r : req)
| HLoginFinish (e : call_env) (ids : string * string) (sign_fails : bool) (r : req).

Definition hstep (s : srv) (c : hcall) : srv * response :=
  match c with
  | HRegBegin e r => webauthnRegisterBeginHandler lib ParseWithClaims e s r
  | HRegFinish e r => webauthnRegisterFinishHandler lib ParseWithClaims e s r
  | HLoginBegin e r => webauthnLoginBeginHandler lib e s r
  | HLoginFinish e ids sf r => finish_login e ids sf s r
  end.

Definition serve_all (s : srv) (l : list hcall) : srv := foldl (fun s c => (hstep s c).1) s l.

Definition call_env_of (c : hcall) : call_env := match c with HRegBegin e _ | HRegFinish e _ | HLoginBegin e _ | HLoginFinish e _ _ _ => e end.

(** The token a begin request would be given. *)
Definition call_token (c : hcall) : option string :=
  match c with HRegBegin e _ | HLoginBegin e _ => match ce_token e with Ok t => Some t | Err _ => None end | _ => None end.

(** Whom a begin request is for: the bearer of the access token, or the subject
    named in the body. *)
Definition call_subject (s : srv) (c : hcall) : option string :=
  match c with
  | HRegBegin _ r => match registration_claims ParseWithClaims s r with Ok (_, claims) => Some (cl_sub claims) | Err _ => None end
  | HLoginBegin _ r => rq_sub r
  | _ => None
  end.

(** The library's session data (the challenge) that a begin request starts. *)
Definition call_challenge (s : srv) (c : hcall) : option SD :=
  let begun res := match res with Ok (_, sd) => Some sd | Err _ => None end : option SD in
  match c with
  | HRegBegin e r =>
      match registration_claims ParseWithClaims s r with
      | Ok (w, claims) => match ListBySub (ce_read e) (s_store w) (cl_sub claims) with
                          | Ok l => begun (lb_BeginRegistration lib (mkUser (cl_sub claims) (default "" (rq_display r)) l))
                          | Err _ => None end
      | Err _ => None end
  | HLoginBegin e r =>
      match sv_webauthn s, rq_sub r with
      | Some w, Some sub => match ListBySub (ce_read e) (s_store w) sub with
                            | Ok l => begun (lb_BeginLogin lib (mkUser sub "" l))
                            | Err _ => None end
      | _, _ => None end
  | _ => None
  end.

(** A begin request was for this subject and keeps the data [raw] of its
    challenge under this token. *)
Definition begins (s : srv) (c : hcall) (tok sub raw : string) : Prop :=
  call_token c = Some tok /\ call_subject s c = Some sub /\ exists sd, call_challenge s c = Some sd /\ lb_marshal lib sd = Ok raw.

Definition cache (s : srv) : SessionCache := match sv_webauthn s with Some w => s_sessions w | None => mkCache ∅ 0 end.

Lemma begin_cache e s sub started what : let s' := (begin_ceremony lib e s sub started what).1 in
  s_sessions s' = s_sessions s \/ exists tok opts sd raw, ce_token e = Ok tok /\ started = Ok (opts, sd) /\ lb_marshal lib sd = Ok raw /\
    s_sessions s' = cache_step (s_sessions s) (CPut (ce_now e) tok sub raw).
Proof.
  unfold begin_ceremony. destruct started as [[opts sd]|]; [|by left]. destruct (lb_marshal lib sd) as [raw|] eqn:Em; [|by left].
  destruct (ce_token e) as [tok|]; [|by left]. right. by exists tok, opts, sd, raw.
Qed.

Lemma take_cache e w tok body :
  s_sessions (FinishRegistration lib e w tok body).1 = cache_step (s_sessions w) (CTake (ce_now e) tok) /\
  s_sessions (FinishLogin lib e w tok body).1 = cache_step (s_sessions w) (CTake (ce_now e) tok).
Proof.
  unfold FinishRegistration, FinishLogin. cbn [cache_step]. destruct (Take (ce_now e) (s_sessions w) tok) as [c [[sub raw]|]]; [|done]. cbn [fst].
  destruct (lb_unmarshal lib raw) as [sd|]; [|done]. destruct (ListBySub _ _ _) as [l|]; [|done].
  split; [destruct (lb_FinishRegistration _ _ _ _); [|done]; by destruct (Insert _ _ _ _)|].
  destruct (lb_FinishLogin _ _ _ _); [|done]. by destruct (UpdateSignCount _ _ _ _ _).
Qed.

(** A request touches the cache at most once. *)
Lemma hstep_cache s c : sv_webauthn s <> None -> sv_webauthn (hstep s c).1 <> None /\
  (cache (hstep s c).1 = cache s \/
   (exists tok sub raw, begins s c tok sub raw /\ cache (hstep s c).1 = cache_step (cache s) (CPut (ce_now (call_env_of c)) tok sub raw)) \/
   exists tok, cache (hstep s c).1 = cache_step (cache s) (CTake (ce_now (call_env_of c)) tok)).
Proof.
  intros Hw. unfold cache, begins. destruct (sv_webauthn s) as [w|] eqn:Ew; [clear Hw|done].
  assert (forall r : req, match registration_claims ParseWithClaims s r with Ok (w', _) => w' = w | Err _ => True end) as Hcl
    by (intros r; unfold registration_claims; rewrite Ew; repeat case_match; by simplify_eq).
  destruct c as [e r|e r|e r|e ids sf r]; cbn [hstep call_token call_subject call_env_of call_challenge].
  - unfold webauthnRegisterBeginHandler. specialize (Hcl r). destruct (registration_claims _ s r) as [[w' claims]|]; [subst w'|cbn; rewrite Ew; auto].
    unfold BeginRegistration. destruct (String.eqb _ ""); [cbn; auto|]. destruct (ListBySub _ _ _) as [l|] eqn:El; [|cbn; auto].
    pose proof (begin_cache e w (cl_sub claims) (lb_BeginRegistration lib (mkUser (cl_sub claims) (default "" (rq_display r)) l)) "webauthn: begin registration: ") as Hb.
    destruct (begin_ceremony _ _ _ _ _ _) as [w' res]. cbn in *. split; [done|]. destruct Hb as [|(tok & opts & sd & raw & -> & Hst & Hm & Hb)]; [auto|].
    right; left. rewrite Hst. eauto 12.
  - unfold webauthnRegisterFinishHandler. specialize (Hcl r). destruct (registration_claims _ s r) as [[w' claims]|]; [subst w'|cbn; rewrite Ew; auto].
    destruct (String.eqb _ ""); [cbn; rewrite Ew; auto|]. pose proof (proj1 (take_cache e w (rq_session r) (rq_body r))) as Ht.
    destruct (FinishRegistration _ _ _ _ _) as [w' err]. cbn in Ht. destruct err; cbn; (split; [done|]); right; right; eauto.
  - unfold webauthnLoginBeginHandler. rewrite Ew. destruct (negb _); [cbn; rewrite Ew; auto|]. destruct (rq_sub r) as [sub|]; cbn [default id]; [|cbn; rewrite Ew; auto].
    destruct (String.eqb sub ""); [cbn; rewrite Ew; auto|]. unfold BeginLogin. destruct (ListBySub _ _ _) as [l|] eqn:El; [|cbn; auto].
    destruct (Nat.eqb _ _); [cbn; auto|].
    pose proof (begin_cache e w sub (lb_BeginLogin lib (mkUser sub "" l)) "webauthn: begin login: ") as Hb.
    destruct (begin_ceremony _ _ _ _ _ _) as [w' res]. cbn in *. split; [done|]. destruct Hb as [|(tok & opts & sd & raw & -> & Hst & Hm & Hb)]; [auto|].
    right; left. exists tok, sub, raw. rewrite Hst. eauto 12.
  - unfold webauthnLoginFinishHandler. rewrite Ew. destruct (sv_issuer s); [|cbn; rewrite Ew; auto]. destruct (negb _); [cbn; rewrite Ew; auto|].
    destruct (String.eqb _ ""); [cbn; rewrite Ew; auto|]. pose proof (proj2 (take_cache e w (rq_session r) (rq_body r))) as Ht.
    destruct (FinishLogin _ _ _ _ _) as [w' res]. cbn in Ht. destruct res; [destruct sf|]; cbn; (split; [done|]); right; right; eauto.
Qed.

(** The cache after a sequence is that of cache operations, each insertion of
    which is one of the begin requests. *)
Lemma trace_ops s l : sv_webauthn s <> None -> sv_webauthn (serve_all s l) <> None /\ exists ops,
  cache (serve_all s l) = foldl cache_step (cache s) ops /\ omap cop_put ops `sublist_of` omap call_token l /\
  forall t tok sub raw, In (CPut t tok sub raw) ops -> exists pre c post, l = pre ++ c :: post /\ begins (serve_all s pre) c tok sub raw /\ t = ce_now (call_env_of c).
Proof.
  intros Hw. induction l as [|c l IH] using rev_ind; [split; [done|]; by exists []|]. destruct IH as [Hw' (ops & Hc & Hs & Hp)].
  unfold serve_all in *. rewrite foldl_app. cbn [foldl]. destruct (hstep_cache _ c Hw') as [Hw2 Hk]. split; [done|]. rewrite omap_app.
  assert (forall t tok sub raw, In (CPut t tok sub raw) ops -> exists pre c0 post, l ++ [c] = pre ++ c0 :: post /\
    begins (foldl (fun s c => (hstep s c).1) s pre) c0 tok sub raw /\ t = ce_now (call_env_of c0)) as Hold.
  { intros t tok sub raw Hin. destruct (Hp t tok sub raw Hin) as (pre & c0 & post & -> & H1 & H2). exists pre, c0, (post ++ [c]). by rewrite <-app_assoc. }
  destruct Hk as [Hk|[(tok & sub & raw & Hbg & Hk)|(tok & Hk)]].
  - exists ops. split_and!; [congruence| |done]. etransitivity; [exact Hs|]. by apply sublist_inserts_r.
  - exists (ops ++ [CPut (ce_now (call_env_of c)) tok sub raw]). rewrite foldl_app, Hk, Hc, omap_app. split_and!; [done| |].
    + apply sublist_app; [done|]. cbn. by rewrite (proj1 Hbg).
    + intros t tok0 sub0 raw0 Hin. apply in_app_iff in Hin as [Hin|[[= <- <- <- <-]|[]]]; [by apply (Hold _ _ _ raw0)|]. exists l, c, []. auto.
  - exists (ops ++ [CTake (ce_now (call_env_of c)) tok]). rewrite foldl_app, Hk, Hc, omap_app. split_and!; [done| |].
    + cbn. rewrite app_nil_r. etransitivity; [exact Hs|]. by apply sublist_inserts_r.
    + intros t tok0 sub0 raw0 Hin. apply in_app_iff in Hin as [Hin|[Hin|[]]]; [by apply (Hold _ _ _ raw0)|done].
Qed.

(** Documented behaviour of the library: a login it accepts is answered with one
    of the credentials of the user it was given. *)
Definition library_sound : Prop :=
  forall u sd body cred, lb_FinishLogin lib u sd body = Ok cred -> exists c, c ∈ u_Creds u /\ cr_ID c = wc_ID cred.

Definition store_of (s : srv) : list Credential := match sv_webauthn s with Some w => s_store w | None => [] end.

Lemma finish_login_inv e ids sf s r s' a rf t1 t2 sub : finish_login e ids sf s r = (s', WTokens a rf t1 t2 sub) ->
  exists w issuer raw sd cred, sv_webauthn s = Some w /\ sv_issuer s = Some issuer /\ (Take (ce_now e) (s_sessions w) (rq_session r)).2 = Some (sub, raw) /\
    lb_unmarshal lib raw = Ok sd /\ lb_FinishLogin lib (mkUser sub "" (List.filter (fun c => String.eqb (cr_Sub c) sub) (s_store w))) sd (rq_body r) = Ok cred /\
    cache s' = (Take (ce_now e) (s_sessions w) (rq_session r)).1 /\
    a = SignAccess SignedString issuer (ce_now e / Second) ids.1 sub ("sess-" +:+ sub) [ScopeConnect] /\
    rf = SignRefresh SignedString issuer (ce_now e / Second) ids.2 sub ("sess-" +:+ sub) [ScopeConnect].
Proof.
  unfold webauthnLoginFinishHandler. destruct (sv_webauthn s) as [w|]; [|done]. destruct (sv_issuer s) as [issuer|]; [|done].
  destruct (negb _); [done|]. destruct (String.eqb _ ""); [done|]. unfold FinishLogin.
  destruct (Take (ce_now e) (s_sessions w) (rq_session r)) as [c [[sub' raw]|]] eqn:Etk; [|done]. destruct (lb_unmarshal lib raw) as [sd|] eqn:Eu; [|done].
  unfold ListBySub. destruct (ce_read e); [done|]. cbn [s_store]. destruct (lb_FinishLogin _ _ _ _) as [cred|] eqn:Ef; [|done].
  unfold UpdateSignCount. destruct (ce_write e); [done|]. cbn. destruct sf; [done|]. intros [= <- <- <- <- <- <-].
  exists w, issuer, raw, sd, cred. rewrite Etk. by split_and!.
Qed.

(** C12: A security-key login is earned.  In any sequence of requests to the four endpoints, starting with no ceremony in flight and with session tokens that do not repeat, a login that hands out tokens for a subject was preceded, by at most five minutes, by a begin request (of a login, or of a registration: the two share their session tokens) for that same subject that was given the presented session token; the library's FinishLogin was called with the session data of that very begin request, the keys stored for that subject and the body of this request, and accepted it; the credential it accepted is, if it answers only with credentials of the user it is given, one of the subject's stored keys; the tokens carry only the connect scope and the subject's own session; and the session token is spent. *)
Theorem key_login_is_earned s0 calls e ids sf r s' a rf t1 t2 sub :
  library_sound -> cache s0 = NewSessionCache 0 -> sv_webauthn s0 <> None -> NoDup (omap call_token calls) ->
  finish_login e ids sf (serve_all s0 calls) r = (s', WTokens a rf t1 t2 sub) ->
  (exists pre c post raw sd cred k, calls = pre ++ c :: post /\ begins (serve_all s0 pre) c (rq_session r) sub raw /\
     ce_now e <= ce_now (call_env_of c) + 5 * Minute /\ lb_unmarshal lib raw = Ok sd /\
     lb_FinishLogin lib (mkUser sub "" (List.filter (fun k => String.eqb (cr_Sub k) sub) (store_of (serve_all s0 calls)))) sd (rq_body r) = Ok cred /\
     k ∈ store_of (serve_all s0 calls) /\ cr_Sub k = sub /\ cr_ID k = wc_ID cred) /\
  (exists issuer, a = SignAccess SignedString issuer (ce_now e / Second) ids.1 sub ("sess-" +:+ sub) [ScopeConnect] /\
     rf = SignRefresh SignedString issuer (ce_now e / Second) ids.2 sub ("sess-" +:+ sub) [ScopeConnect]) /\
  forall now, (Take now (cache s') (rq_session r)).2 = None.
Proof.
  intros Hlib H0 Hw Hnd Hf. destruct (finish_login_inv _ _ _ _ _ _ _ _ _ _ _ Hf) as (w & issuer & raw & sd & cred & Ew & _ & Ht & Hu & Hl & Hc & Ha & Hr).
  destruct (trace_ops s0 calls Hw) as [_ (ops & Hops & Hsub & Hin)]. rewrite H0 in Hops. cbn [NewSessionCache Z.leb Z.compare] in Hops.
  assert (NoDup (omap cop_put ops)) as Hnd' by (by eapply sublist_NoDup). unfold cache in Hops. rewrite Ew in Hops.
  pose proof (cache_spec (5 * Minute) ops (rq_session r)) as Hspec. unfold NewSessionCache in Hops. change (0 <=? 0) with true in Hops. rewrite <-Hops in Hspec.
  unfold Take in Ht, Hc. pose proof (prune_lookup (ce_now e) (s_sessions w) (rq_session r)) as Hp.
  destruct (sc_data (prune (ce_now e) (s_sessions w)) !! rq_session r) as [d|] eqn:Ed; [|done]. cbn in Ht, Hc. injection Ht as Hd1 Hd2.
  destruct (proj1 (Hp d) eq_refl) as [Hlk Hexp]. apply Hspec in Hlk as (opre & t & sub' & data & opost & Ho & -> & _); [|done]. cbn in Hd1, Hd2, Hexp. subst sub' data.
  split_and!.
  - destruct (Hin t (rq_session r) sub raw) as (pre & c & post & -> & H1 & ->); [rewrite Ho; apply in_app_iff; right; by left|].
    destruct (Hlib _ _ _ _ Hl) as (k & Hk & Hid). cbn in Hk. apply list_elem_of_In, filter_In in Hk as [Hk1 Hk2].
    exists pre, c, post, raw, sd, cred, k. unfold store_of. rewrite Ew. split_and!; try done; [by apply list_elem_of_In|by apply String.eqb_eq].
  - eauto.
  - intros now. unfold Take. rewrite Hc. assert (sc_data (prune now (mkCache (delete (rq_session r) (sc_data (prune (ce_now e) (s_sessions w)))) (sc_ttl (s_sessions w)))) !! rq_session r = None) as Hn.
    { apply eq_None_not_Some. intros [d' Hd']. apply prune_lookup in Hd' as [Hd' _]. cbn [sc_data] in Hd'. by rewrite lookup_delete_eq in Hd'. }
    cbn [sc_data sc_ttl prune] in *. by rewrite Hn.
Qed.

(** ** The stored keys *)

Definition keys (t : list Credential) : list (string * string) := (fun c => (cr_Sub c, cr_ID c)) <$> t.

Lemma Insert_keys db now t c : keys (Insert db now t c).1 = keys t \/
  ((cr_Sub c, cr_ID c) ∉ keys t /\ keys (Insert db now t c).1 = keys t ++ [(cr_Sub c, cr_ID c)]).
Proof.
  unfold Insert. destruct (_ || _); [by left|]. destruct db; [by left|]. destruct (existsb _ t) eqn:E; [by left|]. right. split.
  - intros Hin. unfold keys in Hin. apply list_elem_of_fmap in Hin as (k & Hk & Hin). apply not_true_iff_false in E. apply E, existsb_exists. exists k.
    rewrite <-list_elem_of_In. split; [done|]. unfold same_key. injection Hk as -> ->. by rewrite !String.eqb_refl.
  - cbn [fst]. unfold keys. by rewrite fmap_app.
Qed.

Lemma Update_keys db t sub id n : keys (UpdateSignCount db t sub id n).1 = keys t.
Proof. unfold UpdateSignCount. destruct db; [done|]. unfold keys. cbn. rewrite <-list_fmap_compose. apply list_fmap_ext. intros ? c _. cbn. by destruct (same_key sub id c). Qed.

Lemma begin_store e s sub started what : s_store (begin_ceremony lib e s sub started what).1 = s_store s.
Proof. unfold begin_ceremony. repeat case_match; done. Qed.

Lemma finish_registration_keys e w tok body : keys (s_store (FinishRegistration lib e w tok body).1) = keys (s_store w) \/
  exists k, k ∉ keys (s_store w) /\ keys (s_store (FinishRegistration lib e w tok body).1) = keys (s_store w) ++ [k].
Proof.
  unfold FinishRegistration. destruct (Take _ _ _) as [c [[sub raw]|]]; [|by left]. destruct (lb_unmarshal lib raw) as [sd|]; [|by left].
      destruct (ListBySub _ _ _) as [l|]; [|by left]. destruct (lb_FinishRegistration _ _ _ _) as [cred|]; [|by left]. cbn [s_store].
      pose proof (Insert_keys (ce_write e) (ce_now e / Second) (s_store w) (mkCred sub (wc_ID cred) (wc_PublicKey cred) (wc_SignCount cred) "" (wc_AttestationType cred) None)) as Hi.
      destruct (Insert _ _ _ _) as [t err]. cbn in *. destruct Hi as [|[H1 H2]]; eauto.
Qed.

Lemma finish_login_keys e w tok body : keys (s_store (FinishLogin lib e w tok body).1) = keys (s_store w).
Proof.
  unfold FinishLogin. destruct (Take _ _ _) as [c [[sub raw]|]]; [|done]. destruct (lb_unmarshal lib raw) as [sd|]; [|done].
      destruct (ListBySub _ _ _) as [l|]; [|done]. destruct (lb_FinishLogin _ _ _ _) as [cred|]; [|done]. cbn [s_store].
      pose proof (Update_keys (ce_write e) (s_store w) sub (wc_ID cred) (wc_SignCount cred)) as Hi. by destruct (UpdateSignCount _ _ _ _ _).
Qed.

(** A stored key is identified by its subject and id, no request changes that,
    and the only request that stores one is the end of a registration by the
    bearer of a valid access token. *)
Theorem keys_are_stored_by_registration s c : sv_webauthn s <> None -> NoDup (keys (store_of s)) ->
  NoDup (keys (store_of (hstep s c).1)) /\
  (keys (store_of (hstep s c).1) = keys (store_of s) \/
   exists e r w claims k, c = HRegFinish e r /\ registration_claims ParseWithClaims s r = Ok (w, claims) /\ keys (store_of (hstep s c).1) = keys (store_of s) ++ [k]).
Proof.
  intros Hw Hnd. unfold store_of in *. destruct (sv_webauthn s) as [w|] eqn:Ew; [clear Hw|done].
  assert (forall r : req, match registration_claims ParseWithClaims s r with Ok (w', _) => w' = w | Err _ => True end) as Hcl
    by (intros r; unfold registration_claims; rewrite Ew; repeat case_match; by simplify_eq).
  destruct c as [e r|e r|e r|e ids sf r]; cbn [hstep].
  - unfold webauthnRegisterBeginHandler. specialize (Hcl r). destruct (registration_claims _ s r) as [[w' claims]|]; [subst w'|cbn; rewrite Ew; auto].
    unfold BeginRegistration. destruct (String.eqb _ ""); [cbn; auto|]. destruct (ListBySub _ _ _) as [l|]; [|cbn; auto].
    pose proof (begin_store e w (cl_sub claims) (lb_BeginRegistration lib (mkUser (cl_sub claims) (default "" (rq_display r)) l)) "webauthn: begin registration: ") as Hb.
    destruct (begin_ceremony _ _ _ _ _ _) as [w' res]. cbn in *. rewrite Hb. auto.
  - unfold webauthnRegisterFinishHandler. pose proof (Hcl r) as Hr. destruct (registration_claims _ s r) as [[w' claims]|] eqn:Er; [subst w'|cbn; rewrite Ew; auto].
    destruct (String.eqb _ ""); [cbn; rewrite Ew; auto|].
    pose proof (finish_registration_keys e w (rq_session r) (rq_body r)) as Hk.
    destruct (FinishRegistration lib e w (rq_session r) (rq_body r)) as [w' err]. cbn [fst] in Hk.
    assert (forall s' : srv, sv_webauthn s' = Some w' -> NoDup (keys (match sv_webauthn s' with Some w => s_store w | None => [] end)) /\
      (keys (match sv_webauthn s' with Some w => s_store w | None => [] end) = keys (s_store w) \/ exists e0 r0 w0 claims0 k, HRegFinish e r = HRegFinish e0 r0 /\
        registration_claims ParseWithClaims s r0 = Ok (w0, claims0) /\ keys (match sv_webauthn s' with Some w => s_store w | None => [] end) = keys (s_store w) ++ [k])) as Hgoal.
    { intros s' ->. destruct Hk as [->|(k & Hni & ->)]; [auto|]. split; [|right; exists e, r, w, claims, k; auto].
      apply NoDup_app. split_and!; [done| |apply NoDup_singleton]. intros x Hx ->%list_elem_of_singleton. done. }
    destruct err; by apply Hgoal.
  - unfold webauthnLoginBeginHandler. rewrite Ew. destruct (negb _); [cbn; rewrite Ew; auto|]. destruct (String.eqb _ ""); [cbn; rewrite Ew; auto|].
    unfold BeginLogin. destruct (ListBySub _ _ _) as [l|]; [|cbn; auto]. destruct (Nat.eqb _ _); [cbn; auto|].
    pose proof (begin_store e w (default "" (rq_sub r)) (lb_BeginLogin lib (mkUser (default "" (rq_sub r)) "" l)) "webauthn: begin login: ") as Hb.
    destruct (begin_ceremony _ _ _ _ _ _) as [w' res]. cbn in *. rewrite Hb. auto.
  - unfold webauthnLoginFinishHandler. rewrite Ew. destruct (sv_issuer s); [|cbn; rewrite Ew; auto]. destruct (negb _); [cbn; rewrite Ew; auto|].
    destruct (String.eqb _ ""); [cbn; rewrite Ew; auto|].
    pose proof (finish_login_keys e w (rq_session r) (rq_body r)) as Hk.
    destruct (FinishLogin _ _ _ _ _) as [w' res]. cbn [fst] in Hk. destruct res; [destruct sf|]; cbn [fst with_service with_audit sv_webauthn]; rewrite Hk; auto.
Qed.
End traces.

(** ** On a small library *)

(** Sessions are the user handle they were begun for; a body is the credential
    that answered.  A registration is accepted for the session's user; a login
    also needs the credential among the user's own. *)
Definition toy_library : library (SD := string) (Body := waCredential) := {|
  lb_BeginRegistration u := Ok ("create", WebAuthnID u);
  lb_FinishRegistration u sd body := if String.eqb sd (WebAuthnID u) then Ok body else Err "user mismatch";
  lb_BeginLogin u := Ok ("get", WebAuthnID u);
  lb_FinishLogin u sd body :=
    if String.eqb sd (WebAuthnID u) && existsb (fun c => String.eqb (cr_ID c) (wc_ID body) && String.eqb (cr_PublicKey c) (wc_PublicKey body)) (u_Creds u)
    then Ok body else Err "no such credential";
  lb_marshal sd := Ok sd;
  lb_unmarshal raw := Ok raw;
|}.

Lemma toy_library_sound : library_sound toy_library.
Proof.
  intros u sd body cred Hl. cbn in Hl. destruct (String.eqb sd (WebAuthnID u)); [|done]. cbn [andb] in Hl. destruct (existsb _ _) eqn:E; [|done].
  injection Hl as <-. apply existsb_exists in E as (c & Hc & [Hi _]%andb_true_iff). exists c. split; [by apply list_elem_of_In|by apply String.eqb_eq].
Qed.

Definition toy_parse (_ t : string) : option Claims :=
  if String.eqb t "mallory-token" then Some (mkClaims "mallory" "sess-m" ["orchestrator:connect"] KindAccess "nomaddev" 0 0 3600 "j1") else None.
Definition toy_sign (_ : string) (c : Claims) : string := "jwt:" +:+ cl_sub c.

Definition alice_key : Credential := mkCred "alice" "ka" "pub-a" 7 "" "none" (Some 0).
Definition toy_server : server (R := MemoryRevocationList) :=
  mkServer (Some (mkWebAuthn [alice_key] (NewSessionCache 0))) (Some (mkIssuer "s" 3600 86400)) (mkVerifier ["s"] (mkMemRev ∅)) [].

Definition toy_env (now : Z) (tok : string) : call_env := mkEnv now None None (Ok tok) None.
Definition login_begin (tok sub : string) : hcall := HLoginBegin (toy_env 0 tok) (mkReq "POST" "" "h" "" None (Some sub) (mkWa "" "" "" 0)).
Definition finish_with (tok auth : string) (k : waCredential) : request := mkReq "POST" auth "h" tok None None k.

Definition mallory_key : waCredential := mkWa "km" "pub-m" "none" 0.

Lemma key_login_is_earned_witness :
  exists pre c post raw sd cred k, [login_begin "t1" "alice"] = pre ++ c :: post /\
    begins toy_library toy_parse (serve_all toy_library toy_parse toy_sign toy_server pre) c "t1" "alice" raw /\
    60 * Second <= ce_now (call_env_of c) + 5 * Minute /\ lb_unmarshal toy_library raw = Ok sd /\
    lb_FinishLogin toy_library (mkUser "alice" "" [alice_key]) sd (mkWa "ka" "pub-a" "none" 8) = Ok cred /\
    k ∈ [alice_key] /\ cr_Sub k = "alice" /\ cr_ID k = wc_ID cred.
Proof.
  refine (proj1 (key_login_is_earned toy_library toy_parse toy_sign toy_server [login_begin "t1" "alice"] (toy_env (60 * Second) "") ("i1", "i2") false
    (finish_with "t1" "" (mkWa "ka" "pub-a" "none" 8)) _ "jwt:alice" "jwt:alice" 3600 86400 "alice" toy_library_sound eq_refl _ _ _)).
  - done.
  - apply (bool_decide_unpack _). vm_compute. exact I.
  - vm_compute. reflexivity.
Defined.

(** The ceremony cache does not tell registrations from logins, and finishing a
    registration does not compare the ceremony's subject with the bearer: with
    the token of an unauthenticated login begin for another subject, any user
    registers a key of their own for that subject, and then logs in as it. *)
Lemma foreign_key_registered_for_another_subject :
  let s1 := serve_all toy_library toy_parse toy_sign toy_server
              [login_begin "t1" "alice"; HRegFinish (toy_env 1 "") (finish_with "t1" "Bearer mallory-token" mallory_key); login_begin "t2" "alice"] in
  (cr_Sub <$> store_of s1) = ["alice"; "alice"] /\ (cr_PublicKey <$> store_of s1) = ["pub-a"; "pub-m"] /\ sv_audit s1 = [mkWaAudit "mallory" "h" "webauthn registration"] /\
  (webauthnLoginFinishHandler toy_library toy_sign (toy_env 2 "") ("i1", "i2") false s1 (finish_with "t2" "" mallory_key)).2 =
    WTokens "jwt:alice" "jwt:alice" 3600 86400 "alice".
Proof. vm_compute. auto. Qed.

(** The stored counter follows whatever the last login reported, downwards too. *)
Lemma sign_count_can_decrease :
  (fun c => cr_SignCount c) <$> (UpdateSignCount None [alice_key] "alice" "ka" 3).1 = [3].
Proof. reflexivity. Qed.

(** Subjects that agree on their first 64 bytes have the same user handle. *)
Lemma user_handles_collide (p a b : string) : String.length p = 64%nat -> WebAuthnID (mkUser (p +:+ a) "" []) = WebAuthnID (mkUser (p +:+ b) "" []).
Proof. intros Hp. unfold WebAuthnID. cbn [u_Sub]. rewrite <-!str_app_assoc, <-Hp, !str_take_app_length. done. Qed.
