(* ===== verification/Base64.v ===== *)
(** * base64.StdEncoding

    Images travel in this encoding: the client encodes, the server decodes
    (internal/wsserver/images.go), and the translators do both. *)

From Stdlib Require Import ZifyNat.
From S2P Require Import Prelude GoString.

Definition b64_table : string := "ABCDEFGHIJKLMNOPQRSTUVWXYZabcdefghijklmnopqrstuvwxyz0123456789+/".

Definition b64_digit (n : nat) : ascii := default "A"%char (String.get n b64_table).

Fixpoint index_of (c : ascii) (s : string) : option nat :=
  match s with
  | EmptyString => None
  | String d s => if Ascii.eqb c d then Some 0 else S <$> index_of c s
  end.

Definition b64_value (c : ascii) : option nat := index_of c b64_table.

Abbreviation pad := "="%char.

(** [EncodeToString] *)
Fixpoint b64_encode (s : string) : string :=
  match s with
  | EmptyString => ""
  | String a EmptyString =>
      let a := nat_of_ascii a in
      String (b64_digit (a / 4)) (String (b64_digit (a mod 4 * 16)) (String pad (String pad "")))
  | String a (String b EmptyString) =>
      let a := nat_of_ascii a in let b := nat_of_ascii b in
      String (b64_digit (a / 4)) (String (b64_digit (a mod 4 * 16 + b / 16)) (String (b64_digit (b mod 16 * 4)) (String pad "")))
  | String a (String b (String c rest)) =>
      let a := nat_of_ascii a in let b := nat_of_ascii b in let c := nat_of_ascii c in
      String (b64_digit (a / 4)) (String (b64_digit (a mod 4 * 16 + b / 16)) (String (b64_digit (b mod 16 * 4 + c / 64)) (String (b64_digit (c mod 64)) (b64_encode rest))))
  end.

Definition is_newline (c : ascii) : bool := (nat_of_ascii c =? 10) || (nat_of_ascii c =? 13).

Fixpoint drop_newlines (s : string) : string :=
  match s with EmptyString => "" | String c s => if is_newline c then drop_newlines s else String c (drop_newlines s) end.

(** Groups of four; padding only at the very end; trailing bits are ignored. *)
Fixpoint b64_groups (s : string) : option string :=
  match s with
  | EmptyString => Some ""
  | String c1 (String c2 (String c3 (String c4 rest))) =>
      v1 ← b64_value c1; v2 ← b64_value c2;
      let b1 := ascii_of_nat (v1 * 4 + v2 / 16) in
      if Ascii.eqb c3 pad then
        if Ascii.eqb c4 pad && String.eqb rest "" then Some (String b1 "") else None
      else
        v3 ← b64_value c3;
        let b2 := ascii_of_nat (v2 mod 16 * 16 + v3 / 4) in
        if Ascii.eqb c4 pad then
          if String.eqb rest "" then Some (String b1 (String b2 "")) else None
        else
          v4 ← b64_value c4; r ← b64_groups rest;
          Some (String b1 (String b2 (String (ascii_of_nat (v3 mod 4 * 64 + v4)) r)))
  | _ => None
  end.

(** [DecodeString] *)
Definition b64_decode (s : string) : option string := b64_groups (drop_newlines s).

(** ** Round trip *)

Lemma lt_64_cases (P : nat -> Prop) : (forall n, n < 64 -> P n) <-> Forall P (seq 0 64).
Proof. rewrite Forall_forall. setoid_rewrite elem_of_seq. split; intros H n Hn; apply H; lia. Qed.

Lemma digit_value n : n < 64 -> b64_value (b64_digit n) = Some n /\ b64_digit n <> pad /\ is_newline (b64_digit n) = false.
Proof.
  revert n. apply (lt_64_cases (fun n => b64_value (b64_digit n) = Some n /\ b64_digit n <> pad /\ is_newline (b64_digit n) = false)).
  apply (bool_decide_unpack _). vm_compute. exact I.
Qed.

#[local] Ltac Zify.zify_post_hook ::= Z.to_euclidean_division_equations.
#[local] Opaque b64_digit b64_value.

Lemma ascii_recompose a n : n = nat_of_ascii a -> ascii_of_nat n = a.
Proof. intros ->. apply ascii_nat_embedding. Qed.

Ltac digits :=
  repeat match goal with
  | |- context [b64_value (b64_digit ?n)] => rewrite (proj1 (digit_value n ltac:(lia)))
  | |- context [Ascii.eqb (b64_digit ?n) pad] => rewrite (proj2 (Ascii.eqb_neq (b64_digit n) pad) (proj1 (proj2 (digit_value n ltac:(lia)))))
  end; cbn [mbind option_bind].

Lemma three_ind (P : string -> Prop) : P "" -> (forall a, P (String a "")) -> (forall a b, P (String a (String b ""))) ->
  (forall a b c s, P s -> P (String a (String b (String c s)))) -> forall s, P s.
Proof.
  intros H0 H1 H2 H3 s. remember (String.length s) as n eqn:Hn. revert s Hn. induction n as [n IH] using lt_wf_ind. intros [|a [|b [|c s]]] Hn; auto.
  apply H3. eapply IH; [|reflexivity]. cbn in Hn. lia.
Qed.

Lemma b64_groups_encode s : b64_groups (b64_encode s) = Some s.
Proof.
  induction s as [|a|a b|a b c s IH] using three_ind; [done|..]; cbn [b64_encode b64_groups]; cbn zeta.
  - pose proof (nat_ascii_bounded a). digits. rewrite Ascii.eqb_refl, String.eqb_refl. cbn [andb]. f_equal. f_equal. apply ascii_recompose. lia.
  - pose proof (nat_ascii_bounded a). pose proof (nat_ascii_bounded b). digits. rewrite Ascii.eqb_refl, String.eqb_refl. repeat f_equal; apply ascii_recompose; lia.
  - pose proof (nat_ascii_bounded a). pose proof (nat_ascii_bounded b). pose proof (nat_ascii_bounded c). digits. rewrite IH. cbn [mbind option_bind].
    repeat f_equal; apply ascii_recompose; lia.
Qed.

Lemma encode_no_newlines s : drop_newlines (b64_encode s) = b64_encode s.
Proof.
  induction s as [|a|a b|a b c s IH] using three_ind; [done|..]; cbn [b64_encode]; cbn zeta;
    pose proof (nat_ascii_bounded a); try pose proof (nat_ascii_bounded b); try pose proof (nat_ascii_bounded c); cbn [drop_newlines];
    repeat match goal with |- context [is_newline (b64_digit ?n)] => rewrite (proj2 (proj2 (digit_value n ltac:(lia)))) end; rewrite ?IH; reflexivity.
Qed.

(** What is encoded decodes to itself. *)
Lemma b64_roundtrip s : b64_decode (b64_encode s) = Some s.
Proof. unfold b64_decode. rewrite encode_no_newlines. apply b64_groups_encode. Qed.
