(* ===== verification/Translators.v ===== *)
(** * The model providers (internal/middleware/anthropic.go, openai.go, gemini.go,
    history_images.go)

    A stage of a turn is one streamed request to a provider: what the SDK's
    stream delivers is an argument, the result is the events sent to the handler
    and the messages the turn keeps for the next request.  [cancel] is the index
    of the first send that the context's end preempts.  The JSON decoder and the
    encoder of a tool's output are parameters. *)

From S2P Require Import Prelude GoString GoConv Event Utf8 Wire Paths Sandbox Auth Os Fsops History Tools WorkerPool Approver Recovery Server Intent GoNum Catalogue Base64.

Record ImageData := mkImage { im_MediaType : string; im_Data : string }.

(** ** Events *)

Definition text_event (s : string) : AssistantEvent := mkEvent s "" None None None None.
Definition thinking_event (s : string) : AssistantEvent := mkEvent "" s None None None None.
Definition call_event (c : Call) : AssistantEvent := mkEvent "" "" (Some c) None None None.
Definition final_event (reason : string) (u : Usage) : AssistantEvent := mkEvent "" "" None (Some (mkFinal "" reason u)) None None.
Definition usage_event (u : Usage) : AssistantEvent := mkEvent "" "" None None (Some u) None.
Definition err_event (e : string) : AssistantEvent := mkEvent "" "" None None None (Some e).

(** The events of a stage, and the messages it adds to the conversation. *)
Record stage (M : Type) := mkStage { sg_events : list AssistantEvent; sg_append : list M }.
Arguments mkStage {M}. Arguments sg_events {M}. Arguments sg_append {M}.

(** Fragments are sent while the stream runs; the conversation grows after it,
    before the closing events. *)
Definition close_stage {M} (cancel : option nat) (streamed closing : list AssistantEvent) (app : list M) : stage M :=
  match cancel with
  | Some k => if k <? length streamed then mkStage (take k streamed) [] else mkStage (streamed ++ take (k - length streamed) closing) app
  | None => mkStage (streamed ++ closing) app
  end.

(** A closing that no cancellation preempts. *)
Definition close_always {M} (cancel : option nat) (streamed closing : list AssistantEvent) (app : list M) : stage M :=
  match cancel with
  | Some k => if k <? length streamed then mkStage (take k streamed) [] else mkStage (streamed ++ closing) app
  | None => mkStage (streamed ++ closing) app
  end.

(** A tool call, with what was measured in front of it. *)
Definition call_events (u : option Usage) (c : Call) : list AssistantEvent :=
  (match u with Some u => [usage_event u] | None => [] end) ++ [call_event c].

Section providers.
(** [json.Unmarshal] into a map ([None]: an error), [json.Marshal] of an output. *)
Variable decode_map : string -> option args.
Variable encode_output : option args -> option string.

(** [{}] when the output does not encode. *)
Definition output_json (r : ToolResult) : string := default "{}" (encode_output (tr_Output r)).

(** Errors of the arguments' decoder are ignored. *)
Definition decode_args (raw : string) : args := if String.eqb raw "" then [] else default [] (decode_map raw).

(** ** Stored turns *)

Definition history_image (e : any) : option ImageData :=
  match e with
  | AMap obj =>
      let mt := arg_string_or_empty obj "media_type" in
      let data := arg_string_or_empty obj "data" in
      if String.eqb mt "" || String.eqb data "" then None
      else d ← b64_decode data; if String.eqb d "" then None else Some (mkImage mt d)
  | _ => None
  end.

Definition extractHistoryImages (raw : args) : list ImageData :=
  match arg_lookup raw "images" with Some (AArr l) => omap history_image l | _ => [] end.

(** The text and images of a stored turn that has any. *)
Definition turn_content (t : Turn) : option (string * list ImageData) :=
  raw ← decode_map (Parts t);
  let text := arg_string_or_empty raw "text" in
  let imgs := extractHistoryImages raw in
  if String.eqb text "" && Nat.eqb (length imgs) 0 then None else Some (text, imgs).

(** ** Anthropic *)

Inductive ablock := BText (s : string) | BImage (mediaType b64 : string) | BToolUse (id : string) (input : args) (name : string) | BToolResult (id content : string) (is_error : bool).
Inductive amsg := AUser (l : list ablock) | AAssistant (l : list ablock).

Record AnthropicTranslator := mkAnthropic { an_model : string; an_temperature : f64; an_maxTokens : Z; an_thinkingBudget : Z; an_retries : option Z }.

Definition f64_zero (x : f64) : bool := match x with FNum _ m _ => (m =? 0)%Z | _ => false end.
Variable point_two : f64.                                  (* the constant 0.2 *)

(** The SDK's own retry count is left alone unless the option is positive. *)
Definition NewAnthropicTranslator (Model : string) (Temperature : f64) (MaxTokens MaxRetries ThinkingBudget : Z) : AnthropicTranslator :=
  mkAnthropic (if String.eqb Model "" then "claude-sonnet-4-5" else Model) (if f64_zero Temperature then point_two else Temperature)
    (if (MaxTokens =? 0)%Z then 4096 else MaxTokens)%Z ThinkingBudget (if (0 <? MaxRetries)%Z then Some MaxRetries else None).

Definition anthropicContentBlocks (text : string) (images : list ImageData) : list ablock :=
  (if String.eqb text "" then [] else [BText text]) ++ ((fun i => BImage (im_MediaType i) (b64_encode (im_Data i))) <$> images).

Definition anthropic_turn (t : Turn) : option amsg :=
  '(text, imgs) ← turn_content t;
  if String.eqb (Role t) RoleUser then Some (AUser (anthropicContentBlocks text imgs))
  else if String.eqb (Role t) RoleAssistant then (if String.eqb text "" then None else Some (AAssistant [BText text]))
  else None.

Definition anthropicHistoryToMessages (hist : list Turn) (userText : string) (images : list ImageData) : list amsg :=
  omap anthropic_turn hist ++ [AUser (anthropicContentBlocks userText images)].

(** The request of a stage. *)
Record anthropic_params := mkAnthropicParams {
  ap_Model : string; ap_Messages : list amsg; ap_MaxTokens : Z; ap_Temperature : f64; ap_System : option string; ap_Tools : list api_tool; ap_Thinking : option Z }.

Definition anthropic_request (a : AnthropicTranslator) (system model : string) (tools : list api_tool) (msgs : list amsg) : anthropic_params :=
  mkAnthropicParams model msgs (an_maxTokens a) (an_temperature a) (if String.eqb system "" then None else Some system) tools
    (if (0 <? an_thinkingBudget a)%Z then Some (an_thinkingBudget a) else None).

Inductive aevent :=
| MessageStart (input output : Z)
| BlockStart (index : Z) (kind id name : string)
| BlockDelta (index : Z) (kind text thinking json : string)
| BlockStop (index : Z)
| MessageDelta (stopReason : string) (output : Z)
| MessageStop.

Record block := mkBlock { bk_kind : string; bk_id : string; bk_name : string; bk_args : string }.

Record astate := mkAState {
  as_blocks : gmap Z block;
  as_stop : string;
  as_usage : option Usage;
  as_call : option block;                                  (* the first completed tool_use *)
  as_out : list AssistantEvent;
}.

Definition prompt_of (u : option Usage) : Z := match u with Some u => u_Prompt u | None => 0 end.

Definition astep (s : astate) (ev : aevent) : astate :=
  match ev with
  | MessageStart i o => mkAState (as_blocks s) (as_stop s) (Some (mkUsageCount i 0 (wrap64 (i + o)))) (as_call s) (as_out s)
  | BlockStart ix k id name =>
      let b := if String.eqb k "tool_use" then mkBlock k id name "" else mkBlock k "" "" "" in
      mkAState (<[ix := b]> (as_blocks s)) (as_stop s) (as_usage s) (as_call s) (as_out s)
  | BlockDelta ix k text thinking json =>
      match as_blocks s !! ix with
      | None => s
      | Some b =>
          if String.eqb k "text_delta" then
            mkAState (as_blocks s) (as_stop s) (as_usage s) (as_call s) (as_out s ++ if String.eqb text "" then [] else [text_event text])
          else if String.eqb k "thinking_delta" then
            mkAState (as_blocks s) (as_stop s) (as_usage s) (as_call s) (as_out s ++ if String.eqb thinking "" then [] else [thinking_event thinking])
          else if String.eqb k "input_json_delta" then
            mkAState (<[ix := mkBlock (bk_kind b) (bk_id b) (bk_name b) (bk_args b +:+ json)]> (as_blocks s)) (as_stop s) (as_usage s) (as_call s) (as_out s)
          else s
      end
  | BlockStop ix =>
      match as_blocks s !! ix with
      | None => s
      | Some b =>
          let free := match as_call s with Some c => String.eqb (bk_id c) "" | None => true end in
          if String.eqb (bk_kind b) "tool_use" && free then mkAState (as_blocks s) (as_stop s) (as_usage s) (Some b) (as_out s) else s
      end
  | MessageDelta stop o =>
      let u := if (0 <? o)%Z then Some (mkUsageCount (prompt_of (as_usage s)) o (wrap64 (prompt_of (as_usage s) + o))) else as_usage s in
      mkAState (as_blocks s) stop u (as_call s) (as_out s)
  | MessageStop => s
  end.

(** A finished stream: its events, and [stream.Err]. *)
Definition anthropic_run (cancel : option nat) (feed : list aevent) (err : option string) : stage amsg :=
  let s := foldl astep (mkAState ∅ "" None None []) feed in
  match err with
  | Some e => close_stage cancel (as_out s) [err_event e] []
  | None =>
      match as_call s with
      | Some b =>
          if String.eqb (as_stop s) "tool_use" && negb (String.eqb (bk_id b) "") then
            let a := decode_args (bk_args b) in
            close_stage cancel (as_out s) (call_events (as_usage s) (mkToolCall (bk_id b) (bk_name b) a)) [AAssistant [BToolUse (bk_id b) a (bk_name b)]]
          else close_stage cancel (as_out s) [final_event (if String.eqb (as_stop s) "" then "stop" else as_stop s) (default no_usage (as_usage s))] []
      | None => close_stage cancel (as_out s) [final_event (if String.eqb (as_stop s) "" then "stop" else as_stop s) (default no_usage (as_usage s))] []
      end
  end.

Definition anthropic_result (r : ToolResult) : amsg := AUser [BToolResult (tr_CallID r) (output_json r) (negb (String.eqb (tr_Error r) ""))].

(** ** OpenAI and DeepSeek *)

Inductive opart := OText (s : string) | OImageURL (url : string).
Inductive omsg :=
| OSystem (s : string)
| OUser (s : string)
| OUserParts (l : list opart)
| OAssistant (s : string)
| OAssistantCall (id name arguments : string)
| OTool (content callID : string).

Record OpenAITranslator := mkOpenAI { oa_model : string; oa_temperature : f64; oa_maxTokens : Z; oa_baseURL : option string; oa_retries : option Z }.

Definition NewOpenAITranslator (BaseURL Model : string) (Temperature : f64) (MaxTokens MaxRetries : Z) : OpenAITranslator :=
  mkOpenAI (if String.eqb Model "" then "gpt-4o-mini" else Model) (if f64_zero Temperature then point_two else Temperature)
    (if (MaxTokens =? 0)%Z then 4096 else MaxTokens)%Z (if String.eqb BaseURL "" then None else Some BaseURL)
    (if (0 <? MaxRetries)%Z then Some MaxRetries else None).

Definition image_url (i : ImageData) : string := "data:" +:+ im_MediaType i +:+ ";base64," +:+ b64_encode (im_Data i).

Definition openaiUserMessage (text : string) (images : list ImageData) : omsg :=
  if Nat.eqb (length images) 0 then OUser text
  else OUserParts ((if String.eqb text "" then [] else [OText text]) ++ ((fun i => OImageURL (image_url i)) <$> images)).

Definition openai_turn (t : Turn) : option omsg :=
  '(text, imgs) ← turn_content t;
  if String.eqb (Role t) RoleUser then Some (openaiUserMessage text imgs)
  else if String.eqb (Role t) RoleAssistant then (if String.eqb text "" then None else Some (OAssistant text))
  else None.

Definition openaiHistoryToMessages (systemPrompt : string) (hist : list Turn) (userText : string) (images : list ImageData) : list omsg :=
  (if String.eqb systemPrompt "" then [] else [OSystem systemPrompt]) ++ omap openai_turn hist ++ [openaiUserMessage userText images].

Definition openaiAssistantToolCallMessage (callID name argsJSON : string) : omsg := OAssistantCall callID name argsJSON.
Definition openaiToolResultMessage (r : ToolResult) : omsg := OTool (output_json r) (tr_CallID r).

Record tool_delta := mkDelta { td_index : Z; td_id : string; td_name : string; td_args : string }.
Record choice := mkChoice { ch_content : string; ch_calls : list tool_delta; ch_finish : string }.
Record ochunk := mkOChunk { oc_usage : Usage; oc_choices : list choice }.

Record pendingCall := mkPending { pc_id : string; pc_name : string; pc_args : string }.

Record ostate := mkOState {
  os_pending : gmap Z pendingCall;
  os_order : list Z;
  os_usage : option Usage;
  os_finish : string;
  os_out : list AssistantEvent;
}.

Definition keep_or (new old : string) : string := if String.eqb new "" then old else new.

Definition delta_step (s : ostate) (d : tool_delta) : ostate :=
  let known := os_pending s !! td_index d in
  let p := default (mkPending "" "" "") known in
  mkOState (<[td_index d := mkPending (keep_or (td_id d) (pc_id p)) (keep_or (td_name d) (pc_name p)) (pc_args p +:+ td_args d)]> (os_pending s))
    (match known with Some _ => os_order s | None => os_order s ++ [td_index d] end) (os_usage s) (os_finish s) (os_out s).

Definition choice_step (s : ostate) (c : choice) : ostate :=
  let s := mkOState (os_pending s) (os_order s) (os_usage s) (os_finish s) (os_out s ++ if String.eqb (ch_content c) "" then [] else [text_event (ch_content c)]) in
  let s := foldl delta_step s (ch_calls c) in
  mkOState (os_pending s) (os_order s) (os_usage s) (keep_or (ch_finish c) (os_finish s)) (os_out s).

Definition ostep (s : ostate) (c : ochunk) : ostate :=
  let u := oc_usage c in
  let seen := ((0 <? u_Total u) || (0 <? u_Prompt u) || (0 <? u_Candidates u))%Z in
  foldl choice_step (mkOState (os_pending s) (os_order s) (if seen then Some u else os_usage s) (os_finish s) (os_out s)) (oc_choices c).

(** [newID] is the id the event package would mint. *)
Definition openai_run (newID : string) (cancel : option nat) (feed : list ochunk) (err : option string) : stage omsg :=
  let s := foldl ostep (mkOState ∅ [] None "" []) feed in
  match err with
  | Some e => close_stage cancel (os_out s) [err_event e] []
  | None =>
      match os_order s with
      | i :: _ =>
          if String.eqb (os_finish s) "tool_calls" then
            let p := default (mkPending "" "" "") (os_pending s !! i) in
            let id := keep_or (pc_id p) newID in
            close_stage cancel (os_out s) (call_events (os_usage s) (mkToolCall id (pc_name p) (decode_args (pc_args p))))
              [openaiAssistantToolCallMessage id (pc_name p) (pc_args p)]
          else close_stage cancel (os_out s) [final_event (keep_or (os_finish s) "stop") (default no_usage (os_usage s))] []
      | [] => close_stage cancel (os_out s) [final_event (keep_or (os_finish s) "stop") (default no_usage (os_usage s))] []
      end
  end.

(** ** Gemini *)

Record FunctionCall := mkFunctionCall { fc_ID : string; fc_Name : string; fc_Args : args }.
Inductive gpart := GText (s : string) | GBlob (data mime : string) | GCall (c : FunctionCall) | GResponse (name : string) (output : option args).
Record gcontent := mkContent { gc_Role : string; gc_Parts : list gpart }.

Record GeminiTranslator := mkGemini { ge_model : string; ge_temperature : f64; ge_maxTokens : Z }.

(** Its temperature is a float32; the clamp keeps the count within an int32. *)
Definition NewGeminiTranslator (float32 : f64 -> f64) (Model : string) (Temperature : f64) (MaxTokens : Z) : GeminiTranslator :=
  mkGemini (if String.eqb Model "" then "gemini-2.0-flash" else Model) (float32 (if f64_zero Temperature then point_two else Temperature))
    (if MaxTokens <=? 0 then 4096 else if 2147483647 <? MaxTokens then 2147483647 else MaxTokens)%Z.

Definition blob (i : ImageData) : gpart := GBlob (im_Data i) (im_MediaType i).

Definition turnToContent (t : Turn) : option gcontent :=
  '(text, imgs) ← turn_content t;
  Some (mkContent (if String.eqb (Role t) RoleAssistant then "model" else "user") ((if String.eqb text "" then [] else [GText text]) ++ (blob <$> imgs))).

Definition historyToContents (hist : list Turn) (userText : string) (images : list ImageData) : list gcontent :=
  omap turnToContent hist ++ [mkContent "user" (GText userText :: (blob <$> images))].

Definition toolResponseContent (r : ToolResult) : gcontent := mkContent "function" [GResponse (tr_Tool r) (tr_Output r)].

Record gpart_in := mkPartIn { gp_Text : string; gp_Call : option FunctionCall }.
Record candidate := mkCandidate { ca_parts : list gpart_in; ca_finish : string }.    (* no content: no parts *)
Record gresponse := mkGResponse { gr_usage : option Usage; gr_candidates : list candidate }.

(** Over the parts of a response: the text sent, and the call that suspends. *)
Fixpoint gparts (out : list AssistantEvent) (l : list gpart_in) : list AssistantEvent * option FunctionCall :=
  match l with
  | [] => (out, None)
  | p :: l =>
      if negb (String.eqb (gp_Text p) "") then gparts (out ++ [text_event (gp_Text p)]) l
      else match gp_Call p with Some c => (out, Some c) | None => gparts out l end
  end.

(** The loop over the stream; an element is an error, or a response that may be
    nil. *)
Fixpoint gemini_loop (newID : string) (cancel : option nat) (u : option Usage) (out : list AssistantEvent) (feed : list (result string (option gresponse))) : stage gcontent :=
  match feed with
  | [] => close_stage cancel out [final_event "stop" (default no_usage u)] []
  | Err e :: _ => close_always cancel out [err_event e] []
  | Ok None :: rest => gemini_loop newID cancel u out rest
  | Ok (Some r) :: rest =>
      let u := match gr_usage r with Some v => Some v | None => u end in
      match gr_candidates r with
      | [] => gemini_loop newID cancel u out rest
      | cand :: _ =>
          match gparts out (ca_parts cand) with
          | (out, Some c) =>
              close_stage cancel out (call_events u (mkToolCall (keep_or (fc_ID c) newID) (fc_Name c) (fc_Args c))) [mkContent "model" [GCall c]]
          | (out, None) =>
              if String.eqb (ca_finish cand) "" then gemini_loop newID cancel u out rest
              else close_stage cancel out [final_event (ca_finish cand) (default no_usage u)] []
          end
      end
  end.

Definition gemini_run (newID : string) (cancel : option nat) (feed : list (result string (option gresponse))) : stage gcontent := gemini_loop newID cancel None [] feed.
End providers.

(** ** The contract of a stage (translator.go) *)

Definition is_fragment (e : AssistantEvent) : Prop := exists s, s <> "" /\ (e = text_event s \/ e = thinking_event s).

(** An error, a final message, or a tool call with the usage in front. *)
Definition closing_ok (l : list AssistantEvent) : Prop :=
  (exists e, l = [err_event e]) \/ (exists r u, l = [final_event r u]) \/ exists u c, l = call_events u c.

(** The call a stage ends in. *)
Definition stage_call {M} (s : stage M) : option Call := last (sg_events s) ≫= ev_ToolCall.

(** Fragments, then one closing; a prefix of that when canceled; and the
    conversation grows exactly with a call. *)
Definition stage_contract {M} (announces : M -> Call -> Prop) (run : option nat -> stage M) : Prop :=
  exists streamed closing app, (forall cancel, run cancel = close_stage cancel streamed closing app \/ run cancel = close_stage None streamed closing app) /\ Forall is_fragment streamed /\ closing_ok closing /\
    match stage_call (run None) with Some c => exists m, app = [m] /\ announces m c | None => app = [] end.

Definition anthropic_announces (m : amsg) (c : Call) : Prop := m = AAssistant [BToolUse (call_ID c) (call_Args c) (call_Tool c)].
Definition openai_announces (decode_map : string -> option args) (m : omsg) (c : Call) : Prop :=
  exists raw, m = OAssistantCall (call_ID c) (call_Tool c) raw /\ call_Args c = decode_args decode_map raw.
Definition gemini_announces (m : gcontent) (c : Call) : Prop :=
  exists id, m = mkContent "model" [GCall (mkFunctionCall id (call_Tool c) (call_Args c))] /\ (id = "" \/ id = call_ID c).

Lemma contract_err {M} announces streamed e : Forall is_fragment streamed ->
  stage_contract (M := M) announces (fun cancel => close_stage cancel streamed [err_event e] []).
Proof.
  intros Hs. exists streamed, [err_event e], []. split_and!; [by left|done|left; eauto|]. unfold stage_call. cbn [close_stage sg_events]. by rewrite last_snoc.
Qed.

Lemma contract_err_always {M} announces streamed e : Forall is_fragment streamed ->
  stage_contract (M := M) announces (fun cancel => close_always cancel streamed [err_event e] []).
Proof.
  intros Hs. exists streamed, [err_event e], []. split_and!; [|done|left; eauto|unfold stage_call; cbn [close_always sg_events]; by rewrite last_snoc].
  intros [k|]; [|by left]. unfold close_always, close_stage. destruct (k <? length streamed); auto.
Qed.

Lemma contract_final {M} announces streamed r u : Forall is_fragment streamed ->
  stage_contract (M := M) announces (fun cancel => close_stage cancel streamed [final_event r u] []).
Proof.
  intros Hs. exists streamed, [final_event r u], []. split_and!; [by left|done|right; left; eauto|]. unfold stage_call. cbn [close_stage sg_events]. by rewrite last_snoc.
Qed.

Lemma contract_call {M} (announces : M -> Call -> Prop) streamed u c m : Forall is_fragment streamed -> announces m c ->
  stage_contract announces (fun cancel => close_stage cancel streamed (call_events u c) [m]).
Proof.
  intros Hs Ha. exists streamed, (call_events u c), [m]. split_and!; [by left|done|right; right; eauto|]. unfold stage_call. cbn [close_stage sg_events].
  unfold call_events. rewrite app_assoc, last_snoc. cbn. eauto.
Qed.

Lemma fragment_text s : Forall is_fragment (if String.eqb s "" then [] else [text_event s]).
Proof. destruct (String.eqb_spec s ""); [constructor|]. repeat constructor. exists s. auto. Qed.

Lemma fragment_thinking s : Forall is_fragment (if String.eqb s "" then [] else [thinking_event s]).
Proof. destruct (String.eqb_spec s ""); [constructor|]. repeat constructor. exists s. auto. Qed.

Lemma astep_out s ev : Forall is_fragment (as_out s) -> Forall is_fragment (as_out (astep s ev)).
Proof.
  intros Hs. destruct ev as [| |ix k text thinking json|ix| |]; cbn [astep]; try done.
  - destruct (as_blocks s !! ix); [|done]. destruct (String.eqb k "text_delta"); [apply Forall_app; auto using fragment_text|].
    destruct (String.eqb k "thinking_delta"); [apply Forall_app; auto using fragment_thinking|]. by destruct (String.eqb k "input_json_delta").
  - destruct (as_blocks s !! ix); [|done]. by destruct (_ && _).
Qed.

Lemma foldl_out {S E} (step : S -> E -> S) (out : S -> list AssistantEvent) l s :
  (forall s e, Forall is_fragment (out s) -> Forall is_fragment (out (step s e))) -> Forall is_fragment (out s) -> Forall is_fragment (out (foldl step s l)).
Proof. intros Hstep. revert s. induction l as [|e l IH]; intros s Hs; [done|]. cbn. apply IH. by apply Hstep. Qed.

Lemma ostep_out s c : Forall is_fragment (os_out s) -> Forall is_fragment (os_out (ostep s c)).
Proof.
  intros Hs. unfold ostep. apply (foldl_out choice_step os_out); [|done]. intros s' ch Hs'. unfold choice_step. cbn [os_out].
  apply (foldl_out delta_step os_out); [done|]. cbn [os_out]. apply Forall_app. auto using fragment_text.
Qed.

Lemma gparts_out out l : Forall is_fragment out -> Forall is_fragment (gparts out l).1.
Proof.
  revert out. induction l as [|p l IH]; intros out Ho; [done|]. cbn. destruct (String.eqb_spec (gp_Text p) "") as [|Hn]; cbn [negb].
  - destruct (gp_Call p); [done|by apply IH].
  - apply IH, Forall_app. split; [done|]. repeat constructor. exists (gp_Text p). auto.
Qed.

Lemma gemini_contract newID u out feed : Forall is_fragment out -> stage_contract gemini_announces (fun cancel => gemini_loop newID cancel u out feed).
Proof.
  revert u out. induction feed as [|x feed IH]; intros u out Ho; cbn [gemini_loop]; [by apply contract_final|].
  destruct x as [[r|]|e]; [|by apply IH|by apply contract_err_always]. destruct (gr_candidates r) as [|cand ?]; [by apply IH|].
  pose proof (gparts_out out (ca_parts cand) Ho) as Hp. destruct (gparts out (ca_parts cand)) as [out' [c|]]; cbn [fst] in Hp.
  - apply contract_call; [done|]. exists (fc_ID c). split; [by destruct c|]. unfold keep_or. cbn. destruct (String.eqb_spec (fc_ID c) ""); auto.
  - destruct (String.eqb (ca_finish cand) ""); [by apply IH|by apply contract_final].
Qed.

Section contracts.
Variable decode_map : string -> option args.
Variable encode_output : option args -> option string.

Lemma anthropic_contract feed err : stage_contract anthropic_announces (fun cancel => anthropic_run decode_map cancel feed err).
Proof.
  unfold anthropic_run. set (s := foldl astep _ feed).
  assert (Forall is_fragment (as_out s)) as Ho by (apply (foldl_out astep as_out); [apply astep_out|constructor]).
  destruct err; [by apply contract_err|]. destruct (as_call s) as [b|]; [|by apply contract_final].
  destruct (_ && _); [|by apply contract_final]. by apply contract_call.
Qed.

Lemma openai_contract newID feed err : stage_contract (openai_announces decode_map) (fun cancel => openai_run decode_map newID cancel feed err).
Proof.
  unfold openai_run. set (s := foldl ostep _ feed).
  assert (Forall is_fragment (os_out s)) as Ho by (apply (foldl_out ostep os_out); [apply ostep_out|constructor]).
  destruct err; [by apply contract_err|]. destruct (os_order s) as [|i l]; [by apply contract_final|].
  destruct (String.eqb _ "tool_calls"); [|by apply contract_final]. apply contract_call; [done|]. eexists. split; reflexivity.
Qed.

(** C16: Every model provider keeps the translator's contract.  Whatever its stream delivers, a stage sends non-empty fragments of text or thinking and then closes with exactly one of an error, a final message, or a tool call preceded by its usage; when the turn's context ends, what was sent is an initial part of that; and the conversation kept for the next request grows by one message exactly when the stage ends in a tool call, by the message that announces that call. *)
Theorem provider_stages_keep_contract newID afeed ofeed gfeed err :
  stage_contract anthropic_announces (fun cancel => anthropic_run decode_map cancel afeed err) /\
  stage_contract (openai_announces decode_map) (fun cancel => openai_run decode_map newID cancel ofeed err) /\
  stage_contract gemini_announces (fun cancel => gemini_run newID cancel gfeed).
Proof. split_and!; [apply anthropic_contract|apply openai_contract|apply gemini_contract; constructor]. Qed.

(** ** A turn of several stages *)

(** The requests' messages after the stages: a call is followed by its result. *)
Fixpoint converse {M} (result : ToolResult -> M) (reply : Call -> ToolResult) (msgs : list M) (stages : list (stage M)) : list M :=
  match stages with
  | [] => msgs
  | s :: rest => match stage_call s with
                 | Some c => converse result reply (msgs ++ sg_append s ++ [result (reply c)]) rest
                 | None => msgs ++ sg_append s
                 end
  end.

Inductive paired {M} (announces answers : M -> Call -> Prop) : list M -> Prop :=
| paired_nil : paired announces answers []
| paired_cons c m r l : announces m c -> answers r c -> paired announces answers l -> paired announces answers (m :: r :: l).

Lemma converse_paired {M} (announces answers : M -> Call -> Prop) result reply stages : (forall c, answers (result (reply c)) c) ->
  Forall (fun s => exists run, stage_contract announces run /\ s = run None) stages ->
  forall msgs, exists l, converse result reply msgs stages = msgs ++ l /\ paired announces answers l.
Proof.
  intros Ha. induction 1 as [|s stages (run & (st & cl & app & Hrun & _ & _ & Hc) & ->) _ IH]; intros msgs; cbn [converse].
  - exists []. by rewrite app_nil_r; split; [|constructor].
  - assert (sg_append (run None) = app) as Happ by (destruct (Hrun None) as [E|E]; by rewrite E). destruct (stage_call (run None)) as [c|].
    + destruct Hc as (m & Hm & Hann). rewrite Happ, Hm. destruct (IH (msgs ++ [m] ++ [result (reply c)])) as (l & -> & Hl).
      exists (m :: result (reply c) :: l). split; [by rewrite <-app_assoc|]. by econstructor.
    + exists []. rewrite Happ, Hc. by split; [|constructor].
Qed.

Definition anthropic_answers (m : amsg) (c : Call) : Prop := exists body err, m = AUser [BToolResult (call_ID c) body err].
Definition openai_answers (m : omsg) (c : Call) : Prop := exists body, m = OTool body (call_ID c).
Definition gemini_answers (m : gcontent) (c : Call) : Prop := exists out, m = mkContent "function" [GResponse (call_Tool c) out].

(** Tool results stay paired with their calls.  Through any number of stages of a turn, with the handler answering each call under its own id and name, the conversation sent to a provider is the initial one followed by the calls and their results in alternation, each result right after the call it answers and carrying its id (its name, for Gemini). *)
Theorem tool_results_follow_their_calls reply :
  (forall c, tr_CallID (reply c) = call_ID c /\ tr_Tool (reply c) = call_Tool c) ->
  (forall msgs feeds, exists l, converse (anthropic_result encode_output) reply msgs ((fun f => anthropic_run decode_map None f.1 f.2) <$> feeds) = msgs ++ l /\
     paired anthropic_announces anthropic_answers l) /\
  (forall msgs feeds, exists l, converse (openaiToolResultMessage encode_output) reply msgs ((fun f => openai_run decode_map f.1.1 None f.1.2 f.2) <$> feeds) = msgs ++ l /\
     paired (openai_announces decode_map) openai_answers l) /\
  (forall msgs feeds, exists l, converse toolResponseContent reply msgs ((fun f => gemini_run f.1 None f.2) <$> feeds) = msgs ++ l /\
     paired gemini_announces gemini_answers l).
Proof.
  intros Hr. split_and!; intros msgs feeds.
  - apply converse_paired; [intros c; destruct (Hr c) as [H1 _]; unfold anthropic_result; rewrite H1; by do 2 eexists|].
    apply Forall_fmap, Forall_true. intros f. cbn. eexists. split; [apply (anthropic_contract f.1 f.2)|reflexivity].
  - apply converse_paired; [intros c; destruct (Hr c) as [H1 _]; unfold openaiToolResultMessage; rewrite H1; by eexists|].
    apply Forall_fmap, Forall_true. intros f. cbn. eexists. split; [apply (openai_contract f.1.1 f.1.2 f.2)|reflexivity].
  - apply converse_paired; [intros c; destruct (Hr c) as [_ H2]; unfold toolResponseContent; rewrite H2; by eexists|].
    apply Forall_fmap, Forall_true. intros f. cbn. eexists. split; [apply (gemini_contract f.1 None [] f.2); constructor|reflexivity].
Qed.
End contracts.

(** ** What the providers are told *)

(** A message as a role, its text, and its images as data URLs. *)
Definition view := (string * string * list string)%type.

Definition ablock_text (b : ablock) : option string := match b with BText s => Some s | _ => None end.
Definition ablock_url (b : ablock) : option string := match b with BImage mt d => Some ("data:" +:+ mt +:+ ";base64," +:+ d) | _ => None end.
Definition aview (m : amsg) : view :=
  match m with
  | AUser l => ("user", str_concat (omap ablock_text l), omap ablock_url l)
  | AAssistant l => ("assistant", str_concat (omap ablock_text l), omap ablock_url l)
  end.

Definition opart_text (p : opart) : option string := match p with OText s => Some s | _ => None end.
Definition opart_url (p : opart) : option string := match p with OImageURL u => Some u | _ => None end.
Definition oview (m : omsg) : option view :=
  match m with
  | OUser s => Some ("user", s, [])
  | OUserParts l => Some ("user", str_concat (omap opart_text l), omap opart_url l)
  | OAssistant s => Some ("assistant", s, [])
  | _ => None
  end.

Definition gpart_text (p : gpart) : option string := match p with GText s => Some s | _ => None end.
Definition gpart_url (p : gpart) : option string := match p with GBlob d mt => Some (image_url (mkImage mt d)) | _ => None end.
Definition gview (m : gcontent) : view :=
  (if String.eqb (gc_Role m) "model" then "assistant" else gc_Role m, str_concat (omap gpart_text (gc_Parts m)), omap gpart_url (gc_Parts m)).

Lemma fmap_omap_views {T A B V} (f : T -> option A) (g : T -> option B) (v : A -> V) (w : B -> option V) l :
  Forall (fun t => (v <$> f t) = (g t ≫= w)) l -> v <$> omap f l = omap w (omap g l).
Proof.
  induction 1 as [|t l Ht _ IH]; [done|]. cbn [omap list_omap]. destruct (f t) as [a|], (g t) as [b|]; cbn [fmap option_fmap option_map mbind option_bind] in Ht;
    cbn [fmap list_fmap omap list_omap]; rewrite <-?Ht; try done; by rewrite IH.
Qed.

Section views.
Variable decode_map : string -> option args.

Lemma ablock_views text imgs :
  str_concat (omap ablock_text (anthropicContentBlocks text imgs)) = text /\ omap ablock_url (anthropicContentBlocks text imgs) = image_url <$> imgs.
Proof.
  unfold anthropicContentBlocks. rewrite !omap_app.
  assert (omap ablock_text ((fun i => BImage (im_MediaType i) (b64_encode (im_Data i))) <$> imgs) = [] /\
    omap ablock_url ((fun i => BImage (im_MediaType i) (b64_encode (im_Data i))) <$> imgs) = image_url <$> imgs) as [-> ->].
  { induction imgs as [|i l [IH1 IH2]]; [done|]. cbn. by rewrite IH1, IH2. }
  destruct (String.eqb_spec text "") as [->|]; [done|]. cbn. by rewrite str_app_nil_r.
Qed.

Lemma opart_views text imgs : oview (openaiUserMessage text imgs) = Some ("user", text, image_url <$> imgs).
Proof.
  unfold openaiUserMessage. destruct imgs as [|i l]; [done|]. cbn [length Nat.eqb oview]. set (k := i :: l). rewrite !omap_app.
  assert (omap opart_text ((fun i => OImageURL (image_url i)) <$> k) = [] /\ omap opart_url ((fun i => OImageURL (image_url i)) <$> k) = image_url <$> k) as [-> ->].
  { induction k as [|x k [IH1 IH2]]; [done|]. cbn. by rewrite IH1, IH2. }
  destruct (String.eqb_spec text "") as [->|]; [done|]. cbn. by rewrite str_app_nil_r.
Qed.

Lemma gpart_views (text : string) imgs (l : list gpart) : (l = [] /\ text = "" \/ l = [GText text]) ->
  str_concat (omap gpart_text (l ++ (blob <$> imgs))) = text /\ omap gpart_url (l ++ (blob <$> imgs)) = image_url <$> imgs.
Proof.
  intros Hl. rewrite !omap_app. assert (omap gpart_text (blob <$> imgs) = [] /\ omap gpart_url (blob <$> imgs) = image_url <$> imgs) as [-> ->].
  { induction imgs as [|i k [IH1 IH2]]; [done|]. cbn. rewrite IH1, IH2. by destruct i. }
  destruct Hl as [[-> ->]| ->]; [done|]. cbn. by rewrite str_app_nil_r.
Qed.

(** The turns a user or the assistant wrote, the latter without images. *)
Definition spoken (t : Turn) : Prop :=
  Role t = RoleUser \/ (Role t = RoleAssistant /\ forall text imgs, turn_content decode_map t = Some (text, imgs) -> imgs = []).

Lemma turn_views t : spoken t ->
  (aview <$> anthropic_turn decode_map t) = (openai_turn decode_map t ≫= oview) /\ (gview <$> turnToContent decode_map t) = (openai_turn decode_map t ≫= oview).
Proof.
  intros Hs. unfold anthropic_turn, openai_turn, turnToContent. destruct (turn_content decode_map t) as [[text imgs]|] eqn:Et; [|done]. cbn [mbind option_bind].
  destruct (ablock_views text imgs) as [H1 H2]. destruct (gpart_views text imgs (if String.eqb text "" then [] else [GText text])) as [H3 H4];
    [destruct (String.eqb_spec text "") as [->|]; auto|]. pose proof (opart_views text imgs) as H5. destruct Hs as [->|[-> Hi]].
  - cbn [String.eqb]. split; [cbn|]; [by rewrite H1, H2, H5|]. change (String.eqb RoleUser RoleAssistant) with false. change (String.eqb RoleUser RoleUser) with true.
    cbn. unfold gview. cbn [gc_Role gc_Parts]. by rewrite H3, H4, H5.
  - assert (imgs = []) as -> by (by eapply Hi). change (String.eqb RoleAssistant RoleUser) with false. change (String.eqb RoleAssistant RoleAssistant) with true. cbv iota.
    assert (text <> "") as Hne. { intros ->. unfold turn_content in Et. destruct (decode_map (Parts t)); [|done]. cbn in Et. destruct (_ && _) eqn:E; [done|].
      injection Et as Et1 Et2. by rewrite Et1, Et2 in E. }
    rewrite (proj2 (String.eqb_neq text "")) by done. cbn. unfold gview. cbn. by rewrite !str_app_nil_r.
Qed.

(** Switching providers does not change what the model is told: for a stored conversation of user turns and text-only assistant turns, the three providers are sent the same sequence of roles, texts and images, the new user message last. *)
Theorem providers_see_same_conversation system hist userText images : Forall spoken hist ->
  aview <$> anthropicHistoryToMessages decode_map hist userText images = omap oview (openaiHistoryToMessages decode_map system hist userText images) /\
  gview <$> historyToContents decode_map hist userText images = omap oview (openaiHistoryToMessages decode_map system hist userText images).
Proof.
  intros Hs. unfold anthropicHistoryToMessages, openaiHistoryToMessages, historyToContents. rewrite !omap_app, !fmap_app.
  assert (omap oview (if String.eqb system "" then [] else [OSystem system]) = []) as -> by (by destruct (String.eqb system "")).
  assert ((aview <$> omap (anthropic_turn decode_map) hist) = omap oview (omap (openai_turn decode_map) hist) /\
    (gview <$> omap (turnToContent decode_map) hist) = omap oview (omap (openai_turn decode_map) hist)) as [-> ->].
  { split; apply fmap_omap_views; (eapply Forall_impl; [exact Hs|]); intros t Ht; by apply turn_views. }
  destruct (ablock_views userText images) as [H1 H2]. destruct (gpart_views userText images [GText userText]) as [H3 H4]; [auto|].
  cbn [app] in *. split; f_equal; cbn [fmap list_fmap omap list_omap]; rewrite opart_views; cbn; unfold gview; cbn [gc_Role gc_Parts]; [by rewrite H1, H2|].
  change (GText userText :: (blob <$> images)) with ([GText userText] ++ (blob <$> images)). cbn [app] in *. by rewrite H3, H4.
Qed.
End views.

(** ** On concrete streams *)

(** A decoder of the two shapes used below. *)
Definition demo_decode (raw : string) : option args :=
  if HasPrefix raw "{text}" then Some [("text", AStr (TrimPrefix raw "{text}"))] else None.
Definition demo_output (_ : option args) : option string := Some "{}".
Definition demo_reply (c : Call) : ToolResult := mkToolResult (call_ID c) (call_Tool c) None None "".

Definition demo_hist : list Turn := [mkTurn "s" 0 "user" "{text}hi" None; mkTurn "s" 1 "tool_call" "{}" None; mkTurn "s" 2 "assistant" "{text}hello" None].

Lemma tool_results_follow_their_calls_witness :
  converse (openaiToolResultMessage demo_output) demo_reply [OUser "go"]
    [openai_run demo_decode "n1" None [mkOChunk no_usage [mkChoice "" [mkDelta 0 "" "read_file" "{te"] ""]; mkOChunk no_usage [mkChoice "" [mkDelta 0 "" "" "xt}p"] "tool_calls"]] None] =
    [OUser "go"; OAssistantCall "n1" "read_file" "{text}p"; OTool "{}" "n1"] /\
  exists l, [OAssistantCall "n1" "read_file" "{text}p"; OTool "{}" "n1"] = l /\ paired (openai_announces demo_decode) openai_answers l.
Proof.
  split; [vm_compute; reflexivity|].
  destruct (proj1 (proj2 (tool_results_follow_their_calls demo_decode demo_output demo_reply ltac:(by intros c))) []
    [("n1", [mkOChunk no_usage [mkChoice "" [mkDelta 0 "" "read_file" "{te"] ""]; mkOChunk no_usage [mkChoice "" [mkDelta 0 "" "" "xt}p"] "tool_calls"]], None)]) as (l & Hl & Hp).
  exists l. split; [|exact Hp]. rewrite app_nil_l in Hl. rewrite <-Hl. vm_compute. reflexivity.
Defined.

Definition spoken_hist : list Turn := [mkTurn "s" 0 "user" "{text}hi" None; mkTurn "s" 2 "assistant" "{text}hello" None].

Lemma providers_see_same_conversation_witness :
  omap oview (openaiHistoryToMessages demo_decode "be brief" spoken_hist "bye" [mkImage "image/png" "abc"]) =
    [("user", "hi", []); ("assistant", "hello", []); ("user", "bye", ["data:image/png;base64,YWJj"])] /\
  aview <$> anthropicHistoryToMessages demo_decode spoken_hist "bye" [mkImage "image/png" "abc"] =
    omap oview (openaiHistoryToMessages demo_decode "be brief" spoken_hist "bye" [mkImage "image/png" "abc"]).
Proof.
  split; [vm_compute; reflexivity|]. apply (providers_see_same_conversation demo_decode "be brief" spoken_hist).
  apply Forall_cons. split; [by left|]. apply Forall_cons. split; [right; split; [done|]; vm_compute; congruence|constructor].
Defined.

(** A compaction's summary reaches Gemini, but is dropped by the other two. *)
Lemma summary_is_dropped :
  let t := mkTurn "s" 0 RoleSystemSummary "{text}what happened so far" None in
  anthropic_turn demo_decode t = None /\ openai_turn demo_decode t = None /\
  turnToContent demo_decode t = Some (mkContent "user" [GText "what happened so far"]).
Proof. vm_compute. auto. Qed.

(** A negative retry count is not turned into none: the SDK's default stays. *)
Lemma negative_retries_keep_default p t : oa_retries (NewOpenAITranslator p "" "" t 0 (-1)) = None /\ an_retries (NewAnthropicTranslator p "" t 0 (-1) 0) = None.
Proof. done. Qed.

(** Text the model wrote in front of a tool call is shown to the user but is not
    part of the conversation it continues. *)
Lemma preamble_is_forgotten :
  let s := anthropic_run demo_decode None
    [BlockStart 0 "text" "" ""; BlockDelta 0 "text_delta" "First I read it." "" ""; BlockStop 0; BlockStart 1 "tool_use" "t1" "read_file"; BlockStop 1; MessageDelta "tool_use" 0] None in
  sg_events s = [text_event "First I read it."; call_event (mkToolCall "t1" "read_file" [])] /\ sg_append s = [AAssistant [BToolUse "t1" [] "read_file"]].
Proof. vm_compute. auto. Qed.
