(* ===== verification/UrlQuery.v ===== *)
(** * Query strings of net/url

    [QueryEscape], its inverse, [ParseQuery] and [Values.Get], as the onboarding
    link uses them. *)

From S2P Require Import Prelude GoString GoConv Event Paths.

Definition unreserved (c : ascii) : bool :=
  is_lower c || is_upper c || is_digit c || existsb (Ascii.eqb c) ["-"; "_"; "."; "~"]%char.

Definition upper_hex (n : nat) : ascii := ascii_of_nat (if n <? 10 then 48 + n else 55 + n).

Definition escape_char (c : ascii) : string :=
  if unreserved c then String c ""
  else if Ascii.eqb c " " then "+"
  else String "%" (String (upper_hex (nat_of_ascii c / 16)) (String (upper_hex (nat_of_ascii c mod 16)) "")).

Fixpoint QueryEscape (s : string) : string :=
  match s with EmptyString => "" | String c s => escape_char c +:+ QueryEscape s end.

Definition hex_value (c : ascii) : option nat :=
  let n := nat_of_ascii c in
  if in_range c 48 57 then Some (n - 48)
  else if in_range c 97 102 then Some (n - 87)
  else if in_range c 65 70 then Some (n - 55)
  else None.

Fixpoint QueryUnescape (s : string) : option string :=
  match s with
  | EmptyString => Some ""
  | String c rest =>
      if Ascii.eqb c "%" then
        match rest with
        | String h (String l rest) => a ← hex_value h; b ← hex_value l; r ← QueryUnescape rest; Some (String (ascii_of_nat (16 * a + b)) r)
        | _ => None
        end
      else r ← QueryUnescape rest; Some (String (if Ascii.eqb c "+" then " " else c) r)
  end.

(** [strings.Cut] at a byte. *)
Fixpoint cut (sep : ascii) (s : string) : string * string :=
  match s with
  | EmptyString => ("", "")
  | String c s => if Ascii.eqb c sep then ("", s) else let '(a, b) := cut sep s in (String c a, b)
  end.

(** The pairs in order, and whether there was an error. *)
Fixpoint parse_pairs (l : list string) : list (string * string) * bool :=
  match l with
  | [] => ([], false)
  | p :: l =>
      let '(ps, err) := parse_pairs l in
      if negb (no_byte ";" p) then (ps, true)
      else if String.eqb p "" then (ps, err)
      else
        let '(k, v) := cut "=" p in
        match QueryUnescape k, QueryUnescape v with
        | Some k, Some v => ((k, v) :: ps, err)
        | _, _ => (ps, true)
        end
  end.

Definition ParseQuery (q : string) : list (string * string) * bool := parse_pairs (SplitByte "&" q).

(** [Values.Get]: the first value. *)
Definition query_get (ps : list (string * string)) (k : string) : string :=
  match List.find (fun p => String.eqb p.1 k) ps with Some p => p.2 | None => "" end.

(** ** Round trip *)

Lemma unescape_char c s : QueryUnescape (escape_char c +:+ s) = (r ← QueryUnescape s; Some (String c r)).
Proof. destruct c as [[] [] [] [] [] [] [] []]; reflexivity. Qed.

Lemma query_roundtrip s : QueryUnescape (QueryEscape s) = Some s.
Proof. induction s as [|c s IH]; [done|]. cbn [QueryEscape]. by rewrite unescape_char, IH. Qed.

Lemma escape_char_plain c : no_byte "&" (escape_char c) = true /\ no_byte ";" (escape_char c) = true /\ no_byte "=" (escape_char c) = true.
Proof. destruct c as [[] [] [] [] [] [] [] []]; vm_compute; auto. Qed.

Lemma escape_plain s : no_byte "&" (QueryEscape s) = true /\ no_byte ";" (QueryEscape s) = true /\ no_byte "=" (QueryEscape s) = true.
Proof.
  induction s as [|c s (H1 & H2 & H3)]; [done|]. cbn [QueryEscape]. destruct (escape_char_plain c) as (H4 & H5 & H6).
  rewrite !no_byte_app. by rewrite H1, H2, H3, H4, H5, H6.
Qed.

Lemma cut_app sep a b : no_byte sep a = true -> cut sep (a +:+ String sep b) = (a, b).
Proof.
  induction a as [|c a IH]; cbn [no_byte].
  - intros _. change ("" +:+ String sep b) with (String sep b). cbn. by rewrite Ascii.eqb_refl.
  - intros [Hc Ha]%andb_true_iff. rewrite str_app_cons. cbn [cut]. apply negb_true_iff in Hc. rewrite Hc, (IH Ha). done.
Qed.
