(* ===== verification/Onboard.v ===== *)
(** * Onboarding a phone

    cmd/orchestrator/main.go [runMintQR]: the link a QR code carries.
    internal/mobile/state/deeplink.go: what the phone reads out of it.
    internal/mobile/state/tokens.go: the file that keeps the credentials.
    internal/mobile/state/admin.go: the client of the settings API.

    A URL is its parsed form ([User] keeps the user information, [ForceQuery] a
    bare question mark); [url.Parse] and [URL.String] are parameters. *)

From S2P Require Import Prelude GoString GoConv Event Paths UrlQuery.

Record URL := mkURL {
  Scheme : string; User : string; Host : string; Path : string; ForceQuery : bool; RawQuery : string; Fragment : string }.

(** ** The link *)

(** [url.Values.Encode]: keys in order. *)
Definition onboard_fragment (token sid : string) : string :=
  (if String.eqb sid "" then "" else "sid=" +:+ QueryEscape sid +:+ "&") +:+ "token=" +:+ QueryEscape token.

Definition scope_list (scopes : string) : list string :=
  List.filter (fun s => negb (String.eqb s "")) (TrimSpace <$> SplitByte "," scopes).

(** [runMintQR]: exit code 1, or 0 and the link; [parse] is [url.Parse], [load]
    whether the configuration loads, [sign] the issuer, [encode] whether a QR
    code can be drawn, [write] whether the PNG can be written. *)
Definition runMintQR (secret_set : bool) (parse : string -> option URL) (load : bool) (sign : string -> string -> list string -> option string)
    (encode write : URL -> bool) (serverURL sub sid scopes out : string) : Z * option URL :=
  if negb secret_set then (1%Z, None)
  else match parse serverURL with
  | None => (1%Z, None)
  | Some u =>
      if String.eqb (Host u) "" then (1%Z, None)
      else if negb load then (1%Z, None)
      else match sign sub sid (scope_list scopes) with
      | None => (1%Z, None)
      | Some token =>
          let link := mkURL (Scheme u) (User u) (Host u) "/" (ForceQuery u) "" (onboard_fragment token sid) in
          if negb (encode link) then (1%Z, Some link)
          else if negb (String.eqb out "") && negb (write link) then (1%Z, Some link)
          else (0%Z, Some link)
      end
  end.

(** ** The phone *)

Definition ExtractOnboardParams (u : option URL) : string * string * string :=
  match u with
  | None => ("", "", "")
  | Some u =>
      if String.eqb (Scheme u) "nomaddev" then
        let q := (ParseQuery (RawQuery u)).1 in (query_get q "server", query_get q "token", query_get q "sid")
      else
        let '(server, token, sid) :=
          if String.eqb (Fragment u) "" then ("", "", "")
          else match ParseQuery (Fragment u) with
               | (q, false) => (query_get q "server", query_get q "token", query_get q "sid")
               | (_, true) => ("", "", "")
               end in
        (if String.eqb server "" && negb (String.eqb (Host u) "")
         then (if String.eqb (Scheme u) "https" then "wss" else "ws") +:+ "://" +:+ Host u +:+ "/ws" else server, token, sid)
  end.

(** ** The credentials file *)

Inductive token_error := ErrNoToken | ErrToken (msg : string).

(** The file's decoded contents when it decodes. *)
Record tokenFile := mkTokenFile { tf_ServerURL : string; tf_Token : string }.

Record token_disk := mkTokenDisk { td_file : option string; td_tmp : option string }.

Record token_faults := mkTokenFaults { tk_read : bool; tk_mkdir : bool; tk_write : option (option nat); tk_rename : bool; tk_remove : bool }.

Section tokens.
Variable marshal : tokenFile -> string.
Variable unmarshal : string -> option tokenFile.

Definition Load (flt : token_faults) (d : token_disk) : result token_error (string * string) :=
  match td_file d with
  | None => Err ErrNoToken
  | Some data =>
      if tk_read flt then Err (ErrToken "state: read token")
      else match unmarshal data with
           | None => Err (ErrToken "state: decode token")
           | Some f => if String.eqb (tf_Token f) "" then Err ErrNoToken else Ok (tf_ServerURL f, tf_Token f)
           end
  end.

(** The disks after each system call, last the one the call leaves; a failed
    write leaves the temporary file as it was or holding a prefix. *)
Definition Save (flt : token_faults) (d : token_disk) (serverURL token : string) : list token_disk * result token_error unit :=
  if tk_mkdir flt then ([d], Err (ErrToken "state: mkdir token dir"))
  else
    let data := marshal (mkTokenFile serverURL token) in
    match tk_write flt with
    | Some part => ([d; mkTokenDisk (td_file d) (from_option (fun n => Some (str_take n data)) (td_tmp d) part)], Err (ErrToken "state: write token"))
    | None =>
        let d1 := mkTokenDisk (td_file d) (Some data) in
        if tk_rename flt then ([d; d1], Err (ErrToken "state: rename token"))
        else ([d; d1; mkTokenDisk (Some data) None], Ok tt)
    end.

Definition Clear (flt : token_faults) (d : token_disk) : token_disk * result token_error unit :=
  match td_file d with
  | None => (d, Ok tt)
  | Some _ => if tk_remove flt then (d, Err (ErrToken "state: clear token")) else (mkTokenDisk None (td_tmp d), Ok tt)
  end.

(** Saving is all or nothing at every moment, and what is saved is loaded. *)
Lemma save_is_atomic flt d url token : (forall f, unmarshal (marshal f) = Some f) -> token <> "" ->
  let '(disks, res) := Save flt d url token in
  Forall (fun d' => td_file d' = td_file d \/ td_file d' = Some (marshal (mkTokenFile url token))) disks /\
  match res with
  | Ok _ => forall flt', tk_read flt' = false -> Load flt' (default d (last disks)) = Ok (url, token)
  | Err _ => Forall (fun d' => td_file d' = td_file d) disks
  end.
Proof.
  intros Hj Ht. unfold Save. assert (forall P Q : token_disk -> Prop, forall l, Forall P l -> Forall (fun d' => P d' \/ Q d') l) as Hor
    by (intros P Q l H; eapply Forall_impl; [exact H|auto]).
  destruct (tk_mkdir flt); [split; [apply Hor|]; by repeat constructor|].
  destruct (tk_write flt); [split; [apply Hor|]; by repeat constructor|].
  destruct (tk_rename flt); [split; [apply Hor|]; by repeat constructor|].
  split; [repeat (apply Forall_cons_2; [auto|]); constructor|].
  intros flt' Hr. unfold Load. cbn. rewrite Hr, Hj. cbn. by rewrite (proj2 (String.eqb_neq token "")).
Qed.
End tokens.

(** ** The settings client *)

Inductive admin_error := EmptyURL | BadURL | UnsupportedScheme | NoHost.

(** [strings.TrimRight(s, "/")] *)
Fixpoint trim_slashes (s : string) : string :=
  match s with
  | EmptyString => ""
  | String c s' => match trim_slashes s' with
                   | EmptyString => if Ascii.eqb c "/" then "" else String c ""
                   | r => String c r
                   end
  end.

Definition DeriveHTTPBase (parse : string -> option URL) (print : URL -> string) (raw : string) : result admin_error string :=
  if String.eqb raw "" then Err EmptyURL
  else match parse raw with
  | None => Err BadURL
  | Some u =>
      let go scheme := if String.eqb (Host u) "" then Err NoHost else Ok (trim_slashes (print (mkURL scheme (User u) (Host u) "" (ForceQuery u) "" ""))) in
      if String.eqb (Scheme u) "ws" then go "http"
      else if String.eqb (Scheme u) "wss" then go "https"
      else if String.eqb (Scheme u) "http" || String.eqb (Scheme u) "https" then go (Scheme u)
      else Err UnsupportedScheme
  end.

(** ** Round trip *)

Lemma pair_parses k v : no_byte ";" k = true -> no_byte "=" k = true -> QueryUnescape k = Some k -> k <> "" ->
  forall l, parse_pairs ((k +:+ "=" +:+ QueryEscape v) :: l) = ((k, v) :: (parse_pairs l).1, (parse_pairs l).2).
Proof.
  intros H1 H2 H3 Hk l. cbn [parse_pairs]. destruct (parse_pairs l) as [ps err]. destruct (escape_plain v) as (_ & Hs & _).
  rewrite !no_byte_app, H1, Hs. change (no_byte ";" "=") with true. cbn [andb negb].
  destruct (String.eqb_spec (k +:+ "=" +:+ QueryEscape v) "") as [He|_]; [by destruct k|].
  change ("=" +:+ QueryEscape v) with (String "=" (QueryEscape v)). rewrite (cut_app "=" k) by done. by rewrite H3, query_roundtrip.
Qed.

Lemma fragment_parses token sid :
  ParseQuery (onboard_fragment token sid) = ((if String.eqb sid "" then [] else [("sid", sid)]) ++ [("token", token)], false).
Proof.
  unfold ParseQuery, onboard_fragment. destruct (escape_plain token) as (Ht & _). destruct (escape_plain sid) as (Hs & _).
  assert (no_byte "&" ("token=" +:+ QueryEscape token) = true) as Ht' by (rewrite no_byte_app, Ht; done).
  destruct (String.eqb_spec sid "") as [->|Hne].
  - rewrite str_app_nil_l, Split_single by done. change ("token=" +:+ QueryEscape token) with ("token" +:+ "=" +:+ QueryEscape token). by rewrite pair_parses.
  - assert (no_byte "&" ("sid=" +:+ QueryEscape sid) = true) as Hs' by (rewrite no_byte_app, Hs; done).
    assert (("sid=" +:+ QueryEscape sid +:+ "&") +:+ "token=" +:+ QueryEscape token = ("sid=" +:+ QueryEscape sid) +:+ String "&" ("token=" +:+ QueryEscape token)) as ->
      by (by rewrite <-!str_app_assoc).
    rewrite Split_app, !Split_single by done. cbn [app].
    change ("sid=" +:+ QueryEscape sid) with ("sid" +:+ "=" +:+ QueryEscape sid). change ("token=" +:+ QueryEscape token) with ("token" +:+ "=" +:+ QueryEscape token).
    by rewrite !pair_parses.
Qed.

(** A phone that scans the code learns exactly what was minted: whenever the command prints a link for a web address, its path and query carry nothing of it, and the phone reads from it the minted token, the session id that was asked for, and the WebSocket address of that same host, secure when the address was. *)
Theorem onboarding_link_roundtrip secret parse load sign encode write serverURL sub sid scopes out code u link :
  parse serverURL = Some u -> Scheme u <> "nomaddev" ->
  runMintQR secret parse load sign encode write serverURL sub sid scopes out = (code, Some link) ->
  RawQuery link = "" /\ Path link = "/" /\ exists token, sign sub sid (scope_list scopes) = Some token /\
    ExtractOnboardParams (Some link) = ((if String.eqb (Scheme u) "https" then "wss" else "ws") +:+ "://" +:+ Host u +:+ "/ws", token, sid).
Proof.
  intros Hp Hsch. unfold runMintQR. destruct secret; [|done]. rewrite Hp. cbn [negb]. destruct (String.eqb_spec (Host u) "") as [|Hh]; [done|].
  destruct load; [|done]. cbn [negb]. destruct (sign sub sid (scope_list scopes)) as [token|]; [|done]. intros Hr.
  assert (link = mkURL (Scheme u) (User u) (Host u) "/" (ForceQuery u) "" (onboard_fragment token sid)) as -> by (repeat case_match; congruence). clear Hr.
  split; [done|]. split; [done|]. exists token. split; [done|]. unfold ExtractOnboardParams. cbn [Scheme Fragment Host].
  rewrite (proj2 (String.eqb_neq (Scheme u) "nomaddev")) by done.
  destruct (String.eqb_spec (onboard_fragment token sid) "") as [He|_].
  { unfold onboard_fragment in He. destruct (String.eqb sid ""); [by rewrite str_app_nil_l in He|done]. }
  rewrite fragment_parses. rewrite (proj2 (String.eqb_neq (Host u) "")) by done. cbn [negb andb].
  destruct (String.eqb_spec sid "") as [->|Hsid]; cbn; [done|done].
Qed.

Lemma onboarding_link_roundtrip_witness :
  ExtractOnboardParams (Some (mkURL "https" "" "nd.example:8443" "/" false "" (onboard_fragment "a.b-c" "my phone&1"))) = ("wss://nd.example:8443/ws", "a.b-c", "my phone&1").
Proof.
  destruct (onboarding_link_roundtrip true (fun _ => Some (mkURL "https" "" "nd.example:8443" "" false "" "")) true (fun _ _ _ => Some "a.b-c") (fun _ => true) (fun _ => true)
    "https://nd.example:8443" "matt" "my phone&1" "orchestrator:connect" "" 0%Z _ _ eq_refl ltac:(discriminate) eq_refl) as (_ & _ & token & [= <-] & H). exact H.
Defined.
