(* ===== verification/Images.v ===== *)
(** * Image attachments, from the phone's picker to the model's request

    internal/mobile/state/images.go: reading, typing and encoding a picked file.
    internal/wsserver/images.go: what the server accepts of an intent's images.

    internal/mobile/ui/app.go [openImagePicker]: the composition on the phone.

    [DetectContentType] (the sniffer of net/http) is a parameter. *)

From S2P Require Import Prelude GoString GoConv Event GoNum Wire MobileState MobileStore Base64 Translators.

(** ** The phone *)

Section phone.
Variable DetectContentType : string -> string.

Definition extOf (name : string) : string :=
  let name := ToLower name in
  match LastIndexByte name "." with
  | None => ""
  | Some i => if Nat.eqb (S i) (String.length name) then "" else str_drop (S i) name
  end.

Definition detectImageMIME (data filenameHint : string) : string :=
  let mt := DetectContentType data in
  let mt := match Index mt ";" with Some i => str_take i mt | None => mt end in
  let mt := ToLower (TrimSpace mt) in
  if isAcceptedImageMIME mt then mt
  else
    let ext := extOf filenameHint in
    if String.eqb ext "jpg" || String.eqb ext "jpeg" then "image/jpeg"
    else if String.eqb ext "png" then "image/png"
    else if String.eqb ext "gif" then "image/gif"
    else if String.eqb ext "webp" then "image/webp"
    else mt.

Inductive decode_error := ErrRead | ErrDecode (e : ImageAttachmentError).

(** A reader is what it yields, or [None] when it fails before the limit. *)
Definition DecodeImageAttachment (r : option string) (filenameHint : string) : Z * result decode_error ImageInput :=
  match r with
  | None => (0%Z, Err ErrRead)
  | Some all =>
      let raw := str_take (Z.to_nat (MaxImageBytes + 1)) all in
      let mt := detectImageMIME raw filenameHint in
      (Z.of_nat (String.length raw), if negb (isAcceptedImageMIME mt) then Err (ErrDecode ErrUnsupportedMimeType) else Ok (Wire.mkImage mt (b64_encode raw)))
  end.

Definition attachment_message (e : ImageAttachmentError) : string :=
  match e with
  | ErrImageTooLarge => "image exceeds the per-attachment size cap"
  | ErrTooManyImages => "too many attachments queued"
  | ErrUnsupportedMimeType => "unsupported image type"
  end.

(** What the platform's chooser gives: nothing, an error, or a file (its
    contents, or [None] when it cannot be read) and its name. *)
Inductive pick := PickDeclined | PickError (e : string) | Picked (contents : option string) (hint : string).

Definition openImagePicker (s : State) (p : pick) : State :=
  match p with
  | PickDeclined => s
  | PickError e => SetLastError ("pick image: " +:+ e) s
  | Picked f hint =>
      match DecodeImageAttachment f hint with
      | (_, Err ErrRead) => SetLastError "state: read image" s
      | (_, Err (ErrDecode e)) => SetLastError (attachment_message e) s
      | (decoded, Ok img) =>
          match AddPendingImage img decoded s with
          | (s', Some e) => SetLastError (attachment_message e) s'
          | (s', None) => SetLastError "" s'
          end
      end
  end.
End phone.

(** ** The server *)

Definition allowedImageMediaTypes : list string := ["image/jpeg"; "image/png"; "image/gif"; "image/webp"].

Inductive image_error :=
| ImagesDisabled
| TooManyImages (got max : Z)
| BadMediaType (i : nat) (mt : string)
| EncodedTooLarge (i : nat) (size cap : Z)
| BadBase64 (i : nat)
| DecodedTooLarge (i : nat) (size cap : Z)
| EmptyImage (i : nat).

Definition decode_image (maxBytes : Z) (i : nat) (img : ImageInput) : result image_error Translators.ImageData :=
  if negb (existsb (String.eqb (MediaType img)) allowedImageMediaTypes) then Err (BadMediaType i (MediaType img))
  else if (wrap64 (maxBytes * 2) <? Z.of_nat (String.length (Wire.ImageData img)))%Z then Err (EncodedTooLarge i (Z.of_nat (String.length (Wire.ImageData img))) maxBytes)
  else match b64_decode (Wire.ImageData img) with
  | None => Err (BadBase64 i)
  | Some raw =>
      if (maxBytes <? Z.of_nat (String.length raw))%Z then Err (DecodedTooLarge i (Z.of_nat (String.length raw)) maxBytes)
      else if Nat.eqb (String.length raw) 0 then Err (EmptyImage i)
      else Ok (Translators.mkImage (MediaType img) raw)
  end.

(** The loop: the first refusal ends it. *)
Fixpoint decode_images (maxBytes : Z) (i : nat) (l : list ImageInput) : result image_error (list Translators.ImageData) :=
  match l with
  | [] => Ok []
  | img :: l =>
      match decode_image maxBytes i img with
      | Err e => Err e
      | Ok d => match decode_images maxBytes (S i) l with Err e => Err e | Ok ds => Ok (d :: ds) end
      end
  end.

Definition decodeIntentImages (l : list ImageInput) (maxCount maxBytes : Z) : result image_error (list Translators.ImageData) :=
  if Nat.eqb (length l) 0 then Ok []
  else if ((maxCount <=? 0) || (maxBytes <=? 0))%Z then Err ImagesDisabled
  else if (maxCount <? Z.of_nat (length l))%Z then Err (TooManyImages (Z.of_nat (length l)) maxCount)
  else decode_images maxBytes 0 l.

(** ** What arrives *)

#[local] Open Scope nat_scope.

Lemma b64_length s : 3 * String.length (b64_encode s) <= 4 * String.length s + 8 /\ (2 <= String.length s -> String.length (b64_encode s) <= 2 * String.length s).
Proof.
  induction s as [|a|a b|a b c rest IH] using three_ind; [cbn; lia..|].
  assert (String.length (b64_encode (String a (String b (String c rest)))) = 4 + String.length (b64_encode rest)) as -> by done.
  cbn [String.length]. lia.
Qed.

(** The picture in a pick, if the phone can send it. *)
Definition picture (D : string -> string) (p : pick) : option Translators.ImageData :=
  match p with
  | Picked (Some f) hint =>
      let mt := detectImageMIME D f hint in
      if isAcceptedImageMIME mt && (Z.of_nat (String.length f) <=? MaxImageBytes)%Z then Some (Translators.mkImage mt f) else None
  | _ => None
  end.

Definition encode_image (i : Translators.ImageData) : ImageInput := Wire.mkImage (im_MediaType i) (b64_encode (im_Data i)).

Lemma allowed_is_accepted mt : existsb (String.eqb mt) allowedImageMediaTypes = isAcceptedImageMIME mt.
Proof. unfold isAcceptedImageMIME. cbn. by rewrite orb_false_r, !orb_assoc. Qed.

Definition sendable (i : Translators.ImageData) : Prop :=
  isAcceptedImageMIME (im_MediaType i) = true /\ 1 <= String.length (im_Data i) /\ (Z.of_nat (String.length (im_Data i)) <= MaxImageBytes)%Z.

Lemma sendable_decodes maxBytes n i : (MaxImageBytes <= maxBytes < 2 ^ 62)%Z -> sendable i -> decode_image maxBytes n (encode_image i) = Ok i.
Proof.
  intros Hm (Ha & H1 & Hs). destruct i as [mt f]. unfold decode_image, encode_image. cbn [Wire.MediaType Wire.ImageData im_MediaType im_Data] in *.
  rewrite allowed_is_accepted, Ha, b64_roundtrip. cbn [negb]. destruct (b64_length f) as [Hl Hd].
  assert (MaxImageBytes = 5242880%Z) as HM by reflexivity.
  replace (wrap64 (maxBytes * 2)) with (maxBytes * 2)%Z by (unfold wrap64; rewrite Z.mod_small; lia).
  rewrite (proj2 (Z.ltb_ge _ _)) by lia. rewrite (proj2 (Z.ltb_ge _ _)) by lia. by rewrite (proj2 (Nat.eqb_neq _ _)) by lia.
Qed.

Lemma all_sendable_decode maxBytes l : (MaxImageBytes <= maxBytes < 2 ^ 62)%Z -> Forall sendable l ->
  forall n, decode_images maxBytes n (encode_image <$> l) = Ok l.
Proof. intros Hm. induction 1 as [|i l Hi _ IH]; intros n; cbn; [done|]. by rewrite sendable_decodes, IH. Qed.

(** The phone's queue is the first pictures picked. *)
Lemma pick_queues D p : forall s, PendingImages (openImagePicker D s p) =
  if MaxImageCount <=? length (PendingImages s) then PendingImages s else PendingImages s ++ (encode_image <$> option_list (picture D p)).
Proof.
  intros s. destruct p as [|e|[f|] hint]; cbn [openImagePicker picture]; try (cbn [option_list fmap list_fmap]; rewrite app_nil_r; by destruct (MaxImageCount <=? _)).
  unfold DecodeImageAttachment. set (raw := str_take _ f).
  destruct (decide (Z.of_nat (String.length f) <= MaxImageBytes)%Z) as [Hle|Hgt].
  - assert (raw = f) as -> by (apply str_take_all; lia). rewrite (proj2 (Z.leb_le _ _)), andb_true_r by done.
    destruct (isAcceptedImageMIME (detectImageMIME D f hint)) eqn:Ha; cbn [negb andb option_list fmap list_fmap]; [|rewrite app_nil_r; by destruct (MaxImageCount <=? _)].
    unfold AddPendingImage. cbn [Wire.MediaType]. rewrite Ha, (proj2 (Z.ltb_ge _ _)) by lia. cbn [negb]. by destruct (MaxImageCount <=? _).
  - rewrite (proj2 (Z.leb_gt _ _)), andb_false_r by lia. cbn [option_list fmap list_fmap]. rewrite app_nil_r.
    assert ((MaxImageBytes <? Z.of_nat (String.length raw))%Z = true) as Hbig by (apply Z.ltb_lt; unfold raw; rewrite str_length_take; unfold MaxImageBytes in *; lia).
    transitivity (PendingImages s); [|by destruct (MaxImageCount <=? _)].
    destruct (isAcceptedImageMIME (detectImageMIME D raw hint)) eqn:Ha; cbn [negb]; [|done].
    unfold AddPendingImage. cbn [Wire.MediaType]. by rewrite Ha, Hbig.
Qed.

Lemma queue_is_first_pictures D picks : forall s l, PendingImages s = encode_image <$> l -> length l <= MaxImageCount ->
  PendingImages (foldl (openImagePicker D) s picks) = encode_image <$> take MaxImageCount (l ++ omap (picture D) picks).
Proof.
  induction picks as [|p picks IH]; intros s l Hs Hl; cbn [foldl omap list_omap].
  - by rewrite app_nil_r, take_ge.
  - pose proof (pick_queues D p s) as Hq. rewrite Hs, length_fmap in Hq. destruct (Nat.leb_spec MaxImageCount (length l)) as [Hf|Hf].
    + rewrite (IH _ l Hq Hl). assert (length l = MaxImageCount) as <- by lia. by rewrite !take_app_length.
    + destruct (picture D p) as [i|]; cbn [option_list fmap list_fmap] in Hq.
      * rewrite (IH _ (l ++ [i])); [by rewrite <-app_assoc|by rewrite Hq, fmap_app|rewrite length_app; cbn; lia].
      * apply IH; [by rewrite Hq, app_nil_r|done].
Qed.

Definition nonempty_pick (p : pick) : Prop := match p with Picked (Some f) _ => f <> "" | _ => True end.

Lemma pictures_sendable D picks : Forall nonempty_pick picks -> Forall sendable (omap (picture D) picks).
Proof.
  induction 1 as [|p picks Hp _ IH]; cbn [omap list_omap]; [constructor|]. destruct (picture D p) as [i|] eqn:E; [|done]. constructor; [|done].
  destruct p as [| |[f|] hint]; try done. cbn [picture] in E. destruct (isAcceptedImageMIME _) eqn:Ha; [|done]. cbn [andb] in E.
  destruct (Z.leb_spec (Z.of_nat (String.length f)) MaxImageBytes); [|done]. injection E as <-. repeat split; cbn; [done| |done].
  cbn in Hp. destruct f; [done|cbn; lia].
Qed.

(** C33: Attachments reach the model as they were picked: however many files
    the user picks and whatever the chooser and the reader answer, as long as no
    file read is empty (an empty one with a picture's name makes the server
    refuse the whole message), a server that admits at least four images of at
    least the phone's five megabytes each, and less than 2^62 bytes, decodes the
    queue without an error into the first four readable files of an accepted type
    and size, each whole, byte for byte, in the order they were picked and with
    the type the phone detected. *)
Theorem attachments_arrive_intact D picks maxCount maxBytes :
  Forall nonempty_pick picks -> (Z.of_nat MaxImageCount <= maxCount)%Z -> (MaxImageBytes <= maxBytes < 2 ^ 62)%Z ->
  decodeIntentImages (PendingImages (foldl (openImagePicker D) init_state picks)) maxCount maxBytes = Ok (take MaxImageCount (omap (picture D) picks)).
Proof.
  intros Hp Hc Hm. rewrite (queue_is_first_pictures D picks init_state []) by (done || (cbn; lia)). cbn [app]. set (l := take _ _).
  assert (Forall sendable l) as Hl by (by apply Forall_take, pictures_sendable). assert (length l <= MaxImageCount) as Hn by (unfold l; rewrite length_take; lia).
  unfold decodeIntentImages. rewrite length_fmap. assert (Z.of_nat MaxImageCount = 4%Z /\ MaxImageBytes = 5242880%Z) as [] by done.
  destruct (Nat.eqb_spec (length l) 0) as [Hz|Hz]; [by apply nil_length_inv in Hz as ->|].
  rewrite (proj2 (Z.leb_gt maxCount 0)), (proj2 (Z.leb_gt maxBytes 0)), (proj2 (Z.ltb_ge maxCount _)) by lia. by apply all_sendable_decode.
Qed.

Lemma attachments_arrive_intact_witness :
  let D := fun s => if HasPrefix s "GIF" then "image/gif" else "text/plain; charset=utf-8" in
  decodeIntentImages (PendingImages (foldl (openImagePicker D) init_state
    [Picked (Some "GIF89a!") "x"; PickDeclined; Picked (Some "plain") "a.txt"; Picked None "b.png"; Picked (Some "pixels") "My.Photo.JPG"])) 4 5242880 =
  Ok [Translators.mkImage "image/gif" "GIF89a!"; Translators.mkImage "image/jpeg" "pixels"].
Proof.
  intros D. rewrite (attachments_arrive_intact D); [vm_compute; reflexivity| |vm_compute; discriminate|split; [vm_compute; discriminate|reflexivity]].
  repeat constructor; discriminate.
Defined.

(** An empty file with the name of a picture is queued, and the server then
    refuses the whole intent. *)
Lemma empty_file_refuses_intent (D : string -> string) : D "" = "text/plain; charset=utf-8" ->
  decodeIntentImages (PendingImages (foldl (openImagePicker D) init_state [Picked (Some "") "a.png"])) 4 MaxImageBytes = Err (EmptyImage 0).
Proof.
  intros HD. rewrite (queue_is_first_pictures D _ init_state []) by (done || (cbn; lia)). cbn [app omap list_omap picture].
  unfold detectImageMIME. rewrite HD. vm_compute. reflexivity.
Qed.
