(* ===== verification/UserIntent.v ===== *)
(** * A user's message (internal/wsserver/middleware.go)

    [handleUserIntent]: the checks of an intent, the semaphore of turns, and the
    turn it starts, run to its end; the turn as it is stored.  The translator is
    a function of the payload and the decoded images, JSON a parameter. *)

From S2P Require Import Prelude GoString GoConv Event Utf8 Wire Paths Sandbox Auth Os Fsops FsopsSpec History Tools WorkerPool Approver Recovery Server ServerSpec Dispatcher Intent IntentSpec GoNum Models MobileState MobileStore Base64 Translators Images.

Record UserIntentPayload := mkIntent { ui_Text : string; ui_HistoryHint : Z; ui_Mode : string; ui_Images : list ImageInput }.

Definition UserIntentModeNormal : string := "".
Definition UserIntentModeAudit : string := "audit".

(** The part of the middleware's configuration the checks read. *)
Record intent_config := mkIntentConfig { ic_Provider : string; ic_Model : string; ic_MaxImages : Z; ic_MaxImageBytes : Z }.

(** The checks, in order; [Error] is the text of an image's refusal, and the
    JSON decoder's own messages are left out. *)
Definition check_intent (Error : image_error -> string) (mw : option intent_config) (payload : option UserIntentPayload) : result (string * string) (UserIntentPayload * list Translators.ImageData) :=
  match mw with
  | None => Err ("not_implemented", "middleware not configured")
  | Some ic =>
      match payload with
      | None => Err ("bad_envelope", "decode")
      | Some p =>
          if String.eqb (ui_Text p) "" then Err ("bad_envelope", "missing text")
          else if negb (String.eqb (ui_Mode p) UserIntentModeNormal) && negb (String.eqb (ui_Mode p) UserIntentModeAudit)
          then Err ("bad_envelope", "unsupported mode: " +:+ ui_Mode p)
          else match decodeIntentImages (ui_Images p) (ic_MaxImages ic) (ic_MaxImageBytes ic) with
          | Err e => Err ("bad_envelope", Error e)
          | Ok images =>
              if negb (Nat.eqb (length images) 0) && negb (SupportsVision (ic_Provider ic) (ic_Model ic))
              then Err ("bad_envelope", "model " +:+ ic_Provider ic +:+ "/" +:+ ic_Model ic +:+
                          " does not support image inputs; switch the runtime to a vision-capable model (e.g. deepseek-vl2 for DeepSeek, gpt-4o-mini for OpenAI)")
              else Ok (p, images)
          end
      end
  end.

Lemma check_intent_ok Error mw payload p images : check_intent Error mw payload = Ok (p, images) ->
  ui_Text p <> "" /\ ui_Mode p ∈ [UserIntentModeNormal; UserIntentModeAudit] /\
  exists ic, mw = Some ic /\ decodeIntentImages (ui_Images p) (ic_MaxImages ic) (ic_MaxImageBytes ic) = Ok images /\
    (images <> [] -> SupportsVision (ic_Provider ic) (ic_Model ic) = true).
Proof.
  destruct mw as [ic|]; [|done]. destruct payload as [q|]; [|done]. cbn [check_intent]. destruct (String.eqb_spec (ui_Text q) ""); [done|].
  destruct (negb (String.eqb (ui_Mode q) UserIntentModeNormal) && negb (String.eqb (ui_Mode q) UserIntentModeAudit)) eqn:Em; [done|]. destruct (decodeIntentImages _ _ _) as [imgs|] eqn:Ed; [|done]. destruct (negb (Nat.eqb (length imgs) 0) && negb (SupportsVision (ic_Provider ic) (ic_Model ic))) eqn:Ev; [done|].
  intros Heq. injection Heq as <- <-.
  split; [done|]. split.
  - apply andb_false_iff in Em as [Em|Em]; apply negb_false_iff, String.eqb_eq in Em; rewrite Em; [by apply list_elem_of_here|by apply list_elem_of_further, list_elem_of_here].
  - exists ic. split; [done|]. split; [done|]. intros Hne. apply andb_false_iff in Ev as [Ev|Ev]; apply negb_false_iff in Ev; [|done].
    by apply Nat.eqb_eq, nil_length_inv in Ev.
Qed.

(** ** The stored turn *)

Definition stored_image (i : Translators.ImageData) : any := AMap [("data", AStr (b64_encode (im_Data i))); ("media_type", AStr (im_MediaType i))].

Definition user_turn_value (text : string) (images : list Translators.ImageData) : args :=
  (if Nat.eqb (length images) 0 then [] else [("images", AArr (stored_image <$> images))]) ++ [("text", AStr text)].

Definition mustMarshalUserTurn (marshal : args -> string) (text : string) (images : list Translators.ImageData) : string := marshal (user_turn_value text images).

(** Running [m] between [acquire] and [release] restores the slots. *)
Lemma slot_around {A} (m : M A) (refused : M unit) Q : emits refused Q -> emits m (fun l _ => Q l tt) ->
  emits (ok ← acquire; if negb (ok : bool) then refused else m ≫= fun _ => release) Q.
Proof.
  intros Hr Hm. refine (with_slot m (fun _ => mret tt) refused Q Hr _). intros w. destruct (Hm w) as (n & l & Hn & E & HQ). exists n, l.
  unfold mbind, M_bind. destruct (m w) as [w' a]. by split_and!.
Qed.

Section intent.
Variable Error : image_error -> string.
Variable NewID : nat -> string.
Variable elapsed : nat -> Z.
Variable answer : string -> await_result.
Variable flt : faults.
Variable cf : server_config.
Variable fs : FS.
Variable tc : turn_config.
Variable url_Parse : string -> option (string * string).
Variable Dispatch : list effect -> Call -> string -> result gerror (list ExecChunk).
Variable delegate : string -> string -> Call -> M outcome.
Variable history_ok : list effect -> bool.
Variable cost : Usage -> float64.
Variable resume : list ToolResult -> option (list AssistantEvent).
Variable window : UserIntentPayload -> option string.                 (* the history store's error *)
Variable translate : UserIntentPayload -> list Translators.ImageData -> result string (list AssistantEvent).

(** The slots of the world are those of the turns' semaphore. *)
Definition handleUserIntent `{Unmarshal UserIntentPayload} (fuel : nat) (mw : option intent_config) (e : Envelope) : M unit :=
  match check_intent Error mw (UnmarshalPayload (mkIntent "" 0 "" []) e) with
  | Err (code, msg) => replyError NewID (ID e) code msg
  | Ok (p, images) =>
      ok ← acquire;
      if negb (ok : bool) then emitAssistantMessage NewID cost (ID e) "" "error" "middleware at capacity" no_usage
      else
        _ ← runIntent NewID elapsed answer flt cf fs tc url_Parse Dispatch delegate history_ok cost resume fuel (ID e) (ui_Text p) (ui_Mode p) (window p) (translate p images);
        release
  end.

Context `{Hdispatch : !DispatchContract Dispatch, Hdelegate : !DelegateContract NewID delegate}.

Definition no_calls_after (N : nat) : Prop := forall rs evs, N < length rs -> resume rs = Some evs -> no_calls evs.

(** C14: Every message a user sends is answered exactly once, and no slot is
    lost, provided the model stops asking: there is a number of stages after
    which the translator's continuation yields no further tool call (the code
    itself sets no limit on the stages of a turn), and the sandbox's dispatch and
    the delegated handlers keep their contracts.  Then the log of an intent is
    either one error frame that answers it, the check it failed named, or a
    closed turn, which is what starts only for a configured runtime, a non-empty
    text, a known mode, images that all decode within the limits, and a model
    that sees them; whatever happens the semaphore has as many free slots
    afterwards as before. *)
Theorem user_intent_answered_once `{Unmarshal UserIntentPayload} (N : nat) (mw : option intent_config) (e : Envelope) (w : world) : no_calls_after N ->
  let w' := (handleUserIntent (S (S N)) mw e w).1 in
  slots w' = slots w /\ exists l, elog w' = elog w ++ l /\
    match check_intent Error mw (UnmarshalPayload (mkIntent "" 0 "" []) e) with
    | Err (code, msg) => exists id, l = [Emit (mkFrame id (ID e) (BError (mkErrorPayload code msg)))]
    | Ok (p, images) => closed_turn (ID e) l /\ ui_Text p <> "" /\ ui_Mode p ∈ [UserIntentModeNormal; UserIntentModeAudit] /\
        exists ic, mw = Some ic /\ decodeIntentImages (ui_Images p) (ic_MaxImages ic) (ic_MaxImageBytes ic) = Ok images /\
          (images <> [] -> SupportsVision (ic_Provider ic) (ic_Model ic) = true)
    end.
Proof.
  intros HN. cbn zeta. unfold handleUserIntent. destruct (check_intent _ _ _) as [[p images]|[code msg]] eqn:Ec.
  2:{ destruct (emits_reply NewID (ID e) (BError (mkErrorPayload code msg)) (fun l _ => exists id, l = [Emit (mkFrame id (ID e) (BError (mkErrorPayload code msg)))])
        (fun id => ex_intro _ id eq_refl) w) as (n & l & _ & E & Hl). unfold replyError. rewrite E. split; [done|]. by exists l. }
  assert (ui_Text p <> "" /\ ui_Mode p ∈ [UserIntentModeNormal; UserIntentModeAudit] /\
        exists ic, mw = Some ic /\ decodeIntentImages (ui_Images p) (ic_MaxImages ic) (ic_MaxImageBytes ic) = Ok images /\
          (images <> [] -> SupportsVision (ic_Provider ic) (ic_Model ic) = true)) as Hp by (by apply (check_intent_ok _ _ _ _ _ Ec)).
  assert (emits (ok ← acquire; if negb (ok : bool) then emitAssistantMessage NewID cost (ID e) "" "error" "middleware at capacity" no_usage
      else _ ← runIntent NewID elapsed answer flt cf fs tc url_Parse Dispatch delegate history_ok cost resume (S (S N)) (ID e) (ui_Text p) (ui_Mode p) (window p) (translate p images);
        release) (fun l _ => closed_turn (ID e) l)) as He.
  { apply slot_around.
    - eapply emits_impl; [apply emits_message|]. intros l [] (id & q & ->). by exists [], id, q, [].
    - intros w0. destruct (runIntent_spec NewID elapsed answer flt cf fs tc url_Parse Dispatch delegate history_ok cost resume
        (S (S N)) (ID e) (ui_Text p) (ui_Mode p) (window p) (translate p images) w0) as (n & l & Hn & E & _ & Hc).
      exists n, l. split; [done|]. split; [done|].
      apply Hc. by apply runIntent_total. }
  destruct (He w) as (n & l & _ & E & Hl). rewrite E. split; [done|]. by exists l.
Qed.
End intent.

Definition demo_window (_ : UserIntentPayload) : option string := None.
Definition demo_translate (_ : UserIntentPayload) (_ : list Translators.ImageData) : result string (list AssistantEvent) := Ok [say "ok"; ask].
Definition demo_intent : UserIntentPayload := mkIntent "hello" 0 "" [Wire.mkImage "image/png" "iVBO"].
#[local] Instance demo_unmarshal : Unmarshal UserIntentPayload := fun _ => Some demo_intent.
Definition demo_envelope : Envelope := mkEnvelope "i1" "user.intent" 0 "" (Some ANil).

Lemma user_intent_answered_once_witness :
  let w' mw := (handleUserIntent (fun _ => "refused") demo_ids (fun _ => 0%Z) (fun _ => Granted) no_faults demo_cf (∅ : FS) demo_tc no_url demo_dispatch demo_delegate (fun _ => true)
    (fun _ => fzero) learns demo_window demo_translate 3 mw demo_envelope (mkWorld 0 (Some 1) [])).1 in
  (exists l, elog (w' (Some (mkIntentConfig "openai" "gpt-4o" 4 5242880))) = l /\ closed_turn "i1" l) /\
  (exists msg id, elog (w' (Some (mkIntentConfig "openai" "o3-mini" 4 5242880))) = [Emit (mkFrame id "i1" (BError (mkErrorPayload "bad_envelope" msg)))]) /\
  slots (w' (Some (mkIntentConfig "openai" "gpt-4o" 4 5242880))) = Some 1.
Proof.
  assert (no_calls_after learns 1) as HN.
  { intros [|r1 [|r2 rs]] evs Hlen; simpl in Hlen; try lia. intros [= <-]. by repeat constructor. }
  pose proof (fun mw => user_intent_answered_once (fun _ => "refused") demo_ids (fun _ => 0%Z) (fun _ => Granted) no_faults demo_cf (∅ : FS) demo_tc no_url demo_dispatch demo_delegate
    (fun _ => true) (fun _ => fzero) learns demo_window demo_translate 1 mw demo_envelope (mkWorld 0 (Some 1) []) HN) as H. intros w'. split; [|split].
  - destruct (H (Some (mkIntentConfig "openai" "gpt-4o" 4 5242880))) as (_ & l & El & Hc & _). exists l. split; [exact El|exact Hc].
  - destruct (H (Some (mkIntentConfig "openai" "o3-mini" 4 5242880))) as (_ & l & El & id & Hl). eexists _, id. rewrite Hl in El. exact El.
  - exact (proj1 (H (Some (mkIntentConfig "openai" "gpt-4o" 4 5242880)))).
Defined.

(** ** What the model is told of it *)

Section stored.
Variable marshal : args -> string.
Variable decode_map : string -> option args.
Hypothesis json_roundtrip : forall text images, decode_map (marshal (user_turn_value text images)) = Some (user_turn_value text images).

(** A stored turn is read back whole, images included. *)
Lemma stored_turn_roundtrip sid idx role ts text images : text <> "" -> Forall (fun i => im_MediaType i <> "" /\ im_Data i <> "") images ->
  turn_content decode_map (History.mkTurn sid idx role (mustMarshalUserTurn marshal text images) ts) = Some (text, images).
Proof.
  intros Ht Hi. unfold turn_content, mustMarshalUserTurn. cbn [Parts]. rewrite json_roundtrip. cbn [mbind option_bind].
  assert (omap history_image (stored_image <$> images) = images) as Hm.
  { induction Hi as [|i l [Hmt Hd] _ IH]; [done|]. cbn [fmap list_fmap omap list_omap]. unfold stored_image at 1. cbn [history_image].
    assert (b64_encode (im_Data i) <> "") as He by (intros He; pose proof (b64_roundtrip (im_Data i)) as Hr; rewrite He in Hr; by injection Hr).
    change (arg_string_or_empty _ "media_type") with (im_MediaType i). change (arg_string_or_empty _ "data") with (b64_encode (im_Data i)).
    rewrite (proj2 (String.eqb_neq _ _) Hmt), (proj2 (String.eqb_neq _ _) He). cbn [orb]. rewrite b64_roundtrip. cbn [mbind option_bind].
    rewrite (proj2 (String.eqb_neq _ _) Hd), IH. by destruct i. }
  assert (arg_string_or_empty (user_turn_value text images) "text" = text) as -> by (by destruct images).
  assert (extractHistoryImages (user_turn_value text images) = images) as ->.
  { unfold user_turn_value, extractHistoryImages. destruct images as [|i l]; [done|]. cbn [length Nat.eqb app arg_lookup String.eqb]. exact Hm. }
  by rewrite (proj2 (String.eqb_neq _ _) Ht).
Qed.

(** The turn is stored before the window is loaded, and the translator adds it
    once more: the model reads the message twice. *)
Lemma message_is_sent_twice sid ts text images (m : MemoryStore) n : sid <> "" -> text <> "" -> Forall (fun i => im_MediaType i <> "" /\ im_Data i <> "") images -> (0 < n)%Z ->
  let hist := mem_LoadWindow (mem_Append m (History.mkTurn sid 0 RoleUser (mustMarshalUserTurn marshal text images) ts)).1 sid n in
  exists before, anthropicHistoryToMessages decode_map hist text images =
    before ++ [AUser (anthropicContentBlocks text images); AUser (anthropicContentBlocks text images)].
Proof.
  intros Hsid Ht Hi Hn hist. assert (exists l idx, hist = l ++ [History.mkTurn sid idx RoleUser (mustMarshalUserTurn marshal text images) ts]) as (l & idx & ->).
  { unfold hist, mem_Append. cbn [SID Role Parts TTS]. rewrite (proj2 (String.eqb_neq _ _) Hsid). change (String.eqb RoleUser "") with false. cbn [orb fst]. unfold mem_LoadWindow.
    rewrite mem_thread_insert, String.eqb_refl. set (rows := mem_thread m sid). rewrite length_app. cbn [length].
    rewrite (proj2 (Z.leb_gt n 0)) by lia. cbn [orb]. case_match; [by eexists _, _|]. boolprop. rewrite drop_app_le by lia. by eexists _, _. }
  unfold anthropicHistoryToMessages. rewrite omap_app. cbn [omap list_omap]. unfold anthropic_turn at 2. rewrite stored_turn_roundtrip by done.
  cbn [mbind option_bind Role]. eexists. by rewrite String.eqb_refl, <-app_assoc.
Qed.
End stored.

(** The check of the model's capabilities reads the configured model, not the
    one the session switched to. *)
Lemma vision_check_ignores_the_session_model :
  (exists r, check_intent (fun _ => "refused") (Some (mkIntentConfig "openai" "gpt-4o" 4 5242880)) (Some demo_intent) = Ok r) /\
  SupportsVision "openai" (effectiveModel {["s" := "o3-mini"]} "gpt-4o" "s") = false.
Proof. split; [by eexists|done]. Qed.
