(* ===== verification/ConfigEditor.v ===== *)
(** * The settings editor of the phone (internal/mobile/ui/config.go)

    The widget's own state, its setters and what a frame does with the taps of
    the user: staging a change, reverting, acknowledging dangerous changes and
    applying.  A frame is one step; which rows are on the screen, the taps and
    the text typed into a field are inputs.  Drawing is left out, but for the
    widgets that a drawn row creates. *)

From stdpp Require Import sorting.
From S2P Require Import Prelude GoString GoConv Event ConfigApi.

(** ** What the server sent (internal/mobile/state/admin.go) *)

Record ConfigSetting := mkSetting {
  EnvVar : string; Category : string; Type' : string; Value : string; ValueState : string;
  Default : string; Help : string; ReadOnly : bool; Dangerous : bool; Enum : list string }.

Record ConfigSnapshot := mkSnapshot { Categories : list string; Settings : list ConfigSetting }.

(** ** The editor *)

Inductive ConfigPhase := ConfigPhaseIdle | ConfigPhaseApplying | ConfigPhaseRestarting | ConfigPhaseApplied | ConfigPhaseReauth | ConfigPhaseFailed.
#[export] Instance ConfigPhase_eq_dec : EqDecision ConfigPhase.
Proof. solve_decision. Defined.

(** [editors] is the text of each text field that was drawn, [cycleClicks] and
    [revertClicks] the buttons that were. *)
Record Config := mkEditor {
  snapshot : ConfigSnapshot; loading : bool; lastError : string;
  pending : gmap string string; fieldErrors : gmap string string;
  banner : string; bannerTone : string; phase : ConfigPhase; dangerArmed : bool;
  opened : gmap string bool;
  editors : gmap string string; cycleClicks : gset string; revertClicks : gset string }.

Definition NewConfig : Config := mkEditor (mkSnapshot [] []) false "" ∅ ∅ "" "" ConfigPhaseIdle false ∅ ∅ ∅ ∅.

Definition with_staged (c : Config) (p fe : gmap string string) (armed : bool) (eds : gmap string string) : Config :=
  mkEditor (snapshot c) (loading c) (lastError c) p fe (banner c) (bannerTone c) (phase c) armed (opened c) eds (cycleClicks c) (revertClicks c).

Definition SetLoading (v : bool) (c : Config) : Config :=
  mkEditor (snapshot c) v (lastError c) (pending c) (fieldErrors c) (banner c) (bannerTone c) (phase c) (dangerArmed c) (opened c) (editors c) (cycleClicks c) (revertClicks c).

Definition SetSnapshot (snap : ConfigSnapshot) (c : Config) : Config :=
  mkEditor snap (loading c) "" ∅ ∅ (banner c) (bannerTone c) (phase c) false (opened c) ∅ ∅ ∅.

Definition SetError (msg : string) (c : Config) : Config :=
  mkEditor (snapshot c) (loading c) msg (pending c) (fieldErrors c) (banner c) (bannerTone c) (phase c) (dangerArmed c) (opened c) (editors c) (cycleClicks c) (revertClicks c).

Definition SetPhase (p : ConfigPhase) (c : Config) : Config :=
  let c' := mkEditor (snapshot c) (loading c) (lastError c) (pending c) (fieldErrors c) (banner c) (bannerTone c) p (dangerArmed c) (opened c) (editors c) (cycleClicks c) (revertClicks c) in
  if bool_decide (p = ConfigPhaseApplied) then with_staged c' ∅ ∅ false (editors c') else c'.

Definition SetBanner (text tone : string) (c : Config) : Config :=
  mkEditor (snapshot c) (loading c) (lastError c) (pending c) (fieldErrors c) text tone (phase c) (dangerArmed c) (opened c) (editors c) (cycleClicks c) (revertClicks c).

Definition open_category (cat : string) (c : Config) : Config :=
  mkEditor (snapshot c) (loading c) (lastError c) (pending c) (fieldErrors c) (banner c) (bannerTone c) (phase c) (dangerArmed c) (<[cat := true]> (opened c)) (editors c) (cycleClicks c) (revertClicks c).

Definition SetFieldError (envVar msg : string) (c : Config) : Config :=
  if String.eqb msg "" then with_staged c (pending c) (delete envVar (fieldErrors c)) (dangerArmed c) (editors c)
  else
    let c' := with_staged c (pending c) (<[envVar := msg]> (fieldErrors c)) (dangerArmed c) (editors c) in
    match List.find (fun s => String.eqb (EnvVar s) envVar) (Settings (snapshot c)) with
    | Some s => open_category (Category s) c'
    | None => c'
    end.

(** The user types into a field that is drawn. *)
Definition type_text (envVar text : string) (c : Config) : Config :=
  match editors c !! envVar with
  | Some _ => with_staged c (pending c) (fieldErrors c) (dangerArmed c) (<[envVar := text]> (editors c))
  | None => c
  end.

(** ** Staging *)

Definition recordPending (s : ConfigSetting) (value : string) (c : Config) : Config :=
  if String.eqb value (Value s) then with_staged c (delete (EnvVar s) (pending c)) (fieldErrors c) (dangerArmed c) (editors c)
  else with_staged c (<[EnvVar s := value]> (pending c)) (delete (EnvVar s) (fieldErrors c)) (dangerArmed c) (editors c).

Definition revertAllPending (c : Config) : Config :=
  with_staged c ∅ ∅ false
    (foldl (fun eds s => match eds !! EnvVar s with Some _ => <[EnvVar s := Value s]> eds | None => eds end) (editors c) (Settings (snapshot c))).

Definition effectiveValue (s : ConfigSetting) (p : gmap string string) : string := default (Value s) (p !! EnvVar s).

(** [strings.EqualFold] where one side is ASCII: the letters k and s also have a
    folding outside ASCII (U+212A, U+017F). *)
Fixpoint fold_case (s : string) : string :=
  match s with
  | EmptyString => ""
  | String c s' =>
      match s' with
      | String d s'' =>
          if Nat.eqb (nat_of_ascii c) 197 && Nat.eqb (nat_of_ascii d) 191 then String "s" (fold_case s'')
          else match s'' with
               | String e s3 => if Nat.eqb (nat_of_ascii c) 226 && Nat.eqb (nat_of_ascii d) 132 && Nat.eqb (nat_of_ascii e) 170
                                then String "k" (fold_case s3) else ToLower (String c "") +:+ fold_case s'
               | EmptyString => ToLower (String c "") +:+ fold_case s'
               end
      | EmptyString => ToLower (String c "")
      end
  end.

Definition EqualFold (a b : string) : bool := String.eqb (fold_case a) (fold_case b).

Fixpoint index_fold (i : nat) (cycle : list string) (current : string) : option nat :=
  match cycle with
  | [] => None
  | v :: l => if EqualFold v current then Some i else index_fold (S i) l current
  end.

Definition nextCycleValue (s : ConfigSetting) (current : string) : string :=
  let cycle := if String.eqb (Type' s) "bool" then ["true"; "false"] else Enum s in
  match index_fold 0 cycle current with
  | Some i => nth ((i + 1) mod length cycle) cycle ""
  | None => match cycle with v :: _ => v | [] => current end
  end.

Definition dangerousPending (snap : ConfigSnapshot) (p : gmap string string) : bool :=
  existsb (fun s => bool_decide (is_Some (p !! EnvVar s)) && Dangerous s) (Settings snap).

Definition displayValue (s : ConfigSetting) (current : string) : string :=
  if String.eqb current "" then
    if String.eqb (ValueState s) "set" then "(secret set)" else if String.eqb (ValueState s) "unset" then "(unset)" else "—"
  else current.

Definition env_le (a b : ConfigSetting) : Prop := String.leb (EnvVar a) (EnvVar b) = true.
#[export] Instance env_le_dec : RelDecision env_le.
Proof. intros a b. unfold env_le. apply _. Defined.

(** The rows of a category; the sort is by name, which is unique in a listing. *)
Definition groupByCategory (snap : ConfigSnapshot) (cat : string) : list ConfigSetting :=
  merge_sort env_le (List.filter (fun s => String.eqb (Category s) cat) (Settings snap)).

(** ** A frame *)

Record taps := mkTaps {
  tp_back : bool; tp_refresh : bool; tp_apply : bool; tp_confirm : bool; tp_revertAll : bool; tp_signOut : bool;
  tp_toggle : string -> bool; tp_cycle : string -> bool; tp_revert : string -> bool;
  tp_visible : string -> bool                                         (* the rows that are scrolled into view *)
}.

Inductive action := DoBack | DoRefresh | DoReauth | DoApply (changes : gmap string string).

(** One setting of [processPendingClicks]; [p] is the copy of the pending
    changes taken at the start of the frame. *)
Definition process_setting (t : taps) (p : gmap string string) (c : Config) (s : ConfigSetting) : Config :=
  let c := if bool_decide (EnvVar s ∈ cycleClicks c) && tp_cycle t (EnvVar s)
           then recordPending s (nextCycleValue s (effectiveValue s p)) c else c in
  let c := if bool_decide (EnvVar s ∈ revertClicks c) && tp_revert t (EnvVar s)
           then with_staged c (delete (EnvVar s) (pending c)) (delete (EnvVar s) (fieldErrors c)) (dangerArmed c) (editors c) else c in
  match editors c !! EnvVar s with
  | Some text => if String.eqb text (Value s) then with_staged c (delete (EnvVar s) (pending c)) (fieldErrors c) (dangerArmed c) (editors c)
                 else recordPending s text c
  | None => c
  end.

Definition processPendingClicks (t : taps) (p : gmap string string) (c : Config) : Config :=
  foldl (process_setting t p) c (Settings (snapshot c)).

(** What drawing a row creates: its revert button, and the button or the text
    field of its kind. *)
Definition settingRow (s : ConfigSetting) (c : Config) : Config :=
  let rv := {[EnvVar s]} ∪ revertClicks c in
  let mk eds cyc := mkEditor (snapshot c) (loading c) (lastError c) (pending c) (fieldErrors c) (banner c) (bannerTone c) (phase c) (dangerArmed c) (opened c) eds cyc rv in
  if ReadOnly s then mk (editors c) (cycleClicks c)
  else if String.eqb (Type' s) "bool" || (String.eqb (Type' s) "enum" && negb (Nat.eqb (length (Enum s)) 0)) then mk (editors c) ({[EnvVar s]} ∪ cycleClicks c)
  else match editors c !! EnvVar s with
       | Some _ => mk (editors c) (cycleClicks c)
       | None => mk (<[EnvVar s := Value s]> (editors c)) (cycleClicks c)
       end.

Definition buildRows (t : taps) (c : Config) : Config :=
  foldl (fun c cat => if default false (opened c !! cat)
                      then foldl (fun c s => if tp_visible t (EnvVar s) then settingRow s c else c) c (groupByCategory (snapshot c) cat)
                      else c) c (Categories (snapshot c)).

Definition toggle_categories (t : taps) (c : Config) : Config :=
  mkEditor (snapshot c) (loading c) (lastError c) (pending c) (fieldErrors c) (banner c) (bannerTone c) (phase c) (dangerArmed c)
    (foldl (fun m cat => if tp_toggle t cat then <[cat := negb (default false (m !! cat))]> m else m) (opened c) (Categories (snapshot c)))
    (editors c) (cycleClicks c) (revertClicks c).

Definition busy (p : ConfigPhase) : bool := bool_decide (p = ConfigPhaseApplying) || bool_decide (p = ConfigPhaseRestarting).

Definition Layout (t : taps) (c : Config) : Config * list action :=
  let p0 := pending c in
  let armed0 := dangerArmed c in
  let c1 := processPendingClicks t p0 (toggle_categories t c) in
  let c2 := if tp_confirm t then with_staged c1 (pending c1) (fieldErrors c1) true (editors c1) else c1 in
  let armed := armed0 || tp_confirm t in
  let '(c3, p) := if tp_revertAll t then (revertAllPending c2, ∅) else (c2, p0) in
  let canApply := negb (bool_decide (p = ∅)) && negb (busy (phase c)) && (negb (dangerousPending (snapshot c) p) || armed) in
  (buildRows t c3,
   (if tp_back t then [DoBack] else []) ++ (if tp_refresh t then [DoRefresh] else []) ++
   (if tp_signOut t then [DoReauth] else []) ++ (if tp_apply t && canApply then [DoApply p] else [])).

(** ** Histories of an editor *)

Inductive step :=
| Frame (t : taps)
| Typed (envVar text : string)
| StLoading (v : bool)
| StSnapshot (snap : ConfigSnapshot)
| StError (msg : string)
| StPhase (p : ConfigPhase)
| StBanner (text tone : string)
| StFieldError (envVar msg : string).

Definition apply_step (c : Config) (st : step) : Config :=
  match st with
  | Frame t => (Layout t c).1
  | Typed k text => type_text k text c
  | StLoading v => SetLoading v c
  | StSnapshot snap => SetSnapshot snap c
  | StError msg => SetError msg c
  | StPhase p => SetPhase p c
  | StBanner a b => SetBanner a b c
  | StFieldError k msg => SetFieldError k msg c
  end.

Definition run_editor (tr : list step) : Config := foldl apply_step NewConfig tr.

(** Was the warning acknowledged since the staged changes were last cleared? *)
Definition ack (b : bool) (st : step) : bool :=
  match st with
  | Frame t => if tp_revertAll t then false else b || tp_confirm t
  | StSnapshot _ | StPhase ConfigPhaseApplied => false
  | _ => b
  end.
Definition acknowledged (tr : list step) : bool := foldl ack false tr.

(** A listing names each setting once. *)
Definition listing_ok (snap : ConfigSnapshot) : Prop := NoDup (EnvVar <$> Settings snap).
#[export] Instance listing_ok_dec snap : Decision (listing_ok snap).
Proof. unfold listing_ok. apply _. Defined.
Definition step_ok (st : step) : Prop := match st with StSnapshot snap => listing_ok snap | _ => True end.

Definition writable_name (snap : ConfigSnapshot) (k : string) : Prop := exists s, s ∈ Settings snap /\ EnvVar s = k /\ ReadOnly s = false.
Definition staged_change (snap : ConfigSnapshot) (k v : string) : Prop := exists s, s ∈ Settings snap /\ EnvVar s = k /\ ReadOnly s = false /\ v <> Value s.

Record editor_ok (c : Config) : Prop := {
  ok_listing : listing_ok (snapshot c);
  ok_pending : map_Forall (staged_change (snapshot c)) (pending c);
  ok_editors : map_Forall (fun k _ => writable_name (snapshot c) k) (editors c);
  ok_cycles : set_Forall (writable_name (snapshot c)) (cycleClicks c) }.

(** *** What a frame keeps *)

Lemma listing_unique snap s k : listing_ok snap -> s ∈ Settings snap -> writable_name snap k -> EnvVar s = k -> ReadOnly s = false.
Proof.
  intros Hn Hs (s' & Hs' & <- & Hr) He. assert (s = s') as ->; [|done]. unfold listing_ok in Hn.
  apply list_elem_of_lookup in Hs as [i Hi]. apply list_elem_of_lookup in Hs' as [j Hj].
  assert (i = j) as <-; [|congruence]. apply (NoDup_lookup (EnvVar <$> Settings snap) i j (EnvVar s)); [done|by rewrite list_lookup_fmap, Hi|].
  by rewrite list_lookup_fmap, Hj, He.
Qed.

(** Only what is staged, the acknowledgement and the texts change. *)
Definition same_frame (c c' : Config) : Prop :=
  snapshot c' = snapshot c /\ phase c' = phase c /\ cycleClicks c' = cycleClicks c.

Lemma with_staged_ok c p fe a eds : editor_ok c -> map_Forall (staged_change (snapshot c)) p ->
  map_Forall (fun k _ => writable_name (snapshot c) k) eds -> editor_ok (with_staged c p fe a eds).
Proof. intros [? ? ? ?] Hp He. by split. Qed.

Lemma recordPending_ok s v c : editor_ok c -> s ∈ Settings (snapshot c) -> ReadOnly s = false -> editor_ok (recordPending s v c).
Proof.
  intros Hc Hs Hr. unfold recordPending. destruct (String.eqb_spec v (Value s)); (apply with_staged_ok; [exact Hc| |apply ok_editors, Hc]).
  - apply map_Forall_delete, ok_pending, Hc.
  - apply map_Forall_insert_2; [by exists s|apply ok_pending, Hc].
Qed.

Lemma process_setting_ok t p c s : editor_ok c -> s ∈ Settings (snapshot c) ->
  editor_ok (process_setting t p c s) /\ snapshot (process_setting t p c s) = snapshot c /\ dangerArmed (process_setting t p c s) = dangerArmed c.
Proof.
  intros Hc Hs. unfold process_setting.
  set (c1 := if _ : bool then recordPending s _ c else c).
  assert (editor_ok c1 /\ snapshot c1 = snapshot c /\ dangerArmed c1 = dangerArmed c) as (H1 & E1 & D1).
  { unfold c1. destruct (bool_decide_reflect (EnvVar s ∈ cycleClicks c)) as [Hin|]; [|done]. destruct (tp_cycle t (EnvVar s)); [|done]. cbn [andb].
    split; [|unfold recordPending; by case_match]. apply recordPending_ok; [done|done|].
    eapply listing_unique; [apply Hc|done|by apply Hc|done]. }
  set (c2 := if _ : bool then with_staged c1 _ _ _ _ else c1).
  assert (editor_ok c2 /\ snapshot c2 = snapshot c /\ dangerArmed c2 = dangerArmed c) as (H2 & E2 & D2).
  { unfold c2. case_match; [|done]. split; [|done]. apply with_staged_ok; [done|by apply map_Forall_delete, H1|apply H1]. }
  clearbody c1 c2. destruct (editors c2 !! EnvVar s) as [text|] eqn:Ed; [|done].
  assert (ReadOnly s = false) as Hr by (eapply listing_unique; [apply Hc|done| |done]; rewrite <-E2; by apply (ok_editors _ H2) in Ed).
  destruct (String.eqb text (Value s)).
  - split; [|done]. apply with_staged_ok; [done|by apply map_Forall_delete, H2|apply H2].
  - split; [apply recordPending_ok; [done|by rewrite E2|done]|unfold recordPending; by case_match].
Qed.

Lemma process_list_ok t p l : forall c, editor_ok c -> Forall (fun s => s ∈ Settings (snapshot c)) l ->
  let c' := foldl (process_setting t p) c l in editor_ok c' /\ snapshot c' = snapshot c /\ dangerArmed c' = dangerArmed c.
Proof.
  induction l as [|s l IH]; intros c Hc Hl; [done|]. cbn [foldl]. apply Forall_cons in Hl as [Hs Hl].
  destruct (process_setting_ok t p c s Hc Hs) as (H1 & E1 & D1). destruct (IH _ H1) as (H2 & E2 & D2); [by rewrite E1|].
  split_and!; [done|congruence|congruence].
Qed.

Lemma process_ok t p c : editor_ok c ->
  let c' := processPendingClicks t p c in editor_ok c' /\ snapshot c' = snapshot c /\ dangerArmed c' = dangerArmed c.
Proof. intros Hc. apply process_list_ok; [done|by apply Forall_forall]. Qed.

Lemma settingRow_ok s c : editor_ok c -> s ∈ Settings (snapshot c) ->
  editor_ok (settingRow s c) /\ snapshot (settingRow s c) = snapshot c /\ dangerArmed (settingRow s c) = dangerArmed c.
Proof.
  intros [Hn Hp He Hcy] Hs. unfold settingRow. destruct (ReadOnly s) eqn:Hr; [by split_and!|].
  assert (writable_name (snapshot c) (EnvVar s)) as Hw by (by exists s).
  destruct (_ || _).
  - split; [|done]. split; try done. intros k [->%elem_of_singleton|Hk]%elem_of_union; [done|by apply Hcy].
  - destruct (editors c !! EnvVar s); (split; [|done]); split; try done. cbn. by apply map_Forall_insert_2.
Qed.

Lemma foldl_ok {A} (f : Config -> A -> Config) (P : Config -> A -> Prop) :
  (forall c a, editor_ok c -> P c a -> editor_ok (f c a) /\ snapshot (f c a) = snapshot c /\ dangerArmed (f c a) = dangerArmed c) ->
  (forall c c' a, snapshot c' = snapshot c -> P c a -> P c' a) ->
  forall l c, editor_ok c -> Forall (P c) l -> editor_ok (foldl f c l) /\ snapshot (foldl f c l) = snapshot c /\ dangerArmed (foldl f c l) = dangerArmed c.
Proof.
  intros Hf HP. induction l as [|a l IH]; intros c Hc Hl; [done|]. cbn [foldl]. apply Forall_cons in Hl as [Ha Hl].
  destruct (Hf c a Hc Ha) as (H1 & E1 & D1). destruct (IH _ H1) as (H2 & E2 & D2).
  { eapply Forall_impl; [exact Hl|]. intros x Hx. by apply (HP c). }
  split_and!; [done|congruence|congruence].
Qed.

Lemma grouped_settings snap cat : Forall (fun s => s ∈ Settings snap) (groupByCategory snap cat).
Proof.
  unfold groupByCategory. apply Forall_forall. intros s Hs. rewrite merge_sort_Permutation in Hs.
  apply list_elem_of_In, filter_In in Hs as [Hs _]. by apply list_elem_of_In.
Qed.

Lemma buildRows_ok t c : editor_ok c -> editor_ok (buildRows t c) /\ snapshot (buildRows t c) = snapshot c /\ dangerArmed (buildRows t c) = dangerArmed c.
Proof.
  intros Hc. unfold buildRows. apply (foldl_ok _ (fun _ _ => True)); [|done|done|by apply Forall_true]. clear c Hc. intros c cat Hc _.
  destruct (default false _); [|done]. apply (foldl_ok _ (fun c s => s ∈ Settings (snapshot c))); [|by intros c0 c' a ->|done|apply grouped_settings].
  intros c' s Hc' Hs. destruct (tp_visible t (EnvVar s)); [by apply settingRow_ok|done].
Qed.

Lemma reverted_editors (P : string -> Prop) l (eds : gmap string string) : map_Forall (fun k (_ : string) => P k) eds ->
  map_Forall (fun k _ => P k) (foldl (fun eds s => match eds !! EnvVar s with Some _ => <[EnvVar s := Value s]> eds | None => eds end) eds l).
Proof.
  revert eds. induction l as [|s l IH]; intros eds He; [done|]. cbn [foldl]. apply IH. destruct (eds !! EnvVar s) eqn:E; [|done].
  apply map_Forall_insert_2; [by apply He in E|done].
Qed.

Lemma Layout_ok t c : editor_ok c -> editor_ok (Layout t c).1 /\ snapshot (Layout t c).1 = snapshot c /\
  dangerArmed (Layout t c).1 = ack (dangerArmed c) (Frame t).
Proof.
  intros Hc. unfold Layout, ack. assert (editor_ok (toggle_categories t c)) as Ht by (destruct Hc; by split).
  destruct (process_ok t (pending c) _ Ht) as (H1 & E1 & D1). set (c1 := processPendingClicks t (pending c) (toggle_categories t c)) in *. clearbody c1.
  change (snapshot (toggle_categories t c)) with (snapshot c) in E1. change (dangerArmed (toggle_categories t c)) with (dangerArmed c) in D1.
  set (c2 := if tp_confirm t then _ else c1).
  assert (editor_ok c2 /\ snapshot c2 = snapshot c /\ dangerArmed c2 = dangerArmed c || tp_confirm t) as (H2 & E2 & D2).
  { unfold c2. destruct (tp_confirm t); [|by rewrite orb_false_r]. rewrite orb_true_r. split; [|done]. apply with_staged_ok; [done|apply H1..]. }
  clearbody c2. destruct (tp_revertAll t); cbn [fst].
  - assert (editor_ok (revertAllPending c2)) as H3 by (apply with_staged_ok; [done|apply map_Forall_empty|apply reverted_editors, H2]).
    destruct (buildRows_ok t _ H3) as (H4 & E4 & D4). split_and!; [done|by rewrite E4|by rewrite D4].
  - destruct (buildRows_ok t _ H2) as (H4 & E4 & D4). split_and!; [done|congruence|congruence].
Qed.

Lemma step_keeps c st : editor_ok c -> step_ok st -> editor_ok (apply_step c st) /\ dangerArmed (apply_step c st) = ack (dangerArmed c) st.
Proof.
  intros Hc Hst. pose proof Hc as [Hn Hp He Hcy]. destruct st as [t|k text|v|snap|msg|p|a b|k msg]; cbn [apply_step].
  - destruct (Layout_ok t c Hc) as (H1 & _ & H2). done.
  - unfold type_text. destruct (editors c !! k) eqn:E; [|done]. split; [|done]. apply with_staged_ok; [done|done|].
    apply map_Forall_insert_2; [by apply He in E|done].
  - by split.
  - split; [|done]. split; cbn; [done|apply map_Forall_empty|apply map_Forall_empty|apply set_Forall_empty].
  - by split.
  - unfold SetPhase. destruct p; cbn; (split; [|done]); split; cbn; done.
  - by split.
  - unfold SetFieldError. destruct (String.eqb msg ""); [by split; [apply with_staged_ok|]|].
    destruct (List.find _ _); by split; [split|].
Qed.

Lemma run_editor_ok tr : Forall step_ok tr -> editor_ok (run_editor tr) /\ dangerArmed (run_editor tr) = acknowledged tr.
Proof.
  unfold run_editor, acknowledged. induction tr as [|st tr IH] using rev_ind; intros Htr.
  - split; [|done]. split; cbn; [constructor|apply map_Forall_empty|apply map_Forall_empty|apply set_Forall_empty].
  - apply Forall_app in Htr as [Htr [Hst _]%Forall_cons]. destruct (IH Htr) as [Hc Ha]. rewrite !foldl_app. cbn [foldl].
    rewrite <-Ha. by apply step_keeps.
Qed.

Lemma applied_in (b r o : bool) (a : bool) p changes :
  DoApply changes ∈ (if b then [DoBack] else []) ++ (if r then [DoRefresh] else []) ++ (if o then [DoReauth] else []) ++ (if a then [DoApply p] else []) ->
  changes = p /\ a = true.
Proof.
  intros Hin. apply list_elem_of_In in Hin. rewrite !in_app_iff in Hin. destruct b, r, o, a; cbn [In] in Hin; intuition congruence.
Qed.

Lemma editor_changes tr t changes :
  Forall step_ok tr -> DoApply changes ∈ (Layout t (run_editor tr)).2 ->
  map_Forall (staged_change (snapshot (run_editor tr))) changes /\ changes <> ∅ /\ busy (phase (run_editor tr)) = false /\
  ((exists s, s ∈ Settings (snapshot (run_editor tr)) /\ is_Some (changes !! EnvVar s) /\ Dangerous s = true) -> acknowledged tr = true \/ tp_confirm t = true).
Proof.
  intros Htr Hin. destruct (run_editor_ok tr Htr) as [Hc Ha]. set (c := run_editor tr) in *. clearbody c. unfold Layout in Hin.
  assert (exists p, p = (if tp_revertAll t then ∅ else pending c) /\ changes = p /\
    negb (bool_decide (p = ∅)) && negb (busy (phase c)) && (negb (dangerousPending (snapshot c) p) || (dangerArmed c || tp_confirm t)) = true) as (p & Hp & -> & Hg).
  { destruct (tp_revertAll t); cbn [snd] in Hin; apply applied_in in Hin as [-> Hg]; eexists; split_and!; [done|done| |done|done|];
      by apply andb_prop in Hg as [_ Hg]. }
  apply andb_prop in Hg as [[Hne%negb_true_iff%bool_decide_eq_false Hb%negb_true_iff]%andb_prop Hd].
  destruct (tp_revertAll t); [done|]. subst p. split_and!; [apply Hc|done|done|].
  intros (s & Hs & Hk & Hdg). rewrite <-Ha. apply orb_true_iff in Hd as [Hd%negb_true_iff|[Hd|Hd]%orb_true_iff]; [|auto..].
  exfalso. unfold dangerousPending in Hd. assert (existsb (fun s => bool_decide (is_Some (pending c !! EnvVar s)) && Dangerous s) (Settings (snapshot c)) = true) as Ht; [|congruence].
  apply existsb_exists. exists s. split; [by apply list_elem_of_In|]. by rewrite bool_decide_eq_true_2, Hdg.
Qed.

(** The actions of a frame: at most one request to apply, the last, and only
    when none is under way. *)
Lemma editor_actions t c : exists pre post, (Layout t c).2 = pre ++ post /\ Forall (fun x => forall ch, x <> DoApply ch) pre /\
  (post = [] \/ exists ch, post = [DoApply ch] /\ busy (phase c) = false).
Proof.
  unfold Layout. destruct (if tp_revertAll t then _ else _) as [c3 p]. cbn [snd].
  set (A := if tp_back t then _ else _). set (B := if tp_refresh t then _ else _). set (C := if tp_signOut t then _ else _). set (D := if _ && _ then [DoApply p] else _).
  exists (A ++ B ++ C), D. split; [by rewrite <-!app_assoc|]. unfold A, B, C, D. clear A B C D. split.
  - destruct (tp_back t), (tp_refresh t), (tp_signOut t); repeat constructor; intros ch; congruence.
  - destruct (tp_apply t); [|by left]. destruct (busy (phase c)) eqn:Hb; [left; by rewrite andb_false_r|].
    destruct (_ && _); [right; eauto|by left].
Qed.

(** The settings editor applies only what the operator staged and acknowledged: after any history of frames, typing and server answers, when the editor asks for changes to be applied there is at least one, no earlier request is under way, every change is of a writable setting of the listing on the screen to a value that differs from the one shown, and when one of them is marked dangerous the warning was acknowledged after the staged changes were last cleared. *)
Theorem editor_applies_acknowledged_changes tr t changes :
  Forall step_ok tr -> DoApply changes ∈ (Layout t (run_editor tr)).2 ->
  changes <> ∅ /\ busy (phase (run_editor tr)) = false /\
  map_Forall (staged_change (snapshot (run_editor tr))) changes /\
  ((exists s, s ∈ Settings (snapshot (run_editor tr)) /\ is_Some (changes !! EnvVar s) /\ Dangerous s = true) -> acknowledged tr = true \/ tp_confirm t = true).
Proof. intros Htr Hin. destruct (editor_changes tr t changes Htr Hin) as (? & ? & ? & ?). by split_and!. Qed.

(** ** Concrete histories *)

Definition no_taps : taps := mkTaps false false false false false false (fun _ => false) (fun _ => false) (fun _ => false) (fun _ => true).
Definition tap_apply : taps := mkTaps false false true false false false (fun _ => false) (fun _ => false) (fun _ => false) (fun _ => true).
Definition tap_confirm : taps := mkTaps false false false true false false (fun _ => false) (fun _ => false) (fun _ => false) (fun _ => true).
Definition tap_toggle (cat : string) : taps := mkTaps false false false false false false (String.eqb cat) (fun _ => false) (fun _ => false) (fun _ => true).
Definition tap_cycle (k : string) : taps := mkTaps false false false false false false (fun _ => false) (String.eqb k) (fun _ => false) (fun _ => true).
Definition tap_revert (k : string) : taps := mkTaps false false false false false false (fun _ => false) (fun _ => false) (String.eqb k) (fun _ => true).

Definition demo_listing : ConfigSnapshot := mkSnapshot ["Server"] [
  mkSetting "PORT" "Server" "int" "8080" "" "8080" "" false false [];
  mkSetting "OPEN" "Server" "bool" "false" "" "false" "" false true [];
  mkSetting "ROOT" "Server" "bool" "false" "" "false" "" false true [];
  mkSetting "PATH" "Server" "string" "/x" "" "" "" true false []].

Definition demo_open : list step := [StSnapshot demo_listing; Frame (tap_toggle "Server")].

Lemma demo_steps_ok l : Forall step_ok l -> Forall step_ok (demo_open ++ l).
Proof.
  intros Hl. apply Forall_app. split; [|done]. apply Forall_cons. split; [|by repeat constructor].
  apply (bool_decide_unpack (listing_ok demo_listing)). vm_compute. exact I.
Qed.

Lemma editor_applies_acknowledged_changes_witness :
  let tr := demo_open ++ [Frame (tap_cycle "OPEN"); Typed "PORT" "9090"; Frame no_taps; Frame tap_confirm] in
  let changes : gmap string string := {["OPEN" := "true"; "PORT" := "9090"]} in
  DoApply changes ∈ (Layout tap_apply (run_editor tr)).2 /\ acknowledged tr = true.
Proof.
  intros tr changes. assert (DoApply changes ∈ (Layout tap_apply (run_editor tr)).2) as Hin by (apply list_elem_of_In; vm_compute; auto).
  split; [exact Hin|].
  destruct (editor_applies_acknowledged_changes tr tap_apply changes) as (_ & _ & _ & Hd); [apply demo_steps_ok; repeat constructor|exact Hin|].
  destruct Hd as [H|H]; [|exact H|discriminate H]. exists (mkSetting "OPEN" "Server" "bool" "false" "" "false" "" false true []).
  split; [apply list_elem_of_In; vm_compute; auto|]. split; [vm_compute; eauto|reflexivity].
Defined.

(** Reverting a text field is undone within the same frame: the field still
    holds the typed text, which is staged again. *)
Lemma revert_of_typed_field_is_undone :
  pending (run_editor (demo_open ++ [Typed "PORT" "9090"; Frame no_taps; Frame (tap_revert "PORT")])) !! "PORT" = Some "9090".
Proof. vm_compute. reflexivity. Qed.

(** The server's refusal of a text field is gone after the next frame, which
    stages the same text again; that of a button stays. *)
Lemma field_error_of_typed_field_vanishes :
  fieldErrors (run_editor (demo_open ++ [Typed "PORT" "x"; Frame no_taps; StFieldError "PORT" "not a number"])) !! "PORT" = Some "not a number" /\
  fieldErrors (run_editor (demo_open ++ [Typed "PORT" "x"; Frame no_taps; StFieldError "PORT" "not a number"; Frame no_taps])) !! "PORT" = None /\
  fieldErrors (run_editor (demo_open ++ [Frame (tap_cycle "OPEN"); StFieldError "OPEN" "refused"; Frame no_taps])) !! "OPEN" = Some "refused".
Proof. vm_compute. auto. Qed.

(** An acknowledgement outlives the change it was given for, and covers a
    dangerous change that is staged later. *)
Lemma acknowledgement_covers_later_changes :
  (Layout tap_apply (run_editor (demo_open ++ [Frame (tap_cycle "OPEN"); Frame tap_confirm; Frame (tap_revert "OPEN"); Frame (tap_cycle "ROOT")]))).2 =
    [DoApply {["ROOT" := "true"]}].
Proof. vm_compute. reflexivity. Qed.
