(* ===== verification/AdminClient.v ===== *)
(** * The settings client of the phone (internal/mobile/state/admin.go)

    The three requests of the client and what it makes of the answers, and the
    way of a change from the editor (ConfigEditor.v) to the override file of the
    server (ConfigApi.v).  JSON and the transport are parameters. *)

From S2P Require Import Prelude GoString GoConv GoNum Event Auth Registry Config ConfigSpec ConfigApi ConfigApiSpec UrlQuery Onboard ConfigEditor.

Record AdminClient := mkClient { ac_base : string; ac_token : string }.

Definition NewAdminClient (parse : string -> option URL) (print : URL -> string) (baseURL token : string) : result admin_error AdminClient :=
  base ← DeriveHTTPBase parse print baseURL; Ok (mkClient base token).

Record admin_request := mkAdminReq { aq_Method : string; aq_URL : string; aq_Headers : list (string * string); aq_Body : option string }.

Inductive answer := NotBuilt (e : string) | NoAnswer (e : string) | Answer (status : Z) (body : string).

(** [io.LimitReader(resp.Body, 1<<20)] *)
Definition limit_body (body : string) : string := if (zlen body <=? 2 ^ 20)%Z then body else str_take (Z.to_nat (2 ^ 20)) body.

Record ApplyConfigResult := mkApplied { Applied : Z; RequiresRestart : bool }.

Inductive apply_error :=
| ApplyConfigError (Status : Z) (Message : string) (EnvVar : string)
| ApplyFailed (msg : string).

(** [Error()] *)
Definition apply_error_text (e : apply_error) : string :=
  match e with
  | ApplyConfigError st msg k =>
      if String.eqb k "" then "state: /admin/config " +:+ Itoa st +:+ ": " +:+ msg
      else "state: /admin/config " +:+ Itoa st +:+ " (" +:+ k +:+ "): " +:+ msg
  | ApplyFailed msg => msg
  end.

Section client.
Variable decode_snapshot : string -> option ConfigSnapshot.
Variable decode_applied : string -> option (Z * bool).
Variable decode_error : string -> option (string * string).          (* {error, env_var} *)
Variable marshal_put : gmap string string -> list string -> string.

Definition fetch_request (c : AdminClient) : admin_request :=
  mkAdminReq "GET" (ac_base c +:+ "/admin/config") [("Authorization", "Bearer " +:+ ac_token c); ("Accept", "application/json")] None.

Definition FetchConfig (ans : answer) : result string ConfigSnapshot :=
  match ans with
  | NotBuilt e => Err ("state: build request: " +:+ e)
  | NoAnswer e => Err ("state: GET /admin/config: " +:+ e)
  | Answer st body =>
      let body := limit_body body in
      if negb (st =? 200)%Z then Err ("state: /admin/config " +:+ Itoa st +:+ ": " +:+ TrimSpace body)
      else match decode_snapshot body with None => Err "state: decode /admin/config" | Some cs => Ok cs end
  end.

(** Nil maps and slices are sent as empty ones. *)
Definition apply_request (c : AdminClient) (changes : option (gmap string string)) (reset : option (list string)) : admin_request :=
  mkAdminReq "PUT" (ac_base c +:+ "/admin/config")
    [("Authorization", "Bearer " +:+ ac_token c); ("Content-Type", "application/json"); ("Accept", "application/json")]
    (Some (marshal_put (default ∅ changes) (default [] reset))).

Definition ApplyConfig (ans : answer) : result apply_error ApplyConfigResult :=
  match ans with
  | NotBuilt e => Err (ApplyFailed ("state: build request: " +:+ e))
  | NoAnswer e => Err (ApplyFailed ("state: PUT /admin/config: " +:+ e))
  | Answer st body =>
      let raw := limit_body body in
      if negb (st =? 200)%Z then
        let '(msg, k) := default ("", "") (decode_error raw) in
        Err (ApplyConfigError st (if String.eqb msg "" then TrimSpace raw else msg) k)
      else match decode_applied raw with
           | None => Err (ApplyFailed "state: decode apply response")
           | Some (n, b) => Ok (mkApplied n b)
           end
  end.

Definition restart_request (c : AdminClient) : admin_request :=
  mkAdminReq "POST" (ac_base c +:+ "/admin/config/restart") [("Authorization", "Bearer " +:+ ac_token c); ("Accept", "application/json")] None.

Definition RestartOrchestrator (ans : answer) : option string :=
  match ans with
  | NotBuilt e => Some ("state: build request: " +:+ e)
  | NoAnswer e => Some ("state: POST /admin/config/restart: " +:+ e)
  | Answer st body =>
      if negb (st =? 200)%Z && negb (st =? 202)%Z
      then Some ("state: /admin/config/restart " +:+ Itoa st +:+ ": " +:+ TrimSpace (limit_body body)) else None
  end.
End client.

(** ** The server's side of the wire (internal/wsserver/config_handlers.go) *)

Definition type_name (t : SettingType) : string :=
  match t with
  | TypeString => "string" | TypeInt => "int" | TypeInt64 => "int64" | TypeFloat => "float" | TypeBool => "bool"
  | TypeDuration => "duration" | TypeCSV => "csv" | TypeEnum => "enum"
  end.

Definition status (resp : admin_response) : Z :=
  match resp with RError code _ _ => code | RMethodNotAllowed _ => 405 | RConfig _ _ | RPut _ _ | RRestarting => 200 end.

(** What the client's struct keeps of a row: there is no field for the
    description, and nothing sends the help text it has a field for. *)
Definition client_setting (s : configSetting) : ConfigSetting :=
  mkSetting (cs_EnvVar s) (cs_Category s) (type_name (cs_Type s)) (cs_Value s) (cs_ValueState s) (cs_Default s) "" (cs_ReadOnly s) (cs_Dangerous s) (cs_Enum s).

Definition client_listing (cats : list string) (settings : list configSetting) : ConfigSnapshot := mkSnapshot cats (client_setting <$> settings).

(** ** From the editor to the override file *)

Lemma registry_names_unique : NoDup (Registry.EnvVar <$> Registry).
Proof. apply (bool_decide_unpack _). vm_compute. exact I. Qed.

Lemma registry_lookup s : s ∈ Registry -> Lookup (Registry.EnvVar s) = Some s.
Proof.
  assert (Forall (fun s => Lookup (Registry.EnvVar s) = Some s) Registry) as Hr.
  { apply (bool_decide_unpack (Forall (fun s => Lookup (Registry.EnvVar s) = Some s) Registry)). vm_compute. exact I. }
  rewrite Forall_forall in Hr. apply Hr.
Qed.

(** The listing a GET is answered with, as the client decodes it. *)
Definition server_listing (env : environ) (ov : gmap string string) : ConfigSnapshot := client_listing Registry.Categories (config_setting env ov <$> Registry).

Lemma server_listing_ok env ov : listing_ok (server_listing env ov).
Proof. unfold listing_ok, server_listing, client_listing. cbn [Settings]. rewrite <-!list_fmap_compose. apply registry_names_unique. Qed.

Lemma staged_writable env ov k v : staged_change (server_listing env ov) k v -> writable k.
Proof.
  intros (s & Hs & <- & Hr & _). apply list_elem_of_fmap in Hs as (cs & -> & Hs). apply list_elem_of_fmap in Hs as (def & -> & Hs).
  cbn in *. eapply writable_intro; [by apply registry_lookup|done].
Qed.

Lemma editor_snapshot tr c : Forall (fun st => match st with StSnapshot _ => False | _ => True end) tr -> editor_ok c ->
  snapshot (foldl apply_step c tr) = snapshot c.
Proof.
  revert c. induction tr as [|st tr IH]; intros c Htr Hc; [done|]. cbn [foldl]. apply Forall_cons in Htr as [Hst Htr].
  assert (step_ok st) as Hok by (by destruct st). rewrite IH; [|done|by apply step_keeps]. destruct st as [t| | | | |p| |k msg]; try done; cbn [apply_step].
  - by apply Layout_ok.
  - unfold type_text. by case_match.
  - unfold SetPhase. by case_match.
  - unfold SetFieldError. repeat case_match; done.
Qed.

(** A refused change: the offending name is one of the request's, and its value
    is what was wrong. *)
Lemma apply_changes_refusal merged changed l code m k : Forall (fun kv => writable kv.1) l -> apply_changes merged changed l = Err (RError code m k) ->
  code = 400%Z /\ k ∈ l.*1 /\ ((exists e, m = MInvalid e) \/ exists e, m = MBadSecret e).
Proof.
  revert merged changed. induction l as [|[k' v] l IH]; intros merged changed Hw; [done|]. cbn [apply_changes]. apply Forall_cons in Hw as [(def & Hl & Hr) Hw].
  cbn [fst] in Hl. rewrite Hl, Hr. assert (forall merged changed, apply_changes merged changed l = Err (RError code m k) ->
    code = 400%Z /\ k ∈ ((k', v) :: l).*1 /\ ((exists e, m = MInvalid e) \/ exists e, m = MBadSecret e)) as Hrest.
  { intros ? ? H. destruct (IH _ _ Hw H) as (? & ? & ?). split_and!; [done|by apply list_elem_of_further|done]. }
  destruct (_ && _); [apply Hrest|]. destruct (Validate def v) as [[]|e]; [|intros [= <- <- <-]; split_and!; [done|apply list_elem_of_here|eauto]].
  destruct (if String.eqb k' _ then _ else _) as [[]|e]; [apply Hrest|]. intros [= <- <- <-]. split_and!; [done|apply list_elem_of_here|eauto].
Qed.

Section end_to_end.
Context {R : Type} `{RevocationList R} `{JsonMap}.
Variable ParseWithClaims : string -> string -> option Claims.

#[local] Ltac refused := intros [= _ <- _ <-]; split; [lia|by left].

(** What a PUT of staged changes can be refused for, once the caller is known. *)
Lemma put_refusal flt (a a' : admin R) r changes code m k : Forall (fun kv => writable kv.1) changes ->
  handleConfigPut ParseWithClaims flt a r (Some (mkPut changes [])) = (a', RError code m k) ->
  (400 <= code)%Z /\ (k = "" \/ k ∈ changes.*1 /\ ((exists e, m = MInvalid e) \/ exists e, m = MBadSecret e)).
Proof.
  intros Hw. unfold handleConfigPut, authConfigRequest. destruct (String.eqb _ ""); [refused|].
  destruct (ParseCtx _ _ _) as [c|e]; [|refused]. destruct (HasConfigScope _ _); cbn [negb]; [|refused].
  destruct (_ && _); [refused|]. destruct (LoadOverride flt _ _) as [old|e]; [|refused].
  unfold merge_request. cbn [apply_resets Reset Changes mbind result_bind]. destruct (apply_changes old [] changes) as [[m2 ch]|resp] eqn:Ec; cbn [mbind result_bind].
  - destruct (validateConfigCrossFields _ _); cbn; [|refused]. destruct (WriteOverride _ _ _ _) as [ds [[]|e]]; [done|]. refused.
  - intros [= _ ->]. destruct (apply_changes_refusal _ _ _ _ _ _ Hw Ec) as (-> & ? & ?). split; [lia|by right].
Qed.

(** The wire between the two: the JSON of the answer decodes on the phone, and
    fits into its read limit. *)
Variable body_of : admin_response -> string.
Variable text_of : admin_msg -> string.
Variable decode_applied : string -> option (Z * bool).
Variable decode_error : string -> option (string * string).

Definition arrives (resp : admin_response) : Prop :=
  (zlen (body_of resp) <= 2 ^ 20)%Z /\
  match resp with
  | RPut n b => decode_applied (body_of resp) = Some (n, b)
  | RError _ m k => decode_error (body_of resp) = Some (text_of m, k) /\ text_of m <> ""
  | _ => True
  end.

(** C30: A change made on the phone reaches the server's settings or comes back as a refusal the phone can show.  For an editor showing the server's own listing, after any further taps and typing, when it asks for staged changes to be applied and the server answers the request: either the client reports success, and then the override file holds the previous overrides with every staged change in it (an empty value for a secret leaves that secret alone); or the client reports the server's refusal, the server is unchanged, and if the refusal names a setting then it is one of the staged ones and the reason is its value, never that it is unknown or read-only. *)
Theorem edited_settings_reach_the_server flt (a a' : admin R) r env ov pre post t changes resp :
  temp_name flt <> ad_path a -> ad_disk a !! temp_name flt = None -> Forall step_ok pre ->
  Forall (fun st => match st with StSnapshot _ => False | _ => True end) post ->
  DoApply changes ∈ (Layout t (run_editor (pre ++ StSnapshot (server_listing env ov) :: post))).2 ->
  handleConfigPut ParseWithClaims flt a r (Some (mkPut (map_to_list changes) [])) = (a', resp) -> arrives resp ->
  match ApplyConfig decode_applied decode_error (Answer (status resp) (body_of resp)) with
  | Ok res => exists old, LoadOverride flt (ad_disk a) (ad_path a) = Ok old /\
      ad_disk a' = <[ad_path a := override_file (put_target old (mkPut (map_to_list changes) []))]> (ad_disk a) /\
      forall k v, changes !! k = Some v -> change_skipped (k, v) = false -> put_target old (mkPut (map_to_list changes) []) !! k = Some v
  | Err (ApplyConfigError st msg k) => a' = a /\ exists m, resp = RError st m k /\ msg = text_of m /\
      (k = "" \/ is_Some (changes !! k) /\ ((exists e, m = MInvalid e) \/ exists e, m = MBadSecret e))
  | Err (ApplyFailed _) => False
  end.
Proof.
  intros Hne Hfresh Hpre Hpost Hin Hput [Hfits Hwire]. set (tr := pre ++ StSnapshot (server_listing env ov) :: post) in *.
  assert (Forall step_ok tr) as Htr.
  { apply Forall_app. split; [done|]. apply Forall_cons. split; [apply server_listing_ok|]. eapply Forall_impl; [exact Hpost|]. by intros []. }
  assert (snapshot (run_editor tr) = server_listing env ov) as Hsnap.
  { unfold run_editor, tr. rewrite foldl_app. cbn [foldl]. destruct (run_editor_ok pre Hpre) as [Hc _]. unfold run_editor in Hc.
    rewrite editor_snapshot; [done|done|]. apply (step_keeps _ (StSnapshot _)); [done|apply server_listing_ok]. }
  destruct (editor_changes tr t changes Htr Hin) as (Hch & _). rewrite Hsnap in Hch.
  assert (Forall (fun kv => writable kv.1) (map_to_list changes)) as Hw.
  { apply Forall_forall. intros [k v] Hkv%elem_of_map_to_list. by eapply staged_writable, Hch. }
  assert (NoDup (map_to_list changes).*1) as Hnd by apply NoDup_fst_map_to_list.
  assert (limit_body (body_of resp) = body_of resp) as Hlim by (unfold limit_body; by rewrite (proj2 (Z.leb_le _ _))).
  assert (forall req, Some (mkPut (map_to_list changes) []) = Some req -> NoDup (Changes req).*1) as Hreq by (by intros req [= <-]).
  destruct (handleConfigPut_cases ParseWithClaims flt a r _ a' resp Hne Hfresh Hreq Hput) as [[-> (code & m & k & ->)]|(c & old & req & [= <-] & Hacc & -> & ->)].
  - cbn [ApplyConfig status]. rewrite Hlim. pose proof (put_refusal _ _ _ _ _ _ _ _ Hw Hput) as Hk. destruct (Z.eqb_spec code 200) as [->|_]; cbn [negb].
    + destruct Hk as [Hk _]. lia.
    + destruct Hwire as [-> Htext]. cbn [default from_option id]. rewrite (proj2 (String.eqb_neq _ _) Htext). split; [done|]. exists m. split_and!; [done|done|].
      destruct Hk as (_ & [->|(Hk & Hm)]); [by left|right]. split; [|done]. apply list_elem_of_fmap in Hk as ([k' v] & -> & Hkv%elem_of_map_to_list). by eexists.
  - cbn [ApplyConfig status]. rewrite Hlim, Hwire. cbn [negb Z.eqb Pos.eqb]. exists old. split; [apply Hacc|]. split; [done|]. intros k v Hk Hs.
    rewrite put_target_lookup. cbn [Changes]. assert ((list_to_map (effective (map_to_list changes)) : gmap string string) !! k = Some v) as ->; [|done].
    apply elem_of_list_to_map_1.
    + eapply sublist_NoDup; [exact Hnd|apply fmap_sublist, sublist_filter].
    + apply list_elem_of_filter. split; [by rewrite Hs|by apply elem_of_map_to_list].
Qed.
End end_to_end.

(** ** A concrete edit *)

#[local] Existing Instance toy_json.

Definition demo_editing : list step :=
  [Frame (tap_toggle "Server"); Frame (tap_cycle "NOMADDEV_LOG_LEVEL"); Frame no_taps].
Definition demo_body (resp : admin_response) : string := match resp with RPut 1 true => "applied" | _ => "" end.
Definition demo_applied (body : string) : option (Z * bool) := if String.eqb body "applied" then Some (1%Z, true) else None.

Lemma edited_settings_reach_the_server_witness :
  let listing := server_listing demo_boot ∅ in
  let changes : gmap string string := {["NOMADDEV_LOG_LEVEL" := "warn"]} in
  let put := handleConfigPut demo_parse demo_faults demo_admin demo_put (Some (mkPut (map_to_list changes) [])) in
  DoApply changes ∈ (Layout tap_apply (run_editor ([] ++ StSnapshot listing :: demo_editing))).2 /\
  exists old, ad_disk put.1 = <[defaultOverridePath := override_file (put_target old (mkPut (map_to_list changes) []))]> ∅ /\
    put_target old (mkPut (map_to_list changes) []) !! "NOMADDEV_LOG_LEVEL" = Some "warn".
Proof.
  intros listing changes put.
  assert (DoApply changes ∈ (Layout tap_apply (run_editor ([] ++ StSnapshot listing :: demo_editing))).2) as Hin by (apply list_elem_of_In; vm_compute; auto).
  split; [exact Hin|].
  assert (put.2 = RPut 1 true) as E by (vm_compute; reflexivity).
  pose proof (edited_settings_reach_the_server demo_parse demo_body (fun _ => "no") demo_applied (fun _ => None) demo_faults demo_admin put.1 demo_put demo_boot ∅ []
    demo_editing tap_apply changes put.2) as H. rewrite E in H.
  destruct H as (old & _ & Hd & Hk).
  - discriminate.
  - reflexivity.
  - constructor.
  - repeat constructor.
  - exact Hin.
  - rewrite <-E. apply surjective_pairing.
  - split; [vm_compute; discriminate|reflexivity].
  - exists old. split; [exact Hd|]. apply Hk; [vm_compute; reflexivity|vm_compute; reflexivity].
Defined.
