(* ===== verification/MobileApp.v ===== *)
(** * The phone's shell (internal/mobile/ui: app.go, approval.go, chat.go,
      settings.go, onboard.go, terminal.go)

    [App] owns the store, the saved credentials, the live session and the
    widgets.  The user interface is one thread that runs frames; the session, the
    image picker, a fetch of the settings and the apply flow are goroutines.  A
    history of the application is a list of [app_event]: a frame with its taps,
    the user's typing, a callback of a session, or one step of a goroutine.
    Drawing is left out. *)

From S2P Require Import Prelude GoString GoConv Event GoNum Paths Wire MobileState WireClient MobileStore Base64 Images UrlQuery Onboard ConfigEditor AdminClient.

#[local] Open Scope nat_scope.

(** ** State *)

Definition ScreenSettings := "settings".
Definition ScreenConfig := "config".

(** [confirm] and [reason] are the texts of the sheet's two fields. *)
Record ApprovalSheet := mkSheet { confirm : string; reason : string; currentTool : string }.

(** The dial options and the session that [startSession] makes of them. *)
Record live := mkLive { dl_URL : string; dl_Token : string; lv_cfg : SessionConfig; lv_sess : Session }.

(** Where the goroutine of [applyConfig] is. *)
Inductive flow := FlowPut (c : AdminClient) (serverURL token : string) | FlowRestart (serverURL token : string) | FlowPolling (deadline : Z).

(** [handed] records what was given to a session's [Send] and its answer,
    [requests] the requests of the settings client. *)
Record App := mkApp {
  store : State; tokens : token_disk; session : option live;
  url_field : string; token_field : string; composer : string; pickInFlight : bool;
  approval : ApprovalSheet; config : Config; flows : list flow; fetches : nat;
  minted : nat; handed : list (Envelope * option send_error); requests : list admin_request }.

Definition upd_store (f : State -> State) (a : App) : App :=
  mkApp (f (store a)) (tokens a) (session a) (url_field a) (token_field a) (composer a) (pickInFlight a) (approval a) (config a) (flows a) (fetches a) (minted a) (handed a) (requests a).
Definition set_disk (d : token_disk) (a : App) : App :=
  mkApp (store a) d (session a) (url_field a) (token_field a) (composer a) (pickInFlight a) (approval a) (config a) (flows a) (fetches a) (minted a) (handed a) (requests a).
Definition set_live (l : option live) (a : App) : App :=
  mkApp (store a) (tokens a) l (url_field a) (token_field a) (composer a) (pickInFlight a) (approval a) (config a) (flows a) (fetches a) (minted a) (handed a) (requests a).
Definition set_fields (u t c : string) (a : App) : App :=
  mkApp (store a) (tokens a) (session a) u t c (pickInFlight a) (approval a) (config a) (flows a) (fetches a) (minted a) (handed a) (requests a).
Definition set_picking (b : bool) (a : App) : App :=
  mkApp (store a) (tokens a) (session a) (url_field a) (token_field a) (composer a) b (approval a) (config a) (flows a) (fetches a) (minted a) (handed a) (requests a).
Definition set_sheet (s : ApprovalSheet) (a : App) : App :=
  mkApp (store a) (tokens a) (session a) (url_field a) (token_field a) (composer a) (pickInFlight a) s (config a) (flows a) (fetches a) (minted a) (handed a) (requests a).
Definition upd_config (f : Config -> Config) (a : App) : App :=
  mkApp (store a) (tokens a) (session a) (url_field a) (token_field a) (composer a) (pickInFlight a) (approval a) (f (config a)) (flows a) (fetches a) (minted a) (handed a) (requests a).
Definition set_flows (l : list flow) (n : nat) (a : App) : App :=
  mkApp (store a) (tokens a) (session a) (url_field a) (token_field a) (composer a) (pickInFlight a) (approval a) (config a) l n (minted a) (handed a) (requests a).
Definition mint (a : App) : App :=
  mkApp (store a) (tokens a) (session a) (url_field a) (token_field a) (composer a) (pickInFlight a) (approval a) (config a) (flows a) (fetches a) (S (minted a)) (handed a) (requests a).
Definition log_send (x : Envelope * option send_error) (a : App) : App :=
  mkApp (store a) (tokens a) (session a) (url_field a) (token_field a) (composer a) (pickInFlight a) (approval a) (config a) (flows a) (fetches a) (minted a) (handed a ++ [x]) (requests a).
Definition log_request (r : admin_request) (a : App) : App :=
  mkApp (store a) (tokens a) (session a) (url_field a) (token_field a) (composer a) (pickInFlight a) (approval a) (config a) (flows a) (fetches a) (minted a) (handed a) (requests a ++ [r]).

Definition setLastError (msg : string) : App -> App := upd_store (SetLastError msg).

(** ** Sessions *)

Definition stopSession (a : App) : App := set_live None a.

Definition startSession (serverURL token : string) (a : App) : App :=
  let a := stopSession a in
  let '(cfg, s) := NewSession (mkConfig 0 0 0) (LastEventID (store a)) in
  set_live (Some (mkLive serverURL token cfg s)) a.

(** What one call sees of the world: the error of the session's write when it
    fails, the clock, and the faults of the credentials file. *)
Record outside := mkOutside { os_write : option string; os_now : Z; os_disk : token_faults }.

Definition send_error_text (o : outside) (e : send_error) : string :=
  match e with
  | ErrClosed => "wireclient: session closed"
  | ErrOffline => "wireclient: session offline"
  | ErrWrite => default "" (os_write o)
  end.

Definition sendOrError (o : outside) (env : Envelope) (a : App) : App :=
  match session a with
  | None => setLastError "not connected" a
  | Some l =>
      let '(s, err) := Send (lv_cfg l) (bool_decide (os_write o = None)) (lv_sess l) env in
      let a := log_send (env, err) (set_live (Some (mkLive (dl_URL l) (dl_Token l) (lv_cfg l) s)) a) in
      match err with Some e => setLastError (send_error_text o e) a | None => a end
  end.

Definition outboxLen (a : App) : nat := match session a with None => 0 | Some l => length (outbox (lv_sess l)) end.

Section app.
Variable NewID : nat -> string.
Variable token_marshal : tokenFile -> string.
Variable token_unmarshal : string -> option tokenFile.
Variable parse : string -> option URL.
Variable print : URL -> string.
Variable error_text : admin_error -> string.
Variable DetectContentType : string -> string.
Variable decode_snapshot : string -> option ConfigSnapshot.
Variable decode_applied : string -> option (Z * bool).
Variable decode_error : string -> option (string * string).
Variable marshal_put : gmap string string -> list string -> string.
Context `{Unmarshal HelloPayload, Unmarshal AssistantChunkPayload, Unmarshal AssistantMessagePayload}.
Context `{Unmarshal CommandRequestPayload, Unmarshal CommandChunkPayload, Unmarshal CommandResultPayload}.
Context `{Unmarshal SandboxHeartbeatPayload, Unmarshal ToolApprovalRequestPayload, Unmarshal ErrorPayload, Unmarshal AckPayload}.

(** ** Starting, signing in and out *)

Definition NewApp (flt : token_faults) (s : State) (d : token_disk) : App :=
  let a := mkApp s d None "ws://127.0.0.1:8080/ws" "" "" false (mkSheet "" "" "") NewConfig [] 0 0 [] [] in
  match Load token_unmarshal flt d with
  | Ok (url, token) =>
      upd_store (SetCredentials url token)
        (set_fields (if String.eqb url "" then url_field a else url) (if String.eqb token "" then token_field a else token) (composer a) a)
  | Err _ => a
  end.

(** A failed save is only logged. *)
Definition connect (o : outside) (serverURL token : string) (a : App) : App :=
  if String.eqb serverURL "" || String.eqb token "" then setLastError "server URL and token are both required" a
  else
    let a := set_disk (default (tokens a) (last (Save token_marshal (os_disk o) (tokens a) serverURL token).1)) a in
    startSession serverURL token (upd_store (SetCredentials serverURL token) (setLastError "" a)).

Definition signOut (o : outside) (a : App) : App :=
  let a := stopSession a in
  upd_store (SetCredentials "" "") (set_disk (Clear (os_disk o) (tokens a)).1 a).

Definition HandleURL (o : outside) (u : option URL) (a : App) : App :=
  match u with
  | None => a
  | Some _ =>
      let '(server, token, _) := ExtractOnboardParams u in
      if String.eqb token "" then setLastError "deep link missing token" a
      else if String.eqb server "" then setLastError "deep link missing server URL" a
      else connect o server token a
  end.

Definition forceReconnect (a : App) : App :=
  let snap := store a in
  if String.eqb (ServerURL snap) "" || String.eqb (Token snap) "" then a else startSession (ServerURL snap) (Token snap) a.

(** ** What the user sends *)

Definition fresh (o : outside) (typ : string) (payload : any) (a : App) : Envelope := NewEnvelope (NewID (minted a)) (os_now o) typ (Some payload).
Definition reply (o : outside) (typ inReplyTo : string) (payload : any) (a : App) : Envelope := NewReply (NewID (minted a)) (os_now o) typ inReplyTo (Some payload).

Definition marshal_image (i : ImageInput) : any := AMap [("media_type", AStr (MediaType i)); ("data", AStr (Wire.ImageData i))].
Definition marshal_intent (text : string) (images : list ImageInput) : any :=
  AMap (("text", AStr text) :: match images with [] => [] | _ => [("images", AArr (marshal_image <$> images))] end).
Definition marshal_command (action model : string) : any :=
  AMap (("action", AStr action) :: if String.eqb model "" then [] else [("model", AStr model)]).

Definition sendIntent (o : outside) (text : string) (a : App) : App :=
  let '(s, images) := TakePendingImages (store a) in
  let env := fresh o EventUserIntent (marshal_intent text images) a in
  sendOrError o env (upd_store (RecordSentIntent (ID env) text images) (mint (upd_store (fun _ => s) a))).

Definition resetHistory (o : outside) (a : App) : App :=
  let a := upd_store ResetTurns a in
  sendOrError o (fresh o EventUserCommand (marshal_command UserCommandResetHistory "") a) (mint a).

Definition setModel (o : outside) (model : string) (a : App) : App :=
  sendOrError o (fresh o EventUserCommand (marshal_command UserCommandSetModel model) a) (mint a).

Definition approveTopApproval (o : outside) (a : App) : App :=
  match PendingApprovals (store a) with
  | [] => a
  | top :: _ =>
      match PopApproval (EnvelopeID top) (store a) with
      | (_, None) => a
      | (s, Some req) =>
          let a := upd_store (fun _ => s) a in
          sendOrError o (reply o EventToolApprovalGranted (EnvelopeID req) (AMap []) a) (mint a)
      end
  end.

Definition denyTopApproval (o : outside) (why : string) (a : App) : App :=
  match PendingApprovals (store a) with
  | [] => a
  | top :: _ =>
      match PopApproval (EnvelopeID top) (store a) with
      | (_, None) => a
      | (s, Some req) =>
          let a := upd_store (fun _ => s) a in
          sendOrError o (reply o EventToolApprovalDenied (EnvelopeID req) (AMap (if String.eqb why "" then [] else [("reason", AStr why)])) a) (mint a)
      end
  end.

(** ** The settings client in the background *)

Definition client (a : App) : result string AdminClient :=
  let snap := store a in
  if String.eqb (ServerURL snap) "" || String.eqb (Token snap) "" then Err "not connected"
  else match NewAdminClient parse print (ServerURL snap) (Token snap) with Err e => Err (error_text e) | Ok c => Ok c end.

Definition refreshConfig (a : App) : App :=
  match client a with
  | Err msg => upd_config (SetError msg) a
  | Ok c => log_request (fetch_request c) (set_flows (flows a) (S (fetches a)) (upd_config (SetLoading true) a))
  end.

(** The goroutine of [refreshConfig] ends: the answer, then the deferred
    [SetLoading(false)]. *)
Definition fetched (ans : answer) (a : App) : App :=
  match fetches a with
  | O => a
  | S n =>
      let a := set_flows (flows a) n a in
      upd_config (SetLoading false)
        (match FetchConfig decode_snapshot ans with Err msg => upd_config (SetError msg) a | Ok cs => upd_config (SetSnapshot cs) a end)
  end.

(** Durations in nanoseconds. *)
Definition restartBudget : Z := 35 * 1000000000.
Definition restartPollEvery : Z := 2500 * 1000000.

Definition applyConfig (changes : gmap string string) (a : App) : App :=
  match client a with
  | Err msg => upd_config (SetBanner msg "err") a
  | Ok c =>
      let a := upd_config (SetBanner "Applying configuration…" "info") (upd_config (SetPhase ConfigPhaseApplying) a) in
      log_request (apply_request marshal_put c (Some changes) None) (set_flows (flows a ++ [FlowPut c (ServerURL (store a)) (Token (store a))]) (fetches a) a)
  end.

Definition handleApplyError (err : apply_error) (a : App) : App :=
  let a := upd_config (SetPhase ConfigPhaseIdle) a in
  match err with
  | ApplyConfigError st msg k =>
      if (st =? 401)%Z then upd_config (SetBanner "Token is no longer accepted — sign back in." "err") (upd_config (SetPhase ConfigPhaseReauth) a)
      else if negb (String.eqb k "") then
        upd_config (SetBanner "A setting was rejected — see the highlighted field." "err") (upd_config (SetFieldError k msg) a)
      else upd_config (SetBanner msg "err") a
  | ApplyFailed msg => upd_config (SetBanner msg "err") a
  end.

(** What wakes the goroutine: an answer, or the end of a sleep.  The clock is in
    nanoseconds. *)
Inductive wake := Replied (ans : answer) (now : Z) | Woke (now : Z).

(** One turn of the polling loop, after its sleep. *)
Definition driveRestartPolling (deadline now : Z) (a : App) : App * option flow :=
  let snap := store a in
  if negb (RestartPending snap) && String.eqb (Status snap) StatusOpen then
    (refreshConfig (upd_config (SetBanner "Configuration applied and the orchestrator is back online." "ok") (upd_config (SetPhase ConfigPhaseApplied) a)), None)
  else if String.eqb (Status snap) StatusUnauthorized then
    (upd_config (SetBanner "JWT secret rotated — sign back in." "err") (upd_config (SetPhase ConfigPhaseReauth) a), None)
  else if (deadline <? now)%Z then
    (upd_config (SetBanner "Orchestrator did not come back in time. Check the server logs." "err") (upd_config (SetPhase ConfigPhaseFailed) a), None)
  else (a, Some (FlowPolling deadline)).

(** One step of the goroutine; [None] when it has returned. *)
Definition flow_step (f : flow) (w : wake) (a : App) : App * option flow :=
  match f, w with
  | FlowPut c url token, Replied ans _ =>
      match ApplyConfig decode_applied decode_error ans with
      | Err e => (handleApplyError e a, None)
      | Ok _ => (log_request (restart_request c) a, Some (FlowRestart url token))
      end
  | FlowRestart url token, Replied ans now =>
      match RestartOrchestrator ans with
      | Some msg => (upd_config (SetBanner ("Settings saved but restart failed: " +:+ msg) "err") (upd_config (SetPhase ConfigPhaseFailed) a), None)
      | None =>
          let a := upd_store (SetRestartPending true) a in
          let a := upd_config (SetBanner "Restarting orchestrator…" "info") (upd_config (SetPhase ConfigPhaseRestarting) a) in
          (startSession url token (stopSession a), Some (FlowPolling (now + restartBudget)))
      end
  | FlowPolling deadline, Woke now => driveRestartPolling deadline now a
  | _, _ => (a, Some f)
  end.

Definition run_flow (i : nat) (w : wake) (a : App) : App :=
  match flows a !! i with
  | None => a
  | Some f =>
      let '(a', next) := flow_step f w a in
      set_flows (match next with Some f' => <[i := f']> (flows a') | None => delete i (flows a') end) (fetches a') a'
  end.

(** ** Frames *)

(** The taps of a frame, as the widgets report them. *)
Record frame_taps := mkFrame {
  fr_outside : outside;
  fr_back : nat;                                                       (* presses of the Back key *)
  fr_connect : bool;
  fr_remove : nat -> bool; fr_attach : bool; fr_send : bool; fr_gear : bool;
  fr_settings_back : bool; fr_reset : bool; fr_reconnect : bool; fr_config : bool; fr_sign_out : bool; fr_model : nat -> bool;
  fr_editor : ConfigEditor.taps;
  fr_deny : bool; fr_approve : bool }.

Definition handleKeys (t : frame_taps) (a : App) : App := Nat.iter (fr_back t) (signOut (fr_outside t)) a.

(** onboard.go: [Layout] *)
Definition onboard_Layout (t : frame_taps) (a : App) : App :=
  if fr_connect t then connect (fr_outside t) (url_field a) (token_field a) a else a.

Definition openImagePicker_start (a : App) : App := if pickInFlight a then a else set_picking true a.

(** chat.go: [Layout] and [header] *)
Definition chat_Layout (t : frame_taps) (snap : State) (a : App) : App :=
  let a := foldl (fun a i => if fr_remove t i then upd_store (RemovePendingImage (Z.of_nat i)) a else a) a (seq 0 (length (PendingImages snap))) in
  let a := if fr_attach t then openImagePicker_start a else a in
  let text := composer a in
  let a := if fr_send t && (negb (String.eqb text "") || (0 <? length (PendingImages snap)))
           then sendIntent (fr_outside t) text (set_fields (url_field a) (token_field a) "" a) else a in
  if fr_gear t then upd_store (SetScreen ScreenSettings) a else a.

(** settings.go: [Layout] *)
Definition settings_Layout (t : frame_taps) (snap : State) (a : App) : App :=
  let o := fr_outside t in
  let a := if fr_settings_back t then upd_store (SetScreen ScreenChat) a else a in
  let a := if fr_reset t then resetHistory o a else a in
  let a := if fr_reconnect t then forceReconnect a else a in
  let a := if fr_config t then refreshConfig (upd_store (SetScreen ScreenConfig) a) else a in
  let a := if fr_sign_out t then signOut o a else a in
  foldl (fun a im => if fr_model t im.1 then setModel o im.2 a else a) a (zip (seq 0 (length (AvailableModels snap))) (AvailableModels snap)).

Definition perform (o : outside) (a : App) (act : action) : App :=
  match act with
  | DoBack => upd_store (SetScreen ScreenSettings) a
  | DoRefresh => refreshConfig a
  | DoReauth => signOut o a
  | DoApply changes => applyConfig changes a
  end.

(** config.go: the editor's frame, and what the shell does with its taps. *)
Definition config_Layout (t : frame_taps) (a : App) : App :=
  let '(c, acts) := ConfigEditor.Layout (fr_editor t) (config a) in
  foldl (perform (fr_outside t)) (upd_config (fun _ => c) a) acts.

(** approval.go: [Layout] for the request [req] *)
Definition sheet_for (req : ApprovalRequest) (s : ApprovalSheet) : ApprovalSheet :=
  if String.eqb (ar_Tool req) (currentTool s) then s else mkSheet "" "" (ar_Tool req).

Definition confirmed (req : ApprovalRequest) (s : ApprovalSheet) : bool := EqualFold (TrimSpace (confirm s)) (ar_Tool req).

Definition approval_Layout (t : frame_taps) (req : ApprovalRequest) (a : App) : App :=
  let s := sheet_for req (approval a) in
  let a := set_sheet s a in
  let a := if fr_deny t then denyTopApproval (fr_outside t) (reason s) a else a in
  if confirmed req s && fr_approve t then approveTopApproval (fr_outside t) a else a.

(** The frame event of [Run]. *)
Definition frame (t : frame_taps) (a : App) : App :=
  let a := handleKeys t a in
  let snap := store a in
  if String.eqb (Token snap) "" then onboard_Layout t a
  else
    let a := if String.eqb (Screen snap) ScreenSettings then settings_Layout t snap a
             else if String.eqb (Screen snap) ScreenConfig then config_Layout t a
             else chat_Layout t snap a in
    match PendingApprovals snap with
    | req :: _ => if String.eqb (Screen snap) ScreenChat then approval_Layout t req a else a
    | [] => a
    end.

(** ** Histories *)

Inductive app_event :=
| Frame (t : frame_taps)
| Destroy
| TypeURL (s : string) | TypeToken (s : string) | TypeComposer (s : string)
| TypeConfirm (s : string) | TypeReason (s : string) | TypeSetting (envVar text : string)
| DeepLink (o : outside) (u : option URL)
| SessStatus (st : string)                       (* [Run] of the live session: a status *)
| SessConn (up : bool)                           (*   its connection comes and goes *)
| SessDrain (sched : list dstep)                 (*   the outbox after a handshake *)
| Received (now : Z) (env : Envelope)            (*   an envelope is read *)
| LateStatus (st : string)                       (* a stopped session that has not returned yet *)
| LateReceived (now : Z) (env : Envelope)
| PickDone (p : pick)
| Fetched (ans : answer)
| Flow (i : nat) (w : wake).

Definition upd_session (f : SessionConfig -> Session -> Session) (a : App) : App :=
  match session a with
  | None => a
  | Some l => set_live (Some (mkLive (dl_URL l) (dl_Token l) (lv_cfg l) (f (lv_cfg l) (lv_sess l)))) a
  end.

Definition apply_app (a : App) (ev : app_event) : App :=
  match ev with
  | Frame t => frame t a
  | Destroy => stopSession a
  | TypeURL s => set_fields s (token_field a) (composer a) a
  | TypeToken s => set_fields (url_field a) s (composer a) a
  | TypeComposer s => set_fields (url_field a) (token_field a) s a
  | TypeConfirm s => set_sheet (mkSheet s (reason (approval a)) (currentTool (approval a))) a
  | TypeReason s => set_sheet (mkSheet (confirm (approval a)) s (currentTool (approval a))) a
  | TypeSetting k text => upd_config (type_text k text) a
  | DeepLink o u => HandleURL o u a
  | SessStatus st =>
      match session a with
      | None => a
      | Some l => if String.eqb (statusVal (lv_sess l)) st then a
                  else upd_store (SetStatus st) (upd_session (fun _ s => setStatus s st) a)
      end
  | SessConn up => upd_session (fun _ s => with_conn s up) a
  | SessDrain sched => upd_session (fun cfg s => (drainOutbox cfg sched s).1) a
  | Received now env => match session a with None => a | Some _ => upd_store (Ingest now env) (upd_session (fun _ s => observe s env) a) end
  | LateStatus st => upd_store (SetStatus st) a
  | LateReceived now env => upd_store (Ingest now env) a
  | PickDone p => if pickInFlight a then set_picking false (upd_store (fun s => openImagePicker DetectContentType s p) a) else a
  | Fetched ans => fetched ans a
  | Flow i w => run_flow i w a
  end.

Definition run_app (a : App) (evs : list app_event) : App := foldl apply_app a evs.
End app.

(** ** The clock of a running command (chat.go, terminal.go)

    Times are in milliseconds. *)

Definition terminalFor (now : Z) (commandID : string) (seen : gmap string Z) : Z * gmap string Z :=
  match seen !! commandID with Some t => (t, seen) | None => (now, <[commandID := now]> seen) end.

Definition elapsedSince (serverElapsedMs anchor now : Z) (running : bool) : Z :=
  if negb running then serverElapsedMs
  else let delta := (now - anchor)%Z in (serverElapsedMs + (if (delta <? 0)%Z then 0 else delta))%Z.

Definition pad2 (n : Z) : string := if (n <? 10)%Z then "0" +:+ Itoa n else Itoa n.

Definition formatElapsed (ms : Z) : string :=
  if (ms <? 1000)%Z then Itoa ms +:+ "ms"
  else
    let totalSec := Z.quot ms 1000 in
    let sec := Z.rem totalSec 60 in
    let min := Z.rem (Z.quot totalSec 60) 60 in
    let hr := Z.quot totalSec 3600 in
    if (0 <? hr)%Z then Itoa hr +:+ ":" +:+ pad2 min +:+ ":" +:+ pad2 sec else pad2 min +:+ ":" +:+ pad2 sec.

(** approval.go *)
Definition countdown (deadline now : Z) : Z :=
  let remaining := (deadline - now)%Z in Z.quot ((if (remaining <? 0)%Z then 0 else remaining) + 999) 1000.
