(* ===== verification/MobileAppSpec.v ===== *)
(** * What the phone's shell guarantees

    Histories of the application of MobileApp.v: approvals are confirmed and
    answered once, "applied" means the server is back, and the wait for it ends. *)

From S2P Require Import Prelude GoString GoConv Event GoNum Paths Wire MobileState WireClient MobileStore Base64 Images UrlQuery Onboard ConfigEditor AdminClient MobileApp.

#[local] Open Scope nat_scope.

(** ** What the goroutines and the screens leave alone *)

Definition is_answer (e : Envelope) : bool := String.eqb (EType e) EventToolApprovalGranted || String.eqb (EType e) EventToolApprovalDenied.

(** The approval replies that were handed to a session. *)
Definition answers (a : App) : list Envelope := List.filter is_answer (handed a).*1.

(** No reply to an approval, no step of an apply flow, and the queue of requests
    as it was or cleared. *)
Record calm (a a' : App) : Prop := {
  calm_answers : answers a' = answers a;
  calm_queue : PendingApprovals (store a') = PendingApprovals (store a) \/ PendingApprovals (store a') = [];
  calm_flows : flows a' = flows a;
  calm_phase : phase (config a') = phase (config a);
  calm_restart : RestartPending (store a') = RestartPending (store a);
  calm_sheet : approval a' = approval a }.

#[export] Instance calm_pre : PreOrder calm.
Proof.
  split.
  - intros a. split; auto.
  - intros a b c [? [?|?] ? ? ? ?] [? [?|?] ? ? ? ?]; split; try congruence; (left; congruence) || (right; congruence).
Qed.

Create HintDb calm.
Ltac calm_by := split; cbn; auto.

Lemma calm_error msg a : calm a (setLastError msg a).
Proof. calm_by. Qed.
Lemma calm_live l a : calm a (set_live l a).
Proof. calm_by. Qed.
Lemma calm_mint a : calm a (mint a).
Proof. calm_by. Qed.
#[export] Hint Resolve calm_error calm_live calm_mint : calm.

Lemma sendOrError_spec o env a :
  store (sendOrError o env a) = store a \/ exists msg, store (sendOrError o env a) = SetLastError msg (store a).
Proof. unfold sendOrError. destruct (session a) as [l|]; [|right; by eexists]. destruct (Send _ _ _ _) as [s [e|]]; cbn; eauto. Qed.

Lemma sendOrError_answers o env a : exists l, answers (sendOrError o env a) = answers a ++ l /\ (l = [] \/ l = [env] /\ is_answer env = true).
Proof.
  unfold sendOrError. destruct (session a) as [l|]; [|exists []; by rewrite app_nil_r; auto]. destruct (Send _ _ _ _) as [s err].
  exists (List.filter is_answer [env]). split.
  - unfold answers. destruct err; cbn -[is_answer]; rewrite fmap_app, List.filter_app; done.
  - cbn -[is_answer]. destruct (is_answer env); auto.
Qed.

Lemma sendOrError_calm o env a : is_answer env = false -> calm a (sendOrError o env a).
Proof.
  intros Hn. destruct (sendOrError_answers o env a) as (l & Hl & Hc). destruct (sendOrError_spec o env a) as [Hs|[msg Hs]];
    (split; [rewrite Hl; destruct Hc as [->|[_ Hc]]; [by rewrite app_nil_r|congruence]|rewrite Hs; cbn; auto| | |rewrite Hs; cbn; auto|]);
    unfold sendOrError; destruct (session a) as [l'|]; try done; destruct (Send _ _ _ _) as [s [e|]]; done.
Qed.

Section shell.
Variable NewID : nat -> string.
Variable token_marshal : tokenFile -> string.
Variable token_unmarshal : string -> option tokenFile.
Variable parse : string -> option URL.
Variable print : URL -> string.
Variable error_text : admin_error -> string.
Variable DetectContentType : string -> string.
Variable decode_snapshot : string -> option ConfigSnapshot.
Variable decode_applied : string -> option (Z * bool).
Variable decode_error : string -> option (string * string).
Variable marshal_put : gmap string string -> list string -> string.
Context `{Unmarshal HelloPayload, Unmarshal AssistantChunkPayload, Unmarshal AssistantMessagePayload}.
Context `{Unmarshal CommandRequestPayload, Unmarshal CommandChunkPayload, Unmarshal CommandResultPayload}.
Context `{Unmarshal SandboxHeartbeatPayload, Unmarshal ToolApprovalRequestPayload, Unmarshal ErrorPayload, Unmarshal AckPayload}.

#[local] Abbreviation refreshConfig := (refreshConfig parse print error_text).
#[local] Abbreviation connect := (connect token_marshal).
#[local] Abbreviation applyConfig := (applyConfig parse print error_text marshal_put).
#[local] Abbreviation frame := (frame NewID token_marshal parse print error_text marshal_put).
#[local] Abbreviation apply_app := (apply_app NewID token_marshal parse print error_text DetectContentType decode_snapshot decode_applied decode_error marshal_put).
#[local] Abbreviation run_app := (run_app NewID token_marshal parse print error_text DetectContentType decode_snapshot decode_applied decode_error marshal_put).
#[local] Abbreviation NewApp := (NewApp token_unmarshal).
#[local] Abbreviation ApplyConfig := (ApplyConfig decode_applied decode_error).

Lemma SetCredentials_queue url tok s : (PendingApprovals (SetCredentials url tok s) = PendingApprovals s \/ PendingApprovals (SetCredentials url tok s) = []) /\
  RestartPending (SetCredentials url tok s) = RestartPending s.
Proof. unfold SetCredentials. destruct (String.eqb tok ""); cbn; auto. Qed.

Lemma connect_calm o url tok a : calm a (connect o url tok a).
Proof.
  unfold connect. destruct (_ || _); [apply calm_error|]. destruct (SetCredentials_queue url tok (SetLastError "" (store a))) as [Hq Hr].
  split; [done|exact Hq|done|done|exact Hr|done].
Qed.

Lemma signOut_calm o a : calm a (signOut o a).
Proof. split; cbn; auto. Qed.

Lemma HandleURL_calm o u a : calm a (HandleURL token_marshal o u a).
Proof.
  unfold HandleURL. destruct u as [u|]; [|done]. destruct (ExtractOnboardParams _) as [[server token] sid].
  destruct (String.eqb token ""); [apply calm_error|]. destruct (String.eqb server ""); [apply calm_error|apply connect_calm].
Qed.

Lemma forceReconnect_calm a : calm a (forceReconnect a).
Proof. unfold forceReconnect. destruct (_ || _); [done|]. calm_by. Qed.

Lemma refreshConfig_calm a : calm a (refreshConfig a).
Proof. unfold MobileApp.refreshConfig. destruct (client _ _ _ a); calm_by. Qed.

Lemma fetched_calm ans a : calm a (fetched decode_snapshot ans a).
Proof. unfold fetched. destruct (fetches a); [done|]. destruct (FetchConfig _ _); calm_by. Qed.

Lemma sendIntent_calm o text a : calm a (sendIntent NewID o text a).
Proof. unfold sendIntent. cbn [TakePendingImages]. etrans; [|by apply sendOrError_calm]. calm_by. Qed.

Lemma resetHistory_calm o a : calm a (resetHistory NewID o a).
Proof. unfold resetHistory. etrans; [|by apply sendOrError_calm]. split; cbn; auto. Qed.

Lemma setModel_calm o m a : calm a (setModel NewID o m a).
Proof. unfold setModel. etrans; [|by apply sendOrError_calm]. calm_by. Qed.

Lemma iter_calm f n a : (forall x, calm x (f x)) -> calm a (Nat.iter n f a).
Proof. intros Hf. induction n as [|n IH]; cbn; [done|]. etrans; [exact IH|apply Hf]. Qed.

Lemma foldl_calm {A} (f : App -> A -> App) l : (forall x y, calm x (f x y)) -> forall a, calm a (foldl f a l).
Proof. intros Hf. induction l as [|y l IH]; intros a; cbn; [done|]. etrans; [apply Hf|apply IH]. Qed.

Lemma if_calm (b : bool) a1 a2 a : calm a a1 -> calm a a2 -> calm a (if b then a1 else a2).
Proof. by destruct b. Qed.
#[local] Hint Resolve connect_calm signOut_calm HandleURL_calm forceReconnect_calm refreshConfig_calm fetched_calm sendIntent_calm resetHistory_calm setModel_calm if_calm : calm.
#[local] Hint Extern 1 (calm ?a ?a) => reflexivity : calm.

Lemma settings_calm t snap a : calm a (settings_Layout NewID parse print error_text t snap a).
Proof.
  unfold settings_Layout.
  etrans; [|apply foldl_calm; intros x [i m]; auto with calm]. etrans; [|apply if_calm; [apply signOut_calm|reflexivity]].
  etrans; [|apply if_calm; [etrans; [|apply refreshConfig_calm]|reflexivity]]; [|calm_by].
  etrans; [|apply if_calm; [apply forceReconnect_calm|reflexivity]]. etrans; [|apply if_calm; [apply resetHistory_calm|reflexivity]].
  apply if_calm; [calm_by|done].
Qed.

Lemma handleKeys_calm t a : calm a (handleKeys t a).
Proof. apply iter_calm. intros x. apply signOut_calm. Qed.

Lemma sendIntent_queue o text a : PendingApprovals (store (sendIntent NewID o text a)) = PendingApprovals (store a).
Proof. unfold sendIntent. cbn [TakePendingImages]. destruct (sendOrError_spec o (fresh NewID o EventUserIntent (marshal_intent text (PendingImages (store a))) a)
  (upd_store (RecordSentIntent (ID (fresh NewID o EventUserIntent (marshal_intent text (PendingImages (store a))) a)) text (PendingImages (store a)))
     (mint (upd_store (fun _ => set_images (store a) []) a)))) as [Hs|[msg Hs]]; by rewrite Hs. Qed.

Lemma remove_images_calm t l : forall a, let a' := foldl (fun a i => if fr_remove t i then upd_store (RemovePendingImage (Z.of_nat i)) a else a) a l in
  calm a a' /\ PendingApprovals (store a') = PendingApprovals (store a).
Proof.
  assert (forall z s, PendingApprovals (RemovePendingImage z s) = PendingApprovals s /\ RestartPending (RemovePendingImage z s) = RestartPending s) as Hrm.
  { intros z s. unfold RemovePendingImage. by destruct (_ || _). }
  induction l as [|i l IH]; intros a; [done|]. cbn [foldl]. destruct (IH (if fr_remove t i then upd_store (RemovePendingImage (Z.of_nat i)) a else a)) as [K1 K2].
  destruct (fr_remove t i); [|done]. destruct (Hrm (Z.of_nat i) (store a)) as [E1 E2]. split; [etrans; [|exact K1]|etrans; [exact K2|exact E1]].
  split; cbn; auto.
Qed.

Lemma chat_calm t snap a : calm a (chat_Layout NewID t snap a) /\ PendingApprovals (store (chat_Layout NewID t snap a)) = PendingApprovals (store a).
Proof.
  unfold chat_Layout. destruct (remove_images_calm t (seq 0 (length (PendingImages snap))) a) as [K1 E1]. set (a1 := foldl _ a _) in *. clearbody a1.
  set (a2 := if fr_attach t then openImagePicker_start a1 else a1).
  assert (calm a a2 /\ PendingApprovals (store a2) = PendingApprovals (store a)) as [K2 E2].
  { unfold a2, openImagePicker_start. destruct (fr_attach t), (pickInFlight a1); try done. split; [etrans; [exact K1|calm_by]|done]. }
  clearbody a2. set (a3 := if _ : bool then sendIntent _ _ _ _ else a2).
  assert (calm a a3 /\ PendingApprovals (store a3) = PendingApprovals (store a)) as [K3 E3].
  { unfold a3. destruct (fr_send t && _); [|done]. split; [|by rewrite sendIntent_queue].
    etrans; [exact K2|]. etrans; [|apply sendIntent_calm]. calm_by. }
  clearbody a3. destruct (fr_gear t); [|done]. split; [|done]. etrans; [exact K3|calm_by].
Qed.

(** *** The apply flow *)

(** At most one flow runs, and the editor shows it as busy. *)
Definition flow_phase (f : flow) : ConfigPhase := match f with FlowPolling _ => ConfigPhaseRestarting | _ => ConfigPhaseApplying end.
Definition flow_ok (a : App) : Prop :=
  flows a = [] /\ busy (phase (config a)) = false \/ exists f, flows a = [f] /\ phase (config a) = flow_phase f.

Lemma calm_flow_ok a a' : calm a a' -> flow_ok a -> flow_ok a'.
Proof. intros [_ _ Hf Hp _ _]. unfold flow_ok. by rewrite Hf, Hp. Qed.

Lemma Layout_phase t c : phase (ConfigEditor.Layout t c).1 = phase c.
Proof.
  assert (forall p l c, phase (foldl (process_setting t p) c l) = phase c) as Hp.
  { intros p l. induction l as [|s l IH]; intros c0; [done|]. cbn [foldl]. rewrite IH. unfold process_setting, recordPending. by repeat case_match. }
  assert (forall c, phase (buildRows t c) = phase c) as Hb.
  { intros c0. unfold buildRows. set (cats := Categories (snapshot c0)). clearbody cats. revert c0. induction cats as [|cat cats IH]; intros c0; [done|].
    cbn [foldl]. rewrite IH. destruct (default false _); [|done]. set (l := groupByCategory _ _). clearbody l. revert c0.
    induction l as [|s l IHl]; intros c0; [done|]. cbn [foldl]. rewrite IHl. destruct (tp_visible t (EnvVar s)); [|done]. unfold settingRow. by repeat case_match. }
  unfold ConfigEditor.Layout. set (c1 := processPendingClicks t (pending c) (toggle_categories t c)).
  assert (phase c1 = phase c) as E by (unfold c1, processPendingClicks; by rewrite Hp). clearbody c1.
  destruct (tp_revertAll t), (tp_confirm t); cbn [fst]; rewrite Hb; exact E.
Qed.

(** What a frame of the editor starts: nothing, or one apply flow while none
    is under way. *)
Lemma perform_calm o a act : (forall ch, act <> DoApply ch) -> calm a (perform parse print error_text marshal_put o a act).
Proof. intros Hn. destruct act as [| | |ch]; cbn [perform]; [calm_by|apply refreshConfig_calm|apply signOut_calm|by destruct (Hn ch)]. Qed.

Lemma performs_calm o l : Forall (fun x => forall ch, x <> DoApply ch) l -> forall a, calm a (foldl (perform parse print error_text marshal_put o) a l).
Proof.
  induction l as [|x l IH]; intros Hl a; [done|]. apply Forall_cons in Hl as [Hx Hl]. cbn [foldl]. etrans; [by apply perform_calm|by apply IH].
Qed.

Record starts (a a' : App) (c : AdminClient) : Prop := {
  st_answers : answers a' = answers a;
  st_queue : PendingApprovals (store a') = PendingApprovals (store a) \/ PendingApprovals (store a') = [];
  st_flows : exists url tok, flows a' = flows a ++ [FlowPut c url tok];
  st_phase : phase (config a') = ConfigPhaseApplying;
  st_restart : RestartPending (store a') = RestartPending (store a);
  st_sheet : approval a' = approval a }.

Lemma applyConfig_starts ch a : calm a (applyConfig ch a) \/ exists c, starts a (applyConfig ch a) c.
Proof.
  unfold MobileApp.applyConfig. destruct (client _ _ _ a) as [c|msg]; [right; exists c|left; calm_by]. split; cbn; eauto.
Qed.

Lemma config_starts t a : calm a (config_Layout parse print error_text marshal_put t a) \/
  busy (phase (config a)) = false /\ exists c, starts a (config_Layout parse print error_text marshal_put t a) c.
Proof.
  unfold config_Layout. pose proof (Layout_phase (fr_editor t) (config a)) as Hph. pose proof (editor_actions (fr_editor t) (config a)) as (pre & post & Hacts & Hpre & Hpost).
  destruct (ConfigEditor.Layout (fr_editor t) (config a)) as [c acts]. cbn [fst snd] in *. subst acts. rewrite foldl_app.
  assert (calm a (foldl (perform parse print error_text marshal_put (fr_outside t)) (upd_config (fun _ => c) a) pre)) as Hc.
  { etrans; [|by apply performs_calm]. split; cbn; auto. }
  set (b := foldl _ _ pre) in *. clearbody b. destruct Hpost as [->|(ch & -> & Hb)]; [by left|]. cbn [foldl perform].
  destruct (applyConfig_starts ch b) as [Hs|[cl Hs]]; [left; by etrans|right]. split; [done|]. exists cl.
  destruct Hc as [C1 C2 C3 C4 C5 C6], Hs as [S1 S2 (url & tok & S3) S4 S5 S6].
  split; [congruence| |exists url, tok; congruence|done|congruence|congruence].
  destruct S2 as [S2|S2]; [rewrite S2|by right]. done.
Qed.

(** *** Approvals *)

(** The front request was taken off the queue and at most one reply to it handed over. *)
Record answered (typ : string) (top : ApprovalRequest) (a a' : App) : Prop := {
  an_queue : PendingApprovals (store a) = top :: PendingApprovals (store a');
  an_answers : exists l, answers a' = answers a ++ l /\ (l = [] \/ exists e, l = [e] /\ EType e = typ /\ CorrelationID e = EnvelopeID top);
  an_flows : flows a' = flows a;
  an_phase : phase (config a') = phase (config a);
  an_restart : RestartPending (store a') = RestartPending (store a);
  an_sheet : approval a' = approval a }.

Lemma answer_top o typ payload top rest a : PendingApprovals (store a) = top :: rest ->
  let b := upd_store (fun _ => set_approvals (store a) rest) a in
  answered typ top a (sendOrError o (reply NewID o typ (EnvelopeID top) payload b) (mint b)).
Proof.
  intros Hq b. set (e := reply NewID o typ (EnvelopeID top) payload b). destruct (sendOrError_answers o e (mint b)) as (l & Hl & Hc).
  assert (PendingApprovals (store (sendOrError o e (mint b))) = rest /\ RestartPending (store (sendOrError o e (mint b))) = RestartPending (store a)) as [Eq Er]
    by (destruct (sendOrError_spec o e (mint b)) as [Hs|[msg Hs]]; by rewrite Hs).
  split; [by rewrite Eq| | | |done|].
  - exists l. split; [exact Hl|]. destruct Hc as [->|[-> _]]; [by left|right]. by exists e.
  - unfold sendOrError. destruct (session (mint b)) as [l'|]; [|done]. by destruct (Send _ _ _ _) as [? [?|]].
  - unfold sendOrError. destruct (session (mint b)) as [l'|]; [|done]. by destruct (Send _ _ _ _) as [? [?|]].
  - unfold sendOrError. destruct (session (mint b)) as [l'|]; [|done]. by destruct (Send _ _ _ _) as [? [?|]].
Qed.

Lemma pop_front top rest s : PendingApprovals s = top :: rest -> PopApproval (EnvelopeID top) s = (set_approvals s rest, Some top).
Proof. intros Hq. unfold PopApproval. rewrite Hq. cbn [remove_approval]. by rewrite String.eqb_refl. Qed.

Lemma approve_spec o a : match PendingApprovals (store a) with
  | [] => approveTopApproval NewID o a = a
  | top :: _ => answered EventToolApprovalGranted top a (approveTopApproval NewID o a) end.
Proof.
  unfold approveTopApproval. destruct (PendingApprovals (store a)) as [|top rest] eqn:Hq; [done|]. rewrite (pop_front _ _ _ Hq). by apply answer_top.
Qed.

Lemma deny_spec o why a : match PendingApprovals (store a) with
  | [] => denyTopApproval NewID o why a = a
  | top :: _ => answered EventToolApprovalDenied top a (denyTopApproval NewID o why a) end.
Proof.
  unfold denyTopApproval. destruct (PendingApprovals (store a)) as [|top rest] eqn:Hq; [done|]. rewrite (pop_front _ _ _ Hq). by apply answer_top.
Qed.

(** The request a frame shows. *)
Definition shown (t : frame_taps) (a : App) : option ApprovalRequest :=
  let s := store (handleKeys t a) in
  if String.eqb (Token s) "" || negb (String.eqb (Screen s) ScreenChat) then None else head (PendingApprovals s).

Lemma frame_cases t a :
  calm a (frame t a) \/ (busy (phase (config a)) = false /\ exists c, starts a (frame t a) c) \/
  exists req b, shown t a = Some req /\ calm a b /\ head (PendingApprovals (store b)) = Some req /\ frame t a = approval_Layout NewID t req b.
Proof.
  unfold MobileApp.frame, shown. pose proof (handleKeys_calm t a) as Hk. set (a0 := handleKeys t a) in *. clearbody a0.
  destruct (String.eqb (Token (store a0)) ""); [left; unfold onboard_Layout; etrans; [exact Hk|]; by destruct (fr_connect t); [apply connect_calm|]|].
  cbn [orb]. destruct (String.eqb_spec (Screen (store a0)) ScreenChat) as [Hch|Hch]; cbn [negb].
  - rewrite Hch. cbn [String.eqb Ascii.eqb Bool.eqb ScreenChat ScreenSettings ScreenConfig].
    destruct (chat_calm t (store a0) a0) as [Hc Hq]. set (a1 := chat_Layout NewID t (store a0) a0) in *. clearbody a1.
    destruct (PendingApprovals (store a0)) as [|req rest] eqn:Eq; [left; by etrans|]. right; right. exists req, a1.
    split; [done|]. split; [by etrans|]. by rewrite Hq.
  - assert (forall b, calm a b \/ (busy (phase (config a)) = false /\ exists c, starts a b c) ->
      calm a (match PendingApprovals (store a0) with req :: _ => b | [] => b end) \/
      (busy (phase (config a)) = false /\ exists c, starts a (match PendingApprovals (store a0) with req :: _ => b | [] => b end) c)) as Hm
      by (intros b Hb; by destruct (PendingApprovals (store a0))).
    destruct (String.eqb (Screen (store a0)) ScreenSettings).
    + apply or_assoc. left. apply Hm. left. etrans; [exact Hk|apply settings_calm].
    + destruct (String.eqb (Screen (store a0)) ScreenConfig).
      * apply or_assoc. left. apply Hm. destruct (config_starts t a0) as [Hc|[Hb [c Hs]]]; [left; by etrans|right].
        destruct Hk as [C1 C2 C3 C4 C5 C6]. split; [by rewrite <-C4|]. exists c. destruct Hs as [S1 S2 (url & tok & S3) S4 S5 S6].
        split; [congruence| |exists url, tok; congruence|done|congruence|congruence]. destruct S2 as [S2|S2]; [rewrite S2|by right]. done.
      * apply or_assoc. left. apply Hm. left. etrans; [exact Hk|apply chat_calm].
Qed.

Definition is_request (env : Envelope) : bool := String.eqb (EType env) EventToolApprovalRequest.
Definition is_hello (env : Envelope) : bool := String.eqb (EType env) EventHello.

Lemma with_turn_kept s cid f : PendingApprovals (with_turn s cid f) = PendingApprovals s /\ RestartPending (with_turn s cid f) = RestartPending s.
Proof. unfold with_turn. by destruct (String.eqb cid ""). Qed.
Lemma with_call_kept s cid f : PendingApprovals (with_call s cid f) = PendingApprovals s /\ RestartPending (with_call s cid f) = RestartPending s.
Proof. unfold with_call. by destruct (String.eqb cid ""). Qed.

Lemma Ingest_queue now env s :
  (PendingApprovals (Ingest now env s) = PendingApprovals s \/
   is_request env = true /\ exists r, PendingApprovals (Ingest now env s) = PendingApprovals s ++ [r] /\ EnvelopeID r = ID env) /\
  (is_hello env = false -> RestartPending (Ingest now env s) = RestartPending s).
Proof.
  unfold Ingest, is_request, is_hello. set (s0 := set_session _ _ _ _ _ _).
  change (PendingApprovals s) with (PendingApprovals s0). change (RestartPending s) with (RestartPending s0). clearbody s0.
  destruct (String.eqb_spec (EType env) EventHello) as [E|_]; [rewrite E|]. { split; [left|done]. unfold applyHello. by destruct (json_Unmarshal env). }
  destruct (String.eqb (EType env) EventAssistantChunk); [unfold applyAssistantChunk; destruct (json_Unmarshal env); [|by auto]; repeat case_match; rewrite ?(proj1 (with_turn_kept _ _ _)), ?(proj2 (with_turn_kept _ _ _)); by auto|].
  destruct (String.eqb (EType env) EventAssistantMessage);
    [unfold applyAssistantMessage; destruct (findTurn _ _); [|by auto]; destruct (json_Unmarshal env) as [p|]; [|by auto]; destruct (am_Usage p); cbn; rewrite ?(proj1 (with_turn_kept _ _ _)), ?(proj2 (with_turn_kept _ _ _)); by auto|].
  destruct (String.eqb (EType env) EventCommandRequest);
    [unfold applyCommandRequest; destruct (json_Unmarshal env); [|by auto]; rewrite (proj1 (with_turn_kept _ _ _)), (proj2 (with_turn_kept _ _ _)); by auto|].
  destruct (String.eqb (EType env) EventCommandChunk);
    [unfold applyCommandChunk; destruct (json_Unmarshal env); [|by auto]; rewrite (proj1 (with_call_kept _ _ _)), (proj2 (with_call_kept _ _ _)); by auto|].
  destruct (String.eqb (EType env) EventCommandResult);
    [unfold applyCommandResult; destruct (json_Unmarshal env); [|by auto]; rewrite (proj1 (with_call_kept _ _ _)), (proj2 (with_call_kept _ _ _)); by auto|].
  destruct (String.eqb (EType env) EventSandboxHeartbeat);
    [unfold applySandboxHeartbeat; destruct (json_Unmarshal env); [|by auto]; rewrite (proj1 (with_call_kept _ _ _)), (proj2 (with_call_kept _ _ _)); by auto|].
  destruct (String.eqb (EType env) EventToolApprovalRequest).
  { unfold applyToolApprovalRequest. destruct (json_Unmarshal env); [|by auto]. rewrite (proj1 (with_call_kept _ _ _)), (proj2 (with_call_kept _ _ _)).
    split; [right; split; [done|]|done]. eexists. split; [reflexivity|done]. }
  destruct (String.eqb (EType env) EventError); [unfold applyError; destruct (json_Unmarshal env); by auto|].
  destruct (String.eqb (EType env) EventAck); [unfold applyAck; destruct (json_Unmarshal env); [|by auto]; case_match; by auto|]. by auto.
Qed.

(** The requests that have arrived with an id, its replies and its entries in
    the queue. *)
Definition arrived (X : string) (ev : app_event) : nat :=
  match ev with
  | Received _ env | LateReceived _ env => if is_request env && String.eqb (ID env) X then 1 else 0
  | _ => 0
  end.
Definition replies (X : string) (l : list Envelope) : nat := length (List.filter (fun e => String.eqb (CorrelationID e) X) l).
Definition waiting (X : string) (l : list ApprovalRequest) : nat := length (List.filter (fun r => String.eqb (EnvelopeID r) X) l).
Definition load (X : string) (a : App) : nat := replies X (answers a) + waiting X (PendingApprovals (store a)).

Lemma replies_app X l l' : replies X (l ++ l') = replies X l + replies X l'.
Proof. unfold replies. by rewrite List.filter_app, length_app. Qed.
Lemma waiting_app X l l' : waiting X (l ++ l') = waiting X l + waiting X l'.
Proof. unfold waiting. by rewrite List.filter_app, length_app. Qed.

Lemma calm_load X a a' : calm a a' -> load X a' <= load X a.
Proof. intros [Ha [Hq|Hq] _ _ _ _]; unfold load; rewrite Ha, Hq; cbn; lia. Qed.

Lemma calm_step X a a' n : calm a a' -> load X a' <= load X a + n.
Proof. intros Hc. pose proof (calm_load X _ _ Hc). lia. Qed.

Lemma answered_load X typ top a a' : answered typ top a a' -> load X a' <= load X a.
Proof.
  intros [Hq (l & Ha & Hl) _ _ _ _]. unfold load. rewrite Ha, Hq, replies_app. change (top :: PendingApprovals (store a')) with ([top] ++ PendingApprovals (store a')). rewrite (waiting_app X [top]).
  assert (replies X l <= waiting X [top]); [|lia]. destruct Hl as [->|(e & -> & _ & He)]; [cbn; lia|].
  unfold replies, waiting. cbn. rewrite He. by destruct (String.eqb (EnvelopeID top) X).
Qed.

Lemma approval_load X t req b : load X (approval_Layout NewID t req b) <= load X b.
Proof.
  unfold approval_Layout. set (s := sheet_for req (approval b)). set (b0 := set_sheet s b).
  set (b1 := if fr_deny t then denyTopApproval NewID (fr_outside t) (reason s) b0 else b0).
  assert (load X b1 <= load X b) as Hd.
  { unfold b1. destruct (fr_deny t); [|done]. pose proof (deny_spec (fr_outside t) (reason s) b0) as Hs.
    destruct (PendingApprovals (store b0)); [by rewrite Hs|]. by apply answered_load with (X := X) in Hs. }
  destruct (_ && _); [|done]. etrans; [|exact Hd]. pose proof (approve_spec (fr_outside t) b1) as Hs.
  destruct (PendingApprovals (store b1)); [by rewrite Hs|]. by apply answered_load with (X := X) in Hs.
Qed.

Lemma frame_load X t a : load X (frame t a) <= load X a.
Proof.
  destruct (frame_cases t a) as [Hc|[(_ & c & Hs)|(req & b & _ & Hb & _ & ->)]].
  - by apply calm_load.
  - destruct Hs as [Ha [Hq|Hq] _ _ _ _]; unfold load; rewrite Ha, Hq; cbn; lia.
  - etrans; [apply approval_load|by apply calm_load].
Qed.

Lemma ingest_load X now env a : load X (upd_store (Ingest now env) a) <= load X a + (if is_request env && String.eqb (ID env) X then 1 else 0).
Proof.
  unfold load. change (answers (upd_store (Ingest now env) a)) with (answers a). cbn [store upd_store].
  destruct (Ingest_queue now env (store a)) as [[->|(-> & r & -> & Hr)] _]; [lia|]. rewrite waiting_app. unfold waiting at 2. cbn. rewrite Hr.
  destruct (String.eqb (ID env) X); cbn; lia.
Qed.

(** A step of a flow answers no request. *)
Lemma flow_step_load X f w a : load X (flow_step parse print error_text decode_applied decode_error f w a).1 = load X a.
Proof.
  unfold load. destruct f as [c url tok|url tok|dl], w as [ans now|now]; cbn [flow_step fst]; unfold driveRestartPolling; try done.
  - destruct (ApplyConfig ans) as [r|e]; [done|]. unfold handleApplyError. destruct e; repeat case_match; done.
  - by destruct (RestartOrchestrator ans).
  - destruct (_ && _); [|by repeat case_match]. cbn [fst]. unfold MobileApp.refreshConfig. by destruct (client _ _ _ _).
Qed.

Lemma step_load X a ev : load X (apply_app a ev) <= load X a + arrived X ev.
Proof.
  destruct ev; cbn [MobileApp.apply_app arrived]; try (apply calm_step; first [by calm_by | apply HandleURL_calm | apply fetched_calm]).
  - etrans; [apply frame_load|lia].
  - change (load X a <= load X a + 0). lia.
  - change (load X a <= load X a + 0). lia.
  - apply calm_step. split; cbn; auto. unfold type_text. by destruct (editors (config a) !! envVar).
  - apply calm_step. destruct (session a) as [l|] eqn:El; [|done]. destruct (String.eqb _ _); [done|].
    unfold upd_session. rewrite El. calm_by.
  - apply calm_step. unfold upd_session. destruct (session a); [calm_by|done].
  - apply calm_step. unfold upd_session. destruct (session a); [calm_by|done].
  - destruct (session a) as [l|] eqn:El; [|lia]. etrans; [apply ingest_load|]. unfold upd_session. rewrite El. done.
  - apply ingest_load.
  - apply calm_step. destruct (pickInFlight a); [|done].
    assert (forall s, PendingApprovals (openImagePicker DetectContentType s p) = PendingApprovals s /\ RestartPending (openImagePicker DetectContentType s p) = RestartPending s) as Hp.
    { intros s. unfold openImagePicker. destruct p as [|e|f hint]; try done. destruct (DecodeImageAttachment _ f hint) as [n [img|[|e]]]; try done.
      unfold AddPendingImage. destruct (negb _); [done|]. destruct (_ <? _)%Z; [done|]. by destruct (_ <=? _). }
    destruct (Hp (store a)) as [E1 E2]. split; cbn; auto.
  - unfold run_flow. destruct (flows a !! i) as [f|]; [|lia]. pose proof (flow_step_load X f w a) as Hl.
    destruct (flow_step _ _ _ _ _ f w a) as [a' next]. cbn in Hl. etrans; [|rewrite <-Hl; apply Nat.le_add_r]. done.
Qed.

Lemma other_answers a ev : (forall t, ev <> Frame t) -> answers (apply_app a ev) = answers a.
Proof.
  intros Hn. destruct ev; cbn [MobileApp.apply_app]; try done.
  - by destruct (Hn t).
  - apply HandleURL_calm.
  - unfold upd_session. destruct (session a); [|done]. by destruct (String.eqb _ _).
  - unfold upd_session. by destruct (session a).
  - unfold upd_session. by destruct (session a).
  - unfold upd_session. by destruct (session a).
  - by destruct (pickInFlight a).
  - apply fetched_calm.
  - unfold run_flow. destruct (flows a !! i) as [f|]; [|done]. 
    assert (answers (flow_step parse print error_text decode_applied decode_error f w a).1 = answers a) as Hs; [|by destruct (flow_step _ _ _ _ _ f w a)].
    destruct f as [c url tok|url tok|dl], w as [ans now|now]; cbn [flow_step fst]; unfold driveRestartPolling; try done.
    + destruct (ApplyConfig ans) as [r|e]; [done|]. unfold handleApplyError. destruct e; repeat case_match; done.
    + by destruct (RestartOrchestrator ans).
    + destruct (_ && _); [|by repeat case_match]. cbn [fst]. unfold MobileApp.refreshConfig. by destruct (client _ _ _ _).
Qed.

Lemma sheet_grants t req b : head (PendingApprovals (store b)) = Some req ->
  exists l, answers (approval_Layout NewID t req b) = answers b ++ l /\
    forall e, e ∈ l -> EType e = EventToolApprovalGranted ->
      fr_approve t = true /\ confirmed req (sheet_for req (approval b)) = true /\ (fr_deny t = false -> CorrelationID e = EnvelopeID req).
Proof.
  intros Hq. unfold approval_Layout. set (s := sheet_for req (approval b)). set (b0 := set_sheet s b).
  set (b1 := if fr_deny t then denyTopApproval NewID (fr_outside t) (reason s) b0 else b0).
  assert (exists l, answers b1 = answers b ++ l /\ (forall e, e ∈ l -> EType e <> EventToolApprovalGranted) /\
            (fr_deny t = false -> head (PendingApprovals (store b1)) = Some req)) as (l1 & Hl1 & Hd1 & Hh1).
  { unfold b1. destruct (fr_deny t); [|exists []; rewrite app_nil_r; split_and!; [done|by intros e ?%elem_of_nil|by auto]].
    pose proof (deny_spec (fr_outside t) (reason s) b0) as Hs. destruct (PendingApprovals (store b0)) as [|top rest];
      [rewrite Hs; exists []; rewrite app_nil_r; split_and!; [done|by intros e ?%elem_of_nil|done]|].
    destruct Hs as [_ (l & Ha & Hl) _ _ _ _]. exists l. split_and!; [exact Ha| |done]. intros e He.
    destruct Hl as [->|(e' & -> & Ht & _)]; [by apply elem_of_nil in He|]. apply list_elem_of_singleton in He as ->. by rewrite Ht. }
  destruct (confirmed req s) eqn:Hc; cbn [andb]; [|exists l1; split; [done|]; intros e He Ht; by destruct (Hd1 e He)].
  destruct (fr_approve t); [|exists l1; split; [done|]; intros e He Ht; by destruct (Hd1 e He)].
  pose proof (approve_spec (fr_outside t) b1) as Hs. destruct (PendingApprovals (store b1)) as [|top rest] eqn:Hq1.
  { rewrite Hs. exists l1. split; [done|]. intros e He Ht. by destruct (Hd1 e He). }
  destruct Hs as [_ (l & Ha & Hl) _ _ _ _]. exists (l1 ++ l). split; [by rewrite Ha, Hl1, app_assoc|].
  intros e [He|He]%elem_of_app Ht; [by destruct (Hd1 e He)|]. split_and!; [done|done|]. intros Hnd. specialize (Hh1 Hnd). cbn in Hh1. injection Hh1 as ->.
  destruct Hl as [->|(e' & -> & _ & Hr)]; [by apply elem_of_nil in He|]. by apply list_elem_of_singleton in He as ->.
Qed.

Lemma grants_shown a ev : exists l, answers (apply_app a ev) = answers a ++ l /\
  forall e, e ∈ l -> EType e = EventToolApprovalGranted ->
    exists t req, ev = Frame t /\ fr_approve t = true /\ shown t a = Some req /\ confirmed req (sheet_for req (approval a)) = true /\
      (fr_deny t = false -> CorrelationID e = EnvelopeID req).
Proof.
  assert (answers (apply_app a ev) = answers a \/ exists t, ev = Frame t) as [Hs|[t ->]].
  { destruct ev as [t| | | | | | | | | | | | | | | | |]; try (left; by apply other_answers). right. by exists t. }
  { exists []. rewrite app_nil_r. split; [exact Hs|]. by intros e ?%elem_of_nil. }
  cbn [MobileApp.apply_app]. destruct (frame_cases t a) as [Hc|[(_ & c & Hs)|(req & b & Hsh & Hb & Hq & ->)]].
  - exists []. rewrite app_nil_r. split; [apply Hc|]. by intros e ?%elem_of_nil.
  - exists []. rewrite app_nil_r. split; [apply Hs|]. by intros e ?%elem_of_nil.
  - destruct (sheet_grants t req b Hq) as (l & Hl & Hg). exists l. rewrite Hl, (calm_answers _ _ Hb). split; [done|].
    intros e He Ht. destruct (Hg e He Ht) as (G1 & G2 & G3). rewrite (calm_sheet _ _ Hb) in G2. exists t, req. by split_and!.
Qed.

(** *** Where the confirmation comes from *)

Definition types_confirmation (ev : app_event) : bool := match ev with TypeConfirm _ => true | _ => false end.

Lemma layout_sheet t req b : approval (approval_Layout NewID t req b) = sheet_for req (approval b).
Proof.
  unfold approval_Layout. set (s := sheet_for req (approval b)). set (b0 := set_sheet s b).
  set (b1 := if fr_deny t then denyTopApproval NewID (fr_outside t) (reason s) b0 else b0).
  assert (approval b1 = s) as Hb1.
  { unfold b1. destruct (fr_deny t); [|done]. pose proof (deny_spec (fr_outside t) (reason s) b0) as Hs.
    destruct (PendingApprovals (store b0)); [by rewrite Hs|]. by rewrite (an_sheet _ _ _ _ Hs). }
  destruct (_ && _); [|done]. pose proof (approve_spec (fr_outside t) b1) as Hs.
  destruct (PendingApprovals (store b1)); [by rewrite Hs|]. by rewrite (an_sheet _ _ _ _ Hs).
Qed.

(** Only typing puts text in the confirmation field; a step of any other kind
    leaves it, with the tool it was typed for, or clears it. *)
Lemma step_field a ev : types_confirmation ev = false -> let s := approval a in let s' := approval (apply_app a ev) in
  confirm s' = "" \/ confirm s' = confirm s /\ currentTool s' = currentTool s.
Proof.
  intros Hn. cbn zeta. assert (forall a', approval a' = approval a -> confirm (approval a') = "" \/ confirm (approval a') = confirm (approval a) /\ currentTool (approval a') = currentTool (approval a)) as Hsame
    by (intros a' ->; auto).
  destruct ev; cbn [MobileApp.apply_app types_confirmation] in *; try done; try (by apply Hsame).
  - destruct (frame_cases t a) as [Hc|[(_ & c & Hs)|(req & b & _ & Hb & _ & ->)]]; [apply Hsame, Hc|apply Hsame, Hs|].
    rewrite layout_sheet, (calm_sheet _ _ Hb). unfold sheet_for. destruct (String.eqb _ _); auto.
  - by right.
  - apply Hsame, HandleURL_calm.
  - apply Hsame. unfold upd_session. destruct (session a); [|done]. by destruct (String.eqb _ _).
  - apply Hsame. unfold upd_session. by destruct (session a).
  - apply Hsame. unfold upd_session. by destruct (session a).
  - apply Hsame. unfold upd_session. by destruct (session a).
  - apply Hsame. by destruct (pickInFlight a).
  - apply Hsame, fetched_calm.
  - apply Hsame. unfold run_flow. destruct (flows a !! i) as [f|]; [|done].
    assert (approval (flow_step parse print error_text decode_applied decode_error f w a).1 = approval a) as Hs; [|by destruct (flow_step _ _ _ _ _ f w a)].
    destruct f as [c url tok|url tok|dl], w as [ans now|now]; cbn [flow_step fst]; unfold driveRestartPolling; try done.
    + destruct (ApplyConfig ans) as [r|e]; [done|]. unfold handleApplyError. destruct e; repeat case_match; done.
    + by destruct (RestartOrchestrator ans).
    + destruct (_ && _); [|by repeat case_match]. cbn [fst]. unfold MobileApp.refreshConfig. by destruct (client _ _ _ _).
Qed.

(** What stands in the field was typed last, while the sheet was for the tool it
    is for now. *)
Lemma field_was_typed a evs : confirm (approval a) = "" -> let s := approval (run_app a evs) in
  confirm s = "" \/ exists pre txt post, evs = pre ++ TypeConfirm txt :: post /\ Forall (fun ev => types_confirmation ev = false) post /\
    confirm s = txt /\ currentTool (approval (run_app a pre)) = currentTool s.
Proof.
  intros Ha. cbn zeta. induction evs as [|ev evs IH] using rev_ind; [by left|]. unfold MobileApp.run_app in *. rewrite foldl_app. cbn [foldl].
  destruct (types_confirmation ev) eqn:Et.
  - destruct ev; try done. right. by exists evs, s, [].
  - destruct (step_field (foldl apply_app a evs) ev Et) as [->|[-> ->]]; [by left|]. destruct IH as [->|(pre & txt & post & -> & Hp & Hc & Ht)]; [by left|right].
    exists pre, txt, (post ++ [ev]). rewrite <-app_assoc. split_and!; [done| |done|done]. apply Forall_app. split; [done|]. by repeat constructor.
Qed.

Lemma fold_case_empty s : fold_case s = "" -> s = "".
Proof. destruct s as [|c s]; [done|]. cbn [fold_case]. destruct s as [|d s]; [done|]. destruct (_ && _); [done|]. destruct s as [|e s]; [done|]. by destruct (_ && _). Qed.

(** A history in which the operator typed the name of a tool, up to case and
    surrounding space, as the last thing into the confirmation field, while the
    sheet was for that tool. *)
Definition typed_name (a : App) (evs : list app_event) (tool : string) : Prop :=
  exists pre txt post, evs = pre ++ TypeConfirm txt :: post /\ Forall (fun ev => types_confirmation ev = false) post /\
    EqualFold (TrimSpace txt) tool = true /\ currentTool (approval (run_app a pre)) = tool.

Lemma confirmed_was_typed a evs req : confirm (approval a) = "" -> ar_Tool req <> "" ->
  confirmed req (sheet_for req (approval (run_app a evs))) = true -> typed_name a evs (ar_Tool req).
Proof.
  intros Ha Ht. unfold confirmed.
  assert (EqualFold (TrimSpace "") (ar_Tool req) = false) as Hno.
  { destruct (EqualFold _ _) eqn:E; [|done]. apply String.eqb_eq in E. change (fold_case (TrimSpace "")) with "" in E. by apply eq_sym, fold_case_empty in E. }
  unfold sheet_for. destruct (String.eqb_spec (ar_Tool req) (currentTool (approval (run_app a evs)))) as [He|_]; [|cbn [confirm]; by rewrite Hno].
  intros Hc. destruct (field_was_typed a evs Ha) as [Hf|(pre & txt & post & Hevs & Hp & Hf & Hcur)]; [rewrite Hf, Hno in Hc; done|].
  exists pre, txt, post. rewrite Hf in Hc. split_and!; [done..|congruence].
Qed.

(** C9: The phone answers an approval request at most once, and grants only after the operator typed a tool's name: in any history of an application that starts with no request, the replies handed to a session for an id, together with its entries still in the queue, are no more than the requests that arrived with it, and whenever a step hands over a grant that step is a frame in which Approve was tapped while a request was on the chat screen and, unless that request's tool has the empty name, the last text the operator typed into the confirmation field equals the tool's name up to case and surrounding space and was typed while the sheet was for that tool; if Deny was not tapped in the same frame, the grant is for the request on the screen.  The source's comments promise more: the exact name, and a fresh confirmation for every request. Neither holds, since the comparison folds case and the field is cleared only when the tool changes, and tapping both buttons in a frame denies the shown request and grants the next. *)
Theorem approvals_confirmed_and_answered_once flt s d evs X : PendingApprovals s = [] ->
  let a := run_app (NewApp flt s d) evs in
  replies X (answers a) + waiting X (PendingApprovals (store a)) <= sum_list_with (arrived X) evs /\
  forall pre ev post, evs = pre ++ ev :: post ->
    let b := run_app (NewApp flt s d) pre in
    exists l, answers (apply_app b ev) = answers b ++ l /\
      forall e, e ∈ l -> EType e = EventToolApprovalGranted ->
        exists t req, ev = Frame t /\ fr_approve t = true /\ shown t b = Some req /\
          (ar_Tool req <> "" -> typed_name (NewApp flt s d) pre (ar_Tool req)) /\
          (fr_deny t = false -> CorrelationID e = EnvelopeID req).
Proof.
  intros Hs. cbn zeta.
  assert (confirm (approval (NewApp flt s d)) = "") as Ha by (unfold MobileApp.NewApp; by destruct (Load _ flt d) as [[url tok]|e]).
  split.
  2: { intros pre ev post _. destruct (grants_shown (run_app (NewApp flt s d) pre) ev) as (l & Hl & Hg). exists l. split; [exact Hl|].
    intros e He Ht. destruct (Hg e He Ht) as (t & req & H1' & H2' & H3' & H4' & H5'). exists t, req. split_and!; try done.
    intros Hne. by apply confirmed_was_typed. }
  change (load X (run_app (NewApp flt s d) evs) <= sum_list_with (arrived X) evs).
  assert (load X (NewApp flt s d) = 0) as Hz.
  { unfold MobileApp.NewApp. destruct (Load _ flt d) as [[url tok]|e]; unfold load; cbn [store upd_store set_fields answers handed].
    - destruct (SetCredentials_queue url tok s) as [[E|E] _]; cbn in *; rewrite E, ?Hs; done.
    - cbn. by rewrite Hs. }
  induction evs as [|ev evs IH] using rev_ind; [cbn; lia|]. unfold MobileApp.run_app in *. rewrite foldl_app, sum_list_with_app.
  cbn [foldl]. pose proof (step_load X (foldl apply_app (NewApp flt s d) evs) ev) as Hstep.
  cbn. lia.
Qed.

(** *** Histories of the apply flow *)

Definition says_hello (ev : app_event) : bool := match ev with Received _ env | LateReceived _ env => is_hello env | _ => false end.
Definition in_flow (ev : app_event) : bool := match ev with Flow _ _ => true | _ => false end.

(** The flows and the phase stay, or one flow starts while none is shown. *)
Definition flow_kept (a a' : App) : Prop :=
  flows a' = flows a /\ phase (config a') = phase (config a) \/
  busy (phase (config a)) = false /\ phase (config a') = ConfigPhaseApplying /\ exists c url tok, flows a' = flows a ++ [FlowPut c url tok].

Lemma calm_flow_kept a a' : calm a a' -> flow_kept a a' /\ RestartPending (store a') = RestartPending (store a).
Proof. intros [_ _ Hf Hp Hr _]. split; [by left|done]. Qed.

Lemma approval_keeps t req b : let b' := approval_Layout NewID t req b in
  flows b' = flows b /\ phase (config b') = phase (config b) /\ RestartPending (store b') = RestartPending (store b).
Proof.
  cbn zeta. unfold approval_Layout. set (s := sheet_for req (approval b)). set (b0 := set_sheet s b).
  set (b1 := if fr_deny t then denyTopApproval NewID (fr_outside t) (reason s) b0 else b0).
  assert (flows b1 = flows b /\ phase (config b1) = phase (config b) /\ RestartPending (store b1) = RestartPending (store b)) as (F & P & R).
  { unfold b1. destruct (fr_deny t); [|done]. pose proof (deny_spec (fr_outside t) (reason s) b0) as Hs.
    destruct (PendingApprovals (store b0)); [by rewrite Hs|]. destruct Hs as [_ _ F P R _]. by rewrite F, P, R. }
  destruct (_ && _); [|done]. rewrite <-F, <-P, <-R. pose proof (approve_spec (fr_outside t) b1) as Hs.
  destruct (PendingApprovals (store b1)); [by rewrite Hs|]. by destruct Hs as [_ _ F' P' R' _].
Qed.

Lemma step_flow a ev : in_flow ev = false -> flow_kept a (apply_app a ev) /\ (says_hello ev = false -> RestartPending (store (apply_app a ev)) = RestartPending (store a)).
Proof.
  intros Hn. assert (forall a', calm a a' -> flow_kept a a' /\ (says_hello ev = false -> RestartPending (store a') = RestartPending (store a))) as Hcalm
    by (intros a' Hc; destruct (calm_flow_kept _ _ Hc); by split).
  destruct ev; cbn [MobileApp.apply_app in_flow] in *; try done; try (apply Hcalm; first [by calm_by | apply HandleURL_calm | apply fetched_calm]).
  - destruct (frame_cases t a) as [Hc|[(Hb & c & Hs)|(req & b & _ & Hb & _ & ->)]]; [by apply Hcalm| |].
    + destruct Hs as [_ _ (url & tok & Hf) Hp Hr _]. split; [right; split_and!; eauto|done].
    + destruct (approval_keeps t req b) as (F & P & R). destruct Hb as [_ _ Hf Hp Hr _]. split; [left; split; congruence|congruence].
  - by split; [left|].
  - by split; [left|].
  - split; [left|done]. split; [done|]. cbn. unfold type_text. by destruct (editors (config a) !! envVar).
  - apply Hcalm. unfold upd_session. destruct (session a); [|done]. destruct (String.eqb _ _); calm_by.
  - apply Hcalm. unfold upd_session. destruct (session a); [calm_by|done].
  - apply Hcalm. unfold upd_session. destruct (session a); [calm_by|done].
  - unfold upd_session. destruct (session a); [|by split; [left|]]. split; [by left|]. intros Hh. cbn. by apply Ingest_queue.
  - split; [by left|]. intros Hh. cbn. by apply Ingest_queue.
  - unfold upd_store, set_picking. destruct (pickInFlight a); [|by split; [left|]]. split; [by left|]. intros _. cbn.
    unfold openImagePicker. destruct p as [|e|f hint]; try done. destruct (DecodeImageAttachment _ f hint) as [n [img|[|e]]]; try done.
    unfold AddPendingImage. destruct (negb _); [done|]. destruct (_ <? _)%Z; [done|]. by destruct (_ <=? _).
Qed.

Definition put_accepted (evs : list app_event) (ans : answer) (now : Z) (e1 e2 : list app_event) : Prop :=
  evs = e1 ++ Flow 0 (Replied ans now) :: e2 /\ exists r, ApplyConfig ans = Ok r.

(** The server took the changes and then the restart; [e3] is what happened since. *)
Definition restarted (evs : list app_event) (deadline : Z) (e3 : list app_event) : Prop :=
  exists e1 put t0 e2 restart t1, put_accepted evs put t0 e1 (e2 ++ Flow 0 (Replied restart t1) :: e3) /\
    RestartOrchestrator restart = None /\ deadline = (t1 + restartBudget)%Z.

Definition back_online (run : list app_event -> App) (evs : list app_event) : Prop :=
  exists e3 deadline now e4, restarted evs deadline (e3 ++ Flow 0 (Woke now) :: e4) /\ Exists (fun ev => says_hello ev = true) e3 /\
    exists e0, evs = e0 ++ Flow 0 (Woke now) :: e4 /\ Status (store (run e0)) = StatusOpen.

Lemma put_accepted_snoc evs ans now e1 e2 ev : put_accepted evs ans now e1 e2 -> put_accepted (evs ++ [ev]) ans now e1 (e2 ++ [ev]).
Proof. intros [-> Hr]. split; [by rewrite <-app_assoc|done]. Qed.
Lemma restarted_snoc evs dl e3 ev : restarted evs dl e3 -> restarted (evs ++ [ev]) dl (e3 ++ [ev]).
Proof.
  intros (e1 & put & t0 & e2 & restart & t1 & Hp & Hr & Hd). exists e1, put, t0, e2, restart, t1. split; [|done].
  apply (put_accepted_snoc _ _ _ _ _ ev) in Hp. by rewrite <-app_assoc in Hp.
Qed.
Lemma back_online_snoc run evs ev : back_online run evs -> back_online run (evs ++ [ev]).
Proof.
  intros (e3 & dl & now & e4 & Hr & Hh & e0 & -> & Hs). exists e3, dl, now, (e4 ++ [ev]). apply (restarted_snoc _ _ _ ev) in Hr.
  rewrite <-!app_assoc in Hr. rewrite <-!app_assoc. cbn [app] in *. split_and!; [done|done|]. by exists e0.
Qed.

(** What is known of the history of an application in a state. *)
Record flow_inv (run : list app_event -> App) (evs : list app_event) : Prop := {
  fi_ok : flow_ok (run evs);
  fi_restart : forall url tok, flows (run evs) = [FlowRestart url tok] -> exists ans now e1 e2, put_accepted evs ans now e1 e2;
  fi_polling : forall dl, flows (run evs) = [FlowPolling dl] -> exists e3, restarted evs dl e3 /\
    (RestartPending (store (run evs)) = true \/ Exists (fun ev => says_hello ev = true) e3);
  fi_applied : phase (config (run evs)) = ConfigPhaseApplied -> back_online run evs }.

Lemma kept_inv run evs ev : flow_inv run evs -> in_flow ev = false -> run (evs ++ [ev]) = apply_app (run evs) ev -> flow_inv run (evs ++ [ev]).
Proof.
  intros [Hok Hre Hpo Hap] Hn Hrun. destruct (step_flow (run evs) ev Hn) as [Hk Hr]. rewrite <-Hrun in Hk, Hr.
  destruct Hk as [[Hf Hp]|(Hb & Hp & c & url & tok & Hf)].
  - split.
    + unfold flow_ok. by rewrite Hf, Hp.
    + rewrite Hf. intros url tok E. destruct (Hre _ _ E) as (ans & now & e1 & e2 & Ha). eexists _, _, _, _. by apply put_accepted_snoc.
    + rewrite Hf. intros dl E. destruct (Hpo _ E) as (e3 & Ha & Hh). exists (e3 ++ [ev]). split; [by apply restarted_snoc|].
      destruct Hh as [Hh|Hh]; [|right; apply Exists_app; by left]. destruct (says_hello ev) eqn:Eh; [right; apply Exists_app; right; by apply Exists_cons; left|].
      left. by rewrite Hr.
    + rewrite Hp. intros E. by apply back_online_snoc, Hap.
  - destruct Hok as [[Hnil _]|(f & _ & Hbz)]; [|rewrite Hbz in Hb; by destruct f]. rewrite Hnil in Hf. cbn [app] in Hf. split.
    + right. eexists. by rewrite Hf, Hp.
    + by rewrite Hf.
    + by rewrite Hf.
    + by rewrite Hp.
Qed.

Lemma handleApplyError_phase e a : flows (handleApplyError e a) = flows a /\ busy (phase (config (handleApplyError e a))) = false /\
  phase (config (handleApplyError e a)) <> ConfigPhaseApplied.
Proof.
  unfold handleApplyError. destruct e as [st msg k|msg]; [|done]. destruct (st =? 401)%Z; [done|]. destruct (negb (String.eqb k "")); [|done].
  cbn. unfold SetFieldError. destruct (String.eqb msg ""); [done|]. by destruct (List.find _ _).
Qed.

(** One wake of the flow that runs. *)
Lemma flow_wake a f w : flows a = [f] -> phase (config a) = flow_phase f ->
  let a' := run_flow parse print error_text decode_applied decode_error 0 w a in
  (flows a' = [f] /\ a' = set_flows [f] (fetches a) a /\ match f, w with FlowPolling dl, Woke now => (now <= dl)%Z | _, _ => True end) \/
  (flows a' = [] /\ busy (phase (config a')) = false /\
     (phase (config a') = ConfigPhaseApplied -> exists dl now, f = FlowPolling dl /\ w = Woke now /\ RestartPending (store a) = false /\ Status (store a) = StatusOpen)) \/
  (exists c url tok ans now, f = FlowPut c url tok /\ w = Replied ans now /\ (exists r, ApplyConfig ans = Ok r) /\ flows a' = [FlowRestart url tok] /\ phase (config a') = ConfigPhaseApplying) \/
  (exists url tok ans now, f = FlowRestart url tok /\ w = Replied ans now /\ RestartOrchestrator ans = None /\ flows a' = [FlowPolling (now + restartBudget)] /\
     phase (config a') = ConfigPhaseRestarting /\ RestartPending (store a') = true).
Proof.
  intros Hf Hp. cbn zeta. unfold run_flow. rewrite Hf. cbn [lookup list_lookup].
  destruct f as [c url tok|url tok|dl], w as [ans now|now]; cbn [flow_step]; unfold driveRestartPolling; try (left; rewrite ?Hf; split_and!; done).
  - destruct (ApplyConfig ans) as [r|e] eqn:Ea; cbn [fst snd].
    + right; right; left. exists c, url, tok, ans, now. cbn. rewrite Hf. by split_and!; eauto.
    + right; left. destruct (handleApplyError_phase e a) as (Ef & Eb & En). cbn. rewrite Ef, Hf. by split_and!.
  - destruct (RestartOrchestrator ans) as [msg|] eqn:Er; cbn [fst snd].
    + right; left. cbn. rewrite Hf. by split_and!.
    + right; right; right. exists url, tok, ans, now. cbn. rewrite Hf. by split_and!.
  - destruct (negb (RestartPending (store a))) eqn:Hr; cbn [andb].
    2: destruct (String.eqb (Status (store a)) StatusUnauthorized); [right; left; cbn; rewrite Hf; by split_and!|];
       destruct (Z.ltb_spec dl now); [right; left; cbn; rewrite Hf; by split_and!|left; cbn; rewrite Hf; by split_and!].
    destruct (String.eqb_spec (Status (store a)) StatusOpen) as [Ho|Ho].
    + right; left. unfold MobileApp.refreshConfig. apply negb_true_iff in Hr. destruct (client _ _ _ _); cbn; rewrite Hf; split_and!; try done; intros _; by exists dl, now.
    + destruct (String.eqb (Status (store a)) StatusUnauthorized); [right; left; cbn; rewrite Hf; by split_and!|].
      destruct (Z.ltb_spec dl now); [right; left; cbn; rewrite Hf; by split_and!|left; cbn; rewrite Hf; by split_and!].
Qed.

Lemma idle_flow i w a : flows a !! i = None -> run_flow parse print error_text decode_applied decode_error i w a = a.
Proof. intros E. unfold run_flow. by rewrite E. Qed.

Lemma flow_step_inv run evs i w : flow_inv run evs -> run (evs ++ [Flow i w]) = apply_app (run evs) (Flow i w) -> flow_inv run (evs ++ [Flow i w]).
Proof.
  intros [Hok Hre Hpo Hap] Hrun. cbn [MobileApp.apply_app] in Hrun.
  assert (forall a', flows a' = flows (run evs) -> phase (config a') = phase (config (run evs)) -> RestartPending (store a') = RestartPending (store (run evs)) ->
     run (evs ++ [Flow i w]) = a' -> flow_inv run (evs ++ [Flow i w])) as Hsame.
  { intros a' Hf Hp Hr <-. split.
    - unfold flow_ok. by rewrite Hf, Hp.
    - rewrite Hf. intros url tok E. destruct (Hre _ _ E) as (ans & now & e1 & e2 & Ha). eexists _, _, _, _. by apply put_accepted_snoc.
    - rewrite Hf. intros dl E. destruct (Hpo _ E) as (e3 & Ha & Hh). exists (e3 ++ [Flow i w]). split; [by apply restarted_snoc|].
      rewrite Hr. destruct Hh as [Hh|Hh]; [by left|right; apply Exists_app; by left].
    - rewrite Hp. intros E. by apply back_online_snoc, Hap. }
  destruct Hok as [[Hnil Hb]|(f & Hf & Hp)]; [rewrite idle_flow in Hrun; [by eapply Hsame|by rewrite Hnil]|].
  destruct i as [|i]; [|rewrite idle_flow in Hrun; [by eapply Hsame|by rewrite Hf]].
  destruct (flow_wake (run evs) f w Hf Hp) as [(E1 & E2 & _)|[(E1 & E2 & E3)|[(c & url & tok & ans & now & -> & -> & Ha & E1 & E2)|(url & tok & ans & now & -> & -> & Ha & E1 & E2 & E3)]]];
    rewrite <-Hrun in *.
  - eapply Hsame; [..|exact E2]; by rewrite ?Hf.
  - split; [left; by rewrite E1|by rewrite E1|by rewrite E1|]. intros E. destruct (E3 E) as (dl & now & -> & -> & Hr & Ho).
    destruct (Hpo dl Hf) as (e3 & Hre3 & Hh). destruct Hh as [Hh|Hh]; [congruence|].
    exists e3, dl, now, []. split_and!; [by apply restarted_snoc|done|]. by exists evs.
  - split; [right; eexists; by rewrite E1, E2| |by rewrite E1|by rewrite E2]. intros url' tok' _. exists ans, now, evs, []. by split.
  - split; [right; eexists; by rewrite E1, E2|by rewrite E1| |by rewrite E2]. intros dl. rewrite E1. intros [= <-]. exists []. split; [|by left].
    destruct (Hre url tok Hf) as (put & t0 & e1 & e2 & [-> Hput]). exists e1, put, t0, e2, ans, now. split_and!; [|done|done].
    split; [by rewrite <-app_assoc|done].
Qed.

Lemma flow_history flt s d evs : flow_inv (run_app (NewApp flt s d)) evs.
Proof.
  induction evs as [|ev evs IH] using rev_ind.
  - assert (flows (NewApp flt s d) = [] /\ phase (config (NewApp flt s d)) = ConfigPhaseIdle) as [Hf Hp]
      by (unfold MobileApp.NewApp; by destruct (Load _ flt d) as [[url tok]|]).
    split; cbn [MobileApp.run_app foldl]; [left; by rewrite Hf, Hp|by rewrite Hf|by rewrite Hf|by rewrite Hp].
  - assert (run_app (NewApp flt s d) (evs ++ [ev]) = apply_app (run_app (NewApp flt s d) evs) ev) as Hrun by (unfold MobileApp.run_app; by rewrite foldl_app).
    destruct (in_flow ev) eqn:Hi; [|by apply kept_inv]. destruct ev; try done. by apply flow_step_inv.
Qed.

(** The phone reports a configuration as applied only when it was: in any history of frames, callbacks and goroutine steps at most one apply flow runs, the editor is shown busy exactly while one does, and when its phase is "applied" the server had accepted the changes, then accepted the restart, after that a session had read a hello, and the status was open when the polling goroutine looked. *)
Theorem applied_means_back_online flt s d evs :
  let a := run_app (NewApp flt s d) evs in
  (length (flows a) <= 1 /\ (flows a <> [] <-> busy (phase (config a)) = true)) /\
  (phase (config a) = ConfigPhaseApplied -> back_online (run_app (NewApp flt s d)) evs).
Proof.
  cbn zeta. destruct (flow_history flt s d evs) as [Hok _ _ Hap]. split; [|exact Hap].
  destruct Hok as [[Hf Hb]|(f & Hf & Hp)]; rewrite Hf.
  - split; [cbn; lia|]. rewrite Hb. done.
  - split; [cbn; lia|]. rewrite Hp. by destruct f.
Qed.

(** *** The end of the polling *)

Definition wakes (evs : list app_event) : list Z := omap (fun ev => match ev with Flow 0 (Woke now) => Some now | _ => None end) evs.

(** Each sleep lasts at least [restartPollEvery]. *)
Fixpoint slept (t : Z) (ts : list Z) : Prop :=
  match ts with [] => True | t' :: l => (t + restartPollEvery <= t')%Z /\ slept t' l end.

Lemma slept_last ts : forall t, slept t ts -> ts <> [] -> exists t', t' ∈ ts /\ (t + Z.of_nat (length ts) * restartPollEvery <= t')%Z.
Proof.
  induction ts as [|u ts IH]; intros t Hs Hne; [done|]. destruct Hs as [Hu Hs]. destruct ts as [|v ts].
  - exists u. split; [by left|]. cbn [length]. lia.
  - destruct (IH u Hs) as (t' & Hin & Hle); [done|]. exists t'. split; [by right|]. cbn [length] in *. lia.
Qed.

Lemma polling_ends evs dl t : (dl < t)%Z -> t ∈ wakes evs -> forall a, flows a = [FlowPolling dl] -> phase (config a) = ConfigPhaseRestarting ->
  exists pre post, evs = pre ++ post /\ flows (run_app a pre) = [].
Proof.
  intros Hlt. induction evs as [|ev evs IH]; intros Hin a Hf Hp; [by apply elem_of_nil in Hin|].
  assert (flows (apply_app a ev) = [] \/ flows (apply_app a ev) = [FlowPolling dl] /\ phase (config (apply_app a ev)) = ConfigPhaseRestarting /\ t ∈ wakes evs) as Hc.
  { destruct (in_flow ev) eqn:Hi.
    - destruct ev as [| | | | | | | | | | | | | | | | |i w]; try done. cbn [MobileApp.apply_app].
      destruct i as [|i]; [|rewrite idle_flow by (by rewrite Hf); right; by split_and!].
      destruct (flow_wake a (FlowPolling dl) w Hf Hp) as [(E1 & E2 & Hw)|[(E1 & _)|[(? & ? & ? & ? & ? & ? & _)|(? & ? & ? & ? & ? & _)]]]; [|by left|done|done].
      right. rewrite E1. split; [done|]. split; [by rewrite E2|]. destruct w as [ans now|now]; [done|].
      unfold wakes in Hin. cbn in Hin. apply elem_of_cons in Hin as [->|Hin]; [lia|done].
    - right. destruct (step_flow a ev Hi) as [[[-> ->]|(Hb & _)] _]; [|by rewrite Hp in Hb]. split_and!; [done|done|]. by destruct ev. }
  destruct Hc as [Hc|(Hc & Hph & Hin')].
  - exists [ev], evs. by split.
  - destruct (IH Hin' _ Hc Hph) as (pre & post & -> & Hd). by exists (ev :: pre), post.
Qed.

(** C26: The wait for a restart ends: when the server has taken the restart at a time, the goroutine that polls for its return is gone after at most fifteen wakes of sleeps of the poll interval, whatever the user, the sessions and the server do meanwhile. *)
Theorem restart_polling_terminates flt s d evs t1 later :
  let a := run_app (NewApp flt s d) evs in
  flows a = [FlowPolling (t1 + restartBudget)] -> slept t1 (wakes later) -> 15 <= length (wakes later) ->
  exists pre post, later = pre ++ post /\ flows (run_app a pre) = [].
Proof.
  cbn zeta. intros Hf Hs Hn. destruct (slept_last _ _ Hs) as (t & Hin & Hle); [intros E; rewrite E in Hn; cbn in Hn; lia|].
  eapply polling_ends; [|exact Hin|exact Hf|].
  - unfold restartBudget, restartPollEvery in *. nia.
  - destruct (flow_history flt s d evs) as [[[E _]|(f & E & Hp)] _ _ _]; rewrite Hf in E; [done|]. by injection E as <-.
Qed.
End shell.

(** ** Concrete histories *)

Definition demo_hello : Unmarshal HelloPayload := fun _ => Some (mkHello "s1" "" 1 "mock" "" []).
Definition demo_request : Unmarshal ToolApprovalRequestPayload := fun v =>
  match v with AStr tool => Some (mkApprovalPayload tool [] "" "c1" 0 None) | _ => None end.
Definition no_payload {P} : Unmarshal P := fun _ => None.

Definition demo_ids (n : nat) : string := Itoa (Z.of_nat n).
Definition demo_token_marshal (f : tokenFile) : string := tf_ServerURL f +:+ " " +:+ tf_Token f.
Definition demo_token_unmarshal (_ : string) : option tokenFile := Some (mkTokenFile "ws://h/ws" "t").
Definition demo_url (_ : string) : option URL := Some (mkURL "ws" "" "h" "/ws" false "" "").
Definition demo_print (u : URL) : string := Scheme u +:+ "://" +:+ Host u.
Definition demo_listing_of (_ : string) : option ConfigSnapshot := Some demo_listing.

Abbreviation demo_run := (run_app (H := demo_hello) (H0 := no_payload) (H1 := no_payload) (H2 := no_payload) (H3 := no_payload) (H4 := no_payload)
  (H5 := no_payload) (H6 := demo_request) (H7 := no_payload) (H8 := no_payload) demo_ids demo_token_marshal demo_url demo_print (fun _ => "bad url") (fun x => x)
  demo_listing_of demo_applied (fun _ => None) (fun _ _ => "{}")).

Definition no_faults : token_faults := mkTokenFaults false false None false false.
Definition outside0 : outside := mkOutside None 0 no_faults.
Definition demo_start : App := NewApp demo_token_unmarshal no_faults init_state (mkTokenDisk None None).

Definition quiet_frame : frame_taps :=
  mkFrame outside0 0 false (fun _ => false) false false false false false false false false (fun _ => false) no_taps false false.
Definition tap_connect : frame_taps :=
  mkFrame outside0 0 true (fun _ => false) false false false false false false false false (fun _ => false) no_taps false false.
Definition tap_send : frame_taps :=
  mkFrame outside0 0 false (fun _ => false) false true false false false false false false (fun _ => false) no_taps false false.
Definition tap_answer (deny approve : bool) : frame_taps :=
  mkFrame outside0 0 false (fun _ => false) false false false false false false false false (fun _ => false) no_taps deny approve.
Definition tap_gear : frame_taps :=
  mkFrame outside0 0 false (fun _ => false) false false true false false false false false (fun _ => false) no_taps false false.
Definition tap_open_config : frame_taps :=
  mkFrame outside0 0 false (fun _ => false) false false false false false false true false (fun _ => false) no_taps false false.
Definition tap_editor (t : ConfigEditor.taps) : frame_taps :=
  mkFrame outside0 0 false (fun _ => false) false false false false false false false false (fun _ => false) t false false.

Definition ev_request (id tool : string) : app_event := Received 0 (mkEnvelope id EventToolApprovalRequest 0 "" (Some (AStr tool))).
Definition ev_hello : app_event := Received 0 (mkEnvelope "h" EventHello 0 "" (Some ANil)).

Definition demo_open_session : list app_event := [TypeToken "t"; Frame tap_connect; SessStatus StatusConnecting; SessConn true; ev_hello; SessStatus StatusOpen].
Definition demo_approve : list app_event :=
  demo_open_session ++ [ev_request "a1" "execute_script"; Frame quiet_frame; TypeConfirm " Execute_Script"; Frame (tap_answer false true)].

Lemma approvals_confirmed_and_answered_once_witness :
  let a := demo_run demo_start demo_approve in
  ((fun e => (EType e, CorrelationID e)) <$> answers a) = [(EventToolApprovalGranted, "a1")] /\
  (replies "a1" (answers a) + waiting "a1" (PendingApprovals (store a)) <= sum_list_with (arrived "a1") demo_approve).
Proof.
  split; [vm_compute; reflexivity|]. apply approvals_confirmed_and_answered_once. reflexivity.
Defined.

Definition demo_apply : list app_event :=
  demo_open_session ++
  [Frame tap_gear; Frame tap_open_config; Fetched (Answer 200 ""); Frame (tap_editor (tap_toggle "Server")); TypeSetting "PORT" "9090"; Frame (tap_editor no_taps);
   Frame (tap_editor tap_apply); Flow 0 (Replied (Answer 200 "applied") 1); Flow 0 (Replied (Answer 202 "") 2);
   SessStatus StatusConnecting; SessConn true].

Lemma applied_means_back_online_witness :
  let a := demo_run demo_start (demo_apply ++ [ev_hello; SessStatus StatusOpen; Flow 0 (Woke 2500000002)]) in
  phase (config a) = ConfigPhaseApplied /\ aq_Method <$> requests a = ["GET"; "PUT"; "POST"; "GET"] /\
  back_online demo_applied (fun _ => None) (demo_run demo_start) (demo_apply ++ [ev_hello; SessStatus StatusOpen; Flow 0 (Woke 2500000002)]).
Proof.
  split; [vm_compute; reflexivity|]. split; [vm_compute; reflexivity|]. apply applied_means_back_online. vm_compute. reflexivity.
Defined.

Definition demo_wakes : list app_event := (fun n => Flow 0 (Woke (2 + Z.of_nat n * restartPollEvery))) <$> seq 1 15.

Lemma restart_polling_terminates_witness :
  let a := demo_run demo_start demo_apply in
  (exists pre post, demo_wakes = pre ++ post /\ flows (demo_run a pre) = []) /\ phase (config (demo_run a demo_wakes)) = ConfigPhaseFailed.
Proof.
  split; [|vm_compute; reflexivity]. apply restart_polling_terminates with (t1 := 2%Z); [vm_compute; reflexivity| |vm_compute; lia].
  vm_compute. intuition congruence.
Defined.

(** ** What modelling showed *)

(** A typed confirmation stays for the next request of the same tool, which
    Approve then grants without a new one. *)
Lemma confirmation_carries_over :
  answers (demo_run demo_start (demo_approve ++ [ev_request "a2" "execute_script"; Frame (tap_answer false true)])) =
  [mkEnvelope "0" EventToolApprovalGranted 0 "a1" (Some (AMap [])); mkEnvelope "1" EventToolApprovalGranted 0 "a2" (Some (AMap []))].
Proof. vm_compute. reflexivity. Qed.

(** Both buttons in one frame: the request on the screen is denied and the next
    one, of another tool and never shown, is granted. *)
Lemma both_buttons_grant_the_next :
  (fun e => (EType e, CorrelationID e)) <$> answers (demo_run demo_start (demo_open_session ++ [ev_request "a1" "read_file"; ev_request "a2" "execute_script";
     Frame quiet_frame; TypeConfirm "read_file"; Frame (tap_answer true true)])) =
  [(EventToolApprovalDenied, "a1"); (EventToolApprovalGranted, "a2")].
Proof. vm_compute. reflexivity. Qed.

(** A reply given while the session is down is refused by [Send], but its request
    is already off the queue: the operator can not answer it again. *)
Lemma offline_answer_loses_the_request :
  let a := demo_run demo_start (demo_open_session ++ [ev_request "a1" "execute_script"; Frame quiet_frame; TypeConfirm "execute_script";
             SessConn false; SessStatus StatusClosed; Frame (tap_answer false true)]) in
  PendingApprovals (store a) = [] /\ (snd <$> handed a) = [Some ErrOffline] /\ LastError (store a) = "wireclient: session offline".
Proof. vm_compute. done. Qed.

(** With saved credentials the application opens on the chat screen and starts no
    session: a message is recorded as sent and goes nowhere. *)
Lemma relaunch_starts_no_session :
  let a0 := NewApp demo_token_unmarshal no_faults init_state (mkTokenDisk (Some "saved") None) in
  let a := demo_run a0 [Frame quiet_frame; TypeComposer "hi"; Frame tap_send] in
  Token (store a0) = "t" /\ session a = None /\ UserText <$> Turns (store a) = ["hi"] /\ handed a = [] /\ LastError (store a) = "not connected".
Proof. vm_compute. done. Qed.

(** A stopped session reports its end after the next one has opened: the store
    says closed while the live session is open, and the apply flow gives up on a
    server that is back. *)
Lemma late_status_hides_the_open_session :
  let a := demo_run demo_start (demo_apply ++ [ev_hello; SessStatus StatusOpen; LateStatus StatusClosed] ++ demo_wakes) in
  phase (config a) = ConfigPhaseFailed /\ (statusVal ∘ lv_sess <$> session a) = Some StatusOpen.
Proof. vm_compute. done. Qed.

(** Reconnecting by hand throws the queued messages away. *)
Lemma force_reconnect_drops_the_outbox :
  let tap_reconnect := mkFrame outside0 0 false (fun _ => false) false false false false false true false false (fun _ => false) no_taps false false in
  let a := demo_run demo_start (demo_open_session ++ [SessConn false; SessStatus StatusClosed; TypeComposer "hi"; Frame tap_send; Frame tap_gear]) in
  outboxLen a = 1 /\ outboxLen (demo_run a [Frame tap_reconnect]) = 0 /\ UserText <$> Turns (store (demo_run a [Frame tap_reconnect])) = ["hi"].
Proof. vm_compute. done. Qed.

(** The anchor is the first time the call was drawn, not the heartbeat: a command
    drawn when it starts at [t0] and reported at [t0 + e] to have run [e]
    shows, at that very moment, twice the time it has run. *)
Lemma heartbeat_counts_twice t0 e now : (0 <= e)%Z -> now = (t0 + e)%Z ->
  let '(anchor, seen) := terminalFor t0 "c" ∅ in elapsedSince e (terminalFor now "c" seen).1 now true = (2 * e)%Z.
Proof.
  intros He ->. unfold terminalFor. rewrite lookup_empty. unfold elapsedSince. rewrite lookup_insert_eq. cbn [fst negb].
  destruct (Z.ltb_spec (t0 + e - t0) 0); lia.
Qed.

Lemma clock_formats : formatElapsed 999 = "999ms" /\ formatElapsed 61500 = "01:01" /\ formatElapsed 3661000 = "1:01:01" /\ countdown 5000 3999 = 2%Z /\ countdown 0 1 = 0%Z.
Proof. vm_compute. done. Qed.
