(* ===== verification/Http.v ===== *)
(** * The HTTP surface (internal/wsserver: server.go, handler.go, spa.go)

    What [NewWithOptions] builds and routes, the health and readiness checks, the
    origin check, the WebSocket endpoint up to the connection, and the static
    files of the web client.  [http.ServeMux], [path.Clean] and [fs.FS] are
    modelled as far as the code uses them; the WebSocket library's [Upgrade], the
    JWT library and the host's MIME table are parameters. *)

From S2P Require Import Prelude GoString GoConv Event Paths Session Auth GoJson AuditLog.

#[local] Open Scope nat_scope.

(** ** Routing *)

Inductive handler :=
| HealthHandler | ReadyHandler | MetricsHandler | WsHandler | RefreshHandler | RevokeHandler
| WebauthnRegisterBegin | WebauthnRegisterFinish | WebauthnLoginBegin | WebauthnLoginFinish
| ConfigHandler | RestartHandler | SpaHandler
| WithSecurityHeaders (next : handler).
#[export] Instance handler_eq_dec : EqDecision handler.
Proof. solve_decision. Defined.

(** What the configuration and the options say about the optional parts. *)
Record wiring := mkWiring {
  w_issuer : bool; w_revoker : bool; w_webauthn : bool; w_spa : bool;
  w_runner : bool; w_mw : bool;
  w_sandbox_max : Z; w_daemons : bool; w_workspace : string; w_lsp_servers : nat;
  w_mw_max : Z; w_pool : bool; w_pool_max : Z }.

(** The fields that [NewWithOptions] sets from them; a semaphore is its capacity. *)
Record Server := mkServer {
  sv_sem : option Z; sv_daemons : bool; sv_lsp : bool; sv_intentSem : option Z; sv_workerPoolSem : option Z;
  sv_mux : list (string * handler) }.

Definition NewWithOptions (w : wiring) : Server :=
  mkServer
    (if w_runner w && (0 <? w_sandbox_max w)%Z then Some (w_sandbox_max w) else None)
    (w_daemons w)
    (negb (String.eqb (w_workspace w) "") && (0 <? w_lsp_servers w))
    (if w_mw w && (0 <? w_mw_max w)%Z then Some (w_mw_max w) else None)
    (if w_mw w && w_pool w && (0 <? w_pool_max w)%Z then Some (w_pool_max w) else None)
    ([("/healthz", HealthHandler); ("/readyz", ReadyHandler); ("/metrics", MetricsHandler); ("/ws", WsHandler)] ++
     (if w_issuer w then [("/auth/refresh", RefreshHandler)] else []) ++
     (if w_revoker w then [("/auth/revoke", RevokeHandler)] else []) ++
     (if w_webauthn w then [("/auth/webauthn/register/begin", WebauthnRegisterBegin); ("/auth/webauthn/register/finish", WebauthnRegisterFinish);
                            ("/auth/webauthn/login/begin", WebauthnLoginBegin); ("/auth/webauthn/login/finish", WebauthnLoginFinish)] else []) ++
     [("/admin/config", ConfigHandler); ("/admin/config/restart", RestartHandler)] ++
     (if w_spa w then [("/", WithSecurityHeaders SpaHandler)] else [])).

(** [cleanPath] of net/http *)
Definition cleanPath (p : string) : string :=
  if String.eqb p "" then "/"
  else
    let p := if is_rooted p then p else "/" +:+ p in
    let np := Clean p in
    if HasSuffix p "/" && negb (String.eqb np "/") then np +:+ "/" else np.

Inductive routed := Redirect (path : string) | Served (h : handler) | NotFound.

(** A pattern without a trailing slash matches itself, "/" everything. *)
Definition match_pattern (mux : list (string * handler)) (p : string) : routed :=
  match List.find (fun ph => String.eqb ph.1 p) mux with
  | Some (_, h) => Served h
  | None => match List.find (fun ph => String.eqb ph.1 "/") mux with Some (_, h) => Served h | None => NotFound end
  end.

(** [ServeMux] for a request that is not CONNECT. *)
Definition route (mux : list (string * handler)) (p : string) : routed :=
  if negb (String.eqb (cleanPath p) p) then Redirect (cleanPath p) else match_pattern mux p.

(** ** Health and readiness *)

Definition healthHandler : Z * string := (200%Z, "{" +:+ json_string "status" +:+ ":" +:+ json_string "ok" +:+ "}").

Record readyResponse := mkReady { Status : string; Checks : gmap string string }.

(** A probe and the outcome of its check. *)
Definition readyHandler (readiness : list (string * option string)) : Z * readyResponse :=
  let '(checks, allOK) :=
    foldl (fun st p => match p.2 with
                       | Some err => (<[p.1 := err]> st.1, false)
                       | None => (<[p.1 := "ok"]> st.1, st.2)
                       end) (∅ : gmap string string, true) readiness in
  if negb allOK then (503%Z, mkReady "degraded" checks) else (200%Z, mkReady "ok" checks).

(** ** The WebSocket endpoint *)

Record http_req := mkHttpReq { rq_header : string -> string; rq_query : string -> string; rq_remote : string }.

Definition buildOriginChecker (allowed : list string) (r : http_req) : bool :=
  match allowed with
  | [] => true
  | _ =>
      let set := (fun o => ToLower (TrimSpace o)) <$> allowed in
      let origin := rq_header r "Origin" in
      if String.eqb origin "" then true else existsb (String.eqb (ToLower origin)) set
  end.

(** No letter of "bearer" has a case folding outside ASCII. *)
Fixpoint first_token (parts : list string) : option string :=
  match parts with
  | [] => None
  | part :: rest =>
      let p := TrimSpace part in
      if String.eqb p "" || String.eqb (ToLower p) "bearer" then first_token rest else Some p
  end.

Definition extractToken (r : http_req) : string :=
  let h := rq_header r "Sec-WebSocket-Protocol" in
  match (if String.eqb h "" then None else first_token (SplitByte "," h)) with
  | Some p => p
  | None =>
      let a := rq_header r "Authorization" in
      if String.eqb a "" then ""
      else if HasPrefix (ToLower a) "bearer " then TrimSpace (str_drop (String.length "Bearer ") a) else ""
  end.

(** The trace context of the connection: the headers, or the query. *)
Definition trace_headers (r : http_req) : string * string :=
  if String.eqb (rq_header r "traceparent") "" && negb (String.eqb (rq_query r "traceparent") "")
  then (rq_query r "traceparent", if String.eqb (rq_query r "tracestate") "" then rq_header r "tracestate" else rq_query r "tracestate")
  else (rq_header r "traceparent", rq_header r "tracestate").

Record ws_state := mkWs { ws_sessions : MemoryStore; ws_audit : list AuditEvent; ws_connects : list string }.

Inductive ws_outcome := Unauthorized | UpgradeFailed | Connected (clientID : string) (claims : Claims) (sess : loc) (trace : string * string).

Section ws.
Context {R : Type} `{RevocationList R}.
Variable ParseWithClaims : string -> string -> option Claims.
Variable error_text : auth_error -> string.
(** gorilla's [Upgrade], given what [CheckOrigin] answered. *)
Variable Upgrade : http_req -> bool -> bool.

Definition no_token (t : string) : bool := String.eqb t "".

Definition reject (r : http_req) (msg : string) (st : ws_state) : ws_state * ws_outcome :=
  (mkWs (ws_sessions st) (ws_audit st ++ [mkAudit None "ws.auth_failed" "error" "" "" "" (rq_remote r) "" msg []]) (ws_connects st ++ ["unauthorized"]), Unauthorized).

Definition wsHandler (v : @Verifier R) (allowed : list string) (now : Z) (clientID : string) (r : http_req) (st : ws_state) : ws_state * ws_outcome :=
  let token := extractToken r in
  if String.eqb token "" then reject r "missing token" st
  else match ParseAccess no_token ParseWithClaims v token with
  | Err e => reject r (error_text e) st
  | Ok claims =>
      if negb (Upgrade r (buildOriginChecker allowed r)) then (mkWs (ws_sessions st) (ws_audit st) (ws_connects st ++ ["upgrade_failed"]), UpgradeFailed)
      else
        let audit := ws_audit st ++ [mkAudit None "ws.connect" "ok" (cl_sub claims) (cl_sid claims) "" (rq_remote r) (cl_id claims) "" []] in
        let '(sessions, l) := GetOrCreate (ws_sessions st) now (cl_sid claims) in
        let sessions := on_session sessions l (fun s => Touch s now) in
        (mkWs sessions audit (ws_connects st ++ ["ok"]), Connected clientID claims l (trace_headers r))
  end.
End ws.

(** ** The web client's files *)

(** What [root.Open], [Stat] and [ReadAll] give for a name. *)
Inductive opened := NotExist | OpenFailed | StatFailed | IsDir | ReadFailed | Contents (data : string).

Record response := mkResponse { rs_Code : Z; rs_Headers : list (string * string); rs_Body : string }.

(** [path.Ext], on a slash-separated name *)
Fixpoint ext_of (s : string) : option string :=
  match s with
  | EmptyString => None
  | String c s' => match ext_of s' with
                   | Some e => Some e
                   | None => if Ascii.eqb c "." && no_byte slash s' then Some s else None
                   end
  end.
Definition Ext (name : string) : string := default "" (ext_of name).

(** [http.Error] *)
Definition http_Error (code : Z) (msg : string) : response :=
  mkResponse code [("Content-Type", "text/plain; charset=utf-8"); ("X-Content-Type-Options", "nosniff")] (msg +:+ String (ascii_of_nat 10) "").

Section spa.
Variable TypeByExtension : string -> string.
Variable not_bundled : string.                                        (* [spaNotBundledHTML] *)

Definition readFSFile (root : string -> opened) (name : string) : option string :=
  match root name with Contents data => Some data | _ => None end.

Definition writeAsset (method name data : string) : response :=
  let ext := Ext name in
  let ct := TypeByExtension ext in
  let ct := if negb (String.eqb ct "") then ct
            else if String.eqb ext "" || HasSuffix name ".html" then "text/html; charset=utf-8" else "application/octet-stream" in
  mkResponse 200
    [("Content-Type", ct); ("Cache-Control", if HasPrefix name "_expo/static/" then "public, max-age=31536000, immutable" else "no-cache");
     ("X-Content-Type-Options", "nosniff")]
    (if String.eqb method "HEAD" then "" else data).

Definition spaNotBundled : response := mkResponse 200 [("Content-Type", "text/html; charset=utf-8")] not_bundled.

Definition clean_name (urlPath : string) : string :=
  let clean := TrimPrefix (Clean ("/" +:+ urlPath)) "/" in
  if String.eqb clean "" then "index.html" else clean.

(** The response and the names that were opened. *)
Definition serveFromFS (method urlPath : string) (root : string -> opened) : response * list string :=
  let clean := clean_name urlPath in
  match readFSFile root clean with
  | Some data => (writeAsset method clean data, [clean])
  | None =>
      if String.eqb (Ext clean) "" || HasSuffix clean ".html" then
        match readFSFile root "index.html" with
        | None => (spaNotBundled, [clean; "index.html"])
        | Some data => (writeAsset method "index.html" data, [clean; "index.html"])
        end
      else (http_Error 404 "404 page not found", [clean])
  end.

Definition fsSPAHandler (method urlPath : string) (root : string -> opened) : response * list string :=
  if negb (String.eqb method "GET") && negb (String.eqb method "HEAD") then (http_Error 405 "method not allowed", [])
  else serveFromFS method urlPath root.

(** [NOMADDEV_SPA_DIR] or the embedded files. *)
Definition spaHandler (dir : string) (disk : string -> string -> opened) (embedded : option (string -> opened)) (method urlPath : string) : response * list string :=
  if negb (String.eqb dir "") then fsSPAHandler method urlPath (disk dir)
  else match embedded with None => (spaNotBundled, []) | Some root => fsSPAHandler method urlPath root end.

Definition csp : string :=
  "default-src 'self'; script-src 'self'; style-src 'self' 'unsafe-inline'; img-src 'self' data:; connect-src 'self' ws: wss:; frame-ancestors 'none'; base-uri 'self'".

(** [Header.Set]: later values replace earlier ones. *)
Fixpoint set_header (k v : string) (h : list (string * string)) : list (string * string) :=
  match h with [] => [(k, v)] | (k', v') :: t => if String.eqb k k' then (k, v) :: t else (k', v') :: set_header k v t end.

Definition withSecurityHeaders (next : response) : response :=
  let h := [("Content-Security-Policy", csp); ("X-Content-Type-Options", "nosniff"); ("Referrer-Policy", "strict-origin-when-cross-origin"); ("X-Frame-Options", "DENY")] in
  mkResponse (rs_Code next) (foldl (fun h kv => set_header kv.1 kv.2 h) h (rs_Headers next)) (rs_Body next).

(** The web client's handler as the mux has it; [None] for the endpoints that
    have models of their own. *)
Fixpoint page (dir : string) (disk : string -> string -> opened) (embedded : option (string -> opened)) (h : handler) (method urlPath : string) :
    option (response * list string) :=
  match h with
  | SpaHandler => Some (spaHandler dir disk embedded method urlPath)
  | WithSecurityHeaders next =>
      '(resp, names) ← page dir disk embedded next method urlPath; Some (withSecurityHeaders resp, names)
  | _ => None
  end.

(** A request for a page: through the mux of the server. *)
Definition servePage (w : wiring) (dir : string) (disk : string -> string -> opened) (embedded : option (string -> opened)) (method urlPath : string) :
    option (response * list string) :=
  match route (sv_mux (NewWithOptions w)) urlPath with
  | Served h => page dir disk embedded h method urlPath
  | Redirect _ | NotFound => None
  end.
End spa.

(** ** Routing and readiness *)

(** Every endpoint that is wired gets its own requests, and the web client's
    handler none of them. *)
Lemma endpoints_are_not_shadowed w p h : (p, h) ∈ sv_mux (NewWithOptions w) -> cleanPath p = p /\ route (sv_mux (NewWithOptions w)) p = Served h.
Proof.
  destruct w as [iss rv wa spa ? ? ? ? ? ? ? ? ?]. intros Hin. apply list_elem_of_In in Hin.
  destruct iss, rv, wa, spa; cbn in Hin; repeat (destruct Hin as [[= <- <-]|Hin]; [by split; vm_compute|]); done.
Qed.

Lemma readiness_is_all_probes l : ((readyHandler l).1 = 200%Z <-> Forall (fun p => p.2 = None) l) /\ ((readyHandler l).1 = 200%Z \/ (readyHandler l).1 = 503%Z) /\
  forall name, Checks (readyHandler l).2 !! name = (fun p => default "ok" p.2) <$> last (List.filter (fun p => String.eqb p.1 name) l).
Proof.
  unfold readyHandler. set (step := fun (st : gmap string string * bool) (p : string * option string) => _).
  assert (forall l, (foldl step (∅, true) l).2 = forallb (fun p => bool_decide (p.2 = None)) l /\
    forall name, (foldl step (∅, true) l).1 !! name = (fun p => default "ok" p.2) <$> last (List.filter (fun p => String.eqb p.1 name) l)) as Hf.
  { clear l. induction l as [|p l [IH1 IH2]] using rev_ind; [done|]. rewrite foldl_app. cbn [foldl]. destruct (foldl step (∅, true) l) as [m b] eqn:E. cbn [fst snd] in *.
    unfold step. cbn [fst snd]. split.
    - rewrite forallb_app. cbn. rewrite <-IH1. destruct p.2; cbn; by rewrite ?andb_false_r, ?andb_true_r.
    - intros name. rewrite List.filter_app. cbn. destruct (String.eqb_spec p.1 name) as [->|Hne].
      + rewrite last_snoc. destruct p as [k [e|]]; cbn; by rewrite lookup_insert_eq.
      + rewrite app_nil_r, <-IH2. destruct p.2; cbn; by rewrite lookup_insert_ne. }
  destruct (Hf l) as [E1 E2]. destruct (foldl step (∅, true) l) as [m b]. cbn [fst snd] in *. subst b. split_and!.
  - rewrite Forall_forall. destruct (forallb _ l) eqn:Hb; cbn.
    + split; [|done]. intros _ p Hp. rewrite forallb_forall in Hb. eapply bool_decide_eq_true_1, Hb. by apply list_elem_of_In.
    + split; [done|]. intros Hall. exfalso. apply not_true_iff_false in Hb. apply Hb, forallb_forall. intros p Hp. apply bool_decide_eq_true_2, Hall. by apply list_elem_of_In.
  - destruct (forallb _ l); auto.
  - intros name. rewrite <-E2. by destruct (forallb _ l).
Qed.

(** ** The files that are served *)

Lemma rooted_comps p : is_rooted p = true -> Forall plain (clean_comps p).
Proof.
  intros Hr. unfold clean_comps. rewrite Hr. apply Forall_reverse.
  assert (forall l st, Forall plain st -> Forall (fun x => no_byte slash x = true) l -> Forall plain (foldl (clean_step true) st l)) as Hg.
  { intros l. induction l as [|x l IH]; intros st Hst Hl; [done|]. apply Forall_cons in Hl as [Hx Hl]. cbn [foldl]. apply IH; [|done]. unfold clean_step.
    destruct (String.eqb_spec x "") as [|N1]; [done|]. destruct (String.eqb_spec x ".") as [|N2]; [done|]. cbn [orb].
    destruct (String.eqb_spec x "..") as [->|N3]; [|by constructor]. destruct st as [|y st]; [done|]. apply Forall_cons in Hst as [Hy Hst].
    destruct (String.eqb_spec y "..") as [->|]; [by destruct Hy as (_ & _ & ? & _)|done]. }
  apply Hg; [constructor|apply Split_no_byte].
Qed.

(** A relative name with no empty, "." or ".." component: [fs.ValidPath]. *)
Definition valid_path (name : string) : Prop := exists cs, cs <> [] /\ Forall plain cs /\ name = JoinByte slash cs.

Lemma index_valid : valid_path "index.html".
Proof. exists ["index.html"]. split_and!; [done| |done]. constructor; [|constructor]. by split_and!. Qed.

Lemma clean_name_valid p : valid_path (clean_name p).
Proof.
  unfold clean_name, Clean. rewrite is_rooted_app. unfold TrimPrefix. rewrite HasPrefix_refl_app.
  set (body := JoinByte "/" (clean_comps ("/" +:+ p))). change (str_drop (String.length "/") ("/" +:+ body)) with body.
  destruct (String.eqb_spec body "") as [|Hne]; [apply index_valid|].
  exists (clean_comps ("/" +:+ p)). split_and!; [|apply rooted_comps, is_rooted_app|done]. intros E. apply Hne. unfold body. by rewrite E.
Qed.

(** The handlers set these headers only. *)
Definition plain_headers (h : list (string * string)) : Prop :=
  exists x, h = [("Content-Type", x)] \/ h = [("Content-Type", x); ("X-Content-Type-Options", "nosniff")] \/
    exists y, h = [("Content-Type", x); ("Cache-Control", y); ("X-Content-Type-Options", "nosniff")].

Lemma hardened resp : plain_headers (rs_Headers resp) -> exists l, rs_Headers (withSecurityHeaders resp) =
  [("Content-Security-Policy", csp); ("X-Content-Type-Options", "nosniff"); ("Referrer-Policy", "strict-origin-when-cross-origin"); ("X-Frame-Options", "DENY")] ++ l /\
  Forall (fun kv => kv.1 = "Content-Type" \/ kv.1 = "Cache-Control") l.
Proof.
  unfold withSecurityHeaders. cbn [rs_Headers].
  intros (x & [->|[->|[y ->]]]); eexists; (split; [reflexivity|]); repeat (constructor; [cbn; auto|]); constructor.
Qed.

Lemma serve_spec types nb method p root : let '(resp, names) := serveFromFS types nb method p root in
  Forall valid_path names /\ rs_Code resp <> 405%Z /\ plain_headers (rs_Headers resp) /\
  (forall data, root (clean_name p) = Contents data -> resp = writeAsset types method (clean_name p) data) /\
  ((forall data, root (clean_name p) <> Contents data) ->
     resp = if String.eqb (Ext (clean_name p)) "" || HasSuffix (clean_name p) ".html"
            then match root "index.html" with Contents data => writeAsset types method "index.html" data | _ => spaNotBundled nb end
            else http_Error 404 "404 page not found").
Proof.
  unfold serveFromFS, readFSFile. pose proof (clean_name_valid p) as Hv. pose proof index_valid as Hi.
  assert (forall n d, rs_Code (writeAsset types method n d) <> 405%Z /\ plain_headers (rs_Headers (writeAsset types method n d))) as Hw
    by (intros n d; split; [done|]; eexists; right; right; by eexists).
  assert (plain_headers (rs_Headers (spaNotBundled nb)) /\ plain_headers (rs_Headers (http_Error 404 "404 page not found"))) as [Hn He]
    by (split; eexists; [by left|by right; left]).
  destruct (root (clean_name p)) eqn:Er; cbn [fst snd].
  6: { destruct (Hw (clean_name p) data). split_and!; [by repeat constructor|done|done|by intros d [= ->]|intros Hno; by destruct (Hno data)]. }
  all: destruct (_ || _); [destruct (root "index.html")|]; split_and!; try done; try (by repeat constructor); apply Hw.
Qed.

Lemma handler_spec types nb method p fs : let '(resp, names) := fsSPAHandler types nb method p fs in
  plain_headers (rs_Headers resp) /\ Forall valid_path names /\
  (rs_Code resp = 405%Z <-> method <> "GET" /\ method <> "HEAD") /\ (rs_Code resp = 405%Z -> names = []) /\
  ((method = "GET" \/ method = "HEAD") -> serveFromFS types nb method p fs = (resp, names)).
Proof.
  unfold fsSPAHandler. pose proof (serve_spec types nb method p fs) as Hs. destruct (serveFromFS types nb method p fs) as [resp names].
  destruct Hs as (H1 & H2 & H3 & _). destruct (String.eqb_spec method "GET") as [E|E]; cbn [negb andb]; [split_and!; naive_solver|].
  destruct (String.eqb_spec method "HEAD") as [E'|E']; cbn [negb]; [split_and!; naive_solver|].
  split_and!; [eexists; by right; left|constructor|done|done|intros [?|?]; done].
Qed.

(** The headers of every answer of the web client's handler, with their values. *)
Definition security_headers : list (string * string) :=
  [("Content-Security-Policy", "default-src 'self'; script-src 'self'; style-src 'self' 'unsafe-inline'; img-src 'self' data:; connect-src 'self' ws: wss:; frame-ancestors 'none'; base-uri 'self'");
   ("X-Content-Type-Options", "nosniff"); ("Referrer-Policy", "strict-origin-when-cross-origin"); ("X-Frame-Options", "DENY")].

(** Each of them is set, and to that value only. *)
Definition has_security_headers (resp : response) : Prop :=
  forall k v, (k, v) ∈ security_headers -> forall v', (k, v') ∈ rs_Headers resp <-> v' = v.

Lemma hardened_answers resp : plain_headers (rs_Headers resp) -> has_security_headers (withSecurityHeaders resp).
Proof.
  intros Hp. unfold has_security_headers. destruct (hardened resp Hp) as (l & -> & Hl). rewrite Forall_forall in Hl. intros k v Hin v'. rewrite elem_of_app.
  assert ((k, v') ∉ l) as Hno.
  { intros Hk. apply Hl in Hk. apply list_elem_of_In in Hin. cbn in Hin, Hk.
    destruct Hin as [[= <- <-]|[[= <- <-]|[[= <- <-]|[[= <- <-]|[]]]]], Hk; done. }
  apply list_elem_of_In in Hin. rewrite list_elem_of_In. cbn in Hin |- *.
  destruct Hin as [[= <- <-]|[[= <- <-]|[[= <- <-]|[[= <- <-]|[]]]]]; (split; [|intros ->; auto 10]).
  all: intros [Hv|Hv]; [|done]; repeat (destruct Hv as [Hv|Hv]; [by inversion Hv|]); done.
Qed.

(** A file of the bundle as it is sent: 200, its bytes (none for HEAD), its type
    when the host knows one, and a cache that only keeps the hashed files. *)
Definition sent_as (types : string -> string) (method name data : string) (resp : response) : Prop :=
  rs_Code resp = 200%Z /\ (method = "GET" -> rs_Body resp = data) /\ (method = "HEAD" -> rs_Body resp = "") /\
  (types (Ext name) <> "" -> ("Content-Type", types (Ext name)) ∈ rs_Headers resp) /\
  (HasPrefix name "_expo/static/" = false -> ("Cache-Control", "no-cache") ∈ rs_Headers resp).

Lemma asset_sent types method name data : sent_as types method name data (withSecurityHeaders (writeAsset types method name data)).
Proof.
  unfold sent_as, withSecurityHeaders. cbn. split_and!; [done|by intros ->|by intros ->| |].
  - intros Ht. rewrite (proj2 (String.eqb_neq _ _) Ht). cbn. apply list_elem_of_In. cbn. auto 10.
  - intros ->. apply list_elem_of_In. cbn. auto 10.
Qed.

(** What the handler does with the bundle [root], when there is one. *)
Definition serves_bundle (types : string -> string) (nb : string) (root : option (string -> opened)) (method p : string) (resp : response) (names : list string) : Prop :=
  let clean := clean_name p in
  Forall valid_path names /\
  (rs_Code resp = 405%Z <-> root <> None /\ method <> "GET" /\ method <> "HEAD") /\ (rs_Code resp = 405%Z -> names = []) /\
  (forall fs data, root = Some fs -> (method = "GET" \/ method = "HEAD") -> fs clean = Contents data -> sent_as types method clean data resp) /\
  (forall fs, root = Some fs -> (method = "GET" \/ method = "HEAD") -> (forall data, fs clean <> Contents data) ->
     if String.eqb (Ext clean) "" || HasSuffix clean ".html"
     then match fs "index.html" with Contents data => sent_as types method "index.html" data resp | _ => rs_Code resp = 200%Z /\ rs_Body resp = nb end
     else rs_Code resp = 404%Z).

Lemma fs_handler_serves types nb method p fs : let '(resp, names) := fsSPAHandler types nb method p fs in
  serves_bundle types nb (Some fs) method p (withSecurityHeaders resp) names /\ plain_headers (rs_Headers resp).
Proof.
  pose proof (handler_spec types nb method p fs) as Hh. pose proof (serve_spec types nb method p fs) as Hs.
  destruct (fsSPAHandler types nb method p fs) as [resp names]. destruct Hh as (F1 & F2 & F3 & F4 & Hm). split; [|done]. unfold serves_bundle.
  cbn [rs_Code withSecurityHeaders]. split_and!; [done|naive_solver|done| |].
  - intros fs' data [= <-] Hg Hd. rewrite (Hm Hg) in Hs. destruct Hs as (_ & _ & _ & Hs & _). rewrite (Hs _ Hd). apply asset_sent.
  - intros fs' [= <-] Hg Hd. rewrite (Hm Hg) in Hs. destruct Hs as (_ & _ & _ & _ & Hs). rewrite (Hs Hd).
    destruct (_ || _); [|done]. destruct (fs "index.html"); try (by split). apply asset_sent.
Qed.

Lemma spa_handler_serves types nb dir disk embedded method p : let '(resp, names) := spaHandler types nb dir disk embedded method p in
  serves_bundle types nb (if String.eqb dir "" then embedded else Some (disk dir)) method p (withSecurityHeaders resp) names /\ plain_headers (rs_Headers resp).
Proof.
  unfold spaHandler. destruct (String.eqb dir ""); cbn [negb]; [destruct embedded as [fs|]|]; [apply fs_handler_serves| |apply fs_handler_serves].
  split; [|eexists; by left]. unfold serves_bundle. split_and!; try done; naive_solver.
Qed.

(** A path that no endpoint has goes to the web client when it is wired. *)
Lemma spa_gets_the_rest w p : w_spa w = true -> cleanPath p = p -> (forall h, (p, h) ∈ sv_mux (NewWithOptions w) -> p = "/") ->
  route (sv_mux (NewWithOptions w)) p = Served (WithSecurityHeaders SpaHandler).
Proof.
  intros Hw Hp Hno. unfold route, match_pattern. rewrite Hp, String.eqb_refl. cbn [negb].
  assert (List.find (fun ph => String.eqb ph.1 "/") (sv_mux (NewWithOptions w)) = Some ("/", WithSecurityHeaders SpaHandler)) as Hroot
    by (destruct w as [iss rv wa spa ? ? ? ? ? ? ? ? ?]; cbn in Hw; subst; by destruct iss, rv, wa).
  destruct (List.find (fun ph => String.eqb ph.1 p) _) as [[q h]|] eqn:Hf; [|by rewrite Hroot].
  pose proof Hf as Hf'. apply List.find_some in Hf' as [Hin Hq]. cbn in Hq. apply String.eqb_eq in Hq as ->. apply list_elem_of_In, Hno in Hin as ->. congruence.
Qed.

(** C36: The web client's pages come from its bundle only: with the web client enabled, the server answers every request for a clean path that no endpoint has; every name it opens is a relative path without empty, dot or dot-dot components; a file that is there is sent with 200, its own type and its bytes, for HEAD without a body; a missing one gives the start page (or the note that no client is bundled) when its name has no extension or ends in .html, and 404 otherwise; methods other than GET and HEAD are refused and open nothing; and every answer, the refusals included, carries the Content-Security-Policy, X-Content-Type-Options, Referrer-Policy and X-Frame-Options values of the source. *)
Theorem web_files_stay_in_the_bundle w types nb dir disk embedded method p :
  w_spa w = true -> cleanPath p = p -> (forall h, (p, h) ∈ sv_mux (NewWithOptions w) -> p = "/") ->
  exists resp names, servePage types nb w dir disk embedded method p = Some (resp, names) /\
    serves_bundle types nb (if String.eqb dir "" then embedded else Some (disk dir)) method p resp names /\
    has_security_headers resp.
Proof.
  intros Hw Hp Hno. unfold servePage. rewrite spa_gets_the_rest by done. cbn [page].
  pose proof (spa_handler_serves types nb dir disk embedded method p) as Hs. destruct (spaHandler types nb dir disk embedded method p) as [resp names].
  destruct Hs as [Hs Hh]. do 2 eexists. split; [reflexivity|]. split; [exact Hs|]. by apply hardened_answers.
Qed.

Definition demo_wiring : wiring := mkWiring true true true true true true 4 true "/w" 1 4 true 4.
Definition demo_bundle (name : string) : opened := if String.eqb name "index.html" then Contents "<html>" else if String.eqb name "a/b.js" then Contents "js" else NotExist.

Lemma web_files_stay_in_the_bundle_witness :
  exists resp names, servePage (fun _ => "text/javascript") "none" demo_wiring "" (fun _ _ => NotExist) (Some demo_bundle) "HEAD" "/a/b.js" = Some (resp, names) /\
    rs_Code resp = 200%Z /\ rs_Body resp = "" /\ ("Referrer-Policy", "strict-origin-when-cross-origin") ∈ rs_Headers resp.
Proof.
  destruct (web_files_stay_in_the_bundle demo_wiring (fun _ => "text/javascript") "none" "" (fun _ _ => NotExist) (Some demo_bundle) "HEAD" "/a/b.js")
    as (resp & names & Hs & (_ & _ & _ & Hf & _) & Hh); [reflexivity|vm_compute; reflexivity| |].
  - intros h Hin. apply list_elem_of_In in Hin. cbn in Hin. repeat (destruct Hin as [[=]|Hin]); done.
  - destruct (Hf demo_bundle "js") as (Hc & _ & Hb & _); [reflexivity|by right|vm_compute; reflexivity|].
    exists resp, names. split; [exact Hs|]. split; [exact Hc|]. split; [by apply Hb|].
    apply (Hh "Referrer-Policy" "strict-origin-when-cross-origin"); [apply list_elem_of_In; cbn; auto|reflexivity].
Defined.

(** ** The WebSocket endpoint *)

(** The WebSocket library refuses a request whose origin the server's check
    refused (gorilla: [Upgrade] answers 403 then). *)
Class UpgraderContract (Upgrade : http_req -> bool -> bool) : Prop := upgrade_checks_origin : forall r, Upgrade r false = false.

Definition origin_allowed (allowed : list string) (r : http_req) : Prop :=
  allowed = [] \/ rq_header r "Origin" = "" \/ exists o, o ∈ allowed /\ ToLower (TrimSpace o) = ToLower (rq_header r "Origin").

Lemma checker_spec allowed r : buildOriginChecker allowed r = true <-> origin_allowed allowed r.
Proof.
  unfold buildOriginChecker, origin_allowed. destruct allowed as [|a l]; [tauto|]. set (al := a :: l).
  destruct (String.eqb_spec (rq_header r "Origin") "") as [E|E]; [tauto|]. rewrite existsb_exists. split.
  - intros (x & Hin & Hx%String.eqb_eq). right; right. apply list_elem_of_In, list_elem_of_fmap in Hin as (o & -> & Ho). by exists o.
  - intros [?|[?|(o & Ho & Heq)]]; [done|done|]. exists (ToLower (TrimSpace o)). split; [|by rewrite Heq, String.eqb_refl].
    apply list_elem_of_In, list_elem_of_fmap. by exists o.
Qed.

Lemma GetOrCreate_spec m now sid : store_wf m -> let '(m', l) := GetOrCreate m now sid in
  sessions m' !! sid = Some l /\ (forall sid', sid' <> sid -> sessions m' !! sid' = sessions m !! sid') /\
  (forall l', l' <> l -> heap m' !! l' = heap m !! l') /\
  match sessions m !! sid with
  | Some l0 => l = l0 /\ heap m' !! l = (fun s => Touch s now) <$> heap m !! l
  | None => heap m !! l = None /\ heap m' !! l = Some (mkSession sid now now (NewRingBuffer (bufferSize m) (storeMaxBytes m)))
  end.
Proof.
  intros Hm. unfold GetOrCreate. destruct (sessions m !! sid) as [l|] eqn:El; cbn.
  - split_and!; [done|done| |done|apply lookup_alter_eq]. intros l' Hne. by rewrite lookup_alter_ne.
  - split_and!; [by rewrite lookup_insert_eq|intros sid' Hne; by rewrite lookup_insert_ne|intros l' Hne; by rewrite lookup_insert_ne| |by rewrite lookup_insert_eq].
    destruct (heap m !! next_loc m) eqn:E; [|done]. assert (next_loc m < next_loc m) by (apply (sw_alloc _ Hm); by rewrite E). lia.
Qed.

(** The session with an id, contents included. *)
Definition session_at (m : MemoryStore) (sid : string) : option Session := l ← sessions m !! sid; heap m !! l.

(** C11: A WebSocket connection is authorised, given that the WebSocket library upgrades only what the origin check lets through and that the session store is in a state its operations can reach: the endpoint upgrades a request only when the token it carries, in the subprotocol or the Authorization header, verifies under one of the server's secrets as an unrevoked access token with a subject and a session, and, when origins are restricted, the request has no Origin header or one on the list; the connection then gets that session, with its buffered events as they were (an empty one when the id is new), and no other session changes, in contents or in identity; a request that is not upgraded leaves the sessions alone, and one whose token is refused leaves exactly one audit event. *)
Theorem websocket_upgrade_is_authorised {R} `{RevocationList R} pwc error_text Upgrade `{!UpgraderContract Upgrade} (v : @Verifier R) allowed now id r st st' out :
  store_wf (ws_sessions st) -> wsHandler pwc error_text Upgrade v allowed now id r st = (st', out) ->
  match out with
  | Connected id' c l _ =>
      id' = id /\ (exists s, s ∈ secrets v /\ pwc s (extractToken r) = Some c) /\ extractToken r <> "" /\ cl_sid c <> "" /\ cl_sub c <> "" /\
      (cl_kind c = "" \/ cl_kind c = KindAccess) /\ (cl_id c <> "" -> IsRevoked (revoker v) (cl_id c) = Ok false) /\ origin_allowed allowed r /\
      store_wf (ws_sessions st') /\ sessions (ws_sessions st') !! cl_sid c = Some l /\ 
      heap (ws_sessions st') !! l = Some (match session_at (ws_sessions st) (cl_sid c) with
        | Some s => Touch s now
        | None => mkSession (cl_sid c) now now (NewRingBuffer (bufferSize (ws_sessions st)) (storeMaxBytes (ws_sessions st))) end) /\
      (forall sid, sid <> cl_sid c -> sessions (ws_sessions st') !! sid = sessions (ws_sessions st) !! sid) /\
      (forall l', l' <> l -> heap (ws_sessions st') !! l' = heap (ws_sessions st) !! l') /\
      exists e, ws_audit st' = ws_audit st ++ [e] /\ e_Kind e = "ws.connect" /\ e_Sid e = cl_sid c /\ e_Sub e = cl_sub c
  | Unauthorized => ws_sessions st' = ws_sessions st /\ exists e, ws_audit st' = ws_audit st ++ [e] /\ e_Kind e = "ws.auth_failed"
  | UpgradeFailed => ws_sessions st' = ws_sessions st
  end.
Proof.
  intros Hwf. unfold wsHandler. destruct (String.eqb_spec (extractToken r) "") as [Ht|Ht]; [intros [= <- <-]; split; [done|by eexists]|].
  destruct (ParseAccess no_token pwc v (extractToken r)) as [c|e] eqn:Hp; [|intros [= <- <-]; split; [done|by eexists]].
  destruct (Upgrade r (buildOriginChecker allowed r)) eqn:Hu; cbn [negb]; [|by intros [= <- <-]].
  pose proof (GetOrCreate_spec _ now (cl_sid c) Hwf) as Hg. pose proof (GetOrCreate_wf _ now (cl_sid c) Hwf) as Hwf'.
  destruct (GetOrCreate (ws_sessions st) now (cl_sid c)) as [m l]. destruct Hg as (G1 & G2 & G3 & G4). cbn [fst] in Hwf'. intros [= <- <-].
  unfold ParseAccess in Hp. destruct (Parse no_token pwc v (extractToken r)) as [c'|] eqn:Hpc; [|done].
  destruct (negb (String.eqb (cl_kind c') "") && _) eqn:Hk; [done|]. injection Hp as ->. apply parseCtx_Ok in Hpc as (P1 & P2 & P3 & P4).
  split_and!; try done.
  - apply andb_false_iff in Hk as [Hk%negb_false_iff%String.eqb_eq|Hk%negb_false_iff%String.eqb_eq]; auto.
  - apply checker_spec. destruct (buildOriginChecker allowed r); [done|]. by rewrite upgrade_checks_origin in Hu.
  - cbn. by apply on_session_wf.
  - cbn. rewrite lookup_alter_eq. unfold session_at. destruct (sessions (ws_sessions st) !! cl_sid c) as [l0|] eqn:E; cbn.
    + destruct G4 as [-> ->]. destruct (sw_points _ Hwf _ _ E) as (s & -> & _). done.
    + destruct G4 as [_ ->]. done.
  - intros l' Hne. cbn. by rewrite lookup_alter_ne, G3.
  - by eexists.
Qed.

Definition demo_req : http_req :=
  mkHttpReq (fun k => if String.eqb k "Sec-WebSocket-Protocol" then "Bearer, tok" else if String.eqb k "Origin" then "HTTPS://Nomad.dev" else "") (fun _ => "") "h:1".
Definition demo_pwc (_ t : string) : option Claims := if String.eqb t "tok" then Some demo_claims else None.
Definition demo_verifier : @Verifier MemoryRevocationList := mkVerifier ["k"] (mkMemRev ∅).
Definition demo_upgrade (_ : http_req) (ok : bool) : bool := ok.
#[export] Instance demo_upgrader : UpgraderContract demo_upgrade.
Proof. done. Qed.

Lemma websocket_upgrade_is_authorised_witness :
  let st := mkWs (NewMemoryStore 10 1000) [] [] in
  let res := wsHandler demo_pwc (fun _ => "no") demo_upgrade demo_verifier ["https://nomad.dev "] 5 "c1" demo_req st in
  res.2 = Connected "c1" demo_claims 0 ("", "") /\ origin_allowed ["https://nomad.dev "] demo_req /\ sessions (ws_sessions res.1) !! "s1" = Some 0.
Proof.
  intros st res. assert (res.2 = Connected "c1" demo_claims 0 ("", "")) as E by (vm_compute; reflexivity). split; [exact E|].
  pose proof (websocket_upgrade_is_authorised demo_pwc (fun _ => "no") demo_upgrade demo_verifier ["https://nomad.dev "] 5 "c1" demo_req st res.1 res.2
    (NewMemoryStore_wf 10 1000) (surjective_pairing res)) as H. rewrite E in H. destruct H as (_ & _ & _ & _ & _ & _ & _ & Ho & _ & Hs & _). by split.
Defined.
