(* ===== verification/UserCommand.v ===== *)
(** * Session controls (internal/wsserver/middleware.go, pumps.go)

    [handleUserCommand] with its two actions, the acknowledgement, the model a
    session uses and what the hello of a connection says about it.  The history
    store is any lawful one (History.v); its failure is an argument. *)

From S2P Require Import Prelude GoString Event Wire Session Hub Connection History Intent Models.

(** The parts of [middleware.Service] the controls use. *)
Record service (HS : Type) := mkService { mw_Provider : string; mw_Model : string; mw_History : option HS; mw_Pins : option ReferenceBuffer }.
Arguments mkService {HS}. Arguments mw_Provider {HS}. Arguments mw_Model {HS}. Arguments mw_History {HS}. Arguments mw_Pins {HS}.

Record controls (HS : Type) := mkControls { modelOverrides : gmap string string; mw : option (service HS) }.
Arguments mkControls {HS}. Arguments modelOverrides {HS}. Arguments mw {HS}.

Definition ProtocolVersion : Z := 1.

Section commands.
Context {HS : Type} `{HistoryStore HS}.

Definition server_model (s : controls HS) : string := from_option mw_Model "" (mw s).

Definition handleSetModel (sid : string) (p : UserCommandPayload) (s : controls HS) : controls HS * AckPayload :=
  let refuse code msg := (s, mkAck (uc_Action p) code msg "") in
  match mw s with
  | None => refuse "not_implemented" "model switching unsupported by this runtime"
  | Some m =>
      if String.eqb (mw_Provider m) "" || String.eqb (mw_Provider m) RuntimeMock then refuse "not_implemented" "model switching unsupported by this runtime"
      else if String.eqb (uc_Model p) "" then refuse "bad_envelope" "missing model"
      else if negb (IsKnownModel (mw_Provider m) (uc_Model p)) then
        refuse "bad_envelope" ("unknown model " +:+ uc_Model p +:+ " for provider " +:+ mw_Provider m)
      else (mkControls (<[sid := uc_Model p]> (modelOverrides s)) (mw s), mkAck (uc_Action p) "" "model selection updated" (uc_Model p))
  end.

(** [payload]: the decoded payload or the decoder's error; [reset_err]: what
    [History.Reset] returns. *)
Definition handle_command (reset_err : option string) (sid : string) (payload : result string UserCommandPayload) (s : controls HS) : controls HS * AckPayload :=
  match payload with
  | Err e => (s, mkAck "" "bad_envelope" e "")
  | Ok p =>
      if String.eqb (uc_Action p) UserCommandResetHistory then
        match mw s with
        | Some m =>
            match mw_History m with
            | None => (s, mkAck (uc_Action p) "not_implemented" "history backend not configured" "")
            | Some h =>
                match reset_err with
                | Some e => (s, mkAck (uc_Action p) "internal" e "")
                | None =>
                    (mkControls (delete sid (modelOverrides s))
                       (Some (mkService (mw_Provider m) (mw_Model m) (Some (Reset h sid)) ((fun b => ResetPins b sid) <$> mw_Pins m))),
                     mkAck (uc_Action p) "" "history cleared" "")
                end
            end
        | None => (s, mkAck (uc_Action p) "not_implemented" "history backend not configured" "")
        end
      else if String.eqb (uc_Action p) UserCommandSetModel then handleSetModel sid p s
      else (s, mkAck (uc_Action p) "unknown_action" ("unsupported action: " +:+ uc_Action p) "")
  end.

(** *** On a connection *)

Section conn.
Variable Bytes : Envelope -> option Z.
Variable marshal_ack : AckPayload -> any.
Variable marshal_hello : HelloPayload -> any.
Variable decode_text : Envelope -> string.                             (* the decoder's error *)
Context `{Unmarshal UserCommandPayload}.

Definition ackUserCommand (now : Z) (prefer_done : bool) (id : string) (c : conn) (reqID : string) (a : AckPayload) : conn :=
  bufferAndSend Bytes now prefer_done c (NewReply id now EventAck reqID (Some (marshal_ack a))).

Definition handleUserCommand (reset_err : option string) (now : Z) (prefer_done : bool) (id : string) (env : Envelope) (s : controls HS) (c : conn) : controls HS * conn :=
  let payload := match json_Unmarshal env with Some p => Ok p | None => Err (decode_text env) end in
  let '(s', a) := handle_command reset_err (Session.SID (sess c)) payload s in
  (s', ackUserCommand now prefer_done id c (ID env) a).

(** What [runConnection] says first. *)
Definition hello_payload (s : controls HS) (sid now_text : string) : HelloPayload :=
  match mw s with
  | Some m =>
      if String.eqb (mw_Provider m) "" then mkHello sid now_text ProtocolVersion "" "" []
      else
        let model := effectiveModel (modelOverrides s) (server_model s) sid in
        mkHello sid now_text ProtocolVersion (mw_Provider m) (if String.eqb model "" then mw_Model m else model) (ModelsForProvider (mw_Provider m))
  | None => mkHello sid now_text ProtocolVersion "" "" []
  end.

Definition send_hello (s : controls HS) (now : Z) (prefer_done : bool) (id now_text : string) (c : conn) : conn :=
  bufferAndSend Bytes now prefer_done c (NewEnvelope id now EventHello (Some (marshal_hello (hello_payload s (Session.SID (sess c)) now_text)))).
End conn.

(** ** Histories of commands *)

Record command := mkCommand { cm_sid : string; cm_payload : result string UserCommandPayload; cm_reset_err : option string }.

Definition run_command (s : controls HS) (c : command) : controls HS := (handle_command (cm_reset_err c) (cm_sid c) (cm_payload c) s).1.
Definition run_commands (s : controls HS) (l : list command) : controls HS := foldl run_command s l.

(** The specification: the last accepted choice since the last reset that was
    carried out. *)
Definition choose (provider : string) (has_history : bool) (sid : string) (cur : option string) (c : command) : option string :=
  if negb (String.eqb (cm_sid c) sid) then cur
  else match cm_payload c with
  | Err _ => cur
  | Ok p =>
      if String.eqb (uc_Action p) UserCommandResetHistory then (if has_history && bool_decide (cm_reset_err c = None) then None else cur)
      else if String.eqb (uc_Action p) UserCommandSetModel && negb (String.eqb provider RuntimeMock) && IsKnownModel provider (uc_Model p) then Some (uc_Model p)
      else cur
  end.
Definition chosen provider has_history (sid : string) (l : list command) : option string := foldl (choose provider has_history sid) None l.

Definition wired (s : controls HS) (provider : string) (has_history : bool) : Prop :=
  exists m, mw s = Some m /\ mw_Provider m = provider /\ bool_decide (is_Some (mw_History m)) = has_history.

Lemma IsKnown_nonempty provider model : IsKnownModel provider model = true -> provider <> "" /\ model <> "".
Proof. unfold IsKnownModel. intros Hk. destruct (String.eqb_spec provider ""), (String.eqb_spec model ""); done. Qed.

Lemma command_step s c provider hh sid : wired s provider hh ->
  wired (run_command s c) provider hh /\ server_model (run_command s c) = server_model s /\
  modelOverrides (run_command s c) !! sid = choose provider hh sid (modelOverrides s !! sid) c.
Proof.
  intros Hw. pose proof Hw as (m & Em & Ep & Eh). unfold run_command, handle_command, choose, server_model.
  assert (forall x : controls HS * AckPayload, x.1 = s -> forall b : bool, wired x.1 provider hh /\ from_option mw_Model "" (mw x.1) = from_option mw_Model "" (mw s) /\
    modelOverrides x.1 !! sid = if b then modelOverrides s !! sid else modelOverrides s !! sid) as Hkept by (intros x -> []; done).
  destruct (cm_payload c) as [p|e]; [|by apply Hkept]. destruct (String.eqb (uc_Action p) UserCommandResetHistory).
  - rewrite Em. destruct (mw_History m) as [h|] eqn:Hh; [|rewrite bool_decide_eq_false_2 in Eh by (by intros []); subst hh; rewrite <-Em; by apply Hkept].
    rewrite bool_decide_eq_true_2 in Eh by done. subst hh. cbn [andb].
    destruct (cm_reset_err c) as [e|]; [rewrite bool_decide_eq_false_2 by done; rewrite <-Em; by apply Hkept|]. rewrite bool_decide_eq_true_2 by done. cbn [fst].
    split; [eexists; split; [reflexivity|]; by split|]. split; [done|]. cbn [modelOverrides].
    destruct (String.eqb_spec (cm_sid c) sid) as [->|Hne]; cbn [negb]; [by rewrite lookup_delete_eq|by rewrite lookup_delete_ne].
  - destruct (String.eqb (uc_Action p) UserCommandSetModel); cbn [andb]; [|by apply Hkept]. unfold handleSetModel. rewrite Em, Ep, <-Em.
    destruct (String.eqb_spec provider RuntimeMock) as [Hm|Hm]; cbn [negb andb]; [rewrite orb_true_r; by apply Hkept|]. rewrite orb_false_r.
    destruct (IsKnownModel provider (uc_Model p)) eqn:Hk; cbn [negb]; [|apply Hkept; by repeat case_match].
    destruct (IsKnown_nonempty _ _ Hk) as [N1 N2]. rewrite (proj2 (String.eqb_neq provider "") N1), (proj2 (String.eqb_neq (uc_Model p) "") N2). cbn [fst modelOverrides mw].
    split; [by exists m|]. split; [done|]. destruct (String.eqb_spec (cm_sid c) sid) as [->|Hne]; cbn [negb]; [by rewrite lookup_insert_eq|by rewrite lookup_insert_ne].
Qed.

Lemma commands_chosen s l provider hh sid : wired s provider hh -> modelOverrides s = ∅ ->
  wired (run_commands s l) provider hh /\ server_model (run_commands s l) = server_model s /\ modelOverrides (run_commands s l) !! sid = chosen provider hh sid l.
Proof.
  intros Hw He. unfold run_commands, chosen. induction l as [|c l (IH1 & IH2 & IH3)] using rev_ind; [cbn [foldl]; by rewrite He, lookup_empty|].
  rewrite !foldl_app. cbn [foldl]. destruct (command_step (foldl run_command s l) c provider hh sid IH1) as (S1 & S2 & S3). rewrite <-IH3. split_and!; [done|congruence|done].
Qed.

Lemma chosen_known provider hh sid l m : chosen provider hh sid l = Some m -> IsKnownModel provider m = true.
Proof.
  unfold chosen. induction l as [|c l IH] using rev_ind; [done|]. rewrite foldl_app. cbn [foldl]. unfold choose at 1.
  destruct (negb _); [done|]. destruct (cm_payload c) as [p|]; [|done]. destruct (String.eqb _ _); [by destruct (_ && _)|].
  destruct (String.eqb (uc_Action p) UserCommandSetModel && negb (String.eqb provider RuntimeMock)); cbn [andb]; [|done].
  destruct (IsKnownModel provider (uc_Model p)) eqn:Hk; [by intros [= <-]|done].
Qed.

(** What the commands leave of a session's conversation and pins. *)
Definition resets (sid : string) (c : command) : bool :=
  String.eqb (cm_sid c) sid && bool_decide (cm_reset_err c = None) &&
  match cm_payload c with Ok p => String.eqb (uc_Action p) UserCommandResetHistory | Err _ => false end.

Definition memory (s : controls HS) (h : HS) (b : ReferenceBuffer) : Prop := exists m, mw s = Some m /\ mw_History m = Some h /\ mw_Pins m = Some b.

Lemma command_memory inv `{!HistoryLaws HS inv} s c h b sid : memory s h b -> inv h ->
  exists h' b', memory (run_command s c) h' b' /\ inv h' /\ (thread h' sid, pinned b' sid) = if resets sid c then ([], ∅) else (thread h sid, pinned b sid).
Proof.
  intros (m & Em & Eh & Eb) Hi. unfold run_command, handle_command, resets. destruct (cm_payload c) as [p|e].
  2: { exists h, b. rewrite andb_false_r. split; [by exists m|done]. }
  destruct (String.eqb (uc_Action p) UserCommandResetHistory).
  - rewrite Em, Eh. rewrite andb_true_r. destruct (cm_reset_err c) as [e|]; [rewrite bool_decide_eq_false_2, andb_false_r by done; exists h, b; split; [by exists m|done]|].
    rewrite bool_decide_eq_true_2, andb_true_r by done. exists (Reset h (cm_sid c)), (ResetPins b (cm_sid c)). split; [eexists; split; [reflexivity|]; cbn; by rewrite Eb|].
    split; [by apply reset_inv|]. rewrite reset_thread by done. unfold pinned, ResetPins. cbn [files]. rewrite (String.eqb_sym sid (cm_sid c)).
    destruct (String.eqb_spec (cm_sid c) sid) as [->|Hne]; [by rewrite lookup_delete_eq|by rewrite lookup_delete_ne].
  - rewrite andb_false_r. exists h, b. split; [|done]. exists m. split; [|done].
    destruct (String.eqb (uc_Action p) UserCommandSetModel); [|done]. unfold handleSetModel. rewrite Em. by repeat case_match.
Qed.

Lemma resets_of_session inv `{!HistoryLaws HS inv} s l sid h0 b0 : memory s h0 b0 -> inv h0 ->
  exists m h b, mw (run_commands s l) = Some m /\ mw_History m = Some h /\ mw_Pins m = Some b /\ inv h /\
    (thread h sid, pinned b sid) = if existsb (resets sid) l then ([], ∅) else (thread h0 sid, pinned b0 sid).
Proof.
  intros Hm Hi. assert (exists h b, memory (run_commands s l) h b /\ inv h /\ (thread h sid, pinned b sid) = if existsb (resets sid) l then ([], ∅) else (thread h0 sid, pinned b0 sid))
    as (h & b & (m & ? & ? & ?) & ? & ?); [|by exists m, h, b].
  unfold run_commands. induction l as [|c l IH] using rev_ind; [by exists h0, b0|]. destruct IH as (h & b & IH1 & IH2 & IH3).
  rewrite foldl_app, existsb_app. cbn [foldl existsb]. rewrite orb_false_r.
  destruct (command_memory inv _ c h b sid IH1 IH2) as (h' & b' & S1 & S2 & S3). exists h', b'. split_and!; [done|done|]. rewrite S3, IH3.
  by destruct (existsb (resets sid) l), (resets sid c).
Qed.

(** The acknowledgement of a command, for every outcome. *)
Lemma one_ack Bytes marshal_ack decode_text `{Unmarshal UserCommandPayload} reset_err now pd id env (s : controls HS) c n :
  (forall e, Bytes e = Some (n e)) ->
  exists a, let e := NewReply id now EventAck (ID env) (Some (marshal_ack a)) in
    (handleUserCommand Bytes marshal_ack decode_text reset_err now pd id env s c).2 = mkConn (Session.Append (sess c) now e (n e)) (send_select pd (client c) e) /\
    match json_Unmarshal env with Some p => ak_Action a = uc_Action p | None => ak_Action a = "" end.
Proof.
  intros Hb. unfold handleUserCommand. set (payload := match json_Unmarshal env with Some p => Ok p | None => _ end).
  assert (match json_Unmarshal env with Some p => ak_Action (handle_command reset_err (Session.SID (sess c)) payload s).2 = uc_Action p
          | None => ak_Action (handle_command reset_err (Session.SID (sess c)) payload s).2 = "" end) as Ha.
  { unfold payload, handle_command, handleSetModel. destruct (json_Unmarshal env) as [p|]; [|done]. by repeat case_match. }
  destruct (handle_command reset_err _ payload s) as [s' a]. exists a. split; [|exact Ha]. cbn [snd]. unfold ackUserCommand, bufferAndSend. by rewrite Hb.
Qed.

(** A session's model is the operator's last accepted choice: after any commands of any sessions, with any failures of the history store, the model a session uses is the one it last set successfully since its last carried-out reset, or the server's; it is always the server's or one the provider is known to have; no other session's commands change it, a reset empties that session's conversation and pins and no other's, and the hello of the session's next connection names exactly this model. *)
Theorem session_model_is_last_choice inv `{!HistoryLaws HS inv} (s : controls HS) (l : list command) provider sid now_text h0 b0 :
  wired s provider true -> modelOverrides s = ∅ -> provider <> "" -> (exists m, mw s = Some m /\ mw_History m = Some h0 /\ mw_Pins m = Some b0) -> inv h0 ->
  let s' := run_commands s l in
  let model := effectiveModel (modelOverrides s') (server_model s') sid in
  model = default (server_model s) (chosen provider true sid l) /\
  (model = server_model s \/ IsKnownModel provider model = true) /\
  (server_model s <> "" -> hp_Model (hello_payload s' sid now_text) = model) /\
  exists m h b, mw s' = Some m /\ mw_History m = Some h /\ mw_Pins m = Some b /\ inv h /\
    (thread h sid, pinned b sid) = if existsb (resets sid) l then ([], ∅) else (thread h0 sid, pinned b0 sid).
Proof.
  intros Hw He Hp Hm Hi. cbn zeta. destruct (commands_chosen s l provider true sid Hw He) as (W & M & C).
  assert (effectiveModel (modelOverrides (run_commands s l)) (server_model (run_commands s l)) sid = default (server_model s) (chosen provider true sid l)) as E.
  { unfold effectiveModel. rewrite C, M. destruct (chosen provider true sid l) as [m|] eqn:Ec; [|done]. apply chosen_known, IsKnown_nonempty in Ec as [_ Hn].
    by rewrite (proj2 (String.eqb_neq m "") Hn). }
  rewrite E. split; [done|]. split.
  { destruct (chosen provider true sid l) as [m|] eqn:Ec; [right; by apply chosen_known in Ec|by left]. }
  split; [|by apply resets_of_session].
  intros Hne. destruct W as (m & Em & Epr & _). unfold hello_payload. rewrite Em, Epr, (proj2 (String.eqb_neq provider "") Hp). cbn [hp_Model].
  rewrite E. destruct (String.eqb_spec (default (server_model s) (chosen provider true sid l)) "") as [E0|]; [|done]. exfalso.
  destruct (chosen provider true sid l) as [x|] eqn:Ec; [apply chosen_known, IsKnown_nonempty in Ec as [_ Hn]; done|done].
Qed.
End commands.

(** ** A concrete server *)

Definition demo_turn : Turn := mkTurn "a" 0 RoleUser "hi" None.
Definition demo_history : History.MemoryStore := mkMem {["a" := [demo_turn]; "b" := [mkTurn "b" 0 RoleUser "yo" None]]}.
Definition demo_controls : controls History.MemoryStore := mkControls ∅ (Some (mkService "openai" "gpt-4o" (Some demo_history) (Some NewReferenceBuffer))).
Definition demo_commands : list command :=
  [mkCommand "a" (Ok (mkUserCommand UserCommandSetModel "o3-mini")) None; mkCommand "b" (Ok (mkUserCommand UserCommandResetHistory "")) None;
   mkCommand "a" (Ok (mkUserCommand UserCommandSetModel "gpt-9")) None; mkCommand "a" (Ok (mkUserCommand UserCommandResetHistory "")) (Some "disk full")].

Lemma demo_history_ok : mem_inv demo_history.
Proof.
  intros sid. unfold mem_thread, demo_history. cbn [mrows]. destruct (decide (sid = "a")) as [->|Ha]; [vm_compute; reflexivity|].
  destruct (decide (sid = "b")) as [->|Hb]; [vm_compute; reflexivity|].
  rewrite lookup_insert_ne, lookup_singleton_ne by congruence. reflexivity.
Qed.

Lemma session_model_is_last_choice_witness :
  effectiveModel (modelOverrides (run_commands demo_controls demo_commands)) "gpt-4o" "a" = "o3-mini" /\
  hp_Model (hello_payload (run_commands demo_controls demo_commands) "a" "") = "o3-mini".
Proof.
  destruct (session_model_is_last_choice mem_inv demo_controls demo_commands "openai" "a" "" demo_history NewReferenceBuffer) as (E & _ & Hh & _).
  - eexists. split; [reflexivity|]. split; reflexivity.
  - reflexivity.
  - discriminate.
  - eexists. split; [reflexivity|]. split; reflexivity.
  - exact demo_history_ok.
  - split; [exact E|]. rewrite Hh by discriminate. exact E.
Defined.

(** The hello of a mock runtime names it. *)
Lemma mock_hello_has_a_provider (h : option History.MemoryStore) (b : option ReferenceBuffer) sid t :
  hp_Provider (hello_payload (mkControls ∅ (Some (mkService RuntimeMock "" h b))) sid t) = "mock".
Proof. reflexivity. Qed.
