(* ===== verification/Lifecycle.v ===== *)
(** * The life of connections (internal/wsserver/pumps.go)

    [runConnection] with its two pumps, many connections at once, beside the
    hub's goroutine: the request to be registered, the hello, the write pump's
    three cases, the end of the reader, the request to be removed, and the stops
    of the session's processes.  Requests wait in the hub's two channels until it
    takes them, from either one in any order.  One step is one action of one
    goroutine; the handlers that the reader starts run on their own and put
    envelopes on a client's channel ([Emit]) or start daemons after it is gone. *)

From S2P Require Import Prelude GoString Event Wire Daemon Lsp Session Hub Connection.

#[local] Open Scope nat_scope.

(** [sendBuf] of pumps.go *)
Definition send_buf : nat := 64.

Inductive wframe := WText (e : Envelope) | WPing | WClose.

(** The goroutines of a connection: [pm_greeted], the hello was sent and the
    pumps run; [reading], [writing], they have not returned. *)
Record pump := mkPump { pm_sid : string; pm_greeted : bool; reading : bool; writing : bool }.

(** The end of [runConnection], after its request to be removed was sent. *)
Inductive leaving := StoppingDaemons (sid : string) | StoppingServers (sid : string).

(** The hub's channels [register] and [unregister], and the connections that are
    past them.  [q_early] is a ghost: the clients whose removal the hub took
    before their registration. *)
Record queues := mkQueues { q_register : list string; q_unregister : list string; q_early : gset string; q_leaving : gmap string leaving }.

(** The capacity of both channels. *)
Definition hub_buf : nat := 8.

(** [nt_wire] is what was written to a connection's socket, [nt_accepted] every
    envelope its channel took. *)
Record net := mkNet {
  nt_hub : Hub; nt_daemons : option DaemonRegistry; nt_lsp : option LSPRegistry;
  nt_pumps : gmap string pump; nt_wire : gmap string (list wframe); nt_accepted : gmap string (list Envelope); nt_q : queues }.

Definition start (daemons : option DaemonRegistry) (lsp : option LSPRegistry) : net := mkNet NewHub daemons lsp ∅ ∅ ∅ (mkQueues [] [] ∅ ∅).

Definition wire_of (n : net) (id : string) : list wframe := default [] (nt_wire n !! id).
Definition accepted_of (n : net) (id : string) : list Envelope := default [] (nt_accepted n !! id).
Definition texts (l : list wframe) : list Envelope := omap (fun f => match f with WText e => Some e | _ => None end) l.

Definition set_client (h : Hub) (id : string) (c : Client) : Hub := mkHub (<[id := c]> (heap h)) (clients h) (bySID h).

(** What a send added to the channel. *)
Definition took (before after : Client) : list Envelope := drop (length (Send before)) (Send after).

Definition offer (n : net) (id : string) (c c' : Client) : net :=
  mkNet (set_client (nt_hub n) id c') (nt_daemons n) (nt_lsp n) (nt_pumps n) (nt_wire n) (<[id := accepted_of n id ++ took c c']> (nt_accepted n)) (nt_q n).

Definition set_pump (n : net) (id : string) (p : pump) : net :=
  mkNet (nt_hub n) (nt_daemons n) (nt_lsp n) (<[id := p]> (nt_pumps n)) (nt_wire n) (nt_accepted n) (nt_q n).

Definition put_frame (n : net) (id : string) (f : wframe) : net :=
  mkNet (nt_hub n) (nt_daemons n) (nt_lsp n) (nt_pumps n) (<[id := wire_of n id ++ [f]]> (nt_wire n)) (nt_accepted n) (nt_q n).

Definition set_queues (n : net) (q : queues) : net :=
  mkNet (nt_hub n) (nt_daemons n) (nt_lsp n) (nt_pumps n) (nt_wire n) (nt_accepted n) q.

Inductive net_event :=
| Connect (c : Client)                              (* NewClientWithScopes, and [h.register <- c] *)
| HubRegister (replaced : Envelope)                 (* the hub takes the next registration *)
| Greet (id : string) (hello : Envelope) (pd : bool)
| Emit (id : string) (e : Envelope) (pd : bool)     (* bufferAndSend of a handler *)
| ReadEnds (id : string)
| WriteNext (id : string) (ok : bool)
| WriteTick (id : string) (ok : bool)
| WriteClosed (id : string)
| Unregister (id : string)                          (* [h.unregister <- c] *)
| HubUnregister                                     (* the hub takes the next removal *)
| StopDaemons (id : string)
| StopServers (id : string)
| DaemonStarted (d : Daemon)                        (* a handler's [daemons.Register] *)
| DaemonExited (sid id : string)
| LspOp (o : reg_op).                               (* the language-server registry *)

(** The start of [runConnection]: a client, and its request to be registered. *)
Definition connect (n : net) (c : Client) : net :=
  let q := nt_q n in
  mkNet (set_client (nt_hub n) (cID c) c) (nt_daemons n) (nt_lsp n) (<[cID c := mkPump (cSID c) false true true]> (nt_pumps n)) (nt_wire n) (nt_accepted n)
    (mkQueues (q_register q ++ [cID c]) (q_unregister q) (q_early q) (q_leaving q)).

(** The hub takes the registration of [c], [rest] waits behind it; the client that
    is replaced gets its notice. *)
Definition take_register (n : net) (c : Client) (rest : list string) (replaced : Envelope) : net :=
  let h := register (nt_hub n) c replaced in
  let evicted := match bySID (nt_hub n) !! cSID c with Some prev => if String.eqb prev (cID c) then None else Some prev | None => None end in
  let acc := match evicted with
             | Some prev => match heap (nt_hub n) !! prev, heap h !! prev with
                            | Some old, Some new => <[prev := accepted_of n prev ++ took old new]> (nt_accepted n)
                            | _, _ => nt_accepted n
                            end
             | None => nt_accepted n
             end in
  let q := nt_q n in
  mkNet h (nt_daemons n) (nt_lsp n) (nt_pumps n) (nt_wire n) acc (mkQueues rest (q_unregister q) (q_early q) (q_leaving q)).

(** The hub takes the removal of the client [id]. *)
Definition take_unregister (n : net) (id : string) (rest : list string) : net :=
  let q := nt_q n in
  mkNet (Hub.unregister (nt_hub n) id) (nt_daemons n) (nt_lsp n) (nt_pumps n) (nt_wire n) (nt_accepted n)
    (mkQueues (q_register q) rest (if decide (id ∈ q_register q) then {[id]} ∪ q_early q else q_early q) (q_leaving q)).

(** The end of [runConnection]: both pumps have returned. *)
Definition teardown (n : net) (id sid : string) : net :=
  let q := nt_q n in
  mkNet (nt_hub n) (nt_daemons n) (nt_lsp n) (delete id (nt_pumps n)) (nt_wire n) (nt_accepted n)
    (mkQueues (q_register q) (q_unregister q ++ [id]) (q_early q) (<[id := StoppingDaemons sid]> (q_leaving q))).

Definition stop_daemons (n : net) (id sid : string) : net :=
  let q := nt_q n in
  mkNet (nt_hub n) ((fun r => (Daemon.StopAllForSession r sid).1) <$> nt_daemons n) (nt_lsp n) (nt_pumps n) (nt_wire n) (nt_accepted n)
    (mkQueues (q_register q) (q_unregister q) (q_early q) (<[id := StoppingServers sid]> (q_leaving q))).

Definition stop_servers (n : net) (id sid : string) : net :=
  let q := nt_q n in
  mkNet (nt_hub n) (nt_daemons n) ((fun g => (Lsp.StopAllForSession g sid).1) <$> nt_lsp n) (nt_pumps n) (nt_wire n) (nt_accepted n)
    (mkQueues (q_register q) (q_unregister q) (q_early q) (delete id (q_leaving q))).

(** [None]: the step is not possible. *)
Definition net_step (n : net) (ev : net_event) : option net :=
  match ev with
  | Connect c =>
      if bool_decide (heap (nt_hub n) !! cID c = None) && negb (closed c) && bool_decide (Send c = []) && Nat.eqb (sendBuf c) send_buf &&
         (length (q_register (nt_q n)) <? hub_buf)
      then Some (connect n c) else None
  | HubRegister replaced =>
      match q_register (nt_q n) with
      | [] => None
      | id :: rest =>
          c ← heap (nt_hub n) !! id;
          if String.eqb (EType replaced) EventSessionReplaced then Some (take_register n c rest replaced) else None
      end
  | Greet id hello pd =>
      p ← nt_pumps n !! id; c ← heap (nt_hub n) !! id;
      if pm_greeted p || negb (String.eqb (EType hello) EventHello) then None
      else Some (set_pump (offer n id c (send_select pd c hello)) id (mkPump (pm_sid p) true (reading p) (writing p)))
  | Emit id e pd =>
      c ← heap (nt_hub n) !! id;
      match nt_pumps n !! id with
      | Some p => if pm_greeted p then Some (offer n id c (send_select pd c e)) else None
      | None => Some (offer n id c (send_select pd c e))
      end
  | ReadEnds id =>
      p ← nt_pumps n !! id; c ← heap (nt_hub n) !! id;
      if pm_greeted p && reading p then
        Some (set_pump (mkNet (set_client (nt_hub n) id (Close c)) (nt_daemons n) (nt_lsp n) (nt_pumps n) (nt_wire n) (nt_accepted n) (nt_q n)) id (mkPump (pm_sid p) true false (writing p)))
      else None
  | WriteNext id ok =>
      p ← nt_pumps n !! id; c ← heap (nt_hub n) !! id;
      if pm_greeted p && writing p then
        match Send c with
        | [] => None
        | e :: q =>
            let n' := mkNet (set_client (nt_hub n) id (with_send c q)) (nt_daemons n) (nt_lsp n) (nt_pumps n) (nt_wire n) (nt_accepted n) (nt_q n) in
            Some (if ok then put_frame n' id (WText e) else set_pump n' id (mkPump (pm_sid p) true (reading p) false))
        end
      else None
  | WriteTick id ok =>
      p ← nt_pumps n !! id;
      if pm_greeted p && writing p then Some (if ok then put_frame n id WPing else set_pump n id (mkPump (pm_sid p) true (reading p) false)) else None
  | WriteClosed id =>
      p ← nt_pumps n !! id; c ← heap (nt_hub n) !! id;
      if pm_greeted p && writing p && closed c then Some (set_pump (put_frame n id WClose) id (mkPump (pm_sid p) true (reading p) false)) else None
  | Unregister id =>
      p ← nt_pumps n !! id;
      if pm_greeted p && negb (reading p) && negb (writing p) && (length (q_unregister (nt_q n)) <? hub_buf) then Some (teardown n id (pm_sid p)) else None
  | HubUnregister => match q_unregister (nt_q n) with [] => None | id :: rest => Some (take_unregister n id rest) end
  | StopDaemons id => match q_leaving (nt_q n) !! id with Some (StoppingDaemons sid) => Some (stop_daemons n id sid) | _ => None end
  | StopServers id => match q_leaving (nt_q n) !! id with Some (StoppingServers sid) => Some (stop_servers n id sid) | _ => None end
  | DaemonStarted d =>
      r ← nt_daemons n;
      if bool_decide (daemons r !! d_ID d = None) then Some (mkNet (nt_hub n) (Some (Register r d)) (nt_lsp n) (nt_pumps n) (nt_wire n) (nt_accepted n) (nt_q n)) else None
  | DaemonExited sid id =>
      r ← nt_daemons n; Some (mkNet (nt_hub n) (Some (Stop r sid id).1) (nt_lsp n) (nt_pumps n) (nt_wire n) (nt_accepted n) (nt_q n))
  | LspOp o => g ← nt_lsp n; Some (mkNet (nt_hub n) (nt_daemons n) (Some (Lsp.reg_step g o)) (nt_pumps n) (nt_wire n) (nt_accepted n) (nt_q n))
  end.

Fixpoint run_net (n : net) (l : list net_event) : option net :=
  match l with [] => Some n | ev :: l' => n' ← net_step n ev; run_net n' l' end.

Inductive reachable (n0 : net) : net -> Prop :=
| reach_start : reachable n0 n0
| reach_step n n' ev : reachable n0 n -> net_step n ev = Some n' -> reachable n0 n'.

(** isMessageTooBig: a close with code 1009, or the text of a read limit. *)
Definition isMessageTooBig (err : option (option Z * string)) : bool :=
  match err with None => false | Some (code, text) => bool_decide (code = Some 1009%Z) || Contains text "read limit" end.

(** ** The invariant *)

(** The first envelope a connection got: its hello, or the notice that it was
    replaced before it was greeted. *)
Definition opened (acc : list Envelope) (c : Client) : Prop :=
  exists e rest, acc = e :: rest /\ (EType e = EventHello \/ EType e = EventSessionReplaced /\ closed c = true).

Definition conn_ok (n : net) (id : string) (c : Client) : Prop :=
  let acc := accepted_of n id in
  let w := texts (wire_of n id) in
  sendBuf c = send_buf /\ w `prefix_of` acc /\
  match nt_pumps n !! id with
  | None => opened acc c
  | Some p =>
      cSID c = pm_sid p /\ (reading p = false -> closed c = true) /\ (writing p = true -> acc = w ++ Send c) /\
      if pm_greeted p then opened acc c
      else reading p = true /\ writing p = true /\ w = [] /\
           if closed c then exists e rest, acc = e :: rest /\ EType e = EventSessionReplaced else acc = []
  end.

(** The hub's maps, with the clients that still wait to be registered: as
    [hub_wf], except that a waiting client is not known yet. *)
Record hub_ok (h : Hub) (waiting : list string) : Prop := {
  hb_routed : forall sid id, bySID h !! sid = Some id -> id ∈ clients h /\ exists c, heap h !! id = Some c /\ cSID c = sid;
  hb_current : forall id, id ∈ clients h -> exists c, heap h !! id = Some c /\ bySID h !! cSID c = Some id;
  hb_closed : forall id c, heap h !! id = Some c -> id ∉ clients h -> id ∉ waiting -> closed c = true;
  hb_bounded : forall id c, heap h !! id = Some c -> length (Send c) <= sendBuf c;
  hb_ids : forall id c, heap h !! id = Some c -> cID c = id;
  hb_waiting : forall id, id ∈ waiting -> is_Some (heap h !! id) /\ id ∉ clients h;
  hb_nodup : NoDup waiting }.

(** Its goroutines run, or its removal waits, or its removal was taken too early. *)
Definition accounted (n : net) (id : string) : Prop :=
  is_Some (nt_pumps n !! id) \/ id ∈ q_unregister (nt_q n) \/ id ∈ q_early (nt_q n).

Record net_ok (n : net) : Prop := {
  ok_hub : hub_ok (nt_hub n) (q_register (nt_q n));
  ok_conn : forall id c, heap (nt_hub n) !! id = Some c -> conn_ok n id c;
  ok_client : forall id, id ∈ clients (nt_hub n) \/ id ∈ q_register (nt_q n) -> accounted n id;
  ok_removed : forall id, id ∈ q_unregister (nt_q n) -> nt_pumps n !! id = None /\ is_Some (heap (nt_hub n) !! id);
  ok_pump : forall id, is_Some (nt_pumps n !! id) -> is_Some (heap (nt_hub n) !! id);
  ok_new : forall id, heap (nt_hub n) !! id = None -> accepted_of n id = [] /\ wire_of n id = [];
  ok_daemons : forall r, nt_daemons n = Some r -> reg_wf r;
  ok_lsp : forall g, nt_lsp n = Some g -> reg_inv [] g }.

Lemma send_select_facts pd c e : let c' := send_select pd c e in
  cID c' = cID c /\ cSID c' = cSID c /\ closed c' = closed c /\ sendBuf c' = sendBuf c /\ (length (Send c) <= sendBuf c -> length (Send c') <= sendBuf c) /\
  Send c' = Send c ++ took c c' /\ (took c c' = [] \/ took c c' = [e]) /\ (closed c = false -> length (Send c) < sendBuf c -> took c c' = [e]).
Proof.
  unfold send_select. assert (took c c = []) as Hn by (unfold took; apply drop_ge; lia).
  destruct (closed c && pd) eqn:Hd; [rewrite Hn, app_nil_r; split_and!; auto; intros Hc; by rewrite Hc in Hd|].
  destruct (try_send_facts c e) as (F1 & F2 & F3 & F4 & F5). cbn zeta in *. unfold try_send in *. destruct (Nat.ltb_spec (length (Send c)) (sendBuf c)) as [Hl|Hl]; cbn [fst] in *.
  - assert (took c (with_send c (Send c ++ [e])) = [e]) as Ht by (unfold took; cbn; by rewrite drop_app_length).
    rewrite Ht. split_and!; auto.
  - rewrite Hn, app_nil_r. split_and!; auto. lia.
Qed.

(** A client changes under its id. *)
Lemma hub_ok_update h w id c c' : hub_ok h w -> heap h !! id = Some c -> cID c' = cID c -> cSID c' = cSID c -> (closed c = true -> closed c' = true) ->
  length (Send c') <= sendBuf c' -> hub_ok (set_client h id c') w.
Proof.
  intros [Hr Hc Hcl Hb Hid Hw Hn] Hh H1 H2 H3 H4. split; simpl; try done.
  - intros sid i Hi. destruct (Hr sid i Hi) as [? (x & Hx & Hs)]. split; [done|].
    destruct (decide (id = i)) as [->|]; [exists c'|exists x]; simplify_map_eq; split; congruence.
  - intros i Hi. destruct (Hc i Hi) as (x & Hx & Hs).
    destruct (decide (id = i)) as [->|]; [exists c'|exists x]; simplify_map_eq; split; congruence.
  - intros i x Hx Hi Hi'. rewrite lookup_insert in Hx. case_decide; simplify_eq; eauto.
  - intros i x Hx. rewrite lookup_insert in Hx. case_decide; simplify_eq; eauto.
  - intros i x Hx. rewrite lookup_insert in Hx. case_decide; simplify_eq; eauto. rewrite H1. eauto.
  - intros i Hi. destruct (Hw i Hi) as [Hs Hnc]. split; [|done]. rewrite lookup_insert. case_decide; [by eexists|done].
Qed.

(** A new client waits to be registered. *)
Lemma hub_ok_new h w c : hub_ok h w -> heap h !! cID c = None -> length (Send c) <= sendBuf c -> hub_ok (set_client h (cID c) c) (w ++ [cID c]).
Proof.
  intros [Hr Hc Hcl Hb Hid Hw Hn] Hnew Hlen. assert (forall i x, heap h !! i = Some x -> i <> cID c) as Hne by congruence.
  assert (cID c ∉ clients h) as Hnc by (intros Hin; destruct (Hc _ Hin) as (x & Hx & _); congruence).
  split; simpl.
  - intros sid i Hi. destruct (Hr sid i Hi) as [? (x & Hx & Hs)]. split; [done|]. exists x. rewrite lookup_insert_ne by (symmetry; by eapply Hne). done.
  - intros i Hi. destruct (Hc i Hi) as (x & Hx & Hs). exists x. rewrite lookup_insert_ne by (symmetry; by eapply Hne). done.
  - intros i x Hx Hi Hi'. rewrite lookup_insert in Hx. case_decide; simplify_eq; [exfalso; apply Hi'; set_solver|]. eapply Hcl; [done..|set_solver].
  - intros i x Hx. rewrite lookup_insert in Hx. case_decide; simplify_eq; eauto.
  - intros i x Hx. rewrite lookup_insert in Hx. case_decide; simplify_eq; eauto.
  - intros i [Hi| ->%list_elem_of_singleton]%elem_of_app; [|split; [by rewrite lookup_insert_eq|done]].
    destruct (Hw i Hi) as [[x Hx] Hni]. split; [|done]. rewrite lookup_insert_ne by (symmetry; by eapply Hne). by exists x.
  - apply NoDup_app. split_and!; [done| |apply NoDup_singleton]. intros i Hi ->%list_elem_of_singleton. destruct (Hw _ Hi) as [[x Hx] _]. congruence.
Qed.

(** The client heap after a registration: the replaced client was told to stop. *)
Lemma take_heap h id w c replaced : hub_ok h (id :: w) -> heap h !! id = Some c -> cID c = id /\
  forall i, heap (register h c replaced) !! i = if decide (bySID h !! cSID c = Some i) then (fun p => Close (try_send p replaced).1) <$> heap h !! i else heap h !! i.
Proof.
  intros Hok Hid. pose proof (hb_ids _ _ Hok _ _ Hid) as Ec. split; [done|]. intros i. destruct (hb_waiting _ _ Hok id) as [_ Hnc]; [by left|].
  unfold register. cbn [heap]. rewrite Ec. destruct (bySID h !! cSID c) as [prev|] eqn:Eb.
  - assert (prev <> id) as Hne by (intros ->; destruct (hb_routed _ _ Hok _ _ Eb); done). rewrite (proj2 (String.eqb_neq _ _) Hne).
    destruct (decide (i = id)) as [->|Hi]; [rewrite lookup_insert_eq, decide_False by congruence; done|]. rewrite lookup_insert_ne by done.
    destruct (decide (Some prev = Some i)) as [[= ->]|Hp]; [by rewrite lookup_alter_eq|]. rewrite lookup_alter_ne by congruence. done.
  - rewrite decide_False by done. destruct (decide (i = id)) as [->|Hi]; [by rewrite lookup_insert_eq|by rewrite lookup_insert_ne].
Qed.

Lemma hub_ok_take h id w c replaced : hub_ok h (id :: w) -> heap h !! id = Some c -> hub_ok (register h c replaced) w.
Proof.
  intros Hok Hid. destruct (take_heap h id w c replaced Hok Hid) as [Ec Hl]. pose proof Hok as [Hr Hc Hcl Hb Hids Hw Hn].
  destruct (Hw id) as [_ Hnc]; [by left|]. apply NoDup_cons in Hn as [Hnw Hn].
  assert (forall sid, bySID (register h c replaced) !! sid = if decide (cSID c = sid) then Some id else bySID h !! sid) as Hby
    by (intros sid; unfold register; cbn; rewrite Ec; by rewrite lookup_insert).
  assert (forall i x, heap (register h c replaced) !! i = Some x -> exists x0, heap h !! i = Some x0 /\ cID x = cID x0 /\ cSID x = cSID x0 /\ length (Send x) <= sendBuf x /\
            (bySID h !! cSID c = Some i -> closed x = true) /\ (closed x0 = true -> closed x = true)) as Hx.
  { intros i x. rewrite Hl. case_decide as Hd.
    - destruct (heap h !! i) as [x0|] eqn:E; [|done]. intros [= <-]. exists x0. destruct (try_send_facts x0 replaced) as (F1 & F2 & F3 & F4 & F5). cbn zeta in *.
      split_and!; try done. cbn [sendBuf Close Send]. rewrite F4. apply F5. by eapply Hb.
    - intros E. exists x. split_and!; try done. by eapply Hb. }
  assert (forall i x0, heap h !! i = Some x0 -> exists x, heap (register h c replaced) !! i = Some x /\ cSID x = cSID x0) as Hk.
  { intros i x0 E. rewrite Hl, E. case_decide; [|by exists x0]. eexists. split; [done|]. by destruct (try_send_facts x0 replaced) as (_ & ? & _). }
  split.
  - intros sid i. rewrite Hby, register_clients, Ec. case_decide as Hs; [intros [= <-]; split; [by left|]; destruct (Hk id c Hid) as (x & ? & ?); exists x; split; [done|congruence]|].
    intros Hi. destruct (Hr sid i Hi) as [Hin (x0 & Hx0 & Hxs)]. split; [|destruct (Hk i x0 Hx0) as (x & ? & ?); exists x; split; [done|congruence]].
    right. split; [done|]. intros Hb'. destruct (Hr _ _ Hb') as [_ (y & Hy & Hys)]. congruence.
  - intros i. rewrite register_clients, Ec. intros [->|[Hin Hcond]].
    + destruct (Hk id c Hid) as (x & ? & Hsx). exists x. split; [done|]. rewrite Hby, Hsx, decide_True by done. done.
    + destruct (Hc i Hin) as (x0 & Hx0 & Hxb). destruct (Hk i x0 Hx0) as (x & ? & Hsx). exists x. split; [done|]. rewrite Hby, Hsx.
      case_decide as Hs; [|done]. rewrite <-Hs in Hxb. by rewrite (Hcond Hxb).
  - intros i x Hix Hi Hiw. rewrite register_clients, Ec in Hi. destruct (Hx i x Hix) as (x0 & Hx0 & _ & _ & _ & Hev & Hmono).
    destruct (decide (bySID h !! cSID c = Some i)) as [Hd|Hd]; [by apply Hev|]. apply Hmono. eapply Hcl; [exact Hx0| |].
    + intros Hin. apply Hi. by right.
    + intros [->|?]%elem_of_cons; [apply Hi; by left|done].
  - intros i x Hix. by destruct (Hx i x Hix) as (x0 & _ & _ & _ & ? & _).
  - intros i x Hix. destruct (Hx i x Hix) as (x0 & Hx0 & -> & _). by eapply Hids.
  - intros i Hi. destruct (Hw i) as [[x0 Hx0] Hni]; [by right|]. split; [destruct (Hk i x0 Hx0) as (x & ? & _); by exists x|].
    rewrite register_clients, Ec. intros [->|[? _]]; done.
  - done.
Qed.

Lemma hub_ok_unregister h w id : hub_ok h w -> hub_ok (Hub.unregister h id) w.
Proof.
  intros Hh. unfold Hub.unregister. destruct (heap h !! id) as [c|] eqn:Hc; [|done]. case_decide as Hin; [|done]. destruct Hh as [Hr Hcu Hcl Hb Hid Hw Hn].
  destruct (Hcu id Hin) as (c0 & Hc0 & Hs). simplify_eq. rewrite decide_True by done. split; simpl.
  - intros sid i [Hne Hi]%lookup_delete_Some. destruct (Hr sid i Hi) as [Hi' (x & Hx & Hxs)].
    assert (i <> id) as Hii by (intros ->; simplify_eq). split; [set_solver|]. exists x. by rewrite lookup_alter_ne.
  - intros i [Hi Hii]%elem_of_difference. destruct (Hcu i Hi) as (x & Hx & Hxs). assert (i <> id) by set_solver. exists x. rewrite lookup_alter_ne by done. split; [done|].
    rewrite lookup_delete_ne; [done|]. intros Heq. rewrite Heq in Hs. simplify_eq.
  - intros i x Hx Hi Hiw. rewrite lookup_alter in Hx. case_decide; simplify_eq; [rewrite Hc in Hx; by simplify_eq/=|]. eapply Hcl; [done| |done]. set_solver.
  - intros i x Hx. rewrite lookup_alter in Hx. case_decide; simplify_eq; eauto. rewrite Hc in Hx. simplify_eq/=. eauto.
  - intros i x Hx. rewrite lookup_alter in Hx. case_decide; simplify_eq; eauto. rewrite Hc in Hx. simplify_eq/=. eauto.
  - intros i Hi. destruct (Hw i Hi) as [[x Hx] Hni]. split; [|set_solver]. rewrite lookup_alter. case_decide; subst; rewrite Hx; by eexists.
  - done.
Qed.

(** A step that concerns one connection. *)
Lemma local_ok n n' id c c' : net_ok n -> heap (nt_hub n) !! id = Some c -> nt_hub n' = set_client (nt_hub n) id c' ->
  cID c' = cID c -> cSID c' = cSID c -> (closed c = true -> closed c' = true) -> length (Send c') <= sendBuf c' ->
  (forall i, i <> id -> nt_pumps n' !! i = nt_pumps n !! i /\ wire_of n' i = wire_of n i /\ accepted_of n' i = accepted_of n i) ->
  (is_Some (nt_pumps n !! id) <-> is_Some (nt_pumps n' !! id)) -> nt_daemons n' = nt_daemons n -> nt_lsp n' = nt_lsp n -> nt_q n' = nt_q n -> conn_ok n' id c' -> net_ok n'.
Proof.
  intros [Hh Hc Hcl Hrm Hp Hn Hd Hl] Hid Eh E1 E2 E3 E4 Ho Hs Ed El Eq Hok. split.
  - rewrite Eh, Eq. by apply (hub_ok_update _ _ id c).
  - intros i x. rewrite Eh. cbn. destruct (decide (i = id)) as [->|Hne]; [rewrite lookup_insert_eq; by intros [= <-]|rewrite lookup_insert_ne by done].
    intros Hx. specialize (Hc i x Hx). unfold conn_ok in *. destruct (Ho i Hne) as (-> & -> & ->). exact Hc.
  - intros i. rewrite Eh, Eq. cbn. intros Hi. specialize (Hcl i Hi). unfold accounted in *. rewrite Eq. destruct Hcl as [Hcl|Hcl]; [left|by right].
    destruct (decide (i = id)) as [->|Hne]; [by apply Hs|]. by destruct (Ho i Hne) as (-> & _).
  - intros i. rewrite Eq, Eh. cbn. intros Hi. destruct (Hrm i Hi) as [Hno Hsome]. destruct (decide (i = id)) as [->|Hne].
    + rewrite lookup_insert_eq. split; [|by eexists]. apply eq_None_not_Some. intros Hx%Hs. rewrite Hno in Hx. by destruct Hx.
    + rewrite lookup_insert_ne by done. by destruct (Ho i Hne) as (-> & _).
  - intros i Hi. rewrite Eh. cbn. destruct (decide (i = id)) as [->|Hne]; [by rewrite lookup_insert_eq|rewrite lookup_insert_ne by done].
    destruct (Ho i Hne) as (Ep & _). rewrite Ep in Hi. by apply Hp.
  - intros i. rewrite Eh. cbn. destruct (decide (i = id)) as [->|Hne]; [by rewrite lookup_insert_eq|rewrite lookup_insert_ne by done].
    destruct (Ho i Hne) as (_ & -> & ->). apply Hn.
  - rewrite Ed. exact Hd.
  - rewrite El. exact Hl.
Qed.

Lemma offer_other n id c c' i : i <> id -> nt_pumps (offer n id c c') !! i = nt_pumps n !! i /\ wire_of (offer n id c c') i = wire_of n i /\ accepted_of (offer n id c c') i = accepted_of n i.
Proof. intros Hne. unfold offer, accepted_of, wire_of. cbn. by rewrite lookup_insert_ne. Qed.

Lemma opened_app acc l c c' : opened acc c -> (closed c = true -> closed c' = true) -> opened (acc ++ l) c'.
Proof. intros (e & rest & -> & He) Hc. exists e, (rest ++ l). split; [done|]. naive_solver. Qed.

Lemma emit_ok n id c e pd : net_ok n -> heap (nt_hub n) !! id = Some c -> (forall p, nt_pumps n !! id = Some p -> pm_greeted p = true) ->
  net_ok (offer n id c (send_select pd c e)).
Proof.
  intros Hok Hid Hg. destruct (send_select_facts pd c e) as (F1 & F2 & F3 & F4 & F5 & F6 & F7 & _). cbn zeta in *.
  apply (local_ok n _ id c (send_select pd c e)); try done.
  - by rewrite F3.
  - rewrite F4. apply F5. by eapply hb_bounded; [apply Hok|].
  - intros i Hne. by apply offer_other.
  - pose proof (ok_conn n Hok id c Hid) as (C1 & C2 & C3). unfold conn_ok. rewrite F4.
    assert (accepted_of (offer n id c (send_select pd c e)) id = accepted_of n id ++ took c (send_select pd c e)) as -> by (unfold accepted_of at 1; cbn; by rewrite lookup_insert_eq).
    change (wire_of (offer n id c (send_select pd c e)) id) with (wire_of n id). cbn [nt_pumps offer].
    split; [done|]. split; [by apply prefix_app_r|]. destruct (nt_pumps n !! id) as [p|] eqn:Ep; [|eapply opened_app; [exact C3|by rewrite F3]].
    destruct C3 as (D1 & D2 & D3 & D4). rewrite (Hg p eq_refl) in *. split_and!; [congruence|by rewrite F3| |eapply opened_app; [exact D4|by rewrite F3]].
    intros Hw. rewrite (D3 Hw), F6, app_assoc. done.
Qed.

Lemma greet_ok n id p c hello pd : net_ok n -> heap (nt_hub n) !! id = Some c -> nt_pumps n !! id = Some p -> pm_greeted p = false -> EType hello = EventHello ->
  net_ok (set_pump (offer n id c (send_select pd c hello)) id (mkPump (pm_sid p) true (reading p) (writing p))).
Proof.
  intros Hok Hid Hp Hg Hh. destruct (send_select_facts pd c hello) as (F1 & F2 & F3 & F4 & F5 & F6 & F7 & F8). cbn zeta in *.
  apply (local_ok n _ id c (send_select pd c hello)); try done.
  - by rewrite F3.
  - rewrite F4. apply F5. by eapply hb_bounded; [apply Hok|].
  - intros i Hne. unfold set_pump, accepted_of, wire_of, offer. cbn. by rewrite !lookup_insert_ne.
  - cbn. rewrite lookup_insert_eq, Hp. by split.
  - pose proof (ok_conn n Hok id c Hid) as (C1 & C2 & C3). unfold conn_ok. rewrite F4.
    assert (accepted_of (set_pump (offer n id c (send_select pd c hello)) id (mkPump (pm_sid p) true (reading p) (writing p))) id = accepted_of n id ++ took c (send_select pd c hello)) as ->
      by (unfold accepted_of at 1; cbn; by rewrite lookup_insert_eq).
    change (wire_of (set_pump _ id _) id) with (wire_of n id). cbn [nt_pumps set_pump]. rewrite lookup_insert_eq. cbn [pm_sid reading writing pm_greeted].
    rewrite Hp, Hg in C3. destruct C3 as (D1 & D2 & D3 & D4 & D5 & D6 & D7). split; [done|]. split; [by apply prefix_app_r|].
    split_and!; [congruence|by rewrite F3|intros Hw; by rewrite (D3 Hw), F6, app_assoc|].
    destruct (closed c) eqn:Hc.
    + destruct D7 as (e & rest & -> & He). exists e, (rest ++ took c (send_select pd c hello)). split; [done|]. right. by rewrite F3.
    + rewrite D7 in *. specialize (D3 D5). rewrite D6 in D3. cbn in D3. rewrite F8; [|done|rewrite C1, <-D3; unfold send_buf; cbn; lia].
      exists hello, []. split; [done|]. by left.
Qed.

Lemma read_end_ok n id p c : net_ok n -> heap (nt_hub n) !! id = Some c -> nt_pumps n !! id = Some p -> pm_greeted p = true ->
  net_ok (set_pump (mkNet (set_client (nt_hub n) id (Close c)) (nt_daemons n) (nt_lsp n) (nt_pumps n) (nt_wire n) (nt_accepted n) (nt_q n)) id (mkPump (pm_sid p) true false (writing p))).
Proof.
  intros Hok Hid Hp Hg. apply (local_ok n _ id c (Close c)); try done.
  - exact (hb_bounded _ _ (ok_hub n Hok) id c Hid).
  - intros i Hne. unfold set_pump, accepted_of, wire_of. cbn. by rewrite !lookup_insert_ne.
  - cbn. rewrite lookup_insert_eq, Hp. by split.
  - pose proof (ok_conn n Hok id c Hid) as (C1 & C2 & C3). rewrite Hp, Hg in C3. destruct C3 as (D1 & D2 & D3 & D4).
    unfold conn_ok. cbn [nt_pumps set_pump]. rewrite lookup_insert_eq. cbn [pm_sid reading writing pm_greeted].
    change (accepted_of (set_pump _ id _) id) with (accepted_of n id). change (wire_of (set_pump _ id _) id) with (wire_of n id).
    split_and!; try done. destruct D4 as (e & rest & E & He). exists e, rest. split; [done|]. naive_solver.
Qed.

(** A write pump's step: the channel loses its front, or nothing; a text frame
    goes out, another frame, or none. *)
Lemma write_ok n n' id p c c' fs w' : net_ok n -> heap (nt_hub n) !! id = Some c -> nt_pumps n !! id = Some p -> pm_greeted p = true -> writing p = true ->
  cID c' = cID c -> cSID c' = cSID c -> closed c' = closed c -> sendBuf c' = sendBuf c ->
  (exists q, Send c = q ++ Send c' /\ (texts fs = q \/ texts fs = [] /\ w' = false) /\ (w' = true -> texts fs = q)) ->
  nt_hub n' = set_client (nt_hub n) id c' -> nt_daemons n' = nt_daemons n -> nt_lsp n' = nt_lsp n ->
  (forall i, nt_pumps n' !! i = if decide (i = id) then Some (mkPump (pm_sid p) true (reading p) w') else nt_pumps n !! i) ->
  (forall i, wire_of n' i = if decide (i = id) then wire_of n id ++ fs else wire_of n i) -> nt_accepted n' = nt_accepted n -> nt_q n' = nt_q n -> net_ok n'.
Proof.
  intros Hok Hid Hp Hg Hw E1 E2 E3 E4 (q & Hq & Hfs & Hw') Eh Ed El Epu Ewi Eac Equ. apply (local_ok n _ id c c'); try done.
  - by rewrite E3.
  - rewrite E4. pose proof (hb_bounded _ _ (ok_hub n Hok) id c Hid) as Hb. rewrite Hq, length_app in Hb. lia.
  - intros i Hne. unfold accepted_of. by rewrite Epu, Ewi, Eac, !decide_False.
  - rewrite Epu, Hp, decide_True by done. by split.
  - pose proof (ok_conn n Hok id c Hid) as (C1 & C2 & C3). rewrite Hp, Hg in C3. destruct C3 as (D1 & D2 & D3 & D4). specialize (D3 Hw).
    unfold conn_ok. rewrite Epu, Ewi, !decide_True by done. cbn [pm_sid reading writing pm_greeted].
    assert (accepted_of n' id = accepted_of n id) as -> by (unfold accepted_of; by rewrite Eac).
    assert (texts (wire_of n id ++ fs) = texts (wire_of n id) ++ texts fs) as -> by (unfold texts; by rewrite omap_app).
    split_and!; [congruence| |congruence|by rewrite E3| |].
    + rewrite D3, Hq, app_assoc. destruct Hfs as [->|[-> _]]; [by apply prefix_app_r|rewrite app_nil_r, <-app_assoc; by apply prefix_app_r].
    + intros Ht. by rewrite D3, Hq, (Hw' Ht), app_assoc.
    + destruct D4 as (e & rest & E & He). exists e, rest. split; [done|]. by rewrite E3.
Qed.

Lemma set_client_id h id c : heap h !! id = Some c -> h = set_client h id c.
Proof. intros Hid. unfold set_client. destruct h as [hp cl by_]. cbn in *. by rewrite insert_id. Qed.

Lemma pump_id p w : pm_greeted p = true -> writing p = w -> p = mkPump (pm_sid p) true (reading p) w.
Proof. intros Hg <-. destruct p. cbn in *. by subst. Qed.

Lemma insert_decide {A} (m : gmap string A) id x i : <[id := x]> m !! i = if decide (i = id) then Some x else m !! i.
Proof. destruct (decide (i = id)) as [->|Hne]; [by rewrite lookup_insert_eq|by rewrite lookup_insert_ne]. Qed.
Lemma same_decide {A} (m : gmap string A) id x i : m !! id = Some x -> m !! i = if decide (i = id) then Some x else m !! i.
Proof. intros Hx. destruct (decide (i = id)) as [->|Hne]; done. Qed.

Lemma frame_wire n id f i : wire_of (put_frame n id f) i = if decide (i = id) then wire_of n id ++ [f] else wire_of n i.
Proof. unfold wire_of at 1. cbn. rewrite insert_decide. by case_decide. Qed.
Lemma no_frame_wire n id i : wire_of n i = if decide (i = id) then wire_of n id ++ [] else wire_of n i.
Proof. rewrite app_nil_r. case_decide; by subst. Qed.

Lemma evict_conn n prev x replaced : conn_ok n prev x -> length (Send x) <= sendBuf x -> EType replaced = EventSessionReplaced ->
  forall n', nt_pumps n' !! prev = nt_pumps n !! prev -> wire_of n' prev = wire_of n prev ->
  accepted_of n' prev = accepted_of n prev ++ took x (Close (try_send x replaced).1) -> conn_ok n' prev (Close (try_send x replaced).1).
Proof.
  intros (C1 & C2 & C3) Hlen Hr n' Ep Ew Ea. pose proof (send_select_facts false x replaced) as (F1 & F2 & F3 & F4 & F5 & F6 & F7 & F8).
  unfold send_select in *. rewrite andb_false_r in *. set (x' := (try_send x replaced).1) in *.
  unfold conn_ok. rewrite Ep, Ew, Ea. change (took x (Close x')) with (took x x'). cbn [sendBuf Close closed cSID Send]. rewrite F4.
  split; [done|]. split; [by apply prefix_app_r|]. destruct (nt_pumps n !! prev) as [p|]; [|by eapply opened_app; [exact C3|]].
  destruct C3 as (D1 & D2 & D3 & D4). split; [congruence|]. split; [done|]. split; [intros Hw; by rewrite (D3 Hw), F6, app_assoc|].
  destruct (pm_greeted p); [by eapply opened_app; [exact D4|]|]. destruct D4 as (G1 & G2 & G3 & G4). split_and!; [done|done|done|].
  destruct (closed x) eqn:Hc; [destruct G4 as (e & rest & -> & He); by exists e, (rest ++ took x x')|].
  specialize (D3 G2). rewrite G3, G4 in D3. cbn in D3. rewrite G4, F8; [by exists replaced, []|done|rewrite C1, <-D3; unfold send_buf; cbn; lia].
Qed.

Lemma connect_ok n c : net_ok n -> heap (nt_hub n) !! cID c = None -> closed c = false -> Send c = [] -> sendBuf c = send_buf -> net_ok (connect n c).
Proof.
  intros [Hh Hc Hcli Hrm Hp Hn Hd Hl] Hnew Hcl Hq Hb.
  assert (nt_pumps n !! cID c = None) as Hnp by (apply eq_None_not_Some; intros Hs%Hp; by rewrite Hnew in Hs; destruct Hs).
  assert (forall i, i <> cID c -> nt_pumps (connect n c) !! i = nt_pumps n !! i) as Hpo by (intros i Hi; cbn; by rewrite lookup_insert_ne).
  split; [| | | | | |exact Hd|exact Hl].
  - cbn [nt_hub nt_q connect q_register]. apply hub_ok_new; [done|done|]. rewrite Hq. cbn. lia.
  - intros i x. cbn [nt_hub connect set_client heap]. destruct (decide (i = cID c)) as [->|Hi].
    + rewrite lookup_insert_eq. intros [= <-]. unfold conn_ok. change (accepted_of (connect n c) (cID c)) with (accepted_of n (cID c)).
      change (wire_of (connect n c) (cID c)) with (wire_of n (cID c)). destruct (Hn _ Hnew) as [-> ->]. cbn [nt_pumps connect]. rewrite lookup_insert_eq.
      cbn. rewrite Hcl, Hq. by split_and!.
    + rewrite lookup_insert_ne by done. intros Hx. specialize (Hc i x Hx). unfold conn_ok in *. rewrite (Hpo i Hi). exact Hc.
  - intros i. unfold accounted. cbn [nt_hub connect set_client clients nt_q q_register q_unregister q_early].
    destruct (decide (i = cID c)) as [->|Hi]; [intros _; left; cbn; by rewrite lookup_insert_eq|]. rewrite (Hpo i Hi). intros [Hin|[Hin| ->%list_elem_of_singleton]%elem_of_app]; [| |done]; apply Hcli; auto.
  - intros i Hi. destruct (Hrm i Hi) as [Hno [x Hx]]. assert (i <> cID c) by congruence. rewrite Hpo by done. split; [done|]. cbn. rewrite lookup_insert_ne by done. by exists x.
  - intros i Hi. cbn. destruct (decide (i = cID c)) as [->|Hne]; [by rewrite lookup_insert_eq|]. rewrite lookup_insert_ne by done. rewrite (Hpo i Hne) in Hi. by apply Hp.
  - intros i. cbn. destruct (decide (i = cID c)) as [->|Hne]; [by rewrite lookup_insert_eq|]. rewrite lookup_insert_ne by done. apply Hn.
Qed.

(** What the channels took when a registration is taken. *)
Lemma take_accepted n id rest c replaced i : net_ok n -> q_register (nt_q n) = id :: rest -> heap (nt_hub n) !! id = Some c ->
  accepted_of (take_register n c rest replaced) i =
  match heap (nt_hub n) !! i with
  | Some x => if decide (bySID (nt_hub n) !! cSID c = Some i) then accepted_of n i ++ took x (Close (try_send x replaced).1) else accepted_of n i
  | None => accepted_of n i
  end.
Proof.
  intros Hok Hq Hid. pose proof (ok_hub n Hok) as Hh. rewrite Hq in Hh. destruct (take_heap _ _ _ _ replaced Hh Hid) as [Ec Hl].
  destruct (hb_waiting _ _ Hh id) as [_ Hnc]; [by left|]. unfold take_register, accepted_of at 1. cbn [nt_accepted].
  destruct (bySID (nt_hub n) !! cSID c) as [prev|] eqn:Eb.
  - destruct (hb_routed _ _ Hh _ _ Eb) as [Hpc (x & Hx & _)]. assert (prev <> cID c) as Hne by (rewrite Ec; by intros ->).
    rewrite (proj2 (String.eqb_neq _ _) Hne), Hl, Hx, decide_True by done. cbn [fmap option_fmap option_map]. destruct (decide (i = prev)) as [->|Hi].
    + by rewrite lookup_insert_eq, Hx, decide_True.
    + rewrite lookup_insert_ne by done. destruct (heap (nt_hub n) !! i); [|done]. rewrite decide_False by congruence. done.
  - destruct (heap (nt_hub n) !! i); [|done]. by rewrite decide_False.
Qed.

Lemma take_register_ok n id rest c replaced : net_ok n -> q_register (nt_q n) = id :: rest -> heap (nt_hub n) !! id = Some c -> EType replaced = EventSessionReplaced ->
  net_ok (take_register n c rest replaced).
Proof.
  intros Hok Hq Hid Hr. pose proof (take_accepted n id rest c replaced) as Hacc. pose proof Hok as [Hh Hc Hcli Hrm Hp Hn Hd Hl]. rewrite Hq in Hh.
  destruct (take_heap _ _ _ _ replaced Hh Hid) as [Ec Hlk].
  split; [| | | | | |exact Hd|exact Hl]; cbn [nt_hub take_register nt_q q_register].
  - by eapply hub_ok_take.
  - intros i x Hx. rewrite Hlk in Hx. specialize (Hacc i Hok Hq Hid). destruct (heap (nt_hub n) !! i) as [x0|] eqn:Ei; [|by destruct (decide _)].
    specialize (Hc i x0 Ei). case_decide as Hd'.
    + injection Hx as <-. apply (evict_conn n i x0 replaced); try done. by eapply hb_bounded.
    + injection Hx as <-. unfold conn_ok in *. rewrite Hacc. exact Hc.
  - intros i Hi. assert (i ∈ clients (nt_hub n) \/ i ∈ q_register (nt_q n)) as Hold.
    { rewrite Hq. destruct Hi as [Hi|Hi]; [|right; by right]. apply register_clients in Hi as [->|[Hi _]]; [right; rewrite Ec; by left|by left]. }
    exact (Hcli i Hold).
  - intros i Hi. destruct (Hrm i Hi) as [Hno [x Hx]]. split; [done|]. rewrite Hlk, Hx. case_decide; by eexists.
  - intros i Hi. destruct (Hp i Hi) as [x Hx]. rewrite Hlk, Hx. case_decide; by eexists.
  - intros i Hi. rewrite Hlk in Hi. assert (heap (nt_hub n) !! i = None) as Hnone by (case_decide; [by destruct (heap (nt_hub n) !! i)|done]).
    rewrite Hacc, Hnone by done. by apply Hn.
Qed.

Lemma unregister_heap h id i x : heap (Hub.unregister h id) !! i = Some x -> exists x0, heap h !! i = Some x0 /\ (x = x0 \/ i = id /\ i ∈ clients h /\ x = Close x0).
Proof.
  unfold Hub.unregister. destruct (heap h !! id) as [c|] eqn:Hid; [|eauto]. case_decide; [|by eauto]. cbn.
  destruct (decide (i = id)) as [->|Hi]; [rewrite lookup_alter_eq, Hid; intros [= <-]; eauto 8|]. rewrite lookup_alter_ne by done. eauto.
Qed.

Lemma take_unregister_ok n id rest : net_ok n -> q_unregister (nt_q n) = id :: rest -> net_ok (take_unregister n id rest).
Proof.
  intros [Hh Hc Hcli Hrm Hp Hn Hd Hl] Hq. destruct (Hrm id) as [Hnp _]; [rewrite Hq; by left|].
  assert (forall i, is_Some (heap (nt_hub n) !! i) -> is_Some (heap (Hub.unregister (nt_hub n) id) !! i)) as Hkeep.
  { intros i [x Hx]. unfold Hub.unregister. destruct (heap (nt_hub n) !! id) as [c|]; [|by exists x]. case_decide; [|by exists x].
    cbn. rewrite lookup_alter. case_decide; subst; rewrite Hx; by eexists. }
  split; [| | | | | |exact Hd|exact Hl]; cbn [nt_hub take_unregister nt_q q_register].
  - by apply hub_ok_unregister.
  - intros i x Hx. destruct (unregister_heap _ _ _ _ Hx) as (x0 & Hx0 & [->|(-> & _ & ->)]); [exact (Hc i x0 Hx0)|].
    specialize (Hc id x0 Hx0). unfold conn_ok in *. cbn [nt_pumps take_unregister]. rewrite Hnp in *. destruct Hc as (C1 & C2 & C3).
    split_and!; [done|done|]. destruct C3 as (e & r & E & He). exists e, r. split; [done|]. naive_solver.
  - intros i Hi. assert (i ∈ clients (nt_hub n) /\ i <> id \/ i ∈ q_register (nt_q n)) as Hold.
    { destruct Hi as [Hi|Hi]; [left|by right]. unfold Hub.unregister in Hi. destruct (heap (nt_hub n) !! id) as [c|] eqn:Ei.
      - case_decide as Hin; [cbn in Hi; set_solver|]. split; [done|]. by intros ->.
      - split; [done|]. intros ->. destruct (hb_current _ _ Hh id Hi) as (x & Hx & _). congruence. }
    unfold accounted in *. cbn [nt_pumps take_unregister nt_q q_unregister q_early].
    assert (is_Some (nt_pumps n !! i) \/ i ∈ id :: rest \/ i ∈ q_early (nt_q n)) as Ha by (rewrite <-Hq; apply Hcli; tauto).
    destruct Ha as [|[[->|Hr]%elem_of_cons|He]]; [by left| |right; by left|].
    + right; right. destruct Hold as [[_ ?]|Hreg]; [done|]. rewrite decide_True by done. set_solver.
    + right; right. case_decide; set_solver.
  - intros i Hi. cbn in Hi. destruct (Hrm i) as [Hno Hs]; [rewrite Hq; by right|]. split; [done|by apply Hkeep].
  - intros i Hi. apply Hkeep. by apply Hp.
  - intros i Hi. apply Hn. destruct (heap (nt_hub n) !! i) as [x|] eqn:E; [|done]. exfalso. unfold Hub.unregister in Hi.
    destruct (heap (nt_hub n) !! id) as [c|]; [|congruence]. case_decide; [cbn in Hi|congruence]. rewrite lookup_alter in Hi. case_decide; subst; rewrite E in Hi; done.
Qed.

Lemma teardown_ok n id p : net_ok n -> nt_pumps n !! id = Some p -> pm_greeted p = true -> net_ok (teardown n id (pm_sid p)).
Proof.
  intros [Hh Hc Hcli Hrm Hpu Hn Hd Hl] Hp Hg. split; [exact Hh| | | | |exact Hn|exact Hd|exact Hl]; cbn [nt_hub nt_pumps teardown].
  - intros i x Hx. specialize (Hc i x Hx). unfold conn_ok in *. cbn [nt_pumps teardown].
    change (accepted_of (teardown n id (pm_sid p)) i) with (accepted_of n i). change (wire_of (teardown n id (pm_sid p)) i) with (wire_of n i).
    destruct (decide (i = id)) as [->|Hi]; [|rewrite lookup_delete_ne by done; exact Hc].
    rewrite lookup_delete_eq. rewrite Hp, Hg in Hc. destruct Hc as (C1 & C2 & _ & _ & _ & C3). by split_and!.
  - intros i Hi. specialize (Hcli i Hi). unfold accounted in *. cbn [nt_pumps teardown nt_q q_unregister q_early]. rewrite elem_of_app, list_elem_of_singleton.
    destruct (decide (i = id)) as [->|Hne]; [auto|]. rewrite lookup_delete_ne by done. tauto.
  - cbn [nt_q q_unregister]. intros i [Hi| ->%list_elem_of_singleton]%elem_of_app; [|split; [apply lookup_delete_eq|apply Hpu; by rewrite Hp]].
    destruct (Hrm i Hi) as [Hno Hs]. split; [|done]. destruct (decide (i = id)) as [->|Hne]; [apply lookup_delete_eq|by rewrite lookup_delete_ne].
  - intros i Hi. destruct (decide (i = id)) as [->|Hne]; [rewrite lookup_delete_eq in Hi; by destruct Hi|]. rewrite lookup_delete_ne in Hi by done. by apply Hpu.
Qed.

Lemma net_step_ok n ev n' : net_ok n -> net_step n ev = Some n' -> net_ok n'.
Proof.
  intros Hok.
  destruct ev as [c|rep|id hello pd|id e pd|id|id ok|id ok|id|id| |id|id|d|sid id|o]; cbn [net_step].
  - destruct (_ && _) eqn:Hg; [|done]. intros [= <-].
    apply andb_prop in Hg as [[[[Hg1%bool_decide_eq_true Hg2%negb_true_iff]%andb_prop Hg3%bool_decide_eq_true]%andb_prop Hg4%Nat.eqb_eq]%andb_prop _]. by apply connect_ok.
  - destruct (q_register (nt_q n)) as [|id rest] eqn:Eq; [done|]. destruct (heap (nt_hub n) !! id) as [c|] eqn:Ec; [cbn|done].
    destruct (String.eqb_spec (EType rep) EventSessionReplaced); [|done]. intros [= <-]. by eapply take_register_ok.
  - destruct (nt_pumps n !! id) as [p|] eqn:Ep; [cbn|done]. destruct (heap (nt_hub n) !! id) as [c|] eqn:Ec; [cbn|done].
    destruct (pm_greeted p) eqn:Eg; [done|]. cbn. destruct (String.eqb_spec (EType hello) EventHello); [cbn|done]. intros [= <-]. by apply greet_ok.
  - destruct (heap (nt_hub n) !! id) as [c|] eqn:Ec; [cbn|done]. destruct (nt_pumps n !! id) as [p|] eqn:Ep.
    + destruct (pm_greeted p) eqn:Eg; [|done]. intros [= <-]. apply emit_ok; [done|done|]. intros p'. rewrite Ep. by intros [= <-].
    + intros [= <-]. apply emit_ok; [done|done|]. by rewrite Ep.
  - destruct (nt_pumps n !! id) as [p|] eqn:Ep; [cbn|done]. destruct (heap (nt_hub n) !! id) as [c|] eqn:Ec; [cbn|done].
    destruct (pm_greeted p) eqn:Eg; [cbn|done]. destruct (reading p); [|done]. intros [= <-]. by apply read_end_ok.
  - destruct (nt_pumps n !! id) as [p|] eqn:Ep; [cbn|done]. destruct (heap (nt_hub n) !! id) as [c|] eqn:Ec; [cbn|done].
    destruct (pm_greeted p) eqn:Eg; [cbn|done]. destruct (writing p) eqn:Ew; [|done]. destruct (Send c) as [|e q] eqn:Eq; [done|]. intros [= <-].
    destruct ok; [apply (write_ok n _ id p c (with_send c q) [WText e] true)|apply (write_ok n _ id p c (with_send c q) [] false)]; try done.
    + exists [e]. rewrite Eq. split_and!; [done|by left|done].
    + cbn. intros i. apply same_decide. by rewrite <-(pump_id p true).
    + apply (frame_wire (mkNet _ _ _ _ _ _ _)).
    + exists [e]. rewrite Eq. split_and!; [done|by right|done].
    + cbn. intros i. apply insert_decide.
    + intros i. apply (no_frame_wire n).
  - destruct (nt_pumps n !! id) as [p|] eqn:Ep; [cbn|done]. destruct (ok_pump n Hok id) as [c Ec]; [by rewrite Ep|].
    destruct (pm_greeted p) eqn:Eg; [cbn|done]. destruct (writing p) eqn:Ew; [|done]. intros [= <-].
    destruct ok; [apply (write_ok n _ id p c c [WPing] true)|apply (write_ok n _ id p c c [] false)]; try done.
    + exists []. split_and!; [done|by left|done].
    + by apply set_client_id.
    + cbn. intros i. apply same_decide. by rewrite <-(pump_id p true).
    + apply frame_wire.
    + exists []. split_and!; [done|by left|done].
    + by apply set_client_id.
    + cbn. intros i. apply insert_decide.
    + intros i. apply (no_frame_wire n).
  - destruct (nt_pumps n !! id) as [p|] eqn:Ep; [cbn|done]. destruct (heap (nt_hub n) !! id) as [c|] eqn:Ec; [cbn|done].
    destruct (pm_greeted p) eqn:Eg; [cbn|done]. destruct (writing p) eqn:Ew; [cbn|done]. destruct (closed c); [|done]. intros [= <-].
    apply (write_ok n _ id p c c [WClose] false); try done.
    + exists []. split_and!; [done|by left|done].
    + by apply set_client_id.
    + cbn. intros i. apply insert_decide.
    + apply frame_wire.
  - destruct (nt_pumps n !! id) as [p|] eqn:Ep; [cbn|done]. destruct (pm_greeted p) eqn:Eg; [cbn|done]. destruct (_ && _); [|done].
    intros [= <-]. by apply teardown_ok.
  - destruct (q_unregister (nt_q n)) as [|id rest] eqn:Eq; [done|]. intros [= <-]. by apply take_unregister_ok.
  - destruct (q_leaving (nt_q n) !! id) as [[sid|sid]|]; try done. intros [= <-]. destruct Hok as [? ? ? ? ? ? Hdm ?]. split; try done. cbn.
    intros r. destruct (nt_daemons n) as [r0|]; [|done]. intros [= <-]. exact (proj1 (stop_targets_spec (ListDaemons r0 sid) r0 (Hdm r0 eq_refl))).
  - destruct (q_leaving (nt_q n) !! id) as [[sid|sid]|]; try done. intros [= <-]. destruct Hok as [? ? ? ? ? ? ? Hl]. split; try done. cbn.
    intros g. destruct (nt_lsp n) as [g0|]; [|done]. intros [= <-]. by apply StopAll_inv, Hl.
  - destruct (nt_daemons n) as [r|] eqn:Er; [cbn|done]. case_bool_decide as Hd; [|done]. intros [= <-]. destruct Hok as [? ? ? ? ? ? Hdm ?]. split; try done.
    cbn. intros r' [= <-]. by apply Register_wf, Hd; apply Hdm.
  - destruct (nt_daemons n) as [r|] eqn:Er; [cbn|done]. intros [= <-]. destruct Hok as [? ? ? ? ? ? Hdm ?]. split; try done. cbn. intros r' [= <-]. by apply Stop_wf, Hdm.
  - destruct (nt_lsp n) as [g|] eqn:Eg; [cbn|done]. intros [= <-]. destruct Hok as [? ? ? ? ? ? ? Hl]. split; try done. cbn. intros g' [= <-]. by apply reg_step_inv, Hl.
Qed.

Lemma reachable_ok dm lsp n : (forall r, dm = Some r -> reg_wf r) -> (forall g, lsp = Some g -> reg_inv [] g) -> reachable (start dm lsp) n -> net_ok n.
Proof.
  intros Hd Hl Hr. induction Hr as [|n n' ev _ IH Hs]; [|by eapply net_step_ok].
  split; try done.
  - split; try done; cbn; intros *; rewrite ?lookup_empty; try done; [set_solver|]. apply NoDup_nil_2.
  - cbn. intros id [Hi|Hi]; set_solver.
  - cbn. intros id Hi. by apply elem_of_nil in Hi.
  - intros id Hid. cbn in Hid. rewrite lookup_empty in Hid. by destruct Hid.
Qed.

Lemma stopped_daemons r sid id d : reg_wf r -> daemons (Daemon.StopAllForSession r sid).1 !! id = Some d -> d_SessionID d <> sid.
Proof.
  intros Hr Hd Hs. destruct (stop_targets_spec (ListDaemons r sid) r Hr) as (_ & _ & Hl).
  change (Daemon.StopAllForSession r sid).1 with (stop_targets (ListDaemons r sid) r) in Hd. rewrite Hl in Hd. case_decide as Hin; [done|].
  apply Hin, list_elem_of_fmap. exists d. pose proof (proj1 Hr _ _ Hd) as <-. split; [done|]. by apply ListDaemons_spec.
Qed.

(** What is left when a connection's goroutine has returned: its removal waits in
    the hub's channel. *)
Record gone (n : net) (id sid : string) : Prop := {
  gone_pump : nt_pumps n !! id = None;
  gone_leaving : q_leaving (nt_q n) !! id = None;
  gone_removal : id ∈ q_unregister (nt_q n);
  gone_daemons : forall r d i, nt_daemons n = Some r -> daemons r !! i = Some d -> d_SessionID d <> sid;
  gone_lsp : forall g p pr, nt_lsp n = Some g -> g_procs g !! p = Some pr -> p_sid pr = sid -> p_closed pr = true }.

(** The steps that a connection whose reader has ended still has before it. *)
Definition last_steps (id : string) (p : pump) : list net_event :=
  (if writing p then [WriteClosed id] else []) ++ [Unregister id; StopDaemons id; StopServers id].

Lemma leaving_finishes n id p : net_ok n -> nt_pumps n !! id = Some p -> pm_greeted p = true -> reading p = false -> writing p = false ->
  length (q_unregister (nt_q n)) < hub_buf ->
  exists n', run_net n [Unregister id; StopDaemons id; StopServers id] = Some n' /\ gone n' id (pm_sid p).
Proof.
  intros Hok Hp Hg Hrd Hw Hroom. cbn [run_net net_step]. rewrite Hp. cbn [mbind option_bind]. rewrite Hg, Hrd, Hw, (proj2 (Nat.ltb_lt _ _) Hroom). cbn [andb negb mbind option_bind].
  cbn [q_leaving nt_q teardown]. rewrite lookup_insert_eq. cbn [mbind option_bind q_leaving nt_q stop_daemons]. rewrite lookup_insert_eq. cbn [mbind option_bind].
  eexists. split; [reflexivity|]. split; cbn.
  - apply lookup_delete_eq.
  - apply lookup_delete_eq.
  - apply elem_of_app. right. by left.
  - intros r d i. destruct (nt_daemons n) as [r0|] eqn:Er; [|done]. intros [= <-]. apply stopped_daemons. by apply (ok_daemons n Hok).
  - intros g q pr. destruct (nt_lsp n) as [g0|] eqn:Eg; [|done]. intros [= <-]. apply StopAll_closed. by apply (ok_lsp n Hok).
Qed.

(** C7: Connections deliver in order and end cleanly.  In every state that connections, handlers, pumps and the hub's goroutine can reach, in any interleaving and with the requests to register and to remove a client waiting in the hub's two channels until it takes them: a session is routed to a client of that session, and unless the hub took that client's removal before its registration (which it can, and which leaves the client routed for good), the client's goroutines run or its removal is waiting; a client that is neither registered nor waiting to be has been told to stop; what was written to a socket is a prefix of what its channel accepted, and the first envelope is its hello, or the notice that it was replaced before it was greeted; a connection whose reader has ended can finish with at most four steps of its own whenever the removal channel has room, after which its goroutines and every daemon and language server registered for its session are gone and its removal is on its way to the hub; and the hub can always take the next removal, after which that client is not registered. *)
Theorem connections_deliver_and_end_cleanly dm lsp n :
  (forall r, dm = Some r -> reg_wf r) -> (forall g, lsp = Some g -> reg_inv [] g) -> reachable (start dm lsp) n ->
  (forall sid id, bySID (nt_hub n) !! sid = Some id -> exists c, heap (nt_hub n) !! id = Some c /\ cSID c = sid /\
     ((exists p, nt_pumps n !! id = Some p /\ pm_sid p = sid) \/ id ∈ q_unregister (nt_q n) \/ id ∈ q_early (nt_q n))) /\
  (forall id c, heap (nt_hub n) !! id = Some c -> id ∉ clients (nt_hub n) -> id ∉ q_register (nt_q n) -> closed c = true) /\
  (forall id, texts (wire_of n id) `prefix_of` accepted_of n id /\
     forall e, head (texts (wire_of n id)) = Some e -> EType e = EventHello \/ EType e = EventSessionReplaced) /\
  (forall id p, nt_pumps n !! id = Some p -> pm_greeted p = true -> reading p = false -> length (q_unregister (nt_q n)) < 8 ->
     exists n', run_net n (last_steps id p) = Some n' /\ gone n' id (pm_sid p)) /\
  (forall id rest, q_unregister (nt_q n) = id :: rest ->
     exists n', net_step n HubUnregister = Some n' /\ q_unregister (nt_q n') = rest /\ id ∉ clients (nt_hub n')).
Proof.
  intros Hd Hl Hr. pose proof (reachable_ok dm lsp n Hd Hl Hr) as Hok. split_and!.
  - intros sid id Hs. destruct (hb_routed _ _ (ok_hub n Hok) _ _ Hs) as [Hin (c & Hc & Hsid)]. exists c. split; [done|]. split; [done|].
    destruct (ok_client n Hok id (or_introl Hin)) as [[p Hp]|Ha]; [left|by right]. exists p. split; [done|].
    pose proof (ok_conn n Hok id c Hc) as (_ & _ & C). rewrite Hp in C. destruct C as (C & _). congruence.
  - apply (ok_hub n Hok).
  - intros id. destruct (heap (nt_hub n) !! id) as [c|] eqn:Hc; [|destruct (ok_new n Hok id Hc) as [-> ->]; split; [done|by intros e]].
    pose proof (ok_conn n Hok id c Hc) as (_ & C2 & C3). split; [exact C2|]. intros e He. destruct (texts (wire_of n id)) as [|e' l] eqn:Et; [done|]. cbn in He. injection He as ->.
    destruct C2 as [rest Hacc]. cbn in Hacc. destruct (nt_pumps n !! id) as [p|].
    + destruct C3 as (_ & _ & _ & C3). destruct (pm_greeted p); [|by destruct C3 as (_ & _ & ? & _)]. destruct C3 as (x & y & E & Hx). rewrite Hacc in E. naive_solver.
    + destruct C3 as (x & y & E & Hx). rewrite Hacc in E. naive_solver.
  - intros id p Hp Hg Hrd Hroom. destruct (ok_pump n Hok id) as [c Hc]; [by rewrite Hp|].
    pose proof (ok_conn n Hok id c Hc) as (_ & _ & C). rewrite Hp in C. destruct C as (_ & Hcl & _). specialize (Hcl Hrd).
    unfold last_steps. destruct (writing p) eqn:Hw; [|by apply leaving_finishes].
    set (n1 := set_pump (put_frame n id WClose) id (mkPump (pm_sid p) true (reading p) false)).
    assert (net_step n (WriteClosed id) = Some n1) as E1 by (cbn [net_step]; rewrite Hp; cbn; rewrite Hc; cbn; by rewrite Hg, Hw, Hcl).
    cbn [app]. change (run_net n (WriteClosed id :: ?l)) with (n' ← net_step n (WriteClosed id); run_net n' l). rewrite E1. cbn [mbind option_bind].
    change (pm_sid p) with (pm_sid (mkPump (pm_sid p) true (reading p) false)). apply leaving_finishes; try done; [by eapply net_step_ok|]. cbn. by rewrite lookup_insert_eq.
  - intros id rest Hq. eexists. cbn [net_step]. rewrite Hq. split; [reflexivity|]. split; [done|]. cbn.
    destruct (ok_removed n Hok id) as [_ [c Hc]]; [rewrite Hq; by left|]. unfold Hub.unregister. rewrite Hc. case_decide; [cbn; set_solver|done].
Qed.

(** ** Concrete connections *)

Definition demo_conn (id : string) : Client := NewClientWithScopes id "s" "alice" [] send_buf.
Definition demo_env (typ : string) : Envelope := mkEnvelope typ typ 0 "" None.
Definition demo_register : net_event := HubRegister (demo_env EventSessionReplaced).
Definition two_connections : list net_event :=
  [Connect (demo_conn "c1"); Greet "c1" (demo_env EventHello) false; demo_register; WriteNext "c1" true;
   Connect (demo_conn "c2"); demo_register; Greet "c2" (demo_env EventHello) false; DaemonStarted (mkDaemon "d2" "s" "npm start" 0);
   WriteNext "c1" true; WriteClosed "c1"; ReadEnds "c1"].

Definition demo_net : net := start (Some NewDaemonRegistry) None.
Definition run_demo (l : list net_event) : net := default demo_net (run_net demo_net l).

Lemma run_reachable n0 l : forall n n', reachable n0 n -> run_net n l = Some n' -> reachable n0 n'.
Proof.
  induction l as [|ev l IH]; intros n n' Hr; cbn [run_net]; [by intros [= <-]|].
  destruct (net_step n ev) as [n1|] eqn:Es; [|done]. apply IH. by eapply reach_step.
Qed.

Lemma connections_deliver_and_end_cleanly_witness :
  let n := run_demo two_connections in
  texts (wire_of n "c1") = [demo_env EventHello; demo_env EventSessionReplaced] /\ texts (wire_of n "c1") `prefix_of` accepted_of n "c1" /\
  exists n', run_net n [Unregister "c1"; StopDaemons "c1"; StopServers "c1"] = Some n' /\ gone n' "c1" "s".
Proof.
  intros n. assert (reachable demo_net n) as Hr by (apply (run_reachable demo_net two_connections demo_net); [constructor|vm_compute; reflexivity]).
  assert (exists p, nt_pumps n !! "c1" = Some p /\ p = mkPump "s" true false false) as (p & Hp & Ep) by (eexists; split; [vm_compute; reflexivity|reflexivity]).
  destruct (connections_deliver_and_end_cleanly (Some NewDaemonRegistry) None n) as (_ & _ & Hw & Ht & _).
  - intros r [= <-]. apply NewDaemonRegistry_wf.
  - discriminate.
  - exact Hr.
  - split; [vm_compute; reflexivity|]. split; [apply Hw|]. specialize (Ht "c1" p Hp). rewrite Ep in Ht. apply (Ht eq_refl eq_refl). vm_compute. lia.
Defined.

(** ** What modelling showed *)

(** The hub's select may take a removal before the registration that was sent
    first: the client is then registered after its connection has ended, and its
    session is routed to it although nobody writes what it is sent. *)
Lemma removal_overtakes_registration :
  let n := run_demo [Connect (demo_conn "c1"); Greet "c1" (demo_env EventHello) false; ReadEnds "c1"; WriteClosed "c1";
                     Unregister "c1"; StopDaemons "c1"; StopServers "c1"; HubUnregister; demo_register] in
  bySID (nt_hub n) !! "s" = Some "c1" /\ nt_pumps n = ∅ /\ q_unregister (nt_q n) = [] /\ q_register (nt_q n) = [] /\ q_early (nt_q n) = {["c1"]} /\
  (SendToSession (nt_hub n) "s" (demo_env "x")).2 = Ok tt.
Proof. vm_compute. done. Qed.

(** The teardown of a connection that was replaced stops the daemons of the
    connection that replaced it. *)
Lemma replaced_connection_stops_live_daemons :
  let n := run_demo two_connections in
  let n' := run_demo (two_connections ++ [Unregister "c1"; HubUnregister; StopDaemons "c1"; StopServers "c1"]) in
  bySID (nt_hub n') !! "s" = Some "c2" /\ (d_ID <$> from_option (fun r => ListDaemons r "s") [] (nt_daemons n)) = ["d2"] /\
  (d_ID <$> from_option signalled [] (nt_daemons n')) = ["d2"] /\ from_option (fun r => ListDaemons r "s") [] (nt_daemons n') = [].
Proof. vm_compute. done. Qed.

(** A handler that starts its daemon after the teardown leaves it running with no
    connection. *)
Lemma late_daemon_outlives_its_connection :
  let n := run_demo [Connect (demo_conn "c1"); demo_register; Greet "c1" (demo_env EventHello) false; ReadEnds "c1"; WriteClosed "c1";
                     Unregister "c1"; HubUnregister; StopDaemons "c1"; StopServers "c1"; DaemonStarted (mkDaemon "d1" "s" "npm start" 0)] in
  nt_pumps n = ∅ /\ bySID (nt_hub n) = ∅ /\ (d_ID <$> from_option (fun r => ListDaemons r "s") [] (nt_daemons n)) = ["d1"].
Proof. vm_compute. done. Qed.

(** A write pump that failed leaves the connection registered and reading; what
    is sent to it fills its channel and is then dropped. *)
Lemma failed_writer_keeps_the_connection :
  let n := run_demo ([Connect (demo_conn "c1"); demo_register; Greet "c1" (demo_env EventHello) false; WriteNext "c1" false] ++
                     replicate 70 (Emit "c1" (demo_env "x") false)) in
  bySID (nt_hub n) !! "s" = Some "c1" /\ nt_pumps n !! "c1" = Some (mkPump "s" true true false) /\ wire_of n "c1" = [] /\
  length (accepted_of n "c1") = 65 /\ net_step n (WriteClosed "c1") = None /\ net_step n (Unregister "c1") = None.
Proof. vm_compute. done. Qed.
