(* ===== verification/Compactor.v ===== *)
(** * The history janitor (internal/history/summarizer.go)

    The HTTP summarizer and the sweep that compacts every session (History.v
    models one compaction).  The order of the sweep is the table's; the
    cancellation of its context and the answers of the service are arguments. *)

From S2P Require Import Prelude GoString GoConv Table History.

(** ** The summarizer *)

Record summary_turn := mkSummaryTurn { st_Role : string; st_Text : string; st_TS : Z }.

(** The wire shape; the turns that [Compact] passes carry the extracted text. *)
Definition request_turns (turns : list Turn) : list summary_turn := (fun t => mkSummaryTurn (Role t) (Parts t) (default 0%Z (TTS t))) <$> turns.

(** The transport's error, or the status and the body. *)
Inductive http_answer := Failed (e : string) | Answered (status : Z) (body : string).

Section summarizer.
Variable marshal : list summary_turn -> option string.
Variable decode_summary : string -> option string.

Definition summary_headers (auth : string) : list (string * string) :=
  ("Content-Type", "application/json") :: if String.eqb auth "" then [] else [("Authorization", auth)].

Definition Summarize (url : string) (post : string -> http_answer) (turns : list Turn) : result string string :=
  if String.eqb url "" then Err "history: summarizer URL not configured"
  else match marshal (request_turns turns) with
  | None => Err "history: marshal summary request"
  | Some body =>
      match post body with
      | Failed e => Err ("history: summary request: " +:+ e)
      | Answered st b =>
          if ((st <? 200) || (300 <=? st))%Z then Err ("history: summary response " +:+ Itoa st +:+ ": " +:+ str_take 4096 b)
          else match decode_summary b with
               | None => Err "history: decode summary response"
               | Some s => if String.eqb (TrimSpace s) "" then Err "history: empty summary in response" else Ok s
               end
      end
  end.
End summarizer.

(** ** The sweep *)

Section sweep.
Variable unmarshal_text : string -> option string.
Variable marshalText : string -> string.
Variable summarize : string -> list Turn -> option string.             (* for the session that is compacted *)
Variable threshold : Z.

#[local] Abbreviation compact sid s := (Compact unmarshal_text marshalText (summarize sid) s sid threshold).

(** [SELECT DISTINCT sid FROM turns] *)
Definition distinctSIDs (s : SQLiteStore) : list string := elements (set_map fst (dom (turns s)) : gset string).

(** The loop of [runOnce]; [cancelled] is [ctx.Err() != nil] before each
    session.  An error is logged. *)
Fixpoint sweep (cancelled : list bool) (sids : list string) (s : SQLiteStore) : SQLiteStore :=
  match sids with
  | [] => s
  | sid :: rest => if default false (head cancelled) then s else sweep (tail cancelled) rest (compact sid s).1
  end.

Definition runOnce (list_err : bool) (cancelled : list bool) (s : SQLiteStore) : SQLiteStore :=
  if list_err then s else sweep cancelled (distinctSIDs s) s.

(** [RunJanitor]: a sweep per tick until the context ends. *)
Definition RunJanitor (interval : Z) (wired : bool) (ticks : list (bool * list bool)) (s : SQLiteStore) : SQLiteStore :=
  if (interval <=? 0)%Z || negb wired then s else foldl (fun s t => runOnce t.1 t.2 s) s ticks.

(** *** One session's part of the table *)

Definition same_session (s s' : SQLiteStore) (sid : string) : Prop := forall i, turns s' !! (sid, i) = turns s !! (sid, i).

(** The oldest [n] spoken turns, half of them all, gave way to one summary at
    the place of the first. *)
Definition session_compacted (s s' : SQLiteStore) (sid : string) (n : nat) : Prop :=
  exists i0 ts0 text,
    let victims := take n (fst <$> speech s sid) in
    head victims = Some i0 /\ n = length (speech s sid) / 2 /\
    forall i, turns s' !! (sid, i) = if decide (i = i0) then Some (mkRow RoleSystemSummary text ts0) else if decide (i ∈ victims) then None else turns s !! (sid, i).

Lemma same_speech s s' sid : same_session s s' sid -> speech s' sid = speech s sid.
Proof. intros Hs. unfold speech. by rewrite (rows_other _ _ _ Hs). Qed.

Lemma compact_sessions sid s : (forall sid', sid' <> sid -> same_session s (compact sid s).1 sid') /\
  (same_session s (compact sid s).1 sid \/ exists n, 0 < n /\ session_compacted s (compact sid s).1 sid n).
Proof.
  pose proof (Compact_spec unmarshal_text marshalText (summarize sid) s sid threshold) as Hc. destruct (compact sid s) as [s' r]. specialize (Hc s' r eq_refl). cbn [fst].
  destruct r as [[|n]|e]; [subst s'; split; [done|by left]| |destruct Hc as [-> _]; split; [done|by left]].
  destruct Hc as (i0 & ts0 & text & Hh & Hn & Hk). split.
  - intros sid' Hne i. rewrite Hk, !decide_False; [done|by intros [? _]|congruence].
  - right. exists (S n). split; [lia|]. exists i0, ts0, text. cbn zeta. split; [exact Hh|]. split; [exact Hn|]. intros i. rewrite Hk. cbn [fst snd].
    destruct (decide (i = i0)) as [->|Hi]; [by rewrite decide_True|]. rewrite decide_False by congruence. apply decide_ext. naive_solver.
Qed.

Lemma sweep_sessions sids : forall cancelled s, NoDup sids -> forall sid,
  (sid ∉ sids -> same_session s (sweep cancelled sids s) sid) /\
  (same_session s (sweep cancelled sids s) sid \/ exists n, 0 < n /\ session_compacted s (sweep cancelled sids s) sid n).
Proof.
  induction sids as [|x sids IH]; intros cancelled s Hnd sid; cbn [sweep]; [by split; [|left]|]. apply NoDup_cons in Hnd as [Hx Hnd].
  destruct (default false (head cancelled)); [by split; [|left]|]. destruct (compact_sessions x s) as [Ho Hs]. set (s1 := (compact x s).1) in *. clearbody s1.
  destruct (IH (tail cancelled) s1 Hnd sid) as [I1 I2]. split.
  - intros Hni. apply not_elem_of_cons in Hni as [Hne Hni]. intros i. rewrite (I1 Hni). by apply Ho.
  - destruct (decide (sid = x)) as [->|Hne].
    + assert (forall i, turns (sweep (tail cancelled) sids s1) !! (x, i) = turns s1 !! (x, i)) as He by (by apply I1).
      destruct Hs as [Hs|(n & Hn & i0 & ts0 & text & H1 & H2 & H3)]; [left; intros i; by rewrite He|right].
      exists n. split; [done|]. exists i0, ts0, text. cbn zeta. split; [done|]. split; [done|]. intros i. by rewrite He.
    + specialize (Ho sid Hne). destruct I2 as [I2|(n & Hn & i0 & ts0 & text & H1 & H2 & H3)]; [left; intros i; by rewrite I2|right].
      exists n. split; [done|]. exists i0, ts0, text. rewrite (same_speech _ _ _ Ho) in *. cbn zeta. split; [done|]. split; [done|]. intros i. by rewrite H3, Ho.
Qed.

(** A sweep touches each session at most once, whatever fails or is cancelled:
    its rows are as they were, or the older half of what was said gave way to one
    summary and every other row is as it was. *)
Theorem sweep_compacts_each_session_once list_err cancelled s sid : let s' := runOnce list_err cancelled s in
  same_session s s' sid \/ exists n, 0 < n /\ session_compacted s s' sid n.
Proof. unfold runOnce. destruct list_err; [by left|]. destruct (sweep_sessions (distinctSIDs s) cancelled s (NoDup_elements _) sid) as [_ Hs]. exact Hs. Qed.

(** A summarizer that fails leaves the table alone. *)
Lemma failing_summarizer_changes_nothing s list_err cancelled : (forall sid ts, summarize sid ts = None) -> runOnce list_err cancelled s = s.
Proof.
  intros Hf. unfold runOnce. destruct list_err; [done|]. generalize (distinctSIDs s) cancelled. intros l. induction l as [|x l IH]; intros c; [done|]. cbn [sweep].
  destruct (default false (head c)); [done|]. assert ((compact x s).1 = s) as -> by (unfold Compact; rewrite Hf; by repeat case_match). apply IH.
Qed.
End sweep.
