(* ===== verification/DbUtil.v ===== *)
(** * Database hygiene (internal/dbutil/dbutil.go) and the opening of the stores

    The integrity check, the forward-only migrations with their version number,
    and the four constructors that use them.  The SQL engine is a parameter: what
    a statement makes of the tables, if it succeeds.  A transaction is SQLite's:
    its statements and the version number take effect together or not at all. *)

From S2P Require Import Prelude GoString GoConv.

Section dbutil.
Context {D : Type}.
Variable exec : string -> D -> option D.

(** The tables, [PRAGMA user_version] and what [PRAGMA integrity_check] says. *)
Record db := mkDb { content : D; version : Z; integrity : string }.

Record Migration := mkMig { Version : Z; Stmts : list string }.

Inductive db_error :=
| ErrQuery (what : string)
| ErrIntegrityCheckFailed (result : string)
| ErrOrder (i : nat) (got want : Z)
| ErrSchemaTooNew (current highest : Z)
| ErrMigration (v : Z) (what : string)
| ErrPragma (p : string)
| ErrOpen.

(** What goes wrong apart from the statements themselves. *)
Inductive fault := FBegin | FStmt (i : nat) | FVersion | FCommit.

Definition IntegrityCheck (query_fails : bool) (d : db) : option db_error :=
  if query_fails then Some (ErrQuery "dbutil: integrity_check query")
  else if negb (String.eqb (integrity d) "ok") then Some (ErrIntegrityCheckFailed (integrity d)) else None.

(** The statements of a transaction, from number [i]. *)
Fixpoint exec_stmts (flt : option fault) (i : nat) (l : list string) (x : D) : result string D :=
  match l with
  | [] => Ok x
  | s :: rest =>
      if match flt with Some (FStmt j) => Nat.eqb i j | _ => false end then Err ("stmt " +:+ Itoa (Z.of_nat i))
      else match exec s x with None => Err ("stmt " +:+ Itoa (Z.of_nat i)) | Some x' => exec_stmts flt (S i) rest x' end
  end.

Definition applyOne (flt : option fault) (m : Migration) (d : db) : db * option string :=
  match flt with
  | Some FBegin => (d, Some "begin")
  | _ =>
      match exec_stmts flt 0 (Stmts m) (content d) with
      | Err e => (d, Some e)                                            (* Rollback *)
      | Ok x =>
          match flt with
          | Some FVersion => (d, Some "set user_version")
          | Some FCommit => (d, Some "commit")
          | _ => (mkDb x (Version m) (integrity d), None)
          end
      end
  end.

Fixpoint check_versions (i : nat) (migs : list Migration) : option db_error :=
  match migs with
  | [] => None
  | m :: rest => if negb (Version m =? Z.of_nat i + 1)%Z then Some (ErrOrder i (Version m) (Z.of_nat i + 1)) else check_versions (S i) rest
  end.

Fixpoint apply_pending (flt : Z -> option fault) (current : Z) (migs : list Migration) (d : db) : db * option db_error :=
  match migs with
  | [] => (d, None)
  | m :: rest =>
      if (Version m <=? current)%Z then apply_pending flt current rest d
      else match applyOne (flt (Version m)) m d with
           | (d', Some e) => (d', Some (ErrMigration (Version m) e))
           | (d', None) => apply_pending flt current rest d'
           end
  end.

Definition Migrate (read_fails : bool) (flt : Z -> option fault) (migs : list Migration) (d : db) : db * option db_error :=
  match migs with
  | [] => (d, None)
  | _ =>
      match check_versions 0 migs with
      | Some e => (d, Some e)
      | None =>
          if read_fails then (d, Some (ErrQuery "dbutil: read user_version"))
          else
            let highest := from_option Version 0%Z (last migs) in
            if (highest <? version d)%Z then (d, Some (ErrSchemaTooNew (version d) highest))
            else if (version d =? highest)%Z then (d, None)
            else apply_pending flt (version d) migs d
      end
  end.

(** ** The stores *)

(** What the environment makes fail while a store is opened. *)
Record opening := mkOpening { open_fails : bool; pragma_fails : string -> bool; check_fails : bool; read_version_fails : bool; migration_faults : Z -> option fault }.

(** [db.Exec] of each pragma, up to the first that fails. *)
Fixpoint set_pragmas (o : opening) (l : list string) : option db_error :=
  match l with [] => None | p :: rest => if pragma_fails o p then Some (ErrPragma p) else set_pragmas o rest end.

(** The part the four constructors share; [None] is an open store, and an error
    carries the text it is wrapped in. *)
Definition check_and_migrate (checking migrating : string) (o : opening) (migs : list Migration) (d : db) : db * option (string * db_error) :=
  match IntegrityCheck (check_fails o) d with
  | Some e => (d, Some (checking, e))
  | None => match Migrate (read_version_fails o) (migration_faults o) migs d with (d', Some e) => (d', Some (migrating, e)) | (d', None) => (d', None) end
  end.

Definition history_migrations : list Migration :=
  [mkMig 1 ["CREATE TABLE IF NOT EXISTS turns (
                sid        TEXT    NOT NULL,
                turn_idx   INTEGER NOT NULL,
                role       TEXT    NOT NULL,
                parts_json BLOB    NOT NULL,
                ts         INTEGER NOT NULL,
                PRIMARY KEY (sid, turn_idx)
            )"; "CREATE INDEX IF NOT EXISTS turns_sid_ts ON turns(sid, ts)"]].

Definition store_pragmas : list string := ["PRAGMA journal_mode=WAL"; "PRAGMA busy_timeout=5000"; "PRAGMA synchronous=NORMAL"].

Definition NewHistoryStore (o : opening) (d : db) : db * option (string * db_error) :=
  if open_fails o then (d, Some ("history: open", ErrOpen))
  else match set_pragmas o store_pragmas with
  | Some e => (d, Some ("history: pragma", e))
  | None => check_and_migrate "history" "history: migrate" o history_migrations d
  end.

Definition session_migrations : list Migration :=
  [mkMig 1 ["CREATE TABLE IF NOT EXISTS sessions (
                sid        TEXT    PRIMARY KEY,
                created_at INTEGER NOT NULL,
                last_seen  INTEGER NOT NULL
            )"; "CREATE TABLE IF NOT EXISTS session_events (
                sid      TEXT    NOT NULL,
                idx      INTEGER NOT NULL,
                env_id   TEXT    NOT NULL,
                env_json BLOB    NOT NULL,
                size     INTEGER NOT NULL,
                ts       INTEGER NOT NULL,
                PRIMARY KEY (sid, idx)
            )"; "CREATE INDEX IF NOT EXISTS session_events_sid_env_id
                ON session_events(sid, env_id)"]].

Definition NewSessionStore (o : opening) (d : db) : db * option (string * db_error) :=
  if open_fails o then (d, Some ("session: open", ErrOpen))
  else match set_pragmas o store_pragmas with
  | Some e => (d, Some ("session: pragma", e))
  | None => check_and_migrate "session" "session: migrate" o session_migrations d
  end.

Definition revocationMigrations : list Migration :=
  [mkMig 1 ["CREATE TABLE IF NOT EXISTS revoked_tokens (
                jti    TEXT    PRIMARY KEY,
                exp_at INTEGER NOT NULL
            ) STRICT"; "CREATE INDEX IF NOT EXISTS idx_revoked_tokens_exp ON revoked_tokens(exp_at)"]].

(** The pragmas are part of the file name here, so every connection has them. *)
Definition NewSQLiteRevocationList (o : opening) (d : db) : db * option (string * db_error) :=
  if open_fails o then (d, Some ("auth: open revocation db", ErrOpen)) else check_and_migrate "auth: revocation db" "auth: revocation migrate" o revocationMigrations d.

Definition webauthn_migrations : list Migration :=
  [mkMig 1 ["CREATE TABLE IF NOT EXISTS webauthn_credentials (
                sub            TEXT    NOT NULL,
                credential_id  BLOB    NOT NULL,
                public_key     BLOB    NOT NULL,
                sign_count     INTEGER NOT NULL,
                transport      TEXT    NOT NULL,
                attest_type    TEXT    NOT NULL,
                created_at     INTEGER NOT NULL,
                PRIMARY KEY (sub, credential_id)
            ) STRICT"; "CREATE INDEX IF NOT EXISTS idx_webauthn_credentials_sub
                ON webauthn_credentials(sub)"]].

Definition NewWebauthnStore (o : opening) (d : db) : db * option (string * db_error) :=
  if open_fails o then (d, Some ("webauthn: open", ErrOpen)) else check_and_migrate "webauthn" "webauthn: migrate" o webauthn_migrations d.

(** *** What the versions mean *)

(** The tables after the first [k] migrations, from the tables of an empty file. *)
Fixpoint schema (migs : list Migration) (k : nat) (x : D) : option D :=
  match k, migs with
  | O, _ => Some x
  | S k, m :: rest => match exec_stmts None 0 (Stmts m) x with Ok x' => schema rest k x' | Err _ => None end
  | S _, [] => None
  end.

(** The file was made by these migrations (or later ones of the same chain). *)
Definition on_chain (migs : list Migration) (x0 : D) (d : db) : Prop :=
  (0 <= version d)%Z /\ schema migs (Z.to_nat (version d)) x0 = Some (content d).

Lemma exec_stmts_faultless flt l : forall i x y, exec_stmts flt i l x = Ok y -> forall j, exec_stmts None j l x = Ok y.
Proof.
  induction l as [|s l IH]; intros i x y; cbn [exec_stmts]; [done|]. destruct (match flt with Some (FStmt j) => _ | _ => false end); [done|].
  destruct (exec s x) as [x'|]; [|done]. intros Hy j. by eapply IH.
Qed.

Lemma applyOne_spec flt m d d' e : applyOne flt m d = (d', e) ->
  match e with Some _ => d' = d | None => version d' = Version m /\ integrity d' = integrity d /\ exec_stmts None 0 (Stmts m) (content d) = Ok (content d') end.
Proof.
  unfold applyOne. intros Ha. destruct (exec_stmts flt 0 (Stmts m) (content d)) as [x|e0] eqn:Ex.
  - pose proof (exec_stmts_faultless _ _ _ _ _ Ex 0) as Hx. destruct flt as [[]|]; injection Ha as <- <-; done.
  - destruct flt as [[]|]; injection Ha as <- <-; done.
Qed.

Lemma check_versions_spec migs : forall i, check_versions i migs = None <-> forall j m, migs !! j = Some m -> Version m = (Z.of_nat (i + j) + 1)%Z.
Proof.
  induction migs as [|m migs IH]; intros i; cbn [check_versions]; [split; [by intros _ j m|done]|].
  destruct (Z.eqb_spec (Version m) (Z.of_nat i + 1)) as [E|E]; cbn [negb].
  - rewrite IH. split.
    + intros Ha [|j] m' Hj; [injection Hj as <-; rewrite Nat.add_0_r; exact E|]. rewrite (Ha j m' Hj). lia.
    + intros Ha j m' Hj. rewrite (Ha (S j) m' Hj). lia.
  - split; [done|]. intros Ha. exfalso. apply E. rewrite (Ha 0 m eq_refl). lia.
Qed.

Lemma schema_snoc migs : forall k m x, migs !! k = Some m ->
  schema migs (S k) x = match schema migs k x with Some y => match exec_stmts None 0 (Stmts m) y with Ok z => Some z | Err _ => None end | None => None end.
Proof.
  induction migs as [|m0 migs IH]; intros [|k] m x Hm; [done|done| |].
  - cbn in Hm. injection Hm as ->. cbn [schema]. by destruct (exec_stmts None 0 (Stmts m) x); destruct migs.
  - change (migs !! k = Some m) in Hm. cbn [schema]. destruct (exec_stmts None 0 (Stmts m0) x) as [x'|]; [|done]. exact (IH k m x' Hm).
Qed.

Lemma skip_applied flt cur pre rest d : Forall (fun m => Version m <= cur)%Z pre -> apply_pending flt cur (pre ++ rest) d = apply_pending flt cur rest d.
Proof. induction 1 as [|m pre Hm _ IH]; [done|]. cbn [app apply_pending]. by rewrite (proj2 (Z.leb_le _ _) Hm). Qed.

(** One more migration of the chain. *)
Lemma on_chain_step pre m rest x0 d d1 : on_chain (pre ++ m :: rest) x0 d -> version d = Z.of_nat (length pre) ->
  version d1 = (version d + 1)%Z -> exec_stmts None 0 (Stmts m) (content d) = Ok (content d1) -> on_chain (pre ++ m :: rest) x0 d1.
Proof.
  intros [Hp Hs] Hd V1 X1. split; [lia|]. rewrite V1. replace (Z.to_nat (version d + 1)) with (S (Z.to_nat (version d))) by lia.
  erewrite schema_snoc; [|rewrite lookup_app_r, Hd, Nat2Z.id, Nat.sub_diag by lia; reflexivity]. by rewrite Hs, X1.
Qed.

Lemma next_version pre m rest : check_versions 0 (pre ++ m :: rest) = None -> Version m = (Z.of_nat (length pre) + 1)%Z.
Proof. intros Hv. rewrite check_versions_spec in Hv. rewrite (Hv (length pre) m); [done|]. by rewrite lookup_app_r, Nat.sub_diag by lia. Qed.

(** The pending migrations, from the one after the file's version. *)
Lemma apply_pending_spec flt x0 cur rest : forall pre d d' e, check_versions 0 (pre ++ rest) = None -> version d = Z.of_nat (length pre) -> (cur <= version d)%Z ->
  on_chain (pre ++ rest) x0 d -> apply_pending flt cur rest d = (d', e) ->
  on_chain (pre ++ rest) x0 d' /\ (version d <= version d')%Z /\ integrity d' = integrity d /\
  match e with
  | None => version d' = Z.of_nat (length (pre ++ rest))
  | Some x => (version d' < Z.of_nat (length (pre ++ rest)))%Z /\ exists w, x = ErrMigration (version d' + 1) w
  end.
Proof.
  induction rest as [|m rest IH]; intros pre d d' e Hv Hd Hc Hon; cbn [apply_pending].
  - intros [= <- <-]. rewrite app_nil_r in *. by split_and!.
  - pose proof (next_version _ _ _ Hv) as Em. rewrite <-Hd in Em.
    rewrite (proj2 (Z.leb_gt (Version m) cur)) by lia. destruct (applyOne (flt (Version m)) m d) as [d1 [e1|]] eqn:Ea; apply applyOne_spec in Ea.
    + subst d1. intros [= <- <-]. split_and!; [done|lia|done|rewrite length_app; cbn; lia|]. exists e1. by rewrite Em.
    + destruct Ea as (V1 & I1 & X1). rewrite Em in V1. pose proof (on_chain_step _ _ _ _ _ _ Hon Hd V1 X1) as Hon1.
      intros Hrest. rewrite cons_middle, app_assoc in *. destruct (IH (pre ++ [m]) d1 d' e) as (R1 & R2 & R3 & R4); try done.
      * rewrite V1, Hd, length_app. cbn. lia.
      * lia.
      * split_and!; [done|lia|congruence|done].
Qed.

Lemma schema_prefix migs : forall k x y j, schema migs k x = Some y -> j <= k -> exists z, schema migs j x = Some z.
Proof.
  induction migs as [|m migs IH]; intros [|k] x y [|j]; cbn [schema]; try (by eauto || lia || done).
  destruct (exec_stmts None 0 (Stmts m) x) as [x'|]; [|done]. intros Hy Hj. eapply IH; [exact Hy|lia].
Qed.

(** When every migration of the chain works, the pending ones run to the end. *)
Lemma apply_pending_completes x0 y cur rest : forall pre d, check_versions 0 (pre ++ rest) = None -> version d = Z.of_nat (length pre) -> (cur <= version d)%Z ->
  on_chain (pre ++ rest) x0 d -> schema (pre ++ rest) (length (pre ++ rest)) x0 = Some y -> (apply_pending (fun _ => None) cur rest d).2 = None.
Proof.
  induction rest as [|m rest IH]; intros pre d Hv Hd Hc Hon Hy; [done|]. cbn [apply_pending].
  pose proof (next_version _ _ _ Hv) as Em. rewrite <-Hd in Em. rewrite (proj2 (Z.leb_gt (Version m) cur)) by lia.
  destruct (schema_prefix _ _ _ _ (S (length pre)) Hy) as [z Hz]; [rewrite length_app; cbn; lia|].
  rewrite (schema_snoc _ _ m) in Hz by (by rewrite lookup_app_r, Nat.sub_diag by lia). pose proof (proj2 Hon) as Hs. rewrite Hd, Nat2Z.id in Hs. rewrite Hs in Hz.
  unfold applyOne. destruct (exec_stmts None 0 (Stmts m) (content d)) as [x1|] eqn:Ex; [|done].
  pose proof (on_chain_step _ _ _ _ _ (mkDb x1 (Version m) (integrity d)) Hon Hd Em Ex) as Hon1.
  rewrite cons_middle, app_assoc in *. eapply IH; try done; cbn; [rewrite Em, Hd, length_app; cbn; lia|lia].
Qed.

Lemma schema_short migs : forall k x y, schema migs k x = Some y -> k <= length migs.
Proof.
  induction migs as [|m migs IH]; intros [|k] x y; cbn [schema length]; try (done || lia). destruct (exec_stmts None 0 (Stmts m) x) as [x'|]; [|done].
  intros Hs. apply IH in Hs. lia.
Qed.

(** A file of the chain: where it stands splits the migrations in two. *)
Lemma on_chain_split migs x0 d : check_versions 0 migs = None -> on_chain migs x0 d -> exists pre rest,
  migs = pre ++ rest /\ version d = Z.of_nat (length pre) /\ forall flt, apply_pending flt (version d) migs d = apply_pending flt (version d) rest d.
Proof.
  intros Hv [Hp Hs]. apply schema_short in Hs. set (n := Z.to_nat (version d)) in *. exists (take n migs), (drop n migs).
  assert (version d = Z.of_nat (length (take n migs))) as El by (rewrite length_take; lia). split_and!; [by rewrite take_drop|done|].
  intros flt. rewrite <-(take_drop n migs) at 1. apply skip_applied, Forall_lookup. intros j m Hj. pose proof (lookup_lt_Some _ _ _ Hj) as Hl.
  rewrite check_versions_spec in Hv. rewrite (Hv j m); [lia|]. by apply lookup_take_Some in Hj as [Hj _].
Qed.

Lemma highest_version migs : migs <> [] -> check_versions 0 migs = None -> from_option Version 0%Z (last migs) = Z.of_nat (length migs).
Proof.
  intros Hne Hv. destruct (exists_last Hne) as (pre & m & ->). rewrite last_snoc. cbn [from_option]. rewrite (next_version pre m [] Hv), length_app. cbn. lia.
Qed.

Lemma Migrate_unfold rf flt migs d : migs <> [] -> check_versions 0 migs = None ->
  Migrate rf flt migs d = if rf then (d, Some (ErrQuery "dbutil: read user_version"))
    else if (Z.of_nat (length migs) <? version d)%Z then (d, Some (ErrSchemaTooNew (version d) (Z.of_nat (length migs))))
    else if (version d =? Z.of_nat (length migs))%Z then (d, None) else apply_pending flt (version d) migs d.
Proof. intros Hne Hv. unfold Migrate. rewrite Hv, highest_version by done. by destruct migs. Qed.

Lemma Migrate_on_chain rf flt migs x0 d d' e : migs <> [] -> check_versions 0 migs = None -> on_chain migs x0 d -> Migrate rf flt migs d = (d', e) ->
  on_chain migs x0 d' /\ (version d <= version d')%Z /\ integrity d' = integrity d /\ (e = None -> version d' = Z.of_nat (length migs)) /\
  (e <> None -> rf = true /\ d' = d \/ exists w, e = Some (ErrMigration (version d' + 1) w)).
Proof.
  intros Hne Hv Hon. rewrite Migrate_unfold by done. destruct rf; [intros [= <- <-]; split_and!; [done|lia|done|done|by left]|].
  pose proof (schema_short _ _ _ _ (proj2 Hon)) as Hle. rewrite (proj2 (Z.ltb_ge _ _)) by lia.
  destruct (Z.eqb_spec (version d) (Z.of_nat (length migs))) as [E|_]; [intros [= <- <-]; by split_and!|].
  destruct (on_chain_split _ _ _ Hv Hon) as (pre & rest & -> & Hd & ->). intros Ha.
  destruct (apply_pending_spec _ x0 _ _ _ _ _ _ Hv Hd (Z.le_refl _) Hon Ha) as (R1 & R2 & R3 & R4). split_and!; [done|done|done|..].
  - by intros ->.
  - intros Hn. destruct e as [x|]; [|done]. destruct R4 as [_ [w ->]]. right. by exists w.
Qed.

Lemma Migrate_completes migs x0 y d : migs <> [] -> check_versions 0 migs = None -> on_chain migs x0 d -> schema migs (length migs) x0 = Some y ->
  (Migrate false (fun _ => None) migs d).2 = None.
Proof.
  intros Hne Hv Hon Hy. rewrite Migrate_unfold by done. pose proof (schema_short _ _ _ _ (proj2 Hon)) as Hle. rewrite (proj2 (Z.ltb_ge _ _)) by lia.
  destruct (version d =? Z.of_nat (length migs))%Z; [done|]. destruct (on_chain_split _ _ _ Hv Hon) as (pre & rest & -> & Hd & ->).
  eapply apply_pending_completes; try done.
Qed.

Lemma check_versions_error i migs e : check_versions i migs = Some e -> exists j got want, e = ErrOrder j got want.
Proof. revert i. induction migs as [|m migs IH]; intros i; cbn [check_versions]; [done|]. destruct (negb _); [intros [= <-]; eauto|apply IH]. Qed.

(** C23: Migrations are safe to interrupt and to repeat: on a file made by the first versions of a chain, whatever fails, the file stays at a version of the chain with exactly that version's tables, never goes back, and is reported as current only when it is at the last; a failure names the first version that is missing, and a later run without failures finishes from there; a file from a newer binary, and a chain that is not numbered from one, are refused and leave the file as it is. *)
Theorem migrations_are_resumable (x0 : D) migs read_fails flt d d' e :
  on_chain migs x0 d \/ (Z.of_nat (length migs) < version d)%Z -> migs <> [] -> Migrate read_fails flt migs d = (d', e) ->
  (check_versions 0 migs <> None -> d' = d /\ exists i got want, e = Some (ErrOrder i got want)) /\
  (check_versions 0 migs = None ->
   ((Z.of_nat (length migs) < version d)%Z -> d' = d /\ e <> None /\ (read_fails = false -> e = Some (ErrSchemaTooNew (version d) (Z.of_nat (length migs))))) /\
   ((version d <= Z.of_nat (length migs))%Z ->
      on_chain migs x0 d' /\ (version d <= version d')%Z /\ integrity d' = integrity d /\
      (e = None -> version d' = Z.of_nat (length migs)) /\
      (e <> None -> read_fails = true /\ d' = d \/ exists w, e = Some (ErrMigration (version d' + 1) w)) /\
      ((exists x, schema migs (length migs) x0 = Some x) -> exists d2, Migrate false (fun _ => None) migs d' = (d2, None) /\ version d2 = Z.of_nat (length migs) /\ on_chain migs x0 d2))).
Proof.
  intros Hd0 Hne Hm. split.
  - intros Hv. unfold Migrate in Hm. destruct (check_versions 0 migs) as [e0|] eqn:Ec; [|done].
    destruct (check_versions_error _ _ _ Ec) as (i & got & want & ->). destruct migs; [done|]. injection Hm as <- <-. eauto.
  - intros Hv. split.
    + intros Hn. rewrite Migrate_unfold, (proj2 (Z.ltb_lt _ _) Hn) in Hm by done. by destruct read_fails; injection Hm as <- <-.
    + intros Hle. destruct Hd0 as [Hon|Hn]; [|lia]. destruct (Migrate_on_chain _ _ _ _ _ _ _ Hne Hv Hon Hm) as (R1 & R2 & R3 & R4 & R5).
      split_and!; try done. intros [y Hy]. pose proof (Migrate_completes _ _ _ _ Hne Hv R1 Hy) as Hc.
      destruct (Migrate false (fun _ => None) migs d') as [d2 e2] eqn:E2. cbn in Hc. subst e2.
      destruct (Migrate_on_chain _ _ _ _ _ _ _ Hne Hv R1 E2) as (S1 & _ & _ & S4 & _). exists d2. split_and!; [done|by apply S4|done].
Qed.

(** ** The stores open only on sound files *)

Lemma check_and_migrate_sound c m o stmts x0 d d' e : on_chain [mkMig 1 stmts] x0 d \/ (1 < version d)%Z -> check_and_migrate c m o [mkMig 1 stmts] d = (d', e) ->
  match e with
  | None => integrity d = "ok" /\ version d' = 1%Z /\ on_chain [mkMig 1 stmts] x0 d'
  | Some _ => d' = d
  end.
Proof.
  unfold check_and_migrate, IntegrityCheck. intros Hd. destruct (check_fails o); [by intros [= <- <-]|].
  destruct (String.eqb_spec (integrity d) "ok") as [Hi|Hi]; cbn [negb]; [|by intros [= <- <-]].
  destruct (Migrate _ _ _ d) as [d1 e1] eqn:Em. destruct Hd as [Hon|Hn].
  - pose proof (Migrate_on_chain _ _ [mkMig 1 stmts] _ _ _ _ ltac:(discriminate) eq_refl Hon Em) as (R1 & R2 & R3 & R4 & R5). destruct e1 as [x|]; intros [= <- <-]; [|by split_and!; [|apply R4|]].
    revert Em. rewrite Migrate_unfold by done. destruct (read_version_fails o); [by intros [= <- _]|]. pose proof (schema_short _ _ _ _ (proj2 Hon)) as Hle. cbn [length apply_pending Version] in *. change (Z.of_nat 1) with 1%Z in *.
    rewrite (proj2 (Z.ltb_ge _ _)) by lia. destruct (Z.eqb_spec (version d) 1) as [|Hne]; [done|]. destruct Hon as [Hp _].
    rewrite (proj2 (Z.leb_gt _ _)) by lia. destruct (applyOne _ _ d) as [d2 [e2|]] eqn:Ea; [|done]. apply applyOne_spec in Ea. congruence.
  - rewrite Migrate_unfold in Em by done. cbn [length] in Em. rewrite (proj2 (Z.ltb_lt _ _)) in Em by (cbn; lia).
    destruct (read_version_fails o); injection Em as <- <-; by intros [= <- <-].
Qed.

(** A store is opened only on a file SQLite finds intact and that is, then, at
    exactly the version the binary knows; when a store refuses, it has not changed the file. *)
Theorem stores_open_only_sound_files (open : opening -> db -> db * option (string * db_error)) migs x0 o d d' e :
  In (open, migs) [(NewHistoryStore, history_migrations); (NewSessionStore, session_migrations); (NewSQLiteRevocationList, revocationMigrations); (NewWebauthnStore, webauthn_migrations)] ->
  on_chain migs x0 d \/ (1 < version d)%Z -> open o d = (d', e) ->
  match e with None => integrity d = "ok" /\ version d' = 1%Z /\ on_chain migs x0 d' | Some _ => d' = d end.
Proof.
  intros Hin Hd. repeat (destruct Hin as [[= <- <-]|Hin]); [..|done];
    unfold NewHistoryStore, NewSessionStore, NewSQLiteRevocationList, NewWebauthnStore; (destruct (open_fails o); [by intros [= <- <-]|]);
    try (destruct (set_pragmas _ _); [by intros [= <- <-]|]); intros Ho; by eapply check_and_migrate_sound in Ho.
Qed.
End dbutil.

(** A file whose second migration is interrupted, and finished at the next start. *)
Definition demo_exec (s : string) (x : list string) : option (list string) := if bool_decide (s ∈ x) then None else Some (x ++ [s]).

Definition demo_migs : list Migration := [mkMig 1 ["a"]; mkMig 2 ["b"; "c"]; mkMig 3 ["d"]].

Lemma migrations_are_resumable_witness :
  Migrate demo_exec false (fun v => if (v =? 2)%Z then Some (FStmt 1) else None) demo_migs (mkDb ["a"] 1 "ok") = (mkDb ["a"] 1 "ok", Some (ErrMigration 2 "stmt 1")) /\
  exists d2, Migrate demo_exec false (fun _ => None) demo_migs (mkDb ["a"] 1 "ok") = (d2, None) /\ version d2 = 3%Z /\ on_chain demo_exec demo_migs [] d2.
Proof.
  assert (Migrate demo_exec false (fun v => if (v =? 2)%Z then Some (FStmt 1) else None) demo_migs (mkDb ["a"] 1 "ok") = (mkDb ["a"] 1 "ok", Some (ErrMigration 2 "stmt 1"))) as Hm by (vm_compute; reflexivity).
  split; [exact Hm|].
  assert (on_chain demo_exec demo_migs [] (mkDb ["a"] 1 "ok")) as Hon by (split; [cbn; lia|reflexivity]).
  pose proof (migrations_are_resumable demo_exec [] demo_migs false _ _ _ _ (or_introl Hon) ltac:(discriminate) Hm) as [_ R].
  destruct (R eq_refl) as [_ R2]. destruct (R2 ltac:(cbn; lia)) as (_ & _ & _ & _ & _ & R6). apply R6. eexists. vm_compute. reflexivity.
Defined.
