(* ===== verification/Process.v ===== *)
(** * The life of a child process (internal/sandbox/daemon.go and lsp.go)

    Starting a daemon and a language server with every system call fallible and
    the parent's descriptors accounted for; then a daemon's goroutines (two
    scanners, the reaper, the consumer of its lines, [Stop] with its delayed kill)
    as a step relation.  The kernel is modelled as far as it matters here: a
    process group's number is its own until the leader is reaped and the last
    member is gone, and free for another process afterwards. *)

From S2P Require Import Prelude GoString GoConv Event Paths Wire Sandbox Daemon Lsp.

#[local] Open Scope nat_scope.

(** ** Starting *)

(** What the kernel refuses. *)
Record start_faults := mkStartFaults { pipe1_err : option string; pipe2_err : option string; start_err : option string }.

Record spawn := mkSpawn { sp_argv : list string; sp_dir : string; sp_setpgid : bool }.

Definition close_fds (l : list string) (fds : gset string) : gset string := fds ∖ list_to_set l.
Definition open_fds (l : list string) (fds : gset string) : gset string := fds ∪ list_to_set l.

Inductive reaper :=
| RWait                                   (* in [cmd.Wait] *)
| RDrain                                  (* the select on [scanDone] *)
| RForced                                 (* the read ends are closed, [<-scanDone] *)
| RSending (t : LogLine)
| RDone.

Inductive signal := SIGTERM | SIGKILL.

(** [outR], [errR]: the read end is open; [scan1], [scan2]: a scanner's
    [overflowed], [None] once it returned; [waited]: what [cmd.Wait] returned;
    [taken]: the lines received from the channel; a signal is logged with
    whether its group had become another process's. *)
Record dproc := mkDproc {
  outR : bool; errR : bool; scan1 : option bool; scan2 : option bool;
  pr_reaper : reaper; waited : option (option (option Z));
  lines : list LogLine; lines_closed : bool; taken : list LogLine;
  stopped : bool; kill_due : bool; signals : list (signal * bool);
  members : bool; reused : bool }.

Definition started : dproc :=
  mkDproc true true (Some false) (Some false) RWait None [] false [] false false [] true false.

Inductive start_error := StartBadRequest (e : string) | StartFailed (e : string) | LSPUnavailable (e : string).

(** The descriptors left to the parent, what was spawned, and the daemon. *)
Definition StartDaemon (flt : start_faults) (now : Z) (id sessionID command workingDir : string) : gset string * option spawn * result start_error (Daemon * dproc) :=
  if String.eqb command "" then (∅, None, Err (StartBadRequest "monitor_daemon requires a non-empty 'command'"))
  else
    let cmd := mkSpawn ["sh"; "-c"; command] workingDir true in
    match pipe1_err flt with
    | Some e => (∅, None, Err (StartFailed ("monitor_daemon: stdout pipe: " +:+ e)))
    | None =>
        let fds := open_fds ["outR"; "outW"] ∅ in
        match pipe2_err flt with
        | Some e => (close_fds ["outR"; "outW"] fds, None, Err (StartFailed ("monitor_daemon: stderr pipe: " +:+ e)))
        | None =>
            let fds := open_fds ["errR"; "errW"] fds in
            match start_err flt with
            | Some e => (close_fds ["outR"; "outW"; "errR"; "errW"] fds, None, Err (StartFailed ("monitor_daemon: start: " +:+ e)))
            | None => (close_fds ["outW"; "errW"] fds, Some cmd, Ok (mkDaemon id sessionID command now, started))
            end
        end
    end.

(** ** The goroutines of a daemon *)

Inductive devent :=
| DLine (stderr : bool) (data : string) (cp : bool)     (* a scanner forwards a line *)
| DScanEnd (stderr : bool)
| DExit (waitErr : option (option Z)) (children : bool) (* [cmd.Wait] returns; others remain in the group *)
| DScansDone
| DDrainGrace
| DTermSent
| DTermDropped                                          (* the second grace is over *)
| DTake
| DStop
| DKill                                                 (* the sleep of [Stop] is over *)
| DGroupEmpty
| DReuse.                                               (* another process gets the number *)

Definition with_chan (s : dproc) (sc1 sc2 : option bool) (l tk : list LogLine) : dproc :=
  mkDproc (outR s) (errR s) sc1 sc2 (pr_reaper s) (waited s) l (lines_closed s) tk (stopped s) (kill_due s) (signals s) (members s) (reused s).

Definition with_reaper (s : dproc) (r1 r2 : bool) (r : reaper) (w : option (option (option Z))) (l : list LogLine) (cl m : bool) : dproc :=
  mkDproc r1 r2 (scan1 s) (scan2 s) r w l cl (taken s) (stopped s) (kill_due s) (signals s) m (reused s).

Definition with_kernel (s : dproc) (st due : bool) (sg : list (signal * bool)) (m re : bool) : dproc :=
  mkDproc (outR s) (errR s) (scan1 s) (scan2 s) (pr_reaper s) (waited s) (lines s) (lines_closed s) (taken s) st due sg m re.

(** [Daemon.Stop] *)
Definition daemon_Stop (s : dproc) : dproc :=
  if stopped s then s else with_kernel s true true (signals s ++ [(SIGTERM, reused s)]) (members s) (reused s).

(** The reaper's frame. *)
Definition terminal (s : dproc) (waitErr : option (option Z)) : LogLine :=
  mkLog None "" true (exitCodeOf waitErr) (if stopped s then "killed" else "exited").

Definition dstep (s : dproc) (ev : devent) : option dproc :=
  match ev with
  | DLine false data cp =>
      ov ← scan1 s;
      let '(l, ov) := sendLine daemonChanBuf (lines s) ov (mkLog (Some StreamStdout) data false 0 (if cp : bool then "line_cap" else "")) in
      Some (with_chan s (Some ov) (scan2 s) l (taken s))
  | DLine true data cp =>
      ov ← scan2 s;
      let '(l, ov) := sendLine daemonChanBuf (lines s) ov (mkLog (Some StreamStderr) data false 0 (if cp : bool then "line_cap" else "")) in
      Some (with_chan s (scan1 s) (Some ov) l (taken s))
  | DScanEnd false => _ ← scan1 s; Some (with_chan s None (scan2 s) (lines s) (taken s))
  | DScanEnd true => _ ← scan2 s; Some (with_chan s (scan1 s) None (lines s) (taken s))
  | DExit w children =>
      match pr_reaper s with RWait => Some (with_reaper s (outR s) (errR s) RDrain (Some w) (lines s) (lines_closed s) children) | _ => None end
  | DDrainGrace =>
      match pr_reaper s with RDrain => Some (with_reaper s false false RForced (waited s) (lines s) (lines_closed s) (members s)) | _ => None end
  | DScansDone =>
      match pr_reaper s, scan1 s, scan2 s, waited s with
      | RDrain, None, None, Some w | RForced, None, None, Some w =>
          Some (with_reaper s false false (RSending (terminal s w)) (waited s) (lines s) (lines_closed s) (members s))
      | _, _, _, _ => None
      end
  | DTermSent =>
      match pr_reaper s with
      | RSending t => if length (lines s) <? daemonChanBuf then Some (with_reaper s (outR s) (errR s) RDone (waited s) (lines s ++ [t]) true (members s)) else None
      | _ => None
      end
  | DTermDropped =>
      match pr_reaper s with
      | RSending t => if length (lines s) <? daemonChanBuf then None else Some (with_reaper s (outR s) (errR s) RDone (waited s) (lines s) true (members s))
      | _ => None
      end
  | DTake => match lines s with [] => None | l :: q => Some (with_chan s (scan1 s) (scan2 s) q (taken s ++ [l])) end
  | DStop => Some (daemon_Stop s)
  | DKill => if kill_due s then Some (with_kernel s (stopped s) false (signals s ++ [(SIGKILL, reused s)]) (members s) (reused s)) else None
  | DGroupEmpty => match pr_reaper s with RWait => None | _ => Some (with_kernel s (stopped s) (kill_due s) (signals s) false (reused s)) end
  | DReuse =>
      match pr_reaper s with
      | RWait => None
      | _ => if members s then None else Some (with_kernel s (stopped s) (kill_due s) (signals s) false true)
      end
  end.

Fixpoint drun (s : dproc) (l : list devent) : option dproc :=
  match l with [] => Some s | ev :: l' => s' ← dstep s ev; drun s' l' end.

(** *** The invariant *)

Definition term_ok (s : dproc) (t : LogLine) : Prop :=
  ll_closed t = true /\ (exists w, waited s = Some w /\ ll_exit t = exitCodeOf w) /\ (ll_reason t = "exited" \/ ll_reason t = "killed" /\ stopped s = true).

(** What went through the channel: lines, and at most one terminal frame, last. *)
Definition transcript_ok (s : dproc) (all : list LogLine) : Prop :=
  exists body term, all = body ++ term /\ Forall (fun l => ll_closed l = false) body /\
    (term = [] \/ lines_closed s = true /\ exists t, term = [t] /\ term_ok s t) /\
    (lines_closed s = true -> term = [] -> daemonChanBuf <= length body).

Record dproc_ok (s : dproc) : Prop := {
  ok_cap : length (lines s) <= daemonChanBuf;
  ok_all : transcript_ok s (taken s ++ lines s);
  ok_closed : lines_closed s = true <-> pr_reaper s = RDone;
  ok_waited : waited s = None <-> pr_reaper s = RWait;
  ok_reaper : match pr_reaper s with
              | RWait | RDrain => outR s = true /\ errR s = true
              | RForced => outR s = false /\ errR s = false
              | RSending t => outR s = false /\ errR s = false /\ scan1 s = None /\ scan2 s = None /\ term_ok s t
              | RDone => outR s = false /\ errR s = false /\ scan1 s = None /\ scan2 s = None
              end;
  ok_reused : reused s = true -> waited s <> None /\ members s = false;
  ok_signals : signals s = [] /\ stopped s = false /\ kill_due s = false \/
               exists b1, signals s = [(SIGTERM, b1)] /\ stopped s = true /\ kill_due s = true /\ (b1 = true -> waited s <> None) \/
               exists b2, signals s = [(SIGTERM, b1); (SIGKILL, b2)] /\ stopped s = true /\ kill_due s = false /\ (b1 = true \/ b2 = true -> waited s <> None)
}.

Lemma started_ok : dproc_ok started.
Proof.
  split; cbn; try done; [unfold daemonChanBuf; lia|..|by left].
  exists [], []. split_and!; [done|done|by left|done].
Qed.

#[local] Ltac fields := cbn [with_chan with_reaper with_kernel lines taken lines_closed pr_reaper waited outR errR scan1 scan2 stopped kill_due signals members reused].

(** One more plain line. *)
Lemma transcript_line s s' all l : lines_closed s = false -> lines_closed s' = false -> ll_closed l = false -> transcript_ok s all -> transcript_ok s' (all ++ [l]).
Proof.
  intros Hc Hc' Hl (body & term & -> & Hb & [->|[Ht _]] & _); [|congruence]. exists (body ++ [l]), []. rewrite !app_nil_r.
  split_and!; [done|apply Forall_app; by split; [|constructor]|by left|congruence].
Qed.

(** What the frame may depend on is only gained. *)
Lemma term_mono s s' t : (forall w, waited s = Some w -> waited s' = Some w) -> (stopped s = true -> stopped s' = true) -> term_ok s t -> term_ok s' t.
Proof. intros Hw Hs (A & (w & B & C) & D). split_and!; [done|by exists w; auto|]. destruct D as [D|[D E]]; [by left|right; auto]. Qed.

Lemma transcript_mono s s' all : lines_closed s' = lines_closed s -> (forall w, waited s = Some w -> waited s' = Some w) -> (stopped s = true -> stopped s' = true) ->
  transcript_ok s all -> transcript_ok s' all.
Proof.
  intros Hc Hw Hs (body & term & E & Hb & Ht & Hn). exists body, term. rewrite Hc. split_and!; [done|done| |done].
  destruct Ht as [Ht|(Ht & t & Et & Hok)]; [by left|right]. split; [done|]. exists t. split; [done|]. by eapply term_mono.
Qed.

(** A step of a scanner. *)
Lemma scan_ok_step s sc1 sc2 l ov ov' ll : dproc_ok s -> (scan1 s <> None \/ scan2 s <> None) -> ll_closed ll = false ->
  sendLine daemonChanBuf (lines s) ov ll = (l, ov') -> dproc_ok (with_chan s sc1 sc2 l (taken s)).
Proof.
  intros [A B C D E F G] Hsc Hll. assert (lines_closed s = false) as Hnc.
  { destruct (lines_closed s); [|done]. pose proof (proj1 C eq_refl) as Hr. rewrite Hr in E. destruct E as (_ & _ & E1 & E2). destruct Hsc; congruence. }
  unfold sendLine. destruct (Nat.ltb_spec (length (lines s)) daemonChanBuf) as [Hlt|Hge].
  - intros [= <- <-]. split; fields; try done.
    + rewrite length_app. cbn. lia.
    + rewrite app_assoc. by eapply transcript_line.
    + destruct (pr_reaper s) eqn:Hr; try done; destruct E as (? & ? & E1 & E2 & ?) || destruct E as (? & ? & E1 & E2); destruct Hsc; congruence.
  - intros Hs. assert (l = lines s) as -> by (destruct (negb ov); by injection Hs as <- <-).
    split; fields; try done.
    destruct (pr_reaper s) eqn:Hr; try done; destruct E as (? & ? & E1 & E2 & ?) || destruct E as (? & ? & E1 & E2); destruct Hsc; congruence.
Qed.

Lemma reaper_step s r1 r2 r w l cl m : dproc_ok s -> pr_reaper s <> RDone -> length l <= daemonChanBuf -> (forall w0, waited s = Some w0 -> w = Some w0) -> w <> None -> r <> RWait ->
  (cl = true <-> r = RDone) -> (reused s = true -> m = false) ->
  transcript_ok (with_reaper s r1 r2 r w l cl m) (taken s ++ l) ->
  match r with
  | RWait | RDrain => r1 = true /\ r2 = true
  | RForced => r1 = false /\ r2 = false
  | RSending t => r1 = false /\ r2 = false /\ scan1 s = None /\ scan2 s = None /\ term_ok (with_reaper s r1 r2 r w l cl m) t
  | RDone => r1 = false /\ r2 = false /\ scan1 s = None /\ scan2 s = None
  end -> dproc_ok (with_reaper s r1 r2 r w l cl m).
Proof.
  intros [A B C D E F G] Hnd Hl Hw Hne Hrw Hcl Hm Ht Hr. split; fields; try done.
  - intros Hre. split; [done|auto].
  - destruct G as [G|(b1 & [(G1 & G2 & G3 & _)|(b2 & G1 & G2 & G3 & _)])]; [by left|right; exists b1; left|right; exists b1; right; exists b2]; by split_and!.
Qed.

Lemma dstep_ok s ev s' : dproc_ok s -> dstep s ev = Some s' -> dproc_ok s'.
Proof.
  intros Hok. pose proof Hok as [A B C D E F G]. destruct ev as [st data cp|st|w ch| | | | | | | | |]; cbn [dstep].
  - destruct st; [destruct (scan2 s) as [ov|] eqn:Hsc|destruct (scan1 s) as [ov|] eqn:Hsc]; cbn; try done; destruct (sendLine _ _ _ _) as [l ov'] eqn:Hs; intros [= <-];
      (eapply scan_ok_step; [exact Hok| |..|exact Hs]; [rewrite Hsc; auto|done]).
  - destruct st; [destruct (scan2 s) as [ov|] eqn:Hsc|destruct (scan1 s) as [ov|] eqn:Hsc]; cbn; try done; intros [= <-]; split; fields; try done;
      destruct (pr_reaper s); try done; destruct E as (E0 & E1 & E2 & E3 & E4) || destruct E as (E0 & E1 & E2 & E3); by split_and!.
  - destruct (pr_reaper s) eqn:Hr; try done. intros [= <-]. apply reaper_step; rewrite ?Hr; try done.
    + intros w0 Hw0. pose proof (proj2 D eq_refl). congruence.
    + split; [|done]. intros Hc. apply C in Hc. done.
    + intros Hre. destruct (F Hre) as [F1 _]. destruct F1. by apply D.
    + eapply transcript_mono; [..|exact B]; fields; [done| |done]. intros w0 Hw0. pose proof (proj2 D eq_refl). congruence.
  - destruct (pr_reaper s) eqn:Hr; try done; destruct (scan1 s) eqn:H1, (scan2 s) eqn:H2, (waited s) as [w|] eqn:Hw; try done; intros [= <-];
      (apply reaper_step; rewrite ?Hr, ?Hw; try done; [split; [|done]; intros Hc; by apply C in Hc|intros Hre; by destruct (F Hre)|by eapply transcript_mono; [..|exact B]; fields; rewrite ?Hw|]);
      (split_and!; try done; unfold terminal; split_and!; [done|by exists w|]; fields; destruct (stopped s); cbn; auto).
  - destruct (pr_reaper s) eqn:Hr; try done. intros [= <-]. apply reaper_step; rewrite ?Hr; try done.
    + intros Hw. by apply D in Hw.
    + split; [|done]. intros Hc. by apply C in Hc.
    + intros Hre. by destruct (F Hre).
  - destruct (pr_reaper s) as [| | |t|] eqn:Hr; try done. destruct (Nat.ltb_spec (length (lines s)) daemonChanBuf) as [Hlt|]; [|done]. intros [= <-].
    destruct E as (E0 & E1 & E2 & E3 & E4). assert (lines_closed s = false) as Hnc by (destruct (lines_closed s); [by pose proof (proj1 C eq_refl)|done]).
    apply reaper_step; rewrite ?Hr; try done; [rewrite length_app; cbn; lia|intros Hw; by apply D in Hw|intros Hre; by destruct (F Hre)|].
    destruct B as (body & term & Eb & Hb & [->|[Ht _]] & _); [|congruence]. rewrite app_assoc, Eb, app_nil_r. exists body, [t]. split_and!; [done|done| |done].
    right. split; [done|]. exists t. split; [done|]. by eapply term_mono; [..|exact E4].
  - destruct (pr_reaper s) as [| | |t|] eqn:Hr; try done. destruct (Nat.ltb_spec (length (lines s)) daemonChanBuf) as [|Hge]; [done|]. intros [= <-].
    destruct E as (E0 & E1 & E2 & E3 & E4). assert (lines_closed s = false) as Hnc by (destruct (lines_closed s); [by pose proof (proj1 C eq_refl)|done]).
    apply reaper_step; rewrite ?Hr; try done; [intros Hw; by apply D in Hw|intros Hre; by destruct (F Hre)|].
    destruct B as (body & term & Eb & Hb & [->|[Ht _]] & _); [|congruence]. exists body, []. split_and!; [done|done|by left|]. intros _ _.
    rewrite app_nil_r in Eb. rewrite <-Eb, length_app. lia.
  - destruct (lines s) as [|l q] eqn:Hl; [done|]. intros [= <-]. split; fields; try done.
    + cbn in A. lia.
    + rewrite <-app_assoc. cbn [app]. by eapply transcript_mono; [..|exact B].
  - intros [= <-]. unfold daemon_Stop. destruct (stopped s) eqn:Hst; [done|]. split; fields; try done.
    + by eapply transcript_mono; [..|exact B].
    + destruct (pr_reaper s) as [| | |t|]; try done. destruct E as (E0 & E1 & E2 & E3 & E4). split_and!; try done. by eapply term_mono; [..|exact E4].
    + destruct G as [(G1 & _ & _)|(b1 & [(_ & G2 & _)|(b2 & _ & G2 & _)])]; [|congruence..]. right. exists (reused s). left. rewrite G1.
      split_and!; try done. intros Hre. by destruct (F Hre).
  - destruct (kill_due s) eqn:Hk; [|done]. intros [= <-]. split; fields; try done.
    destruct G as [(_ & _ & G3)|(b1 & [(G1 & G2 & _ & G4)|(b2 & _ & _ & G3 & _)])]; [congruence| |congruence]. right. exists b1. right. exists (reused s). rewrite G1.
    split_and!; try done. intros [Hb|Hre]; [by apply G4|by destruct (F Hre)].
  - destruct (pr_reaper s) eqn:Hr; try done; intros [= <-]; split; fields; rewrite ?Hr; try done; try (by eapply transcript_mono; [..|exact B]); intros Hre; by destruct (F Hre).
  - destruct (pr_reaper s) eqn:Hr; try done; (destruct (members s) eqn:Hm; [done|]); intros [= <-]; split; fields; rewrite ?Hr; try done; try (by eapply transcript_mono; [..|exact B]);
      intros _; split; try done; intros Hw; by apply D in Hw.
Qed.

Lemma drun_ok l : forall s s', dproc_ok s -> drun s l = Some s' -> dproc_ok s'.
Proof.
  induction l as [|ev l IH]; intros s s' Hok; cbn [drun]; [by intros [= <-]|]. destruct (dstep s ev) as [s1|] eqn:Hs; [|done]. cbn. apply IH. by eapply dstep_ok.
Qed.

Lemma drun_app l1 l2 s : drun s (l1 ++ l2) = s1 ← drun s l1; drun s1 l2.
Proof. revert s. induction l1 as [|ev l1 IH]; intros s; [done|]. cbn [app drun]. destruct (dstep s ev); [|done]. cbn. apply IH. Qed.

(** Events that need nobody but the reaper, its timers, and the scanners of a
    pipe that is at its end or closed. *)
Definition own_event (ev : devent) : Prop :=
  match ev with DScanEnd _ | DScansDone | DDrainGrace | DTermSent | DTermDropped => True | _ => False end.

Lemma sending_ends s t : pr_reaper s = RSending t -> exists ev s', own_event ev /\ dstep s ev = Some s' /\ lines_closed s' = true.
Proof.
  intros Hr. destruct (length (lines s) <? daemonChanBuf) eqn:Hl; [exists DTermSent|exists DTermDropped]; eexists; (split; [done|]); cbn [dstep]; by rewrite Hr, Hl.
Qed.

(** The scanners that still run return. *)
Lemma scanners_end s : exists l s', length l <= 2 /\ Forall own_event l /\ drun s l = Some s' /\ scan1 s' = None /\ scan2 s' = None /\ pr_reaper s' = pr_reaper s /\ waited s' = waited s.
Proof.
  destruct (scan1 s) as [o1|] eqn:H1, (scan2 s) as [o2|] eqn:H2.
  - exists [DScanEnd false; DScanEnd true]. eexists. cbn. rewrite H1. cbn. rewrite H2. split_and!; try done; first [lia|by repeat constructor].
  - exists [DScanEnd false]. eexists. cbn. rewrite H1. cbn. split_and!; try done; first [lia|by repeat constructor].
  - exists [DScanEnd true]. eexists. cbn. rewrite H2. cbn. split_and!; try done; first [lia|by repeat constructor].
  - exists [], s. by split_and!; [cbn; lia|..].
Qed.

Lemma reaper_ends s : dproc_ok s -> pr_reaper s <> RWait -> exists l s', length l <= 5 /\ Forall own_event l /\ drun s l = Some s' /\ lines_closed s' = true.
Proof.
  intros Hok Hw. destruct (pr_reaper s) as [| | |t|] eqn:Hr; [done|..].
  1,2: assert (exists l0 s0, length l0 <= 1 /\ Forall own_event l0 /\ drun s l0 = Some s0 /\ pr_reaper s0 = RForced) as (l0 & s0 & L0 & O0 & D0 & R0);
    [first [by exists [], s; split_and!; [cbn; lia|..]|exists [DDrainGrace]; eexists; cbn; rewrite Hr; split_and!; try done; by repeat constructor]|];
    pose proof (drun_ok _ _ _ Hok D0) as Hok0; destruct (scanners_end s0) as (l1 & s1 & L1 & O1 & D1 & S1 & S2 & R1 & W1); rewrite R0 in R1;
    assert (exists w, waited s1 = Some w) as [w Hw1] by (rewrite W1; destruct (waited s0) eqn:E; [eauto|]; apply (ok_waited _ Hok0) in E; congruence);
    pose proof (sending_ends (with_reaper s1 false false (RSending (terminal s1 w)) (waited s1) (lines s1) (lines_closed s1) (members s1)) _ eq_refl) as (ev & s3 & O3 & D3 & C3);
    exists (l0 ++ l1 ++ [DScansDone; ev]), s3; rewrite !drun_app, D0; cbn [mbind option_bind]; rewrite drun_app, D1; cbn [mbind option_bind drun];
    cbn [dstep] in *; rewrite R1, S1, S2, Hw1 in *; cbn [mbind option_bind]; rewrite D3; split_and!; [rewrite !length_app; cbn; lia| |done|done];
    rewrite !Forall_app; split_and!; [done|done|by repeat constructor].
  - destruct (sending_ends s t Hr) as (ev & s' & O & D & C). exists [ev], s'. cbn [drun]. rewrite D. split_and!; [cbn; lia|by repeat constructor|done|done].
  - exists [], s. split_and!; [cbn; lia|done|done|]. by apply (ok_closed _ Hok).
Qed.

(** *** What a history determines *)

(** The signals of a history: those of the first [Stop], and of its delayed kill. *)
Definition sent_signals (evs : list devent) (l : list signal) (pending : bool) : Prop :=
  ~ In DStop evs /\ ~ In DKill evs /\ l = [] /\ pending = false \/
  In DStop evs /\ ~ In DKill evs /\ l = [SIGTERM] /\ pending = true \/
  In DStop evs /\ In DKill evs /\ l = [SIGTERM; SIGKILL] /\ pending = false.

(** The closing frame the reaper makes: what [cmd.Wait] returned, and whether
    [Stop] had been called by then. *)
Definition closing_frame (evs : list devent) (t : LogLine) : Prop :=
  exists pre post w ch, evs = pre ++ DScansDone :: post /\ In (DExit w ch) pre /\ ll_closed t = true /\ ll_exit t = exitCodeOf w /\
    (ll_reason t = "killed" /\ In DStop pre \/ ll_reason t = "exited" /\ ~ In DStop pre).

(** The reaper gave up on its frame, and the channel was full then. *)
Definition frame_dropped (evs : list devent) : Prop :=
  exists pre post s1, evs = pre ++ DTermDropped :: post /\ drun started pre = Some s1 /\ length (lines s1) = daemonChanBuf.

Record history_ok (evs : list devent) (s : dproc) : Prop := {
  hi_ok : dproc_ok s;
  hi_run : drun started evs = Some s;
  hi_signals : sent_signals evs (signals s).*1 (kill_due s);
  hi_stopped : stopped s = true <-> In DStop evs;
  hi_waited : forall w, waited s = Some w -> exists ch, In (DExit w ch) evs;
  hi_frame : forall t, pr_reaper s = RSending t -> closing_frame evs t;
  hi_open : lines_closed s = false -> Forall (fun l => ll_closed l = false) (taken s ++ lines s);
  hi_closed : lines_closed s = true ->
    (exists body t, taken s ++ lines s = body ++ [t] /\ Forall (fun l => ll_closed l = false) body /\ closing_frame evs t) \/
    (Forall (fun l => ll_closed l = false) (taken s ++ lines s) /\ frame_dropped evs) }.

Lemma closing_frame_snoc evs ev t : closing_frame evs t -> closing_frame (evs ++ [ev]) t.
Proof. intros (pre & post & w & ch & -> & H). exists pre, (post ++ [ev]), w, ch. by rewrite <-app_assoc. Qed.

Lemma frame_dropped_snoc evs ev : frame_dropped evs -> frame_dropped (evs ++ [ev]).
Proof. intros (pre & post & s1 & -> & H). exists pre, (post ++ [ev]), s1. by rewrite <-app_assoc. Qed.

(** What a step does to the signals. *)
Lemma step_signals s ev s' : dstep s ev = Some s' ->
  match ev with
  | DStop => stopped s' = true /\ (if stopped s then signals s' = signals s /\ kill_due s' = kill_due s else signals s' = signals s ++ [(SIGTERM, reused s)] /\ kill_due s' = true)
  | DKill => stopped s' = stopped s /\ kill_due s = true /\ signals s' = signals s ++ [(SIGKILL, reused s)] /\ kill_due s' = false
  | _ => stopped s' = stopped s /\ signals s' = signals s /\ kill_due s' = kill_due s
  end.
Proof.
  destruct ev as [[] data cp|[]|w ch| | | | | | | | |]; cbn [dstep].
  11: { intros [= <-]. unfold daemon_Stop. by destruct (stopped s) eqn:E. }
  all: try (destruct (scan1 s); [|done]); try (destruct (scan2 s); [|done]); cbn; try destruct (sendLine _ _ _ _); repeat case_match; try done;
    intros [= <-]; by split_and!.
Qed.

Lemma signals_snoc evs s ev s' : sent_signals evs (signals s).*1 (kill_due s) -> (stopped s = true <-> In DStop evs) -> dstep s ev = Some s' ->
  sent_signals (evs ++ [ev]) (signals s').*1 (kill_due s') /\ (stopped s' = true <-> In DStop (evs ++ [ev])).
Proof.
  intros Hs Hst Hd. apply step_signals in Hd. unfold sent_signals in *. setoid_rewrite in_app_iff. cbn [In].
  destruct ev; try (destruct Hd as (-> & -> & ->); split; [|rewrite Hst; intuition done]; intuition done).
  - destruct Hd as (-> & Hd). split; [|intuition done]. destruct (stopped s); destruct Hd as (-> & ->).
    + pose proof (proj1 Hst eq_refl). intuition done.
    + assert (~ In DStop evs) as Hn by (intros Hin; by apply Hst in Hin). rewrite fmap_app. destruct Hs as [(_ & Hk & -> & _)|Hs]; [|intuition done].
      right; left. split_and!; auto; intuition done.
  - destruct Hd as (-> & Hk & -> & ->). split; [|rewrite Hst; intuition done]. rewrite fmap_app. rewrite Hk in Hs.
    destruct Hs as [(_ & _ & _ & ?)|[(H1 & H2 & -> & _)|(_ & _ & _ & ?)]]; [done| |done]. right; right. split_and!; auto.
Qed.

(** What a step does to the lines that passed, to the reaper and to the wait. *)
Lemma step_lines s ev s' : dproc_ok s -> dstep s ev = Some s' ->
  (lines_closed s' = lines_closed s /\
     (taken s' ++ lines s' = taken s ++ lines s \/
      lines_closed s = false /\ exists l, taken s' ++ lines s' = (taken s ++ lines s) ++ [l] /\ ll_closed l = false) \/
   lines_closed s = false /\ lines_closed s' = true /\
     ((exists t, pr_reaper s = RSending t /\ taken s' ++ lines s' = (taken s ++ lines s) ++ [t]) \/
      ev = DTermDropped /\ length (lines s) = daemonChanBuf /\ taken s' ++ lines s' = taken s ++ lines s)) /\
  (waited s' = waited s \/ exists w ch, ev = DExit w ch /\ waited s' = Some w) /\
  (forall t, pr_reaper s' = RSending t -> pr_reaper s = RSending t \/ ev = DScansDone /\ exists w, waited s = Some w /\ t = terminal s w).
Proof.
  intros Hok. pose proof (ok_closed _ Hok) as Hc. pose proof (ok_reaper _ Hok) as Hr. pose proof (ok_cap _ Hok) as Hcap.
  assert (forall l ov ov' ll, scan1 s <> None \/ scan2 s <> None -> ll_closed ll = false -> sendLine daemonChanBuf (lines s) ov ll = (l, ov') ->
    lines_closed s = false /\ (l = lines s \/ exists x, l = lines s ++ [x] /\ ll_closed x = false)) as Hsend.
  { intros l ov ov' ll Hsc Hll. split.
    - destruct (lines_closed s); [|done]. pose proof (proj1 Hc eq_refl) as E. rewrite E in Hr. destruct Hr as (_ & _ & ? & ?). destruct Hsc; congruence.
    - revert H. unfold sendLine. destruct (_ <? _); [intros [= <- <-]; right; eauto|]. destruct (negb ov); intros [= <- <-]; auto. }
  destruct ev as [st data cp|st|w ch| | | | | | | | |]; cbn [dstep].
  - destruct st; [destruct (scan2 s) as [ov|] eqn:Hsc|destruct (scan1 s) as [ov|] eqn:Hsc]; cbn; try done; destruct (sendLine _ _ _ _) as [l ov'] eqn:Hs;
      (eapply Hsend in Hs as [Hnc Hl]; [|first [by right|by left]|done]); intros [= <-]; fields; (split; [left; split; [done|]|split; [by left|auto]]);
      (destruct Hl as [->|(x & -> & Hx)]; [by left|right; split; [done|]; exists x; by rewrite app_assoc]).
  - destruct st; [destruct (scan2 s)|destruct (scan1 s)]; cbn; try done; intros [= <-]; fields; auto.
  - destruct (pr_reaper s); try done. intros [= <-]; fields. split; [auto|]. split; [right; eauto|done].
  - destruct (pr_reaper s) eqn:E, (scan1 s), (scan2 s), (waited s) as [w|]; try done; intros [= <-]; fields; (split; [auto|]); (split; [auto|]); intros t [= <-]; right; eauto.
  - destruct (pr_reaper s); try done. intros [= <-]; fields. split; [auto|]. split; [auto|done].
  - destruct (pr_reaper s) as [| | |t|] eqn:E; try done. destruct (_ <? _); [|done]. intros [= <-]; fields. split; [|split; [by left|done]]. right.
    split; [destruct (lines_closed s); [by pose proof (proj1 Hc eq_refl)|done]|]. split; [done|]. left. exists t. by rewrite app_assoc.
  - destruct (pr_reaper s) as [| | |t|] eqn:E; try done. destruct (Nat.ltb_spec (length (lines s)) daemonChanBuf); [done|]. intros [= <-]; fields. split; [|split; [by left|done]]. right.
    split; [destruct (lines_closed s); [by pose proof (proj1 Hc eq_refl)|done]|]. split; [done|]. right. split_and!; [done|lia|done].
  - destruct (lines s) as [|l q] eqn:El; [done|]. intros [= <-]; fields. rewrite <-app_assoc. auto.
  - intros [= <-]. unfold daemon_Stop. destruct (stopped s); fields; auto.
  - destruct (kill_due s); [|done]. intros [= <-]; fields. auto.
  - destruct (pr_reaper s) eqn:E; try done; intros [= <-]; fields; rewrite ?E; auto.
  - destruct (pr_reaper s) eqn:E; try done; (destruct (members s); [done|]); intros [= <-]; fields; rewrite ?E; auto.
Qed.

Lemma history_snoc evs s ev s' : history_ok evs s -> dstep s ev = Some s' -> history_ok (evs ++ [ev]) s'.
Proof.
  intros [Hok Hrun Hsig Hst Hw Hf Ho Hcl] Hd. destruct (signals_snoc _ _ _ _ Hsig Hst Hd) as [Hsig' Hst'].
  destruct (step_lines _ _ _ Hok Hd) as (Hl & Hwt & Hrp). split; try done.
  - by eapply dstep_ok.
  - rewrite drun_app, Hrun. cbn. by rewrite Hd.
  - intros w Hw'. setoid_rewrite in_app_iff. destruct Hwt as [E|(w0 & ch & -> & E)]; [rewrite E in Hw'; destruct (Hw w Hw') as [ch Hin]; eauto|].
    rewrite E in Hw'. injection Hw' as ->. exists ch. right. by left.
  - intros t Ht. destruct (Hrp t Ht) as [Hs|(-> & w & Hs & ->)]; [by apply closing_frame_snoc, Hf|]. destruct (Hw w Hs) as [ch Hin].
    exists evs, [], w, ch. split_and!; try done. cbn. destruct (stopped s) eqn:E; [left; split; [done|by apply Hst]|right; split; [done|]]. intros Hx. apply Hst in Hx. congruence.
  - intros Hn. destruct Hl as [[E [->|(Hs & l & -> & Hc)]]|(_ & E & _)]; [apply Ho; congruence| |congruence]. apply Forall_app. split; [by apply Ho|by repeat constructor].
  - intros Hc. destruct Hl as [[E [->|(Hs & l & _ & _)]]|(Hs & _ & [(t & Ht & ->)|(-> & Hfull & ->)])]; [|congruence| |].
    + rewrite E in Hc. destruct (Hcl Hc) as [(body & t & -> & Hb & Hfr)|[Hp Hdr]]; [left; exists body, t; split_and!; try done; by apply closing_frame_snoc|].
      right. split; [done|]. by apply frame_dropped_snoc.
    + left. exists (taken s ++ lines s), t. split_and!; [done|by apply Ho|]. by apply closing_frame_snoc, Hf.
    + right. split; [by apply Ho|]. exists evs, [], s. by split_and!.
Qed.

Lemma history_run evs s : drun started evs = Some s -> history_ok evs s.
Proof.
  revert s. induction evs as [|ev evs IH] using rev_ind; intros s Hrun.
  - injection Hrun as <-. split; try done; [apply started_ok|]. left. split_and!; by auto.
  - rewrite drun_app in Hrun. destruct (drun started evs) as [s1|] eqn:E; [|done]. cbn in Hrun. destruct (dstep s1 ev) as [s2|] eqn:Hd; [|done].
    injection Hrun as <-. eapply history_snoc; [by apply IH|done].
Qed.

(** C19: A daemon is started whole or not at all, and its output ends once: when a start fails nothing runs and no descriptor stays open; when it succeeds the command runs through the shell in a process group of its own and the parent keeps the two read ends.  Whatever the scanners, the reaper, the consumer of the lines and Stop then do, in whatever order: as long as the channel is open only plain lines have passed through it; it is closed only when the process was reaped, both scanners have returned and both descriptors are closed, and then the last line that passed is the one closing frame, with the exit code that Wait reported and the reason killed exactly if Stop had been called when the scanners were done, unless the reaper gave up on the frame, at a moment when 256 lines stood unread in the channel; the first Stop sends SIGTERM at once and leaves a SIGKILL due, which is sent once, and nothing else sends a signal; and once the process has exited the reaper closes the channel within five steps that depend on nobody else. *)
Theorem daemon_output_ends_once flt now id sid command dir : let '(fds, sp, r) := StartDaemon flt now id sid command dir in
  match r with
  | Err _ => fds = ∅ /\ sp = None
  | Ok (d, s0) => fds = {["outR"; "errR"]} /\ sp = Some (mkSpawn ["sh"; "-c"; command] dir true) /\ d = mkDaemon id sid command now /\ command <> "" /\
      forall evs s, drun s0 evs = Some s ->
        (lines_closed s = false -> Forall (fun l => ll_closed l = false) (taken s ++ lines s)) /\
        (lines_closed s = true -> waited s <> None /\ scan1 s = None /\ scan2 s = None /\ outR s = false /\ errR s = false /\
           ((exists body t, taken s ++ lines s = body ++ [t] /\ Forall (fun l => ll_closed l = false) body /\ closing_frame evs t) \/
            (Forall (fun l => ll_closed l = false) (taken s ++ lines s) /\
             exists pre post s1, evs = pre ++ DTermDropped :: post /\ drun s0 pre = Some s1 /\ length (lines s1) = 256))) /\
        sent_signals evs (signals s).*1 (kill_due s) /\
        (kill_due s = true -> exists s', dstep s DKill = Some s') /\
        (waited s <> None -> exists more s', length more <= 5 /\ Forall own_event more /\ drun s more = Some s' /\ lines_closed s' = true)
  end.
Proof.
  unfold StartDaemon. destruct (String.eqb_spec command "") as [->|Hc]; [done|]. destruct (pipe1_err flt); [done|].
  destruct (pipe2_err flt); [split; [vm_compute|]; done|]. destruct (start_err flt); [split; [vm_compute|]; done|].
  split_and!; [vm_compute; done|done|done|done|]. intros evs s Hrun. destruct (history_run _ _ Hrun) as [[A B C D E F G] _ Hsig _ _ _ Ho Hcl]. split_and!; try done.
  - intros Hx. pose proof (proj1 C Hx) as Hr. rewrite Hr in E. destruct E as (? & ? & ? & ?). split_and!; try done; [intros Hw; apply D in Hw; congruence|by apply Hcl].
  - intros Hk. eexists. cbn. by rewrite Hk.
  - intros Hw. apply reaper_ends; [by eapply drun_ok; [exact started_ok|]|]. intros Hr. apply Hw. by apply D.
Qed.

(** A daemon that exits by itself is stopped all the same when its lines end, so
    SIGTERM, and five seconds later SIGKILL, go to a group number that is free and
    may be another process's by then. *)
Lemma exited_daemon_is_signalled : exists s,
  drun started [DExit None false; DScanEnd false; DScanEnd true; DScansDone; DTermSent; DTake; DReuse; DStop; DKill] = Some s /\
  taken s = [mkLog None "" true 0 "exited"] /\ signals s = [(SIGTERM, true); (SIGKILL, true)].
Proof. eexists. split; [vm_compute; reflexivity|done]. Qed.

(** Lines that find the channel full are dropped without the marker that should
    stand for them: it is sent into the same full channel. *)
Lemma overflow_goes_unmarked s st data cp s' : length (lines s) = daemonChanBuf -> dstep s (DLine st data cp) = Some s' -> lines s' = lines s.
Proof.
  intros Hl. unfold dstep, sendLine. rewrite Hl, Nat.ltb_irrefl. destruct st; [destruct (scan2 s) as [[]|]|destruct (scan1 s) as [[]|]]; cbn; try done; by intros [= <-].
Qed.

(** ** Language servers *)

Definition defaultLSPInitTimeout : Z := 60 * 1000000000.

(** A started server: the parent's descriptors, [done], [stopOnce], the frames
    written to it in order, the signals sent to its group. *)
Record lsp_handle := mkLspHandle { h_fds : gset string; h_done : bool; h_stopped : bool; h_sent : list out_frame; h_signals : list signal; h_killDue : bool }.

Section lsp.
Variable pathToURI : string -> string.
Variable Base : string -> string.
(** What becomes of a request (within a time) and of a frame. *)
Variable Request : Z -> string -> any -> result string (option any).
Variable frame_ok : out_frame -> bool.

Definition init_params (pid : Z) (rootDir : string) : any :=
  let rootURI := pathToURI rootDir in
  AMap
    [("processId", AInt pid); ("rootUri", AStr rootURI);
     ("capabilities", AMap
       [("textDocument", AMap
          [("synchronization", AMap []); ("definition", AMap [("linkSupport", ABool true)]); ("references", AMap []);
           ("hover", AMap [("contentFormat", AArr [AStr "markdown"; AStr "plaintext"])]); ("implementation", AMap [("linkSupport", ABool true)]);
           ("documentSymbol", AMap [("hierarchicalDocumentSymbolSupport", ABool true)])]);
        ("workspace", AMap [("symbol", AMap []); ("configuration", ABool true); ("workspaceFolders", ABool true)])]);
     ("workspaceFolders", AArr [AMap [("uri", AStr rootURI); ("name", AStr (Base rootDir))]])].

Definition sent (f : list out_frame) (h : lsp_handle) : lsp_handle := mkLspHandle (h_fds h) (h_done h) (h_stopped h) (h_sent h ++ f) (h_signals h) (h_killDue h).

(** [Notify]: a frame, when the pipe takes it. *)
Definition Notify (method : string) (params : any) (h : lsp_handle) : lsp_handle * bool :=
  let f := ONotify method params in
  if frame_ok f then (sent [f] h, true) else (h, false).

(** [Request] number [id]: refused when the server is gone. *)
Definition request (timeout id : Z) (method : string) (params : any) (h : lsp_handle) : lsp_handle * result string (option any) :=
  if h_done h then (h, Err "lsp: server is not running")
  else let f := ORequest id method params in
       if frame_ok f then (sent [f] h, Request timeout method params) else (h, Err ("lsp: write " +:+ method)).

Definition initialize (timeout pid : Z) (rootDir : string) (h : lsp_handle) : lsp_handle * option string :=
  match request timeout 1 "initialize" (init_params pid rootDir) h with
  | (h, Err e) => (h, Some ("initialize: " +:+ e))
  | (h, Ok _) => match Notify "initialized" (AMap []) h with (h, true) => (h, None) | (h, false) => (h, Some "initialized") end
  end.

(** [Shutdown]; [next] is the id its request gets. *)
Definition Shutdown (next : Z) (h : lsp_handle) : lsp_handle :=
  if h_stopped h then h
  else
    let '(h, _) := request (2 * 1000000000) next "shutdown" ANil h in
    let '(h, _) := Notify "exit" ANil h in
    mkLspHandle (close_fds ["inW"] (h_fds h)) true true (h_sent h) (h_signals h ++ [SIGTERM]) true.

Definition kill_after_grace (h : lsp_handle) : lsp_handle :=
  if h_killDue h then mkLspHandle (h_fds h) (h_done h) (h_stopped h) (h_sent h) (h_signals h ++ [SIGKILL]) false else h.

(** The deferred calls of [readLoop]: the server's output ended. *)
Definition readLoop_return (h : lsp_handle) : lsp_handle :=
  mkLspHandle (close_fds ["outR"] (h_fds h)) true (h_stopped h) (h_sent h) (h_signals h) (h_killDue h).

(** [died]: the server's output ended before [initialize] failed. *)
Definition StartLSPServer (flt : start_faults) (abs_root : result string string) (died : bool) (initTimeout pid : Z) (lang : string) (argv : list string)
    : gset string * option spawn * lsp_handle * result start_error string :=
  let none := mkLspHandle ∅ false false [] [] false in
  let initTimeout := if (initTimeout <=? 0)%Z then defaultLSPInitTimeout else initTimeout in
  match argv with
  | [] => (∅, None, none, Err (LSPUnavailable ("no server command for " +:+ lang)))
  | bin :: _ =>
      match abs_root with
      | Err e => (∅, None, none, Err (StartFailed ("lsp: resolve workspace root: " +:+ e)))
      | Ok root =>
          match pipe1_err flt with
          | Some e => (∅, None, none, Err (StartFailed ("lsp: stdin pipe: " +:+ e)))
          | None =>
              let fds := open_fds ["inR"; "inW"] ∅ in
              match pipe2_err flt with
              | Some e => (close_fds ["inR"; "inW"] fds, None, none, Err (StartFailed ("lsp: stdout pipe: " +:+ e)))
              | None =>
                  let fds := open_fds ["outR"; "outW"] fds in
                  match start_err flt with
                  | Some e => (close_fds ["inR"; "inW"; "outR"; "outW"] fds, None, none, Err (LSPUnavailable ("start " +:+ bin +:+ ": " +:+ e)))
                  | None =>
                      let fds := close_fds ["inR"; "outW"] fds in
                      let '(h, e) := initialize initTimeout pid root (mkLspHandle fds false false [] [] false) in
                      match e with
                      | Some e => let h := Shutdown 2 (if died then readLoop_return h else h) in (h_fds h, Some (mkSpawn argv root true), h, Err (LSPUnavailable e))
                      | None => (h_fds h, Some (mkSpawn argv root true), h, Ok (JoinByte " " argv))
                      end
                  end
              end
          end
      end
  end.
End lsp.

Lemma request_keeps Req fok t id m p h : let h' := (request Req fok t id m p h).1 in
  h_fds h' = h_fds h /\ h_stopped h' = h_stopped h /\ h_signals h' = h_signals h /\ h_killDue h' = h_killDue h /\ h_done h' = h_done h.
Proof. unfold request. destruct (h_done h) eqn:Hd; [by rewrite ?Hd|]. by destruct (fok _). Qed.

Lemma Notify_keeps fok m p h : let h' := (Notify fok m p h).1 in
  h_fds h' = h_fds h /\ h_stopped h' = h_stopped h /\ h_signals h' = h_signals h /\ h_killDue h' = h_killDue h /\ h_done h' = h_done h.
Proof. unfold Notify. by destruct (fok _). Qed.

Lemma Shutdown_spec Req fok next h : h_stopped h = false -> let h' := Shutdown Req fok next h in
  h_fds h' = close_fds ["inW"] (h_fds h) /\ h_done h' = true /\ h_stopped h' = true /\ h_signals h' = h_signals h ++ [SIGTERM] /\ h_killDue h' = true /\
  Shutdown Req fok (next + 1) h' = h'.
Proof.
  intros Hs. unfold Shutdown. rewrite Hs. pose proof (request_keeps Req fok (2 * 1000000000) next "shutdown" ANil h) as (A1 & A2 & A3 & A4 & A5).
  destruct (request _ _ _ _ _ _ h) as [h1 r1]. pose proof (Notify_keeps fok "exit" ANil h1) as (B1 & B2 & B3 & B4 & B5). destruct (Notify _ _ _ h1) as [h2 r2].
  cbn in *. rewrite B1, A1, B3, A3. by split_and!.
Qed.

Lemma initialize_spec uri base Req fok t pid root h : h_done h = false ->
  let '(h', e) := initialize uri base Req fok t pid root h in
  h_fds h' = h_fds h /\ h_stopped h' = h_stopped h /\ h_signals h' = h_signals h /\ h_killDue h' = h_killDue h /\ h_done h' = h_done h /\
  (e = None -> (exists v, Req t "initialize" (init_params uri base pid root) = Ok v) /\
     h_sent h' = h_sent h ++ [ORequest 1 "initialize" (init_params uri base pid root); ONotify "initialized" (AMap [])]).
Proof.
  intros Hd. unfold initialize. pose proof (request_keeps Req fok t 1 "initialize" (init_params uri base pid root) h) as (A1 & A2 & A3 & A4 & A5).
  destruct (request Req fok t 1 _ _ h) as [h1 [v|e]] eqn:Er; cbn in A1, A2, A3, A4, A5; [|by split_and!].
  pose proof (Notify_keeps fok "initialized" (AMap []) h1) as (B1 & B2 & B3 & B4 & B5). destruct (Notify fok "initialized" (AMap []) h1) as [h2 ok] eqn:En. cbn in B1, B2, B3, B4, B5.
  destruct ok; split_and!; try congruence. intros _. unfold request in Er. rewrite Hd in Er. destruct (fok (ORequest _ _ _)); [|done]. injection Er as <- Hv.
  unfold Notify in En. destruct (fok (ONotify _ _)); [|done]. injection En as <-. split; [eauto|]. cbn. by rewrite <-app_assoc.
Qed.

(** A language server is handed over initialized or not at all: a failed start
    that spawned a process stops it, and once its output has ended no descriptor
    is left; a failed start that did not spawn leaves none; a server that is handed
    over was sent the initialize request, answered it, and was told so, in a group
    of its own, with the two parent's ends open. *)
Theorem lsp_start_is_all_or_nothing uri base Req fok flt root died t pid lang argv :
  let '(fds, sp, h, r) := StartLSPServer uri base Req fok flt root died t pid lang argv in
  match r with
  | Err e => match sp with
             | None => fds = ∅ /\ h_signals h = []
             | Some _ => h_fds (readLoop_return h) = ∅ /\ h_signals (kill_after_grace h) = [SIGTERM; SIGKILL] /\ h_done h = true /\ exists m, e = LSPUnavailable m
             end
  | Ok command => exists dir, root = Ok dir /\ sp = Some (mkSpawn argv dir true) /\ argv <> [] /\ command = JoinByte " " argv /\
      fds = {["inW"; "outR"]} /\ h_fds h = fds /\ h_signals h = [] /\
      h_sent h = [ORequest 1 "initialize" (init_params uri base pid dir); ONotify "initialized" (AMap [])] /\
      exists v, Req (if (t <=? 0)%Z then defaultLSPInitTimeout else t) "initialize" (init_params uri base pid dir) = Ok v
  end.
Proof.
  unfold StartLSPServer. destruct argv as [|bin rest]; [done|]. destruct root as [dir|e]; [|done]. destruct (pipe1_err flt); [done|].
  destruct (pipe2_err flt); [by split; [vm_compute|]|]. destruct (start_err flt); [by split; [vm_compute|]|].
  set (fds := close_fds ["inR"; "outW"] _). assert (fds = {["inW"; "outR"]}) as Hfds by (vm_compute; done). clearbody fds. set (timeout := if (t <=? 0)%Z then _ else t).
  pose proof (initialize_spec uri base Req fok timeout pid dir (mkLspHandle fds false false [] [] false) eq_refl) as Hi.
  destruct (initialize _ _ _ _ _ _ _ _) as [h [e|]]; destruct Hi as (I1 & I2 & I3 & I4 & I5 & I6); cbn in I1, I2, I3, I4, I5, I6.
  - set (h1 := if died then readLoop_return h else h). assert (h_stopped h1 = false /\ h_signals h1 = [] /\ close_fds ["outR"] (h_fds h1) = {["inW"]}) as (J1 & J2 & J3).
    { unfold h1. destruct died; cbn; rewrite ?I1, ?I2, ?I3, Hfds; by split_and!; vm_compute. }
    destruct (Shutdown_spec Req fok 2 h1 J1) as (S1 & S2 & S3 & S4 & S5 & _). split_and!.
    + unfold readLoop_return. cbn [h_fds]. rewrite S1. unfold close_fds in *. set_solver.
    + unfold kill_after_grace. rewrite S5. cbn. by rewrite S4, J2.
    + done.
    + by eexists.
  - destruct (I6 eq_refl) as [Hv Hsent]. exists dir. rewrite I1. by split_and!.
Qed.
