(* ===== verification/Export.v ===== *)
(** * Exporting a session (cmd/session-export/main.go)

    The tool that dumps the rows of one session as JSON lines.  It reads the
    tables that SessionStore.v and History.v write; a line is the value that is
    encoded, [json.Unmarshal] into a generic value is a parameter, and what the
    database driver and the output refuse are arguments. *)

From S2P Require Import Prelude GoString GoConv Event Table Session SessionStore History.
From stdpp Require Import sorting.

#[local] Open Scope nat_scope.

Inductive export_line :=
| sessionEvent (Sid : string) (Idx : Z) (EnvelopeID : string) (TimestampMS SizeBytes : Z) (Envelope : any)
| historyTurn (Sid : string) (TurnIdx : Z) (Role : string) (TimestampMS : Z) (Parts : any).

Definition kindAuto : string := "auto".
Definition kindSessions : string := "sessions".
Definition kindHistory : string := "history".

(** The file a path names: either store's tables, or both, or neither. *)
Record export_db := mkExportDb { x_events : option (gmap (string * Z) EventRow); x_turns : option (gmap (string * Z) SqlRow) }.

(** [x_scan], [x_write]: the row at which the scan or the write fails; [x_rows]:
    the iteration ends early with an error after so many rows. *)
Record export_faults := mkExportFaults {
  x_open : bool; x_ping : bool; x_detect : bool; x_create : bool; x_query : bool;
  x_scan : option nat; x_write : option nat; x_rows : option nat }.

Inductive export_error :=
| EUsage | EOpen | EPing | EDetect (msg : string) | EOutput | EQuery | EScan | EEncode (idx : Z) | ERows | EUnknownKind (k : string).

Section export.
Variable unmarshal_any : string -> option any.

(** Bytes that are not JSON are kept as a string. *)
Definition decode_or_raw (body : string) : any := default (AStr body) (unmarshal_any body).

Definition detectKind (flt : export_faults) (db : export_db) : result export_error string :=
  if x_detect flt then Err (EDetect "query")
  else match x_events db, x_turns db with
       | Some _, Some _ => Err (EDetect "both session_events and turns tables present - pass -kind explicitly")
       | Some _, None => Ok kindSessions
       | None, Some _ => Ok kindHistory
       | None, None => Err (EDetect "neither session_events nor turns table present; is this a NomadDev DB?")
       end.

(** The loop over the rows of a query: the lines written, and how it ended. *)
Fixpoint dump {R} (flt : export_faults) (line : Z -> R -> export_line) (i : nat) (rows : list (Z * R)) : list export_line * option export_error :=
  if bool_decide (x_rows flt = Some i) then ([], Some ERows)
  else match rows with
  | [] => ([], None)
  | (idx, r) :: rest =>
      if bool_decide (x_scan flt = Some i) then ([], Some EScan)
      else if bool_decide (x_write flt = Some i) then ([], Some (EEncode idx))
      else let '(out, e) := dump flt line (S i) rest in (line idx r :: out, e)
  end.

Definition event_line (sid : string) (idx : Z) (r : EventRow) : export_line :=
  sessionEvent sid idx (env_id r) (row_ts r) (row_size r) (decode_or_raw (env_json r)).

Definition turn_line (sid : string) (idx : Z) (r : SqlRow) : export_line :=
  historyTurn sid idx (rrole r) (rts r) (decode_or_raw (rparts r)).

Definition dumpSessions (flt : export_faults) (db : export_db) (sid : string) : list export_line * option export_error :=
  match x_query flt, x_events db with
  | false, Some t => dump flt (event_line sid) 0 (rows_of t sid)
  | _, _ => ([], Some EQuery)
  end.

Definition dumpHistory (flt : export_faults) (db : export_db) (sid : string) : list export_line * option export_error :=
  match x_query flt, x_turns db with
  | false, Some t => dump flt (turn_line sid) 0 (rows_of t sid)
  | _, _ => ([], Some EQuery)
  end.

(** Where the lines went: standard output, and the output file if one was made. *)
Record export_out := mkExportOut { x_stdout : list export_line; x_file : option (list export_line) }.

Definition export_run (flt : export_faults) (dbPath sid out kind : string) (db : export_db) : export_out * option export_error :=
  let nothing := mkExportOut [] None in
  if String.eqb dbPath "" || String.eqb sid "" then (nothing, Some EUsage)
  else if x_open flt then (nothing, Some EOpen)
  else if x_ping flt then (nothing, Some EPing)
  else match (if String.eqb kind kindAuto then detectKind flt db else Ok kind) with
  | Err e => (nothing, Some e)
  | Ok resolved =>
      let to_file := negb (String.eqb out "-") in
      if to_file && x_create flt then (nothing, Some EOutput)
      else
        let '(lines, e) :=
          if String.eqb resolved kindSessions then dumpSessions flt db sid
          else if String.eqb resolved kindHistory then dumpHistory flt db sid
          else ([], Some (EUnknownKind resolved)) in
        (if to_file then mkExportOut [] (Some lines) else mkExportOut lines None, e)
  end.

(** ** What is exported *)

Definition exported (o : export_out) : list export_line := default (x_stdout o) (x_file o).

(** The rows of one session, all of them, as the store orders them. *)
Definition export_spec (db : export_db) (kind sid : string) : list export_line :=
  if String.eqb kind kindSessions then from_option (fun t => (fun p => event_line sid p.1 p.2) <$> rows_of t sid) [] (x_events db)
  else from_option (fun t => (fun p => turn_line sid p.1 p.2) <$> rows_of t sid) [] (x_turns db).

Lemma dump_spec {R} flt (line : Z -> R -> export_line) rows : forall i, let '(out, e) := dump flt line i rows in
  out `prefix_of` ((fun p => line p.1 p.2) <$> rows) /\ (e = None -> out = (fun p => line p.1 p.2) <$> rows) /\
  (x_rows flt = None -> x_scan flt = None -> x_write flt = None -> e = None).
Proof.
  induction rows as [|[idx r] rows IH]; intros i; cbn [dump].
  - case_bool_decide as Hr; [|done]. split_and!; [done|done|congruence].
  - case_bool_decide as Hr; [split_and!; [apply prefix_nil|done|congruence]|]. case_bool_decide as Hsc; [split_and!; [apply prefix_nil|done|congruence]|].
    case_bool_decide as Hw; [split_and!; [apply prefix_nil|done|congruence]|]. specialize (IH (S i)). destruct (dump flt line (S i) rows) as [out e].
    destruct IH as (A & B & C). cbn. split_and!; [by apply prefix_cons|intros He; by rewrite (B He)|done].
Qed.

(** The kind of the file's one store. *)
Definition is_kind (db : export_db) (kind : string) : Prop :=
  kind = kindSessions /\ is_Some (x_events db) \/ kind = kindHistory /\ is_Some (x_turns db).

Lemma dump_kind flt db kind sid lines e : is_kind db kind ->
  (if String.eqb kind kindSessions then dumpSessions flt db sid else if String.eqb kind kindHistory then dumpHistory flt db sid else ([], Some (EUnknownKind kind))) = (lines, e) ->
  lines `prefix_of` export_spec db kind sid /\ (e = None -> lines = export_spec db kind sid) /\
  (x_query flt = false -> x_rows flt = None -> x_scan flt = None -> x_write flt = None -> e = None).
Proof.
  intros [[-> [t Ht]]|[-> [t Ht]]]; cbn [String.eqb kindSessions kindHistory]; unfold export_spec, dumpSessions, dumpHistory; cbn; rewrite Ht; cbn [from_option];
    (destruct (x_query flt); [intros [= <- <-]; split_and!; [apply prefix_nil|done|done]|]).
  - pose proof (dump_spec flt (event_line sid) (rows_of t sid) 0) as Hd. intros Hl. rewrite Hl in Hd. destruct Hd as (A & B & C). by split_and!; [| |intros _].
  - pose proof (dump_spec flt (turn_line sid) (rows_of t sid) 0) as Hd. intros Hl. rewrite Hl in Hd. destruct Hd as (A & B & C). by split_and!; [| |intros _].
Qed.

Definition line_idx (l : export_line) : Z := match l with sessionEvent _ i _ _ _ _ | historyTurn _ i _ _ _ => i end.

Lemma spec_sorted db kind sid : StronglySorted (fun a b => line_idx a < line_idx b)%Z (export_spec db kind sid).
Proof.
  assert (forall V (t : gmap (string * Z) V) (g : Z * V -> export_line), (forall p, line_idx (g p) = p.1) -> StronglySorted (fun a b => line_idx a < line_idx b)%Z (g <$> rows_of t sid)) as Hs.
  { intros V t g Hg. pose proof (rows_sorted t sid) as Hr. induction Hr as [|p l Hl IH Hp]; cbn; constructor; [done|].
    apply Forall_fmap. eapply Forall_impl; [exact Hp|]. intros q Hq. cbn. by rewrite !Hg. }
  unfold export_spec. destruct (String.eqb kind kindSessions); [destruct (x_events db)|destruct (x_turns db)]; cbn; try constructor; by apply Hs.
Qed.

Lemma resolved_kind flt db kind k : (if String.eqb kind kindAuto then detectKind flt db else Ok kind) = Ok k -> kind = k \/ kind = kindAuto /\ is_kind db k.
Proof.
  destruct (String.eqb_spec kind kindAuto) as [->|_]; [|intros [= ->]; by left]. unfold detectKind. destruct (x_detect flt); [done|].
  destruct (x_events db) eqn:He, (x_turns db) eqn:Ht; try done; intros [= <-]; right; (split; [done|]); [left|right]; by rewrite ?He, ?Ht.
Qed.

Definition no_export_faults : export_faults := mkExportFaults false false false false false None None None.

(** [kind] names the file's store [k], or leaves it to be found. *)
Definition names_kind (db : export_db) (kind k : string) : Prop := kind = k \/ kind = kindAuto /\ (x_events db = None \/ x_turns db = None).

Lemma run_spec flt dbPath sid out kind db o e : dbPath <> "" -> sid <> "" -> export_run flt dbPath sid out kind db = (o, e) ->
  (e = None -> exists k, is_kind db k /\ (kind = k \/ kind = kindAuto) /\ exported o = export_spec db k sid) /\
  (exists k, exported o `prefix_of` export_spec db k sid) /\
  (forall k, is_kind db k -> names_kind db kind k -> flt = no_export_faults -> e = None).
Proof.
  intros Hdb Hsid. unfold export_run. rewrite (proj2 (String.eqb_neq dbPath "")), (proj2 (String.eqb_neq sid "")) by done. cbn [orb].
  assert (forall f, (mkExportOut [] f, e) = (o, e) -> f = None \/ f = Some [] -> exported o = []) as Hempty by (intros f [= <-] [->| ->]; done).
  assert (forall k, [] `prefix_of` export_spec db k sid) as Hnil by (intros; apply prefix_nil).
  destruct (x_open flt) eqn:F1; [intros [= <- <-]; split_and!; [done|by exists kindSessions|intros k _ _ ->; done]|].
  destruct (x_ping flt) eqn:F2; [intros [= <- <-]; split_and!; [done|by exists kindSessions|intros k _ _ ->; done]|].
  destruct (if String.eqb kind kindAuto then detectKind flt db else Ok kind) as [k|x] eqn:Hk.
  2: { intros [= <- <-]. split_and!; [done|by exists kindSessions|]. intros k Hkind Hn ->. destruct (String.eqb_spec kind kindAuto) as [->|_]; [|done].
       unfold detectKind in Hk. cbn in Hk. destruct Hn as [Hn|[_ Hn]]; [by destruct Hkind as [[-> _]|[-> _]]|].
       destruct Hkind as [[_ [t Ht]]|[_ [t Ht]]], Hn as [Hn|Hn]; rewrite ?Ht, ?Hn in *; try done. }
  destruct (negb (String.eqb out "-") && x_create flt) eqn:F3.
  { intros [= <- <-]. split_and!; [done|by exists kindSessions|]. intros k' _ _ ->. by rewrite andb_false_r in F3. }
  destruct (if String.eqb k kindSessions then _ else _) as [lines e1] eqn:Hd. intros Hout.
  assert (exported o = lines /\ e = e1) as [-> ->] by (destruct (negb (String.eqb out "-")); by injection Hout as <- <-). clear Hout.
  destruct (resolved_kind _ _ _ _ Hk) as [->|[-> Hkind]].
  - destruct (String.eqb_spec k kindSessions) as [->|Hs].
    + destruct (x_events db) as [t|] eqn:Ht.
      * assert (is_kind db kindSessions) as Hkind by (left; by rewrite Ht). destruct (dump_kind flt db kindSessions sid lines e1 Hkind Hd) as (A & B & C).
        split_and!; [intros He; exists kindSessions; auto|by exists kindSessions|intros ? _ _ ->; by apply C].
      * unfold dumpSessions in Hd. rewrite Ht in Hd. assert (lines = [] /\ e1 = Some EQuery) as [-> ->] by (by destruct (x_query flt); injection Hd as <- <-).
        split_and!; [done|by exists kindSessions|]. intros k' Hk' Hn _. destruct Hn as [<-|[Hn _]]; [|done]. destruct Hk' as [[_ [? H1]]|[? _]]; [congruence|done].
    + destruct (String.eqb_spec k kindHistory) as [->|Hh].
      * destruct (x_turns db) as [t|] eqn:Ht.
        -- assert (is_kind db kindHistory) as Hkind by (right; by rewrite Ht). destruct (dump_kind flt db kindHistory sid lines e1 Hkind Hd) as (A & B & C).
           split_and!; [intros He; exists kindHistory; auto|by exists kindHistory|intros ? _ _ ->; by apply C].
        -- unfold dumpHistory in Hd. rewrite Ht in Hd. assert (lines = [] /\ e1 = Some EQuery) as [-> ->] by (by destruct (x_query flt); injection Hd as <- <-).
           split_and!; [done|by exists kindSessions|]. intros k' Hk' Hn _. destruct Hn as [<-|[Hn _]]; [|done]. destruct Hk' as [[? _]|[_ [? H1]]]; [done|congruence].
      * injection Hd as <- <-. split_and!; [done|by exists kindSessions|]. intros k' Hk' [<-|[-> _]] _; [by destruct Hk' as [[-> _]|[-> _]]|].
        exfalso. revert Hk. cbn. unfold detectKind. destruct (x_detect flt), (x_events db), (x_turns db); by intros [= <-].
  - destruct (dump_kind flt db k sid lines e1 Hkind Hd) as (A & B & C). split_and!; [intros He; exists k; auto|by exists k|intros ? _ _ ->; by apply C].
Qed.

(** An export that reports success is the session: it holds every row of the store's one table for that session id, in index order, each once, with its bytes decoded or, when they do not decode, kept, and no row of another session; in particular everything a reconnecting client could be replayed after a restart is in it.  An export that fails has written a prefix of that, and with nothing failing the tool succeeds on either store. *)
Theorem export_is_the_session flt dbPath sid out kind db o e : dbPath <> "" -> sid <> "" -> export_run flt dbPath sid out kind db = (o, e) ->
  (e = None -> exists k, is_kind db k /\ (kind = k \/ kind = kindAuto) /\ exported o = export_spec db k sid /\ StronglySorted (fun a b => line_idx a < line_idx b)%Z (exported o) /\
     (k = kindSessions -> forall ts t bs r, x_events db = Some t -> r ∈ newest_rows bs sid (mkSessionDB ts t) -> exists idx, event_line sid idx r ∈ exported o)) /\
  (exists k, exported o `prefix_of` export_spec db k sid) /\
  (forall k, is_kind db k -> names_kind db kind k -> flt = no_export_faults -> e = None).
Proof.
  intros Hdb Hsid Hrun. destruct (run_spec _ _ _ _ _ _ _ _ Hdb Hsid Hrun) as (A & B & C). split_and!; [|done|done].
  intros He. destruct (A He) as (k & Hk & Hn & Hx). exists k. rewrite Hx. split_and!; try done; [apply spec_sorted|]. intros -> ts t bs r Ht Hr.
  assert (r ∈ snd <$> rows_of t sid) as Hin.
  { unfold newest_rows in Hr. destruct (bs <? 0)%Z; [by rewrite elem_of_reverse in Hr|]. rewrite <-elem_of_reverse, <-(take_drop (Z.to_nat bs) (reverse _)). apply elem_of_app. by left. }
  apply list_elem_of_fmap in Hin as ([idx r'] & -> & Hin). exists idx. unfold export_spec. cbn. rewrite Ht. cbn.
  apply list_elem_of_fmap. by exists (idx, r').
Qed.
End export.

(** The output file is emptied before the kind of the store is looked at. *)
Lemma unknown_kind_empties_the_output unmarshal db :
  export_run unmarshal no_export_faults "sessions.db" "s" "out.jsonl" "session" db = (mkExportOut [] (Some []), Some (EUnknownKind "session")).
Proof. reflexivity. Qed.
