(* ===== verification/Commands.v ===== *)
(** * The command-line tools

    internal/wireclient/wireclient.go: dialing with a token, one frame at a time.
    cmd/wsclient: a scripted client.  scripts/gen-jwt, scripts/qr-jwt: minting
    tokens and onboarding links.  cmd/sandbox: one tool call outside the server.

    Flags are arguments and standard output is a list; [flag.Parse] is left out.
    A connection is the list of what its reads give, and then silence.  Durations
    of tokens are whole seconds, as in Auth.v. *)

From S2P Require Import Prelude GoString GoConv Event Wire Paths Session Auth GoJson AuditLog Http Sandbox Docker UrlQuery Onboard.

#[local] Open Scope nat_scope.

(** ** Dialing (wireclient.go) *)

Record DialOptions := mkDial { dial_URL : string; dial_Token : string; UseSubprotocol : bool }.

(** The headers of the upgrade request; gorilla joins the subprotocols. *)
Definition Dial (opts : DialOptions) : result string (list (string * string)) :=
  if String.eqb (dial_URL opts) "" then Err "wireclient: URL is required"
  else if String.eqb (dial_Token opts) "" then Err "wireclient: Token is required"
  else if UseSubprotocol opts then Ok [("Sec-WebSocket-Protocol", "bearer, " +:+ dial_Token opts)]
  else Ok [("Authorization", "Bearer " +:+ dial_Token opts)].

Definition header (h : list (string * string)) (k : string) : string := default "" (snd <$> List.find (fun p => String.eqb p.1 k) h).

(** A token that both ways of sending it can carry. *)
Definition plain_token (t : string) : Prop := t <> "" /\ TrimSpace t = t /\ no_byte "," t = true /\ ToLower t <> "bearer" /\ TrimSpace (" " +:+ t) = t.

Lemma SplitByte_bearer t : no_byte "," t = true -> SplitByte "," ("bearer, " +:+ t) = ["bearer"; " " +:+ t].
Proof.
  intros Ht. change ("bearer, " +:+ t) with ("bearer" +:+ String "," (" " +:+ t)). rewrite Split_app by done.
  rewrite !Split_single; [done| |done]. rewrite no_byte_app, Ht. done.
Qed.

(** The server finds the token the client sent, in either form. *)
Theorem dialed_token_is_extracted opts q remote hs : plain_token (dial_Token opts) -> Dial opts = Ok hs ->
  extractToken (mkHttpReq (header hs) q remote) = dial_Token opts.
Proof.
  intros (Hne & Htr & Hc & Hb & Hsp). unfold Dial. destruct (String.eqb (dial_URL opts) ""); [done|].
  rewrite (proj2 (String.eqb_neq _ _) Hne). destruct (UseSubprotocol opts); intros [= <-]; unfold extractToken; cbn [rq_header].
  - change (header [("Sec-WebSocket-Protocol", "bearer, " +:+ dial_Token opts)] "Sec-WebSocket-Protocol") with ("bearer, " +:+ dial_Token opts).
    rewrite SplitByte_bearer by done. cbn [first_token]. change (TrimSpace "bearer") with "bearer". change (ToLower "bearer") with "bearer". rewrite String.eqb_refl, orb_true_r.
    rewrite Hsp, (proj2 (String.eqb_neq _ _) Hne), (proj2 (String.eqb_neq _ _) Hb). done.
  - change (header [("Authorization", "Bearer " +:+ dial_Token opts)] "Sec-WebSocket-Protocol") with "".
    change (header [("Authorization", "Bearer " +:+ dial_Token opts)] "Authorization") with ("Bearer " +:+ dial_Token opts). cbn [String.eqb].
    change (HasPrefix (ToLower ("Bearer " +:+ dial_Token opts)) "bearer ") with (HasPrefix ("bearer " +:+ ToLower (dial_Token opts)) "bearer ").
    assert (HasPrefix ("bearer " +:+ ToLower (dial_Token opts)) "bearer " = true) as -> by (cbn; by destruct (ToLower _)).
    by change (str_drop (String.length "Bearer ") ("Bearer " +:+ dial_Token opts)) with (dial_Token opts).
Qed.

(** ** The scripted client (cmd/wsclient) *)

Definition buildPayload (send shell script : string) (cmdTimeoutMs : Z) (text denyReason : string) : result string (option any) :=
  if String.eqb send "" || String.eqb send EventClientHello then Ok None
  else if String.eqb send EventPing then Ok (Some (AMap [("nonce", AStr "wsclient")]))
  else if String.eqb send EventUserIntent then
    if String.eqb text "" then Err "-text is required with -send user.intent" else Ok (Some (AMap [("text", AStr text)]))
  else if String.eqb send EventToolApprovalGranted then Ok (Some (AMap []))
  else if String.eqb send EventToolApprovalDenied then Ok (Some (AMap (if String.eqb denyReason "" then [] else [("reason", AStr denyReason)])))
  else if String.eqb send EventCommandRequest then
    if String.eqb script "" then Err "-script is required with -send command.request"
    else Ok (Some (AMap ([("tool", AStr "execute_script"); ("args", AMap [("shell", AStr shell); ("script", AStr script)])] ++
                         if (cmdTimeoutMs =? 0)%Z then [] else [("timeout_ms", AInt cmdTimeoutMs)])))
  else Ok None.

(** What the tool does that can be seen. *)
Inductive act :=
| ADial (opts : DialOptions)
| ARecv (e : Envelope)            (* a frame that decodes, printed *)
| ASent (e : Envelope)            (* written, then printed *)
| AReconnect (id : string).

Section wsclient.
Variable unmarshal : string -> option Envelope.

(** [ReadEnvelopeRaw]: the next read, and what is left. *)
Definition ReadEnvelopeRaw (reads : list (result string string)) : result string Envelope * list (result string string) :=
  match reads with
  | [] => (Err "timeout", [])
  | Err e :: rest => (Err e, rest)
  | Ok data :: rest => (match DecodeBytes unmarshal data with Ok e => Ok e | Err _ => Err "decode" end, rest)
  end.

(** What dialing gives: an error, or the reads of the connection and whether it
    takes a write. *)
Definition dialed : Type := result string (list (result string string) * bool).

(** The loop until an envelope of type [after]. *)
Fixpoint read_until (after lastID : string) (reads : list (result string string)) : list act * string * option string :=
  match reads with
  | [] => ([], lastID, Some "read: timeout")
  | r :: rest =>
      match (ReadEnvelopeRaw [r]).1 with
      | Err e => ([], lastID, Some ("read: " +:+ e))
      | Ok got =>
          if String.eqb (EType got) after then ([ARecv got], ID got, None)
          else let '(tr, id, e) := read_until after (ID got) rest in (ARecv got :: tr, id, e)
      end
  end.

Definition runSession (d : dialed) (envID : string) (now : Z) (send : string) (payload : option any) (correlationID disconnectAfter : string)
    : list act * string * option string :=
  match d with
  | Err e => ([], "", Some e)
  | Ok (reads, writes) =>
      match ReadEnvelopeRaw reads with
      | (Err e, _) => ([], "", Some ("read hello: " +:+ e))
      | (Ok hello, reads) =>
          if String.eqb send "" then ([ARecv hello], ID hello, None)
          else
            let env := NewEnvelope envID now send payload in
            let env := if String.eqb correlationID "" then env else mkEnvelope (ID env) (EType env) (TS env) correlationID (Payload env) in
            if negb writes then ([ARecv hello], ID hello, Some "wireclient: write")
            else if String.eqb disconnectAfter "" then
              match ReadEnvelopeRaw reads with
              | (Err e, _) => ([ARecv hello; ASent env], ID hello, Some ("read reply: " +:+ e))
              | (Ok got, _) => ([ARecv hello; ASent env; ARecv got], ID got, None)
              end
            else let '(tr, id, e) := read_until disconnectAfter (ID hello) reads in (ARecv hello :: ASent env :: tr, id, e)
      end
  end.

(** Draining ends at the first read that fails. *)
Fixpoint drain (reads : list (result string string)) : list act :=
  match reads with
  | [] => []
  | r :: rest => match (ReadEnvelopeRaw [r]).1 with Err _ => [] | Ok got => ARecv got :: drain rest end
  end.

Definition resume (d : dialed) (envID : string) (now : Z) (lastID : string) : list act * option string :=
  match d with
  | Err e => ([], Some e)
  | Ok (reads, writes) =>
      match ReadEnvelopeRaw reads with
      | (Err e, _) => ([], Some ("read hello: " +:+ e))
      | (Ok hello, reads) =>
          let env := NewEnvelope envID now EventClientHello (Some (AMap (if String.eqb lastID "" then [] else [("last_event_id", AStr lastID)]))) in
          if negb writes then ([ARecv hello], Some "write client.hello") else (ARecv hello :: ASent env :: drain reads, None)
      end
  end.

Record ws_flags := mkWsFlags {
  f_url : string; f_token : string; f_send : string; f_subprotocol : bool; f_disconnectAfter : string; f_reconnectWith : string;
  f_script : string; f_shell : string; f_cmdTimeout : Z; f_text : string; f_correlationID : string; f_denyReason : string }.

Definition reconnectAuto : string := "auto".

(** [main]: the exit status and what happened; [d1], [d2] are the connections. *)
Definition wsclient (f : ws_flags) (d1 d2 : dialed) (id1 id2 : string) (now : Z) : Z * list act :=
  if String.eqb (f_token f) "" then (2%Z, [])
  else match buildPayload (f_send f) (f_shell f) (f_script f) (f_cmdTimeout f) (f_text f) (f_denyReason f) with
  | Err _ => (2%Z, [])
  | Ok payload =>
      let opts := mkDial (f_url f) (f_token f) (f_subprotocol f) in
      let '(tr, lastID, e) := runSession d1 id1 now (f_send f) payload (f_correlationID f) (f_disconnectAfter f) in
      let tr := ADial opts :: tr in
      match e with
      | Some _ => (1%Z, tr)
      | None =>
          if String.eqb (f_reconnectWith f) "" then (0%Z, tr)
          else if String.eqb (f_reconnectWith f) reconnectAuto && String.eqb lastID "" then (1%Z, tr)
          else
            let resumeID := if String.eqb (f_reconnectWith f) reconnectAuto then lastID else f_reconnectWith f in
            let '(tr2, e2) := resume d2 id2 now resumeID in
            (match e2 with Some _ => 1%Z | None => 0%Z end, tr ++ AReconnect resumeID :: ADial opts :: tr2)
      end
  end.

Definition last_seen (tr : list act) : option Envelope := last (omap (fun a => match a with ARecv e => Some e | _ => None end) tr).

Lemma read_until_last after reads : forall lastID tr id, read_until after lastID reads = (tr, id, None) -> ID <$> last_seen tr = Some id /\ exists e, last_seen tr = Some e /\ EType e = after.
Proof.
  induction reads as [|r reads IH]; intros lastID tr id; cbn [read_until]; [done|]. destruct (ReadEnvelopeRaw [r]).1 as [got|e]; [|done].
  destruct (String.eqb_spec (EType got) after) as [Ha|_]; [intros [= <- <-]; eauto|]. destruct (read_until after (ID got) reads) as [[tr1 id1] e1] eqn:Hr.
  intros [= <- <- ->]. destruct (IH _ _ _ Hr) as [H1 (e & H2 & H3)]. unfold last_seen in *. cbn. rewrite last_cons. rewrite H2 in *. cbn in *. eauto.
Qed.

Lemma session_last d envID now send payload cid after tr id : runSession d envID now send payload cid after = (tr, id, None) -> ID <$> last_seen tr = Some id.
Proof.
  unfold runSession. destruct d as [[reads w]|e]; [|done]. destruct (ReadEnvelopeRaw reads) as [[hello|e] rest]; [|done].
  destruct (String.eqb send ""); [by intros [= <- <-]|]. destruct w; [|done]. cbn [negb]. destruct (String.eqb after "").
  - destruct (ReadEnvelopeRaw rest) as [[got|e] rest']; [|done]. by intros [= <- <-].
  - destruct (read_until after (ID hello) rest) as [[tr1 id1] e1] eqn:Hr. intros [= <- <- ->]. destruct (read_until_last _ _ _ _ _ Hr) as [H1 (e & H2 & _)].
    unfold last_seen in *. cbn. rewrite !last_cons, H2. by rewrite H2 in H1.
Qed.

Definition no_reconnect (a : act) : Prop := match a with AReconnect _ => False | _ => True end.

Lemma only_split {T} (P : T -> Prop) A : forall x B pre y post, Forall P A -> Forall P B -> ~ P y -> A ++ x :: B = pre ++ y :: post -> pre = A /\ y = x /\ post = B.
Proof.
  induction A as [|a A IH]; intros x B [|p pre] y post HA HB Hy; cbn.
  - by intros [= -> ->].
  - intros [= _ ->]. exfalso. apply Forall_app in HB as [_ HB]. by apply Forall_cons in HB as [? _].
  - intros [= -> _]. by apply Forall_cons in HA as [? _].
  - intros [= -> Heq]. apply Forall_cons in HA as [_ HA]. destruct (IH _ _ _ _ _ HA HB Hy Heq) as (-> & -> & ->). done.
Qed.

Lemma read_until_plain after reads : forall lastID, Forall no_reconnect (read_until after lastID reads).1.1.
Proof.
  induction reads as [|r reads IH]; intros lastID; cbn [read_until]; [constructor|]. destruct (ReadEnvelopeRaw [r]).1 as [got|e]; [|constructor].
  destruct (String.eqb _ _); [by repeat constructor|]. specialize (IH (ID got)). destruct (read_until after (ID got) reads) as [[tr1 id1] e1]. by constructor.
Qed.

Lemma session_plain d envID now send payload cid after : Forall no_reconnect (runSession d envID now send payload cid after).1.1.
Proof.
  unfold runSession. destruct d as [[reads w]|e]; [|constructor]. destruct (ReadEnvelopeRaw reads) as [[hello|e] rest]; [|constructor].
  destruct (String.eqb send ""); [by repeat constructor|]. destruct w; [|by repeat constructor]. cbn [negb]. destruct (String.eqb after "").
  - destruct (ReadEnvelopeRaw rest) as [[got|e] rest']; by repeat constructor.
  - pose proof (read_until_plain after rest (ID hello)) as Hp. destruct (read_until after (ID hello) rest) as [[tr1 id1] e1]. by repeat constructor.
Qed.

Lemma drain_plain reads : Forall no_reconnect (drain reads).
Proof. induction reads as [|r reads IH]; cbn [drain]; [constructor|]. destruct (ReadEnvelopeRaw [r]).1; by constructor. Qed.

Lemma resume_plain d envID now lastID : Forall no_reconnect (resume d envID now lastID).1.
Proof.
  unfold resume. destruct d as [[reads w]|e]; [|constructor]. destruct (ReadEnvelopeRaw reads) as [[hello|e] rest]; [|constructor].
  destruct w; cbn; repeat constructor. apply drain_plain.
Qed.

Lemma resume_sent d envID now lastID tr : lastID <> "" -> resume d envID now lastID = (tr, None) ->
  exists hello rest, tr = ARecv hello :: ASent (NewEnvelope envID now EventClientHello (Some (AMap [("last_event_id", AStr lastID)]))) :: rest.
Proof.
  intros Hne. unfold resume. destruct d as [[reads w]|e]; [|done]. destruct (ReadEnvelopeRaw reads) as [[hello|e] rest]; [|done].
  rewrite (proj2 (String.eqb_neq _ _) Hne). destruct w; [|done]. intros [= <-]. eauto.
Qed.

(** The scripted client resumes where it stopped: when it reconnects with "auto", the id it announces in its client.hello is that of the last frame it printed on the first connection, and the announcement comes after the new connection's hello; the tool exits with success only if the announcement was written. *)
Theorem wsclient_resumes_where_it_stopped f d1 d2 id1 id2 now code tr pre resumeID post :
  wsclient f d1 d2 id1 id2 now = (code, tr) -> tr = pre ++ AReconnect resumeID :: post -> f_reconnectWith f = reconnectAuto ->
  (exists e, last_seen pre = Some e /\ ID e = resumeID /\ resumeID <> "") /\
  (code = 0%Z -> exists hello rest, post = ADial (mkDial (f_url f) (f_token f) (f_subprotocol f)) :: ARecv hello ::
     ASent (NewEnvelope id2 now EventClientHello (Some (AMap [("last_event_id", AStr resumeID)]))) :: rest).
Proof.
  unfold wsclient. destruct (String.eqb (f_token f) ""); [by intros [= _ <-] ?; destruct pre|]. destruct (buildPayload _ _ _ _ _ _) as [payload|]; [|by intros [= _ <-] ?; destruct pre].
  set (opts := mkDial _ _ _). pose proof (session_plain d1 id1 now (f_send f) payload (f_correlationID f) (f_disconnectAfter f)) as Hp1.
  destruct (runSession _ _ _ _ _ _ _) as [[tr1 lastID] e] eqn:Hs. cbn in Hp1.
  assert (forall c, (c, ADial opts :: tr1) = (code, tr) -> tr = pre ++ AReconnect resumeID :: post -> False) as Hno.
  { intros c [= _ <-] Heq. assert (Forall no_reconnect (pre ++ AReconnect resumeID :: post)) as Hf by (rewrite <-Heq; by constructor).
    apply Forall_app in Hf as [_ Hf]. by apply Forall_cons in Hf as [? _]. }
  destruct e as [e|]; [intros Hr Heq; by destruct (Hno _ Hr Heq)|]. destruct (String.eqb (f_reconnectWith f) ""); [intros Hr Heq; by destruct (Hno _ Hr Heq)|].
  intros Hr Heq Hauto. rewrite Hauto in Hr. change (String.eqb reconnectAuto reconnectAuto) with true in Hr. cbn [andb] in Hr.
  destruct (String.eqb_spec lastID "") as [|Hne]; [by destruct (Hno _ Hr Heq)|]. pose proof (resume_plain d2 id2 now lastID) as Hp2.
  destruct (resume d2 id2 now lastID) as [tr2 e2] eqn:Hre. cbn in Hp2. injection Hr as Hcode Htr. rewrite Heq in Htr.
  apply (only_split no_reconnect (ADial opts :: tr1)) in Htr as (-> & [= ->] & ->); [|by constructor|by constructor|cbn; tauto].
  apply session_last in Hs. split.
  - unfold last_seen in *. cbn. destruct (last _) as [e|]; [|done]. injection Hs as Hid. by exists e.
  - intros ->. destruct e2; [done|]. destruct (resume_sent _ _ _ _ _ Hne Hre) as (hello & rest & ->). eauto.
Qed.
End wsclient.

(** ** Minting (scripts/gen-jwt, scripts/qr-jwt) *)

Record gen_flags := mkGen { g_sub : string; g_sid : string; g_ttl : Z; g_refreshTTL : Z; g_scopes : string; g_kind : string }.

Section mint.
Context {token : Type}.
Variable SignedString : string -> Claims -> token.

Inductive gen_output :=
| GenExit (code : Z)
| GenToken (t : token)
| GenPair (access refresh : token) (access_expires_in refresh_expires_in : Z).

(** [env_secret] is the variable, [load] the configuration's secret; [jti1] and
    [jti2] are the ids of the tokens in the order they are signed. *)
Definition gen_jwt (f : gen_flags) (env_secret : string) (load : option string) (now : Z) (jti1 jti2 : string) : gen_output :=
  if String.eqb env_secret "" then GenExit 2
  else match load with
  | None => GenExit 1
  | Some key =>
      let scopes := scope_list (g_scopes f) in
      let issuer := mkIssuer key (g_ttl f) (g_refreshTTL f) in
      if String.eqb (g_kind f) "access" then GenToken (SignAccess SignedString issuer now jti1 (g_sub f) (g_sid f) scopes)
      else if String.eqb (g_kind f) "refresh" then GenToken (SignRefresh SignedString issuer now jti1 (g_sub f) (g_sid f) scopes)
      else if String.eqb (g_kind f) "pair" then
        GenPair (SignAccess SignedString issuer now jti1 (g_sub f) (g_sid f) scopes) (SignRefresh SignedString issuer now jti2 (g_sub f) (g_sid f) scopes) (g_ttl f) (g_refreshTTL f)
      else GenExit 2
  end.

Definition buildDeepLink (parse : string -> option URL) (print_token : token -> string) (serverURL : string) (t : token) (sid : string) : option URL :=
  u ← parse serverURL; Some (mkURL (Scheme u) (User u) (Host u) "/" (ForceQuery u) "" (onboard_fragment (print_token t) sid)).

(** [run] of qr-jwt: the link that is printed, and whether it ended well;
    [encode], [write]: the QR library. *)
Definition qr_jwt (parse : string -> option URL) (print_token : token -> string) (env_secret : string) (load : option string) (encode write : URL -> bool)
    (serverURL sub sid : string) (ttl : Z) (scopes out : string) (urlOnly : bool) (now : Z) (jti : string) : option URL * bool :=
  if String.eqb serverURL "" then (None, false)
  else match parse serverURL with
  | None => (None, false)
  | Some _ =>
      if String.eqb env_secret "" then (None, false)
      else match load with
      | None => (None, false)
      | Some key =>
          let t := SignAccess SignedString (mkIssuer key ttl ttl) now jti sub sid (scope_list scopes) in
          match buildDeepLink parse print_token serverURL t sid with
          | None => (None, false)
          | Some link =>
              if negb urlOnly && negb (encode link) then (Some link, false)
              else if negb (String.eqb out "") && negb (write link) then (Some link, false)
              else (Some link, true)
          end
      end
  end.
End mint.

Section minted.
Context {token R : Type} `{RevocationList R}.
Variables (is_empty : token -> bool) (pwc : string -> token -> option Claims) (sign : string -> Claims -> token) (at_ : Z).
Context `{!JwtLibrary is_empty pwc sign at_}.
Variables (l : list string) (rev : R) (key : string).
Hypotheses (Hkey : key ∈ l) (Hkey' : key <> "").

(** What a server with these secrets makes of a token at that time. *)
Definition is_access (t : token) (c : Claims) : Prop :=
  cl_kind c = KindAccess /\ ParseAccess is_empty pwc (NewVerifierWithSecrets l rev) t = Ok c /\ ParseRefresh is_empty pwc (NewVerifierWithSecrets l rev) t = Err ErrWrongKind.
Definition is_refresh (t : token) (c : Claims) : Prop :=
  cl_kind c = KindRefresh /\ ParseRefresh is_empty pwc (NewVerifierWithSecrets l rev) t = Ok c /\ ParseAccess is_empty pwc (NewVerifierWithSecrets l rev) t = Err ErrWrongKind.

Lemma signed_parses now jti sub sid scopes kind ttl a r : (now <= at_ < now + ttl)%Z -> sub <> "" -> sid <> "" -> IsRevoked rev jti = Ok false ->
  Parse is_empty pwc (NewVerifierWithSecrets l rev) (signKind sign (mkIssuer key a r) now jti sub sid scopes kind ttl) = Ok (mkClaims sub sid scopes kind Issuer now now (now + ttl) jti).
Proof.
  intros Hat Hsub Hsid Hrev. unfold Parse, signKind. cbn [Auth.secret]. apply (parseCtx_signed is_empty pwc sign at_); cbn; try done.
  by apply list_elem_of_filter.
Qed.

Lemma access_opens now jti sub sid scopes a r : (now <= at_ < now + a)%Z -> sub <> "" -> sid <> "" -> IsRevoked rev jti = Ok false ->
  is_access (SignAccess sign (mkIssuer key a r) now jti sub sid scopes) (mkClaims sub sid scopes KindAccess Issuer now now (now + a) jti).
Proof. intros. unfold is_access, ParseAccess, ParseRefresh, SignAccess. cbn [accessTTL]. by rewrite signed_parses. Qed.

Lemma refresh_opens now jti sub sid scopes a r : (now <= at_ < now + r)%Z -> sub <> "" -> sid <> "" -> IsRevoked rev jti = Ok false ->
  is_refresh (SignRefresh sign (mkIssuer key a r) now jti sub sid scopes) (mkClaims sub sid scopes KindRefresh Issuer now now (now + r) jti).
Proof. intros. unfold is_refresh, ParseAccess, ParseRefresh, SignRefresh. cbn [refreshTTL]. by rewrite signed_parses. Qed.

(** Minted tokens open the server for what they were minted for and nothing else: with the server's secret and a subject and session id, what gen-jwt prints with -kind access is accepted as an access token, with exactly the subject, session and scopes of the flags, while it is in force and not revoked, and refused as a refresh token; with -kind refresh the other way round; a pair is one of each; any other kind is refused. *)
Theorem minted_tokens_open_the_server f now jti1 jti2 : g_sub f <> "" -> g_sid f <> "" -> IsRevoked rev jti1 = Ok false -> IsRevoked rev jti2 = Ok false ->
  (now <= at_ < now + Z.min (g_ttl f) (g_refreshTTL f))%Z ->
  let claims kind ttl jti := mkClaims (g_sub f) (g_sid f) (scope_list (g_scopes f)) kind Issuer now now (now + ttl) jti in
  match gen_jwt sign f key (Some key) now jti1 jti2 with
  | GenExit code => code = 2%Z /\ g_kind f <> "access" /\ g_kind f <> "refresh" /\ g_kind f <> "pair"
  | GenToken t => g_kind f = "access" /\ is_access t (claims KindAccess (g_ttl f) jti1) \/ g_kind f = "refresh" /\ is_refresh t (claims KindRefresh (g_refreshTTL f) jti1)
  | GenPair a r ea er => g_kind f = "pair" /\ is_access a (claims KindAccess ea jti1) /\ is_refresh r (claims KindRefresh er jti2) /\ ea = g_ttl f /\ er = g_refreshTTL f
  end.
Proof.
  intros Hsub Hsid Hr1 Hr2 Hat. cbn zeta. unfold gen_jwt. rewrite (proj2 (String.eqb_neq _ _) Hkey').
  destruct (String.eqb_spec (g_kind f) "access") as [Ka|Ka]; [left; split; [done|]; apply access_opens; try done; lia|].
  destruct (String.eqb_spec (g_kind f) "refresh") as [Kr|Kr]; [right; split; [done|]; apply refresh_opens; try done; lia|].
  destruct (String.eqb_spec (g_kind f) "pair") as [Kp|Kp]; [|done]. split_and!; try done; [apply access_opens|apply refresh_opens]; try done; lia.
Qed.

(** The link of qr-jwt hands its reader the session id and a token the server
    accepts. *)
Theorem qr_link_opens_the_server parse print enc wr serverURL sub sid ttl scopes out only now jti link ok : sub <> "" -> sid <> "" -> IsRevoked rev jti = Ok false ->
  (now <= at_ < now + ttl)%Z -> qr_jwt sign parse print key (Some key) enc wr serverURL sub sid ttl scopes out only now jti = (Some link, ok) -> Scheme link <> "nomaddev" ->
  exists server t, ExtractOnboardParams (Some link) = (server, print t, sid) /\ is_access t (mkClaims sub sid (scope_list scopes) KindAccess Issuer now now (now + ttl) jti).
Proof.
  intros Hsub Hsid Hrev Hat. unfold qr_jwt. destruct (String.eqb serverURL ""); [done|]. destruct (parse serverURL) as [u|] eqn:Hp; [|done].
  rewrite (proj2 (String.eqb_neq _ _) Hkey'). unfold buildDeepLink. rewrite Hp. cbn [mbind option_bind]. set (t := SignAccess _ _ _ _ _ _ _). intros Hr Hsch.
  assert (link = mkURL (Scheme u) (User u) (Host u) "/" (ForceQuery u) "" (onboard_fragment (print t) sid)) as -> by (repeat case_match; congruence). clear Hr.
  unfold ExtractOnboardParams. cbn [Scheme Fragment Host] in *. rewrite (proj2 (String.eqb_neq (Scheme u) "nomaddev")) by done.
  destruct (String.eqb_spec (onboard_fragment (print t) sid) "") as [He|_].
  { unfold onboard_fragment in He. rewrite (proj2 (String.eqb_neq _ _) Hsid) in He. done. }
  rewrite fragment_parses, (proj2 (String.eqb_neq _ _) Hsid). eexists _, t. split; [reflexivity|]. by apply access_opens.
Qed.
End minted.

(** The lifetime of a refresh token is -refresh-ttl, whatever -ttl says. *)
Lemma refresh_ignores_ttl {token} (sign : string -> Claims -> token) sub sid ttl ttl' rttl scopes key now j1 j2 :
  gen_jwt sign (mkGen sub sid ttl rttl scopes "refresh") key (Some key) now j1 j2 = gen_jwt sign (mkGen sub sid ttl' rttl scopes "refresh") key (Some key) now j1 j2.
Proof. unfold gen_jwt. by destruct (String.eqb key ""). Qed.

(** ** One tool call (cmd/sandbox) *)

Record sandbox_flags := mkSandboxFlags {
  s_tool : string; s_shell : string; s_script : string; s_args : string; s_maxResultBytes : Z; s_timeout : Z }.

Inductive sandbox_error := SArgs | SStdin | SNoScript | SRunner (e : docker_error) | SNoRunner | SExec (e : gerror).

(** A line of output. *)
Definition chunk_entry (stream_name : stream -> string) (error_text : gerror -> string) (c : ExecChunk) : any :=
  AMap ([("stream", AStr (stream_name (Stream c))); ("data", AStr (Data c)); ("exit_code", AInt (ExitCode c))] ++
        match ChunkErr c with Some e => [("err", AStr (error_text e))] | None => [] end).

Section sandbox_cli.
Variable unmarshal_args : string -> option args.
Variable Exec_of : runner -> ExecRequest -> result gerror (list ExecChunk).
Variable stream_name : stream -> string.
Variable error_text : gerror -> string.

Definition tool_args (f : sandbox_flags) (stdin : option string) : result sandbox_error args :=
  if negb (String.eqb (s_args f) "") then match unmarshal_args (s_args f) with None => Err SArgs | Some m => Ok m end
  else
    match (if String.eqb (s_script f) "-" then stdin else Some (s_script f)) with
    | None => Err SStdin
    | Some body =>
        if String.eqb body "" && String.eqb (s_tool f) "execute_script" then Err SNoScript
        else Ok [("shell", AStr (s_shell f)); ("script", AStr body)]
    end.

(** The request that reached the runner, and the lines. *)
Definition sandbox_run (f : sandbox_flags) (stdin : option string) (new : result docker_error runner) : option ExecRequest * result sandbox_error (list any) :=
  match tool_args f stdin with
  | Err e => (None, Err e)
  | Ok m =>
      match new with
      | Err e => (None, Err (SRunner e))
      | Ok ROff => (None, Err SNoRunner)
      | Ok r =>
          let req := mkRequest (s_tool f) m "" (s_timeout f) "" (s_maxResultBytes f) in
          (Some req, match Exec_of r req with Err e => Err (SExec e) | Ok l => Ok (chunk_entry stream_name error_text <$> l) end)
      end
  end.

(** Every chunk is a line, in order; a script that is empty or cannot be read is
    never run. *)
Lemma sandbox_run_lines f stdin new req out : sandbox_run f stdin new = (Some req, out) ->
  rTool req = s_tool f /\ Timeout req = s_timeout f /\ (s_args f = "" -> s_tool f = "execute_script" -> exists body, body <> "" /\ rArgs req = [("shell", AStr (s_shell f)); ("script", AStr body)]) /\
  exists r, new = Ok r /\ r <> ROff /\ forall l, Exec_of r req = Ok l -> out = Ok (chunk_entry stream_name error_text <$> l).
Proof.
  unfold sandbox_run. destruct (tool_args f stdin) as [m|e] eqn:Hm; [|done]. destruct new as [[| |]|e]; try done; intros [= <- <-]; cbn [rTool Timeout rArgs];
    (split_and!; [done|done| |eexists; split_and!; [done|done|by intros l ->]]); intros Ha Ht; unfold tool_args in Hm; rewrite Ha, Ht in Hm; cbn in Hm;
    (destruct (if String.eqb (s_script f) "-" then stdin else _) as [body|]; [|done]); destruct (String.eqb_spec body "") as [|Hb]; [done|injection Hm as <-; eauto|done|injection Hm as <-; eauto].
Qed.
End sandbox_cli.
