(* ===== verification/Mock.v ===== *)
(** * The scripted translator (internal/middleware/mock.go)

    The translator of the mock runtime: stage [n] of its script answers the [n]th
    request, a new turn or a resumed one alike, and a closing message answers
    every request past the script.  [cancel] is the number of events that a stage
    delivers before its context ends. *)

From S2P Require Import Prelude GoString Event Sandbox History Intent Pool.

#[local] Open Scope nat_scope.

Record MockTranslator := mkMockTranslator {
  Script : list (list AssistantEvent); PerEventDelay : Z; mt_stage : nat; canceled : bool; streams : Z;
  resumeRes : list ToolResult; inputs : list TurnInput }.

Definition NewMockTranslator (stages : list (list AssistantEvent)) : MockTranslator := mkMockTranslator stages 0 0 false 0 [] [].

Definition Cancelled (m : MockTranslator) : bool := canceled m.
Definition Streams (m : MockTranslator) : Z := streams m.
Definition ResumedResults (m : MockTranslator) : list ToolResult := resumeRes m.
Definition Inputs (m : MockTranslator) : list TurnInput := inputs m.

Definition stop_event : AssistantEvent := mkEvent "" "" None (Some (mkFinal "" "stop" no_usage)) None None.

(** The events that reach the channel before it is closed. *)
Definition runStage (cancel : option nat) (m : MockTranslator) : MockTranslator * list AssistantEvent :=
  let next cn := mkMockTranslator (Script m) (PerEventDelay m) (S (mt_stage m)) cn (streams m + 1) (resumeRes m) (inputs m) in
  match Script m !! mt_stage m with
  | None => (next (canceled m), [stop_event])
  | Some evs =>
      match cancel with
      | Some k => if k <? length evs then (next true, take k evs) else (next (canceled m), evs)
      | None => (next (canceled m), evs)
      end
  end.

Definition Stream (cancel : option nat) (i : TurnInput) (m : MockTranslator) : MockTranslator * list AssistantEvent :=
  runStage cancel (mkMockTranslator (Script m) (PerEventDelay m) (mt_stage m) (canceled m) (streams m) (resumeRes m) (inputs m ++ [i])).

Definition Resume (cancel : option nat) (r : ToolResult) (m : MockTranslator) : MockTranslator * list AssistantEvent :=
  runStage cancel (mkMockTranslator (Script m) (PerEventDelay m) (mt_stage m) (canceled m) (streams m) (resumeRes m ++ [r]) (inputs m)).

Inductive request := NewTurn (i : TurnInput) | Resumed (r : ToolResult).

Definition serve (m : MockTranslator) (q : request * option nat) : MockTranslator * list AssistantEvent :=
  match q.1 with NewTurn i => Stream q.2 i m | Resumed r => Resume q.2 r m end.

Fixpoint serve_all (m : MockTranslator) (qs : list (request * option nat)) : MockTranslator * list (list AssistantEvent) :=
  match qs with
  | [] => (m, [])
  | q :: qs => let '(m, evs) := serve m q in let '(m, rest) := serve_all m qs in (m, evs :: rest)
  end.

(** What the [n]th request is answered with when nothing is cancelled. *)
Definition scripted (script : list (list AssistantEvent)) (n : nat) : list AssistantEvent := default [stop_event] (script !! n).

Definition cut_short (cancel : option nat) (evs : list AssistantEvent) : list AssistantEvent :=
  match cancel with Some k => take k evs | None => evs end.

Lemma mock_serve_spec m q : let '(m', evs) := serve m q in
  Script m' = Script m /\ mt_stage m' = S (mt_stage m) /\ streams m' = (streams m + 1)%Z /\
  evs = (if mt_stage m <? length (Script m) then cut_short q.2 (scripted (Script m) (mt_stage m)) else [stop_event]) /\
  canceled m' = canceled m || negb (length evs =? length (scripted (Script m) (mt_stage m))) /\
  inputs m' = inputs m ++ (match q.1 with NewTurn i => [i] | _ => [] end) /\ resumeRes m' = resumeRes m ++ (match q.1 with Resumed r => [r] | _ => [] end).
Proof.
  unfold serve, Stream, Resume, runStage, scripted, cut_short. destruct q as [[i|r] cancel]; cbn [fst snd Script mt_stage streams canceled inputs resumeRes].
  all: destruct (Script m !! mt_stage m) as [evs|] eqn:Hs.
  all: try (apply lookup_ge_None in Hs; rewrite (proj2 (Nat.ltb_ge _ _)) by lia; cbn; by rewrite ?orb_false_r, ?app_nil_r).
  all: pose proof (lookup_lt_Some _ _ _ Hs) as Hlt; rewrite (proj2 (Nat.ltb_lt _ _)) by done; cbn [default from_option]; unfold id.
  all: destruct cancel as [k|]; [destruct (Nat.ltb_spec k (length evs)) as [Hk|Hk]|]; cbn [Script mt_stage streams canceled inputs resumeRes].
  all: rewrite ?app_nil_r; try (rewrite (take_ge evs k) by lia); rewrite ?Nat.eqb_refl, ?orb_false_r; try done.
  all: rewrite length_take, (proj2 (Nat.eqb_neq _ _)) by lia; by rewrite orb_true_r.
Qed.

(** The mock answers by its script: whatever mixture of new turns and resumed ones it is asked, and however often a context ends early, the n-th request gets the n-th stage, whole or, when its context ended, an initial part of it; a request past the script gets one closing message; it records what it was given, in order, counts the requests, and reports a cancellation exactly when some stage was cut. *)
Theorem mock_follows_its_script stages qs : let '(m, out) := serve_all (NewMockTranslator stages) qs in
  length out = length qs /\ Streams m = Z.of_nat (length qs) /\
  (forall n q evs, qs !! n = Some q -> out !! n = Some evs -> evs = (if n <? length stages then cut_short q.2 (scripted stages n) else [stop_event])) /\
  Inputs m = omap (fun q => match q.1 with NewTurn i => Some i | _ => None end) qs /\
  ResumedResults m = omap (fun q => match q.1 with Resumed r => Some r | _ => None end) qs /\
  (Cancelled m = false <-> forall n evs, out !! n = Some evs -> length evs = length (scripted stages n)).
Proof.
  assert (forall qs m, let '(m', out) := serve_all m qs in
    length out = length qs /\ Script m' = Script m /\ streams m' = (streams m + Z.of_nat (length qs))%Z /\
    (forall n q evs, qs !! n = Some q -> out !! n = Some evs -> evs = (if mt_stage m + n <? length (Script m) then cut_short q.2 (scripted (Script m) (mt_stage m + n)) else [stop_event])) /\
    inputs m' = inputs m ++ omap (fun q => match q.1 with NewTurn i => Some i | _ => None end) qs /\
    resumeRes m' = resumeRes m ++ omap (fun q => match q.1 with Resumed r => Some r | _ => None end) qs /\
    (canceled m' = false <-> canceled m = false /\ forall n evs, out !! n = Some evs -> length evs = length (scripted (Script m) (mt_stage m + n)))) as Hgen.
  { clear qs. induction qs as [|q qs IH]; intros m; cbn [serve_all].
    - rewrite !app_nil_r. split_and!; try done; [cbn; lia|]. split; [|by intros [? _]]. intros Hc. split; [done|]. intros n evs Hn. done.
    - pose proof (mock_serve_spec m q) as Hs. destruct (serve m q) as [m1 evs1]. destruct Hs as (S1 & S2 & S3 & S4 & S5 & S6 & S7). specialize (IH m1).
      destruct (serve_all m1 qs) as [m2 out]. destruct IH as (I1 & I2 & I3 & I4 & I5 & I6 & I7). rewrite S1, S2 in *. split_and!.
      + cbn. by rewrite I1.
      + done.
      + rewrite I3, S3. cbn [length]. lia.
      + intros [|n] q' evs' Hq He; cbn in Hq, He; [injection Hq as ->; injection He as ->; by rewrite Nat.add_0_r|]. rewrite (I4 _ _ _ Hq He). by rewrite Nat.add_succ_comm.
      + rewrite I5, S6, <-app_assoc. by destruct q as [[i|r] cancel].
      + rewrite I6, S7, <-app_assoc. by destruct q as [[i|r] cancel].
      + rewrite I7, S5, orb_false_iff, negb_false_iff, Nat.eqb_eq. split.
        * intros [[C1 C2] C3]. split; [done|]. intros [|n] evs' He; cbn in He; [injection He as <-; by rewrite Nat.add_0_r|]. rewrite (C3 _ _ He). by rewrite Nat.add_succ_comm.
        * intros [C1 C2]. split_and!; [done| |].
          -- rewrite (C2 0 evs1 eq_refl). by rewrite Nat.add_0_r.
          -- intros n evs' He. rewrite (C2 (S n) evs' He). by rewrite Nat.add_succ_comm. }
  specialize (Hgen qs (NewMockTranslator stages)). destruct (serve_all (NewMockTranslator stages) qs) as [m out]. destruct Hgen as (G1 & G2 & G3 & G4 & G5 & G6 & G7).
  unfold Streams, Inputs, ResumedResults, Cancelled. split_and!; try done. rewrite G7. cbn. naive_solver.
Qed.
