(* ===== verification/Screens.v ===== *)
(** * What the phone shows (internal/mobile/ui)

    The texts, fields and buttons of every screen, with their colours, as
    functions of the state that MobileApp.v and ConfigEditor.v keep: approval.go,
    chat.go, terminal.go, settings.go, onboard.go and config.go.  Geometry
    (insets, spacers, clipping, scrolling) is left out; JSON indentation and the
    formatting of a float are parameters. *)

From S2P Require Import Prelude GoString GoConv Event GoNum Paths Wire MobileState WireClient MobileStore ConfigEditor MobileApp.

#[local] Open Scope nat_scope.

(** [Online], [Added], [Live]: the greens of a status, a diff and a running
    command; [Armed], [Disarmed]: the backgrounds of Approve. *)
Inductive tone := Fg | Muted | Danger | Accent | Surface | Amber | Purple | Blue | Online | Added | Removed | Live | Armed | Disarmed | OutText | ErrText | UserBubble | AsstBubble | Plain.
#[export] Instance tone_eq_dec : EqDecision tone.
Proof. solve_decision. Defined.

Inductive elem :=
| Text (s : string) (c : tone)
| Button (label : string) (bg : tone)
| Field (content hint : string)
| Boxed (s : string) (bg : tone)          (* a text on its own background *)
| Dot (c : tone).

Definition LF : ascii := ascii_of_nat 10.

(** [strings.TrimRight(s, "\n")] *)
Fixpoint trim_newlines (s : string) : string :=
  match s with
  | EmptyString => ""
  | String c s' => let t := trim_newlines s' in if Ascii.eqb c LF && String.eqb t "" then "" else String c t
  end.

(** ** The approval sheet (approval.go) *)

Definition diffColor (line : string) : tone :=
  if HasPrefix line "+++" || HasPrefix line "---" || HasPrefix line "@@" then Muted
  else if HasPrefix line "+" then Added
  else if HasPrefix line "-" then Removed
  else Fg.

Definition diffLineWidgets (lines : list string) : list elem := (fun ln => Text ln (diffColor ln)) <$> lines.

Definition diff (diffText : string) : list elem := diffLineWidgets (SplitByte LF (trim_newlines diffText)).

Definition label (s : string) : elem := Text s Muted.

Definition toolRow (req : ApprovalRequest) : list elem :=
  Text (ar_Tool req) Fg :: if HasPrefix (ar_Tool req) "github_" then [Boxed "GITHUB" Purple] else [].

Definition maybeReason (req : ApprovalRequest) : list elem :=
  if String.eqb (ar_Reason req) "" then [] else [label "Reason"; Text (ar_Reason req) Fg].

Definition maybePreview (req : ApprovalRequest) : list elem :=
  match ar_Preview req with
  | None => []
  | Some p =>
      label ("Diff preview — " +:+ pv_Path p +:+ ":" +:+ Itoa (pv_LineNumber p)) :: diff (pv_UnifiedDiff p) ++
      (if String.eqb (pv_VerifyCommand p) "" then [] else [label "Verify after apply (rollback on non-zero exit)"; Text (pv_VerifyCommand p) Amber])
  end.

Section card.
Variable MarshalIndent : args -> option string.

Definition argsBlock (req : ApprovalRequest) : list elem := [label "Args"; Text (default "<args unserialisable>" (MarshalIndent (ar_Args req))) Fg].

Definition countdown_row (req : ApprovalRequest) (now : Z) : elem := Text ("Time left: " +:+ Itoa (countdown (DeadlineUnixMs req) now) +:+ "s") Amber.

Definition confirmField (req : ApprovalRequest) (s : ApprovalSheet) : list elem :=
  [label ("Type " +:+ ar_Tool req +:+ " to enable Approve"); Field (confirm s) (ar_Tool req)].

Definition reasonField (s : ApprovalSheet) : list elem := [label "Deny reason (optional)"; Field (reason s) ""].

Definition actions (confirmed : bool) : list elem := [Button "Deny" Danger; Button "Approve" (if confirmed then Armed else Disarmed)].

Definition card (req : ApprovalRequest) (now : Z) (s : ApprovalSheet) : list elem :=
  Text "Approval required" Fg :: toolRow req ++ maybeReason req ++ maybePreview req ++ argsBlock req ++ [countdown_row req now] ++
  confirmField req s ++ reasonField s ++ actions (confirmed req s).
End card.

(** ** The terminal (terminal.go) *)

(** [widget.List]: whether it is scrolled away from its end, and follows it. *)
Record LiveTerminal := mkTerminal { BeforeEnd : bool; ScrollToEnd : bool }.

Definition NewLiveTerminal : LiveTerminal := mkTerminal false true.

Definition terminal_tap (jump : bool) (t : LiveTerminal) : LiveTerminal :=
  let t := if jump then mkTerminal false true else t in
  if BeforeEnd t then t else mkTerminal (BeforeEnd t) true.

Definition terminal_header (call : ToolCall) (anchor now : Z) : list elem :=
  let running := bool_decide (Result call = None) in
  let elapsed := elapsedSince (ElapsedMs call) anchor now running in
  let rolledOff := (Z.of_nat (LineCount call) - Z.of_nat (length (Lines call)))%Z in
  [Dot (if running then Live else Muted);
   Text ((if running then "live" else "done") +:+ " · " +:+ formatElapsed elapsed) Muted;
   Text (if (0 <? rolledOff)%Z then "showing " +:+ Itoa (Z.of_nat (length (Lines call))) +:+ " of " +:+ Itoa (Z.of_nat (LineCount call))
         else Itoa (Z.of_nat (LineCount call)) +:+ " lines") Muted].

Definition terminal_lines (lines : list TerminalLine) : list elem :=
  (fun ln => Text (if String.eqb (tl_Text ln) "" then " " else tl_Text ln) (if bool_decide (tl_Stream ln = Stderr) then ErrText else OutText)) <$> lines.

Definition terminal (t : LiveTerminal) (call : ToolCall) (anchor now : Z) : list elem :=
  terminal_header call anchor now ++ terminal_lines (Lines call) ++ (if BeforeEnd t then [Button "↓ Jump to bottom" Plain] else []).

(** ** The chat (chat.go) *)

Definition statusText (s : string) : string :=
  if String.eqb s StatusConnecting then "connecting…" else if String.eqb s StatusOpen then "online"
  else if String.eqb s StatusClosed then "offline" else if String.eqb s StatusUnauthorized then "unauthorized" else "idle".

Definition statusColor (s : string) : tone :=
  if String.eqb s StatusOpen then Online else if String.eqb s StatusUnauthorized then Danger else if String.eqb s StatusClosed then Danger else Muted.

Inductive row := RUser (t : Turn) | RAsst (t : Turn) | RErr (t : Turn) | RTool (t : Turn) (call : ToolCall).

Definition turn_rows (t : Turn) : list row :=
  RUser t :: (if String.eqb (TurnError t) "" then RAsst t else RErr t) :: (RTool t <$> ToolCalls t).

Definition chat_rows (turns : list Turn) : list row := mjoin (turn_rows <$> turns).

Definition bubble (text : string) (isUser : bool) : list elem := if String.eqb text "" then [] else [Boxed text (if isUser then UserBubble else AsstBubble)].

Definition errorBubble (msg : string) : list elem := [Text ("error: " +:+ msg) Danger].

Definition chat_toolRow (seen : gmap string Z) (terms : string -> LiveTerminal) (call : ToolCall) (now : Z) : list elem :=
  label (tc_Tool call) :: terminal (terms (CommandID call)) call (terminalFor now (CommandID call) seen).1 now.

Definition row_elems (seen : gmap string Z) (terms : string -> LiveTerminal) (now : Z) (r : row) : list elem :=
  match r with
  | RUser t => bubble (UserText t) true
  | RErr t => errorBubble (TurnError t)
  | RTool _ call => chat_toolRow seen terms call now
  | RAsst t => bubble (if negb (Finished t) && String.eqb (AssistantText t) "" && (length (ToolCalls t) =? 0) then "…" else AssistantText t) false
  end.

Fixpoint mimeTail (mt : string) : string :=
  match mt with
  | EmptyString => ""
  | String c rest => if Ascii.eqb c slash && no_byte slash rest then rest else if no_byte slash rest then mt else mimeTail rest
  end.

Definition attachmentsStrip (imgs : list ImageInput) : list elem := mjoin ((fun img => [Text (mimeTail (MediaType img)) Fg; Text "×" Danger]) <$> imgs).

Definition composerRow (text : string) : list elem := [Button "+image" Surface; Field text "Ask the orchestrator…"; Button "Send" Plain].

Definition chat_header (snap : State) : list elem := [Text "NomadDev" Fg; Text (statusText (Status snap)) (statusColor (Status snap)); Button "⚙" Surface].

Definition chat_screen (seen : gmap string Z) (terms : string -> LiveTerminal) (now : Z) (composer : string) (snap : State) : list elem :=
  chat_header snap ++ mjoin (row_elems seen terms now <$> chat_rows (Turns snap)) ++ attachmentsStrip (PendingImages snap) ++ composerRow composer.

(** ** Settings and onboarding (settings.go, onboard.go) *)

Definition emptyAsDash (s : string) : string := if String.eqb s "" then "—" else s.

Definition keyValue (key value : string) : list elem := [Text key Muted; Text value Fg].

Definition modelRow (name current : string) : elem := Boxed name (if String.eqb name current then Blue else Surface).

Definition settings_rows (fmt_cost : float64 -> string) (snap : State) (outboxLen : Z) : list elem :=
  [Text "Settings" Fg; Button "Back" Surface; label "Connection"] ++
  keyValue "Server" (ServerURL snap) ++ keyValue "Status" (statusText (Status snap)) ++ keyValue "Session ID" (emptyAsDash (SessionID snap)) ++
  keyValue "Last event" (emptyAsDash (LastEventID snap)) ++ keyValue "Outbox" (Itoa outboxLen +:+ " queued") ++
  [label "Usage this session"] ++ keyValue "Prompt tokens" (Itoa (Prompt (Tokens snap))) ++ keyValue "Candidate tokens" (Itoa (Candidates (Tokens snap))) ++
  keyValue "Total tokens" (Itoa (Total (Tokens snap))) ++ keyValue "Cost (USD)" (fmt_cost (CostUSD (Tokens snap))) ++
  (match AvailableModels snap with [] => [] | ms => label "Model" :: ((fun m => modelRow m (Model snap)) <$> ms) end) ++
  (if String.eqb (LastError snap) "" then [] else [label "Last error"; Text (LastError snap) Danger]) ++
  [Button "Reset history" Surface; Button "Force reconnect" Surface; Button "Open server config" Surface; Button "Sign out" Danger].

Definition onboard_field (name content : string) : list elem := [label name; Field content ""].

Definition onboard_screen (url token lastError : string) : list elem :=
  [Text "NomadDev" Fg; Text "Connect to your orchestrator" Muted] ++ onboard_field "Server URL" url ++ onboard_field "JWT token" token ++
  (if String.eqb lastError "" then [] else [Text lastError Danger]) ++ [Button "Connect" Plain].

(** ** The settings editor (config.go) *)

Definition config_header (loading : bool) : list elem := [Text "Server config" Fg; Button (if loading then "Loading…" else "Refresh") Surface; Button "Back" Surface].

Definition bannerRow (text tone : string) : elem := Text text (if String.eqb tone "ok" then Accent else if String.eqb tone "err" then Danger else Muted).

Definition signOutRow : elem := Button "Sign out and re-onboard" Danger.

Definition categoryHeader (name : string) (count dirty : nat) (open : bool) : elem :=
  Text ((if open then "▾" else "▸") +:+ " " +:+ name +:+ " (" +:+ Itoa (Z.of_nat count) +:+ ")" +:+
        (if 0 <? dirty then " · " +:+ Itoa (Z.of_nat dirty) +:+ " changed" else "")) (if 0 <? dirty then Accent else Fg).

Definition settingHeader (s : ConfigSetting) (p : gmap string string) : list elem :=
  let meta := (if Dangerous s then "⚠ " else "") +:+ Type' s +:+ (if ReadOnly s then " · read-only" else "") in
  [Text (EnvVar s) Fg; Text meta (if Dangerous s then Danger else Muted)] ++ (if bool_decide (is_Some (p !! EnvVar s)) then [Button "Revert" Surface] else []).

Definition cycleField (s : ConfigSetting) (current : string) : elem := Button (displayValue s current) Surface.

Definition textField (s : ConfigSetting) (eds : gmap string string) : elem :=
  Field (default (Value s) (eds !! EnvVar s))
    (if String.eqb (ValueState s) "unset" then "(unset)" else if String.eqb (Default s) "" then "" else "default: " +:+ Default s).

Definition settingEditor (s : ConfigSetting) (p eds : gmap string string) : elem :=
  let current := effectiveValue s p in
  if ReadOnly s then Text (displayValue s current) Muted
  else if String.eqb (Type' s) "bool" || (String.eqb (Type' s) "enum" && negb (length (Enum s) =? 0)) then cycleField s current
  else textField s eds.

Definition setting_row (s : ConfigSetting) (p fieldErrs eds : gmap string string) : list elem :=
  settingHeader s p ++ [settingEditor s p eds] ++
  match fieldErrs !! EnvVar s with
  | Some e => [Text ("✗ " +:+ e) Danger]
  | None => if String.eqb (Help s) "" then [] else [Text (Help s) Muted]
  end.

Definition applyFooter (pendingCount : nat) (hasDangerous armed isBusy : bool) : list elem :=
  [label (Itoa (Z.of_nat pendingCount) +:+ " field(s) changed" +:+ (if hasDangerous then " · ⚠ includes dangerous changes" else ""))] ++
  (if negb hasDangerous || armed then [] else [Button "Acknowledge dangerous changes" Surface]) ++
  [Button "Revert all" Surface;
   Button (if isBusy then "Restarting…" else "Apply & Restart")
     (if negb isBusy && (negb hasDangerous || armed) then (if hasDangerous then Danger else Accent) else Surface)].

(** The rows of the editor that was [c] when the frame began, drawn with the
    changes [p], the text fields, the open categories and whether the dangerous
    changes were acknowledged. *)
Definition config_rows (c : Config) (p eds : gmap string string) (open : gmap string bool) (armed : bool) : list elem :=
  let snap := snapshot c in
  config_header (loading c) ++
  (if String.eqb (banner c) "" then [] else [bannerRow (banner c) (bannerTone c)]) ++
  (if String.eqb (lastError c) "" then [] else [Text (lastError c) Danger]) ++
  (if bool_decide (phase c = ConfigPhaseReauth) then [signOutRow] else []) ++
  (if (length (Categories snap) =? 0) && String.eqb (lastError c) "" && negb (loading c)
   then [Text "tap Refresh to load the orchestrator's effective configuration" Muted] else []) ++
  mjoin ((fun cat =>
    let items := groupByCategory snap cat in
    let isOpen := default false (open !! cat) in
    categoryHeader cat (length items) (length (List.filter (fun s => bool_decide (is_Some (p !! EnvVar s))) items)) isOpen ::
    (if isOpen then mjoin ((fun s => setting_row s p (fieldErrors c) eds) <$> items) else [])) <$> Categories snap) ++
  (if bool_decide (p = ∅) then [] else applyFooter (size p) (dangerousPending snap p) armed (busy (phase c))).

(** The frame [t] of [ConfigEditor.Layout]. *)
Definition config_screen (t : taps) (c : Config) : list elem :=
  let c1 := processPendingClicks t (pending c) (toggle_categories t c) in
  let c2 := if tp_revertAll t then revertAllPending c1 else c1 in
  config_rows c (if tp_revertAll t then ∅ else pending c) (editors c2) (opened c1) (dangerArmed c || tp_confirm t).

(** ** The screens tell the truth *)

Lemma trim_newlines_spec s : exists n, s = trim_newlines s +:+ str_concat (replicate n (String LF "")).
Proof.
  induction s as [|c s [n IH]]; [by exists 0|]. cbn [trim_newlines]. destruct (Ascii.eqb c LF && String.eqb (trim_newlines s) "") eqn:E.
  - apply andb_true_iff in E as [->%Ascii.eqb_eq E%String.eqb_eq]. exists (S n). rewrite E in IH. rewrite IH at 1. done.
  - exists n. change (String c (trim_newlines s) +:+ ?x) with (String c (trim_newlines s +:+ x)). by rewrite <-IH.
Qed.

(** The texts of a diff, put together again, are the diff. *)
Lemma diff_text d : JoinByte LF ((fun e => match e with Text s _ => s | _ => "" end) <$> diff d) = trim_newlines d.
Proof. unfold diff, diffLineWidgets. rewrite <-list_fmap_compose. cbn. rewrite list_fmap_id. apply Join_Split. Qed.

Definition no_button (e : elem) : Prop := match e with Button _ _ => False | _ => True end.

Lemma card_parts MarshalIndent req now s : exists pre, card MarshalIndent req now s = pre ++ actions (confirmed req s) /\ Forall no_button pre.
Proof.
  exists (Text "Approval required" Fg :: toolRow req ++ maybeReason req ++ maybePreview req ++ argsBlock MarshalIndent req ++ [countdown_row req now] ++ confirmField req s ++ reasonField s).
  split; [unfold card; cbn [app]; by rewrite <-!app_assoc|]. constructor; [done|]. rewrite !Forall_app. split_and!.
  - unfold toolRow. destruct (HasPrefix _ _); by repeat constructor.
  - unfold maybeReason. destruct (String.eqb _ _); by repeat constructor.
  - unfold maybePreview. destruct (ar_Preview req) as [p|]; [|constructor]. constructor; [done|]. rewrite Forall_app. split; [|destruct (String.eqb _ _); by repeat constructor].
    unfold diff, diffLineWidgets. apply Forall_fmap, Forall_true. done.
  - by repeat constructor.
  - by repeat constructor.
  - by repeat constructor.
  - by repeat constructor.
Qed.

(** The approval sheet shows what is decided and how: its tool, its reason, its arguments, and of a change to a file the place, every line of the diff in order and unchanged (up to newlines at its end) and the command that will verify it; and its Approve button is in the armed colour exactly when a tap on it would send the grant. *)
Theorem approval_card_shows_the_request MarshalIndent req now s :
  let shown := card MarshalIndent req now s in
  Text (ar_Tool req) Fg ∈ shown /\ (ar_Reason req <> "" -> Text (ar_Reason req) Fg ∈ shown) /\
  (forall js, MarshalIndent (ar_Args req) = Some js -> Text js Fg ∈ shown) /\
  (forall p, ar_Preview req = Some p ->
     Text ("Diff preview — " +:+ pv_Path p +:+ ":" +:+ Itoa (pv_LineNumber p)) Muted ∈ shown /\ (pv_VerifyCommand p <> "" -> Text (pv_VerifyCommand p) Amber ∈ shown) /\
     exists pre post n, shown = pre ++ diff (pv_UnifiedDiff p) ++ post /\
       pv_UnifiedDiff p = JoinByte LF ((fun e => match e with Text s _ => s | _ => "" end) <$> diff (pv_UnifiedDiff p)) +:+ str_concat (replicate n (String LF ""))) /\
  (Button "Approve" Armed ∈ shown <-> confirmed req s = true).
Proof.
  cbn zeta. unfold card. split_and!.
  - right. apply elem_of_app. left. by left.
  - intros Hr. unfold maybeReason. rewrite (proj2 (String.eqb_neq _ _) Hr). right. apply elem_of_app. right. apply elem_of_app. left. right. by left.
  - intros js Hj. right. do 3 (apply elem_of_app; right). apply elem_of_app. left. unfold argsBlock. rewrite Hj. right. by left.
  - intros p Hp. unfold maybePreview. rewrite Hp. destruct (trim_newlines_spec (pv_UnifiedDiff p)) as [n Hn]. split_and!.
    + right. do 2 (apply elem_of_app; right). apply elem_of_app. left. by left.
    + intros Hv. rewrite (proj2 (String.eqb_neq _ _) Hv). right. do 2 (apply elem_of_app; right). apply elem_of_app. left. right. apply elem_of_app. right. right. by left.
    + eexists (Text "Approval required" Fg :: toolRow req ++ maybeReason req ++ [label _]), _, n. split; [|by rewrite diff_text].
      cbn [app]. rewrite <-!app_assoc. cbn [app]. rewrite <-?app_assoc. reflexivity.
  - destruct (card_parts MarshalIndent req now s) as (pre & E & Hpre). unfold card in E. rewrite E, elem_of_app. unfold actions. split.
    + intros [Hin|Hin]; [by pose proof (proj1 (Forall_forall _ _) Hpre _ Hin)|]. apply elem_of_cons in Hin as [?|Hin]; [done|]. apply list_elem_of_singleton in Hin.
      by destruct (confirmed req s).
    + intros ->. right. right. by left.
Qed.

(** A removed line whose text begins with two dashes looks like the header of a
    file, not like a removal. *)
Lemma removed_dashes_look_like_a_header text : diffColor ("-" +:+ "--" +:+ text) = Muted /\ diffColor ("+" +:+ "++" +:+ text) = Muted.
Proof. unfold diffColor. cbn. by destruct text. Qed.

(** A terminal says how much of the output it shows: when it announces "showing
    k of n" these are the last k of the n lines that arrived, and when it says "n
    lines" they are all there, in order either way. *)
Lemma terminal_counts_honestly call : call_ok call ->
  tl_Seq <$> Lines call = seq (LineCount call - length (Lines call)) (length (Lines call)) /\
  (0 <? Z.of_nat (LineCount call) - Z.of_nat (length (Lines call)))%Z = negb (length (Lines call) =? LineCount call) /\ length (terminal_lines (Lines call)) = length (Lines call).
Proof.
  intros [_ Hs Hc _ _]. split_and!; [done| |by unfold terminal_lines; rewrite length_fmap].
  destruct (Nat.eqb_spec (length (Lines call)) (LineCount call)); cbn; [apply Z.ltb_ge|apply Z.ltb_lt]; lia.
Qed.

(** *** The settings editor *)

Definition with_apply (t : taps) : taps :=
  mkTaps (tp_back t) (tp_refresh t) true (tp_confirm t) (tp_revertAll t) (tp_signOut t) (tp_toggle t) (tp_cycle t) (tp_revert t) (tp_visible t).

Definition quiet (e : elem) : Prop := match e with Button l bg => l = "Apply & Restart" -> bg = Surface | _ => True end.

Lemma setting_row_quiet s p fe eds : Forall quiet (setting_row s p fe eds).
Proof.
  unfold setting_row, settingHeader, settingEditor, textField, cycleField. rewrite !Forall_app. split_and!.
  - by repeat constructor.
  - destruct (bool_decide _); by repeat constructor.
  - constructor; [|constructor]. destruct (ReadOnly s); [done|]. destruct (_ || _); done.
  - destruct (fe !! EnvVar s); [by repeat constructor|]. destruct (String.eqb _ _); by repeat constructor.
Qed.

Lemma config_rows_parts c p eds open armed : exists pre, Forall quiet pre /\
  config_rows c p eds open armed = pre ++ (if bool_decide (p = ∅) then [] else applyFooter (size p) (dangerousPending (snapshot c) p) armed (busy (phase c))).
Proof.
  eexists. split; [|unfold config_rows; rewrite !app_assoc; reflexivity]. rewrite !Forall_app. split_and!.
  - destruct (loading c); by repeat constructor.
  - destruct (String.eqb _ _); by repeat constructor.
  - destruct (String.eqb _ _); by repeat constructor.
  - destruct (bool_decide _); by repeat constructor.
  - destruct (_ && _); by repeat constructor.
  - apply Forall_forall. intros e He. apply list_elem_of_join in He as (l & He & Hl). apply list_elem_of_fmap in Hl as (cat & -> & _).
    apply elem_of_cons in He as [->|He]; [done|]. destruct (default false (open !! cat)); [|by apply not_elem_of_nil in He].
    apply list_elem_of_join in He as (l & He & Hl). apply list_elem_of_fmap in Hl as (st & -> & _). exact (proj1 (Forall_forall _ _) (setting_row_quiet _ _ _ _) _ He).
Qed.

(** The Apply button is lit exactly when it works: in any frame of the settings editor it is drawn in an active colour if and only if a tap on it in that frame would send the staged changes, and it is in the colour of danger exactly when one of those is dangerous. *)
Theorem apply_button_tells_the_truth t c bg : bg <> Surface ->
  (Button "Apply & Restart" bg ∈ config_screen t c <-> bg = (if dangerousPending (snapshot c) (pending c) then Danger else Accent) /\ exists changes, DoApply changes ∈ (Layout (with_apply t) c).2).
Proof.
  intros Hbg. unfold config_screen. set (p := if tp_revertAll t then ∅ else pending c). set (armed := dangerArmed c || tp_confirm t).
  assert ((exists changes, DoApply changes ∈ (Layout (with_apply t) c).2) <->
    negb (bool_decide (p = ∅)) && negb (busy (phase c)) && (negb (dangerousPending (snapshot c) p) || armed) = true) as ->.
  { unfold Layout, p. cbn [with_apply tp_revertAll tp_confirm tp_apply tp_back tp_refresh tp_signOut]. fold armed.
    destruct (tp_revertAll t); cbn [fst snd andb]; rewrite ?elem_of_app; (destruct (negb _ && negb _ && _) eqn:E; [split; [done|intros _]; eexists; do 3 (apply elem_of_app; right); by left|]);
      (split; [|done]; intros [ch Hin]; exfalso; revert Hin; rewrite !elem_of_app; destruct (tp_back t), (tp_refresh t), (tp_signOut t); cbn; rewrite ?elem_of_cons; intros Hin;
       repeat match goal with H : _ \/ _ |- _ => destruct H end; try done; by apply not_elem_of_nil in H). }
  match goal with |- context [config_rows c p ?eds ?open armed] => destruct (config_rows_parts c p eds open armed) as (pre & Hpre & ->) end.
  rewrite elem_of_app. assert (Button "Apply & Restart" bg ∈ pre -> False) as Hno by (intros Hin; by pose proof (proj1 (Forall_forall _ _) Hpre _ Hin eq_refl)).
  destruct (bool_decide (p = ∅)) eqn:Hp; cbn [negb andb].
  { split; [|by intros [_ ?]]. intros [Hin|Hin]; [by destruct Hno|]. by apply not_elem_of_nil in Hin. }
  assert (p = pending c) as -> by (unfold p in *; by destruct (tp_revertAll t)). clear Hp.
  unfold applyFooter. destruct (busy (phase c)), (dangerousPending (snapshot c) (pending c)), armed; cbn; rewrite ?elem_of_cons; split;
    try (by intros [_ ?]); try (intros [-> _]; by auto);
    intros Hin; repeat match goal with H : _ \/ _ |- _ => destruct H as [H|H] end; try (by destruct Hno); try (by apply not_elem_of_nil in Hin); try (by injection Hin as Hin); try done.
Qed.

(** The chat shows every turn: what the user wrote, the answer or the error, and
    of each tool call its name and every line that is kept. *)
Lemma chat_shows_every_turn seen terms now composer snap t : t ∈ Turns snap ->
  let shown := chat_screen seen terms now composer snap in
  (UserText t <> "" -> Boxed (UserText t) UserBubble ∈ shown) /\
  (TurnError t <> "" -> Text ("error: " +:+ TurnError t) Danger ∈ shown) /\
  (TurnError t = "" -> AssistantText t <> "" -> Boxed (AssistantText t) AsstBubble ∈ shown) /\
  (forall call, call ∈ ToolCalls t -> Text (tc_Tool call) Muted ∈ shown /\
     forall ln, ln ∈ Lines call -> tl_Text ln <> "" -> Text (tl_Text ln) (if bool_decide (tl_Stream ln = Stderr) then ErrText else OutText) ∈ shown).
Proof.
  intros Ht. cbn zeta. unfold chat_screen.
  assert (forall r e, r ∈ turn_rows t -> e ∈ row_elems seen terms now r ->
    e ∈ chat_header snap ++ mjoin (row_elems seen terms now <$> chat_rows (Turns snap)) ++ attachmentsStrip (PendingImages snap) ++ composerRow composer) as Hin.
  { intros r e Hr He. rewrite !elem_of_app. right. left. apply list_elem_of_join. exists (row_elems seen terms now r). split; [done|].
    apply list_elem_of_fmap. exists r. split; [done|]. unfold chat_rows. apply list_elem_of_join. exists (turn_rows t). split; [done|]. apply list_elem_of_fmap. by exists t. }
  split_and!.
  - intros Hu. apply (Hin (RUser t)); [by left|]. cbn. unfold bubble. rewrite (proj2 (String.eqb_neq _ _) Hu). by left.
  - intros He. apply (Hin (RErr t)); [|by left]. right. rewrite (proj2 (String.eqb_neq _ _) He). by left.
  - intros He Ha. apply (Hin (RAsst t)); [right; rewrite He; by left|]. cbn. rewrite (proj2 (String.eqb_neq _ _) Ha), andb_false_r. cbn. unfold bubble.
    rewrite (proj2 (String.eqb_neq _ _) Ha). by left.
  - intros call Hc. assert (RTool t call ∈ turn_rows t) as Hr by (do 2 right; apply list_elem_of_fmap; by exists call). split; [apply (Hin _ _ Hr); by left|].
    intros ln Hl Hne. apply (Hin _ _ Hr). right. unfold terminal. rewrite !elem_of_app. right. left. apply list_elem_of_fmap. exists ln. split; [|done].
    by rewrite (proj2 (String.eqb_neq _ _) Hne).
Qed.
