(* ===== verification/Route.v ===== *)
(** * Answers to approval requests (internal/wsserver/sandbox.go, [routeApproval])

    A client's tool.approval.granted or denied reaches the approver and then the
    audit log.  The two are separate steps of the connection's goroutine, so the
    waiting turn can go on between them; [routing] holds the audit events still
    to be written. *)

From S2P Require Import Prelude GoString Event Wire Session Hub Approver GoJson AuditLog.

Record desk := mkDesk { ds_approver : approver; routing : list AuditEvent; ds_audit : list AuditEvent }.

Definition KindApprovalGrant : string := "approval.granted".
Definition KindApprovalDeny : string := "approval.denied".

Section route.
Context `{!Unmarshal ToolApprovalDeniedPayload}.

(** The audit event of an answer. *)
Definition approval_event (env : Envelope) (c : Client) (granted : bool) : AuditEvent :=
  let message := if granted then ""
                 else match UnmarshalPayload (mkDenied "") env with Some p => td_Reason p | None => "" end in
  mkAudit None (if granted then KindApprovalGrant else KindApprovalDeny) (if granted then "ok" else "deny") (Sub c) (cSID c) "" "" "" message
    [("approval_id", AStr (CorrelationID env))].

(** [routeApproval] up to [Signal]; [mw] says whether the middleware is wired. *)
Definition routeApproval (mw : bool) (env : Envelope) (c : Client) (granted : bool) (d : desk) : desk :=
  if negb mw || String.eqb (CorrelationID env) "" then d
  else mkDesk (Signal (ds_approver d) (CorrelationID env) granted) (routing d ++ [approval_event env c granted]) (ds_audit d).

(** The [audit.Log] at its end. *)
Definition log_next (i : nat) (d : desk) : option desk :=
  ev ← routing d !! i; Some (mkDesk (ds_approver d) (delete i (routing d)) (ds_audit d ++ [ev])).

Inductive desk_step : desk -> desk -> Prop :=
| DS_route mw env c granted d : desk_step d (routeApproval mw env c granted d)
| DS_log i d d' : log_next i d = Some d' -> desk_step d d'
| DS_register d id : desk_step d (mkDesk (Register (ds_approver d) id) (routing d) (ds_audit d))
| DS_cancel d id : desk_step d (mkDesk (Cancel (ds_approver d) id) (routing d) (ds_audit d))
| DS_enter d id : desk_step d (mkDesk (Await_enter (ds_approver d) id) (routing d) (ds_audit d))
| DS_leave d k l a' : Await_leave (ds_approver d) k l = Some a' -> desk_step d (mkDesk a' (routing d) (ds_audit d)).

Definition empty_desk : desk := mkDesk empty_approver [] [].

(** Whose answer it was. *)
Definition answers (ev : AuditEvent) (id : string) (granted : bool) : Prop :=
  e_Extras ev = [("approval_id", AStr id)] /\ e_Kind ev = (if granted then KindApprovalGrant else KindApprovalDeny) /\ e_Outcome ev = (if granted then "ok" else "deny") /\
  exists c : Client, e_Sub ev = Sub c /\ e_Sid ev = cSID c.

Record desk_inv (d : desk) : Prop := {
  desk_reach : rtc approver_step empty_approver (ds_approver d);
  desk_signals : forall id g, CSignal id g ∈ log (ds_approver d) -> exists ev, ev ∈ routing d ++ ds_audit d /\ answers ev id g;
  desk_events : forall ev, ev ∈ routing d ++ ds_audit d -> exists id g, answers ev id g /\ CSignal id g ∈ log (ds_approver d) }.

(** A step of the approver that is not a signal. *)
Lemma desk_quiet d a : desk_inv d -> approver_step (ds_approver d) a -> (forall id g, CSignal id g ∈ log a <-> CSignal id g ∈ log (ds_approver d)) ->
  desk_inv (mkDesk a (routing d) (ds_audit d)).
Proof.
  intros [A B C] Hs Hl. split; cbn.
  - by eapply rtc_r.
  - intros id g Hin. apply B. by apply Hl.
  - intros ev Hev. destruct (C ev Hev) as (id & g & H1 & H2). exists id, g. split; [done|]. by apply Hl.
Qed.

Lemma log_leave a k l a' : Await_leave a k l = Some a' -> exists id r, log a' = log a ++ [CResult id r].
Proof.
  unfold Await_leave. destruct (waits a !! k) as [[id ch]|]; [|done]. destruct l; [destruct (chans a !! ch) as [[g|]|]| |]; try done; intros [= <-]; cbn; eauto.
Qed.

Lemma desk_step_inv d d' : desk_inv d -> desk_step d d' -> desk_inv d'.
Proof.
  intros Hd Hs. destruct Hs as [mw env c granted d|i d d' Hl|d id|d id|d id|d k l a' Hl].
  - unfold routeApproval. destruct (negb mw || _); [done|]. destruct Hd as [A B C]. split; cbn [ds_approver routing ds_audit].
    + eapply rtc_r; [done|constructor].
    + assert (log (Signal (ds_approver d) (CorrelationID env) granted) = log (ds_approver d) ++ [CSignal (CorrelationID env) granted]) as -> by (unfold Signal; repeat case_match; done).
      intros id g Hin. apply elem_of_app in Hin as [Hin|Hin].
      * destruct (B id g Hin) as (ev & Hev & Ha). exists ev. split; [|done]. rewrite !elem_of_app in *. tauto.
      * apply list_elem_of_singleton in Hin as [= -> ->]. exists (approval_event env c granted). split; [rewrite !elem_of_app, list_elem_of_singleton; tauto|].
        unfold answers, approval_event. cbn. split_and!; [done|by destruct granted|by destruct granted|by exists c].
    + assert (log (Signal (ds_approver d) (CorrelationID env) granted) = log (ds_approver d) ++ [CSignal (CorrelationID env) granted]) as -> by (unfold Signal; repeat case_match; done).
      intros ev Hev. rewrite !elem_of_app, list_elem_of_singleton in Hev. assert (ev ∈ routing d ++ ds_audit d \/ ev = approval_event env c granted) as [Hev'| ->] by (rewrite elem_of_app; tauto).
      * destruct (C ev Hev') as (id & g & H1 & H2). exists id, g. split; [done|]. apply elem_of_app. by left.
      * exists (CorrelationID env), granted. split; [|apply elem_of_app; right; by left]. unfold answers, approval_event. cbn. split_and!; [done|by destruct granted|by destruct granted|by exists c].
  - unfold log_next in Hl. destruct (routing d !! i) as [ev0|] eqn:Hi; [|done]. injection Hl as <-. destruct Hd as [A B C].
    assert (forall ev, ev ∈ delete i (routing d) ++ ds_audit d ++ [ev0] <-> ev ∈ routing d ++ ds_audit d) as Hmem.
    { intros ev. assert (ev ∈ routing d <-> ev = ev0 \/ ev ∈ delete i (routing d)) as Hd.
      { rewrite <-elem_of_cons. pose proof (delete_Permutation _ _ _ Hi) as HP. split; intros Hin; [by rewrite HP in Hin|by rewrite HP]. }
      rewrite !elem_of_app, list_elem_of_singleton, Hd. tauto. }
    split; cbn [ds_approver routing ds_audit]; [done| |].
    + intros id g Hin. destruct (B id g Hin) as (ev & Hev & Ha). exists ev. split; [by apply Hmem|done].
    + intros ev Hev. apply C. by apply Hmem.
  - apply desk_quiet; [done|constructor|]. intros i g. unfold Register. destruct (Approver.pending _ !! id); cbn; rewrite elem_of_app, list_elem_of_singleton; naive_solver.
  - apply desk_quiet; [done|constructor|]. intros i g. cbn. rewrite elem_of_app, list_elem_of_singleton. naive_solver.
  - apply desk_quiet; [done|constructor|]. intros i g. unfold Await_enter. destruct (Approver.pending _ !! id); cbn; rewrite elem_of_app, ?elem_of_cons, elem_of_nil; naive_solver.
  - apply desk_quiet; [done|by econstructor|]. intros i g. destruct (log_leave _ _ _ _ Hl) as (id & r & ->). rewrite elem_of_app, list_elem_of_singleton. naive_solver.
Qed.

(** Every consent is on record: however requests, answers, timeouts and the audit writes interleave, once no answer is still on its way to the log, a call that went ahead with consent has an audit event that says granted, carries the id of its request, and names the subject and the session of a client; and an event of the log stands for an answer some client gave, never for a timeout. *)
Theorem consents_are_on_record d : rtc desk_step empty_desk d -> routing d = [] ->
  (forall id, CResult id Granted ∈ log (ds_approver d) -> exists ev, ev ∈ ds_audit d /\ answers ev id true) /\
  (forall ev, ev ∈ ds_audit d -> exists id g, answers ev id g /\ CSignal id g ∈ log (ds_approver d)).
Proof.
  intros Hr Hq. assert (desk_inv d) as [A B C].
  { assert (desk_inv empty_desk) as H0 by (split; cbn; [done|intros id g Hin; by apply not_elem_of_nil in Hin|intros ev Hin; by apply not_elem_of_nil in Hin]).
    clear Hq. induction Hr as [|x y z Hxy _ IH]; [done|]. apply IH. by eapply desk_step_inv. }
  rewrite Hq in *. split; [|done]. intros id Hg. destruct (inv_results _ (approver_reachable _ A) id Hg) as (l1 & l2 & El & k1 & k2 & k3 & E1 & _).
  destruct (B id true) as (ev & Hev & Ha); [|by exists ev]. rewrite El, E1. rewrite !elem_of_app, elem_of_cons, elem_of_app, elem_of_cons. tauto.
Qed.

(** The client that answers need not be of the session that asked: its id is all
    that is looked at. *)
Lemma another_session_may_answer env c c' granted d mw : ds_approver (routeApproval mw env c granted d) = ds_approver (routeApproval mw env c' granted d).
Proof. unfold routeApproval. by destruct (negb mw || _). Qed.

(** An answer to a request that is not pending is recorded like any other. *)
Lemma unasked_answers_are_recorded env c granted : CorrelationID env <> "" ->
  routing (routeApproval true env c granted empty_desk) = [approval_event env c granted].
Proof. intros Hne. unfold routeApproval. by rewrite (proj2 (String.eqb_neq _ _) Hne). Qed.
End route.
